(* ===== verification/_CoqProject ===== *)
-Q . S2P
Prelude.v
Kernel.v
Frames.v
Ring.v
Regs.v
Api.v
Device.v
CanMsg.v
Chan.v
CanChip.v
CanTx.v
CanRx.v
CanDev.v
CanCtl.v
CanXfer.v
BcanLib.v
I2c.v
Fw.v
Video.v
Trigger.v
Resource.v
ChanRes.v
RxRes.v
Irq.v
Stats.v
VideoMeta.v
VideoQueue.v
VideoStream.v
Gps.v
CamHci.v
VideoDev.v
Dispatch.v
Watchdog.v
Main.v
RegDev.v
TrigLib.v
Sysfs.v
EsdApi.v
Dpc.v
OsifText.v
Osif.v
EsdCan.v
EsdHandle.v
