(* ===== verification/Prelude.v ===== *)
(** * Verification of the Apollo sensor-FPGA driver

    The program is the Linux kernel driver "basa" for Baidu's sensor box
    ([src/baidu/src/kernel/drivers/baidu/basa/]): one FPGA on the PCI bus that
    carries CAN buses, cameras with a common trigger, I2C controllers, a GPS
    clock and a firmware loader.  User programs reach it through character
    devices and ioctls whose numbers and structures are in
    [src/baidu/src/kernel/include/uapi/linux/].  Beside it the repository keeps a
    second CAN driver, that of esd ([src/esd/src/]); of it the entries of user
    programs (esdcan_common.c) and the layer between the driver and the operating
    system (osif.c, osif.h) are modelled.

    ** How the parts work together

    A device ([zynq_dev], basa_main.c) owns channels ([zynq_chan], basa_chan.c).
    A CAN channel has a CAN ([zynq_can], basa_can.c), a video channel a camera
    ([zynq_video], basa_video.c).  An interrupt runs the device's tasklet, which
    hands the events to the channels, which call the CAN's or the camera's
    handlers.  Ioctls of the character devices call the same components from
    process context; spin locks and completions keep the two apart.

    The esd driver runs the work its interrupts leave in deferred calls: a DPC
    is put on a chain, and one kernel thread takes it off and calls its
    function.  Timers end in a DPC; both take their memory from the same layer.
    An open file of it has a handle; calls run under the mutex of the CAN net,
    hand frames to the nucleus, which is shipped as a binary, and wait with the
    mutex given back until a callback of the nucleus, a signal or a close ends
    the wait.

    ** How the code is embedded

    The language of the models is the state and error monad of [Kernel]: a
    computation over the state [S] of a component takes a [world S] (the state,
    the locks held, the history of calls to the outside) and returns a value, or
    faults (a deadlock, an unlock of a lock not held, an index out of range, a
    division by zero, a pointer that is NULL, dangling or of another type), or runs out of fuel.  Everything that is not in the
    repository — device registers, user memory, clocks, allocators, the
    scheduler — answers through one class [Env], a function of the whole
    history; theorems hold for every such environment unless they say what they
    rely on.  Each register access, store for the device, copy to the user and
    lock operation is an event of the history, so that theorems can state what
    was done and in which order.  Module parameters are the class [ModParams].
    [wp m Q w] says that [m], run in [w], returns and satisfies [Q]: no fault,
    no exhausted fuel.

    Integers keep their width: [u32], [u64], [s32] are the conversions, applied
    where C applies them.  Structures are records with setters
    ([r<|field := v|>]), arrays are lists read by [array_get], which faults out
    of range.  A [let] of the model is an assignment of the code.

    ** Files

    - [Prelude]: integers, bit fields, record update, list lookup by [Z].
    - [Kernel]: the monad, calls and events, loops, weakest preconditions,
      [silent]/[calmly]/[wrote]: runs that write no register, hand out nothing,
      or write exactly a list of registers; [accesses]: the reads and writes of
      the device in order, with the values, for theorems that say what a value
      read made the driver do.
    - [Ring]: index rings as queues (generic; clients: [Chan], [CanRx]).
    - [Regs], [Api]: basa_regs.h, zynq_api.h and bcan_defs.h, constant by
      constant.
    - [Device]: the records and the register access functions of basa.h, the
      statistics of basa_debug.h, interrupt enables of basa_main.c.
    - [CanMsg]: messages and IP frames (basa_can.c, basa_can.h), C1-C2.
    - [Chan]: the DMA channel (basa_chan.c), C3-C5: the transmit ring is a
      bounded queue.
    - [CanChip], [CanTx], [CanRx], [CanDev], [CanCtl]: basa_can.c by function:
      the IP's control, transmission (C6-C7), reception (C8-C11), the character
      device, and the control invariant with its theorems (C12).
      [CanTx.TxPort] is the interface between a batch and the three ways to
      send a frame; [CanRx.RxService] the one between a blocked reader and the
      interrupt service that runs meanwhile.
    - [I2c] (basa_i2c.c, C17), [Fw] (basa_fwupdate.c, C19), [Video]
      (time stamps and configuration of basa_video.c, C21), [Trigger]
      (basa_trigger.c).
    - [Resource]: what a run acquires and gives back, with rules for loops that
      fill an array and undo it; [ChanRes], [RxRes]: initialisation and
      finalisation of the rings of basa_chan.c, C24-C25; [Irq]: basa_intr.c, the
      interrupt modes and their release, C26.
    - [Frames]: what a computation leaves alone ([only], [frames], [never]), and
      pointwise equivalence of computations ([M_equiv]) with its laws; [Stats]:
      what runs do to counters.
    - basa_video.c: [VideoMeta] the metadata check and frame accounting (C27),
      [VideoQueue] the buffer queue and reception (C28-C29), [VideoStream] the
      ring for zero copy, start, stop and reset (C30-C31), [VideoDev] the V4L2
      requests, ioctls, registration and link changes (C35).  [CamHci]:
      basa_cam_hci.c, the camera's host commands over I2C (C34).
    - [Gps]: basa_gps.c, clocks and their synchronisation (C32-C33).
    - [Dispatch]: the whole device, a list of channels with the CAN or camera
      each leads to; the tasklets and interrupt masks of basa_main.c and the
      watchdog thread of basa_chan.c (C36).  [Watchdog]: what one round of it
      does (C37).
    - [Main]: allocation, probing, removal, character devices and the module
      (basa_driver.c, basa_main.c, [zchan_init]/[zchan_fini]), C38-C39.
    - [CanXfer]: what sending and receiving leave alone; [BcanLib]: the user
      library lib/bcan/bcan_lib.c run over the modelled driver, C40.
    - [RegDev]: the register device (basa_reg.c) with the statistics table.
    - [TrigLib]: the user library lib/adv_trigger/adv_trigger_ctl.c over the
      system calls it makes, C18.
    - [Sysfs]: the attributes of one device (basa_sysfs.c) with the variables they
      select by, and the CAN tests they start (C23); the list of devices that
      basa_main.c shows.
    - osif.c of esd: [Dpc] the chain of deferred calls and the system of thread,
      callers and attaching as a transition relation, every statement outside the
      lock a step of its own (C13, C14); [OsifText] formatted output (C15);
      [Osif] division, memory, timers, times and serial numbers.
    - esdcan_common.c: [EsdApi] canio.h and the other constants, constant by
      constant, the length code of a frame, the commands of 32-bit programs;
      [EsdCan] the handle, the callbacks of the nucleus, every command of ioctl,
      creation and release, with the calls that wait stated in the pieces between
      the points where the mutex is free, and a read as a whole while the nucleus
      puts frames (C20); [EsdHandle] those pieces as the
      steps of any number of processes on one handle, with signals and callbacks:
      who can be in the driver (C16), and that a close returns once the nucleus
      has reported the ends of the read and the write, in either order, and then
      the close (C22).

    ** Theorems

    Round trip and layout of data (C1, C2, C33); refinement of queues (C3, C4,
    C8, C9, C13); functional behaviour with termination on every device behaviour
    (C6, C7, C10, C11, C17, C19-C21, C27, C28, C30, C31, C35); invariants over
    all sequences of operations (C12, C29, C40); safety (C5), under every
    interleaving of the processes on a handle (C16);
    bounds (C15, C23, C34); resource accounting on every failure path (C24-C26, C39);
    error outcomes (C18, C32); the tasklet as a list of handlers chosen by the status
    bits, an equivalence (C36); progress of the watchdog (C37), of deferred calls (C14) and of a
    close (C22); typing of the
    channel pointers (C38).  Each theorem with a hypothesis is applied to a
    concrete state by the witness of the same name in the file's [...Witness]
    module.

    Where the code itself goes wrong the theorem says so, or excludes the case by
    a premise and an example shows it: a head reported 2^36 bytes beyond the ring
    is believed (C5); a negative baud rate, or one from 2^31 on at the library,
    faults (C12, C40); MSI-X is lost on kernels since 4.12 (C26); an AR0231 frame
    with exposure row 0 makes the driver divide by 0 (C21 and C27 state the
    divisions, C29 and C30 exclude such frames); a video ring whose last page
    table is exactly full is read past its end (excluded in C30); the system clock
    is set however far the GPS is away (C32); an error masked at jiffies 0 stays
    masked (C37).  Premises on the outside: that the reset register reads back as
    the core documents (C12, C40), mappings as long as the device records (C23), a
    clock that advances while the driver sleeps (C6, C19), and, where registers
    are read or written, that the module is not loaded in bring-up mode, in which
    it does not access the device.

    ** Interfaces and parameters

    [CanTx.TxPort], [CanRx.RxService], [Device.HasStats] and
    [Dispatch.HasChan] are what one component promises to another;
    [OsifText.Sink] is what the formatter needs of the place it writes to and
    stores the counts of %n in, which is the memory with the buffer or, in the
    specification, the whole text with the counts.  Module
    parameters are [Kernel.ModParams] and, of basa_video.c,
    [VideoMeta.VideoParams] and [CamHci.CamParams].  What the repository does not
    define enters as a class: the kernel's calendar ([Gps.Calendar]) and the sizes
    of structures that embed kernel types ([Main.Sizes], and the argument
    [sizeof_CAN_OCB] of [EsdCan]).

    ** Bounds and fuel

    Loops that the code bounds by a counter are unrolled to that bound.  Loops
    that wait for a device until a time limit get fuel: [tx_rounds] attempts
    per message suffice for [zcan_tx_user] when the clock advances while the
    driver sleeps, [naps] likewise for the firmware upload; the receive service
    needs as much fuel as frames arrive; C6, C8, C11 and C19 prove that this
    fuel is enough.  Ring walks get the size of the ring, walks over the frames
    of a video ring the number of frames (C28, C29); the reset of a stream naps
    five times at most (C31).  The fuel of a tasklet bounds the FIFO loop of the
    CANs it serves.  A thread's life is bounded by a number of rounds; C37 is
    about one round.  The directory the trigger library reads has a bounded number
    of entries (C18).  The loops of the 64-bit division take at most 64 and 65
    turns ([Osif.Div64.div64_is_division] has no premise on fuel), a walk along the
    chain of DPCs one turn for each DPC, the formatter one for each character of
    its format (C13, C15).  The waits of [EsdCan] have fuel; in [EsdHandle] a wait is
    a place where a process sleeps, without any bound, and C22 counts the moves.

    ** Not modelled

    Trace output (it neither reads registers nor changes state, except the
    register dumps, which are modelled); memory ordering of the CPU; real
    concurrency in the basa driver, except that the environment runs the receive
    service and other work where a waiting process lets it (C11, C31), whereas
    [Dpc] interleaves thread and callers statement by statement, and [EsdHandle]
    processes by the pieces that run under the mutex; names of device nodes; the
    command line tools, which parse arguments and print.

    Of osif.c the mutexes, port input and output, PCI configuration and module
    entry points, each a call of the kernel, and the branches for kernels before
    2.6 and without OSIF_USE_PREEMPT_RT_IMPLEMENTATION.  Of
    the handles the builds with BOARD_USB or BOARD_CAN_FD.  The rest of src/esd is
    the attaching of cards with its PCI glue (esdcan.c, esdcan_pci.c), nucleus and
    board objects that are shipped as binaries, and an example.  The other
    directories (src/obu, src/pandora, src/lslidar_apollo, src/rslidar,
    src/smartereye, src/velodyne_vls) are C++ applications and sensor drivers for
    ROS of other vendors. *)

From stdpp Require Export base numbers list option strings.
From Stdlib Require Export ZArith Lia Bool.

#[global] Open Scope Z_scope.
#[export] Set Default Proof Using "Type".
#[global] Set Warnings "-notation-overridden".

(** ** Machine integers

    A C integer of width [w] is a [Z]; the wrap-around of the C conversion is
    written out wherever the source converts. *)
Definition u8 (z : Z) : Z := z mod 2 ^ 8.
Definition u16 (z : Z) : Z := z mod 2 ^ 16.
Definition u32 (z : Z) : Z := z mod 2 ^ 32.
Definition u64 (z : Z) : Z := z mod 2 ^ 64.
(** conversion to [int] *)
Definition s32 (z : Z) : Z := (z + 2 ^ 31) mod 2 ^ 32 - 2 ^ 31.
(** and to [long] *)
Definition s64 (z : Z) : Z := (z + 2 ^ 63) mod 2 ^ 64 - 2 ^ 63.

(** [v & mask] used as a C condition *)
Definition tst (v mask : Z) : bool := negb (Z.land v mask =? 0).
(** a mask of one bit *)
Lemma tst_bit v i : 0 <= i -> tst v (Z.shiftl 1 i) = Z.testbit v i.
Proof.
  intros Hi. unfold tst. rewrite Z.shiftl_1_l. destruct (Z.testbit v i) eqn:E.
  - apply negb_true_iff, Z.eqb_neq. intros E0. apply (f_equal (fun x => Z.testbit x i)) in E0.
    by rewrite Z.land_spec, E, Z.pow2_bits_true, Z.bits_0 in E0.
  - apply negb_false_iff, Z.eqb_eq, Z.bits_inj_0. intros j. rewrite Z.land_spec.
    destruct (decide (i = j)) as [<-|Hj]; [by rewrite E |].
    by rewrite Z.pow2_bits_false, andb_false_r by congruence.
Qed.

(** bits set and cleared *)
Lemma tst_lor x a m : tst (Z.lor x a) m = tst x m || tst a m.
Proof.
  unfold tst. rewrite Z.land_lor_distr_l.
  destruct (Z.eqb_spec (Z.land x m) 0) as [E|E], (Z.eqb_spec (Z.land a m) 0) as [E'|E']; simpl;
    destruct (Z.eqb_spec (Z.lor (Z.land x m) (Z.land a m)) 0) as [F|F]; try done;
    try (apply Z.lor_eq_0_iff in F; lia). by rewrite E, E' in F.
Qed.
Lemma tst_untouched x a m : Z.land (Z.lnot a) m = m -> tst (Z.land x (Z.lnot a)) m = tst x m.
Proof. intros Hm. unfold tst. by rewrite <- Z.land_assoc, Hm. Qed.
Lemma tst_cleared x a : tst (Z.land x (Z.lnot a)) a = false.
Proof.
  unfold tst. rewrite <- Z.land_assoc, (Z.land_comm (Z.lnot a)), Z.land_lnot_diag, Z.land_0_r. done.
Qed.
Lemma tst_0 m : tst 0 m = false.
Proof. done. Qed.
Lemma tst_nonzero x m : tst x m = true -> x <> 0.
Proof. by intros H ->. Qed.

(** ** Bit fields

    [bf_get lo w v] is the [w]-bit field of [v] that starts at bit [lo];
    [bf_set lo w v x] is [v] with that field replaced by the low bits of
    [x].  C bit-field members and the driver's [GET_BITS]/[SET_BITS] macros are
    instances. *)
Definition bf_get (lo w v : Z) : Z := Z.land (Z.shiftr v lo) (Z.ones w).
Definition bf_set (lo w v x : Z) : Z :=
  Z.lor (Z.land v (Z.lnot (Z.shiftl (Z.ones w) lo)))
        (Z.shiftl (Z.land x (Z.ones w)) lo).

(** byte [i] of a word, and the byte swap of [htonl]/[ntohl] on a
    little-endian machine *)
Definition byte_of (v i : Z) : Z := Z.land (Z.shiftr v (8 * i)) 0xFF.
Definition htonl (v : Z) : Z :=
  Z.lor (Z.shiftl (byte_of v 0) 24)
    (Z.lor (Z.shiftl (byte_of v 1) 16)
      (Z.lor (Z.shiftl (byte_of v 2) 8) (byte_of v 3))).
Definition ntohl (v : Z) : Z := htonl v.

(** index of the most significant bit set, counted from 1 (kernel [fls]) *)
Definition fls (v : Z) : Z := if v <=? 0 then 0 else Z.log2 v + 1.

Create HintDb basa.
Create Rewrite HintDb basa_rw.

(** *** Lemmas on machine integers *)
Lemma u32_range (z : Z) : 0 <= u32 z < 2 ^ 32.
Proof. unfold u32. apply Z.mod_pos_bound. lia. Qed.

Lemma u8_range (z : Z) : 0 <= u8 z < 256.
Proof. unfold u8. apply (Z.mod_pos_bound z (2 ^ 8)). lia. Qed.

Lemma u32_small (z : Z) : 0 <= z < 2 ^ 32 -> u32 z = z.
Proof. intros. unfold u32. apply Z.mod_small. lia. Qed.

Lemma u16_small (z : Z) : 0 <= z < 2 ^ 16 -> u16 z = z.
Proof. intros. unfold u16. apply Z.mod_small. lia. Qed.

Lemma u64_small (z : Z) : 0 <= z < 2 ^ 64 -> u64 z = z.
Proof. intros. unfold u64. apply Z.mod_small. lia. Qed.

Lemma u8_small (z : Z) : 0 <= z < 256 -> u8 z = z.
Proof. intros. unfold u8. apply Z.mod_small. lia. Qed.

Lemma s32_small (z : Z) : - 2 ^ 31 <= z < 2 ^ 31 -> s32 z = z.
Proof. intros. unfold s32. rewrite Z.mod_small; lia. Qed.

Lemma s32_range (z : Z) : - 2 ^ 31 <= s32 z < 2 ^ 31.
Proof. unfold s32. pose proof (Z.mod_pos_bound (z + 2 ^ 31) (2 ^ 32)). lia. Qed.

Lemma u32_idemp (z : Z) : u32 (u32 z) = u32 z.
Proof. apply u32_small, u32_range. Qed.

#[export] Hint Resolve u32_range u8_range s32_range : basa.
#[export] Hint Rewrite u32_idemp : basa_rw.

(** *** Lemmas on bits *)
Lemma testbit_bf_get (lo w v n : Z) :
  0 <= lo -> 0 <= w -> 0 <= n ->
  Z.testbit (bf_get lo w v) n = (n <? w) && Z.testbit v (n + lo).
Proof.
  intros. unfold bf_get.
  rewrite Z.land_spec, Z.shiftr_spec, Z.testbit_ones by lia.
  rewrite andb_comm. destruct (Z.leb_spec 0 n); [done | lia].
Qed.

Lemma testbit_bf_set (lo w v x n : Z) :
  0 <= lo -> 0 <= w -> 0 <= n ->
  Z.testbit (bf_set lo w v x) n =
    if (lo <=? n) && (n <? lo + w) then Z.testbit x (n - lo)
    else Z.testbit v n.
Proof.
  intros. unfold bf_set.
  rewrite Z.lor_spec, Z.land_spec, Z.lnot_spec, !Z.shiftl_spec by lia.
  destruct (Z.leb_spec lo n); simpl.
  - rewrite Z.land_spec, Z.testbit_ones by lia.
    cbv [andb]; destruct (Z.leb_spec 0 (n - lo)), (Z.ltb_spec (n - lo) w),
      (Z.ltb_spec n (lo + w)); try lia; simpl;
      destruct (Z.testbit v n), (Z.testbit x (n - lo)); done.
  - rewrite !(Z.testbit_neg_r _ (n - lo)) by lia. simpl.
    destruct (Z.testbit v n); done.
Qed.

Lemma bits_ext (a b : Z) :
  (forall n, 0 <= n -> Z.testbit a n = Z.testbit b n) -> a = b.
Proof. apply Z.bits_inj'. Qed.

Lemma bf_get_set_same (lo w v x : Z) :
  0 <= lo -> 0 <= w -> bf_get lo w (bf_set lo w v x) = Z.land x (Z.ones w).
Proof.
  intros. apply bits_ext. intros n ?.
  rewrite testbit_bf_get, testbit_bf_set, Z.land_spec, Z.testbit_ones by lia.
  destruct (Z.ltb_spec n w), (Z.leb_spec lo (n + lo)),
    (Z.ltb_spec (n + lo) (lo + w)), (Z.leb_spec 0 n); try lia; simpl;
    rewrite ?andb_true_r, ?andb_false_r; try done; f_equal; lia.
Qed.

Lemma bf_get_set_other (lo w lo' w' v x : Z) :
  0 <= lo -> 0 <= w -> 0 <= lo' -> 0 <= w' ->
  lo + w <= lo' \/ lo' + w' <= lo ->
  bf_get lo w (bf_set lo' w' v x) = bf_get lo w v.
Proof.
  intros. apply bits_ext. intros n ?.
  rewrite !testbit_bf_get, testbit_bf_set by lia.
  destruct (Z.ltb_spec n w), (Z.leb_spec lo' (n + lo)),
    (Z.ltb_spec (n + lo) (lo' + w')); try lia; done.
Qed.

Lemma bf_get_range (lo w v : Z) : 0 <= w -> 0 <= bf_get lo w v < 2 ^ w.
Proof.
  intros. unfold bf_get. rewrite Z.land_ones by lia.
  apply Z.mod_pos_bound. lia.
Qed.

Lemma land_ones_small (x w : Z) : 0 <= w -> 0 <= x < 2 ^ w -> Z.land x (Z.ones w) = x.
Proof. intros. rewrite Z.land_ones by lia. apply Z.mod_small; lia. Qed.

Lemma testbit_high (x w n : Z) : 0 <= x < 2 ^ w -> w <= n -> Z.testbit x n = false.
Proof.
  intros Hx Hn. destruct (Z.eq_dec x 0) as [->|]; [apply Z.bits_0 |].
  apply Z.bits_above_log2; [lia |].
  apply Z.lt_le_trans with w; [| lia]. apply Z.log2_lt_pow2; lia.
Qed.

Lemma range_of_bits (x w : Z) :
  0 <= w -> (forall n, w <= n -> Z.testbit x n = false) -> 0 <= x < 2 ^ w.
Proof.
  intros Hw H. assert (x = Z.land x (Z.ones w)) as ->.
  { apply bits_ext. intros n Hn. rewrite Z.land_spec, Z.testbit_ones by lia.
    destruct (Z.leb_spec 0 n); [|lia].
    destruct (Z.ltb_spec n w); simpl; [by rewrite andb_true_r |].
    rewrite H by lia. done. }
  rewrite Z.land_ones by lia. apply Z.mod_pos_bound; lia.
Qed.

Lemma bf_set_range (lo w v x n : Z) :
  0 <= lo -> 0 <= w -> lo + w <= n -> 0 <= v < 2 ^ n -> 0 <= bf_set lo w v x < 2 ^ n.
Proof.
  intros. apply range_of_bits; [lia |]. intros m Hm.
  rewrite testbit_bf_set by lia.
  destruct (Z.leb_spec lo m), (Z.ltb_spec m (lo + w)); simpl; try lia;
    eapply testbit_high; eauto; lia.
Qed.

Lemma lor_shiftl_add (a b k : Z) :
  0 <= k -> 0 <= a < 2 ^ k -> Z.lor (Z.shiftl b k) a = b * 2 ^ k + a.
Proof.
  intros Hk Ha. pose proof (Z.add_lor_land (Z.shiftl b k) a) as Hadd.
  assert (Z.land (Z.shiftl b k) a = 0) as Hland.
  { apply bits_ext. intros n Hn. rewrite Z.land_spec, Z.bits_0, Z.shiftl_spec by lia.
    destruct (Z.ltb_spec n k).
    - rewrite (Z.testbit_neg_r _ (n - k)) by lia. done.
    - rewrite (testbit_high a k n) by lia. apply andb_false_r. }
  rewrite Z.shiftl_mul_pow2 in * by lia. lia.
Qed.

Lemma byte_of_eq (v i : Z) : 0 <= i -> byte_of v i = (v / 2 ^ (8 * i)) mod 256.
Proof.
  intros. unfold byte_of. change 0xFF with (Z.ones 8).
  rewrite Z.land_ones, Z.shiftr_div_pow2 by lia. done.
Qed.

Lemma byte_of_range (v i : Z) : 0 <= i -> 0 <= byte_of v i < 256.
Proof. intros. rewrite byte_of_eq by lia. apply Z.mod_pos_bound; lia. Qed.

Lemma htonl_eq (v : Z) :
  htonl v = byte_of v 0 * 2 ^ 24 + byte_of v 1 * 2 ^ 16 + byte_of v 2 * 2 ^ 8
            + byte_of v 3.
Proof.
  assert (forall i, 0 <= i -> 0 <= byte_of v i < 256) as Hb by apply byte_of_range.
  pose proof (Hb 0 ltac:(lia)); pose proof (Hb 1 ltac:(lia));
  pose proof (Hb 2 ltac:(lia)); pose proof (Hb 3 ltac:(lia)).
  unfold htonl.
  rewrite (lor_shiftl_add (byte_of v 3)) by lia.
  rewrite (lor_shiftl_add (_ + byte_of v 3)) by lia.
  rewrite lor_shiftl_add by lia. lia.
Qed.

Lemma htonl_range (v : Z) : 0 <= htonl v < 2 ^ 32.
Proof.
  pose proof (byte_of_range v 0 ltac:(lia)); pose proof (byte_of_range v 1 ltac:(lia));
  pose proof (byte_of_range v 2 ltac:(lia)); pose proof (byte_of_range v 3 ltac:(lia)).
  rewrite htonl_eq. lia.
Qed.

(** a word is determined by its four bytes *)
Definition word_of (b3 b2 b1 b0 : Z) : Z := b3 * 2 ^ 24 + b2 * 2 ^ 16 + b1 * 2 ^ 8 + b0.

Lemma byte_of_word (b3 b2 b1 b0 : Z) :
  0 <= b3 < 256 -> 0 <= b2 < 256 -> 0 <= b1 < 256 -> 0 <= b0 < 256 ->
  byte_of (word_of b3 b2 b1 b0) 0 = b0 /\ byte_of (word_of b3 b2 b1 b0) 1 = b1 /\
  byte_of (word_of b3 b2 b1 b0) 2 = b2 /\ byte_of (word_of b3 b2 b1 b0) 3 = b3.
Proof.
  intros. rewrite !byte_of_eq by lia. unfold word_of.
  repeat split; symmetry.
  - apply Z.mod_unique with (b3 * 65536 + b2 * 256 + b1); [lia |].
    rewrite Z.div_1_r. lia.
  - apply Z.mod_unique with (b3 * 256 + b2); [lia |].
    symmetry. apply Z.div_unique with b0; lia.
  - apply Z.mod_unique with b3; [lia |].
    symmetry. apply Z.div_unique with (b1 * 256 + b0); lia.
  - apply Z.mod_unique with 0; [lia |].
    symmetry. apply Z.div_unique with (b2 * 65536 + b1 * 256 + b0); lia.
Qed.

Lemma word_of_bytes (v : Z) :
  0 <= v < 2 ^ 32 ->
  word_of (byte_of v 3) (byte_of v 2) (byte_of v 1) (byte_of v 0) = v.
Proof.
  intros. rewrite !byte_of_eq by lia. unfold word_of.
  change (2 ^ (8 * 0)) with 1; change (2 ^ (8 * 1)) with 256;
  change (2 ^ (8 * 2)) with 65536; change (2 ^ (8 * 3)) with 16777216.
  rewrite Z.div_1_r.
  pose proof (Z.div_mod v 256 ltac:(lia)).
  pose proof (Z.div_mod (v / 256) 256 ltac:(lia)) as H1.
  pose proof (Z.div_mod (v / 65536) 256 ltac:(lia)) as H2.
  rewrite Z.div_div in H1, H2 by lia.
  change (256 * 256) with 65536 in H1. change (65536 * 256) with 16777216 in H2.
  rewrite (Z.mod_small (v / 16777216)); [lia |].
  split; [apply Z.div_pos; lia | apply Z.div_lt_upper_bound; lia].
Qed.

Lemma htonl_word_of (v : Z) :
  htonl v = word_of (byte_of v 0) (byte_of v 1) (byte_of v 2) (byte_of v 3).
Proof. rewrite htonl_eq. unfold word_of. lia. Qed.

Lemma htonl_involutive (v : Z) : 0 <= v < 2 ^ 32 -> htonl (htonl v) = v.
Proof.
  intros. rewrite (htonl_word_of (htonl v)), (htonl_word_of v).
  destruct (byte_of_word (byte_of v 0) (byte_of v 1) (byte_of v 2) (byte_of v 3))
    as (-> & -> & -> & ->); try (apply byte_of_range; lia).
  by apply word_of_bytes.
Qed.

#[export] Hint Resolve bf_get_range htonl_range : basa.

(** *** Lemmas on lists *)
Lemma app_cons_inv_nil {A} (l : list A) (x : A) : x :: l <> l.
Proof. intros H. apply (f_equal length) in H. simpl in H. lia. Qed.

(** C-style array access by a signed index: [None] outside the array *)
Definition zlookup {A} (l : list A) (i : Z) : option A :=
  if i <? 0 then None else l !! Z.to_nat i.
Definition zinsert {A} (i : Z) (x : A) (l : list A) : option (list A) :=
  if (0 <=? i) && (i <? Z.of_nat (length l)) then Some (<[Z.to_nat i := x]> l) else None.

Lemma zlookup_Some {A} (l : list A) (i : Z) :
  0 <= i < Z.of_nat (length l) -> exists x, zlookup l i = Some x.
Proof.
  intros. unfold zlookup. destruct (Z.ltb_spec i 0); [lia |].
  apply lookup_lt_is_Some. lia.
Qed.

Lemma zlookup_nonneg {A} (l : list A) (i : Z) : 0 <= i -> zlookup l i = l !! Z.to_nat i.
Proof. intros. unfold zlookup. by destruct (Z.ltb_spec i 0); [lia |]. Qed.

Lemma zinsert_Some {A} (l : list A) (i : Z) (x : A) :
  0 <= i < Z.of_nat (length l) -> zinsert i x l = Some (<[Z.to_nat i := x]> l).
Proof.
  intros. unfold zinsert.
  destruct (Z.leb_spec 0 i), (Z.ltb_spec i (Z.of_nat (length l))); (done || lia).
Qed.

(** ** Record updates

    [r <| f := v |>] is [r] with field [f] set to [v], and [r <| f ::= g |>] with
    [g] applied to it.  A record type declares its eta expansion once as an
    instance of [Eta]; the setter of a field is derived from it. *)
Class Eta (R : Type) := eta : R -> R.
Class Setter {R E : Type} (getter : R -> E) := fset : (E -> E) -> R -> R.
Arguments fset {R E} getter {_} _ _.

Ltac mk_setter :=
  lazymatch goal with
  | |- @Setter ?R ?E ?getter =>
      exact (fun (upd : E -> E) (r : R) => ltac:(
        let body := eval hnf in (@eta R _ r) in
        lazymatch eval pattern (getter r) in body with
        | ?f _ => let t := eval cbv beta in (f (upd (getter r))) in exact t
        end))
  end.
#[global] Hint Extern 1 (Setter _) => mk_setter : typeclass_instances.

Declare Scope record_set.
Open Scope record_set.
Notation "x <| proj := v |>" := (fset proj (fun _ => v) x)
  (at level 1, left associativity, proj at level 0, v at level 99,
   format "x <| proj  :=  v |>") : record_set.
Notation "x <| proj ::= f |>" := (fset proj f x)
  (at level 1, left associativity, proj at level 0, f at level 99,
   format "x <| proj  ::=  f |>") : record_set.

(** *** Tactics *)

(** split the boolean comparisons of [Z] in the goal and the context *)
Ltac case_cmp :=
  repeat match goal with
  | |- context [?a =? ?b] => destruct (Z.eqb_spec a b)
  | |- context [?a <? ?b] => destruct (Z.ltb_spec a b)
  | |- context [?a <=? ?b] => destruct (Z.leb_spec a b)
  end.

Ltac simp := repeat (simplify_eq/=; autorewrite with basa_rw in *).
