(* ===== verification/Kernel.v ===== *)
(** * Kernel services used by the driver

    The driver code is embedded in a state, failure and trace monad [M S A].
    The world of a computation holds the component's own state, the spin locks
    held and the history of every call that leaves the driver: register
    accesses, delays, clock reads, copies from and to user memory, memory
    allocation, completions.  The answers come from an environment, a function
    of the whole history and of the call, so any device, clock, user process or
    allocator behaviour is an instance.

    Undefined behaviour of the C code is a [Fault]: an array index out of
    range, a spin lock taken twice or released while not held, a null
    dereference, a division by zero. *)

From S2P Require Import Prelude.

(** ** Addresses and calls *)

(** device address: a mapped BAR and a byte offset in it *)
Inductive bar := BAR0 | BAR2.
Definition addr : Type := bar * Z.
Definition addr_add (a : addr) (off : Z) : addr := (a.1, a.2 + off).
#[global] Instance bar_eq_dec : EqDecision bar.
Proof. solve_decision. Defined.

(** spin locks and mutexes of the drivers, by the instance that owns them *)
Inductive lock :=
| L_zcan_pio (ip : Z) | L_zcan_pio_tx (ip : Z) | L_zcan_pio_tx_hi (ip : Z)
| L_zcan_pio_rx (ip : Z)
| L_zchan (ch : Z) | L_zchan_tx (ch : Z) | L_zchan_rx (ch : Z)
| L_zdev | L_zdev_i2c | L_zynq_gps | L_zynq_g
| L_zvideo_q (v : Z) | L_zvideo_r (v : Z)
| L_esd_node (net : Z).                (** mutex of a node of the esd driver *)
#[global] Instance lock_eq_dec : EqDecision lock.
Proof. solve_decision. Defined.

(** completions *)
Inductive compl := C_zcan_usr_rx (ip : Z) | C_watchdog (ch : Z) | C_gpspps | C_gps_wait.
#[global] Instance compl_eq_dec : EqDecision compl.
Proof. solve_decision. Defined.

(** calls that leave the driver *)
Inductive call :=
| MmioRead (a : addr)
| MmioWrite (a : addr) (v : Z)
| Mdelay (ms : Z)
| Udelay (us : Z)
| UsleepRange (lo hi : Z)
| Msleep (ms : Z)
| SpinLock (l : lock)
| SpinUnlock (l : lock)
| Jiffies
| KtimeGet          (** monotonic clock, nanoseconds *)
| KtimeSec          (** seconds of the real-time clock *)
| KtimeNsec         (** its nanoseconds *)
| CopyFromUser (src len : Z)   (** number of bytes that could not be copied *)
| UserWord (src : Z) (i : nat) (** 32-bit word [i] of the user buffer *)
| CopyToUser (dst len : Z) (data : list Z)
| InitCompletion (c : compl)
| Complete (c : compl)
| WaitCompletion (c : compl) (timeout : Z)
| ConcurrentRx (ip : Z)        (** receive interrupts served meanwhile *)
| KAlloc (size : Z)            (** address of the block, 0 on failure *)
| KFree (p : Z)
| AllocPages (size : Z)        (** page structure, 0 on failure *)
| PageAddress (p : Z)
| FreePages (p : Z)
| DmaAlloc (size : Z)          (** virtual address of the block, 0 on failure *)
| DmaHandle (p : Z)            (** its bus address *)
| DmaFree (p dma size : Z)
| DmaMap (p size : Z)          (** bus address of a mapped buffer *)
| DmaMapError (dma : Z)        (** nonzero: the mapping failed *)
| DmaUnmap (dma size : Z)
| DmaSync (dma size : Z)
| DmaStore (p : Z) (data : list Z) (** words the driver stores for the device *)
| DmaWord (p : Z)              (** word the device stored at address [p] *)
| BufferDone (b state seq ts : Z) (** video buffer [b] back to videobuf2 *)
| KernelCall (name : string) (args : list Z).

(** a call together with its answer *)
Record event := Ev { ev_call : call; ev_ret : Z }.

(** the environment, and the driver's module parameters *)
Class Env := env_ret : list event -> call -> Z.

Class ModParams := {
  zynq_trace_param : Z;
  zynq_bringup_param : bool;
  zynq_dbg_reg_dump_param : bool;
  zynq_fwupdate_param : bool;
  zynq_stats_log_interval : Z;
  HZ : Z;                        (** jiffies per second of the kernel *)
  msecs_to_jiffies : Z -> Z;
  zynq_can_rx_buf_num : Z;
  zynq_can_ip_btr : Z;
  zynq_disable_can_hw_ts : bool;
  zynq_enable_can_rx_dma : bool;
  zynq_enable_can_tx_dma : bool;
  zynq_gps_sync_time : Z;
  zynq_gps_smooth_step : Z;
  zynq_gps_smooth_max : Z;
  zynq_gps_checksum : bool;
  zynq_gps_high_factor : Z;
  zynq_gps_low_factor : Z;
  zynq_video_zero_copy : bool;
  zynq_video_buf_num : Z
}.

(** ** The monad *)

Record world (S : Type) := World {
  w_log : list event;     (** history, newest first *)
  w_held : list lock;     (** spin locks held, last taken first *)
  w_st : S
}.
Arguments World {_} _ _ _.
Arguments w_log {_} _.
Arguments w_held {_} _.
Arguments w_st {_} _.

Inductive fault :=
| Index (i : Z)         (** array index out of bounds *)
| Deadlock (l : lock)
| NotHeld (l : lock)
| NullDeref
| DivByZero
| BadCast              (** a pointer taken for another type *)
| Dangling.            (** an access to freed memory *)

Inductive outcome (S A : Type) :=
| Ret (a : A) (w : world S)
| Fault (f : fault)
| OutOfFuel.
Arguments Ret {_ _} _ _.
Arguments Fault {_ _} _.
Arguments OutOfFuel {_ _}.

Definition M (S A : Type) : Type := world S -> outcome S A.

#[global] Instance M_ret S : MRet (M S) := fun A a w => Ret a w.
#[global] Instance M_bind S : MBind (M S) := fun A B f m w =>
  match m w with
  | Ret a w' => f a w'
  | Fault e => Fault e
  | OutOfFuel => OutOfFuel
  end.
#[global] Instance M_fmap S : FMap (M S) := fun A B f m =>
  a ← m; mret (f a).

Definition emit {S} (e : event) (w : world S) : world S :=
  World (e :: w_log w) (w_held w) (w_st w).

Definition fail {S A} (f : fault) : M S A := fun _ => Fault f.
Definition no_fuel {S A} : M S A := fun _ => OutOfFuel.
Definition get {S} : M S S := fun w => Ret (w_st w) w.
Definition gets {S A} (f : S -> A) : M S A := fun w => Ret (f (w_st w)) w.
Definition modify {S} (f : S -> S) : M S unit :=
  fun w => Ret tt (World (w_log w) (w_held w) (f (w_st w))).
Definition when {S} (b : bool) (m : M S unit) : M S unit :=
  if b then m else mret tt.

(** array access: out of range is a fault *)
Definition of_option {S A} (f : fault) (o : option A) : M S A :=
  match o with Some a => mret a | None => fail f end.
Definition array_get {S A} (l : list A) (i : Z) : M S A :=
  of_option (Index i) (zlookup l i).

(** C [%] on signed integers: zero divides nothing *)
Definition c_rem {S} (a b : Z) : M S Z :=
  if b =? 0 then fail DivByZero else mret (Z.rem a b).

(** a call that returns nothing, and one whose answer the environment gives *)
Definition tell {S} (c : call) : M S unit := fun w => Ret tt (emit (Ev c 0) w).
Definition ask {S} `{Env} (c : call) : M S Z :=
  fun w => let r := env_ret (w_log w) c in Ret r (emit (Ev c r) w).

Definition spin_lock {S} (l : lock) : M S unit := fun w =>
  if decide (l ∈ w_held w) then Fault (Deadlock l)
  else Ret tt (World (Ev (SpinLock l) 0 :: w_log w) (l :: w_held w) (w_st w)).
Definition spin_unlock {S} (l : lock) : M S unit := fun w =>
  if decide (l ∈ w_held w)
  then Ret tt (World (Ev (SpinUnlock l) 0 :: w_log w)
                 (remove lock_eq_dec l (w_held w)) (w_st w))
  else Fault (NotHeld l).

(** *** Running a component's code on its part of a larger state *)
Definition zoom {S T A} (g : S -> T) (p : T -> S -> S) (m : M T A) : M S A :=
  fun w =>
    match m (World (w_log w) (w_held w) (g (w_st w))) with
    | Ret a w' => Ret a (World (w_log w') (w_held w') (p (w_st w') (w_st w)))
    | Fault f => Fault f
    | OutOfFuel => OutOfFuel
    end.

(** ** Loops *)

(** a [while] loop whose body either goes on with a new value of its local
    variables or leaves with a result *)
Fixpoint loop {S X A} (fuel : nat) (body : X -> M S (X + A)) (x : X) : M S A :=
  match fuel with
  | O => no_fuel
  | Datatypes.S n =>
      r ← body x;
      match r with
      | inl x' => loop n body x'
      | inr a => mret a
      end
  end.

(** [for (i = from; n iterations; i++) body(i)] *)
Fixpoint for_ {S} (n : nat) (from : Z) (body : Z -> M S unit) : M S unit :=
  match n with
  | O => mret tt
  | Datatypes.S n' => body from;; for_ n' (from + 1) body
  end.

(** the same with an early exit: [Some r] leaves the loop with [r] *)
Fixpoint for_break {S A} (n : nat) (from : Z) (body : Z -> M S (option A))
  : M S (option A) :=
  match n with
  | O => mret None
  | Datatypes.S n' =>
      r ← body from;
      match r with
      | Some a => mret (Some a)
      | None => for_break n' (from + 1) body
      end
  end.

(** ** Kernel services *)
Section services.
Context `{Env} `{ModParams} {S : Type}.

Definition mdelay (ms : Z) : M S unit := tell (Mdelay ms).
Definition udelay (us : Z) : M S unit := tell (Udelay us).
Definition msleep (ms : Z) : M S unit := tell (Msleep ms).
Definition usleep_range (lo hi : Z) : M S unit := tell (UsleepRange lo hi).
Definition jiffies : M S Z := u64 <$> ask Jiffies.

(** [zynq_trace(flag, ...)]: the arguments, which may read registers, are
    evaluated only when the flag is set *)
Definition zynq_trace (flag : Z) (args : M S unit) : M S unit :=
  when (tst zynq_trace_param flag) args.

(** [copy_from_user] of [n] 32-bit words: [None] on a fault *)
Fixpoint user_words (src : Z) (i n : nat) : M S (list Z) :=
  match n with
  | O => mret []
  | Datatypes.S n' =>
      x ← ask (UserWord src i);
      l ← user_words src (i + 1) n';
      mret (u32 x :: l)
  end.
Definition copy_from_user (src : Z) (n : nat) : M S (option (list Z)) :=
  left ← ask (CopyFromUser src (4 * Z.of_nat n));
  if left =? 0 then Some <$> user_words src 0 n else mret None.
(** the same for [n] bytes, of little-endian memory *)
Definition copy_bytes_from_user (src : Z) (n : nat) : M S (option (list Z)) :=
  left ← ask (CopyFromUser src (Z.of_nat n));
  if left =? 0 then
    words ← user_words src 0 (Nat.div (n + 3) 4);
    mret (Some (take n (words ≫= fun w => [byte_of w 0; byte_of w 1; byte_of w 2; byte_of w 3])))
  else mret None.
(** [copy_to_user]: whether every byte was copied *)
Definition copy_to_user (dst : Z) (len : Z) (data : list Z) : M S bool :=
  left ← ask (CopyToUser dst len data);
  mret (left =? 0).
End services.

(** ** Traces *)

(** [emits w evs w']: the run from [w] to [w'] made the calls [evs], in order *)
Definition emits {S T} (w : world S) (evs : list event) (w' : world T) : Prop :=
  w_log w' = rev evs ++ w_log w.

(** the register writes of a history, newest first *)
Definition mmio_writes (l : list event) : list (addr * Z) :=
  omap (fun e => match ev_call e with MmioWrite a v => Some (a, v) | _ => None end) l.

(** the last value written to a register *)
Fixpoint last_write (a : addr) (l : list event) : option Z :=
  match l with
  | [] => None
  | Ev (MmioWrite b v) _ :: l' =>
      if decide (a = b) then Some v else last_write a l'
  | _ :: l' => last_write a l'
  end.

(** ** Weakest preconditions: the run returns, without fault *)
Definition wp {S A} (m : M S A) (Q : A -> world S -> Prop) (w : world S) : Prop :=
  match m w with
  | Ret a w' => Q a w'
  | _ => False
  end.

(** a run of a sequence that returns *)
Lemma bind_inv {S A B} (m : M S A) (f : A -> M S B) w b w' :
  (m ≫= f) w = Ret b w' -> exists a v, m w = Ret a v /\ f a v = Ret b w'.
Proof.
  unfold mbind, M_bind. destruct (m w) as [a v|e|] eqn:E; [| discriminate | discriminate].
  intros Hf. by exists a, v.
Qed.

Section wp_rules.
Context {S : Type}.
Implicit Types w : world S.

Lemma wp_mono {A} (m : M S A) (Q R : A -> world S -> Prop) w :
  wp m Q w -> (forall a w', Q a w' -> R a w') -> wp m R w.
Proof. unfold wp. destruct (m w); eauto. Qed.

(** a weakest precondition says that the run returns *)
Lemma wp_run {A} (m : M S A) Q w : wp m Q w <-> exists a w', m w = Ret a w' /\ Q a w'.
Proof.
  unfold wp. destruct (m w) as [a w'|f|]; split; try done; try (by intros (b & v & E & _)).
  - intros HQ. by exists a, w'.
  - intros (b & v & [= <- <-] & HQ). exact HQ.
Qed.

Lemma wp_ret {A} (a : A) Q w : Q a w -> wp (mret a) Q w.
Proof. done. Qed.

Lemma wp_bind {A B} (m : M S A) (f : A -> M S B) Q w :
  wp m (fun a w' => wp (f a) Q w') w -> wp (m ≫= f) Q w.
Proof. unfold wp, mbind, M_bind. destruct (m w); done. Qed.

(** a fault after code that returns, and in code that begins a longer one *)
Lemma wp_fault {A B} (m : M S A) (f : A -> M S B) e w :
  wp m (fun a w' => f a w' = Fault e) w -> (m ≫= f) w = Fault e.
Proof. unfold wp, mbind, M_bind. destruct (m w); done. Qed.
Lemma bind_fault {A B} (m : M S A) (f : A -> M S B) w e : m w = Fault e -> (m ≫= f) w = Fault e.
Proof. intros E. unfold mbind, M_bind. by rewrite E. Qed.

Lemma wp_fmap {A B} (m : M S A) (f : A -> B) Q w :
  wp m (fun a w' => Q (f a) w') w -> wp (f <$> m) Q w.
Proof. unfold wp, fmap, M_fmap, mbind, M_bind. destruct (m w); done. Qed.

Lemma wp_get Q w : Q (w_st w) w -> wp get Q w.
Proof. done. Qed.

Lemma wp_gets {A} (f : S -> A) Q w : Q (f (w_st w)) w -> wp (gets f) Q w.
Proof. done. Qed.

Lemma wp_modify (f : S -> S) Q w :
  Q tt (World (w_log w) (w_held w) (f (w_st w))) -> wp (modify f) Q w.
Proof. done. Qed.

Lemma wp_when (b : bool) (m : M S unit) Q w :
  (b = true -> wp m Q w) -> (b = false -> Q tt w) -> wp (when b m) Q w.
Proof. destruct b; intros H1 H2; [by apply H1 | by apply H2]. Qed.

Lemma wp_tell c Q w : Q tt (emit (Ev c 0) w) -> wp (tell c) Q w.
Proof. done. Qed.

Lemma wp_ask `{Env} c (Q : Z -> world S -> Prop) w :
  (forall r, r = env_ret (w_log w) c -> Q r (emit (Ev c r) w)) -> wp (ask c) Q w.
Proof. unfold wp, ask. eauto. Qed.

Lemma wp_spin_lock l Q w :
  l ∉ w_held w ->
  Q tt (World (Ev (SpinLock l) 0 :: w_log w) (l :: w_held w) (w_st w)) ->
  wp (spin_lock l) Q w.
Proof. unfold wp, spin_lock. intros. destruct (decide _); done. Qed.

Lemma remove_fresh (l : lock) (h : list lock) : l ∉ h -> remove lock_eq_dec l h = h.
Proof. intros. apply notin_remove. by rewrite <- list_elem_of_In. Qed.

Lemma remove_head (l : lock) (h : list lock) :
  l ∉ h -> remove lock_eq_dec l (l :: h) = h.
Proof. intros. simpl. destruct (lock_eq_dec l l); [|done]. by apply remove_fresh. Qed.

Lemma wp_spin_unlock l h Q w :
  w_held w = l :: h -> l ∉ h ->
  Q tt (World (Ev (SpinUnlock l) 0 :: w_log w) h (w_st w)) ->
  wp (spin_unlock l) Q w.
Proof.
  unfold wp, spin_unlock. intros Hw Hl HQ. rewrite Hw, remove_head by done.
  destruct (decide _) as [|n]; [done |]. destruct n. left.
Qed.

Lemma wp_array_get {A} (l : list A) i Q w :
  (exists x, zlookup l i = Some x /\ Q x w) -> wp (array_get l i) Q w.
Proof. intros (x & Hx & HQ). unfold wp, array_get. rewrite Hx. done. Qed.
End wp_rules.

Lemma wp_c_rem {S} a b (w : world S) (Q : Z -> world S -> Prop) :
  0 <= a -> 0 < b -> Q (a mod b) w -> wp (c_rem a b) Q w.
Proof.
  intros Ha Hb HQ. unfold c_rem. destruct (Z.eqb_spec b 0); [lia |].
  apply wp_ret. by rewrite Z.rem_mod_nonneg.
Qed.

Lemma wp_zoom {S T A} (g : S -> T) (p : T -> S -> S) (m : M T A) Q (w : world S) :
  wp m (fun a w' => Q a (World (w_log w') (w_held w') (p (w_st w') (w_st w))))
     (World (w_log w) (w_held w) (g (w_st w))) ->
  wp (zoom g p m) Q w.
Proof. unfold wp, zoom. destruct (m _); done. Qed.

(** *** Loop rules *)
Section loop_rules.
Context {S : Type}.

Lemma wp_for (I : Z -> world S -> Prop) n from (body : Z -> M S unit) Q w :
  I from w ->
  (forall i v, from <= i < from + Z.of_nat n -> I i v ->
     wp (body i) (fun _ v' => I (i + 1) v') v) ->
  (forall v, I (from + Z.of_nat n) v -> Q tt v) ->
  wp (for_ n from body) Q w.
Proof.
  revert from w. induction n as [|n IH]; intros from w HI Hb HQ; simpl.
  - apply HQ. by rewrite Z.add_0_r.
  - apply wp_bind. eapply wp_mono; [apply Hb; [lia | done] |].
    intros [] v Hv. apply IH; [done | |].
    + intros i v' ?. apply Hb. lia.
    + intros v' Hv'. apply HQ. by replace (from + Z.of_nat (Datatypes.S n))
        with (from + 1 + Z.of_nat n) by lia.
Qed.

(** total correctness of a loop, by a measure that decreases in each round *)
Lemma wp_loop {X A} (I : X -> world S -> Prop) (measure : X -> world S -> nat)
    (body : X -> M S (X + A)) (Q : A -> world S -> Prop) fuel x w :
  I x w -> (measure x w < fuel)%nat ->
  (forall y v, I y v ->
     wp (body y) (fun r v' =>
       match r with
       | inl y' => I y' v' /\ (measure y' v' < measure y v)%nat
       | inr a => Q a v'
       end) v) ->
  wp (loop fuel body x) Q w.
Proof.
  intros HI Hm Hb. revert x w HI Hm.
  induction fuel as [|n IH]; intros x w HI Hm; [lia |]. simpl.
  apply wp_bind. eapply wp_mono; [by apply Hb |].
  intros [y|a] v; simpl; [| done].
  intros [Hy Hlt]. apply IH; [done | lia].
Qed.
End loop_rules.

(** *** Symbolic execution *)
Ltac wp_simpl := cbn [w_log w_held w_st emit].

(** a lock not in a list of locks given by its head elements *)
Ltac solve_held :=
  wp_simpl; rewrite ?not_elem_of_cons; repeat split;
    (apply not_elem_of_nil || done || congruence || assumption).

Ltac wp_step :=
  lazymatch goal with
  | |- wp (mbind _ _) _ _ => apply wp_bind
  | |- wp (fmap _ _) _ _ => apply wp_fmap
  | |- wp (mret _) _ _ => apply wp_ret
  | |- wp get _ _ => apply wp_get; wp_simpl
  | |- wp (gets _) _ _ => apply wp_gets; wp_simpl
  | |- wp (modify _) _ _ => apply wp_modify; wp_simpl
  | |- wp (tell _) _ _ => apply wp_tell
  | |- wp (ask _) _ _ => apply wp_ask; intros ? ?
  | |- wp (zoom _ _ _) _ _ => apply wp_zoom; wp_simpl
  | |- wp (spin_lock _) _ _ => apply wp_spin_lock; [solve_held | wp_simpl]
  | |- wp (spin_unlock _) _ _ =>
      eapply wp_spin_unlock; [wp_simpl; reflexivity | solve_held | wp_simpl]
  | |- wp (when _ _) _ _ => apply wp_when; intros ?
  | |- wp (if ?b then _ else _) _ _ => let E := fresh "E" in destruct b eqn:E
  | |- wp (let _ := _ in _) _ _ => cbv zeta
  | |- wp (match ?x with _ => _ end) _ _ => let E := fresh "E" in destruct x eqn:E
  end.
Ltac wp_steps := repeat (cbv beta; wp_step).

#[global] Opaque wp.

(** ** Runs that only look

    [silent w w']: between [w] and [w'] nothing changed but the history, which
    grew without a register write. *)
Definition silent {S} (w w' : world S) : Prop :=
  w_st w' = w_st w /\ w_held w' = w_held w /\
  exists evs, w_log w' = evs ++ w_log w /\ mmio_writes evs = [].

Section silent.
Context {S : Type}.
Implicit Types w : world S.

Lemma mmio_writes_app l1 l2 : mmio_writes (l1 ++ l2) = mmio_writes l1 ++ mmio_writes l2.
Proof. apply omap_app. Qed.

Lemma silent_refl w : silent w w.
Proof. split_and!; try done. by exists []. Qed.

Lemma silent_trans w1 w2 w3 : silent w1 w2 -> silent w2 w3 -> silent w1 w3.
Proof.
  intros (Hs & Hh & e1 & Hl & Hw) (Hs' & Hh' & e2 & Hl' & Hw').
  split_and!; [congruence | congruence |].
  exists (e2 ++ e1). rewrite Hl', Hl, app_assoc. split; [done |].
  by rewrite mmio_writes_app, Hw, Hw'.
Qed.

(** one call that is not a register write *)
Lemma silent_emit w e : mmio_writes [e] = [] -> silent w (emit e w).
Proof. intros He. split_and!; try done. by exists [e]. Qed.

Lemma silent_writes w w' : silent w w' -> mmio_writes (w_log w') = mmio_writes (w_log w).
Proof. intros (_ & _ & evs & -> & Hw). by rewrite mmio_writes_app, Hw. Qed.

Lemma last_write_app a l1 l2 :
  mmio_writes l1 = [] -> last_write a (l1 ++ l2) = last_write a l2.
Proof.
  induction l1 as [|[c r] l1 IH]; [done |]. intros Hw.
  destruct c; try (by apply IH). cbn in Hw. discriminate.
Qed.

Lemma silent_last_write w w' a : silent w w' -> last_write a (w_log w') = last_write a (w_log w).
Proof. intros (_ & _ & evs & -> & Hw). by apply last_write_app. Qed.
End silent.
#[export] Hint Resolve silent_refl : basa.

(** ** Runs that hand out nothing

    Neither a register write nor a store to memory the device reads nor a copy
    to the user nor a buffer given back; the component's state and the locks
    stay as they were. *)
Definition calm (e : event) : Prop :=
  match ev_call e with
  | MmioWrite _ _ | DmaStore _ _ | CopyToUser _ _ _ | BufferDone _ _ _ _ => False
  | _ => True
  end.
Definition calmly {S} (w w' : world S) : Prop :=
  w_st w' = w_st w /\ w_held w' = w_held w /\
  exists evs, w_log w' = evs ++ w_log w /\ Forall calm evs.

Section calm.
Context {S : Type}.
Implicit Types w : world S.

Lemma calm_writes evs : Forall calm evs -> mmio_writes evs = [].
Proof.
  induction 1 as [|[c r] l Hc _ IH]; [done |]. unfold calm in Hc. cbn in Hc |- *.
  by destruct c.
Qed.

Lemma calmly_refl w : calmly w w.
Proof. split; [done |]. split; [done |]. exists []. by split. Qed.

Lemma calmly_trans w1 w2 w3 : calmly w1 w2 -> calmly w2 w3 -> calmly w1 w3.
Proof.
  intros (Hs & Hh & e1 & Hl & Hc) (Hs' & Hh' & e2 & Hl' & Hc').
  split; [congruence |]. split; [congruence |].
  exists (e2 ++ e1). rewrite Hl', Hl, app_assoc. split; [done |]. by apply Forall_app.
Qed.

Lemma calmly_emit w e : calm e -> calmly w (emit e w).
Proof.
  intros He. split; [done |]. split; [done |]. exists [e]. split; [done |].
  by apply Forall_singleton.
Qed.

(** code that only looks, whatever it finds *)
Definition looks {A} (m : M S A) : Prop :=
  forall w (Q : A -> world S -> Prop), (forall a w', calmly w w' -> Q a w') -> wp m Q w.

Lemma looks_ret {A} (a : A) : looks (mret a).
Proof. intros w Q HQ. apply wp_ret, HQ, calmly_refl. Qed.

Lemma looks_bind {A B} (m : M S A) (f : A -> M S B) :
  looks m -> (forall a, looks (f a)) -> looks (m ≫= f).
Proof.
  intros Hm Hf w Q HQ. apply wp_bind, Hm. intros a w' Hw. apply Hf. intros b w'' Hw'.
  apply HQ. by eapply calmly_trans.
Qed.

Lemma looks_fmap {A B} (m : M S A) (f : A -> B) : looks m -> looks (f <$> m).
Proof. intros Hm w Q HQ. apply wp_fmap, Hm. auto. Qed.

Lemma looks_gets {A} (f : S -> A) : looks (gets f).
Proof. intros w Q HQ. apply wp_gets, HQ, calmly_refl. Qed.

Lemma looks_ask `{Env} c : calm (Ev c 0) -> looks (ask c).
Proof. intros Hc w Q HQ. apply wp_ask. intros r _. by apply HQ, calmly_emit. Qed.

Lemma looks_tell c : calm (Ev c 0) -> looks (tell c).
Proof. intros Hc w Q HQ. apply wp_tell. by apply HQ, calmly_emit. Qed.

Lemma looks_when b (m : M S unit) : looks m -> looks (when b m).
Proof. intros Hm. destruct b; [exact Hm | apply looks_ret]. Qed.

Lemma looks_user_words `{Env} src i n : looks (user_words src i n).
Proof.
  revert i. induction n as [|n IH]; intros i; simpl; [apply looks_ret |].
  apply looks_bind; [by apply looks_ask |]. intros x. apply looks_bind; [apply IH |].
  intros l. apply looks_ret.
Qed.
End calm.

Lemma looks_zoom {S T A} (g : S -> T) (p : T -> S -> S) (m : M T A) :
  (forall s, p (g s) s = s) -> looks m -> looks (zoom g p m).
Proof.
  intros Hp Hm w Q HQ. apply wp_zoom, Hm. intros a w' (Hs & Hh & Hl).
  apply HQ. rewrite Hs. cbn [w_st]. rewrite Hp. split; [done |]. by split.
Qed.

(** copying from user memory looks only *)
Lemma looks_copy_from_user `{Env} {S} src n : looks (copy_from_user src n : M S _).
Proof.
  apply looks_bind; [by apply looks_ask |]. intros left. destruct (left =? 0); [| apply looks_ret].
  apply looks_fmap, looks_user_words.
Qed.

(** copied bytes are bytes *)
Lemma wp_copy_bytes `{Env} {S} src n (w : world S) (Q : option (list Z) -> world S -> Prop) :
  (forall d w', calmly w w' ->
     match d with None => True | Some l => forall i, 0 <= l !!! i < 256 end -> Q d w') ->
  wp (copy_bytes_from_user src n) Q w.
Proof.
  intros HQ. unfold copy_bytes_from_user. apply wp_bind, wp_ask. intros left _.
  destruct (left =? 0); [| by apply wp_ret, HQ; [apply calmly_emit |]].
  apply wp_bind, looks_user_words. intros words w1 Hc. apply wp_ret, HQ.
  { eapply calmly_trans; [| exact Hc]. by apply calmly_emit. }
  intros i. rewrite list_lookup_total_alt.
  destruct (take n _ !! i) as [x|] eqn:E; [| done]. cbn.
  apply lookup_take_Some in E as [E _]. apply list_elem_of_lookup_2, list_elem_of_bind in E as (v & Hx & _).
  rewrite !elem_of_cons, elem_of_nil in Hx. destruct Hx as [->|[->|[->|[->|[]]]]]; apply byte_of_range; lia.
Qed.

Lemma looks_copy_bytes `{Env} {S} src n : looks (copy_bytes_from_user src n : M S _).
Proof.
  apply looks_bind; [by apply looks_ask |]. intros left. destruct (left =? 0); [| apply looks_ret].
  apply looks_bind; [apply looks_user_words |]. intros. apply looks_ret.
Qed.

Lemma wp_looks {S A} (m : M S A) (w : world S) (Q : A -> world S -> Prop) :
  looks m -> (forall a w', calmly w w' -> Q a w') -> wp m Q w.
Proof. intros Hm. apply Hm. Qed.
#[global] Opaque looks.

(** [w'] follows [w] by the register writes [ws], in order, state and locks the
    same *)
Definition wrote {S} (w w' : world S) (ws : list (addr * Z)) : Prop :=
  w_st w' = w_st w /\ w_held w' = w_held w /\
  mmio_writes (w_log w') = rev ws ++ mmio_writes (w_log w).

Section wrote.
Context {S : Type}.
Implicit Types w : world S.

Lemma wrote_refl w : wrote w w [].
Proof. by split_and!. Qed.

Lemma wrote_calmly w w' w'' ws : wrote w w' ws -> calmly w' w'' -> wrote w w'' ws.
Proof.
  intros (Hs & Hh & Hw) (Hs' & Hh' & evs & Hl & Hc). split; [congruence |]. split; [congruence |].
  by rewrite Hl, mmio_writes_app, (calm_writes evs), Hw.
Qed.

Lemma wrote_trans w w' w'' ws ws' : wrote w w' ws -> wrote w' w'' ws' -> wrote w w'' (ws ++ ws').
Proof.
  intros (Hs & Hh & Hw) (Hs' & Hh' & Hw'). split; [congruence |]. split; [congruence |].
  by rewrite Hw', Hw, rev_app_distr, app_assoc.
Qed.

Lemma wrote_write w w' ws a v r :
  wrote w w' ws -> wrote w (emit (Ev (MmioWrite a v) r) w') (ws ++ [(a, v)]).
Proof.
  intros (Hs & Hh & Hw). split; [done |]. split; [done |].
  rewrite rev_app_distr. cbn. by rewrite <- Hw.
Qed.

Lemma wrote_emit w w' ws e : wrote w w' ws -> calm e -> wrote w (emit e w') ws.
Proof. intros Hw He. by eapply wrote_calmly, calmly_emit. Qed.
End wrote.

(** ** Accesses of the device

    The reads with the values they gave and the writes of a run, in the order in which
    they were made: what theorems about a protocol compare a run with. *)
Inductive access := Rd (a : addr) (v : Z) | Wr (a : addr) (v : Z).

Definition access_of (e : event) : option access :=
  match ev_call e with
  | MmioRead a => Some (Rd a (u32 (ev_ret e)))
  | MmioWrite a v => Some (Wr a v)
  | _ => None
  end.
(** of a history, newest first *)
Definition accesses (l : list event) : list access := omap access_of l.
Definition writes_of (l : list access) : list (addr * Z) :=
  omap (fun x => match x with Wr a v => Some (a, v) | Rd _ _ => None end) l.
(** [w'] follows [w] by the accesses [acs], in order *)
Definition accessed {S} (w w' : world S) (acs : list access) : Prop :=
  exists evs, w_log w' = evs ++ w_log w /\ accesses evs = rev acs.
(** ... with state and locks the same *)
Definition accessed_only {S} (w w' : world S) (acs : list access) : Prop :=
  w_st w' = w_st w /\ w_held w' = w_held w /\ accessed w w' acs.

(** a register read again and again until [ok] holds of its value, which is returned,
    [n] times at most *)
Inductive polled (a : addr) (ok : Z -> bool) (n : nat) : option Z -> list access -> Prop :=
| polled_found vs v : Forall (fun x => ok x = false) vs -> ok v = true -> (length vs < n)%nat ->
    polled a ok n (Some v) (map (Rd a) (vs ++ [v]))
| polled_never vs : Forall (fun x => ok x = false) vs -> length vs = n ->
    polled a ok n None (map (Rd a) vs).

Lemma accesses_app l1 l2 : accesses (l1 ++ l2) = accesses l1 ++ accesses l2.
Proof. apply omap_app. Qed.

Lemma mmio_writes_accesses l : mmio_writes l = writes_of (accesses l).
Proof.
  induction l as [|[c r] l IH]; [done |].
  destruct c; first [exact IH | exact (f_equal (cons _) IH)].
Qed.

Lemma writes_of_app l1 l2 : writes_of (l1 ++ l2) = writes_of l1 ++ writes_of l2.
Proof. apply omap_app. Qed.

Lemma writes_of_reads a vs : writes_of (map (Rd a) vs) = [].
Proof. by induction vs. Qed.

Lemma writes_of_rev l : writes_of (rev l) = rev (writes_of l).
Proof.
  induction l as [|x l IH]; [done |]. cbn [rev]. rewrite writes_of_app, IH.
  destruct x; cbn; by rewrite ?app_nil_r.
Qed.

(** writes as accesses *)
Definition wrs (ws : list (addr * Z)) : list access := map (fun '(a, v) => Wr a v) ws.
Lemma writes_of_wrs ws : writes_of (wrs ws) = ws.
Proof. induction ws as [|[a v] ws IH]; [done |]. exact (f_equal (cons _) IH). Qed.

Lemma polled_writes a ok n r acs : polled a ok n r acs -> writes_of acs = [].
Proof. intros []; apply writes_of_reads. Qed.

Section accessed.
Context {S : Type}.
Implicit Types w : world S.

Lemma accessed_refl w : accessed w w [].
Proof. by exists []. Qed.

Lemma accessed_trans w1 w2 w3 l1 l2 : accessed w1 w2 l1 -> accessed w2 w3 l2 -> accessed w1 w3 (l1 ++ l2).
Proof.
  intros (e1 & H1 & A1) (e2 & H2 & A2). exists (e2 ++ e1).
  by rewrite H2, H1, app_assoc, accesses_app, A1, A2, rev_app_distr.
Qed.

(** events that follow a world directly *)
Lemma accessed_evs w evs h s acs : accesses evs = rev acs -> accessed w (World (evs ++ w_log w) h s) acs.
Proof. intros He. by exists evs. Qed.

Lemma accessed_emit w w' acs c r : accessed w w' acs ->
  accessed w (emit (Ev c r) w') (acs ++ option_list (access_of (Ev c r))).
Proof.
  intros Ha. eapply accessed_trans; [exact Ha |]. exists [Ev c r]. split; [done |].
  unfold accesses. cbn [omap list_omap]. by destruct (access_of _).
Qed.

Lemma accessed_writes w w' acs :
  accessed w w' acs -> mmio_writes (w_log w') = rev (writes_of acs) ++ mmio_writes (w_log w).
Proof.
  intros (evs & Hl & Ha). rewrite Hl, mmio_writes_app. f_equal.
  by rewrite mmio_writes_accesses, Ha, writes_of_rev.
Qed.

Lemma accessed_only_refl w : accessed_only w w [].
Proof. split; [done |]. split; [done | apply accessed_refl]. Qed.

Lemma accessed_only_trans w1 w2 w3 l1 l2 :
  accessed_only w1 w2 l1 -> accessed_only w2 w3 l2 -> accessed_only w1 w3 (l1 ++ l2).
Proof.
  intros (S1 & H1 & A1) (S2 & H2 & A2). split; [congruence |]. split; [congruence |].
  by eapply accessed_trans.
Qed.

Lemma accessed_only_emit w w' acs c r : accessed_only w w' acs ->
  accessed_only w (emit (Ev c r) w') (acs ++ option_list (access_of (Ev c r))).
Proof. intros (? & ? & ?). split; [done |]. split; [done | by apply accessed_emit]. Qed.

Lemma accessed_only_wrote w w' acs : accessed_only w w' acs -> wrote w w' (writes_of acs).
Proof. intros (? & ? & Ha). split; [done |]. split; [done | by apply accessed_writes]. Qed.
End accessed.

(** a bounded loop of looks, left with a result that satisfies [P] *)
Lemma wp_for_break_looks {S A} (P : A -> Prop) (body : Z -> M S (option A)) n from (w : world S)
    (Q : option A -> world S -> Prop) :
  (forall i v (R : option A -> world S -> Prop),
     (forall r v', calmly v v' -> (forall a, r = Some a -> P a) -> R r v') -> wp (body i) R v) ->
  (forall r w', calmly w w' -> (forall a, r = Some a -> P a) -> Q r w') ->
  wp (for_break n from body) Q w.
Proof.
  intros Hb. revert from w Q. induction n as [|n IH]; intros from w Q HQ; cbn [for_break].
  - by apply wp_ret, HQ; [apply calmly_refl |].
  - apply wp_bind, Hb. intros [a|] v' Hc Ha; [by apply wp_ret, HQ |].
    apply IH. intros r w' Hc' Hr. apply HQ; [by eapply calmly_trans | done].
Qed.
#[export] Hint Resolve calmly_refl calmly_emit looks_ret looks_bind looks_fmap looks_gets
  looks_when looks_user_words : basa.
#[export] Hint Extern 1 (calm _) => exact I : basa.
#[export] Hint Resolve looks_ask looks_tell : basa.
