(* ===== verification/Frames.v ===== *)
(** * What a computation leaves alone

    Partial facts about every run that returns, by the shape of the code alone:
    [only P m], every call [m] makes satisfies [P]; [frames R m], its state
    before and after are related by [R].  They complete a weakest precondition,
    which says that the run returns. *)

From S2P Require Import Prelude Kernel.

Definition only {S A} (P : event -> Prop) (m : M S A) : Prop :=
  forall w a w', m w = Ret a w' -> exists evs, w_log w' = evs ++ w_log w /\ Forall P evs.
Definition frames {S A} (R : S -> S -> Prop) (m : M S A) : Prop :=
  forall w a w', m w = Ret a w' -> R (w_st w) (w_st w').

(** the fault [f] never happens *)
Definition never {S A} (f : fault) (m : M S A) : Prop := forall w, m w <> Fault f.

Section only.
Context {S : Type} (P : event -> Prop).

(** a call the environment answers satisfies [P] whatever the answer *)
Definition quiet_call (c : call) : Prop := forall r, P (Ev c r).

Lemma only_ret {A} (a : A) : only (S := S) P (mret a).
Proof. intros w b w' [= <- <-]. by exists []. Qed.
Lemma only_bind {A B} (m : M S A) (f : A -> M S B) :
  only P m -> (forall a, only P (f a)) -> only P (m ≫= f).
Proof.
  intros Hm Hf w b w' (a & v & Em & Ef)%bind_inv.
  destruct (Hm _ _ _ Em) as (e1 & L1 & F1), (Hf _ _ _ _ Ef) as (e2 & L2 & F2).
  exists (e2 ++ e1). rewrite L2, L1, app_assoc. split; [done |]. by apply Forall_app.
Qed.
Lemma only_fmap {A B} (m : M S A) (f : A -> B) : only P m -> only P (f <$> m).
Proof. intros Hm. apply only_bind; [done |]. intros a. apply only_ret. Qed.
Lemma only_get : only (S := S) P get.
Proof. intros w b w' [= <- <-]. by exists []. Qed.
Lemma only_gets {A} (f : S -> A) : only P (gets f).
Proof. intros w b w' [= <- <-]. by exists []. Qed.
Lemma only_modify (f : S -> S) : only P (modify f).
Proof. intros w b w' [= <- <-]. by exists []. Qed.
Lemma only_fail {A} f : only P (fail f : M S A).
Proof. intros w b w' E. discriminate E. Qed.
Lemma only_tell c : quiet_call c -> only P (tell c : M S unit).
Proof. intros Hc w b w' [= <- <-]. exists [Ev c 0]. split; [done |]. apply Forall_singleton, Hc. Qed.
Lemma only_ask `{Env} c : quiet_call c -> only P (ask c : M S Z).
Proof.
  intros Hc w b w' E. unfold ask in E. injection E as <- <-. eexists [_]. split; [reflexivity |].
  apply Forall_singleton, Hc.
Qed.
Lemma only_spin_lock l : quiet_call (SpinLock l) -> only P (spin_lock l : M S unit).
Proof.
  intros Hc w b w' E. unfold spin_lock in E. destruct (decide _); [discriminate |].
  injection E as <- <-. eexists [_]. split; [reflexivity |]. apply Forall_singleton, Hc.
Qed.
Lemma only_spin_unlock l : quiet_call (SpinUnlock l) -> only P (spin_unlock l : M S unit).
Proof.
  intros Hc w b w' E. unfold spin_unlock in E. destruct (decide _); [| discriminate].
  injection E as <- <-. eexists [_]. split; [reflexivity |]. apply Forall_singleton, Hc.
Qed.
Lemma only_when b (m : M S unit) : only P m -> only P (when b m).
Proof. intros Hm. destruct b; [exact Hm | apply only_ret]. Qed.
Lemma only_of_option {A} f (o : option A) : only P (of_option f o : M S A).
Proof. destruct o; [apply only_ret | apply only_fail]. Qed.
Lemma only_array_get {A} (l : list A) i : only P (array_get l i : M S A).
Proof. apply only_of_option. Qed.
Lemma only_loop {X A} fuel (body : X -> M S (X + A)) x :
  (forall y, only P (body y)) -> only P (loop fuel body x).
Proof.
  intros Hb. revert x. induction fuel as [|n IH]; intros x; [intros w a w' E; discriminate E |].
  apply only_bind; [apply Hb |]. intros [y|a]; [apply IH | apply only_ret].
Qed.
Lemma only_for n from (body : Z -> M S unit) : (forall i, only P (body i)) -> only P (for_ n from body).
Proof.
  intros Hb. revert from. induction n as [|n IH]; intros from; [apply only_ret |].
  apply only_bind; [apply Hb |]. intros _. apply IH.
Qed.
Lemma only_for_break {A} n from (body : Z -> M S (option A)) :
  (forall i, only P (body i)) -> only P (for_break n from body).
Proof.
  intros Hb. revert from. induction n as [|n IH]; intros from; [apply only_ret |].
  apply only_bind; [apply Hb |]. intros [a|]; [apply only_ret | apply IH].
Qed.
Lemma only_mono {A} (Q : event -> Prop) (m : M S A) : (forall e, Q e -> P e) -> only Q m -> only P m.
Proof.
  intros HQ Hm w a w' E. destruct (Hm _ _ _ E) as (evs & L & F). exists evs. split; [done |].
  by eapply Forall_impl.
Qed.

(** together with a weakest precondition *)
Lemma wp_only {A} (m : M S A) w (Q : A -> world S -> Prop) :
  only P m ->
  wp m (fun a w' => (exists evs, w_log w' = evs ++ w_log w /\ Forall P evs) -> Q a w') w -> wp m Q w.
Proof.
  intros Hm (a & w' & E & HQ)%wp_run. apply wp_run. exists a, w'. split; [done |].
  by apply HQ, (Hm _ _ _ E).
Qed.
End only.

Lemma only_zoom {S T A} P (g : S -> T) (p : T -> S -> S) (m : M T A) : only P m -> only P (zoom g p m).
Proof.
  intros Hm w a w' E. unfold zoom in E. destruct (m _) as [b v|f|] eqn:Em; [| discriminate | discriminate].
  injection E as <- <-. apply (Hm _ _ _ Em).
Qed.

Section frames.
#[local] Set Default Proof Using "Type*".
Context {S : Type} (R : S -> S -> Prop) `{!PreOrder R}.

Lemma frames_ret {A} (a : A) : frames R (mret a).
Proof. by intros w b w' [= <- <-]. Qed.
Lemma frames_bind {A B} (m : M S A) (f : A -> M S B) :
  frames R m -> (forall a, frames R (f a)) -> frames R (m ≫= f).
Proof.
  intros Hm Hf w b w' (a & v & Em & Ef)%bind_inv. transitivity (w_st v); [by eapply Hm | by eapply Hf].
Qed.
Lemma frames_fmap {A B} (m : M S A) (f : A -> B) : frames R m -> frames R (f <$> m).
Proof. intros Hm. apply frames_bind; [done |]. intros a. apply frames_ret. Qed.
Lemma frames_gets {A} (f : S -> A) : frames R (gets f).
Proof. by intros w b w' [= <- <-]. Qed.
Lemma frames_get : frames R get.
Proof. by intros w b w' [= <- <-]. Qed.
Lemma frames_modify (f : S -> S) : (forall s, R s (f s)) -> frames R (modify f).
Proof. intros Hf w b w' [= <- <-]. apply Hf. Qed.
Lemma frames_fail {A} f : frames R (fail f : M S A).
Proof. intros w b w' E. discriminate E. Qed.
Lemma frames_tell c : frames R (tell c : M S unit).
Proof. by intros w b w' [= <- <-]. Qed.
Lemma frames_ask `{Env} c : frames R (ask c : M S Z).
Proof. intros w b w' E. unfold ask in E. by injection E as <- <-. Qed.
Lemma frames_spin_lock l : frames R (spin_lock l : M S unit).
Proof.
  intros w b w' E. unfold spin_lock in E. destruct (decide _); [discriminate |]. by injection E as <- <-.
Qed.
Lemma frames_spin_unlock l : frames R (spin_unlock l : M S unit).
Proof.
  intros w b w' E. unfold spin_unlock in E. destruct (decide _); [| discriminate]. by injection E as <- <-.
Qed.
Lemma frames_when b (m : M S unit) : frames R m -> frames R (when b m).
Proof. intros Hm. destruct b; [exact Hm | apply frames_ret]. Qed.
Lemma frames_of_option {A} f (o : option A) : frames R (of_option f o : M S A).
Proof. destruct o; [apply frames_ret | apply frames_fail]. Qed.
Lemma frames_array_get {A} (l : list A) i : frames R (array_get l i : M S A).
Proof. apply frames_of_option. Qed.
Lemma frames_loop {X A} fuel (body : X -> M S (X + A)) x :
  (forall y, frames R (body y)) -> frames R (loop fuel body x).
Proof.
  intros Hb. revert x. induction fuel as [|n IH]; intros x; [intros w a w' E; discriminate E |].
  apply frames_bind; [apply Hb |]. intros [y|a]; [apply IH | apply frames_ret].
Qed.
Lemma frames_for n from (body : Z -> M S unit) : (forall i, frames R (body i)) -> frames R (for_ n from body).
Proof.
  intros Hb. revert from. induction n as [|n IH]; intros from; [apply frames_ret |].
  apply frames_bind; [apply Hb |]. intros _. apply IH.
Qed.
Lemma frames_for_break {A} n from (body : Z -> M S (option A)) :
  (forall i, frames R (body i)) -> frames R (for_break n from body).
Proof.
  intros Hb. revert from. induction n as [|n IH]; intros from; [apply frames_ret |].
  apply frames_bind; [apply Hb |]. intros [a|]; [apply frames_ret | apply IH].
Qed.
Lemma frames_zoom {T A} (R' : T -> T -> Prop) (g : S -> T) (p : T -> S -> S) (m : M T A) :
  frames R' m -> (forall s t, R' (g s) t -> R s (p t s)) -> frames R (zoom g p m).
Proof.
  intros Hm Hp w a w' E. unfold zoom in E. destruct (m _) as [b v|f|] eqn:Em; [| discriminate | discriminate].
  injection E as <- <-. apply Hp, (Hm _ _ _ Em).
Qed.

Lemma wp_frames {A} (m : M S A) w (Q : A -> world S -> Prop) :
  frames R m -> wp m (fun a w' => R (w_st w) (w_st w') -> Q a w') w -> wp m Q w.
Proof.
  intros Hm (a & w' & E & HQ)%wp_run. apply wp_run. exists a, w'. split; [done |].
  by apply HQ, (Hm _ _ _ E).
Qed.
End frames.

Section never.
Context {S : Type} (f : fault).

Lemma never_ret {A} (a : A) : never (S := S) f (mret a).
Proof. intros w E. discriminate E. Qed.
Lemma never_bind {A B} (m : M S A) (k : A -> M S B) :
  never f m -> (forall a, never f (k a)) -> never f (m ≫= k).
Proof.
  intros Hm Hk w E. unfold mbind, M_bind in E. specialize (Hm w).
  destruct (m w) as [a v|g|]; [by apply (Hk a v) | congruence | discriminate].
Qed.
Lemma never_fmap {A B} (m : M S A) (g : A -> B) : never f m -> never f (g <$> m).
Proof. intros Hm. apply never_bind; [done |]. intros a. apply never_ret. Qed.
Lemma never_get : never (S := S) f get.
Proof. intros w E. discriminate E. Qed.
Lemma never_gets {A} (g : S -> A) : never f (gets g).
Proof. intros w E. discriminate E. Qed.
Lemma never_modify (g : S -> S) : never f (modify g).
Proof. intros w E. discriminate E. Qed.
Lemma never_fail {A} g : g <> f -> never f (fail g : M S A).
Proof. intros Hg w E. injection E. done. Qed.
Lemma never_tell c : never f (tell c : M S unit).
Proof. intros w E. discriminate E. Qed.
Lemma never_ask `{Env} c : never f (ask c : M S Z).
Proof. intros w E. discriminate E. Qed.
Lemma never_spin_lock l : Deadlock l <> f -> never f (spin_lock l : M S unit).
Proof. intros Hl w E. unfold spin_lock in E. destruct (decide _); [by injection E | discriminate E]. Qed.
Lemma never_spin_unlock l : NotHeld l <> f -> never f (spin_unlock l : M S unit).
Proof. intros Hl w E. unfold spin_unlock in E. destruct (decide _); [discriminate E | by injection E]. Qed.
Lemma never_when b (m : M S unit) : never f m -> never f (when b m).
Proof. intros Hm. destruct b; [exact Hm | apply never_ret]. Qed.
Lemma never_of_option {A} g (o : option A) : g <> f -> never f (of_option g o : M S A).
Proof. intros Hg. destruct o; [apply never_ret | by apply never_fail]. Qed.
Lemma never_array_get {A} (l : list A) i : Index i <> f -> never f (array_get l i : M S A).
Proof. apply never_of_option. Qed.
Lemma never_loop {X A} fuel (body : X -> M S (X + A)) x :
  (forall y, never f (body y)) -> never f (loop fuel body x).
Proof.
  intros Hb. revert x. induction fuel as [|n IH]; intros x; [intros w E; discriminate E |].
  apply never_bind; [apply Hb |]. intros [y|a]; [apply IH | apply never_ret].
Qed.
Lemma never_for n from (body : Z -> M S unit) : (forall i, never f (body i)) -> never f (for_ n from body).
Proof.
  intros Hb. revert from. induction n as [|n IH]; intros from; [apply never_ret |].
  apply never_bind; [apply Hb |]. intros _. apply IH.
Qed.
Lemma never_for_break {A} n from (body : Z -> M S (option A)) :
  (forall i, never f (body i)) -> never f (for_break n from body).
Proof.
  intros Hb. revert from. induction n as [|n IH]; intros from; [apply never_ret |].
  apply never_bind; [apply Hb |]. intros [a|]; [apply never_ret | apply IH].
Qed.
End never.

Lemma never_zoom {S T A} f (g : S -> T) (p : T -> S -> S) (m : M T A) : never f m -> never f (zoom g p m).
Proof.
  intros Hm w E. unfold zoom in E. specialize (Hm (World (w_log w) (w_held w) (g (w_st w)))).
  destruct (m _); [discriminate | congruence | discriminate].
Qed.

#[global] Instance eq_pre_order {A} : PreOrder (@eq A).
Proof. split; [by intros x | by intros x y z -> ->]. Qed.

(** follow the shape of the code; [quiet_call] and [modify] goals are left to
    the hints of the judgement *)
Ltac only_step :=
  lazymatch goal with
  | |- only _ (mbind _ _) => apply only_bind; [| intros ?]
  | |- only _ (fmap _ _) => apply only_fmap
  | |- only _ (mret _) => apply only_ret
  | |- only _ get => apply only_get
  | |- only _ (gets _) => apply only_gets
  | |- only _ (modify _) => apply only_modify
  | |- only _ (fail _) => apply only_fail
  | |- only _ (tell _) => apply only_tell
  | |- only _ (ask _) => apply only_ask
  | |- only _ (spin_lock _) => apply only_spin_lock
  | |- only _ (spin_unlock _) => apply only_spin_unlock
  | |- only _ (when _ _) => apply only_when
  | |- only _ (of_option _ _) => apply only_of_option
  | |- only _ (array_get _ _) => apply only_array_get
  | |- only _ (loop _ _ _) => apply only_loop; intros ?
  | |- only _ (for_ _ _ _) => apply only_for; intros ?
  | |- only _ (for_break _ _ _) => apply only_for_break; intros ?
  | |- only _ (zoom _ _ _) => apply only_zoom
  | |- only _ (let _ := _ in _) => cbv zeta
  | |- only _ (if ?b then _ else _) => destruct b
  | |- only _ (match ?x with _ => _ end) => destruct x
  end.
Ltac only_steps := repeat (cbv beta; only_step).

Ltac frames_step :=
  lazymatch goal with
  | |- frames _ (mbind _ _) => apply frames_bind; [typeclasses eauto | | intros ?]
  | |- frames _ (fmap _ _) => apply frames_fmap; [typeclasses eauto |]
  | |- frames _ (mret _) => apply frames_ret; [typeclasses eauto ..]
  | |- frames _ get => apply frames_get; [typeclasses eauto ..]
  | |- frames _ (gets _) => apply frames_gets; [typeclasses eauto ..]
  | |- frames _ (fail _) => apply frames_fail; [typeclasses eauto ..]
  | |- frames _ (tell _) => apply frames_tell; [typeclasses eauto ..]
  | |- frames _ (ask _) => apply frames_ask; [typeclasses eauto ..]
  | |- frames _ (spin_lock _) => apply frames_spin_lock; [typeclasses eauto ..]
  | |- frames _ (spin_unlock _) => apply frames_spin_unlock; [typeclasses eauto ..]
  | |- frames _ (when _ _) => apply frames_when; [typeclasses eauto |]
  | |- frames _ (of_option _ _) => apply frames_of_option; [typeclasses eauto ..]
  | |- frames _ (array_get _ _) => apply frames_array_get; [typeclasses eauto ..]
  | |- frames _ (loop _ _ _) => apply frames_loop; [typeclasses eauto | intros ?]
  | |- frames _ (for_ _ _ _) => apply frames_for; [typeclasses eauto | intros ?]
  | |- frames _ (for_break _ _ _) => apply frames_for_break; [typeclasses eauto | intros ?]
  | |- frames _ (let _ := _ in _) => cbv zeta
  | |- frames _ (if ?b then _ else _) => destruct b
  | |- frames _ (match ?x with _ => _ end) => destruct x
  end.
Ltac frames_steps := repeat (cbv beta; frames_step).

(** the same for [never], unfolding the functions of the program on the way *)
Ltac head_of m := lazymatch m with ?f _ => head_of f | _ => m end.
Ltac never_step :=
  lazymatch goal with
  | |- never _ (mbind _ _) => apply never_bind; [| intros ?]
  | |- never _ (fmap _ _) => apply never_fmap
  | |- never _ (mret _) => apply never_ret
  | |- never _ get => apply never_get
  | |- never _ (gets _) => apply never_gets
  | |- never _ (modify _) => apply never_modify
  | |- never _ (fail _) => apply never_fail; discriminate
  | |- never _ (tell _) => apply never_tell
  | |- never _ (ask _) => apply never_ask
  | |- never _ (spin_lock _) => apply never_spin_lock; discriminate
  | |- never _ (spin_unlock _) => apply never_spin_unlock; discriminate
  | |- never _ (when _ _) => apply never_when
  | |- never _ (of_option _ _) => apply never_of_option; discriminate
  | |- never _ (array_get _ _) => apply never_array_get; discriminate
  | |- never _ (loop _ _ _) => apply never_loop; intros ?
  | |- never _ (for_ _ _ _) => apply never_for; intros ?
  | |- never _ (for_break _ _ _) => apply never_for_break; intros ?
  | |- never _ (zoom _ _ _) => apply never_zoom
  | |- never _ (let _ := _ in _) => cbv zeta
  | |- never _ (if ?b then _ else _) => destruct b
  | |- never _ (match ?x with _ => _ end) => destruct x
  | |- never _ ?m => first [solve [auto with never] | let h := head_of m in unfold h]
  end.
Ltac never_steps := repeat (cbv beta; never_step).
Create HintDb never.

(** ** Two computations that behave alike, on every state and history *)
#[global] Instance M_equiv {S A} : Equiv (M S A) := fun m m' => forall w, m w = m' w.
#[global] Instance M_equivalence {S A} : Equivalence (≡@{M S A}).
Proof.
  split.
  - by intros m w.
  - intros m m' E w. by rewrite (E w).
  - intros m1 m2 m3 E1 E2 w. by rewrite (E1 w), (E2 w).
Qed.
Lemma bind_proper {S A B} (m m' : M S A) (f f' : A -> M S B) :
  m ≡ m' -> (forall a, f a ≡ f' a) -> m ≫= f ≡ m' ≫= f'.
Proof.
  intros Em Ef w. unfold mbind, M_bind. rewrite (Em w). destruct (m' w) as [a v|g|]; [apply Ef | done | done].
Qed.
Lemma bind_assoc {S A B C} (m : M S A) (f : A -> M S B) (g : B -> M S C) :
  (m ≫= f) ≫= g ≡ m ≫= (fun a => f a ≫= g).
Proof. intros w. unfold mbind, M_bind. by destruct (m w). Qed.
Lemma bind_ret_r {S} (m : M S unit) : m ≫= mret ≡ m.
Proof. intros w. unfold mbind, M_bind. by destruct (m w) as [[] v|g|]. Qed.
#[global] Instance when_proper {S} b : Proper ((≡) ==> (≡)) (when (S := S) b).
Proof. intros m m' E. by destruct b. Qed.
