(* ===== verification/Ring.v ===== *)
(** * Circular buffers as bounded queues

    The driver's two rings, the transmit descriptor ring of a channel and the
    receive buffer of a CAN, keep a head (consumer) and a tail (producer) index
    in an array of [num] cells, one of which stays empty.  [ring_list] is the
    abstraction function to the queue of the cells in use, oldest first; the
    lemmas say what a push, a removal from the front and a write outside the
    queue do to it. *)

From S2P Require Import Prelude.

Section ring.
Context {A : Type} `{Inhabited A}.
Implicit Types l : list A.

Definition ring_len (num head tail : Z) : Z := (tail - head) mod num.
Definition ring_at (l : list A) (num head : Z) (i : nat) : A :=
  l !!! Z.to_nat ((head + Z.of_nat i) mod num).
Definition ring_list (l : list A) (num head tail : Z) : list A :=
  ring_at l num head <$> seq 0 (Z.to_nat (ring_len num head tail)).

(** indices in range, an array of [num] cells *)
Definition ring_wf (l : list A) (num head tail : Z) : Prop :=
  1 < num /\ length l = Z.to_nat num /\ 0 <= head < num /\ 0 <= tail < num.

Lemma ring_len_range (num head tail : Z) :
  0 < num -> 0 <= ring_len num head tail < num.
Proof. intros. apply Z.mod_pos_bound. lia. Qed.

Lemma ring_list_length l num head tail :
  length (ring_list l num head tail) = Z.to_nat (ring_len num head tail).
Proof. unfold ring_list. by rewrite length_fmap, length_seq. Qed.

Lemma ring_len_cases (num head tail : Z) :
  0 <= head < num -> 0 <= tail < num ->
  ring_len num head tail = if head <=? tail then tail - head else num + tail - head.
Proof.
  intros. unfold ring_len. destruct (Z.leb_spec head tail).
  - apply Z.mod_small. lia.
  - symmetry. apply Z.mod_unique with (-1); lia.
Qed.

Lemma ring_next_cases (num i : Z) :
  0 <= i < num -> (i + 1) mod num = if i + 1 =? num then 0 else i + 1.
Proof.
  intros. destruct (Z.eqb_spec (i + 1) num) as [->|].
  - apply Z.mod_same. lia.
  - apply Z.mod_small. lia.
Qed.

(** the ring is full, [(tail + 1) mod num = head], when [num - 1] cells are used *)
Lemma ring_full (num head tail : Z) :
  1 < num -> 0 <= head < num -> 0 <= tail < num ->
  (tail + 1) mod num = head <-> ring_len num head tail = num - 1.
Proof.
  intros. rewrite ring_next_cases, ring_len_cases by lia.
  destruct (Z.eqb_spec (tail + 1) num), (Z.leb_spec head tail); lia.
Qed.

Lemma ring_len_push (num head tail : Z) :
  1 < num -> 0 <= head < num -> 0 <= tail < num -> (tail + 1) mod num <> head ->
  ring_len num head ((tail + 1) mod num) = ring_len num head tail + 1.
Proof.
  intros Hn Hh Ht. rewrite ring_next_cases by lia.
  destruct (Z.eqb_spec (tail + 1) num); intros Hne;
    rewrite !ring_len_cases by lia; case_cmp; lia.
Qed.

Lemma ring_len_drop (num head tail k : Z) :
  1 < num -> 0 <= k <= ring_len num head tail ->
  ring_len num ((head + k) mod num) tail = ring_len num head tail - k.
Proof.
  intros Hn Hk. unfold ring_len in *.
  rewrite Zminus_mod_idemp_r. replace (tail - (head + k)) with (tail - head - k) by lia.
  rewrite <- Zminus_mod_idemp_l. apply Z.mod_small.
  pose proof (Z.mod_pos_bound (tail - head) num). lia.
Qed.

Lemma ring_len_at (num head k : Z) :
  0 <= k < num -> ring_len num head ((head + k) mod num) = k.
Proof.
  intros. unfold ring_len. rewrite Zminus_mod_idemp_l.
  replace (head + k - head) with k by lia. by apply Z.mod_small.
Qed.

Lemma ring_at_insert_ne l num head tail i x :
  ring_wf l num head tail -> (i < Z.to_nat (ring_len num head tail))%nat ->
  ring_at (<[Z.to_nat tail := x]> l) num head i = ring_at l num head i.
Proof.
  intros (Hn & Hl & Hh & Ht) Hi. unfold ring_at.
  apply list_lookup_total_insert_ne.
  rewrite ring_len_cases in Hi by lia.
  pose proof (Z.mod_pos_bound (head + Z.of_nat i) num ltac:(lia)).
  assert (tail <> (head + Z.of_nat i) mod num); [|lia].
  destruct (Z.leb_spec head tail).
  - rewrite Z.mod_small; lia.
  - destruct (Z.ltb_spec (head + Z.of_nat i) num).
    + rewrite Z.mod_small; lia.
    + intros Heq. rewrite <- (Z.mod_unique (head + Z.of_nat i) num 1
        (head + Z.of_nat i - num)) in Heq; lia.
Qed.

(** push: write the cell at the tail and advance *)
Lemma ring_list_push l num head tail x :
  ring_wf l num head tail -> (tail + 1) mod num <> head ->
  ring_list (<[Z.to_nat tail := x]> l) num head ((tail + 1) mod num)
    = ring_list l num head tail ++ [x].
Proof.
  intros Hwf Hne. pose proof Hwf as (Hn & Hl & Hh & Ht).
  unfold ring_list. rewrite ring_len_push by done.
  pose proof (ring_len_range num head tail ltac:(lia)) as Hr.
  rewrite Z2Nat.inj_add, Nat.add_1_r, seq_S, fmap_app by lia. f_equal.
  - apply list_fmap_ext. intros i j Hij. apply lookup_seq in Hij as [-> Hij].
    by apply ring_at_insert_ne.
  - simpl. f_equal. unfold ring_at.
    rewrite Z2Nat.id by lia. unfold ring_len.
    rewrite Zplus_mod_idemp_r. replace (head + (tail - head)) with tail by lia.
    rewrite Z.mod_small by lia. apply list_lookup_total_insert_eq. lia.
Qed.

(** removal of [k] cells at the front *)
Lemma ring_list_drop l num head tail k :
  1 < num -> 0 <= k <= ring_len num head tail ->
  ring_list l num ((head + k) mod num) tail = drop (Z.to_nat k) (ring_list l num head tail).
Proof.
  intros Hn Hk. unfold ring_list. rewrite ring_len_drop by lia.
  rewrite <- fmap_drop, drop_seq.
  replace (Z.to_nat (ring_len num head tail - k))
    with (Z.to_nat (ring_len num head tail) - Z.to_nat k)%nat by lia.
  replace (0 + Z.to_nat k)%nat with (Z.to_nat k + 0)%nat by lia.
  rewrite <- (fmap_add_seq (Z.to_nat k) 0), <- list_fmap_compose.
  apply list_fmap_ext. intros i j _. unfold ring_at, compose.
  rewrite Zplus_mod_idemp_l. do 3 f_equal. lia.
Qed.

(** the cells of the queue do not change under a write at the tail *)
Lemma ring_list_insert_tail l num head tail x :
  ring_wf l num head tail ->
  ring_list (<[Z.to_nat tail := x]> l) num head tail = ring_list l num head tail.
Proof.
  intros Hwf. unfold ring_list. apply list_fmap_ext.
  intros i j Hij. apply lookup_seq in Hij as [-> Hij].
  by apply ring_at_insert_ne.
Qed.

Lemma ring_list_head l num head tail :
  ring_wf l num head tail -> head <> tail ->
  exists q, ring_list l num head tail = (l !!! Z.to_nat head) :: q.
Proof.
  intros (Hn & Hl & Hh & Ht) Hne. unfold ring_list.
  assert (0 < ring_len num head tail).
  { rewrite ring_len_cases by lia. destruct (Z.leb_spec head tail); lia. }
  destruct (Z.to_nat (ring_len num head tail)) as [|n] eqn:E; [lia |].
  simpl. eexists. f_equal. unfold ring_at. rewrite Z.add_0_r, Z.mod_small by lia. done.
Qed.

(** a change of the oldest cell is not seen by the rest of the queue *)
Lemma ring_list_insert_head l num head tail x :
  ring_wf l num head tail -> head <> tail ->
  ring_list (<[Z.to_nat head := x]> l) num ((head + 1) mod num) tail
    = drop 1 (ring_list l num head tail).
Proof.
  intros (Hn & Hl & Hh & Ht) Hne.
  pose proof (ring_len_range num head tail ltac:(lia)) as Hr.
  assert (ring_len num head tail <> 0) as H0.
  { intros E. apply Hne. rewrite ring_len_cases in E by lia. revert E. case_cmp; lia. }
  change 1%nat with (Z.to_nat 1). rewrite <- (ring_list_drop l num head tail 1) by lia.
  unfold ring_list. apply list_fmap_ext. intros i k Hk. apply lookup_seq in Hk as [-> Hi].
  unfold ring_at. rewrite list_lookup_total_insert_ne; [done |].
  rewrite ring_len_drop in Hi by lia. rewrite Zplus_mod_idemp_l.
  intros E. apply Z2Nat.inj in E; [| lia | apply Z.mod_pos_bound; lia].
  pose proof (ring_len_at num head (1 + Z.of_nat i) ltac:(lia)) as Ha.
  replace (head + (1 + Z.of_nat i)) with (head + 1 + Z.of_nat (0 + i)) in Ha by lia.
  rewrite <- E in Ha. unfold ring_len in Ha. rewrite Z.sub_diag, Zmod_0_l in Ha. lia.
Qed.

Lemma ring_list_set_head l num head tail x :
  ring_wf l num head tail -> head <> tail ->
  ring_list (<[Z.to_nat head := x]> l) num head tail = x :: drop 1 (ring_list l num head tail).
Proof.
  intros Hwf Hne. pose proof Hwf as (Hn & Hl & Hh & Ht).
  assert (ring_wf (<[Z.to_nat head := x]> l) num head tail) as Hwf'
    by (unfold ring_wf; by rewrite length_insert).
  destruct (ring_list_head _ _ _ _ Hwf' Hne) as [q Hq]. rewrite Hq.
  rewrite <- (ring_list_insert_head l num head tail x Hwf Hne).
  rewrite list_lookup_total_insert_eq by lia. f_equal.
  rewrite <- (list_insert_insert_eq l (Z.to_nat head) x x) at 1.
  by rewrite (ring_list_insert_head _ num head tail x Hwf' Hne), Hq.
Qed.

Lemma ring_list_nil l num head tail :
  0 <= head < num -> 0 <= tail < num ->
  ring_list l num head tail = [] <-> head = tail.
Proof.
  intros. rewrite <- length_zero_iff_nil, ring_list_length, ring_len_cases by lia.
  destruct (Z.leb_spec head tail); lia.
Qed.

Lemma ring_list_self l num head : 0 <= head < num -> ring_list l num head head = [].
Proof. intros. by apply ring_list_nil. Qed.


Lemma ring_len_same (num i : Z) : ring_len num i i = 0.
Proof. unfold ring_len. rewrite Z.sub_diag. apply Zmod_0_l. Qed.

Lemma ring_len_inj (num head i j : Z) :
  0 <= head < num -> 0 <= i < num -> 0 <= j < num ->
  ring_len num head i = ring_len num head j -> i = j.
Proof. intros ? ? ?. rewrite !ring_len_cases by lia. case_cmp; lia. Qed.

(** walking from [i] towards [j]: each step gets one cell closer *)
Lemma ring_len_step (num i j : Z) :
  1 < num -> 0 <= i < num -> 0 <= j < num -> i <> j ->
  ring_len num ((i + 1) mod num) j = ring_len num i j - 1.
Proof.
  intros. apply ring_len_drop; [done |].
  rewrite ring_len_cases by lia. case_cmp; lia.
Qed.

(** the cells walked over, seen from the start *)
Lemma ring_len_walk (num head i j : Z) :
  1 < num -> 0 <= head < num -> 0 <= i < num -> 0 <= j < num -> i <> j ->
  ring_len num head i + ring_len num i j = ring_len num head j ->
  ring_len num head ((i + 1) mod num) = ring_len num head i + 1.
Proof.
  intros Hn Hh Hi Hj Hne Hw. apply ring_len_push; try done.
  rewrite ring_full by lia. pose proof (ring_len_range num head j ltac:(lia)).
  assert (0 < ring_len num i j) by (rewrite ring_len_cases by lia; case_cmp; lia). lia.
Qed.
End ring.

(** masking with [num - 1] is reduction modulo a power of two *)
Lemma land_mask_mod (x num k : Z) : 0 <= k -> num = 2 ^ k -> Z.land x (num - 1) = x mod num.
Proof.
  intros Hk ->. rewrite <- Z.land_ones by done. f_equal. rewrite Z.ones_equiv. lia.
Qed.
