(* ===== verification/Regs.v ===== *)
(** * Register map of the sensor FPGA ([basa_regs.h], [basa.h])

    Offsets, bits and fields of the device registers.  A field of a register
    is a pair of an offset and a mask, as the [GET_BITS]/[SET_BITS] macros paste
    them from a common prefix.  Global registers live in BAR0 at their own
    offset, those of DMA channel [n] at [0x100 * n] above the offset listed, and
    those of CAN IP [n] in BAR2 at [0x200 * n] above theirs. *)

From S2P Require Import Prelude.

(** ** Fields *)
Record field := Field { f_off : Z; f_mask : Z }.
Definition GET_BITS (f : field) (reg_val : Z) : Z :=
  Z.land (Z.shiftr reg_val (f_off f)) (f_mask f).
Definition SET_BITS (f : field) (reg_val data : Z) : Z :=
  Z.lor (Z.land reg_val (Z.lnot (Z.shiftl (f_mask f) (f_off f))))
        (Z.shiftl (Z.land data (f_mask f)) (f_off f)).

(** ** Registers and bits *)
Definition PCI_VENDOR_ID_BAIDU : Z := 0x1D22.
Definition PCI_DEVICE_ID_MOONROVER : Z := 0x2083.
Definition ZYNQ_SYS_TIME_DRIFT : Z := 30.
Definition ZYNQ_GPS_SYNC_TIME_SMOOTH : Z := 1.
Definition ZYNQ_GPS_SYNC_TIME_DEFAULT : Z := 10.
Definition ZYNQ_GPS_SMOOTH_STEP_DEFAULT : Z := 1000.
Definition ZYNQ_GPS_SMOOTH_STEP_MIN : Z := 16.
Definition ZYNQ_GPS_SMOOTH_STEP_MAX : Z := 500000.
Definition ZYNQ_MINOR_COUNT : Z := 22.
Definition ZYNQ_DMA_CHAN_NUM_MR : Z := 16.
Definition ZYNQ_VIDEO_MAP_MR : Z := 0x001F.
Definition ZYNQ_CAN_MAP_MR : Z := 0x3C00.
Definition ZYNQ_INT_PER_CHAN : Z := 1.
Definition ZYNQ_INT_PER_CARD : Z := 16.
Definition ZYNQ_I2C_BUS_NUM : Z := 4.
Definition ZYNQ_G_VERSION : Z := 0x000.
Definition ZYNQ_G_SCRATCH : Z := 0x004.
Definition ZYNQ_G_STATUS : Z := 0x008.
Definition ZYNQ_STATUS_BUS_MASTER_DISABLE : Z := Z.shiftl 1 0.
Definition ZYNQ_STATUS_TRIGGER_ALARM : Z := Z.shiftl 1 16.
Definition ZYNQ_STATUS_PPS_ALARM : Z := Z.shiftl 1 17.
Definition ZYNQ_STATUS_GPS_LOCKED : Z := Z.shiftl 1 18.
Definition ZYNQ_STATUS_PPS_LOCKED : Z := Z.shiftl 1 19.
Definition ZYNQ_G_CONFIG : Z := 0x020.
Definition ZYNQ_CONFIG_FW_UPLOAD : Z := Z.shiftl 1 0.
Definition ZYNQ_CONFIG_FW_UPLOAD_MAGIC : Z := 0x00000BCD.
Definition ZYNQ_CONFIG_FW_UPDATE_QSPI : Z := Z.shiftl 1 1.
Definition ZYNQ_CONFIG_FW_UPDATE_MMC : Z := Z.shiftl 1 2.
Definition ZYNQ_CONFIG_FW_UPDATE_SPI : Z := Z.shiftl 1 3.
Definition ZYNQ_CONFIG_GPS_ERR_EN : Z := Z.shiftl 1 12.
Definition ZYNQ_CONFIG_TRIGGER_ONE : Z := Z.shiftl 1 16.
Definition ZYNQ_CONFIG_GPS_SW : Z := Z.shiftl 1 17.
Definition ZYNQ_CONFIG_TRIGGER : Z := Z.shiftl 1 18.
Definition ZYNQ_CONFIG_TRIGGER_MASK : Z := 0x00070000.
Definition ZYNQ_CONFIG_PS_TXHP_EN : Z := Z.shiftl 1 24.
Definition ZYNQ_CONFIG_PS_TXLP_EN : Z := Z.shiftl 1 25.
Definition ZYNQ_G_RESET : Z := 0x024.
Definition ZYNQ_GLOBAL_RESET : Z := Z.shiftl 1 0.
Definition ZYNQ_I2C_RESET : Z := Z.shiftl 1 4.
Definition ZYNQ_G_INTR_STATUS_TX : Z := 0x100.
Definition ZYNQ_G_INTR_MASK_TX : Z := 0x104.
Definition ZYNQ_G_INTR_UNMASK_TX : Z := 0x108.
Definition ZYNQ_INTR_TX_ALL : Z := 0xFFFFFFFF.
Definition ZYNQ_G_INTR_STATUS_RX : Z := 0x110.
Definition ZYNQ_G_INTR_MASK_RX : Z := 0x114.
Definition ZYNQ_G_INTR_UNMASK_RX : Z := 0x118.
Definition ZYNQ_INTR_RX_ALL : Z := 0xFFFFFFFF.
Definition ZYNQ_G_PS_INTR_STATUS : Z := 0x120.
Definition ZYNQ_G_PS_INTR_MASK : Z := 0x124.
Definition ZYNQ_PS_INTR_FWUPLOAD_GRANT : Z := Z.shiftl 1 0.
Definition ZYNQ_PS_INTR_FWUPDATE_DONE : Z := Z.shiftl 1 1.
Definition ZYNQ_PS_INTR_GPS_PPS_CHG : Z := Z.shiftl 1 4.
Definition ZYNQ_PS_INTR_GPS_PPS : Z := 0x10.
Definition ZYNQ_PS_INTR_FW : Z := 0x3.
Definition ZYNQ_PS_INTR_ALL : Z := 0x13.
Definition ZYNQ_G_DEBUG_CFG0 : Z := 0x1D0.
Definition ZYNQ_G_DEBUG_CFG1 : Z := 0x1D4.
Definition ZYNQ_G_DEBUG_CFG2 : Z := 0x1D8.
Definition ZYNQ_G_DEBUG_CFG3 : Z := 0x1DC.
Definition ZYNQ_G_DEBUG_STA0 : Z := 0x1E0.
Definition ZYNQ_G_DEBUG_STA1 : Z := 0x1E4.
Definition ZYNQ_G_DEBUG_STA2 : Z := 0x1E8.
Definition ZYNQ_G_DEBUG_STA3 : Z := 0x1EC.
Definition ZYNQ_G_DEBUG_CNT_CFG : Z := 0x1F0.
Definition ZYNQ_G_DEBUG_CNT0 : Z := 0x1F4.
Definition ZYNQ_G_DEBUG_CNT1 : Z := 0x1F8.
Definition ZYNQ_G_DEBUG_CNT2 : Z := 0x1FC.
Definition ZYNQ_CHAN_REG_MIN : Z := 0x1000.
Definition ZYNQ_CHAN_REG_MAX : Z := 0x1FFF.
Definition ZYNQ_CHAN_REG_OFFSET : Z := 0x100.
Definition ZYNQ_CH_TX_HEAD_HI : Z := 0x1000.
Definition ZYNQ_CH_TX_HEAD_LO : Z := 0x1004.
Definition ZYNQ_CH_TX_TAIL_HI : Z := 0x1008.
Definition ZYNQ_CH_TX_TAIL_LO : Z := 0x100C.
Definition ZYNQ_CH_TX_RING_SZ : Z := 0x1010.
Definition ZYNQ_CH_DMA_CONTROL : Z := 0x1020.
Definition ZYNQ_CH_DMA_RD_START : Z := Z.shiftl 1 0.
Definition ZYNQ_CH_DMA_RD_STOP : Z := Z.shiftl 1 1.
Definition ZYNQ_CH_DMA_WR_START : Z := Z.shiftl 1 4.
Definition ZYNQ_CH_DMA_WR_STOP : Z := Z.shiftl 1 5.
Definition ZYNQ_CH_DMA_STATUS : Z := 0x1024.
Definition ZYNQ_CH_DMA_RD_BUSY : Z := Z.shiftl 1 0.
Definition ZYNQ_CH_DMA_WR_BUSY : Z := Z.shiftl 1 4.
Definition ZYNQ_CH_DMA_RD_BUF_FULL : Z := Z.shiftl 1 8.
Definition ZYNQ_CH_DMA_WR_STATE_OFFSET : Z := 4.
Definition ZYNQ_CH_DMA_WR_STATE_MASK : Z := 0xF.
Definition ZYNQ_CH_DMA_READY : Z := 0x5.
Definition ZYNQ_CH_RX_PDT_HI : Z := 0x1040.
Definition ZYNQ_CH_RX_PDT_LO : Z := 0x1044.
Definition ZYNQ_CH_RX_PDT_SZ : Z := 0x1048.
Definition ZYNQ_CH_RX_TAIL : Z := 0x1050.
Definition ZYNQ_CH_RX_HEAD : Z := 0x1054.
Definition ZYNQ_CH_RX_BUF_FULL : Z := Z.shiftl 1 0.
Definition ZYNQ_CH_WR_TABLE_CONFIG : Z := 0x104C.
Definition ZYNQ_CH_WR_LAST_PT_SZ_MASK : Z := 0xFFF.
Definition ZYNQ_CH_DMA_CONFIG : Z := 0x1058.
Definition ZYNQ_CH_DMA_RX_EN : Z := Z.shiftl 1 0.
Definition ZYNQ_CH_DMA_TX_EN : Z := Z.shiftl 1 2.
Definition ZYNQ_CH_DMA_FRAME_BUF_ALIGN : Z := Z.shiftl 1 4.
Definition ZYNQ_CH_DMA_CAN_HWTS : Z := Z.shiftl 1 5.
Definition ZYNQ_CH_DMA_FRAME_SZ_OFFSET : Z := 8.
Definition ZYNQ_CH_DMA_FRAME_SZ_MASK : Z := 0xFFFFFF00.
Definition ZYNQ_CH_RESET : Z := 0x105C.
Definition ZYNQ_CH_RESET_EN : Z := Z.shiftl 1 0.
Definition ZYNQ_CH_DMA_RESET_EN : Z := Z.shiftl 1 1.
Definition ZYNQ_CH_ERR_STATUS : Z := 0x1080.
Definition ZYNQ_CH_ERR_CAN_BUSOFF : Z := Z.shiftl 1 0.
Definition ZYNQ_CH_ERR_CAN_STATERR : Z := Z.shiftl 1 1.
Definition ZYNQ_CH_ERR_CAN_RX_IPOVERFLOW : Z := Z.shiftl 1 2.
Definition ZYNQ_CH_ERR_CAN_RX_USROVERFLOW : Z := Z.shiftl 1 3.
Definition ZYNQ_CH_ERR_CAN_TX_TIMEOUT : Z := Z.shiftl 1 4.
Definition ZYNQ_CH_ERR_CAN_TX_LPFIFOFULL : Z := Z.shiftl 1 5.
Definition ZYNQ_CH_ERR_CAN_RX_FIFOFULL : Z := Z.shiftl 1 6.
Definition ZYNQ_CH_ERR_CAN_TX_HPFIFOFULL : Z := Z.shiftl 1 7.
Definition ZYNQ_CH_ERR_CAN_CRC_ERR : Z := Z.shiftl 1 8.
Definition ZYNQ_CH_ERR_CAN_FRAME_ERR : Z := Z.shiftl 1 9.
Definition ZYNQ_CH_ERR_CAN_STUFF_ERR : Z := Z.shiftl 1 10.
Definition ZYNQ_CH_ERR_CAN_BIT_ERR : Z := Z.shiftl 1 11.
Definition ZYNQ_CH_ERR_CAN_ACK_ERR : Z := Z.shiftl 1 12.
Definition ZYNQ_CH_ERR_CAM_TRIGGER : Z := Z.shiftl 1 13.
Definition ZYNQ_CH_ERR_CAM_LINK_CHANGE : Z := Z.shiftl 1 14.
Definition ZYNQ_CH_ERR_DMA_RX_BUF_FULL : Z := Z.shiftl 1 24.
Definition ZYNQ_CH_ERR_DMA_RX_FIFO_FULL : Z := Z.shiftl 1 25.
Definition ZYNQ_CH_ERR_MASK_TX : Z := 0x1088.
Definition ZYNQ_CH_ERR_MASK_TX_DEFAULT : Z := 0xFF0001EC.
Definition ZYNQ_CH_ERR_MASK_RX : Z := 0x108C.
Definition ZYNQ_CH_ERR_MASK_RX_DEFAULT : Z := 0xFE0010B0.
Definition ZYNQ_G_CAM_TRIG_CFG : Z := 0x2000.
Definition ZYNQ_G_CAM_FPS_DRIFT_OFFSET : Z := 4.
Definition ZYNQ_G_CAM_FPS_DRIFT_MASK : Z := 0x1F.
Definition ZYNQ_G_CAM_DELAY_UPDATE_OFFSET : Z := 0.
Definition ZYNQ_G_CAM_DELAY_UPDATE_MASK : Z := 0xF.
Definition ZYNQ_G_NTP_LO : Z := 0x2040.
Definition ZYNQ_G_NTP_HI : Z := 0x2044.
Definition ZYNQ_G_NTP_DATE : Z := 0x2048.
Definition ZYNQ_G_GPRMC : Z := 0x204C.
Definition ZYNQ_G_I2C_CONTROL_0 : Z := 0x2080.
Definition ZYNQ_I2C_ADDR_OFFSET : Z := 0.
Definition ZYNQ_I2C_ADDR_MASK : Z := 0xFF.
Definition ZYNQ_I2C_ID_OFFSET : Z := 8.
Definition ZYNQ_I2C_ID_MASK : Z := 0x7F.
Definition ZYNQ_I2C_DATA_OFFSET : Z := 16.
Definition ZYNQ_I2C_DATA_MASK : Z := 0xFF.
Definition ZYNQ_I2C_CMD_READ : Z := Z.shiftl 1 24.
Definition ZYNQ_I2C_ADDR_16 : Z := Z.shiftl 1 25.
Definition ZYNQ_I2C_CMD_ERR : Z := Z.shiftl 1 30.
Definition ZYNQ_I2C_CMD_BUSY : Z := Z.shiftl 1 31.
Definition ZYNQ_G_I2C_CONFIG_0 : Z := 0x2084.
Definition ZYNQ_I2C_ADDR_HI_OFFSET : Z := 0.
Definition ZYNQ_I2C_ADDR_HI_MASK : Z := 0xFF.
Definition ZYNQ_G_I2C_CONTROL_1 : Z := 0x2088.
Definition ZYNQ_G_I2C_CONFIG_1 : Z := 0x208C.
Definition ZYNQ_G_I2C_CONTROL_2 : Z := 0x2090.
Definition ZYNQ_G_I2C_CONFIG_2 : Z := 0x2094.
Definition ZYNQ_G_I2C_CONTROL_3 : Z := 0x2098.
Definition ZYNQ_G_I2C_CONFIG_3 : Z := 0x209C.
Definition ZYNQ_G_GPS_CONFIG : Z := 0x2100.
Definition ZYNQ_GPS_ADJ_STEP_OFFSET : Z := 0.
Definition ZYNQ_GPS_ADJ_STEP_MASK : Z := 0xFFFF.
Definition ZYNQ_GPS_MAX_TOLERANCE_OFFSET : Z := 16.
Definition ZYNQ_GPS_MAX_TOLERANCE_MASK : Z := 0xFFF.
Definition ZYNQ_GPS_LOOPBACK_EN : Z := Z.shiftl 1 28.
Definition ZYNQ_GPS_DISABLE_SMOOTH : Z := Z.shiftl 1 30.
Definition ZYNQ_GPS_USE_LOCAL_ONLY : Z := Z.shiftl 1 31.
Definition ZYNQ_G_GPS_TIME_LO_INIT : Z := 0x2104.
Definition ZYNQ_GPS_TIME_VALID : Z := Z.shiftl 1 0.
Definition ZYNQ_GPS_TIME_NSEC_OFFSET : Z := 1.
Definition ZYNQ_GPS_TIME_NSEC_MASK : Z := 0x7F.
Definition ZYNQ_GPS_TIME_USEC_OFFSET : Z := 8.
Definition ZYNQ_GPS_TIME_USEC_MASK : Z := 0xFFF.
Definition ZYNQ_GPS_TIME_MSEC_OFFSET : Z := 20.
Definition ZYNQ_GPS_TIME_MSEC_MASK : Z := 0xFFF.
Definition ZYNQ_G_GPS_TIME_HI_INIT : Z := 0x2108.
Definition ZYNQ_GPS_TIME_SEC_OFFSET : Z := 0.
Definition ZYNQ_GPS_TIME_SEC_MASK : Z := 0xFF.
Definition ZYNQ_GPS_TIME_MIN_OFFSET : Z := 8.
Definition ZYNQ_GPS_TIME_MIN_MASK : Z := 0xFF.
Definition ZYNQ_GPS_TIME_HOUR_OFFSET : Z := 16.
Definition ZYNQ_GPS_TIME_HOUR_MASK : Z := 0xFF.
Definition ZYNQ_G_GPS_CONFIG_2 : Z := 0x210C.
Definition ZYNQ_GPS_TIME_YEAR_OFFSET : Z := 0.
Definition ZYNQ_GPS_TIME_YEAR_MASK : Z := 0xFF.
Definition ZYNQ_GPS_TIME_MON_OFFSET : Z := 8.
Definition ZYNQ_GPS_TIME_MON_MASK : Z := 0xFF.
Definition ZYNQ_GPS_TIME_DAY_OFFSET : Z := 16.
Definition ZYNQ_GPS_TIME_DAY_MASK : Z := 0xFF.
Definition ZYNQ_GPS_PPS_LOCK_DELAY_OFFSET : Z := 24.
Definition ZYNQ_GPS_PPS_LOCK_DELAY_MASK : Z := 0x7F.
Definition ZYNQ_GPS_CHECKSUM_CHECK : Z := Z.shiftl 1 31.
Definition ZYNQ_G_GPS_STATUS : Z := 0x2110.
Definition ZYNQ_GPS_INIT_SET : Z := Z.shiftl 1 29.
Definition ZYNQ_GPS_SMOOTH_IN_PROGRESS : Z := Z.shiftl 1 30.
Definition ZYNQ_GPS_LOCAL_SYNC_DONE : Z := Z.shiftl 1 31.
Definition ZYNQ_G_GPS_LAST_TIME_LO : Z := 0x2118.
Definition ZYNQ_G_GPS_LAST_TIME_HI : Z := 0x211C.
Definition ZYNQ_G_GPS_LAST_TIME_DATE : Z := 0x2120.
Definition ZYNQ_CAM_REG_MIN : Z := 0x3000.
Definition ZYNQ_CAM_REG_MAX : Z := 0x3FFF.
Definition ZYNQ_CAM_REG_OFFSET : Z := 0x100.
Definition ZYNQ_CAM_CONFIG : Z := 0x3000.
Definition ZYNQ_CAM_EN : Z := Z.shiftl 1 0.
Definition ZYNQ_CAM_TEST_PATTERN_OFFSET : Z := 1.
Definition ZYNQ_CAM_TEST_PATTERN_MASK : Z := 0x3.
Definition ZYNQ_CAM_RGB_YUV_SEL : Z := Z.shiftl 1 3.
Definition ZYNQ_CAM_COLOR_SWAP : Z := Z.shiftl 1 4.
Definition ZYNQ_CAM_TIMESTAMP_RCV : Z := Z.shiftl 1 5.
Definition ZYNQ_CAM_SENSOR_RESET : Z := Z.shiftl 1 6.
Definition ZYNQ_CAM_POWER_DOWN : Z := Z.shiftl 1 7.
Definition ZYNQ_CAM_FOOTER_OFFSET : Z := 8.
Definition ZYNQ_CAM_FOOTER_MASK : Z := 0xF.
Definition ZYNQ_CAM_HEADER_OFFSET : Z := 12.
Definition ZYNQ_CAM_HEADER_MASK : Z := 0xF.
Definition ZYNQ_CAM_PIN_SWAP : Z := Z.shiftl 1 20.
Definition ZYNQ_CAM_TRIGGER : Z := 0x3004.
Definition ZYNQ_CAM_TRIG_DELAY_OFFSET : Z := 0.
Definition ZYNQ_CAM_TRIG_DELAY_MASK : Z := 0x1FFFF.
Definition ZYNQ_CAM_TRIG_POLARITY_LOW : Z := Z.shiftl 1 20.
Definition ZYNQ_CAM_TRIG_FPS_OFFSET : Z := 24.
Definition ZYNQ_CAM_TRIG_FPS_MASK : Z := 0x1F.
Definition ZYNQ_CAM_STATUS : Z := 0x3020.
Definition ZYNQ_CAM_FPD_UNLOCK : Z := Z.shiftl 1 0.
Definition ZYNQ_CAM_FPD_BIST_FAIL : Z := Z.shiftl 1 2.
Definition ZYNQ_CAM_FPD_RESET : Z := Z.shiftl 1 3.
Definition ZYNQ_CAM_FPD_PWDN : Z := Z.shiftl 1 4.
Definition ZYNQ_CAM_RGB_TPG_ERR : Z := Z.shiftl 1 5.
Definition ZYNQ_CAM_YUV_TPG_ERR : Z := Z.shiftl 1 6.
Definition ZYNQ_CAM_FIFO_FULL : Z := Z.shiftl 1 7.
Definition ZCAN_IP_OFFSET : Z := 0x200.
Definition ZCAN_IP_SRR : Z := 0x000.
Definition ZCAN_IP_SRR_SRST : Z := Z.shiftl 1 0.
Definition ZCAN_IP_SRR_CEN : Z := Z.shiftl 1 1.
Definition ZCAN_IP_MSR : Z := 0x004.
Definition ZCAN_IP_MSR_NORMAL : Z := 0x0.
Definition ZCAN_IP_MSR_SLEEP : Z := 0x1.
Definition ZCAN_IP_MSR_LOOPBACK : Z := 0x2.
Definition ZCAN_IP_BRPR : Z := 0x008.
Definition ZCAN_IP_BRPR_1M : Z := 0x000.
Definition ZCAN_IP_BRPR_500K : Z := 0x001.
Definition ZCAN_IP_BRPR_250K : Z := 0x003.
Definition ZCAN_IP_BRPR_125K : Z := 0x007.
Definition ZCAN_IP_BTR : Z := 0x00C.
Definition ZCAN_IP_BTR_DEFAULT : Z := 0xA3.
Definition ZCAN_IP_ECR : Z := 0x010.
Definition ZCAN_IP_ESR : Z := 0x014.
Definition ZCAN_IP_SR : Z := 0x018.
Definition ZCAN_IP_ISR : Z := 0x01C.
Definition ZCAN_IP_IER : Z := 0x020.
Definition ZCAN_IP_ICR : Z := 0x024.
Definition ZCAN_IP_INTR_ARBLST : Z := Z.shiftl 1 0.
Definition ZCAN_IP_INTR_TXOK : Z := Z.shiftl 1 1.
Definition ZCAN_IP_INTR_TXFULL : Z := Z.shiftl 1 2.
Definition ZCAN_IP_INTR_TXBFULL : Z := Z.shiftl 1 3.
Definition ZCAN_IP_INTR_RXOK : Z := Z.shiftl 1 4.
Definition ZCAN_IP_INTR_RXUFLW : Z := Z.shiftl 1 5.
Definition ZCAN_IP_INTR_RXOFLW : Z := Z.shiftl 1 6.
Definition ZCAN_IP_INTR_RXNEMP : Z := Z.shiftl 1 7.
Definition ZCAN_IP_INTR_ERROR : Z := Z.shiftl 1 8.
Definition ZCAN_IP_INTR_BUSOFF : Z := Z.shiftl 1 9.
Definition ZCAN_IP_INTR_SLEEP : Z := Z.shiftl 1 10.
Definition ZCAN_IP_INTR_WAKEUP : Z := Z.shiftl 1 11.
Definition ZCAN_IP_INTR_ALL : Z := 0x352.
Definition ZCAN_IP_AFR : Z := 0x060.
Definition ZCAN_IP_AFR_UAF1 : Z := Z.shiftl 1 0.
Definition ZCAN_IP_AFR_UAF2 : Z := Z.shiftl 1 1.
Definition ZCAN_IP_AFR_UAF3 : Z := Z.shiftl 1 2.
Definition ZCAN_IP_AFR_UAF4 : Z := Z.shiftl 1 3.
Definition ZCAN_IP_AFR_NONE : Z := 0.
Definition ZCAN_IP_AFMR_1 : Z := 0x064.
Definition ZCAN_IP_AFIR_1 : Z := 0x068.
Definition ZCAN_IP_AFMR_2 : Z := 0x06C.
Definition ZCAN_IP_AFIR_2 : Z := 0x070.
Definition ZCAN_IP_AFMR_3 : Z := 0x074.
Definition ZCAN_IP_AFIR_3 : Z := 0x078.
Definition ZCAN_IP_AFMR_4 : Z := 0x07C.
Definition ZCAN_IP_AFIR_4 : Z := 0x080.
Definition ZCAN_IP_AF_EID : Z := 0x7FFFE.
Definition ZCAN_IP_AF_IDE : Z := Z.shiftl 1 19.
Definition ZCAN_IP_AF_SRTR : Z := Z.shiftl 1 20.
Definition ZCAN_IP_AF_SID : Z := 0xFFE00000.
Definition ZCAN_IP_TXFIFO_ID : Z := 0x100.
Definition ZCAN_IP_TXFIFO_DLC : Z := 0x104.
Definition ZCAN_IP_TXFIFO_DW1 : Z := 0x108.
Definition ZCAN_IP_TXFIFO_DW2 : Z := 0x10C.
Definition ZCAN_IP_TXHPB_ID : Z := 0x110.
Definition ZCAN_IP_TXHPB_DLC : Z := 0x114.
Definition ZCAN_IP_TXHPB_DW1 : Z := 0x118.
Definition ZCAN_IP_TXHPB_DW2 : Z := 0x11C.
Definition ZCAN_IP_RXFIFO_ID : Z := 0x120.
Definition ZCAN_IP_RXFIFO_DLC : Z := 0x124.
Definition ZCAN_IP_RXFIFO_DW1 : Z := 0x128.
Definition ZCAN_IP_RXFIFO_DW2 : Z := 0x12C.
Definition ZCAN_IP_PIO_STATUS : Z := 0x130.
Definition ZCAN_IP_PIO_RX_READY : Z := Z.shiftl 1 0.
Definition ZCAN_IP_PIO_TX_FULL : Z := Z.shiftl 1 1.
Definition ZCAN_IP_PIO_TX_HI_FULL : Z := Z.shiftl 1 2.
Definition ZCAN_IP_CFG0 : Z := 0x134.
Definition ZCAN_IP_DBG_CNT0 : Z := 0x180.
Definition ZCAN_IP_DBG_CNT1 : Z := 0x184.
Definition ZYNQ_GPS_SYNC_TIME_MAX : Z := 100 * 24 * 3600.
Definition ZYNQ_CH_DMA_EN : Z := Z.lor ZYNQ_CH_DMA_RX_EN ZYNQ_CH_DMA_TX_EN.
(** [(1 < 0)], not [(1 << 0)], in the source *)
Definition ZCAN_IP_AF_ERTR : Z := if 1 <? 0 then 1 else 0.

(** *** Function-like macros *)
Definition ZYNQ_FW_IMAGE_TYPE (x : Z) : Z := Z.land (Z.shiftr x 12) 0xF.
Definition ZYNQ_INTR_CH_TX (ch : Z) : Z := Z.shiftl 1 ch.
Definition ZYNQ_INTR_CH_TX_ERR (ch : Z) : Z := Z.shiftl 1 (ch + 16).
Definition ZYNQ_INTR_CH_TX_ALL (ch : Z) : Z :=
  Z.lor (ZYNQ_INTR_CH_TX ch) (ZYNQ_INTR_CH_TX_ERR ch).
Definition ZYNQ_INTR_CH_RX (ch : Z) : Z := Z.shiftl 1 ch.
Definition ZYNQ_INTR_CH_RX_ERR (ch : Z) : Z := Z.shiftl 1 (ch + 16).
Definition ZYNQ_INTR_CH_RX_ALL (ch : Z) : Z :=
  Z.lor (ZYNQ_INTR_CH_RX ch) (ZYNQ_INTR_CH_RX_ERR ch).
Definition HI32 (x : Z) : Z := u32 (Z.shiftr (u64 x) 32).
Definition LO32 (x : Z) : Z := u32 x.
Definition CEILING (x y : Z) : Z := (x + y - 1) / y.

(** *** Capabilities and trace flags *)
Definition ZYNQ_HW_CAP_CAN : Z := Z.shiftl 1 0.
Definition ZYNQ_HW_CAP_GPS : Z := Z.shiftl 1 1.
Definition ZYNQ_HW_CAP_TRIGGER : Z := Z.shiftl 1 2.
Definition ZYNQ_HW_CAP_FW : Z := Z.shiftl 1 3.
Definition ZYNQ_HW_CAP_I2C : Z := Z.shiftl 1 4.
Definition ZYNQ_HW_CAP_VIDEO : Z := Z.shiftl 1 5.
Definition ZYNQ_HW_CAP_FPGA_TIME_INIT : Z := Z.shiftl 1 6.
Definition ZYNQ_HW_CAP_GPS_SMOOTH : Z := Z.shiftl 1 7.
Definition ZYNQ_TRACE_PROBE : Z := Z.shiftl 1 0.
Definition ZYNQ_TRACE_CHAN : Z := Z.shiftl 1 1.
Definition ZYNQ_TRACE_CAN : Z := Z.shiftl 1 2.
Definition ZYNQ_TRACE_CAN_PIO : Z := Z.shiftl 1 3.
Definition ZYNQ_TRACE_CAN_MSG : Z := Z.shiftl 1 4.
Definition ZYNQ_TRACE_SYSFS : Z := Z.shiftl 1 5.
Definition ZYNQ_TRACE_FW : Z := Z.shiftl 1 6.
Definition ZYNQ_TRACE_GPS : Z := Z.shiftl 1 7.
Definition ZYNQ_TRACE_VIDEO : Z := Z.shiftl 1 8.
Definition ZYNQ_TRACE_INTR : Z := Z.shiftl 1 9.
Definition ZYNQ_TRACE_STATS : Z := Z.shiftl 1 10.
Definition ZYNQ_TRACE_REG : Z := Z.shiftl 1 29.
Definition ZYNQ_TRACE_BUF : Z := Z.shiftl 1 30.
Definition ZYNQ_TRACE_ERR : Z := Z.shiftl 1 31.

(** *** The fields of the map *)
Definition ZYNQ_CH_DMA_WR_STATE : field := Field ZYNQ_CH_DMA_WR_STATE_OFFSET ZYNQ_CH_DMA_WR_STATE_MASK.
Definition ZYNQ_G_CAM_FPS_DRIFT : field := Field ZYNQ_G_CAM_FPS_DRIFT_OFFSET ZYNQ_G_CAM_FPS_DRIFT_MASK.
Definition ZYNQ_G_CAM_DELAY_UPDATE : field := Field ZYNQ_G_CAM_DELAY_UPDATE_OFFSET ZYNQ_G_CAM_DELAY_UPDATE_MASK.
Definition ZYNQ_I2C_ADDR : field := Field ZYNQ_I2C_ADDR_OFFSET ZYNQ_I2C_ADDR_MASK.
Definition ZYNQ_I2C_ID : field := Field ZYNQ_I2C_ID_OFFSET ZYNQ_I2C_ID_MASK.
Definition ZYNQ_I2C_DATA : field := Field ZYNQ_I2C_DATA_OFFSET ZYNQ_I2C_DATA_MASK.
Definition ZYNQ_I2C_ADDR_HI : field := Field ZYNQ_I2C_ADDR_HI_OFFSET ZYNQ_I2C_ADDR_HI_MASK.
Definition ZYNQ_GPS_ADJ_STEP : field := Field ZYNQ_GPS_ADJ_STEP_OFFSET ZYNQ_GPS_ADJ_STEP_MASK.
Definition ZYNQ_GPS_MAX_TOLERANCE : field := Field ZYNQ_GPS_MAX_TOLERANCE_OFFSET ZYNQ_GPS_MAX_TOLERANCE_MASK.
Definition ZYNQ_GPS_TIME_NSEC : field := Field ZYNQ_GPS_TIME_NSEC_OFFSET ZYNQ_GPS_TIME_NSEC_MASK.
Definition ZYNQ_GPS_TIME_USEC : field := Field ZYNQ_GPS_TIME_USEC_OFFSET ZYNQ_GPS_TIME_USEC_MASK.
Definition ZYNQ_GPS_TIME_MSEC : field := Field ZYNQ_GPS_TIME_MSEC_OFFSET ZYNQ_GPS_TIME_MSEC_MASK.
Definition ZYNQ_GPS_TIME_SEC : field := Field ZYNQ_GPS_TIME_SEC_OFFSET ZYNQ_GPS_TIME_SEC_MASK.
Definition ZYNQ_GPS_TIME_MIN : field := Field ZYNQ_GPS_TIME_MIN_OFFSET ZYNQ_GPS_TIME_MIN_MASK.
Definition ZYNQ_GPS_TIME_HOUR : field := Field ZYNQ_GPS_TIME_HOUR_OFFSET ZYNQ_GPS_TIME_HOUR_MASK.
Definition ZYNQ_GPS_TIME_YEAR : field := Field ZYNQ_GPS_TIME_YEAR_OFFSET ZYNQ_GPS_TIME_YEAR_MASK.
Definition ZYNQ_GPS_TIME_MON : field := Field ZYNQ_GPS_TIME_MON_OFFSET ZYNQ_GPS_TIME_MON_MASK.
Definition ZYNQ_GPS_TIME_DAY : field := Field ZYNQ_GPS_TIME_DAY_OFFSET ZYNQ_GPS_TIME_DAY_MASK.
Definition ZYNQ_GPS_PPS_LOCK_DELAY : field := Field ZYNQ_GPS_PPS_LOCK_DELAY_OFFSET ZYNQ_GPS_PPS_LOCK_DELAY_MASK.
Definition ZYNQ_CAM_TEST_PATTERN : field := Field ZYNQ_CAM_TEST_PATTERN_OFFSET ZYNQ_CAM_TEST_PATTERN_MASK.
Definition ZYNQ_CAM_FOOTER : field := Field ZYNQ_CAM_FOOTER_OFFSET ZYNQ_CAM_FOOTER_MASK.
Definition ZYNQ_CAM_HEADER : field := Field ZYNQ_CAM_HEADER_OFFSET ZYNQ_CAM_HEADER_MASK.
Definition ZYNQ_CAM_TRIG_DELAY : field := Field ZYNQ_CAM_TRIG_DELAY_OFFSET ZYNQ_CAM_TRIG_DELAY_MASK.
Definition ZYNQ_CAM_TRIG_FPS : field := Field ZYNQ_CAM_TRIG_FPS_OFFSET ZYNQ_CAM_TRIG_FPS_MASK.

(** ** Laws of the field macros *)

(** a field is [w] contiguous bits that fit in the register *)
Definition field_width (f : field) : Z := Z.log2_up (f_mask f + 1).
Definition field_wf (f : field) : bool :=
  (0 <=? f_off f) && (f_mask f =? Z.ones (field_width f)) && (0 <=? field_width f)
  && (f_off f + field_width f <=? 32).
Definition field_disjoint (f g : field) : bool :=
  (f_off f + field_width f <=? f_off g) || (f_off g + field_width g <=? f_off f).

Lemma GET_BITS_bf f v : field_wf f = true -> GET_BITS f v = bf_get (f_off f) (field_width f) v.
Proof.
  unfold field_wf, GET_BITS, bf_get. intros H.
  apply andb_prop in H as [H _]. apply andb_prop in H as [H _].
  apply andb_prop in H as [_ H]. apply Z.eqb_eq in H. by rewrite <- H.
Qed.

Lemma SET_BITS_bf f v x :
  field_wf f = true -> SET_BITS f v x = bf_set (f_off f) (field_width f) v x.
Proof.
  unfold field_wf, SET_BITS, bf_set. intros H.
  apply andb_prop in H as [H _]. apply andb_prop in H as [H _].
  apply andb_prop in H as [_ H]. apply Z.eqb_eq in H. by rewrite <- H.
Qed.

Lemma field_wf_bounds f :
  field_wf f = true ->
  0 <= f_off f /\ 0 <= field_width f /\ f_off f + field_width f <= 32.
Proof. unfold field_wf. rewrite !andb_true_iff, !Z.leb_le. lia. Qed.

Lemma GET_SET_same f v x :
  field_wf f = true -> GET_BITS f (SET_BITS f v x) = Z.land x (f_mask f).
Proof.
  intros H. rewrite SET_BITS_bf, GET_BITS_bf by done.
  destruct (field_wf_bounds _ H) as (? & ? & ?).
  rewrite bf_get_set_same by done. f_equal.
  unfold field_wf in H. rewrite !andb_true_iff in H. lia.
Qed.

Lemma GET_SET_small f v x :
  field_wf f = true -> 0 <= x < 2 ^ field_width f ->
  GET_BITS f (SET_BITS f v x) = x.
Proof.
  intros H Hx. rewrite GET_SET_same by done.
  destruct (field_wf_bounds _ H) as (? & ? & ?).
  replace (f_mask f) with (Z.ones (field_width f))
    by (unfold field_wf in H; rewrite !andb_true_iff in H; lia).
  by apply land_ones_small.
Qed.

Lemma GET_SET_other f g v x :
  field_wf f = true -> field_wf g = true -> field_disjoint f g = true ->
  GET_BITS f (SET_BITS g v x) = GET_BITS f v.
Proof.
  intros Hf Hg Hd. rewrite SET_BITS_bf, !GET_BITS_bf by done.
  destruct (field_wf_bounds _ Hf) as (? & ? & ?), (field_wf_bounds _ Hg) as (? & ? & ?).
  apply bf_get_set_other; try done.
  unfold field_disjoint in Hd. rewrite orb_true_iff, !Z.leb_le in Hd. lia.
Qed.

Lemma SET_BITS_range f v x :
  field_wf f = true -> 0 <= v < 2 ^ 32 -> 0 <= SET_BITS f v x < 2 ^ 32.
Proof.
  intros Hf Hv. rewrite SET_BITS_bf by done.
  destruct (field_wf_bounds _ Hf) as (? & ? & ?). apply bf_set_range; done.
Qed.

Lemma HI_LO_32 (x : Z) : 0 <= x < 2 ^ 64 -> Z.lor (Z.shiftl (HI32 x) 32) (LO32 x) = x.
Proof.
  intros. unfold HI32, LO32. rewrite u64_small by lia.
  rewrite u32_small by
    (rewrite Z.shiftr_div_pow2 by lia; split; [apply Z.div_pos | apply Z.div_lt_upper_bound]; lia).
  pose proof (u32_range x). rewrite lor_shiftl_add by lia.
  rewrite Z.shiftr_div_pow2 by lia. unfold u32.
  pose proof (Z.div_mod x (2 ^ 32) ltac:(lia)). lia.
Qed.

Lemma u32_HI32 (x : Z) : u32 (HI32 x) = HI32 x.
Proof. apply u32_idemp. Qed.
Lemma u32_LO32 (x : Z) : u32 (LO32 x) = LO32 x.
Proof. apply u32_idemp. Qed.
#[export] Hint Rewrite u32_HI32 u32_LO32 : basa_rw.
