(* ===== verification/Api.v ===== *)
(** * The user-visible interface ([zynq_api.h], [bcan_defs.h]) and the
    driver's own constants ([basa_can.h], [basa_chan.h])

    Result codes of the CAN interface, statistics indices, the ioctl command
    words as the [_IO*] macros of Linux build them, ring and table sizes. *)

From S2P Require Import Prelude.

(** ** Result codes ([enum bcan_err_code]) *)
Definition BCAN_PARAM_INVALID : Z := (-12).
Definition BCAN_HDL_INVALID : Z := BCAN_PARAM_INVALID + 1.
Definition BCAN_DEV_INVALID : Z := BCAN_PARAM_INVALID + 2.
Definition BCAN_DEV_ERR : Z := BCAN_PARAM_INVALID + 3.
Definition BCAN_DEV_BUSY : Z := BCAN_PARAM_INVALID + 4.
Definition BCAN_TIMEOUT : Z := BCAN_PARAM_INVALID + 5.
Definition BCAN_FAIL : Z := BCAN_PARAM_INVALID + 6.
Definition BCAN_NOT_SUPPORTED : Z := BCAN_PARAM_INVALID + 7.
Definition BCAN_NOT_IMPLEMENTED : Z := BCAN_PARAM_INVALID + 8.
Definition BCAN_INVALID : Z := BCAN_PARAM_INVALID + 9.
Definition BCAN_NO_BUFFERS : Z := BCAN_PARAM_INVALID + 10.
Definition BCAN_ERR : Z := BCAN_PARAM_INVALID + 11.
Definition BCAN_OK : Z := BCAN_PARAM_INVALID + 12.
Definition BCAN_PARTIAL_OK : Z := BCAN_PARAM_INVALID + 13.
Definition BCAN_EXTENDED_FRAME : Z := 0x20000000.

(** Linux error numbers the driver returns *)
Definition EPERM : Z := 1.
Definition ENOMEM : Z := 12.
Definition EFAULT : Z := 14.
Definition EBUSY : Z := 16.
Definition ENODEV : Z := 19.
Definition EINVAL : Z := 22.
Definition EAGAIN : Z := 11.
Definition EIO : Z := 5.
Definition ENOSPC : Z := 28.
Definition ENOTTY : Z := 25.
Definition EOPNOTSUPP : Z := 95.

(** ** ioctl command numbers *)
(** *** [enum ZYNQ_IOC_GPS_CMD] *)
Definition IOC_GPS_GET : Z := 1.
Definition IOC_GPS_GPRMC_GET : Z := IOC_GPS_GET + 1.
Definition IOC_GPS_CMD_MAX : Z := IOC_GPS_GET + 2.
(** *** [enum ZYNQ_IOC_TRIGGER_CMD] *)
Definition IOC_TRIGGER_DISABLE : Z := IOC_GPS_CMD_MAX.
Definition IOC_TRIGGER_ENABLE_GPS : Z := IOC_TRIGGER_DISABLE + 1.
Definition IOC_TRIGGER_ENABLE_NOGPS : Z := IOC_TRIGGER_DISABLE + 2.
Definition IOC_TRIGGER_ENABLE_ONE_GPS : Z := IOC_TRIGGER_DISABLE + 3.
Definition IOC_TRIGGER_ENABLE_ONE_NOGPS : Z := IOC_TRIGGER_DISABLE + 4.
Definition IOC_TRIGGER_TIMESTAMP : Z := IOC_TRIGGER_DISABLE + 5.
Definition IOC_TRIGGER_STATUS : Z := IOC_TRIGGER_DISABLE + 6.
Definition IOC_TRIGGER_STATUS_GPS : Z := IOC_TRIGGER_DISABLE + 7.
Definition IOC_TRIGGER_STATUS_PPS : Z := IOC_TRIGGER_DISABLE + 8.
Definition IOC_TRIGGER_FPS_SET : Z := IOC_TRIGGER_DISABLE + 9.
Definition IOC_TRIGGER_FPS_GET : Z := IOC_TRIGGER_DISABLE + 10.
Definition IOC_TRIGGER_CMD_MAX : Z := IOC_TRIGGER_DISABLE + 11.
(** *** [enum ZYNQ_IOC_FW_CMD] *)
Definition IOC_FW_IMAGE_UPLOAD_START : Z := IOC_TRIGGER_CMD_MAX.
Definition IOC_FW_IMAGE_UPLOAD : Z := IOC_FW_IMAGE_UPLOAD_START + 1.
Definition IOC_FW_PL_UPDATE : Z := IOC_FW_IMAGE_UPLOAD_START + 2.
Definition IOC_FW_PS_UPDATE : Z := IOC_FW_IMAGE_UPLOAD_START + 3.
Definition IOC_FW_GET_VER : Z := IOC_FW_IMAGE_UPLOAD_START + 4.
Definition IOC_FW_CMD_MAX : Z := IOC_FW_IMAGE_UPLOAD_START + 5.
(** *** [enum ZYNQ_IOC_CAN_CMD] *)
Definition IOC_CAN_TX_TIMEOUT_SET : Z := IOC_FW_CMD_MAX.
Definition IOC_CAN_RX_TIMEOUT_SET : Z := IOC_CAN_TX_TIMEOUT_SET + 1.
Definition IOC_CAN_DEV_START : Z := IOC_CAN_TX_TIMEOUT_SET + 2.
Definition IOC_CAN_DEV_STOP : Z := IOC_CAN_TX_TIMEOUT_SET + 3.
Definition IOC_CAN_DEV_RESET : Z := IOC_CAN_TX_TIMEOUT_SET + 4.
Definition IOC_CAN_ID_ADD : Z := IOC_CAN_TX_TIMEOUT_SET + 5.
Definition IOC_CAN_ID_DEL : Z := IOC_CAN_TX_TIMEOUT_SET + 6.
Definition IOC_CAN_BAUDRATE_SET : Z := IOC_CAN_TX_TIMEOUT_SET + 7.
Definition IOC_CAN_BAUDRATE_GET : Z := IOC_CAN_TX_TIMEOUT_SET + 8.
Definition IOC_CAN_LOOPBACK_SET : Z := IOC_CAN_TX_TIMEOUT_SET + 9.
Definition IOC_CAN_LOOPBACK_UNSET : Z := IOC_CAN_TX_TIMEOUT_SET + 10.
Definition IOC_CAN_RECV : Z := IOC_CAN_TX_TIMEOUT_SET + 11.
Definition IOC_CAN_SEND : Z := IOC_CAN_TX_TIMEOUT_SET + 12.
Definition IOC_CAN_SEND_HIPRI : Z := IOC_CAN_TX_TIMEOUT_SET + 13.
Definition IOC_CAN_GET_STATUS_ERR : Z := IOC_CAN_TX_TIMEOUT_SET + 14.
Definition IOC_CAN_CMD_MAX : Z := IOC_CAN_TX_TIMEOUT_SET + 15.
(** *** [enum ZYNQ_IOC_REG_CMD] *)
Definition IOC_REG_READ : Z := IOC_CAN_CMD_MAX.
Definition IOC_REG_WRITE : Z := IOC_REG_READ + 1.
Definition IOC_REG_I2C_READ : Z := IOC_REG_READ + 2.
Definition IOC_REG_I2C_WRITE : Z := IOC_REG_READ + 3.
Definition IOC_REG_GPSPPS_EVENT_WAIT : Z := IOC_REG_READ + 4.
Definition IOC_REG_CMD_MAX : Z := IOC_REG_READ + 5.
(** *** [enum ZYNQ_IOC_TRIGGER_EXT_CMD] *)
Definition IOC_TRIGGER_INIT_USB : Z := IOC_REG_CMD_MAX.
Definition IOC_TRIGGER_ENABLE_ONE : Z := IOC_TRIGGER_INIT_USB + 1.
Definition IOC_TRIGGER_DISABLE_ONE : Z := IOC_TRIGGER_INIT_USB + 2.
Definition IOC_TRIGGER_ENABLE : Z := IOC_TRIGGER_INIT_USB + 3.
Definition IOC_TRIGGER_DELAY_SET : Z := IOC_TRIGGER_INIT_USB + 4.
Definition IOC_TRIGGER_DELAY_GET : Z := IOC_TRIGGER_INIT_USB + 5.
Definition IOC_TRIGGER_DEV_NAME : Z := IOC_TRIGGER_INIT_USB + 6.
Definition IOC_TRIGGER_EXT_MAX : Z := IOC_TRIGGER_INIT_USB + 7.
(** *** [enum ZYNQ_IOC_CAM_CMD] *)
Definition IOC_CAM_REG_READ : Z := 100.
Definition IOC_CAM_REG_WRITE : Z := IOC_CAM_REG_READ + 1.
Definition IOC_CAM_FLASH_INIT : Z := IOC_CAM_REG_READ + 2.
Definition IOC_CAM_FLASH_FINI : Z := IOC_CAM_REG_READ + 3.
Definition IOC_CAM_FLASH_READ : Z := IOC_CAM_REG_READ + 4.
Definition IOC_CAM_FLASH_WRITE : Z := IOC_CAM_REG_READ + 5.
Definition IOC_CAM_CAPS : Z := IOC_CAM_REG_READ + 6.
Definition IOC_CAM_RESET : Z := IOC_CAM_REG_READ + 7.
(** *** [enum ZYNQ_IOC_GPS_EXT_CMD] *)
Definition IOC_GPS_FPGA_INIT : Z := 110.
Definition IOC_GPS_SYNC : Z := IOC_GPS_FPGA_INIT + 1.
(** *** [enum ZYNQ_IOC_FW_EXT_CMD] *)
Definition IOC_FW_QSPI_UPDATE : Z := 120.
Definition IOC_FW_MMC_UPDATE : Z := IOC_FW_QSPI_UPDATE + 1.
Definition IOC_FW_SPI_UPDATE : Z := IOC_FW_QSPI_UPDATE + 2.
(** *** [enum ZYNQ_IOC_MISC_CMD] *)
Definition IOC_STATS_GET : Z := 200.
(** *** [enum zynq_baudrate_val] *)
Definition ZYNQ_BAUDRATE_1M : Z := 0.
Definition ZYNQ_BAUDRATE_500K : Z := ZYNQ_BAUDRATE_1M + 1.
Definition ZYNQ_BAUDRATE_250K : Z := ZYNQ_BAUDRATE_1M + 2.
Definition ZYNQ_BAUDRATE_150K : Z := ZYNQ_BAUDRATE_1M + 3.
Definition ZYNQ_BAUDRATE_NUM : Z := ZYNQ_BAUDRATE_1M + 4.

(** ** ioctl command words (Linux [_IOC]: direction in bits 30-31, size in
    16-29, type in 8-15, number in 0-7; the macro does not mask the type) *)
Definition _IOC (dir type nr size : Z) : Z :=
  Z.lor (Z.shiftl dir 30) (Z.lor (Z.shiftl type 8) (Z.lor nr (Z.shiftl size 16))).
Definition _IO (type nr : Z) : Z := _IOC 0 type nr 0.
Definition _IOW (type nr size : Z) : Z := _IOC 1 type nr size.
Definition _IOR (type nr size : Z) : Z := _IOC 2 type nr size.
Definition _IOWR (type nr size : Z) : Z := _IOC 3 type nr size.
(** ['z' << 12 | 'y' << 8 | 'n' << 4 | 'q'] *)
Definition ZYNQ_IOC_MAGIC : Z :=
  Z.lor (Z.shiftl 0x7A 12) (Z.lor (Z.shiftl 0x79 8) (Z.lor (Z.shiftl 0x6E 4) 0x71)).
(** [sizeof(unsigned long)] and of a pointer *)
Definition sz_long : Z := 8.

Definition ZYNQ_IOC_STATS_GET : Z := _IOWR ZYNQ_IOC_MAGIC IOC_STATS_GET sz_long.
Definition ZYNQ_IOC_GPS_GET : Z := _IOR ZYNQ_IOC_MAGIC IOC_GPS_GET sz_long.
Definition ZYNQ_IOC_GPS_GPRMC_GET : Z := _IOR ZYNQ_IOC_MAGIC IOC_GPS_GPRMC_GET sz_long.
Definition ZYNQ_IOC_GPS_FPGA_INIT : Z := _IO ZYNQ_IOC_MAGIC IOC_GPS_FPGA_INIT.
Definition ZYNQ_IOC_GPS_SYNC : Z := _IO ZYNQ_IOC_MAGIC IOC_GPS_SYNC.
Definition ZYNQ_IOC_TRIGGER_DISABLE : Z := _IOW ZYNQ_IOC_MAGIC IOC_TRIGGER_DISABLE sz_long.
Definition ZYNQ_IOC_TRIGGER_ENABLE_GPS : Z := _IOW ZYNQ_IOC_MAGIC IOC_TRIGGER_ENABLE_GPS sz_long.
Definition ZYNQ_IOC_TRIGGER_ENABLE_NOGPS : Z := _IOW ZYNQ_IOC_MAGIC IOC_TRIGGER_ENABLE_NOGPS sz_long.
Definition ZYNQ_IOC_TRIGGER_ENABLE_ONE_GPS : Z := _IOW ZYNQ_IOC_MAGIC IOC_TRIGGER_ENABLE_ONE_GPS sz_long.
Definition ZYNQ_IOC_TRIGGER_ENABLE_ONE_NOGPS : Z := _IOW ZYNQ_IOC_MAGIC IOC_TRIGGER_ENABLE_ONE_NOGPS sz_long.
Definition ZYNQ_IOC_TRIGGER_TIMESTAMP : Z := _IOW ZYNQ_IOC_MAGIC IOC_TRIGGER_TIMESTAMP sz_long.
Definition ZYNQ_IOC_TRIGGER_STATUS : Z := _IOR ZYNQ_IOC_MAGIC IOC_TRIGGER_STATUS sz_long.
Definition ZYNQ_IOC_TRIGGER_STATUS_GPS : Z := _IOR ZYNQ_IOC_MAGIC IOC_TRIGGER_STATUS_GPS sz_long.
Definition ZYNQ_IOC_TRIGGER_STATUS_PPS : Z := _IOR ZYNQ_IOC_MAGIC IOC_TRIGGER_STATUS_PPS sz_long.
Definition ZYNQ_IOC_TRIGGER_FPS_SET : Z := _IOW ZYNQ_IOC_MAGIC IOC_TRIGGER_FPS_SET sz_long.
Definition ZYNQ_IOC_TRIGGER_FPS_GET : Z := _IOW ZYNQ_IOC_MAGIC IOC_TRIGGER_FPS_GET sz_long.
Definition ZYNQ_IOC_TRIGGER_INIT_USB : Z := _IOW ZYNQ_IOC_MAGIC IOC_TRIGGER_INIT_USB sz_long.
Definition ZYNQ_IOC_TRIGGER_ENABLE_ONE : Z := _IOW ZYNQ_IOC_MAGIC IOC_TRIGGER_ENABLE_ONE sz_long.
Definition ZYNQ_IOC_TRIGGER_DISABLE_ONE : Z := _IOW ZYNQ_IOC_MAGIC IOC_TRIGGER_DISABLE_ONE sz_long.
Definition ZYNQ_IOC_TRIGGER_ENABLE : Z := _IOW ZYNQ_IOC_MAGIC IOC_TRIGGER_ENABLE sz_long.
Definition ZYNQ_IOC_TRIGGER_DELAY_SET : Z := _IOW ZYNQ_IOC_MAGIC IOC_TRIGGER_DELAY_SET sz_long.
Definition ZYNQ_IOC_TRIGGER_DELAY_GET : Z := _IOWR ZYNQ_IOC_MAGIC IOC_TRIGGER_DELAY_GET sz_long.
Definition ZYNQ_IOC_TRIGGER_DEV_NAME : Z := _IOR ZYNQ_IOC_MAGIC IOC_TRIGGER_DEV_NAME sz_long.
Definition ZYNQ_IOC_CAM_REG_READ : Z := _IOWR ZYNQ_IOC_MAGIC IOC_CAM_REG_READ sz_long.
Definition ZYNQ_IOC_CAM_REG_WRITE : Z := _IOW ZYNQ_IOC_MAGIC IOC_CAM_REG_WRITE sz_long.
Definition ZYNQ_IOC_CAM_FLASH_INIT : Z := _IOW ZYNQ_IOC_MAGIC IOC_CAM_FLASH_INIT sz_long.
Definition ZYNQ_IOC_CAM_FLASH_FINI : Z := _IO ZYNQ_IOC_MAGIC IOC_CAM_FLASH_FINI.
Definition ZYNQ_IOC_CAM_FLASH_READ : Z := _IOW ZYNQ_IOC_MAGIC IOC_CAM_FLASH_READ sz_long.
Definition ZYNQ_IOC_CAM_FLASH_WRITE : Z := _IOW ZYNQ_IOC_MAGIC IOC_CAM_FLASH_WRITE sz_long.
Definition ZYNQ_IOC_CAM_CAPS : Z := _IOWR ZYNQ_IOC_MAGIC IOC_CAM_CAPS sz_long.
Definition ZYNQ_IOC_CAM_RESET : Z := _IO ZYNQ_IOC_MAGIC IOC_CAM_RESET.
Definition ZYNQ_IOC_FW_IMAGE_UPLOAD_START : Z := _IOW ZYNQ_IOC_MAGIC IOC_FW_IMAGE_UPLOAD_START sz_long.
Definition ZYNQ_IOC_FW_IMAGE_UPLOAD : Z := _IOW ZYNQ_IOC_MAGIC IOC_FW_IMAGE_UPLOAD sz_long.
Definition ZYNQ_IOC_FW_PL_UPDATE : Z := _IOW ZYNQ_IOC_MAGIC IOC_FW_PL_UPDATE sz_long.
Definition ZYNQ_IOC_FW_PS_UPDATE : Z := _IOW ZYNQ_IOC_MAGIC IOC_FW_PS_UPDATE sz_long.
Definition ZYNQ_IOC_FW_GET_VER : Z := _IOW ZYNQ_IOC_MAGIC IOC_FW_GET_VER sz_long.
Definition ZYNQ_IOC_FW_QSPI_UPDATE : Z := _IOW ZYNQ_IOC_MAGIC IOC_FW_QSPI_UPDATE sz_long.
Definition ZYNQ_IOC_FW_MMC_UPDATE : Z := _IOW ZYNQ_IOC_MAGIC IOC_FW_MMC_UPDATE sz_long.
Definition ZYNQ_IOC_FW_SPI_UPDATE : Z := _IOW ZYNQ_IOC_MAGIC IOC_FW_SPI_UPDATE sz_long.
Definition ZYNQ_IOC_CAN_TX_TIMEOUT_SET : Z := _IOW ZYNQ_IOC_MAGIC IOC_CAN_TX_TIMEOUT_SET sz_long.
Definition ZYNQ_IOC_CAN_RX_TIMEOUT_SET : Z := _IOW ZYNQ_IOC_MAGIC IOC_CAN_RX_TIMEOUT_SET sz_long.
Definition ZYNQ_IOC_CAN_DEV_START : Z := _IOW ZYNQ_IOC_MAGIC IOC_CAN_DEV_START sz_long.
Definition ZYNQ_IOC_CAN_DEV_STOP : Z := _IOW ZYNQ_IOC_MAGIC IOC_CAN_DEV_STOP sz_long.
Definition ZYNQ_IOC_CAN_DEV_RESET : Z := _IOW ZYNQ_IOC_MAGIC IOC_CAN_DEV_RESET sz_long.
Definition ZYNQ_IOC_CAN_ID_ADD : Z := _IOW ZYNQ_IOC_MAGIC IOC_CAN_ID_ADD sz_long.
Definition ZYNQ_IOC_CAN_ID_DEL : Z := _IOW ZYNQ_IOC_MAGIC IOC_CAN_ID_DEL sz_long.
Definition ZYNQ_IOC_CAN_BAUDRATE_SET : Z := _IOW ZYNQ_IOC_MAGIC IOC_CAN_BAUDRATE_SET sz_long.
Definition ZYNQ_IOC_CAN_BAUDRATE_GET : Z := _IOW ZYNQ_IOC_MAGIC IOC_CAN_BAUDRATE_GET sz_long.
Definition ZYNQ_IOC_CAN_LOOPBACK_SET : Z := _IOW ZYNQ_IOC_MAGIC IOC_CAN_LOOPBACK_SET sz_long.
Definition ZYNQ_IOC_CAN_LOOPBACK_UNSET : Z := _IOW ZYNQ_IOC_MAGIC IOC_CAN_LOOPBACK_UNSET sz_long.
Definition ZYNQ_IOC_CAN_RECV : Z := _IOWR ZYNQ_IOC_MAGIC IOC_CAN_RECV sz_long.
Definition ZYNQ_IOC_CAN_SEND : Z := _IOWR ZYNQ_IOC_MAGIC IOC_CAN_SEND sz_long.
Definition ZYNQ_IOC_CAN_SEND_HIPRI : Z := _IOWR ZYNQ_IOC_MAGIC IOC_CAN_SEND_HIPRI sz_long.
Definition ZYNQ_IOC_CAN_GET_STATUS_ERR : Z := _IOR ZYNQ_IOC_MAGIC IOC_CAN_GET_STATUS_ERR sz_long.
Definition ZYNQ_IOC_REG_READ : Z := _IOR ZYNQ_IOC_MAGIC IOC_REG_READ sz_long.
Definition ZYNQ_IOC_REG_WRITE : Z := _IOW ZYNQ_IOC_MAGIC IOC_REG_WRITE sz_long.
Definition ZYNQ_IOC_REG_I2C_READ : Z := _IOR ZYNQ_IOC_MAGIC IOC_REG_I2C_READ sz_long.
Definition ZYNQ_IOC_REG_I2C_WRITE : Z := _IOW ZYNQ_IOC_MAGIC IOC_REG_I2C_WRITE sz_long.
Definition ZYNQ_IOC_REG_GPSPPS_EVENT_WAIT : Z := _IOW ZYNQ_IOC_MAGIC IOC_REG_GPSPPS_EVENT_WAIT sz_long.

(** every command word of the interface *)
Definition ioctl_words : list Z :=
  [ZYNQ_IOC_STATS_GET;
   ZYNQ_IOC_GPS_GET;
   ZYNQ_IOC_GPS_GPRMC_GET;
   ZYNQ_IOC_GPS_FPGA_INIT;
   ZYNQ_IOC_GPS_SYNC;
   ZYNQ_IOC_TRIGGER_DISABLE;
   ZYNQ_IOC_TRIGGER_ENABLE_GPS;
   ZYNQ_IOC_TRIGGER_ENABLE_NOGPS;
   ZYNQ_IOC_TRIGGER_ENABLE_ONE_GPS;
   ZYNQ_IOC_TRIGGER_ENABLE_ONE_NOGPS;
   ZYNQ_IOC_TRIGGER_TIMESTAMP;
   ZYNQ_IOC_TRIGGER_STATUS;
   ZYNQ_IOC_TRIGGER_STATUS_GPS;
   ZYNQ_IOC_TRIGGER_STATUS_PPS;
   ZYNQ_IOC_TRIGGER_FPS_SET;
   ZYNQ_IOC_TRIGGER_FPS_GET;
   ZYNQ_IOC_TRIGGER_INIT_USB;
   ZYNQ_IOC_TRIGGER_ENABLE_ONE;
   ZYNQ_IOC_TRIGGER_DISABLE_ONE;
   ZYNQ_IOC_TRIGGER_ENABLE;
   ZYNQ_IOC_TRIGGER_DELAY_SET;
   ZYNQ_IOC_TRIGGER_DELAY_GET;
   ZYNQ_IOC_TRIGGER_DEV_NAME;
   ZYNQ_IOC_CAM_REG_READ;
   ZYNQ_IOC_CAM_REG_WRITE;
   ZYNQ_IOC_CAM_FLASH_INIT;
   ZYNQ_IOC_CAM_FLASH_FINI;
   ZYNQ_IOC_CAM_FLASH_READ;
   ZYNQ_IOC_CAM_FLASH_WRITE;
   ZYNQ_IOC_CAM_CAPS;
   ZYNQ_IOC_CAM_RESET;
   ZYNQ_IOC_FW_IMAGE_UPLOAD_START;
   ZYNQ_IOC_FW_IMAGE_UPLOAD;
   ZYNQ_IOC_FW_PL_UPDATE;
   ZYNQ_IOC_FW_PS_UPDATE;
   ZYNQ_IOC_FW_GET_VER;
   ZYNQ_IOC_FW_QSPI_UPDATE;
   ZYNQ_IOC_FW_MMC_UPDATE;
   ZYNQ_IOC_FW_SPI_UPDATE;
   ZYNQ_IOC_CAN_TX_TIMEOUT_SET;
   ZYNQ_IOC_CAN_RX_TIMEOUT_SET;
   ZYNQ_IOC_CAN_DEV_START;
   ZYNQ_IOC_CAN_DEV_STOP;
   ZYNQ_IOC_CAN_DEV_RESET;
   ZYNQ_IOC_CAN_ID_ADD;
   ZYNQ_IOC_CAN_ID_DEL;
   ZYNQ_IOC_CAN_BAUDRATE_SET;
   ZYNQ_IOC_CAN_BAUDRATE_GET;
   ZYNQ_IOC_CAN_LOOPBACK_SET;
   ZYNQ_IOC_CAN_LOOPBACK_UNSET;
   ZYNQ_IOC_CAN_RECV;
   ZYNQ_IOC_CAN_SEND;
   ZYNQ_IOC_CAN_SEND_HIPRI;
   ZYNQ_IOC_CAN_GET_STATUS_ERR;
   ZYNQ_IOC_REG_READ;
   ZYNQ_IOC_REG_WRITE;
   ZYNQ_IOC_REG_I2C_READ;
   ZYNQ_IOC_REG_I2C_WRITE;
   ZYNQ_IOC_REG_GPSPPS_EVENT_WAIT].

(** ** Sizes *)
Definition ZYNQ_GPS_VAL_SZ : Z := 12.
Definition ZYNQ_GPS_GPRMC_VAL_SZ : Z := 68.
Definition ZYNQ_TRIGGER_DEV_NUM : Z := 4.
Definition ZYNQ_FW_PADDING : Z := 0x00000000.
Definition ZYNQ_FW_MSG_SZ : Z := 16.
Definition ZYNQ_I2C_ID_JANUS : Z := 0x5c.
Definition ZYNQ_I2C_ID_MAX : Z := 0x7f.
Definition ZYNQ_CHAN_MAX : Z := 16.
Definition ZYNQ_STATS_MAX : Z := 32.
Definition CMSG_ID_EID_MASK : Z := 0x3FFFF.
Definition CMSG_ID_SID_MASK : Z := 0x7FF.
Definition CMSG_ID_SID_SHIFT : Z := 21.
Definition CMSG_LEN_MASK : Z := 0xF.
Definition CMSG_LEN_SHIFT : Z := 28.
Definition ZCAN_IP_TXFIFO_MAX : Z := 64.
Definition ZCAN_IP_TXHPB_MAX : Z := 1.
Definition ZCAN_IP_RXFIFO_MAX : Z := 64.
Definition ZCAN_TIMEOUT_MAX : Z := 0xffffffff.
Definition ZCAN_IP_MSG_MIN : Z := 256.
Definition ZCAN_IP_MSG_MAX : Z := 65536.
Definition ZCAN_IP_MSG_NUM : Z := 2048.
Definition ZCHAN_ERR_THROTTLE : Z := 100.
Definition ZYNQ_CHAN_INT_RX_INDEX : Z := 0.
Definition ZYNQ_CHAN_INT_RXERR_INDEX : Z := 1.
Definition ZYNQ_CHAN_INT_TX_INDEX : Z := 2.
Definition ZYNQ_CHAN_INT_TXERR_INDEX : Z := 3.
Definition ZYNQ_CHAN_INT_RXALL_INDEX : Z := 0.
Definition ZYNQ_CHAN_INT_TXALL_INDEX : Z := 1.
Definition ZYNQ_CHAN_PROC_TX : Z := Z.shiftl 1 0.
Definition ZYNQ_CHAN_PROC_TX_ERR : Z := Z.shiftl 1 1.
Definition ZYNQ_CHAN_PROC_RX : Z := Z.shiftl 1 2.
Definition ZYNQ_CHAN_PROC_RX_ERR : Z := Z.shiftl 1 3.
Definition ZCHAN_BUF_SIZE : Z := 4096.
Definition ZCHAN_TX_ENTRIES_CAN : Z := 1024.
Definition ZCHAN_RX_PDT_ENTRIES_CAN : Z := 1.
Definition ZCHAN_RX_PT_SIZE : Z := 4096.
Definition ZCHAN_RX_PT_ENTRIES : Z := 512.

(** ** Statistics indices *)
(** *** [enum zynq_dev_stats] *)
Definition DEV_STATS_INTR : Z := 0.
Definition DEV_STATS_INTR_INVALID : Z := DEV_STATS_INTR + 1.
Definition DEV_STATS_GPS_UNLOCK : Z := DEV_STATS_INTR + 2.
Definition DEV_STATS_NUM : Z := DEV_STATS_INTR + 3.
(** *** [enum zynq_chan_stats] *)
Definition CHAN_STATS_RX_INTR : Z := 0.
Definition CHAN_STATS_TX_INTR : Z := CHAN_STATS_RX_INTR + 1.
Definition CHAN_STATS_RX_ERR_INTR : Z := CHAN_STATS_RX_INTR + 2.
Definition CHAN_STATS_TX_ERR_INTR : Z := CHAN_STATS_RX_INTR + 3.
Definition CHAN_STATS_RX_DROP : Z := CHAN_STATS_RX_INTR + 4.
Definition CHAN_STATS_RX : Z := CHAN_STATS_RX_INTR + 5.
Definition CHAN_STATS_TX : Z := CHAN_STATS_RX_INTR + 6.
Definition CHAN_STATS_NUM : Z := CHAN_STATS_RX_INTR + 7.
(** *** [enum zynq_can_stats] *)
Definition CAN_STATS_PIO_RX : Z := 0.
Definition CAN_STATS_PIO_TX : Z := CAN_STATS_PIO_RX + 1.
Definition CAN_STATS_PIO_TX_HI : Z := CAN_STATS_PIO_RX + 2.
Definition CAN_STATS_USR_RX_WAIT : Z := CAN_STATS_PIO_RX + 3.
Definition CAN_STATS_USR_RX_WAIT_INT : Z := CAN_STATS_PIO_RX + 4.
Definition CAN_STATS_USR_RX_TIMEOUT : Z := CAN_STATS_PIO_RX + 5.
Definition CAN_STATS_USR_RX_PARTIAL : Z := CAN_STATS_PIO_RX + 6.
Definition CAN_STATS_BUS_OFF : Z := CAN_STATS_PIO_RX + 7.
Definition CAN_STATS_STATUS_ERR : Z := CAN_STATS_PIO_RX + 8.
Definition CAN_STATS_RX_IP_FIFO_OVF : Z := CAN_STATS_PIO_RX + 9.
Definition CAN_STATS_RX_USR_FIFO_OVF : Z := CAN_STATS_PIO_RX + 10.
Definition CAN_STATS_TX_TIMEOUT : Z := CAN_STATS_PIO_RX + 11.
Definition CAN_STATS_TX_LP_FIFO_FULL : Z := CAN_STATS_PIO_RX + 12.
Definition CAN_STATS_RX_USR_FIFO_FULL : Z := CAN_STATS_PIO_RX + 13.
Definition CAN_STATS_TX_HP_FIFO_FULL : Z := CAN_STATS_PIO_RX + 14.
Definition CAN_STATS_CRC_ERR : Z := CAN_STATS_PIO_RX + 15.
Definition CAN_STATS_FRAME_ERR : Z := CAN_STATS_PIO_RX + 16.
Definition CAN_STATS_STUFF_ERR : Z := CAN_STATS_PIO_RX + 17.
Definition CAN_STATS_BIT_ERR : Z := CAN_STATS_PIO_RX + 18.
Definition CAN_STATS_ACK_ERR : Z := CAN_STATS_PIO_RX + 19.
Definition CAN_STATS_NUM : Z := CAN_STATS_PIO_RX + 20.

(** ** Enumerated types *)
(** [enum zynq_chan_type] *)
Inductive zynq_chan_type := ZYNQ_CHAN_INVAL | ZYNQ_CHAN_CAN | ZYNQ_CHAN_VIDEO.
#[global] Instance zynq_chan_type_eq_dec : EqDecision zynq_chan_type.
Proof. solve_decision. Defined.
(** [enum zynq_state] *)
Inductive zynq_state :=
| ZYNQ_STATE_INVAL | ZYNQ_STATE_RESET | ZYNQ_STATE_INIT | ZYNQ_STATE_START | ZYNQ_STATE_STOP.
#[global] Instance zynq_state_eq_dec : EqDecision zynq_state.
Proof. solve_decision. Defined.
(** [enum zcan_ip_mode] *)
Inductive zcan_ip_mode := ZCAN_IP_NORMAL | ZCAN_IP_LOOPBACK | ZCAN_IP_SLEEP.

