(* ===== verification/Device.v ===== *)
(** * Device structures shared by the components ([basa.h], [basa_chan.h],
    [basa_can.h], [basa_debug.h]) and the register access functions

    [zynq_dev] holds the scalars of [struct zynq_dev]; the arrays of channels
    and CANs it points to are held beside it by the components that walk them.
    A channel operation runs on a [chan_ctx], the device and one channel; a CAN
    operation on a [can_ctx], which adds the CAN attached to the channel. *)

From S2P Require Export Prelude Kernel Regs Api.
#[global] Open Scope record_set.

(** ** Statistics ([zynq_stats_t]) *)
Record zynq_stats := ZStats { cnt : Z; ts : Z }.
#[global] Instance zynq_stats_eta : Eta zynq_stats := fun r =>
  ZStats (cnt r) (ts r).
Definition stats_zero (n : Z) : list zynq_stats := replicate (Z.to_nat n) (ZStats 0 0).

(** a structure that has a [stats] array *)
Class HasStats (S : Type) := {
  stats_of : S -> list zynq_stats;
  stats_upd : (list zynq_stats -> list zynq_stats) -> S -> S;
  stats_of_upd : forall f s, stats_of (stats_upd f s) = f (stats_of s)
}.

(** ** Device *)
Record timespec := Timespec { tv_sec : Z; tv_nsec : Z }.
#[global] Instance timespec_eta : Eta timespec := fun r =>
  Timespec (tv_sec r) (tv_nsec r).

Record zynq_dev := ZynqDev {
  zdev_inst : Z;
  zdev_version : Z;
  zdev_hw_cap : Z;
  zdev_fw_tx_cnt : Z;
  zdev_fw_opened : Z;
  zdev_did : Z;
  zdev_bar0_len : Z;
  zdev_bar2_len : Z;
  zdev_chan_cnt : Z;
  zdev_can_cnt : Z;
  zdev_video_cnt : Z;
  zdev_can_map : Z;
  zdev_video_map : Z;
  zdev_video_port_map : option (list Z);   (** a pointer that may be null *)
  zdev_can_num_start : Z;
  zcan_tx_dma : Z;
  zcan_rx_dma : Z;
  zcan_rx_hw_ts : Z;
  zdev_gps_ts_first : timespec;
  zdev_gps_ts : timespec;
  zdev_gps_smoothing : Z;
  zdev_gps_cnt : Z;
  zdev_sys_drift : Z;
  zynq_major : Z;                       (** driver globals of basa_main.c *)
  zynq_minor : Z;
  zdev_stats : list zynq_stats
}.
#[global] Instance zynq_dev_eta : Eta zynq_dev := fun r =>
  ZynqDev (zdev_inst r) (zdev_version r) (zdev_hw_cap r) (zdev_fw_tx_cnt r)
    (zdev_fw_opened r) (zdev_did r) (zdev_bar0_len r) (zdev_bar2_len r)
    (zdev_chan_cnt r) (zdev_can_cnt r) (zdev_video_cnt r) (zdev_can_map r)
    (zdev_video_map r) (zdev_video_port_map r) (zdev_can_num_start r) (zcan_tx_dma r) (zcan_rx_dma r)
    (zcan_rx_hw_ts r) (zdev_gps_ts_first r) (zdev_gps_ts r) (zdev_gps_smoothing r)
    (zdev_gps_cnt r) (zdev_sys_drift r) (zynq_major r) (zynq_minor r) (zdev_stats r).
#[global] Instance zynq_dev_stats : HasStats zynq_dev.
Proof. refine {| stats_of := zdev_stats; stats_upd f s := s<|zdev_stats ::= f|> |}. done. Defined.

Definition ZYNQ_CAP (d : zynq_dev) (cap : Z) : bool := tst (zdev_hw_cap d) cap.
Definition ZDEV_PL_VER (d : zynq_dev) : Z := Z.land (zdev_version d) 0xFFF.

(** ** Channel *)

(** a buffer: virtual address, page structure and bus address *)
Record zchan_buf := ZchanBuf {
  zchan_bufp : Z;
  zchan_buf_page : Z;
  zchan_buf_dma : Z
}.
#[global] Instance zchan_buf_eta : Eta zchan_buf := fun r =>
  ZchanBuf (zchan_bufp r) (zchan_buf_page r) (zchan_buf_dma r).
Definition zchan_buf_zero : zchan_buf := ZchanBuf 0 0 0.

Record zchan_tx_desc := TxDesc { tx_len : Z; tx_addr : Z }.
#[global] Instance zchan_tx_desc_eta : Eta zchan_tx_desc := fun r =>
  TxDesc (tx_len r) (tx_addr r).

(** Transmit descriptor ring.  The empty list stands for a descriptor ring or
    buffer array that is not allocated: any access to it is a fault. *)
Record zchan_tx_ring := TxRing {
  zchan_tx_descp : list zchan_tx_desc;
  zchan_tx_descp_va : Z;
  zchan_tx_dma : Z;
  zchan_tx_size : Z;
  zchan_tx_num : Z;
  zchan_tx_head : Z;
  zchan_tx_tail : Z;
  zchan_tx_bufsz : Z;
  zchan_tx_bufs : list zchan_buf;
  zchan_tx_bufp : Z
}.
#[global] Instance zchan_tx_ring_eta : Eta zchan_tx_ring := fun r =>
  TxRing (zchan_tx_descp r) (zchan_tx_descp_va r) (zchan_tx_dma r) (zchan_tx_size r)
    (zchan_tx_num r) (zchan_tx_head r) (zchan_tx_tail r) (zchan_tx_bufsz r)
    (zchan_tx_bufs r) (zchan_tx_bufp r).

(** Receive page table *)
Record zchan_rx_pt := RxPt {
  zchan_rx_pt_va : Z;
  zchan_rx_pt_dma : Z;
  zchan_rx_pt_entry : list Z;           (** the table itself *)
  zchan_rx_pt_bufp : Z;
  zchan_rx_pt_bufs : list zchan_buf;
  zchan_rx_pt_buf_num : Z
}.
#[global] Instance zchan_rx_pt_eta : Eta zchan_rx_pt := fun r =>
  RxPt (zchan_rx_pt_va r) (zchan_rx_pt_dma r) (zchan_rx_pt_entry r) (zchan_rx_pt_bufp r)
    (zchan_rx_pt_bufs r) (zchan_rx_pt_buf_num r).

(** Receive page directory *)
Record zchan_rx_tbl := RxTbl {
  zchan_rx_pdt_va : Z;
  zchan_rx_pdt : list Z;                (** the directory itself *)
  zchan_rx_pdt_dma : Z;
  zchan_rx_pdt_num : Z;
  zchan_rx_pdt_shift : Z;
  zchan_rx_ptp_va : Z;
  zchan_rx_ptp : list zchan_rx_pt;
  zchan_rx_pt_entries : Z;
  zchan_rx_pt_mask : Z;
  zchan_rx_pt_shift : Z;
  zchan_rx_size : Z;
  zchan_rx_bufsz : Z;
  zchan_rx_buf_mask : Z;
  zchan_rx_off : Z;
  zchan_rx_head : Z;
  zchan_rx_tail : Z
}.
#[global] Instance zchan_rx_tbl_eta : Eta zchan_rx_tbl := fun r =>
  RxTbl (zchan_rx_pdt_va r) (zchan_rx_pdt r) (zchan_rx_pdt_dma r) (zchan_rx_pdt_num r)
    (zchan_rx_pdt_shift r) (zchan_rx_ptp_va r) (zchan_rx_ptp r) (zchan_rx_pt_entries r)
    (zchan_rx_pt_mask r) (zchan_rx_pt_shift r) (zchan_rx_size r) (zchan_rx_bufsz r)
    (zchan_rx_buf_mask r) (zchan_rx_off r) (zchan_rx_head r) (zchan_rx_tail r).

Record zynq_chan := ZynqChan {
  zchan_type : zynq_chan_type;
  zchan_num : Z;
  zchan_reg : addr;
  zchan_tx_ring_of : zchan_tx_ring;
  zchan_rx_tbl_of : zchan_rx_tbl;
  zvideo_sizeimage : Z;                 (** [format.sizeimage] of an attached video *)
  zchan_stats : list zynq_stats;
  watchdog_taskp : bool;
  watchdog_interval : Z;
  ts_err : list Z
}.
#[global] Instance zynq_chan_eta : Eta zynq_chan := fun r =>
  ZynqChan (zchan_type r) (zchan_num r) (zchan_reg r) (zchan_tx_ring_of r)
    (zchan_rx_tbl_of r) (zvideo_sizeimage r) (zchan_stats r) (watchdog_taskp r)
    (watchdog_interval r) (ts_err r).
#[global] Instance zynq_chan_stats : HasStats zynq_chan.
Proof. refine {| stats_of := zchan_stats; stats_upd f s := s<|zchan_stats ::= f|> |}. done. Defined.

Record chan_ctx := ChanCtx { ch_zdev : zynq_dev; ch_zchan : zynq_chan }.
#[global] Instance chan_ctx_eta : Eta chan_ctx := fun r =>
  ChanCtx (ch_zdev r) (ch_zchan r).

(** ** CAN *)

(** One message cell.  [bcan_msg_t] and [zcan_msg_t] are two views of the same
    memory: four 32-bit words, then the timestamp the driver adds. *)
Record bcan_msg := BcanMsg {
  mw0 : Z; mw1 : Z; mw2 : Z; mw3 : Z;
  msg_tv_sec : Z; msg_tv_usec : Z
}.
#[global] Instance bcan_msg_eta : Eta bcan_msg := fun r =>
  BcanMsg (mw0 r) (mw1 r) (mw2 r) (mw3 r) (msg_tv_sec r) (msg_tv_usec r).
Definition bcan_msg_zero : bcan_msg := BcanMsg 0 0 0 0 0 0.
#[global] Instance bcan_msg_inhabited : Inhabited bcan_msg := populate bcan_msg_zero.

Record zynq_can := ZynqCan {
  zcan_ip_reg : addr;
  zcan_ip_num : Z;
  zcan_pio_state : zynq_state;
  zcan_pio_loopback : Z;
  zcan_tx_timeout : Z;
  zcan_rx_timeout : Z;
  zcan_buf_rx_msg : list bcan_msg;      (** empty: not allocated *)
  zcan_buf_rx_va : Z;
  zcan_buf_rx_num : Z;
  zcan_buf_rx_head : Z;
  zcan_buf_rx_tail : Z;
  zcan_usr_buf : Z;                     (** 0: no receiver *)
  zcan_usr_buf_num : Z;
  zcan_usr_rx_num : Z;
  zcan_usr_rx_seq : Z;
  zcan_pio_rx_last_chk_head : Z;
  zcan_pio_rx_last_chk_tail : Z;
  zcan_pio_rx_last_chk_cnt : Z;
  zcan_pio_rx_last_chk_seq : Z;
  zcan_pio_dev : Z;
  zcan_pio_opened : Z;
  zcan_pio_baudrate : Z;
  zcan_stats : list zynq_stats
}.
#[global] Instance zynq_can_eta : Eta zynq_can := fun r =>
  ZynqCan (zcan_ip_reg r) (zcan_ip_num r) (zcan_pio_state r) (zcan_pio_loopback r)
    (zcan_tx_timeout r) (zcan_rx_timeout r) (zcan_buf_rx_msg r) (zcan_buf_rx_va r)
    (zcan_buf_rx_num r) (zcan_buf_rx_head r) (zcan_buf_rx_tail r) (zcan_usr_buf r)
    (zcan_usr_buf_num r) (zcan_usr_rx_num r) (zcan_usr_rx_seq r)
    (zcan_pio_rx_last_chk_head r) (zcan_pio_rx_last_chk_tail r)
    (zcan_pio_rx_last_chk_cnt r) (zcan_pio_rx_last_chk_seq r) (zcan_pio_dev r)
    (zcan_pio_opened r) (zcan_pio_baudrate r) (zcan_stats r).
#[global] Instance zynq_can_stats : HasStats zynq_can.
Proof. refine {| stats_of := zcan_stats; stats_upd f s := s<|zcan_stats ::= f|> |}. done. Defined.

Record can_ctx := CanCtx { cc_zdev : zynq_dev; cc_zchan : zynq_chan; cc_zcan : zynq_can }.
#[global] Instance can_ctx_eta : Eta can_ctx := fun r =>
  CanCtx (cc_zdev r) (cc_zchan r) (cc_zcan r).

(** *** Running channel code from CAN code, and device code from channel code *)
Definition on_chan {A} (m : M chan_ctx A) : M can_ctx A :=
  zoom (fun s => ChanCtx (cc_zdev s) (cc_zchan s))
       (fun c s => s<|cc_zdev := ch_zdev c|><|cc_zchan := ch_zchan c|>) m.
Definition on_zdev {A} (m : M zynq_dev A) : M chan_ctx A :=
  zoom ch_zdev (fun d s => s<|ch_zdev := d|>) m.

Section access.
Context `{Env} `{ModParams}.

(** ** Register access *)
Section generic.
Context {S : Type}.

(** a 32-bit register access; in bring-up mode reads give 0 and writes are
    skipped *)
Definition io_read (a : addr) : M S Z :=
  if zynq_bringup_param then mret 0
  else r ← ask (MmioRead a); mret (u32 r).
Definition io_write (a : addr) (val : Z) : M S unit :=
  if zynq_bringup_param then mret tt else tell (MmioWrite a (u32 val)).

Definition zynq_g_reg_read (reg : Z) : M S Z := io_read (BAR0, reg).
Definition zynq_g_reg_write (reg val : Z) : M S unit := io_write (BAR0, reg) val.
Definition zynq_bar2_reg_read (reg : Z) : M S Z := io_read (BAR2, reg).
Definition zynq_bar2_reg_write (reg val : Z) : M S unit := io_write (BAR2, reg) val.

(** [ZDEV_IS_ERR]: the version register reads all ones; a raw access, which
    bring-up mode does not suppress *)
Definition ZDEV_IS_ERR : M S bool :=
  v ← ask (MmioRead (BAR0, ZYNQ_G_VERSION));
  mret (u32 v =? 0xFFFFFFFF).

(** ** Statistics *)
Definition stats_inc_at (id n : Z) (l : list zynq_stats) : list zynq_stats :=
  alter (fun s => s<|cnt := u64 (cnt s + n)|>) (Z.to_nat id) l.
(** [ZYNQ_STATS(p, id)] *)
Definition ZYNQ_STATS `{HasStats S} (id : Z) : M S unit :=
  modify (stats_upd (stats_inc_at id 1)).

(** [zynq_stats_log]: count, and say whether the message is to be printed (not
    more often than once per interval, [interval] jiffies or, when it is
    negative, the module parameter's seconds) *)
Definition zynq_stats_log `{HasStats S} (id count interval : Z) : M S Z :=
  modify (stats_upd (stats_inc_at id count));;
  s ← gets stats_of;
  st ← array_get s id;
  quiet ← (if tst zynq_trace_param ZYNQ_TRACE_STATS then mret false
           else
             let log_interval :=
               if 0 <=? interval then interval else u32 (zynq_stats_log_interval * HZ) in
             j ← jiffies;
             mret (u64 (j - ts st) <? log_interval));
  if (quiet : bool) then mret 0
  else
    j ← jiffies;
    modify (stats_upd (alter (fun s => s<|ts := j|>) (Z.to_nat id)));;
    mret 1.
(** [ZYNQ_STATS_LOGX]: the message itself is not modelled *)
Definition ZYNQ_STATS_LOGX `{HasStats S} (id count interval : Z) : M S unit :=
  zynq_stats_log id count interval;; mret tt.
Definition ZYNQ_STATS_LOG `{HasStats S} (id : Z) : M S unit :=
  ZYNQ_STATS_LOGX id 1 (-1).
End generic.

(** registers of the current channel *)
Definition zchan_reg_read (reg : Z) : M chan_ctx Z :=
  base ← gets (fun s => zchan_reg (ch_zchan s));
  io_read (addr_add base reg).
Definition zchan_reg_write (reg val : Z) : M chan_ctx unit :=
  base ← gets (fun s => zchan_reg (ch_zchan s));
  io_write (addr_add base reg) val.

(** registers of the current CAN IP *)
Definition zcan_reg_read (reg : Z) : M can_ctx Z :=
  base ← gets (fun s => zcan_ip_reg (cc_zcan s));
  io_read (addr_add base reg).
Definition zcan_reg_write (reg val : Z) : M can_ctx unit :=
  base ← gets (fun s => zcan_ip_reg (cc_zcan s));
  io_write (addr_add base reg) val.

(** field updates of the current structures *)
Definition upd_zcan (f : zynq_can -> zynq_can) : M can_ctx unit :=
  modify (fun s => s<|cc_zcan ::= f|>).
Definition upd_zchan (f : zynq_chan -> zynq_chan) : M chan_ctx unit :=
  modify (fun s => s<|ch_zchan ::= f|>).
Definition zcan : M can_ctx zynq_can := gets cc_zcan.
Definition zchan : M chan_ctx zynq_chan := gets ch_zchan.

(** statistics of the current CAN, and of its channel *)
Definition zcan_ZYNQ_STATS (id : Z) : M can_ctx unit :=
  zoom cc_zcan (fun c s => s<|cc_zcan := c|>) (ZYNQ_STATS id).
Definition zcan_ZYNQ_STATS_LOG (id : Z) : M can_ctx unit :=
  zoom cc_zcan (fun c s => s<|cc_zcan := c|>) (ZYNQ_STATS_LOG id).
Definition zchan_ZYNQ_STATS (id : Z) : M chan_ctx unit :=
  zoom ch_zchan (fun c s => s<|ch_zchan := c|>) (ZYNQ_STATS id).
Definition zchan_ZYNQ_STATS_LOGX (id count interval : Z) : M chan_ctx unit :=
  zoom ch_zchan (fun c s => s<|ch_zchan := c|>) (ZYNQ_STATS_LOGX id count interval).

(** clear the pending interrupts of channel [ch] *)
Definition zdev_clear_intr_ch (ch : Z) : M zynq_dev unit :=
  d ← get;
  if zdev_chan_cnt d <=? u32 ch then mret tt
  else
    zynq_g_reg_write ZYNQ_G_INTR_STATUS_TX (ZYNQ_INTR_CH_TX_ALL ch);;
    zynq_g_reg_write ZYNQ_G_INTR_STATUS_RX (ZYNQ_INTR_CH_RX_ALL ch).

(** create /dev/<devname>; 0 on failure *)
Definition MKDEV (major minor : Z) : Z := Z.lor (Z.shiftl major 20) minor.
Definition zynq_create_cdev : M zynq_dev Z :=
  d ← get;
  let dev := u32 (MKDEV (zynq_major d) (zynq_minor d)) in
  modify (fun d => d<|zynq_minor ::= Z.add 1|>);;
  devicep ← ask (KernelCall "device_create" [dev]);
  if devicep =? 0 then mret 0
  else
    tell (KernelCall "cdev_init" [dev]);;
    err ← ask (KernelCall "cdev_add" [dev]);
    if negb (err =? 0) then tell (KernelCall "device_destroy" [dev]);; mret 0
    else mret dev.
Definition zynq_destroy_cdev {S} (dev : Z) : M S unit :=
  tell (KernelCall "cdev_del" [dev]);;
  tell (KernelCall "device_destroy" [dev]).
End access.

(** ** Rules for the register accesses

    The precise rules hold outside bring-up mode and give the event; the [_any]
    rules hold always and forget the history. *)
Section access_rules.
Context `{Env} `{ModParams} {S : Type}.
Implicit Types (w : world S) (a : addr).

Lemma wp_io_read a (Q : Z -> world S -> Prop) w :
  zynq_bringup_param = false ->
  (forall r, r = env_ret (w_log w) (MmioRead a) -> Q (u32 r) (emit (Ev (MmioRead a) r) w)) ->
  wp (io_read a) Q w.
Proof.
  intros Hb HQ. unfold io_read. rewrite Hb.
  apply wp_bind, wp_ask. intros r Hr. apply wp_ret. by apply HQ.
Qed.

Lemma wp_io_write a v Q w :
  zynq_bringup_param = false ->
  Q tt (emit (Ev (MmioWrite a (u32 v)) 0) w) -> wp (io_write a v) Q w.
Proof. intros Hb HQ. unfold io_write. rewrite Hb. by apply wp_tell. Qed.

Lemma wp_io_read_any a (Q : Z -> world S -> Prop) w :
  (forall r l, 0 <= r < 2 ^ 32 -> Q r (World l (w_held w) (w_st w))) -> wp (io_read a) Q w.
Proof.
  intros HQ. unfold io_read. destruct zynq_bringup_param.
  - apply wp_ret. destruct w. apply HQ. lia.
  - apply wp_bind, wp_ask. intros r _. apply wp_ret, HQ, u32_range.
Qed.

Lemma wp_io_write_any a v Q w :
  (forall l, Q tt (World l (w_held w) (w_st w))) -> wp (io_write a v) Q w.
Proof.
  intros HQ. unfold io_write. destruct zynq_bringup_param.
  - apply wp_ret. destruct w. apply HQ.
  - apply wp_tell, HQ.
Qed.

Lemma looks_io_read a : looks (io_read a : M S Z).
Proof. unfold io_read. destruct zynq_bringup_param; auto with basa. Qed.
End access_rules.

Ltac dev_unfold m :=
  lazymatch m with
  | zchan_reg_read _ => unfold zchan_reg_read
  | zchan_reg_write _ _ => unfold zchan_reg_write
  | zcan_reg_read _ => unfold zcan_reg_read
  | zcan_reg_write _ _ => unfold zcan_reg_write
  | zynq_g_reg_read _ => unfold zynq_g_reg_read
  | zynq_g_reg_write _ _ => unfold zynq_g_reg_write
  | zynq_bar2_reg_read _ => unfold zynq_bar2_reg_read
  | zynq_bar2_reg_write _ _ => unfold zynq_bar2_reg_write
  | upd_zcan _ => unfold upd_zcan
  | upd_zchan _ => unfold upd_zchan
  | zcan => unfold zcan
  | zchan => unfold zchan
  | mdelay _ => unfold mdelay
  | usleep_range _ _ => unfold usleep_range
  | jiffies => unfold jiffies
  | ZYNQ_STATS _ => unfold ZYNQ_STATS
  | zchan_ZYNQ_STATS _ => unfold zchan_ZYNQ_STATS
  | zcan_ZYNQ_STATS _ => unfold zcan_ZYNQ_STATS
  | on_chan _ => unfold on_chan
  | on_zdev _ => unfold on_zdev
  end.

(** symbolic execution of driver code: precise register events when the
    context says the driver is not in bring-up mode, any history otherwise *)
Ltac dev_step :=
  first
  [ wp_step
  | lazymatch goal with
    | Hb : zynq_bringup_param = false |- wp (io_read _) _ _ =>
        apply wp_io_read; [exact Hb | intros ? ?; wp_simpl]
    | Hb : zynq_bringup_param = false |- wp (io_write _ _) _ _ =>
        apply wp_io_write; [exact Hb | wp_simpl]
    | |- wp (io_read _) _ _ => apply wp_io_read_any; intros ? ? ?; wp_simpl
    | |- wp (io_write _ _) _ _ => apply wp_io_write_any; intros ?; wp_simpl
    | |- wp ?m _ _ => dev_unfold m
    end ].
Ltac dev_steps := repeat (cbv beta; dev_step).

(** ** A concrete environment for the witnesses: every call answers 0, every
    optional behaviour is off *)
Definition env_zero : Env := fun _ _ => 0.
Definition params_default : ModParams := {|
  zynq_trace_param := 0; zynq_bringup_param := false; zynq_dbg_reg_dump_param := false;
  zynq_fwupdate_param := false; zynq_stats_log_interval := 1; HZ := 250;
  msecs_to_jiffies := fun m => (m * 250 + 999) / 1000;
  zynq_can_rx_buf_num := 2048; zynq_can_ip_btr := ZCAN_IP_BTR_DEFAULT;
  zynq_disable_can_hw_ts := false;
  zynq_enable_can_rx_dma := true; zynq_enable_can_tx_dma := false;
  zynq_gps_sync_time := ZYNQ_GPS_SYNC_TIME_DEFAULT;
  zynq_gps_smooth_step := ZYNQ_GPS_SMOOTH_STEP_DEFAULT;
  zynq_gps_smooth_max := 1000; zynq_gps_checksum := false;
  zynq_gps_high_factor := 100000; zynq_gps_low_factor := 100;
  zynq_video_zero_copy := true; zynq_video_buf_num := 2
|}.

(** a device with 16 channels of which 4 are CANs, as found after probing *)
Definition zdev_sample : zynq_dev := {|
  zdev_inst := 0; zdev_version := 0x01020304; zdev_hw_cap := 0x3F;
  zdev_fw_tx_cnt := 0; zdev_fw_opened := 0; zdev_did := PCI_DEVICE_ID_MOONROVER;
  zdev_bar0_len := 0x10000; zdev_bar2_len := 0x1000;
  zdev_chan_cnt := 16; zdev_can_cnt := 4; zdev_video_cnt := 5;
  zdev_can_map := ZYNQ_CAN_MAP_MR; zdev_video_map := ZYNQ_VIDEO_MAP_MR;
  zdev_video_port_map := Some [1; 2; 3; 4; 5];
  zdev_can_num_start := 0; zcan_tx_dma := 0; zcan_rx_dma := 0; zcan_rx_hw_ts := 0;
  zdev_gps_ts_first := Timespec 0 0; zdev_gps_ts := Timespec 0 0;
  zdev_gps_smoothing := 0; zdev_gps_cnt := 0; zdev_sys_drift := 0;
  zynq_major := 240; zynq_minor := 0;
  zdev_stats := stats_zero DEV_STATS_NUM
|}.
Definition rx_tbl_zero : zchan_rx_tbl := RxTbl 0 [] 0 0 0 0 [] 0 0 0 0 0 0 0 0 0.
Definition tx_ring_zero : zchan_tx_ring := TxRing [] 0 0 0 0 0 0 0 [] 0.
Definition zchan_sample : zynq_chan := {|
  zchan_type := ZYNQ_CHAN_CAN; zchan_num := 10; zchan_reg := (BAR0, 0xA00);
  zchan_tx_ring_of := tx_ring_zero; zchan_rx_tbl_of := rx_tbl_zero;
  zvideo_sizeimage := 0; zchan_stats := stats_zero CHAN_STATS_NUM;
  watchdog_taskp := true; watchdog_interval := 1000; ts_err := replicate 32 0
|}.
Definition zcan_sample : zynq_can := {|
  zcan_ip_reg := (BAR2, 0); zcan_ip_num := 0; zcan_pio_state := ZYNQ_STATE_INIT;
  zcan_pio_loopback := 0; zcan_tx_timeout := 0; zcan_rx_timeout := 0;
  zcan_buf_rx_msg := replicate 256 bcan_msg_zero; zcan_buf_rx_va := 4096;
  zcan_buf_rx_num := 256; zcan_buf_rx_head := 0; zcan_buf_rx_tail := 0;
  zcan_usr_buf := 0; zcan_usr_buf_num := 0; zcan_usr_rx_num := 0; zcan_usr_rx_seq := 0;
  zcan_pio_rx_last_chk_head := 0; zcan_pio_rx_last_chk_tail := 0;
  zcan_pio_rx_last_chk_cnt := 0; zcan_pio_rx_last_chk_seq := 0;
  zcan_pio_dev := 1; zcan_pio_opened := 0; zcan_pio_baudrate := ZYNQ_BAUDRATE_500K;
  zcan_stats := stats_zero CAN_STATS_NUM
|}.
