(* ===== verification/CanMsg.v ===== *)
(** * CAN message formats ([bcan_msg_t], [zcan_msg_t] of basa_can.c)

    Applications exchange [bcan_msg_t]: identifier with an extended-frame flag,
    data length, eight data bytes.  The CAN IP takes [zcan_msg_t]: the
    identifier split over bit fields, the length in the top nibble, big-endian
    data words.  The driver converts in place, in both directions. *)

From S2P Require Import Device.

(** ** The application's view *)
Definition bcan_msg_id (m : bcan_msg) : Z := mw0 m.
Definition bcan_msg_datalen (m : bcan_msg) : Z := byte_of (mw1 m) 0.
(** data byte [k] (0..7), little-endian memory *)
Definition bcan_msg_data (m : bcan_msg) (k : Z) : Z :=
  if k <? 4 then byte_of (mw2 m) k else byte_of (mw3 m) (k - 4).

(** ** The hardware's view *)
Definition cmsg_id (m : bcan_msg) : Z := mw0 m.
Definition cmsg_len (m : bcan_msg) : Z := mw1 m.
Definition cmsg_data1 (m : bcan_msg) : Z := mw2 m.
Definition cmsg_data2 (m : bcan_msg) : Z := mw3 m.
Definition cmsg_id_ertr (m : bcan_msg) : Z := bf_get 0 1 (mw0 m).
Definition cmsg_id_eid (m : bcan_msg) : Z := bf_get 1 18 (mw0 m).
Definition cmsg_id_ide (m : bcan_msg) : Z := bf_get 19 1 (mw0 m).
Definition cmsg_id_srtr (m : bcan_msg) : Z := bf_get 20 1 (mw0 m).
Definition cmsg_id_sid (m : bcan_msg) : Z := bf_get 21 11 (mw0 m).
Definition cmsg_len_len (m : bcan_msg) : Z := bf_get 28 4 (mw1 m).

(** ** Conversions, in place *)
Definition bcan_to_zcan (m : bcan_msg) : bcan_msg :=
  let msg_id := bcan_msg_id m in
  let m1 :=
    if tst msg_id BCAN_EXTENDED_FRAME then
      let a := bf_set 0 1 (mw0 m) 0 in
      let b := bf_set 1 18 a (Z.land msg_id CMSG_ID_EID_MASK) in
      let c := bf_set 19 1 b 1 in
      let d := bf_set 20 1 c 1 in
      let e := bf_set 21 11 d
                 (Z.land (Z.shiftr msg_id (fls CMSG_ID_EID_MASK)) CMSG_ID_SID_MASK) in
      m<|mw0 := e|>
    else
      m<|mw0 := u32 (Z.shiftl (Z.land msg_id CMSG_ID_SID_MASK) CMSG_ID_SID_SHIFT)|> in
  let m2 := m1<|mw1 := u32 (Z.shiftl (Z.land (bcan_msg_datalen m1) CMSG_LEN_MASK)
                              CMSG_LEN_SHIFT)|> in
  let m3 := m2<|mw2 := htonl (mw2 m2)|> in
  m3<|mw3 := htonl (mw3 m3)|>.

Definition zcan_to_bcan (m : bcan_msg) : bcan_msg :=
  let msg_id :=
    if cmsg_id_ide m =? 0 then Z.shiftr (cmsg_id m) CMSG_ID_SID_SHIFT
    else
      Z.lor (Z.lor (Z.shiftl (cmsg_id_sid m) (fls CMSG_ID_EID_MASK)) (cmsg_id_eid m))
            BCAN_EXTENDED_FRAME in
  let m1 := m<|mw0 := msg_id|> in
  (* only the length byte of the second word is written *)
  let m2 := m1<|mw1 := bf_set 0 8 (mw1 m1) (Z.shiftr (cmsg_len m1) CMSG_LEN_SHIFT)|> in
  let m3 := m2<|mw2 := ntohl (mw2 m2)|> in
  m3<|mw3 := ntohl (mw3 m3)|>.

(** ** Well-formed cells: every word is a [u32] *)
Definition is_u32 (z : Z) : Prop := 0 <= z < 2 ^ 32.
Record msg_wf (m : bcan_msg) : Prop := {
  wf0 : is_u32 (mw0 m); wf1 : is_u32 (mw1 m);
  wf2 : is_u32 (mw2 m); wf3 : is_u32 (mw3 m)
}.

(** *** Specification of the identifier word

    The identifier word of the CAN IP: the 11 most significant identifier bits,
    SRTR, IDE, the 18 low bits of an extended identifier, RTR. *)
Definition ip_id_word (sid srtr ide eid rtr : Z) : Z :=
  sid * 2 ^ 21 + srtr * 2 ^ 20 + ide * 2 ^ 19 + eid * 2 + rtr.

(** ** Lemmas *)

Lemma bf_get_eq (lo w v : Z) : 0 <= lo -> 0 <= w -> bf_get lo w v = (v / 2 ^ lo) mod 2 ^ w.
Proof. intros. unfold bf_get. by rewrite Z.land_ones, Z.shiftr_div_pow2 by lia. Qed.

Lemma div_split (v a b : Z) :
  0 <= a -> 0 <= b -> v / 2 ^ a = 2 ^ b * (v / 2 ^ (a + b)) + (v / 2 ^ a) mod 2 ^ b.
Proof.
  intros. rewrite Z.pow_add_r, <- Z.div_div by lia. apply Z.div_mod. lia.
Qed.

(** an identifier word is determined by its five fields *)
Lemma id_fields (v : Z) :
  is_u32 v ->
  v = ip_id_word (bf_get 21 11 v) (bf_get 20 1 v) (bf_get 19 1 v) (bf_get 1 18 v)
        (bf_get 0 1 v).
Proof.
  intros Hv. unfold is_u32 in Hv. rewrite !bf_get_eq by lia. unfold ip_id_word.
  pose proof (div_split v 0 1 ltac:(lia) ltac:(lia)) as H0.
  pose proof (div_split v 1 18 ltac:(lia) ltac:(lia)) as H1.
  pose proof (div_split v 19 1 ltac:(lia) ltac:(lia)) as H2.
  pose proof (div_split v 20 1 ltac:(lia) ltac:(lia)) as H3.
  rewrite (Z.mod_small (v / 2 ^ 21)) by
    (split; [apply Z.div_pos; lia | apply Z.div_lt_upper_bound; lia]).
  change (2 ^ 0) with 1 in *. rewrite Z.div_1_r in *. cbn [Z.add] in *.
  change (1 + 18) with 19 in *. change (19 + 1) with 20 in *. change (20 + 1) with 21 in *.
  change (0 + 1) with 1 in *. lia.
Qed.

(** read a field of nested field updates *)
Ltac bf_simp :=
  repeat first [ rewrite bf_get_set_same by lia | rewrite bf_get_set_other by lia ].

(** writing the five fields in turn gives the word they describe *)
Lemma set_id_fields (v sid srtr ide eid rtr : Z) :
  is_u32 v -> 0 <= sid < 2 ^ 11 -> 0 <= srtr < 2 -> 0 <= ide < 2 ->
  0 <= eid < 2 ^ 18 -> 0 <= rtr < 2 ->
  bf_set 21 11 (bf_set 20 1 (bf_set 19 1 (bf_set 1 18 (bf_set 0 1 v rtr) eid) ide) srtr) sid
    = ip_id_word sid srtr ide eid rtr.
Proof.
  intros. unfold is_u32 in *.
  rewrite (id_fields (bf_set _ _ _ _)) by (repeat apply bf_set_range; lia).
  bf_simp.
  rewrite !land_ones_small by lia. done.
Qed.

Lemma ip_id_word_get (sid srtr ide eid rtr : Z) :
  0 <= sid < 2 ^ 11 -> 0 <= srtr < 2 -> 0 <= ide < 2 -> 0 <= eid < 2 ^ 18 ->
  0 <= rtr < 2 ->
  let v := ip_id_word sid srtr ide eid rtr in
  is_u32 v /\ bf_get 21 11 v = sid /\ bf_get 19 1 v = ide /\ bf_get 1 18 v = eid.
Proof.
  intros. assert (is_u32 v) by (unfold v, is_u32, ip_id_word; lia).
  split; [done |]. unfold v. rewrite <- (set_id_fields 0) by (done || lia).
  bf_simp.
  rewrite !land_ones_small by lia. done.
Qed.

Lemma tst_ext (v : Z) : tst v BCAN_EXTENDED_FRAME = Z.testbit v 29.
Proof.
  unfold tst. change BCAN_EXTENDED_FRAME with (Z.shiftl 1 29).
  destruct (Z.testbit v 29) eqn:E.
  - destruct (Z.eqb_spec (Z.land v (Z.shiftl 1 29)) 0) as [H0|]; [|done].
    assert (Z.testbit (Z.land v (Z.shiftl 1 29)) 29 = true) as H1
      by (rewrite Z.land_spec, E; done).
    by rewrite H0 in H1.
  - replace (Z.land v (Z.shiftl 1 29)) with 0; [done |].
    apply bits_ext. intros n Hn. rewrite Z.land_spec, Z.bits_0, Z.shiftl_spec by lia.
    destruct (Z.eq_dec n 29) as [->|]; [by rewrite E |].
    destruct (Z.ltb_spec n 29); [rewrite (Z.testbit_neg_r 1) by lia |
      rewrite (testbit_high 1 1 (n - 29)) by lia]; by rewrite andb_false_r.
Qed.

Lemma msg_eta (m m' : bcan_msg) :
  mw0 m = mw0 m' -> mw1 m = mw1 m' -> mw2 m = mw2 m' -> mw3 m = mw3 m' ->
  msg_tv_sec m = msg_tv_sec m' -> msg_tv_usec m = msg_tv_usec m' -> m = m'.
Proof. destruct m, m'. simpl. congruence. Qed.

(** identifier word of a transmitted message *)
Lemma bcan_to_zcan_id (m : bcan_msg) :
  msg_wf m ->
  cmsg_id (bcan_to_zcan m) =
    if tst (bcan_msg_id m) BCAN_EXTENDED_FRAME
    then ip_id_word (bcan_msg_id m / 2 ^ 18 mod 2 ^ 11) 1 1 (bcan_msg_id m mod 2 ^ 18) 0
    else ip_id_word (bcan_msg_id m mod 2 ^ 11) 0 0 0 0.
Proof.
  intros [H0 _ _ _]. unfold bcan_to_zcan, cmsg_id, bcan_msg_id in *.
  destruct (tst _ _) eqn:E; cbn [mw0 fset].
  - change CMSG_ID_EID_MASK with (Z.ones 18). change CMSG_ID_SID_MASK with (Z.ones 11).
    change (fls (Z.ones 18)) with 18.
    rewrite !Z.land_ones, Z.shiftr_div_pow2 by lia.
    apply set_id_fields; try done; try lia; apply Z.mod_pos_bound; lia.
  - change CMSG_ID_SID_MASK with (Z.ones 11). change CMSG_ID_SID_SHIFT with 21.
    rewrite Z.land_ones, Z.shiftl_mul_pow2 by lia. unfold ip_id_word.
    pose proof (Z.mod_pos_bound (mw0 m) (2 ^ 11) ltac:(lia)).
    rewrite u32_small; lia.
Qed.

Lemma bcan_to_zcan_len (m : bcan_msg) :
  cmsg_len (bcan_to_zcan m) = (bcan_msg_datalen m mod 16) * 2 ^ 28.
Proof.
  unfold bcan_to_zcan, cmsg_len, bcan_msg_datalen.
  assert (forall x, u32 (Z.shiftl (Z.land x CMSG_LEN_MASK) CMSG_LEN_SHIFT) = x mod 16 * 2 ^ 28)
    as Hx.
  { intros x. change CMSG_LEN_MASK with (Z.ones 4). change CMSG_LEN_SHIFT with 28.
    rewrite Z.land_ones, Z.shiftl_mul_pow2 by lia.
    pose proof (Z.mod_pos_bound x (2 ^ 4) ltac:(lia)).
    change (2 ^ 4) with 16 in *. rewrite u32_small; lia. }
  destruct (tst _ _); cbn [mw1 fset]; apply Hx.
Qed.

Lemma bcan_to_zcan_rest (m : bcan_msg) :
  cmsg_data1 (bcan_to_zcan m) = htonl (mw2 m) /\
  cmsg_data2 (bcan_to_zcan m) = htonl (mw3 m) /\
  msg_tv_sec (bcan_to_zcan m) = msg_tv_sec m /\
  msg_tv_usec (bcan_to_zcan m) = msg_tv_usec m.
Proof.
  unfold bcan_to_zcan, cmsg_data1, cmsg_data2. destruct (tst _ _); done.
Qed.

Lemma bcan_to_zcan_wf (m : bcan_msg) : msg_wf m -> msg_wf (bcan_to_zcan m).
Proof.
  intros Hm. destruct (bcan_to_zcan_rest m) as (H1 & H2 & _ & _).
  pose proof (bcan_to_zcan_id m Hm) as H3. pose proof (bcan_to_zcan_len m) as H4.
  unfold cmsg_id, cmsg_len, cmsg_data1, cmsg_data2 in *.
  split; rewrite ?H1, ?H2, ?H3, ?H4; try apply htonl_range.
  - destruct (tst _ _); apply ip_id_word_get; try lia; apply Z.mod_pos_bound; lia.
  - unfold is_u32. pose proof (Z.mod_pos_bound (bcan_msg_datalen m) 16 ltac:(lia)). lia.
Qed.

Lemma zcan_to_bcan_wf (m : bcan_msg) : msg_wf m -> msg_wf (zcan_to_bcan m).
Proof.
  intros [H0 H1 H2 H3]. unfold zcan_to_bcan.
  split; cbn [mw0 mw1 mw2 mw3 fset]; try apply htonl_range.
  - destruct (_ =? 0).
    + unfold cmsg_id. rewrite Z.shiftr_div_pow2 by done. unfold is_u32 in *.
      split; [apply Z.div_pos; unfold CMSG_ID_SID_SHIFT; lia |].
      apply Z.div_lt_upper_bound; unfold CMSG_ID_SID_SHIFT; lia.
    + unfold cmsg_id_sid, cmsg_id_eid. change (fls CMSG_ID_EID_MASK) with 18.
      pose proof (bf_get_range 21 11 (mw0 m) ltac:(lia)).
      pose proof (bf_get_range 1 18 (mw0 m) ltac:(lia)).
      apply range_of_bits; [lia |]. intros n Hn.
      rewrite !Z.lor_spec, Z.shiftl_spec by lia.
      rewrite (testbit_high (bf_get 21 11 (mw0 m)) 11) by lia.
      rewrite (testbit_high (bf_get 1 18 (mw0 m)) 18) by lia.
      rewrite (testbit_high BCAN_EXTENDED_FRAME 32) by (unfold BCAN_EXTENDED_FRAME; lia).
      done.
  - apply bf_set_range; try lia. apply H1.
Qed.

(** identifiers the bus can carry: 11 bits, or the flag and 29 bits *)
Definition norm_id (id : Z) : Z :=
  if tst id BCAN_EXTENDED_FRAME then BCAN_EXTENDED_FRAME + id mod 2 ^ 29 else id mod 2 ^ 11.

Lemma byte0_set (v x : Z) : 0 <= x < 256 -> byte_of (bf_set 0 8 v x) 0 = x.
Proof.
  intros. unfold byte_of. change (8 * 0) with 0. change 0xFF with (Z.ones 8).
  change (bf_get 0 8 (bf_set 0 8 v x) = x).
  rewrite bf_get_set_same by lia. apply land_ones_small; lia.
Qed.

Lemma roundtrip_id (m : bcan_msg) :
  msg_wf m -> bcan_msg_id (zcan_to_bcan (bcan_to_zcan m)) = norm_id (bcan_msg_id m).
Proof.
  intros Hm. pose proof (bcan_to_zcan_id m Hm) as Hid. unfold norm_id.
  assert (forall m', bcan_msg_id (zcan_to_bcan m') =
    if bf_get 19 1 (cmsg_id m') =? 0 then Z.shiftr (cmsg_id m') 21
    else Z.lor (Z.lor (Z.shiftl (bf_get 21 11 (cmsg_id m')) 18) (bf_get 1 18 (cmsg_id m')))
           BCAN_EXTENDED_FRAME) as Hz by done.
  rewrite Hz, Hid. clear Hz Hid. set (id := bcan_msg_id m).
  pose proof (Z.mod_pos_bound id (2 ^ 18) ltac:(lia)) as Hlo.
  pose proof (Z.mod_pos_bound (id / 2 ^ 18) (2 ^ 11) ltac:(lia)) as Hhi.
  destruct (tst id _) eqn:E.
  - destruct (ip_id_word_get (id / 2 ^ 18 mod 2 ^ 11) 1 1 (id mod 2 ^ 18) 0)
      as (_ & -> & -> & ->); try lia. simpl Z.eqb. cbv iota.
    rewrite lor_shiftl_add by lia.
    pose proof (div_split id 0 18 ltac:(lia) ltac:(lia)) as D1.
    assert (id mod 2 ^ 29 = id / 2 ^ 18 mod 2 ^ 11 * 2 ^ 18 + id mod 2 ^ 18) as <-.
    { change (2 ^ 29) with (2 ^ 18 * 2 ^ 11). rewrite Z.rem_mul_r by lia. lia. }
    change BCAN_EXTENDED_FRAME with (Z.shiftl 1 29). rewrite Z.lor_comm.
    apply lor_shiftl_add; [lia | apply Z.mod_pos_bound; lia].
  - pose proof (Z.mod_pos_bound id (2 ^ 11) ltac:(lia)).
    destruct (ip_id_word_get (id mod 2 ^ 11) 0 0 0 0) as (_ & _ & -> & _); try lia.
    simpl Z.eqb. cbv iota. unfold ip_id_word. rewrite Z.shiftr_div_pow2 by lia.
    rewrite !Z.mul_0_l, !Z.add_0_r. apply Z.div_mul. lia.
Qed.

Lemma roundtrip_datalen (m : bcan_msg) :
  bcan_msg_datalen (zcan_to_bcan (bcan_to_zcan m)) = bcan_msg_datalen m mod 16.
Proof.
  pose proof (bcan_to_zcan_len m) as Hl. set (n := bcan_msg_datalen m mod 16) in *.
  assert (0 <= n < 16) by (apply Z.mod_pos_bound; lia).
  assert (forall m', bcan_msg_datalen (zcan_to_bcan m') =
    byte_of (bf_set 0 8 (cmsg_len m') (Z.shiftr (cmsg_len m') 28)) 0) as -> by done.
  rewrite Hl, Z.shiftr_div_pow2, Z.div_mul by lia. apply byte0_set. lia.
Qed.

Lemma roundtrip_rest (m : bcan_msg) :
  msg_wf m ->
  let m' := zcan_to_bcan (bcan_to_zcan m) in
  mw2 m' = mw2 m /\ mw3 m' = mw3 m /\
  msg_tv_sec m' = msg_tv_sec m /\ msg_tv_usec m' = msg_tv_usec m.
Proof.
  intros [_ _ H2 H3] m'. destruct (bcan_to_zcan_rest m) as (E2 & E3 & E4 & E5).
  unfold cmsg_data1, cmsg_data2 in *.
  assert (mw2 m' = htonl (mw2 (bcan_to_zcan m))) as -> by done.
  assert (mw3 m' = htonl (mw3 (bcan_to_zcan m))) as -> by done.
  rewrite E2, E3, !htonl_involutive by done. done.
Qed.

Lemma byte_htonl (v k : Z) : 0 <= k < 4 -> byte_of (htonl v) k = byte_of v (3 - k).
Proof.
  intros. rewrite htonl_word_of.
  destruct (byte_of_word (byte_of v 0) (byte_of v 1) (byte_of v 2) (byte_of v 3))
    as (H0 & H1 & H2 & H3); try (apply byte_of_range; lia).
  assert (k = 0 \/ k = 1 \/ k = 2 \/ k = 3) as [-> | [-> | [-> | ->]]] by lia; done.
Qed.

(** ** Properties *)

(** C1: converting a message to the hardware format and back gives the
    message: the identifier reduced to what the bus carries (unchanged for an
    11-bit or a flagged 29-bit identifier), the length modulo 16, every data
    byte and the timestamp. *)
Theorem can_msg_roundtrip (m : bcan_msg) (Hm : msg_wf m) :
  let m' := zcan_to_bcan (bcan_to_zcan m) in
  bcan_msg_id m' = norm_id (bcan_msg_id m) /\
  (bcan_msg_id m < 2 ^ 11 \/ 2 ^ 29 <= bcan_msg_id m < 2 ^ 30 ->
     bcan_msg_id m' = bcan_msg_id m) /\
  bcan_msg_datalen m' = bcan_msg_datalen m mod 16 /\
  (forall k, 0 <= k < 8 -> bcan_msg_data m' k = bcan_msg_data m k) /\
  msg_tv_sec m' = msg_tv_sec m /\ msg_tv_usec m' = msg_tv_usec m.
Proof.
  intros m'. destruct (roundtrip_rest m Hm) as (H2 & H3 & H4 & H5).
  pose proof (roundtrip_id m Hm) as Hid. fold m' in Hid, H2, H3, H4, H5.
  split_and!; try done.
  - rewrite Hid. destruct Hm as [Hw _ _ _]. unfold is_u32, norm_id, bcan_msg_id in *.
    rewrite tst_ext. set (id := mw0 m) in *. intros [Hr|Hr].
    + rewrite (testbit_high id 11) by lia. apply Z.mod_small. lia.
    + replace (Z.testbit id 29) with true.
      * symmetry. unfold BCAN_EXTENDED_FRAME. rewrite (Z.mod_eq id) by lia.
        assert (id / 2 ^ 29 = 1) as -> by (symmetry; apply Z.div_unique with (id - 2 ^ 29); lia).
        lia.
      * symmetry. apply Z.testbit_true; [lia |].
        assert (id / 2 ^ 29 = 1) as -> by (symmetry; apply Z.div_unique with (id - 2 ^ 29); lia).
        done.
  - apply roundtrip_datalen.
  - intros k Hk. unfold bcan_msg_data. by rewrite H2, H3.
Qed.

(** C2: the frame put on the bus follows the CAN IP layout.  Standard: the
    11-bit identifier in bits 21-31 and nothing else.  Extended: identifier bits
    18-28 in bits 21-31, SRTR and IDE set, identifier bits 0-17 in bits 1-18,
    RTR clear.  The length is the top nibble of the second word, and data
    byte [k] is the [k]-th byte sent, most significant byte first. *)
Theorem can_frame_layout (m : bcan_msg) (Hm : msg_wf m) :
  let f := bcan_to_zcan m in
  let id := bcan_msg_id m in
  msg_wf f /\
  cmsg_id f = (if Z.testbit id 29
               then ip_id_word (id / 2 ^ 18 mod 2 ^ 11) 1 1 (id mod 2 ^ 18) 0
               else ip_id_word (id mod 2 ^ 11) 0 0 0 0) /\
  cmsg_id_ide f = (if Z.testbit id 29 then 1 else 0) /\
  cmsg_len f = (bcan_msg_datalen m mod 16) * 2 ^ 28 /\
  (forall k, 0 <= k < 4 -> byte_of (cmsg_data1 f) (3 - k) = bcan_msg_data m k) /\
  (forall k, 0 <= k < 4 -> byte_of (cmsg_data2 f) (3 - k) = bcan_msg_data m (4 + k)).
Proof.
  intros f id. pose proof (bcan_to_zcan_id m Hm) as Hid. rewrite tst_ext in Hid.
  fold f id in Hid. destruct (bcan_to_zcan_rest m) as (H2 & H3 & _ & _). fold f in H2, H3.
  split_and!; [apply bcan_to_zcan_wf, Hm | | | | |].
  - exact Hid.
  - unfold cmsg_id_ide. change (mw0 f) with (cmsg_id f). rewrite Hid.
    pose proof (Z.mod_pos_bound id (2 ^ 18) ltac:(lia)).
    pose proof (Z.mod_pos_bound id (2 ^ 11) ltac:(lia)).
    pose proof (Z.mod_pos_bound (id / 2 ^ 18) (2 ^ 11) ltac:(lia)).
    destruct (Z.testbit id 29); apply ip_id_word_get; lia.
  - apply bcan_to_zcan_len.
  - intros k Hk. rewrite H2, byte_htonl by lia. unfold bcan_msg_data.
    destruct (Z.ltb_spec k 4); [f_equal; lia | lia].
  - intros k Hk. rewrite H3, byte_htonl by lia. unfold bcan_msg_data.
    destruct (Z.ltb_spec (4 + k) 4); [lia | f_equal; lia].
Qed.

(** an extended frame with all identifier bits set, and eight data bytes *)
Definition sample_msg : bcan_msg :=
  BcanMsg 0x3ABCDEF1 0xFFFFFF08 0x44332211 0x88776655 100 5.

Example can_msg_roundtrip_witness :
  msg_wf sample_msg /\ bcan_msg_id (zcan_to_bcan (bcan_to_zcan sample_msg)) = 0x3ABCDEF1.
Proof.
  assert (msg_wf sample_msg) as Hm by (split; unfold is_u32, sample_msg; cbn [mw0 mw1 mw2 mw3 fset]; lia).
  split; [exact Hm |].
  destruct (can_msg_roundtrip sample_msg Hm) as (_ & H & _).
  apply H. right. cbn. lia.
Defined.

Example can_frame_layout_witness :
  msg_wf sample_msg /\ cmsg_id (bcan_to_zcan sample_msg) = 0xD5F9BDE2.
Proof.
  assert (msg_wf sample_msg) as Hm by (split; unfold is_u32, sample_msg; cbn [mw0 mw1 mw2 mw3 fset]; lia).
  split; [exact Hm |].
  destruct (can_frame_layout sample_msg Hm) as (_ & H & _). rewrite H. reflexivity.
Defined.
