(* ===== verification/Chan.v ===== *)
(** * DMA channels ([basa_chan.c])

    A channel owns a transmit descriptor ring and a two-level receive page
    table.  [zchan_tx_one_msg] is the producer of the ring, [zchan_tx_done] its
    consumer, driven by the head the device reports. *)

From S2P Require Import Ring Device.

(** ** Definitions *)

Inductive dma_data_direction := PCI_DMA_BIDIRECTIONAL | PCI_DMA_TODEVICE | PCI_DMA_FROMDEVICE.
#[global] Instance dma_dir_eq_dec : EqDecision dma_data_direction.
Proof. solve_decision. Defined.
Definition PAGE_SIZE : Z := 4096.
(** structure sizes of the 64-bit build *)
Definition sizeof_tx_desc : Z := 16.
Definition sizeof_buf : Z := 24.
Definition sizeof_rx_pt : Z := 40.
Definition sizeof_u64 : Z := 8.

(** [ZCHAN_RX_*] macros *)
Definition ZCHAN_RX_BUF_OFFSET (rx : zchan_rx_tbl) (rx_off : Z) : Z :=
  Z.land rx_off (zchan_rx_buf_mask rx).
Definition ZCHAN_RX_PT_ENTRY (rx : zchan_rx_tbl) (rx_off : Z) : Z :=
  Z.land (Z.shiftr rx_off (zchan_rx_pt_shift rx)) (zchan_rx_pt_mask rx).
Definition ZCHAN_RX_PDT_ENTRY (rx : zchan_rx_tbl) (rx_off : Z) : Z :=
  Z.shiftr rx_off (zchan_rx_pdt_shift rx) mod zchan_rx_pdt_num rx.
Definition ZCHAN_WITHIN_RX_BUF (rx : zchan_rx_tbl) (rx_off1 rx_off2 : Z) : bool :=
  Z.land rx_off1 (Z.lnot (zchan_rx_buf_mask rx)) =? Z.land rx_off2 (Z.lnot (zchan_rx_buf_mask rx)).
Definition ZCHAN_RX_FREE_SIZE (rx : zchan_rx_tbl) (head tail : Z) : Z :=
  if tail <? head then u32 (head - tail) else u32 (zchan_rx_size rx + head - tail).
Definition ZCHAN_RX_USED_SIZE (rx : zchan_rx_tbl) (head tail : Z) : Z :=
  if head <=? tail then u32 (tail - head) else u32 (zchan_rx_size rx + tail - head).

Section chan.
Context `{Env} `{ModParams}.

(** the ring and the table of the current channel *)
Definition tx_ring : M chan_ctx zchan_tx_ring := gets (fun s => zchan_tx_ring_of (ch_zchan s)).
Definition rx_tbl : M chan_ctx zchan_rx_tbl := gets (fun s => zchan_rx_tbl_of (ch_zchan s)).
Definition upd_tx (f : zchan_tx_ring -> zchan_tx_ring) : M chan_ctx unit :=
  upd_zchan (fun c => c<|zchan_tx_ring_of ::= f|>).
Definition upd_rx (f : zchan_rx_tbl -> zchan_rx_tbl) : M chan_ctx unit :=
  upd_zchan (fun c => c<|zchan_rx_tbl_of ::= f|>).
Definition chan_id : M chan_ctx Z := gets (fun s => zchan_num (ch_zchan s)).
Definition chan_dev : M chan_ctx zynq_dev := gets ch_zdev.

(** channel H/W reset *)
Definition zchan_reset : M chan_ctx unit :=
  zchan_reg_write ZYNQ_CH_DMA_CONTROL (Z.lor ZYNQ_CH_DMA_RD_STOP ZYNQ_CH_DMA_WR_STOP);;
  mdelay 1;;
  zchan_reg_write ZYNQ_CH_RESET ZYNQ_CH_DMA_RESET_EN;;
  zchan_reg_write ZYNQ_CH_RESET 0;;
  mdelay 1.

(** ** Transmit ring *)

(** the head index the hardware reports; the current head when it is bad *)
Definition zchan_tx_read_head : M chan_ctx Z :=
  tx ← tx_ring;
  let tx_head := zchan_tx_head tx in
  hi ← zchan_reg_read ZYNQ_CH_TX_HEAD_HI;
  lo ← zchan_reg_read ZYNQ_CH_TX_HEAD_LO;
  let tx_head_dma := Z.lor (u64 (Z.shiftl hi 32)) lo in
  if zchan_tx_dma tx <=? tx_head_dma then
    let idx := u32 ((tx_head_dma - zchan_tx_dma tx) / sizeof_tx_desc) in
    if zchan_tx_num tx <=? idx then mret tx_head else mret idx
  else mret tx_head.

(** write the H/W tail index *)
Definition zchan_tx_write_tail (tail_index : Z) : M chan_ctx unit :=
  tx ← tx_ring;
  if zchan_tx_num tx <=? tail_index then mret tt
  else
    let tx_tail_dma := u64 (zchan_tx_dma tx + tail_index * sizeof_tx_desc) in
    zchan_reg_write ZYNQ_CH_TX_TAIL_HI (HI32 tx_tail_dma);;
    zchan_reg_write ZYNQ_CH_TX_TAIL_LO (LO32 tx_tail_dma);;
    upd_tx (fun tx => tx<|zchan_tx_tail := tail_index|>).

(** [msg]: the words of the message, [msgsz] its size in bytes *)
Definition zchan_tx_one_msg (msg : list Z) (msgsz : Z) : M chan_ctx Z :=
  tx ← tx_ring;
  if zchan_tx_bufsz tx <? msgsz then mret BCAN_FAIL
  else
    ch ← chan_id;
    spin_lock (L_zchan_tx ch);;
    tx ← tx_ring;
    let tx_mask := u32 (zchan_tx_num tx - 1) in
    let tx_head := zchan_tx_head tx in
    let tx_tail := zchan_tx_tail tx in
    let tx_next := Z.land (u32 (tx_tail + 1)) tx_mask in
    if tx_next =? tx_head then
      spin_unlock (L_zchan_tx ch);;
      mret BCAN_DEV_BUSY
    else
      bufp ← array_get (zchan_tx_bufs tx) tx_tail;
      tell (DmaStore (zchan_bufp bufp) msg);;
      tell (DmaSync (zchan_buf_dma bufp) msgsz);;
      descp ← array_get (zchan_tx_descp tx) tx_tail;
      upd_tx (fun tx => tx<|zchan_tx_descp ::=
        <[Z.to_nat tx_tail := TxDesc msgsz (zchan_buf_dma bufp)]>|>);;
      zchan_tx_write_tail tx_next;;
      zchan_ZYNQ_STATS CHAN_STATS_TX;;
      spin_unlock (L_zchan_tx ch);;
      mret 0.

(** free the descriptors the hardware has consumed *)
Definition zchan_tx_done : M chan_ctx unit :=
  tx ← tx_ring;
  let head := zchan_tx_head tx in
  new_head ← zchan_tx_read_head;
  if head =? new_head then mret tt
  else
    let tx_mask := u32 (zchan_tx_num tx - 1) in
    loop (S (Z.to_nat (zchan_tx_num tx)))
      (fun idx =>
         if idx =? new_head then mret (inr tt)
         else
           tx ← tx_ring;
           descp ← array_get (zchan_tx_descp tx) idx;
           upd_tx (fun tx => tx<|zchan_tx_descp ::=
             <[Z.to_nat idx := descp<|tx_addr := 0|>]>|>);;
           mret (inl (Z.land (idx + 1) tx_mask)))
      head;;
    upd_tx (fun tx => tx<|zchan_tx_head := new_head|>).

(** ** Receive offsets *)

(** virtual and bus address of an offset in the receive buffer space *)
Definition zchan_rx_off2addr (rx_off : Z) : M chan_ctx (Z * Z) :=
  rx ← rx_tbl;
  if zchan_rx_pdt_num rx =? 0 then fail DivByZero
  else
    let pdt_entry := ZCHAN_RX_PDT_ENTRY rx rx_off in
    rx_ptp ← array_get (zchan_rx_ptp rx) pdt_entry;
    let pt_entry := ZCHAN_RX_PT_ENTRY rx rx_off in
    rx_buf ← array_get (zchan_rx_pt_bufs rx_ptp) pt_entry;
    mret (zchan_bufp rx_buf + ZCHAN_RX_BUF_OFFSET rx rx_off,
          zchan_buf_dma rx_buf + ZCHAN_RX_BUF_OFFSET rx rx_off).

(** ** Buffers *)
Section buffers.
Context {S : Type}.

Definition zchan_alloc_consistent (sz : Z) : M S (Z * Z) :=
  p ← ask (DmaAlloc sz);
  if p =? 0 then mret (0, 0)
  else dma ← ask (DmaHandle p); mret (p, u64 dma).
Definition zchan_free_consistent (p dma sz : Z) : M S unit := tell (DmaFree p dma sz).

(** allocate and map the memory of a buffer; [pdev] is false for a NULL device *)
Definition zchan_alloc_buf (pdev : bool) (zb : zchan_buf) (bufsz : Z)
    (dmatype : dma_data_direction) : M S (Z * zchan_buf) :=
  if decide (dmatype = PCI_DMA_BIDIRECTIONAL) then
    '(bufp, dma) ← zchan_alloc_consistent bufsz;
    if bufp =? 0 then mret (-1, zb)
    else mret (0, zb<|zchan_buf_dma := dma|><|zchan_bufp := bufp|>)
  else if bufsz <? PAGE_SIZE then
    bufp ← ask (KAlloc bufsz);
    if bufp =? 0 then mret (-1, zb)
    else if pdev then
      dma ← ask (DmaMap bufp bufsz);
      err ← ask (DmaMapError dma);
      if err =? 0 then mret (0, zb<|zchan_buf_dma := u64 dma|><|zchan_bufp := bufp|>)
      else tell (KFree bufp);; mret (-1, zb<|zchan_buf_dma := u64 dma|>)
    else mret (0, zb<|zchan_bufp := bufp|>)
  else
    page ← ask (AllocPages bufsz);
    if page =? 0 then mret (-1, zb)
    else if pdev then
      dma ← ask (DmaMap page bufsz);
      err ← ask (DmaMapError dma);
      if err =? 0 then
        va ← ask (PageAddress page);
        mret (0, zb<|zchan_buf_dma := u64 dma|><|zchan_buf_page := page|><|zchan_bufp := va|>)
      else tell (FreePages page);; mret (-1, zb<|zchan_buf_dma := u64 dma|>)
    else
      va ← ask (PageAddress page);
      mret (0, zb<|zchan_buf_page := page|><|zchan_bufp := va|>).

Definition zchan_free_buf (pdev : bool) (zb : zchan_buf) (bufsz : Z)
    (dmatype : dma_data_direction) : M S zchan_buf :=
  (if decide (dmatype = PCI_DMA_BIDIRECTIONAL) then
     zchan_free_consistent (zchan_bufp zb) (zchan_buf_dma zb) bufsz
   else if bufsz <? PAGE_SIZE then
     when pdev (tell (DmaUnmap (zchan_buf_dma zb) bufsz));;
     tell (KFree (zchan_bufp zb))
   else
     when pdev (tell (DmaUnmap (zchan_buf_dma zb) bufsz));;
     tell (FreePages (zchan_buf_page zb)));;
  mret (ZchanBuf 0 0 0).
End buffers.

(** allocate or free entry [i] of the ring's buffer array *)
Definition tx_alloc_at (i : Z) : M chan_ctx (option Z) :=
  tx ← tx_ring;
  zb ← array_get (zchan_tx_bufs tx) i;
  '(rc, zb') ← zchan_alloc_buf true zb ZCHAN_BUF_SIZE PCI_DMA_TODEVICE;
  upd_tx (fun tx => tx<|zchan_tx_bufs ::= <[Z.to_nat i := zb']>|>);;
  mret (if rc =? 0 then None else Some i).
Definition tx_free_at (bufsz i : Z) : M chan_ctx unit :=
  tx ← tx_ring;
  zb ← array_get (zchan_tx_bufs tx) i;
  zb' ← zchan_free_buf true zb bufsz PCI_DMA_TODEVICE;
  upd_tx (fun tx => tx<|zchan_tx_bufs ::= <[Z.to_nat i := zb']>|>).

(** no transmit ring for a video channel, or for a CAN in PIO mode *)
Definition no_tx_ring (s : chan_ctx) : bool :=
  bool_decide (zchan_type (ch_zchan s) = ZYNQ_CHAN_VIDEO)
  || (bool_decide (zchan_type (ch_zchan s) = ZYNQ_CHAN_CAN) && (zcan_tx_dma (ch_zdev s) =? 0)).

Definition zchan_init_tx_ring : M chan_ctx Z :=
  skip ← gets no_tx_ring;
  if (skip : bool) then mret 0
  else
    let num_entries := ZCHAN_TX_ENTRIES_CAN in
    let size := num_entries * sizeof_tx_desc in
    (* allocate tx descriptor ring *)
    '(descp, dma) ← zchan_alloc_consistent size;
    upd_tx (fun tx => tx<|zchan_tx_descp_va := descp|><|zchan_tx_dma := dma|>);;
    if descp =? 0 then mret (-1)
    else
      upd_tx (fun tx => tx<|zchan_tx_descp := replicate (Z.to_nat num_entries) (TxDesc 0 0)|>
        <|zchan_tx_size := size|><|zchan_tx_num := num_entries|>);;
      (* allocate tx buffer array *)
      bufp ← ask (KAlloc (num_entries * sizeof_buf));
      if bufp =? 0 then
        zchan_free_consistent descp dma size;;
        mret (-1)
      else
        upd_tx (fun tx => tx<|zchan_tx_bufp := bufp|>
          <|zchan_tx_bufs := replicate (Z.to_nat num_entries) zchan_buf_zero|>);;
        (* allocate tx buffers *)
        failed ← for_break (Z.to_nat num_entries) 0 tx_alloc_at;
        match failed with
        | None =>
            upd_tx (fun tx => tx<|zchan_tx_bufsz := ZCHAN_BUF_SIZE|>);;
            (* init Tx h/w *)
            zchan_reg_write ZYNQ_CH_DMA_CONFIG ZYNQ_CH_DMA_TX_EN;;
            zchan_reg_write ZYNQ_CH_TX_HEAD_HI (HI32 dma);;
            zchan_reg_write ZYNQ_CH_TX_HEAD_LO (LO32 dma);;
            zchan_reg_write ZYNQ_CH_TX_TAIL_HI (HI32 dma);;
            zchan_reg_write ZYNQ_CH_TX_TAIL_LO (LO32 dma);;
            zchan_reg_write ZYNQ_CH_TX_RING_SZ size;;
            zchan_reg_write ZYNQ_CH_DMA_CONTROL ZYNQ_CH_DMA_RD_START;;
            mret 0
        | Some i =>
            (* while (i--) free the previous buffer *)
            for_ (Z.to_nat i) 0 (fun k => tx_free_at ZCHAN_BUF_SIZE (i - 1 - k));;
            tell (KFree bufp);;
            upd_tx (fun tx => tx<|zchan_tx_bufp := 0|><|zchan_tx_bufs := []|>);;
            zchan_free_consistent descp dma size;;
            upd_tx (fun tx => tx<|zchan_tx_descp_va := 0|><|zchan_tx_descp := []|>);;
            mret (-1)
        end.

Definition zchan_fini_tx_ring : M chan_ctx unit :=
  skip ← gets no_tx_ring;
  if (skip : bool) then mret tt
  else
    (* disable tx in h/w *)
    zchan_reg_write ZYNQ_CH_DMA_CONTROL ZYNQ_CH_DMA_RD_STOP;;
    mdelay 10;;
    zchan_reg_write ZYNQ_CH_TX_RING_SZ 0;;
    zchan_reg_write ZYNQ_CH_TX_HEAD_HI 0;;
    zchan_reg_write ZYNQ_CH_TX_HEAD_LO 0;;
    zchan_reg_write ZYNQ_CH_TX_TAIL_HI 0;;
    zchan_reg_write ZYNQ_CH_TX_TAIL_LO 0;;
    (* free tx buffers *)
    tx ← tx_ring;
    for_ (Z.to_nat (zchan_tx_num tx)) 0 (tx_free_at (zchan_tx_bufsz tx));;
    tell (KFree (zchan_tx_bufp tx));;
    upd_tx (fun tx => tx<|zchan_tx_bufp := 0|><|zchan_tx_bufs := []|>);;
    zchan_free_consistent (zchan_tx_descp_va tx) (zchan_tx_dma tx) (zchan_tx_size tx);;
    upd_tx (fun tx => tx<|zchan_tx_descp_va := 0|><|zchan_tx_descp := []|>).

(** ** Receive page tables *)

Definition rx_pt_get (i : Z) : M chan_ctx zchan_rx_pt :=
  rx ← rx_tbl; array_get (zchan_rx_ptp rx) i.
Definition rx_pt_upd (i : Z) (f : zchan_rx_pt -> zchan_rx_pt) : M chan_ctx unit :=
  upd_rx (fun rx => rx<|zchan_rx_ptp ::= alter f (Z.to_nat i)|>).

(** allocate, or free, buffer [j] of page table [i] *)
Definition rx_buf_alloc (bufsz : Z) (dmatype : dma_data_direction) (i j : Z)
  : M chan_ctx (option Z) :=
  pt ← rx_pt_get i;
  zb ← array_get (zchan_rx_pt_bufs pt) j;
  '(rc, zb') ← zchan_alloc_buf true zb bufsz dmatype;
  rx_pt_upd i (fun pt => pt<|zchan_rx_pt_bufs ::= <[Z.to_nat j := zb']>|>);;
  if rc =? 0 then
    when (bool_decide (dmatype = PCI_DMA_FROMDEVICE)) (tell (DmaSync (zchan_buf_dma zb') bufsz));;
    rx_pt_upd i (fun pt => pt<|zchan_rx_pt_entry ::= <[Z.to_nat j := zchan_buf_dma zb']>|>);;
    mret None
  else mret (Some j).
Definition rx_buf_free (bufsz : Z) (dmatype : dma_data_direction) (i j : Z)
  : M chan_ctx unit :=
  pt ← rx_pt_get i;
  zb ← array_get (zchan_rx_pt_bufs pt) j;
  zb' ← zchan_free_buf true zb bufsz dmatype;
  rx_pt_upd i (fun pt => pt<|zchan_rx_pt_bufs ::= <[Z.to_nat j := zb']>|>).

(** where [zchan_init_rx_tbl] failed: the page table alone, or its buffer [j] *)
Inductive rx_failure := Pt_alloc_fail (i : Z) | Buf_alloc_fail (i j : Z).

(** allocate page table [i] with its buffers *)
Definition rx_pt_alloc (bufsz : Z) (dmatype : dma_data_direction) (i : Z)
  : M chan_ctx (option rx_failure) :=
  '(pt, dma) ← zchan_alloc_consistent ZCHAN_RX_PT_SIZE;
  rx_pt_upd i (fun p => p<|zchan_rx_pt_dma := dma|>);;
  if pt =? 0 then mret (Some (Pt_alloc_fail i))
  else
    rx_pt_upd i (fun p => p<|zchan_rx_pt_va := pt|>
      <|zchan_rx_pt_entry := replicate (Z.to_nat ZCHAN_RX_PT_ENTRIES) 0|>);;
    upd_rx (fun rx => rx<|zchan_rx_pdt ::= <[Z.to_nat i := dma]>|>);;
    bufp ← ask (KAlloc (ZCHAN_RX_PT_ENTRIES * sizeof_buf));
    if bufp =? 0 then
      zchan_free_consistent pt dma ZCHAN_RX_PT_SIZE;;
      mret (Some (Pt_alloc_fail i))
    else
      rx_pt_upd i (fun p => p<|zchan_rx_pt_bufp := bufp|>
        <|zchan_rx_pt_bufs := replicate (Z.to_nat ZCHAN_RX_PT_ENTRIES) zchan_buf_zero|>
        <|zchan_rx_pt_buf_num := ZCHAN_RX_PT_ENTRIES|>);;
      failed ← for_break (Z.to_nat ZCHAN_RX_PT_ENTRIES) 0 (rx_buf_alloc bufsz dmatype i);
      mret (Buf_alloc_fail i <$> failed).

(** free the buffer array and the table of page table [i] *)
Definition rx_pt_free (i : Z) : M chan_ctx unit :=
  pt ← rx_pt_get i;
  tell (KFree (zchan_rx_pt_bufp pt));;
  zchan_free_consistent (zchan_rx_pt_va pt) (zchan_rx_pt_dma pt) ZCHAN_RX_PT_SIZE.

(** [pt_alloc_fail:] free the page tables below [i], then directory and array *)
Definition rx_tbl_unwind_pt (bufsz : Z) (dmatype : dma_data_direction) (i pdt_size : Z)
  : M chan_ctx unit :=
  for_ (Z.to_nat i) 0 (fun k =>
    for_ (Z.to_nat ZCHAN_RX_PT_ENTRIES) 0 (rx_buf_free bufsz dmatype (i - 1 - k));;
    rx_pt_free (i - 1 - k));;
  rx ← rx_tbl;
  tell (KFree (zchan_rx_ptp_va rx));;
  upd_rx (fun rx => rx<|zchan_rx_ptp_va := 0|><|zchan_rx_ptp := []|>);;
  zchan_free_consistent (zchan_rx_pdt_va rx) (zchan_rx_pdt_dma rx) pdt_size;;
  upd_rx (fun rx => rx<|zchan_rx_pdt_va := 0|><|zchan_rx_pdt := []|>).

(** [buf_alloc_fail:] falls through to [pt_alloc_fail:] *)
Definition rx_tbl_unwind (bufsz : Z) (dmatype : dma_data_direction) (f : rx_failure)
    (pdt_size : Z) : M chan_ctx unit :=
  match f with
  | Buf_alloc_fail i j =>
      for_ (Z.to_nat j) 0 (fun k => rx_buf_free bufsz dmatype i (j - 1 - k));;
      rx_pt_free i;;
      rx_tbl_unwind_pt bufsz dmatype i pdt_size
  | Pt_alloc_fail i => rx_tbl_unwind_pt bufsz dmatype i pdt_size
  end.

(** start the receive DMA: program the page directory, then poll the ready
    state for 10 ms per page table *)
Definition zchan_rx_start : M chan_ctx unit :=
  zchan_reset;;
  s ← get;
  let rx := zchan_rx_tbl_of (ch_zchan s) in
  supported ←
    match zchan_type (ch_zchan s) with
    | ZYNQ_CHAN_CAN =>
        let ch_config :=
          if zcan_rx_hw_ts (ch_zdev s) =? 0 then ZYNQ_CH_DMA_RX_EN
          else Z.lor ZYNQ_CH_DMA_CAN_HWTS ZYNQ_CH_DMA_RX_EN in
        zchan_reg_write ZYNQ_CH_DMA_CONFIG ch_config;;
        mret true
    | ZYNQ_CHAN_VIDEO =>
        c ← zchan_reg_read ZYNQ_CH_DMA_CONFIG;
        let c1 := Z.land c (Z.lnot ZYNQ_CH_DMA_FRAME_SZ_MASK) in
        let c2 := Z.lor c1
          (Z.land (u32 (Z.shiftl (zvideo_sizeimage (ch_zchan s)) ZYNQ_CH_DMA_FRAME_SZ_OFFSET))
             ZYNQ_CH_DMA_FRAME_SZ_MASK) in
        let c3 := Z.lor c2 ZYNQ_CH_DMA_FRAME_BUF_ALIGN in
        let c4 := Z.lor c3 ZYNQ_CH_DMA_RX_EN in
        zchan_reg_write ZYNQ_CH_DMA_CONFIG c4;;
        zchan_reg_write ZYNQ_CH_WR_TABLE_CONFIG
          (Z.land (zchan_rx_pt_entries rx) (zchan_rx_pt_mask rx) * sizeof_u64);;
        mret true
    | ZYNQ_CHAN_INVAL => mret false
    end;
  if negb supported then mret tt
  else
    zchan_reg_write ZYNQ_CH_RX_PDT_HI (HI32 (zchan_rx_pdt_dma rx));;
    zchan_reg_write ZYNQ_CH_RX_PDT_LO (LO32 (zchan_rx_pdt_dma rx));;
    zchan_reg_write ZYNQ_CH_RX_PDT_SZ (zchan_rx_pdt_num rx * sizeof_u64);;
    zchan_reg_write ZYNQ_CH_RX_TAIL 0;;
    zchan_reg_write ZYNQ_CH_RX_HEAD 0;;
    upd_rx (fun rx => rx<|zchan_rx_head := 0|><|zchan_rx_tail := 0|><|zchan_rx_off := 0|>);;
    (* Start Rx DMA *)
    zchan_reg_write ZYNQ_CH_DMA_CONTROL ZYNQ_CH_DMA_WR_START;;
    (* Check DMA ready status *)
    let timeout := u32 (zchan_rx_pdt_num rx * 10) in
    for_break (Z.to_nat timeout) 0 (fun _ =>
      mdelay 1;;
      ch_status ← zchan_reg_read ZYNQ_CH_DMA_STATUS;
      mret (if GET_BITS ZYNQ_CH_DMA_WR_STATE ch_status =? ZYNQ_CH_DMA_READY
            then Some tt else None));;
    mret tt.

Definition zchan_rx_stop : M chan_ctx unit :=
  zchan_reg_write ZYNQ_CH_DMA_CONTROL ZYNQ_CH_DMA_WR_STOP;;
  mdelay 10;;
  zchan_reg_write ZYNQ_CH_RX_PDT_HI 0;;
  zchan_reg_write ZYNQ_CH_RX_PDT_LO 0;;
  zchan_reg_write ZYNQ_CH_RX_PDT_SZ 0;;
  zchan_reg_write ZYNQ_CH_RX_TAIL 0;;
  zchan_reg_write ZYNQ_CH_RX_HEAD 0.

(** direction and number of page directory entries, for the channel types that
    receive by DMA *)
Definition rx_tbl_config (s : chan_ctx) : option (dma_data_direction * Z) :=
  match zchan_type (ch_zchan s) with
  | ZYNQ_CHAN_CAN =>
      if zcan_rx_dma (ch_zdev s) =? 0 then None
      else Some (PCI_DMA_BIDIRECTIONAL, ZCHAN_RX_PDT_ENTRIES_CAN)
  | ZYNQ_CHAN_VIDEO =>
      if zynq_video_zero_copy then None
      else Some (PCI_DMA_FROMDEVICE,
        u32 (zynq_video_buf_num *
               (u32 (zvideo_sizeimage (ch_zchan s) + ZCHAN_BUF_SIZE - 1) / ZCHAN_BUF_SIZE)
             + ZCHAN_RX_PT_ENTRIES - 1) / ZCHAN_RX_PT_ENTRIES)
  | ZYNQ_CHAN_INVAL => None
  end.

Definition rx_pt_zero : zchan_rx_pt := RxPt 0 0 [] 0 [] 0.

Definition zchan_init_rx_tbl : M chan_ctx Z :=
  config ← gets rx_tbl_config;
  match config with
  | None => mret 0
  | Some (dmatype, pdt_entries) =>
      let bufsz := ZCHAN_BUF_SIZE in
      let pdt_size := pdt_entries * sizeof_u64 in
      (* allocate page directory table first *)
      '(pdtp, dma) ← zchan_alloc_consistent pdt_size;
      upd_rx (fun rx => rx<|zchan_rx_pdt_dma := dma|>);;
      if pdtp =? 0 then mret (-1)
      else
        upd_rx (fun rx => rx<|zchan_rx_pdt_num := pdt_entries|><|zchan_rx_pdt_va := pdtp|>
          <|zchan_rx_pdt := replicate (Z.to_nat pdt_entries) 0|>);;
        (* allocate the array of zchan_rx_pt_t *)
        ptp ← ask (KAlloc (pdt_entries * sizeof_rx_pt));
        if ptp =? 0 then
          zchan_free_consistent pdtp dma pdt_size;;
          mret (-1)
        else
          upd_rx (fun rx => rx<|zchan_rx_ptp_va := ptp|>
            <|zchan_rx_ptp := replicate (Z.to_nat pdt_entries) rx_pt_zero|>
            <|zchan_rx_bufsz := bufsz|>);;
          failed ← for_break (Z.to_nat pdt_entries) 0 (rx_pt_alloc bufsz dmatype);
          match failed with
          | Some f => rx_tbl_unwind bufsz dmatype f pdt_size;; mret (-1)
          | None =>
              upd_rx (fun rx => rx
                <|zchan_rx_pt_entries := u32 (pdt_entries * ZCHAN_RX_PT_ENTRIES)|>
                <|zchan_rx_size := u32 (pdt_entries * ZCHAN_RX_PT_ENTRIES * bufsz)|>
                <|zchan_rx_pdt_shift := fls (ZCHAN_RX_PT_ENTRIES * bufsz) - 1|>
                <|zchan_rx_pt_shift := fls bufsz - 1|>
                <|zchan_rx_pt_mask := ZCHAN_RX_PT_ENTRIES - 1|>
                <|zchan_rx_buf_mask := bufsz - 1|>);;
              can ← gets (fun s => bool_decide (zchan_type (ch_zchan s) = ZYNQ_CHAN_CAN));
              when can zchan_rx_start;;
              mret 0
          end
  end.

Definition zchan_fini_rx_tbl : M chan_ctx unit :=
  config ← gets rx_tbl_config;
  match config with
  | None => mret tt
  | Some (dmatype, _) =>
      zchan_rx_stop;;
      rx ← rx_tbl;
      for_ (Z.to_nat (zchan_rx_pdt_num rx)) 0 (fun i =>
        pt ← rx_pt_get i;
        for_ (Z.to_nat (zchan_rx_pt_buf_num pt)) 0 (rx_buf_free (zchan_rx_bufsz rx) dmatype i);;
        rx_pt_free i);;
      tell (KFree (zchan_rx_ptp_va rx));;
      upd_rx (fun rx => rx<|zchan_rx_ptp_va := 0|><|zchan_rx_ptp := []|>);;
      zchan_free_consistent (zchan_rx_pdt_va rx) (zchan_rx_pdt_dma rx)
        (zchan_rx_pdt_num rx * sizeof_u64);;
      upd_rx (fun rx => rx<|zchan_rx_pdt_va := 0|><|zchan_rx_pdt := []|>)
  end.

Definition zchan_init_dma : M chan_ctx Z :=
  zchan_reset;;
  rc ← zchan_init_rx_tbl;
  if negb (rc =? 0) then mret (-1)
  else
    can ← gets (fun s => bool_decide (zchan_type (ch_zchan s) = ZYNQ_CHAN_CAN));
    if (can : bool) then
      rc ← zchan_init_tx_ring;
      if negb (rc =? 0) then zchan_fini_rx_tbl;; mret (-1) else mret 0
    else mret 0.

Definition zchan_fini_dma : M chan_ctx unit :=
  zchan_reg_write ZYNQ_CH_DMA_CONFIG 0;;
  mdelay 10;;
  zchan_fini_rx_tbl;;
  can ← gets (fun s => bool_decide (zchan_type (ch_zchan s) = ZYNQ_CHAN_CAN));
  when can zchan_fini_tx_ring.

(** ** Error interrupt throttling *)

Definition zchan_watchdog_complete : M chan_ctx unit :=
  ch ← chan_id; tell (Complete (C_watchdog ch)).

(** mask the interrupts of the errors reported, and remember when *)
Definition zchan_err_mask (ch_err : Z) : M chan_ctx unit :=
  let ch_err := Z.land (u32 ch_err) (Z.lnot ZYNQ_CH_ERR_CAM_LINK_CHANGE) in
  if ch_err =? 0 then mret tt
  else
    ch ← chan_id;
    spin_lock (L_zchan ch);;
    for_ 32 0 (fun i =>
      c ← zchan;
      t ← array_get (ts_err c) i;
      when (Z.testbit ch_err i && (t =? 0))
        (j ← jiffies; upd_zchan (fun c => c<|ts_err ::= <[Z.to_nat i := j]>|>)));;
    mask_rx ← zchan_reg_read ZYNQ_CH_ERR_MASK_RX;
    mask_tx ← zchan_reg_read ZYNQ_CH_ERR_MASK_TX;
    zchan_reg_write ZYNQ_CH_ERR_MASK_RX (Z.lor mask_rx (Z.lor ch_err ZYNQ_CH_ERR_MASK_RX_DEFAULT));;
    zchan_reg_write ZYNQ_CH_ERR_MASK_TX (Z.lor mask_tx (Z.lor ch_err ZYNQ_CH_ERR_MASK_TX_DEFAULT));;
    upd_zchan (fun c => c<|watchdog_interval := 100|>);;
    spin_unlock (L_zchan ch);;
    zchan_watchdog_complete.

(** one entry of the scan of [zchan_err_unmask]: whether its throttling time
    is over *)
Definition err_expired (i : Z) : M chan_ctx bool :=
  c ← zchan;
  t ← array_get (ts_err c) i;
  if t =? 0 then mret false
  else
    j ← jiffies;
    if u64 (t + msecs_to_jiffies ZCHAN_ERR_THROTTLE) <=? j then
      upd_zchan (fun c => c<|ts_err ::= <[Z.to_nat i := 0]>|>);;
      mret true
    else mret false.
Fixpoint err_scan (n : nat) (i ch_err : Z) : M chan_ctx Z :=
  match n with
  | O => mret ch_err
  | S n' =>
      e ← err_expired i;
      err_scan n' (i + 1) (if (e : bool) then Z.lor ch_err (Z.shiftl 1 i) else ch_err)
  end.

(** unmask the errors whose throttling time is over *)
Definition zchan_err_unmask : M chan_ctx unit :=
  ch ← chan_id;
  spin_lock (L_zchan ch);;
  ch_err ← err_scan 32 0 0;
  if ch_err =? 0 then spin_unlock (L_zchan ch)
  else
    rx ← zchan_reg_read ZYNQ_CH_ERR_MASK_RX;
    tx ← zchan_reg_read ZYNQ_CH_ERR_MASK_TX;
    let mask_rx := Z.lor (Z.land rx (Z.lnot ch_err)) ZYNQ_CH_ERR_MASK_RX_DEFAULT in
    let mask_tx := Z.lor (Z.land tx (Z.lnot ch_err)) ZYNQ_CH_ERR_MASK_TX_DEFAULT in
    zchan_reg_write ZYNQ_CH_ERR_MASK_RX mask_rx;;
    zchan_reg_write ZYNQ_CH_ERR_MASK_TX mask_tx;;
    when ((mask_rx =? ZYNQ_CH_ERR_MASK_RX_DEFAULT) && (mask_tx =? ZYNQ_CH_ERR_MASK_TX_DEFAULT))
      (upd_zchan (fun c => c<|watchdog_interval := 1000|>));;
    spin_unlock (L_zchan ch).
End chan.

(** ** The transmit ring as a bounded queue *)

#[global] Instance tx_desc_inhabited : Inhabited zchan_tx_desc := populate (TxDesc 0 0).

(** the descriptors between head and tail, oldest first *)
Definition tx_queue (tx : zchan_tx_ring) : list zchan_tx_desc :=
  ring_list (zchan_tx_descp tx) (zchan_tx_num tx) (zchan_tx_head tx) (zchan_tx_tail tx).

(** an initialised ring: a power of two of descriptors, as many buffers, indices
    in range, at a bus address that leaves room for the ring *)
Record tx_wf (tx : zchan_tx_ring) : Prop := {
  tx_pow2 : exists k, 1 <= k <= 20 /\ zchan_tx_num tx = 2 ^ k;
  tx_ring_ok : ring_wf (zchan_tx_descp tx) (zchan_tx_num tx) (zchan_tx_head tx) (zchan_tx_tail tx);
  tx_bufs_ok : length (zchan_tx_bufs tx) = Z.to_nat (zchan_tx_num tx);
  tx_dma_ok : 0 <= zchan_tx_dma tx /\
              zchan_tx_dma tx + sizeof_tx_desc * zchan_tx_num tx < 2 ^ 64
}.

Definition ctx_tx (s : chan_ctx) : zchan_tx_ring := zchan_tx_ring_of (ch_zchan s).
Definition tx_full (tx : zchan_tx_ring) : Prop :=
  (zchan_tx_tail tx + 1) mod zchan_tx_num tx = zchan_tx_head tx.
#[global] Instance tx_full_dec tx : Decision (tx_full tx).
Proof. unfold tx_full. apply _. Defined.

(** the bus address of descriptor [i] *)
Definition desc_dma (tx : zchan_tx_ring) (i : Z) : Z := zchan_tx_dma tx + i * sizeof_tx_desc.

Section tx_lemmas.
Context `{Env} `{ModParams}.
Implicit Types w : world chan_ctx.

Lemma tx_num_bounds tx : tx_wf tx -> 2 <= zchan_tx_num tx <= 2 ^ 20.
Proof.
  intros [(k & Hk & ->) _ _ _]. split.
  - change 2 with (2 ^ 1) at 1. apply Z.pow_le_mono_r; lia.
  - apply Z.pow_le_mono_r; lia.
Qed.

Lemma tx_next_mod tx i :
  tx_wf tx -> 0 <= i < zchan_tx_num tx ->
  Z.land (u32 (i + 1)) (u32 (zchan_tx_num tx - 1)) = (i + 1) mod zchan_tx_num tx.
Proof.
  intros Hwf Hi. pose proof (tx_num_bounds _ Hwf).
  destruct Hwf as [(k & Hk & Hn) _ _ _].
  rewrite !u32_small by lia. apply land_mask_mod with k; [lia | done].
Qed.

(** the head read from the hardware is always an index of the ring *)
Lemma wp_tx_read_head w (Q : Z -> world chan_ctx -> Prop) :
  zynq_bringup_param = false ->
  0 <= zchan_tx_head (ctx_tx (w_st w)) < zchan_tx_num (ctx_tx (w_st w)) ->
  (forall h hi lo,
     let tx := ctx_tx (w_st w) in
     let reg := zchan_reg (ch_zchan (w_st w)) in
     let w1 := emit (Ev (MmioRead (addr_add reg ZYNQ_CH_TX_HEAD_HI)) hi) w in
     let dma := Z.lor (u64 (Z.shiftl (u32 hi) 32)) (u32 lo) in
     hi = env_ret (w_log w) (MmioRead (addr_add reg ZYNQ_CH_TX_HEAD_HI)) ->
     lo = env_ret (w_log w1) (MmioRead (addr_add reg ZYNQ_CH_TX_HEAD_LO)) ->
     0 <= h < zchan_tx_num tx ->
     h = (if (zchan_tx_dma tx <=? dma)
             && (u32 ((dma - zchan_tx_dma tx) / sizeof_tx_desc) <? zchan_tx_num tx)
          then u32 ((dma - zchan_tx_dma tx) / sizeof_tx_desc) else zchan_tx_head tx) ->
     Q h (emit (Ev (MmioRead (addr_add reg ZYNQ_CH_TX_HEAD_LO)) lo) w1)) ->
  wp zchan_tx_read_head Q w.
Proof.
  intros Hb Hh HQ. unfold zchan_tx_read_head, tx_ring. unfold ctx_tx in *.
  dev_steps; (eapply HQ; [by eauto | by eauto | |]); try done;
    try (split; [apply u32_range | by apply Z.leb_gt]).
  - rewrite E. simpl. apply Z.leb_le in E0. by apply Z.ltb_ge in E0 as ->.
  - rewrite E. simpl. apply Z.leb_gt in E0. by apply Z.ltb_lt in E0 as ->.
  - by rewrite E.
Qed.

(** what a transmission does to the ring *)
Definition tx_pushed (tx : zchan_tx_ring) (msgsz : Z) (zb : zchan_buf) : zchan_tx_ring :=
  tx<|zchan_tx_descp ::= <[Z.to_nat (zchan_tx_tail tx) := TxDesc msgsz (zchan_buf_dma zb)]>|>
    <|zchan_tx_tail := (zchan_tx_tail tx + 1) mod zchan_tx_num tx|>.

Lemma tx_pushed_wf tx msgsz zb : tx_wf tx -> tx_wf (tx_pushed tx msgsz zb).
Proof.
  intros Hwf. pose proof (tx_num_bounds _ Hwf). destruct Hwf as [Hk (Hn & Hl & Hh & Ht) Hb Hd].
  split; cbn; try done.
  unfold ring_wf. rewrite length_insert.
  pose proof (Z.mod_pos_bound (zchan_tx_tail tx + 1) (zchan_tx_num tx)). lia.
Qed.

Lemma tx_pushed_queue tx msgsz zb :
  tx_wf tx -> ~ tx_full tx ->
  tx_queue (tx_pushed tx msgsz zb) = tx_queue tx ++ [TxDesc msgsz (zchan_buf_dma zb)].
Proof. intros [_ Hr _ _] Hf. unfold tx_queue. cbn. by apply ring_list_push. Qed.

(** [zchan_tx_one_msg] on an initialised ring *)
Lemma wp_tx_one_msg msg msgsz w (Q : Z -> world chan_ctx -> Prop) :
  zynq_bringup_param = false ->
  let s := w_st w in
  let tx := ctx_tx s in
  let ch := zchan_num (ch_zchan s) in
  let reg := zchan_reg (ch_zchan s) in
  tx_wf tx ->
  L_zchan_tx ch ∉ w_held w ->
  (zchan_tx_bufsz tx < msgsz -> Q BCAN_FAIL w) ->
  (msgsz <= zchan_tx_bufsz tx -> tx_full tx ->
     Q BCAN_DEV_BUSY (World (Ev (SpinUnlock (L_zchan_tx ch)) 0
                       :: Ev (SpinLock (L_zchan_tx ch)) 0 :: w_log w) (w_held w) s)) ->
  (msgsz <= zchan_tx_bufsz tx -> ~ tx_full tx ->
     forall zb, zchan_tx_bufs tx !! Z.to_nat (zchan_tx_tail tx) = Some zb ->
     let tx' := tx_pushed tx msgsz zb in
     let dma := desc_dma tx (zchan_tx_tail tx') in
     Q 0 (World
       (Ev (SpinUnlock (L_zchan_tx ch)) 0
        :: Ev (MmioWrite (addr_add reg ZYNQ_CH_TX_TAIL_LO) (LO32 dma)) 0
        :: Ev (MmioWrite (addr_add reg ZYNQ_CH_TX_TAIL_HI) (HI32 dma)) 0
        :: Ev (DmaSync (zchan_buf_dma zb) msgsz) 0
        :: Ev (DmaStore (zchan_bufp zb) msg) 0
        :: Ev (SpinLock (L_zchan_tx ch)) 0 :: w_log w)
       (w_held w)
       (s<|ch_zchan ::= fun c => stats_upd (stats_inc_at CHAN_STATS_TX 1)
             (c<|zchan_tx_ring_of := tx'|>)|>))) ->
  wp (zchan_tx_one_msg msg msgsz) Q w.
Proof.
  intros Hb s tx ch reg Hwf Hlk Hbig Hfull Hok.
  pose proof (tx_num_bounds _ Hwf) as Hnum.
  pose proof (tx_ring_ok _ Hwf) as (Hn & Hl & Hh & Ht).
  pose proof (tx_next_mod tx (zchan_tx_tail tx) Hwf Ht) as Hnext.
  pose proof (Z.mod_pos_bound (zchan_tx_tail tx + 1) (zchan_tx_num tx) ltac:(lia)) as Hm.
  unfold zchan_tx_one_msg, tx_ring, chan_id. dev_steps;
    change (zchan_tx_ring_of (ch_zchan (w_st w))) with tx in *;
    change (zchan_num (ch_zchan (w_st w))) with ch in *.
  - apply Hbig. by apply Z.ltb_lt.
  - rewrite Hnext in *. apply Hfull; [by apply Z.ltb_ge | by apply Z.eqb_eq].
  - rewrite Hnext in *. apply Z.ltb_ge in E. apply Z.eqb_neq in E0.
    destruct (zlookup_Some (zchan_tx_bufs tx) (zchan_tx_tail tx)) as [zb Hzb];
      [rewrite (tx_bufs_ok _ Hwf); lia |].
    destruct (zlookup_Some (zchan_tx_descp tx) (zchan_tx_tail tx)) as [d Hd]; [rewrite Hl; lia |].
    apply wp_array_get. exists zb. split; [done |]. dev_steps.
    apply wp_array_get. exists d. split; [done |].
    unfold upd_tx, zchan_tx_write_tail, tx_ring. dev_steps.
    + cbn in E1. apply Z.leb_le in E1. change (zchan_tx_ring_of (ch_zchan (w_st w))) with tx in *. lia.
    + unfold upd_tx. dev_steps. rewrite u32_HI32, u32_LO32.
      cbn [zchan_tx_dma zchan_tx_ring_of ch_zchan fset].
      change (zchan_tx_ring_of (ch_zchan (w_st w))) with tx in *.
      rewrite u64_small by (pose proof (tx_dma_ok _ Hwf); unfold sizeof_tx_desc in *; lia).
      rewrite zlookup_nonneg in Hzb by lia. exact (Hok E E0 zb Hzb).
Qed.

(** the descriptors walked over from [head] to [idx] are cleared, the others
    are as before *)
Definition cleared (l l' : list zchan_tx_desc) (num head idx : Z) : Prop :=
  length l' = length l /\
  forall i, 0 <= i < num ->
    l' !!! Z.to_nat i =
      if ring_len num head i <? ring_len num head idx
      then (l !!! Z.to_nat i)<|tx_addr := 0|> else l !!! Z.to_nat i.

Lemma cleared_refl l num head : 0 <= head < num -> cleared l l num head head.
Proof.
  intros Hh. split; [done |]. intros i Hi. rewrite (ring_len_same num head).
  pose proof (ring_len_range num head i ltac:(lia)).
  by destruct (Z.ltb_spec (ring_len num head i) 0); [lia |].
Qed.

Lemma cleared_step l l' num head idx d :
  1 < num -> length l = Z.to_nat num -> 0 <= head < num -> 0 <= idx < num ->
  ring_len num head ((idx + 1) mod num) = ring_len num head idx + 1 ->
  cleared l l' num head idx -> l' !! Z.to_nat idx = Some d ->
  cleared l (<[Z.to_nat idx := d<|tx_addr := 0|>]> l') num head ((idx + 1) mod num).
Proof.
  intros Hn Hl Hh Hidx Hstep [Hlen Hc] Hd. split; [by rewrite length_insert |].
  intros i Hi. rewrite Hstep. destruct (Z.eq_dec i idx) as [->|Hne].
  - rewrite list_lookup_total_insert_eq by lia.
    specialize (Hc idx Hidx). rewrite (list_lookup_total_correct _ _ _ Hd) in Hc.
    rewrite Z.ltb_irrefl in Hc. subst d.
    by destruct (Z.ltb_spec (ring_len num head idx) (ring_len num head idx + 1)); [| lia].
  - rewrite list_lookup_total_insert_ne by lia. rewrite Hc by done.
    assert (ring_len num head i <> ring_len num head idx) by
      (intros Heq; apply Hne; by apply (ring_len_inj num head)).
    case_cmp; (done || lia).
Qed.

Lemma descp_same (s : chan_ctx) :
  s<|ch_zchan ::= fun c => c<|zchan_tx_ring_of ::=
      fun tx => tx<|zchan_tx_descp := zchan_tx_descp (ctx_tx s)|>|>|> = s.
Proof. by destruct s as [d [? ? ? [] ? ? ? ? ? ?]]. Qed.

(** the clearing loop of [zchan_tx_done], from [head] to an index [new] of the
    ring *)
Lemma wp_tx_clear_loop (w : world chan_ctx) new (Q : unit -> world chan_ctx -> Prop) :
  let s := w_st w in
  let tx := ctx_tx s in
  let num := zchan_tx_num tx in
  tx_wf tx -> 0 <= new < num ->
  (forall l', cleared (zchan_tx_descp tx) l' num (zchan_tx_head tx) new ->
     Q tt (World (w_log w) (w_held w)
       (s<|ch_zchan ::= fun c => c<|zchan_tx_ring_of ::= fun tx => tx<|zchan_tx_descp := l'|>|>|>))) ->
  wp (loop (S (Z.to_nat num))
      (fun idx =>
         if idx =? new then mret (inr tt)
         else
           tx ← tx_ring;
           descp ← array_get (zchan_tx_descp tx) idx;
           upd_tx (fun tx => tx<|zchan_tx_descp ::=
             <[Z.to_nat idx := descp<|tx_addr := 0|>]>|>);;
           mret (inl (Z.land (idx + 1) (u32 (num - 1)))))
      (zchan_tx_head tx)) Q w.
Proof.
  intros s tx num Hwf Hnew HQ.
  pose proof (tx_num_bounds _ Hwf) as Hnum. fold num in Hnum.
  pose proof (tx_ring_ok _ Hwf) as (Hn & Hl & Hh & Ht). fold num in Hn, Hl, Hh, Ht.
  set (head := zchan_tx_head tx) in *.
  apply (wp_loop (fun idx v =>
      0 <= idx < num /\
      ring_len num head idx + ring_len num idx new = ring_len num head new /\
      exists l', cleared (zchan_tx_descp tx) l' num head idx /\
        v = World (w_log w) (w_held w)
          (s<|ch_zchan ::= fun c => c<|zchan_tx_ring_of ::= fun tx => tx<|zchan_tx_descp := l'|>|>|>))
    (fun idx _ => Z.to_nat (ring_len num idx new))).
  - rewrite ring_len_same. split; [done |]. split; [done |].
    exists (zchan_tx_descp tx). split; [by apply cleared_refl |].
    transitivity (World (w_log w) (w_held w) s); [by destruct w |].
    f_equal. symmetry. apply descp_same.
  - pose proof (ring_len_range num head new). lia.
  - intros idx v (Hidx & Hw & l' & Hc & ->).
    destruct (Z.eqb_spec idx new) as [->|Hne].
    + apply wp_ret. by apply HQ.
    + unfold tx_ring, upd_tx. dev_steps. cbn.
      destruct (zlookup_Some l' idx) as [d Hd]; [destruct Hc as [-> _]; lia |].
      apply wp_array_get. exists d. split; [done |]. dev_steps.
      assert (Z.land (idx + 1) (u32 (num - 1)) = (idx + 1) mod num) as ->.
      { pose proof (tx_next_mod tx idx Hwf Hidx) as Hx. fold num in Hx.
        rewrite (u32_small (idx + 1)) in Hx by lia. exact Hx. }
      assert (ring_len num head ((idx + 1) mod num) = ring_len num head idx + 1) as Hstep
        by (by apply (ring_len_walk num head idx new)).
      assert (ring_len num ((idx + 1) mod num) new = ring_len num idx new - 1) as Hstep'
        by (by apply ring_len_step).
      assert (0 < ring_len num idx new)
        by (rewrite ring_len_cases by lia; case_cmp; lia).
      split; [| lia]. split; [apply Z.mod_pos_bound; lia |]. split; [lia |].
      eexists. split; [| reflexivity].
      rewrite zlookup_nonneg in Hd by lia. by apply (cleared_step _ l').
Qed.

(** the queue left after the first [k] descriptors are freed *)
Lemma cleared_queue l l' num head tail k :
  ring_wf l num head tail -> 0 <= k <= ring_len num head tail ->
  cleared l l' num head ((head + k) mod num) ->
  ring_list l' num ((head + k) mod num) tail = drop (Z.to_nat k) (ring_list l num head tail).
Proof.
  intros (Hn & Hl & Hh & Ht) Hk [Hlen Hc].
  rewrite <- ring_list_drop by (done || lia).
  unfold ring_list. apply list_fmap_ext. intros i j Hij.
  apply lookup_seq in Hij as [-> Hij]. unfold ring_at.
  pose proof (ring_len_range num head tail ltac:(lia)).
  rewrite ring_len_drop in Hij by lia.
  rewrite Zplus_mod_idemp_l.
  rewrite Hc by (apply Z.mod_pos_bound; lia).
  replace (head + k + Z.of_nat (0 + i)) with (head + (k + Z.of_nat i)) by lia.
  rewrite !ring_len_at by lia. by destruct (Z.ltb_spec (k + Z.of_nat i) k); [lia |].
Qed.

(** what freeing the descriptors before [new] does to the ring *)
Definition tx_freed (tx tx' : zchan_tx_ring) (new : Z) : Prop :=
  exists l', cleared (zchan_tx_descp tx) l' (zchan_tx_num tx) (zchan_tx_head tx) new /\
    tx' = tx<|zchan_tx_descp := l'|><|zchan_tx_head := new|>.

Lemma tx_freed_wf tx tx' new :
  tx_wf tx -> 0 <= new < zchan_tx_num tx -> tx_freed tx tx' new -> tx_wf tx'.
Proof.
  intros [Hk (Hn & Hl & Hh & Ht) Hb Hd] Hnew (l' & [Hlen Hc] & ->).
  split; cbn; try done. unfold ring_wf. by rewrite Hlen.
Qed.

Lemma tx_freed_queue tx tx' k :
  tx_wf tx -> 0 <= k <= ring_len (zchan_tx_num tx) (zchan_tx_head tx) (zchan_tx_tail tx) ->
  tx_freed tx tx' ((zchan_tx_head tx + k) mod zchan_tx_num tx) ->
  tx_queue tx' = drop (Z.to_nat k) (tx_queue tx).
Proof.
  intros [_ Hr _ _] Hk (l' & Hc & ->). unfold tx_queue. cbn. by apply cleared_queue.
Qed.

(** [zchan_tx_done] frees up to the head read, or does nothing *)
Lemma wp_tx_done (w : world chan_ctx) (Q : unit -> world chan_ctx -> Prop) :
  zynq_bringup_param = false ->
  let s := w_st w in
  let tx := ctx_tx s in
  let reg := zchan_reg (ch_zchan s) in
  tx_wf tx ->
  (forall hi lo new tx',
     let w1 := emit (Ev (MmioRead (addr_add reg ZYNQ_CH_TX_HEAD_HI)) hi) w in
     let w2 := emit (Ev (MmioRead (addr_add reg ZYNQ_CH_TX_HEAD_LO)) lo) w1 in
     let dma := Z.lor (u64 (Z.shiftl (u32 hi) 32)) (u32 lo) in
     hi = env_ret (w_log w) (MmioRead (addr_add reg ZYNQ_CH_TX_HEAD_HI)) ->
     lo = env_ret (w_log w1) (MmioRead (addr_add reg ZYNQ_CH_TX_HEAD_LO)) ->
     0 <= new < zchan_tx_num tx ->
     new = (if (zchan_tx_dma tx <=? dma)
               && (u32 ((dma - zchan_tx_dma tx) / sizeof_tx_desc) <? zchan_tx_num tx)
            then u32 ((dma - zchan_tx_dma tx) / sizeof_tx_desc) else zchan_tx_head tx) ->
     tx_freed tx tx' new ->
     (new = zchan_tx_head tx -> tx' = tx) ->
     Q tt (World (w_log w2) (w_held w) (s<|ch_zchan ::= fun c => c<|zchan_tx_ring_of := tx'|>|>))) ->
  wp zchan_tx_done Q w.
Proof.
  intros Hb s tx reg Hwf HQ. pose proof (tx_ring_ok _ Hwf) as (Hn & Hl & Hh & Ht).
  unfold zchan_tx_done, tx_ring. dev_steps. apply wp_tx_read_head; [done | done |].
  intros new hi lo tx0 reg0 w1 dma Hhi Hlo Hnew Hval.
  assert (tx' : tx<|zchan_tx_descp := zchan_tx_descp tx|><|zchan_tx_head := zchan_tx_head tx|> = tx)
    by (by destruct tx).
  destruct (Z.eqb_spec (zchan_tx_head (zchan_tx_ring_of (ch_zchan (w_st w)))) new) as [He|Hne].
  - apply wp_ret.
    specialize (HQ hi lo new tx Hhi Hlo Hnew Hval).
    assert (tx_freed tx tx new) as Hf.
    { rewrite <- He. exists (zchan_tx_descp tx). split; [by apply cleared_refl | done]. }
    specialize (HQ Hf (fun _ => eq_refl)).
    assert (s<|ch_zchan ::= fun c => c<|zchan_tx_ring_of := tx|>|> = s) as Hs
      by (unfold tx, s; by destruct (w_st w) as [? []]).
    rewrite Hs in HQ. exact HQ.
  - apply wp_bind.
    apply (wp_tx_clear_loop (emit (Ev (MmioRead (addr_add reg0 ZYNQ_CH_TX_HEAD_LO)) lo) w1) new);
      [exact Hwf | exact Hnew |].
    intros l' Hc. unfold upd_tx. dev_steps.
    specialize (HQ hi lo new (tx<|zchan_tx_descp := l'|><|zchan_tx_head := new|>) Hhi Hlo Hnew Hval).
    apply HQ; [by exists l' | intros ->; by destruct Hne].
Qed.
End tx_lemmas.

(** ** Properties of the transmit ring *)
Section tx_properties.
Context `{Env} `{ModParams}.

(** C3: transmitting on an initialised descriptor ring is the push of a bounded
    queue.  A message larger than a buffer is refused with nothing done; on
    a full ring the call reports busy and neither the ring nor the device is
    touched; otherwise the message is appended as a descriptor of the tail buffer,
    and the message is stored and synchronised for the device before the
    tail register is written.  In every case the ring stays well formed and
    the ring lock is released. *)
Theorem tx_ring_enqueue (w : world chan_ctx) (msg : list Z) (msgsz : Z)
    (Hb : zynq_bringup_param = false) (Hwf : tx_wf (ctx_tx (w_st w)))
    (Hlk : L_zchan_tx (zchan_num (ch_zchan (w_st w))) ∉ w_held w) :
  let tx := ctx_tx (w_st w) in
  let ch := zchan_num (ch_zchan (w_st w)) in
  let reg := zchan_reg (ch_zchan (w_st w)) in
  wp (zchan_tx_one_msg msg msgsz) (fun rc w' =>
    let tx' := ctx_tx (w_st w') in
    tx_wf tx' /\ w_held w' = w_held w /\
    (zchan_tx_bufsz tx < msgsz -> rc = BCAN_FAIL /\ w' = w) /\
    (msgsz <= zchan_tx_bufsz tx -> tx_full tx ->
       rc = BCAN_DEV_BUSY /\ w_st w' = w_st w /\ mmio_writes (w_log w') = mmio_writes (w_log w)) /\
    (msgsz <= zchan_tx_bufsz tx -> ~ tx_full tx ->
       rc = 0 /\
       exists zb, zchan_tx_bufs tx !! Z.to_nat (zchan_tx_tail tx) = Some zb /\
         tx_queue tx' = tx_queue tx ++ [TxDesc msgsz (zchan_buf_dma zb)] /\
         emits w
           [Ev (SpinLock (L_zchan_tx ch)) 0;
            Ev (DmaStore (zchan_bufp zb) msg) 0;
            Ev (DmaSync (zchan_buf_dma zb) msgsz) 0;
            Ev (MmioWrite (addr_add reg ZYNQ_CH_TX_TAIL_HI) (HI32 (desc_dma tx (zchan_tx_tail tx')))) 0;
            Ev (MmioWrite (addr_add reg ZYNQ_CH_TX_TAIL_LO) (LO32 (desc_dma tx (zchan_tx_tail tx')))) 0;
            Ev (SpinUnlock (L_zchan_tx ch)) 0] w')) w.
Proof.
  intros tx ch reg. apply wp_tx_one_msg; try done; fold tx.
  - intros Hbig. split_and!; try done; intros; lia.
  - intros Hsz Hfull. split_and!; try done. intros; lia.
  - intros Hsz Hfull zb Hzb tx' dma. split_and!; try done; try (intros; lia).
    + by apply tx_pushed_wf.
    + intros _ _. split; [done |]. exists zb. split_and!; [done | | done].
      by apply tx_pushed_queue.
Qed.

(** C4: when the device reports the bus address of the descriptor [k] places
    after the head, [zchan_tx_done] removes exactly the [k] oldest
    descriptors from the queue, clears their addresses, leaves the rest
    alone and writes no register. *)
Theorem tx_ring_complete (w : world chan_ctx) (k : Z)
    (Hb : zynq_bringup_param = false) (Hwf : tx_wf (ctx_tx (w_st w)))
    (Hk : 0 <= k <= Z.of_nat (length (tx_queue (ctx_tx (w_st w))))) :
  let tx := ctx_tx (w_st w) in
  let reg := zchan_reg (ch_zchan (w_st w)) in
  let new := (zchan_tx_head tx + k) mod zchan_tx_num tx in
  forall (Hhi : env_ret (w_log w) (MmioRead (addr_add reg ZYNQ_CH_TX_HEAD_HI))
                = HI32 (desc_dma tx new))
         (Hlo : forall r, env_ret (Ev (MmioRead (addr_add reg ZYNQ_CH_TX_HEAD_HI)) r :: w_log w)
                  (MmioRead (addr_add reg ZYNQ_CH_TX_HEAD_LO)) = LO32 (desc_dma tx new)),
  wp zchan_tx_done (fun _ w' =>
    let tx' := ctx_tx (w_st w') in
    tx_wf tx' /\ tx_queue tx' = drop (Z.to_nat k) (tx_queue tx) /\
    (forall i, 0 <= i < zchan_tx_num tx ->
       zchan_tx_descp tx' !!! Z.to_nat i =
         let d := zchan_tx_descp tx !!! Z.to_nat i in
         if ring_len (zchan_tx_num tx) (zchan_tx_head tx) i <? k then d<|tx_addr := 0|> else d) /\
    w_held w' = w_held w /\ mmio_writes (w_log w') = mmio_writes (w_log w)) w.
Proof.
  intros tx reg new Hhi Hlo. pose proof (tx_num_bounds _ Hwf) as Hnum. fold tx in Hnum.
  pose proof Hwf as [_ (Hn & Hl & Hh & Ht) _ Hdma]. fold tx in Hn, Hl, Hh, Ht, Hdma.
  unfold tx_queue in Hk. fold tx in Hk.
  pose proof (ring_len_range (zchan_tx_num tx) (zchan_tx_head tx) (zchan_tx_tail tx)) as Hr.
  rewrite ring_list_length, Z2Nat.id in Hk by lia.
  assert (0 <= new < zchan_tx_num tx) as Hnewr by (apply Z.mod_pos_bound; lia).
  apply wp_tx_done; [done | done |].
  intros hi lo new' tx' w1 w2 dma Ehi Elo Hnew Hval Hf _.
  assert (new' = new) as ->.
  { rewrite Hval. unfold dma. fold tx.
    assert (lo = LO32 (desc_dma tx new)) as -> by (rewrite Elo; apply Hlo).
    assert (hi = HI32 (desc_dma tx new)) as -> by (rewrite Ehi; apply Hhi).
    rewrite u32_HI32, u32_LO32.
    assert (0 <= desc_dma tx new < 2 ^ 64) by (unfold desc_dma, sizeof_tx_desc in *; lia).
    rewrite u64_small.
    2:{ unfold HI32. pose proof (u32_range (Z.shiftr (u64 (desc_dma tx new)) 32)).
        rewrite Z.shiftl_mul_pow2 by lia. lia. }
    rewrite HI_LO_32 by done. unfold desc_dma at 1 2 3.
    replace (zchan_tx_dma tx + new * sizeof_tx_desc - zchan_tx_dma tx)
      with (new * sizeof_tx_desc) by lia.
    rewrite Z.div_mul by done. rewrite u32_small by lia.
    assert ((zchan_tx_dma tx <=? zchan_tx_dma tx + new * sizeof_tx_desc) = true) as ->
      by (apply Z.leb_le; unfold sizeof_tx_desc; lia).
    assert ((new <? zchan_tx_num tx) = true) as -> by (apply Z.ltb_lt; lia). done. }
  cbn [w_st w_held w_log]. change (ctx_tx _) with tx'.
  split_and!; try done.
  - by apply (tx_freed_wf tx tx' new).
  - by apply (tx_freed_queue tx tx' k).
  - destruct Hf as (l' & [_ Hc] & ->). cbn. intros i Hi. rewrite Hc by done.
    unfold new. by rewrite ring_len_at by lia.
Qed.

(** C5: whatever bus address [dma] the device reports for its head, [zchan_tx_done]
    returns without an access out of range and does this: the index of the
    descriptor at [dma], cut to 32 bits as in the code, becomes the head when
    [dma] is not below the ring and the index is one of the ring, and the
    descriptors from the old head up to it are cleared; otherwise the head
    stays.  Nothing else changes, and nothing at all when the head is the old
    one.  So every address below the ring or up to 2^36 bytes behind its start
    is ignored; from there on the cut makes addresses count modulo 2^36. *)
Theorem tx_done_any_head (w : world chan_ctx)
    (Hb : zynq_bringup_param = false) (Hwf : tx_wf (ctx_tx (w_st w))) :
  let tx := ctx_tx (w_st w) in
  let num := zchan_tx_num tx in
  let head := zchan_tx_head tx in
  let base := zchan_tx_dma tx in
  let reg := zchan_reg (ch_zchan (w_st w)) in
  wp zchan_tx_done (fun _ w' =>
    tx_wf (ctx_tx (w_st w')) /\ w_held w' = w_held w /\
    exists hi lo descs,
      emits w [Ev (MmioRead (addr_add reg ZYNQ_CH_TX_HEAD_HI)) hi;
               Ev (MmioRead (addr_add reg ZYNQ_CH_TX_HEAD_LO)) lo] w' /\
      let dma := u32 hi * 2 ^ 32 + u32 lo in
      let idx := (dma - base) / 16 mod 2 ^ 32 in
      let new := if (base <=? dma) && (idx <? num) then idx else head in
      w_st w' = (w_st w)<|ch_zchan ::= fun c => c<|zchan_tx_ring_of :=
                  tx<|zchan_tx_descp := descs|><|zchan_tx_head := new|>|>|> /\
      (forall i, 0 <= i < num ->
         let d := zchan_tx_descp tx !!! Z.to_nat i in
         descs !!! Z.to_nat i =
           if (i - head) mod num <? (new - head) mod num then d<|tx_addr := 0|> else d) /\
      (new = head -> w_st w' = w_st w) /\
      (dma < base \/ desc_dma tx num <= dma < base + 2 ^ 36 -> w_st w' = w_st w)) w.
Proof.
  intros tx num head base reg. pose proof (tx_num_bounds _ Hwf) as Hnum. fold tx num in Hnum.
  apply wp_tx_done; [done | done |].
  intros hi lo new tx' w1 w2 dma _ _ Hnew Hval Hf Hsame. fold tx num in Hnew, Hval, Hf, Hsame.
  split_and!; [by apply (tx_freed_wf tx tx' new) | done |].
  destruct Hf as (l' & [_ Hc] & ->).
  exists hi, lo, l'. split; [reflexivity |]. cbv zeta. cbn [w_st].
  assert (dma = u32 hi * 2 ^ 32 + u32 lo) as <-.
  { unfold dma. pose proof (u32_range hi). pose proof (u32_range lo).
    rewrite u64_small by (rewrite Z.shiftl_mul_pow2 by lia; lia).
    by rewrite lor_shiftl_add by lia. }
  assert ((if (base <=? dma) && ((dma - base) / 16 mod 2 ^ 32 <? num)
           then (dma - base) / 16 mod 2 ^ 32 else head) = new) as -> by exact (eq_sym Hval).
  assert (Hst : new = head -> (w_st w)<|ch_zchan ::= fun c => c<|zchan_tx_ring_of :=
      tx<|zchan_tx_descp := l'|><|zchan_tx_head := new|>|>|> = w_st w).
  { intros Hs. rewrite (Hsame Hs). unfold tx. by destruct (w_st w) as [? []]. }
  split_and!; [done | intros i Hi; by rewrite Hc by done | done |].
  intros Hout. apply Hst. rewrite Hval. destruct Hout as [Ho|Ho].
  - assert ((zchan_tx_dma tx <=? dma) = false) as -> by (apply Z.leb_gt; lia). done.
  - unfold desc_dma, sizeof_tx_desc, base in *.
    assert (num <= (dma - zchan_tx_dma tx) / 16) by (apply Z.div_le_lower_bound; lia).
    assert ((dma - zchan_tx_dma tx) / 16 < 2 ^ 32) by (apply Z.div_lt_upper_bound; lia).
    rewrite u32_small by lia.
    assert (((dma - zchan_tx_dma tx) / 16 <? num) = false) as -> by (apply Z.ltb_ge; lia).
    by rewrite andb_false_r.
Qed.
End tx_properties.

(** ** Witnesses: a ring of four descriptors *)
Module ChanWitness.
#[local] Existing Instance params_default.

Definition ring4 (head tail : Z) : zchan_tx_ring := {|
  zchan_tx_descp := [TxDesc 16 0x10000; TxDesc 16 0x11000; TxDesc 16 0x12000; TxDesc 16 0x13000];
  zchan_tx_descp_va := 0x5000; zchan_tx_dma := 0x8000; zchan_tx_size := 64; zchan_tx_num := 4;
  zchan_tx_head := head; zchan_tx_tail := tail; zchan_tx_bufsz := 4096;
  zchan_tx_bufs := [ZchanBuf 1 0 0x10000; ZchanBuf 2 0 0x11000; ZchanBuf 3 0 0x12000;
                    ZchanBuf 4 0 0x13000];
  zchan_tx_bufp := 0x6000
|}.
Definition world4 (head tail : Z) : world chan_ctx :=
  World [] [] (ChanCtx zdev_sample (zchan_sample<|zchan_tx_ring_of := ring4 head tail|>)).

Lemma ring4_wf head tail : 0 <= head < 4 -> 0 <= tail < 4 -> tx_wf (ring4 head tail).
Proof.
  intros. split; cbn [zchan_tx_num zchan_tx_descp zchan_tx_head zchan_tx_tail zchan_tx_bufs
    zchan_tx_dma ring4].
  - exists 2. split; [lia | done].
  - unfold ring_wf. cbn [length]. lia.
  - done.
  - unfold sizeof_tx_desc. lia.
Qed.

Example tx_ring_enqueue_witness :
  wp (zchan_tx_one_msg [1; 2; 3; 4] 16) (fun rc w' =>
    rc = 0 /\ length (tx_queue (ctx_tx (w_st w'))) = 3%nat) (world4 3 1).
Proof.
  eapply wp_mono.
  - apply (tx_ring_enqueue (world4 3 1) [1; 2; 3; 4] 16); [reflexivity | |].
    + apply ring4_wf; lia.
    + apply not_elem_of_nil.
  - intros rc w' (_ & _ & _ & _ & Hok).
    destruct Hok as (-> & zb & _ & Hq & _).
    + cbn; lia.
    + vm_compute; discriminate.
    + split; [reflexivity |]. rewrite Hq. reflexivity.
Defined.

(** the device reports the bus address of descriptor 1: two were sent *)
Definition env_head1 : Env := fun _ c =>
  match c with
  | MmioRead (_, off) => if off =? 0xA00 + ZYNQ_CH_TX_HEAD_LO then 0x8010 else 0
  | _ => 0
  end.

Example tx_ring_complete_witness :
  wp (zchan_tx_done (H := env_head1)) (fun _ w' =>
    tx_queue (ctx_tx (w_st w')) = [TxDesc 16 0x11000]) (world4 3 2).
Proof.
  eapply wp_mono.
  - apply (tx_ring_complete (world4 3 2) 2); [reflexivity | | | |].
    + apply ring4_wf; lia.
    + vm_compute. split; discriminate.
    + reflexivity.
    + reflexivity.
  - intros rc w' (_ & Hq & _). rewrite Hq. reflexivity.
Defined.

Example tx_done_any_head_witness :
  wp (zchan_tx_done (H := env_zero)) (fun _ w' =>
    tx_wf (ctx_tx (w_st w')) /\ zchan_tx_bufs (ctx_tx (w_st w')) = zchan_tx_bufs (ring4 3 2)) (world4 3 2).
Proof.
  eapply wp_mono.
  - apply (tx_done_any_head (world4 3 2)); [reflexivity |]. apply ring4_wf; lia.
  - intros rc w' (Hwf & _ & hi & lo & descs & _ & Hst & _). split; [exact Hwf |]. by rewrite Hst.
Defined.

(** the device reports an address 2^36 bytes behind descriptor 1, far outside the ring *)
Definition env_head_far : Env := fun l c =>
  match c with
  | MmioRead (_, off) => if off =? 0xA00 + ZYNQ_CH_TX_HEAD_HI then 16 else env_head1 l c
  | _ => 0
  end.

(** ... and is believed: two descriptors are freed *)
Example far_head_accepted :
  exists w', zchan_tx_done (H := env_head_far) (world4 3 2) = Ret tt w' /\
    zchan_tx_head (ctx_tx (w_st w')) = 1.
Proof. eexists. split; vm_compute; reflexivity. Qed.
End ChanWitness.
