(* ===== verification/CanChip.v ===== *)
(** * CAN IP control ([basa_can.c]): reset, start, stop, mode and baud rate,
    error statistics, register dumps

    The driver keeps in [zcan_pio_state] what it last did to the software reset
    register of the IP: the CAN core is enabled ([CEN]) exactly in state START. *)

From S2P Require Import Device.

(** ** Definitions *)

Definition ZCAN_PIO_TX_RETRIES : Z := 500.
Definition ZCAN_PIO_WAIT_US_MIN : Z := 150.
Definition ZCAN_PIO_WAIT_US_MAX : Z := 260.
Definition ZCAN_PIO_STOP_DELAY : Z := 100.

(** prescaler values, in the order of [enum zynq_baudrate_val] *)
Definition brpr_reg_val : list Z :=
  [ZCAN_IP_BRPR_1M; ZCAN_IP_BRPR_500K; ZCAN_IP_BRPR_250K; ZCAN_IP_BRPR_125K].

(** registers dumped for debugging *)
Definition can_ip_dbg_reg : list Z :=
  [ZCAN_IP_SRR; ZCAN_IP_MSR; ZCAN_IP_BRPR; ZCAN_IP_BTR; ZCAN_IP_ECR; ZCAN_IP_ESR;
   ZCAN_IP_SR; ZCAN_IP_ISR; ZCAN_IP_IER; ZCAN_IP_ICR; ZCAN_IP_AFR; ZCAN_IP_PIO_STATUS].
Definition can_ip_new_dbg_reg : list Z := [ZCAN_IP_CFG0; ZCAN_IP_DBG_CNT0; ZCAN_IP_DBG_CNT1].
Definition chan_dbg_reg : list Z := [ZYNQ_CH_ERR_STATUS].
Definition chan_new_dbg_reg : list Z := [ZYNQ_CH_ERR_MASK_TX; ZYNQ_CH_ERR_MASK_RX].
Definition g_dbg_reg : list Z :=
  [ZYNQ_G_VERSION; ZYNQ_G_STATUS; ZYNQ_G_INTR_STATUS_TX; ZYNQ_G_INTR_STATUS_RX;
   ZYNQ_G_PS_INTR_STATUS].
Definition g_new_dbg_reg : list Z :=
  [ZYNQ_G_DEBUG_CFG0; ZYNQ_G_DEBUG_CFG1; ZYNQ_G_DEBUG_CFG2; ZYNQ_G_DEBUG_CFG3;
   ZYNQ_G_DEBUG_STA0; ZYNQ_G_DEBUG_STA1; ZYNQ_G_DEBUG_STA2; ZYNQ_G_DEBUG_STA3;
   ZYNQ_G_DEBUG_CNT_CFG; ZYNQ_G_DEBUG_CNT0; ZYNQ_G_DEBUG_CNT1; ZYNQ_G_DEBUG_CNT2].

(** the statistic each error bit is counted under, in the order tested *)
Definition can_err_stats : list (Z * Z) :=
  [(ZYNQ_CH_ERR_CAN_BUSOFF, CAN_STATS_BUS_OFF);
   (ZYNQ_CH_ERR_CAN_STATERR, CAN_STATS_STATUS_ERR);
   (ZYNQ_CH_ERR_CAN_RX_IPOVERFLOW, CAN_STATS_RX_IP_FIFO_OVF);
   (ZYNQ_CH_ERR_CAN_RX_USROVERFLOW, CAN_STATS_RX_USR_FIFO_OVF);
   (ZYNQ_CH_ERR_CAN_TX_TIMEOUT, CAN_STATS_TX_TIMEOUT);
   (ZYNQ_CH_ERR_CAN_TX_LPFIFOFULL, CAN_STATS_TX_LP_FIFO_FULL);
   (ZYNQ_CH_ERR_CAN_RX_FIFOFULL, CAN_STATS_RX_USR_FIFO_FULL);
   (ZYNQ_CH_ERR_CAN_TX_HPFIFOFULL, CAN_STATS_TX_HP_FIFO_FULL);
   (ZYNQ_CH_ERR_CAN_CRC_ERR, CAN_STATS_CRC_ERR);
   (ZYNQ_CH_ERR_CAN_FRAME_ERR, CAN_STATS_FRAME_ERR);
   (ZYNQ_CH_ERR_CAN_STUFF_ERR, CAN_STATS_STUFF_ERR);
   (ZYNQ_CH_ERR_CAN_BIT_ERR, CAN_STATS_BIT_ERR);
   (ZYNQ_CH_ERR_CAN_ACK_ERR, CAN_STATS_ACK_ERR)].

(** run [f] on every element *)
Fixpoint each {S A} (f : A -> M S unit) (l : list A) : M S unit :=
  match l with
  | [] => mret tt
  | x :: l' => f x;; each f l'
  end.

Section chip.
Context `{Env} `{ModParams}.

Definition zcan_ip : M can_ctx Z := gets (fun s => zcan_ip_num (cc_zcan s)).

(** read and ignore: the dumps only print *)
Definition discard {S A} (m : M S A) : M S unit := m;; mret tt.

Definition zcan_pio_dbg_reg_dump : M can_ctx unit :=
  each (fun r => discard (zcan_reg_read r)) can_ip_dbg_reg;;
  each (fun r => discard (zcan_reg_read r)) can_ip_new_dbg_reg.
Definition zchan_dbg_reg_dump : M chan_ctx unit :=
  each (fun r => discard (zchan_reg_read r)) chan_dbg_reg;;
  each (fun r => discard (zchan_reg_read r)) chan_new_dbg_reg.
Definition zynq_dbg_reg_dump {S} : M S unit :=
  each (fun r => discard (zynq_g_reg_read r)) g_dbg_reg;;
  each (fun r => discard (zynq_g_reg_read r)) g_new_dbg_reg.
Definition zcan_pio_dbg_reg_dump_ch : M can_ctx unit :=
  zynq_dbg_reg_dump;;
  on_chan zchan_dbg_reg_dump;;
  zcan_pio_dbg_reg_dump.

(** error interrupt handling in PIO mode *)
Definition zcan_err_proc (ch_err_status : Z) : M can_ctx unit :=
  when (tst zynq_trace_param ZYNQ_TRACE_CAN || zynq_dbg_reg_dump_param)
    zcan_pio_dbg_reg_dump_ch;;
  each (fun '(bit, stat) => when (tst ch_err_status bit) (zcan_ZYNQ_STATS_LOG stat))
    can_err_stats.

(** initialise the CAN IP *)
Definition zcan_pio_chip_init (ip_mode : Z) (do_reset : bool) : M can_ctx unit :=
  (if do_reset then
     zcan_reg_write ZCAN_IP_SRR 0;;
     mdelay 10;;
     on_chan (zchan_reg_write ZYNQ_CH_RESET ZYNQ_CH_RESET_EN);;
     on_chan (zchan_reg_write ZYNQ_CH_RESET 0);;
     mdelay 1
   else
     zcan_reg_write ZCAN_IP_SRR 0;;
     mdelay 10);;
  (* 1. choose the operation mode *)
  zcan_reg_write ZCAN_IP_MSR ip_mode;;
  (* 2. configure the transfer layer *)
  c ← zcan;
  brpr ← array_get brpr_reg_val (zcan_pio_baudrate c);
  zcan_reg_write ZCAN_IP_BRPR brpr;;
  zcan_reg_write ZCAN_IP_BTR zynq_can_ip_btr;;
  (* 3. configure the acceptance filter: accept ALL *)
  zcan_reg_write ZCAN_IP_AFR ZCAN_IP_AFR_NONE;;
  (* 4. set the interrupt enable register *)
  zcan_reg_write ZCAN_IP_IER ZCAN_IP_INTR_ALL;;
  upd_zcan (fun c => c<|zcan_pio_state := ZYNQ_STATE_INIT|>);;
  (* make sure the previous pending interrupts are cleared *)
  s ← get;
  on_chan (on_zdev (zdev_clear_intr_ch (zchan_num (cc_zchan s))));;
  zynq_trace ZYNQ_TRACE_CAN_PIO
    (each (fun r => discard (zcan_reg_read r))
       [ZCAN_IP_MSR; ZCAN_IP_BRPR; ZCAN_IP_BTR; ZCAN_IP_AFR; ZCAN_IP_IER; ZCAN_IP_SRR]).

Definition zcan_tx_timeout_set (timeout : Z) : M can_ctx unit :=
  ip ← zcan_ip;
  spin_lock (L_zcan_pio ip);;
  upd_zcan (fun c => c<|zcan_tx_timeout := timeout|>);;
  spin_unlock (L_zcan_pio ip).

Definition zcan_rx_timeout_set (timeout : Z) : M can_ctx unit :=
  ip ← zcan_ip;
  spin_lock (L_zcan_pio ip);;
  upd_zcan (fun c => c<|zcan_rx_timeout := timeout|>);;
  spin_unlock (L_zcan_pio ip).

(** start CAN IP *)
Definition zcan_pio_start : M can_ctx unit :=
  ip ← zcan_ip;
  spin_lock (L_zcan_pio ip);;
  v ← zynq_g_reg_read ZYNQ_G_VERSION;
  modify (fun s => s<|cc_zdev ::= fun d => d<|zdev_version := v|>|>);;
  zcan_reg_write ZCAN_IP_SRR ZCAN_IP_SRR_CEN;;
  upd_zcan (fun c => c<|zcan_pio_state := ZYNQ_STATE_START|>);;
  spin_unlock (L_zcan_pio ip).

(** stop CAN IP *)
Definition zcan_pio_stop : M can_ctx unit :=
  ip ← zcan_ip;
  spin_lock (L_zcan_pio ip);;
  spin_lock (L_zcan_pio_tx ip);;
  mdelay ZCAN_PIO_STOP_DELAY;;
  upd_zcan (fun c => c<|zcan_pio_state := ZYNQ_STATE_STOP|>);;
  zcan_reg_write ZCAN_IP_SRR 0;;
  spin_unlock (L_zcan_pio_tx ip);;
  spin_unlock (L_zcan_pio ip).

(** reset and re-initialize CAN IP *)
Definition zcan_pio_reset : M can_ctx unit :=
  ip ← zcan_ip;
  spin_lock (L_zcan_pio ip);;
  spin_lock (L_zcan_pio_tx ip);;
  spin_lock (L_zcan_pio_rx ip);;
  upd_zcan (fun c => c<|zcan_pio_state := ZYNQ_STATE_RESET|>);;
  zcan_pio_chip_init ZCAN_IP_MSR_NORMAL true;;
  spin_unlock (L_zcan_pio_rx ip);;
  spin_unlock (L_zcan_pio_tx ip);;
  spin_unlock (L_zcan_pio ip).

(** reset CAN IP *)
Definition zcan_pio_reset_noinit : M can_ctx unit :=
  ip ← zcan_ip;
  spin_lock (L_zcan_pio ip);;
  spin_lock (L_zcan_pio_tx ip);;
  spin_lock (L_zcan_pio_rx ip);;
  upd_zcan (fun c => c<|zcan_pio_state := ZYNQ_STATE_RESET|>);;
  zcan_reg_write ZCAN_IP_SRR 0;;
  mdelay 10;;
  on_chan (zchan_reg_write ZYNQ_CH_RESET ZYNQ_CH_RESET_EN);;
  on_chan (zchan_reg_write ZYNQ_CH_RESET 0);;
  spin_unlock (L_zcan_pio_rx ip);;
  spin_unlock (L_zcan_pio_tx ip);;
  spin_unlock (L_zcan_pio ip).

(** set CAN IP to loopback mode *)
Definition zcan_pio_loopback_set : M can_ctx unit :=
  ip ← zcan_ip;
  spin_lock (L_zcan_pio ip);;
  c ← zcan;
  let pio_state := zcan_pio_state c in
  zcan_pio_chip_init ZCAN_IP_MSR_LOOPBACK true;;
  upd_zcan (fun c => c<|zcan_pio_loopback := 1|>);;
  when (bool_decide (pio_state = ZYNQ_STATE_START))
    (zcan_reg_write ZCAN_IP_SRR ZCAN_IP_SRR_CEN;;
     upd_zcan (fun c => c<|zcan_pio_state := ZYNQ_STATE_START|>));;
  spin_unlock (L_zcan_pio ip).

(** unset CAN IP loopback mode *)
Definition zcan_pio_loopback_unset : M can_ctx unit :=
  ip ← zcan_ip;
  spin_lock (L_zcan_pio ip);;
  c ← zcan;
  let pio_state := zcan_pio_state c in
  zcan_pio_chip_init ZCAN_IP_MSR_NORMAL true;;
  upd_zcan (fun c => c<|zcan_pio_loopback := 0|>);;
  when (bool_decide (pio_state = ZYNQ_STATE_START))
    (zcan_reg_write ZCAN_IP_SRR ZCAN_IP_SRR_CEN;;
     upd_zcan (fun c => c<|zcan_pio_state := ZYNQ_STATE_START|>));;
  spin_unlock (L_zcan_pio ip).

(** set CAN IP working baudrate; [baudrate] is an [int] *)
Definition zcan_pio_set_baudrate (baudrate : Z) : M can_ctx Z :=
  if ZYNQ_BAUDRATE_NUM <=? baudrate then mret (- EINVAL)
  else
    ip ← zcan_ip;
    spin_lock (L_zcan_pio ip);;
    orig_val ← zcan_reg_read ZCAN_IP_SRR;
    zcan_reg_write ZCAN_IP_SRR 0;;
    mdelay 10;;
    brpr ← array_get brpr_reg_val baudrate;
    zcan_reg_write ZCAN_IP_BRPR brpr;;
    zcan_reg_write ZCAN_IP_SRR orig_val;;
    upd_zcan (fun c => c<|zcan_pio_baudrate := u64 baudrate|>);;
    spin_unlock (L_zcan_pio ip);;
    mret 0.
End chip.

(** ** The dumps only look *)
Section dumps.
Context `{Env} `{ModParams}.

Lemma looks_zcan_read reg : looks (zcan_reg_read reg).
Proof. apply looks_bind; [apply looks_gets |]. intros. apply looks_io_read. Qed.

Lemma looks_discard {S A} (m : M S A) : looks m -> looks (discard m).
Proof. intros. apply looks_bind; auto with basa. Qed.

Lemma looks_each {S A} (f : A -> M S unit) l : (forall x, looks (f x)) -> looks (each f l).
Proof.
  intros Hf. induction l as [|x l IH]; [apply looks_ret |]. by apply looks_bind.
Qed.

Lemma looks_on_chan {A} (m : M chan_ctx A) : looks m -> looks (on_chan m).
Proof. apply looks_zoom. by intros []. Qed.

Lemma looks_dump_ch : looks zcan_pio_dbg_reg_dump_ch.
Proof.
  assert (forall (S : Type) (f : Z -> M S Z) l, (forall r, looks (f r)) ->
    looks (each (fun r => discard (f r)) l)) as Hd
    by (intros; apply looks_each; intros; by apply looks_discard).
  assert (forall r, looks (zchan_reg_read r)) as Hc
    by (intros; apply looks_bind; [apply looks_gets | intros; apply looks_io_read]).
  assert (forall S r, looks (zynq_g_reg_read r : M S Z)) as Hg by (intros; apply looks_io_read).
  unfold zcan_pio_dbg_reg_dump_ch, zynq_dbg_reg_dump, zchan_dbg_reg_dump, zcan_pio_dbg_reg_dump.
  auto 10 using looks_bind, looks_on_chan, looks_zcan_read.
Qed.
End dumps.
