(* ===== verification/CanTx.v ===== *)
(** * CAN transmission ([basa_can.c]): one message through the high-priority
    buffer, the FIFO or the DMA ring, and a user's batch with its timeout *)

From S2P Require Import Device CanMsg Chan CanChip.

(** ** Definitions *)

(** [sizeof(bcan_msg_t)], [sizeof(zcan_msg_t)] *)
Definition sizeof_bcan_msg : Z := 32.
Definition sizeof_zcan_msg : Z := 16.
Definition zcan_words (m : bcan_msg) : list Z := [mw0 m; mw1 m; mw2 m; mw3 m].

(** a [bcan_msg_t] as eight 32-bit words: the four message words, then two
    words for each half of the timestamp *)
Definition msg_words (m : bcan_msg) : list Z :=
  zcan_words m ++
  [u32 (msg_tv_sec m); u32 (Z.shiftr (msg_tv_sec m) 32);
   u32 (msg_tv_usec m); u32 (Z.shiftr (msg_tv_usec m) 32)].
Fixpoint msgs_of_words (l : list Z) : list bcan_msg :=
  match l with
  | a :: b :: c :: d :: s0 :: s1 :: u0 :: u1 :: l' =>
      BcanMsg a b c d (Z.lor (Z.shiftl s1 32) s0) (Z.lor (Z.shiftl u1 32) u0)
      :: msgs_of_words l'
  | _ => []
  end.

Section tx.
Context `{Env} `{ModParams}.

(** rounds a bounded poll can take: the counter is tested after the
    increment, so that polling gives up at the 502nd read *)
Definition poll_fuel : nat := Z.to_nat (ZCAN_PIO_TX_RETRIES + 3).

(** read a register until [test] accepts its value, or give up *)
Definition poll {A} (reg : Z) (test : Z -> option A) (giveup : A) : M can_ctx A :=
  loop poll_fuel (fun j =>
    v ← zcan_reg_read reg;
    match test v with
    | Some a => mret (inr a)
    | None =>
        if ZCAN_PIO_TX_RETRIES <? j then mret (inr giveup)
        else usleep_range ZCAN_PIO_WAIT_US_MIN ZCAN_PIO_WAIT_US_MAX;; mret (inl (j + 1))
    end) 0.

(** wait while a FIFO is full; false when it stays so *)
Definition poll_not_full (full_bit : Z) : M can_ctx bool :=
  poll ZCAN_IP_PIO_STATUS (fun st => if tst st full_bit then None else Some true) false.

(** wait until the IP reports that a transmission is over *)
Definition poll_tx_over : M can_ctx (option Z) :=
  poll ZCAN_IP_ISR
    (fun val32 => if tst val32 (Z.lor ZCAN_IP_INTR_TXOK ZCAN_IP_INTR_ERROR)
                  then Some (Some val32) else None) None.

(** room for a frame? [Some rc] when there is none: wait for it, or report busy *)
Definition tx_room (full_bit : Z) (wait : bool) : M can_ctx (option Z) :=
  if wait then
    ok ← poll_not_full full_bit;
    mret (if (ok : bool) then None else Some BCAN_FAIL)
  else
    st ← zcan_reg_read ZCAN_IP_PIO_STATUS;
    mret (if tst st full_bit then Some BCAN_DEV_BUSY else None).

(** when polling, wait for the end of the transmission and clear its interrupt *)
Definition tx_over (do_poll : bool) : M can_ctx bool :=
  if do_poll then
    r ← poll_tx_over;
    match r with
    | None => mret false
    | Some val32 =>
        when (tst val32 ZCAN_IP_INTR_ERROR)
          (zynq_trace ZYNQ_TRACE_CAN_PIO (discard (zcan_reg_read ZCAN_IP_ISR)));;
        zcan_reg_write ZCAN_IP_ICR (Z.lor ZCAN_IP_INTR_TXOK ZCAN_IP_INTR_ERROR);;
        mret true
    end
  else mret true.

(** the part [zcan_pio_tx_one] and [zcan_pio_tx_hi_one] have in common, written
    out twice in the source: the lock, the full bit, the four registers of the
    FIFO and the statistic differ *)
Definition pio_tx (lk : Z -> lock) (full_bit id dlc dw1 dw2 stat : Z)
    (cmsg : bcan_msg) (wait do_poll : bool) : M can_ctx Z :=
  ip ← zcan_ip;
  spin_lock (lk ip);;
  c ← zcan;
  if negb (bool_decide (zcan_pio_state c = ZYNQ_STATE_START)) then
    spin_unlock (lk ip);;
    mret BCAN_FAIL
  else
    (* clear the Tx interrupt bits first *)
    when do_poll (zcan_reg_write ZCAN_IP_ICR (Z.lor ZCAN_IP_INTR_TXOK ZCAN_IP_INTR_ERROR));;
    (* see if the FIFO is FULL *)
    blocked ← tx_room full_bit wait;
    match blocked with
    | Some rc => spin_unlock (lk ip);; mret rc
    | None =>
        zcan_reg_write id (cmsg_id cmsg);;
        zcan_reg_write dlc (cmsg_len cmsg);;
        zcan_reg_write dw1 (cmsg_data1 cmsg);;
        zcan_reg_write dw2 (cmsg_data2 cmsg);;
        over ← tx_over do_poll;
        if (over : bool) then
          zcan_ZYNQ_STATS stat;;
          spin_unlock (lk ip);;
          mret BCAN_OK
        else spin_unlock (lk ip);; mret BCAN_FAIL
    end.

(** high priority Tx: 1 message high priority Tx buffer *)
Definition zcan_pio_tx_hi_one (cmsg : bcan_msg) (wait poll : bool) : M can_ctx Z :=
  pio_tx L_zcan_pio_tx_hi ZCAN_IP_PIO_TX_HI_FULL ZCAN_IP_TXHPB_ID ZCAN_IP_TXHPB_DLC
    ZCAN_IP_TXHPB_DW1 ZCAN_IP_TXHPB_DW2 CAN_STATS_PIO_TX_HI cmsg wait poll.

(** normal Tx: 64 messages Tx FIFO *)
Definition zcan_pio_tx_one (cmsg : bcan_msg) (wait poll : bool) : M can_ctx Z :=
  pio_tx L_zcan_pio_tx ZCAN_IP_PIO_TX_FULL ZCAN_IP_TXFIFO_ID ZCAN_IP_TXFIFO_DLC
    ZCAN_IP_TXFIFO_DW1 ZCAN_IP_TXFIFO_DW2 CAN_STATS_PIO_TX cmsg wait poll.

(** normal DMA mode Tx *)
Definition zcan_dma_tx_one (cmsg : bcan_msg) (wait poll : bool) : M can_ctx Z :=
  on_chan (zchan_tx_one_msg (zcan_words cmsg) sizeof_zcan_msg).

(** *** A user's batch *)
Definition ktime_get {S} : M S Z := t ← ask KtimeGet; mret (s64 t).

(** [retry:] send one converted message, again while the device is busy and
    the time is not over *)
Definition tx_retry (fuel : nat) (tx_func : bcan_msg -> bool -> bool -> M can_ctx Z)
    (ktime_end : Z) (cmsg : bcan_msg) : M can_ctx Z :=
  loop fuel (fun _ : unit =>
    ret ← tx_func cmsg false false;
    if ret =? BCAN_OK then
      usleep_range ZCAN_PIO_WAIT_US_MIN ZCAN_PIO_WAIT_US_MAX;;
      mret (inr ret)
    else if ret =? BCAN_DEV_BUSY then
      ktime_now ← ktime_get;
      if ktime_now <? ktime_end then
        usleep_range ZCAN_PIO_WAIT_US_MIN ZCAN_PIO_WAIT_US_MAX;;
        mret (inl tt)
      else
        when (tst zynq_trace_param ZYNQ_TRACE_CAN || zynq_dbg_reg_dump_param)
          zcan_pio_dbg_reg_dump_ch;;
        mret (inr BCAN_TIMEOUT)
    else mret (inr ret)) tt.

(** [while (tx_num)]: send the messages in order until one fails *)
Fixpoint tx_all (fuel : nat) (tx_func : bcan_msg -> bool -> bool -> M can_ctx Z)
    (ktime_end : Z) (msgs : list bcan_msg) (tx_num_done : Z) : M can_ctx (Z * Z) :=
  match msgs with
  | [] => mret (BCAN_OK, tx_num_done)
  | m :: msgs' =>
      ret ← tx_retry fuel tx_func ktime_end (bcan_to_zcan m);
      if ret =? BCAN_OK then tx_all fuel tx_func ktime_end msgs' (tx_num_done + 1)
      else mret (ret, tx_num_done)
  end.

Definition tx_func_of (hipri : bool) (s : can_ctx) : bcan_msg -> bool -> bool -> M can_ctx Z :=
  if hipri then zcan_pio_tx_hi_one
  else if zcan_tx_dma (cc_zdev s) =? 0 then zcan_pio_tx_one
  else zcan_dma_tx_one.

(** transmit a user's messages; result code and number of messages sent.
    [ioc_msgs] is the user address, [ioc_msg_num] the unsigned count. *)
Definition zcan_tx_user (fuel : nat) (ioc_msgs ioc_msg_num : Z) (tx_hipri : bool)
  : M can_ctx (Z * Z) :=
  let tx_num := s32 ioc_msg_num in
  let size := u64 (sizeof_bcan_msg * tx_num) in
  (* a single message is kept on the stack *)
  bmsg_alloc ← (if tx_num =? 1 then mret 0 else ask (KAlloc size));
  if negb (tx_num =? 1) && (bmsg_alloc =? 0) then mret (BCAN_FAIL, 0)
  else
    data ← copy_from_user ioc_msgs (Z.to_nat (size / 4));
    '(ret, tx_num_done) ←
      match data with
      | None => mret (BCAN_FAIL, 0)
      | Some words =>
          upd_zcan (fun c => if zcan_tx_timeout c =? 0
                             then c<|zcan_tx_timeout := ZCAN_TIMEOUT_MAX|> else c);;
          s ← get;
          now ← ktime_get;
          let ktime_end := s64 (now + u64 (1000000 * zcan_tx_timeout (cc_zcan s))) in
          tx_all fuel (tx_func_of tx_hipri s) ktime_end (msgs_of_words words) 0
      end;
    when (negb (bmsg_alloc =? 0)) (tell (KFree bmsg_alloc));;
    mret (ret, tx_num_done).
End tx.

(** ** Lemmas *)

Section tx_lemmas.
Context `{Env} `{ModParams}.
Implicit Types w : world can_ctx.

(** events of a poll: at most 502 reads and 501 sleeps *)
Definition poll_events : nat := 1003.

(** [w'] follows [w] by [n] events at most and the accesses [acs] *)
Definition follows {S} (w w' : world S) (n : nat) (acs : list access) : Prop :=
  exists evs, w_log w' = evs ++ w_log w /\ (length evs <= n)%nat /\ accesses evs = rev acs.

Lemma follows_trans {S} (w1 w2 w3 : world S) n1 n2 l1 l2 :
  follows w1 w2 n1 l1 -> follows w2 w3 n2 l2 -> follows w1 w3 (n1 + n2) (l1 ++ l2).
Proof.
  intros (e1 & H1 & L1 & W1) (e2 & H2 & L2 & W2). exists (e2 ++ e1).
  rewrite H2, H1, app_assoc, length_app, accesses_app, W1, W2, rev_app_distr.
  split; [done |]. split; [lia | done].
Qed.

Lemma follows_refl {S} (w : world S) : follows w w 0 [].
Proof. by exists []. Qed.

(** events that follow the world [w] directly *)
Lemma follows_evs {S} (w : world S) evs h s acs n :
  (length evs <= n)%nat -> accesses evs = rev acs ->
  follows w (World (evs ++ w_log w) h s) n acs.
Proof. intros. by exists evs. Qed.

(** the bounded polls return the first value that passes, and only look *)
Lemma wp_poll {A} (reg : Z) (ok : Z -> bool) (f : Z -> A) (test : Z -> option A) (giveup : A) w
    (Q : A -> world can_ctx -> Prop) :
  zynq_bringup_param = false ->
  (forall v, test v = if ok v then Some (f v) else None) ->
  (forall r acs w', w_st w' = w_st w -> w_held w' = w_held w -> follows w w' poll_events acs ->
     polled (addr_add (zcan_ip_reg (cc_zcan (w_st w))) reg) ok 502 r acs ->
     Q (from_option f giveup r) w') ->
  wp (poll reg test giveup) Q w.
Proof.
  intros Hb Htest HQ. unfold poll. set (a := addr_add _ reg) in *.
  apply (wp_loop (fun j v => 0 <= j <= 501 /\ w_st v = w_st w /\ w_held v = w_held w /\
             exists vs, length vs = Z.to_nat j /\ Forall (fun x => ok x = false) vs /\
               follows w v (2 * Z.to_nat j) (map (Rd a) vs))
           (fun j _ => Z.to_nat (501 - j))).
  - split; [lia |]. split; [done |]. split; [done |]. exists []. split_and!; [done | done | apply follows_refl].
  - unfold poll_fuel, ZCAN_PIO_TX_RETRIES. lia.
  - intros j v (Hj & Hs & Hh & vs & Hlen & Hno & Hf). unfold zcan_reg_read.
    apply wp_bind, wp_bind, wp_gets, wp_io_read; [exact Hb |]. intros r _. rewrite Hs. fold a.
    assert (follows w (emit (Ev (MmioRead a) r) v) (2 * Z.to_nat j + 1) (map (Rd a) (vs ++ [u32 r]))) as Hf1.
    { rewrite map_app. eapply follows_trans; [exact Hf |]. by apply (follows_evs v [_]). }
    rewrite Htest. destruct (ok (u32 r)) eqn:Eok.
    { apply wp_ret. apply (HQ (Some (u32 r)) (map (Rd a) (vs ++ [u32 r]))); [done | done | |].
      - destruct Hf1 as (evs & ? & ? & ?). exists evs. split_and!; [done | unfold poll_events; lia | done].
      - apply polled_found; [done | done | lia]. }
    destruct (Z.ltb_spec ZCAN_PIO_TX_RETRIES j); unfold ZCAN_PIO_TX_RETRIES in *.
    { apply wp_ret. apply (HQ None (map (Rd a) (vs ++ [u32 r]))); [done | done | |].
      - destruct Hf1 as (evs & ? & ? & ?). exists evs. split_and!; [done | unfold poll_events; lia | done].
      - apply polled_never; [apply Forall_app; by split; [| apply Forall_singleton] |].
        rewrite length_app. cbn [length]. lia. }
    unfold usleep_range. apply wp_bind, wp_tell, wp_ret. split; [| lia]. split; [lia |].
    split; [done |]. split; [done |]. exists (vs ++ [u32 r]). split_and!.
    + rewrite length_app. cbn [length]. lia.
    + apply Forall_app. by split; [| apply Forall_singleton].
    + rewrite <- (app_nil_r (map _ _)).
      replace (2 * Z.to_nat (j + 1))%nat with (2 * Z.to_nat j + 1 + 1)%nat by lia.
      eapply follows_trans; [exact Hf1 |]. by apply (follows_evs (emit _ v) [_]).
Qed.

(** *** One message *)

(** the four register writes that put a frame in a FIFO *)
Definition frame_writes (base : addr) (id dlc dw1 dw2 : Z) (m : bcan_msg) : list (addr * Z) :=
  [(addr_add base id, cmsg_id m); (addr_add base dlc, cmsg_len m);
   (addr_add base dw1, cmsg_data1 m); (addr_add base dw2, cmsg_data2 m)].
(** clearing the transmission interrupt bits, when polling *)
Definition ack_writes (base : addr) (poll : bool) : list (addr * Z) :=
  if poll then [(addr_add base ZCAN_IP_ICR, Z.lor ZCAN_IP_INTR_TXOK ZCAN_IP_INTR_ERROR)] else [].

(** the values of the status register [stat] that let a frame in: of one read, or of the
    last of a poll *)
Definition room_seen (wait : bool) (stat : addr) (full : Z) (acs : list access) : Prop :=
  if wait then exists v, polled stat (fun v => Z.land v full =? 0) 502 (Some v) acs
  else exists v, Z.land v full = 0 /\ acs = [Rd stat v].
(** the end of a transmission seen in the interrupt status [isr], when polling; a trace
    may read the register once more *)
Definition end_seen (do_poll : bool) (isr : addr) (acs : list access) : Prop :=
  if do_poll then exists v acs0 more,
    polled isr (fun v => negb (Z.land v (Z.lor ZCAN_IP_INTR_TXOK ZCAN_IP_INTR_ERROR) =? 0)) 502 (Some v) acs0 /\
    acs = acs0 ++ more /\ (more = [] \/ exists x, more = [Rd isr x])
  else acs = [].

(** what a transmission can return, with the accesses it makes: nothing unless the IP is
    started; refused only when the status register says full, after one read or after
    502; the frame in four writes only when it says there is room; and OK only after the
    frame, and when polling only after the end of its transmission was seen *)
Inductive tx_outcome (started wait do_poll : bool) (stat isr : addr) (full : Z) (ack frame : list (addr * Z))
  : Z -> list access -> Prop :=
| tx_not_started : started = false ->
    tx_outcome started wait do_poll stat isr full ack frame BCAN_FAIL []
| tx_busy v : started = true -> wait = false -> Z.land v full <> 0 ->
    tx_outcome started wait do_poll stat isr full ack frame BCAN_DEV_BUSY (wrs ack ++ [Rd stat v])
| tx_still_full acs : started = true -> wait = true ->
    polled stat (fun v => Z.land v full =? 0) 502 None acs ->
    tx_outcome started wait do_poll stat isr full ack frame BCAN_FAIL (wrs ack ++ acs)
| tx_no_status acs acs' : started = true -> room_seen wait stat full acs -> do_poll = true ->
    polled isr (fun v => negb (Z.land v (Z.lor ZCAN_IP_INTR_TXOK ZCAN_IP_INTR_ERROR) =? 0)) 502 None acs' ->
    tx_outcome started wait do_poll stat isr full ack frame BCAN_FAIL (wrs ack ++ acs ++ wrs frame ++ acs')
| tx_sent acs acs' : started = true -> room_seen wait stat full acs -> end_seen do_poll isr acs' ->
    tx_outcome started wait do_poll stat isr full ack frame BCAN_OK (wrs ack ++ acs ++ wrs frame ++ acs' ++ wrs ack).

Definition started (s : can_ctx) : bool := bool_decide (zcan_pio_state (cc_zcan s) = ZYNQ_STATE_START).

Lemma room_writes wait stat full acs : room_seen wait stat full acs -> writes_of acs = [].
Proof. destruct wait; [intros [v Hp]; by eapply polled_writes | by intros (v & _ & ->)]. Qed.

Lemma end_writes do_poll isr acs : end_seen do_poll isr acs -> writes_of acs = [].
Proof.
  destruct do_poll; [| by intros ->]. intros (v & acs0 & more & Hp & -> & Hm).
  rewrite writes_of_app, (polled_writes _ _ _ _ _ Hp). by destruct Hm as [->|[x ->]].
Qed.

(** the register writes that go with an outcome *)
Lemma tx_outcome_writes st wait stat isr full frame rc acs :
  tx_outcome st wait false stat isr full [] frame rc acs ->
  (rc = BCAN_OK \/ rc = BCAN_DEV_BUSY \/ rc = BCAN_FAIL) /\
  writes_of acs = if rc =? BCAN_OK then frame else [].
Proof.
  intros [|v|acs0 _ _ Hp|acs0 acs1|acs0 acs1 _ Hr He]; [by auto | by auto | | done |].
  - split; [by auto |]. by eapply polled_writes.
  - split; [by auto |]. cbn [wrs map app]. rewrite !writes_of_app, writes_of_wrs.
    by rewrite (room_writes _ _ _ _ Hr), (end_writes _ _ _ He), !app_nil_r.
Qed.

(** nothing is accessed unless started, and only the registers given are written *)
Lemma tx_outcome_access st wait poll stat isr full ack frame rc acs :
  tx_outcome st wait poll stat isr full ack frame rc acs ->
  (acs = [] \/ st = true) /\ forall p, p ∈ writes_of acs -> p ∈ ack ++ frame.
Proof.
  intros [_|v Hs _ _|acs0 Hs _ Hn|acs0 acs1 Hs Hroom _ Hn|acs0 acs1 Hs Hroom Hend]; (split; [by auto |]); intros p;
    rewrite ?writes_of_app, ?writes_of_wrs.
  - intros []%elem_of_nil.
  - change (writes_of [Rd stat v]) with (@nil (addr * Z)). rewrite app_nil_r, elem_of_app. by left.
  - rewrite (polled_writes _ _ _ _ _ Hn), app_nil_r, elem_of_app. by left.
  - by rewrite (room_writes _ _ _ _ Hroom), (polled_writes _ _ _ _ _ Hn), app_nil_r.
  - rewrite (room_writes _ _ _ _ Hroom), (end_writes _ _ _ Hend), !elem_of_app. cbn. rewrite elem_of_nil. tauto.
Qed.

Lemma wp_tx_room full_bit wait w (Q : option Z -> world can_ctx -> Prop) :
  zynq_bringup_param = false ->
  let stat := addr_add (zcan_ip_reg (cc_zcan (w_st w))) ZCAN_IP_PIO_STATUS in
  (forall r acs w', w_st w' = w_st w -> w_held w' = w_held w -> follows w w' poll_events acs ->
     r = None /\ room_seen wait stat full_bit acs
     \/ r = Some BCAN_FAIL /\ wait = true /\ polled stat (fun v => Z.land v full_bit =? 0) 502 None acs
     \/ r = Some BCAN_DEV_BUSY /\ wait = false /\ (exists v, Z.land v full_bit <> 0 /\ acs = [Rd stat v]) ->
     Q r w') ->
  wp (tx_room full_bit wait) Q w.
Proof.
  intros Hb stat HQ. unfold tx_room. destruct wait.
  - unfold poll_not_full. apply wp_bind.
    apply (wp_poll _ (fun v => Z.land v full_bit =? 0) (fun _ => true)); [exact Hb | |].
    { intros v. unfold tst. by destruct (Z.land v full_bit =? 0). }
    intros r acs w' Hs Hh Hf Hp. apply wp_ret, (HQ _ acs); try done.
    destruct r as [v|]; [left; split; [done | by exists v] | by right; left].
  - unfold zcan_reg_read. apply wp_bind, wp_bind, wp_gets, wp_io_read; [exact Hb |]. intros r _.
    apply wp_ret, (HQ _ [Rd stat (u32 r)]); [done | done | |].
    + by apply (follows_evs w [_]); [unfold poll_events; simpl; lia |].
    + unfold tst. destruct (Z.eqb_spec (Z.land (u32 r) full_bit) 0) as [E|E]; cbn [negb].
      * left. split; [done |]. by exists (u32 r).
      * right. right. split; [done |]. split; [done |]. by exists (u32 r).
Qed.

Lemma wp_tx_over do_poll w (Q : bool -> world can_ctx -> Prop) :
  zynq_bringup_param = false ->
  let isr := addr_add (zcan_ip_reg (cc_zcan (w_st w))) ZCAN_IP_ISR in
  (forall r w' acs, w_st w' = w_st w -> w_held w' = w_held w ->
     follows w w' (poll_events + 2) acs ->
     r = true /\ (exists acs', end_seen do_poll isr acs' /\
       acs = acs' ++ wrs (ack_writes (zcan_ip_reg (cc_zcan (w_st w))) do_poll))
     \/ r = false /\ do_poll = true /\
       polled isr (fun v => negb (Z.land v (Z.lor ZCAN_IP_INTR_TXOK ZCAN_IP_INTR_ERROR) =? 0)) 502 None acs ->
     Q r w') ->
  wp (tx_over do_poll) Q w.
Proof.
  intros Hb isr HQ. unfold tx_over. destruct do_poll.
  - unfold poll_tx_over. apply wp_bind.
    apply (wp_poll _ (fun v => negb (Z.land v (Z.lor ZCAN_IP_INTR_TXOK ZCAN_IP_INTR_ERROR) =? 0)) Some); [exact Hb | |].
    { intros v. unfold tst. by destruct (Z.land v _ =? 0). }
    intros r acs w1 Hs Hh Hf1 Hp. fold isr in Hp. destruct r as [v|]; cbn [from_option].
    2:{ apply wp_ret, (HQ _ _ acs); [done | done | | by auto].
        destruct Hf1 as (evs & ? & ? & ?). exists evs. split_and!; [done | lia | done]. }
    apply wp_bind.
    assert (forall w2 more, w_st w2 = w_st w1 -> w_held w2 = w_held w1 -> follows w1 w2 1 more ->
      more = [] \/ (exists x, more = [Rd isr x]) ->
      wp (zcan_reg_write ZCAN_IP_ICR (Z.lor ZCAN_IP_INTR_TXOK ZCAN_IP_INTR_ERROR) ≫=
          (fun _ => mret true)) Q w2) as Hlast.
    { intros w2 more Hs2 Hh2 Hf2 Hm. dev_steps. rewrite Hs2, Hs.
      apply (HQ _ _ ((acs ++ more) ++ wrs (ack_writes (zcan_ip_reg (cc_zcan (w_st w))) true)));
        cbn [w_st w_held emit]; [congruence | congruence | |].
      - replace (poll_events + 2)%nat with (poll_events + 1 + 1)%nat by lia.
        eapply follows_trans; [eapply follows_trans; [exact Hf1 | exact Hf2] |]. by apply (follows_evs w2 [_]).
      - left. split; [done |]. exists (acs ++ more). split; [by exists v, acs, more | done]. }
    apply wp_when; intros _; [| apply (Hlast _ []); [done | done | | by left]].
    2:{ destruct (follows_refl w1) as (e & He & Hn & Ha). exists e. split_and!; [done | lia | done]. }
    unfold zynq_trace. apply wp_when; intros _; [| apply (Hlast _ []); [done | done | | by left]].
    2:{ destruct (follows_refl w1) as (e & He & Hn & Ha). exists e. split_and!; [done | lia | done]. }
    unfold discard, zcan_reg_read. apply wp_bind, wp_bind, wp_gets, wp_io_read; [exact Hb |]. intros x _.
    apply wp_ret, (Hlast _ [Rd isr (u32 x)]); [done | done | | right; by eexists].
    rewrite Hs. by apply (follows_evs w1 [_]).
  - apply wp_ret. apply (HQ _ _ []); [done | done | | left; split; [done |]; by exists []].
    exists []. split; [done |]. split; [simpl; lia | done].
Qed.

(** the transmission of one frame *)
Lemma wp_pio_tx lk full_bit id dlc dw1 dw2 stat m wait do_poll w
    (Q : Z -> world can_ctx -> Prop) :
  zynq_bringup_param = false ->
  msg_wf m ->
  lk (zcan_ip_num (cc_zcan (w_st w))) ∉ w_held w ->
  let base := zcan_ip_reg (cc_zcan (w_st w)) in
  (forall rc w' ws,
     tx_outcome (started (w_st w)) wait do_poll (addr_add base ZCAN_IP_PIO_STATUS)
       (addr_add base ZCAN_IP_ISR) full_bit
       (ack_writes base do_poll) (frame_writes base id dlc dw1 dw2 m) rc ws ->
     w_held w' = w_held w ->
     w_st w' = (if rc =? BCAN_OK
                then (w_st w)<|cc_zcan ::= stats_upd (stats_inc_at stat 1)|> else w_st w) ->
     follows w w' (2 * poll_events + 9) ws ->
     Q rc w') ->
  wp (pio_tx lk full_bit id dlc dw1 dw2 stat m wait do_poll) Q w.
Proof.
  intros Hb Hm Hlk base HQ. unfold pio_tx, zcan_ip. unfold started in HQ.
  set (s := w_st w) in *.
  assert (forall x, is_u32 x -> u32 x = x) as Hu by (intros; by apply u32_small).
  set (ip := zcan_ip_num (cc_zcan s)) in *.
  apply wp_bind, wp_gets. apply wp_bind, wp_spin_lock; [done |]. fold s ip. wp_simpl.
  unfold zcan. apply wp_bind, wp_gets. cbn [w_st].
  set (w1 := World (Ev (SpinLock (lk ip)) 0 :: w_log w) (lk ip :: w_held w) s).
  assert (follows w w1 1 []) as F1 by (by apply (follows_evs w [_])).
  (* leaving: the lock is released and the result returned *)
  assert (Hexit : forall v n ws (rc : Z),
    w_held v = lk ip :: w_held w ->
    w_st v = (if rc =? BCAN_OK then s<|cc_zcan ::= stats_upd (stats_inc_at stat 1)|> else s) ->
    follows w v n ws -> (n <= 2 * poll_events + 8)%nat ->
    tx_outcome (bool_decide (zcan_pio_state (cc_zcan s) = ZYNQ_STATE_START)) wait do_poll
      (addr_add base ZCAN_IP_PIO_STATUS) (addr_add base ZCAN_IP_ISR) full_bit
      (ack_writes base do_poll) (frame_writes base id dlc dw1 dw2 m) rc ws ->
    wp (spin_unlock (lk ip) ≫= (fun _ => mret rc)) Q v).
  { intros v n ws rc Hh Hs Hf Hn Ho. apply wp_bind.
    eapply wp_spin_unlock; [exact Hh | done |]. apply wp_ret.
    eapply HQ; [exact Ho | done | exact Hs |].
    assert (follows v (World (Ev (SpinUnlock (lk ip)) 0 :: w_log v) (w_held w) (w_st v)) 1 []) as F
      by (by apply (follows_evs v [_])).
    destruct (follows_trans _ _ _ _ _ _ _ Hf F) as (evs & He & Hle & Hw).
    rewrite app_nil_r in Hw. exists evs. split; [done |]. split; [lia | done]. }
  destruct (bool_decide _) eqn:Est; cbn [negb].
  2:{ apply (Hexit w1 1%nat []); try done; [unfold poll_events; lia |]. by constructor. }
  (* after clearing the interrupt bits *)
  assert (Hrun : forall v, w_held v = lk ip :: w_held w -> w_st v = s ->
    follows w v 2 (wrs (ack_writes base do_poll)) ->
    wp (tx_room full_bit wait ≫= fun blocked =>
      match blocked with
      | Some rc => spin_unlock (lk ip);; mret rc
      | None =>
          zcan_reg_write id (cmsg_id m);; zcan_reg_write dlc (cmsg_len m);;
          zcan_reg_write dw1 (cmsg_data1 m);; zcan_reg_write dw2 (cmsg_data2 m);;
          over ← tx_over do_poll;
          if (over : bool) then
            zcan_ZYNQ_STATS stat;; spin_unlock (lk ip);; mret BCAN_OK
          else spin_unlock (lk ip);; mret BCAN_FAIL
      end) Q v).
  { intros v Hh Hs F2. apply wp_bind, wp_tx_room; [exact Hb |]. rewrite Hs. fold base.
    intros blocked rs v1 Hs1 Hh1 Fr Hcase.
    pose proof (follows_trans _ _ _ _ _ _ _ F2 Fr) as F3.
    rewrite Hh in Hh1.
    destruct Hcase as [[-> Hroom] | [(-> & Hw & Hp) | (-> & Hw & x & Hx & ->)]].
    2,3: eapply Hexit; [done | done | exact F3 | lia | by constructor].
    apply wp_bind. unfold zcan_reg_write at 1. apply wp_bind, wp_gets, wp_io_write; [done |].
    dev_steps. rewrite Hs1. fold base. unfold cmsg_id, cmsg_len, cmsg_data1, cmsg_data2.
    rewrite !Hu by apply Hm.
    match goal with |- wp _ _ ?v2 =>
      assert (follows v1 v2 4 (wrs (frame_writes base id dlc dw1 dw2 m))) as Ff
        by (by apply (follows_evs v1 [_; _; _; _])) end.
    apply wp_tx_over; [done |]. intros over v3 rs2 Hs3 Hh3 F4 Hover.
    cbn [w_st w_held emit] in Hs3, Hh3, Hover. rewrite Hs1 in Hs3, Hover. rewrite Hh1 in Hh3.
    fold base in Hover.
    pose proof (follows_trans _ _ _ _ _ _ _ F3 Ff) as F5.
    pose proof (follows_trans _ _ _ _ _ _ _ F5 F4) as F6. rewrite <- !app_assoc in F6.
    destruct Hover as [(-> & acs' & Hend & ->) | (-> & -> & Hno)].
    - unfold zcan_ZYNQ_STATS, ZYNQ_STATS. apply wp_bind, wp_zoom, wp_modify. wp_simpl.
      eapply Hexit; [exact Hh3 | by rewrite Hs3 | | | ].
      + destruct F6 as (evs & He & Hle & Hw). exists evs. split; [exact He |].
        split; [exact Hle | exact Hw].
      + lia.
      + by constructor.
    - eapply Hexit; [exact Hh3 | exact Hs3 | exact F6 | lia | by constructor]. }
  apply wp_bind, wp_when; intros Hp.
  - apply wp_bind, wp_gets, wp_io_write; [done |]. apply Hrun; try done.
    rewrite Hp. exists [Ev (MmioWrite (addr_add base ZCAN_IP_ICR)
      (u32 (Z.lor ZCAN_IP_INTR_TXOK ZCAN_IP_INTR_ERROR))) 0; Ev (SpinLock (lk ip)) 0].
    split; [done |]. split; [simpl; lia | done].
  - apply Hrun; try done. rewrite Hp. exists [Ev (SpinLock (lk ip)) 0].
    split; [done |]. split; [simpl; lia | done].
Qed.
End tx_lemmas.

(** ** Transmission ports

    What [zcan_tx_user] needs of the function it sends with: a port, the
    sequence of frames handed to the device, to which a successful call adds its
    frame and any other call adds nothing. *)

Class TxPort (send : bcan_msg -> bool -> bool -> M can_ctx Z) := {
  port_inv : zynq_chan -> Prop;
  port_frames : addr -> list event -> list (list Z);   (** newest first *)
  port_calm : forall base evs l,
    Forall calm evs -> port_frames base (evs ++ l) = port_frames base l;
  port_send : forall m w (Q : Z -> world can_ctx -> Prop),
    msg_wf m -> port_inv (cc_zchan (w_st w)) -> w_held w = [] ->
    (forall rc w' evs,
       let base := zcan_ip_reg (cc_zcan (w_st w)) in
       rc = BCAN_OK \/ rc = BCAN_DEV_BUSY \/ rc = BCAN_FAIL ->
       port_inv (cc_zchan (w_st w')) -> w_held w' = [] ->
       zcan_ip_reg (cc_zcan (w_st w')) = base ->
       w_log w' = evs ++ w_log w ->
       port_frames base (w_log w') =
         (if rc =? BCAN_OK then [zcan_words m] else []) ++ port_frames base (w_log w) ->
       Q rc w') ->
    wp (send m false false) Q w
}.

(** frames written to a FIFO, read off the register writes (newest first) *)
Fixpoint fifo_frames (base : addr) (id dlc dw1 dw2 : Z) (ws : list (addr * Z))
  : list (list Z) :=
  match ws with
  | [] => []
  | (a4, d) :: rest =>
      match rest with
      | (a3, c) :: (a2, b) :: (a1, a) :: _ =>
          if decide (a1 = addr_add base id /\ a2 = addr_add base dlc /\
                     a3 = addr_add base dw1 /\ a4 = addr_add base dw2)
          then [a; b; c; d] :: fifo_frames base id dlc dw1 dw2 rest
          else fifo_frames base id dlc dw1 dw2 rest
      | _ => fifo_frames base id dlc dw1 dw2 rest
      end
  end.

Lemma addr_add_inj base x y : addr_add base x = addr_add base y -> x = y.
Proof. unfold addr_add. intros [= Hxy]. lia. Qed.

Section fifo.
Variables (base : addr) (id dlc dw1 dw2 : Z).
Hypothesis (H1 : id <> dw2) (H2 : dlc <> dw2) (H3 : dw1 <> dw2).

(** a write to another register completes no frame *)
Lemma fifo_frames_skip off v ws :
  off <> dw2 ->
  fifo_frames base id dlc dw1 dw2 ((addr_add base off, v) :: ws)
    = fifo_frames base id dlc dw1 dw2 ws.
Proof using Type.
  intros Hne. cbn [fifo_frames].
  destruct ws as [|[a3 c] [|[a2 b] [|[a1 a] ws]]]; try done.
  destruct (decide _) as [(_ & _ & _ & Heq)|]; [| done].
  apply addr_add_inj in Heq. done.
Qed.

Lemma fifo_frames_push m ws :
  fifo_frames base id dlc dw1 dw2 (rev (frame_writes base id dlc dw1 dw2 m) ++ ws)
    = zcan_words m :: fifo_frames base id dlc dw1 dw2 ws.
Proof using All.
  unfold frame_writes. cbn [rev app].
  assert (forall l, fifo_frames base id dlc dw1 dw2
    ((addr_add base dw2, cmsg_data2 m) :: (addr_add base dw1, cmsg_data1 m)
     :: (addr_add base dlc, cmsg_len m) :: (addr_add base id, cmsg_id m) :: l)
    = zcan_words m :: fifo_frames base id dlc dw1 dw2
       ((addr_add base dw1, cmsg_data1 m)
        :: (addr_add base dlc, cmsg_len m) :: (addr_add base id, cmsg_id m) :: l)) as Hf.
  { intros l. cbn [fifo_frames]. by destruct (decide _) as [|[]]; [| split_and!]. }
  rewrite Hf, !fifo_frames_skip by done. done.
Qed.
End fifo.

(** *** The three ports *)
Section ports.
Context `{Env} `{ModParams}.
Hypothesis Hb : zynq_bringup_param = false.

(** what one FIFO transmission without waiting or polling adds to its port *)
Lemma pio_port_send lk full_bit id dlc dw1 dw2 stat m (w : world can_ctx)
    (Q : Z -> world can_ctx -> Prop) :
  id <> dw2 -> dlc <> dw2 -> dw1 <> dw2 ->
  msg_wf m -> w_held w = [] ->
  (forall rc w' evs,
     let base := zcan_ip_reg (cc_zcan (w_st w)) in
     let frames l := fifo_frames base id dlc dw1 dw2 (mmio_writes l) in
     rc = BCAN_OK \/ rc = BCAN_DEV_BUSY \/ rc = BCAN_FAIL ->
     w_held w' = [] -> zcan_ip_reg (cc_zcan (w_st w')) = base ->
     w_log w' = evs ++ w_log w ->
     frames (w_log w') = (if rc =? BCAN_OK then [zcan_words m] else []) ++ frames (w_log w) ->
     Q rc w') ->
  wp (pio_tx lk full_bit id dlc dw1 dw2 stat m false false) Q w.
Proof using Hb.
  intros N1 N2 N3 Hm Hh HQ.
  apply wp_pio_tx; [done | done | rewrite Hh; apply not_elem_of_nil |].
  intros rc w' acs Ho Hh' Hs' (evs & He & _ & Ha).
  apply tx_outcome_writes in Ho as [Hrc Hw].
  apply (HQ rc w' evs); [done | congruence | | done |].
  - rewrite Hs'. by destruct (rc =? BCAN_OK).
  - rewrite He, mmio_writes_app, mmio_writes_accesses, Ha, writes_of_rev, Hw.
    destruct (rc =? BCAN_OK); [| done]. by apply fifo_frames_push.
Qed.

#[export] Instance tx_one_port : TxPort zcan_pio_tx_one.
Proof using Hb.
  refine {|
    port_inv := fun _ => True;
    port_frames := fun base l => fifo_frames base ZCAN_IP_TXFIFO_ID ZCAN_IP_TXFIFO_DLC
      ZCAN_IP_TXFIFO_DW1 ZCAN_IP_TXFIFO_DW2 (mmio_writes l) |}.
  - intros base evs l Hc. by rewrite mmio_writes_app, calm_writes.
  - intros m w Q Hm _ Hh HQ. unfold zcan_pio_tx_one. apply pio_port_send; [discriminate | discriminate | discriminate | exact Hm | exact Hh |].
    intros rc w' evs base frames Hrc Hh' Hb' Hl Hf. exact (HQ rc w' evs Hrc I Hh' Hb' Hl Hf).
Defined.

#[export] Instance tx_hi_one_port : TxPort zcan_pio_tx_hi_one.
Proof using Hb.
  refine {|
    port_inv := fun _ => True;
    port_frames := fun base l => fifo_frames base ZCAN_IP_TXHPB_ID ZCAN_IP_TXHPB_DLC
      ZCAN_IP_TXHPB_DW1 ZCAN_IP_TXHPB_DW2 (mmio_writes l) |}.
  - intros base evs l Hc. by rewrite mmio_writes_app, calm_writes.
  - intros m w Q Hm _ Hh HQ. unfold zcan_pio_tx_hi_one. apply pio_port_send; [discriminate | discriminate | discriminate | exact Hm | exact Hh |].
    intros rc w' evs base frames Hrc Hh' Hb' Hl Hf. exact (HQ rc w' evs Hrc I Hh' Hb' Hl Hf).
Defined.

(** messages stored in DMA buffers *)
Definition dma_stores (l : list event) : list (list Z) :=
  omap (fun e => match ev_call e with DmaStore _ d => Some d | _ => None end) l.

Lemma calm_stores evs : Forall calm evs -> dma_stores evs = [].
Proof.
  induction 1 as [|[c r] l Hc _ IH]; [done |]. unfold calm in Hc. cbn in Hc |- *.
  by destruct c.
Qed.

#[export] Instance dma_tx_port : TxPort zcan_dma_tx_one.
Proof using Hb.
  refine {|
    port_inv := fun c => tx_wf (zchan_tx_ring_of c) /\ sizeof_zcan_msg <= zchan_tx_bufsz (zchan_tx_ring_of c);
    port_frames := fun _ l => dma_stores l |}.
  - intros base evs l Hc. unfold dma_stores. rewrite omap_app.
    change (dma_stores evs ++ dma_stores l = dma_stores l). by rewrite calm_stores.
  - intros m w Q Hm [Hwf Hsz] Hh HQ. unfold zcan_dma_tx_one, on_chan. apply wp_zoom.
    apply wp_tx_one_msg; cbn [w_st w_held w_log ch_zchan ctx_tx];
      [done | exact Hwf | rewrite Hh; apply not_elem_of_nil | | |].
    + unfold ctx_tx. cbn [ch_zchan]. intros. lia.
    + intros _ _. by eapply (HQ _ _ [_; _]); auto.
    + intros _ Hnf zb Hzb. eapply (HQ _ _ [_; _; _; _; _; _]); auto.
      split; [by apply tx_pushed_wf | exact Hsz].
Defined.
End ports.

(** ** A user's batch through any port *)

(** sleeps of a history *)
Definition sleeps (l : list event) : Z :=
  Z.of_nat (length (filter (fun e => is_true
    (match ev_call e with UsleepRange _ _ => true | _ => false end)) l)).

(** a clock that never goes back, and advances by at least 150 us, the lower
    bound the driver asks for, over each sleep (until it saturates) *)
Definition clock_ok `{Env} (l0 : list event) : Prop :=
  forall e1 e2,
    Z.min (2 ^ 63 - 1) (s64 (env_ret (e1 ++ l0) KtimeGet) + 150000 * sleeps e2)
      <= s64 (env_ret (e2 ++ e1 ++ l0) KtimeGet).

(** user memory that does not change during the call *)
Definition user_stable `{Env} (l0 : list event) (src : Z) (mem : nat -> Z) : Prop :=
  forall evs i, u32 (env_ret (evs ++ l0) (UserWord src i)) = mem i.

(** rounds of [retry:] that fit in a timeout of [tmo] milliseconds *)
Definition tx_rounds (tmo : Z) : Z := 1000000 * tmo / 150000 + 2.

Lemma sleeps_app l1 l2 : sleeps (l1 ++ l2) = sleeps l1 + sleeps l2.
Proof. unfold sleeps. rewrite filter_app, length_app. lia. Qed.

Lemma sleeps_nonneg l : 0 <= sleeps l.
Proof. unfold sleeps. lia. Qed.

Lemma s64_upper x : - 2 ^ 63 <= x -> s64 x <= x /\ s64 x <= 2 ^ 63 - 1.
Proof.
  intros Hx. unfold s64.
  pose proof (Z.mod_le (x + 2 ^ 63) (2 ^ 64) ltac:(lia) ltac:(lia)).
  pose proof (Z.mod_pos_bound (x + 2 ^ 63) (2 ^ 64) ltac:(lia)). lia.
Qed.

Lemma s64_lower x : - 2 ^ 63 <= s64 x.
Proof.
  unfold s64. pose proof (Z.mod_pos_bound (x + 2 ^ 63) (2 ^ 64) ltac:(lia)). lia.
Qed.

(** *** Between two calls of the port *)
Section batch.
Context `{Env} `{ModParams} (send : bcan_msg -> bool -> bool -> M can_ctx Z) `{!TxPort send}.
Variables (base : addr) (l0 : list event).

(** the port is usable, nothing is locked, and [fs] has gone out *)
Record idle (fs : list (list Z)) (w : world can_ctx) : Prop := {
  idle_inv : port_inv (send := send) (cc_zchan (w_st w));
  idle_held : w_held w = [];
  idle_base : zcan_ip_reg (cc_zcan (w_st w)) = base;
  idle_log : exists evs, w_log w = evs ++ l0;
  idle_frames : port_frames (send := send) base (w_log w) = fs
}.

Lemma idle_calmly fs w w' : idle fs w -> calmly w w' -> idle fs w'.
Proof using Type.
  intros [Hi Hh Hba [e0 Hl] Hf] (Hs & Hh' & evs & Hl' & Hc). split.
  - by rewrite Hs.
  - by rewrite Hh'.
  - by rewrite Hs.
  - exists (evs ++ e0). by rewrite Hl', Hl, app_assoc.
  - by rewrite Hl', port_calm.
Qed.

(** changes of the CAN that leave its registers where they are *)
Lemma idle_upd fs w f :
  (forall c, zcan_ip_reg (f c) = zcan_ip_reg c) -> idle fs w ->
  idle fs (World (w_log w) (w_held w) ((w_st w)<|cc_zcan ::= f|>)).
Proof using Type.
  intros Hf [Hi Hh Hba Hl Hfr]. split; cbn; try done. by rewrite Hf.
Qed.

Section timed.
Variable (t0 ktime_end tmo : Z).
Hypothesis Hend : ktime_end <= t0 + 1000000 * tmo.
Hypothesis Hend63 : ktime_end <= 2 ^ 63 - 1.
Hypothesis Hclock : forall evs,
  Z.min (2 ^ 63 - 1) (t0 + 150000 * sleeps evs) <= s64 (env_ret (evs ++ l0) KtimeGet).
Hypothesis Htmo : 0 <= tmo.

(** one message: it goes out exactly when the result is OK *)
Lemma wp_tx_retry fuel m fs w (Q : Z -> world can_ctx -> Prop) :
  tx_rounds tmo < Z.of_nat fuel ->
  msg_wf m -> idle fs w ->
  (forall rc w', rc = BCAN_OK \/ rc = BCAN_FAIL \/ rc = BCAN_TIMEOUT ->
     idle ((if rc =? BCAN_OK then [zcan_words m] else []) ++ fs) w' -> Q rc w') ->
  wp (tx_retry fuel send ktime_end m) Q w.
Proof using Hend Hend63 Hclock Htmo.
  intros Hfuel Hm Hw HQ. unfold tx_retry.
  set (used := fun v : world can_ctx => sleeps (w_log v) - sleeps l0).
  set (left := fun v => (ktime_end - t0 - 150000 * used v) / 150000 + 1).
  apply (wp_loop (fun _ v => idle fs v) (fun _ v => Z.to_nat (left v))); [exact Hw | |].
  - destruct Hw as [_ _ _ [evs Hl] _].
    assert (0 <= tx_rounds tmo) by
      (unfold tx_rounds; pose proof (Z.div_pos (1000000 * tmo) 150000); lia).
    assert (left w <= tx_rounds tmo - 1); [| lia].
    unfold left, used, tx_rounds. rewrite Hl, sleeps_app. pose proof (sleeps_nonneg evs).
    assert ((ktime_end - t0 - 150000 * (sleeps evs + sleeps l0 - sleeps l0)) / 150000
      <= 1000000 * tmo / 150000) by (apply Z.div_le_mono; lia). lia.
  - intros [] v Hv. apply wp_bind. destruct Hv as [Hi Hh Hba [e0 Hl] Hf].
    apply (port_send (TxPort := ltac:(eassumption))); [done | done | done |].
    intros rc v1 evs b Hrc Hi1 Hh1 Hb1 Hl1 Hf1. unfold b in *. rewrite Hba in *.
    assert (idle ((if rc =? BCAN_OK then [zcan_words m] else []) ++ fs) v1) as Hv1.
    { split; [exact Hi1 | exact Hh1 | exact Hb1 | | by rewrite Hf1, Hf]. exists (evs ++ e0). by rewrite Hl1, Hl, app_assoc. }
    destruct (Z.eqb_spec rc BCAN_OK) as [->|Hok].
    { unfold usleep_range. apply wp_bind, wp_tell. apply wp_ret, HQ; [by left |].
      by eapply idle_calmly, calmly_emit. }
    destruct (Z.eqb_spec rc BCAN_DEV_BUSY) as [->|Hbusy].
    2:{ apply wp_ret, HQ; [destruct Hrc as [?|[?|?]]; [done | done | by auto] |]. destruct (Z.eqb_spec rc BCAN_OK); done. }
    unfold ktime_get. apply wp_bind, wp_bind, wp_ask. intros t Ht. apply wp_ret.
    assert (forall c r, calm (Ev c 0) -> idle fs (emit (Ev c r) v1)) as Hv2
      by (intros; by eapply idle_calmly, calmly_emit).
    destruct (Z.ltb_spec (s64 t) ktime_end) as [Hlt|Hge].
    + unfold usleep_range. apply wp_bind, wp_tell, wp_ret.
      split; [by eapply idle_calmly, calmly_emit; [apply Hv2 | ] |].
      rewrite Ht, Hl1, Hl, app_assoc in Hlt. specialize (Hclock (evs ++ e0)).
      assert (left v1 <= left v /\ 1 <= left v1) as [Hle H1].
      { unfold left, used. rewrite Hl1, sleeps_app, Hl, sleeps_app.
        pose proof (sleeps_nonneg evs). rewrite sleeps_app in Hclock. split.
        - apply Z.add_le_mono_r, Z.div_le_mono; lia.
        - enough (0 <= (ktime_end - t0 - 150000 *
            (sleeps evs + (sleeps e0 + sleeps l0) - sleeps l0)) / 150000) by lia.
          apply Z.div_pos; lia. }
      match goal with |- (Z.to_nat (left ?v2) < _)%nat =>
        assert (left v2 = left v1 - 1) as -> end; [| lia].
      unfold left, used. cbn [w_log emit].
      change (Ev ?a ?b :: Ev ?c ?d :: w_log v1) with ([Ev a b; Ev c d] ++ w_log v1).
      rewrite sleeps_app. change (sleeps [_; _]) with 1.
      replace (ktime_end - t0 - 150000 * (1 + sleeps (w_log v1) - sleeps l0))
        with (ktime_end - t0 - 150000 * (sleeps (w_log v1) - sleeps l0) + (-1) * 150000) by lia.
      rewrite Z.div_add by lia. lia.
    + apply wp_bind, wp_looks; [apply looks_when, looks_dump_ch |].
      intros [] v3 Hc. apply wp_ret, HQ; [auto |]. refine (idle_calmly _ _ _ _ Hc). by apply Hv2.
Qed.

(** the batch: a prefix goes out, in order, all of it exactly when the result
    is OK *)
Lemma wp_tx_all fuel msgs d0 fs w (Q : Z * Z -> world can_ctx -> Prop) :
  tx_rounds tmo < Z.of_nat fuel ->
  Forall msg_wf msgs -> idle fs w ->
  (forall rc k w', (k <= length msgs)%nat ->
     rc = BCAN_OK /\ k = length msgs \/
     (rc = BCAN_FAIL \/ rc = BCAN_TIMEOUT) /\ (k < length msgs)%nat ->
     idle (rev (map (fun m => zcan_words (bcan_to_zcan m)) (take k msgs)) ++ fs) w' ->
     Q (rc, d0 + Z.of_nat k) w') ->
  wp (tx_all fuel send ktime_end msgs d0) Q w.
Proof using Hend Hend63 Hclock Htmo.
  intros Hfuel Hm. revert d0 fs w.
  induction Hm as [|m msgs Hm _ IH]; intros d0 fs w Hw HQ; cbn [tx_all].
  - apply wp_ret. specialize (HQ BCAN_OK 0%nat w). rewrite Z.add_0_r in HQ.
    apply HQ; [done | by left | exact Hw].
  - apply wp_bind, (wp_tx_retry _ _ fs); [done | by apply bcan_to_zcan_wf | done |].
    intros rc w' Hrc Hw'. destruct (Z.eqb_spec rc BCAN_OK) as [->|Hne].
    + apply (IH _ (zcan_words (bcan_to_zcan m) :: fs)); [exact Hw' |].
      intros rc k w2 Hk Hcase Hw2.
      replace (d0 + 1 + Z.of_nat k) with (d0 + Z.of_nat (S k)) by lia.
      apply HQ; cbn [length]; [lia | destruct Hcase as [[-> ->]|[? ?]]; [by left | right] |].
      * split; [done | lia].
      * cbn [take map rev]. by rewrite <- app_assoc.
    + apply wp_ret. specialize (HQ rc 0%nat w'). rewrite Z.add_0_r in HQ.
      apply HQ; cbn [length]; [lia | | exact Hw'].
      right. split; [by destruct Hrc | lia].
Qed.
End timed.

(** a copy from user memory looks only *)
Lemma wp_user_words src mem fs i n w (Q : list Z -> world can_ctx -> Prop) :
  user_stable l0 src mem -> idle fs w ->
  (forall w', idle fs w' -> w_st w' = w_st w -> Q (map mem (seq i n)) w') ->
  wp (user_words src i n) Q w.
Proof using Type.
  intros Hmem. revert i w Q. induction n as [|n IH]; intros i w Q Hw HQ; cbn [user_words].
  - by apply wp_ret, HQ.
  - apply wp_bind, wp_ask. intros r Hr.
    assert (u32 r = mem i) as Hri.
    { destruct Hw as [_ _ _ [evs Hl] _]. rewrite Hr, Hl. apply Hmem. }
    apply wp_bind, IH; [by eapply idle_calmly, calmly_emit |].
    intros w' Hw' Hs. apply wp_ret. rewrite Nat.add_1_r, Hri. by apply HQ.
Qed.
End batch.

(** the history an interval is counted from *)
Lemma idle_from `{Env} `{ModParams} send `{!TxPort send} base l0 fs w :
  idle send base l0 fs w -> idle send base (w_log w) fs w.
Proof. intros []. split; try done. by exists []. Qed.

Lemma idle_since `{Env} `{ModParams} send `{!TxPort send} base evs l0 fs w :
  idle send base (evs ++ l0) fs w -> idle send base l0 fs w.
Proof.
  intros [? ? ? [e He] ?]. split; try done. exists (e ++ evs). by rewrite <- app_assoc.
Qed.

(** *** The port a request uses *)
Definition sent_frames (hipri dma : bool) (base : addr) (l : list event) : list (list Z) :=
  if hipri then fifo_frames base ZCAN_IP_TXHPB_ID ZCAN_IP_TXHPB_DLC
    ZCAN_IP_TXHPB_DW1 ZCAN_IP_TXHPB_DW2 (mmio_writes l)
  else if dma then dma_stores l
  else fifo_frames base ZCAN_IP_TXFIFO_ID ZCAN_IP_TXFIFO_DLC
    ZCAN_IP_TXFIFO_DW1 ZCAN_IP_TXFIFO_DW2 (mmio_writes l).
Definition tx_ready (hipri dma : bool) (c : zynq_chan) : Prop :=
  hipri = false -> dma = true ->
  tx_wf (zchan_tx_ring_of c) /\ sizeof_zcan_msg <= zchan_tx_bufsz (zchan_tx_ring_of c).
Definition tx_uses_dma (s : can_ctx) : bool := negb (zcan_tx_dma (cc_zdev s) =? 0).

Lemma msgs_of_words_length n l : length l = (8 * n)%nat -> length (msgs_of_words l) = n.
Proof.
  revert l. induction n as [|n IH]; intros l Hl; [by destruct l |].
  do 8 (destruct l as [|? l]; [cbn in Hl; lia |]). cbn [msgs_of_words length] in *.
  f_equal. apply IH. lia.
Qed.

Lemma msgs_of_words_wf l : Forall is_u32 l -> Forall msg_wf (msgs_of_words l).
Proof.
  assert (forall n l, (length l < n)%nat -> Forall is_u32 l -> Forall msg_wf (msgs_of_words l))
    as Hn; [| by apply (Hn (S (length l))); lia].
  clear l. induction n as [|n IH]; [lia |]. intros l Hl Hu.
  do 8 (destruct l as [|? l]; [constructor |]). cbn [msgs_of_words].
  do 8 (apply Forall_cons in Hu as [? Hu]). constructor; [by constructor |].
  apply IH; [cbn in Hl; lia | done].
Qed.

Section user.
Context `{Env} `{ModParams}.
Hypothesis Hb : zynq_bringup_param = false.

Definition tx_func_port hipri s : TxPort (tx_func_of hipri s).
Proof using Hb.
  unfold tx_func_of. destruct hipri; [| destruct (zcan_tx_dma (cc_zdev s) =? 0)].
  - exact (tx_hi_one_port Hb).
  - exact (tx_one_port Hb).
  - exact (dma_tx_port Hb).
Defined.

Lemma tx_func_port_frames hipri s base l :
  port_frames (TxPort := tx_func_port hipri s) base l
    = sent_frames hipri (tx_uses_dma s) base l.
Proof using Type.
  unfold tx_func_port, tx_func_of, sent_frames, tx_uses_dma. destruct hipri; [done |].
  by destruct (zcan_tx_dma (cc_zdev s) =? 0).
Qed.

Lemma tx_func_port_inv hipri s c :
  port_inv (TxPort := tx_func_port hipri s) c <-> tx_ready hipri (tx_uses_dma s) c.
Proof using Type.
  unfold tx_func_port, tx_func_of, tx_ready, tx_uses_dma. destruct hipri; [by split |].
  destruct (zcan_tx_dma (cc_zdev s) =? 0); cbn; [by split | naive_solver].
Qed.
End user.

(** ** Properties *)

(** the timeout in force: 0 stands for the maximum *)
Definition tx_timeout_of (c : zynq_can) : Z :=
  if zcan_tx_timeout c =? 0 then ZCAN_TIMEOUT_MAX else zcan_tx_timeout c.

(** the messages of a request, as the user's memory holds them *)
Definition user_msgs (mem : nat -> Z) (num : Z) : list bcan_msg :=
  msgs_of_words (map mem (seq 0 (8 * Z.to_nat num))).

Section user_proof.
Context `{Env} `{ModParams}.
Hypothesis Hb : zynq_bringup_param = false.

Lemma user_msgs_ok l0 src mem num :
  user_stable l0 src mem ->
  length (user_msgs mem num) = Z.to_nat num /\ Forall msg_wf (user_msgs mem num).
Proof.
  intros Hmem. split.
  - apply msgs_of_words_length. by rewrite length_map, length_seq.
  - apply msgs_of_words_wf, Forall_forall. intros x Hx. apply list_elem_of_fmap in Hx as (i & -> & _).
    rewrite <- (Hmem [] i). apply u32_range.
Qed.

(** sending after the copy *)
Lemma wp_tx_sending fuel hipri msgs s l0 fs w (Q : Z * Z -> world can_ctx -> Prop) :
  let tmo := tx_timeout_of (cc_zcan (w_st w)) in
  let base := zcan_ip_reg (cc_zcan (w_st w)) in
  let port := tx_func_port Hb hipri s in
  clock_ok l0 -> 0 <= tmo -> tx_rounds tmo < Z.of_nat fuel -> Forall msg_wf msgs ->
  cc_zdev (w_st w) = cc_zdev s ->
  idle (TxPort0 := port) (tx_func_of hipri s) base l0 fs w ->
  (forall rc k w', (k <= length msgs)%nat ->
     rc = BCAN_OK /\ k = length msgs \/
     (rc = BCAN_FAIL \/ rc = BCAN_TIMEOUT) /\ (k < length msgs)%nat ->
     idle (TxPort0 := port) (tx_func_of hipri s) base l0
       (rev (map (fun m => zcan_words (bcan_to_zcan m)) (take k msgs)) ++ fs) w' ->
     Q (rc, Z.of_nat k) w') ->
  wp (upd_zcan (fun c => if zcan_tx_timeout c =? 0
                         then c<|zcan_tx_timeout := ZCAN_TIMEOUT_MAX|> else c);;
      s ← get;
      now ← ktime_get;
      let ktime_end := s64 (now + u64 (1000000 * zcan_tx_timeout (cc_zcan s))) in
      tx_all fuel (tx_func_of hipri s) ktime_end msgs 0) Q w.
Proof.
  intros tmo base port Hclock Htmo Hfuel Hm Hdev Hw HQ. unfold upd_zcan, ktime_get.
  apply wp_bind, wp_modify. wp_simpl. apply wp_bind, wp_get. wp_simpl.
  apply wp_bind, wp_bind, wp_ask. intros t Ht. apply wp_ret. cbv zeta.
  set (s' := (w_st w)<|cc_zcan ::= _|>).
  assert (zcan_tx_timeout (cc_zcan s') = tmo) as Etmo.
  { unfold tmo, tx_timeout_of, s'. cbn. by destruct (zcan_tx_timeout (cc_zcan (w_st w)) =? 0). }
  assert (tx_func_of hipri s' = tx_func_of hipri s) as Efun.
  { unfold tx_func_of. by replace (cc_zdev s') with (cc_zdev s). }
  rewrite Etmo, Efun.
  destruct (idle_log _ _ _ _ _ Hw) as [evs Hl].
  pose proof (s64_lower t) as Hlow.
  assert (0 <= u64 (1000000 * tmo) <= 1000000 * tmo) as Hu.
  { unfold u64. split; [by apply Z.mod_pos_bound | by apply Z.mod_le; [lia |]]. }
  pose proof (s64_upper (s64 t + u64 (1000000 * tmo)) ltac:(lia)) as [U1 U2].
  apply (wp_tx_all (TxPort0 := port) _ base (w_log w) (s64 t) _ tmo) with fs;
    [lia | exact U2 | | exact Htmo | exact Hfuel | exact Hm | |].
  - intros e2. rewrite Hl, Ht. cbn [w_log]. rewrite Hl. apply Hclock.
  - eapply idle_calmly; [| by apply calmly_emit].
    apply idle_upd; [intros c; by destruct (zcan_tx_timeout c =? 0) |].
    exact (idle_from _ _ _ _ _ Hw).
  - intros rc k w' Hk Hcase Hw'. apply HQ; [done | done |]. rewrite Hl in Hw'.
    exact (idle_since _ _ _ _ _ _ Hw').
Qed.

(** the whole request: allocation, copy, sending, release *)
Lemma wp_tx_user fuel ioc_msgs num hipri mem fs w (Q : Z * Z -> world can_ctx -> Prop) :
  let s := w_st w in
  let tmo := tx_timeout_of (cc_zcan s) in
  let ok := idle (TxPort0 := tx_func_port Hb hipri s) (tx_func_of hipri s)
              (zcan_ip_reg (cc_zcan s)) (w_log w) in
  let msgs := user_msgs mem num in
  0 < num < 2 ^ 31 -> clock_ok (w_log w) -> user_stable (w_log w) ioc_msgs mem ->
  0 <= tmo -> tx_rounds tmo < Z.of_nat fuel -> ok fs w ->
  (forall rc k w',
     rc = BCAN_OK /\ k = length msgs \/
     (rc = BCAN_FAIL \/ rc = BCAN_TIMEOUT) /\ (k < length msgs)%nat ->
     ok (rev (map (fun m => zcan_words (bcan_to_zcan m)) (take k msgs)) ++ fs) w' ->
     Q (rc, Z.of_nat k) w') ->
  wp (zcan_tx_user fuel ioc_msgs num hipri) Q w.
Proof using Hb.
  intros s tmo ok msgs Hnum Hclock Hmem Htmo Hfuel Hw HQ.
  destruct (user_msgs_ok _ _ _ num Hmem) as [Hlen Hwf]. fold msgs in Hlen, Hwf.
  unfold zcan_tx_user. rewrite (s32_small num) by lia.
  assert (u64 (sizeof_bcan_msg * num) / 4 = 8 * num) as Esz.
  { unfold sizeof_bcan_msg. rewrite u64_small by lia.
    replace (32 * num) with (8 * num * 4) by lia. apply Z.div_mul. lia. }
  cbv zeta. rewrite Esz.
  assert (forall w', calmly w w' -> w_st w' = s /\ ok fs w') as Hok
    by (intros w' Hc; split; [apply Hc | by eapply idle_calmly]).
  apply wp_bind, wp_looks; [destruct (num =? 1); auto with basa |].
  intros bmsg w1 Hc1. specialize (Hok w1 Hc1) as [Hs1 Hw1].
  assert (forall rc k w',
    rc = BCAN_OK /\ k = length msgs \/
      (rc = BCAN_FAIL \/ rc = BCAN_TIMEOUT) /\ (k < length msgs)%nat ->
    ok (rev (map (fun m => zcan_words (bcan_to_zcan m)) (take k msgs)) ++ fs) w' ->
    wp (when (negb (bmsg =? 0)) (tell (KFree bmsg));; mret (rc, Z.of_nat k)) Q w') as Hend.
  { intros rc k w' Hcase Hw'. apply wp_bind, wp_looks; [auto with basa |].
    intros [] w2 Hc. apply wp_ret, HQ; [done |]. by eapply idle_calmly. }
  assert (forall w', ok fs w' -> wp (when (negb (bmsg =? 0)) (tell (KFree bmsg));;
    mret (BCAN_FAIL, 0)) Q w') as Hfail.
  { intros w' Hw'. apply (Hend _ 0%nat); [right; split; [by left | lia] | exact Hw']. }
  destruct (negb (num =? 1) && (bmsg =? 0)) eqn:Enomem.
  { apply andb_true_iff in Enomem as [_ ->%Z.eqb_eq]. by specialize (Hfail w1 Hw1). }
  unfold copy_from_user. apply wp_bind, wp_bind, wp_ask. intros nc _.
  assert (ok fs (emit (Ev (CopyFromUser ioc_msgs (4 * Z.of_nat (Z.to_nat (8 * num)))) nc) w1))
    as Hw2 by (by eapply idle_calmly, calmly_emit).
  destruct (nc =? 0).
  2:{ apply wp_ret. by apply wp_bind, wp_ret, Hfail. }
  apply wp_fmap, (wp_user_words (TxPort0 := tx_func_port Hb hipri s) _
    (zcan_ip_reg (cc_zcan s)) (w_log w) _ mem fs); [exact Hmem | exact Hw2 |].
  intros w3 Hw3 Hs3. cbn [w_st emit] in Hs3.
  replace (map mem _) with (map mem (seq 0 (8 * Z.to_nat num)))
    by (do 2 f_equal; rewrite Z2Nat.inj_mul; lia).
  apply wp_bind. rewrite Hs1 in Hs3.
  apply (wp_tx_sending _ _ _ s (w_log w) fs); rewrite ?Hs3; try done.
  intros rc k w' _ Hcase Hw'. by apply Hend.
Qed.

(** C6: a user's batch.  Whatever the device answers, [zcan_tx_user] returns
    (at most [tx_rounds] attempts per message); it hands to the device the
    conversions of the first [done] messages of the request, in order, each
    once and nothing else, through the register FIFO, the high-priority buffer
    or the DMA ring, whichever the request uses; the result is OK exactly when
    the whole batch went out, otherwise FAIL or TIMEOUT; no lock stays held. *)
Theorem tx_user_batch (w : world can_ctx) (fuel : nat) (ioc_msgs num : Z) (hipri : bool)
    (mem : nat -> Z) :
  let s := w_st w in
  let tmo := tx_timeout_of (cc_zcan s) in
  let frames := sent_frames hipri (tx_uses_dma s) (zcan_ip_reg (cc_zcan s)) in
  let msgs := user_msgs mem num in
  forall (Hnum : 0 < num < 2 ^ 31) (Hheld : w_held w = [])
    (Hready : tx_ready hipri (tx_uses_dma s) (cc_zchan s))
    (Hclock : clock_ok (w_log w)) (Hmem : user_stable (w_log w) ioc_msgs mem)
    (Htmo : 0 <= tmo) (Hfuel : tx_rounds tmo < Z.of_nat fuel),
  wp (zcan_tx_user fuel ioc_msgs num hipri) (fun '(rc, done) w' =>
    (rc = BCAN_OK /\ done = num \/
     (rc = BCAN_FAIL \/ rc = BCAN_TIMEOUT) /\ 0 <= done < num) /\
    length msgs = Z.to_nat num /\
    frames (w_log w') =
      rev (map (fun m => zcan_words (bcan_to_zcan m)) (take (Z.to_nat done) msgs))
      ++ frames (w_log w) /\
    w_held w' = []) w.
Proof using Hb.
  intros s tmo frames msgs Hnum Hheld Hready Hclock Hmem Htmo Hfuel.
  destruct (user_msgs_ok _ _ _ num Hmem) as [Hlen Hwf]. fold msgs in Hlen, Hwf.
  apply (wp_tx_user _ _ _ _ mem (frames (w_log w))); try done.
  { split; [by apply tx_func_port_inv | done | done | by exists [] |].
    apply tx_func_port_frames. }
  fold msgs. intros rc k w' Hcase [_ Hh _ _ Hf]. rewrite Nat2Z.id.
  rewrite tx_func_port_frames in Hf. split; [| by split_and!].
  destruct Hcase as [[-> ->]|[Hrc Hk]]; [left; split; [done | lia] | right; split; [done | lia]].
Qed.
End user_proof.

(** C7: one message through the normal FIFO.  The call returns after at most
    2015 events whatever the device answers, and [tx_outcome] gives its accesses of the
    device, reads with the values they gave and writes, in order, for each result:
    nothing is accessed when the IP is not started; the frame is written as its four
    words exactly when the status register said that there is room, at once or, when
    waiting, within 502 reads, and busy or fail is returned when it did not; OK is
    returned for a written frame, when polling once its end was seen, and the frame is
    then counted; nothing else changes and the locks are as before. *)
Theorem pio_tx_one_outcome `{Env} `{ModParams} (m : bcan_msg) (wait poll : bool)
    (w : world can_ctx) (Hb : zynq_bringup_param = false) (Hm : msg_wf m)
    (Hlk : L_zcan_pio_tx (zcan_ip_num (cc_zcan (w_st w))) ∉ w_held w) :
  let base := zcan_ip_reg (cc_zcan (w_st w)) in
  wp (zcan_pio_tx_one m wait poll) (fun rc w' => exists acs,
    tx_outcome (started (w_st w)) wait poll (addr_add base ZCAN_IP_PIO_STATUS)
      (addr_add base ZCAN_IP_ISR) ZCAN_IP_PIO_TX_FULL (ack_writes base poll)
      (frame_writes base ZCAN_IP_TXFIFO_ID ZCAN_IP_TXFIFO_DLC ZCAN_IP_TXFIFO_DW1
         ZCAN_IP_TXFIFO_DW2 m) rc acs /\
    follows w w' 2015 acs /\ w_held w' = w_held w /\
    w_st w' = (if rc =? BCAN_OK
               then (w_st w)<|cc_zcan ::= stats_upd (stats_inc_at CAN_STATS_PIO_TX 1)|>
               else w_st w)) w.
Proof.
  intros base. unfold zcan_pio_tx_one. apply wp_pio_tx; [exact Hb | exact Hm | exact Hlk |].
  intros rc w' ws Ho Hh Hs Hf. exists ws. by split_and!.
Qed.

(** ** Witnesses *)
Module TxWitness.
(** a device that answers 0 (room in every FIFO) and a clock that advances by
    150 us per sleep *)
Definition env_clock : Env := fun l c =>
  match c with
  | KtimeGet => Z.min (2 ^ 63 - 1) (150000 * sleeps l)
  | _ => 0
  end.
Definition can0 : can_ctx :=
  CanCtx zdev_sample zchan_sample
    (zcan_sample<|zcan_pio_state := ZYNQ_STATE_START|><|zcan_tx_timeout := 10|>).
Definition world0 : world can_ctx := World [] [] can0.
#[local] Existing Instance env_clock.
#[local] Existing Instance params_default.

Lemma clock0 : clock_ok [].
Proof.
  intros e1 e2. pose proof (sleeps_nonneg e1). pose proof (sleeps_nonneg e2).
  unfold env_ret, env_clock. rewrite !app_nil_r, sleeps_app. unfold s64.
  rewrite !Z.mod_small by lia. lia.
Qed.

Lemma tx_user_batch_witness :
  wp (zcan_tx_user 100 64 1 false) (fun '(rc, done) w' =>
    (rc = BCAN_OK /\ done = 1 \/ (rc = BCAN_FAIL \/ rc = BCAN_TIMEOUT) /\ 0 <= done < 1) /\
    length (user_msgs (fun _ => 0) 1) = 1%nat /\
    sent_frames false false (BAR2, 0) (w_log w') =
      rev (map (fun m => zcan_words (bcan_to_zcan m))
        (take (Z.to_nat done) (user_msgs (fun _ => 0) 1))) ++ [] /\
    w_held w' = []) world0.
Proof.
  apply (tx_user_batch (H := env_clock) (H0 := params_default) eq_refl world0 100 64 1 false (fun _ => 0)).
  - lia.
  - reflexivity.
  - intros _ Hd. discriminate Hd.
  - exact clock0.
  - intros evs i. reflexivity.
  - vm_compute. discriminate.
  - vm_compute. reflexivity.
Defined.

(** the same request, evaluated: one message sent *)
Example tx_user_runs :
  match zcan_tx_user 100 64 1 false world0 with
  | Ret (rc, done) w => rc = BCAN_OK /\ done = 1 /\ length (mmio_writes (w_log w)) = 4%nat
  | _ => False
  end.
Proof. vm_compute. auto. Qed.

Lemma pio_tx_one_outcome_witness :
  wp (zcan_pio_tx_one bcan_msg_zero true true) (fun rc w' => exists ws,
    tx_outcome true true true (BAR2, ZCAN_IP_PIO_STATUS) (BAR2, ZCAN_IP_ISR) ZCAN_IP_PIO_TX_FULL
      (ack_writes (BAR2, 0) true)
      (frame_writes (BAR2, 0) ZCAN_IP_TXFIFO_ID ZCAN_IP_TXFIFO_DLC ZCAN_IP_TXFIFO_DW1
         ZCAN_IP_TXFIFO_DW2 bcan_msg_zero) rc ws /\
    follows world0 w' 2015 ws /\ w_held w' = [] /\
    w_st w' = (if rc =? BCAN_OK
               then can0<|cc_zcan ::= stats_upd (stats_inc_at CAN_STATS_PIO_TX 1)|>
               else can0)) world0.
Proof.
  apply (pio_tx_one_outcome bcan_msg_zero true true world0).
  - reflexivity.
  - split; vm_compute; split; discriminate || reflexivity.
  - apply not_elem_of_nil.
Defined.
End TxWitness.
