(* ===== verification/CanRx.v ===== *)
(** * CAN reception ([basa_can.c]): the receive ring filled in interrupt context
    and drained by a reader

    [zcan_pio_rx_proc] and [zcan_dma_rx_proc] push into the ring, dropping the
    64 oldest messages when it is full; [zcan_rx_user] copies from it to the
    user's buffer and waits for more.  While the reader waits, the environment
    says how many times the receive interrupt is served. *)

From S2P Require Import Ring Device CanMsg Chan CanChip CanTx.

(** ** Definitions *)

Section rx.
Context `{Env} `{ModParams}.

(** check if we have received enough data as requested *)
Definition zcan_usr_rx_complete : M can_ctx unit :=
  ip ← zcan_ip;
  spin_lock (L_zcan_pio_rx ip);;
  c ← zcan;
  if zcan_usr_buf c =? 0 then spin_unlock (L_zcan_pio_rx ip)
  else
    (* requested Rx number *)
    let req_num := u32 (zcan_usr_buf_num c - zcan_usr_rx_num c) in
    (* already received number *)
    let rx_num :=
      if zcan_buf_rx_head c <=? zcan_buf_rx_tail c
      then u32 (zcan_buf_rx_tail c - zcan_buf_rx_head c)
      else u32 (zcan_buf_rx_num c + zcan_buf_rx_tail c - zcan_buf_rx_head c) in
    upd_zcan (fun c => c<|zcan_pio_rx_last_chk_head := zcan_buf_rx_head c|>
      <|zcan_pio_rx_last_chk_tail := zcan_buf_rx_tail c|>
      <|zcan_pio_rx_last_chk_cnt := s32 rx_num|>
      <|zcan_pio_rx_last_chk_seq := zcan_usr_rx_seq c|>);;
    (* received enough *)
    when ((0 <? rx_num) && (req_num <=? rx_num)) (tell (Complete (C_zcan_usr_rx ip)));;
    spin_unlock (L_zcan_pio_rx ip).

(** the messages from [head] on, until the ring or the request is exhausted:
    [inl head] the next head, [inr head] the message that could not be copied *)
Definition copy_loop (c0 : zynq_can) : M can_ctx (Z + Z) :=
  loop (S (Z.to_nat (zcan_buf_rx_num c0)))
    (fun head =>
       c ← zcan;
       if head =? zcan_buf_rx_tail c then mret (inr (inl head))
       else if zcan_usr_rx_num c =? zcan_usr_buf_num c then mret (inr (inl head))
       else
         cmsg ← array_get (zcan_buf_rx_msg c) head;
         let buf := zcan_usr_buf c + sizeof_bcan_msg * zcan_usr_rx_num c in
         (* converted in place *)
         let bmsg := zcan_to_bcan cmsg in
         upd_zcan (fun c => c<|zcan_buf_rx_msg ::= <[Z.to_nat head := bmsg]>|>);;
         ok ← copy_to_user buf sizeof_bcan_msg (msg_words bmsg);
         if negb ok then mret (inr (inr head))
         else
           upd_zcan (fun c => c<|zcan_usr_rx_num ::= Z.add 1|>);;
           head' ← c_rem (head + 1) (zcan_buf_rx_num c);
           mret (inl head'))
    (zcan_buf_rx_head c0).

(** copy the received CAN message(s) to userland buffer *)
Definition zcan_copy_to_user : M can_ctx Z :=
  c ← zcan;
  failed ←
    (if (zcan_usr_rx_num c =? zcan_usr_buf_num c)
        || (zcan_buf_rx_head c =? zcan_buf_rx_tail c)
     then mret false
     else
       r ← copy_loop c;
       match r with
       | inl head => upd_zcan (fun c => c<|zcan_buf_rx_head := head|>);; mret false
       | inr head => upd_zcan (fun c => c<|zcan_buf_rx_head := head|>);; mret true
       end);
  if (failed : bool) then mret BCAN_FAIL
  else
    c ← zcan;
    mret (if zcan_usr_rx_num c <? zcan_usr_buf_num c then BCAN_PARTIAL_OK else BCAN_OK).

(** clear all the buffered messages *)
Definition zcan_clear_buf_rx : M can_ctx unit :=
  ip ← zcan_ip;
  spin_lock (L_zcan_pio_rx ip);;
  upd_zcan (fun c => c<|zcan_buf_rx_head := zcan_buf_rx_tail c|>);;
  spin_unlock (L_zcan_pio_rx ip).

(** free [inc] cells of the ring *)
Definition zcan_buf_inc_rx_head (inc : Z) : M can_ctx unit :=
  ip ← zcan_ip;
  spin_lock (L_zcan_pio_rx ip);;
  c ← zcan;
  head ← c_rem (zcan_buf_rx_head c + inc) (zcan_buf_rx_num c);
  upd_zcan (fun c => c<|zcan_buf_rx_head := head|>);;
  spin_unlock (L_zcan_pio_rx ip);;
  on_chan (zchan_ZYNQ_STATS_LOGX CHAN_STATS_RX_DROP inc 0).

Definition zcan_buf_rx_full : M can_ctx bool :=
  c ← zcan;
  rx_tail_next ← c_rem (zcan_buf_rx_tail c + 1) (zcan_buf_rx_num c);
  mret (rx_tail_next =? zcan_buf_rx_head c).

(** if full, free some buffer by increasing the rx_head *)
Definition make_room : M can_ctx unit :=
  full ← zcan_buf_rx_full;
  when full (zcan_buf_inc_rx_head ZCAN_IP_RXFIFO_MAX).

(** change the cell at index [i] of the ring *)
Definition upd_cell (i : Z) (f : bcan_msg -> bcan_msg) : M can_ctx unit :=
  c ← zcan;
  m ← array_get (zcan_buf_rx_msg c) i;
  upd_zcan (fun c => c<|zcan_buf_rx_msg ::= <[Z.to_nat i := f m]>|>).

(** software timestamp of a cell: seconds, and nanoseconds turned to
    microseconds in place *)
Definition stamp_cell (i : Z) : M can_ctx unit :=
  sec ← ask KtimeSec;
  nsec ← ask KtimeNsec;
  upd_cell i (fun m => m<|msg_tv_sec := sec|><|msg_tv_usec := Z.quot nsec 1000|>).

(** store the tail, count and notify the receiver *)
Definition publish_tail (stat : M can_ctx unit) (rx_tail : Z) : M can_ctx unit :=
  upd_zcan (fun c => c<|zcan_buf_rx_tail := rx_tail|>);;
  stat;;
  zcan_usr_rx_complete.

(** one message of the PIO receive FIFO; [None] when no data is pending *)
Definition pio_rx_one (rx_tail : Z) : M can_ctx (option Z) :=
  status ← zcan_reg_read ZCAN_IP_PIO_STATUS;
  if (status =? 0xFFFFFFFF) || negb (tst status ZCAN_IP_PIO_RX_READY) then mret None
  else
    make_room;;
    (* read out one message *)
    stamp_cell rx_tail;;
    id ← zcan_reg_read ZCAN_IP_RXFIFO_ID;
    upd_cell rx_tail (fun m => m<|mw0 := id|>);;
    len ← zcan_reg_read ZCAN_IP_RXFIFO_DLC;
    upd_cell rx_tail (fun m => m<|mw1 := len|>);;
    data1 ← zcan_reg_read ZCAN_IP_RXFIFO_DW1;
    upd_cell rx_tail (fun m => m<|mw2 := data1|>);;
    data2 ← zcan_reg_read ZCAN_IP_RXFIFO_DW2;
    upd_cell rx_tail (fun m => m<|mw3 := data2|>);;
    (* clear the Rx interrupt bits *)
    zcan_reg_write ZCAN_IP_PIO_STATUS ZCAN_IP_PIO_RX_READY;;
    (* NEXT tail *)
    c ← zcan;
    next ← c_rem (rx_tail + 1) (zcan_buf_rx_num c);
    publish_tail (zcan_ZYNQ_STATS CAN_STATS_PIO_RX) next;;
    mret (Some next).

(** message rx handling in PIO mode, called in interrupt context: get the
    received messages from H/W to the message buffer ring *)
Definition zcan_pio_rx_proc (fuel : nat) : M can_ctx unit :=
  c ← zcan;
  loop fuel (fun rx_tail =>
    r ← pio_rx_one rx_tail;
    mret (match r with Some next => inl next | None => inr tt end)) (zcan_buf_rx_tail c).

(** [n] 32-bit words the device stored at [p] *)
Fixpoint dma_words (p : Z) (n : nat) : M can_ctx (list Z) :=
  match n with
  | O => mret []
  | S n' => x ← ask (DmaWord p); l ← dma_words (p + 4) n'; mret (u32 x :: l)
  end.

(** overwrite a cell with the words of a DMA message: four, or eight with the
    hardware's timestamp *)
Definition cell_of_words (l : list Z) (m : bcan_msg) : bcan_msg :=
  match l with
  | [a; b; c; d] => m<|mw0 := a|><|mw1 := b|><|mw2 := c|><|mw3 := d|>
  | _ => match msgs_of_words l with x :: _ => x | [] => m end
  end.

(** message rx handling in DMA mode *)
Definition zcan_dma_rx_proc : M can_ctx unit :=
  s ← get;
  let hw_ts := negb (zcan_rx_hw_ts (cc_zdev s) =? 0) in
  let msgsz := if hw_ts then sizeof_bcan_msg else sizeof_zcan_msg in
  tail0 ← on_chan (zchan_reg_read ZYNQ_CH_RX_TAIL);
  (* align the tail to the beginning of a message *)
  let rx_tail := Z.land tail0 (Z.lnot (msgsz - 1)) in
  rx ← on_chan rx_tbl;
  let rx_head := zchan_rx_head rx in
  if (zchan_rx_size rx <=? rx_head) || (zchan_rx_size rx <=? rx_tail) then mret tt
  else
    on_chan (upd_rx (fun rx => rx<|zchan_rx_tail := rx_tail|>));;
    rx_off ← loop (S (Z.to_nat (zchan_rx_size rx)))
      (fun '(rx_off, msg, pio_rx_tail) =>
         if rx_off =? rx_tail then mret (inr rx_off)
         else
           msg ← (if (rx_off =? rx_head) || (ZCHAN_RX_BUF_OFFSET rx rx_off =? 0)
                  then fst <$> on_chan (zchan_rx_off2addr rx_off)
                  else mret (msg + msgsz));
           make_room;;
           (* copy out one CAN message *)
           words ← dma_words msg (Z.to_nat (msgsz / 4));
           upd_cell pio_rx_tail (cell_of_words words);;
           when (negb hw_ts || zynq_disable_can_hw_ts) (stamp_cell pio_rx_tail);;
           (* NEXT tail *)
           c ← zcan;
           next ← c_rem (pio_rx_tail + 1) (zcan_buf_rx_num c);
           publish_tail (on_chan (zchan_ZYNQ_STATS CHAN_STATS_RX)) next;;
           mret (inl (Z.land (u32 (rx_off + msgsz)) (u32 (zchan_rx_size rx - 1)), msg, next)))
      (rx_head, 0, zcan_buf_rx_tail (cc_zcan s));
    (* update h/w head index *)
    on_chan (zchan_reg_write ZYNQ_CH_RX_HEAD rx_off);;
    on_chan (upd_rx (fun rx => rx<|zchan_rx_head := rx_off|>)).

Definition zcan_rx_proc (fuel : nat) : M can_ctx unit :=
  s ← get;
  if zcan_rx_dma (cc_zdev s) =? 0 then zcan_pio_rx_proc fuel else zcan_dma_rx_proc.

(** [wait_for_completion_interruptible_timeout]: receive interrupts are served
    while the reader sleeps; the answer is negative when a signal came, 0 on a
    timeout, the remaining jiffies otherwise *)
Definition wait_usr_rx (fuel : nat) (ip timeout : Z) : M can_ctx Z :=
  k ← ask (ConcurrentRx ip);
  for_ (Z.to_nat k) 0 (fun _ => zcan_rx_proc fuel);;
  t ← ask (WaitCompletion (C_zcan_usr_rx ip) timeout);
  mret (s64 t).

(** [done:] the reader leaves *)
Definition rx_user_done (ip ret : Z) : M can_ctx (Z * Z) :=
  c ← zcan;
  upd_zcan (fun c => c<|zcan_usr_rx_num := 0|><|zcan_usr_buf_num := 0|><|zcan_usr_buf := 0|>);;
  spin_unlock (L_zcan_pio_rx ip);;
  mret (ret, zcan_usr_rx_num c).

(** Rx CAN messages to user: result code and number of messages received *)
Definition zcan_rx_user (fuel : nat) (ioc_msgs ioc_msg_num : Z) : M can_ctx (Z * Z) :=
  ip ← zcan_ip;
  spin_lock (L_zcan_pio_rx ip);;
  upd_zcan (fun c => c<|zcan_usr_rx_seq ::= Z.add 1|>);;
  upd_zcan (fun c => if zcan_rx_timeout c =? 0
                     then c<|zcan_rx_timeout := ZCAN_TIMEOUT_MAX|> else c);;
  c ← zcan;
  if negb (zcan_usr_buf c =? 0) then
    spin_unlock (L_zcan_pio_rx ip);;
    mret (BCAN_DEV_BUSY, 0)
  else
    upd_zcan (fun c => c<|zcan_usr_buf := ioc_msgs|><|zcan_usr_buf_num := s32 ioc_msg_num|>);;
    (* copy existing data to userland first *)
    ret ← zcan_copy_to_user;
    if ret =? BCAN_OK then rx_user_done ip ret
    else
      tell (InitCompletion (C_zcan_usr_rx ip));;
      spin_unlock (L_zcan_pio_rx ip);;
      (* wait for more data *)
      zcan_ZYNQ_STATS CAN_STATS_USR_RX_WAIT;;
      c ← zcan;
      timeout ← wait_usr_rx fuel ip (msecs_to_jiffies (zcan_rx_timeout c));
      if timeout <? 0 then
        zcan_ZYNQ_STATS CAN_STATS_USR_RX_WAIT_INT;;
        spin_lock (L_zcan_pio_rx ip);;
        rx_user_done ip BCAN_ERR
      else
        when (timeout =? 0) (zcan_ZYNQ_STATS CAN_STATS_USR_RX_TIMEOUT);;
        spin_lock (L_zcan_pio_rx ip);;
        (* copy newly received data *)
        ret ← zcan_copy_to_user;
        if ret =? BCAN_PARTIAL_OK then
          zcan_ZYNQ_STATS CAN_STATS_USR_RX_PARTIAL;;
          rx_user_done ip (if 0 <? timeout then BCAN_ERR else BCAN_TIMEOUT)
        else rx_user_done ip ret.
End rx.

(** ** The receive ring as a bounded queue *)

(** cells in range, room for more than the messages dropped at once, the
    statistics a drop is counted in *)
Record rx_wf (s : can_ctx) : Prop := {
  rx_ring_ok : ring_wf (zcan_buf_rx_msg (cc_zcan s)) (zcan_buf_rx_num (cc_zcan s))
                 (zcan_buf_rx_head (cc_zcan s)) (zcan_buf_rx_tail (cc_zcan s));
  rx_num_min : ZCAN_IP_RXFIFO_MAX + 1 < zcan_buf_rx_num (cc_zcan s);
  rx_stats_ok : CHAN_STATS_RX_DROP < Z.of_nat (length (zchan_stats (cc_zchan s)))
}.

Definition rx_queue (c : zynq_can) : list bcan_msg :=
  ring_list (zcan_buf_rx_msg c) (zcan_buf_rx_num c) (zcan_buf_rx_head c) (zcan_buf_rx_tail c).

(** specification of a push: the 64 oldest messages make room in a full queue *)
Definition rx_push {A} (num : Z) (q : list A) (m : A) : list A :=
  (if Z.of_nat (length q) =? num - 1 then drop (Z.to_nat ZCAN_IP_RXFIFO_MAX) q else q) ++ [m].

(** what the receive path leaves alone: everything but the ring, the record of
    the last check and the statistics *)
Definition rx_frame (s : can_ctx) : can_ctx :=
  s<|cc_zcan ::= fun c => c<|zcan_buf_rx_msg := []|><|zcan_buf_rx_head := 0|>
       <|zcan_buf_rx_tail := 0|><|zcan_pio_rx_last_chk_head := 0|>
       <|zcan_pio_rx_last_chk_tail := 0|><|zcan_pio_rx_last_chk_cnt := 0|>
       <|zcan_pio_rx_last_chk_seq := 0|><|zcan_stats := []|>|>
   <|cc_zchan ::= fun c => c<|zchan_stats := []|>|>.

(** successful copies to user memory, newest first *)
Definition user_stores (l : list event) : list (Z * list Z) :=
  omap (fun e => match ev_call e with
                 | CopyToUser dst _ data => if ev_ret e =? 0 then Some (dst, data) else None
                 | _ => None end) l.

(** every attempt to copy to user memory, with its answer, and where those that were
    refused went *)
Definition user_copies (l : list event) : list (Z * list Z * Z) :=
  omap (fun e => match ev_call e with
                 | CopyToUser dst _ data => Some (dst, data, ev_ret e)
                 | _ => None end) l.
Definition refusals (l : list event) : list Z :=
  omap (fun '(dst, _, r) => if r =? 0 then None else Some dst) (user_copies l).

(** ** Lemmas *)

Lemma user_copies_app l1 l2 : user_copies (l1 ++ l2) = user_copies l1 ++ user_copies l2.
Proof. apply omap_app. Qed.

Lemma user_copies_calm evs : Forall calm evs -> user_copies evs = [].
Proof.
  induction 1 as [|[c r] l Hc _ IH]; [done |]. unfold calm in Hc. cbn in Hc |- *.
  by destruct c.
Qed.

Lemma refusals_app l1 l2 : refusals (l1 ++ l2) = refusals l1 ++ refusals l2.
Proof. unfold refusals. by rewrite user_copies_app, omap_app. Qed.

Lemma user_copies_none l : user_copies l = [] -> user_stores l = [] /\ refusals l = [].
Proof.
  intros Hl. split; [| unfold refusals; by rewrite Hl].
  induction l as [|[c r] l IH]; [done |]. cbn in Hl |- *. destruct c; cbn in Hl |- *; try done; by apply IH.
Qed.

Lemma user_stores_app l1 l2 : user_stores (l1 ++ l2) = user_stores l1 ++ user_stores l2.
Proof. apply omap_app. Qed.

Lemma user_stores_calm evs : Forall calm evs -> user_stores evs = [].
Proof.
  induction 1 as [|[c r] l Hc _ IH]; [done |]. unfold calm in Hc. cbn in Hc |- *.
  by destruct c.
Qed.

Section rx_lemmas.
Context `{Env} `{ModParams}.

Lemma rem_mod a b : 0 <= a -> 0 < b -> Z.rem a b = a mod b.
Proof. intros. by apply Z.rem_mod_nonneg. Qed.


(** counting and throttled logging change the statistics only *)
Lemma wp_chan_stats_log id count interval (w : world chan_ctx) (Q : unit -> world chan_ctx -> Prop) :
  0 <= id < Z.of_nat (length (zchan_stats (ch_zchan (w_st w)))) ->
  (forall st evs, length st = length (zchan_stats (ch_zchan (w_st w))) -> Forall calm evs ->
     Q tt (World (evs ++ w_log w) (w_held w) ((w_st w)<|ch_zchan ::= fun c => c<|zchan_stats := st|>|>))) ->
  wp (zchan_ZYNQ_STATS_LOGX id count interval) Q w.
Proof.
  intros Hid HQ. unfold zchan_ZYNQ_STATS_LOGX, ZYNQ_STATS_LOGX, zynq_stats_log, jiffies.
  destruct w as [l h [zdev c]]. cbn [w_st ch_zchan] in *.
  apply wp_zoom, wp_bind, wp_bind, wp_modify, wp_bind, wp_gets, wp_bind, wp_array_get. cbn.
  set (st := stats_inc_at id count (zchan_stats c)).
  assert (length st = length (zchan_stats c)) as Hst by apply length_alter.
  destruct (zlookup_Some st id) as [x Hx]; [lia |]. exists x. split; [exact Hx |].
  assert (forall evs, Forall calm evs -> Q tt (World (evs ++ l) h (ChanCtx zdev (c<|zchan_stats := st|>))))
    as HQ0 by (intros; by apply (HQ st)).
  assert (forall evs j, Forall calm evs ->
    Q tt (World (evs ++ l) h (ChanCtx zdev
      (c<|zchan_stats := alter (fun s => s<|ts := j|>) (Z.to_nat id) st|>)))) as HQ1.
  { intros. apply (HQ _); [by rewrite length_alter | done]. }
  apply wp_bind. destruct (tst zynq_trace_param ZYNQ_TRACE_STATS).
  - apply wp_ret. wp_steps. apply (HQ1 [_]). by repeat constructor.
  - wp_steps; [apply (HQ0 [_]) | apply (HQ1 [_; _])]; by repeat constructor.
Qed.

(** a run of the receive path: locks as before, only its own fields change *)
Definition rx_run (w w' : world can_ctx) (evs : list event) : Prop :=
  w_log w' = evs ++ w_log w /\ w_held w' = w_held w /\ rx_frame (w_st w') = rx_frame (w_st w) /\
  user_copies evs = [].

Lemma rx_run_trans w1 w2 w3 e1 e2 :
  rx_run w1 w2 e1 -> rx_run w2 w3 e2 -> rx_run w1 w3 (e2 ++ e1).
Proof.
  intros (L1 & H1 & F1 & U1) (L2 & H2 & F2 & U2). split; [by rewrite L2, L1, app_assoc |].
  split; [congruence |]. split; [congruence |]. by rewrite user_copies_app, U1, U2.
Qed.

Lemma rx_frame_num s s' :
  rx_frame s' = rx_frame s ->
  zcan_buf_rx_num (cc_zcan s') = zcan_buf_rx_num (cc_zcan s) /\
  zcan_ip_num (cc_zcan s') = zcan_ip_num (cc_zcan s) /\
  zcan_ip_reg (cc_zcan s') = zcan_ip_reg (cc_zcan s) /\ cc_zdev s' = cc_zdev s.
Proof. destruct s as [d c z], s' as [d' c' z'], z, z', c, c'. cbn. intros [= ]. by subst. Qed.

Definition rx_lock_free (w : world can_ctx) : Prop :=
  L_zcan_pio_rx (zcan_ip_num (cc_zcan (w_st w))) ∉ w_held w.

(** telling the reader: only the record of the check changes *)
Lemma wp_usr_rx_complete w (Q : unit -> world can_ctx -> Prop) :
  rx_lock_free w ->
  (forall w' evs, rx_run w w' evs -> Forall calm evs ->
     (forall A (f : zynq_can -> A) (Hf : forall c a b d e, f (c<|zcan_pio_rx_last_chk_head := a|>
       <|zcan_pio_rx_last_chk_tail := b|><|zcan_pio_rx_last_chk_cnt := d|>
       <|zcan_pio_rx_last_chk_seq := e|>) = f c), f (cc_zcan (w_st w')) = f (cc_zcan (w_st w))) ->
     cc_zchan (w_st w') = cc_zchan (w_st w) -> Q tt w') ->
  wp zcan_usr_rx_complete Q w.
Proof.
  intros Hl HQ. unfold zcan_usr_rx_complete, zcan_ip, rx_lock_free in *.
  set (ip := zcan_ip_num (cc_zcan (w_st w))) in *.
  apply wp_bind, wp_gets. fold ip. apply wp_bind, wp_spin_lock; [done |].
  unfold zcan. apply wp_bind, wp_gets. wp_simpl.
  destruct (zcan_usr_buf (cc_zcan (w_st w)) =? 0).
  - eapply wp_spin_unlock; [done | done |].
    eapply (HQ _ [_; _]); [by split_and! | by repeat constructor | done | done].
  - unfold upd_zcan. apply wp_bind, wp_modify. apply wp_bind, wp_when; intros _.
    + apply wp_tell. eapply wp_spin_unlock; [done | done |].
      eapply (HQ _ [_; _; _]); [by split_and! | by repeat constructor | | done].
      intros A f Hf. apply (Hf (cc_zcan (w_st w))).
    + eapply wp_spin_unlock; [done | done |].
      eapply (HQ _ [_; _]); [by split_and! | by repeat constructor | | done].
      intros A f Hf. apply (Hf (cc_zcan (w_st w))).
Qed.

(** room for one message: the queue loses its 64 oldest when it is full *)
Lemma wp_make_room w (Q : unit -> world can_ctx -> Prop) :
  rx_wf (w_st w) -> rx_lock_free w ->
  (forall w' evs, rx_run w w' evs -> Forall calm evs -> rx_wf (w_st w') ->
     let c := cc_zcan (w_st w) in let c' := cc_zcan (w_st w') in
     zcan_buf_rx_tail c' = zcan_buf_rx_tail c ->
     (zcan_buf_rx_tail c' + 1) mod zcan_buf_rx_num c' <> zcan_buf_rx_head c' ->
     rx_queue c' = (if Z.of_nat (length (rx_queue c)) =? zcan_buf_rx_num c - 1
                    then drop (Z.to_nat ZCAN_IP_RXFIFO_MAX) (rx_queue c) else rx_queue c) ->
     Q tt w') ->
  wp make_room Q w.
Proof.
  intros Hwf Hl HQ. pose proof Hwf as [(Hn & Hlen & Hh & Ht) Hmin Hst].
  unfold rx_lock_free in Hl.
  unfold make_room, zcan_buf_rx_full, zcan. apply wp_bind, wp_bind, wp_gets.
  destruct w as [l h s]. cbn [w_st w_log w_held] in *. set (c := cc_zcan s) in *.
  apply wp_bind, wp_c_rem; [lia | lia |]. apply wp_ret.
  pose proof (ring_full (zcan_buf_rx_num c) (zcan_buf_rx_head c) (zcan_buf_rx_tail c) Hn Hh Ht) as Hfull.
  pose proof (ring_len_range (zcan_buf_rx_num c) (zcan_buf_rx_head c) (zcan_buf_rx_tail c) ltac:(lia)) as Hr.
  assert (Z.of_nat (length (rx_queue c)) =
    ring_len (zcan_buf_rx_num c) (zcan_buf_rx_head c) (zcan_buf_rx_tail c)) as Hq.
  { unfold rx_queue. rewrite ring_list_length. lia. }
  apply wp_when; intros E.
  - apply Z.eqb_eq, Hfull in E. unfold zcan_buf_inc_rx_head, zcan_ip, zcan, upd_zcan.
    apply wp_bind, wp_gets. apply wp_bind, wp_spin_lock; [done |].
    apply wp_bind, wp_gets. wp_simpl. fold c.
    apply wp_bind, wp_c_rem; [unfold ZCAN_IP_RXFIFO_MAX; lia | lia |].
    apply wp_bind, wp_modify. apply wp_bind. eapply wp_spin_unlock; [done | done |].
    unfold on_chan. apply wp_zoom, wp_chan_stats_log; [split; [done | exact Hst] |].
    intros st evs Hst' Hc. cbn [w_log w_held w_st].
    assert (0 <= ZCAN_IP_RXFIFO_MAX < zcan_buf_rx_num c - 1) as Hmax
      by (unfold ZCAN_IP_RXFIFO_MAX in *; lia).
    set (head := (zcan_buf_rx_head c + ZCAN_IP_RXFIFO_MAX) mod zcan_buf_rx_num c).
    assert (0 <= head < zcan_buf_rx_num c) as Hhd by (apply Z.mod_pos_bound; lia).
    pose proof (ring_len_drop (zcan_buf_rx_num c) (zcan_buf_rx_head c) (zcan_buf_rx_tail c)
      ZCAN_IP_RXFIFO_MAX Hn ltac:(lia)) as Hd. fold head in Hd.
    eapply (HQ _ (evs ++ [_; _])).
    + split; [by rewrite <- app_assoc |]. split; [done |]. split; [done |].
      by rewrite user_copies_app, (user_copies_calm evs).
    + apply Forall_app. split; [exact Hc | by repeat constructor].
    + split; [exact (conj Hn (conj Hlen (conj Hhd Ht))) | exact Hmin |].
      cbn. cbn in Hst'. rewrite Hst'. exact Hst.
    + done.
    + change ((zcan_buf_rx_tail c + 1) mod zcan_buf_rx_num c <> head). intros Hf.
      apply ring_full in Hf; [| done..]. rewrite Hd in Hf. unfold ZCAN_IP_RXFIFO_MAX in *. lia.
    + rewrite Hq, E, Z.eqb_refl. apply ring_list_drop; lia.
  - apply Z.eqb_neq in E.
    apply (HQ _ []); [by split_and! | done | done | done | done |].
    destruct (Z.eqb_spec (Z.of_nat (length (rx_queue c))) (zcan_buf_rx_num c - 1)); [| done].
    exfalso. apply E, Hfull. lia.
Qed.

(** two states with the same ring *)
Definition ring_same (s s' : can_ctx) : Prop :=
  rx_frame s' = rx_frame s /\
  zcan_buf_rx_msg (cc_zcan s') = zcan_buf_rx_msg (cc_zcan s) /\
  zcan_buf_rx_head (cc_zcan s') = zcan_buf_rx_head (cc_zcan s) /\
  zcan_buf_rx_tail (cc_zcan s') = zcan_buf_rx_tail (cc_zcan s) /\
  length (zchan_stats (cc_zchan s')) = length (zchan_stats (cc_zchan s)).

Lemma ring_same_queue s s' :
  ring_same s s' -> rx_queue (cc_zcan s') = rx_queue (cc_zcan s) /\ (rx_wf s -> rx_wf s').
Proof.
  intros (Hf & Hm & Hh & Ht & Hl). destruct (rx_frame_num _ _ Hf) as (Hn & _).
  unfold rx_queue. rewrite Hn, Hm, Hh, Ht. split; [done |].
  intros [? ? ?]. split; rewrite ?Hn, ?Hm, ?Hh, ?Ht, ?Hl; done.
Qed.

(** counting changes nothing of the ring *)
Definition counts (m : M can_ctx unit) : Prop :=
  forall w (Q : unit -> world can_ctx -> Prop),
    (forall s', ring_same (w_st w) s' -> Q tt (World (w_log w) (w_held w) s')) -> wp m Q w.

Lemma counts_can id : counts (zcan_ZYNQ_STATS id).
Proof.
  intros w Q HQ. unfold zcan_ZYNQ_STATS, ZYNQ_STATS. apply wp_zoom, wp_modify, HQ. done.
Qed.

Lemma counts_chan id : counts (on_chan (zchan_ZYNQ_STATS id)).
Proof.
  intros w Q HQ. unfold on_chan, zchan_ZYNQ_STATS, ZYNQ_STATS. apply wp_zoom, wp_zoom, wp_modify, HQ.
  split_and!; try done. cbn. apply length_alter.
Qed.

(** the state with message [m] in cell [i] *)
Definition with_cell (s : can_ctx) (i : Z) (m : bcan_msg) : can_ctx :=
  s<|cc_zcan ::= fun c => c<|zcan_buf_rx_msg ::= <[Z.to_nat i := m]>|>|>.

Lemma wp_upd_cell s i m f l h (Q : unit -> world can_ctx -> Prop) :
  0 <= i < Z.of_nat (length (zcan_buf_rx_msg (cc_zcan s))) ->
  Q tt (World l h (with_cell s i (f m))) ->
  wp (upd_cell i f) Q (World l h (with_cell s i m)).
Proof.
  intros Hi HQ. unfold upd_cell, zcan, upd_zcan. apply wp_bind, wp_gets, wp_bind, wp_array_get.
  cbn [w_st]. exists m. split.
  - unfold zlookup. destruct (Z.ltb_spec i 0); [lia |]. cbn. apply list_lookup_insert_eq. lia.
  - apply wp_modify. revert HQ. destruct s as [d ch []]. unfold with_cell, fset. cbn.
    by rewrite list_insert_insert_eq.
Qed.

Lemma wp_upd_cell_any s i f l h (Q : unit -> world can_ctx -> Prop) :
  0 <= i < Z.of_nat (length (zcan_buf_rx_msg (cc_zcan s))) ->
  (forall m, Q tt (World l h (with_cell s i (f m)))) ->
  wp (upd_cell i f) Q (World l h s).
Proof.
  intros Hi HQ. destruct (zlookup_Some (zcan_buf_rx_msg (cc_zcan s)) i Hi) as [m Hm].
  unfold upd_cell, zcan, upd_zcan. apply wp_bind, wp_gets, wp_bind, wp_array_get.
  exists m. split; [exact Hm |]. apply wp_modify, HQ.
Qed.

(** the cell filled, the tail moves over it and the reader is told *)
Lemma wp_publish stat s m l h (Q : unit -> world can_ctx -> Prop) :
  let c := cc_zcan s in
  let next := (zcan_buf_rx_tail c + 1) mod zcan_buf_rx_num c in
  let w := World l h (with_cell s (zcan_buf_rx_tail c) m) in
  counts stat -> rx_wf s -> L_zcan_pio_rx (zcan_ip_num c) ∉ h ->
  next <> zcan_buf_rx_head c ->
  (forall w' evs, rx_run (World l h s) w' evs -> Forall calm evs -> rx_wf (w_st w') ->
     zcan_buf_rx_tail (cc_zcan (w_st w')) = next ->
     rx_queue (cc_zcan (w_st w')) = rx_queue c ++ [m] -> Q tt w') ->
  wp (publish_tail stat next) Q w.
Proof.
  intros c next w Hstat Hwf Hl Hnf HQ. pose proof Hwf as [Hring Hmin Hst].
  unfold publish_tail, upd_zcan. apply wp_bind, wp_modify. apply wp_bind, Hstat.
  cbn [w_st w_log w_held w]. set (s1 := (with_cell s (zcan_buf_rx_tail c) m)<|cc_zcan ::= _|>).
  assert (rx_wf s1 /\ rx_queue (cc_zcan s1) = rx_queue c ++ [m]) as [Hwf1 Hq1].
  { split.
    - destruct Hring as (Hn & Hlen & Hh & Ht). split; [| exact Hmin | exact Hst].
      split; [exact Hn |]. split; [cbn; by rewrite length_insert |].
      split; [exact Hh |]. apply (Z.mod_pos_bound (zcan_buf_rx_tail c + 1) (zcan_buf_rx_num c)).
      unfold c. lia.
    - apply (ring_list_push _ _ _ _ m Hring Hnf). }
  intros s2 Hs. destruct (ring_same_queue _ _ Hs) as [Hq2 Hwf2].
  destruct Hs as (Hf & _ & _ & Ht2 & _). destruct (rx_frame_num _ _ Hf) as (_ & Hip & _).
  apply wp_usr_rx_complete; [unfold rx_lock_free; cbn [w_st w_held]; rewrite Hip; exact Hl |].
  intros w3 evs (L3 & H3 & F3 & U3) Hc Hsame Hch. cbn [w_st w_log w_held] in *.
  assert (ring_same s2 (w_st w3)) as Hs3.
  { split; [exact F3 |]. rewrite Hch. split_and!; try done; by apply Hsame. }
  destruct (ring_same_queue _ _ Hs3) as [Hq3 Hwf3].
  apply (HQ w3 evs); [| done | by apply Hwf3, Hwf2 | | by rewrite Hq3, Hq2].
  - split; [exact L3 |]. split; [exact H3 |]. split; [by rewrite F3, Hf | exact U3].
  - destruct Hs3 as (_ & _ & _ & -> & _). by rewrite Ht2.
Qed.
End rx_lemmas.

(** ** The PIO receive FIFO of the device *)

(** acknowledgements written, each of which removes a frame from the FIFO *)
Definition acks (base : addr) (evs : list event) : nat :=
  length (filter (fun p => p = (addr_add base ZCAN_IP_PIO_STATUS, ZCAN_IP_PIO_RX_READY))
    (mmio_writes evs)).
Definition rx_ready (status : Z) : bool :=
  negb (status =? 0xFFFFFFFF) && tst status ZCAN_IP_PIO_RX_READY.
Definition rxfifo_regs : list Z :=
  [ZCAN_IP_RXFIFO_ID; ZCAN_IP_RXFIFO_DLC; ZCAN_IP_RXFIFO_DW1; ZCAN_IP_RXFIFO_DW2].

(** a device that delivers [frames] from history [l0] on: the data registers
    show the oldest frame not acknowledged, and ready is reported only while
    there is one *)
Record fifo_dev `{Env} (base : addr) (l0 : list event) (frames : list (list Z)) : Prop := {
  fifo_ready : forall evs,
    rx_ready (u32 (env_ret (evs ++ l0) (MmioRead (addr_add base ZCAN_IP_PIO_STATUS)))) = true ->
    (acks base evs < length frames)%nat;
  fifo_data : forall evs f, frames !! acks base evs = Some f ->
    length f = 4%nat /\
    forall i r, rxfifo_regs !! i = Some r ->
      f !! i = Some (u32 (env_ret (evs ++ l0) (MmioRead (addr_add base r))))
}.

Lemma acks_app base l1 l2 : acks base (l1 ++ l2) = (acks base l1 + acks base l2)%nat.
Proof. unfold acks. by rewrite mmio_writes_app, filter_app, length_app. Qed.

Lemma acks_calm base evs : Forall calm evs -> acks base evs = 0%nat.
Proof. intros Hc. unfold acks. by rewrite calm_writes. Qed.

Lemma acks_calm_app base e1 e2 : Forall calm e1 -> acks base (e1 ++ e2) = acks base e2.
Proof. intros. by rewrite acks_app, acks_calm. Qed.

Section pio_rx.
Context `{Env} `{ModParams}.
Hypothesis Hb : zynq_bringup_param = false.
Variables (base : addr) (l0 : list event) (frames : list (list Z)).
Hypothesis Hdev : fifo_dev base l0 frames.

(** after history [l], frame [f] is the oldest of the device *)
Definition shows (f : list Z) (l : list event) : Prop :=
  exists e, l = e ++ l0 /\ frames !! acks base e = Some f.

Lemma shows_calm f e l : Forall calm e -> shows f l -> shows f (e ++ l).
Proof using Type.
  intros He (e' & -> & Hf). exists (e ++ e'). rewrite acks_calm_app, app_assoc by done. by split.
Qed.

(** a data register, read while frame [f] is the oldest *)
Lemma wp_read_fifo i r f s h l (Q : Z -> world can_ctx -> Prop) :
  rxfifo_regs !! i = Some r -> shows f l -> zcan_ip_reg (cc_zcan s) = base ->
  (forall v x, f !! i = Some v -> Q v (World ([Ev (MmioRead (addr_add base r)) x] ++ l) h s)) ->
  wp (zcan_reg_read r) Q (World l h s).
Proof using Hb Hdev.
  intros Hr (e & -> & Hf) Hbase HQ. unfold zcan_reg_read. apply wp_bind, wp_gets. cbn [w_st].
  rewrite Hbase. apply wp_io_read; [exact Hb |]. intros x Hx. apply HQ.
  destruct (fifo_data _ _ _ Hdev e f Hf) as [_ Hd]. cbn [w_log] in Hx. rewrite Hx.
  by apply Hd.
Qed.

(** the oldest frame is read into cell [i] *)
Lemma wp_read_frame {A} i f s h l (k : unit -> M can_ctx A) (Q : A -> world can_ctx -> Prop) :
  0 <= i < Z.of_nat (length (zcan_buf_rx_msg (cc_zcan s))) ->
  shows f l -> zcan_ip_reg (cc_zcan s) = base ->
  (forall m evs, zcan_words m = f -> Forall calm evs ->
     wp (k tt) Q (World (evs ++ l) h (with_cell s i m))) ->
  wp (stamp_cell i;;
      id ← zcan_reg_read ZCAN_IP_RXFIFO_ID;
      upd_cell i (fun m => m<|mw0 := id|>);;
      len ← zcan_reg_read ZCAN_IP_RXFIFO_DLC;
      upd_cell i (fun m => m<|mw1 := len|>);;
      data1 ← zcan_reg_read ZCAN_IP_RXFIFO_DW1;
      upd_cell i (fun m => m<|mw2 := data1|>);;
      data2 ← zcan_reg_read ZCAN_IP_RXFIFO_DW2;
      upd_cell i (fun m => m<|mw3 := data2|>) ≫= k) Q (World l h s).
Proof using Hb Hdev.
  intros Hi Hs Hbase HQ. pose proof Hs as (e & _ & Hf).
  destruct (fifo_data _ _ _ Hdev e f Hf) as [Hlen _].
  destruct f as [|f0 [|f1 [|f2 [|f3 [|? ?]]]]]; try discriminate Hlen.
  assert (forall ev l', calm ev -> shows [f0; f1; f2; f3] l' -> shows [f0; f1; f2; f3] (ev :: l'))
    as Hcons by (intros ev l' ?; apply (shows_calm _ [ev]); by repeat constructor).
  unfold stamp_cell. apply wp_bind, wp_bind, wp_ask. intros sec _.
  apply wp_bind, wp_ask. intros nsec _. apply wp_upd_cell_any; [exact Hi |]. intros m0.
  apply wp_bind, (wp_read_fifo 0 _ [f0; f1; f2; f3]); [done | by repeat (apply Hcons; [exact I |]) | done |].
  intros v0 x0 [= <-]. apply wp_bind, wp_upd_cell; [exact Hi |].
  apply wp_bind, (wp_read_fifo 1 _ [f0; f1; f2; f3]); [done | by repeat (apply Hcons; [exact I |]) | done |].
  intros v1 x1 [= <-]. apply wp_bind, wp_upd_cell; [exact Hi |].
  apply wp_bind, (wp_read_fifo 2 _ [f0; f1; f2; f3]); [done | by repeat (apply Hcons; [exact I |]) | done |].
  intros v2 x2 [= <-]. apply wp_bind, wp_upd_cell; [exact Hi |].
  apply wp_bind, (wp_read_fifo 3 _ [f0; f1; f2; f3]); [done | by repeat (apply Hcons; [exact I |]) | done |].
  intros v3 x3 [= <-]. apply wp_bind, wp_upd_cell; [exact Hi |].
  eapply (HQ _ [_; _; _; _; _; _]); [done | by repeat constructor].
Qed.

(** one frame moves from the device to the queue *)
Lemma wp_pio_rx_one e0 w (Q : option Z -> world can_ctx -> Prop) :
  let c := cc_zcan (w_st w) in
  rx_wf (w_st w) -> rx_lock_free w -> zcan_ip_reg c = base -> w_log w = e0 ++ l0 ->
  (forall w', rx_ready (u32 (env_ret (w_log w) (MmioRead (addr_add base ZCAN_IP_PIO_STATUS)))) = false ->
     calmly w w' -> Q None w') ->
  (forall m w' evs, rx_run w w' evs -> acks base evs = 1%nat -> rx_wf (w_st w') ->
     let c' := cc_zcan (w_st w') in
     frames !! acks base e0 = Some (zcan_words m) ->
     rx_queue c' = rx_push (zcan_buf_rx_num c) (rx_queue c) m ->
     Q (Some (zcan_buf_rx_tail c')) w') ->
  wp (pio_rx_one (zcan_buf_rx_tail c)) Q w.
Proof using Hb Hdev.
  intros c Hwf Hlk Hbase Hlog Hnone Hsome. unfold pio_rx_one.
  unfold zcan_reg_read at 1. apply wp_bind, wp_bind, wp_gets. fold c. rewrite Hbase.
  apply wp_io_read; [exact Hb |]. intros x Hx.
  set (w1 := emit _ w).
  assert (calmly w w1) as Hc1 by (by apply calmly_emit).
  destruct ((u32 x =? 0xFFFFFFFF) || negb (tst (u32 x) ZCAN_IP_PIO_RX_READY)) eqn:Est.
  { apply wp_ret, Hnone; [| done]. rewrite <- Hx. unfold rx_ready.
    by rewrite <- (negb_involutive (tst _ _)), <- negb_orb, Est. }
  assert (rx_ready (u32 x) = true) as Hready.
  { unfold rx_ready. apply orb_false_iff in Est as [-> Ht]. by apply negb_false_iff in Ht as ->. }
  rewrite Hx, Hlog in Hready. apply (fifo_ready _ _ _ Hdev) in Hready.
  apply lookup_lt_is_Some in Hready as [f Hf].
  apply wp_bind, wp_make_room; [exact Hwf | exact Hlk |].
  intros w2 e2 Hr2 Hc2 Hwf2 c1 c2 Htail Hroom Hq.
  destruct Hr2 as (L2 & H2 & F2 & U2). destruct (rx_frame_num _ _ F2) as (Hn2 & Hip2 & Hreg2 & _).
  change (cc_zcan (w_st w1)) with c in *. unfold c1 in *. fold c2 in Hreg2.
  destruct w2 as [l2 h2 s2]. cbn [w_st w_log w_held w1 emit] in *.
  rewrite Hbase in Hreg2. set (i := zcan_buf_rx_tail c) in *.
  set (st := Ev (MmioRead (addr_add base ZCAN_IP_PIO_STATUS)) x) in *.
  assert (shows f l2) as Hs2.
  { rewrite L2. apply shows_calm; [exact Hc2 |]. apply (shows_calm _ [st]); [by repeat constructor |].
    by exists e0. }
  pose proof (rx_ring_ok _ Hwf2) as (Hn1 & Hlen2 & _ & Hti). fold c2 in Hn1, Hlen2, Hti.
  rewrite Htail in Hti.
  apply wp_read_frame with f; [fold c2; rewrite Hlen2; lia | exact Hs2 | exact Hreg2 |].
  intros m e3 Hm Hc3.
  (* acknowledge *)
  unfold zcan_reg_write. apply wp_bind, wp_bind, wp_gets, wp_io_write; [exact Hb |].
  unfold zcan. apply wp_bind, wp_gets. cbn [w_st w_log w_held emit].
  change (zcan_buf_rx_num (cc_zcan (with_cell s2 i _))) with (zcan_buf_rx_num c2).
  change (zcan_ip_reg (cc_zcan (with_cell s2 i _))) with (zcan_ip_reg c2). rewrite Hreg2.
  apply wp_bind, wp_c_rem; [lia | lia |]. rewrite <- Htail.
  apply wp_bind, (wp_publish _ s2 m);
    [apply counts_can | exact Hwf2 | rewrite Hip2, H2; exact Hlk | exact Hroom |].
  intros w4 e4 (L4 & H4 & F4 & U4) Hc4 Hwf4 Htail4 Hq4. cbn [w_log w_held w_st] in *.
  apply wp_ret. fold c2 in Htail4. rewrite <- Htail4.
  eapply (Hsome m w4 (e4 ++ [_] ++ e3 ++ e2 ++ [st])); [| | exact Hwf4 | by rewrite Hm | ].
  - split; [by rewrite L4, L2, <- !app_assoc |]. split; [congruence |]. split; [congruence |].
    by rewrite !user_copies_app, U4, (user_copies_calm e3), U2.
  - rewrite !acks_app, !(acks_calm _ e4), !(acks_calm _ e3), !(acks_calm _ e2) by done.
    unfold acks. cbn [mmio_writes omap list_omap ev_call]. cbn. rewrite decide_True; [done |].
    done.
  - fold c2 in Hq4. by rewrite Hq4, Hq.
Qed.
End pio_rx.

(** *** The whole interrupt *)
Lemma rx_push_map {A B} (f : A -> B) num q m :
  map f (rx_push num q m) = rx_push num (map f q) (f m).
Proof.
  unfold rx_push. rewrite map_app, length_map. by destruct (_ =? _); rewrite ?skipn_map.
Qed.

(** what one interrupt does, given what the device holds *)
Definition rx_served `{Env} (base : addr) (frames : list (list Z)) (w w' : world can_ctx) : Prop :=
  exists j evs, (j <= length frames)%nat /\ rx_run w w' evs /\ acks base evs = j /\
    rx_wf (w_st w') /\
    map zcan_words (rx_queue (cc_zcan (w_st w')))
      = foldl (rx_push (zcan_buf_rx_num (cc_zcan (w_st w))))
          (map zcan_words (rx_queue (cc_zcan (w_st w)))) (take j frames) /\
    ((forall e, (acks base e < length frames)%nat ->
        rx_ready (u32 (env_ret (e ++ w_log w)
          (MmioRead (addr_add base ZCAN_IP_PIO_STATUS)))) = true) ->
     j = length frames).

Lemma wp_pio_rx_proc `{Env} `{ModParams} fuel frames w (Q : unit -> world can_ctx -> Prop) :
  let base := zcan_ip_reg (cc_zcan (w_st w)) in
  zynq_bringup_param = false -> fifo_dev base (w_log w) frames ->
  rx_wf (w_st w) -> rx_lock_free w -> (length frames < fuel)%nat ->
  (forall w', rx_served base frames w w' -> Q tt w') ->
  wp (zcan_pio_rx_proc fuel) Q w.
Proof.
  intros base Hb Hdev Hwf Hlk Hfuel HQ. unfold zcan_pio_rx_proc, zcan.
  apply wp_bind, wp_gets. set (c := cc_zcan (w_st w)).
  set (q0 := map zcan_words (rx_queue c)). set (num := zcan_buf_rx_num c).
  apply (wp_loop
    (fun tail v => tail = zcan_buf_rx_tail (cc_zcan (w_st v)) /\ rx_wf (w_st v) /\
       exists evs, rx_run w v evs /\ (acks base evs <= length frames)%nat /\
         map zcan_words (rx_queue (cc_zcan (w_st v)))
           = foldl (rx_push num) q0 (take (acks base evs) frames))
    (fun _ v => length frames + acks base (w_log w) - acks base (w_log v))%nat).
  - split; [done |]. split; [done |]. exists []. split_and!; try done. cbn. lia.
  - lia.
  - intros tail v (-> & Hwfv & evs & Hr & Hle & Hq). pose proof Hr as (Lv & Hv & Fv & Uv).
    destruct (rx_frame_num _ _ Fv) as (Hnv & Hipv & Hregv & _).
    apply wp_bind, (wp_pio_rx_one Hb base (w_log w) frames Hdev evs); try done.
    { unfold rx_lock_free. rewrite Hipv, Hv. exact Hlk. }
    + intros v' Hst (Hs' & Hh' & e' & Hl' & Hc'). apply wp_ret, HQ.
      exists (acks base evs), (e' ++ evs). split; [done |].
      split; [split; [by rewrite Hl', Lv, app_assoc |]; split; [by rewrite Hh' |];
              split; [by rewrite Hs' | by rewrite user_copies_app, (user_copies_calm e'), Uv] |].
      split; [by rewrite acks_calm_app |]. rewrite Hs'. split; [done |]. split; [done |].
      intros Hall. destruct (decide (acks base evs < length frames)%nat) as [Hlt|]; [| lia].
      rewrite Lv, Hall in Hst by done. discriminate Hst.
    + intros m v' e' Hr' Hack Hwf' c' Hf Hq'. apply wp_ret.
      pose proof (lookup_lt_Some _ _ _ Hf) as Hlt.
      split; [split; [done |]; split; [done |] |].
      * exists (e' ++ evs). split; [by eapply rx_run_trans |].
        rewrite acks_app, Hack. split; [lia |]. unfold c' in *.
        rewrite Hq', rx_push_map, Hq, Hnv. cbn [Nat.add].
        rewrite (take_S_r _ _ _ Hf), foldl_app. done.
      * destruct Hr' as (L' & _). rewrite L', Lv, !acks_app, Hack. lia.
Qed.

(** ** Delivery to the reader *)

(** messages [ms] converted, at places [n], [n + 1], ... of the user's array *)
Fixpoint delivered (buf n : Z) (ms : list bcan_msg) : list (Z * list Z) :=
  match ms with
  | [] => []
  | m :: ms' => (buf + sizeof_bcan_msg * n, msg_words (zcan_to_bcan m)) :: delivered buf (n + 1) ms'
  end.

Lemma delivered_app buf n l1 l2 :
  delivered buf n (l1 ++ l2) = delivered buf n l1 ++ delivered buf (n + Z.of_nat (length l1)) l2.
Proof.
  revert n. induction l1 as [|m l1 IH]; intros n; cbn [delivered app length].
  - by rewrite Z.add_0_r.
  - rewrite IH. do 3 f_equal. lia.
Qed.

(** everything but the ring, the reader's count and the statistics *)
Definition usr_frame (s : can_ctx) : can_ctx :=
  (rx_frame s)<|cc_zcan ::= fun c => c<|zcan_usr_rx_num := 0|>|>.

(** [k] messages copied from the head of the queue of [w] *)
Definition copied (k : nat) (w w' : world can_ctx) : Prop :=
  let c := cc_zcan (w_st w) in let c' := cc_zcan (w_st w') in
  (k <= length (rx_queue c))%nat /\
  zcan_usr_rx_num c' = zcan_usr_rx_num c + Z.of_nat k /\
  zcan_usr_rx_num c' <= zcan_usr_buf_num c /\
  zcan_buf_rx_tail c' = zcan_buf_rx_tail c /\
  zchan_stats (cc_zchan (w_st w')) = zchan_stats (cc_zchan (w_st w)) /\
  usr_frame (w_st w') = usr_frame (w_st w) /\ w_held w' = w_held w /\
  length (zcan_buf_rx_msg c') = length (zcan_buf_rx_msg c) /\
  (exists evs, w_log w' = evs ++ w_log w /\ mmio_writes evs = []) /\
  user_stores (w_log w') =
    rev (delivered (zcan_usr_buf c) (zcan_usr_rx_num c) (take k (rx_queue c)))
    ++ user_stores (w_log w).

Lemma usr_frame_num s s' :
  usr_frame s' = usr_frame s ->
  zcan_buf_rx_num (cc_zcan s') = zcan_buf_rx_num (cc_zcan s) /\
  zcan_ip_num (cc_zcan s') = zcan_ip_num (cc_zcan s) /\
  zcan_usr_buf (cc_zcan s') = zcan_usr_buf (cc_zcan s) /\
  zcan_usr_buf_num (cc_zcan s') = zcan_usr_buf_num (cc_zcan s).
Proof. destruct s as [d c z], s' as [d' c' z'], z, z', c, c'. cbn. intros [= ]. by subst. Qed.

Section delivery.
Context `{Env} `{ModParams}.

(** one more copy *)
Lemma copied_step k w v m q head ev :
  let c := cc_zcan (w_st v) in
  copied k w v ->
  drop k (rx_queue (cc_zcan (w_st w))) = m :: q ->
  zcan_usr_rx_num c <> zcan_usr_buf_num c ->
  user_stores [ev] = [(zcan_usr_buf c + sizeof_bcan_msg * zcan_usr_rx_num c,
                       msg_words (zcan_to_bcan m))] -> mmio_writes [ev] = [] ->
  copied (S k) w (World (ev :: w_log v) (w_held v)
    ((w_st v)<|cc_zcan ::= fun c => c<|zcan_buf_rx_msg ::= <[Z.to_nat head := zcan_to_bcan m]>|>|>
       <|cc_zcan ::= fun c => c<|zcan_usr_rx_num ::= Z.add 1|>|>)).
Proof.
  intros c (Hk & Hn & Hle & Ht & Hst & Hf & Hh & Hlen & (evs & Hl & Hc) & Hs) Hd Hne Hev Hcalm.
  destruct (usr_frame_num _ _ Hf) as (_ & _ & Hb & Hbn).
  assert (Hlt : (k < length (rx_queue (cc_zcan (w_st w))))%nat).
  { apply (f_equal length) in Hd. rewrite length_drop in Hd. cbn in Hd. lia. }
  assert (rx_queue (cc_zcan (w_st w)) !! k = Some m) as Hm.
  { rewrite <- (Nat.add_0_r k), <- lookup_drop, Hd. done. }
  unfold c in *. unfold copied. cbn [w_st w_log w_held]. split_and!; try done.
  - cbn. lia.
  - cbn. lia.
  - cbn. by rewrite length_insert.
  - exists ([ev] ++ evs). rewrite Hl. split; [done |]. by rewrite mmio_writes_app, Hcalm, Hc.
  - change (ev :: w_log v) with ([ev] ++ w_log v). unfold user_stores in *. rewrite omap_app, Hev, Hs.
    rewrite (take_S_r _ _ _ Hm), delivered_app, rev_app_distr. cbn [rev app delivered].
    rewrite length_take, Nat.min_l by lia. by rewrite Hn, Hb.
Qed.

(** a copy that failed delivers nothing, but its cell is converted *)
Lemma copied_failed k w v m head ev :
  copied k w v -> user_stores [ev] = [] -> mmio_writes [ev] = [] ->
  copied k w (World (ev :: w_log v) (w_held v)
    ((w_st v)<|cc_zcan ::= fun c => c<|zcan_buf_rx_msg ::= <[Z.to_nat head := m]>|>|>)).
Proof.
  intros (Hk & Hn & Hle & Ht & Hst & Hf & Hh & Hlen & (evs & Hl & Hc) & Hs) Hev Hcalm.
  unfold copied. cbn [w_st w_log w_held]. split_and!; try done.
  - cbn. by rewrite length_insert.
  - exists ([ev] ++ evs). rewrite Hl. split; [done |]. by rewrite mmio_writes_app, Hcalm, Hc.
  - change (ev :: w_log v) with ([ev] ++ w_log v). unfold user_stores in *. by rewrite omap_app, Hev, Hs.
Qed.

Definition pending (c : zynq_can) (head : Z) : list bcan_msg :=
  ring_list (zcan_buf_rx_msg c) (zcan_buf_rx_num c) head (zcan_buf_rx_tail c).

(** where the [k]th message goes *)
Definition user_place (c : zynq_can) (k : nat) : Z :=
  zcan_usr_buf c + sizeof_bcan_msg * (zcan_usr_rx_num c + Z.of_nat k).

Lemma wp_copy_loop w (Q : Z + Z -> world can_ctx -> Prop) :
  let c := cc_zcan (w_st w) in
  rx_wf (w_st w) -> zcan_usr_rx_num c <= zcan_usr_buf_num c ->
  (forall k head w', copied k w w' -> 0 <= head < zcan_buf_rx_num c ->
     pending (cc_zcan (w_st w')) head = drop k (rx_queue c) ->
     k = length (rx_queue c) \/ zcan_usr_rx_num c + Z.of_nat k = zcan_usr_buf_num c ->
     refusals (w_log w') = refusals (w_log w) -> Q (inl head) w') ->
  (forall k head w' m q, copied k w w' -> 0 <= head < zcan_buf_rx_num c ->
     drop k (rx_queue c) = m :: q ->
     pending (cc_zcan (w_st w')) head = zcan_to_bcan m :: q ->
     zcan_usr_rx_num c + Z.of_nat k < zcan_usr_buf_num c ->
     refusals (w_log w') = user_place c k :: refusals (w_log w) -> Q (inr head) w') ->
  wp (copy_loop c) Q w.
Proof.
  intros c Hwf Hle Hok Hko. pose proof (rx_ring_ok _ Hwf) as (Hn & Hlen & Hh & Ht).
  fold c in Hn, Hlen, Hh, Ht.
  unfold copy_loop, zcan. set (q := rx_queue c) in *. set (num := zcan_buf_rx_num c) in *.
  apply (wp_loop (fun head v => 0 <= head < num /\ refusals (w_log v) = refusals (w_log w) /\
      exists k, copied k w v /\ pending (cc_zcan (w_st v)) head = drop k q)
    (fun head v => Z.to_nat (ring_len num head (zcan_buf_rx_tail c)))).
  - split; [done |]. split; [done |]. exists 0%nat. split; [| done]. unfold copied. fold c. split_and!; try done; try lia.
    by exists [].
  - pose proof (ring_len_range num (zcan_buf_rx_head c) (zcan_buf_rx_tail c)). lia.
  - intros head v (Hhd & Hrf & k & Hv & Hp). pose proof Hv as (Hk & Hnv & Hlev & Htv & Hstv & Hf & Hhv & Hlv & _).
    destruct (usr_frame_num _ _ Hf) as (En & _ & Eb & Ebn). fold c num in En, Eb, Ebn.
    fold c in Hk, Hnv, Hlev, Htv, Hlv. fold q in Hk.
    assert (ring_wf (zcan_buf_rx_msg (cc_zcan (w_st v))) num head (zcan_buf_rx_tail c)) as Hring
      by (split_and!; [lia | rewrite Hlv; exact Hlen | lia | lia | lia | lia]).
    unfold pending in Hp. rewrite En, Htv in Hp.
    apply wp_bind, wp_gets. rewrite Htv, Ebn.
    destruct (Z.eqb_spec head (zcan_buf_rx_tail c)) as [->|Hne].
    { apply wp_ret, (Hok k); try done; [unfold pending; by rewrite En, Htv |]. left.
      rewrite ring_list_self in Hp by lia. apply (f_equal length) in Hp.
      rewrite length_drop in Hp. cbn in Hp. lia. }
    destruct (Z.eqb_spec (zcan_usr_rx_num (cc_zcan (w_st v))) (zcan_usr_buf_num c)) as [Hfull|Hmore].
    { apply wp_ret, (Hok k); try done; [unfold pending; by rewrite En, Htv |]. right. lia. }
    destruct (ring_list_head _ _ _ _ Hring Hne) as [q1 Hq1]. rewrite Hp in Hq1.
    set (m := zcan_buf_rx_msg (cc_zcan (w_st v)) !!! Z.to_nat head) in *.
    destruct (zlookup_Some (zcan_buf_rx_msg (cc_zcan (w_st v))) head) as [m' Hm'];
      [rewrite Hlv, Hlen; lia |].
    assert (m' = m) as ->.
    { unfold zlookup in Hm'. destruct (Z.ltb_spec head 0); [lia |]. unfold m.
      symmetry. by apply list_lookup_total_correct. }
    apply wp_bind, wp_array_get. exists m. split; [exact Hm' |]. cbv zeta.
    unfold upd_zcan, copy_to_user. apply wp_bind, wp_modify.
    apply wp_bind, wp_bind, wp_ask. intros r Hr. wp_simpl. apply wp_ret.
    destruct (r =? 0) eqn:Er; cbn [negb].
    + apply wp_bind, wp_modify. wp_simpl. rewrite En.
      apply wp_bind, wp_c_rem; [lia | lia |]. apply wp_ret.
      split; [split; [apply Z.mod_pos_bound; lia |]; split |].
      * cbn. rewrite <- Hrf. unfold refusals. cbn. by rewrite Er.
      * exists (S k). split.
        { eapply copied_step; try done; [by rewrite Ebn | cbn; by rewrite Er]. }
        unfold pending. cbn. fold num. rewrite En, Htv, (ring_list_insert_head _ _ _ _ _ Hring Hne), Hp.
        rewrite drop_drop. f_equal. lia.
      * rewrite ring_len_step by lia.
        pose proof (ring_len_range num head (zcan_buf_rx_tail c) ltac:(lia)).
        assert (ring_len num head (zcan_buf_rx_tail c) <> 0); [| lia].
        rewrite ring_len_cases by lia. case_cmp; lia.
    + apply wp_ret, (Hko k head _ m q1); [| done | done | | lia |].
      3:{ cbn [w_log]. rewrite <- Hrf. unfold refusals. cbn. rewrite Er. cbn. f_equal. unfold user_place. by rewrite Hnv, Eb. }
      { apply (copied_failed k w v (zcan_to_bcan m) head); [done | cbn; by rewrite Er | done]. }
      unfold pending. cbn. by rewrite En, Htv, (ring_list_set_head _ _ _ _ _ Hring Hne), Hp, Hq1.
Qed.

(** the outcome of a copy: the oldest messages that fit, in order; after a
    fault the message that could not be copied stays first, converted *)
Inductive copy_outcome (w w' : world can_ctx) (k : nat) : Z -> Prop :=
| copy_done rc :
    rc = (if zcan_usr_rx_num (cc_zcan (w_st w)) + Z.of_nat k
             <? zcan_usr_buf_num (cc_zcan (w_st w)) then BCAN_PARTIAL_OK else BCAN_OK) ->
    Z.of_nat k = Z.min (Z.of_nat (length (rx_queue (cc_zcan (w_st w)))))
                  (zcan_usr_buf_num (cc_zcan (w_st w)) - zcan_usr_rx_num (cc_zcan (w_st w))) ->
    rx_queue (cc_zcan (w_st w')) = drop k (rx_queue (cc_zcan (w_st w))) ->
    refusals (w_log w') = refusals (w_log w) ->
    copy_outcome w w' k rc
| copy_fault m q :
    drop k (rx_queue (cc_zcan (w_st w))) = m :: q ->
    rx_queue (cc_zcan (w_st w')) = zcan_to_bcan m :: q ->
    zcan_usr_rx_num (cc_zcan (w_st w)) + Z.of_nat k < zcan_usr_buf_num (cc_zcan (w_st w)) ->
    refusals (w_log w') = user_place (cc_zcan (w_st w)) k :: refusals (w_log w) ->
    copy_outcome w w' k BCAN_FAIL.

Lemma copied_zero w :
  zcan_usr_rx_num (cc_zcan (w_st w)) <= zcan_usr_buf_num (cc_zcan (w_st w)) -> copied 0 w w.
Proof. intros. unfold copied. split_and!; try done; try lia. by exists []. Qed.

(** moving the head to [head] after [k] copies *)
Lemma copied_head k w v head :
  rx_wf (w_st w) -> copied k w v -> 0 <= head < zcan_buf_rx_num (cc_zcan (w_st w)) ->
  let v' := World (w_log v) (w_held v) ((w_st v)<|cc_zcan ::= fun c => c<|zcan_buf_rx_head := head|>|>) in
  copied k w v' /\ rx_wf (w_st v') /\
  rx_queue (cc_zcan (w_st v')) = pending (cc_zcan (w_st v)) head.
Proof.
  intros Hwf Hv Hh v'. pose proof Hv as (Hk & Hn & Hle & Ht & Hst & Hf & Hhd & Hlen & Hev & Hs).
  destruct (usr_frame_num _ _ Hf) as (En & _). destruct Hwf as [(H1 & H2 & H3 & H4) H5 H6].
  split; [exact Hv |]. split; [| done]. split.
  - unfold v'. cbn. rewrite En, Ht. split; [done |]. split; [by rewrite Hlen |]. by split.
  - unfold v'. cbn. by rewrite En.
  - unfold v'. cbn. by rewrite Hst.
Qed.

Lemma wp_copy_to_user w (Q : Z -> world can_ctx -> Prop) :
  let c := cc_zcan (w_st w) in
  rx_wf (w_st w) -> zcan_usr_rx_num c <= zcan_usr_buf_num c ->
  (forall rc k w', copied k w w' -> rx_wf (w_st w') -> copy_outcome w w' k rc -> Q rc w') ->
  wp zcan_copy_to_user Q w.
Proof.
  intros c Hwf Hle HQ. pose proof (rx_ring_ok _ Hwf) as (Hn & Hlen & Hh & Ht). fold c in Hn, Hlen, Hh, Ht.
  unfold zcan_copy_to_user, zcan, upd_zcan. apply wp_bind, wp_gets. fold c.
  assert (forall k v, copied k w v -> rx_wf (w_st v) ->
    rx_queue (cc_zcan (w_st v)) = drop k (rx_queue c) ->
    k = length (rx_queue c) \/ zcan_usr_rx_num c + Z.of_nat k = zcan_usr_buf_num c ->
    refusals (w_log v) = refusals (w_log w) ->
    wp (c ← gets cc_zcan; mret (if zcan_usr_rx_num c <? zcan_usr_buf_num c
                                then BCAN_PARTIAL_OK else BCAN_OK)) Q v) as Hend.
  { intros k v Hv Hwfv Hq Hcase Hrf. apply wp_bind, wp_gets, wp_ret.
    pose proof Hv as (Hk & Hnv & Hlev & _ & _ & Hf & _). fold c in Hk, Hnv, Hlev.
    destruct (usr_frame_num _ _ Hf) as (_ & _ & _ & ->). apply (HQ _ k); [done | done |].
    apply copy_done; fold c; [by rewrite Hnv | | done | exact Hrf]. destruct Hcase as [->|]; lia. }
  apply wp_bind.
  destruct ((zcan_usr_rx_num c =? zcan_usr_buf_num c) || (zcan_buf_rx_head c =? zcan_buf_rx_tail c)) eqn:E.
  - apply wp_ret, (Hend 0%nat); [by apply copied_zero | done | done | | done].
    apply orb_true_iff in E as [E%Z.eqb_eq | E%Z.eqb_eq]; [right; lia | left].
    unfold rx_queue. rewrite <- E, ring_list_self; done.
  - apply wp_bind, wp_copy_loop; [done | done | |].
    + intros k head v Hv Hhd Hp Hcase Hrf. apply wp_bind, wp_modify, wp_ret.
      destruct (copied_head _ _ _ _ Hwf Hv Hhd) as (Hv' & Hwf' & Hq').
      apply (Hend k); [exact Hv' | exact Hwf' | by rewrite Hq' | done | exact Hrf].
    + intros k head v m q Hv Hhd Hd Hp Hlt Hfault. apply wp_bind, wp_modify, wp_ret, wp_ret.
      destruct (copied_head _ _ _ _ Hwf Hv Hhd) as (Hv' & Hwf' & Hq').
      eapply (HQ _ k); [exact Hv' | exact Hwf' |]. eapply copy_fault; [done | by rewrite Hq' | done | done].
Qed.
End delivery.

(** ** A read request *)

(** what a read relies on while it waits *)
Definition usr_view (s : can_ctx) :=
  (zcan_ip_num (cc_zcan s), zcan_ip_reg (cc_zcan s), zcan_usr_buf (cc_zcan s),
   zcan_usr_buf_num (cc_zcan s), zcan_usr_rx_num (cc_zcan s), zcan_buf_rx_num (cc_zcan s), cc_zdev s).

(** a ring of [size] cells that held [q] holds [q'] after the frames [fs] came *)
Definition received (size : Z) (q : list bcan_msg) (fs : list (list Z)) (q' : list bcan_msg) : Prop :=
  map zcan_words q' = foldl (rx_push size) (map zcan_words q) fs.

(** the receive interrupt, as the reader sees it: it returns, pushes the frames it
    takes from those the device holds, keeps the ring well formed, and touches
    neither the request nor the user's memory *)
Class RxService `{Env} `{ModParams} (fuel : nat) := {
  svc_inv : zynq_dev -> zynq_chan -> addr -> list event -> list (list Z) -> Prop;
  svc_taken : addr -> list event -> nat;
  svc_calm : forall d c a evs l fs,
    mmio_writes evs = [] -> svc_inv d c a l fs -> svc_inv d c a (evs ++ l) fs;
  svc_taken_app : forall a l1 l2, svc_taken a (l1 ++ l2) = (svc_taken a l1 + svc_taken a l2)%nat;
  svc_taken_calm : forall a evs, mmio_writes evs = [] -> svc_taken a evs = 0%nat;
  svc_serve : forall w fs (Q : unit -> world can_ctx -> Prop),
    let base := zcan_ip_reg (cc_zcan (w_st w)) in
    svc_inv (cc_zdev (w_st w)) (cc_zchan (w_st w)) base (w_log w) fs ->
    rx_wf (w_st w) -> rx_lock_free w ->
    (forall w' evs, rx_wf (w_st w') -> usr_view (w_st w') = usr_view (w_st w) -> w_held w' = w_held w ->
       w_log w' = evs ++ w_log w -> user_copies evs = [] -> (svc_taken base evs <= length fs)%nat ->
       received (zcan_buf_rx_num (cc_zcan (w_st w))) (rx_queue (cc_zcan (w_st w)))
         (take (svc_taken base evs) fs) (rx_queue (cc_zcan (w_st w'))) ->
       svc_inv (cc_zdev (w_st w')) (cc_zchan (w_st w')) base (w_log w') (drop (svc_taken base evs) fs) ->
       Q tt w') ->
    wp (zcan_rx_proc fuel) Q w
}.

(** *** The outcome of a request *)

(** one copy, of the queue [q], when [room] messages are still asked for and [i] are in the
    user's array at [buf]: the result code, the messages delivered, the queue left and the
    place where a copy was refused.  As many as fit and are there are delivered; or a
    copy is refused, and the message stays first, converted *)
Inductive copy_run (buf : Z) (room : nat) (q : list bcan_msg) (i : nat)
  : Z -> list bcan_msg -> list bcan_msg -> list Z -> Prop :=
| copied_fit :
    copy_run buf room q i (if (length q <? room)%nat then BCAN_PARTIAL_OK else BCAN_OK)
      (take room q) (drop room q) []
| copied_refused k m q' :
    (k < room)%nat -> drop k q = m :: q' ->
    copy_run buf room q i BCAN_FAIL (take k q) (zcan_to_bcan m :: q')
      [buf + sizeof_bcan_msg * (Z.of_nat i + Z.of_nat k)].

(** a request for [n] messages when [q] is queued and [fs] are the frames received while it
    waits: the answer of the wait if there is one, the result code, the messages delivered,
    the queue left and the places of the refused copies, newest first *)
Inductive read_run (buf : Z) (n : nat) (size : Z) (q : list bcan_msg) (fs : list (list Z))
  : option Z -> Z -> list bcan_msg -> list bcan_msg -> list Z -> Prop :=
| read_at_once ms q' :
    fs = [] -> copy_run buf n q 0 BCAN_OK ms q' [] -> read_run buf n size q fs None BCAN_OK ms q' []
| read_signalled t rc ms q1 rf q2 :
    t < 0 -> rc <> BCAN_OK -> copy_run buf n q 0 rc ms q1 rf -> received size q1 fs q2 ->
    read_run buf n size q fs (Some t) BCAN_ERR ms q2 rf
| read_woken t rc ms q1 rf q2 rc' ms' q3 rf' :
    0 <= t -> rc <> BCAN_OK -> copy_run buf n q 0 rc ms q1 rf -> received size q1 fs q2 ->
    copy_run buf (n - length ms) q2 (length ms) rc' ms' q3 rf' ->
    read_run buf n size q fs (Some t)
      (if rc' =? BCAN_PARTIAL_OK then if 0 <? t then BCAN_ERR else BCAN_TIMEOUT else rc')
      (ms ++ ms') q3 (rf' ++ rf).

Lemma copy_run_len buf room q i rc ms q' rf :
  copy_run buf room q i rc ms q' rf ->
  rc = BCAN_OK /\ length ms = room \/
  (rc = BCAN_PARTIAL_OK \/ rc = BCAN_FAIL) /\ (length ms < room)%nat.
Proof.
  intros [|k m q1 Hk _]; rewrite length_take.
  - destruct (Nat.ltb_spec (length q) room); [right | left]; split; auto; lia.
  - right. split; [auto | lia].
Qed.

(** a request is met exactly when the result is OK *)
Lemma read_run_code buf n size q fs t rc ms q' rf :
  read_run buf n size q fs t rc ms q' rf ->
  rc = BCAN_OK /\ length ms = n \/
  (rc = BCAN_ERR \/ rc = BCAN_TIMEOUT \/ rc = BCAN_FAIL) /\ (length ms < n)%nat.
Proof.
  intros [ms1 q1 _ Hc | t1 rc1 ms1 q1 rf1 q2 _ Hne Hc _ | t1 rc1 ms1 q1 rf1 q2 rc2 ms2 q3 rf2 _ Hne Hc _ Hc2];
    apply copy_run_len in Hc as [[E Hl]|[E Hl]]; subst; try done; auto.
  - by destruct E.
  - apply copy_run_len in Hc2 as [[E2 Hl2]|[E2 Hl2]]; rewrite length_app.
    + subst. left. split; [done | lia].
    + right. split; [| lia]. destruct E2; subst; cbn; [destruct (0 <? t1) |]; auto.
Qed.

(** the wait of CAN [ip] answered [t] *)
Definition woken (ip : Z) (evs : list event) (t : option Z) : Prop :=
  match t with
  | None => True
  | Some t => exists tmo r, Ev (WaitCompletion (C_zcan_usr_rx ip) tmo) r ∈ evs /\ s64 r = t
  end.

Lemma woken_app ip l1 l2 t : woken ip l2 t -> woken ip (l1 ++ l2) t.
Proof.
  destruct t as [t|]; [| done]. intros (tmo & r & Hin & Ht). exists tmo, r. split; [| done].
  apply elem_of_app. by right.
Qed.

(** what [zcan_rx_user] leaves behind *)
Record read_outcome `{Env} `{ModParams} (fuel : nat) `{!RxService fuel} (buf n : Z) (frames : list (list Z))
    (w : world can_ctx) (rc done : Z) (w' : world can_ctx) : Prop := {
  ro_run : exists evs t ms rf,
    let base := zcan_ip_reg (cc_zcan (w_st w)) in
    let j := svc_taken (fuel := fuel) base evs in
    w_log w' = evs ++ w_log w /\ woken (zcan_ip_num (cc_zcan (w_st w))) evs t /\ (j <= length frames)%nat /\
    read_run buf (Z.to_nat n) (zcan_buf_rx_num (cc_zcan (w_st w))) (rx_queue (cc_zcan (w_st w)))
      (take j frames) t rc ms (rx_queue (cc_zcan (w_st w'))) rf /\
    done = Z.of_nat (length ms) /\ user_stores evs = rev (delivered buf 0 ms) /\ refusals evs = rf /\
    svc_inv (fuel := fuel) (cc_zdev (w_st w')) (cc_zchan (w_st w')) base (w_log w') (drop j frames);
  ro_code : rc = BCAN_OK /\ done = n \/
            (rc = BCAN_ERR \/ rc = BCAN_TIMEOUT \/ rc = BCAN_FAIL) /\ done < n;
  ro_wf : rx_wf (w_st w');
  ro_reset : zcan_usr_buf (cc_zcan (w_st w')) = 0 /\ zcan_usr_buf_num (cc_zcan (w_st w')) = 0 /\
             zcan_usr_rx_num (cc_zcan (w_st w')) = 0;
  ro_held : w_held w' = []
}.

Lemma copied_chan k w w' : copied k w w' ->
  cc_zchan (w_st w') = cc_zchan (w_st w) /\ cc_zdev (w_st w') = cc_zdev (w_st w) /\
  zcan_ip_reg (cc_zcan (w_st w')) = zcan_ip_reg (cc_zcan (w_st w)).
Proof.
  intros (_ & _ & _ & _ & Hst & Hf & _). revert Hst Hf.
  destruct (w_st w) as [d c z], (w_st w') as [d' c' z'], z, z', c, c'. cbn.
  intros -> [= ]. by subst.
Qed.

Section request.
Context `{Env} `{ModParams} (fuel : nat) `{!RxService fuel}.
Context (l0 : list event) (ip size : Z) (base : addr) (buf n : Z) (frames : list (list Z)).

(** a reader inside its request: [j] frames received, [ms] delivered, copies refused at
    [rf], the answer [t] of the wait when it is over, the queue [q] *)
Record reading (j : nat) (ms : list bcan_msg) (rf : list Z) (t : option Z) (q : list bcan_msg)
    (w : world can_ctx) : Prop := {
  rd_wf : rx_wf (w_st w);
  rd_queue : rx_queue (cc_zcan (w_st w)) = q;
  rd_ip : zcan_ip_num (cc_zcan (w_st w)) = ip;
  rd_size : zcan_buf_rx_num (cc_zcan (w_st w)) = size;
  rd_base : zcan_ip_reg (cc_zcan (w_st w)) = base;
  rd_svc : svc_inv (fuel := fuel) (cc_zdev (w_st w)) (cc_zchan (w_st w)) base (w_log w) (drop j frames);
  rd_taken : (j <= length frames)%nat;
  rd_buf : zcan_usr_buf (cc_zcan (w_st w)) = buf;
  rd_num : zcan_usr_buf_num (cc_zcan (w_st w)) = n;
  rd_cnt : zcan_usr_rx_num (cc_zcan (w_st w)) = Z.of_nat (length ms);
  rd_le : Z.of_nat (length ms) <= n;
  rd_evs : exists evs, w_log w = evs ++ l0 /\ svc_taken (fuel := fuel) base evs = j /\
    user_stores evs = rev (delivered buf 0 ms) /\ refusals evs = rf /\ woken ip evs t
}.

(** the reader's copy *)
Lemma wp_reading_copy j ms rf t q w (Q : Z -> world can_ctx -> Prop) :
  reading j ms rf t q w ->
  (forall rc ms' q' rf' w', copy_run buf (Z.to_nat n - length ms) q (length ms) rc ms' q' rf' ->
     reading j (ms ++ ms') (rf' ++ rf) t q' w' -> w_held w' = w_held w -> Q rc w') ->
  wp zcan_copy_to_user Q w.
Proof using Type.
  intros [Hwf Hq Hip Hsize Hbase Hsvc Hj Hbuf Hnum Hcnt Hle (evs0 & Hl0 & Htk & Hst & Hrf & Hwk)] HQ.
  apply wp_copy_to_user; [done | lia |]. intros rc k w' Hc Hwf' Ho.
  pose proof Hc as (Hk & Hn' & Hle' & _ & _ & Hf & Hh & _ & (evs & Hl & Hcalm) & Hs).
  destruct (copied_chan _ _ _ Hc) as (Ech & Edev & Ereg).
  destruct (usr_frame_num _ _ Hf) as (Esz & Eip & Eb & Ebn).
  assert (length (take k q) = k) as Hlk by (rewrite length_take, <- Hq; lia).
  assert (Hs' : user_stores (evs ++ evs0) = rev (delivered buf 0 (ms ++ take k q))).
  { rewrite Hl, user_stores_app in Hs. apply app_inv_tail in Hs.
    rewrite user_stores_app, Hst, Hs, delivered_app, rev_app_distr, Hbuf, Hcnt, Hq. done. }
  assert (Hmk : forall rf' q', rx_queue (cc_zcan (w_st w')) = q' ->
    refusals (w_log w') = rf' ++ refusals (w_log w) ->
    reading j (ms ++ take k q) (rf' ++ rf) t q' w').
  { intros rf' q' Hq' Hr. split; try congruence.
    - rewrite Ech, Edev, Hl. by apply svc_calm.
    - rewrite length_app, Hlk. lia.
    - rewrite length_app, Hlk. lia.
    - exists (evs ++ evs0). split; [by rewrite Hl, Hl0, app_assoc |].
      rewrite svc_taken_app, (svc_taken_calm _ evs) by done. split; [exact Htk |]. split; [exact Hs' |].
      rewrite Hl, refusals_app in Hr. apply app_inv_tail in Hr.
      rewrite refusals_app, Hr, Hrf. split; [done | by apply woken_app]. }
  rewrite Hq, Hcnt, Hnum in *.
  destruct Ho as [rc Hrc Hmin Hq' Hr | m q' Hd Hq' Hless Hr]; rewrite ?Hq, ?Hcnt, ?Hnum in *.
  - assert (take k q = take (Z.to_nat n - length ms) q /\ drop k q = drop (Z.to_nat n - length ms) q) as [Et Ed].
    { destruct (decide (length q <= Z.to_nat n - length ms)%nat).
      - rewrite !take_ge, !drop_ge by lia. done.
      - replace k with (Z.to_nat n - length ms)%nat by lia. done. }
    apply (HQ rc (take k q) (drop k q) []); [| by apply Hmk | exact Hh].
    rewrite Et, Ed.
    replace rc with (if (length q <? Z.to_nat n - length ms)%nat then BCAN_PARTIAL_OK else BCAN_OK);
      [constructor |].
    rewrite Hrc. destruct (Nat.ltb_spec (length q) (Z.to_nat n - length ms)), (Z.ltb_spec (Z.of_nat (length ms) + Z.of_nat k) n);
      try done; lia.
  - apply (HQ _ (take k q) (zcan_to_bcan m :: q') [user_place (cc_zcan (w_st w)) k]); [| by apply Hmk | exact Hh].
    unfold user_place. rewrite Hbuf, Hcnt. apply (copied_refused _ _ _ _ k m q'); [lia | done].
Qed.

(** calls that concern neither the ring nor the request *)
Lemma reading_upd j ms rf t q e h f w :
  reading j ms rf t q w -> calm e ->
  (forall c, zcan_ip_reg (f c) = zcan_ip_reg c /\ rx_queue (f c) = rx_queue c /\
     zcan_buf_rx_msg (f c) = zcan_buf_rx_msg c /\ zcan_buf_rx_num (f c) = zcan_buf_rx_num c /\
     zcan_buf_rx_head (f c) = zcan_buf_rx_head c /\ zcan_buf_rx_tail (f c) = zcan_buf_rx_tail c /\
     zcan_usr_buf (f c) = zcan_usr_buf c /\ zcan_usr_buf_num (f c) = zcan_usr_buf_num c /\
     zcan_usr_rx_num (f c) = zcan_usr_rx_num c /\ zcan_ip_num (f c) = zcan_ip_num c) ->
  reading j ms rf t q (World (e :: w_log w) h ((w_st w)<|cc_zcan ::= f|>)).
Proof using Type.
  intros [[Hr Hmin Hs] Hq Hip Hsize Hbase Hsvc Hj Hbuf Hnum Hcnt Hle (evs & Hl & Htk & Hst & Hrf & Hwk)] He Hf.
  destruct (Hf (cc_zcan (w_st w))) as (F1 & F2 & F3 & F4 & F5 & F6 & F7 & F8 & F9 & F10).
  assert (Hcalm : Forall calm [e]) by (by constructor).
  split; cbn; rewrite ?F1, ?F2, ?F4, ?F7, ?F8, ?F9, ?F10; try done.
  - split; cbn; rewrite ?F3, ?F4, ?F5, ?F6; done.
  - apply (svc_calm _ _ _ [e]); [by apply calm_writes | done].
  - exists ([e] ++ evs). split; [cbn; by rewrite Hl |].
    rewrite svc_taken_app, (svc_taken_calm _ [e]) by (by apply calm_writes).
    rewrite user_stores_app, refusals_app, (user_stores_calm _ Hcalm). unfold refusals at 1.
    rewrite (user_copies_calm _ Hcalm). split_and!; try done. by apply woken_app.
Qed.

Lemma reading_emit j ms rf t q e h w :
  reading j ms rf t q w -> calm e -> reading j ms rf t q (World (e :: w_log w) h (w_st w)).
Proof using Type.
  intros Hw He. pose proof (reading_upd j ms rf t q e h (fun c => c) w Hw He) as Hu.
  destruct w as [l h' [d c z]]. apply Hu. intros; by split_and!.
Qed.

(** one interrupt *)
Lemma wp_reading_serve j ms rf t q w (Q : unit -> world can_ctx -> Prop) :
  reading j ms rf t q w -> w_held w = [] ->
  (forall k q' w', (j + k <= length frames)%nat -> received size q (take k (drop j frames)) q' ->
     reading (j + k) ms rf t q' w' -> w_held w' = [] -> Q tt w') ->
  wp (zcan_rx_proc fuel) Q w.
Proof using Type.
  intros [Hwf Hq Hip Hsize Hbase Hsvc Hj Hbuf Hnum Hcnt Hle (evs & Hl & Htk & Hst & Hrf & Hwk)] Hh HQ.
  apply (svc_serve w (drop j frames)); [by rewrite Hbase | done | unfold rx_lock_free; rewrite Hh; apply not_elem_of_nil |].
  rewrite Hbase. intros w' e Hwf' Hview Hh' Hl' Hno Hlt Hrec Hsvc'.
  injection Hview as E1 E2 E3 E4 E5 E6 E7. rewrite length_drop in Hlt. rewrite drop_drop in Hsvc'.
  destruct (user_copies_none _ Hno) as [Hno1 Hno2].
  apply (HQ (svc_taken (fuel := fuel) base e) (rx_queue (cc_zcan (w_st w')))); [lia | by rewrite <- Hsize, <- Hq | | congruence].
  split; try congruence; [lia |].
  exists (e ++ evs). split; [by rewrite Hl', Hl, app_assoc |].
  rewrite svc_taken_app, Htk, user_stores_app, refusals_app, Hno1, Hno2, Nat.add_comm.
  split_and!; try done. by apply woken_app.
Qed.

(** interrupts served while the reader sleeps *)
Lemma wp_wait_usr_rx ms rf q tmo w (Q : Z -> world can_ctx -> Prop) :
  reading 0 ms rf None q w -> w_held w = [] ->
  (forall j t q' w', received size q (take j frames) q' ->
     reading j ms rf (Some t) q' w' -> w_held w' = [] -> Q t w') ->
  wp (wait_usr_rx fuel ip tmo) Q w.
Proof using Type.
  intros Hw Hh HQ. unfold wait_usr_rx. apply wp_bind, wp_ask. intros k _.
  apply wp_bind, (wp_for (fun _ v => exists j q', received size q (take j frames) q' /\
    reading j ms rf None q' v /\ w_held v = [])).
  - exists 0%nat, q. split; [done |]. split; [| done]. by apply reading_emit.
  - intros i v _ (j & q1 & Hrec & Hv & Hhv). apply (wp_reading_serve j ms rf None q1); [done | done |].
    intros k' q2 v' Hk Hrec' Hv' Hhv'. exists (j + k')%nat, q2. split; [| done].
    unfold received in *. rewrite Hrec', Hrec, <- foldl_app. f_equal.
    rewrite <- (take_take_drop frames). done.
  - intros v (j & q1 & Hrec & Hv & Hhv). apply wp_bind, wp_ask. intros t _. apply wp_ret, (HQ j _ q1); [done | | done].
    destruct (reading_emit _ _ _ _ _ (Ev (WaitCompletion (C_zcan_usr_rx ip) tmo) t) (w_held v) v Hv I)
      as [? ? ? ? ? ? ? ? ? ? ? (evs & Hl & Htk & Hst & Hrf & _)].
    split; try done. exists evs. split_and!; try done. exists tmo, t. split; [| done].
    destruct Hv as [_ _ _ _ _ _ _ _ _ _ _ (evs' & Hl' & _)].
    cbn [w_log] in Hl. rewrite Hl' in Hl. change (?e :: evs' ++ l0) with ((e :: evs') ++ l0) in Hl.
    apply app_inv_tail in Hl. rewrite <- Hl. left.
Qed.

(** the request is over: [q0] was queued when it began *)
Definition request_end (q0 : list bcan_msg) (rc done : Z) (w : world can_ctx) : Prop :=
  exists evs t ms rf, let j := svc_taken (fuel := fuel) base evs in
    w_log w = evs ++ l0 /\ woken ip evs t /\ (j <= length frames)%nat /\
    read_run buf (Z.to_nat n) size q0 (take j frames) t rc ms (rx_queue (cc_zcan (w_st w))) rf /\
    done = Z.of_nat (length ms) /\ user_stores evs = rev (delivered buf 0 ms) /\ refusals evs = rf /\
    svc_inv (fuel := fuel) (cc_zdev (w_st w)) (cc_zchan (w_st w)) base (w_log w) (drop j frames) /\
    rx_wf (w_st w) /\ w_held w = [] /\
    zcan_usr_buf (cc_zcan (w_st w)) = 0 /\ zcan_usr_buf_num (cc_zcan (w_st w)) = 0 /\
    zcan_usr_rx_num (cc_zcan (w_st w)) = 0.

Lemma wp_rx_user_done q0 j ms rf t q rc w (Q : Z * Z -> world can_ctx -> Prop) :
  reading j ms rf t q w -> w_held w = [L_zcan_pio_rx ip] ->
  read_run buf (Z.to_nat n) size q0 (take j frames) t rc ms q rf ->
  (forall done w', request_end q0 rc done w' -> Q (rc, done) w') ->
  wp (rx_user_done ip rc) Q w.
Proof using Type.
  intros Hw Hh Hrun HQ. pose proof (rd_cnt _ _ _ _ _ _ Hw) as Hcnt.
  unfold rx_user_done, zcan, upd_zcan. apply wp_bind, wp_gets. rewrite Hcnt.
  apply wp_bind, wp_modify, wp_bind. eapply wp_spin_unlock; [exact Hh | apply not_elem_of_nil |].
  destruct (reading_emit _ _ _ _ _ (Ev (SpinUnlock (L_zcan_pio_rx ip)) 0) [] w Hw I)
    as [[Hr Hmin Hs] Hq Hip Hsize Hbase Hsvc Hj Hbuf Hnum _ Hle (evs & Hl & <- & Hst & Hrf & Hwk)].
  apply wp_ret, HQ. exists evs, t, ms, rf. cbv zeta. rewrite <- Hq in Hrun. by split_and!.
Qed.

(** the reader sleeps, then takes what came *)
Lemma wp_rx_wait q0 ms rf q rc0 w tmo (Q : Z * Z -> world can_ctx -> Prop) :
  reading 0 ms rf None q w -> w_held w = [] ->
  copy_run buf (Z.to_nat n) q0 0 rc0 ms q rf -> rc0 <> BCAN_OK ->
  (forall rc done w', request_end q0 rc done w' -> Q (rc, done) w') ->
  wp (timeout ← wait_usr_rx fuel ip tmo;
      if timeout <? 0 then
        zcan_ZYNQ_STATS CAN_STATS_USR_RX_WAIT_INT;;
        spin_lock (L_zcan_pio_rx ip);;
        rx_user_done ip BCAN_ERR
      else
        when (timeout =? 0) (zcan_ZYNQ_STATS CAN_STATS_USR_RX_TIMEOUT);;
        spin_lock (L_zcan_pio_rx ip);;
        ret ← zcan_copy_to_user;
        if ret =? BCAN_PARTIAL_OK then
          zcan_ZYNQ_STATS CAN_STATS_USR_RX_PARTIAL;;
          rx_user_done ip (if 0 <? timeout then BCAN_ERR else BCAN_TIMEOUT)
        else rx_user_done ip ret) Q w.
Proof using Type.
  intros Hw Hh Hfirst Hne HQ. apply wp_bind, (wp_wait_usr_rx ms rf q); [done | done |].
  intros j t q1 w1 Hrec Hw1 Hh1.
  (* taking the lock, after counting *)
  assert (Hcnt : forall id, reading j ms rf (Some t) q1 (World (Ev (SpinLock (L_zcan_pio_rx ip)) 0 :: w_log w1)
    [L_zcan_pio_rx ip] ((w_st w1)<|cc_zcan ::= stats_upd (stats_inc_at id 1)|>)))
    by (intros; by apply reading_upd).
  assert (Hplain : reading j ms rf (Some t) q1 (World (Ev (SpinLock (L_zcan_pio_rx ip)) 0 :: w_log w1)
    [L_zcan_pio_rx ip] (w_st w1))) by (by apply reading_emit).
  unfold zcan_ZYNQ_STATS, ZYNQ_STATS.
  destruct (Z.ltb_spec t 0).
  { apply wp_bind, wp_zoom, wp_modify. apply wp_bind, wp_spin_lock;
      [cbn [w_held]; rewrite Hh1; apply not_elem_of_nil |]. cbn [w_log w_held w_st]. rewrite Hh1.
    eapply (wp_rx_user_done q0 j ms rf (Some t) q1); [apply Hcnt | done | by eapply read_signalled |].
    intros done w2. apply HQ. }
  assert (Hcopy : forall v, reading j ms rf (Some t) q1 v -> w_held v = [L_zcan_pio_rx ip] ->
    wp (ret ← zcan_copy_to_user;
        if ret =? BCAN_PARTIAL_OK then
          zoom cc_zcan (fun c s => s<|cc_zcan := c|>) (modify (stats_upd (stats_inc_at CAN_STATS_USR_RX_PARTIAL 1)));;
          rx_user_done ip (if 0 <? t then BCAN_ERR else BCAN_TIMEOUT)
        else rx_user_done ip ret) Q v).
  { intros v Hv Hhv. apply wp_bind, (wp_reading_copy j ms rf (Some t) q1); [done |].
    intros rc ms' q' rf' v' Hc Hv' Hhv'. rewrite Hhv in Hhv'.
    assert (Hrun : read_run buf (Z.to_nat n) size q0 (take j frames) (Some t)
      (if rc =? BCAN_PARTIAL_OK then if 0 <? t then BCAN_ERR else BCAN_TIMEOUT else rc)
      (ms ++ ms') q' (rf' ++ rf)) by (by eapply read_woken).
    destruct (rc =? BCAN_PARTIAL_OK).
    - apply wp_bind, wp_zoom, wp_modify.
      eapply (wp_rx_user_done q0 j (ms ++ ms') (rf' ++ rf) (Some t) q'); [| exact Hhv' | exact Hrun | intros done w2; apply HQ].
      destruct Hv' as [[R1 R2 R3] ? ? ? ? ? ? ? ? ? ? ?]. by split.
    - eapply (wp_rx_user_done q0 j (ms ++ ms') (rf' ++ rf) (Some t) q'); [exact Hv' | exact Hhv' | exact Hrun |].
      intros done w2. apply HQ. }
  apply wp_bind, wp_when; intros _; [apply wp_zoom, wp_modify |];
    (apply wp_bind, wp_spin_lock; [cbn [w_held]; rewrite Hh1; apply not_elem_of_nil |]);
    cbn [w_log w_held w_st]; rewrite Hh1; apply Hcopy; done || apply Hcnt.
Qed.
End request.

(** the whole request *)
Lemma wp_rx_user `{Env} `{ModParams} fuel `{!RxService fuel} buf num frames w (Q : Z * Z -> world can_ctx -> Prop) :
  let c := cc_zcan (w_st w) in
  rx_wf (w_st w) -> w_held w = [] -> 0 <= num < 2 ^ 31 ->
  zcan_usr_buf c = 0 -> zcan_usr_rx_num c = 0 ->
  svc_inv (fuel := fuel) (cc_zdev (w_st w)) (cc_zchan (w_st w)) (zcan_ip_reg c) (w_log w) frames ->
  (forall rc done w', request_end fuel (w_log w) (zcan_ip_num c) (zcan_buf_rx_num c) (zcan_ip_reg c)
     buf num frames (rx_queue c) rc done w' -> Q (rc, done) w') ->
  wp (zcan_rx_user fuel buf num) Q w.
Proof.
  intros c Hwf Hh Hnum Hub Hrn Hsvc HQ. unfold zcan_rx_user, zcan_ip, zcan, upd_zcan.
  set (ip := zcan_ip_num c) in *. set (size := zcan_buf_rx_num c) in *. set (base := zcan_ip_reg c) in *.
  apply wp_bind, wp_gets. fold c ip.
  apply wp_bind, wp_spin_lock; [rewrite Hh; apply not_elem_of_nil |].
  apply wp_bind, wp_modify. apply wp_bind, wp_modify. apply wp_bind, wp_gets. cbn [w_st w_log w_held].
  set (s1 := _<|cc_zcan ::= _|>).
  assert (forall A (f : zynq_can -> A) (Hf : forall c a b, f (c<|zcan_usr_rx_seq := a|>
    <|zcan_rx_timeout := b|>) = f c), f (cc_zcan s1) = f c) as Hs1.
  { intros A f Hf. unfold s1, c. cbn [cc_zcan fset].
    destruct (zcan_rx_timeout _ =? 0).
    - apply (Hf (cc_zcan (w_st w)) _ ZCAN_TIMEOUT_MAX).
    - apply (Hf (cc_zcan (w_st w)) _ (zcan_rx_timeout (cc_zcan (w_st w)))). }
  rewrite (Hs1 _ zcan_usr_buf), Hub by done. cbn [negb Z.eqb].
  apply wp_bind, wp_modify. cbn [w_st w_log w_held]. rewrite s32_small by lia.
  set (w1 := World _ _ _).
  assert (Hw1 : reading fuel (w_log w) ip size base buf num frames 0 [] [] None (rx_queue c) w1).
  { destruct Hwf as [Hr Hmin Hst]. fold c in Hr, Hmin. split; try done.
    - split; [| | exact Hst].
      + change (ring_wf (zcan_buf_rx_msg (cc_zcan s1)) (zcan_buf_rx_num (cc_zcan s1))
          (zcan_buf_rx_head (cc_zcan s1)) (zcan_buf_rx_tail (cc_zcan s1))).
        by rewrite (Hs1 _ zcan_buf_rx_msg), (Hs1 _ zcan_buf_rx_num), (Hs1 _ zcan_buf_rx_head),
          (Hs1 _ zcan_buf_rx_tail).
      + change (ZCAN_IP_RXFIFO_MAX + 1 < zcan_buf_rx_num (cc_zcan s1)).
        by rewrite (Hs1 _ zcan_buf_rx_num).
    - change (rx_queue (cc_zcan s1) = rx_queue c). by rewrite (Hs1 _ rx_queue).
    - change (zcan_ip_num (cc_zcan s1) = ip). by rewrite (Hs1 _ zcan_ip_num).
    - change (zcan_buf_rx_num (cc_zcan s1) = size). by rewrite (Hs1 _ zcan_buf_rx_num).
    - change (zcan_ip_reg (cc_zcan s1) = base). by rewrite (Hs1 _ zcan_ip_reg).
    - by apply (svc_calm _ _ _ [_]).
    - lia.
    - change (zcan_usr_rx_num (cc_zcan s1) = 0). by rewrite (Hs1 _ zcan_usr_rx_num).
    - cbn. lia.
    - exists [Ev (SpinLock (L_zcan_pio_rx ip)) 0]. split; [done |]. by rewrite svc_taken_calm. }
  assert (Hh1 : w_held w1 = [L_zcan_pio_rx ip]) by (unfold w1; by rewrite Hh).
  apply wp_bind, (wp_reading_copy fuel (w_log w) ip size base buf num frames 0 [] [] None (rx_queue c)); [exact Hw1 |].
  intros rc ms q rf w2 Hc Hw2 Hh2. cbn [app] in Hw2. rewrite app_nil_r in Hw2.
  cbn [length] in Hc. rewrite Nat.sub_0_r in Hc.
  destruct (Z.eqb_spec rc BCAN_OK) as [->|Hne].
  - eapply (wp_rx_user_done fuel (w_log w) ip size base buf num frames (rx_queue c)); [exact Hw2 | by rewrite Hh2 | |].
    + assert (rf = []) as -> by (by inversion Hc). by apply read_at_once.
    + intros done w3. apply HQ.
  - apply wp_bind, wp_tell. apply wp_bind.
    eapply wp_spin_unlock; [cbn [w_held emit]; rewrite Hh2; exact Hh1 | apply not_elem_of_nil |].
    unfold zcan_ZYNQ_STATS at 1, ZYNQ_STATS at 1.
    apply wp_bind, wp_zoom, wp_modify. apply wp_bind, wp_gets. cbn [w_st w_log w_held emit].
    eapply (wp_rx_wait fuel (w_log w) ip size base buf num frames (rx_queue c)).
    + apply (reading_upd _ _ _ _ _ _ _ _ _ _ _ _ _ (Ev (SpinUnlock (L_zcan_pio_rx ip)) 0) []
        (stats_upd (stats_inc_at CAN_STATS_USR_RX_WAIT 1))
        (emit (Ev (InitCompletion (C_zcan_usr_rx ip)) 0) w2)); try done.
      by apply (reading_emit _ _ _ _ _ _ _ _ _ _ _ _ _ (Ev (InitCompletion (C_zcan_usr_rx ip)) 0) (w_held w2) w2 Hw2).
    + done.
    + exact Hc.
    + exact Hne.
    + exact HQ.
Qed.

(** *** The PIO receive path as the service *)
Lemma fifo_dev_calm `{Env} base evs l frames :
  mmio_writes evs = [] -> fifo_dev base l frames -> fifo_dev base (evs ++ l) frames.
Proof.
  intros Hw [Hr Hd].
  assert (forall e, acks base (e ++ evs) = acks base e) as Ha.
  { intros e. unfold acks. by rewrite mmio_writes_app, Hw, app_nil_r. }
  split; intros e; rewrite app_assoc; rewrite <- (Ha e); [apply Hr | apply Hd].
Qed.

(** after some frames were taken, the device holds the others *)
Lemma fifo_dev_after `{Env} base evs l frames :
  fifo_dev base l frames -> fifo_dev base (evs ++ l) (drop (acks base evs) frames).
Proof.
  intros [Hr Hd]. split; intros e; rewrite app_assoc.
  - intros Hready. apply Hr in Hready. rewrite acks_app in Hready. rewrite length_drop. lia.
  - rewrite lookup_drop, Nat.add_comm, <- acks_app. apply Hd.
Qed.

Section pio_service.
Context `{Env} `{ModParams}.
Hypothesis Hb : zynq_bringup_param = false.

#[export] Instance pio_service fuel : RxService fuel.
Proof using Hb.
  refine {| svc_inv d _ base l fs := zcan_rx_dma d = 0 /\ fifo_dev base l fs /\ (length fs < fuel)%nat;
            svc_taken := acks |}.
  - intros d c base evs l fs Hw (Hd & Hf & Hlt). split; [done |]. split; [by apply fifo_dev_calm | done].
  - apply acks_app.
  - intros a evs Hw. unfold acks. by rewrite Hw.
  - intros w fs Q base (Hd & Hf & Hlt) Hwf Hlk HQ. unfold zcan_rx_proc.
    apply wp_bind, wp_get. rewrite Hd. cbn [Z.eqb].
    apply (wp_pio_rx_proc fuel fs); [done | done | done | done | done |].
    intros w' (j & evs & Hj & Hr & Ha & Hwf' & Hq & _). destruct Hr as (Hl & Hh & Hfr & Hu).
    assert (usr_view (w_st w') = usr_view (w_st w) /\ cc_zdev (w_st w') = cc_zdev (w_st w)) as (Hv & Hdev).
    { clear -Hfr. revert Hfr. unfold usr_view.
      destruct (w_st w) as [d c z], (w_st w') as [d' c' z'], z, z', c, c'. cbn.
      intros [= ]. by subst. }
    fold base in Ha. apply (HQ w' evs); rewrite ?Ha; try done.
    rewrite Hdev. split; [done |]. rewrite Hl, <- Ha. split; [by apply fifo_dev_after |].
    rewrite length_drop. lia.
Defined.
End pio_service.

(** ** Properties *)

(** the messages a queue loses: 64 at a time, as often as it takes to make room *)
Definition rx_lost (num n : Z) : Z :=
  ZCAN_IP_RXFIFO_MAX * ((Z.max 0 (n - (num - 1)) + (ZCAN_IP_RXFIFO_MAX - 1)) / ZCAN_IP_RXFIFO_MAX).

Lemma rx_lost_none num n : n <= num - 1 -> rx_lost num n = 0.
Proof. intros Hn. unfold rx_lost. rewrite Z.max_l by lia. done. Qed.

(** a loss of 64 leaves room for as many *)
Lemma rx_lost_more num n : num - 1 < n -> rx_lost num n = 64 + rx_lost num (n - 64).
Proof.
  intros Hn. unfold rx_lost, ZCAN_IP_RXFIFO_MAX. rewrite (Z.max_r 0 (n - (num - 1))) by lia.
  destruct (Z_le_gt_dec (num - 1) (n - 64)).
  - rewrite Z.max_r by lia.
    replace (n - (num - 1) + (64 - 1)) with (n - 64 - (num - 1) + (64 - 1) + 1 * 64) by lia.
    rewrite Z.div_add by lia. lia.
  - rewrite Z.max_l by lia. change ((0 + (64 - 1)) / 64) with 0.
    rewrite <- (Z.div_unique_pos (n - (num - 1) + (64 - 1)) 64 1 (n - (num - 1) - 1)); lia.
Qed.

(** pushing keeps a suffix: what is lost are the oldest, and how many is known *)
Lemma rx_push_fold {A} num (q fs : list A) :
  ZCAN_IP_RXFIFO_MAX + 1 < num -> Z.of_nat (length q) <= num - 1 ->
  foldl (rx_push num) q fs =
    drop (Z.to_nat (rx_lost num (Z.of_nat (length q + length fs)))) (q ++ fs).
Proof.
  unfold ZCAN_IP_RXFIFO_MAX. intros Hnum. revert q.
  induction fs as [|f fs IH]; intros q Hq; cbn [foldl length].
  { rewrite rx_lost_none by lia. by rewrite app_nil_r. }
  unfold rx_push at 2. unfold ZCAN_IP_RXFIFO_MAX. destruct (Z.eqb_spec (Z.of_nat (length q)) (num - 1)) as [E|E].
  - rewrite IH by (rewrite length_app, length_drop; cbn; lia).
    rewrite length_app, length_drop. cbn [length].
    rewrite (rx_lost_more num (Z.of_nat (length q + S (length fs)))) by lia.
    replace (Z.of_nat (length q + S (length fs)) - 64)
      with (Z.of_nat (length q - Z.to_nat 64 + 1 + length fs)) by lia.
    assert (0 <= rx_lost num (Z.of_nat (length q - Z.to_nat 64 + 1 + length fs))) as Hp.
    { unfold rx_lost, ZCAN_IP_RXFIFO_MAX. apply Z.mul_nonneg_nonneg; [done |]. apply Z.div_pos; lia. }
    rewrite Z2Nat.inj_add by lia. rewrite <- drop_drop. f_equal.
    rewrite <- app_assoc. cbn [app]. by rewrite drop_app_le by lia.
  - rewrite IH by (rewrite length_app; cbn; lia).
    rewrite length_app, <- app_assoc. cbn [app length]. do 3 f_equal. lia.
Qed.

(** how many are left *)
Lemma rx_lost_left num n :
  ZCAN_IP_RXFIFO_MAX + 1 < num -> 0 <= n ->
  n - rx_lost num n <= num - 1 /\ (num - 1 < n -> num - ZCAN_IP_RXFIFO_MAX <= n - rx_lost num n).
Proof.
  unfold rx_lost, ZCAN_IP_RXFIFO_MAX. intros Hnum Hn.
  pose proof (Z.div_mod (Z.max 0 (n - (num - 1)) + (64 - 1)) 64 ltac:(lia)).
  pose proof (Z.mod_pos_bound (Z.max 0 (n - (num - 1)) + (64 - 1)) 64 ltac:(lia)). lia.
Qed.

Section rx_properties.
Context `{Env} `{ModParams}.

(** C8: reception refines a bounded queue.  Against any device that behaves as a
    receive FIFO of [frames], [zcan_pio_rx_proc] returns; the message ring,
    read as a queue, is what pushing the frames taken, in order, makes of it
    ([rx_push]: a full queue first loses its 64 oldest); each frame taken is
    acknowledged once; all frames are taken when the device reports ready as
    long as it has one; nothing else of the device state and no lock changes. *)
Theorem pio_rx_refines (w : world can_ctx) (fuel : nat) (frames : list (list Z))
    (Hb : zynq_bringup_param = false)
    (Hdev : fifo_dev (zcan_ip_reg (cc_zcan (w_st w))) (w_log w) frames)
    (Hwf : rx_wf (w_st w)) (Hlk : rx_lock_free w) (Hfuel : (length frames < fuel)%nat) :
  wp (zcan_pio_rx_proc fuel)
    (fun _ w' => rx_served (zcan_ip_reg (cc_zcan (w_st w))) frames w w') w.
Proof. apply (wp_pio_rx_proc fuel frames); done. Qed.

(** C9: what the ring keeps.  After [zcan_pio_rx_proc] acknowledged [j] frames,
    counted in the history, the queue is the old queue followed by the first
    [j] frames of the device, in order, less its oldest messages: none while
    all fit, else the least multiple of 64 that makes them fit.  So the newest
    is never lost, and what is left is at least [num - 64] messages when any was
    lost: a reader loses messages only by being more than [num - 64] behind. *)
Theorem rx_ring_keeps_newest (w : world can_ctx) (fuel : nat) (frames : list (list Z))
    (Hb : zynq_bringup_param = false)
    (Hdev : fifo_dev (zcan_ip_reg (cc_zcan (w_st w))) (w_log w) frames)
    (Hwf : rx_wf (w_st w)) (Hlk : rx_lock_free w) (Hfuel : (length frames < fuel)%nat) :
  wp (zcan_pio_rx_proc fuel) (fun _ w' => exists evs,
    w_log w' = evs ++ w_log w /\
    let q' := map zcan_words (rx_queue (cc_zcan (w_st w'))) in
    let num := zcan_buf_rx_num (cc_zcan (w_st w)) in
    let j := acks (zcan_ip_reg (cc_zcan (w_st w))) evs in
    let all := map zcan_words (rx_queue (cc_zcan (w_st w))) ++ take j frames in
    let n := Z.of_nat (length all) in
    (j <= length frames)%nat /\
    q' = drop (Z.to_nat (64 * ((Z.max 0 (n - (num - 1)) + 63) / 64))) all /\
    Z.of_nat (length q') < num /\ (q' = all \/ num - 64 <= Z.of_nat (length q'))) w.
Proof.
  apply (wp_pio_rx_proc fuel frames); try done.
  intros w' (j & evs & Hj & (Hl & _) & Hacks & _ & Hq & _). exists evs. split; [exact Hl |]. cbv zeta.
  set (q := map zcan_words (rx_queue (cc_zcan (w_st w)))) in *.
  set (num := zcan_buf_rx_num (cc_zcan (w_st w))) in *.
  rewrite Hacks. split; [exact Hj |].
  pose proof (rx_ring_ok _ Hwf) as (Hn & _ & Hh & Ht).
  pose proof (rx_num_min _ Hwf) as Hnum. fold num in Hn, Hh, Ht, Hnum.
  assert (Hlen : Z.of_nat (length q) <= num - 1).
  { unfold q. rewrite length_map. unfold rx_queue. rewrite ring_list_length.
    pose proof (ring_len_range num (zcan_buf_rx_head (cc_zcan (w_st w))) (zcan_buf_rx_tail (cc_zcan (w_st w)))).
    fold num. lia. }
  rewrite Hq, rx_push_fold by done. rewrite <- length_app.
  set (all := q ++ take j frames).
  change (64 * ((Z.max 0 (Z.of_nat (length all) - (num - 1)) + 63) / 64)) with (rx_lost num (Z.of_nat (length all))).
  pose proof (rx_lost_left num (Z.of_nat (length all)) Hnum ltac:(lia)) as [H1 H2].
  split; [done |]. rewrite length_drop.
  destruct (Z_le_gt_dec (Z.of_nat (length all)) (num - 1)) as [Hle|Hgt].
  - rewrite rx_lost_none by done. split; [lia | by left].
  - unfold ZCAN_IP_RXFIFO_MAX in *. split; [lia | right; lia].
Qed.

(** C10: delivery is first in, first out.  [zcan_copy_to_user] hands to the
    user's array, from its current position, the conversions of the oldest
    messages of the ring, as many as are there and asked for, and removes
    exactly these; the result says whether the request is satisfied.  If a copy
    faults, the messages before it are delivered and it stays at the head of
    the ring, but already converted. *)
Theorem copy_to_user_fifo (w : world can_ctx)
    (Hwf : rx_wf (w_st w))
    (Hle : zcan_usr_rx_num (cc_zcan (w_st w)) <= zcan_usr_buf_num (cc_zcan (w_st w))) :
  wp zcan_copy_to_user (fun rc w' => exists k,
    copied k w w' /\ rx_wf (w_st w') /\ copy_outcome w w' k rc) w.
Proof. apply wp_copy_to_user; [done | done |]. intros rc k w' Hc Hwf' Ho. by exists k. Qed.

(** C11: a read request.  While a receive interrupt service runs concurrently
    against a device that holds [frames], [zcan_rx_user] returns with the
    request closed and no lock held, and [read_run] tells everything: the
    messages queued are delivered first, in order; when they are enough the
    call returns OK at once; otherwise it waits, the service pushes the frames it
    takes, a signal ends the call with BCAN_ERR and what was queued, and
    else the copy goes on with the queue as it then is, up to the number asked
    for; a request not met is BCAN_TIMEOUT when the wait timed out and BCAN_ERR
    when not.  A copy fails only where the user's memory refuses it; the message
    then stays first in the queue, already converted.  The result is OK exactly
    when all [num] were received.  While another reader is active the call
    changes nothing and reports busy. *)
Theorem rx_user_outcome (fuel : nat) (Hsvc : RxService fuel) (w : world can_ctx) (buf num : Z)
    (frames : list (list Z))
    (Hwf : rx_wf (w_st w)) (Hheld : w_held w = []) (Hnum : 0 <= num < 2 ^ 31)
    (Hidle : zcan_usr_buf (cc_zcan (w_st w)) = 0 -> zcan_usr_rx_num (cc_zcan (w_st w)) = 0)
    (Hinv : svc_inv (cc_zdev (w_st w)) (cc_zchan (w_st w)) (zcan_ip_reg (cc_zcan (w_st w))) (w_log w) frames) :
  wp (zcan_rx_user fuel buf num) (fun '(rc, done) w' =>
    if zcan_usr_buf (cc_zcan (w_st w)) =? 0 then read_outcome fuel buf num frames w rc done w'
    else
      rc = BCAN_DEV_BUSY /\ done = 0 /\ rx_queue (cc_zcan (w_st w')) = rx_queue (cc_zcan (w_st w)) /\
      usr_view (w_st w') = usr_view (w_st w) /\
      user_stores (w_log w') = user_stores (w_log w) /\ w_held w' = []) w.
Proof.
  destruct (Z.eqb_spec (zcan_usr_buf (cc_zcan (w_st w))) 0) as [E|E].
  - apply (wp_rx_user fuel buf num frames); try done; [by apply Hidle |].
    intros rc done w' (evs & t & ms & rf & Hl & Hwk & Hj & Hrun & Hd & Hs & Hr & Hinv' & Hwf' & Hh' & Hz).
    split; [exists evs, t, ms, rf; by split_and! | | done | done | done].
    apply read_run_code in Hrun as [[-> Hlen]|[Hrc Hlen]]; [left | right]; (split; [done | lia]).
  - unfold zcan_rx_user, zcan_ip, zcan, upd_zcan. apply wp_bind, wp_gets.
    apply wp_bind, wp_spin_lock; [rewrite Hheld; apply not_elem_of_nil |].
    apply wp_bind, wp_modify. apply wp_bind, wp_modify. apply wp_bind, wp_gets. cbn [w_st w_log w_held].
    destruct w as [l h [d ch z]]. cbn in *. subst h.
    assert (forall b : bool, zcan_usr_buf (if b then z<|zcan_usr_rx_seq ::= Z.add 1|>
      <|zcan_rx_timeout := ZCAN_TIMEOUT_MAX|> else z<|zcan_usr_rx_seq ::= Z.add 1|>) = zcan_usr_buf z)
      as Hb by (by intros []).
    rewrite Hb. apply Z.eqb_neq in E. rewrite E. cbn [negb].
    apply wp_bind. eapply wp_spin_unlock; [done | apply not_elem_of_nil |]. apply wp_ret.
    split; [done |]. split; [done |]. unfold usr_view. cbn.
    destruct (zcan_rx_timeout z =? 0); by split_and!.
Qed.
End rx_properties.

(** ** Witnesses *)
Module RxWitness.
(** three frames waiting in the device *)
Definition frames3 : list (list Z) := [[1; 2; 3; 4]; [5; 6; 7; 8]; [9; 10; 11; 12]].
Definition rx_base : addr := (BAR2, 0).
Definition env_fifo : Env := fun l c =>
  match c with
  | MmioRead (_, off) =>
      let f := default [] (frames3 !! acks rx_base l) in
      if off =? ZCAN_IP_PIO_STATUS
      then (if (acks rx_base l <? 3)%nat then ZCAN_IP_PIO_RX_READY else 0)
      else if off =? ZCAN_IP_RXFIFO_ID then default 0 (f !! 0%nat)
      else if off =? ZCAN_IP_RXFIFO_DLC then default 0 (f !! 1%nat)
      else if off =? ZCAN_IP_RXFIFO_DW1 then default 0 (f !! 2%nat)
      else if off =? ZCAN_IP_RXFIFO_DW2 then default 0 (f !! 3%nat)
      else 0
  | ConcurrentRx _ => 1
  | WaitCompletion _ _ => 5
  | _ => 0
  end.
#[local] Existing Instance env_fifo.
#[local] Existing Instance params_default.
Definition world0 : world can_ctx := World [] [] (CanCtx zdev_sample zchan_sample zcan_sample).
Definition base0 : addr := zcan_ip_reg (cc_zcan (w_st world0)).

Lemma fifo0 : fifo_dev base0 [] frames3.
Proof.
  change base0 with rx_base. split; intros evs; rewrite app_nil_r.
  - unfold env_ret, env_fifo. cbn [addr_add rx_base fst snd].
    change (0 + ZCAN_IP_PIO_STATUS =? ZCAN_IP_PIO_STATUS) with true. cbv iota.
    destruct (Nat.ltb_spec (acks rx_base evs) 3); [done |]. intros Hr. discriminate Hr.
  - intros f Hf. unfold env_ret, env_fifo. rewrite Hf.
    assert (f ∈ frames3) as Hin by (by eapply list_elem_of_lookup_2).
    unfold frames3 in Hin. repeat (apply elem_of_cons in Hin as [->|Hin];
      [split; [done |]; intros i r Hi; destruct i as [|[|[|[|i]]]];
         [injection Hi as <-; reflexivity.. | discriminate Hi] |]).
    by apply not_elem_of_nil in Hin.
Qed.

Lemma rx_wf0 : rx_wf (w_st world0).
Proof.
  split; [| done | done]. split_and!; done.
Qed.

Lemma pio_rx_refines_witness :
  wp (zcan_pio_rx_proc 10) (fun _ w' => rx_served base0 frames3 world0 w') world0.
Proof.
  apply (pio_rx_refines world0 10 frames3).
  - reflexivity.
  - exact fifo0.
  - exact rx_wf0.
  - apply not_elem_of_nil.
  - vm_compute. lia.
Defined.

Lemma rx_ring_keeps_newest_witness :
  wp (zcan_pio_rx_proc 10) (fun _ w' => exists evs,
    w_log w' = evs ++ [] /\
    let q' := map zcan_words (rx_queue (cc_zcan (w_st w'))) in
    let j := acks base0 evs in
    let all := map zcan_words (rx_queue zcan_sample) ++ take j frames3 in
    let n := Z.of_nat (length all) in
    (j <= 3)%nat /\
    q' = drop (Z.to_nat (64 * ((Z.max 0 (n - 255) + 63) / 64))) all /\
    Z.of_nat (length q') < 256 /\ (q' = all \/ 192 <= Z.of_nat (length q'))) world0.
Proof.
  apply (rx_ring_keeps_newest world0 10 frames3).
  - reflexivity.
  - exact fifo0.
  - exact rx_wf0.
  - apply not_elem_of_nil.
  - vm_compute. lia.
Defined.

(** two messages in the ring, a reader that asked for three *)
Definition world_pending : world can_ctx :=
  World [] [L_zcan_pio_rx 0] (CanCtx zdev_sample zchan_sample
    (zcan_sample<|zcan_buf_rx_tail := 2|><|zcan_usr_buf := 4096|><|zcan_usr_buf_num := 3|>)).

Lemma copy_to_user_fifo_witness :
  wp zcan_copy_to_user (fun rc w' => exists k,
    copied k world_pending w' /\ rx_wf (w_st w') /\ copy_outcome world_pending w' k rc) world_pending.
Proof.
  apply (copy_to_user_fifo world_pending).
  - split; [| done | done]. split_and!; done.
  - vm_compute. discriminate.
Defined.

Lemma rx_user_outcome_witness :
  wp (zcan_rx_user 10 4096 2) (fun '(rc, done) w' =>
    read_outcome (H := env_fifo) (H0 := params_default) 10
      (RxService0 := pio_service (H := env_fifo) (H0 := params_default) eq_refl 10)
      4096 2 frames3 world0 rc done w') world0.
Proof.
  apply (rx_user_outcome 10 (pio_service (H := env_fifo) (H0 := params_default) eq_refl 10) world0 4096 2 frames3).
  - exact rx_wf0.
  - reflexivity.
  - lia.
  - reflexivity.
  - split; [reflexivity |]. split; [exact fifo0 | vm_compute; lia].
Defined.

(** the same request, evaluated: the first two of the three frames *)
Example rx_user_runs :
  match zcan_rx_user 10 4096 2 world0 with
  | Ret (rc, done) w => rc = BCAN_OK /\ done = 2 /\ length (user_stores (w_log w)) = 2%nat /\
      map zcan_words (rx_queue (cc_zcan (w_st w))) = [[9; 10; 11; 12]]
  | _ => False
  end.
Proof. vm_compute. auto. Qed.
End RxWitness.
