(* ===== verification/CanDev.v ===== *)
(** * The CAN character device ([basa_can.c]): open, ioctl, release, and the
    initialisation of a CAN *)

From S2P Require Import Device CanMsg Chan CanChip CanTx CanRx.

(** ** Definitions *)

(** words of [ioc_bcan_msg_t]: the 64-bit message pointer, the count, the
    count done, the result, the clear flag *)
Definition ioc_words : nat := 6.
(** byte offset of [ioc_msg_num_done] in it *)
Definition off_ioc_msg_num_done : Z := 12.

Section dev.
Context `{Env} `{ModParams}.

(** an uninitialised local variable: any value *)
Definition uninit {S} (name : string) : M S Z :=
  v ← ask (KernelCall name []); mret (u32 v).

(** the three message ioctls: copy in, run, copy the last two results out *)
Definition ioctl_msgs (arg : Z) (body : list Z -> M can_ctx (Z * Z)) : M can_ctx Z :=
  data ← copy_from_user arg ioc_words;
  '(num_done, err) ←
    match data with
    | None => v ← uninit "bcan_msg_arg.ioc_msg_num_done"; mret (v, BCAN_FAIL)
    | Some l => body l
    end;
  ok ← copy_to_user (arg + off_ioc_msg_num_done) 8 [u32 num_done; u32 err];
  mret (if (ok : bool) then 0 else - EFAULT).

(** fields of the copied-in structure *)
Definition ioc_msgs_of (l : list Z) : Z := Z.lor (Z.shiftl (l !!! 1%nat) 32) (l !!! 0%nat).
Definition ioc_msg_num_of (l : list Z) : Z := l !!! 2%nat.
Definition ioc_msg_num_done_of (l : list Z) : Z := l !!! 3%nat.
Definition ioc_msg_rx_clear_of (l : list Z) : Z := l !!! 5%nat.

(** [ZYNQ_IOC_CAN_RECV] *)
Definition ioctl_recv (fuel : nat) (l : list Z) : M can_ctx (Z * Z) :=
  when (negb (ioc_msg_rx_clear_of l =? 0)) zcan_clear_buf_rx;;
  is_err ← ZDEV_IS_ERR;
  if (is_err : bool) then mret (ioc_msg_num_done_of l, BCAN_DEV_ERR)
  else
    '(ret, done) ← zcan_rx_user fuel (ioc_msgs_of l) (ioc_msg_num_of l);
    mret (done, ret).

(** [ZYNQ_IOC_CAN_SEND], [ZYNQ_IOC_CAN_SEND_HIPRI] *)
Definition ioctl_send (fuel : nat) (hipri : bool) (l : list Z) : M can_ctx (Z * Z) :=
  is_err ← ZDEV_IS_ERR;
  if (is_err : bool) then mret (ioc_msg_num_done_of l, BCAN_DEV_ERR)
  else
    '(ret, done) ← zcan_tx_user fuel (ioc_msgs_of l) (ioc_msg_num_of l) hipri;
    mret (done, ret).

(** [ZYNQ_IOC_CAN_GET_STATUS_ERR] *)
Definition ioctl_status_err (arg : Z) : M can_ctx Z :=
  is_err ← ZDEV_IS_ERR;
  l ← (if (is_err : bool) then
         a ← uninit "bcan_status"; b ← uninit "bcan_err_status"; c ← uninit "bcan_err_count";
         mret [a; b; c; u32 BCAN_DEV_ERR]
       else
         a ← zcan_reg_read ZCAN_IP_SR;
         b ← zcan_reg_read ZCAN_IP_ESR;
         c ← zcan_reg_read ZCAN_IP_ECR;
         mret [a; b; c; BCAN_OK]);
  ok ← copy_to_user arg 16 l;
  mret (if (ok : bool) then 0 else - EFAULT).

(** the ioctl handler; [attached] is false for a NULL private pointer.  [fuel]
    bounds the transmission retries and the receive interrupt's FIFO loop. *)
Definition zcan_ioctl (fuel : nat) (attached : bool) (cmd arg : Z) : M can_ctx Z :=
  if negb attached then mret (-1)
  else if cmd =? ZYNQ_IOC_CAN_TX_TIMEOUT_SET then zcan_tx_timeout_set arg;; mret 0
  else if cmd =? ZYNQ_IOC_CAN_RX_TIMEOUT_SET then zcan_rx_timeout_set arg;; mret 0
  else if cmd =? ZYNQ_IOC_CAN_DEV_START then zcan_pio_start;; mret 0
  else if cmd =? ZYNQ_IOC_CAN_DEV_STOP then zcan_pio_stop;; mret 0
  else if cmd =? ZYNQ_IOC_CAN_DEV_RESET then zcan_pio_reset;; mret 0
  else if cmd =? ZYNQ_IOC_CAN_BAUDRATE_SET then zcan_pio_set_baudrate (s32 arg)
  else if cmd =? ZYNQ_IOC_CAN_BAUDRATE_GET then
    c ← zcan;
    ok ← copy_to_user arg 8 [u32 (zcan_pio_baudrate c); u32 (Z.shiftr (zcan_pio_baudrate c) 32)];
    mret (if (ok : bool) then 0 else - EFAULT)
  else if cmd =? ZYNQ_IOC_CAN_LOOPBACK_SET then zcan_pio_loopback_set;; mret 0
  else if cmd =? ZYNQ_IOC_CAN_LOOPBACK_UNSET then zcan_pio_loopback_unset;; mret 0
  else if cmd =? ZYNQ_IOC_CAN_RECV then ioctl_msgs arg (ioctl_recv fuel)
  else if cmd =? ZYNQ_IOC_CAN_SEND then ioctl_msgs arg (ioctl_send fuel false)
  else if cmd =? ZYNQ_IOC_CAN_SEND_HIPRI then ioctl_msgs arg (ioctl_send fuel true)
  else if cmd =? ZYNQ_IOC_CAN_GET_STATUS_ERR then ioctl_status_err arg
  else mret (- EINVAL).

(** exclusive open: reset to default normal mode *)
Definition zcan_open : M can_ctx Z :=
  ip ← zcan_ip;
  spin_lock (L_zcan_pio ip);;
  c ← zcan;
  if negb (zcan_pio_opened c =? 0) then
    spin_unlock (L_zcan_pio ip);;
    mret BCAN_DEV_BUSY
  else
    upd_zcan (fun c => c<|zcan_pio_opened := 1|>);;
    spin_unlock (L_zcan_pio ip);;
    zcan_pio_reset;;
    is_err ← ZDEV_IS_ERR;
    if (is_err : bool) then
      spin_lock (L_zcan_pio ip);;
      upd_zcan (fun c => c<|zcan_pio_opened := 0|>);;
      spin_unlock (L_zcan_pio ip);;
      mret BCAN_DEV_ERR
    else mret 0.

Definition zcan_release : M can_ctx Z :=
  ip ← zcan_ip;
  spin_lock (L_zcan_pio ip);;
  spin_lock (L_zcan_pio_tx ip);;
  spin_lock (L_zcan_pio_rx ip);;
  upd_zcan (fun c => c<|zcan_pio_opened := 0|>);;
  (* reset to quiesce the h/w *)
  upd_zcan (fun c => c<|zcan_pio_state := ZYNQ_STATE_RESET|>);;
  zcan_reg_write ZCAN_IP_SRR 0;;
  mdelay 10;;
  on_chan (zchan_reg_write ZYNQ_CH_RESET ZYNQ_CH_RESET_EN);;
  on_chan (zchan_reg_write ZYNQ_CH_RESET 0);;
  spin_unlock (L_zcan_pio_rx ip);;
  spin_unlock (L_zcan_pio_tx ip);;
  spin_unlock (L_zcan_pio ip);;
  mret 0.

(** the ring size asked for by the module parameter, clamped *)
Definition rx_buf_num_clamped : Z :=
  if zynq_can_rx_buf_num <? ZCAN_IP_MSG_MIN then ZCAN_IP_MSG_MIN
  else if ZCAN_IP_MSG_MAX <? zynq_can_rx_buf_num then ZCAN_IP_MSG_MAX
  else zynq_can_rx_buf_num.

Definition zcan_pio_init (mode : zcan_ip_mode) : M can_ctx Z :=
  dev ← on_chan (on_zdev zynq_create_cdev);
  upd_zcan (fun c => c<|zcan_pio_dev := dev|>);;
  if dev =? 0 then mret (-1)
  else
    let num := rx_buf_num_clamped in
    (* allocate Rx buffer ring *)
    p ← ask (KAlloc (num * sizeof_bcan_msg));
    upd_zcan (fun c => c<|zcan_buf_rx_va := p|>);;
    if p =? 0 then
      zynq_destroy_cdev dev;;
      mret (-1)
    else
      upd_zcan (fun c => c<|zcan_buf_rx_msg := replicate (Z.to_nat num) bcan_msg_zero|>
        <|zcan_buf_rx_num := num|><|zcan_pio_baudrate := ZYNQ_BAUDRATE_500K|>);;
      ip ← zcan_ip;
      tell (InitCompletion (C_zcan_usr_rx ip));;
      let ip_mode :=
        match mode with
        | ZCAN_IP_SLEEP => ZCAN_IP_MSR_SLEEP
        | ZCAN_IP_LOOPBACK => ZCAN_IP_MSR_LOOPBACK
        | ZCAN_IP_NORMAL => ZCAN_IP_MSR_NORMAL
        end in
      (* init the CAN IP h/w *)
      zcan_pio_chip_init ip_mode true;;
      mret 0.

Definition zcan_pio_fini : M can_ctx unit :=
  zcan_pio_reset_noinit;;
  c ← zcan;
  zynq_destroy_cdev (zcan_pio_dev c);;
  tell (KFree (zcan_buf_rx_va c)).

Definition zcan_init : M can_ctx Z :=
  upd_zcan (fun c => c<|zcan_ip_reg := (BAR2, ZCAN_IP_OFFSET * zcan_ip_num c)|>);;
  rc ← zcan_pio_init ZCAN_IP_NORMAL;
  mret (if rc =? 0 then 0 else -1).

Definition zcan_fini : M can_ctx unit := zcan_pio_fini.
End dev.

(** index of the CAN with a given IP number *)
Fixpoint find_ip (cans : list zynq_can) (i : nat) (can_ip_num : Z) : option nat :=
  match cans with
  | [] => None
  | c :: l => if zcan_ip_num c =? can_ip_num then Some i else find_ip l (S i) can_ip_num
  end.
Definition can_ip_to_zcan (d : zynq_dev) (cans : list zynq_can) (can_ip_num : Z) : option nat :=
  if zdev_can_cnt d <=? can_ip_num then None
  else find_ip (take (Z.to_nat (zdev_can_cnt d)) cans) 0 can_ip_num.
