(* ===== verification/CanCtl.v ===== *)
(** * The state of a CAN under its control operations

    Open, release and the control ioctls of [basa_can.c], in any order: the
    state the driver records agrees with what it last wrote to the reset
    register of the IP, no operation faults and no lock stays held. *)

From stdpp Require Import relations.
From S2P Require Import Ring Device CanMsg Chan CanChip CanTx CanRx CanDev.

(** ** Specification *)

Definition srr (s : can_ctx) : addr := addr_add (zcan_ip_reg (cc_zcan s)) ZCAN_IP_SRR.

(** reading the reset register gives what was last written to it (0 after power
    up); the driver only ever writes 0 and CEN, which do not clear themselves *)
Definition srr_readback `{Env} (a : addr) : Prop :=
  forall l, u32 (env_ret l (MmioRead a)) = u32 (default 0 (last_write a l)).

Record can_inv (w : world can_ctx) : Prop := {
  ci_held : w_held w = [];
  ci_can_bar : fst (zcan_ip_reg (cc_zcan (w_st w))) = BAR2;
  ci_chan_bar : fst (zchan_reg (cc_zchan (w_st w))) = BAR0;
  ci_baud : 0 <= zcan_pio_baudrate (cc_zcan (w_st w)) < ZYNQ_BAUDRATE_NUM;
  ci_state : zcan_pio_state (cc_zcan (w_st w)) = ZYNQ_STATE_START <->
             last_write (srr (w_st w)) (w_log w) = Some ZCAN_IP_SRR_CEN;
  ci_vals : forall v, last_write (srr (w_st w)) (w_log w) = Some v -> v = 0 \/ v = ZCAN_IP_SRR_CEN
}.

(** the operations: open, release and the ioctls other than the transfers *)
Inductive can_op := OpOpen | OpRelease | OpIoctl (cmd arg : Z).
Definition transfer_cmds : list Z :=
  [ZYNQ_IOC_CAN_RECV; ZYNQ_IOC_CAN_SEND; ZYNQ_IOC_CAN_SEND_HIPRI].
Definition op_ctl (op : can_op) : Prop :=
  match op with OpIoctl cmd _ => cmd ∉ transfer_cmds | _ => True end.
(** the one request that leaves the rate table: a negative baud rate *)
Definition negative_rate (op : can_op) : option Z :=
  match op with
  | OpIoctl cmd arg => if (cmd =? ZYNQ_IOC_CAN_BAUDRATE_SET) && (s32 arg <? 0) then Some (s32 arg) else None
  | _ => None
  end.
Definition op_ok (op : can_op) : Prop :=
  match op with
  | OpIoctl cmd arg => (cmd ∉ transfer_cmds) /\ (cmd = ZYNQ_IOC_CAN_BAUDRATE_SET -> 0 <= s32 arg)
  | _ => True
  end.

Lemma op_ok_iff op : op_ok op <-> op_ctl op /\ negative_rate op = None.
Proof.
  destruct op as [| |cmd arg]; cbn; [by split.. |].
  destruct (Z.eqb_spec cmd ZYNQ_IOC_CAN_BAUDRATE_SET) as [->|Hne], (Z.ltb_spec (s32 arg) 0); cbn [andb];
    (split; intros [Hc Hs]; (split; [exact Hc |])); try done. specialize (Hs eq_refl). lia.
Qed.

Section ctl.
Context `{Env} `{ModParams}.

Definition run_op (op : can_op) : M can_ctx Z :=
  match op with
  | OpOpen => zcan_open
  | OpRelease => zcan_release
  | OpIoctl cmd arg => zcan_ioctl 0 true cmd arg
  end.

(** ** Lemmas *)

Lemma last_write_cons_same a v r l : last_write a (Ev (MmioWrite a v) r :: l) = Some v.
Proof. cbn. by rewrite decide_True. Qed.

Lemma last_write_cons_ne a b v r l :
  a <> b -> last_write a (Ev (MmioWrite b v) r :: l) = last_write a l.
Proof. intros. cbn. by rewrite decide_False. Qed.

Lemma last_write_calmly {S} a (w w' : world S) :
  calmly w w' -> last_write a (w_log w') = last_write a (w_log w).
Proof. intros (_ & _ & evs & -> & Hc). by apply last_write_app, calm_writes. Qed.

Lemma bar_ne (a b : addr) x y : fst a = BAR2 -> fst b = BAR0 -> addr_add a x <> addr_add b y.
Proof. unfold addr_add. intros Ha Hb [= E]. congruence. Qed.

(** what a step may do to the rest: registers and locks where they were *)
Definition ctl_same (s s' : can_ctx) : Prop :=
  zcan_ip_reg (cc_zcan s') = zcan_ip_reg (cc_zcan s) /\
  zcan_ip_num (cc_zcan s') = zcan_ip_num (cc_zcan s) /\
  zchan_reg (cc_zchan s') = zchan_reg (cc_zchan s).

Hypothesis Hb : zynq_bringup_param = false.

Lemma can_ctx_id (s : can_ctx) : s<|cc_zdev := cc_zdev s|><|cc_zchan := cc_zchan s|> = s.
Proof. by destruct s. Qed.

(** a register of the channel, written from CAN code *)
Lemma wp_on_chan_write off v w (Q : unit -> world can_ctx -> Prop) :
  Q tt (emit (Ev (MmioWrite (addr_add (zchan_reg (cc_zchan (w_st w))) off) (u32 v)) 0) w) ->
  wp (on_chan (zchan_reg_write off v)) Q w.
Proof using Hb.
  intros HQ. unfold on_chan. apply wp_zoom. unfold zchan_reg_write.
  apply wp_bind, wp_gets, wp_io_write; [exact Hb |]. cbn [w_st w_log w_held emit ch_zdev ch_zchan].
  rewrite can_ctx_id. exact HQ.
Qed.

(** clearing the channel's interrupts writes global registers only *)
Lemma wp_on_chan_clear ch w (Q : unit -> world can_ctx -> Prop) :
  (forall evs, Forall (fun e => match ev_call e with MmioWrite (b, _) _ => b = BAR0 | _ => False end) evs ->
     Q tt (World (evs ++ w_log w) (w_held w) (w_st w))) ->
  wp (on_chan (on_zdev (zdev_clear_intr_ch ch))) Q w.
Proof using Hb.
  intros HQ. unfold on_chan, on_zdev. apply wp_zoom, wp_zoom. unfold zdev_clear_intr_ch.
  apply wp_bind, wp_get. destruct w as [l h [d c z]]. cbn [w_st w_log w_held].
  destruct (_ <=? _).
  - apply wp_ret. apply (HQ []). constructor.
  - unfold zynq_g_reg_write. apply wp_bind, wp_io_write; [exact Hb |].
    apply wp_io_write; [exact Hb |]. eapply (HQ [_; _]). by repeat constructor.
Qed.

Lemma last_write_bar0 x evs l :
  fst x = BAR2 ->
  Forall (fun e => match ev_call e with MmioWrite (b, _) _ => b = BAR0 | _ => False end) evs ->
  last_write x (evs ++ l) = last_write x l.
Proof.
  intros Hx. induction 1 as [|[c r] evs Hc _ IH]; [done |]. cbn in Hc.
  destruct c; try done. destruct a as [b off]. subst b. cbn.
  rewrite decide_False; [done |]. intros ->. discriminate Hx.
Qed.

(** the part of the initialisation after the core was disabled *)
Lemma wp_chip_setup mode l h s (Q : unit -> world can_ctx -> Prop) :
  fst (zcan_ip_reg (cc_zcan s)) = BAR2 ->
  0 <= zcan_pio_baudrate (cc_zcan s) < ZYNQ_BAUDRATE_NUM ->
  last_write (srr s) l = Some 0 ->
  (forall l', last_write (srr s) l' = Some 0 ->
     Q tt (World l' h (s<|cc_zcan ::= fun c => c<|zcan_pio_state := ZYNQ_STATE_INIT|>|>))) ->
  wp (zcan_reg_write ZCAN_IP_MSR mode;;
      c ← zcan;
      brpr ← array_get brpr_reg_val (zcan_pio_baudrate c);
      zcan_reg_write ZCAN_IP_BRPR brpr;;
      zcan_reg_write ZCAN_IP_BTR zynq_can_ip_btr;;
      zcan_reg_write ZCAN_IP_AFR ZCAN_IP_AFR_NONE;;
      zcan_reg_write ZCAN_IP_IER ZCAN_IP_INTR_ALL;;
      upd_zcan (fun c => c<|zcan_pio_state := ZYNQ_STATE_INIT|>);;
      s ← get;
      on_chan (on_zdev (zdev_clear_intr_ch (zchan_num (cc_zchan s))));;
      zynq_trace ZYNQ_TRACE_CAN_PIO
        (each (fun r => discard (zcan_reg_read r))
           [ZCAN_IP_MSR; ZCAN_IP_BRPR; ZCAN_IP_BTR; ZCAN_IP_AFR; ZCAN_IP_IER; ZCAN_IP_SRR]))
    Q (World l h s).
Proof using Hb.
  intros Hcan Hbaud Hl HQ. change ZYNQ_BAUDRATE_NUM with 4 in Hbaud.
  assert (forall off v r l'', off <> ZCAN_IP_SRR -> last_write (srr s) l'' = Some 0 ->
    last_write (srr s) (Ev (MmioWrite (addr_add (zcan_ip_reg (cc_zcan s)) off) v) r :: l'') = Some 0) as Hw.
  { intros off v r l'' Hne Hl''. rewrite last_write_cons_ne; [done |].
    intros E. apply addr_add_inj in E. by subst. }
  assert (forall off v l'' h' (R : unit -> world can_ctx -> Prop), off <> ZCAN_IP_SRR ->
    last_write (srr s) l'' = Some 0 ->
    (forall l1, last_write (srr s) l1 = Some 0 -> R tt (World l1 h' s)) ->
    wp (zcan_reg_write off v) R (World l'' h' s)) as Hwrite.
  { intros off v l'' h' R Hne Hl'' HR. unfold zcan_reg_write. apply wp_bind, wp_gets, wp_io_write; [exact Hb |].
    by apply HR, Hw. }
  apply wp_bind, Hwrite; [discriminate | done |]. intros l1 Hl1.
  unfold zcan. apply wp_bind, wp_gets.
  destruct (zlookup_Some brpr_reg_val (zcan_pio_baudrate (cc_zcan s))) as [b Hbr];
    [change (Z.of_nat (length brpr_reg_val)) with 4; lia |].
  apply wp_bind, wp_array_get. exists b. split; [exact Hbr |].
  apply wp_bind, Hwrite; [discriminate | done |]. intros l2 Hl2.
  apply wp_bind, Hwrite; [discriminate | done |]. intros l3 Hl3.
  apply wp_bind, Hwrite; [discriminate | done |]. intros l4 Hl4.
  apply wp_bind, Hwrite; [discriminate | done |]. intros l5 Hl5.
  unfold upd_zcan. apply wp_bind, wp_modify. apply wp_bind, wp_get.
  apply wp_bind, wp_on_chan_clear. intros evs Hevs. cbn [w_log w_held w_st].
  apply wp_looks.
  - apply looks_when, looks_each. intros. apply looks_discard, looks_zcan_read.
  - intros [] v' Hc. pose proof (last_write_calmly (srr s) _ _ Hc) as E. destruct Hc as (E1 & E2 & _).
    destruct v' as [lv hv sv]. cbn [w_st w_held w_log] in *. subst hv sv. apply HQ.
    rewrite E, last_write_bar0; done.
Qed.

(** initialisation: the core is left disabled, in state INIT *)
Lemma wp_chip_init mode reset w (Q : unit -> world can_ctx -> Prop) :
  fst (zcan_ip_reg (cc_zcan (w_st w))) = BAR2 ->
  fst (zchan_reg (cc_zchan (w_st w))) = BAR0 ->
  0 <= zcan_pio_baudrate (cc_zcan (w_st w)) < ZYNQ_BAUDRATE_NUM ->
  (forall l, last_write (srr (w_st w)) l = Some 0 ->
     Q tt (World l (w_held w) ((w_st w)<|cc_zcan ::= fun c => c<|zcan_pio_state := ZYNQ_STATE_INIT|>|>))) ->
  wp (zcan_pio_chip_init mode reset) Q w.
Proof using Hb.
  intros Hcan Hchan Hbaud HQ. unfold zcan_pio_chip_init.
  destruct w as [l h s]. cbn [w_st w_held] in *. apply wp_bind.
  destruct reset; unfold zcan_reg_write at 1; apply wp_bind, wp_bind, wp_gets, (wp_io_write _ _ _ _ Hb);
    unfold mdelay.
  - apply wp_bind, wp_tell. apply wp_bind, wp_on_chan_write. apply wp_bind, wp_on_chan_write.
    apply wp_tell. apply wp_chip_setup; try done. cbn [w_log emit w_st last_write].
    rewrite !decide_False by (by apply bar_ne). by rewrite decide_True.
  - apply wp_tell. apply wp_chip_setup; try done. apply last_write_cons_same.
Qed.

(** the invariant from its parts, after an operation that leaves the core as
    [st] and [v] *)
Lemma can_inv_intro w w' :
  can_inv w -> w_held w' = [] -> ctl_same (w_st w) (w_st w') ->
  0 <= zcan_pio_baudrate (cc_zcan (w_st w')) < ZYNQ_BAUDRATE_NUM ->
  (last_write (srr (w_st w)) (w_log w') = Some 0 /\
     zcan_pio_state (cc_zcan (w_st w')) <> ZYNQ_STATE_START \/
   last_write (srr (w_st w)) (w_log w') = Some ZCAN_IP_SRR_CEN /\
     zcan_pio_state (cc_zcan (w_st w')) = ZYNQ_STATE_START \/
   last_write (srr (w_st w)) (w_log w') = last_write (srr (w_st w)) (w_log w) /\
     zcan_pio_state (cc_zcan (w_st w')) = zcan_pio_state (cc_zcan (w_st w))) ->
  can_inv w'.
Proof.
  intros [Hh Hcan Hchan Hbaud Hst Hv] Hh' (E1 & E2 & E3) Hb' Hcase.
  assert (srr (w_st w') = srr (w_st w)) as Es by (unfold srr; by rewrite E1).
  split; rewrite ?E1, ?E3, ?Es; try done.
  - destruct Hcase as [[-> E]|[[-> ->]|[-> ->]]]; [| done | done].
    split; [done | intros E'; discriminate E'].
  - destruct Hcase as [[-> _]|[[-> _]|[-> _]]]; [| | done]; intros v [= <-]; auto.
Qed.

Lemma wp_reset_opened w (Q : unit -> world can_ctx -> Prop) :
  can_inv w ->
  (forall w', can_inv w' -> ctl_same (w_st w) (w_st w') ->
     zcan_pio_state (cc_zcan (w_st w')) = ZYNQ_STATE_INIT ->
     zcan_pio_opened (cc_zcan (w_st w')) = zcan_pio_opened (cc_zcan (w_st w)) -> Q tt w') ->
  wp zcan_pio_reset Q w.
Proof using Hb.
  intros Hw HQ. pose proof Hw as [Hh Hcan Hchan Hbaud Hst Hv]. unfold zcan_pio_reset, zcan_ip, upd_zcan.
  apply wp_bind, wp_gets.
  apply wp_bind, wp_spin_lock; [rewrite Hh; solve_held |]. cbn [w_log w_held w_st]. rewrite Hh.
  apply wp_bind, wp_spin_lock; [solve_held |]. apply wp_bind, wp_spin_lock; [solve_held |].
  apply wp_bind, wp_modify. apply wp_bind, wp_chip_init; try done.
  intros l Hl. cbn [w_held w_st].
  apply wp_bind. eapply wp_spin_unlock; [done | solve_held |].
  apply wp_bind. eapply wp_spin_unlock; [done | solve_held |].
  eapply wp_spin_unlock; [done | solve_held |].
  apply HQ; [| done | done | done]. apply (can_inv_intro w); try done. left. by split.
Qed.

Lemma wp_reset w (Q : unit -> world can_ctx -> Prop) :
  can_inv w ->
  (forall w', can_inv w' -> ctl_same (w_st w) (w_st w') ->
     zcan_pio_state (cc_zcan (w_st w')) = ZYNQ_STATE_INIT -> Q tt w') ->
  wp zcan_pio_reset Q w.
Proof using Hb. intros Hw HQ. apply wp_reset_opened; auto. Qed.

(** writes to other registers do not change the last write to [x] *)
Lemma last_write_others x evs l :
  Forall (fun p : addr * Z => p.1 <> x) (mmio_writes evs) ->
  last_write x (evs ++ l) = last_write x l.
Proof.
  induction evs as [|[c r] evs IH]; [done |]. intros Hne.
  destruct c; try (by apply IH). cbn in Hne |- *. apply Forall_cons in Hne as [Hn Hne].
  rewrite decide_False; [by apply IH |]. intros ->. by apply Hn.
Qed.

(** creating the character device: only the minor number moves *)
Lemma wp_create_cdev w (Q : Z -> world can_ctx -> Prop) :
  (forall dev l m, Q dev (World l (w_held w) ((w_st w)<|cc_zdev ::= fun d => d<|zynq_minor := m|>|>))) ->
  wp (on_chan (on_zdev zynq_create_cdev)) Q w.
Proof.
  intros HQ. unfold on_chan, on_zdev, zynq_create_cdev. apply wp_zoom, wp_zoom.
  destruct w as [l h [d c z]]. wp_steps; apply HQ.
Qed.

(** an operation that keeps the invariant, whatever it returns *)
Definition keeps {A} (m : M can_ctx A) : Prop :=
  forall w, can_inv w -> wp m (fun _ w' => can_inv w') w.
(** the same, and the CAN stays open or closed and is started afterwards as [f]
    says *)
Definition kept_as (f : bool -> bool) (w w' : world can_ctx) : Prop :=
  can_inv w' /\ zcan_pio_opened (cc_zcan (w_st w')) = zcan_pio_opened (cc_zcan (w_st w)) /\
  started (w_st w') = f (started (w_st w)).
Definition keeps_as {A} (f : bool -> bool) (m : M can_ctx A) : Prop :=
  forall w, can_inv w -> wp m (fun _ w' => kept_as f w w') w.

Lemma keeps_of {A} f (m : M can_ctx A) : keeps_as f m -> keeps m.
Proof. intros Hm w Hw. eapply wp_mono; [by apply Hm |]. by intros a w' [Hv _]. Qed.

Lemma kept_intro f w w' :
  can_inv w -> w_held w' = [] -> ctl_same (w_st w) (w_st w') ->
  0 <= zcan_pio_baudrate (cc_zcan (w_st w')) < ZYNQ_BAUDRATE_NUM ->
  zcan_pio_opened (cc_zcan (w_st w')) = zcan_pio_opened (cc_zcan (w_st w)) ->
  started (w_st w') = f (started (w_st w)) ->
  (last_write (srr (w_st w)) (w_log w') = Some 0 /\
     zcan_pio_state (cc_zcan (w_st w')) <> ZYNQ_STATE_START \/
   last_write (srr (w_st w)) (w_log w') = Some ZCAN_IP_SRR_CEN /\
     zcan_pio_state (cc_zcan (w_st w')) = ZYNQ_STATE_START \/
   last_write (srr (w_st w)) (w_log w') = last_write (srr (w_st w)) (w_log w) /\
     zcan_pio_state (cc_zcan (w_st w')) = zcan_pio_state (cc_zcan (w_st w))) ->
  kept_as f w w'.
Proof. intros. split; [by apply (can_inv_intro w) | done]. Qed.

Lemma keeps_then {A B} f (m : M can_ctx A) (b : B) : keeps_as f m -> keeps_as f (m;; mret b).
Proof. intros Hm w Hw. apply wp_bind. eapply wp_mono; [by apply Hm |]. intros a v Hv. by apply wp_ret. Qed.

(** looking, and setting fields that the invariant does not mention *)
Lemma can_inv_calmly w w' : can_inv w -> calmly w w' -> can_inv w'.
Proof.
  intros Hw Hc. pose proof (last_write_calmly (srr (w_st w)) _ _ Hc) as E.
  destruct Hc as (Hs & Hh & _). apply (can_inv_intro w); try done.
  - by rewrite Hh, (ci_held _ Hw).
  - by rewrite Hs.
  - rewrite Hs. apply (ci_baud _ Hw).
  - right. right. by rewrite Hs.
Qed.

Lemma keeps_looks {A} (m : M can_ctx A) : looks m -> keeps_as id m.
Proof.
  intros Hm w Hw. apply wp_looks; [done |]. intros a w' Hc. split; [by eapply can_inv_calmly |].
  destruct Hc as [-> _]. done.
Qed.

Lemma keeps_locked_upd f :
  (forall c, zcan_ip_reg (f c) = zcan_ip_reg c /\ zcan_ip_num (f c) = zcan_ip_num c /\
     zcan_pio_baudrate (f c) = zcan_pio_baudrate c /\ zcan_pio_state (f c) = zcan_pio_state c /\
     zcan_pio_opened (f c) = zcan_pio_opened c) ->
  keeps_as id (ip ← zcan_ip; spin_lock (L_zcan_pio ip);; upd_zcan f;; spin_unlock (L_zcan_pio ip)).
Proof.
  intros Hf w Hw. pose proof (ci_held _ Hw) as Hh. unfold zcan_ip, upd_zcan. apply wp_bind, wp_gets.
  apply wp_bind, wp_spin_lock; [rewrite Hh; solve_held |]. apply wp_bind, wp_modify.
  eapply wp_spin_unlock; [cbn [w_held]; by rewrite Hh | solve_held |].
  destruct (Hf (cc_zcan (w_st w))) as (F1 & F2 & F3 & F4 & F5).
  apply kept_intro; [done | done | by split | | exact F5 | unfold started; cbn; by rewrite F4 |].
  - cbn. rewrite F3. apply (ci_baud _ Hw).
  - right. right. split; [done | exact F4].
Qed.

Lemma keeps_start : keeps_as (fun _ => true) zcan_pio_start.
Proof using Hb.
  intros w Hw. pose proof (ci_held _ Hw) as Hh. unfold zcan_pio_start, zcan_ip, upd_zcan.
  apply wp_bind, wp_gets. apply wp_bind, wp_spin_lock; [rewrite Hh; solve_held |].
  unfold zynq_g_reg_read. apply wp_bind, wp_io_read; [exact Hb |]. intros r _.
  apply wp_bind, wp_modify. unfold zcan_reg_write. apply wp_bind, wp_bind, wp_gets, wp_io_write; [exact Hb |].
  apply wp_bind, wp_modify. eapply wp_spin_unlock; [cbn [w_held emit]; by rewrite Hh | solve_held |].
  apply kept_intro; try done; [apply (ci_baud _ Hw) |]. right. left. split; [| done].
  cbn [w_log w_st emit last_write]. by rewrite decide_True.
Qed.

Lemma keeps_stop : keeps_as (fun _ => false) zcan_pio_stop.
Proof using Hb.
  intros w Hw. pose proof (ci_held _ Hw) as Hh. unfold zcan_pio_stop, zcan_ip, upd_zcan, mdelay.
  apply wp_bind, wp_gets. apply wp_bind, wp_spin_lock; [rewrite Hh; solve_held |].
  cbn [w_held w_log w_st]. rewrite Hh. apply wp_bind, wp_spin_lock; [solve_held |].
  apply wp_bind, wp_tell. apply wp_bind, wp_modify.
  unfold zcan_reg_write. apply wp_bind, wp_bind, wp_gets, wp_io_write; [exact Hb |].
  apply wp_bind. eapply wp_spin_unlock; [done | solve_held |].
  eapply wp_spin_unlock; [done | solve_held |].
  apply kept_intro; try done; [apply (ci_baud _ Hw) |]. left. split; [| done].
  cbn [w_log w_st emit last_write]. by rewrite decide_True.
Qed.

(** both loopback operations: reinitialise, then enable again if it was *)
Lemma keeps_loopback mode loop :
  keeps_as id (ip ← zcan_ip;
    spin_lock (L_zcan_pio ip);;
    c ← zcan;
    let pio_state := zcan_pio_state c in
    zcan_pio_chip_init mode true;;
    upd_zcan (fun c => c<|zcan_pio_loopback := loop|>);;
    when (bool_decide (pio_state = ZYNQ_STATE_START))
      (zcan_reg_write ZCAN_IP_SRR ZCAN_IP_SRR_CEN;;
       upd_zcan (fun c => c<|zcan_pio_state := ZYNQ_STATE_START|>));;
    spin_unlock (L_zcan_pio ip)).
Proof using Hb.
  intros w Hw. pose proof Hw as [Hh Hcan Hchan Hbaud _ _]. unfold zcan_ip, zcan, upd_zcan.
  apply wp_bind, wp_gets. apply wp_bind, wp_spin_lock; [rewrite Hh; solve_held |].
  cbn [w_held w_log w_st]. rewrite Hh. apply wp_bind, wp_gets. cbn [w_st].
  apply wp_bind, wp_chip_init; try done. intros l Hl. cbn [w_held w_st] in Hl |- *.
  apply wp_bind, wp_modify. apply wp_bind, wp_when; intros E.
  - unfold zcan_reg_write. apply wp_bind, wp_bind, wp_gets, wp_io_write; [exact Hb |].
    apply wp_modify. eapply wp_spin_unlock; [done | solve_held |].
    apply kept_intro; try done. right. left. split; [| done].
    cbn [w_log w_st emit last_write]. by rewrite decide_True.
  - eapply wp_spin_unlock; [done | solve_held |]. apply kept_intro; try done. left. by split.
Qed.

Lemma keeps_baudrate b :
  (forall s, fst (zcan_ip_reg (cc_zcan s)) = BAR2 -> srr_readback (srr s)) ->
  0 <= b < 2 ^ 31 -> keeps_as id (zcan_pio_set_baudrate b).
Proof using Hb.
  intros Hrb Hb0 w Hw. pose proof Hw as [Hh Hcan Hchan Hbaud Hst Hv].
  unfold zcan_pio_set_baudrate, zcan_ip, upd_zcan, mdelay, zcan_reg_write.
  destruct (Z.leb_spec ZYNQ_BAUDRATE_NUM b) as [|Hlt]; [by apply wp_ret |].
  change ZYNQ_BAUDRATE_NUM with 4 in Hlt.
  apply wp_bind, wp_gets. apply wp_bind, wp_spin_lock; [rewrite Hh; solve_held |].
  cbn [w_held w_log w_st]. rewrite Hh.
  unfold zcan_reg_read. apply wp_bind, wp_bind, wp_gets, wp_io_read; [exact Hb |]. intros r Hr.
  cbn [w_st w_log] in Hr.
  apply wp_bind, wp_bind, wp_gets, wp_io_write; [exact Hb |].
  apply wp_bind, wp_tell.
  destruct (zlookup_Some brpr_reg_val b) as [x Hx];
    [change (Z.of_nat (length brpr_reg_val)) with 4; lia |].
  apply wp_bind, wp_array_get. exists x. split; [exact Hx |].
  apply wp_bind, wp_bind, wp_gets, wp_io_write; [exact Hb |].
  apply wp_bind, wp_bind, wp_gets, wp_io_write; [exact Hb |].
  apply wp_bind, wp_modify. apply wp_bind. eapply wp_spin_unlock; [done | solve_held |]. apply wp_ret.
  assert (u32 r = u32 (default 0 (last_write (srr (w_st w)) (w_log w)))) as Hor.
  { rewrite Hr. apply (Hrb (w_st w) Hcan (Ev (SpinLock _) 0 :: w_log w)). }
  apply kept_intro; try done.
  { cbn. rewrite u64_small by lia. change ZYNQ_BAUDRATE_NUM with 4. lia. }
  cbn [w_log w_st emit last_write]. rewrite decide_True by done. rewrite u32_idemp, Hor.
  destruct (last_write (srr (w_st w)) (w_log w)) as [v|] eqn:El; cbn [default].
  - right. right. split; [| done]. by destruct (Hv v eq_refl) as [->| ->].
  - left. split; [done |]. cbn. intros E. apply Hst in E. discriminate E.
Qed.

(** opening: what the driver answers, and the state it leaves *)
Lemma wp_open w : can_inv w ->
  wp zcan_open (fun rc w' =>
    if zcan_pio_opened (cc_zcan (w_st w)) =? 0 then
      can_inv w' /\ zcan_pio_state (cc_zcan (w_st w')) = ZYNQ_STATE_INIT /\
      (rc = 0 /\ zcan_pio_opened (cc_zcan (w_st w')) = 1 \/
       rc = BCAN_DEV_ERR /\ zcan_pio_opened (cc_zcan (w_st w')) = 0)
    else
      rc = BCAN_DEV_BUSY /\ w_st w' = w_st w /\ w_held w' = [] /\
      mmio_writes (w_log w') = mmio_writes (w_log w)) w.
Proof using Hb.
  intros Hw.
  pose proof (ci_held _ Hw) as Hh. unfold zcan_open, zcan_ip, zcan, upd_zcan, ZDEV_IS_ERR.
  apply wp_bind, wp_gets. apply wp_bind, wp_spin_lock; [rewrite Hh; solve_held |].
  cbn [w_held w_log w_st]. rewrite Hh. apply wp_bind, wp_gets. cbn [w_st].
  destruct (zcan_pio_opened (cc_zcan (w_st w)) =? 0); cbn [negb].
  2:{ apply wp_bind. eapply wp_spin_unlock; [done | solve_held |]. by apply wp_ret. }
  apply wp_bind, wp_modify. apply wp_bind. eapply wp_spin_unlock; [done | solve_held |].
  apply wp_bind, wp_reset_opened.
  { apply (can_inv_intro w); try done; [apply (ci_baud _ Hw) |]. right. by right. }
  intros v Hv (E1 & E2 & E3) Hinit Hop. apply wp_bind, wp_bind, wp_ask. intros r _. apply wp_ret.
  assert (can_inv (emit (Ev (MmioRead (BAR0, ZYNQ_G_VERSION)) r) v)) as Hv'
    by (by eapply can_inv_calmly, calmly_emit).
  destruct (_ =? _).
  - apply wp_bind, wp_spin_lock; [cbn [w_held emit]; rewrite (ci_held _ Hv); solve_held |].
    cbn [w_held w_log w_st emit]. rewrite (ci_held _ Hv).
    apply wp_bind, wp_modify. apply wp_bind. eapply wp_spin_unlock; [done | solve_held |]. apply wp_ret.
    split; [| split; [done | by right]].
    apply (can_inv_intro _ _ Hv'); try done; [apply (ci_baud _ Hv) |]. right. by right.
  - apply wp_ret. split; [done |]. split; [done |]. by left.
Qed.

Lemma last_write_find a l :
  last_write a l = head (omap (fun p : addr * Z => if decide (a = p.1) then Some p.2 else None) (mmio_writes l)).
Proof.
  induction l as [|[c r] l IH]; [done |]. destruct c; try done. cbn. by destruct (decide _).
Qed.
Lemma last_write_trace {S T} a (w : world S) (v : world T) :
  mmio_writes (w_log v) = mmio_writes (w_log w) -> last_write a (w_log v) = last_write a (w_log w).
Proof. intros E. rewrite !last_write_find. by rewrite E. Qed.
Lemma keeps_open : keeps zcan_open.
Proof using Hb.
  intros w Hw. eapply wp_mono; [by apply wp_open |]. cbv beta. intros rc v. destruct (_ =? 0); [by intros [Hv _] |].
  intros (_ & Es & Eh & Ew). apply (can_inv_intro w); [done | done | by rewrite Es | rewrite Es; apply (ci_baud _ Hw) |].
  right. right. rewrite Es. split; [by apply last_write_trace | done].
Qed.

Lemma wp_release w : can_inv w ->
  wp zcan_release (fun rc w' => rc = 0 /\ can_inv w' /\ zcan_pio_opened (cc_zcan (w_st w')) = 0 /\
    started (w_st w') = false) w.
Proof using Hb.
  intros Hw. pose proof Hw as [Hh Hcan Hchan Hbaud _ _]. unfold zcan_release, zcan_ip, upd_zcan, mdelay.
  apply wp_bind, wp_gets. apply wp_bind, wp_spin_lock; [rewrite Hh; solve_held |].
  cbn [w_held w_log w_st]. rewrite Hh.
  apply wp_bind, wp_spin_lock; [solve_held |]. apply wp_bind, wp_spin_lock; [solve_held |].
  apply wp_bind, wp_modify. apply wp_bind, wp_modify.
  unfold zcan_reg_write. apply wp_bind, wp_bind, wp_gets, wp_io_write; [exact Hb |].
  apply wp_bind, wp_tell. apply wp_bind, wp_on_chan_write. apply wp_bind, wp_on_chan_write.
  apply wp_bind. eapply wp_spin_unlock; [done | solve_held |].
  apply wp_bind. eapply wp_spin_unlock; [done | solve_held |].
  apply wp_bind. eapply wp_spin_unlock; [done | solve_held |]. apply wp_ret.
  split; [done |]. split; [| done]. apply (can_inv_intro w); try done. left. split; [| done].
  cbn [w_log w_st emit last_write]. rewrite !decide_False by (by apply bar_ne). by rewrite decide_True.
Qed.
Lemma keeps_release : keeps zcan_release.
Proof using Hb. intros w Hw. eapply wp_mono; [by apply wp_release |]. by intros rc v (_ & Hv & _). Qed.

Lemma keeps_copy_to_user dst len data : keeps_as id (copy_to_user dst len data).
Proof.
  intros w Hw. unfold copy_to_user. apply wp_bind, wp_ask. intros r _. apply wp_ret.
  apply kept_intro; try done; [apply (ci_held _ Hw) | apply (ci_baud _ Hw) |]. right. by right.
Qed.

Lemma keeps_bind {A B} (m : M can_ctx A) (f : A -> M can_ctx B) :
  keeps_as id m -> (forall a, keeps_as id (f a)) -> keeps_as id (m ≫= f).
Proof.
  intros Hm Hf w Hw. apply wp_bind. eapply wp_mono; [by apply Hm |]. intros a v (Hv & Ho & Hs).
  eapply wp_mono; [by apply Hf |]. intros b v' (Hv' & Ho' & Hs'). split; [done |]. by rewrite Ho', Hs', Ho, Hs.
Qed.

Lemma keeps_status_err arg : keeps_as id (ioctl_status_err arg).
Proof.
  apply keeps_bind; [apply keeps_looks; unfold ZDEV_IS_ERR; auto with basa |]. intros e.
  apply keeps_bind.
  - apply keeps_looks. destruct e.
    + unfold uninit. repeat (apply looks_bind; [apply looks_bind; auto with basa | intros ?]). auto with basa.
    + repeat (apply looks_bind; [apply looks_zcan_read | intros ?]). auto with basa.
  - intros l. apply keeps_bind; [apply keeps_copy_to_user |]. intros ok. apply keeps_looks, looks_ret.
Qed.

(** the control ioctls: start and stop decide, a reset stops, the others keep *)
Definition starts (cmd : Z) (b : bool) : bool :=
  if cmd =? ZYNQ_IOC_CAN_DEV_START then true
  else if (cmd =? ZYNQ_IOC_CAN_DEV_STOP) || (cmd =? ZYNQ_IOC_CAN_DEV_RESET) then false else b.
Lemma keeps_ioctl fuel cmd arg :
  (forall s, fst (zcan_ip_reg (cc_zcan s)) = BAR2 -> srr_readback (srr s)) ->
  op_ok (OpIoctl cmd arg) -> keeps_as (starts cmd) (zcan_ioctl fuel true cmd arg).
Proof using Hb.
  intros Hrb [Htr Hbd]. unfold zcan_ioctl. cbn [negb].
  destruct (Z.eqb_spec cmd ZYNQ_IOC_CAN_TX_TIMEOUT_SET) as [->|]; [apply keeps_then, keeps_locked_upd; done |].
  destruct (Z.eqb_spec cmd ZYNQ_IOC_CAN_RX_TIMEOUT_SET) as [->|]; [apply keeps_then, keeps_locked_upd; done |].
  destruct (Z.eqb_spec cmd ZYNQ_IOC_CAN_DEV_START) as [->|E1]; [apply keeps_then, keeps_start |].
  destruct (Z.eqb_spec cmd ZYNQ_IOC_CAN_DEV_STOP) as [->|E2]; [apply keeps_then, keeps_stop |].
  destruct (Z.eqb_spec cmd ZYNQ_IOC_CAN_DEV_RESET) as [->|E3].
  { apply keeps_then. intros w Hw. apply wp_reset_opened; [done |]. intros w' Hv _ Ei Eo.
    split; [done |]. split; [done |]. unfold started. by rewrite Ei. }
  assert (starts cmd = fun b => b) as ->.
  { unfold starts. by rewrite !(proj2 (Z.eqb_neq _ _)) by done. }
  change (fun b : bool => b) with (@id bool).
  destruct (Z.eqb_spec cmd ZYNQ_IOC_CAN_BAUDRATE_SET) as [E|].
  { apply keeps_baudrate; [done |]. split; [by apply Hbd | apply s32_range]. }
  destruct (Z.eqb_spec cmd ZYNQ_IOC_CAN_BAUDRATE_GET).
  { apply keeps_bind; [apply keeps_looks, looks_gets |]. intros c.
    apply keeps_bind; [apply keeps_copy_to_user |]. intros ok. apply keeps_looks, looks_ret. }
  destruct (Z.eqb_spec cmd ZYNQ_IOC_CAN_LOOPBACK_SET); [apply keeps_then, keeps_loopback |].
  destruct (Z.eqb_spec cmd ZYNQ_IOC_CAN_LOOPBACK_UNSET); [apply keeps_then, keeps_loopback |].
  unfold transfer_cmds in Htr. rewrite !not_elem_of_cons in Htr. destruct Htr as (T1 & T2 & T3 & _).
  destruct (Z.eqb_spec cmd ZYNQ_IOC_CAN_RECV); [done |].
  destruct (Z.eqb_spec cmd ZYNQ_IOC_CAN_SEND); [done |].
  destruct (Z.eqb_spec cmd ZYNQ_IOC_CAN_SEND_HIPRI); [done |].
  destruct (Z.eqb_spec cmd ZYNQ_IOC_CAN_GET_STATUS_ERR); [apply keeps_status_err |].
  apply keeps_looks, looks_ret.
Qed.

(** each operation keeps the invariant *)
Lemma keeps_op op :
  (forall s, fst (zcan_ip_reg (cc_zcan s)) = BAR2 -> srr_readback (srr s)) ->
  op_ok op -> keeps (run_op op).
Proof using Hb.
  intros Hrb Hop. destruct op as [| |cmd arg]; cbn [run_op]; [apply keeps_open | apply keeps_release |].
  by eapply keeps_of, keeps_ioctl.
Qed.
End ctl.

(** ** Properties *)

(** any operation a process may perform, when it returns *)
Inductive can_step `{Env} `{ModParams} : world can_ctx -> world can_ctx -> Prop :=
| step_op op r w w' : op_ctl op -> run_op op w = Ret r w' -> can_step w w'.

Section ctl_properties.
Context `{Env} `{ModParams}.

(** a negative rate passes the check and indexes the table below its start *)
Lemma set_baudrate_negative (w : world can_ctx) (b : Z) :
  zynq_bringup_param = false -> w_held w = [] -> b < 0 -> zcan_pio_set_baudrate b w = Fault (Index b).
Proof.
  intros Hb Hheld Hneg.
  unfold zcan_pio_set_baudrate, zcan_ip, mdelay, zcan_reg_write, zcan_reg_read, io_read, io_write.
  destruct (Z.leb_spec ZYNQ_BAUDRATE_NUM b) as [Hge|_]; [change ZYNQ_BAUDRATE_NUM with 4 in Hge; lia |].
  rewrite Hb. unfold mbind, M_bind, gets, ask, tell, spin_lock.
  rewrite Hheld, decide_False by apply not_elem_of_nil. cbn.
  unfold array_get, zlookup. destruct (Z.ltb_spec b 0); [done | lia].
Qed.

Lemma negative_rate_faults op b (w : world can_ctx) :
  zynq_bringup_param = false -> w_held w = [] -> negative_rate op = Some b -> run_op op w = Fault (Index b).
Proof.
  intros Hb Hheld Hop. destruct op as [| |cmd arg]; cbn in Hop; try done.
  destruct (Z.eqb_spec cmd ZYNQ_IOC_CAN_BAUDRATE_SET) as [->|]; cbn [andb] in Hop; [| done].
  destruct (Z.ltb_spec (s32 arg) 0); [| done]. injection Hop as <-.
  change (run_op (OpIoctl ZYNQ_IOC_CAN_BAUDRATE_SET arg)) with (zcan_pio_set_baudrate (s32 arg)).
  by apply set_baudrate_negative.
Qed.


(** A frame leaves only while the core is enabled.  In a state that
    satisfies the invariant, [zcan_pio_tx_one] writes registers only if the last
    value written to the reset register enables the core, and keeps the
    invariant. *)
Theorem tx_only_when_enabled (w : world can_ctx) (m : bcan_msg) (wait poll : bool)
    (Hb : zynq_bringup_param = false) (Hm : msg_wf m) (Hw : can_inv w) :
  wp (zcan_pio_tx_one m wait poll) (fun rc w' =>
    can_inv w' /\
    (mmio_writes (w_log w') <> mmio_writes (w_log w) ->
     last_write (srr (w_st w)) (w_log w) = Some ZCAN_IP_SRR_CEN)) w.
Proof.
  unfold zcan_pio_tx_one.
  apply wp_pio_tx; [done | done | rewrite (ci_held _ Hw); apply not_elem_of_nil |].
  intros rc w' acs Ho Hh Hs (evs & Hl & _ & Hacs). destruct (tx_outcome_access _ _ _ _ _ _ _ _ _ _ Ho) as [Hst Hin].
  assert (Hws : mmio_writes evs = rev (writes_of acs)) by (by rewrite mmio_writes_accesses, Hacs, writes_of_rev).
  assert (Forall (fun p : addr * Z => p.1 <> srr (w_st w)) (writes_of acs)) as Hne.
  { assert (forall off, off <> ZCAN_IP_SRR -> addr_add (zcan_ip_reg (cc_zcan (w_st w))) off <> srr (w_st w))
      as Ha by (intros off Hoff E; by apply addr_add_inj in E).
    apply Forall_forall. intros p Hp%Hin. revert p Hp. apply Forall_forall.
    unfold ack_writes, frame_writes. destruct poll; repeat constructor; cbn; apply Ha; discriminate. }
  assert (last_write (srr (w_st w)) (w_log w') = last_write (srr (w_st w)) (w_log w)) as Hlast.
  { rewrite Hl. apply last_write_others. rewrite Hws. by apply Forall_rev. }
  split.
  - apply (can_inv_intro w); [done | by rewrite Hh, (ci_held _ Hw) | | |].
    + rewrite Hs. by destruct (rc =? BCAN_OK).
    + rewrite Hs. pose proof (ci_baud _ Hw). by destruct (rc =? BCAN_OK).
    + right. right. split; [done |]. rewrite Hs. by destruct (rc =? BCAN_OK).
  - intros Hchg. apply (ci_state _ Hw). destruct Hst as [-> | Hst].
    + exfalso. apply Hchg. by rewrite Hl, mmio_writes_app, Hws.
    + unfold started in Hst. by apply bool_decide_eq_true in Hst.
Qed.

(** The device is opened by one process at a time.  While it is open
    another open reports busy, writes no register and changes nothing; an open
    of a closed device that works leaves it open, reset and stopped, and one
    that finds the device gone leaves it closed. *)
Theorem open_is_exclusive (w : world can_ctx)
    (Hb : zynq_bringup_param = false) (Hw : can_inv w) :
  wp zcan_open (fun rc w' =>
    if zcan_pio_opened (cc_zcan (w_st w)) =? 0 then
      can_inv w' /\ zcan_pio_state (cc_zcan (w_st w')) = ZYNQ_STATE_INIT /\
      (rc = 0 /\ zcan_pio_opened (cc_zcan (w_st w')) = 1 \/
       rc = BCAN_DEV_ERR /\ zcan_pio_opened (cc_zcan (w_st w')) = 0)
    else
      rc = BCAN_DEV_BUSY /\ w_st w' = w_st w /\ w_held w' = [] /\
      mmio_writes (w_log w') = mmio_writes (w_log w)) w.
Proof.
  by apply wp_open.
Qed.

(** Setting the baud rate.  A rate of the table is programmed with the core
    disabled (three writes: reset register 0, prescaler, reset register as it
    was read) and recorded; a rate above the table is refused and nothing
    changes; a negative rate passes the check and indexes the table out of
    bounds. *)
Theorem set_baudrate_spec (w : world can_ctx) (b : Z)
    (Hb : zynq_bringup_param = false) (Hheld : w_held w = []) (Hrange : - 2 ^ 31 <= b < 2 ^ 31) :
  let base := zcan_ip_reg (cc_zcan (w_st w)) in
  (0 <= b < ZYNQ_BAUDRATE_NUM ->
     wp (zcan_pio_set_baudrate b) (fun rc w' => exists orig,
       rc = 0 /\ w_held w' = [] /\
       w_st w' = (w_st w)<|cc_zcan ::= fun c => c<|zcan_pio_baudrate := b|>|> /\
       mmio_writes (w_log w') =
         rev [(addr_add base ZCAN_IP_SRR, 0);
              (addr_add base ZCAN_IP_BRPR, brpr_reg_val !!! Z.to_nat b);
              (addr_add base ZCAN_IP_SRR, orig)] ++ mmio_writes (w_log w)) w) /\
  (ZYNQ_BAUDRATE_NUM <= b -> zcan_pio_set_baudrate b w = Ret (- EINVAL) w) /\
  (b < 0 -> zcan_pio_set_baudrate b w = Fault (Index b)).
Proof.
  intros base. split; [| split].
  - intros Hok. change ZYNQ_BAUDRATE_NUM with 4 in Hok.
    unfold zcan_pio_set_baudrate, zcan_ip, upd_zcan, mdelay, zcan_reg_write, zcan_reg_read.
    destruct (Z.leb_spec ZYNQ_BAUDRATE_NUM b) as [Hge|_]; [change ZYNQ_BAUDRATE_NUM with 4 in Hge; lia |].
    apply wp_bind, wp_gets. apply wp_bind, wp_spin_lock; [rewrite Hheld; solve_held |].
    cbn [w_held w_log w_st]. rewrite Hheld.
    apply wp_bind, wp_bind, wp_gets, wp_io_read; [exact Hb |]. intros r _.
    apply wp_bind, wp_bind, wp_gets, wp_io_write; [exact Hb |]. apply wp_bind, wp_tell.
    assert (zlookup brpr_reg_val b = Some (brpr_reg_val !!! Z.to_nat b) /\
      u32 (brpr_reg_val !!! Z.to_nat b) = brpr_reg_val !!! Z.to_nat b) as [Hx Hu].
    { assert (b = 0 \/ b = 1 \/ b = 2 \/ b = 3) as [-> |[->|[->| ->]]] by lia; by split. }
    apply wp_bind, wp_array_get. eexists. split; [exact Hx |].
    apply wp_bind, wp_bind, wp_gets, wp_io_write; [exact Hb |].
    apply wp_bind, wp_bind, wp_gets, wp_io_write; [exact Hb |].
    apply wp_bind, wp_modify. apply wp_bind. eapply wp_spin_unlock; [done | solve_held |]. apply wp_ret.
    exists (u32 (u32 r)). rewrite u64_small by lia. split; [done |]. split; [done |]. split; [done |].
    cbn [w_st w_log w_held emit]. unfold mmio_writes at 1. cbn [omap list_omap ev_call rev app].
    rewrite Hu. done.
  - intros Hge. unfold zcan_pio_set_baudrate. by destruct (Z.leb_spec ZYNQ_BAUDRATE_NUM b); [| lia].
  - by apply set_baudrate_negative.
Qed.

(** Initialisation establishes what the rest relies on.  On a channel in
    BAR 0, [zcan_init] either reports failure, or leaves a CAN that satisfies the control invariant, with
    an empty, well-formed receive ring of the configured size (at least 256,
    at most 65536 messages). *)
Theorem can_init_establishes (w : world can_ctx)
    (Hb : zynq_bringup_param = false) (Hheld : w_held w = [])
    (Hchan : fst (zchan_reg (cc_zchan (w_st w))) = BAR0)
    (Hstats : CHAN_STATS_RX_DROP < Z.of_nat (length (zchan_stats (cc_zchan (w_st w)))))
    (Hzero : zcan_buf_rx_head (cc_zcan (w_st w)) = 0 /\ zcan_buf_rx_tail (cc_zcan (w_st w)) = 0) :
  wp zcan_init (fun rc w' => rc = -1 /\ w_held w' = [] \/
    rc = 0 /\ can_inv w' /\ rx_wf (w_st w') /\ rx_queue (cc_zcan (w_st w')) = [] /\
    zcan_buf_rx_num (cc_zcan (w_st w')) = rx_buf_num_clamped /\ 256 <= rx_buf_num_clamped <= 65536) w.
Proof.
  assert (256 <= rx_buf_num_clamped <= 65536) as Hclamp.
  { unfold rx_buf_num_clamped, ZCAN_IP_MSG_MIN, ZCAN_IP_MSG_MAX. case_cmp; lia. }
  unfold zcan_init, zcan_pio_init, upd_zcan, zcan_ip. apply wp_bind, wp_modify. apply wp_bind, wp_bind.
  apply wp_create_cdev. intros dev l m. cbn [w_st w_held]. apply wp_bind, wp_modify.
  destruct (dev =? 0); [apply wp_ret, wp_ret; by left |].
  apply wp_bind, wp_ask. intros p _. apply wp_bind, wp_modify.
  destruct (p =? 0).
  { unfold zynq_destroy_cdev. apply wp_bind, wp_bind, wp_tell. apply wp_tell. apply wp_ret, wp_ret. by left. }
  apply wp_bind, wp_modify. apply wp_bind, wp_gets. apply wp_bind, wp_tell.
  apply wp_bind, wp_chip_init; try done. intros l' Hl'. apply wp_ret, wp_ret. right.
  split; [done |]. destruct Hzero as [Z1 Z2].
  assert (ring_wf (replicate (Z.to_nat rx_buf_num_clamped) bcan_msg_zero) rx_buf_num_clamped
    (zcan_buf_rx_head (cc_zcan (w_st w))) (zcan_buf_rx_tail (cc_zcan (w_st w)))) as Hring.
  { rewrite Z1, Z2. split; [lia |]. split; [apply length_replicate |]. lia. }
  split; [| split; [| split; [| split; [done | exact Hclamp]]]].
  - split; try done.
    + split; [done |]. intros E. discriminate (eq_trans (eq_sym E) Hl').
    + intros v E. left. by injection (eq_trans (eq_sym E) Hl').
  - split; [exact Hring | unfold ZCAN_IP_RXFIFO_MAX; cbn; lia | exact Hstats].
  - unfold rx_queue. cbn. rewrite Z1, Z2. apply ring_list_self. lia.
Qed.
End ctl_properties.

(** ** Witnesses *)
Module CtlWitness.
(** registers that read back what was written *)
Definition env_regs : Env := fun l c =>
  match c with
  | MmioRead a => default 0 (last_write a l)
  | _ => 4096
  end.
#[local] Existing Instance env_regs.
#[local] Existing Instance params_default.
Definition world0 : world can_ctx := World [] [] (CanCtx zdev_sample zchan_sample zcan_sample).
Definition after (op : can_op) (w : world can_ctx) : world can_ctx :=
  match run_op op w with Ret _ w' => w' | _ => w end.

Lemma inv0 : can_inv world0.
Proof. by split; try done; vm_compute; split. Qed.

Lemma readback0 s : srr_readback (srr s).
Proof. by intros l. Qed.


Lemma tx_only_when_enabled_witness :
  wp (zcan_pio_tx_one bcan_msg_zero false false) (fun rc w' =>
    can_inv w' /\ (mmio_writes (w_log w') <> [] -> None = Some ZCAN_IP_SRR_CEN)) world0.
Proof.
  apply (tx_only_when_enabled world0 bcan_msg_zero false false).
  - reflexivity.
  - split; vm_compute; split; discriminate || reflexivity.
  - exact inv0.
Defined.

Lemma open_is_exclusive_witness :
  wp zcan_open (fun rc w' =>
    can_inv w' /\ zcan_pio_state (cc_zcan (w_st w')) = ZYNQ_STATE_INIT /\
    (rc = 0 /\ zcan_pio_opened (cc_zcan (w_st w')) = 1 \/
     rc = BCAN_DEV_ERR /\ zcan_pio_opened (cc_zcan (w_st w')) = 0)) world0.
Proof. apply (open_is_exclusive world0); [reflexivity | exact inv0]. Defined.

Lemma set_baudrate_spec_witness :
  zcan_pio_set_baudrate 7 world0 = Ret (- EINVAL) world0 /\
  zcan_pio_set_baudrate (-1) world0 = Fault (Index (-1)).
Proof.
  split.
  - apply (set_baudrate_spec world0 7); [reflexivity | reflexivity | lia | vm_compute; discriminate].
  - apply (set_baudrate_spec world0 (-1)); [reflexivity | reflexivity | lia | lia].
Defined.

Lemma can_init_establishes_witness :
  wp zcan_init (fun rc w' => rc = -1 /\ w_held w' = [] \/
    rc = 0 /\ can_inv w' /\ rx_wf (w_st w') /\ rx_queue (cc_zcan (w_st w')) = [] /\
    zcan_buf_rx_num (cc_zcan (w_st w')) = rx_buf_num_clamped /\ 256 <= rx_buf_num_clamped <= 65536)
    world0.
Proof.
  apply (can_init_establishes world0);
    [reflexivity | reflexivity | reflexivity | vm_compute; reflexivity | split; reflexivity].
Defined.
End CtlWitness.
