(* ===== verification/CanXfer.v ===== *)
(** * What the transfer requests of a CAN leave alone

    Sending and receiving ([zcan_tx_user], [zcan_rx_user] of [basa_can.c], with
    the receive service that runs meanwhile) do not touch the control state:
    every transfer that returns leaves the locks free, the reset register as last
    written, and the fields the control operations rely on.  With the control
    operations of [CanCtl] this covers every request of the device. *)

From S2P Require Import Frames Ring Device CanMsg Chan CanChip CanTx CanRx CanDev CanCtl.

(** ** A partial judgement: from locks [h], states in [core], to locks [h'] *)
Definition tame {S A} (x : addr) (core : S -> Prop) (h : list lock) (m : M S A) (h' : list lock) : Prop :=
  forall w a w', w_held w = h -> core (w_st w) -> m w = Ret a w' ->
    w_held w' = h' /\ core (w_st w') /\ last_write x (w_log w') = last_write x (w_log w).

Section rules.
Context {S : Type} (x : addr) (core : S -> Prop).

Lemma tame_ret {A} (a : A) h : tame x core h (mret a) h.
Proof. by intros w b w' Hh Hc [= <- <-]. Qed.
Lemma tame_bind {A B} (m : M S A) (f : A -> M S B) h h1 h2 :
  tame x core h m h1 -> (forall a, tame x core h1 (f a) h2) -> tame x core h (m ≫= f) h2.
Proof.
  intros Hm Hf w b w' Hh Hc (a & v & Em & Ef)%bind_inv.
  destruct (Hm _ _ _ Hh Hc Em) as (Hh1 & Hc1 & E1), (Hf _ _ _ _ Hh1 Hc1 Ef) as (Hh2 & Hc2 & E2).
  by rewrite E2.
Qed.
(** what is read satisfies [core] *)
Lemma tame_gets {A B} (g : S -> A) (f : A -> M S B) h h2 :
  (forall s, core s -> tame x core h (f (g s)) h2) -> tame x core h (gets g ≫= f) h2.
Proof. intros Hf w b w' Hh Hc (a & v & [= <- <-] & Ef)%bind_inv. exact (Hf (w_st w) Hc w b w' Hh Hc Ef). Qed.
Lemma tame_get {B} (f : S -> M S B) h h2 :
  (forall s, core s -> tame x core h (f s) h2) -> tame x core h (get ≫= f) h2.
Proof. exact (tame_gets id f h h2). Qed.
Lemma tame_look {A} (g : S -> A) h : tame x core h (gets g) h.
Proof. by intros w b w' Hh Hc [= <- <-]. Qed.
Lemma tame_fmap {A B} (m : M S A) (f : A -> B) h h' : tame x core h m h' -> tame x core h (f <$> m) h'.
Proof. intros Hm. eapply tame_bind; [exact Hm |]. intros a. apply tame_ret. Qed.
Lemma tame_modify (f : S -> S) h : (forall s, core s -> core (f s)) -> tame x core h (modify f) h.
Proof. intros Hf w b w' Hh Hc [= <- <-]. split; [done |]. split; [by apply Hf | done]. Qed.
Lemma tame_fail {A} e h h' : tame x core h (fail e : M S A) h'.
Proof. intros w b w' _ _ E. discriminate E. Qed.
Lemma other_write c r l : (forall v, c <> MmioWrite x v) -> last_write x (Ev c r :: l) = last_write x l.
Proof. intros Hc. destruct c; try done. cbn. destruct (decide _) as [<-|]; [by destruct (Hc v) | done]. Qed.
Lemma tame_tell c h : (forall v, c <> MmioWrite x v) -> tame x core h (tell c) h.
Proof. intros Hx w b w' Hh Hc [= <- <-]. split; [done |]. split; [done |]. by apply other_write. Qed.
Lemma tame_ask `{Env} c h : (forall v, c <> MmioWrite x v) -> tame x core h (ask c) h.
Proof.
  intros Hx w b w' Hh Hc E. unfold ask in E. injection E as <- <-. split; [done |]. split; [done |].
  by apply other_write.
Qed.
Lemma tame_lock l : tame x core [] (spin_lock l) [l].
Proof.
  intros w b w' Hh Hc E. unfold spin_lock in E. destruct (decide _); [discriminate |].
  injection E as <- <-. by rewrite Hh.
Qed.
Lemma tame_unlock l : tame x core [l] (spin_unlock l) [].
Proof.
  intros w b w' Hh Hc E. unfold spin_unlock in E. destruct (decide _); [| discriminate].
  injection E as <- <-. cbn. rewrite Hh. cbn. by destruct (lock_eq_dec l l).
Qed.
Lemma tame_when b (m : M S unit) h : tame x core h m h -> tame x core h (when b m) h.
Proof. intros Hm. destruct b; [exact Hm | apply tame_ret]. Qed.
Lemma tame_of_option {A} f (o : option A) h : tame x core h (of_option f o : M S A) h.
Proof. destruct o; [apply tame_ret | apply tame_fail]. Qed.
Lemma tame_loop {X A} fuel (body : X -> M S (X + A)) i h :
  (forall y, tame x core h (body y) h) -> tame x core h (loop fuel body i) h.
Proof.
  intros Hb. revert i. induction fuel as [|n IH]; intros i; [intros w a w' _ _ E; discriminate E |].
  eapply tame_bind; [apply Hb |]. intros [y|a]; [apply IH | apply tame_ret].
Qed.
Lemma tame_for n from (body : Z -> M S unit) h : (forall i, tame x core h (body i) h) -> tame x core h (for_ n from body) h.
Proof.
  intros Hb. revert from. induction n as [|n IH]; intros from; [apply tame_ret |].
  eapply tame_bind; [apply Hb |]. intros _. apply IH.
Qed.
Lemma tame_each {A} (f : A -> M S unit) l h : (forall y, tame x core h (f y) h) -> tame x core h (each f l) h.
Proof.
  intros Hf. induction l as [|y l IH]; [apply tame_ret |]. eapply tame_bind; [apply Hf |]. intros _. exact IH.
Qed.
Lemma tame_c_rem a b h : tame x core h (c_rem a b : M S Z) h.
Proof. unfold c_rem. destruct (b =? 0); [apply tame_fail | apply tame_ret]. Qed.
Lemma tame_io_read `{Env} `{ModParams} a h : tame x core h (io_read a) h.
Proof.
  unfold io_read. destruct zynq_bringup_param; [apply tame_ret |].
  eapply tame_bind; [by apply tame_ask |]. intros r. apply tame_ret.
Qed.
Lemma tame_io_write `{ModParams} a v h : a <> x -> tame x core h (io_write a v) h.
Proof.
  intros Ha. unfold io_write. destruct zynq_bringup_param; [apply tame_ret |]. apply tame_tell. by intros ? [= ? _].
Qed.
End rules.

Lemma tame_zoom {S T A} x (core : S -> Prop) (core' : T -> Prop) (g : S -> T) (p : T -> S -> S) (m : M T A) h h' :
  (forall s, core s -> core' (g s)) -> (forall t s, core s -> core' t -> core (p t s)) ->
  tame x core' h m h' -> tame x core h (zoom g p m) h'.
Proof.
  intros Hg Hp Hm w a w' Hh Hc E. unfold zoom in E. destruct (m _) as [b v|f|] eqn:Em; [| discriminate | discriminate].
  injection E as <- <-. destruct (Hm (World (w_log w) (w_held w) (g (w_st w))) _ _ Hh (Hg _ Hc) Em) as (Hh' & Hc' & El).
  split; [exact Hh' |]. split; [by apply Hp | exact El].
Qed.

(** one step by the shape of the code; the tactic stops at the program's functions *)
Ltac tame_step :=
  lazymatch goal with
  | |- tame _ _ _ (mbind _ (gets _)) _ => apply tame_gets; intros ? ?
  | |- tame _ _ _ (mbind _ get) _ => apply tame_get; intros ? ?
  | |- tame _ _ _ (mbind _ _) _ => eapply tame_bind; [| intros ?]
  | |- tame _ _ _ (gets _) _ => apply tame_look
  | |- tame _ _ _ (fmap _ _) _ => apply tame_fmap
  | |- tame _ _ _ (mret _) _ => apply tame_ret
  | |- tame _ _ _ (modify _) _ => apply tame_modify; intros ? ?
  | |- tame _ _ _ (fail _) _ => apply tame_fail
  | |- tame _ _ _ (tell _) _ => apply tame_tell; discriminate
  | |- tame _ _ _ (ask _) _ => apply tame_ask; discriminate
  | |- tame _ _ _ (spin_lock _) _ => apply tame_lock
  | |- tame _ _ _ (spin_unlock _) _ => apply tame_unlock
  | |- tame _ _ _ (when _ _) _ => apply tame_when
  | |- tame _ _ _ (of_option _ _) _ => apply tame_of_option
  | |- tame _ _ _ (array_get _ _) _ => apply tame_of_option
  | |- tame _ _ _ (c_rem _ _) _ => apply tame_c_rem
  | |- tame _ _ _ (io_read _) _ => apply tame_io_read
  | |- tame _ _ _ (loop _ _ _) _ => apply tame_loop; intros ?
  | |- tame _ _ _ (for_ _ _ _) _ => apply tame_for; intros ?
  | |- tame _ _ _ (each _ _) _ => apply tame_each; intros ?
  | |- tame _ _ _ (let _ := _ in _) _ => cbv zeta
  | |- tame _ _ _ (if ?b then _ else _) _ => destruct b
  | |- tame _ _ _ (match ?y with _ => _ end) _ => destruct y
  end.
Ltac tame_steps := repeat (cbv beta; first [tame_step | solve [eauto with tame]]).
Create HintDb tame.

(** ** The transfers *)

(** what the control operations rely on, of a CAN *)
Record can_key := CanKey {
  k_reg : addr; k_ip : Z; k_chan : addr; k_state : zynq_state; k_baud : Z; k_opened : Z
}.
Definition zcan_core (k : can_key) (c : zynq_can) : Prop :=
  zcan_ip_reg c = k_reg k /\ zcan_ip_num c = k_ip k /\ zcan_pio_state c = k_state k /\
  zcan_pio_baudrate c = k_baud k /\ zcan_pio_opened c = k_opened k.
Definition zchan_core (k : can_key) (c : zynq_chan) : Prop := zchan_reg c = k_chan k.
Definition can_core (k : can_key) (s : can_ctx) : Prop := zcan_core k (cc_zcan s) /\ zchan_core k (cc_zchan s).
Definition chan_core (k : can_key) (s : chan_ctx) : Prop := zchan_core k (ch_zchan s).
Definition can_srr (k : can_key) : addr := addr_add (k_reg k) ZCAN_IP_SRR.

Section transfers.
#[local] Set Default Proof Using "Type*".
Context `{Env} `{ModParams} (k : can_key).
Hypothesis Hreg : fst (k_reg k) = BAR2.
Hypothesis Hchan : fst (k_chan k) = BAR0.
#[local] Arguments zcan_core : simpl never.

Abbreviation ctame := (tame (can_srr k) (can_core k)).
Abbreviation htame := (tame (can_srr k) (chan_core k)).

Lemma ctame_upd f h : (forall c, zcan_core k c -> zcan_core k (f c)) -> ctame h (upd_zcan f) h.
Proof. intros Hf. apply tame_modify. intros s [Hc Hz]. split; [by apply Hf | exact Hz]. Qed.
Lemma ctame_ip {B} (f : Z -> M can_ctx B) h h' : ctame h (f (k_ip k)) h' -> ctame h (zcan_ip ≫= f) h'.
Proof. intros Hf. apply tame_gets. intros s [(_ & -> & _) _]. exact Hf. Qed.
Lemma ctame_write off v h : off <> ZCAN_IP_SRR -> ctame h (zcan_reg_write off v) h.
Proof.
  intros Ho. apply tame_gets. intros s [(-> & _) _]. apply tame_io_write. intros E. by apply addr_add_inj in E.
Qed.
Lemma ctame_read off h : ctame h (zcan_reg_read off) h.
Proof. apply tame_gets. intros s _. apply tame_io_read. Qed.
Lemma ctame_gread r h : ctame h (zynq_g_reg_read r) h.
Proof. apply tame_io_read. Qed.
Lemma ctame_on_chan {A} (m : M chan_ctx A) h h' :
  htame h m h' -> ctame h (on_chan m) h'.
Proof. apply tame_zoom; [by intros s [_ Hz] | by intros t s [Hc _] Hz]. Qed.
Lemma chan_read off h : htame h (zchan_reg_read off) h.
Proof. apply tame_gets. intros s _. apply tame_io_read. Qed.
Lemma chan_write off v h : htame h (zchan_reg_write off v) h.
Proof.
  apply tame_gets. intros s Hs. rewrite Hs. apply tame_io_write. intros E. symmetry in E. by apply bar_ne in E.
Qed.
(** counting, of a structure whose statistics are not part of the key *)
Lemma tame_stats {T} `{HasStats T} (core : T -> Prop) id h :
  (forall f s, core s -> core (stats_upd f s)) -> tame (can_srr k) core h (ZYNQ_STATS id) h.
Proof. intros Hf. apply tame_modify. intros s. apply Hf. Qed.
Lemma tame_stats_logx {T} `{HasStats T} (core : T -> Prop) id n i h :
  (forall f s, core s -> core (stats_upd f s)) -> tame (can_srr k) core h (ZYNQ_STATS_LOGX id n i) h.
Proof.
  intros Hf. unfold ZYNQ_STATS_LOGX, zynq_stats_log, jiffies. tame_steps; by apply Hf.
Qed.
Lemma ctame_stats id h : ctame h (zcan_ZYNQ_STATS id) h.
Proof.
  apply (tame_zoom _ _ (zcan_core k)); [by intros s [Hc _] | by intros t s [_ Hz] Hc |]. by apply tame_stats.
Qed.
Lemma chan_stats id h : htame h (zchan_ZYNQ_STATS id) h.
Proof. apply (tame_zoom _ _ (zchan_core k)); [done | by intros t s _ Hc |]. by apply tame_stats. Qed.
Lemma chan_stats_logx id n i h : htame h (zchan_ZYNQ_STATS_LOGX id n i) h.
Proof. apply (tame_zoom _ _ (zchan_core k)); [done | by intros t s _ Hc |]. by apply tame_stats_logx. Qed.

#[local] Hint Resolve ctame_read ctame_gread chan_read chan_write ctame_stats chan_stats chan_stats_logx : tame.
#[local] Hint Extern 1 (tame _ _ _ (zcan_reg_write _ _) _) => (apply ctame_write; first [assumption | discriminate]) : tame.
#[local] Hint Extern 1 (tame _ _ _ (upd_zcan _) _) => (apply ctame_upd; intros ? (? & ? & ? & ? & ?); repeat case_match; done) : tame.
Ltac ctl_steps := repeat (cbv beta; first
  [ lazymatch goal with
    | |- tame _ _ _ (mbind _ zcan_ip) _ => apply ctame_ip
    | |- tame _ _ _ (on_chan _) _ => apply ctame_on_chan
    | |- tame _ _ _ (mbind _ zcan) _ => unfold zcan
    end
  | tame_step | solve [eauto with tame] ]).

(** sending *)
Lemma tame_dump_ch h : ctame h zcan_pio_dbg_reg_dump_ch h.
Proof.
  unfold zcan_pio_dbg_reg_dump_ch, zynq_dbg_reg_dump, zchan_dbg_reg_dump, zcan_pio_dbg_reg_dump, discard. ctl_steps.
Qed.
#[local] Hint Resolve tame_dump_ch : tame.
Lemma tame_pio_tx lk full id dlc dw1 dw2 stat m wait do_poll :
  Forall (fun r => r <> ZCAN_IP_SRR) [id; dlc; dw1; dw2] ->
  ctame [] (pio_tx lk full id dlc dw1 dw2 stat m wait do_poll) [].
Proof.
  rewrite !Forall_cons. intros (R1 & R2 & R3 & R4 & _).
  assert (forall A reg (test : Z -> option A) a h, ctame h (poll reg test a) h) as Hpoll.
  { intros. unfold poll, usleep_range. ctl_steps. }
  unfold pio_tx, tx_room, tx_over, poll_not_full, poll_tx_over, zynq_trace, discard. ctl_steps.
Qed.
#[local] Hint Extern 1 (tame _ _ _ (pio_tx _ _ _ _ _ _ _ _ _ _) _) =>
  (apply tame_pio_tx; repeat constructor; discriminate) : tame.
#[local] Hint Extern 1 (tame _ _ _ (upd_zchan _) _) => (apply tame_modify; intros ? ?; done) : tame.
Lemma tame_tx_one_msg msg sz : htame [] (zchan_tx_one_msg msg sz) [].
Proof.
  unfold zchan_tx_one_msg, zchan_tx_write_tail, tx_ring, chan_id, upd_tx. ctl_steps.
Qed.
#[local] Hint Resolve tame_tx_one_msg : tame.
Lemma tame_tx_func hipri s m : ctame [] (tx_func_of hipri s m false false) [].
Proof.
  unfold tx_func_of, zcan_pio_tx_hi_one, zcan_pio_tx_one, zcan_dma_tx_one.
  destruct hipri; [| destruct (_ =? 0)]; ctl_steps.
Qed.
#[local] Hint Resolve tame_tx_func : tame.
Lemma tame_tx_all fuel hipri s e msgs n : ctame [] (tx_all fuel (tx_func_of hipri s) e msgs n) [].
Proof.
  revert n. induction msgs as [|m msgs IH]; intros n; cbn [tx_all]; [apply tame_ret |].
  unfold tx_retry, usleep_range, ktime_get. ctl_steps.
Qed.
#[local] Hint Resolve tame_tx_all : tame.
Lemma tame_copy_from_user src n h : ctame h (copy_from_user src n) h.
Proof.
  unfold copy_from_user. assert (forall i, ctame h (user_words src i n) h) as Hw.
  { induction n as [|n IH]; intros i; cbn [user_words]; ctl_steps. }
  ctl_steps.
Qed.
#[local] Hint Resolve tame_copy_from_user : tame.
Lemma tame_tx_user fuel buf num hipri : ctame [] (zcan_tx_user fuel buf num hipri) [].
Proof. unfold zcan_tx_user, ktime_get.
  ctl_steps.
Qed.

(** receiving, and the receive service *)
Lemma tame_usr_rx_complete : ctame [] zcan_usr_rx_complete [].
Proof. unfold zcan_usr_rx_complete.
  ctl_steps.
Qed.
Lemma tame_make_room : ctame [] make_room [].
Proof. unfold make_room, zcan_buf_rx_full, zcan_buf_inc_rx_head.
  ctl_steps.
Qed.
#[local] Hint Resolve tame_usr_rx_complete tame_make_room : tame.
Lemma tame_upd_cell i f h : ctame h (upd_cell i f) h.
Proof. unfold upd_cell.
  ctl_steps.
Qed.
#[local] Hint Resolve tame_upd_cell : tame.
Lemma tame_stamp_cell i h : ctame h (stamp_cell i) h.
Proof. unfold stamp_cell.
  ctl_steps.
Qed.
#[local] Hint Resolve tame_stamp_cell : tame.
Lemma tame_pio_rx fuel : ctame [] (zcan_pio_rx_proc fuel) [].
Proof. unfold zcan_pio_rx_proc, pio_rx_one, publish_tail.
  ctl_steps.
Qed.
Lemma tame_dma_words p n h : ctame h (dma_words p n) h.
Proof. revert p. induction n as [|n IH]; intros p; cbn [dma_words];
  ctl_steps.
Qed.
#[local] Hint Resolve tame_pio_rx tame_dma_words : tame.
Lemma tame_dma_rx : ctame [] zcan_dma_rx_proc [].
Proof. unfold zcan_dma_rx_proc, publish_tail, zchan_rx_off2addr, rx_tbl, upd_rx.
  ctl_steps.
Qed.
#[local] Hint Resolve tame_dma_rx : tame.
Lemma tame_copy_to_user h : ctame h zcan_copy_to_user h.
Proof. unfold zcan_copy_to_user, copy_loop, copy_to_user.
  ctl_steps.
Qed.
#[local] Hint Resolve tame_copy_to_user : tame.
Lemma tame_rx_user fuel buf num : ctame [] (zcan_rx_user fuel buf num) [].
Proof. unfold zcan_rx_user, wait_usr_rx, zcan_rx_proc, rx_user_done.
  ctl_steps.
Qed.
#[local] Hint Resolve tame_tx_user tame_rx_user : tame.
Lemma tame_transfer fuel cmd arg : cmd ∈ transfer_cmds -> ctame [] (zcan_ioctl fuel true cmd arg) [].
Proof.
  intros Hc. unfold transfer_cmds in Hc. rewrite !elem_of_cons in Hc.
  assert (forall body, (forall l, ctame [] (body l) []) -> ctame [] (ioctl_msgs arg body) []) as Hmsgs.
  { intros body Hbody. unfold ioctl_msgs, uninit, copy_to_user. ctl_steps. }
  destruct Hc as [->|[->|[->|Hc%not_elem_of_nil]]]; [| | | done].
  - change (zcan_ioctl _ _ _ _) with (ioctl_msgs arg (ioctl_recv fuel)). apply Hmsgs. intros l.
    unfold ioctl_recv, zcan_clear_buf_rx, ZDEV_IS_ERR. ctl_steps.
  - change (zcan_ioctl _ _ _ _) with (ioctl_msgs arg (ioctl_send fuel false)). apply Hmsgs. intros l.
    unfold ioctl_send, ZDEV_IS_ERR. ctl_steps.
  - change (zcan_ioctl _ _ _ _) with (ioctl_msgs arg (ioctl_send fuel true)). apply Hmsgs. intros l.
    unfold ioctl_send, ZDEV_IS_ERR. ctl_steps.
Qed.
End transfers.

(** a transfer keeps the control invariant, and the CAN open and started as it was *)
Lemma transfer_keeps `{Env} `{ModParams} fuel cmd arg (w w' : world can_ctx) r :
  can_inv w -> cmd ∈ transfer_cmds -> zcan_ioctl fuel true cmd arg w = Ret r w' -> kept_as id w w'.
Proof.
  intros Hw Hc E. destruct w as [l h s]. pose proof Hw as [Hh Hcan Hchan Hbaud _ _]. cbn [w_st w_held] in *.
  set (k := CanKey (zcan_ip_reg (cc_zcan s)) (zcan_ip_num (cc_zcan s)) (zchan_reg (cc_zchan s))
    (zcan_pio_state (cc_zcan s)) (zcan_pio_baudrate (cc_zcan s)) (zcan_pio_opened (cc_zcan s))).
  destruct (tame_transfer k Hcan Hchan fuel cmd arg Hc (World l h s) _ _ Hh ltac:(by split) E)
    as (Hh' & [(E1 & E2 & E3 & E4 & E5) E6] & El).
  apply kept_intro; [exact Hw | exact Hh' | by split | | exact E5 | |].
  - rewrite E4. exact Hbaud.
  - unfold started, id. by rewrite E3.
  - right. right. split; [exact El | exact E3].
Qed.
