(* ===== verification/BcanLib.v ===== *)
(** * The CAN user library ([lib/bcan/bcan_lib.c]) over the driver

    The library keeps a state per handle and refuses calls that its state does
    not allow; the rest go to the driver as ioctls.  Here the driver is the one
    of [CanDev], so that a library call runs through both.  One device is
    modelled; the errors written to the system log are not. *)

From stdpp Require Import gmap relations strings.
From S2P Require Import Frames Ring Device CanMsg Chan CanChip CanTx CanRx CanDev CanCtl CanXfer.

(** ** Constants ([bcan.h]) *)
Definition BCAN_MAX_TX_MSG : Z := 256.
Definition BCAN_MAX_RX_MSG : Z := 256.
Definition BCAN_DEV_UNINIT : Z := -1.
Definition BCAN_DEV_OPEN : Z := Z.shiftl 1 0.
Definition BCAN_DEV_CLOSE : Z := Z.shiftl 1 1.
Definition BCAN_DEV_BAUD_SET : Z := Z.shiftl 1 2.
Definition BCAN_DEV_NORMAL : Z := Z.shiftl 1 3.
Definition BCAN_DEV_LOOPBACK : Z := Z.shiftl 1 4.
Definition BCAN_DEV_CONFIG : Z := Z.shiftl 1 5.
Definition BCAN_DEV_START : Z := Z.shiftl 1 6.
Definition BCAN_DEV_STOP : Z := Z.shiftl 1 7.
Definition BCAN_DEV_ACTIVE : Z := Z.shiftl 1 8.
Definition BCAN_DEV_RECVD : Z := Z.shiftl 1 9.

(** ** State: the device, and the live handles by address *)
Record bcan_ihdl := BcanIhdl {
  dev_index : Z; dev_state : Z; fd : Z; baudrate : Z; tx_to : Z; rx_to : Z
}.
#[global] Instance bcan_ihdl_eta : Eta bcan_ihdl := fun r =>
  BcanIhdl (dev_index r) (dev_state r) (fd r) (baudrate r) (tx_to r) (rx_to r).
Definition sizeof_bcan_ihdl : Z := 24.
Record lib_ctx := LibCtx { lx_can : can_ctx; lx_hdls : gmap Z bcan_ihdl }.
#[global] Instance lib_ctx_eta : Eta lib_ctx := fun r => LibCtx (lx_can r) (lx_hdls r).

(** ** Texts *)
Definition bcan_get_err_msg (err_code : Z) : string :=
  if err_code =? BCAN_PARAM_INVALID then "invalid parameter"
  else if err_code =? BCAN_HDL_INVALID then "invalid bcan handle"
  else if err_code =? BCAN_DEV_INVALID then "invalid bcan device"
  else if err_code =? BCAN_DEV_ERR then "bcan device error"
  else if err_code =? BCAN_DEV_BUSY then "bcan device busy"
  else if err_code =? BCAN_TIMEOUT then "bcan timeout"
  else if err_code =? BCAN_FAIL then "bcan operation failed"
  else if err_code =? BCAN_NOT_SUPPORTED then "bcan operation not supported"
  else if err_code =? BCAN_NOT_IMPLEMENTED then "bcan operation not implemented"
  else if err_code =? BCAN_INVALID then "bcan invalid error"
  else if err_code =? BCAN_NO_BUFFERS then "failed to allocate bcan buffers"
  else if err_code =? BCAN_ERR then "generic bcan error, check error log"
  else if err_code =? BCAN_OK then "OK"
  else if err_code =? BCAN_PARTIAL_OK then "bcan IO partial completion"
  else "undefined error code".

Section lib.
Context `{Env} `{ModParams}.

(** ** The calls of the system *)
Definition on_can {A} (m : M can_ctx A) : M lib_ctx A := zoom lx_can (fun c s => s<|lx_can := c|>) m.

(** [open]: the descriptor, negative when there is no such node or the driver
    refuses *)
Definition sys_open (dev_index : Z) : M lib_ctx Z :=
  fd ← ask (KernelCall "open" [dev_index]);
  if s32 fd <? 0 then mret (-1)
  else
    rc ← on_can zcan_open;
    mret (if rc =? 0 then s32 fd else -1).
Definition sys_close : M lib_ctx unit := on_can zcan_release;; mret tt.
(** [ioctl]: a negative answer of the driver becomes -1 *)
Definition sys_ioctl (fuel : nat) (cmd arg : Z) : M lib_ctx Z :=
  r ← on_can (zcan_ioctl fuel true cmd arg);
  mret (if r <? 0 then -1 else r).

(** the caller's memory: its stores are recorded, its reads answered *)
Definition store_word (p : Z) (i : nat) (v : Z) : M lib_ctx unit :=
  tell (KernelCall "store" [p; Z.of_nat i; u32 v]).
Definition load_word (p : Z) (i : nat) : M lib_ctx Z := v ← ask (UserWord p i); mret (u32 v).

(** ** Handles *)
Definition hdl_at (ahdl : Z) : M lib_ctx bcan_ihdl :=
  if ahdl =? 0 then fail NullDeref
  else s ← get; of_option Dangling (lx_hdls s !! ahdl).
Definition upd_hdl (ahdl : Z) (f : bcan_ihdl -> bcan_ihdl) : M lib_ctx unit :=
  modify (fun s => s<|lx_hdls ::= alter f ahdl|>).

(** the transitions the library admits *)
Definition check_transition (cstate pstate : Z) : Z :=
  if pstate =? BCAN_DEV_OPEN then
    if negb (cstate =? BCAN_DEV_UNINIT) then BCAN_DEV_INVALID else BCAN_OK
  else if (pstate =? BCAN_DEV_BAUD_SET) || (pstate =? BCAN_DEV_LOOPBACK) then
    if negb (tst cstate BCAN_DEV_OPEN) then BCAN_DEV_INVALID else BCAN_OK
  else if pstate =? BCAN_DEV_START then
    if negb (tst cstate BCAN_DEV_BAUD_SET) then BCAN_DEV_INVALID else BCAN_OK
  else if (pstate =? BCAN_DEV_ACTIVE) || (pstate =? BCAN_DEV_STOP) then
    if negb (tst cstate BCAN_DEV_START) then BCAN_DEV_INVALID else BCAN_OK
  else if pstate =? BCAN_DEV_CLOSE then
    if negb (tst cstate BCAN_DEV_OPEN) then BCAN_DEV_INVALID else BCAN_OK
  else BCAN_OK.
Definition bcan_check_state (ahdl pstate : Z) : M lib_ctx Z :=
  if ahdl =? 0 then mret BCAN_HDL_INVALID
  else h ← hdl_at ahdl; mret (check_transition (dev_state h) pstate).

(** run [m] when the transition to [pstate] is admitted *)
Definition checked (ahdl pstate : Z) (m : M lib_ctx Z) : M lib_ctx Z :=
  ret ← bcan_check_state ahdl pstate;
  if negb (ret =? BCAN_OK) then mret ret else m.

(** ** Open and close *)

(** the result, and the handle stored through [ahdl] when it is [BCAN_OK] *)
Definition bcan_open (fuel : nat) (dev_index tx_to rx_to : Z) : M lib_ctx (Z * Z) :=
  fd ← sys_open dev_index;
  if fd =? -1 then mret (BCAN_PARAM_INVALID, 0)
  else
    (* what the memory held before *)
    hdl ← ask (KAlloc sizeof_bcan_ihdl);
    if hdl =? 0 then sys_close;; mret (BCAN_NO_BUFFERS, 0)
    else
      b ← uninit "hdl->baudrate"; t ← uninit "hdl->tx_to"; r ← uninit "hdl->rx_to";
      let err := tell (KFree hdl);; sys_close;; mret (BCAN_PARAM_INVALID, 0) in
      rc ← sys_ioctl fuel ZYNQ_IOC_CAN_TX_TIMEOUT_SET tx_to;
      if rc =? -1 then err
      else
        rc ← sys_ioctl fuel ZYNQ_IOC_CAN_RX_TIMEOUT_SET rx_to;
        if rc =? -1 then err
        else
          modify (fun s => s<|lx_hdls ::= <[hdl := BcanIhdl dev_index BCAN_DEV_OPEN fd b t r]>|>);;
          mret (BCAN_OK, hdl).

Definition bcan_close (ahdl : Z) : M lib_ctx Z :=
  checked ahdl BCAN_DEV_CLOSE (
    sys_close;;
    upd_hdl ahdl (fun h => h<|dev_state := BCAN_DEV_CLOSE|>);;
    tell (KFree ahdl);;
    modify (fun s => s<|lx_hdls ::= delete ahdl|>);;
    mret BCAN_OK).

(** ** Control *)

(** one ioctl, then a change of the state when it works *)
Definition control (fuel : nat) (ahdl cmd arg err : Z) (f : bcan_ihdl -> bcan_ihdl) : M lib_ctx Z :=
  rc ← sys_ioctl fuel cmd arg;
  if rc =? -1 then mret err else upd_hdl ahdl f;; mret BCAN_OK.
Definition set_state (on off : Z) (h : bcan_ihdl) : bcan_ihdl :=
  h<|dev_state ::= fun s => Z.lor (Z.land s (Z.lnot off)) on|>.

Definition bcan_set_baudrate (fuel : nat) (ahdl rate : Z) : M lib_ctx Z :=
  checked ahdl BCAN_DEV_BAUD_SET (control fuel ahdl ZYNQ_IOC_CAN_BAUDRATE_SET rate BCAN_ERR
    (fun h => (set_state BCAN_DEV_BAUD_SET 0 h)<|baudrate := rate|>)).
(** the comparison with the cached rate only writes to the log *)
Definition bcan_get_baudrate (fuel : nat) (ahdl rate : Z) : M lib_ctx Z :=
  hdl_at ahdl;;
  rc ← sys_ioctl fuel ZYNQ_IOC_CAN_BAUDRATE_GET rate;
  mret (if rc =? -1 then BCAN_ERR else BCAN_OK).
Definition bcan_set_loopback (fuel : nat) (ahdl : Z) : M lib_ctx Z :=
  checked ahdl BCAN_DEV_LOOPBACK (control fuel ahdl ZYNQ_IOC_CAN_LOOPBACK_SET 0 BCAN_ERR
    (set_state BCAN_DEV_LOOPBACK BCAN_DEV_NORMAL)).
Definition bcan_unset_loopback (fuel : nat) (ahdl : Z) : M lib_ctx Z :=
  checked ahdl (-1) (control fuel ahdl ZYNQ_IOC_CAN_LOOPBACK_UNSET 0 BCAN_ERR
    (set_state BCAN_DEV_NORMAL BCAN_DEV_LOOPBACK)).
Definition bcan_start (fuel : nat) (ahdl : Z) : M lib_ctx Z :=
  checked ahdl BCAN_DEV_START (control fuel ahdl ZYNQ_IOC_CAN_DEV_START 0 BCAN_ERR
    (set_state BCAN_DEV_START 0)).
(** a failure leaves the result as it was, [BCAN_OK] *)
Definition bcan_stop (fuel : nat) (ahdl : Z) : M lib_ctx Z :=
  checked ahdl BCAN_DEV_STOP (control fuel ahdl ZYNQ_IOC_CAN_DEV_STOP 0 BCAN_OK
    (fun h => set_state 0 BCAN_DEV_START (set_state BCAN_DEV_STOP 0 h))).

(** the structure filled by [ZYNQ_IOC_CAN_GET_STATUS_ERR] *)
Definition status_err (fuel : nat) (ahdl : Z) (k : Z -> M lib_ctx Z) : M lib_ctx Z :=
  checked ahdl (-1) (
    st_err ← ask (KernelCall "&st_err" []);
    rc ← sys_ioctl fuel ZYNQ_IOC_CAN_GET_STATUS_ERR st_err;
    if rc =? -1 then mret BCAN_ERR else k st_err).
Definition bcan_get_status (fuel : nat) (ahdl : Z) : M lib_ctx Z :=
  status_err fuel ahdl (fun st_err => v ← load_word st_err 0; mret (s32 v)).
(** the two counters are stored through [rx_err] and [tx_err] *)
Definition err_counters (v : Z) : Z * Z := (Z.shiftr (Z.land v 0xFFFF) 8, Z.land v 0xFF).
Definition bcan_get_err_counter (fuel : nat) (ahdl rx_err tx_err : Z) : M lib_ctx Z :=
  status_err fuel ahdl (fun st_err =>
    v ← load_word st_err 2;
    tell (KernelCall "store8" [tx_err; snd (err_counters v)]);;
    tell (KernelCall "store8" [rx_err; fst (err_counters v)]);;
    mret BCAN_OK).

(** ** Transfers *)

(** the structure on the stack: the buffer and the count *)
Definition ioc_struct (buf num_msg : Z) : M lib_ctx Z :=
  p ← ask (KernelCall "&ioc_hdl" []);
  store_word p 0 buf;; store_word p 1 (Z.shiftr buf 32);; store_word p 2 num_msg;;
  mret p.
(** the result of a transfer, from the structure the driver wrote back *)
Definition transfer (fuel : nat) (cmd ioc_hdl : Z) (done : Z -> bool) : M lib_ctx Z :=
  rc ← sys_ioctl fuel cmd ioc_hdl;
  if rc =? -1 then mret BCAN_ERR
  else
    num_done ← load_word ioc_hdl 3;
    err ← load_word ioc_hdl 4;
    mret (if done num_done then s32 num_done else s32 err).

Definition bcan_recv (fuel : nat) (ahdl buf num_msg : Z) : M lib_ctx Z :=
  ioc_hdl ← ioc_struct buf num_msg;
  if (num_msg =? 0) || (BCAN_MAX_RX_MSG <? num_msg) then mret BCAN_PARAM_INVALID
  else
    checked ahdl BCAN_DEV_ACTIVE (
      hdl ← hdl_at ahdl;
      (* the first receive flushes stale data *)
      (if negb (tst (dev_state hdl) BCAN_DEV_RECVD) then
         upd_hdl ahdl (set_state BCAN_DEV_RECVD 0);; store_word ioc_hdl 5 1
       else store_word ioc_hdl 5 0);;
      transfer fuel ZYNQ_IOC_CAN_RECV ioc_hdl (fun n => 0 <? n)).
Definition bcan_send (fuel : nat) (ahdl buf num_msg : Z) : M lib_ctx Z :=
  ioc_hdl ← ioc_struct buf num_msg;
  if (num_msg =? 0) || (BCAN_MAX_TX_MSG <? num_msg) then mret BCAN_PARAM_INVALID
  else checked ahdl BCAN_DEV_ACTIVE (transfer fuel ZYNQ_IOC_CAN_SEND ioc_hdl (fun n => 0 <? n)).
Definition bcan_send_hi_pri (fuel : nat) (ahdl buf : Z) : M lib_ctx Z :=
  checked ahdl BCAN_DEV_ACTIVE (
    ioc_hdl ← ioc_struct buf 1;
    transfer fuel ZYNQ_IOC_CAN_SEND_HIPRI ioc_hdl (fun n => n =? 1)).
End lib.

(** ** The calls a process makes on one device *)
Inductive lib_call :=
| LOpen (dev_index tx_to rx_to : Z)
| LClose (h : Z)
| LSetBaudrate (h rate : Z)
| LGetBaudrate (h rate : Z)
| LSetLoopback (h : Z)
| LUnsetLoopback (h : Z)
| LStart (h : Z)
| LStop (h : Z)
| LGetStatus (h : Z)
| LGetErrCounter (h rx_err tx_err : Z)
| LRecv (h buf num : Z)
| LSend (h buf num : Z)
| LSendHiPri (h buf : Z).

Section calls.
Context `{Env} `{ModParams}.
Definition run_call (fuel : nat) (c : lib_call) : M lib_ctx Z :=
  match c with
  | LOpen i tx rx => fst <$> bcan_open fuel i tx rx
  | LClose h => bcan_close h
  | LSetBaudrate h rate => bcan_set_baudrate fuel h rate
  | LGetBaudrate h rate => bcan_get_baudrate fuel h rate
  | LSetLoopback h => bcan_set_loopback fuel h
  | LUnsetLoopback h => bcan_unset_loopback fuel h
  | LStart h => bcan_start fuel h
  | LStop h => bcan_stop fuel h
  | LGetStatus h => bcan_get_status fuel h
  | LGetErrCounter h rx tx => bcan_get_err_counter fuel h rx tx
  | LRecv h buf num => bcan_recv fuel h buf num
  | LSend h buf num => bcan_send fuel h buf num
  | LSendHiPri h buf => bcan_send_hi_pri fuel h buf
  end.
End calls.

(** the handle of a transfer *)
Definition transfer_of (c : lib_call) : option Z :=
  match c with LRecv h _ _ | LSend h _ _ | LSendHiPri h _ => Some h | _ => None end.
Definition handle_of (c : lib_call) : Z :=
  match c with
  | LOpen _ _ _ => 0
  | LClose h | LSetBaudrate h _ | LGetBaudrate h _ | LSetLoopback h | LUnsetLoopback h | LStart h | LStop h
  | LGetStatus h | LGetErrCounter h _ _ | LRecv h _ _ | LSend h _ _ | LSendHiPri h _ => h
  end.
(** a handle is NULL or live, and not NULL where the library does not test it; a
    rate is not negative as the driver takes it *)
Definition valid (s : lib_ctx) (h : Z) : Prop := h = 0 \/ is_Some (lx_hdls s !! h).
Definition call_ok (s : lib_ctx) (c : lib_call) : Prop :=
  valid s (handle_of c) /\
  match c with LSetBaudrate h rate => h = 0 \/ 0 <= s32 rate | LGetBaudrate h _ => h <> 0 | _ => True end.

(** the calls that are faults, in the library or in the driver: a handle that is not
    live, NULL where it is not tested, a rate the driver takes as negative *)
Definition misuse (s : lib_ctx) (c : lib_call) : option fault :=
  match c with
  | LOpen _ _ _ => None
  | _ =>
      if handle_of c =? 0 then match c with LGetBaudrate _ _ => Some NullDeref | _ => None end
      else match lx_hdls s !! handle_of c with
           | None => Some Dangling
           | Some _ => match c with
                       | LSetBaudrate _ rate => if s32 rate <? 0 then Some (Index (s32 rate)) else None
                       | _ => None
                       end
           end
  end.
Lemma misuse_none s c : misuse s c = None -> call_ok s c.
Proof.
  intros Hm. split.
  - unfold valid. destruct (Z.eq_dec (handle_of c) 0) as [|Hn]; [by left |]. right.
    destruct (lx_hdls s !! handle_of c) eqn:E; [by eexists |].
    apply Z.eqb_neq in Hn. unfold misuse in Hm. rewrite Hn, E in Hm. by destruct c.
  - destruct c as [| |h rate|h rate| | | | | | | | |]; try done; unfold misuse in Hm; cbn [handle_of] in Hm;
      destruct (Z.eqb_spec h 0); try done; [by left |]. right.
    destruct (lx_hdls s !! h); [| done]. destruct (Z.ltb_spec (s32 rate) 0); [done | lia].
Qed.

(** ** The library's view of the device *)
Definition can_world (w : world lib_ctx) : world can_ctx := World (w_log w) (w_held w) (lx_can (w_st w)).
Definition opened_of (s : lib_ctx) : Z := zcan_pio_opened (cc_zcan (lx_can s)).
(** an open handle, whose START flag is the driver's state *)
Definition hdl_ok (s : can_ctx) (h : bcan_ihdl) : Prop :=
  Z.testbit (dev_state h) 0 = true /\ Z.testbit (dev_state h) 6 = started s.
Definition lib_inv (w : world lib_ctx) : Prop :=
  can_inv (can_world w) /\
  (lx_hdls (w_st w) = ∅ /\ opened_of (w_st w) = 0 \/
   exists p h, lx_hdls (w_st w) = {[p := h]} /\ p <> 0 /\ opened_of (w_st w) = 1 /\ hdl_ok (lx_can (w_st w)) h).

Lemma ctl_cmd_ok cmd arg :
  bool_decide (cmd ∈ transfer_cmds) = false -> (cmd = ZYNQ_IOC_CAN_BAUDRATE_SET -> 0 <= s32 arg) ->
  op_ok (OpIoctl cmd arg).
Proof. intros Hc Hr. split; [by apply bool_decide_eq_false in Hc | exact Hr]. Qed.
Ltac ctl_cmd := apply ctl_cmd_ok; [vm_compute; reflexivity |].

Section lib_lemmas.
#[local] Set Default Proof Using "Type*".
Context `{Env} `{ModParams}.
Hypothesis Hb : zynq_bringup_param = false.
Hypothesis Hrb : forall s, fst (zcan_ip_reg (cc_zcan s)) = BAR2 -> srr_readback (srr s).
Implicit Types w : world lib_ctx.

Definition put (v : world can_ctx) (s : lib_ctx) : world lib_ctx :=
  World (w_log v) (w_held v) (s<|lx_can := w_st v|>).
Lemma can_world_put v s : can_world (put v s) = v.
Proof using Type. by destruct v. Qed.
Lemma can_inv_emit w e : calm e -> can_inv (can_world w) -> can_inv (can_world (emit e w)).
Proof using Type. intros He Hw. apply (can_inv_calmly _ (emit e (can_world w)) Hw). by apply calmly_emit. Qed.

(** the flags of a handle *)
Lemma set_state_bit on off h i : Z.testbit (dev_state (set_state on off h)) i =
  Z.testbit (dev_state h) i && negb (Z.testbit off i) || Z.testbit on i.
Proof using Type.
  unfold set_state. cbn. rewrite Z.lor_spec, Z.land_spec. destruct (decide (0 <= i)); [by rewrite Z.lnot_spec |].
  by rewrite !Z.testbit_neg_r by lia.
Qed.

Lemma wp_on_can {A} (m : M can_ctx A) w (Q : A -> world lib_ctx -> Prop) :
  wp m (fun a v => Q a (put v (w_st w))) (can_world w) -> wp (on_can m) Q w.
Proof using Type. intros Hm. apply wp_zoom. exact Hm. Qed.

(** a control ioctl, seen from the process; starting and stopping work *)
Lemma wp_sys_ioctl fuel cmd arg w (Q : Z -> world lib_ctx -> Prop) :
  can_inv (can_world w) -> op_ok (OpIoctl cmd arg) ->
  (forall rc v, (cmd = ZYNQ_IOC_CAN_DEV_START \/ cmd = ZYNQ_IOC_CAN_DEV_STOP -> rc = 0) ->
     kept_as (starts cmd) (can_world w) v -> Q rc (put v (w_st w))) ->
  wp (sys_ioctl fuel cmd arg) Q w.
Proof.
  intros Hw Hop HQ. apply wp_bind, wp_on_can.
  destruct (proj1 (wp_run _ _ _) (keeps_ioctl Hb fuel cmd arg Hrb Hop _ Hw)) as (r & v & E & Hv).
  apply wp_run. exists r, v. split; [exact E |]. apply wp_ret, HQ; [| exact Hv].
  intros [-> | ->]; change (zcan_ioctl _ _ _ _) with (zcan_pio_start;; mret 0 : M can_ctx Z) in E ||
    change (zcan_ioctl _ _ _ _) with (zcan_pio_stop;; mret 0 : M can_ctx Z) in E;
    apply bind_inv in E as (a & v' & _ & [= <- _]); done.
Qed.

Lemma lib_inv_emit e w : calm e -> lib_inv w -> lib_inv (emit e w).
Proof using Type. intros He [Hc Hl]. split; [by apply can_inv_emit | exact Hl]. Qed.
Lemma lib_live w p h : lib_inv w -> lx_hdls (w_st w) !! p = Some h ->
  lx_hdls (w_st w) = {[p := h]} /\ p <> 0 /\ opened_of (w_st w) = 1 /\ hdl_ok (lx_can (w_st w)) h.
Proof using Type.
  intros [_ [[E _]|(q & h' & E & Hq & Ho & Hh)]]; rewrite E; [by rewrite lookup_empty |].
  intros [<- <-]%lookup_singleton_Some. done.
Qed.
Lemma lib_inv_put w v p h : can_inv v -> zcan_pio_opened (cc_zcan (w_st v)) = 1 -> p <> 0 ->
  hdl_ok (w_st v) h -> lx_hdls (w_st w) = {[p := h]} -> lib_inv (put v (w_st w)).
Proof using Type. intros Hv Ho Hp Hh E. split; [by rewrite can_world_put | right; by exists p, h]. Qed.

(** a request that keeps the CAN started or stopped keeps the invariant *)
Lemma lib_inv_kept w v : lib_inv w -> kept_as id (can_world w) v -> lib_inv (put v (w_st w)).
Proof using Type.
  intros [_ Hl] (Hv & Ho & Hs). split; [by rewrite can_world_put |]. unfold opened_of, hdl_ok. cbn.
  by rewrite Ho, Hs.
Qed.

Lemma wp_checked p pstate m w (Q : Z -> world lib_ctx -> Prop) :
  valid (w_st w) p ->
  (forall e, Q e w) ->
  (forall h, lx_hdls (w_st w) !! p = Some h -> check_transition (dev_state h) pstate = BCAN_OK -> wp m Q w) ->
  wp (checked p pstate m) Q w.
Proof using Type.
  intros Hp He Hm. unfold checked, bcan_check_state, hdl_at. apply wp_bind.
  destruct (Z.eqb_spec p 0); [apply wp_ret; by apply wp_ret |].
  destruct Hp as [|[h Hh]]; [done |]. apply wp_bind, wp_bind, wp_get. rewrite Hh. apply wp_ret, wp_ret.
  destruct (Z.eqb_spec (check_transition (dev_state h) pstate) BCAN_OK) as [E|]; [by eapply Hm | by apply wp_ret].
Qed.

(** the control ioctls of a live handle *)
Lemma wp_control fuel p h cmd arg err f w :
  lib_inv w -> lx_hdls (w_st w) !! p = Some h -> op_ok (OpIoctl cmd arg) ->
  (cmd = ZYNQ_IOC_CAN_DEV_START \/ cmd = ZYNQ_IOC_CAN_DEV_STOP \/ starts cmd = id) ->
  Z.testbit (dev_state (f h)) 0 = Z.testbit (dev_state h) 0 ->
  Z.testbit (dev_state (f h)) 6 = starts cmd (Z.testbit (dev_state h) 6) ->
  wp (control fuel p cmd arg err f) (fun _ w' => lib_inv w') w.
Proof.
  intros Hw Hp Hop Hcmd B0 B6. destruct (lib_live _ _ _ Hw Hp) as (E & Hn & Ho & Hh0 & Hh6).
  pose proof Hw as [Hc _]. unfold control. apply wp_bind, wp_sys_ioctl; [done | done |].
  intros rc v Hrc Hk. pose proof Hk as (Hv & Hvo & Hvs). destruct (Z.eqb_spec rc (-1)) as [->|_].
  - apply wp_ret. apply lib_inv_kept; [done |].
    destruct Hcmd as [->|[->|Hid]]; [discriminate Hrc; auto | discriminate Hrc; auto | by rewrite <- Hid].
  - unfold upd_hdl. apply wp_bind, wp_modify, wp_ret. split; [destruct v; exact Hv |]. right. exists p, (f h). cbn.
    split; [by rewrite E, alter_singleton_eq |]. split; [done |]. split; [by unfold opened_of; rewrite <- Ho; apply Hvo |].
    split; [by rewrite B0 |]. rewrite B6, Hvs. by rewrite Hh6.
Qed.

(** *** Opening and closing *)

(** opened, no handle yet *)
Definition opening w : Prop :=
  can_inv (can_world w) /\ lx_hdls (w_st w) = ∅ /\ opened_of (w_st w) = 1 /\ started (lx_can (w_st w)) = false.
Lemma opening_emit w e : calm e -> opening w -> opening (emit e w).
Proof using Type. intros He (Hc & Hr). split; [by apply can_inv_emit | exact Hr]. Qed.
Lemma opening_kept w v cmd : starts cmd = id -> opening w -> kept_as (starts cmd) (can_world w) v ->
  opening (put v (w_st w)).
Proof using Type.
  intros Hid (_ & He & Ho & Hs) (Hv & Hvo & Hvs). rewrite Hid in Hvs.
  split; [by rewrite can_world_put |]. split; [done |]. unfold opened_of in *. cbn in *. by rewrite Hvo, Hvs.
Qed.

Lemma wp_sys_close w (Q : unit -> world lib_ctx -> Prop) :
  can_inv (can_world w) ->
  (forall v, can_inv v -> zcan_pio_opened (cc_zcan (w_st v)) = 0 -> Q tt (put v (w_st w))) ->
  wp sys_close Q w.
Proof.
  intros Hw HQ. unfold sys_close. apply wp_bind, wp_on_can. eapply wp_mono; [by apply wp_release |].
  cbv beta. intros rc v (_ & Hv & Ho & _). apply wp_ret. by apply HQ.
Qed.

Lemma wp_both {S A} (m : M S A) (P Q : A -> world S -> Prop) (v : world S) :
  wp m P v -> wp m Q v -> wp m (fun a v' => P a v' /\ Q a v') v.
Proof using Type.
  intros (a & v' & E & HP)%wp_run (b & v2 & E2 & HQ)%wp_run. apply wp_run. exists a, v'.
  rewrite E in E2. injection E2 as <- <-. done.
Qed.

Lemma wp_sys_open i w (Q : Z -> world lib_ctx -> Prop) :
  lib_inv w ->
  (forall w', lib_inv w' -> Q (-1) w') -> (forall fd w', 0 <= fd -> opening w' -> Q fd w') ->
  wp (sys_open i) Q w.
Proof.
  intros Hw Hko Hok. unfold sys_open. apply wp_bind, wp_ask. intros r _.
  set (e := Ev _ r). pose proof (lib_inv_emit e w I Hw) as [Hc Hl].
  destruct (Z.ltb_spec (s32 r) 0); [apply wp_ret, Hko; by split |].
  apply wp_bind, wp_on_can. eapply wp_mono; [apply wp_both; [by apply keeps_open | by apply wp_open] |].
  cbv beta. intros rc v [Hv Ho]. apply wp_ret. cbn [w_st emit can_world] in Ho.
  destruct (Z.eqb_spec (zcan_pio_opened (cc_zcan (lx_can (w_st w)))) 0) as [E0|E0].
  - destruct Hl as [[He _]|(p & h & _ & _ & E1 & _)]; [| unfold opened_of in E1; cbn in E1; congruence].
    destruct Ho as (_ & Hs & [[-> Ho]|[-> Ho]]).
    + apply Hok; [done |]. split; [by rewrite can_world_put |]. split; [done |]. split; [done |].
      unfold started. cbn. by rewrite Hs.
    + apply Hko. split; [by rewrite can_world_put |]. left. by split.
  - destruct Ho as (-> & Es & _). apply Hko. split; [by rewrite can_world_put |]. unfold opened_of, hdl_ok.
    cbn. rewrite Es. exact Hl.
Qed.

Lemma wp_bcan_open fuel i tx rx w : lib_inv w -> wp (bcan_open fuel i tx rx) (fun _ w' => lib_inv w') w.
Proof.
  intros Hw. unfold bcan_open. apply wp_bind, wp_sys_open; [done | |].
  { intros w1 H1. by apply wp_ret. }
  intros fd w1 Hfd H1. rewrite (proj2 (Z.eqb_neq fd (-1))) by lia.
  assert (forall w2 (r : Z * Z), opening w2 -> wp (sys_close;; mret r) (fun _ w' => lib_inv w') w2) as Hclose.
  { intros w2 r H2. apply wp_bind, wp_sys_close; [by destruct H2 |]. intros v Hv Ho. apply wp_ret.
    split; [by rewrite can_world_put |]. left. split; [apply H2 | exact Ho]. }
  apply wp_bind, wp_ask. intros p _. apply (opening_emit _ (Ev (KAlloc sizeof_bcan_ihdl) p) I) in H1.
  destruct (Z.eqb_spec p 0); [by apply Hclose |].
  unfold uninit. do 3 (apply wp_bind, wp_bind, wp_ask; intros ? _; apply wp_ret;
    match goal with H1 : opening ?w |- wp _ _ (emit ?e ?w) => apply (opening_emit _ e I) in H1 end).
  cbv zeta. apply wp_bind, wp_sys_ioctl; [by destruct H1 | by ctl_cmd |].
  intros rc v _ Hk. apply opening_kept in Hk; [| done | exact H1].
  destruct (rc =? -1).
  { apply wp_bind, wp_tell. by apply Hclose, opening_emit. }
  apply wp_bind, wp_sys_ioctl; [by destruct Hk | by ctl_cmd |].
  intros rc' v' _ Hk'. apply opening_kept in Hk'; [| done | exact Hk].
  destruct (rc' =? -1).
  { apply wp_bind, wp_tell. by apply Hclose, opening_emit. }
  apply wp_bind, wp_modify, wp_ret. destruct Hk' as (Hc & He & Ho & Hs). split; [exact Hc |]. right.
  eexists p, _. split; [cbn in He |- *; rewrite He; apply insert_empty |]. split; [done |]. split; [exact Ho |].
  split; [done |]. symmetry. exact Hs.
Qed.

Lemma wp_bcan_close p w : lib_inv w -> valid (w_st w) p -> wp (bcan_close p) (fun _ w' => lib_inv w') w.
Proof.
  intros Hw Hp. apply wp_checked; [done | done |]. intros h Hh _.
  destruct (lib_live _ _ _ Hw Hh) as (E & _). apply wp_bind, wp_sys_close; [apply Hw |]. intros v Hv Ho.
  unfold upd_hdl. apply wp_bind, wp_modify. apply wp_bind, wp_tell. apply wp_bind, wp_modify, wp_ret.
  split.
  - destruct v as [l h0 c]. exact (can_inv_calmly _ _ Hv (calmly_emit (World l h0 c) (Ev (KFree p) 0) I)).
  - left. cbn. rewrite E. split; [| exact Ho]. by rewrite alter_singleton_eq, delete_singleton_eq.
Qed.

(** *** The status *)
Lemma wp_status fuel p k w : lib_inv w -> valid (w_st w) p ->
  (forall a v, lib_inv v -> wp (k a) (fun _ w' => lib_inv w') v) ->
  wp (status_err fuel p k) (fun _ w' => lib_inv w') w.
Proof.
  intros Hw Hp Hk. apply wp_checked; [done | done |]. intros h _ _.
  apply wp_bind, wp_ask. intros a _. set (e := Ev _ a). pose proof (lib_inv_emit e w I Hw) as Hw'.
  apply wp_bind, wp_sys_ioctl; [apply Hw' | by ctl_cmd |]. intros rc v _ Hv.
  apply lib_inv_kept in Hv; [| done]. destruct (rc =? -1); [by apply wp_ret | by apply Hk].
Qed.

(** every call but the transfers returns *)
Lemma call_returns fuel c w : lib_inv w -> call_ok (w_st w) c -> transfer_of c = None ->
  wp (run_call fuel c) (fun _ w' => lib_inv w') w.
Proof.
  intros Hw [Hp Hc] Ht.
  assert (forall p pstate cmd arg err f, valid (w_st w) p -> op_ok (OpIoctl cmd arg) ->
    (cmd = ZYNQ_IOC_CAN_DEV_START \/ cmd = ZYNQ_IOC_CAN_DEV_STOP \/ starts cmd = id) ->
    (forall h, Z.testbit (dev_state (f h)) 0 = Z.testbit (dev_state h) 0 /\
       Z.testbit (dev_state (f h)) 6 = starts cmd (Z.testbit (dev_state h) 6)) ->
    wp (checked p pstate (control fuel p cmd arg err f)) (fun _ w' => lib_inv w') w) as Hctl.
  { intros p pstate cmd arg err f Hv Hop Hcmd Hf. apply wp_checked; [done | done |]. intros h Hh _.
    destruct (Hf h). by apply (wp_control _ _ h). }
  assert (forall b, b && true || false = b) as Hid by by intros [].
  destruct c; try discriminate Ht; cbn [run_call handle_of] in *.
  - by apply wp_fmap, wp_bcan_open.
  - by apply wp_bcan_close.
  - destruct Hc as [->|Hc].
    { apply wp_checked; [done | done |]. intros h Hh _. by destruct (lib_live _ _ _ Hw Hh) as (_ & ? & _). }
    apply Hctl; [done | by ctl_cmd | by right; right |]. intros h0.
    assert (forall h, dev_state (h<|baudrate := rate|>) = dev_state h) as -> by done.
    rewrite !set_state_bit. cbn. by rewrite !Hid.
  - destruct Hp as [|[x Hx]]; [done |]. unfold bcan_get_baudrate, hdl_at.
    rewrite (proj2 (Z.eqb_neq h 0)) by done. apply wp_bind, wp_bind, wp_get. rewrite Hx. apply wp_ret.
    apply wp_bind, wp_sys_ioctl; [apply Hw | by ctl_cmd |]. intros rc v _ Hv.
    apply wp_ret. by apply lib_inv_kept.
  - apply Hctl; [done | by ctl_cmd | by right; right |]. intros h0. rewrite !set_state_bit. cbn. by rewrite !Hid.
  - apply Hctl; [done | by ctl_cmd | by right; right |]. intros h0. rewrite !set_state_bit. cbn. by rewrite !Hid.
  - apply Hctl; [done | by ctl_cmd | by left |]. intros h0. rewrite !set_state_bit. cbn. by rewrite !Hid, orb_true_r.
  - apply Hctl; [done | by ctl_cmd | by right; left |]. intros h0. rewrite !set_state_bit. cbn.
    by rewrite !Hid, andb_false_r.
  - apply wp_status; [done | done |]. intros a v Hv. apply wp_bind, wp_bind, wp_ask. intros r _.
    by apply wp_ret, wp_ret, lib_inv_emit.
  - apply wp_status; [done | done |]. intros a v Hv. apply wp_bind, wp_bind, wp_ask. intros r _. apply wp_ret.
    apply wp_bind, wp_tell. apply wp_bind, wp_tell. apply wp_ret. by repeat apply lib_inv_emit.
Qed.

(** a handle that is not live is found out when it is read *)
Lemma checked_dangling p pstate m w :
  p <> 0 -> lx_hdls (w_st w) !! p = None -> checked p pstate m w = Fault Dangling.
Proof using Type.
  intros Hp Hn. unfold checked, bcan_check_state, hdl_at. rewrite (proj2 (Z.eqb_neq p 0)) by done.
  unfold mbind, M_bind, get. by rewrite Hn.
Qed.

Lemma checked_live p pstate m w h : lx_hdls (w_st w) !! p = Some h -> p <> 0 ->
  check_transition (dev_state h) pstate = BCAN_OK -> checked p pstate m w = m w.
Proof using Type.
  intros E Hp Ht. unfold checked, bcan_check_state, hdl_at. rewrite (proj2 (Z.eqb_neq p 0) Hp).
  unfold mbind, M_bind, get. rewrite E. cbn. by rewrite Ht.
Qed.

(** the faults are those *)
Lemma call_misuse fuel c f w : lib_inv w -> transfer_of c = None -> misuse (w_st w) c = Some f ->
  run_call fuel c w = Fault f.
Proof.
  intros Hw Ht Hm.
  destruct (Z.eqb_spec (handle_of c) 0) as [E0|Hn].
  { unfold misuse in Hm. rewrite (proj2 (Z.eqb_eq _ _) E0) in Hm.
    destruct c as [| | |p rate| | | | | | | | |]; try done. cbn in E0. subst p. by injection Hm as <-. }
  unfold misuse in Hm. rewrite (proj2 (Z.eqb_neq _ _) Hn) in Hm.
  destruct (lx_hdls (w_st w) !! handle_of c) as [h|] eqn:E.
  - destruct c as [| |p rate| | | | | | | | | |]; try done.
    destruct (Z.ltb_spec (s32 rate) 0); [| done]. injection Hm as <-. cbn [handle_of] in *.
    destruct (lib_live _ _ _ Hw E) as (_ & _ & _ & B0 & _). destruct Hw as [Hc _].
    cbn [run_call]. unfold bcan_set_baudrate. erewrite checked_live; [| exact E | exact Hn |].
    2:{ unfold check_transition. cbn. unfold BCAN_DEV_OPEN. by rewrite tst_bit, B0 by lia. }
    unfold control, sys_ioctl. apply bind_fault, bind_fault. unfold on_can, zoom.
    change (zcan_ioctl fuel true ZYNQ_IOC_CAN_BAUDRATE_SET rate) with (zcan_pio_set_baudrate (s32 rate)).
    unfold can_world in Hc. rewrite set_baudrate_negative; [done | exact Hb | exact (ci_held _ Hc) | done].
  - destruct c as [| |p rate|p rate| | | | | | | | |]; try done; injection Hm as <-; cbn [run_call handle_of] in *;
      try by apply checked_dangling.
    unfold bcan_get_baudrate. apply bind_fault. unfold hdl_at. rewrite (proj2 (Z.eqb_neq p 0) Hn).
    unfold mbind, M_bind, get. by rewrite E.
Qed.

(** *** Transfers: every one that returns keeps the invariant *)
Definition passes {A} (m : M lib_ctx A) : Prop := forall w a w', lib_inv w -> m w = Ret a w' -> lib_inv w'.

Lemma passes_ret {A} (a : A) : passes (mret a).
Proof using Type. by intros w b w' Hw [= <- <-]. Qed.
Lemma passes_bind {A B} (m : M lib_ctx A) (f : A -> M lib_ctx B) :
  passes m -> (forall a, passes (f a)) -> passes (m ≫= f).
Proof using Type. intros Hm Hf w b w' Hw (a & v & Em & Ef)%bind_inv. eapply Hf; [by eapply Hm | exact Ef]. Qed.
Lemma passes_looks {A} (m : M lib_ctx A) : looks m -> passes m.
Proof using Type.
  intros Hm w a w' Hw E. assert (calmly w w') as (Es & Eh & evs & El & Hc).
  { specialize (Hm w (fun b v => calmly w v) (fun b v Hv => Hv)). apply wp_run in Hm as (b & v & E2 & Hv).
    rewrite E in E2. by injection E2 as <- <-. }
  destruct Hw as [Hcan Hl]. split; [| unfold opened_of; rewrite Es; exact Hl].
  apply (can_inv_calmly _ _ Hcan). unfold can_world. rewrite Es. split; [done |]. split; [exact Eh |]. by exists evs.
Qed.
Lemma passes_ioctl fuel cmd arg : cmd ∈ transfer_cmds -> passes (sys_ioctl fuel cmd arg).
Proof using Type.
  intros Hc w r w' Hw (a & v & E & [= <- <-])%bind_inv. unfold on_can, zoom in E.
  destruct (zcan_ioctl _ _ _ _ _) as [b u|f|] eqn:Er; [| discriminate E | discriminate E].
  injection E as _ <-. apply lib_inv_kept; [done |]. eapply transfer_keeps; [apply Hw | exact Hc | exact Er].
Qed.
Lemma passes_hdl_at p : passes (hdl_at p).
Proof using Type.
  unfold hdl_at. destruct (p =? 0); [intros w a w' _ E; discriminate E |].
  apply passes_bind; [by intros w a w' Hw [= <- <-] |]. intros s. destruct (_ !! _); [apply passes_ret |].
  intros w a w' _ E. discriminate E.
Qed.
Lemma passes_checked p pstate m : passes m -> passes (checked p pstate m).
Proof using Type.
  intros Hm. unfold checked, bcan_check_state. apply passes_bind.
  - destruct (p =? 0); [apply passes_ret |]. apply passes_bind; [apply passes_hdl_at | intros h; apply passes_ret].
  - intros e. destruct (negb _); [apply passes_ret | exact Hm].
Qed.
(** the RECVD flag is none of those the invariant reads *)
Lemma passes_recvd p : passes (upd_hdl p (set_state BCAN_DEV_RECVD 0)).
Proof using Type.
  intros w a w' [Hc Hl] [= <- <-]. split; [exact Hc |].
  destruct Hl as [[He Ho]|(k & x & He & Hn & Ho & B0 & B6)]; [left; cbn; by rewrite He, alter_empty |].
  right. destruct (decide (p = k)) as [->|Hk].
  - exists k, (set_state BCAN_DEV_RECVD 0 x). cbn. rewrite He, alter_singleton_eq.
    split_and!; [done | done | exact Ho |]. split; rewrite set_state_bit; [by rewrite B0 |].
    rewrite B6. cbn. by destruct (started _).
  - exists k, x. cbn. rewrite He, alter_singleton_ne by done. done.
Qed.
Lemma passes_transfer fuel cmd p done : cmd ∈ transfer_cmds -> passes (transfer fuel cmd p done).
Proof using Type.
  intros Hc. unfold transfer, load_word. apply passes_bind; [by apply passes_ioctl |]. intros rc.
  destruct (rc =? -1); [apply passes_ret |].
  repeat (apply passes_bind; [apply passes_looks; auto with basa | intros ?]). apply passes_ret.
Qed.

Lemma looks_store p i v : looks (store_word p i v).
Proof using Type. by apply looks_tell. Qed.
Lemma looks_ioc_struct buf n : looks (ioc_struct buf n).
Proof using Type.
  unfold ioc_struct. apply looks_bind; [by apply looks_ask |]. intros p.
  repeat (apply looks_bind; [apply looks_store | intros ?]). apply looks_ret.
Qed.

Lemma transfer_passes fuel c : is_Some (transfer_of c) -> passes (run_call fuel c).
Proof using Type.
  intros [p Hp]. assert (ZYNQ_IOC_CAN_RECV ∈ transfer_cmds /\ ZYNQ_IOC_CAN_SEND ∈ transfer_cmds /\
    ZYNQ_IOC_CAN_SEND_HIPRI ∈ transfer_cmds) as (T1 & T2 & T3) by (unfold transfer_cmds; rewrite !elem_of_cons; tauto).
  destruct c; try discriminate Hp; cbn [run_call].
  - apply passes_bind; [apply passes_looks, looks_ioc_struct |]. intros q.
    destruct (_ || _); [apply passes_ret |]. apply passes_checked.
    apply passes_bind; [| intros hdl; apply passes_bind; [| intros _; by apply passes_transfer]].
    + apply passes_hdl_at.
    + destruct (negb _); [| apply passes_looks, looks_store].
      apply passes_bind; [apply passes_recvd | intros _; apply passes_looks, looks_store].
  - apply passes_bind; [apply passes_looks, looks_ioc_struct |]. intros q.
    destruct (_ || _); [apply passes_ret |]. by apply passes_checked, passes_transfer.
  - apply passes_checked. apply passes_bind; [apply passes_looks, looks_ioc_struct |]. intros q.
    by apply passes_transfer.
Qed.

(** a transfer on a handle that is not started stops in the library *)
Lemma transfer_refused fuel c p h w :
  lib_inv w -> transfer_of c = Some p -> lx_hdls (w_st w) !! p = Some h -> tst (dev_state h) BCAN_DEV_START = false ->
  wp (run_call fuel c) (fun r w' => (r = BCAN_DEV_INVALID \/ r = BCAN_PARAM_INVALID) /\ calmly w w') w.
Proof using Type.
  intros Hw Hp Hh Hs. destruct (lib_live _ _ _ Hw Hh) as (_ & Hn & _).
  assert (forall m v, calmly w v ->
    wp (checked p BCAN_DEV_ACTIVE m) (fun r w' => (r = BCAN_DEV_INVALID \/ r = BCAN_PARAM_INVALID) /\ calmly w w') v)
    as Hno.
  { intros m v Hv. pose proof Hv as [Es _]. unfold checked, bcan_check_state, hdl_at. apply wp_bind.
    rewrite (proj2 (Z.eqb_neq p 0)) by done. apply wp_bind, wp_bind, wp_get. rewrite Es, Hh. apply wp_ret, wp_ret.
    unfold check_transition. cbn [BCAN_DEV_ACTIVE]. rewrite Hs. cbn. apply wp_ret. split; [by left | done]. }
  destruct c; try discriminate Hp; injection Hp as ->; cbn [run_call].
  - apply wp_bind, wp_looks; [apply looks_ioc_struct |]. intros q v Hv.
    destruct (_ || _); [apply wp_ret; split; [by right | done] | by apply Hno].
  - apply wp_bind, wp_looks; [apply looks_ioc_struct |]. intros q v Hv.
    destruct (_ || _); [apply wp_ret; split; [by right | done] | by apply Hno].
  - apply Hno, calmly_refl.
Qed.
End lib_lemmas.

(** ** Property *)

(** a call of a process, when it returns *)
Inductive lib_step `{Env} `{ModParams} (fuel : nat) : world lib_ctx -> world lib_ctx -> Prop :=
| lib_call_step c r w w' : run_call fuel c w = Ret r w' -> lib_step fuel w w'.


Module LibWitness.
#[local] Existing Instance CtlWitness.env_regs.
#[local] Existing Instance params_default.
Definition lib0 : world lib_ctx := World [] [] (LibCtx (w_st CtlWitness.world0) ∅).
Definition after (c : lib_call) (w : world lib_ctx) : world lib_ctx :=
  match run_call 10 c w with Ret _ w' => w' | _ => w end.
Definition opened0 := after (LOpen 0 100 100) lib0.
Definition started0 := after (LStart 4096) (after (LSetBaudrate 4096 1) opened0).

(** open, set a rate, start: the flag is set and the core enabled *)
Definition hdl0 : bcan_ihdl :=
  BcanIhdl 0 (Z.lor BCAN_DEV_OPEN (Z.lor BCAN_DEV_BAUD_SET BCAN_DEV_START)) 4096 1 4096 4096.
Definition result (c : lib_call) (w : world lib_ctx) : option Z :=
  match run_call 10 c w with Ret r _ => Some r | _ => None end.
(** a second open is refused; starting needs a rate first; a rate out of the
    table is refused; a closed handle is dangling *)
Example second_open : result (LOpen 0 1 1) opened0 = Some BCAN_PARAM_INVALID.
Proof. vm_compute. reflexivity. Qed.
Example start_needs_rate : result (LStart 4096) opened0 = Some BCAN_DEV_INVALID.
Proof. vm_compute. reflexivity. Qed.
Example bad_rate : result (LSetBaudrate 4096 4) opened0 = Some BCAN_ERR.
Proof. vm_compute. reflexivity. Qed.
Example huge_rate : run_call 10 (LSetBaudrate 4096 (2 ^ 31)) opened0 = Fault (Index (- 2 ^ 31)).
Proof. vm_compute. reflexivity. Qed.
Example closed_handle : run_call 10 (LStart 4096) (after (LClose 4096) opened0) = Fault Dangling.
Proof. vm_compute. reflexivity. Qed.
(** the driver answers [bcan_get_baudrate] with the eight bytes of an [unsigned
    long], at an address the library takes for a [uint32_t] *)
Example baudrate_overflows :
  head (w_log (after (LGetBaudrate 4096 0x5000) started0)) = Some (Ev (CopyToUser 0x5000 8 [1; 0]) 4096).
Proof. vm_compute. reflexivity. Qed.
End LibWitness.
