(* ===== verification/I2c.v ===== *)
(** * I2C buses of the sensor FPGA ([basa_i2c.c])

    A bus is a control register that takes a command word (chip, register
    address, data, read flag) and shows busy, error and data, and a
    configuration register for the high half of a 16-bit address. *)

From S2P Require Import Device CanChip.

(** ** Definitions *)

Definition ZYNQ_I2C_WAIT_US : Z := 300.
Definition ZYNQ_I2C_RETRY : Z := 20.

Definition i2c_control_regs : list Z :=
  [ZYNQ_G_I2C_CONTROL_0; ZYNQ_G_I2C_CONTROL_1; ZYNQ_G_I2C_CONTROL_2; ZYNQ_G_I2C_CONTROL_3].
Definition i2c_config_regs : list Z :=
  [ZYNQ_G_I2C_CONFIG_0; ZYNQ_G_I2C_CONFIG_1; ZYNQ_G_I2C_CONFIG_2; ZYNQ_G_I2C_CONFIG_3].

(** [ioc_zynq_i2c_acc_t]: six bytes *)
Record ioc_zynq_i2c_acc := I2cAcc {
  i2c_id : Z; i2c_addr_hi : Z; i2c_addr : Z; i2c_data : Z; i2c_addr_16 : Z; i2c_bus : Z
}.
#[global] Instance ioc_zynq_i2c_acc_eta : Eta ioc_zynq_i2c_acc := fun r =>
  I2cAcc (i2c_id r) (i2c_addr_hi r) (i2c_addr r) (i2c_data r) (i2c_addr_16 r) (i2c_bus r).
Definition i2c_of_bytes (l : list Z) : ioc_zynq_i2c_acc :=
  I2cAcc (l !!! 0%nat) (l !!! 1%nat) (l !!! 2%nat) (l !!! 3%nat) (l !!! 4%nat) (l !!! 5%nat).
Definition i2c_bytes (a : ioc_zynq_i2c_acc) : list Z :=
  [i2c_id a; i2c_addr_hi a; i2c_addr a; i2c_data a; i2c_addr_16 a; i2c_bus a].
Definition sizeof_i2c_acc : Z := 6.

Section i2c.
Context `{Env} `{ModParams}.

Definition zdev_i2c_validate (a : ioc_zynq_i2c_acc) : M zynq_dev Z :=
  d ← get;
  if negb (tst (zdev_hw_cap d) ZYNQ_HW_CAP_I2C) then mret (- EPERM)
  else if ZYNQ_I2C_BUS_NUM <=? i2c_bus a then mret (- EINVAL)
  else if ZYNQ_I2C_ID_MAX <? i2c_id a then mret (- EINVAL)
  else mret 0.

(** wait until the bus is free, 20 reads at most *)
Definition zdev_i2c_check_busy (a : ioc_zynq_i2c_acc) : M zynq_dev Z :=
  ctrl_reg ← array_get i2c_control_regs (i2c_bus a);
  r ← for_break (Z.to_nat ZYNQ_I2C_RETRY) 0 (fun _ =>
        ctrl_val ← zynq_g_reg_read ctrl_reg;
        if tst ctrl_val ZYNQ_I2C_CMD_ERR then mret (Some (- EFAULT))
        else if negb (tst ctrl_val ZYNQ_I2C_CMD_BUSY) then mret (Some 0)
        else tell (Udelay ZYNQ_I2C_WAIT_US);; mret None);
  mret (match r with Some rc => rc | None => - EAGAIN end).

(** the higher 8-bit address, for a 16-bit one; the flag for the command word *)
Definition i2c_set_addr_hi (a : ioc_zynq_i2c_acc) (cfg_reg : Z) : M zynq_dev Z :=
  if negb (i2c_addr_16 a =? 0) then
    zynq_g_reg_write cfg_reg (SET_BITS ZYNQ_I2C_ADDR_HI 0 (i2c_addr_hi a));;
    mret ZYNQ_I2C_ADDR_16
  else mret 0.

(** error code and, for a read, the structure with the data read *)
Definition zdev_i2c_read (a : ioc_zynq_i2c_acc) : M zynq_dev (Z * ioc_zynq_i2c_acc) :=
  err ← zdev_i2c_validate a;
  if negb (err =? 0) then mret (err, a)
  else
    spin_lock L_zdev_i2c;;
    err ← zdev_i2c_check_busy a;
    if err =? - EAGAIN then spin_unlock L_zdev_i2c;; mret (err, a)
    else
      ctrl_reg ← array_get i2c_control_regs (i2c_bus a);
      cfg_reg ← array_get i2c_config_regs (i2c_bus a);
      ctrl_val ← i2c_set_addr_hi a cfg_reg;
      (* do I2C reading *)
      let ctrl_val := Z.lor ctrl_val ZYNQ_I2C_CMD_READ in
      let ctrl_val := SET_BITS ZYNQ_I2C_ID ctrl_val (i2c_id a) in
      let ctrl_val := SET_BITS ZYNQ_I2C_ADDR ctrl_val (i2c_addr a) in
      zynq_g_reg_write ctrl_reg ctrl_val;;
      err ← zdev_i2c_check_busy a;
      if negb (err =? 0) then spin_unlock L_zdev_i2c;; mret (err, a)
      else
        v ← zynq_g_reg_read ctrl_reg;
        spin_unlock L_zdev_i2c;;
        mret (0, a<|i2c_data := u8 (GET_BITS ZYNQ_I2C_DATA v)|>).

Definition zdev_i2c_write (a : ioc_zynq_i2c_acc) : M zynq_dev Z :=
  err ← zdev_i2c_validate a;
  if negb (err =? 0) then mret err
  else
    spin_lock L_zdev_i2c;;
    err ← zdev_i2c_check_busy a;
    if err =? - EAGAIN then spin_unlock L_zdev_i2c;; mret err
    else
      ctrl_reg ← array_get i2c_control_regs (i2c_bus a);
      cfg_reg ← array_get i2c_config_regs (i2c_bus a);
      ctrl_val ← i2c_set_addr_hi a cfg_reg;
      (* do I2C writing *)
      let ctrl_val := SET_BITS ZYNQ_I2C_DATA ctrl_val (i2c_data a) in
      let ctrl_val := SET_BITS ZYNQ_I2C_ID ctrl_val (i2c_id a) in
      let ctrl_val := SET_BITS ZYNQ_I2C_ADDR ctrl_val (i2c_addr a) in
      let ctrl_val := Z.land ctrl_val (Z.lnot ZYNQ_I2C_CMD_READ) in
      zynq_g_reg_write ctrl_reg ctrl_val;;
      err ← zdev_i2c_check_busy a;
      spin_unlock L_zdev_i2c;;
      mret err.

(** the two I2C commands, which the register device has too *)
Definition i2c_ioctl_read (arg : Z) : M zynq_dev Z :=
  data ← copy_bytes_from_user arg (Z.to_nat sizeof_i2c_acc);
  match data with
  | None => mret (- EFAULT)
  | Some l =>
      '(err, a) ← zdev_i2c_read (i2c_of_bytes l);
      if negb (err =? 0) then mret err
      else
        ok ← copy_to_user arg sizeof_i2c_acc (i2c_bytes a);
        mret (if (ok : bool) then 0 else - EFAULT)
  end.
Definition i2c_ioctl_write (arg : Z) : M zynq_dev Z :=
  data ← copy_bytes_from_user arg (Z.to_nat sizeof_i2c_acc);
  match data with
  | None => mret (- EFAULT)
  | Some l => zdev_i2c_write (i2c_of_bytes l)
  end.

Definition zynq_i2c_ioctl (cmd arg : Z) : M zynq_dev Z :=
  if cmd =? ZYNQ_IOC_REG_I2C_READ then i2c_ioctl_read arg
  else if cmd =? ZYNQ_IOC_REG_I2C_WRITE then i2c_ioctl_write arg
  else mret (- EINVAL).
End i2c.

(** ** Specification *)

Definition I2C_RD : field := Field 24 1.
Definition I2C_16 : field := Field 25 1.

(** the request the driver accepts *)
Definition i2c_valid (d : zynq_dev) (a : ioc_zynq_i2c_acc) : Prop :=
  tst (zdev_hw_cap d) ZYNQ_HW_CAP_I2C = true /\ i2c_bus a < ZYNQ_I2C_BUS_NUM /\
  i2c_id a <= ZYNQ_I2C_ID_MAX.
(** every member is a byte *)
Definition i2c_wf (a : ioc_zynq_i2c_acc) : Prop := Forall (fun b => 0 <= b < 256) (i2c_bytes a).

(** the command word of a request: each field holds what was asked *)
Record i2c_cmd (a : ioc_zynq_i2c_acc) (rd : bool) (v : Z) : Prop := {
  cmd_u32 : 0 <= v < 2 ^ 32;
  cmd_id : GET_BITS ZYNQ_I2C_ID v = i2c_id a;
  cmd_addr : GET_BITS ZYNQ_I2C_ADDR v = i2c_addr a;
  cmd_rd : GET_BITS I2C_RD v = if rd then 1 else 0;
  cmd_16 : GET_BITS I2C_16 v = if i2c_addr_16 a =? 0 then 0 else 1;
  cmd_data : rd = false -> GET_BITS ZYNQ_I2C_DATA v = i2c_data a
}.

(** the writes of a request: the high address first, then the command *)
Definition i2c_writes (a : ioc_zynq_i2c_acc) (v : Z) : list (addr * Z) :=
  (if i2c_addr_16 a =? 0 then []
   else [((BAR0, i2c_config_regs !!! Z.to_nat (i2c_bus a)), i2c_addr_hi a)])
  ++ [((BAR0, i2c_control_regs !!! Z.to_nat (i2c_bus a)), v)].

(** the control register of the bus, and the values of it that end a wait: an error, or
    no longer busy *)
Definition i2c_ctrl (a : ioc_zynq_i2c_acc) : addr :=
  (BAR0, i2c_control_regs !!! Z.to_nat (i2c_bus a)).
Definition i2c_settled (v : Z) : bool :=
  negb (Z.land v ZYNQ_I2C_CMD_ERR =? 0) || (Z.land v ZYNQ_I2C_CMD_BUSY =? 0).
Definition i2c_waited (a : ioc_zynq_i2c_acc) : option Z -> list access -> Prop :=
  polled (i2c_ctrl a) i2c_settled 20.

(** a read request from the outside: its result, the structure given back, and its
    accesses of the device in order *)
Inductive i2c_read_run (d : zynq_dev) (a : ioc_zynq_i2c_acc)
  : Z -> ioc_zynq_i2c_acc -> list access -> Prop :=
| read_invalid : ~ i2c_valid d a ->
    i2c_read_run d a (if tst (zdev_hw_cap d) ZYNQ_HW_CAP_I2C then - EINVAL else - EPERM) a []
| read_busy acs : i2c_valid d a -> i2c_waited a None acs -> i2c_read_run d a (- EAGAIN) a acs
| read_stuck v cmd acs acs' : i2c_valid d a -> i2c_waited a (Some v) acs -> i2c_cmd a true cmd ->
    i2c_waited a None acs' ->
    i2c_read_run d a (- EAGAIN) a (acs ++ wrs (i2c_writes a cmd) ++ acs')
| read_error v v' cmd acs acs' : i2c_valid d a -> i2c_waited a (Some v) acs -> i2c_cmd a true cmd ->
    i2c_waited a (Some v') acs' -> Z.land v' ZYNQ_I2C_CMD_ERR <> 0 ->
    i2c_read_run d a (- EFAULT) a (acs ++ wrs (i2c_writes a cmd) ++ acs')
| read_done v v' x cmd acs acs' : i2c_valid d a -> i2c_waited a (Some v) acs -> i2c_cmd a true cmd ->
    i2c_waited a (Some v') acs' -> Z.land v' ZYNQ_I2C_CMD_ERR = 0 ->
    i2c_read_run d a 0 (a<|i2c_data := Z.land (Z.shiftr x 16) 0xFF|>)
      (acs ++ wrs (i2c_writes a cmd) ++ acs' ++ [Rd (i2c_ctrl a) x]).

(** ** Lemmas *)
Lemma land_clear_bit v : Z.land v (Z.lnot ZYNQ_I2C_CMD_READ) = SET_BITS I2C_RD v 0.
Proof. unfold SET_BITS. cbn [f_off f_mask I2C_RD]. by rewrite Z.land_0_l, Z.shiftl_0_l, Z.lor_0_r. Qed.

Definition i2c_flag (a : ioc_zynq_i2c_acc) : Z := if i2c_addr_16 a =? 0 then 0 else ZYNQ_I2C_ADDR_16.

Lemma read_cmd_ok a :
  i2c_wf a -> i2c_id a <= ZYNQ_I2C_ID_MAX ->
  i2c_cmd a true (SET_BITS ZYNQ_I2C_ADDR (SET_BITS ZYNQ_I2C_ID
    (Z.lor (i2c_flag a) ZYNQ_I2C_CMD_READ) (i2c_id a)) (i2c_addr a)).
Proof.
  intros Hwf Hid. unfold i2c_wf, i2c_bytes in Hwf. rewrite !Forall_cons in Hwf.
  destruct Hwf as (B1 & B2 & B3 & B4 & B5 & B6 & _). unfold ZYNQ_I2C_ID_MAX in Hid.
  assert (field_width ZYNQ_I2C_ID = 7 /\ field_width ZYNQ_I2C_ADDR = 8) as [W1 W2] by done.
  assert (0 <= Z.lor (i2c_flag a) ZYNQ_I2C_CMD_READ < 2 ^ 32) as Hr
    by (unfold i2c_flag; destruct (_ =? 0); (split; [vm_compute; discriminate | reflexivity])).
  split.
  - apply SET_BITS_range; [done |]. by apply SET_BITS_range.
  - rewrite GET_SET_other by done. apply GET_SET_small; [done |]. rewrite W1. lia.
  - apply GET_SET_small; [done |]. rewrite W2. lia.
  - rewrite !GET_SET_other by done. unfold i2c_flag. by destruct (_ =? 0).
  - rewrite !GET_SET_other by done. unfold i2c_flag. by destruct (_ =? 0).
  - done.
Qed.

Lemma write_cmd_ok a :
  i2c_wf a -> i2c_id a <= ZYNQ_I2C_ID_MAX ->
  i2c_cmd a false (Z.land (SET_BITS ZYNQ_I2C_ADDR (SET_BITS ZYNQ_I2C_ID
    (SET_BITS ZYNQ_I2C_DATA (i2c_flag a) (i2c_data a)) (i2c_id a)) (i2c_addr a))
    (Z.lnot ZYNQ_I2C_CMD_READ)).
Proof.
  intros Hwf Hid. unfold i2c_wf, i2c_bytes in Hwf. rewrite !Forall_cons in Hwf.
  destruct Hwf as (B1 & B2 & B3 & B4 & B5 & B6 & _). unfold ZYNQ_I2C_ID_MAX in Hid.
  assert (field_width ZYNQ_I2C_ID = 7 /\ field_width ZYNQ_I2C_ADDR = 8 /\ field_width ZYNQ_I2C_DATA = 8)
    as (W1 & W2 & W3) by done.
  assert (0 <= i2c_flag a < 2 ^ 32) as Hr
    by (unfold i2c_flag; destruct (_ =? 0); (split; [vm_compute; discriminate | reflexivity])).
  rewrite land_clear_bit. split.
  - repeat (apply SET_BITS_range; [done |]). done.
  - rewrite !GET_SET_other by done. apply GET_SET_small; [done |]. rewrite W1. lia.
  - rewrite GET_SET_other by done. apply GET_SET_small; [done |]. rewrite W2. lia.
  - by apply GET_SET_small.
  - rewrite !GET_SET_other by done. unfold i2c_flag. by destruct (_ =? 0).
  - intros _. rewrite !GET_SET_other by done. apply GET_SET_small; [done |]. rewrite W3. lia.
Qed.

Section i2c_lemmas.
Context `{Env} `{ModParams}.
Hypothesis Hb : zynq_bringup_param = false.
Implicit Types w : world zynq_dev.

Lemma wp_validate a w (Q : Z -> world zynq_dev -> Prop) :
  (i2c_valid (w_st w) a -> Q 0 w) ->
  (~ i2c_valid (w_st w) a -> Q (if tst (zdev_hw_cap (w_st w)) ZYNQ_HW_CAP_I2C then - EINVAL else - EPERM) w) ->
  wp (zdev_i2c_validate a) Q w.
Proof.
  intros Hok Hko. unfold zdev_i2c_validate, i2c_valid in *. apply wp_bind, wp_get.
  destruct (tst (zdev_hw_cap (w_st w)) ZYNQ_HW_CAP_I2C); cbn [negb].
  2:{ apply wp_ret, Hko. by intros [? _]. }
  destruct (Z.leb_spec ZYNQ_I2C_BUS_NUM (i2c_bus a)) as [Hge|Hlt].
  { apply wp_ret, Hko. intros (_ & ? & _). lia. }
  destruct (Z.ltb_spec ZYNQ_I2C_ID_MAX (i2c_id a)) as [Hgt|Hle].
  { apply wp_ret, Hko. intros (_ & _ & ?). lia. }
  by apply wp_ret, Hok.
Qed.

Lemma i2c_regs_lookup a :
  0 <= i2c_bus a < ZYNQ_I2C_BUS_NUM ->
  zlookup i2c_control_regs (i2c_bus a) = Some (i2c_control_regs !!! Z.to_nat (i2c_bus a)) /\
  zlookup i2c_config_regs (i2c_bus a) = Some (i2c_config_regs !!! Z.to_nat (i2c_bus a)).
Proof.
  change ZYNQ_I2C_BUS_NUM with 4. intros Hbus.
  assert (i2c_bus a = 0 \/ i2c_bus a = 1 \/ i2c_bus a = 2 \/ i2c_bus a = 3)
    as [->|[->|[->| ->]]] by lia; by split.
Qed.

Lemma i2c_bus_range d a : i2c_wf a -> i2c_valid d a -> 0 <= i2c_bus a < ZYNQ_I2C_BUS_NUM.
Proof.
  intros Hwf (_ & Hbus & _). unfold i2c_wf, i2c_bytes in Hwf. rewrite !Forall_cons in Hwf.
  destruct Hwf as (_ & _ & _ & _ & _ & B6 & _). lia.
Qed.

(** waiting for the bus only looks; the code tells what the last of its reads showed *)
Lemma wp_check_busy a w (Q : Z -> world zynq_dev -> Prop) :
  0 <= i2c_bus a < ZYNQ_I2C_BUS_NUM ->
  (forall r acs w', accessed_only w w' acs -> i2c_waited a r acs ->
     Q (match r with
        | Some v => if Z.land v ZYNQ_I2C_CMD_ERR =? 0 then 0 else - EFAULT
        | None => - EAGAIN
        end) w') ->
  wp (zdev_i2c_check_busy a) Q w.
Proof using Hb.
  intros Hbus HQ. unfold zdev_i2c_check_busy. destruct (i2c_regs_lookup a Hbus) as [Hr _].
  apply wp_bind, wp_array_get. eexists. split; [exact Hr |].
  apply wp_bind.
  assert (forall n from vs v (R : option Z -> world zynq_dev -> Prop),
    Forall (fun x => i2c_settled x = false) vs -> (length vs + n)%nat = 20%nat ->
    accessed_only w v (map (Rd (i2c_ctrl a)) vs) ->
    (forall r acs w', accessed_only w w' acs -> i2c_waited a r acs ->
       R ((fun v => if Z.land v ZYNQ_I2C_CMD_ERR =? 0 then 0 else - EFAULT) <$> r) w') ->
    wp (for_break n from (fun _ =>
        ctrl_val ← zynq_g_reg_read (i2c_control_regs !!! Z.to_nat (i2c_bus a));
        if tst ctrl_val ZYNQ_I2C_CMD_ERR then mret (Some (- EFAULT))
        else if negb (tst ctrl_val ZYNQ_I2C_CMD_BUSY) then mret (Some 0)
        else tell (Udelay ZYNQ_I2C_WAIT_US);; mret None)) R v) as Hloop.
  { clear HQ. induction n as [|n IH]; intros from vs v R Hno Hlen Hacc HR; cbn [for_break].
    - apply wp_ret, (HR None (map (Rd (i2c_ctrl a)) vs)); [done |]. apply polled_never; [done | lia].
    - apply wp_bind, wp_bind. unfold zynq_g_reg_read. apply wp_io_read; [exact Hb |]. intros x _.
      pose proof (accessed_only_emit _ _ _ (MmioRead (i2c_ctrl a)) x Hacc) as Hacc1.
      change (option_list _) with (map (Rd (i2c_ctrl a)) [u32 x]) in Hacc1.
      rewrite <- map_app in Hacc1.
      assert (Hhit : i2c_settled (u32 x) = true -> forall w', accessed_only w w' (map (Rd (i2c_ctrl a)) (vs ++ [u32 x])) ->
        R (Some (if Z.land (u32 x) ZYNQ_I2C_CMD_ERR =? 0 then 0 else - EFAULT)) w').
      { intros Hx w' Hw'. apply (HR (Some (u32 x)) _ w' Hw'). apply polled_found; [done | done | lia]. }
      unfold i2c_settled in *. unfold tst.
      destruct (Z.eqb_spec (Z.land (u32 x) ZYNQ_I2C_CMD_ERR) 0) as [E|E]; cbn [negb orb] in *.
      2:{ apply wp_ret, wp_ret. by apply Hhit. }
      destruct (Z.eqb_spec (Z.land (u32 x) ZYNQ_I2C_CMD_BUSY) 0) as [E'|E']; cbn [negb] in *.
      { apply wp_ret, wp_ret. by apply Hhit. }
      apply wp_bind, wp_tell, wp_ret. apply (IH _ (vs ++ [u32 x])); [| | | exact HR].
      + apply Forall_app. split; [done |]. apply Forall_singleton.
        apply Z.eqb_neq in E'. by rewrite E, E'.
      + rewrite length_app. cbn [length]. lia.
      + pose proof (accessed_only_emit _ _ _ (Udelay ZYNQ_I2C_WAIT_US) 0 Hacc1) as Ha. by rewrite app_nil_r in Ha. }
  apply (Hloop _ _ []); [done | done | apply accessed_only_refl |].
  intros r acs w' Ha Hp. apply wp_ret. specialize (HQ r acs w' Ha Hp). by destruct r.
Qed.

(** the accepted request, up to the command word [v] *)
Lemma wp_set_addr_hi a cfg w (Q : Z -> world zynq_dev -> Prop) :
  i2c_wf a ->
  Q (i2c_flag a)
    (if i2c_addr_16 a =? 0 then w
     else emit (Ev (MmioWrite (BAR0, cfg) (i2c_addr_hi a)) 0) w) ->
  wp (i2c_set_addr_hi a cfg) Q w.
Proof using Hb.
  intros Hwf HQ. unfold i2c_set_addr_hi, i2c_flag in *. destruct (i2c_addr_16 a =? 0); cbn [negb].
  - by apply wp_ret.
  - unfold zynq_g_reg_write. apply wp_bind, wp_io_write; [exact Hb |]. apply wp_ret.
    assert (u32 (SET_BITS ZYNQ_I2C_ADDR_HI 0 (i2c_addr_hi a)) = i2c_addr_hi a) as ->; [| exact HQ].
    unfold i2c_wf, i2c_bytes in Hwf. rewrite !Forall_cons in Hwf. destruct Hwf as (_ & B2 & _).
    unfold SET_BITS. cbn [f_off f_mask ZYNQ_I2C_ADDR_HI]. rewrite Z.land_0_l, Z.lor_0_l, Z.shiftl_0_r.
    change ZYNQ_I2C_ADDR_HI_MASK with (Z.ones 8). rewrite Z.land_ones, Z.mod_small by lia.
    apply u32_small. lia.
Qed.

(** what a request may do, read or write *)
Inductive i2c_outcome (d : zynq_dev) (a : ioc_zynq_i2c_acc) (rd : bool) : Z -> list (addr * Z) -> Prop :=
| i2c_invalid err : ~ i2c_valid d a -> err = - EPERM \/ err = - EINVAL -> i2c_outcome d a rd err []
| i2c_busy : i2c_valid d a -> i2c_outcome d a rd (- EAGAIN) []
| i2c_issued err v : i2c_valid d a -> i2c_cmd a rd v -> err = 0 \/ err = - EFAULT \/ err = - EAGAIN ->
    i2c_outcome d a rd err (i2c_writes a v).

(** the part of both transfers from the first wait to the command *)
Lemma wp_i2c_issue {A} a (mk : Z -> Z) (k busy : Z -> M zynq_dev A) w
    (Q : A -> world zynq_dev -> Prop) rd :
  i2c_wf a -> i2c_valid (w_st w) a -> i2c_cmd a rd (mk (i2c_flag a)) ->
  (forall w' acs, accessed_only w w' acs -> i2c_waited a None acs -> wp (busy (- EAGAIN)) Q w') ->
  (forall w' v acs, i2c_waited a (Some v) acs ->
     accessed_only w w' (acs ++ wrs (i2c_writes a (mk (i2c_flag a)))) ->
     wp (k (i2c_control_regs !!! Z.to_nat (i2c_bus a))) Q w') ->
  wp (err ← zdev_i2c_check_busy a;
      if err =? - EAGAIN then busy err
      else
        ctrl_reg ← array_get i2c_control_regs (i2c_bus a);
        cfg_reg ← array_get i2c_config_regs (i2c_bus a);
        ctrl_val ← i2c_set_addr_hi a cfg_reg;
        zynq_g_reg_write ctrl_reg (mk ctrl_val);; k ctrl_reg) Q w.
Proof using Hb.
  intros Hwf Hv Hcmd Hbusy Hk. pose proof (i2c_bus_range _ _ Hwf Hv) as Hbus'.
  destruct (i2c_regs_lookup a Hbus') as [Hr Hc].
  apply wp_bind, wp_check_busy; [done |]. intros r acs w1 Hw1 Hp.
  destruct r as [v|]; [| by eapply Hbusy].
  assert (((if Z.land v ZYNQ_I2C_CMD_ERR =? 0 then 0 else - EFAULT) =? - EAGAIN) = false) as ->
    by (by destruct (_ =? 0)).
  apply wp_bind, wp_array_get. eexists. split; [exact Hr |].
  apply wp_bind, wp_array_get. eexists. split; [exact Hc |].
  apply wp_bind, wp_set_addr_hi; [done |].
  unfold zynq_g_reg_write. apply wp_bind, wp_io_write; [exact Hb |]. apply (Hk _ v acs Hp).
  rewrite (u32_small (mk _)) by apply Hcmd.
  unfold i2c_writes. destruct (i2c_addr_16 a =? 0); cbn [app].
  - exact (accessed_only_emit _ _ _ (MmioWrite _ _) 0 Hw1).
  - pose proof (accessed_only_emit _ _ _ (MmioWrite (BAR0, i2c_config_regs !!! Z.to_nat (i2c_bus a)) (i2c_addr_hi a)) 0 Hw1) as Hw2.
    pose proof (accessed_only_emit _ _ _ (MmioWrite (i2c_ctrl a) (mk (i2c_flag a))) 0 Hw2) as Hw3.
    by rewrite <- app_assoc in Hw3.
Qed.

(** both transfers, any request *)
Lemma wp_i2c_read_run (a : ioc_zynq_i2c_acc) (w : world zynq_dev)
    (Hwf : i2c_wf a) (Hlk : L_zdev_i2c ∉ w_held w) :
  wp (zdev_i2c_read a) (fun '(err, a') w' => exists acs,
    i2c_read_run (w_st w) a err a' acs /\ accessed_only w w' acs) w.
Proof using Hb.
  unfold zdev_i2c_read. apply wp_bind, wp_validate.
  2:{ intros Hv. assert (((if tst (zdev_hw_cap (w_st w)) ZYNQ_HW_CAP_I2C then - EINVAL else - EPERM) =? 0) = false)
        as -> by (by destruct (tst _ _)).
      apply wp_ret. exists []. split; [by constructor | apply accessed_only_refl]. }
  intros Hv. cbn [negb Z.eqb]. apply wp_bind, wp_spin_lock; [done |].
  set (w0 := World _ _ _).
  assert (Hout : forall acs w1, accessed_only w0 w1 acs ->
    w_held w1 = L_zdev_i2c :: w_held w /\
    accessed_only w (World (Ev (SpinUnlock L_zdev_i2c) 0 :: w_log w1) (w_held w) (w_st w1)) acs).
  { intros acs w1 (S1 & H1 & evs & Hl & Ha). split; [exact H1 |]. split; [exact S1 |]. split; [done |].
    exists (Ev (SpinUnlock L_zdev_i2c) 0 :: evs ++ [Ev (SpinLock L_zdev_i2c) 0]). split.
    - cbn. by rewrite Hl, <- app_assoc.
    - change (accesses (evs ++ [Ev (SpinLock L_zdev_i2c) 0]) = rev acs).
      rewrite accesses_app, Ha. apply app_nil_r. }
  assert (0 <= i2c_bus a < ZYNQ_I2C_BUS_NUM) as Hbus by (by apply i2c_bus_range with (w_st w)).
  pose proof (read_cmd_ok a Hwf (proj2 (proj2 Hv))) as Hcmd.
  eapply (wp_i2c_issue a (fun v => SET_BITS ZYNQ_I2C_ADDR (SET_BITS ZYNQ_I2C_ID
    (Z.lor v ZYNQ_I2C_CMD_READ) (i2c_id a)) (i2c_addr a)) (fun reg => _) (fun err => _) w0 _ true); try done.
  - intros w1 acs Hw1 Hp. destruct (Hout _ _ Hw1) as [H1 Hw]. apply wp_bind.
    eapply wp_spin_unlock; [exact H1 | done |].
    apply wp_ret. exists acs. split; [by apply read_busy | exact Hw].
  - intros w1 v acs Hp Hw1. apply wp_bind, wp_check_busy; [done |].
    intros r acs' w2 Hw2 Hp'. pose proof (accessed_only_trans _ _ _ _ _ Hw1 Hw2) as Hw3.
    rewrite <- app_assoc in Hw3. destruct (Hout _ _ Hw3) as [H3 Hw].
    destruct r as [v'|].
    2:{ cbn [negb Z.eqb]. apply wp_bind. eapply wp_spin_unlock; [exact H3 | done |]. apply wp_ret.
        eexists. split; [| exact Hw]. by apply (read_stuck _ _ v _ acs acs'). }
    destruct (Z.eqb_spec (Z.land v' ZYNQ_I2C_CMD_ERR) 0) as [E|E]; cbn [negb Z.eqb].
    2:{ apply wp_bind. eapply wp_spin_unlock; [exact H3 | done |]. apply wp_ret.
        eexists. split; [| exact Hw]. by apply (read_error _ _ v v' _ acs acs'). }
    unfold zynq_g_reg_read. apply wp_bind, wp_io_read; [exact Hb |]. intros x _.
    pose proof (accessed_only_emit _ _ _ (MmioRead (i2c_ctrl a)) x Hw3) as Hw4.
    change (option_list _) with [Rd (i2c_ctrl a) (u32 x)] in Hw4.
    rewrite <- !app_assoc in Hw4. destruct (Hout _ _ Hw4) as [H4 Hw'].
    apply wp_bind. eapply wp_spin_unlock; [exact H4 | done |]. apply wp_ret. eexists.
    split; [| exact Hw'].
    assert (u8 (GET_BITS ZYNQ_I2C_DATA (u32 x)) = Z.land (Z.shiftr (u32 x) 16) 0xFF) as ->.
    { unfold GET_BITS, u8. cbn [f_off f_mask ZYNQ_I2C_DATA]. unfold ZYNQ_I2C_DATA_OFFSET, ZYNQ_I2C_DATA_MASK.
      change 0xFF with (Z.ones 8). rewrite !Z.land_ones by lia. apply Z.mod_mod. lia. }
    by apply (read_done _ _ v v' _ _ acs acs').
Qed.

Lemma waited_writes a r acs : i2c_waited a r acs -> writes_of acs = [].
Proof using Type. apply polled_writes. Qed.

(** what the driver has of a read: its writes and a byte *)
Lemma wp_i2c_read (a : ioc_zynq_i2c_acc) (w : world zynq_dev)
    (Hwf : i2c_wf a) (Hlk : L_zdev_i2c ∉ w_held w) :
  wp (zdev_i2c_read a) (fun '(err, a') w' => exists ws data,
    i2c_outcome (w_st w) a true err ws /\ wrote w w' ws /\
    a' = (if err =? 0 then a<|i2c_data := data|> else a) /\ 0 <= data < 256) w.
Proof using Hb.
  eapply wp_mono; [by apply wp_i2c_read_run |]. intros [err a'] w' (acs & Hrun & Hw%accessed_only_wrote).
  exists (writes_of acs).
  destruct Hrun as [Hv|acs Hv Hp|v cmd acs acs' Hv Hp Hc Hp'|v v' cmd acs acs' Hv Hp Hc Hp' He|v v' x cmd acs acs' Hv Hp Hc Hp' He];
    rewrite ?writes_of_app, ?writes_of_wrs, ?(waited_writes _ _ _ Hp) in *;
    try (rewrite (waited_writes _ _ _ Hp') in *; cbn [app writes_of omap list_omap] in *; rewrite ?app_nil_r in *).
  - exists 0. split; [constructor; [done |]; destruct (tst _ _); auto |]. split; [done |].
    split; [by destruct (tst _ _) | lia].
  - exists 0. split; [by apply i2c_busy |]. split; [done |]. split; [done | lia].
  - exists 0. split; [apply i2c_issued; auto |]. split; [done |]. split; [done | lia].
  - exists 0. split; [apply i2c_issued; auto |]. split; [done |]. split; [done | lia].
  - eexists. split; [apply i2c_issued; auto |]. split; [done |]. split; [done |].
    change 0xFF with (Z.ones 8). rewrite Z.land_ones by lia. apply Z.mod_pos_bound. lia.
Qed.

Lemma wp_i2c_write (a : ioc_zynq_i2c_acc) (w : world zynq_dev)
    (Hwf : i2c_wf a) (Hlk : L_zdev_i2c ∉ w_held w) :
  wp (zdev_i2c_write a) (fun err w' => exists ws,
    i2c_outcome (w_st w) a false err ws /\ wrote w w' ws) w.
Proof using Hb.
  unfold zdev_i2c_write. apply wp_bind, wp_validate.
  2:{ intros Hv. assert (((if tst (zdev_hw_cap (w_st w)) ZYNQ_HW_CAP_I2C then - EINVAL else - EPERM) =? 0) = false)
        as E by (by destruct (tst _ _)).
      rewrite E. cbn [negb]. apply wp_ret. exists []. split; [| by split_and!].
      constructor; [done |]. destruct (tst _ _); auto. }
  intros Hv. cbn [negb Z.eqb]. apply wp_bind, wp_spin_lock; [done |].
  set (w0 := World _ _ _).
  assert (0 <= i2c_bus a < ZYNQ_I2C_BUS_NUM) as Hbus by (by apply i2c_bus_range with (w_st w)).
  eapply (wp_i2c_issue a (fun v => Z.land (SET_BITS ZYNQ_I2C_ADDR (SET_BITS ZYNQ_I2C_ID
    (SET_BITS ZYNQ_I2C_DATA v (i2c_data a)) (i2c_id a)) (i2c_addr a)) (Z.lnot ZYNQ_I2C_CMD_READ))
    (fun reg => _) (fun err => _) w0 _ false); try done.
  { apply write_cmd_ok; [done | apply Hv]. }
  - intros w1 acs (S1 & H1 & W1)%accessed_only_wrote Hp. rewrite (waited_writes _ _ _ Hp) in W1.
    apply wp_bind. eapply wp_spin_unlock; [by rewrite H1 | done |].
    apply wp_ret. exists []. split; [by apply i2c_busy | by split_and!].
  - intros w1 v acs Hp Hw1. apply wp_bind, wp_check_busy; [done |].
    intros r acs' w2 Hw2 Hp'.
    pose proof (accessed_only_wrote _ _ _ (accessed_only_trans _ _ _ _ _ Hw1 Hw2)) as (S2 & H2 & W2).
    rewrite !writes_of_app, writes_of_wrs, (waited_writes _ _ _ Hp), (waited_writes _ _ _ Hp'), app_nil_r in W2.
    apply wp_bind. eapply wp_spin_unlock; [by rewrite H2 | done |]. apply wp_ret. eexists.
    split; [apply i2c_issued; [done | apply write_cmd_ok; [done | apply Hv] |] | by split_and!].
    destruct r as [v'|]; [destruct (_ =? 0) |]; auto.
Qed.
End i2c_lemmas.

(** ** Properties *)
Section i2c_properties.
Context `{Env} `{ModParams}.


(** An I2C write, likewise: the data of the request is in the command word
    and the read flag is clear. *)
Theorem i2c_write_protocol (a : ioc_zynq_i2c_acc) (w : world zynq_dev)
    (Hb : zynq_bringup_param = false) (Hwf : i2c_wf a) (Hlk : L_zdev_i2c ∉ w_held w) :
  wp (zdev_i2c_write a) (fun err w' => exists ws,
    i2c_outcome (w_st w) a false err ws /\ wrote w w' ws) w.
Proof. by apply wp_i2c_write. Qed.
End i2c_properties.

(** ** Witnesses *)
Module I2cWitness.
#[local] Existing Instance env_zero.
#[local] Existing Instance params_default.
Definition world0 : world zynq_dev := World [] [] zdev_sample.
(** register 0x3012 of chip 0x5c on bus 1 *)
Definition acc0 : ioc_zynq_i2c_acc := I2cAcc ZYNQ_I2C_ID_JANUS 0x30 0x12 0x55 1 1.

Lemma acc0_wf : i2c_wf acc0.
Proof. unfold i2c_wf. cbn. repeat constructor; vm_compute; try discriminate; reflexivity. Qed.


Lemma i2c_write_protocol_witness :
  wp (zdev_i2c_write acc0) (fun err w' => exists ws,
    i2c_outcome zdev_sample acc0 false err ws /\ wrote world0 w' ws) world0.
Proof. apply (i2c_write_protocol acc0 world0); [reflexivity | exact acc0_wf | apply not_elem_of_nil]. Defined.
End I2cWitness.
