(* ===== verification/Fw.v ===== *)
(** * Firmware update ([basa_fwupdate.c])

    The host asks the ARM core of the FPGA for an upload, streams the image in
    blocks of 16 bytes through a FIFO, then asks it to program a flash. *)

From S2P Require Import Device CanMsg Chan CanChip CanTx.

(** ** Definitions *)

Definition ZYNQ_PS_DATA_1 : Z := 0x910.
Definition ZYNQ_PS_DATA_2 : Z := 0x914.
Definition ZYNQ_PS_DATA_3 : Z := 0x918.
Definition ZYNQ_PS_DATA_4 : Z := 0x91C.
Definition ZYNQ_PS_PIO_STATUS : Z := 0x930.
Definition ZYNQ_PS_PIO_TX_FULL : Z := Z.shiftl 1 2.
Definition ZYNQ_PS_PIO_TX_RETRIES : Z := 50.
Definition ZYNQ_PS_WAIT_GRANT_RETRIES : Z := 5000.
Definition ZYNQ_PS_WAIT_FWUPDATE_RETRIES : Z := 600.
Definition ZYNQ_FW_TIMEOUT : Z := 1000.
Definition ZYNQ_FW_TYPE_MMC : Z := 1.
Definition ZYNQ_FW_TYPE_QSPI : Z := 2.
Definition ZYNQ_FW_TYPE_SPI : Z := 3.

Section fw.
Context `{Env} `{ModParams}.

(** read until [test] holds; give up when [j++ > retries] *)
Definition fw_poll (read : M zynq_dev Z) (test : Z -> bool) (retries : Z) (delay : call)
  : M zynq_dev bool :=
  loop (Z.to_nat (Z.max 0 retries + 3)) (fun j =>
    v ← read;
    if test v then mret (inr true)
    else if retries <? j then mret (inr false)
    else tell delay;; mret (inl (j + 1))) 0.

Definition zynq_fw_upload_start : M zynq_dev Z :=
  val32 ← zynq_g_reg_read ZYNQ_G_CONFIG;
  if tst val32 ZYNQ_CONFIG_FW_UPLOAD then mret (- EBUSY)
  else
    (* clear the interrupt status *)
    zynq_g_reg_write ZYNQ_G_PS_INTR_STATUS
      (Z.lor ZYNQ_PS_INTR_FWUPLOAD_GRANT ZYNQ_PS_INTR_FWUPDATE_DONE);;
    (* request for uploading *)
    zynq_g_reg_write ZYNQ_G_CONFIG ZYNQ_CONFIG_FW_UPLOAD;;
    (* wait for 10ms then write the update magic number *)
    tell (Msleep 10);;
    zynq_g_reg_write ZYNQ_G_CONFIG ZYNQ_CONFIG_FW_UPLOAD_MAGIC;;
    (* wait for grant response from ARM OS *)
    granted ← fw_poll (zynq_g_reg_read ZYNQ_G_PS_INTR_STATUS)
      (fun v => tst v ZYNQ_PS_INTR_FWUPLOAD_GRANT) ZYNQ_PS_WAIT_GRANT_RETRIES (Udelay 200);
    if negb granted then mret (- EBUSY)
    else zynq_g_reg_write ZYNQ_G_CONFIG 0;; mret 0.

(** the command that programs a flash *)
Definition fw_enable_of (fw_type : Z) : option Z :=
  if fw_type =? ZYNQ_FW_TYPE_MMC then Some ZYNQ_CONFIG_FW_UPDATE_MMC
  else if fw_type =? ZYNQ_FW_TYPE_QSPI then Some ZYNQ_CONFIG_FW_UPDATE_QSPI
  else if fw_type =? ZYNQ_FW_TYPE_SPI then Some ZYNQ_CONFIG_FW_UPDATE_SPI
  else None.

Definition zynq_fw_update (fw_type time_to_wait : Z) : M zynq_dev Z :=
  (* make sure the uploading is fully done *)
  tell (Msleep 1);;
  match fw_enable_of fw_type with
  | None => mret (- EINVAL)
  | Some fw_enable =>
      val32 ← zynq_g_reg_read ZYNQ_G_CONFIG;
      if tst val32 fw_enable then mret (- EBUSY)
      else
        zynq_g_reg_write ZYNQ_G_PS_INTR_STATUS
          (Z.lor ZYNQ_PS_INTR_FWUPLOAD_GRANT ZYNQ_PS_INTR_FWUPDATE_DONE);;
        (* request for updating *)
        zynq_g_reg_write ZYNQ_G_CONFIG fw_enable;;
        (* wait for updating response from ARM OS *)
        finished ← fw_poll (zynq_g_reg_read ZYNQ_G_PS_INTR_STATUS)
          (fun v => tst v ZYNQ_PS_INTR_FWUPDATE_DONE) (s32 (time_to_wait * 5 * 2)) (Msleep 200);
        if negb finished then mret (- EBUSY)
        else zynq_g_reg_write ZYNQ_G_CONFIG 0;; mret 0
  end.

(** 16-byte data transfer from host to FPGA ARM OS; [fw_data] is what is left of
    the image buffer *)
Definition zynq_fw_tx_one (fw_data : list Z) (wait : bool) : M zynq_dev Z :=
  room ← (if wait then
            fw_poll (zynq_bar2_reg_read ZYNQ_PS_PIO_STATUS)
              (fun v => negb (tst v ZYNQ_PS_PIO_TX_FULL)) ZYNQ_PS_PIO_TX_RETRIES (Udelay 200)
          else
            v ← zynq_bar2_reg_read ZYNQ_PS_PIO_STATUS;
            mret (negb (tst v ZYNQ_PS_PIO_TX_FULL)));
  if negb room then mret (- ENOSPC)
  else
    w0 ← array_get fw_data 0; zynq_bar2_reg_write ZYNQ_PS_DATA_1 w0;;
    w1 ← array_get fw_data 1; zynq_bar2_reg_write ZYNQ_PS_DATA_2 w1;;
    w2 ← array_get fw_data 2; zynq_bar2_reg_write ZYNQ_PS_DATA_3 w2;;
    w3 ← array_get fw_data 3; zynq_bar2_reg_write ZYNQ_PS_DATA_4 w3;;
    modify (fun d => d<|zdev_fw_tx_cnt ::= fun n => u32 (n + 1)|>);;
    tell (Udelay 100);;
    mret 0.

(** send the blocks one by one till finished or timeout: result and count *)
Definition fw_send (fuel : nat) (ktime_end : Z) (fw_data : list Z) (tx_num : Z)
  : M zynq_dev (Z * Z) :=
  loop fuel (fun '(fw_data, tx_num, tx_num_done) =>
    if tx_num =? 0 then mret (inr (0, tx_num_done))
    else
      ret ← zynq_fw_tx_one fw_data false;
      if negb (ret =? 0) then
        (* checking timeout *)
        ktime_now ← ktime_get;
        if ktime_now <? ktime_end then tell (Msleep 1);; mret (inl (fw_data, tx_num, tx_num_done))
        else mret (inr (ret, tx_num_done))
      else mret (inl (drop 4 fw_data, s32 (tx_num - 1), s32 (tx_num_done + 1))))
    (fw_data, tx_num, 0).

(** error code and, when the sending ran, the number of blocks sent *)
Definition zynq_fw_tx_user (fuel : nat) (fw_data_p fw_num : Z) : M zynq_dev (Z * option Z) :=
  let tx_num := s32 fw_num in
  let size := u64 (s32 (tx_num * ZYNQ_FW_MSG_SZ)) in  (* the product wraps *)
  alloc ← ask (KAlloc size);
  if alloc =? 0 then mret (- ENOMEM, None)
  else
    data ← copy_from_user fw_data_p (Z.to_nat (size / 4));
    match data with
    | None => tell (KFree alloc);; mret (- EFAULT, None)
    | Some words =>
        now ← ktime_get;
        let ktime_end := s64 (now + 1000000 * ZYNQ_FW_TIMEOUT) in
        '(ret, tx_num_done) ← fw_send fuel ktime_end words tx_num;
        tell (KFree alloc);;
        mret (ret, Some tx_num_done)
    end.

(** words of [ioc_zynq_fw_upload_t]: the data pointer, the count, the count
    done, the result and padding *)
Definition fw_upload_words : nat := 6.
Definition off_fw_done : Z := 12.

Definition zynq_fw_ioctl (fuel : nat) (cmd arg : Z) : M zynq_dev Z :=
  if cmd =? ZYNQ_IOC_FW_IMAGE_UPLOAD_START then zynq_fw_upload_start
  else if cmd =? ZYNQ_IOC_FW_IMAGE_UPLOAD then
    data ← copy_from_user arg fw_upload_words;
    match data with
    | None => mret (- EFAULT)
    | Some l =>
        is_err ← ZDEV_IS_ERR;
        if (is_err : bool) then mret (- EIO)
        else
          '(err, done) ← zynq_fw_tx_user fuel
            (Z.lor (Z.shiftl (l !!! 1%nat) 32) (l !!! 0%nat)) (l !!! 2%nat);
          if negb (err =? 0) then mret err
          else
            ok ← copy_to_user (arg + off_fw_done) 8
                   [u32 (default (l !!! 3%nat) done); l !!! 4%nat];
            mret (if (ok : bool) then 0 else - EFAULT)
    end
  else if cmd =? ZYNQ_IOC_FW_QSPI_UPDATE then zynq_fw_update ZYNQ_FW_TYPE_QSPI (s32 arg)
  else if cmd =? ZYNQ_IOC_FW_MMC_UPDATE then zynq_fw_update ZYNQ_FW_TYPE_MMC (s32 arg)
  else if cmd =? ZYNQ_IOC_FW_SPI_UPDATE then zynq_fw_update ZYNQ_FW_TYPE_SPI (s32 arg)
  else if cmd =? ZYNQ_IOC_FW_GET_VER then
    d ← get;
    ok ← copy_to_user arg 4 [zdev_version d];
    mret (if (ok : bool) then 0 else - EFAULT)
  else mret (- EINVAL).

Definition zynq_fw_open : M zynq_dev Z :=
  d ← get;
  if negb (zdev_fw_opened d =? 0) then mret (- EBUSY)
  else modify (fun d => d<|zdev_fw_opened := 1|>);; mret 0.

Definition zynq_fw_release : M zynq_dev Z :=
  modify (fun d => d<|zdev_fw_opened := 0|>);; mret 0.
End fw.

(** ** Lemmas *)

(** the blocks of four words of an image, and those handed to the ARM core,
    newest first *)
Fixpoint fw_blocks (l : list Z) : list (list Z) :=
  match l with
  | a :: b :: c :: d :: l' => [a; b; c; d] :: fw_blocks l'
  | _ => []
  end.

Definition fw_frames (l : list event) : list (list Z) :=
  fifo_frames (BAR2, 0) ZYNQ_PS_DATA_1 ZYNQ_PS_DATA_2 ZYNQ_PS_DATA_3 ZYNQ_PS_DATA_4 (mmio_writes l).

(** one-millisecond sleeps of a history, and a clock that advances with them *)
Definition naps (l : list event) : Z :=
  Z.of_nat (length (filter (fun e => is_true
    (match ev_call e with Msleep _ => true | _ => false end)) l)).
Definition nap_clock_ok `{Env} (l0 : list event) : Prop :=
  forall e1 e2,
    Z.min (2 ^ 63 - 1) (s64 (env_ret (e1 ++ l0) KtimeGet) + 1000000 * naps e2)
      <= s64 (env_ret (e2 ++ e1 ++ l0) KtimeGet).

Lemma naps_app l1 l2 : naps (l1 ++ l2) = naps l1 + naps l2.
Proof. unfold naps. rewrite filter_app, length_app. lia. Qed.

Lemma naps_nonneg l : 0 <= naps l.
Proof. unfold naps. lia. Qed.

Lemma fw_frames_calm evs l : Forall calm evs -> fw_frames (evs ++ l) = fw_frames l.
Proof. intros Hc. unfold fw_frames. by rewrite mmio_writes_app, calm_writes. Qed.

Lemma length_fw_blocks n l : length l = (4 * n)%nat -> length (fw_blocks l) = n.
Proof.
  revert l. induction n as [|n IH]; intros l Hl.
  - by destruct l.
  - do 4 (destruct l as [|? l]; [cbn in Hl; lia |]). cbn. f_equal. apply IH. cbn in Hl. lia.
Qed.

(** ** Specification of the upload *)

Definition fw_stat : addr := (BAR2, ZYNQ_PS_PIO_STATUS).
(** the four writes that put a block in the FIFO *)
Definition block_writes (blk : list Z) : list access :=
  zip_with (fun reg v => Wr (BAR2, reg) v)
    [ZYNQ_PS_DATA_1; ZYNQ_PS_DATA_2; ZYNQ_PS_DATA_3; ZYNQ_PS_DATA_4] blk.

(** the accesses of an upload of [blks], in order, for a result and a number of blocks
    sent: each block goes out after a read of the status that shows room, a read that
    shows the FIFO full is repeated, and -ENOSPC comes after such a read only *)
Inductive fw_run : list (list Z) -> Z -> nat -> list access -> Prop :=
| fw_finished : fw_run [] 0 0 []
| fw_block v blk blks ret k acs :
    Z.land v ZYNQ_PS_PIO_TX_FULL = 0 -> fw_run blks ret k acs ->
    fw_run (blk :: blks) ret (S k) (Rd fw_stat v :: block_writes blk ++ acs)
| fw_full v blk blks ret k acs :
    Z.land v ZYNQ_PS_PIO_TX_FULL <> 0 -> fw_run (blk :: blks) ret k acs ->
    fw_run (blk :: blks) ret k (Rd fw_stat v :: acs)
| fw_timeout v blk blks :
    Z.land v ZYNQ_PS_PIO_TX_FULL <> 0 -> fw_run (blk :: blks) (- ENOSPC) 0 [Rd fw_stat v].

Lemma fw_run_result blks ret k acs :
  fw_run blks ret k acs -> ret = 0 /\ k = length blks \/ ret = - ENOSPC /\ (k < length blks)%nat.
Proof.
  induction 1 as [|v blk blks ret k acs _ _ IH|v blk blks ret k acs _ _ IH|v blk blks _]; cbn in *.
  - by left.
  - destruct IH as [[-> ->]|[-> ?]]; [by left | right]. split; [done | lia].
  - exact IH.
  - right. split; [done | lia].
Qed.

Section fw_lemmas.
Context `{Env} `{ModParams}.
Hypothesis Hb : zynq_bringup_param = false.
Implicit Types w : world zynq_dev.

(** one block: sent whole, or not at all when the FIFO is full *)
Lemma wp_fw_tx_one a b c d rest w (Q : Z -> world zynq_dev -> Prop) :
  Forall is_u32 [a; b; c; d] ->
  (forall r, Z.land (u32 r) ZYNQ_PS_PIO_TX_FULL <> 0 -> Q (- ENOSPC) (emit (Ev (MmioRead fw_stat) r) w)) ->
  (forall w' evs r, Z.land (u32 r) ZYNQ_PS_PIO_TX_FULL = 0 -> w_log w' = evs ++ w_log w -> w_held w' = w_held w ->
     accesses evs = rev (Rd fw_stat (u32 r) :: block_writes [a; b; c; d]) -> naps evs = 0 ->
     fw_frames (w_log w') = [a; b; c; d] :: fw_frames (w_log w) -> Q 0 w') ->
  wp (zynq_fw_tx_one (a :: b :: c :: d :: rest) false) Q w.
Proof using Hb.
  intros Hu Hfull Hsent. unfold zynq_fw_tx_one, zynq_bar2_reg_read, zynq_bar2_reg_write.
  rewrite !Forall_cons in Hu. destruct Hu as (U1 & U2 & U3 & U4 & _).
  apply wp_bind, wp_bind, wp_io_read; [exact Hb |]. intros r _. apply wp_ret. unfold tst.
  destruct (Z.eqb_spec (Z.land (u32 r) ZYNQ_PS_PIO_TX_FULL) 0) as [E|E]; cbn [negb];
    [| by apply wp_ret, Hfull].
  apply wp_bind, wp_array_get. exists a. split; [done |].
  apply wp_bind, wp_io_write; [exact Hb |].
  apply wp_bind, wp_array_get. exists b. split; [done |].
  apply wp_bind, wp_io_write; [exact Hb |].
  apply wp_bind, wp_array_get. exists c. split; [done |].
  apply wp_bind, wp_io_write; [exact Hb |].
  apply wp_bind, wp_array_get. exists d. split; [done |].
  apply wp_bind, wp_io_write; [exact Hb |].
  apply wp_bind, wp_modify. apply wp_bind, wp_tell. apply wp_ret.
  eapply (Hsent _ [_; _; _; _; _; _] r E); [reflexivity | reflexivity | | reflexivity |].
  - cbn. by rewrite !u32_small by done.
  - cbn [w_log w_held w_st emit]. rewrite !u32_small by done. unfold fw_frames.
    apply (fifo_frames_push (BAR2, 0) ZYNQ_PS_DATA_1 ZYNQ_PS_DATA_2 ZYNQ_PS_DATA_3 ZYNQ_PS_DATA_4
      ltac:(discriminate) ltac:(discriminate) ltac:(discriminate) (BcanMsg a b c d 0 0)).
Qed.

Section sending.
Context (t0 ktime_end : Z) (l0 : list event).
Hypothesis Hend : ktime_end <= t0 + 1000000 * ZYNQ_FW_TIMEOUT.
Hypothesis Hmax : ktime_end <= 2 ^ 63 - 1.
Hypothesis Hclock : forall evs,
  Z.min (2 ^ 63 - 1) (t0 + 1000000 * naps evs) <= s64 (env_ret (evs ++ l0) KtimeGet).

(** milliseconds left before the timeout, one more than the naps still possible *)
Definition nap_left (l : list event) : Z :=
  (ktime_end - t0 - 1000000 * (naps l - naps l0)) / 1000000 + 1.

Lemma nap_left_app e l : nap_left (e ++ l) = nap_left l - naps e.
Proof.
  unfold nap_left. rewrite naps_app.
  replace (ktime_end - t0 - 1000000 * (naps e + naps l - naps l0))
    with (ktime_end - t0 - 1000000 * (naps l - naps l0) + (- naps e) * 1000000) by lia.
  rewrite Z.div_add by lia. lia.
Qed.

Lemma nap_left_start : nap_left l0 <= 1001.
Proof using Hend.
  unfold nap_left. rewrite Z.sub_diag. unfold ZYNQ_FW_TIMEOUT in Hend.
  pose proof (Z.div_le_mono (ktime_end - t0 - 1000000 * 0) (1000 * 1000000) 1000000).
  rewrite Z.div_mul in * by lia. lia.
Qed.

Lemma nap_left_running e :
  s64 (env_ret (e ++ l0) KtimeGet) < ktime_end -> 1 <= nap_left (e ++ l0).
Proof using Hmax Hclock.
  intros Hlt. specialize (Hclock e). unfold nap_left. rewrite naps_app.
  enough (0 <= (ktime_end - t0 - 1000000 * (naps e + naps l0 - naps l0)) / 1000000) by lia.
  apply Z.div_pos; lia.
Qed.

(** what the loop keeps: [k] blocks are out after the events [e], and what comes next
    continues the run *)
Definition fw_sending (words : list Z) (n : nat) (held : list lock) '(data, num, done) (v : world zynq_dev) : Prop :=
  exists k e acs, (k <= n)%nat /\ length data = (4 * (n - k))%nat /\
    Forall is_u32 data /\ fw_blocks data = drop k (fw_blocks words) /\
    num = Z.of_nat (n - k) /\ done = Z.of_nat k /\ w_log v = e ++ l0 /\ w_held v = held /\
    fw_frames (w_log v) = rev (take k (fw_blocks words)) ++ fw_frames l0 /\
    accesses e = rev acs /\ (naps e = 0 \/ 0 <= nap_left (w_log v)) /\
    forall ret j acs', fw_run (drop k (fw_blocks words)) ret j acs' ->
      fw_run (fw_blocks words) ret (k + j) (acs ++ acs').

(** sending: a prefix of the image, in order, all of it exactly when the result
    is 0; at most one attempt per block and one per millisecond of the timeout *)
Lemma wp_fw_send fuel words n w (Q : Z * Z -> world zynq_dev -> Prop) :
  (n + 1003 <= fuel)%nat -> Z.of_nat n < 2 ^ 31 ->
  Forall is_u32 words -> length words = (4 * n)%nat -> w_log w = l0 ->
  (forall ret k w' e acs,
     w_held w' = w_held w -> w_log w' = e ++ l0 -> accesses e = rev acs -> naps e <= 1001 ->
     fw_run (fw_blocks words) ret k acs ->
     (ret <> 0 -> exists t l, e = Ev KtimeGet t :: l /\ ktime_end <= s64 t) ->
     fw_frames (w_log w') = rev (take k (fw_blocks words)) ++ fw_frames l0 ->
     Q (ret, Z.of_nat k) w') ->
  wp (fw_send fuel ktime_end words (Z.of_nat n)) Q w.
Proof using Hb Hend Hmax Hclock.
  intros Hfuel Hn Hu Hlen Hl0 HQ. unfold fw_send. pose proof nap_left_start as Hstart.
  assert (Hnaps : forall e l, l = e ++ l0 -> naps e = 0 \/ 0 <= nap_left l -> naps e <= 1001).
  { intros e l -> [?|Hnl]; [lia |]. rewrite nap_left_app in Hnl. lia. }
  apply (wp_loop (fw_sending words n (w_held w))
    (fun '(_, num, _) v => Z.to_nat num + Z.to_nat (nap_left (w_log v)))%nat).
  - exists 0%nat, [], []. rewrite Nat.sub_0_r. split_and!; try done; [lia | by rewrite Hl0 | by left].
  - rewrite Hl0. lia.
  - intros [[data num] done] v (k & e & acs & Hk & Hd & Hud & Hbl & -> & -> & He & Hh & Hf & Ha & Hnl & Hrun).
    destruct (Z.eqb_spec (Z.of_nat (n - k)) 0) as [E|E].
    { apply wp_ret, (HQ _ _ _ e acs); try done; [by eapply Hnaps |].
      rewrite <- (Nat.add_0_r k), <- (app_nil_r acs). apply Hrun.
      rewrite drop_ge by (rewrite (length_fw_blocks n) by done; lia). constructor. }
    do 4 (destruct data as [|? data]; [cbn in Hd; lia |]).
    rewrite !Forall_cons in Hud. destruct Hud as (U1 & U2 & U3 & U4 & Hud).
    cbn [fw_blocks] in Hbl. rewrite <- Hbl in Hrun.
    apply wp_bind, wp_fw_tx_one; [by rewrite !Forall_cons | |].
    + intros r Hr. change (negb (- ENOSPC =? 0)) with true. cbv iota.
      unfold ktime_get. apply wp_bind, wp_bind, wp_ask. intros t Ht. apply wp_ret.
      assert (Hf2 : forall evs, Forall calm evs ->
        fw_frames (evs ++ w_log v) = rev (take k (fw_blocks words)) ++ fw_frames l0).
      { intros evs Hc. by rewrite fw_frames_calm. }
      destruct (Z.ltb_spec (s64 t) ktime_end) as [Hlt|Hge].
      * apply wp_bind, wp_tell, wp_ret. cbn [w_log w_held emit].
        change (Ev ?a ?b :: Ev ?c ?d :: Ev ?g ?h :: w_log v) with ([Ev a b; Ev c d; Ev g h] ++ w_log v).
        assert (1 <= nap_left (w_log v)) as H1.
        { rewrite Ht in Hlt. cbn [w_log emit] in Hlt. rewrite He in Hlt.
          change (_ :: e ++ l0) with ((Ev (MmioRead fw_stat) r :: e) ++ l0) in Hlt.
          pose proof (nap_left_running _ Hlt) as H1. rewrite nap_left_app in H1.
          change (naps (_ :: e)) with (naps e) in H1. by rewrite He, nap_left_app. }
        split.
        { exists k, ([Ev (Msleep 1) 0; Ev KtimeGet t; Ev (MmioRead fw_stat) r] ++ e), (acs ++ [Rd fw_stat (u32 r)]).
          split_and!; try done; [by rewrite !Forall_cons | by cbn; rewrite He | | |].
          - rewrite accesses_app, Ha, rev_app_distr. done.
          - right. change (w_log (emit ?x (emit ?y (emit ?z v)))) with ([x; y; z] ++ w_log v).
            rewrite nap_left_app. change (naps [_; _; _]) with 1. lia.
          - intros ret j acs' Hj. rewrite <- Hbl in Hj. rewrite <- app_assoc. apply Hrun. by constructor. }
        rewrite nap_left_app. change (naps [_; _; _]) with 1. lia.
      * change (w_log (emit ?x (emit ?y v))) with ([x; y] ++ w_log v).
        apply wp_ret, (HQ _ _ _ ([Ev KtimeGet t; Ev (MmioRead fw_stat) r] ++ e) (acs ++ [Rd fw_stat (u32 r)])).
        -- exact Hh.
        -- cbn. by rewrite He.
        -- rewrite accesses_app, Ha, rev_app_distr. done.
        -- change (naps (_ ++ e)) with (naps e). by eapply Hnaps.
        -- rewrite <- (Nat.add_0_r k). apply Hrun. by constructor.
        -- intros _. by eexists _, _.
        -- apply (Hf2 [_; _]). by repeat constructor.
    + intros v1 e1 r Hr Hl1 Hh1 Ha1 Hn1 Hf1. change (negb (0 =? 0)) with false. cbv iota. apply wp_ret.
      assert (Hb' : fw_blocks words !! k = Some [z; z0; z1; z2])
        by (rewrite <- (Nat.add_0_r k), <- lookup_drop, <- Hbl; done).
      assert (Hbl' : fw_blocks data = drop (S k) (fw_blocks words))
        by (rewrite (drop_S _ _ _ Hb') in Hbl; by injection Hbl).
      rewrite !s32_small by lia. split.
      * exists (S k), (e1 ++ e), (acs ++ Rd fw_stat (u32 r) :: block_writes [z; z0; z1; z2]).
        split_and!; try done; [lia | rewrite length_drop; cbn [length] in Hd |- *; lia | lia | lia |
          by rewrite Hl1, He, app_assoc | congruence | | | |].
        -- rewrite Hf1, Hf, (take_S_r _ _ _ Hb'), rev_app_distr. done.
        -- rewrite accesses_app, Ha, Ha1, rev_app_distr. done.
        -- rewrite naps_app, Hn1. destruct Hnl as [->|Hnl]; [by left | right]. rewrite Hl1, nap_left_app. lia.
        -- intros ret j acs' Hj. rewrite <- app_assoc, Nat.add_succ_comm. apply Hrun. rewrite Hbl'.
           cbn [app]. by constructor.
      * rewrite Hl1, nap_left_app. pose proof (naps_nonneg e1). lia.
Qed.
End sending.

(** an event that reads a word of user memory *)
Definition reads_word (e : event) : Prop := exists src i, ev_call e = UserWord src i.

Lemma reads_word_calm e : reads_word e -> calm e.
Proof. intros (src & i & Hc). unfold calm. by rewrite Hc. Qed.

Lemma reads_word_quiet evs :
  Forall reads_word evs -> accesses evs = [] /\ naps evs = 0 /\ Forall (fun e => ev_call e <> KtimeGet) evs.
Proof.
  induction 1 as [|[c r] l (src & i & Hc) _ (IH1 & IH2 & IH3)]; [done |]. cbn in Hc. subst c.
  split; [exact IH1 |]. split; [exact IH2 |]. by constructor.
Qed.

(** stable user memory is read as it is *)
Lemma wp_user_words_stable l0 src mem i n w (Q : list Z -> world zynq_dev -> Prop) :
  user_stable l0 src mem -> (exists e, w_log w = e ++ l0) ->
  (forall w' evs, w_st w' = w_st w -> w_held w' = w_held w -> w_log w' = evs ++ w_log w ->
     Forall reads_word evs -> Q (map mem (seq i n)) w') ->
  wp (user_words src i n) Q w.
Proof using Type.
  intros Hmem. revert i w Q. induction n as [|n IH]; intros i w Q [e He] HQ; cbn [user_words].
  - by apply wp_ret, (HQ _ []).
  - apply wp_bind, wp_ask. intros r Hr.
    assert (u32 r = mem i) as Hri by (rewrite Hr, He; apply Hmem).
    apply wp_bind, IH; [eexists (_ :: e); cbn; by rewrite He |].
    intros w' evs Hs Hh Hl Hev. apply wp_ret. rewrite Nat.add_1_r, Hri.
    apply (HQ _ (evs ++ [Ev (UserWord src i) r])); [done | done | by rewrite Hl, <- app_assoc |].
    apply Forall_app. split; [done |]. constructor; [by eexists _, _ | constructor].
Qed.

(** polling looks only; it ends when the test holds on the last value read, or
    after [retries + 2] values *)
Lemma wp_fw_poll a test retries delay w (Q : bool -> world zynq_dev -> Prop) :
  calm (Ev delay 0) -> naps [Ev delay 0] <= 1 ->
  (forall b w' evs, calmly w w' -> w_log w' = evs ++ w_log w ->
     naps evs <= Z.max 0 (retries + 1) ->
     (b = true -> exists v l, w_log w' = Ev (MmioRead a) v :: l /\ test (u32 v) = true) ->
     Q b w') ->
  wp (fw_poll (io_read a) test retries delay) Q w.
Proof using Hb.
  intros Hd Hn HQ. unfold fw_poll.
  apply (wp_loop (fun j v => exists evs, 0 <= j <= Z.max 0 (retries + 1) /\ calmly w v /\
      w_log v = evs ++ w_log w /\ naps evs <= j)
    (fun j _ => Z.to_nat (Z.max 0 (retries + 1) + 1 - j))).
  - exists []. split; [lia |]. split; [by apply calmly_refl |]. by split.
  - lia.
  - intros j v (evs & Hj & Hc & Hl & He).
    apply wp_bind, wp_io_read; [exact Hb |]. intros r _.
    assert (Hc' : calmly w (emit (Ev (MmioRead a) r) v))
      by (eapply calmly_trans; [exact Hc | by apply calmly_emit]).
    assert (He' : naps (Ev (MmioRead a) r :: evs) <= j) by exact He.
    assert (Hl' : Ev (MmioRead a) r :: w_log v = (Ev (MmioRead a) r :: evs) ++ w_log w)
      by (cbn; by rewrite Hl).
    destruct (test (u32 r)) eqn:Et.
    { apply wp_ret. eapply HQ; [done | exact Hl' | lia |]. intros _. by exists r, (w_log v). }
    destruct (Z.ltb_spec retries j).
    { apply wp_ret. eapply HQ; [done | exact Hl' | lia | done]. }
    apply wp_bind, wp_tell, wp_ret. split; [| lia].
    exists (Ev delay 0 :: Ev (MmioRead a) r :: evs). split; [lia |].
    split; [eapply calmly_trans; [exact Hc' | by apply calmly_emit] |].
    split; [cbn; by rewrite Hl |].
    change (_ :: _ :: evs) with ([Ev delay 0] ++ Ev (MmioRead a) r :: evs). rewrite naps_app. lia.
Qed.

(** the registers of the handshake, and what a request writes before it waits *)
Definition fw_cfg : addr := (BAR0, ZYNQ_G_CONFIG).
Definition fw_status : addr := (BAR0, ZYNQ_G_PS_INTR_STATUS).
Definition fw_ack : addr * Z :=
  (fw_status, Z.lor ZYNQ_PS_INTR_FWUPLOAD_GRANT ZYNQ_PS_INTR_FWUPDATE_DONE).

(** what a handshake with the ARM core may do: [req] is what it writes, [bit]
    the answer it waits for *)
Inductive fw_handshake (req : list (addr * Z)) (bit : Z) (l : list event) : Z -> list (addr * Z) -> Prop :=
| fw_pending : fw_handshake req bit l (- EBUSY) []
| fw_no_answer : fw_handshake req bit l (- EBUSY) (fw_ack :: req)
| fw_answered e v l' :
    l = e :: Ev (MmioRead fw_status) v :: l' -> tst (u32 v) bit = true ->
    fw_handshake req bit l 0 (fw_ack :: req ++ [(fw_cfg, 0)]).

(** Handshakes with the ARM core.  Starting an upload and programming a
    flash return whatever the device answers, after a bounded wait; they leave
    the device alone when a request is pending ([-EBUSY]) or the flash is
    unknown ([-EINVAL]); otherwise they clear the two status bits, write the
    request (for an upload the request then the magic), wait for the answer,
    and only after reading it clear the request and return 0. *)
Theorem fw_handshakes (w : world zynq_dev) (fw_type time_to_wait : Z) :
  wp zynq_fw_upload_start (fun ret w' => exists ws, wrote w w' ws /\
    fw_handshake [(fw_cfg, ZYNQ_CONFIG_FW_UPLOAD); (fw_cfg, ZYNQ_CONFIG_FW_UPLOAD_MAGIC)]
      ZYNQ_PS_INTR_FWUPLOAD_GRANT (w_log w') ret ws) w /\
  wp (zynq_fw_update fw_type time_to_wait) (fun ret w' => exists ws, wrote w w' ws /\
    match fw_enable_of fw_type with
    | None => ret = - EINVAL /\ ws = []
    | Some en => fw_handshake [(fw_cfg, en)] ZYNQ_PS_INTR_FWUPDATE_DONE (w_log w') ret ws
    end) w.
Proof using Hb.
  split.
  - unfold zynq_fw_upload_start, zynq_g_reg_read, zynq_g_reg_write.
    apply wp_bind, wp_io_read; [exact Hb |]. intros v _.
    pose proof (wrote_emit _ _ _ (Ev (MmioRead fw_cfg) v) (wrote_refl w) I) as W0.
    destruct (tst (u32 v) ZYNQ_CONFIG_FW_UPLOAD).
    { apply wp_ret. exists []. split; [exact W0 | constructor]. }
    apply wp_bind, wp_io_write; [exact Hb |]. apply wp_bind, wp_io_write; [exact Hb |].
    apply wp_bind, wp_tell. apply wp_bind, wp_io_write; [exact Hb |].
    apply wp_bind, wp_fw_poll; [done | done |]. intros b w' evs Hc _ _ Hans.
    eassert (W1 : wrote w w' _).
    { eapply wrote_calmly; [| exact Hc]. apply wrote_write, wrote_emit; [| done].
      apply wrote_write, wrote_write. exact W0. }
    destruct b; cbn [negb].
    + apply wp_bind, wp_io_write; [exact Hb |]. apply wp_ret. eexists.
      split; [apply wrote_write, W1 |].
      destruct (Hans eq_refl) as (x & l & Hl & Hx). eapply fw_answered; [cbn; by rewrite Hl | exact Hx].
    + apply wp_ret. eexists. split; [exact W1 |]. apply fw_no_answer.
  - unfold zynq_fw_update, zynq_g_reg_read, zynq_g_reg_write. apply wp_bind, wp_tell.
    pose proof (wrote_emit _ _ _ (Ev (Msleep 1) 0) (wrote_refl w) I) as Wm.
    assert (Hen : forall en, fw_enable_of fw_type = Some en -> is_u32 en).
    { unfold fw_enable_of. intros en. destruct (_ =? _); [by intros [= <-] |].
      destruct (_ =? _); [by intros [= <-] |]. destruct (_ =? _); [by intros [= <-] | done]. }
    destruct (fw_enable_of fw_type) as [en|]; [| apply wp_ret; exists []; by split_and!].
    specialize (Hen en eq_refl).
    apply wp_bind, wp_io_read; [exact Hb |]. intros v _.
    pose proof (wrote_emit _ _ _ (Ev (MmioRead fw_cfg) v) Wm I) as W0.
    destruct (tst (u32 v) en).
    { apply wp_ret. exists []. split; [exact W0 | constructor]. }
    apply wp_bind, wp_io_write; [exact Hb |]. apply wp_bind, wp_io_write; [exact Hb |].
    rewrite (u32_small en Hen).
    apply wp_bind, wp_fw_poll; [done | done |]. intros b w' evs Hc _ _ Hans.
    eassert (W1 : wrote w w' _).
    { eapply wrote_calmly; [| exact Hc]. apply wrote_write, wrote_write. exact W0. }
    destruct b; cbn [negb].
    + apply wp_bind, wp_io_write; [exact Hb |]. apply wp_ret. eexists.
      split; [apply wrote_write, W1 |].
      destruct (Hans eq_refl) as (x & l & Hl & Hx). eapply fw_answered; [cbn; by rewrite Hl | exact Hx].
    + apply wp_ret. eexists. split; [exact W1 |]. apply fw_no_answer.
Qed.

(** C19: firmware upload.  Whatever the device answers, [zynq_fw_tx_user]
    returns: -ENOMEM exactly when there is no buffer, before anything is read;
    -EFAULT, the buffer freed, when the image cannot be copied in, with no count
    reported and no access of the device in both cases; otherwise a count [k]
    and the accesses of [fw_run]: the blocks of 16 bytes of the user's image go
    to the ARM core in order, each once, by its four writes after a read of the
    status that shows room, a read that shows the FIFO full is repeated after
    one millisecond, 0 is returned when the whole image is out, and -ENOSPC with
    the blocks before the one refused, after a clock value at or past one second
    from the value read at the start.  There are at most 1001 such sleeps. *)
Theorem fw_upload_in_order (w : world zynq_dev) (fuel : nat) (src num : Z) (mem : nat -> Z) :
  let image := map mem (seq 0 (4 * Z.to_nat num)) in
  forall (Hnum : 0 <= num < 2 ^ 27) (Hmem : user_stable (w_log w) src mem)
    (Hclock : nap_clock_ok (w_log w)) (Hfuel : num + 1003 <= Z.of_nat fuel),
  wp (zynq_fw_tx_user fuel src num) (fun '(ret, done) w' =>
    w_held w' = w_held w /\ length (fw_blocks image) = Z.to_nat num /\
    match done with
    | None =>
        ret = - ENOMEM /\ w_log w' = Ev (KAlloc (16 * num)) 0 :: w_log w \/
        ret = - EFAULT /\ exists p left, p <> 0 /\ left <> 0 /\
          w_log w' = [Ev (KFree p) 0; Ev (CopyFromUser src (16 * num)) left; Ev (KAlloc (16 * num)) p] ++ w_log w
    | Some k =>
        (ret = 0 /\ k = num \/ ret = - ENOSPC /\ 0 <= k < num) /\
        fw_frames (w_log w') = rev (take (Z.to_nat k) (fw_blocks image)) ++ fw_frames (w_log w) /\
        exists acs, accessed w w' acs /\ fw_run (fw_blocks image) ret (Z.to_nat k) acs /\
          exists p first t0 rest,
            w_log w' = Ev (KFree p) 0 :: rest ++ Ev KtimeGet t0 :: first ++ w_log w /\ p <> 0 /\
            Forall (fun e => ev_call e <> KtimeGet) first /\ naps (rest ++ first) <= 1001 /\
            (ret <> 0 -> exists t1 l, rest = Ev KtimeGet t1 :: l /\
               s64 (s64 t0 + 10 ^ 9) <= s64 t1)
    end) w.
Proof using Hb.
  intros image Hnum Hmem Hclock Hfuel.
  assert (Hlen : length image = (4 * Z.to_nat num)%nat)
    by (unfold image; by rewrite length_map, length_seq).
  assert (Hu : Forall is_u32 image).
  { apply Forall_forall. intros x [i [-> _]]%list_elem_of_fmap.
    rewrite <- (Hmem [] i). apply u32_range. }
  pose proof (length_fw_blocks _ _ Hlen) as Hblk.
  unfold zynq_fw_tx_user. change ZYNQ_FW_MSG_SZ with 16. rewrite (s32_small num), s32_small by lia.
  rewrite u64_small by lia. cbv zeta. rewrite (Z.mul_comm num 16).
  replace (16 * num / 4) with (num * 4) by (replace (16 * num) with (num * 4 * 4) by lia; by rewrite Z.div_mul).
  apply wp_bind, wp_ask. intros alloc _.
  destruct (Z.eqb_spec alloc 0) as [->|Halloc].
  { apply wp_ret. split; [done |]. split; [done |]. by left. }
  unfold copy_from_user. replace (4 * Z.of_nat (Z.to_nat (num * 4))) with (16 * num) by lia.
  apply wp_bind, wp_bind, wp_ask. intros left _.
  destruct (Z.eqb_spec left 0) as [->|Hleft].
  2:{ apply wp_ret, wp_bind, wp_tell, wp_ret. split; [done |]. split; [done |]. right.
      split; [done |]. by exists alloc, left. }
  apply wp_fmap, (wp_user_words_stable (w_log w) _ mem); [done | by eexists [_; _] |].
  intros w1 e1 _ Hh1 Hl1 Hr1. destruct (reads_word_quiet _ Hr1) as (Ha1 & Hn1 & Hk1).
  replace (Z.to_nat (num * 4)) with (4 * Z.to_nat num)%nat by lia. fold image.
  unfold ktime_get. apply wp_bind, wp_bind, wp_ask. intros t Ht. apply wp_ret.
  set (w2 := emit (Ev KtimeGet t) w1).
  set (first := e1 ++ [Ev (CopyFromUser src (16 * num)) 0; Ev (KAlloc (16 * num)) alloc]).
  assert (Hl2 : w_log w2 = Ev KtimeGet t :: first ++ w_log w)
    by (unfold w2, first; cbn; by rewrite Hl1, <- app_assoc).
  assert (Hf2 : fw_frames (w_log w2) = fw_frames (w_log w)).
  { rewrite Hl2. apply (fw_frames_calm (Ev KtimeGet t :: first)). constructor; [done |].
    apply Forall_app. split; [| by repeat constructor].
    eapply Forall_impl; [exact Hr1 | apply reads_word_calm]. }
  assert (Ht64 : - 2 ^ 63 <= s64 t) by (unfold s64; pose proof (Z.mod_pos_bound (t + 2 ^ 63) (2 ^ 64)); lia).
  pose proof (s64_upper (s64 t + 1000000 * ZYNQ_FW_TIMEOUT) ltac:(unfold ZYNQ_FW_TIMEOUT; lia)) as [S1 S2].
  rewrite <- (Z2Nat.id num) at 1 by lia.
  apply wp_bind, (wp_fw_send (s64 t) _ (w_log w2)); try done.
  - intros evs. rewrite Hl2. pose proof (Hclock first (evs ++ [Ev KtimeGet t])) as Hc.
    rewrite naps_app, <- app_assoc in Hc. change (naps [_]) with 0 in Hc. rewrite Z.add_0_r in Hc.
    assert (w_log w1 = first ++ w_log w) as Hl1' by (unfold first; rewrite Hl1, <- app_assoc; done).
    rewrite <- Hl1', <- Ht, Hl1' in Hc. exact Hc.
  - lia.
  - lia.
  - intros ret k w' e acs Hh He Hacs Hnaps Hrun Hend Hf. apply wp_bind, wp_tell, wp_ret.
    pose proof (fw_run_result _ _ _ _ Hrun) as Hcase. rewrite Hblk in Hcase.
    split; [cbn; rewrite Hh; exact Hh1 |]. split; [done |]. rewrite Nat2Z.id.
    split; [destruct Hcase as [[-> ->]|[-> Hk]]; [left | right]; split; try done; lia |].
    split; [rewrite <- Hf2, <- Hf; by apply (fw_frames_calm [_]); repeat constructor |].
    assert (Hl' : w_log (emit (Ev (KFree alloc) 0) w') = Ev (KFree alloc) 0 :: e ++ Ev KtimeGet t :: first ++ w_log w)
      by (cbn; by rewrite He, Hl2).
    exists acs. split; [| split; [exact Hrun |]].
    { exists (Ev (KFree alloc) 0 :: e ++ Ev KtimeGet t :: first).
      split; [rewrite Hl'; cbn; by rewrite <- app_assoc |].
      change (_ :: e ++ ?x) with ([Ev (KFree alloc) 0] ++ e ++ x). rewrite !accesses_app. cbn [accesses].
      rewrite Hacs. change (accesses (_ :: first)) with (accesses first). unfold first. rewrite accesses_app, Ha1.
      by rewrite app_nil_r. }
    exists alloc, first, t, e. split; [exact Hl' |]. split; [done |]. split.
    { apply Forall_app. split; [done | by repeat constructor]. }
    split.
    { unfold first. rewrite !naps_app, Hn1. change (naps [_; _]) with 0. lia. }
    intros Hret. destruct (Hend Hret) as (t1 & l & Hl & Hle). exists t1, l. split; [exact Hl |].
    etransitivity; [| exact Hle]. done.
Qed.
End fw_lemmas.

(** ** Witnesses *)
Module FwWitness.
(** a FIFO with room, a successful allocator, user memory full of ones, and a
    clock that follows the sleeps *)
Definition env_fw : Env := fun l c =>
  match c with
  | KtimeGet => Z.min (2 ^ 63 - 1) (1000000 * naps l)
  | KAlloc _ => 4096
  | UserWord _ _ => 1
  | _ => 0
  end.
Definition world_fw : world zynq_dev := World [] [] zdev_sample.

Lemma fw_upload_in_order_witness :
  wp (zynq_fw_tx_user (H := env_fw) (H0 := params_default) 1005 64 2) (fun '(ret, done) w' =>
    let image := repeat 1 8 in
    w_held w' = [] /\ length (fw_blocks image) = 2%nat /\
    match done with
    | None =>
        ret = - ENOMEM /\ w_log w' = [Ev (KAlloc 32) 0] \/
        ret = - EFAULT /\ exists p left, p <> 0 /\ left <> 0 /\
          w_log w' = [Ev (KFree p) 0; Ev (CopyFromUser 64 32) left; Ev (KAlloc 32) p]
    | Some k =>
        (ret = 0 /\ k = 2 \/ ret = - ENOSPC /\ 0 <= k < 2) /\
        fw_frames (w_log w') = rev (take (Z.to_nat k) (fw_blocks image)) ++ [] /\
        exists acs, accessed world_fw w' acs /\ fw_run (fw_blocks image) ret (Z.to_nat k) acs /\
          exists p first t0 rest,
            w_log w' = Ev (KFree p) 0 :: rest ++ Ev KtimeGet t0 :: first ++ [] /\ p <> 0 /\
            Forall (fun e => ev_call e <> KtimeGet) first /\ naps (rest ++ first) <= 1001 /\
            (ret <> 0 -> exists t1 l, rest = Ev KtimeGet t1 :: l /\
               s64 (s64 t0 + 10 ^ 9) <= s64 t1)
    end) world_fw.
Proof.
  apply (fw_upload_in_order (H := env_fw) (H0 := params_default) eq_refl world_fw 1005 64 2 (fun _ => 1)).
  - lia.
  - intros evs i. reflexivity.
  - intros e1 e2. pose proof (naps_nonneg e1). pose proof (naps_nonneg e2).
    unfold env_ret, env_fw. cbn [w_log world_fw]. rewrite !app_nil_r, naps_app. unfold s64.
    rewrite !Z.mod_small by lia. lia.
  - lia.
Defined.

Lemma fw_handshakes_witness :
  wp (zynq_fw_upload_start (H := env_fw) (H0 := params_default)) (fun ret w' => exists ws,
    wrote world_fw w' ws /\
    fw_handshake [(fw_cfg, ZYNQ_CONFIG_FW_UPLOAD); (fw_cfg, ZYNQ_CONFIG_FW_UPLOAD_MAGIC)]
      ZYNQ_PS_INTR_FWUPLOAD_GRANT (w_log w') ret ws) world_fw /\
  wp (zynq_fw_update (H := env_fw) (H0 := params_default) ZYNQ_FW_TYPE_MMC 1) (fun ret w' => exists ws,
    wrote world_fw w' ws /\
    fw_handshake [(fw_cfg, ZYNQ_CONFIG_FW_UPDATE_MMC)] ZYNQ_PS_INTR_FWUPDATE_DONE (w_log w') ret ws) world_fw.
Proof. apply (fw_handshakes (H := env_fw) (H0 := params_default) eq_refl world_fw ZYNQ_FW_TYPE_MMC 1). Defined.

(** an image whose size wraps around in 32 bits is read past its buffer *)
Example fw_size_wraps :
  zynq_fw_tx_user (H := env_fw) (H0 := params_default) 10 64 (2 ^ 28 + 1) world_fw = Fault (Index 0).
Proof. vm_compute. reflexivity. Qed.
End FwWitness.
