(* ===== verification/Video.v ===== *)
(** * Camera channels ([basa_video.h], first part of [basa_video.c])

    The state of a camera, the register sequences that configure it, and the
    conversion of the time a frame was received to the time of the trigger or
    of the exposure it belongs to. *)

From S2P Require Import Device.

(** ** Definitions *)

Definition USEC_PER_SEC : Z := 1000000.
Definition V4L2_PIX_FMT_YUYV : Z := 0x56595559.   (** 'YUYV' *)
Definition V4L2_PIX_FMT_RGB24 : Z := 0x33424752.  (** 'RGB3' *)

Definition ZVIDEO_IMAGE_WIDTH : Z := 1920.
Definition ZVIDEO_IMAGE_HEIGHT : Z := 1080.
Definition ZVIDEO_EM_DATA_LINES : Z := 2.
Definition ZVIDEO_EM_STATS_LINES : Z := 2.
Definition ZVIDEO_WIDTH : Z := ZVIDEO_IMAGE_WIDTH.
Definition ZVIDEO_HEIGHT : Z := ZVIDEO_IMAGE_HEIGHT + ZVIDEO_EM_DATA_LINES + ZVIDEO_EM_STATS_LINES.
Definition ZVIDEO_EXT_META_DATA_BYTES : Z := 32.
Definition ZVIDEO_BYTES_PER_PIXEL_YUV : Z := 2.
Definition ZVIDEO_BYTES_PER_PIXEL_RGB : Z := 3.
(** the macros take the name of the format *)
Definition ZVIDEO_BYTES_PER_LINE (bytes_per_pixel : Z) : Z := bytes_per_pixel * ZVIDEO_IMAGE_WIDTH.
Definition ZVIDEO_IMAGE_BYTES (bytes_per_pixel : Z) : Z :=
  ZVIDEO_BYTES_PER_LINE bytes_per_pixel * ZVIDEO_IMAGE_HEIGHT.
Definition ZVIDEO_BYTES (bytes_per_pixel : Z) : Z :=
  ZVIDEO_BYTES_PER_LINE bytes_per_pixel * ZVIDEO_HEIGHT + ZVIDEO_EXT_META_DATA_BYTES.
Definition ZVIDEO_STATE_STREAMING : Z := 0x01.
Definition ZVIDEO_STATE_LINK_CHANGE : Z := 0x10.
Definition ZVIDEO_STATE_CAM_FAULT : Z := 0x40.
Definition ZVIDEO_STATE_CHAN_FAULT : Z := 0x80.

(** [struct v4l2_pix_format], the members the driver uses *)
Record v4l2_pix_format := PixFormat {
  width : Z; height : Z; pixelformat : Z; bytesperline : Z; sizeimage : Z
}.
#[global] Instance v4l2_pix_format_eta : Eta v4l2_pix_format := fun r =>
  PixFormat (width r) (height r) (pixelformat r) (bytesperline r) (sizeimage r).

Definition zvideo_formats : list v4l2_pix_format :=
  [PixFormat ZVIDEO_WIDTH ZVIDEO_HEIGHT V4L2_PIX_FMT_YUYV
     (ZVIDEO_BYTES_PER_LINE ZVIDEO_BYTES_PER_PIXEL_YUV) (ZVIDEO_BYTES ZVIDEO_BYTES_PER_PIXEL_YUV);
   PixFormat ZVIDEO_WIDTH ZVIDEO_HEIGHT V4L2_PIX_FMT_RGB24
     (ZVIDEO_BYTES_PER_LINE ZVIDEO_BYTES_PER_PIXEL_RGB) (ZVIDEO_BYTES ZVIDEO_BYTES_PER_PIXEL_RGB)].

Record timeval := Timeval { t_sec : Z; t_usec : Z }.
#[global] Instance timeval_eta : Eta timeval := fun r => Timeval (t_sec r) (t_usec r).

(** camera capabilities; [feature] and [code_name] are bit fields of
    [minor_version], which shares their memory *)
Definition ZYNQ_VDEV_NAME_LEN : Z := 56.
Record zynq_cam_caps := CamCaps {
  cap_name : list Z;
  unique_id : Z;
  major_version : Z;
  minor_version : Z;
  timestamp_type : Z;
  trigger_mode : Z;
  embedded_data : Z;
  interface_type : Z;
  pin_swap : Z;
  link_up : Z;
  frame_len_lines : Z;
  line_len_pck : Z;
  pixel_clock : Z
}.
#[global] Instance zynq_cam_caps_eta : Eta zynq_cam_caps := fun r =>
  CamCaps (cap_name r) (unique_id r) (major_version r) (minor_version r) (timestamp_type r)
    (trigger_mode r) (embedded_data r) (interface_type r) (pin_swap r) (link_up r)
    (frame_len_lines r) (line_len_pck r) (pixel_clock r).

Record zynq_video := ZynqVideo {
  index : Z;
  caps : zynq_cam_caps;
  reg_base : addr;
  vdev_num : Z;
  format : v4l2_pix_format;
  dev_cfg : list Z;               (** the flash configuration pointed to *)
  meta_header_lines : Z;
  meta_footer_lines : Z;
  vstate : Z;                     (** [state] *)
  input : Z;
  fps : Z;
  t_row : Z;
  t_first : Z;
  t_middle : Z;
  t_last : Z;
  frame_interval : Z;
  frame_usec_max : Z;
  last_exp_time : Z;
  last_trig_delay : Z;
  last_meta_cnt : Z;
  tv_intr : timeval
}.
#[global] Instance zynq_video_eta : Eta zynq_video := fun r =>
  ZynqVideo (index r) (caps r) (reg_base r) (vdev_num r) (format r) (dev_cfg r)
    (meta_header_lines r) (meta_footer_lines r) (vstate r) (input r) (fps r) (t_row r) (t_first r) (t_middle r) (t_last r)
    (frame_interval r) (frame_usec_max r) (last_exp_time r) (last_trig_delay r)
    (last_meta_cnt r) (tv_intr r).

(** the time stamp of the metadata the FPGA appends to a frame *)
Record ext_time_stamp := ExtTime { ext_sec : Z; ext_usec : Z }.

Section video.
Context `{Env} `{ModParams}.

Definition zvideo_reg_read {S} (zvideo : zynq_video) (reg : Z) : M S Z :=
  io_read (addr_add (reg_base zvideo) reg).
Definition zvideo_reg_write {S} (zvideo : zynq_video) (reg val : Z) : M S unit :=
  io_write (addr_add (reg_base zvideo) reg) val.

(** ** Camera configuration; the state is the camera *)

Definition zvideo_set_format (zynq_video_format : Z) : M zynq_video unit :=
  fmt ← array_get zvideo_formats zynq_video_format;
  modify (fun v => v<|format := fmt|><|meta_header_lines := ZVIDEO_EM_DATA_LINES|>
    <|meta_footer_lines := ZVIDEO_EM_STATS_LINES|>);;
  v ← get;
  if negb (embedded_data (caps v) =? 1) then
    modify (fun v => v<|meta_header_lines := 0|><|meta_footer_lines := 0|>
      <|format ::= fun f => f<|width := ZVIDEO_IMAGE_WIDTH|><|height := ZVIDEO_IMAGE_HEIGHT|>|>);;
    modify (fun v => v<|format ::= fun f =>
      f<|sizeimage := u32 (bytesperline f * height f + ZVIDEO_EXT_META_DATA_BYTES)|>|>)
  else
    spin_lock L_zdev;;
    val ← zynq_g_reg_read ZYNQ_G_CAM_TRIG_CFG;
    let val := Z.land val (Z.lnot (Z.shiftl ZYNQ_G_CAM_FPS_DRIFT_MASK ZYNQ_G_CAM_FPS_DRIFT_OFFSET)) in
    let val := Z.land val (Z.lnot (Z.shiftl ZYNQ_G_CAM_DELAY_UPDATE_MASK ZYNQ_G_CAM_DELAY_UPDATE_OFFSET)) in
    let val := Z.lor (SET_BITS ZYNQ_G_CAM_FPS_DRIFT val 2) (SET_BITS ZYNQ_G_CAM_DELAY_UPDATE val 10) in
    zynq_g_reg_write ZYNQ_G_CAM_TRIG_CFG val;;
    spin_unlock L_zdev.

Definition zvideo_config : M zynq_video unit :=
  zvideo ← get;
  cam_cfg ← zvideo_reg_read zvideo ZYNQ_CAM_CONFIG;
  let cam_cfg := SET_BITS ZYNQ_CAM_HEADER cam_cfg (meta_header_lines zvideo) in
  let cam_cfg := SET_BITS ZYNQ_CAM_FOOTER cam_cfg (meta_footer_lines zvideo) in
  let cam_cfg := if pixelformat (format zvideo) =? V4L2_PIX_FMT_RGB24
                 then Z.lor cam_cfg ZYNQ_CAM_RGB_YUV_SEL
                 else Z.land cam_cfg (Z.lnot ZYNQ_CAM_RGB_YUV_SEL) in
  let cam_cfg := Z.lor cam_cfg ZYNQ_CAM_TIMESTAMP_RCV in
  let cam_cfg := Z.lor cam_cfg ZYNQ_CAM_COLOR_SWAP in
  zvideo_reg_write zvideo ZYNQ_CAM_CONFIG cam_cfg.

(** enable, and disable, the trigger *)
Definition zvideo_enable : M zynq_video unit :=
  zvideo ← get;
  cam_cfg ← zvideo_reg_read zvideo ZYNQ_CAM_CONFIG;
  zvideo_reg_write zvideo ZYNQ_CAM_CONFIG (Z.lor cam_cfg ZYNQ_CAM_EN).
Definition zvideo_disable : M zynq_video unit :=
  zvideo ← get;
  cam_cfg ← zvideo_reg_read zvideo ZYNQ_CAM_CONFIG;
  zvideo_reg_write zvideo ZYNQ_CAM_CONFIG (Z.land cam_cfg (Z.lnot ZYNQ_CAM_EN)).

Definition zvideo_cam_reset : M zynq_video unit :=
  zvideo ← get;
  cam_cfg ← zvideo_reg_read zvideo ZYNQ_CAM_CONFIG;
  let cam_cfg := Z.lor cam_cfg ZYNQ_CAM_SENSOR_RESET in
  zvideo_reg_write zvideo ZYNQ_CAM_CONFIG cam_cfg;;
  mdelay 1;;
  let cam_cfg := Z.land cam_cfg (Z.lnot ZYNQ_CAM_SENSOR_RESET) in
  zvideo_reg_write zvideo ZYNQ_CAM_CONFIG cam_cfg;;
  modify (fun v => v<|last_meta_cnt := 0xFFFFFFFF|>).
End video.

(** ** Times *)

Definition tv_diff (tv1 tv2 : timeval) : Z :=
  (t_sec tv2 - t_sec tv1) * USEC_PER_SEC + t_usec tv2 - t_usec tv1.

(** division rounded to the nearest, on 64-bit unsigned operands *)
Definition div_round (val round : Z) : Z :=
  let result := val / round in
  if u64 ((result + 1) * round - val) <? u64 (val - result * round)
  then result + 1 else result.

Definition tv_sub (tv : timeval) (usec : Z) : timeval :=
  let tv := if t_usec tv <? usec
            then Timeval (t_sec tv - 1) (t_usec tv + USEC_PER_SEC) else tv in
  tv<|t_usec ::= fun u => u - usec|>.
Definition tv_add (tv : timeval) (usec : Z) : timeval :=
  let tv := tv<|t_usec ::= fun u => u + usec|> in
  if USEC_PER_SEC <=? t_usec tv
  then Timeval (t_sec tv + 1) (t_usec tv - USEC_PER_SEC) else tv.

(** the part [fpga_to_trigger] and [host_to_trigger] have in common, written
    out twice in the source: [late] is the time from the trigger to the
    reception of the first, or the last, line *)
Definition to_trigger {S} (zvideo : zynq_video) (late : Z) (tv : timeval) : M S timeval :=
  let trigger_delay := last_trig_delay zvideo in
  let tv := tv_sub tv (u32 (late + trigger_delay)) in
  r ← c_rem (t_usec tv) (frame_interval zvideo);
  let tv := tv<|t_usec ::= fun u => u - r|> in
  let tv := if u32 (frame_usec_max zvideo - 100) <=? t_usec tv
            then Timeval (t_sec tv + 1) 0 else tv in
  mret (tv_add tv trigger_delay).

Definition fpga_to_trigger {S} (zvideo : zynq_video) (ext : ext_time_stamp) : M S timeval :=
  to_trigger zvideo (t_first zvideo) (Timeval (ext_sec ext) (ext_usec ext)).
Definition host_to_trigger {S} (zvideo : zynq_video) : M S timeval :=
  to_trigger zvideo (t_last zvideo) (tv_intr zvideo).

(** the middle of the exposure *)
Definition fpga_to_formation {S} (zvideo : zynq_video) (ext : ext_time_stamp) : M S timeval :=
  tv ← fpga_to_trigger zvideo ext;
  mret (tv_add tv (u32 (t_middle zvideo - last_exp_time zvideo / 2))).
Definition host_to_formation {S} (zvideo : zynq_video) : M S timeval :=
  tv ← host_to_trigger zvideo;
  mret (tv_add tv (u32 (t_middle zvideo - last_exp_time zvideo / 2))).

(** ** Lemmas *)

(** microseconds since the epoch, and a time stamp in normal form *)
Definition usecs (tv : timeval) : Z := t_sec tv * USEC_PER_SEC + t_usec tv.
Definition tv_norm (tv : timeval) : Prop := 0 <= t_usec tv < USEC_PER_SEC.

(** the frame rate fields agree, as the trigger commands leave them *)
Definition rate_ok (v : zynq_video) : Prop :=
  1 <= fps v <= 20 /\ frame_interval v = USEC_PER_SEC / fps v /\
  frame_usec_max v = frame_interval v * fps v.

Lemma usecs_add tv u : usecs (tv_add tv u) = usecs tv + u.
Proof. unfold usecs, tv_add. destruct tv. cbn. destruct (_ <=? _); cbn; lia. Qed.

Lemma usecs_sub tv u : usecs (tv_sub tv u) = usecs tv - u.
Proof. unfold usecs, tv_sub. destruct tv. cbn. destruct (_ <? _); cbn; lia. Qed.

Lemma tv_add_norm tv u : tv_norm tv -> 0 <= u <= USEC_PER_SEC -> tv_norm (tv_add tv u).
Proof.
  unfold tv_norm, tv_add. destruct tv as [s us]. cbn. intros Hn Hu.
  destruct (Z.leb_spec USEC_PER_SEC (us + u)); cbn; lia.
Qed.

Lemma tv_sub_norm tv u : tv_norm tv -> 0 <= u <= USEC_PER_SEC -> tv_norm (tv_sub tv u).
Proof.
  unfold tv_norm, tv_sub. destruct tv as [s us]. cbn. intros Hn Hu.
  destruct (Z.ltb_spec us u); cbn; lia.
Qed.

(** the slots of a second: whole intervals, all but less than one microsecond
    per frame *)
Lemma rate_bounds v :
  rate_ok v -> 50000 <= frame_interval v /\
  USEC_PER_SEC - fps v < frame_usec_max v <= USEC_PER_SEC.
Proof.
  intros (Hf & -> & ->). unfold USEC_PER_SEC.
  pose proof (Z.div_mod 1000000 (fps v) ltac:(lia)).
  pose proof (Z.mod_pos_bound 1000000 (fps v) ltac:(lia)).
  split; [apply Z.div_le_lower_bound; lia | lia].
Qed.

(** cutting a time of the second down to a slot *)
Lemma slot_of v u :
  rate_ok v -> 0 <= u < USEC_PER_SEC ->
  exists k, u - u mod frame_interval v = k * frame_interval v /\
    (0 <= k < fps v /\ k * frame_interval v < frame_usec_max v - 100 \/
     k = fps v /\ frame_usec_max v <= u).
Proof.
  intros Hr Hu. destruct (rate_bounds v Hr) as [Hi Hm]. destruct Hr as (Hf & _ & Hmax).
  exists (u / frame_interval v).
  pose proof (Z.div_mod u (frame_interval v) ltac:(lia)) as Hd.
  pose proof (Z.mod_pos_bound u (frame_interval v) ltac:(lia)) as Hp.
  pose proof (Z.div_pos u (frame_interval v) ltac:(lia) ltac:(lia)) as Hq.
  set (k := u / frame_interval v) in *. split; [lia |].
  assert (k < fps v \/ k = fps v \/ fps v + 1 <= k) as [Hk|[Hk|Hk]] by lia.
  - left. split; [lia |]. assert ((k + 1) * frame_interval v <= fps v * frame_interval v)
      by (apply Z.mul_le_mono_nonneg_r; lia). lia.
  - right. split; [done |]. rewrite Hmax. rewrite Hk in Hd. lia.
  - exfalso. assert ((fps v + 1) * frame_interval v <= k * frame_interval v)
      by (apply Z.mul_le_mono_nonneg_r; lia). lia.
Qed.

(** what a conversion to the trigger gives: a slot of a second, the closest one
    that is not later than the time [t] by more than the microseconds the slots
    of a second leave over *)
Definition trigger_slot (v : zynq_video) (t : Z) (slot : Z) : Prop :=
  (exists s k, slot = s * USEC_PER_SEC + k * frame_interval v /\ 0 <= k < fps v) /\
  t - frame_interval v < slot <= t + (USEC_PER_SEC - frame_usec_max v).

Lemma wp_to_trigger {S} v late tv (w : world S) (Q : timeval -> world S -> Prop) :
  rate_ok v -> tv_norm tv -> 0 <= late -> 0 <= last_trig_delay v ->
  late + last_trig_delay v <= USEC_PER_SEC ->
  (forall r, tv_norm r ->
     trigger_slot v (usecs tv - (late + last_trig_delay v)) (usecs r - last_trig_delay v) -> Q r w) ->
  wp (to_trigger v late tv) Q w.
Proof.
  intros Hr Hn Hl Hdl Hs HQ. destruct (rate_bounds v Hr) as [Hi Hm]. unfold to_trigger.
  rewrite (u32_small (late + _)) by (unfold USEC_PER_SEC in Hs; lia). cbv zeta.
  pose proof (tv_sub_norm tv (late + last_trig_delay v) Hn ltac:(lia)) as Hn'.
  pose proof (usecs_sub tv (late + last_trig_delay v)) as Hu'.
  set (tv' := tv_sub tv (late + last_trig_delay v)) in *.
  apply wp_bind, wp_c_rem; [apply Hn' | lia |].
  destruct (slot_of v (t_usec tv') Hr Hn') as (k & Hk & Hcase). destruct tv' as [s us]. cbn in *.
  rewrite (u32_small (frame_usec_max v - 100)) by (destruct Hr; unfold USEC_PER_SEC in Hm; lia).
  pose proof (Z.mod_pos_bound us (frame_interval v) ltac:(lia)) as Hmod.
  assert (Hslot : forall r0, tv_norm r0 ->
    trigger_slot v (usecs (Timeval s us)) (usecs r0) ->
    Q (tv_add r0 (last_trig_delay v)) w).
  { intros r0 Hr0 Ht. apply HQ; [apply tv_add_norm; [done | lia] |].
    rewrite usecs_add, <- Hu'. by replace (usecs r0 + last_trig_delay v - last_trig_delay v)
      with (usecs r0) by lia. }
  apply wp_ret. destruct Hcase as [[Hkr Hlt]|[-> Hge]].
  - pose proof (Z.mul_nonneg_nonneg k (frame_interval v) ltac:(lia) ltac:(lia)).
    rewrite (proj2 (Z.leb_gt _ _)) by lia. apply Hslot.
    + unfold tv_norm. cbn. lia.
    + split; [exists s, k; split; [unfold usecs; cbn; lia | done] |]. unfold usecs. cbn. lia.
  - rewrite (proj2 (Z.leb_le _ _)) by (destruct Hr as (_ & _ & Hmx); lia). apply Hslot.
    + unfold tv_norm. cbn. done.
    + split; [exists (s + 1), 0; split; [unfold usecs; cbn; lia | destruct Hr; lia] |].
      unfold usecs, tv_norm in *. cbn in *. lia.
Qed.

(** what a conversion of the reception time [t] gives, [late] after the trigger: the
    slot of the trigger, the trigger delay and [more] after it *)
Definition converted (v : zynq_video) (late more : Z) (t : timeval) (r : timeval) : Prop :=
  exists slot, trigger_slot v (usecs t - (late + last_trig_delay v)) slot /\
    usecs r = slot + last_trig_delay v + more /\ (more <= USEC_PER_SEC -> tv_norm r).

(** the fields and the reception time a conversion is meant for *)
Definition convertible (v : zynq_video) (late : Z) (t : timeval) : Prop :=
  rate_ok v /\ tv_norm t /\ 0 <= late /\ 0 <= last_trig_delay v /\ late + last_trig_delay v <= USEC_PER_SEC.

Lemma wp_converted {S} v late t (m : M S timeval) (w : world S) :
  m = to_trigger v late t -> convertible v late t ->
  wp m (fun r w' => w' = w /\ converted v late 0 t r) w /\
  forall mid, wp (tv ← m; mret (tv_add tv (u32 mid))) (fun r w' => w' = w /\ converted v late (u32 mid) t r) w.
Proof.
  intros -> (Hr & Hn & Hl & Hd & Hs). split; [| intros mid; apply wp_bind]; apply wp_to_trigger; try done;
    intros r Hr' Hslot; [| apply wp_ret]; (split; [done |]); exists (usecs r - last_trig_delay v); (split; [exact Hslot |]).
  - split; [lia | done].
  - rewrite usecs_add. split; [lia |]. intros Hm. apply tv_add_norm; [done |]. pose proof (u32_range mid). lia.
Qed.


(** [div_round] gives a closest multiple, the lower one at the middle *)
Lemma div_round_nearest val round :
  0 <= val -> 0 < round -> val + round < 2 ^ 64 ->
  2 * Z.abs (val - div_round val round * round) <= round.
Proof.
  intros Hv Hr Hs. unfold div_round.
  pose proof (Z.div_mod val round ltac:(lia)). pose proof (Z.mod_pos_bound val round Hr).
  rewrite !u64_small by lia. destruct (Z.ltb_spec ((val / round + 1) * round - val) (val - val / round * round)); lia.
Qed.

(** ** Witnesses *)
Module VideoWitness.
(** ten frames per second, 5 ms from the trigger to the first line *)
Definition caps0 : zynq_cam_caps := CamCaps [] 0 0 0 0 0 1 0 0 1 1125 2200 74250000.
Definition video0 : zynq_video := {|
  index := 0; caps := caps0; reg_base := (BAR0, 0); vdev_num := 0;
  format := PixFormat 0 0 0 0 0; dev_cfg := []; meta_header_lines := 0; meta_footer_lines := 0; vstate := 0; input := 0;
  fps := 10; t_row := 30; t_first := 5000; t_middle := 20000; t_last := 40000;
  frame_interval := 100000; frame_usec_max := 1000000; last_exp_time := 10000;
  last_trig_delay := 1000; last_meta_cnt := 0; tv_intr := Timeval 100 345678
|}.
Definition world_v : world unit := World [] [] tt.


Example trigger_time_runs :
  fpga_to_trigger video0 (ExtTime 100 310000) world_v = Ret (Timeval 100 301000) world_v /\
  fpga_to_formation video0 (ExtTime 100 310000) world_v = Ret (Timeval 100 316000) world_v.
Proof. split; reflexivity. Qed.
(** three frames per second leave a microsecond over: a time in it belongs to the next second *)
Example slot_of_next_second :
  fpga_to_trigger (video0<|fps := 3|><|frame_interval := 333333|><|frame_usec_max := 999999|>)
    (ExtTime 101 5999) world_v = Ret (Timeval 101 1000) world_v.
Proof. reflexivity. Qed.
(** an exposure longer than twice [t_middle] makes the sum wrap: more than an hour is added *)
Example long_exposure_wraps :
  fpga_to_formation (video0<|last_exp_time := 50000|>) (ExtTime 100 310000) world_v
    = Ret (Timeval 101 4294263296) world_v.
Proof. reflexivity. Qed.
End VideoWitness.
