(* ===== verification/Trigger.v ===== *)
(** * Camera triggers ([basa_trigger.c])

    The global trigger of the FPGA and the triggers of the single cameras.  The
    state is the device with its array of cameras. *)

From S2P Require Import Device Video.

(** ** Definitions *)

Definition ZYNQ_FPD_FPS_MAX : Z := 20.
Definition ZYNQ_FPD_FPS_DEFAULT : Z := 10.
Definition ZYNQ_FPD_TRIG_NUM : Z := 10.
Definition ZYNQ_DEV_NAME_LEN : Z := 64.

(** the device, its cameras and its name *)
Record trig_ctx := TrigCtx {
  tg_zdev : zynq_dev;
  tg_videos : list zynq_video;
  tg_name : list Z
}.
#[global] Instance trig_ctx_eta : Eta trig_ctx := fun r =>
  TrigCtx (tg_zdev r) (tg_videos r) (tg_name r).

Record zynq_trigger := ZTrigger {
  trig_id : Z;
  trig_fps : Z;
  trig_internal : Z;
  trig_enabled : Z;
  trig_delay : Z;
  trig_exposure : Z;
  trig_vnum : Z;
  trig_name : list Z
}.
#[global] Instance zynq_trigger_eta : Eta zynq_trigger := fun r =>
  ZTrigger (trig_id r) (trig_fps r) (trig_internal r) (trig_enabled r) (trig_delay r)
    (trig_exposure r) (trig_vnum r) (trig_name r).
Definition trigger_zero : zynq_trigger :=
  ZTrigger 0 0 0 0 0 0 0 (replicate (Z.to_nat ZYNQ_VDEV_NAME_LEN) 0).
Definition sizeof_trigger : Z := 72.

Definition word_bytes (v : Z) : list Z := [byte_of v 0; byte_of v 1; byte_of v 2; byte_of v 3].
Definition trigger_bytes (t : zynq_trigger) : list Z :=
  [u8 (trig_id t); u8 (trig_fps t); u8 (trig_internal t); u8 (trig_enabled t)]
  ++ word_bytes (trig_delay t) ++ word_bytes (trig_exposure t)
  ++ word_bytes (u32 (trig_vnum t)) ++ trig_name t.

(** [strncpy]: up to the terminator, padded with zeros *)
Fixpoint strncpy (n : nat) (s : list Z) : list Z :=
  match n, s with
  | O, _ => []
  | S n', [] => 0 :: strncpy n' []
  | S n', c :: s' => if c =? 0 then replicate n 0 else c :: strncpy n' s'
  end.

Section trigger.
Context `{Env} `{ModParams}.

(** change the camera at index [i] *)
Definition upd_video (i : Z) (f : zynq_video -> zynq_video) : M trig_ctx unit :=
  modify (fun s => s<|tg_videos ::= alter f (Z.to_nat i)|>).
Definition video_at (i : Z) : M trig_ctx zynq_video :=
  s ← get; array_get (tg_videos s) i.

(** clear the trigger bits of the global configuration *)
Definition trigger_global_off : M trig_ctx unit :=
  val ← zynq_g_reg_read ZYNQ_G_CONFIG;
  zynq_g_reg_write ZYNQ_G_CONFIG (Z.land val (Z.lnot ZYNQ_CONFIG_TRIGGER_MASK)).

(** the frame rate to use *)
Definition trigger_fps (arg fps : Z) : Z :=
  if negb (arg =? 0) then
    if (fps =? 0) || (ZYNQ_FPD_FPS_MAX <? fps) then ZYNQ_FPD_FPS_DEFAULT else fps
  else ZYNQ_FPD_FPS_DEFAULT.

(** the body of the enabling loop, for a camera with its link up *)
Definition trigger_enable_one (fps_ : Z) (i : Z) (zvideo : zynq_video) : M trig_ctx unit :=
  (* Set FPS *)
  val ← zvideo_reg_read zvideo ZYNQ_CAM_TRIGGER;
  zvideo_reg_write zvideo ZYNQ_CAM_TRIGGER (SET_BITS ZYNQ_CAM_TRIG_FPS val fps_);;
  (* Enable individual trigger *)
  val ← zvideo_reg_read zvideo ZYNQ_CAM_CONFIG;
  zvideo_reg_write zvideo ZYNQ_CAM_CONFIG (Z.lor val ZYNQ_CAM_EN);;
  upd_video i (fun v => v<|fps := fps_|><|frame_interval := USEC_PER_SEC / fps_|>
    <|frame_usec_max := u32 (USEC_PER_SEC / fps_ * fps_)|>).

(** the body of the disabling loop *)
Definition trigger_disable_one (i : Z) (zvideo : zynq_video) : M trig_ctx unit :=
  val ← zvideo_reg_read zvideo ZYNQ_CAM_CONFIG;
  zvideo_reg_write zvideo ZYNQ_CAM_CONFIG (Z.land val (Z.lnot ZYNQ_CAM_EN));;
  upd_video i (fun v => v<|fps := 0|><|frame_interval := 0|><|frame_usec_max := 0|>).

(** [for (i = 0; i < zdev_video_cnt; i++)] over the cameras with their link up *)
Definition each_linked (body : Z -> zynq_video -> M trig_ctx unit) : M trig_ctx unit :=
  s ← get;
  for_ (Z.to_nat (zdev_video_cnt (tg_zdev s))) 0 (fun i =>
    zvideo ← video_at i;
    if link_up (caps zvideo) =? 0 then mret tt else body i zvideo).

Definition zynq_trigger_enable_all (arg internal one : Z) : M trig_ctx Z :=
  data ← (if negb (arg =? 0) then copy_bytes_from_user arg (Z.to_nat sizeof_trigger)
          else mret (Some []));
  match data with
  | None => mret (- EFAULT)
  | Some l =>
      (* overwrite the internal parameter *)
      let internal := if negb (arg =? 0) then l !!! 2%nat else internal in
      spin_lock L_zdev;;
      (* 1. disable the global trigger *)
      trigger_global_off;;
      (* 2. set FPS and enable the individual triggers *)
      let fps := trigger_fps arg (l !!! 1%nat) in
      each_linked (trigger_enable_one fps);;
      (* 3. enable the global trigger *)
      val ← zynq_g_reg_read ZYNQ_G_CONFIG;
      let val := Z.land val (Z.lnot ZYNQ_CONFIG_TRIGGER_MASK) in
      let val := Z.lor val (if negb (one =? 0) then ZYNQ_CONFIG_TRIGGER_ONE else ZYNQ_CONFIG_TRIGGER) in
      let val := if negb (internal =? 0) then Z.lor val ZYNQ_CONFIG_GPS_SW else val in
      zynq_g_reg_write ZYNQ_G_CONFIG val;;
      spin_unlock L_zdev;;
      mret 0
  end.

Definition zynq_trigger_disable_all : M trig_ctx Z :=
  (* 1. disable the global trigger *)
  spin_lock L_zdev;;
  trigger_global_off;;
  (* 2. disable the individual triggers *)
  each_linked trigger_disable_one;;
  spin_unlock L_zdev;;
  mret 0.

(** the status of one camera *)
Definition trigger_status_one (enabled internal : bool) (i : Z) (t : zynq_trigger)
  : M trig_ctx zynq_trigger :=
  zvideo ← video_at i;
  if link_up (caps zvideo) =? 0 then mret (t<|trig_vnum := -1|>)
  else
    s ← get;
    t ← match zdev_video_port_map (tg_zdev s) with
        | Some map => p ← array_get map i; mret (t<|trig_id := p|>)
        | None => mret t
        end;
    val ← zvideo_reg_read zvideo ZYNQ_CAM_CONFIG;
    let on := enabled && tst val ZYNQ_CAM_EN in
    let t := t<|trig_enabled := Z.b2z on|><|trig_internal := Z.b2z (internal && on)|> in
    t ← (if on then
           val ← zvideo_reg_read zvideo ZYNQ_CAM_TRIGGER;
           mret (t<|trig_fps := u8 (GET_BITS ZYNQ_CAM_TRIG_FPS val)|>)
         else mret t);
    mret (t<|trig_name := <[Z.to_nat (ZYNQ_VDEV_NAME_LEN - 1) := 0]>
              (strncpy (Z.to_nat ZYNQ_VDEV_NAME_LEN) (cap_name (caps zvideo)))|>
           <|trig_vnum := vdev_num zvideo|>).

Fixpoint trigger_status_all (enabled internal : bool) (n : nat) (i : Z) (triggers : list zynq_trigger)
  : M trig_ctx (list zynq_trigger) :=
  match n with
  | O => mret triggers
  | S n' =>
      t ← array_get triggers i;
      t ← trigger_status_one enabled internal i t;
      trigger_status_all enabled internal n' (i + 1) (<[Z.to_nat i := t]> triggers)
  end.

Definition zynq_trigger_status_fpd (arg : Z) : M trig_ctx Z :=
  let triggers := replicate (Z.to_nat ZYNQ_FPD_TRIG_NUM) trigger_zero in
  spin_lock L_zdev;;
  (* 1. check the global trigger status *)
  val ← zynq_g_reg_read ZYNQ_G_CONFIG;
  let enabled := tst val ZYNQ_CONFIG_TRIGGER in
  let internal := tst val ZYNQ_CONFIG_GPS_SW in
  (* 2. check individual triggers status *)
  s ← get;
  let n := Z.to_nat (zdev_video_cnt (tg_zdev s)) in
  triggers ← trigger_status_all enabled internal n 0 triggers;
  spin_unlock L_zdev;;
  ok ← copy_to_user arg (sizeof_trigger * zdev_video_cnt (tg_zdev s))
         (take n triggers ≫= trigger_bytes);
  mret (if (ok : bool) then 0 else - EFAULT).

(** a bit of the status register, to the user *)
Definition trigger_status_bit (bit arg : Z) : M trig_ctx Z :=
  spin_lock L_zdev;;
  status ← zynq_g_reg_read ZYNQ_G_STATUS;
  let status := Z.b2z (tst status bit) in
  spin_unlock L_zdev;;
  ok ← copy_to_user arg 4 [status];
  mret (if (ok : bool) then 0 else - EFAULT).

Definition zynq_trigger_ioctl (cmd arg : Z) : M trig_ctx Z :=
  if cmd =? ZYNQ_IOC_TRIGGER_DEV_NAME then
    s ← get;
    ok ← copy_to_user arg ZYNQ_DEV_NAME_LEN (tg_name s);
    mret (if (ok : bool) then 0 else - EFAULT)
  else if cmd =? ZYNQ_IOC_TRIGGER_DISABLE then zynq_trigger_disable_all
  else if cmd =? ZYNQ_IOC_TRIGGER_ENABLE then zynq_trigger_enable_all arg 0 0
  else if cmd =? ZYNQ_IOC_TRIGGER_STATUS then zynq_trigger_status_fpd arg
  else if cmd =? ZYNQ_IOC_TRIGGER_STATUS_GPS then trigger_status_bit ZYNQ_STATUS_GPS_LOCKED arg
  else if cmd =? ZYNQ_IOC_TRIGGER_STATUS_PPS then trigger_status_bit ZYNQ_STATUS_PPS_LOCKED arg
  else mret (- EINVAL).

Definition zynq_trigger_open : M trig_ctx Z :=
  v ← zynq_g_reg_read ZYNQ_G_VERSION;
  modify (fun s => s<|tg_zdev ::= fun d => d<|zdev_version := v|>|>);;
  mret 0.
Definition zynq_trigger_release : M trig_ctx Z := mret 0.
End trigger.

(** ** Lemmas *)

(** a camera with its link up, and what a loop does to the array *)
Definition linked (v : zynq_video) : Prop := link_up (caps v) <> 0.
#[global] Instance linked_dec v : Decision (linked v).
Proof. unfold linked. apply _. Defined.
Definition on_linked (f : zynq_video -> zynq_video) (v : zynq_video) : zynq_video :=
  if decide (linked v) then f v else v.

Definition started_video (fps_ : Z) (v : zynq_video) : zynq_video :=
  v<|fps := fps_|><|frame_interval := USEC_PER_SEC / fps_|>
   <|frame_usec_max := u32 (USEC_PER_SEC / fps_ * fps_)|>.
Definition stopped_video (v : zynq_video) : zynq_video :=
  v<|fps := 0|><|frame_interval := 0|><|frame_usec_max := 0|>.

(** register writes that start a camera at a frame rate: its trigger register
    with the rate field replaced, then its configuration with the enable bit;
    and those that stop it *)
Definition starts_cam (fps_ : Z) (v : zynq_video) (ws : list (addr * Z)) : Prop :=
  exists t c, ws = [(addr_add (reg_base v) ZYNQ_CAM_TRIGGER, t);
                    (addr_add (reg_base v) ZYNQ_CAM_CONFIG, c)] /\
    GET_BITS ZYNQ_CAM_TRIG_FPS t = fps_ /\ tst c ZYNQ_CAM_EN = true.
Definition stops_cam (v : zynq_video) (ws : list (addr * Z)) : Prop :=
  exists c, ws = [(addr_add (reg_base v) ZYNQ_CAM_CONFIG, c)] /\ tst c ZYNQ_CAM_EN = false.

(** [w'] follows [w] by the writes [ws] and has the cameras [vs] *)
Definition did (w w' : world trig_ctx) (ws : list (addr * Z)) (vs : list zynq_video) : Prop :=
  w_held w' = w_held w /\ mmio_writes (w_log w') = rev ws ++ mmio_writes (w_log w) /\
  w_st w' = (w_st w)<|tg_videos := vs|>.

Lemma did_trans w w1 w2 ws1 ws2 vs1 vs2 :
  did w w1 ws1 vs1 -> did w1 w2 ws2 vs2 -> did w w2 (ws1 ++ ws2) vs2.
Proof.
  intros (H1 & L1 & S1) (H2 & L2 & S2). split; [congruence |].
  split; [by rewrite L2, L1, rev_app_distr, app_assoc |]. rewrite S2, S1. by destruct (w_st w).
Qed.

Lemma did_write w w1 ws vs a v r :
  did w w1 ws vs -> did w (emit (Ev (MmioWrite a v) r) w1) (ws ++ [(a, v)]) vs.
Proof.
  intros (Hh & Hl & Hs). split; [done |]. split; [| done].
  rewrite rev_app_distr. cbn. by rewrite <- Hl.
Qed.

Lemma did_emit w w1 ws vs e : calm e -> did w w1 ws vs -> did w (emit e w1) ws vs.
Proof.
  intros Hc (Hh & Hl & Hs). split; [done |]. split; [| done].
  change (w_log (emit e w1)) with ([e] ++ w_log w1). rewrite mmio_writes_app, calm_writes; [done |].
  by constructor.
Qed.

(** the same between taking a lock, after some looks, and releasing it *)
Lemma did_locked w w1 w2 ws vs lk :
  calmly w w1 ->
  did (World (Ev (SpinLock lk) 0 :: w_log w1) (lk :: w_held w1) (w_st w1)) w2 ws vs ->
  did w (World (Ev (SpinUnlock lk) 0 :: w_log w2) (w_held w1) (w_st w2)) ws vs.
Proof.
  intros (Hs & Hh & e & Hl & Hc) (_ & Hl' & Hs'). split; [done |]. cbn in *. split.
  - change (mmio_writes (w_log w2) = rev ws ++ mmio_writes (w_log w)).
    rewrite Hl'. f_equal. change (mmio_writes (w_log w1) = mmio_writes (w_log w)).
    by rewrite Hl, mmio_writes_app, calm_writes.
  - by rewrite Hs', Hs.
Qed.

Lemma did_videos w w' ws vs : did w w' ws vs -> tg_videos (w_st w') = vs.
Proof. intros (_ & _ & ->). by destruct (w_st w). Qed.

(** and bits of it set afterwards are what is left of it *)
Lemma land_set_u32 x m a :
  Z.land a m = a -> 0 <= m < 2 ^ 32 ->
  Z.land (u32 (Z.lor (Z.land x (Z.lnot m)) a)) m = a.
Proof.
  intros Ha Hm. rewrite <- Ha at 2. apply Z.bits_inj'. intros n Hn. rewrite !Z.land_spec. unfold u32.
  destruct (Z.lt_ge_cases n 32).
  - rewrite Z.mod_pow2_bits_low, Z.lor_spec, Z.land_spec, Z.lnot_spec by lia.
    destruct (Z.testbit x n), (Z.testbit m n), (Z.testbit a n); reflexivity.
  - by rewrite (testbit_high m 32), !andb_false_r by lia.
Qed.

(** a mask cleared stays cleared in 32 bits *)
Lemma land_lnot_u32 x m : Z.land (u32 (Z.land x (Z.lnot m))) m = 0.
Proof.
  apply Z.bits_inj'. intros n Hn. rewrite Z.land_spec, Z.bits_0. unfold u32.
  destruct (Z.lt_ge_cases n 32).
  - rewrite Z.mod_pow2_bits_low, Z.land_spec, Z.lnot_spec by lia.
    destruct (Z.testbit x n), (Z.testbit m n); reflexivity.
  - by rewrite Z.mod_pow2_bits_high by lia.
Qed.

Section trigger_lemmas.
Context `{Env} `{ModParams}.
Hypothesis Hb : zynq_bringup_param = false.
Implicit Types w : world trig_ctx.

Lemma wp_enable_one fps_ i v w (Q : unit -> world trig_ctx -> Prop) :
  1 <= fps_ <= ZYNQ_FPD_FPS_MAX ->
  (forall w' ws, starts_cam fps_ v ws ->
     did w w' ws (alter (started_video fps_) (Z.to_nat i) (tg_videos (w_st w))) -> Q tt w') ->
  wp (trigger_enable_one fps_ i v) Q w.
Proof using Hb.
  intros Hf HQ. unfold trigger_enable_one, zvideo_reg_read, zvideo_reg_write, upd_video.
  apply wp_bind, wp_io_read; [exact Hb |]. intros t _.
  apply wp_bind, wp_io_write; [exact Hb |].
  apply wp_bind, wp_io_read; [exact Hb |]. intros c _.
  apply wp_bind, wp_io_write; [exact Hb |]. apply wp_modify. cbn [w_log w_held w_st emit].
  rewrite (u32_small (SET_BITS _ _ _)) by (apply SET_BITS_range; [reflexivity | apply u32_range]).
  eapply (HQ _ [_; _]); [| split; [reflexivity |]; split; [reflexivity | destruct (w_st w); reflexivity]].
  eexists _, _. split; [reflexivity |].
  split; [apply GET_SET_small; [reflexivity | change (2 ^ field_width ZYNQ_CAM_TRIG_FPS) with 32; unfold ZYNQ_FPD_FPS_MAX in Hf; lia] |].
  unfold tst. change ZYNQ_CAM_EN with 1. apply negb_true_iff, Z.eqb_neq. intros E0.
  apply (f_equal (fun x => Z.testbit x 0)) in E0. unfold u32 in E0.
  rewrite Z.land_spec, Z.mod_pow2_bits_low, Z.lor_spec, orb_true_r in E0 by lia. discriminate E0.
Qed.

Lemma wp_disable_one i v w (Q : unit -> world trig_ctx -> Prop) :
  (forall w' ws, stops_cam v ws ->
     did w w' ws (alter stopped_video (Z.to_nat i) (tg_videos (w_st w))) -> Q tt w') ->
  wp (trigger_disable_one i v) Q w.
Proof using Hb.
  intros HQ. unfold trigger_disable_one, zvideo_reg_read, zvideo_reg_write, upd_video.
  apply wp_bind, wp_io_read; [exact Hb |]. intros c _.
  apply wp_bind, wp_io_write; [exact Hb |]. apply wp_modify. cbn [w_log w_held w_st emit].
  eapply (HQ _ [_]); [| split; [reflexivity |]; split; [reflexivity | destruct (w_st w); reflexivity]].
  eexists. split; [reflexivity |].
  unfold tst. change ZYNQ_CAM_EN with 1. apply negb_false_iff, Z.eqb_eq. apply Z.bits_inj'. intros n Hn.
  rewrite Z.land_spec, Z.bits_0. destruct (decide (n = 0)) as [->|Hne].
  - unfold u32. by rewrite Z.mod_pow2_bits_low, Z.land_spec, Z.lnot_spec, andb_false_r by lia.
  - change 1 with (2 ^ 0). rewrite (Z.pow2_bits_false 0 n) by lia. apply andb_false_r.
Qed.

(** the loop over the cameras, from what its body does to one *)
Lemma wp_each_linked body f (R : zynq_video -> list (addr * Z) -> Prop) w
    (Q : unit -> world trig_ctx -> Prop) :
  let vs := tg_videos (w_st w) in
  zdev_video_cnt (tg_zdev (w_st w)) = Z.of_nat (length vs) ->
  (forall i v w1 (Q1 : unit -> world trig_ctx -> Prop), linked v ->
     (forall w2 ws, R v ws ->
        did w1 w2 ws (alter f (Z.to_nat i) (tg_videos (w_st w1))) -> Q1 tt w2) ->
     wp (body i v) Q1 w1) ->
  (forall w' gs, Forall2 R (filter linked vs) gs ->
     did w w' (concat gs) (map (on_linked f) vs) -> Q tt w') ->
  wp (each_linked body) Q w.
Proof.
  intros vs Hcnt Hbody HQ. unfold each_linked. apply wp_bind, wp_get. rewrite Hcnt, Nat2Z.id.
  apply (wp_for (fun i v => exists gs,
    Forall2 R (filter linked (take (Z.to_nat i) vs)) gs /\
    did w v (concat gs) (map (on_linked f) (take (Z.to_nat i) vs) ++ drop (Z.to_nat i) vs))).
  - exists []. split; [constructor |]. split; [done |]. split; [done |].
    unfold vs. by destruct (w_st w).
  - intros i w1 Hi (gs & Hgs & Hd). set (k := Z.to_nat i) in *.
    destruct (lookup_lt_is_Some_2 vs k ltac:(lia)) as [v Hv].
    assert (Hat : tg_videos (w_st w1) = map (on_linked f) (take k vs) ++ v :: drop (S k) vs).
    { rewrite (did_videos _ _ _ _ Hd). by rewrite (drop_S _ _ _ Hv). }
    assert (Hlen : length (map (on_linked f) (take k vs)) = k)
      by (rewrite length_map, length_take; lia).
    unfold video_at. apply wp_bind, wp_bind, wp_get, wp_array_get. exists v.
    split.
    { rewrite Hat, zlookup_nonneg by lia. fold k.
      by rewrite lookup_app_r, Hlen, Nat.sub_diag by lia. }
    replace (Z.to_nat (i + 1)) with (S k) by lia. rewrite (take_S_r _ _ _ Hv), filter_app, map_app.
    cbn [map app]. unfold on_linked at 2. destruct (Z.eqb_spec (link_up (caps v)) 0) as [E|E].
    + apply wp_ret. exists gs. rewrite filter_cons_False by (by intros []).
      rewrite filter_nil, app_nil_r. split; [done |].
      rewrite decide_False by (by intros []). rewrite <- app_assoc. cbn [app].
      by rewrite <- (drop_S _ _ _ Hv).
    + apply Hbody; [done |]. intros w2 ws HR Hd2. exists (gs ++ [ws]).
      rewrite filter_cons_True, filter_nil by done. split; [apply Forall2_app; [done | by constructor] |].
      rewrite concat_app. cbn [concat]. rewrite app_nil_r.
      eapply did_trans; [exact Hd |]. rewrite decide_True by done.
      fold k in Hd2. rewrite Hat in Hd2. rewrite <- app_assoc. cbn [app].
      by rewrite alter_app_r_alt, Hlen, Nat.sub_diag in Hd2 by lia.
  - intros w' (gs & Hgs & Hd). rewrite Z.add_0_l, Nat2Z.id, firstn_all, drop_all, app_nil_r in *.
    by eapply HQ.
Qed.

(** clearing the trigger bits leaves none of them *)
Lemma wp_global_off w (Q : unit -> world trig_ctx -> Prop) :
  (forall w' g, did w w' [((BAR0, ZYNQ_G_CONFIG), g)] (tg_videos (w_st w)) ->
     Z.land g ZYNQ_CONFIG_TRIGGER_MASK = 0 -> Q tt w') ->
  wp trigger_global_off Q w.
Proof using Hb.
  intros HQ. unfold trigger_global_off, zynq_g_reg_read, zynq_g_reg_write.
  apply wp_bind, wp_io_read; [exact Hb |]. intros r _. apply wp_io_write; [exact Hb |].
  eapply HQ; [split; [reflexivity |]; split; [reflexivity | cbn; destruct (w_st w); reflexivity] |].
  apply land_lnot_u32.
Qed.

(** the last write of enabling: one of the two trigger bits, as asked *)
Definition global_on (one internal : bool) (g : Z) : Prop :=
  Z.land g ZYNQ_CONFIG_TRIGGER_MASK =
    Z.lor (if one then ZYNQ_CONFIG_TRIGGER_ONE else ZYNQ_CONFIG_TRIGGER)
          (if internal then ZYNQ_CONFIG_GPS_SW else 0).

Lemma trigger_fps_range arg f : 0 <= f -> 1 <= trigger_fps arg f <= ZYNQ_FPD_FPS_MAX.
Proof.
  intros Hf. unfold trigger_fps, ZYNQ_FPD_FPS_MAX, ZYNQ_FPD_FPS_DEFAULT.
  destruct (negb _); [| lia]. destruct (Z.eqb_spec f 0), (Z.ltb_spec 20 f); cbn; lia.
Qed.

(** the cameras run at a rate the time stamp conversions accept *)
Lemma started_rate_ok f v : 1 <= f <= ZYNQ_FPD_FPS_MAX -> rate_ok (started_video f v).
Proof.
  intros Hf. unfold rate_ok, started_video, ZYNQ_FPD_FPS_MAX, USEC_PER_SEC in *. cbn.
  split; [lia |]. split; [done |]. apply u32_small.
  pose proof (Z.mul_div_le 1000000 f ltac:(lia)). pose proof (Z.div_pos 1000000 f ltac:(lia) ltac:(lia)). nia.
Qed.

(** Enabling the triggers.  Either the argument cannot be copied and
    nothing happens ([-EFAULT]), or the call succeeds and writes, in this order:
    the global configuration with every trigger bit off; for each camera with
    its link up, in order, its trigger register with the frame rate and its
    configuration with the enable bit; the global configuration with exactly
    the trigger bits asked for.  The rate is between 1 and 20 whatever the user
    passes, the cameras without link are left alone, the others get frame rate
    fields the time stamp conversions accept; the lock is released. *)
Theorem trigger_enable_sequence (w : world trig_ctx) (arg internal one : Z) :
  let vs := tg_videos (w_st w) in
  forall (Hlk : L_zdev ∉ w_held w)
    (Hcnt : zdev_video_cnt (tg_zdev (w_st w)) = Z.of_nat (length vs)),
  wp (zynq_trigger_enable_all arg internal one) (fun rc w' =>
    rc = - EFAULT /\ arg <> 0 /\ calmly w w' \/
    rc = 0 /\ exists rate g0 gs g1 sw,
      1 <= rate <= ZYNQ_FPD_FPS_MAX /\ (forall v, rate_ok (started_video rate v)) /\
      (arg = 0 -> rate = ZYNQ_FPD_FPS_DEFAULT /\ sw = negb (internal =? 0)) /\
      Z.land g0 ZYNQ_CONFIG_TRIGGER_MASK = 0 /\ Forall2 (starts_cam rate) (filter linked vs) gs /\
      global_on (negb (one =? 0)) sw g1 /\
      did w w' ([((BAR0, ZYNQ_G_CONFIG), g0)] ++ concat gs ++ [((BAR0, ZYNQ_G_CONFIG), g1)])
        (map (on_linked (started_video rate)) vs)) w.
Proof using Hb.
  intros vs Hlk Hcnt. unfold zynq_trigger_enable_all.
  assert (Hread : forall (Q : option (list Z) -> world trig_ctx -> Prop),
    (forall d w1, calmly w w1 -> (d = None -> arg <> 0) ->
       (forall l, d = Some l -> 0 <= l !!! 1%nat) -> Q d w1) ->
    wp (if negb (arg =? 0) then copy_bytes_from_user arg (Z.to_nat sizeof_trigger) else mret (Some [])) Q w).
  { intros Q HQ. destruct (Z.eqb_spec arg 0) as [E|E]; cbn [negb].
    - apply wp_ret, HQ; [apply calmly_refl | done | by intros l [= <-]].
    - apply wp_copy_bytes. intros d w1 Hc Hd. apply HQ; [done | done |]. intros l ->. apply Hd. }
  apply wp_bind, Hread. intros d w1 Hc Hnone Hsome.
  destruct d as [l|]; [| apply wp_ret; left; split; [done |]; split; [by apply Hnone | done]].
  pose proof (trigger_fps_range arg (l !!! 1%nat) (Hsome l eq_refl)) as Hrate.
  set (rate := trigger_fps arg (l !!! 1%nat)) in *. cbv zeta.
  set (sw := negb ((if negb (arg =? 0) then l !!! 2%nat else internal) =? 0)).
  pose proof Hc as (Hs & Hh & _).
  apply wp_bind, wp_spin_lock; [by rewrite Hh |].
  set (w2 := World _ _ _).
  apply wp_bind, wp_global_off. intros w3 g0 Hd3 Hg0.
  assert (Hst3 : w_st w3 = w_st w).
  { destruct Hd3 as (_ & _ & ->). cbn. rewrite Hs. by destruct (w_st w). }
  apply wp_bind, (wp_each_linked _ (started_video rate) (starts_cam rate)).
  - by rewrite Hst3.
  - intros i v w4 Q1 _ HQ1. by apply wp_enable_one.
  - rewrite Hst3. fold vs. intros w4 gs Hgs Hd4. unfold zynq_g_reg_read, zynq_g_reg_write.
    apply wp_bind, wp_io_read; [exact Hb |]. intros r _. apply wp_bind, wp_io_write; [exact Hb |].
    pose proof (did_trans _ _ _ _ _ _ _ Hd3 Hd4) as Hd5.
    eapply wp_bind, wp_spin_unlock; [cbn; rewrite (proj1 Hd4), (proj1 Hd3); reflexivity | by rewrite Hh |].
    apply wp_ret. right. split; [done |]. eexists rate, g0, gs, _, sw.
    split; [done |]. split; [intros v; by apply started_rate_ok |]. split.
    { intros ->. split; reflexivity. }
    split; [done |]. split; [done |]. apply and_comm. split.
    + rewrite app_assoc. apply (did_locked _ _ _ _ _ L_zdev Hc).
      apply did_write, did_emit; [exact I | exact Hd5].
    + unfold global_on. fold sw.
      set (bit := if negb (one =? 0) then ZYNQ_CONFIG_TRIGGER_ONE else ZYNQ_CONFIG_TRIGGER).
      destruct sw; [rewrite <- Z.lor_assoc | rewrite Z.lor_0_r]; apply land_set_u32;
        try (by unfold bit; destruct (negb (one =? 0))); done.
Qed.

(** Disabling the triggers.  The call succeeds; it first clears the global
    trigger bits, then the enable bit of each camera with its link up, in order,
    and resets the frame rate fields of exactly those cameras; the lock is
    released. *)
Theorem trigger_disable_sequence (w : world trig_ctx) :
  let vs := tg_videos (w_st w) in
  forall (Hlk : L_zdev ∉ w_held w)
    (Hcnt : zdev_video_cnt (tg_zdev (w_st w)) = Z.of_nat (length vs)),
  wp zynq_trigger_disable_all (fun rc w' => rc = 0 /\ exists g0 gs,
    Z.land g0 ZYNQ_CONFIG_TRIGGER_MASK = 0 /\ Forall2 stops_cam (filter linked vs) gs /\
    did w w' ([((BAR0, ZYNQ_G_CONFIG), g0)] ++ concat gs) (map (on_linked stopped_video) vs)) w.
Proof using Hb.
  intros vs Hlk Hcnt. unfold zynq_trigger_disable_all.
  apply wp_bind, wp_spin_lock; [done |]. apply wp_bind, wp_global_off. intros w3 g0 Hd3 Hg0.
  assert (Hst3 : w_st w3 = w_st w) by (destruct Hd3 as (_ & _ & ->); cbn; by destruct (w_st w)).
  apply wp_bind, (wp_each_linked _ stopped_video stops_cam).
  - by rewrite Hst3.
  - intros i v w4 Q1 _ HQ1. by apply wp_disable_one.
  - rewrite Hst3. fold vs. intros w4 gs Hgs Hd4.
    eapply wp_bind, wp_spin_unlock; [rewrite (proj1 Hd4), (proj1 Hd3); reflexivity | done |].
    apply wp_ret. split; [done |]. exists g0, gs. split; [done |]. split; [done |].
    apply (did_locked _ _ _ _ _ L_zdev (calmly_refl w)). by eapply did_trans.
Qed.
End trigger_lemmas.

(** ** Witnesses *)
Module TriggerWitness.
Import Video.VideoWitness.
(** two cameras, the first without link *)
Definition dark_cam : zynq_video := video0<|caps ::= fun c => c<|link_up := 0|>|>.
Definition linked_cam : zynq_video := video0<|index := 1|><|reg_base := (BAR0, 0x100)|>.
Definition trig0 : trig_ctx := {|
  tg_zdev := zdev_sample<|zdev_video_cnt := 2|>;
  tg_videos := [dark_cam; linked_cam];
  tg_name := []
|}.
Definition world_t : world trig_ctx := World [] [] trig0.

Lemma trigger_enable_sequence_witness :
  wp (zynq_trigger_enable_all (H := env_zero) (H0 := params_default) 64 0 0) (fun rc w' =>
    rc = - EFAULT /\ 64 <> 0 /\ calmly world_t w' \/
    rc = 0 /\ exists rate g0 gs g1 sw,
      1 <= rate <= ZYNQ_FPD_FPS_MAX /\ (forall v, rate_ok (started_video rate v)) /\
      (64 = 0 -> rate = ZYNQ_FPD_FPS_DEFAULT /\ sw = false) /\
      Z.land g0 ZYNQ_CONFIG_TRIGGER_MASK = 0 /\ Forall2 (starts_cam rate) [linked_cam] gs /\
      global_on false sw g1 /\
      did world_t w' ([((BAR0, ZYNQ_G_CONFIG), g0)] ++ concat gs ++ [((BAR0, ZYNQ_G_CONFIG), g1)])
        [dark_cam; started_video rate linked_cam]) world_t.
Proof.
  apply (trigger_enable_sequence (H := env_zero) (H0 := params_default) eq_refl world_t 64 0 0).
  - apply not_elem_of_nil.
  - reflexivity.
Defined.

Lemma trigger_disable_sequence_witness :
  wp (zynq_trigger_disable_all (H := env_zero) (H0 := params_default)) (fun rc w' => rc = 0 /\
    exists g0 gs, Z.land g0 ZYNQ_CONFIG_TRIGGER_MASK = 0 /\ Forall2 stops_cam [linked_cam] gs /\
    did world_t w' ([((BAR0, ZYNQ_G_CONFIG), g0)] ++ concat gs)
      [dark_cam; stopped_video linked_cam]) world_t.
Proof.
  apply (trigger_disable_sequence (H := env_zero) (H0 := params_default) eq_refl world_t).
  - apply not_elem_of_nil.
  - reflexivity.
Defined.
End TriggerWitness.
