(* ===== verification/Resource.v ===== *)
(** * Resource accounting

    What a run acquires from the kernel and gives back: memory, DMA blocks and
    mappings, pages, interrupts, device nodes.  [delta w w' plus minus] says
    that the run from [w] to [w'] acquired and released the same resources but
    for [plus], which it still holds, and [minus], which it held before. *)

From S2P Require Import Prelude Kernel.

Inductive resource :=
| RMem (p : Z)                 (** [kmalloc] *)
| RDma (p sz : Z)              (** [pci_alloc_consistent] *)
| RPages (p : Z)               (** [alloc_pages] *)
| RMap (dma : Z)               (** [pci_map_single], [pci_map_page] *)
| RIrq (vector cookie : Z)     (** [request_irq] *)
| RMsix | RMsi                 (** [pci_enable_msix], [pci_enable_msi_exact] *)
| RDevice (dev : Z)            (** [device_create] *)
| RCdev (dev : Z)              (** [cdev_add] *)
| RPci                         (** [pci_enable_device] *)
| RIo (p : Z).                 (** [ioremap] *)

(** what one call acquires, and releases *)
Definition acquired (e : event) : option resource :=
  match e with
  | Ev (KAlloc _) p => if p =? 0 then None else Some (RMem p)
  | Ev (DmaAlloc sz) p => if p =? 0 then None else Some (RDma p sz)
  | Ev (AllocPages _) p => if p =? 0 then None else Some (RPages p)
  | Ev (DmaMapError dma) err => if err =? 0 then Some (RMap (u64 dma)) else None
  | Ev (KernelCall "request_irq" [v; c]) rc => if rc =? 0 then Some (RIrq v c) else None
  | Ev (KernelCall "pci_enable_msix" _) rc => if rc =? 0 then Some RMsix else None
  | Ev (KernelCall "pci_enable_msix_range" _) rc => if 0 <? rc then Some RMsix else None
  | Ev (KernelCall "pci_enable_msi_exact" _) rc => if rc <? 0 then None else Some RMsi
  | Ev (KernelCall "device_create" [dev]) p => if p =? 0 then None else Some (RDevice dev)
  | Ev (KernelCall "cdev_add" [dev]) err => if err =? 0 then Some (RCdev dev) else None
  | Ev (KernelCall "pci_enable_device" _) err => if err =? 0 then Some RPci else None
  | Ev (KernelCall "ioremap" _) p => if p =? 0 then None else Some (RIo p)
  | _ => None
  end.
Definition released (e : event) : option resource :=
  match ev_call e with
  | KFree p => if p =? 0 then None else Some (RMem p)
  | DmaFree p _ sz => Some (RDma p sz)
  | FreePages p => Some (RPages p)
  | DmaUnmap dma _ => Some (RMap (u64 dma))
  | KernelCall "free_irq" [v; c] => Some (RIrq v c)
  | KernelCall "pci_disable_msix" _ => Some RMsix
  | KernelCall "pci_disable_msi" _ => Some RMsi
  | KernelCall "device_destroy" [dev] => Some (RDevice dev)
  | KernelCall "cdev_del" [dev] => Some (RCdev dev)
  | KernelCall "pci_disable_device" _ => Some RPci
  | KernelCall "iounmap" [p] => Some (RIo p)
  | _ => None
  end.

Definition acq (l : list event) : list resource := omap acquired l.
Definition rel (l : list event) : list resource := omap released l.

Definition delta {S T} (w : world S) (w' : world T) (plus minus : list resource) : Prop :=
  exists evs, w_log w' = evs ++ w_log w /\ acq evs ++ minus ≡ₚ rel evs ++ plus.

(** a call that touches no resource *)
Definition plain (e : event) : Prop := acquired e = None /\ released e = None.

Section delta.
Context {S : Type}.
Implicit Types w : world S.

Lemma delta_refl w l : delta w w l l.
Proof. by exists []. Qed.

Lemma delta_perm w w' p p' m m' : p ≡ₚ p' -> m ≡ₚ m' -> delta w w' p m -> delta w w' p' m'.
Proof. intros Hp Hm (evs & Hl & He). exists evs. split; [done |]. by rewrite <- Hp, <- Hm. Qed.

Lemma delta_trans w w1 w2 p m p' m' :
  delta w w1 p m -> delta w1 w2 p' m' -> delta w w2 (p ++ p') (m ++ m').
Proof.
  intros (e1 & Hl1 & H1) (e2 & Hl2 & H2). exists (e2 ++ e1).
  rewrite Hl2, Hl1, app_assoc. split; [done |]. unfold acq, rel in *. rewrite !omap_app.
  transitivity ((omap acquired e2 ++ m') ++ (omap acquired e1 ++ m)); [solve_Permutation |].
  rewrite H1, H2. solve_Permutation.
Qed.

(** a resource both acquired and released cancels *)
Lemma delta_cancel w w' l p m : delta w w' (l ++ p) (l ++ m) -> delta w w' p m.
Proof.
  intros (evs & Hl & He). exists evs. split; [done |]. apply (inj (app l)).
  transitivity (acq evs ++ l ++ m); [solve_Permutation |]. rewrite He. solve_Permutation.
Qed.

Lemma delta_step w w1 w2 p m q :
  delta w w1 p m -> delta w1 w2 q [] -> delta w w2 (p ++ q) m.
Proof. intros H1 H2. rewrite <- (app_nil_r m). by eapply delta_trans. Qed.

(** giving back what was acquired *)
Lemma delta_return w w1 w2 p m l :
  delta w w1 (l ++ p) m -> delta w1 w2 [] l -> delta w w2 p m.
Proof.
  intros H1 H2. apply (delta_cancel _ _ l). eapply delta_perm; [| | eapply delta_trans; [exact H1 | exact H2]];
    [by rewrite app_nil_r | apply Permutation_app_comm].
Qed.

Lemma delta_emit w e : delta w (emit e w) (option_list (acquired e)) (option_list (released e)).
Proof.
  exists [e]. split; [done |]. unfold acq, rel. cbn.
  destruct (acquired e), (released e); cbn; solve_Permutation.
Qed.

Lemma delta_plain w w1 p m e : delta w w1 p m -> plain e -> delta w (emit e w1) p m.
Proof.
  intros H1 [Ha Hr]. pose proof (delta_emit w1 e) as H2. rewrite Ha, Hr in H2.
  rewrite <- (app_nil_r p). by eapply delta_step.
Qed.

Lemma delta_world w w' p m l h (s : S) : delta w w' p m -> w_log w' = l -> delta w (World l h s) p m.
Proof. intros (evs & Hl & He) <-. exists evs. by split. Qed.

Lemma delta_same_log w w1 w2 p m : w_log w1 = w_log w -> delta w1 w2 p m -> delta w w2 p m.
Proof. intros Hl (evs & He & Hp). exists evs. by rewrite <- Hl. Qed.
End delta.

#[export] Hint Extern 1 (plain _) => split; reflexivity : basa.
#[export] Hint Resolve delta_refl : basa.

(** ** Arrays of resources

    A state with an array of cells, an operation that fills a cell and one that
    empties it: the loops that fill the array, and undo it from the point of
    failure down or from the start up, account for exactly its cells. *)
Section cells.
Context {S A F : Type} (cells : S -> list A) (res : A -> list resource)
  (good : A -> Prop).
Context (R : S -> S -> Prop) `{!PreOrder R}.
Context (alloc : Z -> M S (option F)) (free : Z -> M S unit).
Context (bad : nat -> F -> S -> list resource -> Prop).
Implicit Types w : world S.

(** filling a cell makes it [good]; a failure leaves [part]; [R] is what the
    operations keep of the rest of the state *)
Definition alloc_ok : Prop := forall i w (Q : option F -> world S -> Prop),
  (i < length (cells (w_st w)))%nat ->
  (forall w' b, delta w w' (res b) [] -> w_held w' = w_held w -> R (w_st w) (w_st w') -> good b ->
     cells (w_st w') = <[i := b]> (cells (w_st w)) -> Q None w') ->
  (forall w' f b part, delta w w' part [] -> w_held w' = w_held w -> R (w_st w) (w_st w') ->
     cells (w_st w') = <[i := b]> (cells (w_st w)) -> bad i f (w_st w') part -> Q (Some f) w') ->
  wp (alloc (Z.of_nat i)) Q w.

Definition free_ok : Prop := forall i x w (Q : unit -> world S -> Prop),
  cells (w_st w) !! i = Some x -> good x ->
  (forall w' b, delta w w' [] (res x) -> w_held w' = w_held w -> R (w_st w) (w_st w') ->
     cells (w_st w') = <[i := b]> (cells (w_st w)) -> Q tt w') ->
  wp (free (Z.of_nat i)) Q w.

(** what a list of cells holds *)
Definition holds (l : list A) : list resource := l ≫= res.

Lemma holds_snoc l x : holds (l ++ [x]) = holds l ++ res x.
Proof. unfold holds. rewrite bind_app. cbn. by rewrite app_nil_r. Qed.

Lemma take_insert_snoc (l : list A) i b :
  (i < length l)%nat -> take (i + 1) (<[i := b]> l) = take i l ++ [b].
Proof.
  intros Hi. rewrite Nat.add_1_r, (take_S_r _ _ b) by (by apply list_lookup_insert_eq).
  by rewrite take_insert_ge by lia.
Qed.

Lemma wp_alloc_cells n k w (Q : option F -> world S -> Prop) :
  alloc_ok -> (k + n <= length (cells (w_st w)))%nat ->
  (forall w' l, delta w w' (holds l) [] -> w_held w' = w_held w -> R (w_st w) (w_st w') -> Forall good l ->
     length (cells (w_st w')) = length (cells (w_st w)) ->
     take (k + n) (cells (w_st w')) = take k (cells (w_st w)) ++ l -> Q None w') ->
  (forall w' l i f part, delta w w' (part ++ holds l) [] -> w_held w' = w_held w ->
     R (w_st w) (w_st w') -> Forall good l -> (k <= i < k + n)%nat ->
     length (cells (w_st w')) = length (cells (w_st w)) ->
     take i (cells (w_st w')) = take k (cells (w_st w)) ++ l -> bad i f (w_st w') part -> Q (Some f) w') ->
  wp (for_break n (Z.of_nat k) alloc) Q w.
Proof using PreOrder0.
  intros Ha. revert k w Q. induction n as [|n IH]; intros k w Q Hk HN HS; cbn [for_break].
  - apply wp_ret, (HN _ []); [apply delta_refl | done | done | by constructor | done | by rewrite Nat.add_0_r, app_nil_r].
  - apply wp_bind, Ha; [lia | |].
    + intros w1 b Hd Hh HR Hg Hc. assert (Hlen : length (cells (w_st w1)) = length (cells (w_st w)))
        by (by rewrite Hc, length_insert).
      assert (Htk : take (k + 1) (cells (w_st w1)) = take k (cells (w_st w)) ++ [b])
        by (rewrite Hc; apply take_insert_snoc; lia).
      replace (Z.of_nat k + 1) with (Z.of_nat (k + 1)) by lia. apply IH; [lia | |].
      * intros w2 l Hd2 Hh2 HR2 Hg2 Hl2 Ht2.
        apply (HN _ (b :: l)); [| congruence | by etransitivity | by constructor | congruence |].
        { cbn. by eapply (delta_step _ _ _ _ []). }
        { replace (k + Datatypes.S n)%nat with (k + 1 + n)%nat by lia. rewrite Ht2, Htk, <- app_assoc. done. }
      * intros w2 l i f part Hd2 Hh2 HR2 Hg2 Hi Hl2 Ht2 Hbad.
        apply (HS _ (b :: l) i f part); [| congruence | by etransitivity | by constructor | lia | congruence | | done].
        { cbn. eapply delta_perm; [| reflexivity | eapply (delta_step _ _ _ _ [] _ Hd Hd2)]. solve_Permutation. }
        { rewrite Ht2, Htk, <- app_assoc. done. }
    + intros w1 f b part Hd Hh HR Hc Hbad. apply wp_ret.
      apply (HS _ [] k f part); [by rewrite app_nil_r | done | done | by constructor | lia | by rewrite Hc, length_insert | | done].
      by rewrite app_nil_r, Hc, take_insert_ge by lia.
Qed.

(** [while (i--) free(i)] *)
Lemma wp_free_down i w (Q : unit -> world S -> Prop) :
  free_ok -> (i <= length (cells (w_st w)))%nat -> Forall good (take i (cells (w_st w))) ->
  (forall w', delta w w' [] (holds (take i (cells (w_st w)))) -> w_held w' = w_held w ->
     R (w_st w) (w_st w') -> length (cells (w_st w')) = length (cells (w_st w)) -> Q tt w') ->
  wp (for_ i 0 (fun k => free (Z.of_nat i - 1 - k))) Q w.
Proof using PreOrder0.
  intros Hf Hi Hg HQ. apply (wp_for (fun k v => exists j, Z.of_nat j = Z.of_nat i - k /\
    delta w v [] (holds (drop j (take i (cells (w_st w))))) /\ w_held v = w_held w /\
    R (w_st w) (w_st v) /\ length (cells (w_st v)) = length (cells (w_st w)) /\
    take j (cells (w_st v)) = take j (cells (w_st w)))).
  - exists i. rewrite drop_ge by (rewrite length_take; lia). split; [lia |].
    split; [apply delta_refl |]. by split_and!.
  - intros k v Hk (j & Hj & Hd & Hh & HR & Hl & Ht). destruct j as [|j]; [lia |].
    replace (Z.of_nat i - 1 - k) with (Z.of_nat j) by lia.
    destruct (lookup_lt_is_Some_2 (cells (w_st w)) j ltac:(lia)) as [x Hx].
    assert (Hxv : cells (w_st v) !! j = Some x).
    { rewrite <- (lookup_take_lt _ (Datatypes.S j)), Ht, lookup_take_lt by lia. exact Hx. }
    apply (Hf j x); [done | |].
    { rewrite Forall_lookup in Hg. apply (Hg j). by rewrite lookup_take_lt by lia. }
    intros w' b Hd' Hh' HR' Hc'.
    exists j. split; [lia |]. split.
    { assert (take i (cells (w_st w)) !! j = Some x) as Hxi by (by rewrite lookup_take_lt by lia).
      rewrite (drop_S _ _ _ Hxi). unfold holds. cbn.
      eapply (delta_perm _ _ ([] ++ []) _ (_ ++ _)); [done | apply Permutation_app_comm |].
      eapply delta_trans; [exact Hd | exact Hd']. }
    split; [congruence |]. split; [by etransitivity |].
    split; [by rewrite Hc', length_insert |].
    rewrite Hc', take_insert_ge by lia.
    apply (f_equal (take j)) in Ht. rewrite !take_take in Ht. by rewrite !Nat.min_l in Ht by lia.
  - intros v (j & Hj & Hd & Hh & HR & Hl & Ht). assert (j = 0%nat) as -> by lia. by apply HQ.
Qed.

(** [for (i = 0; i < n; i++) free(i)] *)
Lemma wp_free_up n w (Q : unit -> world S -> Prop) :
  free_ok -> (n <= length (cells (w_st w)))%nat -> Forall good (take n (cells (w_st w))) ->
  (forall w', delta w w' [] (holds (take n (cells (w_st w)))) -> w_held w' = w_held w ->
     R (w_st w) (w_st w') -> length (cells (w_st w')) = length (cells (w_st w)) -> Q tt w') ->
  wp (for_ n 0 free) Q w.
Proof using PreOrder0.
  intros Hf Hi Hg HQ. apply (wp_for (fun k v => exists j, Z.of_nat j = k /\
    delta w v [] (holds (take j (cells (w_st w)))) /\ w_held v = w_held w /\
    R (w_st w) (w_st v) /\ length (cells (w_st v)) = length (cells (w_st w)) /\
    drop j (cells (w_st v)) = drop j (cells (w_st w)))).
  - exists 0%nat. split; [done |]. split; [apply delta_refl |]. by split_and!.
  - intros k v Hk (j & Hj & Hd & Hh & HR & Hl & Ht). rewrite <- Hj.
    destruct (lookup_lt_is_Some_2 (cells (w_st w)) j ltac:(lia)) as [x Hx].
    assert (Hxv : cells (w_st v) !! j = Some x).
    { rewrite <- (Nat.add_0_r j), <- lookup_drop, Ht, lookup_drop, Nat.add_0_r. exact Hx. }
    apply (Hf j x); [done | |].
    { rewrite Forall_lookup in Hg. apply (Hg j). by rewrite lookup_take_lt by lia. }
    intros w' b Hd' Hh' HR' Hc'.
    exists (Datatypes.S j). split; [lia |]. split.
    { rewrite (take_S_r _ _ _ Hx), holds_snoc. apply (delta_trans _ _ _ [] _ [] _ Hd Hd'). }
    split; [congruence |]. split; [by etransitivity |]. split; [by rewrite Hc', length_insert |].
    rewrite Hc', drop_insert_lt by lia.
    rewrite (drop_S _ _ _ Hx), (drop_S _ _ _ Hxv) in Ht. by injection Ht.
  - intros v (j & Hj & Hd & Hh & HR & Hl & Ht). assert (j = n) as -> by lia. by apply HQ.
Qed.
End cells.
