(* ===== verification/ChanRes.v ===== *)
(** * Resources of a channel

    Initialisation of the transmit ring and of the receive page tables of
    [basa_chan.c], seen through the resource accounting of [Resource]: a failed
    initialisation gives back everything it took, a successful one holds exactly
    the ring's resources, and the finalisation gives exactly those back. *)

From S2P Require Import Resource Device Chan.

(** ** What the structures hold *)

(** a block of memory, none for a null pointer *)
Definition mem_res (p : Z) : list resource := if p =? 0 then [] else [RMem p].

Definition buf_res (bufsz : Z) (dmatype : dma_data_direction) (zb : zchan_buf) : list resource :=
  if decide (dmatype = PCI_DMA_BIDIRECTIONAL) then [RDma (zchan_bufp zb) bufsz]
  else if bufsz <? PAGE_SIZE then mem_res (zchan_bufp zb) ++ [RMap (u64 (zchan_buf_dma zb))]
  else [RPages (zchan_buf_page zb); RMap (u64 (zchan_buf_dma zb))].

Definition tx_res (tx : zchan_tx_ring) : list resource :=
  RDma (zchan_tx_descp_va tx) (zchan_tx_size tx) :: mem_res (zchan_tx_bufp tx)
  ++ holds (buf_res (zchan_tx_bufsz tx) PCI_DMA_TODEVICE) (zchan_tx_bufs tx).

(** ** Buffers *)
Section buffers.
Context `{Env} {S : Type}.
Implicit Types w : world S.

Lemma u64_idemp z : u64 (u64 z) = u64 z.
Proof. unfold u64. by rewrite Z.mod_mod. Qed.

Lemma wp_alloc_consistent sz w (Q : Z * Z -> world S -> Prop) :
  (forall w' p dma, p <> 0 -> delta w w' [RDma p sz] [] -> w_held w' = w_held w ->
     w_st w' = w_st w -> Q (p, dma) w') ->
  (forall w', delta w w' [] [] -> w_held w' = w_held w -> w_st w' = w_st w -> Q (0, 0) w') ->
  wp (zchan_alloc_consistent sz) Q w.
Proof.
  intros H1 H0. unfold zchan_alloc_consistent. apply wp_bind, wp_ask. intros p _.
  destruct (Z.eqb_spec p 0) as [->|Hp].
  - apply wp_ret, H0; [| done | done]. by eexists [_].
  - apply wp_bind, wp_ask. intros dma _. apply wp_ret, H1; [done | | done | done].
    eexists [_; _]. split; [reflexivity |]. unfold acq, rel. cbn. by rewrite (proj2 (Z.eqb_neq _ _) Hp).
Qed.

Lemma wp_alloc_buf zb bufsz dt w (Q : Z * zchan_buf -> world S -> Prop) :
  (forall w' zb', delta w w' (buf_res bufsz dt zb') [] -> w_held w' = w_held w ->
     w_st w' = w_st w -> Q (0, zb') w') ->
  (forall w' zb', delta w w' [] [] -> w_held w' = w_held w -> w_st w' = w_st w -> Q (-1, zb') w') ->
  wp (zchan_alloc_buf true zb bufsz dt) Q w.
Proof.
  intros Hok Hko. unfold zchan_alloc_buf, buf_res in *.
  destruct (decide (dt = PCI_DMA_BIDIRECTIONAL)) as [E|E].
  { apply wp_bind, wp_alloc_consistent.
    - intros w' p dma Hp Hd Hh Hs. rewrite (proj2 (Z.eqb_neq _ _) Hp). by apply wp_ret, Hok.
    - intros w' Hd Hh Hs. by apply wp_ret, Hko. }
  destruct (bufsz <? PAGE_SIZE); apply wp_bind, wp_ask; intros p _;
    destruct (Z.eqb_spec p 0) as [->|Hp]; try (apply wp_ret, Hko; [by eexists [_] | done | done]);
    apply wp_bind, wp_ask; intros dma _; apply wp_bind, wp_ask; intros err _;
    destruct (Z.eqb_spec err 0) as [->|He].
  - apply wp_ret, Hok; [| done | done]. eexists [_; _; _]. split; [reflexivity |].
    unfold acq, rel, mem_res. cbn. rewrite (proj2 (Z.eqb_neq _ _) Hp), u64_idemp. solve_Permutation.
  - apply wp_bind, wp_tell, wp_ret, Hko; [| done | done]. eexists [_; _; _; _]. split; [reflexivity |].
    unfold acq, rel. cbn. by rewrite (proj2 (Z.eqb_neq _ _) Hp), (proj2 (Z.eqb_neq _ _) He).
  - apply wp_bind, wp_ask. intros va _. apply wp_ret, Hok; [| done | done].
    eexists [_; _; _; _]. split; [reflexivity |].
    unfold acq, rel, mem_res. cbn. rewrite (proj2 (Z.eqb_neq _ _) Hp), u64_idemp. solve_Permutation.
  - apply wp_bind, wp_tell, wp_ret, Hko; [| done | done]. eexists [_; _; _; _]. split; [reflexivity |].
    unfold acq, rel. cbn. by rewrite (proj2 (Z.eqb_neq _ _) Hp), (proj2 (Z.eqb_neq _ _) He).
Qed.

Lemma wp_free_consistent p dma sz w (Q : unit -> world S -> Prop) :
  (forall w', delta w w' [] [RDma p sz] -> w_held w' = w_held w -> w_st w' = w_st w -> Q tt w') ->
  wp (zchan_free_consistent p dma sz) Q w.
Proof. intros HQ. apply wp_tell, HQ; [| done | done]. by eexists [_]. Qed.

Lemma wp_kfree p w (Q : unit -> world S -> Prop) :
  (forall w', delta w w' [] (mem_res p) -> w_held w' = w_held w -> w_st w' = w_st w -> Q tt w') ->
  wp (tell (KFree p)) Q w.
Proof.
  intros HQ. apply wp_tell, HQ; [| done | done]. eexists [_]. split; [reflexivity |].
  unfold acq, rel, mem_res. cbn. by destruct (p =? 0).
Qed.

Lemma wp_kalloc sz w (Q : Z -> world S -> Prop) :
  (forall w' p, delta w w' (mem_res p) [] -> w_held w' = w_held w -> w_st w' = w_st w -> Q p w') ->
  wp (ask (KAlloc sz)) Q w.
Proof.
  intros HQ. apply wp_ask. intros p _. apply HQ; [| done | done]. eexists [_]. split; [reflexivity |].
  unfold acq, rel, mem_res. cbn. by destruct (p =? 0).
Qed.

Lemma wp_free_buf zb bufsz dt w (Q : zchan_buf -> world S -> Prop) :
  (forall w', delta w w' [] (buf_res bufsz dt zb) -> w_held w' = w_held w ->
     w_st w' = w_st w -> Q (ZchanBuf 0 0 0) w') ->
  wp (zchan_free_buf true zb bufsz dt) Q w.
Proof.
  intros HQ. unfold zchan_free_buf, buf_res in *. apply wp_bind.
  destruct (decide (dt = PCI_DMA_BIDIRECTIONAL)) as [E|E].
  { apply wp_free_consistent. intros w' Hd Hh Hs. by apply wp_ret, HQ. }
  destruct (bufsz <? PAGE_SIZE); apply wp_bind, wp_when; try done; intros _; apply wp_tell, wp_tell.
  - apply wp_ret, HQ; [| done | done]. eexists [_; _]. split; [reflexivity |].
    unfold acq, rel, mem_res. cbn. by destruct (_ =? 0).
  - apply wp_ret, HQ; [| done | done]. eexists [_; _]. split; [reflexivity |]. done.
Qed.
End buffers.

(** code that touches no resource, and nothing of the state *)
Definition idles {S A} (m : M S A) : Prop :=
  forall w (Q : A -> world S -> Prop),
    (forall a w', delta w w' [] [] -> w_held w' = w_held w -> w_st w' = w_st w -> Q a w') -> wp m Q w.

Section idling.
Context `{Env} `{ModParams}.

Lemma idles_chan_write reg v : idles (zchan_reg_write reg v).
Proof.
  intros w Q HQ. unfold zchan_reg_write, io_write. apply wp_bind, wp_gets.
  destruct zynq_bringup_param; [apply wp_ret, HQ; [apply delta_refl | done | done] |].
  apply wp_tell, HQ; [by eexists [_] | done | done].
Qed.

Lemma idles_mdelay {S} n : idles (mdelay n : M S unit).
Proof. intros w Q HQ. apply wp_tell, HQ; [by eexists [_] | done | done]. Qed.

Lemma idles_ret {S A} (a : A) : idles (mret a : M S A).
Proof. intros w Q HQ. apply wp_ret, HQ; [apply delta_refl | done | done]. Qed.

Lemma idles_bind {S A B} (m : M S A) (f : A -> M S B) :
  idles m -> (forall a, idles (f a)) -> idles (m ≫= f).
Proof.
  intros Hm Hf w Q HQ. apply wp_bind, Hm. intros a w1 Hd1 Hh1 Hs1. apply Hf.
  intros b w2 Hd2 Hh2 Hs2. apply HQ; [| congruence | congruence]. by apply (delta_trans w w1 w2 [] [] [] []).
Qed.

Lemma idles_chan_read reg : idles (zchan_reg_read reg).
Proof.
  intros w Q HQ. unfold zchan_reg_read, io_read. apply wp_bind, wp_gets.
  destruct zynq_bringup_param; [apply wp_ret, HQ; [apply delta_refl | done | done] |].
  apply wp_bind, wp_ask. intros r _. apply wp_ret, HQ; [by eexists [_] | done | done].
Qed.

Lemma idles_for_break {S A} n from (body : Z -> M S (option A)) :
  (forall i, idles (body i)) -> idles (for_break n from body).
Proof.
  intros Hb. revert from. induction n as [|n IH]; intros from; [apply idles_ret |].
  apply idles_bind; [apply Hb |]. intros [a|]; [apply idles_ret | apply IH].
Qed.

Lemma wp_idles {S A} (m : M S unit) (k : M S A) (w0 w : world S) p r (Q : A -> world S -> Prop) :
  idles m -> delta w0 w p r ->
  (forall w', delta w0 w' p r -> w_held w' = w_held w -> w_st w' = w_st w -> wp k Q w') ->
  wp (m;; k) Q w.
Proof.
  intros Hm Hd HQ. apply wp_bind, Hm. intros [] w' Hd' Hh Hs. apply HQ; [| done | done].
  rewrite <- (app_nil_r p). by eapply delta_step.
Qed.
(** starting an account *)
Lemma wp_here {S A} (w : world S) (m : M S A) (Q : A -> world S -> Prop) :
  (forall v, delta w v [] [] -> w_held v = w_held w -> w_st v = w_st w -> wp m Q v) -> wp m Q w.
Proof. intros HQ. apply HQ; [apply delta_refl | done | done]. Qed.
End idling.

(** pass over code that touches no resource, the account so far in [Hd] *)
Ltac idle Hd Hh Hs :=
  let v := fresh "w" in let h := fresh "Hh" in let t := fresh "Hs" in
  eapply wp_idles; [solve [auto with basa] | exact Hd |];
  clear Hd; intros v Hd h t; rewrite <- h in Hh; rewrite <- t in Hs; clear h t.
#[export] Hint Resolve idles_chan_write idles_chan_read idles_mdelay idles_ret idles_bind idles_for_break : basa.

(** ** Transmit ring *)

Definition set_tx_bufs (bs : list zchan_buf) (s : chan_ctx) : chan_ctx :=
  s<|ch_zchan ::= fun c => c<|zchan_tx_ring_of ::= fun t => t<|zchan_tx_bufs := bs|>|>|>.
Definition tx_bufs_of (s : chan_ctx) : list zchan_buf := zchan_tx_bufs (ctx_tx s).
Definition but_tx_bufs (s s' : chan_ctx) : Prop := exists bs, s' = set_tx_bufs bs s.

#[global] Instance but_tx_bufs_preorder : PreOrder but_tx_bufs.
Proof.
  split.
  - intros s. exists (tx_bufs_of s). by destruct s as [? [? ? ? [] ? ? ? ? ? ?]].
  - intros s1 s2 s3 [b1 ->] [b2 ->]. by exists b2.
Qed.

Section tx.
Context `{Env} `{ModParams}.
Implicit Types w : world chan_ctx.

Definition tx_bad (i : nat) (f : Z) (_ : chan_ctx) (part : list resource) : Prop :=
  f = Z.of_nat i /\ part = [].

Lemma tx_alloc_ok :
  alloc_ok tx_bufs_of (buf_res ZCHAN_BUF_SIZE PCI_DMA_TODEVICE) (fun _ => True) but_tx_bufs
    tx_alloc_at tx_bad.
Proof.
  intros i w Q Hi Hok Hko. unfold tx_alloc_at, tx_ring, upd_tx, upd_zchan.
  apply wp_bind, wp_gets. destruct (lookup_lt_is_Some_2 _ _ Hi) as [zb Hzb].
  apply wp_bind, wp_array_get. exists zb. rewrite zlookup_nonneg, Nat2Z.id by lia. split; [exact Hzb |].
  apply wp_bind, wp_alloc_buf.
  - intros w1 zb' Hd Hh Hs. apply wp_bind, wp_modify, wp_ret.
    apply (Hok _ zb'); [by eapply delta_world | done | | done |]; cbn; rewrite Hs; [| done].
    by exists (<[i := zb']> (tx_bufs_of (w_st w))).
  - intros w1 zb' Hd Hh Hs. apply wp_bind, wp_modify, wp_ret.
    apply (Hko _ _ zb' []); [by eapply delta_world | done | | | done]; cbn; rewrite Hs; [| done].
    by exists (<[i := zb']> (tx_bufs_of (w_st w))).
Qed.

Lemma tx_free_ok bufsz :
  free_ok tx_bufs_of (buf_res bufsz PCI_DMA_TODEVICE) (fun _ => True) but_tx_bufs (tx_free_at bufsz).
Proof.
  intros i zb w Q Hzb _ HQ. unfold tx_free_at, tx_ring, upd_tx, upd_zchan.
  apply wp_bind, wp_gets, wp_bind, wp_array_get. exists zb.
  rewrite zlookup_nonneg, Nat2Z.id by lia. split; [exact Hzb |].
  apply wp_bind, wp_free_buf. intros w1 Hd Hh Hs. apply wp_modify.
  apply (HQ _ (ZchanBuf 0 0 0)); [by eapply delta_world | done | |]; cbn; rewrite Hs; [| done].
  by exists (<[i := ZchanBuf 0 0 0]> (tx_bufs_of (w_st w))).
Qed.

Lemma tx_res_bufsz t z :
  tx_res (t<|zchan_tx_bufsz := z|>) =
  RDma (zchan_tx_descp_va t) (zchan_tx_size t) :: mem_res (zchan_tx_bufp t)
  ++ holds (buf_res z PCI_DMA_TODEVICE) (zchan_tx_bufs t).
Proof. reflexivity. Qed.

(** the memory and the descriptor ring kept while the buffers are filled *)
Lemma but_tx_bufs_ring s s' : but_tx_bufs s s' ->
  zchan_tx_descp_va (ctx_tx s') = zchan_tx_descp_va (ctx_tx s) /\
  zchan_tx_dma (ctx_tx s') = zchan_tx_dma (ctx_tx s) /\
  zchan_tx_size (ctx_tx s') = zchan_tx_size (ctx_tx s) /\
  zchan_tx_bufp (ctx_tx s') = zchan_tx_bufp (ctx_tx s) /\
  zchan_tx_num (ctx_tx s') = zchan_tx_num (ctx_tx s).
Proof. intros [bs ->]. by split_and!. Qed.

(** a ring whose resources its finalisation can find *)
Definition tx_ring_set (s : chan_ctx) : Prop :=
  Z.of_nat (length (tx_bufs_of s)) = zchan_tx_num (ctx_tx s).

(** filling the ring and starting the hardware, or giving everything back *)
Lemma wp_tx_fill w0 descp dma w (Q : Z -> world chan_ctx -> Prop) :
  let tx := ctx_tx (w_st w) in
  zchan_tx_descp_va tx = descp -> zchan_tx_num tx = ZCHAN_TX_ENTRIES_CAN -> tx_ring_set (w_st w) ->
  delta w0 w (mem_res (zchan_tx_bufp tx) ++ [RDma descp (zchan_tx_size tx)]) [] ->
  (forall w', delta w0 w' [] [] -> w_held w' = w_held w -> Q (-1) w') ->
  (forall w', delta w0 w' (tx_res (ctx_tx (w_st w'))) [] -> w_held w' = w_held w ->
     tx_ring_set (w_st w') -> Q 0 w') ->
  wp (failed ← for_break (Z.to_nat ZCHAN_TX_ENTRIES_CAN) 0 tx_alloc_at;
      match failed with
      | None =>
          upd_tx (fun tx => tx<|zchan_tx_bufsz := ZCHAN_BUF_SIZE|>);;
          zchan_reg_write ZYNQ_CH_DMA_CONFIG ZYNQ_CH_DMA_TX_EN;;
          zchan_reg_write ZYNQ_CH_TX_HEAD_HI (HI32 dma);;
          zchan_reg_write ZYNQ_CH_TX_HEAD_LO (LO32 dma);;
          zchan_reg_write ZYNQ_CH_TX_TAIL_HI (HI32 dma);;
          zchan_reg_write ZYNQ_CH_TX_TAIL_LO (LO32 dma);;
          zchan_reg_write ZYNQ_CH_TX_RING_SZ (zchan_tx_size tx);;
          zchan_reg_write ZYNQ_CH_DMA_CONTROL ZYNQ_CH_DMA_RD_START;;
          mret 0
      | Some i =>
          for_ (Z.to_nat i) 0 (fun k => tx_free_at ZCHAN_BUF_SIZE (i - 1 - k));;
          tell (KFree (zchan_tx_bufp tx));;
          upd_tx (fun tx => tx<|zchan_tx_bufp := 0|><|zchan_tx_bufs := []|>);;
          zchan_free_consistent descp dma (zchan_tx_size tx);;
          upd_tx (fun tx => tx<|zchan_tx_descp_va := 0|><|zchan_tx_descp := []|>);;
          mret (-1)
      end) Q w.
Proof.
  intros tx Hva Hnum Hset Hd HF HS. unfold upd_tx, upd_zchan.
  assert (Hlen : length (tx_bufs_of (w_st w)) = Z.to_nat ZCHAN_TX_ENTRIES_CAN)
    by (unfold tx_ring_set in Hset; fold tx in Hset; rewrite Hnum in Hset; lia).
  apply wp_bind, (wp_alloc_cells tx_bufs_of (buf_res ZCHAN_BUF_SIZE PCI_DMA_TODEVICE)
    (fun _ => True) but_tx_bufs tx_alloc_at tx_bad _ 0 w); [apply tx_alloc_ok | by rewrite Hlen | |].
  - intros w4 l Hd4 Hh4 HR _ Hl4 Ht4. apply but_tx_bufs_ring in HR as (E1 & _ & E3 & E4 & E5).
    fold tx in E1, E3, E4, E5. apply wp_bind, wp_modify. set (w5 := World _ _ _).
    assert (Hd5 : delta w0 w5 (tx_res (ctx_tx (w_st w5))) []).
    { eapply delta_world; [| reflexivity]. eapply delta_perm; [| done | exact (delta_step _ _ _ _ _ _ Hd Hd4)].
      change (ctx_tx (w_st w5)) with ((ctx_tx (w_st w4))<|zchan_tx_bufsz := ZCHAN_BUF_SIZE|>).
      rewrite tx_res_bufsz, E1, E3, E4, Hva. change (zchan_tx_bufs _) with (tx_bufs_of (w_st w4)).
      rewrite <- (take_ge (tx_bufs_of (w_st w4)) (0 + Z.to_nat ZCHAN_TX_ENTRIES_CAN)), Ht4 by lia.
      solve_Permutation. }
    assert (Hh5 : w_held w5 = w_held w) by exact Hh4.
    assert (Hs5 : w_st w5 = w_st w5) by reflexivity. set (s5 := w_st w5) in Hs5 at 2.
    do 7 idle Hd5 Hh5 Hs5.
    apply wp_ret, HS; rewrite ?Hs5; [exact Hd5 | exact Hh5 |].
    unfold tx_ring_set. change (length (tx_bufs_of s5)) with (length (tx_bufs_of (w_st w4))).
    change (zchan_tx_num (ctx_tx s5)) with (zchan_tx_num (ctx_tx (w_st w4))).
    by rewrite E5, Hnum, Hl4, Hlen, Z2Nat.id.
  - intros w4 l i f part Hd4 Hh4 HR _ Hi Hl4 Ht4 [-> ->]. 
    pose proof HR as (E1 & _ & E3 & E4 & E5)%but_tx_bufs_ring. cbn [app] in Hd4. 
    rewrite Nat2Z.id. apply wp_bind, (wp_free_down tx_bufs_of
      (buf_res ZCHAN_BUF_SIZE PCI_DMA_TODEVICE) (fun _ => True) but_tx_bufs); 
      [apply tx_free_ok | lia | by apply Forall_true |].
    cbn in Ht4. rewrite Ht4. intros w5 Hd5 Hh5 _ _.
    apply wp_bind, wp_kfree. intros w6 Hd6 Hh6 _. apply wp_bind, wp_modify.
    apply wp_bind, wp_free_consistent. intros w7 Hd7 Hh7 _. apply wp_bind, wp_modify, wp_ret.
    apply HF; [| cbn in *; congruence]. eapply delta_world; [| reflexivity].
    assert (H4 : delta w0 w4 (holds (buf_res ZCHAN_BUF_SIZE PCI_DMA_TODEVICE) l ++
        mem_res (zchan_tx_bufp tx) ++ [RDma descp (zchan_tx_size tx)]) []).
    { eapply delta_perm; [apply Permutation_app_comm | done | exact (delta_step _ _ _ _ _ _ Hd Hd4)]. }
    eapply (delta_return w0 w6); [| exact Hd7]. rewrite app_nil_r.
    eapply delta_return; [| exact Hd6]. by eapply delta_return.
Qed.

(** C24: resources of the transmit ring.  Initialisation returns 0 or -1.  After
    -1 everything it took from the kernel is given back, once; after 0 it holds
    exactly the descriptor ring, the buffer array and the buffers with their
    mappings that the ring records, or nothing when the channel has no transmit
    ring.  Finalisation gives back exactly what such a ring records. *)
Theorem tx_ring_resources w :
  wp zchan_init_tx_ring (fun rc w' => w_held w' = w_held w /\
    (rc = -1 /\ delta w w' [] [] \/
     rc = 0 /\ if no_tx_ring (w_st w) then delta w w' [] []
               else tx_ring_set (w_st w') /\ delta w w' (tx_res (ctx_tx (w_st w'))) [])) w /\
  (tx_ring_set (w_st w) ->
   wp zchan_fini_tx_ring (fun _ w' => w_held w' = w_held w /\
     delta w w' [] (if no_tx_ring (w_st w) then [] else tx_res (ctx_tx (w_st w)))) w).
Proof.
  split.
  - unfold zchan_init_tx_ring. apply wp_bind, wp_gets.
    destruct (no_tx_ring (w_st w)); [apply wp_ret; split; [done | right; split; [done | apply delta_refl]] |].
    apply wp_bind, wp_alloc_consistent.
    2:{ intros w1 Hd1 Hh1 _. apply wp_bind, wp_modify, wp_ret. split; [done |]. left.
        split; [done |]. by eapply delta_world. }
    intros w1 descp dma Hp Hd1 Hh1 _. apply wp_bind, wp_modify.
    rewrite (proj2 (Z.eqb_neq _ _) Hp). apply wp_bind, wp_modify.
    apply wp_bind, wp_kalloc. intros w2 bufp Hd2 Hh2 Hs2. cbn in Hd2, Hh2.
    pose proof (delta_step w w1 w2 _ _ _ Hd1 Hd2) as Hd12.
    destruct (Z.eqb_spec bufp 0) as [->|Hb].
    { apply wp_bind, wp_free_consistent. intros w3 Hd3 Hh3 _. apply wp_ret. split; [congruence |].
      left. split; [done |]. by eapply delta_return. }
    apply wp_bind, wp_modify. cbn [w_log w_held w_st]. set (w3 := World _ _ _).
    pose proof (wp_tx_fill w descp dma w3) as Hfill. cbn [w_st w3] in Hfill. rewrite Hs2 in Hfill.
    apply Hfill; clear Hfill.
    + done.
    + done.
    + done.
    + eapply delta_world; [| reflexivity]. eapply delta_perm; [apply Permutation_app_comm | done | exact Hd12].
    + intros w' Hd Hh. split; [rewrite Hh; cbn; congruence | by left].
    + intros w' Hd Hh Hset. split; [rewrite Hh; cbn; congruence | by right].
  - intros Hset. unfold zchan_fini_tx_ring, tx_ring, upd_tx, upd_zchan. apply wp_bind, wp_gets.
    destruct (no_tx_ring (w_st w)); [apply wp_ret; split; [done | apply delta_refl] |].
    apply (wp_here w). intros v Hd Hh Hs. do 7 idle Hd Hh Hs.
    apply wp_bind, wp_gets. rewrite Hs. fold (ctx_tx (w_st w)). set (tx := ctx_tx (w_st w)) in *.
    unfold tx_ring_set in Hset. rewrite <- Hs in Hset.
    assert (Hn : length (tx_bufs_of (w_st w6)) = Z.to_nat (zchan_tx_num tx))
      by (rewrite Hs in Hset |- *; fold tx in Hset; lia).
    apply wp_bind, (wp_free_up tx_bufs_of (buf_res (zchan_tx_bufsz tx) PCI_DMA_TODEVICE) (fun _ => True) but_tx_bufs);
      [apply tx_free_ok | lia | by apply Forall_true |].
    rewrite <- Hn, firstn_all, Hs. intros v2 Hd2 Hh2 _ _.
    apply wp_bind, wp_kfree. intros v3 Hd3 Hh3 _. apply wp_bind, wp_modify.
    apply wp_bind, wp_free_consistent. intros v4 Hd4 Hh4 _. apply wp_modify.
    split; [cbn in *; congruence |]. eapply delta_world; [| reflexivity].
    eapply delta_perm; [done | | exact (delta_trans _ _ _ [] _ [] _ (delta_trans _ _ _ [] _ [] _
      (delta_trans _ _ _ [] _ [] _ Hd Hd2) Hd3) Hd4)].
    unfold tx_res. change (zchan_tx_bufs tx) with (tx_bufs_of (w_st w)). solve_Permutation.
Qed.
End tx.

(** ** A concrete ring *)
Module TxResWitness.
#[local] Existing Instance params_default.
(** an environment that grants every allocation but the first [n] mappings only *)
Definition env_maps (n : nat) : Env := fun l c =>
  match c with
  | DmaMapError _ => if (length (List.filter (fun e => match ev_call e with DmaMapError _ => true | _ => false end) l) <? n)%nat
                     then 0 else 1
  | _ => 0x1000
  end.
Definition world_dma (l : list event) (tx : zchan_tx_ring) : world chan_ctx :=
  World l [] (ChanCtx (zdev_sample<|zcan_tx_dma := 1|>) (zchan_sample<|zchan_tx_ring_of := tx|>)).
Definition ring2 : zchan_tx_ring := {|
  zchan_tx_descp := [TxDesc 16 0x10000; TxDesc 16 0x11000];
  zchan_tx_descp_va := 0x5000; zchan_tx_dma := 0x8000; zchan_tx_size := 32; zchan_tx_num := 2;
  zchan_tx_head := 0; zchan_tx_tail := 0; zchan_tx_bufsz := 4096;
  zchan_tx_bufs := [ZchanBuf 1 0x77 0x10000; ZchanBuf 2 0x78 0x11000]; zchan_tx_bufp := 0x6000
|}.

(** result, and how many resources were taken and given back *)
Definition account {S} (o : outcome S Z) : option (Z * Z * Z) :=
  match o with
  | Ret rc w => Some (rc, Z.of_nat (length (acq (w_log w))), Z.of_nat (length (rel (w_log w))))
  | _ => None
  end.
Definition env_ok : Env := fun _ c => match c with DmaMapError _ => 0 | _ => 0x1000 end.

(** both outcomes occur: the third mapping fails, or none does *)
Example tx_init_outcomes :
  (let _ := env_maps 2 in account (zchan_init_tx_ring (world_dma [] tx_ring_zero))) = Some (-1, 7, 7) /\
  (let _ := env_ok in account (zchan_init_tx_ring (world_dma [] tx_ring_zero))) = Some (0, 2050, 0).
Proof. split; vm_compute; reflexivity. Qed.

Example tx_ring_resources_witness :
  let w := world_dma [] ring2 in
  tx_ring_set (w_st w) /\
  wp zchan_fini_tx_ring (fun _ w' => delta w w' []
    [RDma 0x5000 32; RMem 0x6000; RPages 0x77; RMap 0x10000; RPages 0x78; RMap 0x11000]) w.
Proof.
  split; [reflexivity |]. eapply wp_mono.
  - apply (tx_ring_resources (H := env_maps 9) (world_dma [] ring2)). reflexivity.
  - intros [] w' [_ Hd]. exact Hd.
Defined.
End TxResWitness.
