(* ===== verification/RxRes.v ===== *)
(** * Resources of the receive page tables

    The same accounting for [zchan_init_rx_tbl] and [zchan_fini_rx_tbl]: a
    directory of page tables, each with its array of mapped buffers.  The loops
    over the tables and over the buffers of a table are two instances of the
    rules of [Resource]. *)

From S2P Require Import Resource Device Chan ChanRes.

Definition ctx_rx (s : chan_ctx) : zchan_rx_tbl := zchan_rx_tbl_of (ch_zchan s).
Definition ptp_of (s : chan_ctx) : list zchan_rx_pt := zchan_rx_ptp (ctx_rx s).

(** what a page table, and the whole directory, hold *)
Definition pt_res (bufsz : Z) (dt : dma_data_direction) (pt : zchan_rx_pt) : list resource :=
  RDma (zchan_rx_pt_va pt) ZCHAN_RX_PT_SIZE :: mem_res (zchan_rx_pt_bufp pt)
  ++ holds (buf_res bufsz dt) (zchan_rx_pt_bufs pt).
Definition rx_res (dt : dma_data_direction) (rx : zchan_rx_tbl) : list resource :=
  RDma (zchan_rx_pdt_va rx) (zchan_rx_pdt_num rx * sizeof_u64) :: mem_res (zchan_rx_ptp_va rx)
  ++ holds (pt_res (zchan_rx_bufsz rx) dt) (zchan_rx_ptp rx).

(** a page table with all its buffers *)
Definition pt_good (pt : zchan_rx_pt) : Prop :=
  length (zchan_rx_pt_bufs pt) = Z.to_nat ZCHAN_RX_PT_ENTRIES /\
  zchan_rx_pt_buf_num pt = ZCHAN_RX_PT_ENTRIES.

(** states that differ in the page tables and the directory's entries only *)
Definition set_ptp (ps : list zchan_rx_pt) (pds : list Z) (s : chan_ctx) : chan_ctx :=
  s<|ch_zchan ::= fun c => c<|zchan_rx_tbl_of ::= fun t => t<|zchan_rx_ptp := ps|><|zchan_rx_pdt := pds|>|>|>.
Definition but_ptp (s s' : chan_ctx) : Prop := exists ps pds, s' = set_ptp ps pds s.
#[global] Instance but_ptp_preorder : PreOrder but_ptp.
Proof.
  split.
  - intros s. exists (ptp_of s), (zchan_rx_pdt (ctx_rx s)). by destruct s as [? [? ? ? ? [] ? ? ? ? ?]].
  - intros s1 s2 s3 (b1 & d1 & ->) (b2 & d2 & ->). by exists b2, d2.
Qed.

(** in the buffers and entries of one table only *)
Definition pt_with (bs : list zchan_buf) (es : list Z) (pt : zchan_rx_pt) : zchan_rx_pt :=
  pt<|zchan_rx_pt_bufs := bs|><|zchan_rx_pt_entry := es|>.
Definition pt_bufs_of (i : nat) (s : chan_ctx) : list zchan_buf :=
  default [] (zchan_rx_pt_bufs <$> ptp_of s !! i).
Definition but_pt (i : nat) (s s' : chan_ctx) : Prop :=
  ptp_of s !! i = None /\ s' = s \/
  exists pt bs es, ptp_of s !! i = Some pt /\
    s' = set_ptp (<[i := pt_with bs es pt]> (ptp_of s)) (zchan_rx_pdt (ctx_rx s)) s.

Lemma set_ptp_id s : set_ptp (ptp_of s) (zchan_rx_pdt (ctx_rx s)) s = s.
Proof. by destruct s as [? [? ? ? ? [] ? ? ? ? ?]]. Qed.

Lemma but_pt_set i ps pds s pt bs es :
  ps !! i = Some pt ->
  but_pt i (set_ptp ps pds s) (set_ptp (<[i := pt_with bs es pt]> ps) pds s).
Proof. intros Hpt. right. by exists pt, bs, es. Qed.

#[global] Instance but_pt_preorder i : PreOrder (but_pt i).
Proof.
  split.
  - intros s. destruct (ptp_of s !! i) as [pt|] eqn:E; [right | by left].
    exists pt, (zchan_rx_pt_bufs pt), (zchan_rx_pt_entry pt). split; [done |].
    assert (pt_with (zchan_rx_pt_bufs pt) (zchan_rx_pt_entry pt) pt = pt) as -> by (by destruct pt).
    by rewrite list_insert_id, set_ptp_id.
  - intros s1 s2 s3 [[E1 ->]|(p1 & b1 & e1 & E1 & ->)]; [done |].
    intros [[E2 ->]|(p2 & b2 & e2 & E2 & ->)]; right.
    + exists p1, b1, e1. by split.
    + exists p1, b2, e2. split; [done |]. cbn in E2.
      rewrite list_lookup_insert_eq in E2 by (by eapply lookup_lt_Some). injection E2 as <-.
      unfold ptp_of at 2. cbn. fold (ptp_of s1). by rewrite list_insert_insert_eq.
Qed.

Section rx.
Context `{Env} `{ModParams}.
Implicit Types w : world chan_ctx.

Lemma wp_rx_pt_get i pt w (Q : zchan_rx_pt -> world chan_ctx -> Prop) :
  ptp_of (w_st w) !! i = Some pt -> Q pt w -> wp (rx_pt_get (Z.of_nat i)) Q w.
Proof.
  intros Hpt HQ. unfold rx_pt_get, rx_tbl. apply wp_bind, wp_gets, wp_array_get. exists pt.
  by rewrite zlookup_nonneg, Nat2Z.id by lia.
Qed.

Lemma wp_rx_pt_upd i pt f w (Q : unit -> world chan_ctx -> Prop) :
  ptp_of (w_st w) !! i = Some pt ->
  Q tt (World (w_log w) (w_held w)
    (set_ptp (<[i := f pt]> (ptp_of (w_st w))) (zchan_rx_pdt (ctx_rx (w_st w))) (w_st w))) ->
  wp (rx_pt_upd (Z.of_nat i) f) Q w.
Proof.
  intros Hpt HQ. unfold rx_pt_upd, upd_rx, upd_zchan. apply wp_modify. rewrite Nat2Z.id.
  assert (Ha : alter f i (ptp_of (w_st w)) = <[i := f pt]> (ptp_of (w_st w))).
  { rewrite list_insert_alter. apply list_alter_ext; [| done]. intros x Hx. congruence. }
  rewrite <- Ha in HQ. clear Ha Hpt. destruct w as [l h s].
  by destruct s as [? [? ? ? ? [] ? ? ? ? ?]].
Qed.

Lemma idles_sync (b : bool) dma sz : idles (when b (tell (DmaSync dma sz)) : M chan_ctx unit).
Proof.
  intros w Q HQ. destruct b; [| apply wp_ret, HQ; [apply delta_refl | done | done]].
  apply wp_tell, HQ; [by eexists [_] | done | done].
Qed.

Definition buf_bad (j : nat) (f : Z) (_ : chan_ctx) (part : list resource) : Prop :=
  f = Z.of_nat j /\ part = [].

Lemma rx_buf_alloc_ok bufsz dt i :
  alloc_ok (pt_bufs_of i) (buf_res bufsz dt) (fun _ => True) (but_pt i)
    (rx_buf_alloc bufsz dt (Z.of_nat i)) buf_bad.
Proof.
  intros j w Q Hj Hok Hko. unfold rx_buf_alloc.
  unfold pt_bufs_of in Hj. destruct (ptp_of (w_st w) !! i) as [pt|] eqn:Hpt; [cbn in Hj | cbn in Hj; lia].
  assert (Hbufs : pt_bufs_of i (w_st w) = zchan_rx_pt_bufs pt) by (unfold pt_bufs_of; by rewrite Hpt).
  destruct (lookup_lt_is_Some_2 _ _ Hj) as [zb Hzb]. assert (Hi := lookup_lt_Some _ _ _ Hpt).
  apply wp_bind, (wp_rx_pt_get i pt); [done |]. apply wp_bind, wp_array_get. exists zb.
  rewrite zlookup_nonneg, Nat2Z.id by lia. split; [exact Hzb |].
  apply wp_bind, wp_alloc_buf; intros w1 zb' Hd Hh Hs; rewrite <- Hs in Hpt, Hbufs, Hi;
    apply wp_bind, (wp_rx_pt_upd i pt); try done; rewrite ?Nat2Z.id; cbn [Z.eqb].
  - set (pt1 := pt<|zchan_rx_pt_bufs ::= <[j := zb']>|>).
    apply wp_bind, idles_sync. intros [] w2 Hd2 Hh2 Hs2. cbn [w_st w_held] in Hs2, Hh2.
    apply wp_bind, (wp_rx_pt_upd i pt1).
    { rewrite Hs2. cbn. by rewrite list_lookup_insert_eq. }
    rewrite Hs2. apply wp_ret, (Hok _ zb'); [| cbn; congruence | | done |].
    + eapply delta_world; [| reflexivity]. rewrite <- (app_nil_r (buf_res _ _ _)).
      eapply delta_step; [| exact Hd2]. by eapply delta_world.
    + rewrite <- Hs. right. eexists pt, _, _. split; [done |]. unfold ptp_of at 1, ctx_rx. cbn.
      fold (ctx_rx (w_st w1)). fold (ptp_of (w_st w1)). by rewrite list_insert_insert_eq.
    + rewrite <- Hs, Hbufs. unfold pt_bufs_of, ptp_of, ctx_rx. cbn. fold (ctx_rx (w_st w1)). fold (ptp_of (w_st w1)).
      by rewrite list_insert_insert_eq, list_lookup_insert_eq.
  - apply wp_ret, (Hko _ _ zb' []); [by eapply delta_world | done | | | done].
    + rewrite <- Hs. right. by eexists pt, _, _.
    + rewrite <- Hs, Hbufs. unfold pt_bufs_of. cbn. fold (ctx_rx (w_st w1)). fold (ptp_of (w_st w1)).
      by rewrite list_lookup_insert_eq.
Qed.

Lemma rx_buf_free_ok bufsz dt i :
  free_ok (pt_bufs_of i) (buf_res bufsz dt) (fun _ => True) (but_pt i)
    (rx_buf_free bufsz dt (Z.of_nat i)).
Proof.
  intros j zb w Q Hzb _ HQ. unfold rx_buf_free. unfold pt_bufs_of in Hzb.
  destruct (ptp_of (w_st w) !! i) as [pt|] eqn:Hpt; [cbn in Hzb | done].
  assert (Hbufs : pt_bufs_of i (w_st w) = zchan_rx_pt_bufs pt) by (unfold pt_bufs_of; by rewrite Hpt).
  assert (Hi := lookup_lt_Some _ _ _ Hpt).
  apply wp_bind, (wp_rx_pt_get i pt); [done |]. apply wp_bind, wp_array_get. exists zb.
  rewrite zlookup_nonneg, Nat2Z.id by lia. split; [exact Hzb |].
  apply wp_bind, wp_free_buf. intros w1 Hd Hh Hs. rewrite <- Hs in Hpt, Hbufs, Hi.
  apply (wp_rx_pt_upd i pt); [done |]. rewrite ?Nat2Z.id.
  apply (HQ _ (ZchanBuf 0 0 0)); [by eapply delta_world | done | |].
  - rewrite <- Hs. right. by eexists pt, _, _.
  - rewrite <- Hs, Hbufs. unfold pt_bufs_of. cbn. fold (ctx_rx (w_st w1)). fold (ptp_of (w_st w1)).
    by rewrite list_lookup_insert_eq.
Qed.

(** [s'] is [s] with table [i] replaced by [p], and some directory entries *)
Definition at_pt (i : nat) (p : zchan_rx_pt) (s s' : chan_ctx) : Prop :=
  (i < length (ptp_of s))%nat /\ exists pds, s' = set_ptp (<[i := p]> (ptp_of s)) pds s.

Lemma at_pt_lookup i p s s' : at_pt i p s s' -> ptp_of s' !! i = Some p.
Proof. intros (Hi & pds & ->). unfold ptp_of, ctx_rx at 1. cbn. by rewrite list_lookup_insert_eq. Qed.

Lemma at_pt_cells i p s s' : at_pt i p s s' -> ptp_of s' = <[i := p]> (ptp_of s) /\ but_ptp s s'.
Proof. intros (Hi & pds & ->). split; [done |]. by eexists _, _. Qed.

Lemma at_pt_start i p s : ptp_of s !! i = Some p -> at_pt i p s s.
Proof.
  intros Hp. split; [by eapply lookup_lt_Some |]. exists (zchan_rx_pdt (ctx_rx s)).
  by rewrite list_insert_id, set_ptp_id.
Qed.

Lemma at_pt_but i p s s1 s2 : at_pt i p s s1 -> but_pt i s1 s2 ->
  exists bs es, at_pt i (pt_with bs es p) s s2.
Proof.
  intros Ha [[E ->]|(q & bs & es & E & ->)].
  - by rewrite (at_pt_lookup _ _ _ _ Ha) in E.
  - rewrite (at_pt_lookup _ _ _ _ Ha) in E. injection E as <-. exists bs, es.
    destruct Ha as (Hi & pds & ->). split; [done |]. exists pds.
    unfold ptp_of at 1, ctx_rx. cbn. fold (ctx_rx s). fold (ptp_of s). by rewrite list_insert_insert_eq.
Qed.

(** updating the table, and a directory entry *)
Lemma wp_at_upd i p f s w (Q : unit -> world chan_ctx -> Prop) :
  at_pt i p s (w_st w) ->
  (forall s', at_pt i (f p) s s' -> Q tt (World (w_log w) (w_held w) s')) ->
  wp (rx_pt_upd (Z.of_nat i) f) Q w.
Proof.
  intros Ha HQ. apply (wp_rx_pt_upd i p); [by eapply at_pt_lookup |]. apply HQ.
  destruct Ha as (Hi & pds & ->). split; [done |]. exists pds.
  unfold ptp_of at 1, ctx_rx. cbn. fold (ctx_rx s). fold (ptp_of s). by rewrite list_insert_insert_eq.
Qed.

Lemma at_pt_pdt i p s s' f : at_pt i p s s' ->
  at_pt i p s (s'<|ch_zchan ::= fun c => c<|zchan_rx_tbl_of ::= fun rx => rx<|zchan_rx_pdt ::= f|>|>|>).
Proof. intros (Hi & pds & ->). split; [done |]. by exists (f pds). Qed.

(** what a failed table leaves: nothing, or the table with its first buffers *)
Definition pt_bad (bufsz : Z) (dt : dma_data_direction) (i : nat) (f : rx_failure) (s : chan_ctx)
    (part : list resource) : Prop :=
  f = Pt_alloc_fail (Z.of_nat i) /\ part = [] \/
  exists p j, f = Buf_alloc_fail (Z.of_nat i) (Z.of_nat j) /\ ptp_of s !! i = Some p /\
    (j <= length (zchan_rx_pt_bufs p))%nat /\
    part = RDma (zchan_rx_pt_va p) ZCHAN_RX_PT_SIZE :: mem_res (zchan_rx_pt_bufp p)
           ++ holds (buf_res bufsz dt) (take j (zchan_rx_pt_bufs p)).

Lemma but_pt_bufs i p s s' : at_pt i p s s' -> pt_bufs_of i s' = zchan_rx_pt_bufs p.
Proof. intros Ha. unfold pt_bufs_of. by rewrite (at_pt_lookup _ _ _ _ Ha). Qed.

(** filling a table whose buffer array is allocated *)
Lemma wp_pt_fill bufsz dt i p s w0 w (Q : option rx_failure -> world chan_ctx -> Prop) :
  at_pt i p s (w_st w) -> pt_good p -> w_held w = w_held w0 ->
  delta w0 w (RDma (zchan_rx_pt_va p) ZCHAN_RX_PT_SIZE :: mem_res (zchan_rx_pt_bufp p)) [] ->
  (forall w' q, at_pt i q s (w_st w') -> pt_good q -> delta w0 w' (pt_res bufsz dt q) [] ->
     w_held w' = w_held w0 -> Q None w') ->
  (forall w' q f part, at_pt i q s (w_st w') -> pt_bad bufsz dt i f (w_st w') part ->
     delta w0 w' part [] -> w_held w' = w_held w0 -> Q (Some f) w') ->
  wp (failed ← for_break (Z.to_nat ZCHAN_RX_PT_ENTRIES) 0 (rx_buf_alloc bufsz dt (Z.of_nat i));
      mret (Buf_alloc_fail (Z.of_nat i) <$> failed)) Q w.
Proof.
  intros Ha [Hg Hn] Hh Hd Hok Hko. pose proof (but_pt_bufs _ _ _ _ Ha) as Hb.
  apply wp_bind, (wp_alloc_cells (pt_bufs_of i) (buf_res bufsz dt) (fun _ => True) (but_pt i)
    (rx_buf_alloc bufsz dt (Z.of_nat i)) buf_bad _ 0 w);
    [apply rx_buf_alloc_ok | by rewrite Hb, Hg | |].
  - intros w1 l Hd1 Hh1 HR _ Hl Ht. destruct (at_pt_but _ _ _ _ _ Ha HR) as (bs & es & Ha').
    apply wp_ret, (Hok _ (pt_with bs es p)); [done | | | congruence].
    + split; [| done]. cbn. rewrite <- Hg, <- Hb, <- Hl. by rewrite (but_pt_bufs _ _ _ _ Ha').
    + unfold pt_res. cbn. change (_ :: ?a ++ ?b) with ((RDma (zchan_rx_pt_va p) ZCHAN_RX_PT_SIZE :: mem_res (zchan_rx_pt_bufp p)) ++ b).
      eapply delta_step; [exact Hd |]. replace bs with l; [exact Hd1 |].
      change (take 0 _ ++ l) with l in Ht. rewrite <- Ht, (but_pt_bufs _ _ _ _ Ha').
      rewrite take_ge; [done |]. cbn [Nat.add].
      rewrite <- Hg, <- Hb, <- Hl. by rewrite (but_pt_bufs _ _ _ _ Ha').
  - intros w1 l j f part Hd1 Hh1 HR _ Hj Hl Ht [-> ->]. cbn [app] in Hd1.
    destruct (at_pt_but _ _ _ _ _ Ha HR) as (bs & es & Ha').
    apply wp_ret, (Hko _ (pt_with bs es p) _
      ((RDma (zchan_rx_pt_va p) ZCHAN_RX_PT_SIZE :: mem_res (zchan_rx_pt_bufp p)) ++ holds (buf_res bufsz dt) l));
      [done | | by eapply delta_step | congruence].
    right. exists (pt_with bs es p), j. rewrite (at_pt_lookup _ _ _ _ Ha'). split; [done |]. split; [done |].
    rewrite (but_pt_bufs _ _ _ _ Ha') in Hl, Ht. change (take 0 _ ++ l) with l in Ht.
    rewrite Ht. split; [rewrite Hl, Hb, Hg; lia | done].
Qed.

Lemma rx_pt_alloc_ok bufsz dt :
  alloc_ok ptp_of (pt_res bufsz dt) pt_good but_ptp (rx_pt_alloc bufsz dt) (pt_bad bufsz dt).
Proof.
  intros i w Q Hi Hok Hko. destruct (lookup_lt_is_Some_2 _ _ Hi) as [p Hp].
  pose proof (at_pt_start _ _ _ Hp) as Ha. unfold rx_pt_alloc.
  assert (Hko0 : forall w' q, at_pt i q (w_st w) (w_st w') -> delta w w' [] [] -> w_held w' = w_held w ->
    Q (Some (Pt_alloc_fail (Z.of_nat i))) w').
  { intros w' q Ha' Hd Hh. destruct (at_pt_cells _ _ _ _ Ha'). apply (Hko _ _ q []); try done. by left. }
  apply wp_bind, wp_alloc_consistent.
  2:{ intros w1 Hd1 Hh1 Hs1. rewrite <- Hs1 in Ha at 2. apply wp_bind; eapply wp_at_upd; [exact Ha |].
      intros s1 Ha1. apply wp_ret. eapply Hko0; [exact Ha1 | by eapply delta_world | done]. }
  intros w1 va dma Hva Hd1 Hh1 Hs1. rewrite <- Hs1 in Ha at 2. apply wp_bind; eapply wp_at_upd; [exact Ha |].
  intros s1 Ha1. rewrite (proj2 (Z.eqb_neq _ _) Hva). apply wp_bind; eapply wp_at_upd; [exact Ha1 |].
  intros s2 Ha2. unfold upd_rx, upd_zchan. apply wp_bind, wp_modify. cbn [w_log w_held w_st].
  apply wp_bind, wp_kalloc. intros w3 bufp Hd3 Hh3 Hs3. cbn [w_held w_log w_st] in Hh3, Hs3.
  apply (at_pt_pdt _ _ _ _ <[Z.to_nat (Z.of_nat i) := dma]>) in Ha2. rewrite <- Hs3 in Ha2.
  assert (Hd : delta w w3 ([RDma va ZCHAN_RX_PT_SIZE] ++ mem_res bufp) [])
    by (eapply delta_step; [| exact Hd3]; by eapply delta_world).
  destruct (Z.eqb_spec bufp 0) as [->|Hb].
  { apply wp_bind, wp_free_consistent. intros w4 Hd4 Hh4 Hs4. rewrite <- Hs4 in Ha2.
    apply wp_ret. eapply Hko0; [exact Ha2 | by eapply delta_return | congruence]. }
  apply wp_bind; eapply wp_at_upd; [exact Ha2 |]. intros s4 Ha4.
  eapply (wp_pt_fill bufsz dt i _ _ w); [exact Ha4 | | | | |].
  - split; [apply length_replicate | done].
  - cbn. congruence.
  - eapply delta_world; [exact Hd | done].
  - intros w5 q Ha5 Hg Hd5 Hh5. destruct (at_pt_cells _ _ _ _ Ha5). by apply (Hok _ q).
  - intros w5 q f part Ha5 Hbad Hd5 Hh5. destruct (at_pt_cells _ _ _ _ Ha5). by apply (Hko _ f q part).
Qed.

(** freeing a table: its buffers, the array, the table *)
Lemma wp_pt_release bufsz dt i q w (Q : unit -> world chan_ctx -> Prop) :
  ptp_of (w_st w) !! i = Some q ->
  (forall w' b, delta w w' [] (pt_res bufsz dt q) -> w_held w' = w_held w ->
     but_ptp (w_st w) (w_st w') -> ptp_of (w_st w') = <[i := b]> (ptp_of (w_st w)) -> Q tt w') ->
  wp (for_ (length (zchan_rx_pt_bufs q)) 0 (rx_buf_free bufsz dt (Z.of_nat i));; rx_pt_free (Z.of_nat i)) Q w.
Proof.
  intros Hq HQ. pose proof (at_pt_start _ _ _ Hq) as Ha. pose proof (but_pt_bufs _ _ _ _ Ha) as Hb.
  apply wp_bind, (wp_free_up (pt_bufs_of i) (buf_res bufsz dt) (fun _ => True) (but_pt i));
    [apply rx_buf_free_ok | by rewrite Hb | by apply Forall_true |].
  rewrite Hb, firstn_all. intros w1 Hd1 Hh1 HR _. destruct (at_pt_but _ _ _ _ _ Ha HR) as (bs & es & Ha1).
  unfold rx_pt_free. apply wp_bind, (wp_rx_pt_get i (pt_with bs es q)); [by eapply at_pt_lookup |].
  apply wp_bind, wp_kfree. intros w2 Hd2 Hh2 Hs2. apply wp_free_consistent. intros w3 Hd3 Hh3 Hs3.
  rewrite <- Hs2, <- Hs3 in Ha1. destruct (at_pt_cells _ _ _ _ Ha1) as [Hc HR3].
  apply (HQ _ (pt_with bs es q)); [| congruence | done | done].
  eapply delta_perm; [done | | exact (delta_trans _ _ _ [] _ [] _ (delta_trans _ _ _ [] _ [] _ Hd1 Hd2) Hd3)].
  unfold pt_res. cbn. solve_Permutation.
Qed.

Lemma rx_pt_free_ok bufsz dt :
  free_ok ptp_of (pt_res bufsz dt) pt_good but_ptp (fun i =>
    for_ (Z.to_nat ZCHAN_RX_PT_ENTRIES) 0 (rx_buf_free bufsz dt i);; rx_pt_free i).
Proof.
  intros i q w Q Hq [Hg _] HQ. rewrite <- Hg. by apply wp_pt_release.
Qed.

Lemma rx_pt_fini_ok bufsz dt :
  free_ok ptp_of (pt_res bufsz dt) pt_good but_ptp (fun i =>
    pt ← rx_pt_get i;
    for_ (Z.to_nat (zchan_rx_pt_buf_num pt)) 0 (rx_buf_free bufsz dt i);; rx_pt_free i).
Proof.
  intros i q w Q Hq [Hg Hn] HQ. apply wp_bind, (wp_rx_pt_get i q); [done |].
  rewrite Hn, <- Hg. by apply wp_pt_release.
Qed.

Lemma but_ptp_tbl s s' : but_ptp s s' ->
  zchan_rx_pdt_va (ctx_rx s') = zchan_rx_pdt_va (ctx_rx s) /\
  zchan_rx_pdt_num (ctx_rx s') = zchan_rx_pdt_num (ctx_rx s) /\
  zchan_rx_ptp_va (ctx_rx s') = zchan_rx_ptp_va (ctx_rx s) /\
  zchan_rx_bufsz (ctx_rx s') = zchan_rx_bufsz (ctx_rx s).
Proof. intros (ps & pds & ->). by split_and!. Qed.

(** [pt_alloc_fail:] gives back the first tables, the array and the directory *)
Lemma wp_unwind_pt bufsz dt i pdt_size w0 w (Q : unit -> world chan_ctx -> Prop) :
  let rx := ctx_rx (w_st w) in
  (i <= length (ptp_of (w_st w)))%nat -> Forall pt_good (take i (ptp_of (w_st w))) ->
  delta w0 w (holds (pt_res bufsz dt) (take i (ptp_of (w_st w))) ++
    mem_res (zchan_rx_ptp_va rx) ++ [RDma (zchan_rx_pdt_va rx) pdt_size]) [] ->
  (forall w', delta w0 w' [] [] -> w_held w' = w_held w -> Q tt w') ->
  wp (rx_tbl_unwind_pt bufsz dt (Z.of_nat i) pdt_size) Q w.
Proof.
  intros rx Hi Hg Hd HQ. unfold rx_tbl_unwind_pt, rx_tbl, upd_rx, upd_zchan. rewrite Nat2Z.id.
  apply wp_bind, (wp_free_down ptp_of (pt_res bufsz dt) pt_good but_ptp (fun i =>
    for_ (Z.to_nat ZCHAN_RX_PT_ENTRIES) 0 (rx_buf_free bufsz dt i);; rx_pt_free i));
    [apply rx_pt_free_ok | done | done |].
  intros w1 Hd1 Hh1 HR _. apply but_ptp_tbl in HR as (E1 & _ & E3 & _). fold rx in E1, E3.
  apply wp_bind, wp_gets. fold (ctx_rx (w_st w1)). rewrite E1, E3.
  apply wp_bind, wp_kfree. intros w2 Hd2 Hh2 _. apply wp_bind, wp_modify.
  apply wp_bind, wp_free_consistent. intros w3 Hd3 Hh3 _. apply wp_modify.
  apply HQ; [| cbn in *; congruence]. eapply delta_world; [| reflexivity].
  eapply (delta_return w0 w2); [| exact Hd3]. rewrite app_nil_r.
  eapply delta_return; [| exact Hd2]. by eapply delta_return.
Qed.

(** the failure exits, wherever the failure *)
Lemma wp_unwind bufsz dt f part i pdt_size w0 w (Q : unit -> world chan_ctx -> Prop) :
  let rx := ctx_rx (w_st w) in
  (i < length (ptp_of (w_st w)))%nat -> Forall pt_good (take i (ptp_of (w_st w))) ->
  pt_bad bufsz dt i f (w_st w) part ->
  delta w0 w (part ++ holds (pt_res bufsz dt) (take i (ptp_of (w_st w))) ++
    mem_res (zchan_rx_ptp_va rx) ++ [RDma (zchan_rx_pdt_va rx) pdt_size]) [] ->
  (forall w', delta w0 w' [] [] -> w_held w' = w_held w -> Q tt w') ->
  wp (rx_tbl_unwind bufsz dt f pdt_size) Q w.
Proof.
  intros rx Hi Hg [[-> ->]|(p & j & -> & Hp & Hj & ->)] Hd HQ; cbn [rx_tbl_unwind].
  { apply (wp_unwind_pt _ _ _ _ w0); [lia | done | done | done]. }
  pose proof (at_pt_start _ _ _ Hp) as Ha. pose proof (but_pt_bufs _ _ _ _ Ha) as Hb.
  rewrite Nat2Z.id.
  apply wp_bind, (wp_free_down (pt_bufs_of i) (buf_res bufsz dt) (fun _ => True) (but_pt i));
    [apply rx_buf_free_ok | by rewrite Hb | by apply Forall_true |].
  rewrite Hb. intros w1 Hd1 Hh1 HR _. destruct (at_pt_but _ _ _ _ _ Ha HR) as (bs & es & Ha1).
  unfold rx_pt_free. apply wp_bind, wp_bind, (wp_rx_pt_get i (pt_with bs es p)); [by eapply at_pt_lookup |].
  apply wp_bind, wp_kfree. intros w2 Hd2 Hh2 Hs2. apply wp_free_consistent. intros w3 Hd3 Hh3 Hs3.
  rewrite <- Hs2, <- Hs3 in Ha1. destruct (at_pt_cells _ _ _ _ Ha1) as [Hc HR3].
  apply but_ptp_tbl in HR3 as (E1 & _ & E3 & _). fold rx in E1, E3.
  assert (Ht : take i (ptp_of (w_st w3)) = take i (ptp_of (w_st w))) by (rewrite Hc; by apply take_insert_ge).
  apply (wp_unwind_pt _ _ _ _ w0); [rewrite Hc, length_insert; lia | by rewrite Ht | | intros; apply HQ; congruence].
  rewrite Ht, E1, E3.
  eapply (delta_return w0 w2); [| exact Hd3]. eapply delta_return; [| exact Hd2]. eapply delta_return; [| exact Hd1].
  eapply delta_perm; [| done | exact Hd]. cbn [zchan_rx_pt_va zchan_rx_pt_bufp pt_with]. cbn. solve_Permutation.
Qed.

(** starting and stopping the hardware touch no resource *)
Definition set_rx_pos (h t o : Z) (s : chan_ctx) : chan_ctx :=
  s<|ch_zchan ::= fun c => c<|zchan_rx_tbl_of ::= fun rx =>
    rx<|zchan_rx_head := h|><|zchan_rx_tail := t|><|zchan_rx_off := o|>|>|>.

Lemma idles_reset : idles zchan_reset.
Proof. unfold zchan_reset. auto 10 with basa. Qed.

Lemma idles_rx_stop : idles zchan_rx_stop.
Proof. unfold zchan_rx_stop. auto 10 with basa. Qed.

Lemma wp_rx_start_at w (Q : unit -> world chan_ctx -> Prop) :
  (forall w' s', delta w w' [] [] -> w_held w' = w_held w ->
     s' = (if decide (zchan_type (ch_zchan (w_st w)) = ZYNQ_CHAN_INVAL) then w_st w
           else set_rx_pos 0 0 0 (w_st w)) -> w_st w' = s' -> Q tt w') ->
  wp zchan_rx_start Q w.
Proof.
  intros HQ. unfold zchan_rx_start, upd_rx, upd_zchan. apply (wp_here w). intros v Hd Hh Hs.
  eapply wp_idles; [apply idles_reset | exact Hd |]. clear Hd. intros w1 Hd Hh1 Hs1.
  rewrite <- Hh1 in Hh. rewrite <- Hs1 in Hs. clear Hh1 Hs1.
  apply wp_bind, wp_get. rewrite Hs. apply wp_bind.
  eapply wp_mono with (Q := fun (b : bool) w2 => delta w w2 [] [] /\ w_held w2 = w_held w /\ w_st w2 = w_st w /\
    b = negb (bool_decide (zchan_type (ch_zchan (w_st w)) = ZYNQ_CHAN_INVAL))).
  { destruct (zchan_type _).
    - apply wp_ret. by split_and!.
    - idle Hd Hh Hs. apply wp_ret. by split_and!.
    - apply wp_bind, idles_chan_read. intros c w2 Hd2 Hh2 Hs2.
      rewrite <- Hh2 in Hh. rewrite <- Hs2 in Hs. pose proof (delta_step _ _ _ _ _ _ Hd Hd2) as Hd3. cbn [app] in Hd3.
      do 2 idle Hd3 Hh Hs. apply wp_ret. by split_and!. }
  intros b w2 (Hd2 & Hh2 & Hs2 & ->). destruct (bool_decide_reflect (zchan_type (ch_zchan (w_st w)) = ZYNQ_CHAN_INVAL))
    as [E|E]; cbn [negb]; [apply wp_ret, (HQ _ (w_st w)); [done | done | by rewrite decide_True | done] |].
  do 5 idle Hd2 Hh2 Hs2. apply wp_bind, wp_modify. set (w8 := World _ _ _).
  assert (Hd8 : delta w w8 [] []) by (by eapply delta_world).
  assert (Hh8 : w_held w8 = w_held w) by done.
  assert (Hs8 : w_st w8 = set_rx_pos 0 0 0 (w_st w)) by (by rewrite <- Hs2).
  idle Hd8 Hh8 Hs8. apply wp_bind. apply idles_for_break; [auto 10 with basa |].
  intros a w9 Hd9 Hh9 Hs9. apply wp_ret, (HQ _ (set_rx_pos 0 0 0 (w_st w))); [| congruence | by rewrite decide_False | congruence].
  exact (delta_step _ _ _ _ _ _ Hd8 Hd9).
Qed.

Lemma wp_rx_start w (Q : unit -> world chan_ctx -> Prop) :
  (forall w' s', delta w w' [] [] -> w_held w' = w_held w ->
     s' = w_st w \/ s' = set_rx_pos 0 0 0 (w_st w) -> w_st w' = s' -> Q tt w') ->
  wp zchan_rx_start Q w.
Proof.
  intros HQ. apply wp_rx_start_at. intros w' s' Hd Hh Hs Hw. apply (HQ _ s'); [done | done | | done].
  destruct (decide _); auto.
Qed.

(** a directory whose resources its finalisation can find *)
Definition rx_tbl_set (s : chan_ctx) : Prop :=
  length (ptp_of s) = Z.to_nat (zchan_rx_pdt_num (ctx_rx s)) /\ Forall pt_good (ptp_of s).

Lemma holds_perm_rx dt rx :
  rx_res dt rx ≡ₚ holds (pt_res (zchan_rx_bufsz rx) dt) (zchan_rx_ptp rx) ++
    mem_res (zchan_rx_ptp_va rx) ++ [RDma (zchan_rx_pdt_va rx) (zchan_rx_pdt_num rx * sizeof_u64)].
Proof. unfold rx_res. solve_Permutation. Qed.

(** what initialisation does once the directory and the array are allocated *)
Lemma wp_rx_fill dt pdt_entries w0 w (Q : Z -> world chan_ctx -> Prop) :
  let rx := ctx_rx (w_st w) in
  let bufsz := ZCHAN_BUF_SIZE in
  let pdt_size := pdt_entries * sizeof_u64 in
  length (ptp_of (w_st w)) = Z.to_nat pdt_entries -> zchan_rx_pdt_num rx = pdt_entries ->
  zchan_rx_bufsz rx = bufsz ->
  delta w0 w (mem_res (zchan_rx_ptp_va rx) ++ [RDma (zchan_rx_pdt_va rx) pdt_size]) [] ->
  (forall w', delta w0 w' [] [] -> w_held w' = w_held w -> Q (-1) w') ->
  (forall w', delta w0 w' (rx_res dt (ctx_rx (w_st w'))) [] -> w_held w' = w_held w ->
     rx_tbl_set (w_st w') -> Q 0 w') ->
  wp (failed ← for_break (Z.to_nat pdt_entries) 0 (rx_pt_alloc bufsz dt);
      match failed with
      | Some f => rx_tbl_unwind bufsz dt f pdt_size;; mret (-1)
      | None =>
          upd_rx (fun rx => rx
            <|zchan_rx_pt_entries := u32 (pdt_entries * ZCHAN_RX_PT_ENTRIES)|>
            <|zchan_rx_size := u32 (pdt_entries * ZCHAN_RX_PT_ENTRIES * bufsz)|>
            <|zchan_rx_pdt_shift := fls (ZCHAN_RX_PT_ENTRIES * bufsz) - 1|>
            <|zchan_rx_pt_shift := fls bufsz - 1|>
            <|zchan_rx_pt_mask := ZCHAN_RX_PT_ENTRIES - 1|>
            <|zchan_rx_buf_mask := bufsz - 1|>);;
          can ← gets (fun s => bool_decide (zchan_type (ch_zchan s) = ZYNQ_CHAN_CAN));
          when can zchan_rx_start;;
          mret 0
      end) Q w.
Proof.
  intros rx bufsz pdt_size Hlen Hnum Hbz Hd HF HS. unfold upd_rx, upd_zchan.
  apply wp_bind, (wp_alloc_cells ptp_of (pt_res bufsz dt) pt_good but_ptp
    (rx_pt_alloc bufsz dt) (pt_bad bufsz dt) _ 0 w); [apply rx_pt_alloc_ok | by rewrite Hlen | |].
  - intros w1 l Hd1 Hh1 HR Hg Hl1 Ht1. apply but_ptp_tbl in HR as (E1 & E2 & E3 & E4).
    fold rx in E1, E2, E3, E4. rewrite take_ge in Ht1 by lia. cbn [take app] in Ht1.
    apply wp_bind, wp_modify. set (w2 := World _ _ _). apply wp_bind, wp_gets, wp_bind.
    assert (Hd2 : delta w0 w2 (rx_res dt (ctx_rx (w_st w2))) []).
    { eapply delta_world; [| reflexivity]. eapply delta_perm; [| done | exact (delta_step _ _ _ _ _ _ Hd Hd1)].
      rewrite holds_perm_rx. unfold w2, ctx_rx, bufsz. cbn. fold (ctx_rx (w_st w1)). fold (ptp_of (w_st w1)).
      rewrite E1, E2, E3, E4, Ht1, Hbz, Hnum. solve_Permutation. }
    assert (Hr2 : rx_tbl_set (w_st w2)).
    { split; [| by unfold w2, ptp_of, ctx_rx; cbn; fold (ctx_rx (w_st w1)); fold (ptp_of (w_st w1)); rewrite Ht1].
      unfold w2, ptp_of, ctx_rx. cbn. fold (ctx_rx (w_st w1)). fold (ptp_of (w_st w1)).
      by rewrite E2, Hl1, Hlen, Hnum. }
    assert (Hh2 : w_held w2 = w_held w) by done. clearbody w2.
    apply wp_when; intros _; [| by apply wp_ret, HS].
    apply wp_rx_start. intros w3 s' Hd3 Hh3 Hs' Hs3. apply wp_ret, HS; rewrite ?Hs3; [| congruence |].
    + eapply delta_perm; [| done | exact (delta_step _ _ _ _ _ _ Hd2 Hd3)]. rewrite app_nil_r. by destruct Hs' as [-> | ->].
    + by destruct Hs' as [-> | ->].
  - intros w1 l i f part Hd1 Hh1 HR Hg Hi Hl1 Ht1 Hbad. pose proof HR as (E1 & _ & E3 & _)%but_ptp_tbl.
    fold rx in E1, E3. cbn [take app] in Ht1.
    apply wp_bind, (wp_unwind bufsz dt f part i pdt_size w0 w1); [lia | by rewrite Ht1 | done | |].
    + rewrite Ht1, E1, E3. eapply delta_perm; [| done | exact (delta_step _ _ _ _ _ _ Hd Hd1)]. solve_Permutation.
    + intros w2 Hd2 Hh2. apply wp_ret, HF; [done | congruence].
Qed.

(** C25: resources of the receive page tables.  Initialisation returns 0 or -1.
    After -1 — whichever allocation failed, in whichever page table, at
    whichever buffer — everything taken is given back, once; after 0 it holds
    exactly the page directory, the array of tables and, per table, the table,
    its array and its 512 buffers with their mappings, or nothing for a channel
    that has no such tables.  Finalisation gives back exactly what such a
    directory records. *)
Theorem rx_tbl_resources w :
  wp zchan_init_rx_tbl (fun rc w' => w_held w' = w_held w /\
    (rc = -1 /\ delta w w' [] [] \/
     rc = 0 /\ match rx_tbl_config (w_st w) with
               | None => delta w w' [] []
               | Some (dt, _) => rx_tbl_set (w_st w') /\ delta w w' (rx_res dt (ctx_rx (w_st w'))) []
               end)) w /\
  (rx_tbl_set (w_st w) ->
   wp zchan_fini_rx_tbl (fun _ w' => w_held w' = w_held w /\
     delta w w' [] (match rx_tbl_config (w_st w) with
                    | None => []
                    | Some (dt, _) => rx_res dt (ctx_rx (w_st w))
                    end)) w).
Proof.
  split.
  - unfold zchan_init_rx_tbl. apply wp_bind, wp_gets.
    destruct (rx_tbl_config (w_st w)) as [[dt n]|];
      [| apply wp_ret; split; [done | right; split; [done | apply delta_refl]]].
    apply wp_bind, wp_alloc_consistent.
    2:{ intros w1 Hd1 Hh1 _. apply wp_bind, wp_modify, wp_ret. split; [done |]. left.
        split; [done |]. by eapply delta_world. }
    intros w1 pdtp dma Hp Hd1 Hh1 _. apply wp_bind, wp_modify.
    rewrite (proj2 (Z.eqb_neq _ _) Hp). apply wp_bind, wp_modify.
    apply wp_bind, wp_kalloc. intros w2 ptp Hd2 Hh2 Hs2. cbn in Hd2, Hh2.
    pose proof (delta_step w w1 w2 _ _ _ Hd1 Hd2) as Hd12.
    destruct (Z.eqb_spec ptp 0) as [->|Hb].
    { apply wp_bind, wp_free_consistent. intros w3 Hd3 Hh3 _. apply wp_ret. split; [congruence |].
      left. split; [done |]. by eapply delta_return. }
    apply wp_bind, wp_modify. cbn [w_log w_held w_st]. set (w3 := World _ _ _).
    pose proof (wp_rx_fill dt n w w3) as Hfill. cbn [w_st w3] in Hfill. rewrite Hs2 in Hfill.
    apply Hfill; clear Hfill.
    + apply length_replicate.
    + done.
    + done.
    + eapply delta_world; [| reflexivity]. eapply delta_perm; [apply Permutation_app_comm | done | exact Hd12].
    + intros w' Hd Hh. split; [rewrite Hh; cbn; congruence | by left].
    + intros w' Hd Hh Hset. split; [rewrite Hh; cbn; congruence | by right].
  - intros [Hlen Hg]. unfold zchan_fini_rx_tbl, rx_tbl, upd_rx, upd_zchan. apply wp_bind, wp_gets.
    destruct (rx_tbl_config (w_st w)) as [[dt n]|]; [| apply wp_ret; split; [done | apply delta_refl]].
    apply wp_bind, idles_rx_stop. intros [] w1 Hd Hh Hs.
    apply wp_bind, wp_gets. rewrite Hs. fold (ctx_rx (w_st w)). set (rx := ctx_rx (w_st w)) in *.
    rewrite <- Hs in Hlen, Hg. 
    apply wp_bind, (wp_free_up ptp_of (pt_res (zchan_rx_bufsz rx) dt) pt_good but_ptp
      (fun i => pt ← rx_pt_get i;
        for_ (Z.to_nat (zchan_rx_pt_buf_num pt)) 0 (rx_buf_free (zchan_rx_bufsz rx) dt i);; rx_pt_free i));
      [apply rx_pt_fini_ok | lia | by rewrite take_ge by lia |].
    rewrite take_ge, Hs by lia. intros v2 Hd2 Hh2 _ _.
    apply wp_bind, wp_kfree. intros v3 Hd3 Hh3 _. apply wp_bind, wp_modify.
    apply wp_bind, wp_free_consistent. intros v4 Hd4 Hh4 _. apply wp_modify.
    split; [cbn in *; congruence |]. eapply delta_world; [| reflexivity].
    eapply delta_perm; [done | | exact (delta_trans _ _ _ [] _ [] _ (delta_trans _ _ _ [] _ [] _
      (delta_trans _ _ _ [] _ [] _ Hd Hd2) Hd3) Hd4)].
    rewrite holds_perm_rx. fold (ptp_of (w_st w)). cbn [app]. rewrite <- app_assoc. done.
Qed.
End rx.

(** ** A concrete directory *)
Module RxResWitness.
#[local] Existing Instance params_default.
(** an environment that grants the first [n] coherent blocks only *)
Definition env_blocks (n : nat) : Env := fun l c =>
  match c with
  | DmaAlloc _ => if (length (List.filter (fun e => match ev_call e with DmaAlloc _ => true | _ => false end) l) <? n)%nat
                  then 0x1000 else 0
  | _ => 0x2000
  end.
Definition world_rx (rx : zchan_rx_tbl) : world chan_ctx :=
  World [] [] (ChanCtx (zdev_sample<|zcan_rx_dma := 1|>) (zchan_sample<|zchan_rx_tbl_of := rx|>)).
Definition pt512 : zchan_rx_pt :=
  RxPt 0x3000 0 (replicate 512 0) 0x4000 (replicate 512 (ZchanBuf 0x5000 0 0x5000)) 512.
Definition rx1 : zchan_rx_tbl :=
  rx_tbl_zero<|zchan_rx_pdt_va := 0x1000|><|zchan_rx_pdt_num := 1|><|zchan_rx_ptp_va := 0x2000|>
    <|zchan_rx_ptp := [pt512]|><|zchan_rx_bufsz := 4096|>.

(** both outcomes occur: the tenth buffer fails, or nothing does *)
Example rx_init_outcomes :
  (let _ := env_blocks 11 in TxResWitness.account (zchan_init_rx_tbl (world_rx rx_tbl_zero))) = Some (-1, 13, 13) /\
  (let _ := TxResWitness.env_ok in TxResWitness.account (zchan_init_rx_tbl (world_rx rx_tbl_zero))) = Some (0, 516, 0).
Proof. split; vm_compute; reflexivity. Qed.

Example rx_tbl_resources_witness :
  let w := world_rx rx1 in
  rx_tbl_set (w_st w) /\
  wp zchan_fini_rx_tbl (fun _ w' =>
    delta w w' [] (rx_res PCI_DMA_BIDIRECTIONAL rx1)) w.
Proof.
  split; [split; [reflexivity | by apply Forall_singleton] |]. eapply wp_mono.
  - apply (rx_tbl_resources (H := env_blocks 9) (world_rx rx1)).
    split; [reflexivity | by apply Forall_singleton].
  - intros [] w' [_ Hd]. exact Hd.
Defined.
End RxResWitness.
