(* ===== verification/Irq.v ===== *)
(** * Interrupt allocation ([basa_intr.c])

    MSI-X with a vector per channel or one for the device, else MSI, else the
    shared legacy interrupt; with what the set-up takes from the kernel
    accounted for by [Resource]. *)

From S2P Require Import Resource Device ChanRes.

(** ** State *)
Record irq_ctx := IrqCtx {
  ir_zdev : zynq_dev;
  zdev_msixp : Z;                  (** address of the entry array, 0 for none *)
  zdev_msix_vec : list Z;          (** the vectors of its entries *)
  zdev_msix_num : Z;
  zdev_msi_num : Z;
  zdev_msi_vec : Z;
  pdev_irq : Z                     (** the legacy interrupt, [zdev_pdev->irq] while MSI is off *)
}.
#[global] Instance irq_ctx_eta : Eta irq_ctx := fun r =>
  IrqCtx (ir_zdev r) (zdev_msixp r) (zdev_msix_vec r) (zdev_msix_num r)
    (zdev_msi_num r) (zdev_msi_vec r) (pdev_irq r).

Definition sizeof_msix_entry : Z := 8.
(** what [request_irq] passes to the handler: the device for [zynq_intr], or
    channel [i] for [zynq_intr_chan] *)
Definition cookie_zdev : Z := -1.

Section irq.
Context `{Env} `{ModParams}.

(** ** Handlers *)

(** channel ISR for handling Rx, Rx error, Tx and Tx error *)
Definition zynq_intr_chan (ch : Z) : M irq_ctx unit :=
  tell (KernelCall "tasklet_hi_schedule" [ch]).

Definition zynq_intr_fwupdate : M irq_ctx unit := mret tt.

(** ISR to handle all the channel interrupts *)
Definition zynq_intr : M irq_ctx unit :=
  if zynq_fwupdate_param then zynq_intr_fwupdate
  else
    zoom ir_zdev (fun d s => s<|ir_zdev := d|>) (ZYNQ_STATS DEV_STATS_INTR);;
    tell (KernelCall "tasklet_hi_schedule" [0]).

(** ** Enabling *)
Definition chan_cnt : M irq_ctx Z := gets (fun s => zdev_chan_cnt (ir_zdev s)).

Definition zdev_enable_msi : M irq_ctx Z :=
  loop 2 (fun max_nvec =>
    rc ← ask (KernelCall "pci_enable_msi_exact" [max_nvec]);
    if rc <? 0 then
      if max_nvec =? 1 then mret (inr rc) else mret (inl 1)
    else
      modify (fun s => s<|zdev_msi_num := max_nvec|>);;
      irq ← ask (KernelCall "pdev->irq" []);
      modify (fun s => s<|zdev_msi_vec := irq|>);;
      mret (inr 0)) 1.

(** the vectors the kernel stored in the first entries *)
Fixpoint msix_vectors (i : Z) (n : nat) : M irq_ctx (list Z) :=
  match n with
  | O => mret []
  | S n' =>
      v ← ask (KernelCall "msix_entry.vector" [i]);
      l ← msix_vectors (i + 1) n';
      mret (v :: l)
  end.

(** the call of kernels before 4.12, and the one since *)
Definition msix_call (v4_12 : bool) (nvec : Z) : call :=
  if v4_12 then KernelCall "pci_enable_msix_range" [nvec; nvec]
  else KernelCall "pci_enable_msix" [nvec].

Definition zdev_enable_msix (v4_12 : bool) : M irq_ctx Z :=
  cnt ← chan_cnt;
  let max_nvec := if zynq_fwupdate_param then 1 else cnt in
  p ← ask (KAlloc (sizeof_msix_entry * max_nvec));
  if p =? 0 then modify (fun s => s<|zdev_msixp := 0|><|zdev_msix_vec := []|>);; mret (- ENOMEM)
  else
    modify (fun s => s<|zdev_msixp := p|><|zdev_msix_vec := replicate (Z.to_nat max_nvec) 0|>);;
    loop 3 (fun max_nvec =>
      rc ← ask (msix_call v4_12 max_nvec);
      if rc <? 0 then
        tell (KFree p);;
        modify (fun s => s<|zdev_msixp := 0|><|zdev_msix_vec := []|>);;
        mret (inr rc)
      else if 0 <? rc then mret (inl 1)
      else
        vs ← msix_vectors 0 (Z.to_nat max_nvec);
        modify (fun s => s<|zdev_msix_vec := vs ++ drop (length vs) (zdev_msix_vec s)|>
          <|zdev_msix_num := max_nvec|>);;
        mret (inr 0)) max_nvec.

(** ** Requesting, one interrupt per channel *)
Definition msix_vec (i : Z) : M irq_ctx Z :=
  s ← get; array_get (zdev_msix_vec s) i.
Definition msi_vec (i : Z) : M irq_ctx Z := gets (fun s => zdev_msi_vec s + i).

Definition request_irq (v cookie : Z) : M irq_ctx Z := ask (KernelCall "request_irq" [v; cookie]).
Definition free_irq (v cookie : Z) : M irq_ctx unit := tell (KernelCall "free_irq" [v; cookie]).

Definition request_chan (vec : Z -> M irq_ctx Z) (i : Z) : M irq_ctx (option (Z * Z)) :=
  v ← vec i;
  rc ← request_irq v i;
  mret (if rc =? 0 then None else Some (i, rc)).
Definition free_chan (vec : Z -> M irq_ctx Z) (i : Z) : M irq_ctx unit :=
  v ← vec i; free_irq v i.

(** every channel's interrupt, or none *)
Definition setup_chans (vec : Z -> M irq_ctx Z) : M irq_ctx Z :=
  cnt ← chan_cnt;
  failed ← for_break (Z.to_nat cnt) 0 (request_chan vec);
  match failed with
  | None => mret 0
  | Some (i, rc) => for_ (Z.to_nat i) 0 (fun k => free_chan vec (i - 1 - k));; mret rc
  end.
Definition free_chans (vec : Z -> M irq_ctx Z) : M irq_ctx unit :=
  cnt ← chan_cnt;
  for_ (Z.to_nat cnt) 0 (free_chan vec).

Definition zdev_setup_msix : M irq_ctx Z :=
  s ← get;
  if zdev_msix_num s =? 1 then v ← msix_vec 0; request_irq v cookie_zdev
  else setup_chans msix_vec.

Definition zdev_setup_msi : M irq_ctx Z :=
  s ← get;
  if zdev_msi_num s =? 1 then request_irq (zdev_msi_vec s) cookie_zdev
  else setup_chans msi_vec.

(** ** Tasklets *)
Definition tasklet_init (i cookie : Z) : M irq_ctx unit :=
  tell (KernelCall "tasklet_init" [i; cookie]).
Definition tasklet_kill (i : Z) : M irq_ctx unit := tell (KernelCall "tasklet_kill" [i]).

Definition legacy (s : irq_ctx) : bool := (zdev_msixp s =? 0) && (zdev_msi_num s =? 0).
Definition intr_num (s : irq_ctx) : Z :=
  if zdev_msixp s =? 0 then zdev_msi_num s else zdev_msix_num s.

Definition zdev_init_tasklet : M irq_ctx unit :=
  s ← get;
  if legacy s then tasklet_init 0 cookie_zdev
  else if intr_num s =? 1 then tasklet_init 0 cookie_zdev
  else for_ (Z.to_nat (zdev_chan_cnt (ir_zdev s))) 0 (fun i => tasklet_init i i).

Definition zdev_fini_tasklet : M irq_ctx unit :=
  s ← get;
  if legacy s then tasklet_kill 0
  else for_ (Z.to_nat (intr_num s)) 0 tasklet_kill.

(** ** Allocation and release *)
Definition request_enabled : M irq_ctx Z :=
  s ← get;
  if legacy s then request_irq (pdev_irq s) cookie_zdev
  else if negb (zdev_msixp s =? 0) then
    rc ← zdev_setup_msix;
    if negb (rc =? 0) then
      tell (KernelCall "pci_disable_msix" []);;
      tell (KFree (zdev_msixp s));;
      modify (fun s => s<|zdev_msixp := 0|><|zdev_msix_vec := []|><|zdev_msix_num := 0|>);;
      mret rc
    else mret 0
  else
    rc ← zdev_setup_msi;
    if negb (rc =? 0) then
      tell (KernelCall "pci_disable_msi" []);;
      modify (fun s => s<|zdev_msi_num := 0|>);;
      mret rc
    else mret 0.

Definition zynq_alloc_irq (v4_12 : bool) : M irq_ctx Z :=
  (* try MSI-X first; failed, try MSI next *)
  rc ← zdev_enable_msix v4_12;
  when (negb (rc =? 0)) (zdev_enable_msi;; mret tt);;
  (* tasklets have to be initialized before requesting irqs *)
  zdev_init_tasklet;;
  request_enabled.

Definition zynq_free_irq : M irq_ctx unit :=
  s ← get;
  (if legacy s then free_irq (pdev_irq s) cookie_zdev
   else if negb (zdev_msixp s =? 0) then
     (if zdev_msix_num s =? 1 then v ← msix_vec 0; free_irq v cookie_zdev
      else free_chans msix_vec);;
     tell (KernelCall "pci_disable_msix" [])
   else
     (if zdev_msi_num s =? 1 then free_irq (zdev_msi_vec s) cookie_zdev
      else free_chans msi_vec);;
     tell (KernelCall "pci_disable_msi" []));;
  (* kill the tasklets after irqs are freed *)
  zdev_fini_tasklet;;
  when (negb (zdev_msixp s =? 0))
    (tell (KFree (zdev_msixp s));;
     modify (fun s => s<|zdev_msixp := 0|><|zdev_msix_vec := []|><|zdev_msix_num := 0|>));;
  modify (fun s => s<|zdev_msi_num := 0|>).
End irq.

(** ** What is held *)

(** the interrupts of the channels: vector and channel *)
Definition msix_irqs (s : irq_ctx) : list (Z * Z) :=
  imap (fun i v => (v, Z.of_nat i)) (zdev_msix_vec s).
Definition msi_irqs (s : irq_ctx) : list (Z * Z) :=
  (fun i => (zdev_msi_vec s + i, i)) <$> seqZ 0 (zdev_chan_cnt (ir_zdev s)).
Definition irq_of (x : Z * Z) : list resource := [RIrq x.1 x.2].

(** everything the allocation holds *)
Definition irq_res (s : irq_ctx) : list resource :=
  if legacy s then [RIrq (pdev_irq s) cookie_zdev]
  else if negb (zdev_msixp s =? 0) then
    RMem (zdev_msixp s) :: RMsix ::
      (if zdev_msix_num s =? 1 then irq_of (default 0 (head (zdev_msix_vec s)), cookie_zdev)
       else holds irq_of (msix_irqs s))
  else
    RMsi :: (if zdev_msi_num s =? 1 then irq_of (zdev_msi_vec s, cookie_zdev)
             else holds irq_of (msi_irqs s)).

(** a state its release can find its way in, and one with nothing held *)
Definition irq_set (s : irq_ctx) : Prop :=
  zdev_msixp s <> 0 ->
  if zdev_msix_num s =? 1 then zdev_msix_vec s <> []
  else length (zdev_msix_vec s) = Z.to_nat (zdev_chan_cnt (ir_zdev s)).
Definition irq_none (s : irq_ctx) : Prop :=
  zdev_msixp s = 0 /\ zdev_msi_num s = 0.

Section irq_lemmas.
Context `{Env} `{ModParams}.
Implicit Types w : world irq_ctx.

Lemma wp_request_irq v c w (Q : Z -> world irq_ctx -> Prop) :
  (forall w', delta w w' [RIrq v c] [] -> w_held w' = w_held w -> w_st w' = w_st w -> Q 0 w') ->
  (forall w' rc, rc <> 0 -> delta w w' [] [] -> w_held w' = w_held w -> w_st w' = w_st w -> Q rc w') ->
  wp (request_irq v c) Q w.
Proof.
  intros Hok Hko. unfold request_irq. apply wp_ask. intros rc _. destruct (Z.eqb_spec rc 0) as [->|Hrc].
  - apply Hok; [| done | done]. by eexists [_].
  - apply Hko; [done | | done | done]. eexists [_]. split; [reflexivity |].
    unfold acq, rel. cbn. by rewrite (proj2 (Z.eqb_neq _ _) Hrc).
Qed.

Lemma wp_free_irq v c w (Q : unit -> world irq_ctx -> Prop) :
  (forall w', delta w w' [] [RIrq v c] -> w_held w' = w_held w -> w_st w' = w_st w -> Q tt w') ->
  wp (free_irq v c) Q w.
Proof. intros HQ. apply wp_tell, HQ; [| done | done]. by eexists [_]. Qed.

(** one interrupt per channel, the vectors given by the state *)
Section chans.
Context (vec : Z -> M irq_ctx Z) (cells : irq_ctx -> list (Z * Z)).
Context (Hvec : forall i x w (Q : Z -> world irq_ctx -> Prop),
  cells (w_st w) !! i = Some x -> x.2 = Z.of_nat i /\ (Q x.1 w -> wp (vec (Z.of_nat i)) Q w)).

Definition irq_bad (i : nat) (f : Z * Z) (_ : irq_ctx) (part : list resource) : Prop :=
  f.1 = Z.of_nat i /\ f.2 <> 0 /\ part = [].

Lemma request_chan_ok : alloc_ok cells irq_of (fun _ => True) eq (request_chan vec) irq_bad.
Proof using Hvec.
  intros i w Q Hi Hok Hko. destruct (lookup_lt_is_Some_2 _ _ Hi) as [x Hx].
  unfold request_chan. destruct (Hvec i x w (fun v w' => wp (rc ← request_irq v (Z.of_nat i);
    mret (if rc =? 0 then None else Some (Z.of_nat i, rc))) Q w') Hx) as [Hi' Hv].
  apply wp_bind, Hv. rewrite <- Hi'. apply wp_bind, wp_request_irq.
  - intros w' Hd Hh Hs. apply wp_ret, (Hok _ x); [| done | done | done |].
    + by destruct x.
    + by rewrite Hs, list_insert_id.
  - intros w' rc Hrc Hd Hh Hs. rewrite (proj2 (Z.eqb_neq _ _) Hrc).
    apply wp_ret, (Hko _ _ x []); [done | done | done | | by split_and!].
    by rewrite Hs, list_insert_id.
Qed.

Lemma free_chan_ok : free_ok cells irq_of (fun _ => True) eq (free_chan vec).
Proof using Hvec.
  intros i x w Q Hx _ HQ. unfold free_chan.
  destruct (Hvec i x w (fun v w' => wp (free_irq v (Z.of_nat i)) Q w') Hx) as [Hi Hv].
  apply wp_bind, Hv. rewrite <- Hi. apply wp_free_irq. intros w' Hd Hh Hs.
  apply (HQ _ x); [| done | done |]; [by destruct x | by rewrite Hs, list_insert_id].
Qed.

Lemma wp_setup_chans w (Q : Z -> world irq_ctx -> Prop) :
  length (cells (w_st w)) = Z.to_nat (zdev_chan_cnt (ir_zdev (w_st w))) ->
  (forall w', delta w w' (holds irq_of (cells (w_st w))) [] -> w_held w' = w_held w ->
     w_st w' = w_st w -> Q 0 w') ->
  (forall w' rc, rc <> 0 -> delta w w' [] [] -> w_held w' = w_held w -> w_st w' = w_st w -> Q rc w') ->
  wp (setup_chans vec) Q w.
Proof using Hvec.
  intros Hlen Hok Hko. unfold setup_chans, chan_cnt. apply wp_bind, wp_gets. rewrite <- Hlen.
  apply wp_bind, (wp_alloc_cells cells irq_of (fun _ => True) eq (request_chan vec) irq_bad _ 0 w);
    [apply request_chan_ok | done | |].
  - intros w' l Hd Hh Hs _ _ Ht. apply wp_ret, Hok; [| done | done].
    cbn [take app Nat.add] in Ht. rewrite <- Hs, firstn_all in Ht. by rewrite Ht.
  - intros w' l i [f rc] part Hd Hh Hs _ Hi _ Ht (Hf & Hrc & ->). cbn in Hf, Hrc, Ht. subst f.
    rewrite Nat2Z.id.
    apply wp_bind, (wp_free_down cells irq_of (fun _ => True) eq (free_chan vec));
      [apply free_chan_ok | rewrite <- Hs; lia | by apply Forall_true |].
    rewrite Ht. intros w'' Hd' Hh' Hs' _. apply wp_ret, Hko; [done | | congruence | congruence].
    eapply delta_return; [| exact Hd']. by rewrite app_nil_r.
Qed.

Lemma wp_free_chans w (Q : unit -> world irq_ctx -> Prop) :
  length (cells (w_st w)) = Z.to_nat (zdev_chan_cnt (ir_zdev (w_st w))) ->
  (forall w', delta w w' [] (holds irq_of (cells (w_st w))) -> w_held w' = w_held w ->
     w_st w' = w_st w -> Q tt w') ->
  wp (free_chans vec) Q w.
Proof using Hvec.
  intros Hlen HQ. unfold free_chans, chan_cnt. apply wp_bind, wp_gets. rewrite <- Hlen.
  apply (wp_free_up cells irq_of (fun _ => True) eq (free_chan vec));
    [apply free_chan_ok | done | by apply Forall_true |].
  rewrite firstn_all. intros w' Hd Hh Hs _. by apply HQ.
Qed.
End chans.

Lemma msix_vec_cells i x w (Q : Z -> world irq_ctx -> Prop) :
  msix_irqs (w_st w) !! i = Some x ->
  x.2 = Z.of_nat i /\ (Q x.1 w -> wp (msix_vec (Z.of_nat i)) Q w).
Proof.
  unfold msix_irqs. rewrite list_lookup_imap. intros (v & Hv & ->)%fmap_Some. split; [done |].
  intros HQ. unfold msix_vec. apply wp_bind, wp_get, wp_array_get. exists v.
  by rewrite zlookup_nonneg, Nat2Z.id by lia.
Qed.

Lemma msi_vec_cells i x w (Q : Z -> world irq_ctx -> Prop) :
  msi_irqs (w_st w) !! i = Some x ->
  x.2 = Z.of_nat i /\ (Q x.1 w -> wp (msi_vec (Z.of_nat i)) Q w).
Proof.
  unfold msi_irqs. rewrite list_lookup_fmap. intros (k & Hk & ->)%fmap_Some.
  apply lookup_seqZ in Hk as [-> Hk]. rewrite Z.add_0_l. split; [done |].
  intros HQ. by apply wp_gets.
Qed.

Lemma idles_tell_tasklet i c : idles (tasklet_init i c).
Proof. intros w Q HQ. apply wp_tell, HQ; [by eexists [_] | done | done]. Qed.
Lemma idles_tasklet_kill i : idles (tasklet_kill i).
Proof. intros w Q HQ. apply wp_tell, HQ; [by eexists [_] | done | done]. Qed.
Lemma idles_for n from (body : Z -> M irq_ctx unit) :
  (forall i, idles (body i)) -> idles (for_ n from body).
Proof.
  intros Hb. revert from. induction n as [|n IH]; intros from; [apply idles_ret |].
  apply idles_bind; [apply Hb | intros; apply IH].
Qed.
Lemma idles_get : idles (get : M irq_ctx irq_ctx).
Proof. intros w Q HQ. apply wp_get, HQ; [apply delta_refl | done | done]. Qed.

Lemma idles_init_tasklet : idles zdev_init_tasklet.
Proof.
  apply idles_bind; [apply idles_get |]. intros s. destruct (legacy s); [apply idles_tell_tasklet |].
  destruct (intr_num s =? 1); [apply idles_tell_tasklet |]. apply idles_for. intros. apply idles_tell_tasklet.
Qed.
Lemma idles_fini_tasklet : idles zdev_fini_tasklet.
Proof.
  apply idles_bind; [apply idles_get |]. intros s. destruct (legacy s); [apply idles_tasklet_kill |].
  apply idles_for. intros. apply idles_tasklet_kill.
Qed.

Lemma wp_msix_vectors i n w (Q : list Z -> world irq_ctx -> Prop) :
  (forall w' l, length l = n -> delta w w' [] [] -> w_held w' = w_held w -> w_st w' = w_st w -> Q l w') ->
  wp (msix_vectors i n) Q w.
Proof.
  revert i w Q. induction n as [|n IH]; intros i w Q HQ; cbn [msix_vectors].
  - by apply wp_ret, HQ; [| apply delta_refl | |].
  - apply wp_bind, wp_ask. intros v _. apply wp_bind, IH. intros w' l Hl Hd Hh Hs.
    apply wp_ret, HQ; [cbn; congruence | | done | done].
    apply (delta_trans w (emit (Ev (KernelCall "msix_entry.vector" [i]) v) w) w' [] [] [] []); [by eexists [_] | done].
Qed.

(** MSI: granted for one vector, or refused *)
Lemma wp_enable_msi w (Q : Z -> world irq_ctx -> Prop) :
  (forall w' v, delta w w' [RMsi] [] -> w_held w' = w_held w ->
     w_st w' = (w_st w)<|zdev_msi_num := 1|><|zdev_msi_vec := v|> -> Q 0 w') ->
  (forall w' rc, delta w w' [] [] -> w_held w' = w_held w -> w_st w' = w_st w -> Q rc w') ->
  wp zdev_enable_msi Q w.
Proof.
  intros Hok Hko. unfold zdev_enable_msi. cbn [loop]. apply wp_bind, wp_bind, wp_ask. intros rc _.
  destruct (rc <? 0) eqn:E; cbn [Z.eqb Pos.eqb].
  - apply wp_ret, wp_ret, Hko; [| done | done]. eexists [_]. split; [reflexivity |].
    unfold acq, rel. cbn. by rewrite E.
  - apply wp_bind, wp_modify, wp_bind, wp_ask. intros v _. apply wp_bind, wp_modify, wp_ret, wp_ret.
    apply (Hok _ v); [| done | done]. eexists [_; _]. split; [reflexivity |].
    unfold acq, rel. cbn. by rewrite E.
Qed.

(** what the kernel documents of [pci_enable_msix]: a positive answer is a
    number of vectors smaller than the one asked for *)
Definition msix_documented : Prop :=
  forall l n, env_ret l (KernelCall "pci_enable_msix" [n]) <= 0 \/ env_ret l (KernelCall "pci_enable_msix" [n]) < n.

Definition with_msix (p : Z) (vs : list Z) (s : irq_ctx) : irq_ctx :=
  s<|zdev_msixp := p|><|zdev_msix_vec := vs|>.

(** a round that the kernel grants *)
Lemma wp_msix_granted p n m vs0 w0 w rc s (Q : Z + Z -> world irq_ctx -> Prop) :
  rc = 0 -> p <> 0 -> w_st w = with_msix p vs0 s -> (length vs0 = Z.to_nat m) -> n = m \/ n = 1 /\ 1 <= m ->
  delta w0 w [RMem p] [] -> w_held w = w_held w0 ->
  (forall w' vs, delta w0 w' [RMem p; RMsix] [] -> w_held w' = w_held w0 ->
     w_st w' = (with_msix p vs s)<|zdev_msix_num := n|> -> length vs = Z.to_nat m -> Q (inr 0) w') ->
  wp (vs ← msix_vectors 0 (Z.to_nat n);
      modify (fun s => s<|zdev_msix_vec := vs ++ drop (length vs) (zdev_msix_vec s)|>
          <|zdev_msix_num := n|>);;
      mret (inr 0)) Q (emit (Ev (KernelCall "pci_enable_msix" [n]) rc) w).
Proof.
  intros -> Hp Hs Hl Hn Hd Hh HQ. apply wp_bind, wp_msix_vectors. intros w1 vs Hlv Hd1 Hh1 Hs1.
  apply wp_bind, wp_modify, wp_ret. cbn [w_st emit] in Hs1. rewrite Hs1, Hs.
  eapply (HQ _ (vs ++ drop (length vs) vs0)); [| cbn in *; congruence | done |].
  - eapply delta_world; [| reflexivity]. apply (delta_step w0 w w1 [RMem p] [] [RMsix] Hd).
    eapply (delta_step w _ w1 [RMsix] [] []); [| exact Hd1]. by eexists [_].
  - rewrite length_app, length_drop, Hl, Hlv. lia.
Qed.

Lemma wp_msix_refused p w0 w n rc vs0 s (Q : Z + Z -> world irq_ctx -> Prop) :
  rc < 0 -> p <> 0 -> w_st w = with_msix p vs0 s -> delta w0 w [RMem p] [] -> w_held w = w_held w0 ->
  (forall w', delta w0 w' [] [] -> w_held w' = w_held w0 -> w_st w' = with_msix 0 [] s -> Q (inr rc) w') ->
  wp (tell (KFree p);;
      modify (fun s => s<|zdev_msixp := 0|><|zdev_msix_vec := []|>);;
      mret (inr rc)) Q (emit (Ev (KernelCall "pci_enable_msix" [n]) rc) w).
Proof.
  intros Hrc Hp Hs Hd Hh HQ. apply wp_bind, wp_kfree. intros w1 Hd1 Hh1 Hs1.
  apply wp_bind, wp_modify, wp_ret, HQ; [| cbn in *; congruence | rewrite Hs1; cbn; by rewrite Hs].
  eapply delta_world; [| reflexivity].
  eapply (delta_return w0 (emit (Ev (KernelCall "pci_enable_msix" [n]) rc) w) _ [] [] (mem_res p)); [| exact Hd1].
  rewrite app_nil_r. unfold mem_res. rewrite (proj2 (Z.eqb_neq _ _) Hp). apply delta_plain; [done |].
  split; [cbn; by rewrite (proj2 (Z.eqb_neq rc 0) ltac:(lia)) | done].
Qed.

(** MSI-X: granted, for all the channels or for the device, or refused *)
Lemma wp_enable_msix w (Q : Z -> world irq_ctx -> Prop) :
  msix_documented -> 0 <= zdev_chan_cnt (ir_zdev (w_st w)) ->
  (forall w' p vs n, p <> 0 -> delta w w' [RMem p; RMsix] [] -> w_held w' = w_held w ->
     w_st w' = (with_msix p vs (w_st w))<|zdev_msix_num := n|> -> irq_set (w_st w') -> Q 0 w') ->
  (forall w' rc, rc <> 0 -> delta w w' [] [] -> w_held w' = w_held w ->
     w_st w' = with_msix 0 [] (w_st w) -> Q rc w') ->
  wp (zdev_enable_msix false) Q w.
Proof.
  intros Hdoc Hcnt Hok Hko. unfold zdev_enable_msix, chan_cnt. apply wp_bind, wp_gets.
  set (m := if zynq_fwupdate_param then 1 else zdev_chan_cnt (ir_zdev (w_st w))).
  assert (Hm : 0 <= m) by (unfold m; destruct zynq_fwupdate_param; lia).
  assert (Hset : forall p vs n s', p <> 0 -> s' = (with_msix p vs (w_st w))<|zdev_msix_num := n|> ->
    length vs = Z.to_nat m -> n = m \/ n = 1 /\ 1 <= m -> irq_set s').
  { intros p vs n s' Hp -> Hl Hn _. cbn [zdev_msix_num zdev_msix_vec ir_zdev]. cbn.
    destruct (Z.eqb_spec n 1) as [->|Hn1].
    - intros ->. cbn in Hl. lia.
    - destruct Hn as [->|[? _]]; [| done]. rewrite Hl. unfold m in *. by destruct zynq_fwupdate_param. }
  apply wp_bind, wp_kalloc. intros w1 p Hd1 Hh1 Hs1.
  destruct (Z.eqb_spec p 0) as [->|Hp]; apply wp_bind, wp_modify.
  { apply wp_ret, Hko; [done | by eapply delta_world | done |]. cbn. by rewrite Hs1. }
  set (w2 := World _ _ _). set (vs0 := replicate (Z.to_nat m) 0) in *.
  assert (Hs2 : w_st w2 = with_msix p vs0 (w_st w)) by (unfold w2; cbn; by rewrite Hs1).
  assert (Hd2 : delta w w2 [RMem p] []).
  { eapply delta_world; [| reflexivity]. unfold mem_res in Hd1. by rewrite (proj2 (Z.eqb_neq _ _) Hp) in Hd1. }
  assert (Hh2 : w_held w2 = w_held w) by done. assert (Hl0 : length vs0 = Z.to_nat m) by apply length_replicate.
  clearbody w2. unfold msix_call. cbn [loop].
  apply wp_bind, wp_bind, wp_ask. intros rc Hrc. destruct (Z.ltb_spec rc 0) as [Hneg|Hneg].
  { apply (wp_msix_refused p w w2 m rc vs0 (w_st w)); try done. intros w3 Hd3 Hh3 Hs3.
    apply wp_ret, Hko; [lia | done..]. }
  destruct (Z.ltb_spec 0 rc) as [Hpos|Hpos].
  2:{ apply (wp_msix_granted p m m vs0 w w2 rc (w_st w)); [lia | done | done | done | by left | done | done |].
      intros w3 vs Hd3 Hh3 Hs3 Hl3. apply wp_ret, (Hok _ p vs m); [done | done | done | done |].
      rewrite Hs3. eapply Hset; [exact Hp | reflexivity | done | by left]. }
  (* fewer vectors: one for the device *)
  assert (Hm1 : 1 <= m) by (destruct (Hdoc (w_log w2) m); lia).
  apply wp_ret. cbn [loop]. set (w3 := emit _ w2).
  assert (Hd3 : delta w w3 [RMem p] []).
  { apply delta_plain; [done |]. split; [cbn; by rewrite (proj2 (Z.eqb_neq rc 0) ltac:(lia)) | done]. }
  apply wp_bind, wp_bind, wp_ask. intros rc1 Hrc1. destruct (Z.ltb_spec rc1 0) as [Hneg1|Hneg1].
  { apply (wp_msix_refused p w w3 1 rc1 vs0 (w_st w)); try done. intros w4 Hd4 Hh4 Hs4.
    apply wp_ret, Hko; [lia | done..]. }
  assert (rc1 = 0) as -> by (destruct (Hdoc (w_log w3) 1); lia). cbn [Z.ltb Z.compare].
  apply (wp_msix_granted p 1 m vs0 w w3 0 (w_st w)); [done | done | done | done | by right | done | done |].
  intros w4 vs Hd4 Hh4 Hs4 Hl4. apply wp_ret, (Hok _ p vs 1); [done | done | done | done |].
  rewrite Hs4. eapply Hset; [exact Hp | reflexivity | done | by right].
Qed.

(** what it documents of [pci_enable_msix_range] when the least and the most
    number of vectors are the same: an error or that number; and that a device
    whose MSI-X is enabled is refused another time *)
Definition msix_range_documented : Prop :=
  (forall l n, 0 < n -> env_ret l (msix_call true n) < 0 \/ env_ret l (msix_call true n) = n) /\
  (forall l n m, 0 < n -> env_ret (Ev (msix_call true n) n :: l) (msix_call true m) < 0).

(** the vectors asked for, and what the driver of kernels since 4.12 loses
    track of: MSI-X whenever the first call enables it *)
Definition msix_asked (s : irq_ctx) : Z := if zynq_fwupdate_param then 1 else zdev_chan_cnt (ir_zdev s).
Definition msix_lost (w : world irq_ctx) : list resource :=
  let n := msix_asked (w_st w) in
  let p := env_ret (w_log w) (KAlloc (sizeof_msix_entry * n)) in
  if p =? 0 then []
  else if 0 <? env_ret (Ev (KAlloc (sizeof_msix_entry * n)) p :: w_log w) (msix_call true n) then [RMsix]
  else [].

(** the entries are given back and the call's answer is an error *)
Lemma wp_msix_dropped p w0 w n rc s lost (Q : Z + Z -> world irq_ctx -> Prop) :
  rc < 0 -> p <> 0 -> (w_st w)<|zdev_msixp := 0|><|zdev_msix_vec := []|> = with_msix 0 [] s ->
  delta w0 w (RMem p :: lost) [] -> w_held w = w_held w0 ->
  (forall w', delta w0 w' lost [] -> w_held w' = w_held w0 -> w_st w' = with_msix 0 [] s -> Q (inr rc) w') ->
  wp (tell (KFree p);;
      modify (fun s => s<|zdev_msixp := 0|><|zdev_msix_vec := []|>);;
      mret (inr rc)) Q (emit (Ev (msix_call true n) rc) w).
Proof.
  intros Hrc Hp Hs Hd Hh HQ. apply wp_bind, wp_kfree. intros w1 Hd1 Hh1 Hs1.
  apply wp_bind, wp_modify, wp_ret, HQ; [| cbn in *; congruence | rewrite Hs1; exact Hs].
  eapply delta_world; [| reflexivity].
  eapply (delta_return w0 (emit (Ev (msix_call true n) rc) w) _ lost [] (mem_res p)); [| exact Hd1].
  unfold mem_res. rewrite (proj2 (Z.eqb_neq _ _) Hp).
  apply delta_plain; [done |].
  split; [cbn; by rewrite (proj2 (Z.ltb_ge 0 rc) ltac:(lia)) | done].
Qed.

Lemma wp_enable_msix_4_12 w (Q : Z -> world irq_ctx -> Prop) :
  msix_range_documented -> 0 < zdev_chan_cnt (ir_zdev (w_st w)) ->
  (forall w' rc, rc <> 0 -> delta w w' (msix_lost w) [] -> w_held w' = w_held w ->
     w_st w' = with_msix 0 [] (w_st w) -> Q rc w') ->
  wp (zdev_enable_msix true) Q w.
Proof.
  intros [Hans Hagain] Hcnt HQ. unfold msix_lost in HQ. unfold zdev_enable_msix, chan_cnt. apply wp_bind, wp_gets.
  fold (msix_asked (w_st w)). set (m := msix_asked (w_st w)) in *.
  assert (Hm : 0 < m) by (unfold m, msix_asked; by destruct zynq_fwupdate_param). clearbody m.
  cbv zeta in HQ. apply wp_bind, wp_ask. intros p Hp. rewrite <- Hp in HQ.
  destruct (Z.eqb_spec p 0) as [Hp0|Hp0]; apply wp_bind, wp_modify.
  { apply wp_ret, HQ; [done | | done | done]. eexists [_]. split; [reflexivity |]. unfold acq, rel. cbn. by rewrite Hp0. }
  set (w1 := World _ _ _). cbn [loop].
  assert (Hd1 : delta w w1 [RMem p] []).
  { eexists [_]. split; [reflexivity |]. unfold acq, rel. cbn. by rewrite (proj2 (Z.eqb_neq _ _) Hp0). }
  assert (Hlog : w_log w1 = Ev (KAlloc (sizeof_msix_entry * m)) p :: w_log w) by done.
  assert (Hs1 : (w_st w1)<|zdev_msixp := 0|><|zdev_msix_vec := []|> = with_msix 0 [] (w_st w)) by done.
  assert (Hh1 : w_held w1 = w_held w) by done.
  clearbody w1. rewrite <- Hlog in HQ. apply wp_bind, wp_bind, wp_ask. intros rc Hrc. rewrite <- Hrc in HQ.
  destruct (Hans (w_log w1) m Hm) as [Hn|Hn]; rewrite <- Hrc in Hn.
  { rewrite (proj2 (Z.ltb_lt _ _) Hn). rewrite (proj2 (Z.ltb_ge 0 rc)) in HQ by lia.
    apply (wp_msix_dropped p w w1 m rc (w_st w) []); [done .. |]. intros w2 Hd2 Hh2 Hs2.
    apply wp_ret, HQ; [lia | done ..]. }
  (* granted, taken for a smaller number, asked again *)
  clear Hrc. subst rc. rewrite (proj2 (Z.ltb_ge m 0)), (proj2 (Z.ltb_lt 0 m)) in * by lia.
  apply wp_ret. cbn [loop]. apply wp_bind, wp_bind, wp_ask. intros rc Hrc1.
  pose proof (Hagain (w_log w1) m 1 Hm) as Hneg. unfold emit in Hrc1. cbn [w_log] in Hrc1.
  rewrite <- Hrc1 in Hneg. rewrite (proj2 (Z.ltb_lt _ _) Hneg).
  apply (wp_msix_dropped p w (emit (Ev (msix_call true m) m) w1) 1 rc (w_st w) [RMsix]); try done.
  - apply (delta_step w w1 _ [RMem p] [] [RMsix] Hd1). eexists [_]. split; [reflexivity |].
    unfold acq, rel. cbn. by rewrite (proj2 (Z.ltb_lt _ _) Hm).
  - intros w2 Hd2 Hh2 Hs2. apply wp_ret, HQ; [lia | done ..].
Qed.

(** requesting with MSI-X, and with MSI *)
Definition msix_held (s : irq_ctx) : list resource :=
  if zdev_msix_num s =? 1 then irq_of (default 0 (head (zdev_msix_vec s)), cookie_zdev)
  else holds irq_of (msix_irqs s).
Definition msi_held (s : irq_ctx) : list resource :=
  if zdev_msi_num s =? 1 then irq_of (zdev_msi_vec s, cookie_zdev) else holds irq_of (msi_irqs s).

Lemma wp_msix_vec0 w (Q : Z -> world irq_ctx -> Prop) :
  zdev_msix_vec (w_st w) <> [] -> Q (default 0 (head (zdev_msix_vec (w_st w)))) w -> wp (msix_vec 0) Q w.
Proof.
  intros Hv HQ. unfold msix_vec. apply wp_bind, wp_get, wp_array_get.
  destruct (zdev_msix_vec (w_st w)) as [|v l]; [done |]. by exists v.
Qed.

Lemma msix_irqs_length s : length (msix_irqs s) = length (zdev_msix_vec s).
Proof. unfold msix_irqs. apply length_imap. Qed.
Lemma msi_irqs_length s : length (msi_irqs s) = Z.to_nat (zdev_chan_cnt (ir_zdev s)).
Proof. unfold msi_irqs. by rewrite length_fmap, length_seqZ. Qed.

Lemma wp_setup_msix w (Q : Z -> world irq_ctx -> Prop) :
  irq_set (w_st w) -> zdev_msixp (w_st w) <> 0 ->
  (forall w', delta w w' (msix_held (w_st w)) [] -> w_held w' = w_held w -> w_st w' = w_st w -> Q 0 w') ->
  (forall w' rc, rc <> 0 -> delta w w' [] [] -> w_held w' = w_held w -> w_st w' = w_st w -> Q rc w') ->
  wp zdev_setup_msix Q w.
Proof.
  intros Hset Hp Hok Hko. unfold zdev_setup_msix, msix_held in *. specialize (Hset Hp).
  apply wp_bind, wp_get. destruct (zdev_msix_num (w_st w) =? 1).
  - by apply wp_bind, wp_msix_vec0, wp_request_irq.
  - apply (wp_setup_chans msix_vec msix_irqs msix_vec_cells); [by rewrite msix_irqs_length | done | done].
Qed.

Lemma wp_setup_msi w (Q : Z -> world irq_ctx -> Prop) :
  (forall w', delta w w' (msi_held (w_st w)) [] -> w_held w' = w_held w -> w_st w' = w_st w -> Q 0 w') ->
  (forall w' rc, rc <> 0 -> delta w w' [] [] -> w_held w' = w_held w -> w_st w' = w_st w -> Q rc w') ->
  wp zdev_setup_msi Q w.
Proof.
  intros Hok Hko. unfold zdev_setup_msi, msi_held in *. apply wp_bind, wp_get.
  destruct (zdev_msi_num (w_st w) =? 1); [by apply wp_request_irq |].
  apply (wp_setup_chans msi_vec msi_irqs msi_vec_cells); [by rewrite msi_irqs_length | done | done].
Qed.

Lemma irq_res_msix s : zdev_msixp s <> 0 -> irq_res s = RMem (zdev_msixp s) :: RMsix :: msix_held s.
Proof. intros Hp. unfold irq_res, legacy. by rewrite (proj2 (Z.eqb_neq _ _) Hp). Qed.
Lemma irq_res_msi s : zdev_msixp s = 0 -> zdev_msi_num s <> 0 -> irq_res s = RMsi :: msi_held s.
Proof. intros Hp Hn. unfold irq_res, legacy. by rewrite Hp, (proj2 (Z.eqb_neq _ _) Hn). Qed.
Lemma irq_res_legacy s : legacy s = true -> irq_res s = [RIrq (pdev_irq s) cookie_zdev].
Proof. intros Hl. unfold irq_res. by rewrite Hl. Qed.

Lemma wp_disable name w0 w r (Q : unit -> world irq_ctx -> Prop) :
  released (Ev (KernelCall name []) 0) = Some r -> acquired (Ev (KernelCall name []) 0) = None ->
  (forall w', delta w w' [] [r] -> w_held w' = w_held w -> w_st w' = w_st w -> Q tt w') ->
  w0 = w -> wp (tell (KernelCall name [])) Q w.
Proof.
  intros Hr Ha HQ _. apply wp_tell, HQ; [| done | done]. eexists [_]. split; [reflexivity |].
  unfold acq, rel. cbn [omap list_omap]. by rewrite Hr, Ha.
Qed.

(** what the enabled mode holds before the interrupts are requested *)
Definition enabled_res (s : irq_ctx) : list resource :=
  if legacy s then [] else if negb (zdev_msixp s =? 0) then [RMem (zdev_msixp s); RMsix] else [RMsi].
Definition requested_res (s : irq_ctx) : list resource :=
  if legacy s then [RIrq (pdev_irq s) cookie_zdev]
  else if negb (zdev_msixp s =? 0) then msix_held s else msi_held s.
Lemma irq_res_split s : irq_res s = enabled_res s ++ requested_res s.
Proof. unfold irq_res, enabled_res, requested_res. destruct (legacy s); [done |]. by destruct (negb _). Qed.

(** one mode at a time *)
Definition irq_modes (s : irq_ctx) : Prop := zdev_msixp s = 0 \/ zdev_msi_num s = 0.

(** the two ways an allocation ends, with what it has lost track of *)
Definition alloc_outcome (lost : list resource) (w0 : world irq_ctx) (rc : Z) (w' : world irq_ctx) : Prop :=
  w_held w' = w_held w0 /\
  (rc = 0 /\ irq_set (w_st w') /\ delta w0 w' (lost ++ irq_res (w_st w')) [] \/
   rc <> 0 /\ irq_none (w_st w') /\ delta w0 w' lost []).

Lemma wp_request_enabled w0 w :
  irq_set (w_st w) -> irq_modes (w_st w) -> w_held w = w_held w0 ->
  delta w0 w (enabled_res (w_st w)) [] ->
  wp request_enabled (fun rc w' => alloc_outcome [] w0 rc w' /\ (rc = 0 -> w_st w' = w_st w)) w.
Proof.
  intros Hset Hmode Hh Hd. unfold request_enabled. apply wp_bind, wp_get.
  assert (Hok : forall w', delta w w' (requested_res (w_st w)) [] -> w_held w' = w_held w ->
    w_st w' = w_st w -> alloc_outcome [] w0 0 w' /\ (0 = 0 -> w_st w' = w_st w)).
  { intros w' Hd' Hh' Hs'. split; [| done]. split; [congruence |]. left. cbn [app]. rewrite Hs', irq_res_split.
    split; [done |]. split; [done |]. exact (delta_step _ _ _ _ _ _ Hd Hd'). }
  assert (Hko : forall w' rc, rc <> 0 -> w_held w' = w_held w0 -> irq_none (w_st w') -> delta w0 w' [] [] ->
    alloc_outcome [] w0 rc w' /\ (rc = 0 -> w_st w' = w_st w)).
  { intros w' rc Hrc Hh' Hn' Hd'. split; [| done]. split; [done |]. by right. }
  unfold enabled_res, requested_res in *. destruct (legacy (w_st w)) eqn:El.
  { apply wp_request_irq; [exact Hok |]. intros w' rc Hrc Hd' Hh' Hs'. apply Hko; [done | congruence | |].
    - rewrite Hs'. unfold legacy in El. split; lia.
    - exact (delta_step _ _ _ _ _ _ Hd Hd'). }
  destruct (Z.eqb_spec (zdev_msixp (w_st w)) 0) as [Hp|Hp]; cbn [negb] in *.
  - apply wp_bind, wp_setup_msi; [intros w' **; by apply wp_ret, Hok |].
    intros w1 rc Hrc Hd1 Hh1 Hs1. rewrite (proj2 (Z.eqb_neq _ _) Hrc). cbn [negb].
    eapply wp_bind, (wp_disable "pci_disable_msi"); [reflexivity | reflexivity | | reflexivity].
    intros w2 Hd2 Hh2 Hs2. apply wp_bind, wp_modify, wp_ret, Hko; [done | cbn; congruence | split; [cbn; congruence | done] |].
    eapply delta_world; [| reflexivity].
    eapply (delta_return w0 w1 _ [] [] [RMsi]); [| exact Hd2]. exact (delta_step _ _ _ _ _ _ Hd Hd1).
  - apply wp_bind, wp_setup_msix; [done | done | intros w' **; by apply wp_ret, Hok |].
    intros w1 rc Hrc Hd1 Hh1 Hs1. rewrite (proj2 (Z.eqb_neq _ _) Hrc). cbn [negb].
    eapply wp_bind, (wp_disable "pci_disable_msix"); [reflexivity | reflexivity | | reflexivity].
    intros w2 Hd2 Hh2 Hs2. apply wp_bind, wp_kfree. intros w3 Hd3 Hh3 Hs3. apply wp_bind, wp_modify, wp_ret, Hko;
      [done | cbn; congruence | split; [done | cbn; rewrite Hs3, Hs2, Hs1; by destruct Hmode] |].
    eapply delta_world; [| reflexivity].
    eapply (delta_return w0 w2); [| exact Hd3]. eapply (delta_return w0 w1); [| exact Hd2].
    unfold mem_res. rewrite (proj2 (Z.eqb_neq _ _) Hp), app_nil_r.
    eapply delta_perm; [| done | exact (delta_step _ _ _ _ _ _ Hd Hd1)]. solve_Permutation.
Qed.

(** the mode enabled, up to the requests *)
Lemma wp_tasklets_request w0 w :
  irq_set (w_st w) -> irq_modes (w_st w) -> w_held w = w_held w0 -> delta w0 w (enabled_res (w_st w)) [] ->
  wp (zdev_init_tasklet;; request_enabled)
    (fun rc w' => alloc_outcome [] w0 rc w' /\ (rc = 0 -> w_st w' = w_st w)) w.
Proof.
  intros Hset Hmode Hh Hd. apply wp_bind, idles_init_tasklet. intros [] w2 Hd2 Hh2 Hs2.
  rewrite <- Hs2. apply wp_request_enabled; rewrite ?Hs2; [done | done | congruence |].
  rewrite <- (app_nil_r (enabled_res _)). exact (delta_step _ _ _ _ _ _ Hd Hd2).
Qed.

(** MSI, or the legacy interrupt, once MSI-X has failed *)
Lemma wp_without_msix lost w0 w :
  zdev_msixp (w_st w) = 0 -> zdev_msi_num (w_st w) = 0 -> w_held w = w_held w0 -> delta w0 w lost [] ->
  wp ((zdev_enable_msi;; mret tt);; zdev_init_tasklet;; request_enabled)
    (fun rc w' => alloc_outcome lost w0 rc w' /\ zdev_msixp (w_st w') = 0) w.
Proof.
  intros Hp Hn Hh Hd.
  assert (Hgo : forall w1, delta w w1 (enabled_res (w_st w1)) [] -> w_held w1 = w_held w ->
    zdev_msixp (w_st w1) = 0 -> wp (zdev_init_tasklet;; request_enabled)
      (fun rc w' => alloc_outcome lost w0 rc w' /\ zdev_msixp (w_st w') = 0) w1).
  { intros w1 Hd1 Hh1 Hp1. eapply wp_mono; [apply (wp_tasklets_request w); [by intros ? | by left | done ..] |].
    intros rc w2 [[Hh2 Hend] Hs2]. destruct Hend as [(-> & Hset & Hd2) | (Hrc & Hnone & Hd2)].
    - rewrite (Hs2 eq_refl) in *. split; [| done]. split; [congruence |]. left. rewrite (Hs2 eq_refl).
      split; [done |]. split; [done |]. exact (delta_step _ _ _ _ _ _ Hd Hd2).
    - split; [| apply Hnone]. split; [congruence |]. right. split; [done |]. split; [done |].
      rewrite <- (app_nil_r lost). exact (delta_step _ _ _ _ _ _ Hd Hd2). }
  apply wp_bind, wp_bind, wp_enable_msi.
  - intros w2 v Hd2 Hh2 Hs2. apply wp_ret, Hgo; rewrite ?Hs2; [| done | done].
    unfold enabled_res, legacy. cbn. by rewrite Hp.
  - intros w2 rc2 Hd2 Hh2 Hs2. apply wp_ret, Hgo; rewrite ?Hs2; [| done | done].
    unfold enabled_res, legacy. by rewrite Hp, Hn.
Qed.

(** the interrupts given back, before the mode is disabled *)
Lemma wp_free_requested w (Q : unit -> world irq_ctx -> Prop) (k : M irq_ctx unit) :
  irq_set (w_st w) -> zdev_msixp (w_st w) <> 0 ->
  (forall w', delta w w' [] (msix_held (w_st w)) -> w_held w' = w_held w -> w_st w' = w_st w -> wp k Q w') ->
  wp ((if zdev_msix_num (w_st w) =? 1 then v ← msix_vec 0; free_irq v cookie_zdev
       else free_chans msix_vec);; k) Q w.
Proof.
  intros Hset Hp HQ. specialize (Hset Hp). unfold msix_held in HQ. apply wp_bind.
  destruct (zdev_msix_num (w_st w) =? 1).
  - by apply wp_bind, wp_msix_vec0, wp_free_irq.
  - apply (wp_free_chans msix_vec msix_irqs msix_vec_cells); [by rewrite msix_irqs_length | done].
Qed.

Lemma wp_free_requested_msi w (Q : unit -> world irq_ctx -> Prop) (k : M irq_ctx unit) :
  (forall w', delta w w' [] (msi_held (w_st w)) -> w_held w' = w_held w -> w_st w' = w_st w -> wp k Q w') ->
  wp ((if zdev_msi_num (w_st w) =? 1 then free_irq (zdev_msi_vec (w_st w)) cookie_zdev
       else free_chans msi_vec);; k) Q w.
Proof.
  intros HQ. unfold msi_held in HQ. apply wp_bind. destruct (zdev_msi_num (w_st w) =? 1).
  - by apply wp_free_irq.
  - apply (wp_free_chans msi_vec msi_irqs msi_vec_cells); [by rewrite msi_irqs_length | done].
Qed.

Lemma wp_zynq_free_irq w :
  irq_set (w_st w) ->
  wp zynq_free_irq (fun _ w' => w_held w' = w_held w /\ irq_none (w_st w') /\
    delta w w' [] (irq_res (w_st w))) w.
Proof.
  intros Hset. unfold zynq_free_irq. apply wp_bind, wp_get. rewrite irq_res_split.
  unfold enabled_res, requested_res. set (s := w_st w) in *.
  eapply wp_bind, wp_mono with (Q := fun _ w1 => w_held w1 = w_held w /\ w_st w1 = s /\
    delta w w1 [] ((if legacy s then [] else if negb (zdev_msixp s =? 0) then [RMsix] else [RMsi]) ++ requested_res s)).
  { unfold requested_res. destruct (legacy s); [by apply wp_free_irq |].
    destruct (Z.eqb_spec (zdev_msixp s) 0) as [Hp|Hp]; cbn [negb].
    - apply wp_free_requested_msi. intros w1 Hd1 Hh1 Hs1.
      eapply (wp_disable "pci_disable_msi"); [reflexivity | reflexivity | | reflexivity]. intros w2 Hd2 Hh2 Hs2.
      split; [congruence |]. split; [unfold s; congruence |]. eapply delta_perm; [done | apply Permutation_app_comm |].
      exact (delta_trans _ _ _ [] _ [] _ Hd1 Hd2).
    - apply wp_free_requested; [done | done |]. intros w1 Hd1 Hh1 Hs1.
      eapply (wp_disable "pci_disable_msix"); [reflexivity | reflexivity | | reflexivity]. intros w2 Hd2 Hh2 Hs2.
      split; [congruence |]. split; [unfold s; congruence |]. eapply delta_perm; [done | apply Permutation_app_comm |].
      exact (delta_trans _ _ _ [] _ [] _ Hd1 Hd2). }
  intros [] w1 (Hh1 & Hs1 & Hd1). apply wp_bind, idles_fini_tasklet. intros [] w2 Hd2 Hh2 Hs2.
  pose proof (delta_trans _ _ _ [] _ [] _ Hd1 Hd2) as Hd. rewrite !app_nil_r in Hd.
  unfold requested_res in Hd. destruct (Z.eqb_spec (zdev_msixp s) 0) as [Hp|Hp]; cbn [negb when] in *.
  + apply wp_bind, wp_ret, wp_modify. split; [cbn; congruence |].
    split; [split; [cbn; congruence | done] |]. eapply delta_world; [exact Hd | reflexivity].
  + apply wp_bind, wp_bind, wp_kfree. intros w3 Hd3 Hh3 Hs3. apply wp_modify, wp_modify.
    split; [cbn; congruence |]. split; [done |]. eapply delta_world; [| reflexivity].
    assert (Hl : legacy s = false) by (unfold legacy; by rewrite (proj2 (Z.eqb_neq _ _) Hp)). rewrite Hl in *.
    eapply delta_perm; [done | | exact (delta_trans _ _ _ [] _ [] _ Hd Hd3)].
    unfold mem_res. rewrite (proj2 (Z.eqb_neq _ _) Hp). solve_Permutation.
Qed.
End irq_lemmas.

Section irq_properties.
Context `{Env} `{ModParams}.

(** C26: interrupt resources.  With nothing allocated, [zynq_alloc_irq] tries
    MSI-X (for all the channels, else for the device), then MSI, then the legacy
    interrupt.  In kernels before 4.12 ([false]: [pci_enable_msix], whose
    positive answer is a number of vectors smaller than the one asked for) it
    returns 0 holding exactly the interrupts it recorded, with the MSI-X
    entries or the MSI they need, or an error with everything given back,
    whichever request failed, and nothing recorded.  Since 4.12 ([true]:
    [pci_enable_msix_range], which answers the number asked for) the same holds
    but for MSI-X: it is never recorded, and it is lost, for good, exactly when
    the entries are allocated and the first call enables it.  [zynq_free_irq]
    gives back exactly what is recorded and leaves nothing recorded. *)
Theorem irq_resources (w : world irq_ctx) :
  (msix_documented -> irq_none (w_st w) -> 0 <= zdev_chan_cnt (ir_zdev (w_st w)) ->
   wp (zynq_alloc_irq false) (alloc_outcome [] w) w) /\
  (msix_range_documented -> irq_none (w_st w) -> 0 < zdev_chan_cnt (ir_zdev (w_st w)) ->
   wp (zynq_alloc_irq true)
     (fun rc w' => alloc_outcome (msix_lost w) w rc w' /\ zdev_msixp (w_st w') = 0) w) /\
  (irq_set (w_st w) ->
   wp zynq_free_irq (fun _ w' => w_held w' = w_held w /\ irq_none (w_st w') /\
     delta w w' [] (irq_res (w_st w))) w).
Proof.
  split_and!.
  - intros Hdoc Hnone Hcnt. unfold zynq_alloc_irq. apply wp_bind, wp_enable_msix; [done | done | |].
    + intros w1 p vs n Hp1 Hd1 Hh1 Hs1 Hset. cbn [negb Z.eqb when]. apply wp_bind, wp_ret.
      eapply wp_mono; [apply (wp_tasklets_request w); try done | by intros ? ? []].
      * rewrite Hs1. right. apply Hnone.
      * unfold enabled_res, legacy. rewrite Hs1. cbn. by rewrite (proj2 (Z.eqb_neq _ _) Hp1).
    + intros w1 rc Hrc Hd1 Hh1 Hs1. rewrite (proj2 (Z.eqb_neq _ _) Hrc). cbn [negb when].
      eapply wp_mono; [apply (wp_without_msix [] w w1); rewrite ?Hs1; try done; apply Hnone | by intros ? ? []].
  - intros Hdoc Hnone Hcnt. unfold zynq_alloc_irq. apply wp_bind, wp_enable_msix_4_12; [done | done |].
    intros w1 rc Hrc Hd1 Hh1 Hs1. rewrite (proj2 (Z.eqb_neq _ _) Hrc). cbn [negb when].
    apply (wp_without_msix (msix_lost w) w w1); rewrite ?Hs1; try done; apply Hnone.
  - apply wp_zynq_free_irq.
Qed.
End irq_properties.

(** ** Concrete devices *)
Module IrqWitness.
#[local] Existing Instance params_default.

Definition irq0 : irq_ctx := IrqCtx (zdev_sample<|zdev_chan_cnt := 3|>) 0 [] 0 0 0 10.
Definition world_irq : world irq_ctx := World [] [] irq0.

(** a kernel that grants MSI-X for every channel, and interrupts but for
    channel [k] *)
Definition env_msix (k : Z) : Env := fun _ c =>
  match c with
  | KAlloc _ => 0x1000
  | KernelCall "msix_entry.vector" [i] => 40 + i
  | KernelCall "request_irq" [v; ch] => if ch =? k then -16 else 0
  | _ => 0
  end.

Definition summary {A} (o : outcome irq_ctx A) : option (A * list resource * list resource) :=
  match o with Ret a w => Some (a, acq (w_log w), rel (w_log w)) | _ => None end.

(** the request of channel 2 fails: both others are freed, and MSI-X *)
Example alloc_fails :
  (let _ := env_msix 2 in summary (zynq_alloc_irq false world_irq)) =
  Some (-16, [RIrq 41 1; RIrq 40 0; RMsix; RMem 0x1000],
        [RMem 0x1000; RMsix; RIrq 40 0; RIrq 41 1]).
Proof. vm_compute. reflexivity. Qed.

(** kernels since 4.12 answer success with the number of vectors, and refuse a
    second request: the driver retries, takes the refusal for a failure, falls
    back to MSI and never disables MSI-X *)
Definition env_4_12 : Env := fun l c =>
  match c with
  | KAlloc _ => 0x1000
  | KernelCall "pci_enable_msix_range" [n; _] =>
      if existsb (fun e => match acquired e with Some RMsix => true | _ => false end) l then -22 else n
  | KernelCall "pdev->irq" _ => 50
  | _ => 0
  end.
Example msix_leaks_4_12 :
  (let _ := env_4_12 in summary ((zynq_alloc_irq true;; zynq_free_irq) world_irq)) =
  Some (tt, [RIrq 50 (-1); RMsi; RMsix; RMem 0x1000], [RMsi; RIrq 50 (-1); RMem 0x1000]).
Proof. vm_compute. reflexivity. Qed.

Lemma msix_documented_0 : @msix_documented (env_msix 9).
Proof. intros l n. left. reflexivity. Qed.

Lemma msix_range_documented_0 : @msix_range_documented env_4_12.
Proof.
  split; unfold msix_call, env_ret, env_4_12; cbn.
  - intros l n _. destruct (existsb _ l); [by left | by right].
  - intros l n m Hn. by rewrite (proj2 (Z.ltb_lt _ _) Hn).
Qed.

Example irq_resources_witness :
  (wp (zynq_alloc_irq (H := env_msix 9) false) (alloc_outcome [] world_irq) world_irq /\
   irq_none irq0) /\
  (wp (zynq_alloc_irq (H := env_4_12) true)
     (fun rc w' => alloc_outcome [RMsix] world_irq rc w' /\ zdev_msixp (w_st w') = 0) world_irq) /\
  let set0 := irq0<|zdev_msixp := 0x1000|><|zdev_msix_vec := [40; 41; 42]|><|zdev_msix_num := 3|> in
  wp zynq_free_irq (fun _ w' =>
    delta (World [] [] set0) w' [] [RMem 0x1000; RMsix; RIrq 40 0; RIrq 41 1; RIrq 42 2]) (World [] [] set0).
Proof.
  split_and!.
  - destruct (irq_resources (H := env_msix 9) world_irq) as [Hbefore _].
    apply Hbefore; [apply msix_documented_0 | by split | done].
  - by split.
  - destruct (irq_resources (H := env_4_12) world_irq) as (_ & Hsince & _).
    assert (Hl : msix_lost (H := env_4_12) world_irq = [RMsix]) by (vm_compute; reflexivity). rewrite <- Hl.
    apply Hsince; [apply msix_range_documented_0 | by split | done].
  - cbv zeta. eapply wp_mono.
    + destruct (irq_resources (H := env_msix 9)
        (World [] [] (irq0<|zdev_msixp := 0x1000|><|zdev_msix_vec := [40; 41; 42]|><|zdev_msix_num := 3|>)))
        as (_ & _ & Hfree).
      apply Hfree. intros _. reflexivity.
    + intros [] w' (_ & _ & Hd). exact Hd.
Defined.
End IrqWitness.
