(* ===== verification/Stats.v ===== *)
(** * Statistics counters ([zynq_stats_t] of [basa_debug.h])

    What a run does to an array of counters, for any structure that has one,
    and runs that change nothing the outside sees. *)

From S2P Require Import Device.

(** counter [id]; none, 0 *)
Definition stat (l : list zynq_stats) (id : Z) : Z :=
  match l !! Z.to_nat id with Some s => cnt s | None => 0 end.

(** from [l] to [l'] every counter [i] grew by [n i], modulo its width *)
Definition counted (n : Z -> Z) (l l' : list zynq_stats) : Prop :=
  length l' = length l /\
  forall i, 0 <= i < Z.of_nat (length l) -> u64 (stat l' i) = u64 (stat l i + n i).
Definition once (id k : Z) (i : Z) : Z := if i =? id then k else 0.

(** [w'] follows [w] by calls that hand out nothing and is in state [s] *)
Definition reaches {S} (w w' : world S) (s : S) : Prop :=
  w_st w' = s /\ w_held w' = w_held w /\
  exists evs, w_log w' = evs ++ w_log w /\ Forall calm evs.

Section reaches.
Context {S : Type}.
Implicit Types w : world S.

Lemma reaches_refl w : reaches w w (w_st w).
Proof. split; [done |]. split; [done |]. exists []. by split. Qed.

Lemma reaches_trans w w1 w2 s1 s2 : reaches w w1 s1 -> reaches w1 w2 s2 -> reaches w w2 s2.
Proof.
  intros (_ & Hh & e1 & Hl & Hc) (Hs & Hh' & e2 & Hl' & Hc').
  split; [done |]. split; [congruence |]. exists (e2 ++ e1).
  rewrite Hl', Hl, app_assoc. split; [done |]. by apply Forall_app.
Qed.

Lemma reaches_calmly w w1 s : reaches w w1 s -> forall w2, calmly w1 w2 -> reaches w w2 s.
Proof.
  intros H w2 (Hs & Hh & He). eapply reaches_trans; [exact H |]. split; [| by split].
  rewrite Hs. apply H.
Qed.

Lemma reaches_emit w w1 s e : reaches w w1 s -> calm e -> reaches w (emit e w1) s.
Proof. intros H He. eapply reaches_calmly; [exact H | by apply calmly_emit]. Qed.

Lemma calmly_reaches w w' : calmly w w' -> reaches w w' (w_st w).
Proof. apply reaches_calmly, reaches_refl. Qed.

Lemma reaches_modify w w1 s s' : reaches w w1 s -> reaches w (World (w_log w1) (w_held w1) s') s'.
Proof. by intros (_ & Hh & He). Qed.
End reaches.

Lemma reaches_zoom {S T} (p : T -> S -> S) (w : world S) (g : S -> T) (w' : world T) t :
  reaches (World (w_log w) (w_held w) (g (w_st w))) w' t ->
  reaches w (World (w_log w') (w_held w') (p (w_st w') (w_st w))) (p t (w_st w)).
Proof. intros (-> & Hh & He). by split. Qed.

Section counted.
Implicit Types l : list zynq_stats.

Lemma counted_refl l : counted (fun _ => 0) l l.
Proof. split; [done |]. intros. by rewrite Z.add_0_r. Qed.

Lemma counted_trans n m l1 l2 l3 :
  counted n l1 l2 -> counted m l2 l3 -> counted (fun i => n i + m i) l1 l3.
Proof.
  intros [Hl Hn] [Hl' Hm]. split; [congruence |]. intros i Hi.
  rewrite Hm by (rewrite Hl; lia). specialize (Hn i Hi). unfold u64 in *.
  rewrite <- Z.add_mod_idemp_l, Hn, Z.add_mod_idemp_l by lia. f_equal. lia.
Qed.

Lemma counted_ext n m l l' : (forall i, n i = m i) -> counted n l l' -> counted m l l'.
Proof. intros He [Hl Hn]. split; [done |]. intros i Hi. by rewrite Hn, He. Qed.

Lemma counted_inc id k l :
  0 <= id < Z.of_nat (length l) -> counted (once id k) l (stats_inc_at id k l).
Proof.
  intros Hid. unfold stats_inc_at. split; [apply length_alter |]. intros i Hi.
  unfold stat, once. destruct (Z.eqb_spec i id) as [->|Hne].
  - rewrite list_lookup_alter, decide_True by done.
    destruct (lookup_lt_is_Some_2 l (Z.to_nat id)) as [x ->]; [lia |]. cbn.
    unfold u64. by rewrite Z.mod_mod by lia.
  - rewrite list_lookup_alter, decide_False by lia. by rewrite Z.add_0_r.
Qed.

Lemma counted_ts id j l :
  counted (fun _ => 0) l (alter (fun s => s<|ts := j|>) (Z.to_nat id) l).
Proof.
  split; [apply length_alter |]. intros i Hi. rewrite Z.add_0_r. unfold stat.
  rewrite list_lookup_alter. destruct (decide _) as [<-|]; [| done].
  by destruct (l !! Z.to_nat id).
Qed.
End counted.

Section rules.
Context `{Env} `{ModParams} {S : Type} `{HasStats S}.
Implicit Types w : world S.

(** the state's counters replaced *)
Definition with_stats (l : list zynq_stats) (s : S) : S := stats_upd (fun _ => l) s.

Lemma wp_stats id w (Q : unit -> world S -> Prop) :
  (forall f s, stats_upd f s = with_stats (f (stats_of s)) s) ->
  0 <= id < Z.of_nat (length (stats_of (w_st w))) ->
  (forall w' l, counted (once id 1) (stats_of (w_st w)) l ->
     reaches w w' (with_stats l (w_st w)) -> Q tt w') ->
  wp (ZYNQ_STATS id) Q w.
Proof.
  intros Hu Hid HQ. unfold ZYNQ_STATS. apply wp_modify, (HQ _ (stats_inc_at id 1 (stats_of (w_st w)))).
  - by apply counted_inc.
  - rewrite Hu. apply (reaches_modify w w (w_st w)), reaches_refl.
Qed.

Lemma wp_stats_logx id k interval w (Q : unit -> world S -> Prop) :
  (forall f s, stats_upd f s = with_stats (f (stats_of s)) s) ->
  (forall l l' s, with_stats l (with_stats l' s) = with_stats l s) ->
  0 <= id < Z.of_nat (length (stats_of (w_st w))) ->
  (forall w' l, counted (once id k) (stats_of (w_st w)) l ->
     reaches w w' (with_stats l (w_st w)) -> Q tt w') ->
  wp (ZYNQ_STATS_LOGX id k interval) Q w.
Proof.
  intros Hu Hw Hid HQ. unfold ZYNQ_STATS_LOGX, zynq_stats_log, jiffies.
  set (l := stats_inc_at id k (stats_of (w_st w))).
  assert (counted (once id k) (stats_of (w_st w)) l) as Hc by by apply counted_inc.
  apply wp_bind, wp_bind, wp_modify. rewrite Hu. fold l.
  set (w1 := World (w_log w) (w_held w) (with_stats l (w_st w))).
  assert (reaches w w1 (with_stats l (w_st w))) as Hr.
  { apply (reaches_modify w w (w_st w)), reaches_refl. }
  apply wp_bind, wp_gets. cbn [w_st w1].
  assert (stats_of (with_stats l (w_st w)) = l) as El by apply stats_of_upd.
  rewrite El.
  apply wp_bind, wp_array_get.
  destruct (zlookup_Some l id) as (x & Hx); [unfold l, stats_inc_at; rewrite length_alter; lia |].
  exists x. split; [done |]. apply wp_bind.
  assert (forall w2, reaches w w2 (with_stats l (w_st w)) ->
    wp (j ← jiffies; modify (stats_upd (alter (fun s => s<|ts := j|>) (Z.to_nat id)));; mret 1)
      (fun _ => Q tt) w2) as Hlog.
  { intros w2 Hr2. unfold jiffies. apply wp_bind, wp_fmap, wp_ask. intros r _.
    apply wp_bind, wp_modify, wp_ret.
    apply (HQ _ (alter (fun s => s<|ts := u64 r|>) (Z.to_nat id) l)).
    - eapply counted_ext; [| eapply counted_trans; [exact Hc | apply counted_ts]].
      intros i. cbn. lia.
    - rewrite Hu. cbn [w_st emit]. rewrite (proj1 Hr2). rewrite Hw, El.
      eapply (reaches_modify w _ (with_stats l (w_st w))), reaches_emit; [exact Hr2 | exact I]. }
  destruct (tst _ _); [by apply wp_ret, wp_mono with (fun _ => Q tt); [apply Hlog |] |].
  apply wp_bind, wp_fmap, wp_ask. intros r _.
  apply wp_ret. assert (reaches w (emit (Ev Jiffies r) w1) (with_stats l (w_st w))) as Hr2
    by by apply reaches_emit.
  destruct (_ <? _); [by apply wp_ret, wp_ret, (HQ _ l) |].
  eapply wp_mono; [by apply Hlog |]. intros a w2 HQ2. by apply wp_ret.
Qed.
End rules.
