(* ===== verification/VideoMeta.v ===== *)
(** * Metadata of a video frame ([zvideo_check_meta_data] of [basa_video.c],
    the embedded data readers of [basa_cam_hci.c])

    For every frame the driver reads the lines of data the sensor embeds in it
    and the metadata the FPGA appends to it, stamps it, and accounts for the
    frames lost since the last one. *)

From S2P Require Import Stats Device Chan Video.

(** ** Constants *)
Definition VIDEO_STATS_FRAME : Z := 0.
Definition VIDEO_STATS_RESET : Z := 1.
Definition VIDEO_STATS_TRIG_PULSE_ERR : Z := 2.
Definition VIDEO_STATS_LINK_CHANGE : Z := 3.
Definition VIDEO_STATS_DMA_RX_BUF_FULL : Z := 4.
Definition VIDEO_STATS_DMA_RX_FIFO_FULL : Z := 5.
Definition VIDEO_STATS_TRIG_COUNT_MISMATCH : Z := 6.
Definition VIDEO_STATS_META_COUNT_MISMATCH : Z := 7.
Definition VIDEO_STATS_FRAME_GAP_ERR : Z := 8.
Definition VIDEO_STATS_FRAME_FORMAT_ERR : Z := 9.
Definition VIDEO_STATS_FRAME_SHORT : Z := 10.
Definition VIDEO_STATS_FRAME_LONG : Z := 11.
Definition VIDEO_STATS_FRAME_CORRUPT : Z := 12.
Definition VIDEO_STATS_FRAME_DROP : Z := 13.
Definition VIDEO_STATS_FRAME_DROP_1 : Z := 14.
Definition VIDEO_STATS_FRAME_DROP_2 : Z := 15.
Definition VIDEO_STATS_FRAME_DROP_M : Z := 16.
Definition VIDEO_STATS_NO_VIDEO_BUF : Z := 17.
Definition VIDEO_STATS_NUM : Z := 18.

Definition ZVIDEO_EXT_MARKER : Z := 0xFE12.
Definition ZVIDEO_EXT_ERR_FRAME_FORMAT : Z := 0x01.
Definition ZVIDEO_EXT_ERR_SHORT_FRAME : Z := 0x02.
Definition ZVIDEO_EXT_ERR_LONG_FRAME : Z := 0x04.
Definition ZVIDEO_EXT_ERR_ALL : Z := 0x07.
Definition ZVIDEO_EXT_ERR_INVALID : Z := 0xFF.

Definition CAM_CAP_TIMESTAMP_FPGA : Z := 0.
Definition CAM_CAP_TIMESTAMP_TRIGGER : Z := 1.
Definition CAM_CAP_TIMESTAMP_FORMATION : Z := 2.
Definition CAM_CAP_TIMESTAMP_HOST : Z := 3.

Definition EM_REG_CHIP_VER : Z := 0x3000.
Definition EM_REG_FRAME_CNT_HI : Z := 0x2000.
Definition EM_REG_EXP_T1_ROW : Z := 0x2020.
Definition EM_REG_OFFSET_BASE_230 : Z := 0x0004.
Definition EM_REG_OFFSET_FRAME_LNS_230 : Z := 0x0034.
Definition EM_REG_OFFSET_LINE_PCK_230 : Z := 0x003C.
Definition EM_REG_OFFSET_COARSE_INT_230 : Z := 0x0054.
Definition EM_REG_OFFSET_FRAME_CNT_230 : Z := 0x00F4.
Definition EM_REG_OFFSET_BASE1_231 : Z := 0x0004.
Definition EM_REG_OFFSET_FRAME_CNT_HI_231 : Z := 0x000C.
Definition EM_REG_OFFSET_FRAME_CNT_LO_231 : Z := 0x0014.
Definition EM_REG_OFFSET_BASE2_231 : Z := 0x0074.
Definition EM_REG_OFFSET_EXP_T1_ROW_231 : Z := 0x007C.
Definition EM_REG_OFFSET_EXP_T2_ROW_231 : Z := 0x0084.
Definition EM_REG_OFFSET_EXP_T3_ROW_231 : Z := 0x008C.
Definition EM_REG_OFFSET_EXP_T1_CLK_HI_231 : Z := 0x009C.
Definition EM_REG_OFFSET_EXP_T1_CLK_LO_231 : Z := 0x00A4.

Definition EM_HDR_DWORD0 : Z := 0xAA000A00.
Definition EM_HDR_DWORD1 : Z := 0xA5003000.
Definition EM_HDR_DWORD2 : Z := 0x5A000000.
Definition EM_HDR_MASK : Z := 0xFFFF00FF.

Definition UINT_MAX : Z := 0xFFFFFFFF.
Definition sizeof_ext_meta_data : Z := 32.

(** module parameters of [basa_video.c] that concern frames *)
Class VideoParams := {
  zynq_video_ts_type : Z;
  zynq_video_err_tolerant : bool;
  zynq_video_err_thresh : Z;
  zynq_video_format : Z
}.

(** ** State *)

(** a buffer of videobuf2 with the driver's members; [vb_num] tells buffers
    apart, [vb_timestamp] is the time in nanoseconds (kernels since 4.5) *)
Record zynq_video_buffer := Vbuf {
  vb_num : Z;
  vb_offset : Z;
  vb_addr : Z;
  vb_size : Z;
  vb_timestamp : Z;
  vb_sequence : Z
}.
#[global] Instance zynq_video_buffer_eta : Eta zynq_video_buffer := fun r =>
  Vbuf (vb_num r) (vb_offset r) (vb_addr r) (vb_size r) (vb_timestamp r) (vb_sequence r).

(** which of the two sensors' readers [read_em_data] points to *)
Inductive em_reader := EM_NONE | EM_230 | EM_231.

(** the members of [struct zynq_video] that change with each frame *)
Record zvideo_stream := Stream {
  sequence : Z;
  buf_total : Z;
  buf_avail : Z;
  frame_err_cnt : Z;
  last_trig_cnt : Z;
  last_tv_intr : timeval;
  ts_link_change : Z;
  read_em_data : em_reader;
  buf_list : list zynq_video_buffer;
  pending_list : list zynq_video_buffer;
  video_stats : list zynq_stats
}.
#[global] Instance zvideo_stream_eta : Eta zvideo_stream := fun r =>
  Stream (sequence r) (buf_total r) (buf_avail r) (frame_err_cnt r) (last_trig_cnt r)
    (last_tv_intr r) (ts_link_change r) (read_em_data r) (buf_list r) (pending_list r)
    (video_stats r).
#[global] Instance zvideo_stream_stats : HasStats zvideo_stream.
Proof. refine {| stats_of := video_stats; stats_upd f s := s<|video_stats ::= f|> |}. done. Defined.

(** the camera of a channel *)
Record vid_ctx := VidCtx {
  vc_zdev : zynq_dev;
  vc_zchan : zynq_chan;
  vc_video : zynq_video;
  vc_stream : zvideo_stream
}.
#[global] Instance vid_ctx_eta : Eta vid_ctx := fun r =>
  VidCtx (vc_zdev r) (vc_zchan r) (vc_video r) (vc_stream r).

Definition on_vchan {A} (m : M chan_ctx A) : M vid_ctx A :=
  zoom (fun s => ChanCtx (vc_zdev s) (vc_zchan s))
       (fun c s => s<|vc_zdev := ch_zdev c|><|vc_zchan := ch_zchan c|>) m.
Definition on_cam {A} (m : M zynq_video A) : M vid_ctx A :=
  zoom vc_video (fun v s => s<|vc_video := v|>) m.
Definition on_stream {A} (m : M zvideo_stream A) : M vid_ctx A :=
  zoom vc_stream (fun v s => s<|vc_stream := v|>) m.
Definition upd_cam (f : zynq_video -> zynq_video) : M vid_ctx unit :=
  modify (fun s => s<|vc_video ::= f|>).
Definition upd_stream (f : zvideo_stream -> zvideo_stream) : M vid_ctx unit :=
  modify (fun s => s<|vc_stream ::= f|>).
Definition cam : M vid_ctx zynq_video := gets vc_video.
Definition stream : M vid_ctx zvideo_stream := gets vc_stream.

(** division of unsigned operands; by zero it is a fault *)
Definition c_div {S} (a b : Z) : M S Z :=
  if b =? 0 then fail DivByZero else mret (a / b).

Section meta.
Context `{Env} `{ModParams} `{VideoParams}.

(** a word, and a byte, of the frame the device stored at [mem] *)
Definition mem_word (p : Z) : M vid_ctx Z := u32 <$> ask (DmaWord p).
Definition mem_byte (mem off : Z) : M vid_ctx Z :=
  (fun w => byte_of w (off mod 4)) <$> mem_word (mem + 4 * (off / 4)).

(** ** Times of a frame ([basa_cam_hci.c]) *)
Definition T_ROW (llp pck : Z) : M vid_ctx Z := c_div (llp * USEC_PER_SEC) pck.
Definition T_FRAME (fll llp pck : Z) : M vid_ctx Z := u64 <$> c_div (llp * USEC_PER_SEC * fll) pck.

Definition zcam_init_time_params : M vid_ctx unit :=
  v ← cam;
  let c := caps v in
  row ← T_ROW (line_len_pck c) (pixel_clock c);
  first ← T_FRAME (frame_len_lines c) (line_len_pck c) (pixel_clock c);
  let first := u32 first in
  half ← T_FRAME (ZVIDEO_IMAGE_HEIGHT / 2) (line_len_pck c) (pixel_clock c);
  full ← T_FRAME ZVIDEO_IMAGE_HEIGHT (line_len_pck c) (pixel_clock c);
  upd_cam (fun v => v<|t_row := u32 row|><|t_first := first|>
    <|t_middle := u32 (first + half)|><|t_last := u32 (first + full)|>).

(** ** Embedded data *)
Definition EM_DATA_VALID (buf : Z) : M vid_ctx bool :=
  w0 ← mem_word buf;
  if negb (w0 =? EM_HDR_DWORD0) then mret false
  else
    w1 ← mem_word (buf + 4);
    if negb (Z.land w1 EM_HDR_MASK =? Z.land EM_HDR_DWORD1 EM_HDR_MASK) then mret false
    else
      w2 ← mem_word (buf + 8);
      mret (Z.land w2 EM_HDR_MASK =? Z.land EM_HDR_DWORD2 EM_HDR_MASK).

Definition EM_REG_VAL (buf x : Z) : M vid_ctx Z :=
  msb ← mem_byte buf (x + 1);
  lsb ← mem_byte buf (x + 5);
  mret (Z.shiftl msb 8 + lsb).

Definition zcam_read_embedded_data_230 (buf : Z) : M vid_ctx unit :=
  base ← EM_REG_VAL buf EM_REG_OFFSET_BASE_230;
  when (base =? EM_REG_CHIP_VER) (
    frame_count ← EM_REG_VAL buf EM_REG_OFFSET_FRAME_CNT_230;
    upd_cam (fun v => v<|last_meta_cnt := frame_count|>);;
    frame_lines ← EM_REG_VAL buf EM_REG_OFFSET_FRAME_LNS_230;
    v ← cam;
    when (negb (frame_lines =? frame_len_lines (caps v))) (
      upd_cam (fun v => v<|caps ::= fun c => c<|frame_len_lines := frame_lines|>|>);;
      zcam_init_time_params);;
    pck ← EM_REG_VAL buf EM_REG_OFFSET_LINE_PCK_230;
    let line_pck := u16 (Z.shiftl pck 1) in
    v ← cam;
    when (negb (line_pck =? line_len_pck (caps v))) (
      upd_cam (fun v => v<|caps ::= fun c => c<|line_len_pck := line_pck|>|>);;
      zcam_init_time_params);;
    coarse_int ← EM_REG_VAL buf EM_REG_OFFSET_COARSE_INT_230;
    v ← cam;
    t ← T_FRAME coarse_int (line_len_pck (caps v)) (pixel_clock (caps v));
    upd_cam (fun v => v<|last_exp_time := u32 t|>)).

Definition zcam_read_embedded_data_231 (buf : Z) : M vid_ctx unit :=
  base1 ← EM_REG_VAL buf EM_REG_OFFSET_BASE1_231;
  when (base1 =? EM_REG_FRAME_CNT_HI) (
    hi ← EM_REG_VAL buf EM_REG_OFFSET_FRAME_CNT_HI_231;
    lo ← EM_REG_VAL buf EM_REG_OFFSET_FRAME_CNT_LO_231;
    upd_cam (fun v => v<|last_meta_cnt := Z.lor (Z.shiftl hi 16) lo|>));;
  base2 ← EM_REG_VAL buf EM_REG_OFFSET_BASE2_231;
  when (base2 =? EM_REG_EXP_T1_ROW) (
    t1_row ← EM_REG_VAL buf EM_REG_OFFSET_EXP_T1_ROW_231;
    t2_row ← EM_REG_VAL buf EM_REG_OFFSET_EXP_T2_ROW_231;
    t3_row ← EM_REG_VAL buf EM_REG_OFFSET_EXP_T3_ROW_231;
    hi ← EM_REG_VAL buf EM_REG_OFFSET_EXP_T1_CLK_HI_231;
    lo ← EM_REG_VAL buf EM_REG_OFFSET_EXP_T1_CLK_LO_231;
    c_div (Z.lor (Z.shiftl hi 16) lo) t1_row;;
    let t_tot := u32 (t1_row + t2_row + t3_row + 3) in
    v ← cam;
    t ← T_FRAME t_tot (line_len_pck (caps v)) (pixel_clock (caps v));
    upd_cam (fun v => v<|last_exp_time := u32 t|>)).

Definition call_read_em_data (mem : Z) : M vid_ctx unit :=
  s ← stream;
  match read_em_data s with
  | EM_NONE => fail NullDeref
  | EM_230 => zcam_read_embedded_data_230 mem
  | EM_231 => zcam_read_embedded_data_231 mem
  end.

(** ** Extended metadata *)
Record zynq_video_ext_meta_data := ExtMeta {
  trigger_cnt : Z;
  time_stamp : ext_time_stamp;
  ext_rsv1 : Z;
  marker0 : Z; marker1 : Z; marker2 : Z;
  ext_rsv2_0 : Z;                  (** the word at [rsv2[0]] *)
  ext_rsv2_3 : Z;                  (** the word at [rsv2[3]] *)
  ext_error : Z
}.

(** the structure in the last eight words of the frame *)
Definition read_ext (p : Z) : M vid_ctx zynq_video_ext_meta_data :=
  w0 ← mem_word p; w1 ← mem_word (p + 4); w2 ← mem_word (p + 8); w3 ← mem_word (p + 12);
  w4 ← mem_word (p + 16); w5 ← mem_word (p + 20); w6 ← mem_word (p + 24);
  w7 ← mem_word (p + 28);
  mret (ExtMeta w0 (ExtTime w2 (bf_get 0 20 w1)) w3 (bf_get 16 16 w4) (bf_get 0 16 w5)
    (bf_get 16 16 w5) w6 (Z.lor (byte_of w6 3) (Z.shiftl (bf_get 0 24 w7) 8)) (byte_of w7 3)).

Definition ZVIDEO_FRAME_CORRUPTED (ext : zynq_video_ext_meta_data) : bool :=
  negb (marker0 ext =? ZVIDEO_EXT_MARKER) || negb (marker1 ext =? ZVIDEO_EXT_MARKER)
  || negb (marker2 ext =? ZVIDEO_EXT_MARKER) || negb (ext_rsv1 ext =? 0)
  || negb (ext_rsv2_0 ext =? 0) || negb (ext_rsv2_3 ext =? 0)
  || tst (ext_error ext) (Z.lnot ZVIDEO_EXT_ERR_ALL).

(** ** The check of a frame *)
Definition vid_STATS (id : Z) : M vid_ctx unit := on_stream (ZYNQ_STATS id).
Definition vid_STATS_LOG (id : Z) : M vid_ctx unit := on_stream (ZYNQ_STATS_LOG id).
Definition vid_STATS_LOGX (id count interval : Z) : M vid_ctx unit :=
  on_stream (ZYNQ_STATS_LOGX id count interval).

(** the header's frame counter: how far it moved, -1 when it is not known *)
Definition check_header (mem : Z) : M vid_ctx Z :=
  v ← cam;
  if negb (embedded_data (caps v) =? 1) then mret (-1)
  else
    valid ← EM_DATA_VALID mem;
    if negb valid then mret (-1)
    else
      call_read_em_data mem;;
      v' ← cam;
      mret (if last_meta_cnt v =? UINT_MAX then -1
            else s32 (last_meta_cnt v' - last_meta_cnt v)).

(** the errors the FPGA reports: the return value, and the trigger count taken *)
Definition check_errors (ext : zynq_video_ext_meta_data) : M vid_ctx (Z * Z) :=
  s ← stream;
  if ZVIDEO_FRAME_CORRUPTED ext then
    vid_STATS_LOG VIDEO_STATS_FRAME_CORRUPT;;
    upd_stream (fun s => s<|frame_err_cnt ::= fun n => u32 (n + 1)|>);;
    mret (if zynq_video_err_tolerant then 0 else -1, u32 (last_trig_cnt s + 1))
  else if negb (ext_error ext =? 0) then
    when (tst (ext_error ext) ZVIDEO_EXT_ERR_FRAME_FORMAT) (vid_STATS_LOG VIDEO_STATS_FRAME_FORMAT_ERR);;
    when (tst (ext_error ext) ZVIDEO_EXT_ERR_SHORT_FRAME) (vid_STATS_LOG VIDEO_STATS_FRAME_SHORT);;
    when (tst (ext_error ext) ZVIDEO_EXT_ERR_LONG_FRAME) (vid_STATS_LOG VIDEO_STATS_FRAME_LONG);;
    upd_stream (fun s => s<|frame_err_cnt ::= fun n => u32 (n + 1)|>);;
    mret (if zynq_video_err_tolerant then 0 else -1, trigger_cnt ext)
  else
    upd_stream (fun s => s<|frame_err_cnt := 0|>);;
    mret (0, trigger_cnt ext).

(** too many bad frames in a row: have the channel reset *)
Definition check_threshold : M vid_ctx unit :=
  s ← stream;
  when (zynq_video_err_thresh <=? frame_err_cnt s) (
    upd_stream (fun s => s<|frame_err_cnt := 0|>);;
    v ← cam;
    spin_lock (L_zvideo_q (index v));;
    upd_cam (fun v => v<|vstate ::= fun x => Z.lor x ZVIDEO_STATE_CHAN_FAULT|>);;
    spin_unlock (L_zvideo_q (index v));;
    on_vchan zchan_watchdog_complete).

(** the time stamp of the frame *)
Definition fpga_time (corrupted : bool) (ext : zynq_video_ext_meta_data) : timeval :=
  if corrupted then Timeval 0 0
  else Timeval (ext_sec (time_stamp ext)) (ext_usec (time_stamp ext)).
Definition frame_time (ext : zynq_video_ext_meta_data) : M vid_ctx timeval :=
  v ← cam;
  let corrupted := ZVIDEO_FRAME_CORRUPTED ext in
  if zynq_video_ts_type =? CAM_CAP_TIMESTAMP_TRIGGER then
    if corrupted then host_to_trigger v else fpga_to_trigger v (time_stamp ext)
  else if zynq_video_ts_type =? CAM_CAP_TIMESTAMP_FORMATION then
    if last_exp_time v =? 0 then mret (fpga_time corrupted ext)
    else if corrupted then host_to_formation v else fpga_to_formation v (time_stamp ext)
  else if zynq_video_ts_type =? CAM_CAP_TIMESTAMP_HOST then mret (tv_intr v)
  else mret (fpga_time corrupted ext).

(** frames between this one and the last, by the host's clock: -1 unknown *)
Definition host_gap : M vid_ctx Z :=
  v ← cam;
  s ← stream;
  let ts_gap := if t_sec (last_tv_intr s) =? 0 then frame_interval v
                else tv_diff (last_tv_intr s) (tv_intr v) in
  if (ts_gap <? 0) || (Z.shiftl USEC_PER_SEC 3 <? ts_gap) then
    vid_STATS VIDEO_STATS_FRAME_GAP_ERR;;
    mret (-1)
  else if negb (frame_interval v =? 0) then
    let cnt_gap := div_round ts_gap (frame_interval v) in
    when (cnt_gap =? 0) (vid_STATS_LOG VIDEO_STATS_FRAME_GAP_ERR);;
    mret cnt_gap
  else mret (-1).

(** the header's count is trusted before the host's clock; the trigger count is
    for reference only *)
Definition choose_gap (meta_cnt_gap trig_cnt_gap cnt_gap : Z) : M vid_ctx Z :=
  when ((0 <? meta_cnt_gap) && (0 <? cnt_gap) && negb (cnt_gap =? meta_cnt_gap))
    (vid_STATS_LOG VIDEO_STATS_META_COUNT_MISMATCH);;
  let cnt_gap := if 0 <? meta_cnt_gap then meta_cnt_gap else cnt_gap in
  when ((0 <? trig_cnt_gap) && (0 <? cnt_gap) && negb (cnt_gap =? trig_cnt_gap))
    (vid_STATS VIDEO_STATS_TRIG_COUNT_MISMATCH);;
  mret cnt_gap.

Definition count_drops (cnt_gap : Z) : M vid_ctx unit :=
  when (1 <? cnt_gap) (
    let drop_cnt := cnt_gap - 1 in
    vid_STATS_LOGX VIDEO_STATS_FRAME_DROP drop_cnt 0;;
    (if drop_cnt =? 1 then vid_STATS VIDEO_STATS_FRAME_DROP_1
     else if drop_cnt =? 2 then vid_STATS VIDEO_STATS_FRAME_DROP_2
     else vid_STATS VIDEO_STATS_FRAME_DROP_M)).

Definition zvideo_check_meta_data (buf : zynq_video_buffer) : M vid_ctx (Z * zynq_video_buffer) :=
  let mem := vb_addr buf in
  let memsz := vb_size buf in
  (* check camera embedded header metadata *)
  meta_cnt_gap ← check_header mem;
  (* check extended metadata *)
  ext ← read_ext (mem + memsz - sizeof_ext_meta_data);
  '(ret, trig_cnt) ← check_errors ext;
  check_threshold;;
  s ← stream;
  let trig_cnt_gap :=
    if negb (last_trig_cnt s =? 0) then s32 (trig_cnt - last_trig_cnt s) else -1 in
  upd_stream (fun s => s<|last_trig_cnt := trig_cnt|>);;
  tv ← frame_time ext;
  let buf := buf<|vb_timestamp := u64 (t_sec tv * 1000000000 + t_usec tv * 1000)|>
    <|vb_sequence := sequence s|> in
  (* check possible frame drop *)
  cnt_gap ← host_gap;
  cnt_gap ← choose_gap meta_cnt_gap trig_cnt_gap cnt_gap;
  count_drops cnt_gap;;
  vid_STATS VIDEO_STATS_FRAME;;
  v ← cam;
  upd_stream (fun s => s<|last_tv_intr := tv_intr v|>);;
  mret (ret, buf).
End meta.

(** ** The frame as data

    [frame p] is the word at address [p] of the buffer.  From a moment [l] on
    it stays so as long as the driver does nothing but read: the device does not
    write to a buffer while the driver looks at it, and may have filled it anew
    the next time it does. *)
Definition frame_read (e : event) : Prop := match ev_call e with DmaWord _ => True | _ => False end.
Definition holds_frame `{Env} (l : list event) (frame : Z -> Z) (mem memsz : Z) : Prop :=
  forall evs p, Forall frame_read evs -> mem <= p < mem + memsz -> u32 (env_ret (evs ++ l) (DmaWord p)) = frame p.

(** [w'] follows [w] by reads of a frame and is in state [s] *)
Definition sees {S} (w w' : world S) (s : S) : Prop :=
  w_st w' = s /\ w_held w' = w_held w /\ exists evs, w_log w' = evs ++ w_log w /\ Forall frame_read evs.

Lemma frame_read_calm e : frame_read e -> calm e.
Proof. unfold frame_read, calm. by destruct (ev_call e). Qed.
Lemma sees_refl {S} (w : world S) : sees w w (w_st w).
Proof. split; [done |]. split; [done |]. by exists []. Qed.
Lemma sees_reaches {S} (w w' : world S) s : sees w w' s -> reaches w w' s.
Proof.
  intros (Hs & Hh & evs & Hl & He). split; [done |]. split; [done |]. exists evs. split; [done |].
  eapply Forall_impl; [exact He | apply frame_read_calm].
Qed.
Lemma sees_read {S} (w w' : world S) s p r : sees w w' s -> sees w (emit (Ev (DmaWord p) r) w') s.
Proof.
  intros (Hs & Hh & evs & Hl & He). split; [done |]. split; [done |]. exists (Ev (DmaWord p) r :: evs).
  split; [cbn; by rewrite Hl | by constructor].
Qed.
Lemma sees_modify {S} (w w' : world S) s s' : sees w w' s -> sees w (World (w_log w') (w_held w') s') s'.
Proof. by intros (_ & Hh & He). Qed.

Definition frame_byte (frame : Z -> Z) (mem off : Z) : Z :=
  byte_of (frame (mem + 4 * (off / 4))) (off mod 4).
Definition em_reg (frame : Z -> Z) (mem x : Z) : Z :=
  Z.shiftl (frame_byte frame mem (x + 1)) 8 + frame_byte frame mem (x + 5).
Definition em_valid (frame : Z -> Z) (mem : Z) : bool :=
  (frame mem =? EM_HDR_DWORD0)
  && (Z.land (frame (mem + 4)) EM_HDR_MASK =? Z.land EM_HDR_DWORD1 EM_HDR_MASK)
  && (Z.land (frame (mem + 8)) EM_HDR_MASK =? Z.land EM_HDR_DWORD2 EM_HDR_MASK).

(** the sensor's frame counter, when the frame carries it *)
Definition em_count (r : em_reader) (frame : Z -> Z) (mem : Z) : option Z :=
  match r with
  | EM_230 =>
      if em_reg frame mem EM_REG_OFFSET_BASE_230 =? EM_REG_CHIP_VER
      then Some (em_reg frame mem EM_REG_OFFSET_FRAME_CNT_230) else None
  | EM_231 =>
      if em_reg frame mem EM_REG_OFFSET_BASE1_231 =? EM_REG_FRAME_CNT_HI
      then Some (Z.lor (Z.shiftl (em_reg frame mem EM_REG_OFFSET_FRAME_CNT_HI_231) 16)
                   (em_reg frame mem EM_REG_OFFSET_FRAME_CNT_LO_231)) else None
  | EM_NONE => None
  end.

(** an AR0231 frame whose exposure row is 0, by which the driver divides *)
Definition row_zero (r : em_reader) (frame : Z -> Z) (mem : Z) : bool :=
  match r with
  | EM_231 => (em_reg frame mem EM_REG_OFFSET_BASE2_231 =? EM_REG_EXP_T1_ROW)
              && (em_reg frame mem EM_REG_OFFSET_EXP_T1_ROW_231 =? 0)
  | _ => false
  end.
(** the driver reads the embedded data of the frame and divides by 0 *)
Definition divides_by_zero (s : vid_ctx) (frame : Z -> Z) (mem : Z) : bool :=
  (embedded_data (caps (vc_video s)) =? 1) && em_valid frame mem && row_zero (read_em_data (vc_stream s)) frame mem.

(** the counter after the frame *)
Definition meta_count (s : vid_ctx) (frame : Z -> Z) (mem : Z) : Z :=
  if (embedded_data (caps (vc_video s)) =? 1) && em_valid frame mem
  then default (last_meta_cnt (vc_video s)) (em_count (read_em_data (vc_stream s)) frame mem)
  else last_meta_cnt (vc_video s).
(** how far it moved *)
Definition meta_gap (s : vid_ctx) (frame : Z -> Z) (mem : Z) : Z :=
  if (embedded_data (caps (vc_video s)) =? 1) && em_valid frame mem
     && negb (last_meta_cnt (vc_video s) =? UINT_MAX)
  then s32 (meta_count s frame mem - last_meta_cnt (vc_video s)) else -1.

Definition ext_of (frame : Z -> Z) (p : Z) : zynq_video_ext_meta_data :=
  ExtMeta (frame p) (ExtTime (frame (p + 8)) (bf_get 0 20 (frame (p + 4)))) (frame (p + 12))
    (bf_get 16 16 (frame (p + 16))) (bf_get 0 16 (frame (p + 20))) (bf_get 16 16 (frame (p + 20)))
    (frame (p + 24)) (Z.lor (byte_of (frame (p + 24)) 3) (Z.shiftl (bf_get 0 24 (frame (p + 28))) 8))
    (byte_of (frame (p + 28)) 3).

(** the time since the last frame, the frames it holds by the frame rate *)
Definition time_gap (s : vid_ctx) : Z :=
  if t_sec (last_tv_intr (vc_stream s)) =? 0 then frame_interval (vc_video s)
  else tv_diff (last_tv_intr (vc_stream s)) (tv_intr (vc_video s)).
Definition host_frames (s : vid_ctx) : Z :=
  if (0 <=? time_gap s) && (time_gap s <=? 8 * USEC_PER_SEC)
  then div_round (time_gap s) (frame_interval (vc_video s)) else -1.
(** the frames from the last to this one, as accounted *)
Definition frames_passed (s : vid_ctx) (frame : Z -> Z) (mem : Z) : Z :=
  if 0 <? meta_gap s frame mem then meta_gap s frame mem else Z.max 1 (host_frames s).

Definition bad_frame (ext : zynq_video_ext_meta_data) : bool :=
  ZVIDEO_FRAME_CORRUPTED ext || negb (ext_error ext =? 0).

(** what the checks rely on: a camera that has been probed, with its trigger
    enabled *)
Definition frame_ready (s : vid_ctx) (memsz : Z) : Prop :=
  0x100 <= memsz /\
  frame_interval (vc_video s) <> 0 /\ pixel_clock (caps (vc_video s)) <> 0 /\
  Z.of_nat (length (video_stats (vc_stream s))) = VIDEO_STATS_NUM /\
  (read_em_data (vc_stream s) = EM_NONE -> embedded_data (caps (vc_video s)) <> 1).

(** the parts of the camera the embedded data leaves alone *)
Definition cam_kept (v v' : zynq_video) : Prop :=
  index v' = index v /\ vstate v' = vstate v /\ frame_interval v' = frame_interval v /\
  tv_intr v' = tv_intr v /\ pixel_clock (caps v') = pixel_clock (caps v) /\
  embedded_data (caps v') = embedded_data (caps v) /\ reg_base v' = reg_base v /\
  format v' = format v.

Section meta_lemmas.
Context `{Env} `{ModParams} `{VideoParams}.
Implicit Types w : world vid_ctx.

Lemma cam_kept_refl v : cam_kept v v.
Proof. done. Qed.

Lemma cam_kept_trans v1 v2 v3 : cam_kept v1 v2 -> cam_kept v2 v3 -> cam_kept v1 v3.
Proof. unfold cam_kept. intuition congruence. Qed.

Section frame.
Context (wb : world vid_ctx) (frame : Z -> Z) (mem memsz : Z).
Context (Hframe : holds_frame (w_log wb) frame mem memsz).

Lemma wp_mem_word s p w (Q : Z -> world vid_ctx -> Prop) :
  sees wb w s -> mem <= p < mem + memsz ->
  (forall w', sees wb w' s -> Q (frame p) w') -> wp (mem_word p) Q w.
Proof using Hframe.
  intros Hw Hp HQ. unfold mem_word. apply wp_fmap, wp_ask. intros r ->.
  pose proof Hw as (_ & _ & evs & Hl & He). rewrite Hl, (Hframe evs p He Hp). rewrite <- Hl. by apply HQ, sees_read.
Qed.

Lemma wp_em_reg s x w (Q : Z -> world vid_ctx -> Prop) :
  sees wb w s -> 0 <= x -> x + 8 < memsz ->
  (forall w', sees wb w' s -> Q (em_reg frame mem x) w') -> wp (EM_REG_VAL mem x) Q w.
Proof using Hframe.
  intros Hw Hx Hs HQ. unfold EM_REG_VAL, mem_byte.
  pose proof (Z.div_mod (x + 1) 4 ltac:(lia)). pose proof (Z.mod_pos_bound (x + 1) 4 ltac:(lia)).
  pose proof (Z.div_mod (x + 5) 4 ltac:(lia)). pose proof (Z.mod_pos_bound (x + 5) 4 ltac:(lia)).
  apply wp_bind, wp_fmap, (wp_mem_word s); [done | lia |]. intros w1 Hc1.
  apply wp_bind, wp_fmap, (wp_mem_word s); [done | lia |]. intros w2 Hc2.
  by apply wp_ret, HQ.
Qed.

Lemma wp_em_valid s w (Q : bool -> world vid_ctx -> Prop) :
  sees wb w s -> 12 < memsz -> (forall w', sees wb w' s -> Q (em_valid frame mem) w') -> wp (EM_DATA_VALID mem) Q w.
Proof using Hframe.
  intros Hw Hs HQ. unfold EM_DATA_VALID, em_valid in *.
  apply wp_bind, (wp_mem_word s); [done | lia |]. intros w1 Hc1.
  destruct (_ =? EM_HDR_DWORD0); [| by apply wp_ret, HQ]. cbn [negb andb] in *.
  apply wp_bind, (wp_mem_word s); [done | lia |]. intros w2 Hc2.
  destruct (_ =? Z.land EM_HDR_DWORD1 _); [| by apply wp_ret, HQ]. cbn [negb andb] in *.
  apply wp_bind, (wp_mem_word s); [done | lia |]. intros w3 Hc3. by apply wp_ret, HQ.
Qed.

Lemma wp_read_ext s p w (Q : zynq_video_ext_meta_data -> world vid_ctx -> Prop) :
  sees wb w s -> mem <= p -> p + 32 <= mem + memsz ->
  (forall w', sees wb w' s -> Q (ext_of frame p) w') -> wp (read_ext p) Q w.
Proof using Hframe.
  intros Hc Hp Hp' HQ. unfold read_ext.
  do 8 (apply wp_bind, (wp_mem_word s); [done | lia |]; clear Hc; intros ? Hc).
  by apply wp_ret, HQ.
Qed.
End frame.

Lemma wp_c_div a b w (Q : Z -> world vid_ctx -> Prop) : b <> 0 -> Q (a / b) w -> wp (c_div a b) Q w.
Proof.
  intros Hb HQ. unfold c_div. destruct (Z.eqb_spec b 0); [done |]. by apply wp_ret.
Qed.
Lemma wp_t_frame fll llp pck w (Q : Z -> world vid_ctx -> Prop) :
  pck <> 0 -> (forall t, Q t w) -> wp (T_FRAME fll llp pck) Q w.
Proof. intros Hb HQ. unfold T_FRAME. apply wp_fmap, wp_c_div; [done |]. apply HQ. Qed.

(** updating the camera *)
Definition in_cam (v : zynq_video) (s : vid_ctx) : vid_ctx := s<|vc_video := v|>.
Lemma in_cam_self s : in_cam (vc_video s) s = s.
Proof. by destruct s. Qed.

Section header.
Context (wb : world vid_ctx) (frame : Z -> Z) (mem memsz : Z).
Context (Hframe : holds_frame (w_log wb) frame mem memsz).
Context (Hsz : 0x100 <= memsz).

Lemma wp_init_time_params v s w (Q : unit -> world vid_ctx -> Prop) :
  sees wb w (in_cam v s) -> pixel_clock (caps v) <> 0 ->
  (forall v' w', cam_kept v v' -> last_meta_cnt v' = last_meta_cnt v -> sees wb w' (in_cam v' s) -> Q tt w') ->
  wp zcam_init_time_params Q w.
Proof using Type.
  intros Hr Hp HQ. unfold zcam_init_time_params, T_ROW, cam. apply wp_bind, wp_gets.
  rewrite (proj1 Hr). cbn [vc_video in_cam fset].
  apply wp_bind, wp_c_div; [done |]. do 3 (apply wp_bind, wp_t_frame; [done | intros ?]).
  apply wp_modify. rewrite (proj1 Hr). eapply HQ; [| | by eapply sees_modify]; done.
Qed.

Lemma wp_reg_from s x w (Q : Z -> world vid_ctx -> Prop) :
  sees wb w s -> 0 <= x < 0xF8 ->
  (forall w', sees wb w' s -> Q (em_reg frame mem x) w') -> wp (EM_REG_VAL mem x) Q w.
Proof using Hframe Hsz. intros Hr Hx HQ. eapply wp_em_reg; [exact Hframe | exact Hr | lia | lia | exact HQ]. Qed.

(** the camera's fields are updated by [f], which keeps what the checks use *)
Lemma wp_upd_cam v s w f (Q : unit -> world vid_ctx -> Prop) :
  sees wb w (in_cam v s) ->
  (forall w', sees wb w' (in_cam (f v) s) -> Q tt w') -> wp (upd_cam f) Q w.
Proof using Type.
  intros Hr HQ. apply wp_modify, HQ. rewrite (proj1 Hr). by eapply sees_modify.
Qed.

Lemma wp_cam v s w (Q : zynq_video -> world vid_ctx -> Prop) :
  sees wb w (in_cam v s) -> Q v w -> wp cam Q w.
Proof using Type. intros Hr HQ. apply wp_gets. by rewrite (proj1 Hr). Qed.

(** a member of the timing is new: take it and compute the times again *)
Lemma wp_retime (b : bool) f v s w (Q : unit -> world vid_ctx -> Prop) :
  sees wb w (in_cam v s) -> pixel_clock (caps v) <> 0 ->
  (forall u, cam_kept u (f u) /\ last_meta_cnt (f u) = last_meta_cnt u) ->
  (forall v' w', cam_kept v v' -> last_meta_cnt v' = last_meta_cnt v ->
     sees wb w' (in_cam v' s) -> Q tt w') ->
  wp (when b (upd_cam f;; zcam_init_time_params)) Q w.
Proof using Type.
  intros Hr Hp Hf HQ. destruct (Hf v) as [Hk Hm]. apply wp_when; intros _.
  - apply wp_bind, (wp_upd_cam v s); [done |]. intros w1 Hr1.
    apply (wp_init_time_params (f v) s); [done | by destruct Hk as (_ & _ & _ & _ & -> & _) |].
    intros v' w' Hk' Hm' Hr'. apply (HQ v'); [by eapply cam_kept_trans | congruence | done].
  - apply (HQ v); [apply cam_kept_refl | done | done].
Qed.

Lemma wp_read_230 v s w (Q : unit -> world vid_ctx -> Prop) :
  sees wb w (in_cam v s) -> pixel_clock (caps v) <> 0 ->
  (forall v' w', cam_kept v v' ->
     last_meta_cnt v' = default (last_meta_cnt v) (em_count EM_230 frame mem) ->
     sees wb w' (in_cam v' s) -> Q tt w') ->
  wp (zcam_read_embedded_data_230 mem) Q w.
Proof using Hframe Hsz.
  intros Hr Hp HQ. unfold zcam_read_embedded_data_230. cbn [em_count] in HQ.
  apply wp_bind, (wp_reg_from _ _ _ _ Hr); [done |]. intros w1 Hr1.
  destruct (_ =? EM_REG_CHIP_VER); cbn [when] in *; [| apply wp_ret, (HQ v); [done | done | exact Hr1]].
  apply wp_bind, (wp_reg_from _ _ _ _ Hr1); [done |]. intros w2 Hr2.
  apply wp_bind, (wp_upd_cam _ _ _ _ _ Hr2). intros w3 Hr3.
  set (c := em_reg frame mem EM_REG_OFFSET_FRAME_CNT_230) in *.
  apply wp_bind, (wp_reg_from _ _ _ _ Hr3); [done |]. intros w4 Hr4.
  apply wp_bind, (wp_cam _ _ _ _ Hr4).
  apply wp_bind, (wp_retime _ _ _ _ _ _ Hr4); [done | done |]. intros v5 w5 Hk5 Hm5 Hr5.
  apply wp_bind, (wp_reg_from _ _ _ _ Hr5); [done |]. intros w6 Hr6.
  apply wp_bind, (wp_cam _ _ _ _ Hr6).
  apply wp_bind, (wp_retime _ _ _ _ _ _ Hr6);
    [by destruct Hk5 as (_ & _ & _ & _ & -> & _) | done |]. intros v7 w7 Hk7 Hm7 Hr7.
  assert (cam_kept v v7) as Hk. { eapply cam_kept_trans, cam_kept_trans; [| exact Hk5 | exact Hk7]. done. }
  apply wp_bind, (wp_reg_from _ _ _ _ Hr7); [done |]. intros w8 Hr8.
  apply wp_bind, (wp_cam _ _ _ _ Hr8).
  apply wp_bind, wp_t_frame; [by destruct Hk as (_ & _ & _ & _ & -> & _) | intros t].
  apply (wp_upd_cam _ _ _ _ _ Hr8). intros w9 Hr9. eapply HQ; [| | exact Hr9]; [exact Hk |].
  cbn. by rewrite Hm7, Hm5.
Qed.

(** the AR0231: its counter, if the frame carries it *)
Lemma wp_count_231 v s w (Q : unit -> world vid_ctx -> Prop) :
  sees wb w (in_cam v s) ->
  (forall v' w', cam_kept v v' ->
     last_meta_cnt v' = default (last_meta_cnt v) (em_count EM_231 frame mem) ->
     sees wb w' (in_cam v' s) -> Q tt w') ->
  wp (when (em_reg frame mem EM_REG_OFFSET_BASE1_231 =? EM_REG_FRAME_CNT_HI) (
        hi ← EM_REG_VAL mem EM_REG_OFFSET_FRAME_CNT_HI_231;
        lo ← EM_REG_VAL mem EM_REG_OFFSET_FRAME_CNT_LO_231;
        upd_cam (fun v => v<|last_meta_cnt := Z.lor (Z.shiftl hi 16) lo|>))) Q w.
Proof using Hframe Hsz.
  intros Hr HQ. cbn [em_count] in HQ. destruct (_ =? EM_REG_FRAME_CNT_HI); cbn [when] in *; [| by apply wp_ret, (HQ v)].
  apply wp_bind, (wp_reg_from _ _ _ _ Hr); [done |]. intros w2 Hr2.
  apply wp_bind, (wp_reg_from _ _ _ _ Hr2); [done |]. intros w3 Hr3.
  apply (wp_upd_cam _ _ _ _ _ Hr3). intros w4 Hr4. by eapply HQ; [| | exact Hr4].
Qed.

Lemma wp_read_231 v s w (Q : unit -> world vid_ctx -> Prop) :
  sees wb w (in_cam v s) -> pixel_clock (caps v) <> 0 -> row_zero EM_231 frame mem = false ->
  (forall v' w', cam_kept v v' ->
     last_meta_cnt v' = default (last_meta_cnt v) (em_count EM_231 frame mem) ->
     sees wb w' (in_cam v' s) -> Q tt w') ->
  wp (zcam_read_embedded_data_231 mem) Q w.
Proof using Hframe Hsz.
  intros Hr Hp Hrow HQ. cbn [row_zero] in Hrow. unfold zcam_read_embedded_data_231.
  apply wp_bind, (wp_reg_from _ _ _ _ Hr); [done |]. intros w1 Hr1.
  apply wp_bind, (wp_count_231 v s _ _ Hr1). intros v4 w4 Hk4 Hm4 Hr4.
  apply wp_bind, (wp_reg_from _ _ _ _ Hr4); [done |]. intros w5 Hr5.
  destruct (_ =? EM_REG_EXP_T1_ROW); cbn [when andb] in *; [| by apply wp_ret, (HQ v4)].
  do 5 (apply wp_bind, (wp_reg_from _ _ _ _ Hr5); [done |]; clear Hr5; intros ? Hr5).
  apply wp_bind, wp_c_div; [by apply Z.eqb_neq |].
  apply wp_bind, (wp_cam _ _ _ _ Hr5).
  apply wp_bind, wp_t_frame; [by destruct Hk4 as (_ & _ & _ & _ & -> & _) | intros t].
  apply (wp_upd_cam _ _ _ _ _ Hr5). intros w11 Hr11. by eapply HQ; [| | exact Hr11].
Qed.

(** with an exposure row of 0 the driver divides by it *)
Lemma read_231_faults v s w :
  sees wb w (in_cam v s) -> row_zero EM_231 frame mem = true ->
  zcam_read_embedded_data_231 mem w = Fault DivByZero.
Proof using Hframe Hsz.
  intros Hr [Hb Hz]%andb_true_iff. unfold zcam_read_embedded_data_231.
  apply wp_fault, (wp_reg_from _ _ _ _ Hr); [done |]. intros w1 Hr1.
  apply wp_fault, (wp_count_231 v s _ _ Hr1). intros v4 w4 Hk4 Hm4 Hr4.
  apply wp_fault, (wp_reg_from _ _ _ _ Hr4); [done |]. intros w5 Hr5.
  rewrite Hb. cbn [when].
  do 5 (apply wp_fault, (wp_reg_from _ _ _ _ Hr5); [done |]; clear Hr5; intros ? Hr5).
  apply bind_fault. unfold c_div. by rewrite Hz.
Qed.

(** up to the embedded data *)
Lemma wp_check_header (Q : Z -> world vid_ctx -> Prop) :
  let s := w_st wb in
  frame_ready s memsz -> divides_by_zero s frame mem = false ->
  (forall v' w', cam_kept (vc_video s) v' -> last_meta_cnt v' = meta_count s frame mem ->
     sees wb w' (in_cam v' s) -> Q (meta_gap s frame mem) w') ->
  wp (check_header mem) Q wb.
Proof using Hframe Hsz.
  intros s (_ & _ & Hp & _ & Hem) Hdiv HQ. fold s in Hem, Hp.
  unfold check_header, meta_gap, meta_count, divides_by_zero in *.
  assert (sees wb wb (in_cam (vc_video s) s)) as Hr by (rewrite in_cam_self; apply sees_refl).
  apply wp_bind, (wp_cam _ _ _ _ Hr).
  destruct (Z.eqb_spec (embedded_data (caps (vc_video s))) 1) as [He|]; cbn [negb andb] in *;
    [| by apply wp_ret, (HQ (vc_video s))].
  apply wp_bind, (wp_em_valid wb frame mem memsz Hframe _ _ _ Hr); [lia |]. intros w1 Hr1.
  destruct (em_valid frame mem); cbn [negb andb] in *; [| by apply wp_ret, (HQ (vc_video s))].
  apply wp_bind. unfold call_read_em_data, stream. apply wp_bind, wp_gets. rewrite (proj1 Hr1), in_cam_self.
  apply wp_mono with (fun _ w2 => exists v', cam_kept (vc_video s) v' /\
    last_meta_cnt v' = default (last_meta_cnt (vc_video s)) (em_count (read_em_data (vc_stream s)) frame mem) /\
    sees wb w2 (in_cam v' s)).
  - destruct (read_em_data (vc_stream s)); [by destruct Hem | |].
    + apply (wp_read_230 _ _ _ _ Hr1 Hp). intros v' w' Hk Hm Hr'. by exists v'.
    + apply (wp_read_231 _ _ _ _ Hr1 Hp Hdiv). intros v' w' Hk Hm Hr'. by exists v'.
  - intros [] w2 (v' & Hk & Hm & Hr2). apply wp_bind, (wp_cam _ _ _ _ Hr2), wp_ret.
    rewrite <- Hm in HQ. destruct (_ =? UINT_MAX); by apply (HQ v').
Qed.

Lemma check_header_faults :
  divides_by_zero (w_st wb) frame mem = true -> check_header mem wb = Fault DivByZero.
Proof using Hframe Hsz.
  unfold divides_by_zero. set (s := w_st wb). intros [[He Hv]%andb_true_iff Hz]%andb_true_iff. unfold check_header.
  assert (sees wb wb (in_cam (vc_video s) s)) as Hr by (rewrite in_cam_self; apply sees_refl).
  apply wp_fault, (wp_cam _ _ _ _ Hr). rewrite He. cbn [negb].
  apply wp_fault, (wp_em_valid wb frame mem memsz Hframe _ _ _ Hr); [lia |]. intros w1 Hr1. rewrite Hv. cbn [negb].
  apply bind_fault, wp_fault. unfold stream. apply wp_gets. rewrite (proj1 Hr1), in_cam_self.
  destruct (read_em_data (vc_stream s)); [done | done |]. by apply (read_231_faults _ _ _ Hr1).
Qed.
End header.
(** *** Counting *)
Definition in_stats (l : list zynq_stats) (s : vid_ctx) : vid_ctx :=
  s<|vc_stream ::= fun x => x<|video_stats := l|>|>.

(** from [w0], in state [s] but for the counters; of these, the frames, the
    drops and the corrupt frames grew by [a], [b] and [c] *)
Definition tally w0 w (s : vid_ctx) (a b c : Z) : Prop :=
  exists l n, reaches w0 w (in_stats l s) /\ counted n (video_stats (vc_stream (w_st w0))) l /\
    n VIDEO_STATS_FRAME = a /\ n VIDEO_STATS_FRAME_DROP = b /\ n VIDEO_STATS_FRAME_CORRUPT = c.

Section tally.
Context (w0 : world vid_ctx)
  (Hlen : Z.of_nat (length (video_stats (vc_stream (w_st w0)))) = VIDEO_STATS_NUM).

Lemma tally_start w s : reaches w0 w s -> video_stats (vc_stream s) = video_stats (vc_stream (w_st w0)) ->
  tally w0 w s 0 0 0.
Proof.
  intros Hr Hs. exists (video_stats (vc_stream s)), (fun _ => 0). split.
  { destruct s as [? ? ? []]. exact Hr. }
  split; [| done]. rewrite Hs. apply counted_refl.
Qed.

Lemma tally_step w w' s l l' n id k a b c :
  reaches w0 w (in_stats l s) -> counted n (video_stats (vc_stream (w_st w0))) l ->
  n VIDEO_STATS_FRAME = a -> n VIDEO_STATS_FRAME_DROP = b -> n VIDEO_STATS_FRAME_CORRUPT = c ->
  counted (once id k) l l' -> reaches w0 w' (in_stats l' s) ->
  tally w0 w' s (a + once id k VIDEO_STATS_FRAME) (b + once id k VIDEO_STATS_FRAME_DROP)
    (c + once id k VIDEO_STATS_FRAME_CORRUPT).
Proof.
  intros _ Hn <- <- <- Hc Hr. exists l', (fun i => n i + once id k i). split; [done |].
  split; [| done]. by eapply counted_trans.
Qed.

Lemma wp_tally_stats id w s a b c (Q : unit -> world vid_ctx -> Prop) :
  tally w0 w s a b c -> 0 <= id < VIDEO_STATS_NUM ->
  (forall w', tally w0 w' s (a + once id 1 VIDEO_STATS_FRAME) (b + once id 1 VIDEO_STATS_FRAME_DROP)
     (c + once id 1 VIDEO_STATS_FRAME_CORRUPT) -> Q tt w') ->
  wp (vid_STATS id) Q w.
Proof using Hlen.
  intros (l & n & Hr & Hn & Ha & Hb & Hc) Hid HQ. unfold vid_STATS, on_stream.
  pose proof (proj1 Hr) as Hw.
  apply wp_zoom, wp_stats; [done | cbn [w_st]; rewrite Hw; cbn; rewrite (proj1 Hn); lia |].
  cbn [w_st]. intros w' l' Hl' Hr'. apply HQ.
  eapply (tally_step w _ s l l'); [done | done | done | done | done | by rewrite Hw in Hl' |].
  eapply reaches_trans; [exact Hr |].
  apply (reaches_zoom (fun v s => s<|vc_stream := v|>) w vc_stream) in Hr'.
  rewrite Hw in Hr' |- *. exact Hr'.
Qed.
Lemma wp_tally_logx id k interval w s a b c (Q : unit -> world vid_ctx -> Prop) :
  tally w0 w s a b c -> 0 <= id < VIDEO_STATS_NUM ->
  (forall w', tally w0 w' s (a + once id k VIDEO_STATS_FRAME) (b + once id k VIDEO_STATS_FRAME_DROP)
     (c + once id k VIDEO_STATS_FRAME_CORRUPT) -> Q tt w') ->
  wp (vid_STATS_LOGX id k interval) Q w.
Proof using Hlen.
  intros (l & n & Hr & Hn & Ha & Hb & Hc) Hid HQ. unfold vid_STATS_LOGX, on_stream.
  pose proof (proj1 Hr) as Hw.
  apply wp_zoom, wp_stats_logx;
    [done | done | cbn [w_st]; rewrite Hw; cbn; rewrite (proj1 Hn); lia |].
  cbn [w_st]. intros w' l' Hl' Hr'. apply HQ.
  eapply (tally_step w _ s l l'); [done | done | done | done | done | by rewrite Hw in Hl' |].
  eapply reaches_trans; [exact Hr |].
  apply (reaches_zoom (fun v s => s<|vc_stream := v|>) w vc_stream) in Hr'.
  rewrite Hw in Hr' |- *. exact Hr'.
Qed.

(** a counter that is none of the three *)
Definition other_stat (id : Z) : Prop :=
  0 <= id < VIDEO_STATS_NUM /\ id <> VIDEO_STATS_FRAME /\ id <> VIDEO_STATS_FRAME_DROP /\
  id <> VIDEO_STATS_FRAME_CORRUPT.

Lemma tally_other id k w s a b c :
  other_stat id ->
  tally w0 w s (a + once id k VIDEO_STATS_FRAME) (b + once id k VIDEO_STATS_FRAME_DROP)
    (c + once id k VIDEO_STATS_FRAME_CORRUPT) -> tally w0 w s a b c.
Proof.
  unfold once. intros (_ & N1 & N2 & N3).
  rewrite !(proj2 (Z.eqb_neq _ _)) by congruence. by rewrite !Z.add_0_r.
Qed.

Lemma wp_tally_other id w s a b c (Q : unit -> world vid_ctx -> Prop) :
  tally w0 w s a b c -> other_stat id -> (forall w', tally w0 w' s a b c -> Q tt w') ->
  wp (vid_STATS id) Q w.
Proof using Hlen.
  intros Ht Hid HQ. eapply wp_tally_stats; [exact Ht | apply Hid |]. intros w' Ht'.
  by apply HQ, (tally_other id 1).
Qed.

Lemma wp_tally_other_log id w s a b c (Q : unit -> world vid_ctx -> Prop) :
  tally w0 w s a b c -> other_stat id -> (forall w', tally w0 w' s a b c -> Q tt w') ->
  wp (vid_STATS_LOG id) Q w.
Proof using Hlen.
  intros Ht Hid HQ. eapply wp_tally_logx; [exact Ht | apply Hid |]. intros w' Ht'.
  by apply HQ, (tally_other id 1).
Qed.

Lemma wp_when_other_log (x : bool) id w s a b c (Q : unit -> world vid_ctx -> Prop) :
  tally w0 w s a b c -> other_stat id -> (forall w', tally w0 w' s a b c -> Q tt w') ->
  wp (when x (vid_STATS_LOG id)) Q w.
Proof using Hlen.
  intros Ht Hid HQ. apply wp_when; intros _; [by eapply wp_tally_other_log | by apply HQ].
Qed.

(** a component of the state is updated, not the counters *)
Lemma wp_tally_stream f w s a b c (Q : unit -> world vid_ctx -> Prop) :
  tally w0 w s a b c ->
  (forall l x, f (x<|video_stats := l|>) = (f x)<|video_stats := l|>) ->
  (forall w', tally w0 w' (s<|vc_stream ::= f|>) a b c -> Q tt w') ->
  wp (upd_stream f) Q w.
Proof.
  intros (st & n & Hr & Hn & E) Hf HQ. apply wp_modify, HQ. exists st, n. split; [| by split].
  rewrite (proj1 Hr). assert ((in_stats st s)<|vc_stream ::= f|> = in_stats st (s<|vc_stream ::= f|>)) as ->.
  { destruct s as [d ch v x].
    change (VidCtx d ch v (f (x<|video_stats := st|>)) = VidCtx d ch v ((f x)<|video_stats := st|>)).
    by rewrite Hf. }
  by eapply reaches_modify.
Qed.

Lemma wp_tally_cam f w s a b c (Q : unit -> world vid_ctx -> Prop) :
  tally w0 w s a b c -> (forall w', tally w0 w' (s<|vc_video ::= f|>) a b c -> Q tt w') ->
  wp (upd_cam f) Q w.
Proof.
  intros (st & n & Hr & Hn & E) HQ. apply wp_modify, HQ. exists st, n. split; [| by split].
  rewrite (proj1 Hr). by eapply reaches_modify.
Qed.

Lemma tally_st w s a b c : tally w0 w s a b c -> exists l, w_st w = in_stats l s.
Proof. intros (l & n & Hr & _). exists l. apply Hr. Qed.

Lemma tally_calmly w w' s a b c : tally w0 w s a b c -> calmly w w' -> tally w0 w' s a b c.
Proof.
  intros (l & n & Hr & Hn & E) Hc. exists l, n. split; [| by split]. by eapply reaches_calmly.
Qed.

(** the error report of a frame *)
Lemma wp_check_errors ext w s (Q : Z * Z -> world vid_ctx -> Prop) :
  tally w0 w s 0 0 0 ->
  (forall w' trig, tally w0 w' (s<|vc_stream ::= fun x => x<|frame_err_cnt :=
       if bad_frame ext then u32 (frame_err_cnt x + 1) else 0|>|>) 0 0
       (if ZVIDEO_FRAME_CORRUPTED ext then 1 else 0) ->
     Q (if bad_frame ext && negb zynq_video_err_tolerant then -1 else 0, trig) w') ->
  wp (check_errors ext) Q w.
Proof using Hlen.
  intros Ht HQ. unfold check_errors, stream, bad_frame in *. apply wp_bind, wp_gets.
  set (s1 := vc_stream (w_st w)). clearbody s1.
  destruct (ZVIDEO_FRAME_CORRUPTED ext); cbn [orb andb] in *.
  - apply wp_bind. eapply wp_tally_logx; [exact Ht | done |]. intros w1 Ht1.
    apply wp_bind. eapply wp_tally_stream; [exact Ht1 | done |]. intros w2 Ht2.
    apply wp_ret. specialize (HQ w2 (u32 (last_trig_cnt s1 + 1)) Ht2). by destruct zynq_video_err_tolerant.
  - destruct (ext_error ext =? 0); cbn [negb andb] in *.
    + apply wp_bind. eapply wp_tally_stream; [exact Ht | done |]. intros w1 Ht1. by apply wp_ret, HQ.
    + apply wp_bind. eapply wp_when_other_log; [exact Ht | done |]. intros w1 Ht1.
      apply wp_bind. eapply wp_when_other_log; [exact Ht1 | done |]. intros w2 Ht2.
      apply wp_bind. eapply wp_when_other_log; [exact Ht2 | done |]. intros w3 Ht3.
      apply wp_bind. eapply wp_tally_stream; [exact Ht3 | done |]. intros w4 Ht4.
      apply wp_ret. specialize (HQ w4 (trigger_cnt ext) Ht4). by destruct zynq_video_err_tolerant.
Qed.
(** the channel is to be reset once the errors in a row reach the threshold *)
Definition too_many (s : vid_ctx) : bool := zynq_video_err_thresh <=? frame_err_cnt (vc_stream s).
Definition after_threshold (s : vid_ctx) : vid_ctx :=
  if too_many s then
    s<|vc_stream ::= fun x => x<|frame_err_cnt := 0|>|>
     <|vc_video ::= fun v => v<|vstate ::= fun x => Z.lor x ZVIDEO_STATE_CHAN_FAULT|>|>
  else s.

Lemma wp_check_threshold w s a b c (Q : unit -> world vid_ctx -> Prop) :
  tally w0 w s a b c -> L_zvideo_q (index (vc_video s)) ∉ w_held w0 ->
  (forall w', tally w0 w' (after_threshold s) a b c -> Q tt w') ->
  wp check_threshold Q w.
Proof using Type.
  intros Ht Hh HQ. unfold check_threshold, stream, after_threshold, too_many in *.
  destruct (tally_st _ _ _ _ _ Ht) as [l0 Hl0]. apply wp_bind, wp_gets. rewrite Hl0. cbn [in_stats fset vc_stream frame_err_cnt] in *.
  apply wp_when; intros E; rewrite E in HQ; [| by apply HQ].
  apply wp_bind. eapply wp_tally_stream; [exact Ht | done |]. intros w1 Ht1.
  destruct (tally_st _ _ _ _ _ Ht1) as [l1 Hl1].
  apply wp_bind, wp_gets. rewrite Hl1. cbn [in_stats fset vc_video].
  destruct Ht1 as (l & n & Hr & Hn & Es). pose proof Hr as (_ & Hheld & evs & Hlog & Hcalm).
  apply wp_bind, wp_spin_lock; [by rewrite Hheld |].
  apply wp_bind, wp_modify. cbn [w_log w_held w_st].
  apply wp_bind. eapply wp_spin_unlock; [reflexivity | by rewrite Hheld |]. cbn [w_log w_held w_st].
  unfold zchan_watchdog_complete, chan_id, on_vchan. apply wp_zoom, wp_bind, wp_gets, wp_tell, HQ.
  exists l, n. split; [| by split]. rewrite (proj1 Hr). split; [done |]. split; [exact Hheld |].
  eexists (_ :: _ :: _ :: evs). split; [cbn; by rewrite Hlog |]. by repeat constructor.
Qed.

(** the frames by the host's clock *)
Lemma wp_host_gap w s a b c (Q : Z -> world vid_ctx -> Prop) :
  tally w0 w s a b c -> frame_interval (vc_video s) <> 0 ->
  (forall w', tally w0 w' s a b c -> Q (host_frames s) w') -> wp host_gap Q w.
Proof using Hlen.
  intros Ht Hi HQ. unfold host_gap, cam, stream, host_frames in *.
  destruct (tally_st _ _ _ _ _ Ht) as [l0 Hl0].
  apply wp_bind, wp_gets. apply wp_bind, wp_gets. rewrite Hl0.
  cbn [in_stats fset vc_stream vc_video last_tv_intr] in *. fold (time_gap s).
  change (Z.shiftl USEC_PER_SEC 3) with (8 * USEC_PER_SEC).
  assert (0 < USEC_PER_SEC) by done.
  destruct (Z.ltb_spec (time_gap s) 0), (Z.ltb_spec (8 * USEC_PER_SEC) (time_gap s)),
    (Z.leb_spec 0 (time_gap s)), (Z.leb_spec (time_gap s) (8 * USEC_PER_SEC)); try lia; cbn [orb andb] in *.
  1-2: apply wp_bind; eapply wp_tally_other; [exact Ht | done |]; intros w1 Ht1; by apply wp_ret, HQ.
  rewrite (proj2 (Z.eqb_neq _ _) Hi). cbn [negb]. apply wp_bind.
  eapply wp_when_other_log; [exact Ht | done |]. intros w1 Ht1. by apply wp_ret, HQ.
Qed.

Lemma wp_choose_gap m t g w s a b c (Q : Z -> world vid_ctx -> Prop) :
  tally w0 w s a b c ->
  (forall w', tally w0 w' s a b c -> Q (if 0 <? m then m else g) w') -> wp (choose_gap m t g) Q w.
Proof using Hlen.
  intros Ht HQ. unfold choose_gap. apply wp_bind.
  eapply wp_when_other_log; [exact Ht | done |]. intros w1 Ht1. apply wp_bind, wp_when; intros _.
  - eapply wp_tally_other; [exact Ht1 | done |]. intros w2 Ht2. by apply wp_ret, HQ.
  - by apply wp_ret, HQ.
Qed.

Lemma wp_count_drops g w s a b c (Q : unit -> world vid_ctx -> Prop) :
  tally w0 w s a b c ->
  (forall w', tally w0 w' s a (b + (Z.max 1 g - 1)) c -> Q tt w') -> wp (count_drops g) Q w.
Proof using Hlen.
  intros Ht HQ. unfold count_drops. apply wp_when; intros Hg;
    [apply Z.ltb_lt in Hg | apply Z.ltb_ge in Hg].
  - apply wp_bind. eapply wp_tally_logx; [exact Ht | done |]. intros w1 Ht1.
    replace (Z.max 1 g - 1) with (g - 1) in HQ by lia.
    unfold once in Ht1. cbn [Z.eqb VIDEO_STATS_FRAME VIDEO_STATS_FRAME_DROP VIDEO_STATS_FRAME_CORRUPT Pos.eqb] in Ht1.
    rewrite !Z.add_0_r in Ht1.
    destruct (_ =? 1); [| destruct (_ =? 2)]; (eapply wp_tally_other; [exact Ht1 | done |]; exact HQ).
  - apply HQ. by replace (b + (Z.max 1 g - 1)) with b by lia.
Qed.
End tally.
(** the time stamp is computed without fault *)
Lemma wp_frame_to_trigger v late tv w (Q : timeval -> world vid_ctx -> Prop) :
  frame_interval v <> 0 -> (forall t, Q t w) -> wp (to_trigger v late tv) Q w.
Proof.
  intros Hi HQ. unfold to_trigger, c_rem. rewrite (proj2 (Z.eqb_neq _ _) Hi).
  by apply wp_bind, wp_ret, wp_ret.
Qed.

Lemma wp_frame_time ext w (Q : timeval -> world vid_ctx -> Prop) :
  frame_interval (vc_video (w_st w)) <> 0 -> (forall t, Q t w) -> wp (frame_time ext) Q w.
Proof.
  intros Hi HQ. unfold frame_time, cam, host_to_formation, fpga_to_formation, host_to_trigger, fpga_to_trigger.
  apply wp_bind, wp_gets.
  repeat match goal with |- wp (if ?b then _ else _) _ _ => destruct b end;
    first [by apply wp_ret | by apply wp_frame_to_trigger
          | apply wp_bind, wp_frame_to_trigger; [done | intros t; by apply wp_ret]].
Qed.
End meta_lemmas.

(** ** The check as a whole *)

(** what the check of a frame leaves of the camera, and of the stream *)
Definition cam_steady (v v' : zynq_video) : Prop :=
  index v' = index v /\ reg_base v' = reg_base v /\ format v' = format v /\
  frame_interval v' = frame_interval v /\
  pixel_clock (caps v') = pixel_clock (caps v) /\ embedded_data (caps v') = embedded_data (caps v).
Definition stream_steady (x x' : zvideo_stream) : Prop :=
  sequence x' = sequence x /\ buf_total x' = buf_total x /\ buf_avail x' = buf_avail x /\
  read_em_data x' = read_em_data x /\ buf_list x' = buf_list x /\
  pending_list x' = pending_list x /\ length (video_stats x') = length (video_stats x).

(** errors in a row with this frame *)
Definition errors_in_row (s : vid_ctx) (ext : zynq_video_ext_meta_data) : Z :=
  if bad_frame ext then u32 (frame_err_cnt (vc_stream s) + 1) else 0.

Section meta_check.
Context `{Env} `{ModParams} `{VideoParams}.

(** the accounts of one frame *)
Record checked (s : vid_ctx) (frame : Z -> Z) (buf : zynq_video_buffer) (ret : Z)
    (buf' : zynq_video_buffer) (s' : vid_ctx) : Prop := Checked {
  ck_ext := ext_of frame (vb_addr buf + vb_size buf - sizeof_ext_meta_data);
  ck_reset := zynq_video_err_thresh <=? errors_in_row s ck_ext;
  ck_ret : ret = if bad_frame ck_ext && negb zynq_video_err_tolerant then -1 else 0;
  ck_count : forall id k,
    (id, k) ∈ [(VIDEO_STATS_FRAME, 1); (VIDEO_STATS_FRAME_DROP, frames_passed s frame (vb_addr buf) - 1);
       (VIDEO_STATS_FRAME_CORRUPT, if ZVIDEO_FRAME_CORRUPTED ck_ext then 1 else 0)] ->
    u64 (stat (video_stats (vc_stream s')) id) = u64 (stat (video_stats (vc_stream s)) id + k);
  ck_errs : frame_err_cnt (vc_stream s') = if ck_reset then 0 else errors_in_row s ck_ext;
  ck_state : vstate (vc_video s') =
    if ck_reset then Z.lor (vstate (vc_video s)) ZVIDEO_STATE_CHAN_FAULT else vstate (vc_video s);
  ck_meta : last_meta_cnt (vc_video s') = meta_count s frame (vb_addr buf);
  ck_time : last_tv_intr (vc_stream s') = tv_intr (vc_video s);
  ck_buf : buf' = buf<|vb_timestamp := vb_timestamp buf'|><|vb_sequence := sequence (vc_stream s)|>;
  ck_zdev : vc_zdev s' = vc_zdev s;
  ck_zchan : vc_zchan s' = vc_zchan s;
  ck_cam : cam_steady (vc_video s) (vc_video s');
  ck_stream : stream_steady (vc_stream s) (vc_stream s')
}.

Lemma wp_check_meta_data w buf frame (Q : Z * zynq_video_buffer -> world vid_ctx -> Prop) :
  holds_frame (w_log w) frame (vb_addr buf) (vb_size buf) -> frame_ready (w_st w) (vb_size buf) ->
  divides_by_zero (w_st w) frame (vb_addr buf) = false ->
  L_zvideo_q (index (vc_video (w_st w))) ∉ w_held w ->
  (forall ret buf' w' s', checked (w_st w) frame buf ret buf' s' -> reaches w w' s' -> Q (ret, buf') w') ->
  wp (zvideo_check_meta_data buf) Q w.
Proof.
  intros Hframe Hready Hdiv Hlock HQ. pose proof Hready as (Hsz & Hi & Hp & Hlen & _).
  set (s := w_st w) in *. set (mem := vb_addr buf) in *.
  set (ext := ext_of frame (mem + vb_size buf - sizeof_ext_meta_data)).
  set (n := errors_in_row s ext). set (reset := zynq_video_err_thresh <=? n).
  unfold zvideo_check_meta_data. change (sizeof_ext_meta_data) with 32 in *. cbv zeta.
  apply wp_bind, (wp_check_header w frame mem (vb_size buf) Hframe Hsz); [exact Hready | exact Hdiv |].
  fold s. intros v1 w1 Hk Hm Hr1.
  apply wp_bind, (wp_read_ext w frame mem (vb_size buf) Hframe _ _ _ _ Hr1); [unfold mem; lia | unfold mem; lia |].
  intros w2 Hr2%sees_reaches.
  fold mem ext. assert (tally w w2 (in_cam v1 s) 0 0 0) as Ht2 by by apply tally_start.
  apply wp_bind, (wp_check_errors w Hlen ext w2 _ _ Ht2). intros w3 trig Ht3.
  pose proof Hk as (Ki & Ks & Kf & Kt & Kp & Ke & Kb & Kfmt).
  apply wp_bind, (wp_check_threshold w w3 _ _ _ _ _ Ht3); [by cbn; rewrite Ki |]. intros w4 Ht4.
  unfold stream, cam. destruct (tally_st _ _ _ _ _ _ Ht4) as [l4 Hl4].
  apply wp_bind, wp_gets. apply wp_bind. eapply wp_tally_stream; [exact Ht4 | done |]. intros w5 Ht5.
  match type of Ht5 with tally _ _ ?x _ _ _ => set (s5 := x) in Ht5 end.
  assert (s5 = VidCtx (vc_zdev s) (vc_zchan s) (if reset then v1<|vstate := Z.lor (vstate v1) ZVIDEO_STATE_CHAN_FAULT|> else v1)
    ((vc_stream s)<|frame_err_cnt := if reset then 0 else n|><|last_trig_cnt := trig|>)) as Es5.
  { unfold s5, after_threshold, too_many. cbn. fold (errors_in_row s ext). fold n. fold reset. by destruct reset. }
  assert (sequence (vc_stream (w_st w4)) = sequence (vc_stream s)) as Hseq
    by (rewrite Hl4; unfold after_threshold; by destruct (too_many _)).
  clearbody s5. assert (frame_interval (vc_video s5) = frame_interval (vc_video s) /\
    tv_intr (vc_video s5) = tv_intr (vc_video s) /\ last_tv_intr (vc_stream s5) = last_tv_intr (vc_stream s))
    as (Hf5 & Ht5' & Hlt5) by (rewrite Es5; by destruct reset).
  destruct (tally_st _ _ _ _ _ _ Ht5) as [l5 Hl5].
  apply wp_bind, wp_frame_time; [by rewrite Hl5; cbn; rewrite Hf5 |]. intros tv.
  apply wp_bind. eapply (wp_host_gap w Hlen); [exact Ht5 | by rewrite Hf5 |]. intros w6 Ht6.
  apply wp_bind. eapply (wp_choose_gap w Hlen); [exact Ht6 |]. intros w7 Ht7.
  apply wp_bind. eapply (wp_count_drops w Hlen); [exact Ht7 |]. intros w8 Ht8.
  apply wp_bind. eapply (wp_tally_stats w Hlen); [exact Ht8 | done |]. intros w9 Ht9.
  destruct (tally_st _ _ _ _ _ _ Ht9) as [l9 Hl9].
  apply wp_bind, wp_gets. rewrite Hl9. apply wp_bind.
  eapply wp_tally_stream; [exact Ht9 | done |]. intros w10 (l & k & Hr & [Hl Hn] & HF & HD & HC).
  apply wp_ret. eapply HQ; [| exact Hr].
  assert (0 + (Z.max 1 (if 0 <? meta_gap s frame mem then meta_gap s frame mem
    else host_frames s5) - 1) = frames_passed s frame mem - 1) as Hg.
  { unfold frames_passed, host_frames, time_gap. rewrite Hf5, Ht5', Hlt5.
    destruct (Z.ltb_spec 0 (meta_gap s frame mem)); lia. }
  rewrite Hg in HD. unfold once in HF, HD, HC.
  cbn [Z.eqb VIDEO_STATS_FRAME VIDEO_STATS_FRAME_DROP VIDEO_STATS_FRAME_CORRUPT Pos.eqb] in HF, HD, HC.
  rewrite Z.add_0_l in HF. rewrite Z.add_0_r in HD, HC. clear - HF HD HC Hl Hn Hlen Hk Hm Hseq Es5 Ki Ks Kf Kt Kp Ke Kb Kfmt. subst s5.
  set (v' := if reset then _ else v1). constructor; try done.
  - intros id x Hin. change (u64 (stat l id) = u64 (stat (video_stats (vc_stream s)) id + x)).
    rewrite !elem_of_cons, elem_of_nil in Hin.
    assert (0 <= id < VIDEO_STATS_NUM /\ k id = x) as [Hid <-];
      [| by rewrite Hn by (fold s; by rewrite Hlen)].
    destruct Hin as [E | [E | [E | []]]]; apply pair_equal_spec in E as [-> ->]; (split; [vm_compute; split; congruence |]);
      [exact HF | exact HD | exact HC].
  - change (vstate v' = if reset then Z.lor (vstate (vc_video s)) ZVIDEO_STATE_CHAN_FAULT
      else vstate (vc_video s)). unfold v'. rewrite <- Ks. by case reset.
  - change (last_meta_cnt v' = meta_count s frame mem). rewrite <- Hm. unfold v'. by case reset.
  - change (tv_intr v' = tv_intr (vc_video s)). rewrite <- Kt. unfold v'. by case reset.
  - by rewrite Hseq.
  - change (cam_steady (vc_video s) v'). unfold cam_steady, v'. case reset; by split_and!.
Qed.
End meta_check.

(** ** The theorem *)
Section meta_theorem.
Context `{Env} `{ModParams} `{VideoParams}.

(** C27.  Every frame is accounted for, whatever it contains, for a camera that
    has been probed and whose trigger is on.  When its embedded data are read and
    carry an exposure row of 0 (AR0231) the driver divides by it.  Otherwise the
    check returns -1 exactly for a frame the FPGA reports as bad (or whose report
    is corrupt) unless errors are tolerated; it counts one frame received, one
    corrupt frame if the report is corrupt and, as dropped, the frames between
    the last one and this one: by the sensor's own frame counter when that moved
    forward, else by the host's clock rounded to the frame interval, so that
    received and dropped together grow by the frames that passed.  Bad frames in
    a row are counted, and at the threshold the channel is marked for a reset and
    the count starts again.  The buffers, the locks and everything the outside
    sees stay as they were. *)
Theorem frame_accounting (w : world vid_ctx) (buf : zynq_video_buffer) (frame : Z -> Z)
    (Hframe : holds_frame (w_log w) frame (vb_addr buf) (vb_size buf))
    (Hready : frame_ready (w_st w) (vb_size buf))
    (Hlock : L_zvideo_q (index (vc_video (w_st w))) ∉ w_held w) :
  let s := w_st w in
  let mem := vb_addr buf in
  let ext := ext_of frame (mem + vb_size buf - sizeof_ext_meta_data) in
  let bad := bad_frame ext in
  let n := if bad then u32 (frame_err_cnt (vc_stream s) + 1) else 0 in
  let reset := zynq_video_err_thresh <=? n in
  if divides_by_zero s frame mem then zvideo_check_meta_data buf w = Fault DivByZero else
  wp (zvideo_check_meta_data buf) (fun '(ret, buf') w' =>
    let s' := w_st w' in
    let count id := stat (video_stats (vc_stream s)) id in
    let count' id := stat (video_stats (vc_stream s')) id in
    ret = (if bad && negb zynq_video_err_tolerant then -1 else 0) /\
    u64 (count' VIDEO_STATS_FRAME) = u64 (count VIDEO_STATS_FRAME + 1) /\
    u64 (count' VIDEO_STATS_FRAME_DROP) =
      u64 (count VIDEO_STATS_FRAME_DROP + (frames_passed s frame mem - 1)) /\
    u64 (count' VIDEO_STATS_FRAME_CORRUPT) =
      u64 (count VIDEO_STATS_FRAME_CORRUPT + (if ZVIDEO_FRAME_CORRUPTED ext then 1 else 0)) /\
    frame_err_cnt (vc_stream s') = (if reset then 0 else n) /\
    vstate (vc_video s') =
      (if reset then Z.lor (vstate (vc_video s)) ZVIDEO_STATE_CHAN_FAULT else vstate (vc_video s)) /\
    last_meta_cnt (vc_video s') = meta_count s frame mem /\
    last_tv_intr (vc_stream s') = tv_intr (vc_video s) /\
    buf' = buf<|vb_timestamp := vb_timestamp buf'|><|vb_sequence := sequence (vc_stream s)|> /\
    stream_steady (vc_stream s) (vc_stream s') /\
    w_held w' = w_held w /\ mmio_writes (w_log w') = mmio_writes (w_log w)) w.
Proof.
  intros s mem ext bad n reset. destruct (divides_by_zero s frame mem) eqn:Hdiv.
  { apply bind_fault. apply (check_header_faults w frame mem (vb_size buf) Hframe (proj1 Hready) Hdiv). }
  apply (wp_check_meta_data w buf frame); [done .. |].
  intros ret buf' w' s' [] (-> & Hh & evs & Hlog & Hcalm).
  split; [done |]. split; [apply ck_count0; left |]. split; [apply ck_count0; right; left |].
  split; [apply ck_count0; right; right; left |]. split_and!; try done.
  by rewrite Hlog, mmio_writes_app, (calm_writes evs).
Qed.
End meta_theorem.

(** ** Witness *)
Module MetaWitness.
Import VideoWitness.
#[local] Existing Instance params_default.
#[local] Instance video_params_default : VideoParams := {|
  zynq_video_ts_type := CAM_CAP_TIMESTAMP_FORMATION; zynq_video_err_tolerant := false;
  zynq_video_err_thresh := 4; zynq_video_format := 0
|}.

(** a good frame of an AR0230 whose counter is 0x105 *)
Definition buf0 : zynq_video_buffer := Vbuf 1 0 0x10000 0x1000 0 0.
Definition frame0 (p : Z) : Z :=
  if p =? 0x10000 then EM_HDR_DWORD0
  else if p =? 0x10004 then EM_HDR_DWORD1
  else if p =? 0x10008 then EM_HDR_DWORD2
  else if p =? 0x100F4 then 0x0100
  else if p =? 0x100F8 then 0x0500
  else if p =? 0x10FF0 then 0xFE120000
  else if p =? 0x10FF4 then 0xFE12FE12
  else 0.
Definition env_frame : Env := fun _ c => match c with DmaWord p => frame0 p | _ => 0 end.
(** the last frame was number 0x102 *)
Definition cam0 : zynq_video := video0<|last_meta_cnt := 0x102|>.
Definition stream0 : zvideo_stream := {|
  sequence := 7; buf_total := 4; buf_avail := 4; frame_err_cnt := 3; last_trig_cnt := 0;
  last_tv_intr := Timeval 100 245678; ts_link_change := 0; read_em_data := EM_230;
  buf_list := [buf0]; pending_list := []; video_stats := stats_zero VIDEO_STATS_NUM
|}.
Definition world_f : world vid_ctx := World [] [] (VidCtx zdev_sample zchan_sample cam0 stream0).

Example check_runs :
  (let _ := env_frame in
   match zvideo_check_meta_data buf0 world_f with
   | Ret (ret, b) w => Some (ret, vb_sequence b, frame_err_cnt (vc_stream (w_st w)),
       cnt <$> take 17 (video_stats (vc_stream (w_st w))))
   | _ => None
   end) = Some (0, 7, 0, [1; 0; 0; 0; 0; 0; 0; 1; 0; 0; 0; 0; 0; 2; 0; 1; 0]).
Proof. vm_compute. reflexivity. Qed.

(** an AR0231 frame whose exposure row reads 0 *)
Example row_zero_faults :
  (let _ : Env := fun _ c => match c with
     | DmaWord p => if (p =? 0x10074) || (p =? 0x10078) then 0x2000 else 0
     | _ => 0 end in
   zcam_read_embedded_data_231 0x10000 world_f) = Fault DivByZero.
Proof. vm_compute. reflexivity. Qed.

Lemma frame_accounting_witness :
  wp (zvideo_check_meta_data (H := env_frame) buf0) (fun '(ret, _) w' =>
    ret = 0 /\ last_meta_cnt (vc_video (w_st w')) = 0x105 /\
    u64 (stat (video_stats (vc_stream (w_st w'))) VIDEO_STATS_FRAME_DROP) = 2) world_f.
Proof.
  eapply wp_mono.
  - apply (frame_accounting (H := env_frame) world_f buf0 frame0).
    + intros l p _ _. cbn. unfold frame0.
      repeat (match goal with |- u32 (if ?b then _ else _) = _ => destruct b; [reflexivity |] end).
      reflexivity.
    + vm_compute. split; [discriminate |]. by split_and!.
    + apply not_elem_of_nil.
  - intros [ret b] w' (-> & _ & Hd & _ & _ & _ & Hm & _). rewrite Hm, Hd.
    split; [vm_compute; reflexivity |]. split; vm_compute; reflexivity.
Defined.
End MetaWitness.
