(* ===== verification/VideoQueue.v ===== *)
(** * Video buffers and streaming (second part of [basa_video.c])

    The buffers that videobuf2 hands to the driver wait in [buf_list], in the
    order in which the DMA engine fills them, or in [pending_list] until their
    turn comes.  A frame received takes its buffer out of [buf_list] and gives
    it back to videobuf2, or, when it is bad, puts it back. *)

From S2P Require Import Stats Device Chan Video VideoMeta.

Definition VB2_BUF_STATE_DONE : Z := 4.
Definition VB2_BUF_STATE_ERROR : Z := 5.

(** [ALIGN(x, a)] for a power of two [a] *)
Definition ALIGN (x a : Z) : Z := Z.land (x + (a - 1)) (Z.lnot (a - 1)).
Definition CEILING (x y : Z) : Z := (x + y - 1) / y.

(** take the first buffer at offset [off] out of a list *)
Fixpoint take_offset (off : Z) (l : list zynq_video_buffer)
  : option (zynq_video_buffer * list zynq_video_buffer) :=
  match l with
  | [] => None
  | b :: l' =>
      if vb_offset b =? off then Some (b, l')
      else '(x, r) ← take_offset off l'; Some (x, b :: r)
  end.

Section queue.
Context `{Env} `{ModParams} `{VideoParams}.

Definition vid_rx : M vid_ctx zchan_rx_tbl := gets (fun s => zchan_rx_tbl_of (vc_zchan s)).
Definition vid_upd_rx (f : zchan_rx_tbl -> zchan_rx_tbl) : M vid_ctx unit := on_vchan (upd_rx f).
Definition vid_chan_write (reg val : Z) : M vid_ctx unit := on_vchan (zchan_reg_write reg val).
Definition vid_chan_read (reg : Z) : M vid_ctx Z := on_vchan (zchan_reg_read reg).
Definition vid_chan_STATS (id : Z) : M vid_ctx unit := on_vchan (zchan_ZYNQ_STATS id).

(** the channel reads the frame size through its pointer to the camera *)
Definition vid_rx_start : M vid_ctx unit :=
  modify (fun s => s<|vc_zchan ::= fun c => c<|zvideo_sizeimage := sizeimage (format (vc_video s))|>|>);;
  on_vchan zchan_rx_start.

(** an offset in the ring *)
Definition rx_wrap (rx : zchan_rx_tbl) (off : Z) : Z :=
  let off := u32 off in if zchan_rx_size rx <=? off then off - zchan_rx_size rx else off.

(** reset the extended metadata received in the DMA buffer *)
Definition zvideo_reset_meta_data (rx_off : Z) : M vid_ctx unit :=
  rx ← vid_rx;
  v ← cam;
  let rx_off1 := rx_wrap rx (rx_off + sizeimage (format v) - sizeof_ext_meta_data) in
  '(ext, _) ← on_vchan (zchan_rx_off2addr rx_off1);
  (* ext->error, the last byte of the structure *)
  tell (KernelCall "store_byte" [ext + 31; ZVIDEO_EXT_ERR_INVALID]).

(** ** The pending list; called with the queue lock held *)

(** the buffer at the head of the ring, if it is pending, goes to the DMA *)
Definition check_pending_one : M vid_ctx bool :=
  rx ← vid_rx;
  s ← stream;
  match take_offset (zchan_rx_head rx) (pending_list s) with
  | None => mret false
  | Some (buf, rest) =>
      upd_stream (fun s => s<|pending_list := rest|><|buf_list := buf_list s ++ [buf]|>
        <|buf_avail ::= fun n => u32 (n + 1)|>);;
      zvideo_reset_meta_data (vb_offset buf);;
      (* update the head pointer *)
      let vbufsz := ALIGN (vb_size buf) (zchan_rx_bufsz rx) in
      let rx_head := rx_wrap rx (zchan_rx_head rx + vbufsz) in
      vid_upd_rx (fun rx => rx<|zchan_rx_head := rx_head|>);;
      vid_chan_write ZYNQ_CH_RX_HEAD rx_head;;
      mret true
  end.
Definition zvideo_check_pending : M vid_ctx unit :=
  s ← stream;
  loop (S (length (pending_list s))) (fun _ =>
    more ← check_pending_one;
    mret (if (more : bool) then inl tt else inr tt)) tt.

(** ** Buffers from videobuf2 *)
Definition vid_index : M vid_ctx Z := gets (fun s => index (vc_video s)).
Definition qlocked {A} (m : M vid_ctx A) : M vid_ctx A :=
  i ← vid_index;
  spin_lock (L_zvideo_q i);; a ← m; spin_unlock (L_zvideo_q i);; mret a.
Definition rlocked {A} (m : M vid_ctx A) : M vid_ctx A :=
  i ← vid_index;
  spin_lock (L_zvideo_r i);; a ← m; spin_unlock (L_zvideo_r i);; mret a.

Definition streaming (v : zynq_video) : bool := tst (vstate v) ZVIDEO_STATE_STREAMING.

Definition zvideo_queue_setup : M vid_ctx (Z * Z * Z) :=
  v ← cam; mret (0, 1, sizeimage (format v)).
(** save the address and size videobuf2 gave the buffer *)
Definition zvideo_buffer_init (vaddr size : Z) (buf : zynq_video_buffer) : zynq_video_buffer :=
  buf<|vb_addr := vaddr|><|vb_size := size|>.
Definition vb2_set_plane_payload (buf : zynq_video_buffer) (size : Z) : M vid_ctx unit :=
  tell (KernelCall "vb2_set_plane_payload" [vb_num buf; size]).
Definition vb2_buffer_done (buf : zynq_video_buffer) (state : Z) : M vid_ctx unit :=
  tell (BufferDone (vb_num buf) state (vb_sequence buf) (vb_timestamp buf)).

Definition zvideo_buffer_prepare (buf : zynq_video_buffer) : M vid_ctx Z :=
  v ← cam;
  if negb (vb_size buf =? sizeimage (format v)) then mret (- EINVAL)
  else vb2_set_plane_payload buf 0;; mret 0.

Definition add_available (buf : zynq_video_buffer) : M vid_ctx unit :=
  upd_stream (fun s => s<|buf_list := buf_list s ++ [buf]|><|buf_avail ::= fun n => u32 (n + 1)|>).
Definition add_pending (buf : zynq_video_buffer) : M vid_ctx unit :=
  upd_stream (fun s => s<|pending_list ::= cons buf|>);;
  zvideo_check_pending.

Definition zvideo_buffer_queue (buf : zynq_video_buffer) : M vid_ctx unit :=
  qlocked (
    v ← cam;
    if zynq_video_zero_copy then
      if streaming v then add_pending buf else add_available buf
    else add_available buf).

(** hand every buffer of a list to videobuf2 *)
Fixpoint done_all (state : Z) (l : list zynq_video_buffer) : M vid_ctx unit :=
  match l with
  | [] => mret tt
  | b :: l' => vb2_buffer_done b state;; done_all state l'
  end.
Definition zvideo_return_all_buffers (state : Z) : M vid_ctx unit :=
  qlocked (
    s ← stream;
    done_all state (pending_list s);;
    upd_stream (fun s => s<|pending_list := []|>);;
    done_all state (buf_list s);;
    upd_stream (fun s => s<|buf_list := []|>
      <|buf_avail ::= fun n => u32 (n - Z.of_nat (length (buf_list s)))|>)).

(** ** Reception *)
Definition zvideo_get_timestamp : M vid_ctx timeval :=
  sec ← ask KtimeSec;
  nsec ← ask KtimeNsec;
  mret (Timeval sec (nsec / 1000)).

(** one frame received and checked: -1 when it is to be discarded *)
Definition next_sequence : M vid_ctx unit :=
  upd_stream (fun s => s<|sequence ::= fun n => u32 (n + 1)|>).

(** the part of the frame from [rx_off] that lies in one DMA buffer *)
Definition chunk_len (rx : zchan_rx_tbl) (rx_off rx_tail memsz : Z) : Z :=
  let len :=
    if ZCHAN_WITHIN_RX_BUF rx rx_off rx_tail && (rx_off <=? rx_tail) then u32 (rx_tail - rx_off)
    else u32 (zchan_rx_bufsz rx - ZCHAN_RX_BUF_OFFSET rx rx_off) in
  if memsz <? len then memsz else len.

(** local variables of the copying loops *)
Record frame_pos := FramePos { fp_off : Z; fp_mem : Z; fp_memsz : Z; fp_size : Z }.

(** walk over the DMA buffers of a frame; each is made visible to the CPU and,
    with [copy], copied to the video buffer *)
Definition frame_step (copy : bool) (rx_tail : Z) (p : frame_pos) : M vid_ctx (frame_pos + frame_pos) :=
  v ← cam;
  if negb (fp_off p =? rx_tail) && (0 <? fp_memsz p) && (fp_size p <? sizeimage (format v)) then
    rx ← vid_rx;
    '(data, data_phy) ← on_vchan (zchan_rx_off2addr (fp_off p));
    let len := chunk_len rx (fp_off p) rx_tail (fp_memsz p) in
    tell (DmaSync data_phy len);;
    when copy (tell (KernelCall "memcpy" [fp_mem p; data; len]));;
    mret (inl (FramePos (rx_wrap rx (fp_off p + len)) (fp_mem p + len) (fp_memsz p - len) (fp_size p + len)))
  else mret (inr p).
Definition frame_walk (copy : bool) (rx_tail : Z) (p : frame_pos) : M vid_ctx frame_pos :=
  rx ← vid_rx;
  loop (S (S (Z.to_nat (zchan_rx_pt_entries rx)))) (frame_step copy rx_tail) p.

(** the first byte of the next frame: a frame starts at a DMA buffer *)
Definition next_frame (rx : zchan_rx_tbl) (rx_off : Z) : Z :=
  rx_wrap rx (ALIGN rx_off (zchan_rx_bufsz rx)).

Definition rx_one_zero_copy (rx_tail rx_off : Z) : M vid_ctx (Z + unit) :=
  (* find the video buffer bound to the current offset *)
  buf ← qlocked (
    v ← cam;
    s ← stream;
    if streaming v then
      match take_offset rx_off (buf_list s) with
      | Some (b, rest) =>
          upd_stream (fun s => s<|buf_list := rest|><|buf_avail ::= fun n => u32 (n - 1)|>);;
          mret (Some b)
      | None => mret None
      end
    else mret None);
  match buf with
  | None => vid_STATS_LOGX VIDEO_STATS_NO_VIDEO_BUF 1 0;; mret (inr tt)
  | Some buf =>
      p ← frame_walk false rx_tail (FramePos rx_off 0 (vb_size buf) 0);
      v ← cam;
      let rx_off :=
        if negb (fp_memsz p =? 0) || negb (fp_size p =? sizeimage (format v))
        then u32 (fp_off p + fp_memsz p) else fp_off p in
      vid_chan_STATS CHAN_STATS_RX;;
      '(ret, buf) ← zvideo_check_meta_data buf;
      (if negb (ret =? 0) then qlocked (add_pending buf)
       else vb2_set_plane_payload buf (fp_size p);; vb2_buffer_done buf VB2_BUF_STATE_DONE);;
      rx ← vid_rx;
      let rx_off := next_frame rx rx_off in
      vid_upd_rx (fun rx => rx<|zchan_rx_off := rx_off|>);;
      next_sequence;;
      mret (if rx_off =? rx_tail then inr tt else inl rx_off)
  end.

Definition zvideo_rx_proc_zero_copy : M vid_ctx unit :=
  rx ← vid_rx;
  if zchan_rx_bufsz rx =? 0 then mret tt
  else
    hw_tail ← vid_chan_read ZYNQ_CH_RX_TAIL;
    let rx_tail := Z.land hw_tail (Z.lnot (PAGE_SIZE - 1)) in
    v ← cam;
    r ← c_rem (ZCHAN_RX_USED_SIZE rx (zchan_rx_head rx) rx_tail)
              (ALIGN (sizeimage (format v)) (zchan_rx_bufsz rx));
    if negb (r =? 0) then mret tt
    else
      let rx_off := zchan_rx_off rx in
      if rx_off =? rx_tail then mret tt
      else
        tv ← zvideo_get_timestamp;
        upd_cam (fun v => v<|tv_intr := tv|>);;
        loop (S (Z.to_nat (zchan_rx_pt_entries rx))) (rx_one_zero_copy rx_tail) rx_off.

(** the copying variant: [None] when the DMA still has room and the frame is
    left for later *)
Definition rx_one_copy (rx_tail rx_off : Z) : M vid_ctx (Z + unit) :=
  buf ← qlocked (
    v ← cam;
    s ← stream;
    match buf_list s with
    | b :: rest =>
        if streaming v then
          upd_stream (fun s => s<|buf_list := rest|><|buf_avail ::= fun n => u32 (n - 1)|>);;
          mret (Some b)
        else mret None
    | [] => mret None
    end);
  v ← cam;
  rx ← vid_rx;
  pos ← match buf with
    | None =>
        vid_STATS_LOG VIDEO_STATS_NO_VIDEO_BUF;;
        if sizeimage (format v) <=? ZCHAN_RX_FREE_SIZE rx rx_off rx_tail then mret None
        else
          on_vchan (zchan_ZYNQ_STATS_LOGX CHAN_STATS_RX_DROP 1 0);;
          (* discard the current frame data *)
          mret (Some (u32 (rx_off + sizeimage (format v)), 0))
    | Some b =>
        p ← frame_walk true rx_tail (FramePos rx_off (vb_addr b) (vb_size b) 0);
        vid_chan_STATS CHAN_STATS_RX;;
        mret (Some (fp_off p, fp_size p))
    end;
  match pos with
  | None => mret (inr tt)
  | Some (rx_off, size) =>
      zvideo_reset_meta_data (zchan_rx_head rx);;
      let rx_off := next_frame rx rx_off in
      vid_upd_rx (fun rx => rx<|zchan_rx_head := rx_off|>);;
      vid_chan_write ZYNQ_CH_RX_HEAD rx_off;;
      match buf with
      | None => mret tt
      | Some buf =>
          '(ret, buf) ← zvideo_check_meta_data buf;
          if negb (ret =? 0) then qlocked (add_available buf)
          else vb2_set_plane_payload buf size;; vb2_buffer_done buf VB2_BUF_STATE_DONE
      end;;
      next_sequence;;
      mret (if rx_off =? rx_tail then inr tt else inl rx_off)
  end.

Definition zvideo_rx_proc_copy : M vid_ctx unit :=
  rx ← vid_rx;
  let rx_off := zchan_rx_head rx in
  hw_tail ← vid_chan_read ZYNQ_CH_RX_TAIL;
  let rx_tail := Z.land hw_tail (Z.lnot (PAGE_SIZE - 1)) in
  if rx_off =? rx_tail then mret tt
  else
    tv ← zvideo_get_timestamp;
    upd_cam (fun v => v<|tv_intr := tv|>);;
    loop (S (Z.to_nat (zchan_rx_pt_entries rx))) (rx_one_copy rx_tail) rx_off.

Definition zvideo_rx_proc : M vid_ctx unit :=
  rlocked (if zynq_video_zero_copy then zvideo_rx_proc_zero_copy else zvideo_rx_proc_copy).

Definition zvideo_err_proc (ch_err_status : Z) : M vid_ctx unit :=
  when (tst ch_err_status ZYNQ_CH_ERR_CAM_TRIGGER) (vid_STATS_LOG VIDEO_STATS_TRIG_PULSE_ERR);;
  when (tst ch_err_status ZYNQ_CH_ERR_CAM_LINK_CHANGE) (
    vid_STATS_LOG VIDEO_STATS_LINK_CHANGE;;
    qlocked (
      upd_cam (fun v => v<|vstate ::= fun x => Z.lor x ZVIDEO_STATE_LINK_CHANGE|>);;
      j ← jiffies;
      upd_stream (fun s => s<|ts_link_change := j|>)));;
  when (tst ch_err_status ZYNQ_CH_ERR_DMA_RX_BUF_FULL) (vid_STATS_LOG VIDEO_STATS_DMA_RX_BUF_FULL);;
  when (tst ch_err_status ZYNQ_CH_ERR_DMA_RX_FIFO_FULL) (vid_STATS_LOG VIDEO_STATS_DMA_RX_FIFO_FULL).
End queue.

(** ** Invariant *)
Definition rx_of (s : vid_ctx) : zchan_rx_tbl := zchan_rx_tbl_of (vc_zchan s).
Definition size_of (s : vid_ctx) : Z := sizeimage (format (vc_video s)).
(** the part of the ring one frame takes *)
Definition span (s : vid_ctx) : Z := ALIGN (size_of s) ZCHAN_BUF_SIZE.
Definition on_frame (s : vid_ctx) (off : Z) : Prop :=
  0 <= off < zchan_rx_size (rx_of s) /\ (span s | off).

(** what a ring set up for streaming has, whatever its position *)
Record vq_static (s : vid_ctx) : Prop := VqStatic {
  vs_bufsz : zchan_rx_bufsz (rx_of s) = ZCHAN_BUF_SIZE;
  vs_mask : zchan_rx_buf_mask (rx_of s) = ZCHAN_BUF_SIZE - 1;
  vs_image : 0x100 <= size_of s;
  vs_frames : exists n, 1 <= n /\ zchan_rx_size (rx_of s) = n * span s;
  vs_entries : zchan_rx_pt_entries (rx_of s) * ZCHAN_BUF_SIZE = zchan_rx_size (rx_of s);
  vs_small : zchan_rx_size (rx_of s) < 2 ^ 31;
  vs_pdt : zchan_rx_pdt_num (rx_of s) <> 0;
  vs_table : forall off, 0 <= off < zchan_rx_size (rx_of s) ->
    exists pt b, zlookup (zchan_rx_ptp (rx_of s)) (ZCHAN_RX_PDT_ENTRY (rx_of s) off) = Some pt /\
      zlookup (zchan_rx_pt_bufs pt) (ZCHAN_RX_PT_ENTRY (rx_of s) off) = Some b;
  vs_interval : frame_interval (vc_video s) <> 0;
  vs_clock : pixel_clock (caps (vc_video s)) <> 0;
  vs_reader : read_em_data (vc_stream s) = EM_NONE -> embedded_data (caps (vc_video s)) <> 1;
  vs_vstats : Z.of_nat (length (video_stats (vc_stream s))) = VIDEO_STATS_NUM
}.

(** what a buffer contains from any moment on, until the driver does more than
    read: anything, except an exposure row of 0 by which the driver divides *)
Definition readable `{Env} (r : em_reader) (b : zynq_video_buffer) : Prop :=
  forall l, exists frame, holds_frame l frame (vb_addr b) (vb_size b) /\ row_zero r frame (vb_addr b) = false.

(** a buffer bound to a place of the ring *)
Definition buf_ok `{Env} (s : vid_ctx) (b : zynq_video_buffer) : Prop :=
  vb_size b = size_of s /\ on_frame s (vb_offset b) /\ readable (read_em_data (vc_stream s)) b.

(** the buffers the driver holds, and those a run gave back (newest first) *)
Definition owned (s : vid_ctx) : list zynq_video_buffer :=
  buf_list (vc_stream s) ++ pending_list (vc_stream s).
Definition given (l : list event) : list Z :=
  omap (fun e => match ev_call e with BufferDone b _ _ _ => Some b | _ => None end) l.

Record vq_ok `{Env} (s : vid_ctx) : Prop := VqOk {
  vq_st : vq_static s;
  vq_head : on_frame s (zchan_rx_head (rx_of s));
  vq_off : on_frame s (zchan_rx_off (rx_of s));
  vq_bufs : Forall (buf_ok s) (owned s);
  vq_avail : buf_avail (vc_stream s) = u32 (Z.of_nat (length (buf_list (vc_stream s))))
}.

(** the same ring and the same camera at another position *)
Record same_frame (s s' : vid_ctx) : Prop := SameFrame {
  sf_rx : rx_of s' = (rx_of s)<|zchan_rx_head := zchan_rx_head (rx_of s')|>
                              <|zchan_rx_off := zchan_rx_off (rx_of s')|>;
  sf_reg : zchan_reg (vc_zchan s') = zchan_reg (vc_zchan s);
  sf_cam : cam_steady (vc_video s) (vc_video s');
  sf_em : read_em_data (vc_stream s') = read_em_data (vc_stream s);
  sf_stats : length (video_stats (vc_stream s')) = length (video_stats (vc_stream s))
}.

(** [w'] follows [w], in state [s]; on the way the buffers [bs] were given back *)
Definition runs {S} (w w' : world S) (s : S) (bs : list Z) : Prop :=
  w_st w' = s /\ w_held w' = w_held w /\ given (w_log w') = rev bs ++ given (w_log w).

Lemma cam_steady_refl v : cam_steady v v.
Proof. done. Qed.
Lemma cam_steady_trans v1 v2 v3 : cam_steady v1 v2 -> cam_steady v2 v3 -> cam_steady v1 v3.
Proof. unfold cam_steady. intuition congruence. Qed.

#[global] Instance same_frame_preorder : PreOrder same_frame.
Proof.
  split.
  - intros s. constructor; [| done | apply cam_steady_refl | done | done].
    unfold rx_of. by destruct (zchan_rx_tbl_of (vc_zchan s)).
  - intros s1 s2 s3 [Hr Hg Hc He Hs] [Hr' Hg' Hc' He' Hs']. constructor; [| congruence | | congruence | congruence].
    + rewrite Hr' at 1. by rewrite Hr.
    + by eapply cam_steady_trans.
Qed.

(** the ring untouched, the camera and the stream steady *)
Lemma same_frame_at s s' :
  rx_of s' = rx_of s -> zchan_reg (vc_zchan s') = zchan_reg (vc_zchan s) -> cam_steady (vc_video s) (vc_video s') ->
  read_em_data (vc_stream s') = read_em_data (vc_stream s) ->
  length (video_stats (vc_stream s')) = length (video_stats (vc_stream s)) -> same_frame s s'.
Proof. intros E Hg Hc He Hs. constructor; try done. rewrite E. by destruct (rx_of s). Qed.

Section same_frame.
Context (s s' : vid_ctx) (Hs : same_frame s s').

Lemma same_size : size_of s' = size_of s.
Proof using Hs. unfold size_of. destruct Hs as [_ _ (_ & _ & -> & _) _ _]. done. Qed.
Lemma same_span : span s' = span s.
Proof using Hs. unfold span. by rewrite same_size. Qed.
Lemma same_rx_size : zchan_rx_size (rx_of s') = zchan_rx_size (rx_of s).
Proof using Hs. by rewrite (sf_rx _ _ Hs). Qed.
Lemma same_on_frame off : on_frame s off -> on_frame s' off.
Proof using Hs. unfold on_frame. by rewrite same_span, same_rx_size. Qed.

Lemma same_static : vq_static s -> vq_static s'.
Proof using Hs.
  intros []. pose proof Hs as [Hr _ (Hi & _ & _ & Hf & Hp & He) Hem Hl].
  constructor; rewrite ?same_size, ?same_span, ?same_rx_size; try rewrite Hr; try done; try congruence.
  by rewrite Hem, He.
Qed.

Lemma same_buf_ok `{Env} b : buf_ok s b -> buf_ok s' b.
Proof using Hs.
  unfold buf_ok. intros (Hz & Ho & Hr). rewrite same_size, (sf_em _ _ Hs).
  split; [done |]. split; [by apply same_on_frame |]. done.
Qed.
Lemma same_bufs_ok `{Env} bs : Forall (buf_ok s) bs -> Forall (buf_ok s') bs.
Proof using Hs. intros Hb. eapply Forall_impl; [exact Hb |]. intros b. apply same_buf_ok. Qed.
End same_frame.

(** *** Positions of the ring *)
Lemma align_page x : 0 <= x -> ALIGN x ZCHAN_BUF_SIZE = (x + 4095) / 4096 * 4096.
Proof.
  intros Hx. unfold ALIGN. change (Z.lnot (ZCHAN_BUF_SIZE - 1)) with (Z.lnot (Z.ones 12)).
  change (ZCHAN_BUF_SIZE - 1) with 4095. rewrite <- Z.ldiff_land, Z.ldiff_ones_r by lia.
  by rewrite Z.shiftl_mul_pow2, Z.shiftr_div_pow2 by lia.
Qed.

Lemma page_tail x : Z.land x (Z.lnot (PAGE_SIZE - 1)) = x / 4096 * 4096.
Proof.
  change (Z.lnot (PAGE_SIZE - 1)) with (Z.lnot (Z.ones 12)).
  rewrite <- Z.ldiff_land, Z.ldiff_ones_r by lia.
  by rewrite Z.shiftl_mul_pow2, Z.shiftr_div_pow2 by lia.
Qed.

Lemma frame_index d k n : 0 < d -> 0 <= k * d < n * d -> 0 <= k < n.
Proof. intros. split; [nia |]. apply (Z.mul_lt_mono_pos_r d); lia. Qed.

Section positions.
Context (s : vid_ctx) (Hs : vq_static s).

Lemma span_bounds : size_of s <= span s < size_of s + 4096 /\ (4096 | span s) /\ 0 < span s.
Proof using Hs.
  pose proof (vs_image s Hs). unfold span. rewrite align_page by lia.
  pose proof (Z.div_mod (size_of s + 4095) 4096 ltac:(lia)).
  pose proof (Z.mod_pos_bound (size_of s + 4095) 4096 ltac:(lia)).
  split; [lia |]. split; [apply Z.divide_factor_r | lia].
Qed.

Lemma span_le : span s <= zchan_rx_size (rx_of s).
Proof using Hs.
  destruct (vs_frames s Hs) as (n & Hn & ->). pose proof span_bounds. nia.
Qed.

(** a frame that starts in the ring ends in it *)
Lemma frame_fits off : on_frame s off -> off + span s <= zchan_rx_size (rx_of s).
Proof using Hs.
  intros [Ho [k Hk]]. destruct (vs_frames s Hs) as (n & Hn & En).
  pose proof span_bounds as (_ & _ & Hp). rewrite En, Hk in *.
  assert (k < n) by (apply (Z.mul_lt_mono_pos_r (span s)); lia). nia.
Qed.

Definition succ_frame (off : Z) : Z := (off + span s) mod zchan_rx_size (rx_of s).

Lemma rx_wrap_mod off :
  0 <= off <= zchan_rx_size (rx_of s) -> rx_wrap (rx_of s) off = off mod zchan_rx_size (rx_of s).
Proof using Hs.
  intros Ho. pose proof (vs_small s Hs). pose proof span_bounds. pose proof span_le.
  unfold rx_wrap. rewrite u32_small by lia.
  destruct (Z.leb_spec (zchan_rx_size (rx_of s)) off).
  - assert (off = zchan_rx_size (rx_of s)) as -> by lia. rewrite Z.mod_same by lia. lia.
  - rewrite Z.mod_small by lia. done.
Qed.

Lemma succ_wrap off : on_frame s off -> rx_wrap (rx_of s) (off + span s) = succ_frame off.
Proof using Hs.
  intros Ho. pose proof (frame_fits off Ho). destruct Ho. pose proof span_bounds. apply rx_wrap_mod. lia.
Qed.

Lemma succ_on_frame off : on_frame s off -> on_frame s (succ_frame off).
Proof using Hs.
  intros Ho. pose proof (frame_fits off Ho). destruct Ho as [Ho Hd]. unfold succ_frame.
  pose proof span_bounds as (_ & _ & Hp). pose proof span_le.
  split; [apply Z.mod_pos_bound; lia |].
  destruct (Z.eq_dec (off + span s) (zchan_rx_size (rx_of s))) as [->|].
  - rewrite Z.mod_same by lia. apply Z.divide_0_r.
  - rewrite Z.mod_small by lia. apply Z.divide_add_r; [done | apply Z.divide_refl].
Qed.

(** the offset after a whole frame was walked over *)
Lemma next_frame_succ off :
  on_frame s off -> next_frame (rx_of s) (rx_wrap (rx_of s) (off + size_of s)) = succ_frame off.
Proof using Hs.
  intros Ho. pose proof (frame_fits off Ho) as Hf. pose proof Ho as [Hr [k Hk]].
  pose proof span_bounds as (Hb & [m Hm] & Hp). pose proof (vs_image s Hs).
  unfold next_frame. rewrite (vs_bufsz s Hs), <- (succ_wrap off Ho).
  destruct (Z.eq_dec (off + size_of s) (zchan_rx_size (rx_of s))) as [E|E].
  - replace (span s) with (size_of s) by lia. rewrite (rx_wrap_mod (off + size_of s)), E, Z.mod_same by lia.
    change (ALIGN 0 ZCHAN_BUF_SIZE) with 0. pose proof span_le. rewrite rx_wrap_mod, Z.mod_0_l by lia. done.
  - rewrite (rx_wrap_mod (off + size_of s)), Z.mod_small by lia. rewrite align_page by lia. f_equal.
    assert (off + span s = (k * m + m) * 4096) as -> by (rewrite Hk, Hm; ring).
    rewrite Z.mul_cancel_r by lia. symmetry. apply Z.div_unique with ((off + size_of s + 4095) - (k * m + m) * 4096); [| lia].
    left. assert (off + span s = (k * m + m) * 4096) by (rewrite Hk, Hm; ring). lia.
Qed.

(** frames from [off] to [tail], going round *)
Definition frames_to (off tail : Z) : Z := ((tail - off) mod zchan_rx_size (rx_of s)) / span s.

Lemma frames_to_succ off tail :
  on_frame s off -> on_frame s tail -> off <> tail ->
  frames_to off tail = frames_to (succ_frame off) tail + 1 /\
  0 <= frames_to (succ_frame off) tail < zchan_rx_pt_entries (rx_of s) /\
  (frames_to (succ_frame off) tail = 0 <-> succ_frame off = tail).
Proof using Hs.
  intros Ho Ht Hne. pose proof (frame_fits off Ho) as Hf. pose proof (succ_on_frame off Ho) as [Hn _].
  destruct (vs_frames s Hs) as (n & Hn1 & En). pose proof span_bounds as (Hb & [m Hm] & Hp).
  pose proof (vs_entries s Hs) as He. change ZCHAN_BUF_SIZE with 4096 in He.
  destruct Ho as [Ho [k Hk]], Ht as [Ht [j Hj]].
  set (span0 := span s) in *.
  assert (succ_frame off = if k + 1 =? n then 0 else (k + 1) * span0) as Hsucc.
  { unfold succ_frame. fold span0. replace (off + span0) with ((k + 1) * span0) by lia.
    rewrite En. destruct (Z.eqb_spec (k + 1) n) as [<-|]; [apply Z.mod_same; nia |].
    apply Z.mod_small. split; [apply Z.mul_nonneg_nonneg; lia |]. apply Z.mul_lt_mono_pos_r; [lia |].
    assert (k + 1 <= n) by (apply (Z.mul_le_mono_pos_r _ _ span0); lia). lia. }
  assert (forall a, 0 <= a < n -> frames_to (a * span0) tail = (j - a) mod n) as Hto.
  { intros a Ha. unfold frames_to. fold span0. rewrite Hj, En, <- Z.mul_sub_distr_r, Z.mul_mod_distr_r by lia.
    apply Z.div_mul. lia. }
  assert (0 <= k < n) by (apply (frame_index span0); lia).
  assert (0 <= j < n) by (apply (frame_index span0); lia).
  assert (n <= zchan_rx_pt_entries (rx_of s)).
  { apply (Z.mul_le_mono_pos_r _ _ 4096); [lia |]. rewrite He, En. apply Z.mul_le_mono_nonneg_l; lia. }
  rewrite Hsucc, Hk, (Hto k) by lia.
  assert (j <> k) by (intros ->; congruence).
  assert (forall a, a * span0 = tail <-> a = j) as Hat.
  { intros a. rewrite Hj. apply Z.mul_cancel_r. lia. }
  assert (exists a, (if k + 1 =? n then 0 else (k + 1) * span0) = a * span0 /\ 0 <= a < n /\
    (j - k) mod n = (j - a) mod n + 1) as (a & -> & Ha & Hja).
  { destruct (Z.eqb_spec (k + 1) n).
    - exists 0. split; [reflexivity |]. split; [lia |].
      rewrite <- (Z.mod_add (j - k) 1 n), (Z.mod_small _ n), (Z.mod_small (j - 0)) by lia. lia.
    - exists (k + 1). split; [reflexivity |]. split; [lia |]. destruct (Z.lt_ge_cases k j).
      + rewrite !Z.mod_small by lia. lia.
      + rewrite <- (Z.mod_add (j - k) 1 n), <- (Z.mod_add (j - (k + 1)) 1 n), !Z.mod_small by lia. lia. }
  rewrite (Hto a), Hat by lia. pose proof (Z.mod_pos_bound (j - a) n ltac:(lia)).
  split; [exact Hja |]. split; [lia |]. split.
  - intros E. apply Z.mod_divide in E as [q Hq]; [| lia]. assert (q = 0); [| lia].
    assert (-1 < q) by (apply (Z.mul_lt_mono_pos_r n); lia).
    assert (q < 1) by (apply (Z.mul_lt_mono_pos_r n); lia). lia.
  - intros ->. rewrite Z.sub_diag. apply Z.mod_0_l. lia.
Qed.
End positions.

(** ** Rules for runs *)
Section runs.
Context {S : Type}.
Implicit Types w : world S.

Lemma given_app l1 l2 : given (l1 ++ l2) = given l1 ++ given l2.
Proof. apply omap_app. Qed.

Lemma calm_given evs : Forall calm evs -> given evs = [].
Proof.
  induction 1 as [|[c r] l Hc _ IH]; [done |]. unfold calm in Hc. cbn in Hc |- *. by destruct c.
Qed.

Lemma runs_refl w : runs w w (w_st w) [].
Proof. done. Qed.

Lemma runs_trans w w1 w2 s1 s2 bs1 bs2 :
  runs w w1 s1 bs1 -> runs w1 w2 s2 bs2 -> runs w w2 s2 (bs1 ++ bs2).
Proof.
  intros (_ & Hh & Hg) (Hs & Hh' & Hg'). split; [done |]. split; [congruence |].
  by rewrite Hg', Hg, rev_app_distr, app_assoc.
Qed.

Lemma runs_reaches w w1 w2 s1 s2 bs : runs w w1 s1 bs -> reaches w1 w2 s2 -> runs w w2 s2 bs.
Proof.
  intros (_ & Hh & Hg) (Hs & Hh' & evs & Hl & Hc). split; [done |]. split; [congruence |].
  by rewrite Hl, given_app, calm_given, Hg.
Qed.

Lemma runs_calmly w w1 w2 s bs : runs w w1 s bs -> calmly w1 w2 -> runs w w2 s bs.
Proof.
  intros Hr Hc. eapply runs_reaches; [exact Hr |]. rewrite <- (proj1 Hr). by apply calmly_reaches.
Qed.

Lemma runs_state w w1 s s' bs : runs w w1 s bs -> runs w (World (w_log w1) (w_held w1) s') s' bs.
Proof. by intros (_ & Hh & Hg). Qed.
End runs.

Section queue_rules.
Context `{Env} `{ModParams} `{VideoParams}.
Implicit Types w : world vid_ctx.

Lemma wp_off2addr off w (Q : Z * Z -> world vid_ctx -> Prop) :
  vq_static (w_st w) -> 0 <= off < zchan_rx_size (rx_of (w_st w)) ->
  (forall a, Q a w) -> wp (on_vchan (zchan_rx_off2addr off)) Q w.
Proof.
  intros Hs Ho HQ. destruct (vs_table _ Hs off Ho) as (pt & b & Hpt & Hb).
  unfold on_vchan. apply wp_zoom. unfold zchan_rx_off2addr, rx_tbl. apply wp_bind, wp_gets.
  cbn [w_st ch_zchan]. fold (rx_of (w_st w)). rewrite (proj2 (Z.eqb_neq _ _) (vs_pdt _ Hs)).
  cbv zeta. apply wp_bind, wp_array_get. exists pt. split; [exact Hpt |].
  apply wp_bind, wp_array_get. exists b. split; [exact Hb |]. apply wp_ret.
  cbn [w_log w_held w_st]. destruct w as [? ? []]. apply HQ.
Qed.

Lemma wp_upd_head f w0 w s bs (Q : unit -> world vid_ctx -> Prop) :
  runs w0 w s bs ->
  (forall w', runs w0 w' (s<|vc_zchan ::= fun c => c<|zchan_rx_tbl_of ::= f|>|>) bs -> Q tt w') ->
  wp (vid_upd_rx f) Q w.
Proof.
  intros Hr HQ. unfold vid_upd_rx, on_vchan, upd_rx, upd_zchan. apply wp_zoom, wp_modify.
  cbn [w_log w_held w_st]. apply HQ. rewrite (proj1 Hr). destruct s. by eapply runs_state.
Qed.

(** a register write of the channel *)
Lemma wp_vchan_write reg v w (Q : unit -> world vid_ctx -> Prop) :
  (forall w', runs w w' (w_st w) [] ->
     (zynq_bringup_param = false ->
      last_write (addr_add (zchan_reg (vc_zchan (w_st w))) reg) (w_log w') = Some (u32 v)) -> Q tt w') ->
  wp (vid_chan_write reg v) Q w.
Proof.
  intros HQ. unfold vid_chan_write, on_vchan, zchan_reg_write, io_write.
  apply wp_zoom, wp_bind, wp_gets. destruct zynq_bringup_param.
  - apply wp_ret. cbn [w_log w_held w_st]. destruct w as [? ? []]. by apply HQ.
  - apply wp_tell. cbn [w_log w_held w_st emit]. destruct w as [l h s0]. apply HQ.
    + split; [by destruct s0 |]. by split.
    + intros _. cbn. by rewrite decide_True.
Qed.

Lemma wp_reset_meta off w (Q : unit -> world vid_ctx -> Prop) :
  vq_static (w_st w) -> on_frame (w_st w) off -> (forall w', calmly w w' -> Q tt w') ->
  wp (zvideo_reset_meta_data off) Q w.
Proof.
  intros Hs Ho HQ. unfold zvideo_reset_meta_data, vid_rx, cam. apply wp_bind, wp_gets, wp_bind, wp_gets.
  cbv zeta. fold (rx_of (w_st w)). fold (size_of (w_st w)).
  pose proof (frame_fits _ Hs off Ho). pose proof Ho as [Hr _]. pose proof (vs_image _ Hs).
  pose proof (span_bounds _ Hs) as (Hb & _). unfold sizeof_ext_meta_data.
  apply wp_bind, wp_off2addr; [done | |].
  - rewrite rx_wrap_mod by (done || lia). apply Z.mod_pos_bound. lia.
  - intros [ext phy]. by apply wp_tell, HQ, calmly_emit.
Qed.

(** *** The pending list *)
Lemma take_offset_Some off l b r :
  take_offset off l = Some (b, r) -> vb_offset b = off /\ l ≡ₚ b :: r.
Proof.
  revert r. induction l as [|x l IH]; [done |]. cbn. intros r.
  destruct (Z.eqb_spec (vb_offset x) off); [by intros [= -> ->] |].
  destruct (take_offset off l) as [[y r']|] eqn:E; [| done]. cbn. intros [= -> <-].
  destruct (IH r' eq_refl) as [Hy Hp]. split; [done |]. rewrite Hp. apply Permutation_swap.
Qed.

Lemma take_offset_None off l : take_offset off l = None -> Forall (fun b => vb_offset b <> off) l.
Proof.
  induction l as [|x l IH]; [by constructor |]. cbn.
  destruct (Z.eqb_spec (vb_offset x) off); [done |].
  destruct (take_offset off l) as [[y r']|]; [done |]. intros _. constructor; [done | by apply IH].
Qed.

(** buffers bound to successive frames of the ring, from [head] to [head'] *)
Inductive ring_order (s : vid_ctx) : Z -> list zynq_video_buffer -> Z -> Prop :=
| ring_nil head : ring_order s head [] head
| ring_snoc head l b head' :
    ring_order s head l head' -> vb_offset b = head' ->
    ring_order s head (l ++ [b]) (succ_frame s head').

(** [b] leaves the pending list, the head moves on *)
Definition moved (b : zynq_video_buffer) (rest : list zynq_video_buffer) (s : vid_ctx) : vid_ctx :=
  s<|vc_stream ::= fun x => x<|pending_list := rest|><|buf_list := buf_list x ++ [b]|>
       <|buf_avail ::= fun n => u32 (n + 1)|>|>
   <|vc_zchan ::= fun c => c<|zchan_rx_tbl_of ::= fun rx =>
       rx<|zchan_rx_head := succ_frame s (zchan_rx_head rx)|>|>|>.

Lemma moved_same b rest s : same_frame s (moved b rest s).
Proof. by constructor. Qed.

Lemma moved_ok b rest s :
  take_offset (zchan_rx_head (rx_of s)) (pending_list (vc_stream s)) = Some (b, rest) ->
  vq_ok s -> vq_ok (moved b rest s).
Proof.
  intros Ht [Hs Hh Ho Hb Ha]. pose proof (moved_same b rest s) as Hm.
  apply take_offset_Some in Ht as [Hoff Hp]. constructor.
  - by eapply same_static.
  - apply (same_on_frame _ _ Hm). by apply succ_on_frame.
  - by apply (same_on_frame _ _ Hm).
  - apply (same_bufs_ok _ _ Hm). unfold owned in *. cbn. rewrite <- app_assoc. cbn.
    by rewrite Hp in Hb.
  - cbn. rewrite Ha, length_app. cbn. unfold u32. rewrite Z.add_mod_idemp_l by lia. f_equal. lia.
Qed.

Definition head_reg (s : vid_ctx) : addr := addr_add (zchan_reg (vc_zchan s)) ZYNQ_CH_RX_HEAD.

Lemma wp_check_pending_one w0 w s bs (Q : bool -> world vid_ctx -> Prop) :
  runs w0 w s bs -> vq_ok s ->
  match take_offset (zchan_rx_head (rx_of s)) (pending_list (vc_stream s)) with
  | None => Q false w
  | Some (b, rest) => forall w', runs w0 w' (moved b rest s) bs ->
      (zynq_bringup_param = false ->
       last_write (head_reg s) (w_log w') = Some (zchan_rx_head (rx_of (moved b rest s)))) -> Q true w'
  end -> wp check_pending_one Q w.
Proof.
  intros Hr Hok HQ. unfold check_pending_one, vid_rx, stream.
  pose proof Hok as [Hs Hh _ Hb _]. pose proof (proj1 Hr) as Hw.
  apply wp_bind, wp_gets. apply wp_bind, wp_gets. rewrite Hw. fold (rx_of s).
  destruct (take_offset _ _) as [[b rest]|] eqn:E; [| by apply wp_ret].
  pose proof (take_offset_Some _ _ _ _ E) as [Hoff Hp].
  assert (buf_ok s b) as (Hz & _).
  { eapply Forall_forall; [exact Hb |]. apply elem_of_app. right. rewrite Hp. left. }
  apply wp_bind, wp_modify.
  match goal with |- wp _ _ (World ?l ?h ?x) => set (w1 := World l h x); set (s1 := x) in w1 end.
  assert (same_frame s s1) as Hsf.
  { unfold s1. rewrite Hw. by apply same_frame_at. }
  assert (runs w0 w1 s1 bs) as Hr1 by by eapply runs_state.
  apply wp_bind, wp_reset_meta; [by eapply same_static | rewrite Hoff; by eapply same_on_frame |].
  intros w2 Hc. assert (runs w0 w2 s1 bs) as Hr2 by by eapply runs_calmly.
  cbv zeta. apply wp_bind. eapply wp_upd_head; [exact Hr2 |]. intros w3 Hr3.
  apply wp_bind, wp_vchan_write. intros w4 Hr4 Hw4.
  rewrite Hz, (vs_bufsz _ Hs) in Hr3. fold (span s) in Hr3. rewrite (succ_wrap s Hs) in Hr3 by done.
  rewrite Hz, (vs_bufsz _ Hs) in Hw4. fold (span s) in Hw4. rewrite (succ_wrap s Hs) in Hw4 by done.
  assert (runs w0 w4 (moved b rest s) bs) as Hr5.
  { rewrite <- (app_nil_r bs). eapply runs_trans; [exact Hr3 |]. rewrite (proj1 Hr3) in Hr4.
    unfold s1 in Hr4. rewrite Hw in Hr4. by destruct s. }
  apply wp_ret, HQ; [done |]. intros Hbr. rewrite (proj1 Hr3) in Hw4.
  specialize (Hw4 Hbr). pose proof (succ_on_frame s Hs _ Hh) as [Hran _]. pose proof (vs_small s Hs).
  rewrite u32_small in Hw4 by lia. unfold s1 in Hw4. rewrite Hw in Hw4. exact Hw4.
Qed.

Lemma ring_order_same s s' h l h' : same_frame s s' -> ring_order s h l h' -> ring_order s' h l h'.
Proof.
  intros Hs. induction 1 as [|h l b h' _ IH Hb]; [constructor |].
  replace (succ_frame s h') with (succ_frame s' h'); [by constructor |].
  unfold succ_frame. by rewrite (same_span _ _ Hs), (same_rx_size _ _ Hs).
Qed.

(** the state after the pending list was checked *)
Record pending_done (s s' : vid_ctx) (mv : list zynq_video_buffer) : Prop := PendingDone {
  pd_ok : vq_ok s';
  pd_same : same_frame s s';
  pd_order : ring_order s (zchan_rx_head (rx_of s)) mv (zchan_rx_head (rx_of s'));
  pd_off : zchan_rx_off (rx_of s') = zchan_rx_off (rx_of s);
  pd_list : buf_list (vc_stream s') = buf_list (vc_stream s) ++ mv;
  pd_pend : pending_list (vc_stream s) ≡ₚ mv ++ pending_list (vc_stream s');
  pd_cam : vc_video s' = vc_video s
}.

Lemma wp_check_pending w0 w s bs (Q : unit -> world vid_ctx -> Prop) :
  runs w0 w s bs -> vq_ok s ->
  (forall w' s' mv, runs w0 w' s' bs -> pending_done s s' mv ->
     Forall (fun b => vb_offset b <> zchan_rx_head (rx_of s')) (pending_list (vc_stream s')) ->
     (mv <> [] -> zynq_bringup_param = false ->
      last_write (head_reg s) (w_log w') = Some (zchan_rx_head (rx_of s'))) -> Q tt w') ->
  wp zvideo_check_pending Q w.
Proof.
  intros Hr Hok HQ. unfold zvideo_check_pending, stream. apply wp_bind, wp_gets. rewrite (proj1 Hr).
  apply (wp_loop (fun _ v => exists s' mv, runs w0 v s' bs /\ pending_done s s' mv /\
      (mv <> [] -> zynq_bringup_param = false ->
       last_write (head_reg s) (w_log v) = Some (zchan_rx_head (rx_of s'))))
    (fun _ v => length (pending_list (vc_stream (w_st v))))).
  - exists s, []. split; [done |]. split; [| done].
    constructor; try done; [constructor | by rewrite app_nil_r].
  - rewrite (proj1 Hr). lia.
  - intros [] v (s1 & mv & Hr1 & Hd & Hlw). pose proof Hd as [Hok1 Hsf Hord Hoff Hl Hp Hcam].
    apply wp_bind. eapply wp_check_pending_one; [exact Hr1 | exact Hok1 |].
    destruct (take_offset _ _) as [[b rest]|] eqn:E.
    + intros v' Hr2 Hlw2. apply wp_ret. pose proof (take_offset_Some _ _ _ _ E) as [Hb Hperm]. split.
      * exists (moved b rest s1), (mv ++ [b]). split; [done |]. split; [constructor |].
        { by apply moved_ok. }
        { etransitivity; [exact Hsf | apply moved_same]. }
        { change (zchan_rx_head (rx_of (moved b rest s1))) with (succ_frame s1 (zchan_rx_head (rx_of s1))).
          replace (succ_frame s1) with (succ_frame s); [by constructor |].
          unfold succ_frame. by rewrite (same_span _ _ Hsf), (same_rx_size _ _ Hsf). }
        { done. }
        { cbn. by rewrite Hl, <- app_assoc. }
        { rewrite Hp, Hperm. cbn. by rewrite <- app_assoc. }
        { done. }
        { intros _ Hbr. rewrite <- (Hlw2 Hbr). unfold head_reg. by rewrite (sf_reg _ _ Hsf). }
      * rewrite (proj1 Hr2), (proj1 Hr1). cbn. rewrite Hperm. cbn. lia.
    + apply wp_ret. apply (HQ _ s1 mv); [done | done | by apply take_offset_None | done].
Qed.
End queue_rules.

(** ** Receiving a frame *)
Section receive_rules.
Context `{Env} `{ModParams} `{VideoParams}.
Implicit Types w : world vid_ctx.

(** the pages of the frame at [off], [k] bytes into it *)
Lemma wp_frame_step copy tail off mem k w (Q : frame_pos + frame_pos -> world vid_ctx -> Prop) :
  let s := w_st w in
  let p k := FramePos (rx_wrap (rx_of s) (off + k)) (mem + k) (size_of s - k) k in
  vq_static s -> on_frame s off -> on_frame s tail -> off <> tail ->
  0 <= k <= size_of s -> (k = size_of s \/ (4096 | k)) ->
  (forall w', calmly w w' ->
     Q (if k =? size_of s then inr (p k) else inl (p (Z.min (k + 4096) (size_of s)))) w') ->
  wp (frame_step copy tail (p k)) Q w.
Proof.
  intros s p Hs Ho Ht Hne Hk Hdiv HQ. unfold frame_step, cam, vid_rx.
  apply wp_bind, wp_gets. fold s. fold (size_of s). cbn [fp_off fp_mem fp_memsz fp_size p].
  pose proof (frame_fits s Hs off Ho) as Hfit. pose proof (span_bounds s Hs) as (Hsp & [m Hm] & Hp).
  pose proof (vs_small s Hs).
  destruct (Z.eqb_spec k (size_of s)) as [->|Hlt].
  { rewrite Z.sub_diag. cbn [Z.ltb Z.compare]. rewrite andb_false_r. cbn [andb].
    apply wp_ret, HQ, calmly_refl. }
  destruct Hdiv as [|[j Hj]]; [done |]. destruct Ho as [Hor [i Hi]], Ht as [Htr [n Hn]].
  assert (rx_wrap (rx_of s) (off + k) = off + k) as Hw.
  { rewrite (rx_wrap_mod s Hs) by lia. apply Z.mod_small. lia. }
  assert (off + k <> tail) as Hnt.
  { intros E. assert (n * span s - i * span s = k) as Ek by lia. rewrite <- Z.mul_sub_distr_r in Ek.
    assert (n - i < 1) by (apply (Z.mul_lt_mono_pos_r (span s)); lia).
    assert (-1 < n - i) by (apply (Z.mul_lt_mono_pos_r (span s)); lia).
    assert (n = i) by lia. subst n. lia. }
  rewrite Hw, (proj2 (Z.eqb_neq _ _) Hnt), (proj2 (Z.ltb_lt 0 (size_of s - k))), (proj2 (Z.ltb_lt k (size_of s))) by lia.
  cbn [negb andb]. apply wp_bind, wp_gets. fold s. fold (rx_of s).
  apply wp_bind, wp_off2addr; [done | fold s; lia |]. intros [data phy]. cbv zeta.
  assert (chunk_len (rx_of s) (off + k) tail (size_of s - k) = Z.min 4096 (size_of s - k)) as ->.
  { unfold chunk_len, ZCHAN_WITHIN_RX_BUF, ZCHAN_RX_BUF_OFFSET. rewrite (vs_mask s Hs), (vs_bufsz s Hs).
    change (ZCHAN_BUF_SIZE - 1) with (PAGE_SIZE - 1). rewrite !page_tail.
    assert (off + k = (i * m + j) * 4096) as Eo by (rewrite Hi, Hm, Hj; ring).
    assert (tail = (n * m) * 4096) as Et by (rewrite Hn, Hm; ring).
    rewrite Eo, Et, !Z.div_mul by lia. rewrite <- Eo, <- Et.
    rewrite (proj2 (Z.eqb_neq _ _) Hnt). cbn [andb].
    change (PAGE_SIZE - 1) with (Z.ones 12). rewrite Z.land_ones, Eo by lia.
    rewrite Z.mod_mul by lia. change (u32 (ZCHAN_BUF_SIZE - 0)) with 4096.
    destruct (Z.ltb_spec (size_of s - k) 4096); lia. }
  apply wp_bind, wp_tell, wp_bind.
  assert (forall w', calmly w w' -> wp (mret (inl (FramePos (rx_wrap (rx_of s) (off + k + Z.min 4096 (size_of s - k)))
    (mem + k + Z.min 4096 (size_of s - k)) (size_of s - k - Z.min 4096 (size_of s - k))
    (k + Z.min 4096 (size_of s - k))))) Q w') as Hret.
  { intros w' Hc. apply wp_ret. specialize (HQ w' Hc). unfold p in HQ.
    replace (Z.min (k + 4096) (size_of s)) with (k + Z.min 4096 (size_of s - k)) in HQ by lia.
    rewrite !Z.add_assoc, Z.sub_add_distr in HQ. exact HQ. }
  destruct copy; cbn [when].
  - apply wp_tell, Hret. eapply calmly_trans; by apply calmly_emit.
  - apply wp_ret, Hret. by apply calmly_emit.
Qed.

Lemma wp_frame_walk copy tail off mem w (Q : frame_pos -> world vid_ctx -> Prop) :
  let s := w_st w in
  vq_static s -> on_frame s off -> on_frame s tail -> off <> tail ->
  (forall w', calmly w w' ->
     Q (FramePos (rx_wrap (rx_of s) (off + size_of s)) (mem + size_of s) 0 (size_of s)) w') ->
  wp (frame_walk copy tail (FramePos off mem (size_of s) 0)) Q w.
Proof.
  intros s Hs Ho Ht Hne HQ. unfold frame_walk, vid_rx. apply wp_bind, wp_gets. fold s. fold (rx_of s).
  pose proof (frame_fits s Hs off Ho) as Hfit. pose proof (span_bounds s Hs) as (Hsp & Hm & Hp).
  pose proof (vs_small s Hs). pose proof (vs_image s Hs) as Himg. destruct Ho as [Hor Hod].
  set (p k := FramePos (rx_wrap (rx_of s) (off + k)) (mem + k) (size_of s - k) k).
  set (left k := (size_of s - k + 4095) / 4096).
  apply (wp_loop (fun q v => exists k, q = p k /\ calmly w v /\ 0 <= k <= size_of s /\
    (k = size_of s \/ (4096 | k))) (fun q _ => Z.to_nat (left (fp_size q)))).
  - exists 0. split; [| split; [apply calmly_refl |]].
    + unfold p. rewrite !Z.add_0_r, Z.sub_0_r. f_equal. rewrite (rx_wrap_mod s Hs) by lia.
      symmetry. apply Z.mod_small. lia.
    + split; [lia |]. right. apply Z.divide_0_r.
  - cbn. pose proof (vs_entries s Hs) as He. change ZCHAN_BUF_SIZE with 4096 in He.
    assert (left 0 <= zchan_rx_pt_entries (rx_of s)); [| lia].
    unfold left. rewrite Z.sub_0_r. apply (Z.mul_le_mono_pos_r _ _ 4096); [lia |].
    rewrite <- align_page by lia. fold (span s). lia.
  - intros q v (k & -> & Hc & Hk & Hdiv). assert (w_st v = s) as Hv by apply Hc.
    pose proof (wp_frame_step copy tail off mem k v) as Hstep. rewrite Hv in Hstep.
    apply Hstep; [done | done | done | done | done | done |]. intros v' Hc'.
    assert (calmly w v') as Hcv by by eapply calmly_trans.
    destruct (Z.eqb_spec k (size_of s)) as [->|Hlt].
    + fold (p (size_of s)). specialize (HQ v' Hcv). unfold p. by rewrite Z.sub_diag.
    + split.
      * eexists. split; [reflexivity |]. split; [done |]. split; [lia |].
        destruct Hdiv as [|Hd]; [done |]. destruct (Z.min_spec (k + 4096) (size_of s)) as [[_ ->] | [_ ->]].
        { right. apply Z.divide_add_r; [done | apply Z.divide_refl]. }
        { by left. }
      * cbn [fp_size p]. unfold left.
        assert (0 <= (size_of s - Z.min (k + 4096) (size_of s) + 4095) / 4096) by (apply Z.div_pos; lia).
        apply Z2Nat.inj_lt; [done | apply Z.div_pos; lia |].
        apply Z.div_lt_upper_bound; [lia |].
        pose proof (Z.div_mod (size_of s - k + 4095) 4096 ltac:(lia)).
        pose proof (Z.mod_pos_bound (size_of s - k + 4095) 4096 ltac:(lia)). lia.
Qed.

(** *** Locks and counters *)
Lemma wp_qlocked {A} (m : M vid_ctx A) w (Q : A -> world vid_ctx -> Prop) :
  L_zvideo_q (index (vc_video (w_st w))) ∉ w_held w ->
  (forall w1, w_st w1 = w_st w ->
     wp m (fun a w2 => exists s' bs, runs w1 w2 s' bs /\ forall w3, runs w w3 s' bs -> Q a w3) w1) ->
  wp (qlocked m) Q w.
Proof.
  intros Hl Hm. unfold qlocked, vid_index. apply wp_bind, wp_gets.
  apply wp_bind, wp_spin_lock; [done |]. apply wp_bind.
  eapply wp_mono; [by apply Hm |]. intros a w2 (s' & bs & (Hs & Hh & Hg) & HQ). cbn in Hh, Hg.
  apply wp_bind. eapply wp_spin_unlock; [exact Hh | done |]. apply wp_ret, HQ.
  split; [done |]. split; [done |]. exact Hg.
Qed.

(** the counters of the stream, and those of the channel *)
Lemma wp_vid_logx id k i w (Q : unit -> world vid_ctx -> Prop) :
  0 <= id < Z.of_nat (length (video_stats (vc_stream (w_st w)))) ->
  (forall w' l, length l = length (video_stats (vc_stream (w_st w))) ->
     reaches w w' (in_stats l (w_st w)) -> Q tt w') ->
  wp (vid_STATS_LOGX id k i) Q w.
Proof.
  intros Hid HQ. unfold vid_STATS_LOGX, on_stream.
  apply wp_zoom, wp_stats_logx; [done | done | exact Hid |]. cbn [w_st]. intros w' l Hl Hr.
  apply (HQ _ l); [apply Hl |]. by apply (reaches_zoom (fun v s => s<|vc_stream := v|>) w vc_stream) in Hr.
Qed.

Definition in_cstats (l : list zynq_stats) (s : vid_ctx) : vid_ctx :=
  s<|vc_zchan ::= fun c => c<|zchan_stats := l|>|>.
Lemma wp_chan_stat id w (Q : unit -> world vid_ctx -> Prop) :
  (forall w' l, reaches w w' (in_cstats l (w_st w)) -> Q tt w') -> wp (vid_chan_STATS id) Q w.
Proof.
  intros HQ. unfold vid_chan_STATS, on_vchan, zchan_ZYNQ_STATS, ZYNQ_STATS. apply wp_zoom, wp_zoom, wp_modify.
  cbn [w_log w_held w_st]. eapply HQ. split; [| split; [done |]; exists []; by split].
  by destruct w as [? ? [? [] ? ?]].
Qed.

Lemma vq_ok_steady s s' :
  vq_ok s -> same_frame s s' -> zchan_rx_head (rx_of s') = zchan_rx_head (rx_of s) ->
  on_frame s (zchan_rx_off (rx_of s')) ->
  buf_list (vc_stream s') = buf_list (vc_stream s) ->
  pending_list (vc_stream s') = pending_list (vc_stream s) ->
  buf_avail (vc_stream s') = buf_avail (vc_stream s) -> vq_ok s'.
Proof.
  intros [Hs Hh Ho Hb Ha] Hsf Eh Eo El Ep Ea. constructor.
  - by eapply same_static.
  - rewrite Eh. by eapply same_on_frame.
  - by eapply same_on_frame.
  - unfold owned. rewrite El, Ep. by eapply same_bufs_ok.
  - by rewrite Ea, El.
Qed.
End receive_rules.

Section receive.
Context `{Env} `{ModParams} `{VideoParams}.
Implicit Types w : world vid_ctx.

(** the buffers held before are those held after and those given back *)
Definition accounted (s s' : vid_ctx) (bs : list Z) : Prop :=
  vb_num <$> owned s ≡ₚ bs ++ (vb_num <$> owned s').

(** a buffer is taken out of the list *)
Definition taken (rest : list zynq_video_buffer) (s : vid_ctx) : vid_ctx :=
  s<|vc_stream ::= fun x => x<|buf_list := rest|><|buf_avail ::= fun n => u32 (n - 1)|>|>.

Lemma taken_ok off b rest s :
  vq_ok s -> take_offset off (buf_list (vc_stream s)) = Some (b, rest) ->
  vq_ok (taken rest s) /\ same_frame s (taken rest s) /\ buf_ok s b /\ vb_offset b = off /\
  owned s ≡ₚ b :: owned (taken rest s).
Proof.
  intros [Hs Hh Ho Hb Ha] E. apply take_offset_Some in E as [Hoff Hp].
  assert (owned s ≡ₚ b :: owned (taken rest s)) as Hown by (unfold owned; cbn; by rewrite Hp).
  assert (same_frame s (taken rest s)) as Hsf.
  { by apply same_frame_at. }
  rewrite Hown in Hb. apply Forall_cons in Hb as [Hbb Hb].
  split; [| by split_and!]. constructor.
  - by eapply same_static.
  - by eapply same_on_frame.
  - by eapply same_on_frame.
  - by eapply same_bufs_ok.
  - cbn. rewrite Ha, Hp. cbn. unfold u32. rewrite Zminus_mod_idemp_l. f_equal. lia.
Qed.

(** the state right before a buffer is added to the pending list, and after *)
Lemma pending_ok b s : vq_ok s -> buf_ok s b ->
  vq_ok (s<|vc_stream ::= fun x => x<|pending_list ::= cons b|>|>).
Proof.
  intros [Hs Hh Ho Hb Ha] Hbb.
  assert (same_frame s (s<|vc_stream ::= fun x => x<|pending_list ::= cons b|>|>)) as Hsf.
  { by apply same_frame_at. }
  constructor; try done.
  - by eapply same_static.
  - unfold owned. cbn. eapply same_bufs_ok; [exact Hsf |]. apply Forall_app.
    unfold owned in Hb. apply Forall_app in Hb as [Hb1 Hb2]. split; [done |]. by constructor.
Qed.

Lemma wp_add_pending b w0 w s bs (Q : unit -> world vid_ctx -> Prop) :
  runs w0 w s bs -> vq_ok s -> buf_ok s b ->
  (forall w' s', runs w0 w' s' bs -> vq_ok s' -> same_frame s s' -> vc_video s' = vc_video s ->
     zchan_rx_off (rx_of s') = zchan_rx_off (rx_of s) -> b :: owned s ≡ₚ owned s' -> Q tt w') ->
  wp (add_pending b) Q w.
Proof.
  intros Hr Hok Hb HQ. unfold add_pending. apply wp_bind, wp_modify. rewrite (proj1 Hr).
  eapply wp_check_pending; [by eapply runs_state | by apply pending_ok |].
  intros w' s' mv Hr' [Hok' Hsf Hord Hoff Hl Hp Hcam] Hhead Hlw.
  apply (HQ _ s'); [done | done | | done | done |].
  - etransitivity; [| exact Hsf]. by apply same_frame_at.
  - unfold owned. rewrite Hl. cbn in Hl, Hp |- *. rewrite <- app_assoc, <- Hp.
    rewrite <- Permutation_middle. done.
Qed.

Lemma wp_rx_one_zero_copy tail off w (Q : Z + unit -> world vid_ctx -> Prop) :
  let s := w_st w in
  vq_ok s -> on_frame s off -> on_frame s tail -> off <> tail ->
  L_zvideo_q (index (vc_video s)) ∉ w_held w ->
  (forall r w' s' bs, runs w w' s' bs -> vq_ok s' -> same_frame s s' -> accounted s s' bs ->
     r = inr tt \/ r = inl (succ_frame s off) /\ succ_frame s off <> tail -> Q r w') ->
  wp (rx_one_zero_copy tail off) Q w.
Proof.
  intros s Hok Ho Ht Hne Hlk HQ. pose proof Hok as [Hs Hh Hof Hb Ha].
  unfold rx_one_zero_copy. apply wp_bind, wp_qlocked; [done |]. intros w1 Hw1.
  unfold cam, stream. apply wp_bind, wp_gets, wp_bind, wp_gets. rewrite Hw1. fold s.
  assert (runs w1 w1 s []) as Hr0 by (unfold s; rewrite <- Hw1; apply runs_refl).
  assert (forall w3, runs w w3 s [] -> wp (vid_STATS_LOGX VIDEO_STATS_NO_VIDEO_BUF 1 0;; mret (inr tt)) Q w3) as Hnone.
  { intros w3 Hr3. apply wp_bind, wp_vid_logx; [by rewrite (proj1 Hr3), (vs_vstats _ Hs) |].
    intros w4 l Hl Hr4. rewrite (proj1 Hr3) in Hr4, Hl. apply wp_ret.
    assert (same_frame s (in_stats l s)) as Hsf.
    { by apply same_frame_at. }
    apply (HQ _ _ (in_stats l s) []); [by eapply runs_reaches | | done | unfold accounted; reflexivity | by left].
    by apply (vq_ok_steady s). }
  destruct (streaming (vc_video s)); [| by apply wp_ret; exists s, []].
  destruct (take_offset off (buf_list (vc_stream s))) as [[b rest]|] eqn:E;
    [| by apply wp_ret; exists s, []].
  destruct (taken_ok off b rest s Hok E) as (Hok1 & Hsf1 & (Hz & Hbo & Hread) & Hboff & Hown).
  apply wp_bind, wp_modify. rewrite Hw1. fold s. apply wp_ret.
  exists (taken rest s), []. split; [exact (runs_state w1 w1 s _ [] Hr0) |]. intros w2 Hr2. clear Hnone Hr0 w1 Hw1.
  pose proof Hok1 as [Hs1 Hh1 Hof1 Hb1 Ha1].
  assert (on_frame (taken rest s) off) as Ho1 by by eapply same_on_frame.
  assert (on_frame (taken rest s) tail) as Ht1 by by eapply same_on_frame.
  apply wp_bind. rewrite Hz, <- (same_size _ _ Hsf1).
  pose proof (wp_frame_walk false tail off 0 w2) as Hwalk. rewrite (proj1 Hr2) in Hwalk.
  apply Hwalk; [done | done | done | done |].
  intros w3 Hc3. assert (runs w w3 (taken rest s) []) as Hr3 by by eapply runs_calmly.
  unfold cam. apply wp_bind, wp_gets. rewrite (proj1 Hr3). cbn [fp_memsz fp_size fp_off].
  fold (size_of (taken rest s)). rewrite !Z.eqb_refl. cbn [negb orb].
  apply wp_bind, wp_chan_stat. intros w4 cl Hr4. rewrite (proj1 Hr3) in Hr4.
  assert (runs w w4 (in_cstats cl (taken rest s)) []) as Hr4' by by eapply runs_reaches.
  set (s4 := in_cstats cl (taken rest s)) in *.
  assert (same_frame s s4) as Hsf4 by (etransitivity; [exact Hsf1 | by apply same_frame_at]).
  assert (vq_ok s4) as Hok4 by (apply (vq_ok_steady (taken rest s)); try done; by apply same_frame_at).
  pose proof (vq_st _ Hok4) as Hs4.
  destruct (Hread (w_log w4)) as (frame & Hframe & Hrow).
  apply wp_bind, (wp_check_meta_data w4 b frame); [done | | | |].
  { rewrite (proj1 Hr4'), Hz. destruct Hs4. split; [apply (vs_image s Hs) |].
    split; [done |]. split; [done |]. by split. }
  { rewrite (proj1 Hr4'). unfold divides_by_zero. by rewrite (sf_em _ _ Hsf4), Hrow, andb_false_r. }
  { rewrite (proj1 Hr4'). destruct Hr4' as (_ & -> & _). exact Hlk. }
  intros ret b' w5 s5 Hck Hr5. rewrite (proj1 Hr4') in Hck.
  destruct Hck as [? ? _ _ _ _ _ _ Hbuf Hzd Hzc Hcam (_ & _ & Hav & Hem & Hbl & Hpl & Hvs)].
  assert (runs w w5 s5 []) as Hr5' by by eapply runs_reaches.
  assert (rx_of s5 = rx_of s4) as Hrx5 by (unfold rx_of; by rewrite Hzc).
  assert (same_frame s4 s5) as Hsf45.
  { apply same_frame_at; try done. by rewrite Hzc. }
  assert (vq_ok s5) as Hok5.
  { apply (vq_ok_steady s4); rewrite ?Hrx5; done. }
  assert (same_frame s s5) as Hsf5 by by etransitivity.
  assert (buf_ok s5 b') as Hb5.
  { eapply same_buf_ok; [exact Hsf5 |]. rewrite Hbuf. by split_and!. }
  assert (vb_num <$> owned s ≡ₚ vb_num b' :: (vb_num <$> owned s5)) as Hnum.
  { rewrite Hown. cbn. rewrite Hbuf. cbn. apply perm_skip. unfold owned. by rewrite Hbl, Hpl. }
  apply wp_bind. eapply wp_mono with (Q := fun _ w' => exists s6 bs, runs w w' s6 bs /\ vq_ok s6 /\
    same_frame s s6 /\ accounted s s6 bs).
  - destruct (negb (ret =? 0)).
    + apply wp_qlocked.
      { rewrite (proj1 Hr5'). destruct Hr5' as (_ & -> & _). destruct (sf_cam _ _ Hsf5) as (-> & _). exact Hlk. }
      intros w1 Hw1. rewrite (proj1 Hr5') in Hw1.
      apply (wp_add_pending b' w1 w1 s5 []); [rewrite <- Hw1; apply runs_refl | done | done |].
      intros w6 s6 Hr6 Hok6 Hsf6 _ _ Hown6. exists s6, []. split; [done |]. intros w7 Hr7.
      exists s6, []. split; [exact (runs_trans _ _ _ _ _ _ _ Hr5' Hr7) |]. split; [done |].
      split; [by etransitivity |]. unfold accounted. rewrite Hnum. cbn [app]. by rewrite <- Hown6.
    + apply wp_bind, wp_tell, wp_tell. exists s5, [vb_num b']. split; [| by split_and!].
      destruct Hr5' as (E5 & Hh5 & Hg5). split; [done |]. split; [done |]. cbn. f_equal. exact Hg5.
  - intros [] w6 (s6 & bs & Hr6 & Hok6 & Hsf6 & Hacc). pose proof (vq_st _ Hok6) as Hs6.
    unfold vid_rx. apply wp_bind, wp_gets. rewrite (proj1 Hr6). fold (rx_of s6). cbv zeta.
    assert (next_frame (rx_of s6) (rx_wrap (rx_of (taken rest s)) (off + size_of (taken rest s))) = succ_frame s off) as ->.
    { rewrite (same_size _ _ Hsf1), <- (next_frame_succ s Hs off Ho).
      rewrite (sf_rx _ _ Hsf6), (sf_rx _ _ Hsf1). reflexivity. }
    apply wp_bind. eapply wp_upd_head; [exact Hr6 |]. intros w7 Hr7.
    match type of Hr7 with runs _ _ ?x _ => set (s7 := x) in Hr7 end.
    assert (same_frame s6 s7) as Hsf67 by by constructor.
    unfold next_sequence. apply wp_bind, wp_modify. rewrite (proj1 Hr7). apply wp_ret.
    apply (HQ _ _ (s7<|vc_stream ::= fun x => x<|sequence ::= fun n => u32 (n + 1)|>|>) bs);
      [by eapply runs_state | | | done |].
    + apply (vq_ok_steady s6); try done. apply (same_on_frame _ _ Hsf6). by apply succ_on_frame.
    + etransitivity; [exact Hsf6 |]. by constructor.
    + destruct (Z.eqb_spec (succ_frame s off) tail); [by left | by right].
Qed.
End receive.

(** ** Sequences of operations *)
Inductive vid_op :=
| OpQueue (b : zynq_video_buffer)     (** videobuf2 queues a buffer *)
| OpReceive                           (** a receive interrupt *)
| OpError (status : Z)                (** an error interrupt *)
| OpReturn.                           (** the stream is given up *)

Definition queued (op : vid_op) : list zynq_video_buffer :=
  match op with OpQueue b => [b] | _ => [] end.

Section ops.
Context `{Env} `{ModParams} `{VideoParams}.
Implicit Types w : world vid_ctx.

Definition vid_run (op : vid_op) : M vid_ctx unit :=
  match op with
  | OpQueue b => zvideo_buffer_queue b
  | OpReceive => zvideo_rx_proc
  | OpError status => zvideo_err_proc status
  | OpReturn => zvideo_return_all_buffers VB2_BUF_STATE_ERROR
  end.
Fixpoint vid_run_all (ops : list vid_op) : M vid_ctx unit :=
  match ops with
  | [] => mret tt
  | op :: ops' => vid_run op;; vid_run_all ops'
  end.

(** the register the device reports its write position in, and that the
    position lies in the ring (a page the driver gave it) *)
Definition tail_reg (s : vid_ctx) : addr := addr_add (zchan_reg (vc_zchan s)) ZYNQ_CH_RX_TAIL.
Definition tail_in_ring (s : vid_ctx) : Prop := forall l,
  Z.land (u32 (env_ret l (MmioRead (tail_reg s)))) (Z.lnot (PAGE_SIZE - 1)) < zchan_rx_size (rx_of s).

(** what every operation keeps *)
Record op_done (s s' : vid_ctx) (new : list zynq_video_buffer) (bs : list Z) : Prop := OpDone {
  od_ok : vq_ok s';
  od_same : same_frame s s';
  od_acc : (vb_num <$> new) ++ (vb_num <$> owned s) ≡ₚ bs ++ (vb_num <$> owned s')
}.

Definition unlocked w (s : vid_ctx) : Prop :=
  (L_zvideo_q (index (vc_video s)) ∉ w_held w) /\ (L_zvideo_r (index (vc_video s)) ∉ w_held w).

Lemma add_available_ok b s : vq_ok s -> buf_ok s b ->
  let s' := (s<|vc_stream ::= fun x =>
    x<|buf_list := buf_list x ++ [b]|><|buf_avail ::= fun n => u32 (n + 1)|>|>) in
  op_done s s' [b] [].
Proof.
  intros [Hs Hh Ho Hb Ha] Hbb s'.
  assert (same_frame s s') as Hsf by by apply same_frame_at.
  constructor; [| done |].
  - constructor; [by eapply same_static | by eapply same_on_frame | by eapply same_on_frame | |].
    + unfold owned, s'. cbn. eapply same_bufs_ok; [exact Hsf |]. unfold owned in Hb.
      apply Forall_app in Hb as [Hb1 Hb2]. rewrite !Forall_app. by split; [split; [| constructor] |].
    + cbn. rewrite Ha, length_app. cbn. unfold u32. rewrite Z.add_mod_idemp_l by lia. f_equal. lia.
  - unfold owned, s'. cbn. rewrite !fmap_app. cbn. rewrite <- app_assoc. apply Permutation_middle.
Qed.

Lemma wp_buffer_queue b w (Q : unit -> world vid_ctx -> Prop) :
  let s := w_st w in
  vq_ok s -> buf_ok s b -> unlocked w s ->
  (forall w' s', runs w w' s' [] -> op_done s s' [b] [] -> Q tt w') -> wp (zvideo_buffer_queue b) Q w.
Proof.
  intros s Hok Hb [Hl _] HQ. unfold zvideo_buffer_queue. apply wp_qlocked; [done |]. intros w1 Hw1.
  unfold cam. apply wp_bind, wp_gets. rewrite Hw1. fold s.
  assert (runs w1 w1 s []) as Hr1 by (unfold s; rewrite <- Hw1; apply runs_refl).
  assert (wp (add_available b) (fun a w2 => exists s' bs, runs w1 w2 s' bs /\
    (forall w3, runs w w3 s' bs -> Q a w3)) w1) as Hav.
  { unfold add_available. apply wp_modify. rewrite Hw1. fold s. eexists _, [].
    split; [by eapply runs_state |]. intros w3 Hr3. eapply HQ; [exact Hr3 | by apply add_available_ok]. }
  destruct zynq_video_zero_copy; [| done]. destruct (streaming _); [| done].
  apply (wp_add_pending b w1 w1 s []); [done | done | done |].
  intros w2 s2 Hr2 Hok2 Hsf2 _ _ Hown. exists s2, []. split; [done |]. intros w3 Hr3.
  eapply HQ; [exact Hr3 |]. constructor; [done | done |]. cbn. by rewrite <- Hown.
Qed.

(** both lists are given back *)
Lemma wp_done_all state l w (Q : unit -> world vid_ctx -> Prop) :
  (forall w', runs w w' (w_st w) (vb_num <$> l) -> Q tt w') -> wp (done_all state l) Q w.
Proof.
  revert w. induction l as [|b l IH]; intros w HQ; cbn [done_all].
  - apply wp_ret, HQ, runs_refl.
  - apply wp_bind, wp_tell, IH. intros w' Hr. apply HQ.
    apply (runs_trans _ (emit (Ev (BufferDone (vb_num b) state (vb_sequence b) (vb_timestamp b)) 0) w) _
      (w_st w) _ [vb_num b]); [by split | exact Hr].
Qed.

Lemma wp_return_all state w (Q : unit -> world vid_ctx -> Prop) :
  let s := w_st w in
  vq_ok s -> unlocked w s ->
  (forall w' s' bs, runs w w' s' bs -> op_done s s' [] bs -> owned s' = [] -> Q tt w') ->
  wp (zvideo_return_all_buffers state) Q w.
Proof.
  intros s Hok [Hl _] HQ. pose proof Hok as [Hs Hh Ho Hb Ha].
  unfold zvideo_return_all_buffers. apply wp_qlocked; [done |]. intros w1 Hw1.
  unfold stream. apply wp_bind, wp_gets. rewrite Hw1. fold s.
  apply wp_bind, wp_done_all. intros w2 Hr2. rewrite Hw1 in Hr2. fold s in Hr2.
  apply wp_bind, wp_modify. rewrite (proj1 Hr2).
  match goal with |- wp _ _ ?v => set (w3 := v) end.
  assert (runs w1 w3 (w_st w3) (vb_num <$> pending_list (vc_stream s))) as Hr3 by by eapply runs_state.
  apply wp_bind, wp_done_all. intros w4 Hr4.
  pose proof (runs_trans _ _ _ _ _ _ _ Hr3 Hr4) as Hr5. apply wp_modify. rewrite (proj1 Hr5).
  eexists _, _. split; [by eapply runs_state |]. intros w6 Hr6.
  eapply HQ; [exact Hr6 | | done].
  match type of Hr6 with runs _ _ ?x _ => set (s6 := x) end.
  assert (same_frame s s6) as Hsf by by apply same_frame_at.
  constructor; [| done |].
  - constructor; [by eapply same_static | by eapply same_on_frame | by eapply same_on_frame | by constructor |].
    unfold s6. cbn. rewrite Ha. unfold u32. rewrite Zminus_mod_idemp_l. by rewrite Z.sub_diag.
  - cbn. rewrite app_nil_r. unfold owned. rewrite fmap_app. apply Permutation_app_comm.
Qed.

Lemma wp_vchan_read reg w (Q : Z -> world vid_ctx -> Prop) :
  (forall r w', calmly w w' -> (r = 0 \/ exists l,
     r = u32 (env_ret l (MmioRead (addr_add (zchan_reg (vc_zchan (w_st w))) reg)))) -> Q r w') ->
  wp (vid_chan_read reg) Q w.
Proof.
  intros HQ. unfold vid_chan_read, on_vchan, zchan_reg_read, io_read.
  apply wp_zoom, wp_bind, wp_gets. destruct zynq_bringup_param.
  - apply wp_ret, HQ; [| by left]. cbn [w_log w_held w_st]. destruct w as [? ? []]. apply calmly_refl.
  - apply wp_bind, wp_ask. intros r ->. apply wp_ret. cbn [w_log w_held w_st emit].
    destruct w as [l h s0]. apply HQ; [| right; by eexists].
    split; [by destruct s0 |]. split; [done |]. eexists [_]. split; [done |]. by constructor.
Qed.

Lemma wp_rlocked {A} (m : M vid_ctx A) w (Q : A -> world vid_ctx -> Prop) :
  L_zvideo_r (index (vc_video (w_st w))) ∉ w_held w ->
  (forall w1, w_st w1 = w_st w -> w_held w1 = L_zvideo_r (index (vc_video (w_st w))) :: w_held w ->
     wp m (fun a w2 => exists s' bs, runs w1 w2 s' bs /\ forall w3, runs w w3 s' bs -> Q a w3) w1) ->
  wp (rlocked m) Q w.
Proof.
  intros Hl Hm. unfold rlocked, vid_index. apply wp_bind, wp_gets.
  apply wp_bind, wp_spin_lock; [done |]. apply wp_bind.
  eapply wp_mono; [by apply Hm |]. intros a w2 (s' & bs & (Hs & Hh & Hg) & HQ). cbn in Hh, Hg.
  apply wp_bind. eapply wp_spin_unlock; [exact Hh | done |]. apply wp_ret, HQ.
  split; [done |]. split; [done |]. exact Hg.
Qed.

(** the write position the driver accepts is the start of a frame *)
Lemma tail_on_frame s hw :
  vq_static s -> on_frame s (zchan_rx_head (rx_of s)) -> 0 <= hw ->
  Z.land hw (Z.lnot (PAGE_SIZE - 1)) < zchan_rx_size (rx_of s) ->
  ZCHAN_RX_USED_SIZE (rx_of s) (zchan_rx_head (rx_of s)) (Z.land hw (Z.lnot (PAGE_SIZE - 1))) mod span s = 0 ->
  on_frame s (Z.land hw (Z.lnot (PAGE_SIZE - 1))).
Proof.
  intros Hs [Hh Hd] Hw Ht Hu. pose proof (vs_small s Hs). pose proof (span_bounds s Hs) as (_ & _ & Hp).
  destruct (vs_frames s Hs) as (n & Hn & En). rewrite page_tail in *.
  assert (0 <= hw / 4096 * 4096) by (apply Z.mul_nonneg_nonneg; [apply Z.div_pos |]; lia).
  set (t := hw / 4096 * 4096) in *. set (h := zchan_rx_head (rx_of s)) in *.
  split; [lia |]. apply Z.mod_divide in Hu; [| lia]. unfold ZCHAN_RX_USED_SIZE in Hu.
  assert ((span s | zchan_rx_size (rx_of s))) as Hn' by (exists n; exact En).
  destruct (Z.leb_spec h t); rewrite u32_small in Hu by lia.
  - replace t with (t - h + h) by lia. by apply Z.divide_add_r.
  - replace t with (zchan_rx_size (rx_of s) + t - h + h - zchan_rx_size (rx_of s)) by lia.
    apply Z.divide_sub_r; [by apply Z.divide_add_r | done].
Qed.

Lemma wp_rx_loop tail off w (Q : unit -> world vid_ctx -> Prop) :
  let s := w_st w in
  vq_ok s -> on_frame s off -> on_frame s tail -> off <> tail -> L_zvideo_q (index (vc_video s)) ∉ w_held w ->
  (forall w' s' bs, runs w w' s' bs -> op_done s s' [] bs -> Q tt w') ->
  wp (loop (S (Z.to_nat (zchan_rx_pt_entries (rx_of s)))) (rx_one_zero_copy tail) off) Q w.
Proof.
  intros s Hok Ho Ht Hne Hl HQ. pose proof (vq_st _ Hok) as Hs.
  apply (wp_loop (fun y v => exists s1 bs, runs w v s1 bs /\ op_done s s1 [] bs /\ on_frame s y /\ y <> tail)
    (fun y _ => Z.to_nat (frames_to s y tail))).
  - exists s, []. split; [apply runs_refl |]. split; [by constructor | done].
  - destruct (frames_to_succ s Hs off tail Ho Ht Hne) as (-> & Hf & _). lia.
  - intros y v (s1 & bs & Hr & [Hok1 Hsf Hacc] & Hy & Hyt).
    destruct (frames_to_succ s Hs y tail Hy Ht Hyt) as (Hfs & Hf & _).
    apply wp_rx_one_zero_copy; rewrite ?(proj1 Hr); [done | by eapply same_on_frame | by eapply same_on_frame | done | |].
    + destruct (sf_cam _ _ Hsf) as (-> & _). destruct Hr as (_ & -> & _). exact Hl.
    + intros r v' s2 bs2 Hr2 Hok2 Hsf2 Hacc2 Hres.
      assert (runs w v' s2 (bs ++ bs2)) as Hr' by by eapply runs_trans.
      assert (op_done s s2 [] (bs ++ bs2)) as Hd.
      { constructor; [done | by etransitivity |]. cbn [app fmap list_fmap] in *. rewrite Hacc.
        unfold accounted in Hacc2. by rewrite Hacc2, app_assoc. }
      destruct Hres as [-> | [-> Hn]]; [by eapply HQ |].
      assert (succ_frame s1 y = succ_frame s y) as E
        by (unfold succ_frame; by rewrite (same_span _ _ Hsf), (same_rx_size _ _ Hsf)).
      rewrite E in *. split; [| lia]. exists s2, (bs ++ bs2). split; [done |]. split; [done |].
      split; [by apply succ_on_frame | done].
Qed.

Lemma wp_rx_proc w (Q : unit -> world vid_ctx -> Prop) :
  let s := w_st w in
  zynq_video_zero_copy = true -> vq_ok s -> unlocked w s -> tail_in_ring s ->
  (forall w' s' bs, runs w w' s' bs -> op_done s s' [] bs -> Q tt w') -> wp zvideo_rx_proc Q w.
Proof.
  intros s Hz Hok [Hlq Hlr] Htail HQ. pose proof Hok as [Hs Hh Ho Hb Ha].
  unfold zvideo_rx_proc. rewrite Hz. apply wp_rlocked; [done |]. intros w1 Hw1 Hh1.
  assert (forall w2, calmly w1 w2 -> exists s' bs, runs w1 w2 s' bs /\ (forall w3, runs w w3 s' bs -> Q tt w3)) as Hstop.
  { intros w2 Hc. exists s, []. split.
    - eapply runs_calmly; [| exact Hc]. unfold s. rewrite <- Hw1. apply runs_refl.
    - intros w3 Hr3. apply (HQ _ s []); [done |]. by constructor. }
  unfold zvideo_rx_proc_zero_copy, vid_rx, cam. apply wp_bind, wp_gets. rewrite Hw1. fold s. fold (rx_of s).
  rewrite (vs_bufsz s Hs). change (ZCHAN_BUF_SIZE =? 0) with false. cbv iota.
  apply wp_bind, wp_vchan_read. rewrite Hw1. fold s. intros hw w2 Hc2 Hhw. cbv zeta.
  assert (w_st w2 = s) as Hw2 by (rewrite (proj1 Hc2); exact Hw1).
  assert (0 <= hw /\ Z.land hw (Z.lnot (PAGE_SIZE - 1)) < zchan_rx_size (rx_of s)) as [Hhw0 Hhwt].
  { destruct Hhw as [-> | [l ->]].
    - rewrite Z.land_0_l. pose proof (span_le s Hs). pose proof (span_bounds s Hs). lia.
    - split; [apply u32_range | apply Htail]. }
  apply wp_bind, wp_gets. rewrite Hw2. fold (size_of s). fold (span s).
  pose proof (span_bounds s Hs) as (_ & _ & Hp).
  apply wp_bind, wp_c_rem; [| done |].
  { unfold ZCHAN_RX_USED_SIZE. destruct (_ <=? _); apply u32_range. }
  match goal with |- context [negb (?r =? 0)] => destruct (Z.eqb_spec r 0) as [Hr|] end; cbn [negb];
    [| by apply wp_ret, Hstop].
  pose proof (tail_on_frame s hw Hs Hh Hhw0 Hhwt Hr) as Ht.
  destruct (Z.eqb_spec (zchan_rx_off (rx_of s)) (Z.land hw (Z.lnot (PAGE_SIZE - 1)))) as [|Hne];
    [by apply wp_ret, Hstop |].
  unfold zvideo_get_timestamp. apply wp_bind, wp_bind, wp_ask. intros sec _.
  apply wp_bind, wp_ask. intros nsec _. apply wp_ret, wp_bind, wp_modify. cbn [emit w_log w_held w_st].
  rewrite Hw2. match goal with |- wp _ _ ?v => set (w3 := v) end.
  set (s3 := w_st w3). assert (runs w1 w3 s3 []) as Hr3.
  { split; [done |]. destruct Hc2 as (_ & Hh2 & evs & Hl & Hcalm). split; [exact Hh2 |].
    cbn. by rewrite Hl, given_app, calm_given. }
  assert (same_frame s s3) as Hsf3 by by apply same_frame_at.
  assert (vq_ok s3) as Hok3 by by apply (vq_ok_steady s).
  apply (wp_rx_loop _ _ w3); [done | by apply (same_on_frame _ _ Hsf3) | by apply (same_on_frame _ _ Hsf3) | done | |].
  { change (w_held w3) with (w_held w2). destruct Hc2 as (_ & -> & _). rewrite Hh1.
    rewrite not_elem_of_cons. by split. }
  intros w4 s4 bs Hr4 [Hok4 Hsf4 Hacc]. exists s4, bs.
  split; [exact (runs_trans _ _ _ _ _ [] bs Hr3 Hr4) |]. intros w5 Hr5. apply (HQ _ s4 bs); [done |].
  constructor; [done | by etransitivity | exact Hacc].
Qed.

(** a step that leaves the buffers alone *)
Definition rests w w' : Prop := exists s', runs w w' s' [] /\ op_done (w_st w) s' [] [].

Lemma rests_refl w : vq_ok (w_st w) -> rests w w.
Proof. intros Hok. exists (w_st w). split; [apply runs_refl | by constructor]. Qed.

Lemma rests_trans w w1 w2 : rests w w1 -> rests w1 w2 -> rests w w2.
Proof.
  intros (s1 & Hr1 & [Hok1 Hs1 Ha1]) (s2 & Hr2 & [Hok2 Hs2 Ha2]). exists s2.
  rewrite (proj1 Hr1) in Hs2, Ha2. split; [exact (runs_trans _ _ _ _ _ _ _ Hr1 Hr2) |].
  constructor; [done | by etransitivity |]. cbn [app] in *. by rewrite Ha1.
Qed.

Lemma rests_ok w w' : rests w w' -> vq_ok (w_st w').
Proof. intros (s' & Hr & Hd). rewrite (proj1 Hr). apply Hd. Qed.

Lemma rests_index w w' l : rests w w' -> l (index (vc_video (w_st w))) ∉ w_held w ->
  l (index (vc_video (w_st w'))) ∉ w_held w'.
Proof.
  intros (s' & (Hs & Hh & _) & Hd). rewrite Hs, Hh. by destruct (sf_cam _ _ (od_same _ _ _ _ Hd)) as (-> & _).
Qed.

Lemma wp_when_log b id w (Q : unit -> world vid_ctx -> Prop) :
  vq_ok (w_st w) -> 0 <= id < VIDEO_STATS_NUM -> (forall w', rests w w' -> Q tt w') ->
  wp (when b (vid_STATS_LOG id)) Q w.
Proof.
  intros Hok Hid HQ. apply wp_when; intros _; [| by apply HQ, rests_refl].
  apply wp_vid_logx; [by rewrite (vs_vstats _ (vq_st _ Hok)) |]. intros w' l Hl Hr. apply HQ.
  eexists. split; [exact (runs_reaches _ _ _ _ _ [] (runs_refl w) Hr) |].
  assert (same_frame (w_st w) (in_stats l (w_st w))) as Hsf by by apply same_frame_at.
  constructor; [| done | done]. apply (vq_ok_steady (w_st w)); try done. apply Hok.
Qed.

Lemma wp_err_proc status w (Q : unit -> world vid_ctx -> Prop) :
  vq_ok (w_st w) -> unlocked w (w_st w) -> (forall w', rests w w' -> Q tt w') ->
  wp (zvideo_err_proc status) Q w.
Proof.
  intros Hok [Hl _] HQ. unfold zvideo_err_proc.
  apply wp_bind, wp_when_log; [done | done |]. intros w1 R1. apply wp_bind.
  eapply wp_mono with (Q := fun _ w' => rests w w').
  - apply wp_when; intros _; [| done]. apply wp_bind.
    apply (wp_when_log true); [by eapply rests_ok | done |]. intros w2 R2.
    assert (rests w w2) as R12 by by eapply rests_trans.
    apply wp_qlocked; [by eapply (rests_index w w2 L_zvideo_q) |]. intros w3 Hw3.
    unfold jiffies. apply wp_bind, wp_modify, wp_bind, wp_fmap, wp_ask. intros j _.
    apply wp_modify. cbn [w_st w_log w_held emit]. rewrite Hw3.
    eexists _, []. split; [by split |]. intros w4 Hr4. eapply rests_trans; [exact R12 |].
    eexists. split; [exact Hr4 |]. pose proof (rests_ok _ _ R12) as Hok2.
    match type of Hr4 with runs _ _ ?x _ => assert (same_frame (w_st w2) x) as Hsf by by apply same_frame_at end.
    constructor; [| done | done]. apply (vq_ok_steady (w_st w2)); try done. apply Hok2.
  - intros [] w2 R2. apply wp_bind, wp_when_log; [by eapply rests_ok | done |]. intros w3 R3.
    assert (rests w w3) as R23 by by eapply rests_trans.
    apply wp_when_log; [by eapply rests_ok | done |]. intros w4 R4. apply HQ. by eapply rests_trans.
Qed.
End ops.

(** ** Theorems *)
Section queue_theorems.
Context `{Env} `{ModParams} `{VideoParams}.

(** C28.  The pending list is worked off in the order of the ring.  The check
    ends; the buffers it hands to the DMA engine are exactly those bound to the
    successive frames from the old head on, appended in that order to the
    buffers available, and the head it writes to the device is the frame after
    the last of them; afterwards no pending buffer is bound to the head, and the
    ring's invariant still holds. *)
Theorem pending_in_order (w : world vid_ctx) (Hok : vq_ok (w_st w)) :
  let s := w_st w in
  wp zvideo_check_pending (fun _ w' =>
    let s' := w_st w' in
    exists mv, ring_order s (zchan_rx_head (rx_of s)) mv (zchan_rx_head (rx_of s')) /\
      buf_list (vc_stream s') = buf_list (vc_stream s) ++ mv /\
      pending_list (vc_stream s) ≡ₚ mv ++ pending_list (vc_stream s') /\
      Forall (fun b => vb_offset b <> zchan_rx_head (rx_of s')) (pending_list (vc_stream s')) /\
      (mv <> [] -> zynq_bringup_param = false ->
       last_write (head_reg s) (w_log w') = Some (zchan_rx_head (rx_of s'))) /\
      given (w_log w') = given (w_log w) /\ w_held w' = w_held w /\ vq_ok s') w.
Proof.
  intros s. eapply wp_check_pending; [apply runs_refl | exact Hok |].
  intros w' s' mv (-> & Hh & Hg) [] Hnone Hlw. exists mv. by split_and!.
Qed.

(** C29.  No video buffer is lost or handed out twice.  With zero copy and a ring
    set up for streaming, through any sequence of buffers of the image's size and
    of a place in the ring queued by videobuf2, receive and error interrupts and
    returns of all buffers, each operation ends without fault; the buffers queued
    and those held before are, as many times, those given back to videobuf2 and
    those still held; and the ring, the count of available buffers and the locks
    stay consistent.  The device may report any position inside the ring, and
    refill the buffers with anything whenever the driver is not reading them, but
    for an AR0231 exposure row of 0, by which the driver divides
    ([frame_accounting]). *)
Theorem buffers_conserved (w : world vid_ctx) (ops : list vid_op)
    (Hzero : zynq_video_zero_copy = true) (Hok : vq_ok (w_st w)) (Hl : unlocked w (w_st w))
    (Htail : tail_in_ring (w_st w)) (Hq : Forall (buf_ok (w_st w)) (ops ≫= queued)) :
  wp (vid_run_all ops) (fun _ w' =>
    let s := w_st w in
    let s' := w_st w' in
    exists bs, given (w_log w') = rev bs ++ given (w_log w) /\
      (vb_num <$> (ops ≫= queued)) ++ (vb_num <$> owned s) ≡ₚ bs ++ (vb_num <$> owned s') /\
      vq_ok s' /\ same_frame s s' /\ w_held w' = w_held w) w.
Proof.
  revert w Hok Hl Htail Hq. induction ops as [|op ops IH]; intros w Hok Hl Htail Hq.
  { apply wp_ret. exists []. by split_and!. }
  cbn [vid_run_all]. change ((op :: ops) ≫= queued) with (queued op ++ (ops ≫= queued)) in *.
  apply Forall_app in Hq as [Hq1 Hq2].
  apply wp_bind, wp_mono with (fun _ w' => exists s' bs, runs w w' s' bs /\ op_done (w_st w) s' (queued op) bs).
  - destruct op; cbn [vid_run queued] in *.
    + apply wp_buffer_queue; [done | by inversion Hq1 | done |]. intros w' s' Hr Hd. by exists s', [].
    + apply wp_rx_proc; [done | done | done | done |]. intros w' s' bs Hr Hd. by exists s', bs.
    + apply wp_err_proc; [done | done |]. intros w' (s' & Hr & Hd). by exists s', [].
    + apply wp_return_all; [done | done |]. intros w' s' bs Hr Hd _. by exists s', bs.
  - intros [] w1 (s1 & bs1 & Hr & [Hok1 Hsf Hacc]). pose proof (proj1 Hr) as Hw1.
    destruct Hr as (_ & Hh1 & Hg1). pose proof (sf_cam _ _ Hsf) as (Hi & _).
    eapply wp_mono.
    + apply IH; rewrite ?Hw1; [done | | | by eapply same_bufs_ok].
      * unfold unlocked. by rewrite Hi, Hh1.
      * unfold tail_in_ring, tail_reg. rewrite (sf_reg _ _ Hsf), (same_rx_size _ _ Hsf). exact Htail.
    + intros [] w2 (bs2 & Hg2 & Hacc2 & Hok2 & Hsf2 & Hh2). rewrite Hw1 in Hacc2, Hsf2.
      exists (bs1 ++ bs2). split; [by rewrite Hg2, Hg1, rev_app_distr, app_assoc |].
      split; [| split; [done |]; split; [by etransitivity | congruence]].
      rewrite fmap_app, (Permutation_app_comm (vb_num <$> queued op)), <- !app_assoc, Hacc.
      by rewrite Permutation_app_swap_app, Hacc2.
Qed.
End queue_theorems.

(** ** Witnesses *)
Module QueueWitness.
Import VideoWitness MetaWitness.
#[local] Existing Instance params_default.
#[local] Existing Instance video_params_default.

(** a ring of three frames of a page each *)
Definition bufs3 : list zchan_buf := [ZchanBuf 0x1000 1 0x1000; ZchanBuf 0x2000 2 0x2000; ZchanBuf 0x3000 3 0x3000].
Definition rx3 : zchan_rx_tbl := {|
  zchan_rx_pdt_va := 1; zchan_rx_pdt := [0x9000]; zchan_rx_pdt_dma := 0x8000; zchan_rx_pdt_num := 1;
  zchan_rx_pdt_shift := 21; zchan_rx_ptp_va := 1;
  zchan_rx_ptp := [RxPt 1 0x9000 [] 1 bufs3 3];
  zchan_rx_pt_entries := 3; zchan_rx_pt_mask := 511; zchan_rx_pt_shift := 12;
  zchan_rx_size := 0x3000; zchan_rx_bufsz := 4096; zchan_rx_buf_mask := 4095;
  zchan_rx_off := 0; zchan_rx_head := 0; zchan_rx_tail := 0
|}.
Definition vb (n : Z) : zynq_video_buffer := Vbuf n (4096 * n) (0x10000 + 0x1000 * n) 4096 0 0.
Definition cam3 : zynq_video :=
  video0<|vstate := ZVIDEO_STATE_STREAMING|><|caps ::= fun c => c<|embedded_data := 0|>|>
    <|format := PixFormat 0 0 0 0 4096|>.
Definition ring3 (bufs pend : list zynq_video_buffer) : vid_ctx := {|
  vc_zdev := zdev_sample;
  vc_zchan := zchan_sample<|zchan_rx_tbl_of := rx3|>;
  vc_video := cam3;
  vc_stream := stream0<|buf_list := bufs|><|buf_avail := Z.of_nat (length bufs)|><|pending_list := pend|>
    <|read_em_data := EM_NONE|>
|}.
(** frames without fault; the device is two frames ahead *)
Definition good_frame (p : Z) : Z :=
  if p mod 4096 =? 0xFF0 then 0xFE120000 else if p mod 4096 =? 0xFF4 then 0xFE12FE12 else 0.
Definition env3 : Env := fun _ c =>
  match c with DmaWord p => good_frame p | MmioRead _ => 0x2000 | _ => 0 end.
Definition world3 (bufs pend : list zynq_video_buffer) : world vid_ctx := World [] [] (ring3 bufs pend).

Lemma static3 bufs pend : vq_static (ring3 bufs pend).
Proof.
  constructor; try (by vm_compute).
  - exists 3. by vm_compute.
  - intros off Ho. change (zchan_rx_size (rx_of (ring3 bufs pend))) with 0x3000 in Ho.
    exists (RxPt 1 0x9000 [] 1 bufs3 3). unfold ZCHAN_RX_PDT_ENTRY, ZCHAN_RX_PT_ENTRY. cbn [rx_of ring3 vc_zchan].
    change (zchan_rx_pdt_num _) with 1. rewrite Z.mod_1_r.
    change (zchan_rx_pt_mask _) with (Z.ones 9). change (zchan_rx_pt_shift _) with 12.
    rewrite Z.land_ones, Z.shiftr_div_pow2 by lia. change (2 ^ 12) with 4096. change (2 ^ 9) with 512.
    assert (off / 4096 = 0 \/ off / 4096 = 1 \/ off / 4096 = 2) as E.
    { pose proof (Z.div_pos off 4096 ltac:(lia) ltac:(lia)).
      pose proof (Z.div_lt_upper_bound off 4096 3 ltac:(lia) ltac:(lia)). lia. }
    destruct E as [-> | [-> | ->]]; eexists; split; reflexivity.
Qed.

Lemma buf3 bufs pend n : 0 <= n < 3 -> buf_ok (H := env3) (ring3 bufs pend) (vb n).
Proof.
  intros Hn. split; [reflexivity |]. split.
  - change (0 <= 4096 * n < 0x3000 /\ (4096 | 4096 * n)). split; [lia | apply Z.divide_factor_l].
  - intros l. exists good_frame. split; [| done]. intros evs p _ Hp. cbn. unfold good_frame.
    by destruct (p mod 4096 =? 0xFF0), (p mod 4096 =? 0xFF4).
Qed.

Lemma ok3 bufs pend : (forall b, b ∈ bufs ++ pend -> exists n, 0 <= n < 3 /\ b = vb n) ->
  (length bufs < 100)%nat -> vq_ok (H := env3) (ring3 bufs pend).
Proof.
  intros Hb Hl. constructor; [apply static3 | | | |].
  1-2: split; [by vm_compute | apply Z.divide_0_r].
  - apply Forall_forall. intros b Hin. destruct (Hb b Hin) as (n & Hn & ->). by apply buf3.
  - cbn. rewrite u32_small; lia.
Qed.

Lemma ok3_nil : vq_ok (H := env3) (ring3 [vb 0; vb 1; vb 2] []).
Proof.
  apply ok3; [| cbn; lia]. intros b. cbn [app]. rewrite !elem_of_cons, elem_of_nil.
  intros [-> | [-> | [-> | []]]]; eexists; (split; [| reflexivity]); lia.
Qed.

(** two frames received, the first queued again, a fault, everything returned *)
Definition ops3 : list vid_op := [OpReceive; OpQueue (vb 0); OpError 0xFF; OpReceive; OpReturn].
Example queue_runs :
  (let _ := env3 in
   match vid_run_all ops3 (world3 [vb 0; vb 1; vb 2] []) with
   | Ret _ w => Some (rev (given (w_log w)), zchan_rx_head (rx_of (w_st w)), buf_avail (vc_stream (w_st w)))
   | _ => None
   end) = Some ([0; 1; 2; 0], 0x1000, 0).
Proof. vm_compute. reflexivity. Qed.

Lemma buffers_conserved_witness :
  wp (vid_run_all (H := env3) ops3) (fun _ w' => exists bs, given (w_log w') = rev bs /\
    [0; 0; 1; 2] ≡ₚ bs ++ (vb_num <$> owned (w_st w'))) (world3 [vb 0; vb 1; vb 2] []).
Proof.
  eapply wp_mono.
  - apply (buffers_conserved (H := env3) (world3 [vb 0; vb 1; vb 2] []) ops3).
    + reflexivity.
    + apply ok3_nil.
    + split; apply not_elem_of_nil.
    + intros l. vm_compute. reflexivity.
    + constructor; [by apply buf3; lia | constructor].
  - intros [] w' (bs & Hg & Hacc & _). exists bs. rewrite app_nil_r in Hg. split; [exact Hg | exact Hacc].
Defined.

Lemma pending_in_order_witness :
  wp zvideo_check_pending (fun _ w' => exists mv,
    Permutation [vb 2; vb 0] (mv ++ pending_list (vc_stream (w_st w')))) (world3 [vb 1] [vb 2; vb 0]).
Proof.
  eapply wp_mono.
  - apply (pending_in_order (H := env3) (world3 [vb 1] [vb 2; vb 0])).
    apply ok3; [| cbn; lia]. intros b. cbn [app]. rewrite !elem_of_cons, elem_of_nil.
    intros [-> | [-> | [-> | []]]]; eexists; (split; [| reflexivity]); lia.
  - intros [] w' (mv & _ & _ & Hp & _). exists mv. exact Hp.
Defined.

(** copying receive with the write position outside the ring (a dead device
    reads all ones) and bad frames only: each frame's buffer is put back, and
    the loop goes round the ring without meeting its end *)
Definition env_dead : Env := fun _ c =>
  match c with MmioRead _ => 0xFFFFFFFF | _ => 0 end.
Example copy_never_ends :
  (let _ := env_dead in rlocked zvideo_rx_proc_copy (world3 [vb 0; vb 1; vb 2] [])) = OutOfFuel.
Proof. vm_compute. reflexivity. Qed.
End QueueWitness.
