(* ===== verification/VideoStream.v ===== *)
(** * Streaming (third part of [basa_video.c])

    Setting up the ring for the buffers videobuf2 queued, starting and stopping
    the stream, the reset of a channel at fault, and the trigger of one camera. *)

From stdpp Require Import relations.
From S2P Require Import Resource Stats Device Chan RxRes Video Trigger VideoMeta VideoQueue.

Definition ENOSR : Z := 63.
Definition ENOBUFS : Z := 105.

(** ** Buffers of the ring; the state is the channel *)
Section ring.
Context `{Env} `{ModParams}.

(** map a page of a video buffer for the device: [None] on failure *)
Definition zvideo_map_buf (vaddr bufsz : Z) : M chan_ctx (option zchan_buf) :=
  vm ← ask (KernelCall "is_vmalloc_addr" [vaddr]);
  if vm =? 0 then mret None
  else
    page ← ask (KernelCall "vmalloc_to_page" [vaddr]);
    dma ← ask (DmaMap page bufsz);
    let paddr := u64 dma in
    err ← ask (DmaMapError paddr);
    if negb (err =? 0) then mret None
    else if negb (Z.land paddr (bufsz - 1) =? 0) then tell (DmaUnmap paddr bufsz);; mret None
    else mret (Some (ZchanBuf vaddr page paddr)).

(** unmap buffer [j] of table [i], when it is mapped *)
Definition zvideo_unmap_buf (bufsz i j : Z) : M chan_ctx unit :=
  pt ← rx_pt_get i;
  zb ← array_get (zchan_rx_pt_bufs pt) j;
  when (negb (zchan_buf_dma zb =? 0)) (
    tell (DmaUnmap (zchan_buf_dma zb) bufsz);;
    rx_pt_upd i (fun pt => pt<|zchan_rx_pt_bufs ::= <[Z.to_nat j := ZchanBuf 0 0 0]>|>)).

Definition fini_table (bufsz i : Z) : M chan_ctx unit :=
  pt ← rx_pt_get i;
  if zchan_rx_pt_va pt =? 0 then mret tt
  else
    for_ (Z.to_nat (zchan_rx_pt_buf_num pt)) 0 (zvideo_unmap_buf bufsz i);;
    rx_pt_free i.

Definition zvideo_fini_rx : M chan_ctx unit :=
  rx ← rx_tbl;
  for_ (Z.to_nat (zchan_rx_pdt_num rx)) 0 (fini_table (zchan_rx_bufsz rx));;
  tell (KFree (zchan_rx_ptp_va rx));;
  upd_rx (fun rx => rx<|zchan_rx_ptp_va := 0|><|zchan_rx_ptp := []|><|zchan_rx_pt_entries := 0|>
    <|zchan_rx_size := 0|><|zchan_rx_bufsz := 0|>);;
  zchan_free_consistent (zchan_rx_pdt_va rx) (zchan_rx_pdt_dma rx) (zchan_rx_pdt_num rx * sizeof_u64);;
  upd_rx (fun rx => rx<|zchan_rx_pdt_va := 0|><|zchan_rx_pdt := []|><|zchan_rx_pdt_dma := 0|>
    <|zchan_rx_pdt_num := 0|>).

(** allocate table [i] with its array, for as many of the [todo] entries as it
    has room for: the entries still to do, or [None] on failure *)
Definition init_table (i todo : Z) : M chan_ctx (option Z) :=
  '(pt, dma) ← zchan_alloc_consistent ZCHAN_RX_PT_SIZE;
  rx_pt_upd i (fun p => p<|zchan_rx_pt_dma := dma|>);;
  if pt =? 0 then mret None
  else
    rx_pt_upd i (fun p => p<|zchan_rx_pt_va := pt|>
      <|zchan_rx_pt_entry := replicate (Z.to_nat ZCHAN_RX_PT_ENTRIES) 0|>);;
    upd_rx (fun rx => rx<|zchan_rx_pdt ::= <[Z.to_nat i := dma]>|>);;
    let buf_num := Z.min todo ZCHAN_RX_PT_ENTRIES in
    bufp ← ask (KAlloc (buf_num * sizeof_buf));
    if bufp =? 0 then
      zchan_free_consistent pt dma ZCHAN_RX_PT_SIZE;;
      rx_pt_upd i (fun p => p<|zchan_rx_pt_va := 0|><|zchan_rx_pt_entry := []|><|zchan_rx_pt_dma := 0|>);;
      mret None
    else
      rx_pt_upd i (fun p => p<|zchan_rx_pt_bufp := bufp|>
        <|zchan_rx_pt_bufs := replicate (Z.to_nat buf_num) zchan_buf_zero|>
        <|zchan_rx_pt_buf_num := buf_num|>);;
      mret (Some (todo - buf_num)).
Fixpoint init_tables (n : nat) (i todo : Z) : M chan_ctx bool :=
  match n with
  | O => mret true
  | S n' =>
      r ← init_table i todo;
      match r with
      | None => mret false
      | Some todo => init_tables n' (i + 1) todo
      end
  end.

(** where the next page goes: entries so far, table, and entry of the table *)
Record map_pos := MapPos { mp_entries : Z; mp_table : Z; mp_entry : Z }.

Definition map_page (vaddr : Z) (c : map_pos) : M chan_ctx (option map_pos) :=
  rx ← rx_tbl;
  pt ← rx_pt_get (mp_table c);
  array_get (zchan_rx_pt_bufs pt) (mp_entry c);;
  zb ← zvideo_map_buf vaddr (zchan_rx_bufsz rx);
  match zb with
  | None => mret None
  | Some zb =>
      rx_pt_upd (mp_table c) (fun pt => pt
        <|zchan_rx_pt_bufs ::= <[Z.to_nat (mp_entry c) := zb]>|>
        <|zchan_rx_pt_entry ::= <[Z.to_nat (mp_entry c) := zchan_buf_dma zb]>|>);;
      let entries := u32 (mp_entries c + 1) in
      if tst entries (zchan_rx_pt_mask rx) then mret (Some (MapPos entries (mp_table c) (mp_entry c + 1)))
      else
        (* the next table's members are read, whether it is needed or not *)
        rx_pt_get (mp_table c + 1);;
        mret (Some (MapPos entries (mp_table c + 1) 0))
  end.
(** [n] pages from [vaddr] *)
Fixpoint map_pages (n : nat) (vaddr : Z) (c : map_pos) : M chan_ctx (option map_pos) :=
  match n with
  | O => mret (Some c)
  | S n' =>
      r ← map_page vaddr c;
      match r with
      | None => mret None
      | Some c => map_pages n' (vaddr + ZCHAN_BUF_SIZE) c
      end
  end.

(** the directory, the array of tables, and the tables *)
Definition init_directory (pt_entries pdt_entries : Z) : M chan_ctx bool :=
  let pdt_size := pdt_entries * sizeof_u64 in
  '(pdtp, dma) ← zchan_alloc_consistent pdt_size;
  upd_rx (fun rx => rx<|zchan_rx_pdt_dma := dma|>);;
  if pdtp =? 0 then mret false
  else
    upd_rx (fun rx => rx<|zchan_rx_pt_entries := pt_entries|><|zchan_rx_pdt_num := pdt_entries|>
      <|zchan_rx_pdt_va := pdtp|><|zchan_rx_pdt := replicate (Z.to_nat pdt_entries) 0|>);;
    ptp ← ask (KAlloc (pdt_entries * sizeof_rx_pt));
    if ptp =? 0 then
      zchan_free_consistent pdtp dma pdt_size;;
      mret false
    else
      upd_rx (fun rx => rx<|zchan_rx_ptp_va := ptp|>
        <|zchan_rx_ptp := replicate (Z.to_nat pdt_entries) rx_pt_zero|>
        <|zchan_rx_bufsz := ZCHAN_BUF_SIZE|>);;
      ok ← init_tables (Z.to_nat pdt_entries) 0 pt_entries;
      if negb ok then zvideo_fini_rx;; mret false
      else
        upd_rx (fun rx => rx<|zchan_rx_size := u32 (zchan_rx_pt_entries rx * ZCHAN_BUF_SIZE)|>
          <|zchan_rx_pdt_shift := fls (ZCHAN_RX_PT_ENTRIES * ZCHAN_BUF_SIZE) - 1|>
          <|zchan_rx_pt_shift := fls ZCHAN_BUF_SIZE - 1|>
          <|zchan_rx_pt_mask := ZCHAN_RX_PT_ENTRIES - 1|>
          <|zchan_rx_buf_mask := ZCHAN_BUF_SIZE - 1|>);;
        mret true.
End ring.

Section stream.
Context `{Env} `{ModParams} `{VideoParams}.

(** bind buffer [k] of the list to the next place of the ring, and map it *)
Definition bind_buf (k : Z) (c : map_pos) : M vid_ctx (option map_pos) :=
  rx ← vid_rx;
  s ← stream;
  zbuf ← array_get (buf_list s) k;
  upd_stream (fun s => s<|buf_list ::= alter (fun b => b
    <|vb_offset := u32 (Z.shiftl (mp_entries c) (zchan_rx_pt_shift rx))|>) (Z.to_nat k)|>);;
  let vbufsz := ALIGN (vb_size zbuf) ZCHAN_BUF_SIZE in
  on_vchan (map_pages (Z.to_nat (vbufsz / ZCHAN_BUF_SIZE)) (vb_addr zbuf) c).
Fixpoint bind_bufs (n : nat) (k : Z) (c : map_pos) : M vid_ctx bool :=
  match n with
  | O => mret true
  | S n' =>
      r ← bind_buf k c;
      match r with
      | None => mret false
      | Some c => bind_bufs n' (k + 1) c
      end
  end.

Definition zvideo_init_rx (count : Z) : M vid_ctx Z :=
  v ← cam;
  let pt_entries := u32 (count * CEILING (sizeimage (format v)) ZCHAN_BUF_SIZE) in
  let pdt_entries := u32 (pt_entries + ZCHAN_RX_PT_ENTRIES - 1) / ZCHAN_RX_PT_ENTRIES in
  ok ← on_vchan (init_directory pt_entries pdt_entries);
  if negb ok then mret (-1)
  else
    on_vchan (rx_pt_get 0);;
    s ← stream;
    ok ← bind_bufs (length (buf_list s)) 0 (MapPos 0 0 0);
    if negb ok then on_vchan zvideo_fini_rx;; mret (-1) else mret 0.

(** ** Starting and stopping *)
Definition zvideo_init_params : M vid_ctx unit :=
  upd_stream (fun s => s<|sequence := 0|><|frame_err_cnt := 0|>);;
  upd_cam (fun v => v<|last_exp_time := 0|><|last_meta_cnt := UINT_MAX|>);;
  upd_stream (fun s => s<|last_trig_cnt := 0|><|last_tv_intr := Timeval 0 0|>).

Definition zvideo_start_streaming (count : Z) : M vid_ctx Z :=
  if count <? zynq_video_buf_num then mret (- ENOBUFS)
  else
    upd_stream (fun s => s<|buf_total := count|>);;
    zvideo_init_params;;
    i ← vid_index;
    spin_lock (L_zvideo_r i);;
    spin_lock (L_zvideo_q i);;
    rc ← (if zynq_video_zero_copy then zvideo_init_rx count else mret 0);
    if negb (rc =? 0) then
      spin_unlock (L_zvideo_q i);;
      spin_unlock (L_zvideo_r i);;
      mret (- ENOSR)
    else
      (* start DMA *)
      vid_rx_start;;
      (* configure the video channel *)
      on_cam zvideo_config;;
      upd_cam (fun v => v<|vstate ::= fun x => Z.lor x ZVIDEO_STATE_STREAMING|>);;
      spin_unlock (L_zvideo_q i);;
      spin_unlock (L_zvideo_r i);;
      mret 0.

Definition zvideo_stop_streaming : M vid_ctx unit :=
  i ← vid_index;
  spin_lock (L_zvideo_r i);;
  spin_lock (L_zvideo_q i);;
  upd_cam (fun v => v<|vstate ::= fun x => Z.land x (Z.lnot ZVIDEO_STATE_STREAMING)|>);;
  on_cam zvideo_disable;;
  when zynq_video_zero_copy (
    on_vchan zchan_rx_stop;;
    on_vchan zvideo_fini_rx);;
  spin_unlock (L_zvideo_q i);;
  spin_unlock (L_zvideo_r i);;
  (* release all active buffers *)
  zvideo_return_all_buffers VB2_BUF_STATE_ERROR;;
  (* wait until other pending buffers are returned *)
  tell (KernelCall "vb2_wait_for_all_buffers" []);;
  upd_stream (fun s => s<|buf_total := 0|>).

(** ** Reset of a channel at fault

    While the driver sleeps the locks are free; [others] is what runs then. *)

Section reset.
Context (others : M vid_ctx unit).

(** one look at the buffers: all are back, or give up, or wait 10 ms *)
Definition reset_wait (i retry : Z) : M vid_ctx (Z + bool) :=
  s ← stream;
  if buf_avail s =? buf_total s then mret (inr true)
  else
    when (5 <=? retry) (on_cam zvideo_enable);;
    spin_unlock (L_zvideo_q i);;
    spin_unlock (L_zvideo_r i);;
    if 5 <=? retry then mret (inr false)
    else
      msleep 10;;
      others;;
      spin_lock (L_zvideo_r i);;
      spin_lock (L_zvideo_q i);;
      mret (inl (retry + 1)).

Definition reset_body : M vid_ctx unit :=
  vid_STATS_LOGX VIDEO_STATS_RESET 1 0;;
  upd_cam (fun v => v<|vstate ::= fun x => Z.land x (Z.lnot ZVIDEO_STATE_CHAN_FAULT)|>);;
  v ← cam;
  when (tst (vstate v) ZVIDEO_STATE_CAM_FAULT) (
    on_cam zvideo_cam_reset;;
    upd_cam (fun v => v<|vstate ::= fun x => Z.land x (Z.lnot ZVIDEO_STATE_CAM_FAULT)|>));;
  v ← cam;
  when (streaming v) (
    vid_rx_start;;
    on_cam zvideo_config;;
    on_cam zvideo_enable).

Definition zvideo_reset : M vid_ctx unit :=
  i ← vid_index;
  spin_lock (L_zvideo_r i);;
  spin_lock (L_zvideo_q i);;
  v ← cam;
  ready ← (if streaming v then
             on_cam zvideo_disable;;
             if zynq_video_zero_copy then loop 7 (reset_wait i) 0 else mret true
           else mret true);
  if negb (ready : bool) then mret tt
  else
    reset_body;;
    spin_unlock (L_zvideo_q i);;
    spin_unlock (L_zvideo_r i).
End reset.

(** ** The trigger of one camera *)
Definition zvideo_trigger_fps (fps_ : Z) : Z :=
  if (fps_ =? 0) || (ZYNQ_FPD_FPS_MAX <? fps_) then ZYNQ_FPD_FPS_DEFAULT else fps_.
Definition zvideo_trigger_enable (fps_ internal : Z) : M vid_ctx unit :=
  let fps_ := zvideo_trigger_fps fps_ in
  rlocked (
    v ← cam;
    (* 1. disable the individual trigger *)
    val ← zvideo_reg_read v ZYNQ_CAM_CONFIG;
    zvideo_reg_write v ZYNQ_CAM_CONFIG (Z.land val (Z.lnot ZYNQ_CAM_EN));;
    (* 2. set FPS *)
    val ← zvideo_reg_read v ZYNQ_CAM_TRIGGER;
    zvideo_reg_write v ZYNQ_CAM_TRIGGER (SET_BITS ZYNQ_CAM_TRIG_FPS val fps_);;
    (* 3. enable the individual trigger *)
    val ← zvideo_reg_read v ZYNQ_CAM_CONFIG;
    zvideo_reg_write v ZYNQ_CAM_CONFIG (Z.lor val ZYNQ_CAM_EN);;
    (* 4. enable the global trigger *)
    spin_lock L_zdev;;
    val ← zynq_g_reg_read ZYNQ_G_CONFIG;
    let val := Z.lor (Z.land val (Z.lnot ZYNQ_CONFIG_TRIGGER_MASK)) ZYNQ_CONFIG_TRIGGER in
    let val := if negb (internal =? 0) then Z.lor val ZYNQ_CONFIG_GPS_SW else val in
    zynq_g_reg_write ZYNQ_G_CONFIG val;;
    spin_unlock L_zdev;;
    upd_cam (fun v => v<|fps := fps_|><|frame_interval := USEC_PER_SEC / fps_|>
      <|frame_usec_max := u32 (USEC_PER_SEC / fps_ * fps_)|>)).

Definition zvideo_trigger_disable : M vid_ctx unit :=
  rlocked (
    on_cam zvideo_disable;;
    upd_cam (fun v => v<|fps := 0|><|frame_interval := 0|><|frame_usec_max := 0|>)).

Definition zvideo_trigger_delay_set (trigger_delay : Z) : M vid_ctx unit :=
  rlocked (
    v ← cam;
    val ← zvideo_reg_read v ZYNQ_CAM_TRIGGER;
    zvideo_reg_write v ZYNQ_CAM_TRIGGER (SET_BITS ZYNQ_CAM_TRIG_DELAY val trigger_delay));;
  upd_cam (fun v => v<|last_trig_delay := trigger_delay|>).

(** the delay and the exposure time *)
Definition zvideo_trigger_delay_get : M vid_ctx (Z * Z) :=
  val ← rlocked (v ← cam; zvideo_reg_read v ZYNQ_CAM_TRIGGER);
  v ← cam;
  mret (GET_BITS ZYNQ_CAM_TRIG_DELAY val, last_exp_time v).
End stream.

(** ** Shape of the tables *)

(** a table the set-up can undo: not there, or with its array *)
Definition sane (pt : zchan_rx_pt) : Prop :=
  zchan_rx_pt_va pt = 0 \/ length (zchan_rx_pt_bufs pt) = Z.to_nat (zchan_rx_pt_buf_num pt).
(** table [j] of [n] entries in all *)
Definition room (n : Z) (j : nat) : Z := Z.min (n - ZCHAN_RX_PT_ENTRIES * Z.of_nat j) ZCHAN_RX_PT_ENTRIES.
Definition full (n : Z) (j : nat) (pt : zchan_rx_pt) : Prop :=
  length (zchan_rx_pt_bufs pt) = Z.to_nat (room n j) /\ zchan_rx_pt_buf_num pt = room n j /\
  length (zchan_rx_pt_entry pt) = Z.to_nat ZCHAN_RX_PT_ENTRIES.
(** tables that differ in the entries' contents only *)
Definition alike (p p' : zchan_rx_pt) : Prop :=
  zchan_rx_pt_va p' = zchan_rx_pt_va p /\ zchan_rx_pt_buf_num p' = zchan_rx_pt_buf_num p /\
  length (zchan_rx_pt_bufs p') = length (zchan_rx_pt_bufs p) /\
  zchan_rx_pt_dma p' = zchan_rx_pt_dma p /\ length (zchan_rx_pt_entry p') = length (zchan_rx_pt_entry p).

Lemma alike_refl p : alike p p.
Proof. done. Qed.
Lemma alike_trans p1 p2 p3 : alike p1 p2 -> alike p2 p3 -> alike p1 p3.
Proof. unfold alike. intuition congruence. Qed.
#[global] Instance alike_preorder : PreOrder alike.
Proof. split; [exact alike_refl | exact alike_trans]. Qed.

Lemma alike_sane p p' : alike p p' -> sane p -> sane p'.
Proof. unfold alike, sane. intros (-> & -> & -> & _). done. Qed.
Lemma alike_full n j p p' : alike p p' -> full n j p -> full n j p'.
Proof. unfold alike, full. intros (_ & -> & -> & _ & ->). done. Qed.

Lemma alike_insert (ps : list zchan_rx_pt) i p p' :
  ps !! i = Some p -> alike p p' -> Forall2 alike ps (<[i := p']> ps).
Proof.
  intros Hi Ha. apply Forall2_same_length_lookup_2; [by rewrite length_insert |].
  intros j x y Hx Hy. destruct (decide (i = j)) as [<-|Hne].
  - rewrite list_lookup_insert_eq in Hy by (by eapply lookup_lt_Some). congruence.
  - rewrite list_lookup_insert_ne in Hy by done. replace y with x by congruence. apply alike_refl.
Qed.

(** the directory as the device reads it *)
Definition pdt_of (s : chan_ctx) : list Z := zchan_rx_pdt (ctx_rx s).

Section shape_rules.
Context `{Env} `{ModParams}.
Implicit Types w : world chan_ctx.

(** [w'] follows [w]; of the channel only tables and directory changed *)
Definition tables_only w w' : Prop := w_held w' = w_held w /\ but_ptp (w_st w) (w_st w').

Lemma tables_refl w : tables_only w w.
Proof. by split. Qed.
Lemma tables_trans w1 w2 w3 : tables_only w1 w2 -> tables_only w2 w3 -> tables_only w1 w3.
Proof. intros [Hh Hb] [Hh' Hb']. split; [congruence | by etransitivity]. Qed.

Lemma wp_upd_table i pt f w (Q : unit -> world chan_ctx -> Prop) :
  ptp_of (w_st w) !! i = Some pt ->
  (forall w', tables_only w w' -> ptp_of (w_st w') = <[i := f pt]> (ptp_of (w_st w)) ->
     pdt_of (w_st w') = pdt_of (w_st w) -> Q tt w') ->
  wp (rx_pt_upd (Z.of_nat i) f) Q w.
Proof.
  intros Hpt HQ. apply (wp_rx_pt_upd i pt); [done |]. apply HQ; [split; [done |] | done | done]. by eexists _, _.
Qed.

Lemma wp_upd_pdt f w (Q : unit -> world chan_ctx -> Prop) :
  (forall w', tables_only w w' -> ptp_of (w_st w') = ptp_of (w_st w) ->
     pdt_of (w_st w') = f (pdt_of (w_st w)) -> Q tt w') ->
  wp (upd_rx (fun rx => rx<|zchan_rx_pdt ::= f|>)) Q w.
Proof.
  intros HQ. unfold upd_rx, upd_zchan. apply wp_modify, HQ; [split; [done |] | done | done].
  exists (ptp_of (w_st w)), (f (zchan_rx_pdt (ctx_rx (w_st w)))).
  by destruct w as [? ? [? [? ? ? ? [] ? ? ? ? ?]]].
Qed.

(** calls that touch nothing of the state *)
Lemma wp_alloc_any sz w (Q : Z * Z -> world chan_ctx -> Prop) :
  (forall p dma w', w_st w' = w_st w -> w_held w' = w_held w -> Q (p, dma) w') ->
  wp (zchan_alloc_consistent sz) Q w.
Proof.
  intros HQ. unfold zchan_alloc_consistent. apply wp_bind, wp_ask. intros p _.
  destruct (p =? 0); [by apply wp_ret, HQ |]. apply wp_bind, wp_ask. intros dma _. by apply wp_ret, HQ.
Qed.

Lemma tables_same w w1 w2 : tables_only w w1 -> w_st w2 = w_st w1 -> w_held w2 = w_held w1 -> tables_only w w2.
Proof. intros [Hh Hb] Hs Hh2. split; [congruence | by rewrite Hs]. Qed.

(** lists that agree up to some place *)
Lemma take_prefix {A} (i k : nat) (l l' : list A) : (i <= k)%nat -> take k l = take k l' -> take i l = take i l'.
Proof using Type. intros Hi E. apply (f_equal (take i)) in E. by rewrite !take_take, !Nat.min_l in E by lia. Qed.
Lemma take_lookup {A} (i k : nat) (l l' : list A) : (i < k)%nat -> take k l = take k l' -> l !! i = l' !! i.
Proof using Type. intros Hi E. apply (f_equal (fun x => x !! i)) in E. by rewrite !lookup_take_lt in E by lia. Qed.

(** *** Allocation of the tables *)
Lemma wp_init_table n i w (Q : option Z -> world chan_ctx -> Prop) :
  let todo := n - ZCHAN_RX_PT_ENTRIES * Z.of_nat i in
  ptp_of (w_st w) !! i = Some rx_pt_zero -> length (pdt_of (w_st w)) = length (ptp_of (w_st w)) ->
  (forall w' p r, tables_only w w' -> ptp_of (w_st w') = <[i := p]> (ptp_of (w_st w)) -> sane p ->
     (forall l, r = Some l -> l = todo - room n i /\ full n i p /\
        pdt_of (w_st w') = <[i := zchan_rx_pt_dma p]> (pdt_of (w_st w))) -> Q r w') ->
  wp (init_table (Z.of_nat i) todo) Q w.
Proof.
  intros todo Hpt Hlp HQ. unfold init_table. pose proof (lookup_lt_Some _ _ _ Hpt) as Hi.
  apply wp_bind, wp_alloc_any. intros va dma w1 Hs1 Hh1.
  assert (tables_only w w1) as T1 by (eapply tables_same; [apply tables_refl | done | done]).
  apply wp_bind, (wp_upd_table i rx_pt_zero); [by rewrite Hs1 |]. intros w2 T2 P2 D2. rewrite Hs1 in P2, D2.
  pose proof (tables_trans _ _ _ T1 T2) as T12. clear T1 T2.
  destruct (Z.eqb_spec va 0) as [->|Hva].
  { apply wp_ret. eapply HQ; [done | exact P2 | by left | done]. }
  apply wp_bind. eapply (wp_upd_table i); [rewrite P2; by apply list_lookup_insert_eq |].
  intros w3 T3 P3 D3. rewrite P2, list_insert_insert_eq in P3. rewrite D2 in D3.
  pose proof (tables_trans _ _ _ T12 T3) as T13. clear T12 T3.
  apply wp_bind, wp_upd_pdt. intros w4 T4 P4 D4. rewrite P3 in P4. rewrite D3, Nat2Z.id in D4.
  pose proof (tables_trans _ _ _ T13 T4) as T14. clear T13 T4. cbv zeta.
  apply wp_bind, wp_ask. intros bufp _.
  assert (tables_only w (emit (Ev (KAlloc (Z.min todo ZCHAN_RX_PT_ENTRIES * sizeof_buf)) bufp) w4)) as T5
    by (by eapply tables_same).
  destruct (bufp =? 0).
  - apply wp_bind, wp_tell, wp_bind. eapply (wp_upd_table i); [cbn; rewrite P4; by apply list_lookup_insert_eq |].
    cbn [emit w_st]. intros w6 T6 P6 _. rewrite P4, list_insert_insert_eq in P6. apply wp_ret.
    eapply HQ; [| exact P6 | by left | done].
    eapply tables_trans; [| exact T6]. by eapply tables_same.
  - apply wp_bind. eapply (wp_upd_table i); [cbn; rewrite P4; by apply list_lookup_insert_eq |].
    cbn [emit w_st]. intros w6 T6 P6 D6. rewrite P4, list_insert_insert_eq in P6. rewrite D4 in D6. apply wp_ret.
    fold (room n i) in P6. fold todo in P6.
    assert (forall x, length (replicate (Z.to_nat (room n i)) x) = Z.to_nat (room n i)) as Hlen
      by (intros x; apply (length_replicate _ (x : zchan_buf))).
    eapply HQ; [by eapply tables_trans | exact P6 | right; apply Hlen |].
    intros l [= <-]. split; [done |]. split; [| exact D6].
    split; [apply Hlen |]. split; [done | apply (length_replicate _ (0 : Z))].
Qed.

(** every table, from the [i]-th on, has its place in the directory *)
Definition listed (i : nat) (s : chan_ctx) : Prop :=
  forall j p, (i <= j)%nat -> ptp_of s !! j = Some p -> pdt_of s !! j = Some (zchan_rx_pt_dma p).

Lemma wp_init_tables n m i todo w (Q : bool -> world chan_ctx -> Prop) :
  let ps := ptp_of (w_st w) in
  todo = n - ZCHAN_RX_PT_ENTRIES * Z.of_nat i \/ m = 0%nat ->
  (m = 0%nat \/ ZCHAN_RX_PT_ENTRIES * Z.of_nat (i + m - 1) <= n) ->
  (i + m = length ps)%nat -> length (pdt_of (w_st w)) = length ps -> Forall sane ps ->
  (forall j, (i <= j < i + m)%nat -> ps !! j = Some rx_pt_zero) ->
  (forall w' ok, tables_only w w' -> Forall sane (ptp_of (w_st w')) ->
     length (ptp_of (w_st w')) = length ps -> take i (ptp_of (w_st w')) = take i ps ->
     (ok = true -> take i (pdt_of (w_st w')) = take i (pdt_of (w_st w)) /\ listed i (w_st w') /\
        forall j p, (i <= j)%nat -> ptp_of (w_st w') !! j = Some p -> full n j p) -> Q ok w') ->
  wp (init_tables m (Z.of_nat i) todo) Q w.
Proof.
  revert i todo w Q. induction m as [|m IH]; intros i todo w Q ps Ht Hn Hlen Hdir Hsane Hz HQ; cbn [init_tables].
  - apply wp_ret. apply HQ; [apply tables_refl | done | done | done |].
    intros _. split; [done |]. split; intros j p Hj Hp; apply lookup_lt_Some in Hp; fold ps in Hp; lia.
  - destruct Ht as [-> | Ht]; [| done].
    apply wp_bind, wp_init_table; [apply Hz; lia | done |]. intros w1 p r T1 P1 Hp Hr. fold ps in P1.
    assert (Forall sane (ptp_of (w_st w1))) as Hs1 by (rewrite P1; by apply Forall_insert).
    assert (length (ptp_of (w_st w1)) = length ps) as L1 by (by rewrite P1, length_insert).
    destruct r as [l|].
    + destruct (Hr l eq_refl) as (-> & Hf & D1). replace (Z.of_nat i + 1) with (Z.of_nat (S i)) by lia.
      apply IH; [| | lia | by rewrite D1, length_insert, Hdir | done | |].
      * destruct m as [|m]; [by right | left]. destruct Hn as [|Hn]; [done |].
        unfold room. change ZCHAN_RX_PT_ENTRIES with 512 in *. lia.
      * destruct m as [|m]; [by left | right]. destruct Hn as [|Hn]; [done |].
        by replace (S i + S m - 1)%nat with (i + S (S m) - 1)%nat by lia.
      * intros j Hj. rewrite P1, list_lookup_insert_ne by lia. apply Hz. lia.
      * intros w2 ok T2 Hs2 L2 K2 F2. apply HQ; [by eapply tables_trans | done | congruence | |].
        { rewrite <- (take_insert_ge ps i i p), <- P1 by lia. by apply (take_prefix i (S i)); [lia |]. }
        intros Hok. destruct (F2 Hok) as (E2 & Hdir2 & F).
        assert (ptp_of (w_st w2) !! i = Some p) as Hi2.
        { rewrite (take_lookup i (S i) _ _ ltac:(lia) K2), P1. apply list_lookup_insert_eq. lia. }
        split; [rewrite <- (take_insert_ge (pdt_of (w_st w)) i i (zchan_rx_pt_dma p)), <- D1 by lia;
          by apply (take_prefix i (S i)); [lia |] |].
        split; intros j q Hj Hq; destruct (decide (i = j)) as [<-|Hne].
        { rewrite (take_lookup i (S i) _ _ ltac:(lia) E2), D1. replace q with p by congruence.
          apply list_lookup_insert_eq. lia. }
        { by apply Hdir2; [lia |]. }
        { by replace q with p by congruence. }
        { by apply F; [lia |]. }
    + apply wp_ret, HQ; [done | done | done | | done]. rewrite P1. by apply take_insert_ge.
Qed.

(** *** Release of the tables *)

(** contents of tables changed, their shape did not *)
Definition reshaped w w' : Prop :=
  tables_only w w' /\ Forall2 alike (ptp_of (w_st w)) (ptp_of (w_st w')) /\ pdt_of (w_st w') = pdt_of (w_st w).

Lemma reshaped_refl w : reshaped w w.
Proof. split; [apply tables_refl | by split]. Qed.
Lemma reshaped_trans w1 w2 w3 : reshaped w1 w2 -> reshaped w2 w3 -> reshaped w1 w3.
Proof.
  intros (T & P & D) (T' & P' & D'). split; [by eapply tables_trans |]. split; [by etransitivity | congruence].
Qed.
Lemma reshaped_same w w1 w2 : reshaped w w1 -> w_st w2 = w_st w1 -> w_held w2 = w_held w1 -> reshaped w w2.
Proof. intros (T & P & D) Hs Hh. split; [by eapply tables_same | by rewrite Hs]. Qed.
Lemma reshaped_lookup w w' i p : reshaped w w' -> ptp_of (w_st w) !! i = Some p ->
  exists p', ptp_of (w_st w') !! i = Some p' /\ alike p p'.
Proof. intros (_ & P & _) Hp. by eapply Forall2_lookup_l in P. Qed.

Lemma wp_unmap bufsz i j p w (Q : unit -> world chan_ctx -> Prop) :
  ptp_of (w_st w) !! i = Some p -> (j < length (zchan_rx_pt_bufs p))%nat ->
  (forall w', reshaped w w' -> Q tt w') -> wp (zvideo_unmap_buf bufsz (Z.of_nat i) (Z.of_nat j)) Q w.
Proof.
  intros Hp Hj HQ. unfold zvideo_unmap_buf. apply wp_bind, (wp_rx_pt_get i p); [done |].
  destruct (lookup_lt_is_Some_2 _ _ Hj) as [zb Hzb]. apply wp_bind, wp_array_get. exists zb.
  split; [by rewrite zlookup_nonneg, Nat2Z.id by lia |].
  apply wp_when; intros _; [| apply HQ, reshaped_refl].
  apply wp_bind, wp_tell. eapply (wp_upd_table i); [exact Hp |]. cbn [emit w_st].
  intros w' T P D. apply HQ. split; [exact T |]. split; [| exact D]. rewrite P. eapply alike_insert; [exact Hp |].
  split; [done |]. split; [done |]. split; [apply length_insert | done].
Qed.

Lemma wp_fini_table bufsz i p w (Q : unit -> world chan_ctx -> Prop) :
  ptp_of (w_st w) !! i = Some p -> sane p -> (forall w', reshaped w w' -> Q tt w') ->
  wp (fini_table bufsz (Z.of_nat i)) Q w.
Proof.
  intros Hp Hs HQ. unfold fini_table. apply wp_bind, (wp_rx_pt_get i p); [done |].
  destruct (Z.eqb_spec (zchan_rx_pt_va p) 0); [apply wp_ret, HQ, reshaped_refl |].
  destruct Hs as [|Hs]; [done |]. apply wp_bind.
  apply (wp_for (fun k v => reshaped w v)); [apply reshaped_refl | |].
  - intros k v Hk Hr. destruct (reshaped_lookup _ _ _ _ Hr Hp) as (p' & Hp' & Ha).
    replace k with (Z.of_nat (Z.to_nat k)) by lia. eapply wp_unmap; [exact Hp' | |].
    { destruct Ha as (_ & _ & -> & _). lia. }
    intros v' Hr'. by eapply reshaped_trans.
  - intros v Hr. destruct (reshaped_lookup _ _ _ _ Hr Hp) as (p' & Hp' & _).
    unfold rx_pt_free. apply wp_bind, (wp_rx_pt_get i p'); [done |].
    apply wp_bind, wp_tell, wp_tell, HQ. by eapply reshaped_same.
Qed.

(** of the channel, only the receive ring changed *)
Definition ring_only w w' : Prop :=
  w_held w' = w_held w /\ exists t, w_st w' = (w_st w)<|ch_zchan ::= fun c => c<|zchan_rx_tbl_of := t|>|>.

Lemma ring_only_trans w1 w2 w3 : ring_only w1 w2 -> ring_only w2 w3 -> ring_only w1 w3.
Proof. intros [Hh (t & Ht)] [Hh' (t' & Ht')]. split; [congruence |]. exists t'. by rewrite Ht', Ht. Qed.
Lemma tables_ring w w' : tables_only w w' -> ring_only w w'.
Proof.
  intros [Hh (ps & pds & Hs)]. split; [done |].
  exists ((ctx_rx (w_st w))<|zchan_rx_ptp := ps|><|zchan_rx_pdt := pds|>). exact Hs.
Qed.

Lemma wp_fini_rx w (Q : unit -> world chan_ctx -> Prop) :
  Forall sane (ptp_of (w_st w)) -> length (ptp_of (w_st w)) = Z.to_nat (zchan_rx_pdt_num (ctx_rx (w_st w))) ->
  (forall w', ring_only w w' -> Q tt w') -> wp zvideo_fini_rx Q w.
Proof.
  intros Hs Hl HQ. unfold zvideo_fini_rx, rx_tbl. apply wp_bind, wp_gets. fold (ctx_rx (w_st w)).
  apply wp_bind, (wp_for (fun k v => reshaped w v)); [apply reshaped_refl | |].
  - intros k v Hk Hr. destruct (lookup_lt_is_Some_2 (ptp_of (w_st w)) (Z.to_nat k)) as [p Hp]; [lia |].
    destruct (reshaped_lookup _ _ _ _ Hr Hp) as (p' & Hp' & Ha).
    replace k with (Z.of_nat (Z.to_nat k)) by lia. eapply wp_fini_table; [exact Hp' | |].
    { eapply alike_sane; [exact Ha |]. by eapply Forall_lookup_1 in Hs. }
    intros v' Hr'. by eapply reshaped_trans.
  - intros v (T & _ & _). unfold upd_rx, upd_zchan. apply wp_bind, wp_tell, wp_bind, wp_modify.
    apply wp_bind, wp_tell, wp_modify, HQ. apply tables_ring in T.
    destruct T as [Hh (t & Ht)]. split; [exact Hh |]. cbn [emit w_st]. rewrite Ht. by eexists.
Qed.

(** *** Mapping the pages *)

(** the tables for [n] pages, as many as needed *)
Record covers (n : Z) (s : chan_ctx) : Prop := Covers {
  cv_full : forall j p, ptp_of s !! j = Some p -> full n j p;
  cv_len : Z.of_nat (length (ptp_of s)) = (n + 511) / 512;
  cv_mask : zchan_rx_pt_mask (ctx_rx s) = 511;
  cv_dir : listed 0 s;
  cv_rest : 0 < n < 2 ^ 31 /\ n mod 512 <> 0
}.
Definition page_pos (k : Z) : map_pos := MapPos k (k / 512) (k mod 512).

Lemma covers_reshaped n w w' : reshaped w w' -> covers n (w_st w) -> covers n (w_st w').
Proof.
  intros ([_ (ps & pds & Hs)] & P & D) [Hf Hl Hm Hd Hr]. constructor; [| | by rewrite Hs | | done].
  - intros j p' Hp'. destruct (Forall2_lookup_r _ _ _ _ _ P Hp') as (p & Hp & Ha).
    eapply alike_full; [exact Ha |]. by apply Hf.
  - by rewrite <- (Forall2_length _ _ _ P).
  - intros j p' Hj Hp'. destruct (Forall2_lookup_r _ _ _ _ _ P Hp') as (p & Hp & _ & _ & _ & -> & _).
    rewrite D. by apply Hd.
Qed.

(** page [k] has its place in the tables *)
Lemma covers_table n s k : covers n s -> 0 <= k < n ->
  exists p, ptp_of s !! Z.to_nat (k / 512) = Some p /\
    zchan_rx_pt_buf_num p = room n (Z.to_nat (k / 512)) /\
    0 <= k mod 512 < Z.of_nat (length (zchan_rx_pt_bufs p)).
Proof.
  intros [Hf Hl _ _ _] Hk. pose proof (Z.div_mod k 512 ltac:(lia)). pose proof (Z.mod_pos_bound k 512 ltac:(lia)).
  pose proof (Z.div_pos k 512 ltac:(lia) ltac:(lia)).
  assert (k / 512 < (n + 511) / 512).
  { pose proof (Z.div_mod (n + 511) 512 ltac:(lia)). pose proof (Z.mod_pos_bound (n + 511) 512 ltac:(lia)). lia. }
  destruct (lookup_lt_is_Some_2 (ptp_of s) (Z.to_nat (k / 512))) as [p Hp]; [lia |].
  exists p. split; [done |]. destruct (Hf _ _ Hp) as (Hlen & Hnum & _). split; [done |].
  rewrite Hlen. unfold room. change ZCHAN_RX_PT_ENTRIES with 512. lia.
Qed.

(** a page of memory at [vaddr], and the address the kernel maps it to *)
Definition page_buf (vaddr : Z) (zb : zchan_buf) : Prop :=
  zchan_bufp zb = vaddr /\ (exists l, zchan_buf_page zb = env_ret l (KernelCall "vmalloc_to_page" [vaddr])) /\
  (exists l, zchan_buf_dma zb = u64 (env_ret l (DmaMap (zchan_buf_page zb) ZCHAN_BUF_SIZE)) /\
     env_ret (Ev (DmaMap (zchan_buf_page zb) ZCHAN_BUF_SIZE)
       (env_ret l (DmaMap (zchan_buf_page zb) ZCHAN_BUF_SIZE)) :: l) (DmaMapError (zchan_buf_dma zb)) = 0) /\
  Z.land (zchan_buf_dma zb) (ZCHAN_BUF_SIZE - 1) = 0.
(** page [k] of the ring is the page at [vaddr], for the driver and for the
    device: the directory has the table's address, the table the page's *)
Definition ring_page (rx : zchan_rx_tbl) (k vaddr : Z) : Prop :=
  exists pt zb, zchan_rx_ptp rx !! Z.to_nat (k / 512) = Some pt /\
    zchan_rx_pdt rx !! Z.to_nat (k / 512) = Some (zchan_rx_pt_dma pt) /\
    zchan_rx_pt_bufs pt !! Z.to_nat (k mod 512) = Some zb /\
    zchan_rx_pt_entry pt !! Z.to_nat (k mod 512) = Some (zchan_buf_dma zb) /\ page_buf vaddr zb.
(** the other pages are left alone *)
Definition pages_kept (lo hi : Z) (s s' : chan_ctx) : Prop :=
  forall k vaddr, 0 <= k -> ~ lo <= k < hi -> ring_page (ctx_rx s) k vaddr -> ring_page (ctx_rx s') k vaddr.

Lemma wp_map_buf vaddr w (Q : option zchan_buf -> world chan_ctx -> Prop) :
  (forall r w', w_st w' = w_st w -> w_held w' = w_held w -> (forall zb, r = Some zb -> page_buf vaddr zb) -> Q r w') ->
  wp (zvideo_map_buf vaddr ZCHAN_BUF_SIZE) Q w.
Proof.
  intros HQ. unfold zvideo_map_buf. apply wp_bind, wp_ask. intros vm _.
  destruct (vm =? 0); [by apply wp_ret, HQ |]. apply wp_bind, wp_ask. intros pg Hpg.
  apply wp_bind, wp_ask. intros dma Hdma. cbv zeta. apply wp_bind, wp_ask. intros err Herr.
  destruct (Z.eqb_spec err 0) as [He|]; cbn [negb]; [| by apply wp_ret, HQ].
  destruct (Z.eqb_spec (Z.land (u64 dma) (ZCHAN_BUF_SIZE - 1)) 0) as [Ha|]; cbn [negb]; [| by apply wp_bind, wp_tell, wp_ret, HQ].
  apply wp_ret, HQ; [done | done |]. intros zb [= <-]. split; [done |]. split; [by eexists |]. split; [| exact Ha].
  eexists. cbn [zchan_buf_page zchan_buf_dma]. rewrite <- Hdma. split; [reflexivity |].
  rewrite He in Herr. symmetry. exact Herr.
Qed.

(** the entry of page [k] filled in *)
Lemma page_filled k p zb vaddr s s' :
  0 <= k -> ptp_of s !! Z.to_nat (k / 512) = Some p -> listed 0 s ->
  (Z.to_nat (k mod 512) < length (zchan_rx_pt_bufs p))%nat -> length (zchan_rx_pt_entry p) = 512%nat ->
  page_buf vaddr zb -> pdt_of s' = pdt_of s ->
  ptp_of s' = <[Z.to_nat (k / 512) := p<|zchan_rx_pt_bufs ::= <[Z.to_nat (k mod 512) := zb]>|>
    <|zchan_rx_pt_entry ::= <[Z.to_nat (k mod 512) := zchan_buf_dma zb]>|>]> (ptp_of s) ->
  ring_page (ctx_rx s') k vaddr /\ pages_kept k (k + 1) s s'.
Proof.
  unfold ptp_of, pdt_of. intros Hk Hp Hdir Hb Hes Hpage Hpdt Hptp. pose proof (lookup_lt_Some _ _ _ Hp) as Hlt.
  pose proof (Z.mod_pos_bound k 512 ltac:(lia)) as Hmod. split.
  - eexists _, zb. rewrite Hptp, Hpdt. split; [by apply list_lookup_insert_eq |].
    split; [exact (Hdir _ _ ltac:(lia) Hp) |]. cbn.
    split; [by apply list_lookup_insert_eq |]. split; [apply list_lookup_insert_eq; lia | done].
  - intros k' va Hk' Hne (pt & b & Hpt & Hd & Hbs & He & Hpb). rewrite <- Hpdt in Hd.
    destruct (decide (Z.to_nat (k / 512) = Z.to_nat (k' / 512))) as [E|E].
    + assert (pt = p) as -> by congruence.
      pose proof (Z.div_pos k 512 ltac:(lia) ltac:(lia)). pose proof (Z.div_pos k' 512 ltac:(lia) ltac:(lia)).
      pose proof (Z.div_mod k 512 ltac:(lia)). pose proof (Z.div_mod k' 512 ltac:(lia)).
      pose proof (Z.mod_pos_bound k' 512 ltac:(lia)).
      eexists _, b. rewrite Hptp, <- E. split; [by apply list_lookup_insert_eq |]. rewrite E.
      split; [exact Hd |]. cbn. rewrite !list_lookup_insert_ne by lia. done.
    + exists pt, b. rewrite Hptp, list_lookup_insert_ne by done. done.
Qed.

Lemma wp_map_page n k vaddr w (Q : option map_pos -> world chan_ctx -> Prop) :
  covers n (w_st w) -> zchan_rx_bufsz (ctx_rx (w_st w)) = ZCHAN_BUF_SIZE -> 0 <= k < n ->
  (forall r w', reshaped w w' ->
     r = None \/ r = Some (page_pos (k + 1)) /\ ring_page (ctx_rx (w_st w')) k vaddr /\
       pages_kept k (k + 1) (w_st w) (w_st w') -> Q r w') ->
  wp (map_page vaddr (page_pos k)) Q w.
Proof.
  intros Hc Hbsz Hk HQ. pose proof Hc as [Hfull _ Hm Hdir (Hn & Hrest)].
  destruct (covers_table _ _ _ Hc Hk) as (p & Hp & _ & Hj). destruct (Hfull _ _ Hp) as (_ & _ & Hes).
  pose proof (Z.div_mod k 512 ltac:(lia)). pose proof (Z.div_pos k 512 ltac:(lia) ltac:(lia)).
  pose proof (Z.mod_pos_bound k 512 ltac:(lia)).
  unfold map_page, rx_tbl. cbn [page_pos mp_table mp_entry mp_entries].
  apply wp_bind, wp_gets. fold (ctx_rx (w_st w)). rewrite Hbsz.
  rewrite <- (Z2Nat.id (k / 512)) by done.
  apply wp_bind, (wp_rx_pt_get _ p); [done |].
  destruct (zlookup_Some (zchan_rx_pt_bufs p) (k mod 512) Hj) as [zb0 Hzb0].
  apply wp_bind, wp_array_get. exists zb0. split; [done |].
  apply wp_bind, wp_map_buf. intros [zb|] w1 Hs1 Hh1 Hpage;
    [| apply wp_ret, HQ; [eapply reshaped_same; [apply reshaped_refl | done | done] | by left]].
  specialize (Hpage zb eq_refl).
  apply wp_bind. eapply (wp_upd_table _ p); [by rewrite Hs1 |]. intros w2 T2 P2 D2. rewrite Hs1 in P2, D2.
  destruct (page_filled k p zb vaddr (w_st w) (w_st w2)) as [Hpg Hkept]; try done; [lia | lia |].
  assert (reshaped w w2) as R2.
  { split; [eapply tables_trans; [| exact T2]; eapply tables_same; [apply tables_refl | done | done] |].
    split; [| exact D2]. rewrite P2. eapply alike_insert; [exact Hp |]. unfold alike. cbn.
    by rewrite !length_insert. }
  cbv zeta. rewrite Hm, u32_small by lia.
  assert (tst (k + 1) 511 = negb ((k + 1) mod 512 =? 0)) as ->.
  { unfold tst. change 511 with (Z.ones 9). by rewrite Z.land_ones by lia. }
  pose proof (Z.div_mod (k + 1) 512 ltac:(lia)). pose proof (Z.mod_pos_bound (k + 1) 512 ltac:(lia)).
  destruct (Z.eqb_spec ((k + 1) mod 512) 0) as [E|E]; cbn [negb].
  - assert (k + 1 <> n) by (intros <-; done).
    destruct (covers_table n (w_st w2) (k + 1)) as (q & Hq & _ & _);
      [by eapply covers_reshaped | lia |].
    replace (Z.of_nat (Z.to_nat (k / 512)) + 1) with (Z.of_nat (Z.to_nat ((k + 1) / 512))) by lia.
    apply wp_bind, (wp_rx_pt_get _ q); [done |].
    apply wp_ret, HQ; [done | right]. split; [unfold page_pos; do 2 f_equal; lia | by split].
  - apply wp_ret, HQ; [done | right]. split; [unfold page_pos; do 2 f_equal; lia | by split].
Qed.

(** [m] pages from [vaddr] on are the ring's from page [k] on *)
Definition ring_pages (s : chan_ctx) (k : Z) (m : nat) (vaddr : Z) : Prop :=
  forall j, 0 <= j < Z.of_nat m -> ring_page (ctx_rx s) (k + j) (vaddr + ZCHAN_BUF_SIZE * j).

Lemma wp_map_pages n m k vaddr w (Q : option map_pos -> world chan_ctx -> Prop) :
  covers n (w_st w) -> zchan_rx_bufsz (ctx_rx (w_st w)) = ZCHAN_BUF_SIZE -> 0 <= k -> k + Z.of_nat m <= n ->
  (forall r w', reshaped w w' ->
     r = None \/ r = Some (page_pos (k + Z.of_nat m)) /\ ring_pages (w_st w') k m vaddr /\
       pages_kept k (k + Z.of_nat m) (w_st w) (w_st w') -> Q r w') ->
  wp (map_pages m vaddr (page_pos k)) Q w.
Proof.
  revert k vaddr w. induction m as [|m IH]; intros k vaddr w Hc Hb Hk Hm HQ; cbn [map_pages].
  - apply wp_ret, HQ; [apply reshaped_refl |]. right. rewrite Z.add_0_r. split; [done |].
    split; [intros j Hj; lia | by intros k' va _ _].
  - apply wp_bind, (wp_map_page n); [done | done | lia |]. intros r w1 R1 [-> | (-> & Hp1 & K1)].
    + apply wp_ret, HQ; [done | by left].
    + pose proof R1 as ([_ (ps & pds & Hs1)] & _).
      apply IH; [by eapply covers_reshaped | by rewrite Hs1 | lia | lia |]. intros r w2 R2 Hr.
      apply HQ; [by eapply reshaped_trans |]. destruct Hr as [-> | (-> & Hps & K2)]; [by left | right].
      split; [by replace (k + Z.of_nat (S m)) with (k + 1 + Z.of_nat m) by lia |]. split.
      * intros j Hj. destruct (decide (j = 0)) as [->|Hj0].
        { rewrite Z.mul_0_r, !Z.add_0_r. apply K2; [lia | lia | done]. }
        specialize (Hps (j - 1) ltac:(lia)). change ZCHAN_BUF_SIZE with 4096 in *.
        replace (k + j) with (k + 1 + (j - 1)) by lia.
        replace (vaddr + 4096 * j) with (vaddr + 4096 + 4096 * (j - 1)) by lia. exact Hps.
      * intros k' va Hk' Hne Hpg. apply K2; [lia | lia |]. apply K1; [lia | lia | done].
Qed.

(** the ring [init_directory] sets up for [n] pages *)
Record ring_set (n : Z) (s : chan_ctx) : Prop := RingSet {
  rs_covers : covers n s;
  rs_bufsz : zchan_rx_bufsz (ctx_rx s) = ZCHAN_BUF_SIZE;
  rs_bmask : zchan_rx_buf_mask (ctx_rx s) = ZCHAN_BUF_SIZE - 1;
  rs_entries : zchan_rx_pt_entries (ctx_rx s) = n;
  rs_size : zchan_rx_size (ctx_rx s) = n * ZCHAN_BUF_SIZE;
  rs_pdt : zchan_rx_pdt_num (ctx_rx s) = (n + 511) / 512;
  rs_pdt_shift : zchan_rx_pdt_shift (ctx_rx s) = 21;
  rs_pt_shift : zchan_rx_pt_shift (ctx_rx s) = 12
}.

Lemma ring_set_reshaped n w w' : reshaped w w' -> ring_set n (w_st w) -> ring_set n (w_st w').
Proof.
  intros R []. pose proof R as ([_ (ps & pds & Hs)] & _).
  constructor; [by eapply covers_reshaped | ..]; rewrite Hs; done.
Qed.

Lemma wp_init_directory n w (Q : bool -> world chan_ctx -> Prop) :
  0 < n < 2 ^ 19 -> n mod 512 <> 0 ->
  (forall ok w', ring_only w w' -> (ok = true -> ring_set n (w_st w')) -> Q ok w') ->
  wp (init_directory n ((n + 511) / 512)) Q w.
Proof.
  intros Hn Hmod HQ. set (t := (n + 511) / 512).
  assert (1 <= t /\ 512 * (t - 1) <= n - 1) as [Ht Ht'].
  { unfold t. pose proof (Z.div_mod (n + 511) 512 ltac:(lia)).
    pose proof (Z.mod_pos_bound (n + 511) 512 ltac:(lia)). lia. }
  unfold init_directory, upd_rx, upd_zchan. cbv zeta. apply wp_bind, wp_alloc_any. intros pdtp dma w1 Hs1 Hh1.
  apply wp_bind, wp_modify. cbn [w_log w_held w_st]. rewrite Hs1.
  destruct (pdtp =? 0).
  { apply wp_ret, HQ; [split; [exact Hh1 |] | done]. by eexists. }
  apply wp_bind, wp_modify. cbn [w_log w_held w_st]. apply wp_bind, wp_ask. intros ptp _.
  destruct (ptp =? 0).
  { apply wp_bind, wp_tell, wp_ret, HQ; [split; [exact Hh1 |] | done]. by eexists. }
  apply wp_bind, wp_modify. cbn [w_log w_held w_st emit].
  match goal with |- wp _ _ ?v => set (w2 := v) end.
  assert (ring_only w w2) as O2 by (split; [exact Hh1 |]; by eexists).
  assert (ptp_of (w_st w2) = replicate (Z.to_nat t) rx_pt_zero) as P2 by done.
  assert (length (pdt_of (w_st w2)) = Z.to_nat t) as L2 by apply (length_replicate _ (0 : Z)).
  assert (zchan_rx_pt_entries (ctx_rx (w_st w2)) = n /\ zchan_rx_pdt_num (ctx_rx (w_st w2)) = t /\
    zchan_rx_bufsz (ctx_rx (w_st w2)) = ZCHAN_BUF_SIZE) as (E2 & D2 & B2) by done.
  clearbody w2. apply wp_bind.
  change 0 with (Z.of_nat 0) at 1. apply (wp_init_tables n).
  - left. rewrite Z.mul_0_r. lia.
  - right. change ZCHAN_RX_PT_ENTRIES with 512. lia.
  - by rewrite P2, length_replicate.
  - by rewrite L2, P2, length_replicate.
  - rewrite P2. apply Forall_replicate. by left.
  - intros j Hj. rewrite P2. apply lookup_replicate_2. lia.
  - intros w3 ok T3 S3 L3 _ F3. rewrite P2, length_replicate in L3.
    pose proof (ring_only_trans _ _ _ O2 (tables_ring _ _ T3)) as O3.
    destruct T3 as [_ (ps & pds & Hs3)].
    assert (zchan_rx_pt_entries (ctx_rx (w_st w3)) = n /\ zchan_rx_pdt_num (ctx_rx (w_st w3)) = t /\
      zchan_rx_bufsz (ctx_rx (w_st w3)) = ZCHAN_BUF_SIZE) as (E3 & D3 & B3) by (rewrite Hs3; done).
    clear Hs3. destruct ok; cbn [negb].
    + apply wp_bind, wp_modify, wp_ret. cbn [w_log w_held w_st]. apply HQ.
      { eapply ring_only_trans; [exact O3 |]. split; [done |]. by eexists. }
      destruct (F3 eq_refl) as (_ & Hdir & Hfull).
      intros _. constructor; try done; [constructor; try done |].
      * intros j p Hp. by apply Hfull; [lia |].
      * change (Z.of_nat (length (ptp_of (w_st w3))) = (n + 511) / 512). rewrite L3. fold t. lia.
      * split; [lia | done].
      * change (u32 (zchan_rx_pt_entries (ctx_rx (w_st w3)) * 4096) = n * 4096).
        rewrite E3. apply u32_small. lia.
    + apply wp_bind, wp_fini_rx; [done | by rewrite L3, D3 |]. intros w4 O4.
      apply wp_ret, HQ; [by eapply ring_only_trans | done].
Qed.
End shape_rules.

(** ** The stream *)
Section stream_rules.
Context `{Env} `{ModParams} `{VideoParams}.
Implicit Types w : world vid_ctx.

Definition vch (s : vid_ctx) : chan_ctx := ChanCtx (vc_zdev s) (vc_zchan s).
Definition set_ring (t : zchan_rx_tbl) (s : vid_ctx) : vid_ctx :=
  s<|vc_zchan ::= fun c => c<|zchan_rx_tbl_of := t|>|>.
Definition set_bufs (bs : list zynq_video_buffer) (s : vid_ctx) : vid_ctx :=
  s<|vc_stream ::= fun x => x<|buf_list := bs|>|>.

(** an operation of the channel, run from the camera's side *)
Lemma wp_on_ring {A} (m : M chan_ctx A) (P : A -> chan_ctx -> Prop) w (Q : A -> world vid_ctx -> Prop) :
  (let v := World (w_log w) (w_held w) (vch (w_st w)) in wp m (fun a v' => ring_only v v' /\ P a (w_st v')) v) ->
  (forall a t w', w_held w' = w_held w -> w_st w' = set_ring t (w_st w) -> P a (vch (set_ring t (w_st w))) ->
     Q a w') ->
  wp (on_vchan m) Q w.
Proof.
  intros Hm HQ. unfold on_vchan. apply wp_zoom. eapply wp_mono; [exact Hm |].
  intros a v' [[Hh (t & Ht)] HP]. cbn in Hh, Ht. apply (HQ a t); cbn [w_held w_st]; [done | by rewrite Ht |].
  by rewrite Ht in HP.
Qed.

(** buffer [k] of the list at the [k]-th frame of the ring *)
Definition place (sp : Z) (bs : list zynq_video_buffer) : list zynq_video_buffer :=
  imap (fun k b => b<|vb_offset := Z.of_nat k * sp|>) bs.
Definition place_upto (sp : Z) (k : nat) (bs : list zynq_video_buffer) : list zynq_video_buffer :=
  take k (place sp bs) ++ drop k bs.

Lemma place_step sp k bs b :
  bs !! k = Some b ->
  place_upto sp k bs !! k = Some b /\
  alter (fun b => b<|vb_offset := Z.of_nat k * sp|>) k (place_upto sp k bs) = place_upto sp (S k) bs.
Proof.
  intros Hb. pose proof (lookup_lt_Some _ _ _ Hb) as Hk. unfold place_upto.
  assert (length (take k (place sp bs)) = k) as L by (rewrite length_take; unfold place; rewrite length_imap; lia).
  assert (place sp bs !! k = Some (b<|vb_offset := Z.of_nat k * sp|>)) as E
    by (unfold place; by rewrite list_lookup_imap, Hb).
  split.
  - rewrite lookup_app_r by lia. rewrite L, Nat.sub_diag, lookup_drop, Nat.add_0_r. done.
  - rewrite (take_S_r _ _ _ E), (drop_S _ _ _ Hb), <- app_assoc.
    replace k with (length (take k (place sp bs)) + 0)%nat at 1 by lia.
    by rewrite list.alter_app_r.
Qed.

Lemma place_all sp bs : place_upto sp (length bs) bs = place sp bs.
Proof.
  unfold place_upto. rewrite drop_all, app_nil_r. apply take_ge. unfold place. by rewrite length_imap.
Qed.

(** [w'] follows [w], with the ring set up for [n] pages and [k] buffers bound *)
Definition bound (n sp : Z) (k : nat) w w' : Prop :=
  w_held w' = w_held w /\ exists t,
    w_st w' = set_ring t (set_bufs (place_upto sp k (buf_list (vc_stream (w_st w)))) (w_st w)) /\
    ring_set n (vch (w_st w')).

(** the pages of the first [k] buffers, [m] each *)
Definition bufs_mapped (m : Z) (k : nat) (bs : list zynq_video_buffer) (s : chan_ctx) : Prop :=
  forall i b, (i < k)%nat -> bs !! i = Some b -> ring_pages s (Z.of_nat i * m) (Z.to_nat m) (vb_addr b).

Lemma wp_bind_buf n m k b w0 w (Q : option map_pos -> world vid_ctx -> Prop) :
  let bs := buf_list (vc_stream (w_st w0)) in
  bound n (4096 * m) k w0 w -> bs !! k = Some b -> ALIGN (vb_size b) ZCHAN_BUF_SIZE = 4096 * m -> 0 < m ->
  Z.of_nat (length bs) * m <= n -> n < 2 ^ 19 -> bufs_mapped m k bs (vch (w_st w)) ->
  (forall r w', bound n (4096 * m) (S k) w0 w' ->
     r = None \/ r = Some (page_pos (Z.of_nat (S k) * m)) /\ bufs_mapped m (S k) bs (vch (w_st w')) -> Q r w') ->
  wp (bind_buf (Z.of_nat k) (page_pos (Z.of_nat k * m))) Q w.
Proof.
  intros bs (Hh & t & Hs & Hr) Hb Hal Hm Hn Hn19 Hmap HQ. pose proof (lookup_lt_Some _ _ _ Hb) as Hk.
  destruct (place_step (4096 * m) k bs b Hb) as [Hlook Hstep].
  assert (0 <= Z.of_nat k * m /\ Z.of_nat k * m + m <= n) as [Hkm Hkm'] by nia.
  unfold bind_buf, vid_rx, stream, upd_stream. apply wp_bind, wp_gets, wp_bind, wp_gets.
  apply wp_bind, wp_array_get. exists b. split.
  { rewrite Hs. change (zlookup (place_upto (4096 * m) k bs) (Z.of_nat k) = Some b).
    by rewrite zlookup_nonneg, Nat2Z.id by lia. }
  apply wp_bind, wp_modify. cbn [w_log w_held w_st page_pos mp_entries].
  assert (zchan_rx_pt_shift (zchan_rx_tbl_of (vc_zchan (w_st w))) = 12) as -> by apply (rs_pt_shift _ _ Hr).
  rewrite Z.shiftl_mul_pow2 by lia. change (2 ^ 12) with 4096. rewrite u32_small by lia.
  replace (Z.of_nat k * m * 4096) with (Z.of_nat k * (4096 * m)) by lia.
  rewrite Hal. replace (4096 * m / ZCHAN_BUF_SIZE) with m
    by (change ZCHAN_BUF_SIZE with 4096; by rewrite Z.mul_comm, Z.div_mul by lia).
  match goal with |- wp _ _ ?v => set (w1 := v) end.
  assert (w_held w1 = w_held w0) as Hh1 by exact Hh.
  assert (w_st w1 = set_ring t (set_bufs (place_upto (4096 * m) (S k) bs) (w_st w0))) as Hs1.
  { unfold w1. cbn [w_st]. rewrite <- Hstep, Hs, Nat2Z.id. done. }
  assert (vch (w_st w1) = vch (w_st w)) as Hv by (unfold w1; done).
  clearbody w1.
  eapply (wp_on_ring _ (fun r c => ring_set n c /\
    (r = None \/ r = Some (page_pos (Z.of_nat (S k) * m)) /\ bufs_mapped m (S k) bs c))).
  - cbv zeta. rewrite Hv. apply (wp_map_pages n); [exact (rs_covers _ _ Hr) | exact (rs_bufsz _ _ Hr) | lia | lia |].
    intros r v' R Hr'. split; [by apply tables_ring, R |]. split; [by eapply ring_set_reshaped |].
    replace (Z.of_nat (S k) * m) with (Z.of_nat k * m + Z.of_nat (Z.to_nat m)) by lia.
    destruct Hr' as [-> | (-> & Hps & Hkept)]; [by left | right]. split; [done |].
    intros i bi Hi Hbi. destruct (decide (i = k)) as [->|Hik]; [by replace bi with b by congruence |].
    intros j Hj. assert (Z.of_nat i * m + m <= Z.of_nat k * m) by nia. apply Hkept; [lia | lia |].
    apply Hmap; [lia | done | done].
  - intros r t' w' Hh' Hs' [Hr' Hrr]. apply HQ; [| by rewrite Hs']. split; [congruence |].
    exists t'. split; [by rewrite Hs', Hs1 | by rewrite Hs'].
Qed.

Lemma wp_bind_bufs n m j k w0 w (Q : bool -> world vid_ctx -> Prop) :
  let bs := buf_list (vc_stream (w_st w0)) in
  bound n (4096 * m) k w0 w -> (k + j = length bs)%nat ->
  Forall (fun b => ALIGN (vb_size b) ZCHAN_BUF_SIZE = 4096 * m) bs -> 0 < m ->
  Z.of_nat (length bs) * m <= n -> n < 2 ^ 19 -> bufs_mapped m k bs (vch (w_st w)) ->
  (forall ok k' w', bound n (4096 * m) k' w0 w' ->
     (ok = true -> k' = length bs /\ bufs_mapped m (length bs) bs (vch (w_st w'))) -> Q ok w') ->
  wp (bind_bufs j (Z.of_nat k) (page_pos (Z.of_nat k * m))) Q w.
Proof.
  revert k w. induction j as [|j IH]; intros k w bs Hw Hk Hbs Hm Hn Hn19 Hmap HQ; cbn [bind_bufs].
  - apply wp_ret, (HQ _ k); [done |]. intros _. by replace k with (length bs) in * by lia.
  - destruct (lookup_lt_is_Some_2 bs k) as [b Hb]; [lia |].
    apply wp_bind, (wp_bind_buf n m k b w0); [done | done | | done | done | done | done |].
    { exact (Forall_lookup_1 _ _ _ _ Hbs Hb). }
    intros r w1 Hw1 [-> | [-> Hmap1]]; [by apply wp_ret, (HQ _ (S k)) |].
    replace (Z.of_nat k + 1) with (Z.of_nat (S k)) by lia. apply IH; try done. fold bs. lia.
Qed.

(** what is left when the ring cannot be set up: the buffers are still listed *)
Definition unbound w w' : Prop :=
  w_held w' = w_held w /\ exists t sp k,
    w_st w' = set_ring t (set_bufs (place_upto sp k (buf_list (vc_stream (w_st w)))) (w_st w)).

Lemma covers_fini n s : ring_set n s -> Forall sane (ptp_of s) /\
  length (ptp_of s) = Z.to_nat (zchan_rx_pdt_num (ctx_rx s)).
Proof.
  intros []. destruct rs_covers0. split; [| lia]. apply Forall_lookup. intros j p Hp.
  destruct (cv_full0 _ _ Hp) as (Hl & Hb & _). right. by rewrite Hl, Hb.
Qed.

Lemma wp_fini_bound n sp k w0 w (Q : unit -> world vid_ctx -> Prop) :
  bound n sp k w0 w -> (forall w', unbound w0 w' -> Q tt w') -> wp (on_vchan zvideo_fini_rx) Q w.
Proof.
  intros (Hh & t & Hs & Hr) HQ. destruct (covers_fini _ _ Hr) as [Hsane Hlen].
  eapply (wp_on_ring _ (fun _ _ => True)).
  - apply wp_fini_rx; [exact Hsane | exact Hlen |]. by intros v' Hv'.
  - intros [] t' w' Hh' Hs' _. apply HQ. split; [congruence |]. exists t', sp, k. by rewrite Hs', Hs.
Qed.

Lemma place_upto_0 sp bs : place_upto sp 0 bs = bs.
Proof. done. Qed.

Lemma wp_init_rx count m w (Q : Z -> world vid_ctx -> Prop) :
  let bs := buf_list (vc_stream (w_st w)) in
  let n := count * m in
  count = Z.of_nat (length bs) -> m = CEILING (size_of (w_st w)) ZCHAN_BUF_SIZE ->
  0 < m -> 0 < n < 2 ^ 19 -> n mod 512 <> 0 ->
  Forall (fun b => ALIGN (vb_size b) ZCHAN_BUF_SIZE = 4096 * m) bs ->
  (forall w', unbound w w' -> Q (-1) w') ->
  (forall w', bound n (4096 * m) (length bs) w w' -> bufs_mapped m (length bs) bs (vch (w_st w')) -> Q 0 w') ->
  wp (zvideo_init_rx count) Q w.
Proof.
  intros bs n Hc Em Hm Hn Hmod Hbs Hko Hok. unfold zvideo_init_rx, cam, stream.
  apply wp_bind, wp_gets. fold (size_of (w_st w)). rewrite <- Em. fold n. cbv zeta.
  rewrite (u32_small n) by lia. change (n + ZCHAN_RX_PT_ENTRIES - 1) with (n + 512 - 1).
  rewrite (u32_small (n + 512 - 1)) by lia.
  replace (n + 512 - 1) with (n + 511) by lia. change ZCHAN_RX_PT_ENTRIES with 512.
  apply wp_bind. eapply (wp_on_ring _ (fun ok c => ok = true -> ring_set n c)).
  { apply wp_init_directory; [exact Hn | exact Hmod |]. by intros ok v' Hv' Hr'. }
  intros ok t w1 Hh1 Hs1 Hr1. rewrite <- Hs1 in Hr1.
  assert (w_st w1 = set_ring t (set_bufs (place_upto (4096 * m) 0 bs) (w_st w))) as Hs1'.
  { rewrite Hs1, place_upto_0. unfold bs, set_bufs, set_ring. by destruct (w_st w) as [? ? ? []]. }
  destruct ok; cbn [negb].
  2:{ apply wp_ret, Hko. split; [exact Hh1 |]. by exists t, (4096 * m), 0%nat. }
  specialize (Hr1 eq_refl).
  assert (bound n (4096 * m) 0 w w1) as B1 by (split; [exact Hh1 |]; by exists t).
  destruct (covers_table n (vch (w_st w1)) 0) as (p & Hp & _); [exact (rs_covers _ _ Hr1) | lia |].
  apply wp_bind. eapply (wp_on_ring _ (fun _ c => ring_set n c)).
  { apply (wp_rx_pt_get 0 p); [exact Hp |]. split; [| exact Hr1]. split; [done |].
    eexists. symmetry. apply set_ptp_id. }
  intros p' t2 w2 Hh2 Hs2 Hr2.
  assert (bound n (4096 * m) 0 w w2) as B2.
  { split; [congruence |]. exists t2. split; [by rewrite Hs2, Hs1' | by rewrite Hs2]. }
  apply wp_bind, wp_gets.
  assert (length (buf_list (vc_stream (w_st w2))) = length bs) as -> by (rewrite Hs2, Hs1'; done).
  assert (Z.of_nat (length bs) * m <= n) as Hle by (unfold n; rewrite Hc; apply Z.le_refl).
  apply wp_bind. apply (wp_bind_bufs n m (length bs) 0 w);
    [exact B2 | done | exact Hbs | exact Hm | exact Hle | lia | intros i b Hi; lia |].
  intros ok k w3 B3 Hk3. destruct ok; cbn [negb].
  - destruct (Hk3 eq_refl) as [-> Hmap]. by apply wp_ret, Hok.
  - apply wp_bind, (wp_fini_bound n (4096 * m) k w); [done |]. intros w4 U4. by apply wp_ret, Hko.
Qed.
End stream_rules.

Section start_rules.
Context `{Env} `{ModParams} `{VideoParams}.
Implicit Types w : world vid_ctx.

(** an operation of the camera that only works its registers *)
Definition quiet_op {S} (m : M S unit) : Prop :=
  forall (w : world S) (Q : unit -> world S -> Prop),
    (forall w' : world S, w_held w' = w_held w -> w_st w' = w_st w -> Q tt w') -> wp m Q w.

Ltac registers := intros w Q HQ; apply wp_bind, wp_get;
  repeat first [apply wp_bind | apply wp_io_read_any; intros ? ? _ | apply wp_io_write_any; intros ?]; by apply HQ.
Lemma quiet_config : quiet_op zvideo_config.
Proof. registers. Qed.
Lemma quiet_enable : quiet_op zvideo_enable.
Proof. registers. Qed.
Lemma quiet_disable : quiet_op zvideo_disable.
Proof. registers. Qed.

Lemma quiet_on_cam (m : M zynq_video unit) : quiet_op m -> quiet_op (on_cam m).
Proof.
  intros Hm w Q HQ. unfold on_cam. apply wp_zoom, Hm. cbn [w_held w_st]. intros w' Hh Hs.
  apply HQ; cbn [w_held w_st]; [done |]. rewrite Hs. by destruct (w_st w).
Qed.

(** what the driver's side of the channel looks like once started *)
Definition at_start (s : vid_ctx) : vid_ctx :=
  s<|vc_zchan ::= fun c => c<|zvideo_sizeimage := size_of s|>
    <|zchan_rx_tbl_of ::= fun t => t<|zchan_rx_head := 0|><|zchan_rx_tail := 0|><|zchan_rx_off := 0|>|>|>.

Definition restarted (s : vid_ctx) : vid_ctx :=
  if decide (zchan_type (vc_zchan s) = ZYNQ_CHAN_INVAL)
  then s<|vc_zchan ::= fun c => c<|zvideo_sizeimage := size_of s|>|> else at_start s.

Lemma wp_vid_rx_start w (Q : unit -> world vid_ctx -> Prop) :
  (forall w', w_held w' = w_held w -> w_st w' = restarted (w_st w) -> Q tt w') -> wp vid_rx_start Q w.
Proof.
  intros HQ. unfold vid_rx_start, on_vchan. apply wp_bind, wp_modify.
  apply wp_zoom, wp_rx_start_at. cbn [w_log w_held w_st ch_zchan vc_zchan vc_zdev].
  intros w' s' _ Hh Hs Hw. apply HQ; cbn [w_held w_st]; [done |]. rewrite Hw, Hs. unfold restarted.
  change (zchan_type (vc_zchan _)) with (zchan_type (vc_zchan (w_st w))).
  destruct (w_st w) as [? [? ? ? ? [] ? ? ? ? ?] ? ?]. by destruct (decide _).
Qed.

(** what the camera has when streaming can start *)
Record stream_ready (count : Z) (s : vid_ctx) : Prop := StreamReady {
  sr_type : zchan_type (vc_zchan s) <> ZYNQ_CHAN_INVAL;
  sr_image : 0x100 <= size_of s;
  sr_count : count = Z.of_nat (length (buf_list (vc_stream s)));
  sr_pages : 0 < count * (span s / 4096) < 2 ^ 19 /\ count * (span s / 4096) mod 512 <> 0;
  sr_bufs : Forall (fun b => vb_size b = size_of s /\ readable (read_em_data (vc_stream s)) b)
    (buf_list (vc_stream s));
  sr_pending : pending_list (vc_stream s) = [];
  sr_avail : buf_avail (vc_stream s) = u32 count;
  sr_interval : frame_interval (vc_video s) <> 0;
  sr_clock : pixel_clock (caps (vc_video s)) <> 0;
  sr_reader : read_em_data (vc_stream s) = EM_NONE -> embedded_data (caps (vc_video s)) <> 1;
  sr_vstats : Z.of_nat (length (video_stats (vc_stream s))) = VIDEO_STATS_NUM
}.

Lemma span_pages s : 0 <= size_of s -> span s = 4096 * CEILING (size_of s) ZCHAN_BUF_SIZE /\
  span s / 4096 = CEILING (size_of s) ZCHAN_BUF_SIZE.
Proof.
  intros Hs. unfold span. rewrite align_page by done. unfold CEILING. change ZCHAN_BUF_SIZE with 4096.
  replace (size_of s + 4096 - 1) with (size_of s + 4095) by lia. rewrite Z.div_mul by lia.
  split; [apply Z.mul_comm | done].
Qed.

Lemma land_511 x : Z.land x 511 = x mod 512.
Proof. change 511 with (Z.ones 9). by rewrite Z.land_ones. Qed.

(** every page of the ring has its place *)
Lemma ring_set_table n s off : ring_set n s -> 0 <= off < n * 4096 ->
  exists pt b, zlookup (ptp_of s) (ZCHAN_RX_PDT_ENTRY (ctx_rx s) off) = Some pt /\
    zlookup (zchan_rx_pt_bufs pt) (ZCHAN_RX_PT_ENTRY (ctx_rx s) off) = Some b.
Proof.
  intros [Hc _ _ _ _ Hn Hs1 Hs2] Ho. pose proof (cv_len _ _ Hc) as Hl.
  assert (0 <= off / 4096 < n) as Hk by (split; [apply Z.div_pos; lia | apply Z.div_lt_upper_bound; lia]).
  destruct (covers_table _ _ _ Hc Hk) as (p & Hp & _ & Hj).
  destruct (zlookup_Some _ _ Hj) as [b Hb]. exists p, b.
  unfold ZCHAN_RX_PDT_ENTRY, ZCHAN_RX_PT_ENTRY. rewrite Hs1, Hs2, Hn, (cv_mask _ _ Hc).
  rewrite !Z.shiftr_div_pow2 by lia. change (2 ^ 21) with (4096 * 512). change (2 ^ 12) with 4096.
  rewrite <- Z.div_div by lia. rewrite land_511.
  pose proof (Z.div_pos (off / 4096) 512 ltac:(lia) ltac:(lia)) as H0d.
  apply lookup_lt_Some in Hp as Hlt.
  rewrite (Z.mod_small (off / 4096 / 512)) by (rewrite <- Hl; lia).
  split; [| exact Hb]. by rewrite zlookup_nonneg by lia.
Qed.

(** the state a successful start leaves: the buffers [bs] bound to the ring, DMA
    at its beginning, and the flag set *)
Definition started (t : zchan_rx_tbl) (bs : list zynq_video_buffer) (s : vid_ctx) : vid_ctx :=
  let s1 := at_start (set_ring t (set_bufs bs s)) in
  s1<|vc_video ::= fun v => v<|vstate ::= fun x => Z.lor x ZVIDEO_STATE_STREAMING|>|>.

Lemma started_static t bs count s :
  let n := count * (span s / 4096) in
  stream_ready count s -> ring_set n (vch (set_ring t (set_bufs bs s))) -> vq_static (started t bs s).
Proof.
  intros n Hr Hset. pose proof Hr as [? Him ? [Hn Hmod] ? ? ? ? ? ? ?].
  destruct (span_pages s) as [Hsp Hdiv]; [lia |]. fold n in Hn, Hmod.
  set (m := CEILING (size_of s) ZCHAN_BUF_SIZE) in *.
  assert (n = count * m) as En by (unfold n; by rewrite Hdiv). clearbody n.
  assert (0 < count /\ 0 < m) as [Hc0 Hm].
  { clearbody m. rewrite En in Hn. destruct Hn as [Hn%Z.lt_0_mul _]. clear - Hn sr_count0. lia. }
  assert (span (started t bs s) = span s) as Hspan by done.
  destruct Hset as [Hcov Hb Hbm He Hsz Hp Hs1 Hs2].
  change (zchan_rx_size (ctx_rx _)) with (zchan_rx_size t) in Hsz. change ZCHAN_BUF_SIZE with 4096 in Hsz.
  constructor; try done.
  - exists count. split; [lia |]. change (zchan_rx_size t = count * span s).
    rewrite Hsz, Hsp, En. lia.
  - change (zchan_rx_pt_entries t * 4096 = zchan_rx_size t). rewrite Hsz.
    change (zchan_rx_pt_entries t = n) in He. by rewrite He.
  - change (zchan_rx_size t < 2 ^ 31). rewrite Hsz. lia.
  - change (zchan_rx_pdt_num t <> 0). change (zchan_rx_pdt_num t = (n + 511) / 512) in Hp. rewrite Hp.
    pose proof (Z.div_le_mono 512 (n + 511) 512 ltac:(lia) ltac:(lia)) as Hle. rewrite Z.div_same in Hle by lia. lia.
  - intros off Ho. change (zchan_rx_size (rx_of (started t bs s))) with (zchan_rx_size t) in Ho.
    rewrite Hsz in Ho. by apply (ring_set_table n (vch (set_ring t (set_bufs bs s)))).
Qed.

Lemma place_nums sp bs : vb_num <$> place sp bs = vb_num <$> bs.
Proof.
  unfold place. apply list_eq. intros i. rewrite !list_lookup_fmap, list_lookup_imap. by destruct (bs !! i).
Qed.
Lemma place_upto_nums sp k bs : vb_num <$> place_upto sp k bs = vb_num <$> bs.
Proof.
  unfold place_upto. rewrite fmap_app, fmap_take, fmap_drop, place_nums. apply take_drop.
Qed.

Lemma started_ok t count s :
  let n := count * (span s / 4096) in
  let bs := place (span s) (buf_list (vc_stream s)) in
  stream_ready count s -> ring_set n (vch (set_ring t (set_bufs bs s))) -> vq_ok (started t bs s).
Proof.
  intros n bs Hr Hset. pose proof (started_static t bs count s Hr Hset) as Hst.
  pose proof (vs_frames _ Hst) as (fr & Hfr & Hsz). pose proof (span_bounds _ Hst) as (_ & _ & Hpos).
  pose proof Hr as [? Him Hc [Hn _] Hb Hp Ha ? ? ? ?].
  destruct (span_pages s) as [Hsp Hdiv]; [lia |].
  assert (zchan_rx_size (rx_of (started t bs s)) = count * span s) as Hring.
  { change (zchan_rx_size (ctx_rx (vch (set_ring t (set_bufs bs s)))) = count * span s).
    rewrite (rs_size _ _ Hset). unfold n. rewrite Hdiv, Hsp. change ZCHAN_BUF_SIZE with 4096. lia. }
  change (span (started t bs s)) with (span s) in *.
  assert (on_frame (started t bs s) 0) as H0f.
  { split; [rewrite Hsz; nia | apply Z.divide_0_r]. }
  constructor; [exact Hst | exact H0f | exact H0f | |].
  - unfold owned. change (pending_list _) with (pending_list (vc_stream s)). rewrite Hp, app_nil_r.
    change (buf_list _) with bs. apply Forall_lookup. intros k b Hk. unfold bs, place in Hk.
    rewrite list_lookup_imap in Hk. destruct (buf_list (vc_stream s) !! k) as [b0|] eqn:E; [| done].
    injection Hk as <-. pose proof (lookup_lt_Some _ _ _ E) as Hlt.
    destruct (Forall_lookup_1 _ _ _ _ Hb E) as [Hs0 Hf0].
    split; [exact Hs0 |]. split; [| exact Hf0]. split; [| exists (Z.of_nat k); done].
    rewrite Hring. cbn. rewrite Hc. nia.
  - change (buf_avail (vc_stream s) = u32 (Z.of_nat (length bs))). rewrite Ha, Hc. unfold bs, place.
    by rewrite length_imap.
Qed.
End start_rules.

(** ** Rules of the reset *)
Lemma tst_clear_other v m m' : Z.land m m' = 0 -> tst (Z.land v (Z.lnot m)) m' = tst v m'.
Proof.
  intros Hm. unfold tst. do 2 f_equal. apply Z.bits_inj'. intros n Hn.
  rewrite !Z.land_spec, Z.lnot_spec by done. apply (f_equal (fun z => Z.testbit z n)) in Hm.
  rewrite Z.land_spec, Z.bits_0 in Hm. destruct (Z.testbit v n), (Z.testbit m n), (Z.testbit m' n); done.
Qed.

Section reset_rules.
Context `{Env} `{ModParams} `{VideoParams}.
Implicit Types w : world vid_ctx.

Definition vstats_ok (s : vid_ctx) : Prop := Z.of_nat (length (video_stats (vc_stream s))) = VIDEO_STATS_NUM.

(** what a reset does to the state it finds *)
Record reset_done (s s' : vid_ctx) : Prop := ResetDone {
  rd_chan : tst (vstate (vc_video s')) ZVIDEO_STATE_CHAN_FAULT = false;
  rd_cam : tst (vstate (vc_video s')) ZVIDEO_STATE_CAM_FAULT = false;
  rd_stream : streaming (vc_video s') = streaming (vc_video s);
  rd_bufs : buf_list (vc_stream s') = buf_list (vc_stream s) /\ pending_list (vc_stream s') = pending_list (vc_stream s);
  rd_meta : tst (vstate (vc_video s)) ZVIDEO_STATE_CAM_FAULT = true -> last_meta_cnt (vc_video s') = UINT_MAX;
  rd_ring : streaming (vc_video s) = true -> zchan_type (vc_zchan s) <> ZYNQ_CHAN_INVAL ->
    zchan_rx_head (rx_of s') = 0 /\ zchan_rx_off (rx_of s') = 0
}.

Lemma wp_cam_reset (w : world zynq_video) (Q : unit -> world zynq_video -> Prop) :
  (forall w' : world zynq_video, w_held w' = w_held w -> w_st w' = (w_st w)<|last_meta_cnt := UINT_MAX|> -> Q tt w') ->
  wp zvideo_cam_reset Q w.
Proof.
  intros HQ. unfold zvideo_cam_reset, mdelay. apply wp_bind, wp_get. cbv zeta.
  repeat first [apply wp_bind | apply wp_io_read_any; intros ? ? _ | apply wp_io_write_any; intros ? | apply wp_tell].
  apply wp_modify. by apply HQ.
Qed.

(** the part under the locks *)
Lemma wp_reset_body w (Q : unit -> world vid_ctx -> Prop) :
  vstats_ok (w_st w) ->
  (forall w', w_held w' = w_held w -> index (vc_video (w_st w')) = index (vc_video (w_st w)) ->
     reset_done (w_st w) (w_st w') -> Q tt w') ->
  wp reset_body Q w.
Proof.
  intros Hv HQ. unfold reset_body, upd_cam, cam. apply wp_bind, wp_vid_logx; [rewrite Hv; by vm_compute |].
  intros w1 l _ (Hs1 & Hh1 & _). apply wp_bind, wp_modify, wp_bind, wp_gets. cbn [w_log w_held w_st].
  rewrite Hs1. set (s := w_st w) in *.
  set (s2 := (in_stats l s)<|vc_video ::= fun v => v<|vstate ::= fun x => Z.land x (Z.lnot ZVIDEO_STATE_CHAN_FAULT)|>|>).
  set (x := Z.land (vstate (vc_video s)) (Z.lnot ZVIDEO_STATE_CHAN_FAULT)).
  change (vstate (vc_video s2)) with x.
  assert (tst x ZVIDEO_STATE_CAM_FAULT = tst (vstate (vc_video s)) ZVIDEO_STATE_CAM_FAULT) as Ecam
    by by apply tst_clear_other.
  set (s3 := if tst x ZVIDEO_STATE_CAM_FAULT
             then s2<|vc_video ::= fun v => v<|last_meta_cnt := UINT_MAX|>
                    <|vstate ::= fun x => Z.land x (Z.lnot ZVIDEO_STATE_CAM_FAULT)|>|> else s2).
  apply wp_bind. apply wp_mono with (fun _ w3 => w_held w3 = w_held w /\ w_st w3 = s3).
  { apply wp_when; intros E; unfold s3; rewrite E; [| by cbn [w_held w_st]].
    apply wp_bind. unfold on_cam. apply wp_zoom, wp_cam_reset. cbn [w_held w_st].
    intros v Hh Hsv. apply wp_modify. cbn [w_held w_st]. split; [congruence |]. by rewrite Hsv. }
  intros [] w3 [Hh3 Hs3].
  assert (streaming (vc_video s3) = streaming (vc_video s)) as Es3.
  { unfold s3. destruct (tst x _); unfold streaming; cbn; rewrite !tst_clear_other by done; done. }
  apply wp_bind, wp_gets. rewrite Hs3, Es3.
  assert (forall w', w_held w' = w_held w3 ->
    w_st w' = (if streaming (vc_video s) then restarted s3 else s3) -> Q tt w') as Hend.
  { intros w' Hh' Hs'.
    assert (vc_video (w_st w') = vc_video s3 /\ vc_stream (w_st w') = vc_stream s3) as [Ev Ex].
    { rewrite Hs'. destruct (streaming (vc_video s)); [unfold restarted; case_decide |]; split; reflexivity. }
    apply HQ; [congruence | rewrite Ev; unfold s3; by destruct (tst x _) |].
    constructor; rewrite ?Ev, ?Ex; [| | exact Es3 | | |].
    - unfold s3. destruct (tst x _); [| apply tst_cleared].
      change (tst (Z.land x (Z.lnot ZVIDEO_STATE_CAM_FAULT)) ZVIDEO_STATE_CHAN_FAULT = false).
      rewrite tst_clear_other by done. apply tst_cleared.
    - unfold s3. destruct (tst x _) eqn:E; cbn; [apply tst_cleared | exact E].
    - unfold s3. by destruct (tst x _).
    - rewrite <- Ecam. intros E. unfold s3. by rewrite E.
    - intros E1 E2. rewrite Hs', E1. unfold restarted. rewrite decide_False; [done |].
      unfold s3. by destruct (tst x _). }
  apply wp_when; intros E; [| apply Hend; [done | by rewrite E]].
  apply wp_bind, wp_vid_rx_start. intros w4 Hh4 Hs4.
  apply wp_bind, quiet_on_cam; [apply quiet_config |]. intros w5 Hh5 Hs5.
  apply quiet_on_cam; [apply quiet_enable |]. intros w6 Hh6 Hs6.
  apply Hend; [congruence |]. rewrite E. congruence.
Qed.
(** what may run while the reset sleeps: anything that ends, returns its locks,
    and keeps the camera's number and counters *)
Definition polite (others : M vid_ctx unit) : Prop := forall v : world vid_ctx,
  unlocked v (w_st v) -> vstats_ok (w_st v) ->
  wp others (fun _ v' => w_held v' = w_held v /\ index (vc_video (w_st v')) = index (vc_video (w_st v)) /\
    vstats_ok (w_st v')) v.
(** [others] can take the state from [s] to [s'] *)
Definition nap (others : M vid_ctx unit) (s s' : vid_ctx) : Prop :=
  buf_avail (vc_stream s) <> buf_total (vc_stream s) /\
  exists v v', w_st v = s /\ others v = Ret tt v' /\ w_st v' = s'.

(** [k] naps after [s], with both locks held on top of [h] *)
Definition napped (others : M vid_ctx unit) (s : vid_ctx) (k : nat) (v : world vid_ctx) : Prop :=
  nsteps (nap others) k s (w_st v) /\ index (vc_video (w_st v)) = index (vc_video s) /\ vstats_ok (w_st v).
Definition both_held (i : Z) (h : list lock) (v : world vid_ctx) : Prop :=
  w_held v = L_zvideo_q i :: L_zvideo_r i :: h.

Lemma wp_both_unlock i h {A} (m : M vid_ctx A) v (Q : A -> world vid_ctx -> Prop) :
  both_held i h v -> (L_zvideo_q i ∉ h) -> (L_zvideo_r i ∉ h) ->
  (forall v', w_held v' = h -> w_st v' = w_st v -> wp m Q v') ->
  wp (spin_unlock (L_zvideo_q i);; spin_unlock (L_zvideo_r i);; m) Q v.
Proof.
  intros Hh Hq Hr HQ. apply wp_bind. eapply wp_spin_unlock; [exact Hh | rewrite not_elem_of_cons; by split |].
  apply wp_bind. eapply wp_spin_unlock; [reflexivity | done |]. by apply HQ.
Qed.

Lemma wp_nap others s k v v1 (Q : unit -> world vid_ctx -> Prop) :
  polite others -> napped others s k v -> unlocked v1 (w_st v) -> w_st v1 = w_st v ->
  buf_avail (vc_stream (w_st v)) <> buf_total (vc_stream (w_st v)) ->
  (forall v2, napped others s (S k) v2 -> w_held v2 = w_held v1 -> Q tt v2) -> wp others Q v1.
Proof.
  intros Hp (Hn & Hi & Hv) Hl Hs E HQ. rewrite <- Hs in Hl, Hv.
  destruct (proj1 (wp_run _ _ _) (Hp v1 Hl Hv)) as ([] & v2 & Hrun & Hh2 & Hi2 & Hv2).
  apply wp_run. exists tt, v2. split; [done |]. apply HQ; [| done]. split; [| by rewrite Hi2, Hs].
  eapply nsteps_r; [exact Hn |]. split; [exact E |]. exists v1, v2. by rewrite Hs.
Qed.

Lemma wp_reset_wait others s k h v (Q : Z + bool -> world vid_ctx -> Prop) :
  let i := index (vc_video s) in
  polite others -> (L_zvideo_q i ∉ h) -> (L_zvideo_r i ∉ h) -> napped others s k v -> both_held i h v ->
  (forall v', napped others s k v' -> buf_avail (vc_stream (w_st v')) = buf_total (vc_stream (w_st v')) ->
     both_held i h v' -> Q (inr true) v') ->
  (forall v', (5 <= k)%nat -> napped others s k v' ->
     buf_avail (vc_stream (w_st v')) <> buf_total (vc_stream (w_st v')) -> w_held v' = h -> Q (inr false) v') ->
  (forall v', (k < 5)%nat -> napped others s (S k) v' -> both_held i h v' -> Q (inl (Z.of_nat (S k))) v') ->
  wp (reset_wait others i (Z.of_nat k)) Q v.
Proof.
  intros i Hp Hq Hr Hk Hh Hall Hup Hnext. pose proof Hk as (_ & Hi & _). unfold reset_wait, stream.
  apply wp_bind, wp_gets.
  destruct (Z.eqb_spec (buf_avail (vc_stream (w_st v))) (buf_total (vc_stream (w_st v)))) as [E|E];
    [by apply wp_ret, Hall |].
  apply wp_bind. apply wp_mono with (fun _ v1 => w_held v1 = w_held v /\ w_st v1 = w_st v).
  { apply wp_when; intros _; [| done]. by apply quiet_on_cam; [apply quiet_enable |]. }
  intros [] v1 [Hh1 Hs1]. apply (wp_both_unlock i h); [unfold both_held; congruence | done | done |].
  intros v2 Hh2 Hs2. assert (napped others s k v2) as Hk2 by (unfold napped; by rewrite Hs2, Hs1).
  destruct (Z.leb_spec 5 (Z.of_nat k)).
  { apply wp_ret, Hup; [lia | done | by rewrite Hs2, Hs1 | done]. }
  apply wp_bind, wp_tell, wp_bind, (wp_nap others s k v2); [done | done | | done | by rewrite Hs2, Hs1 |].
  { unfold unlocked. rewrite Hs2, Hs1, Hi. cbn. rewrite Hh2. by split. }
  intros v3 Hk3 Hh3. cbn in Hh3. apply wp_bind, wp_spin_lock; [by rewrite Hh3, Hh2 |].
  apply wp_bind, wp_spin_lock; [cbn; rewrite Hh3, Hh2, not_elem_of_cons; by split |]. apply wp_ret.
  replace (Z.of_nat k + 1) with (Z.of_nat (S k)) by lia.
  apply Hnext; [lia | exact Hk3 |]. unfold both_held. cbn. by rewrite Hh3, Hh2.
Qed.
End reset_rules.

(** ** Theorems *)
Section stream_theorems.
Context `{Env} `{ModParams} `{VideoParams}.

(** C30.  Starting the stream with zero copy either binds every buffer or leaves
    the stream off.  For every allocation and mapping failure the call ends with
    the locks as they were: on success the [k]-th buffer is bound to the [k]-th
    frame of the ring; each page of each buffer is the ring's page of that place,
    for the driver (the entry of its table has the page's own address, the page
    the kernel names for it and the bus address the kernel maps that page to) and
    for the device (that bus address, page aligned, is the table's entry, and the
    table's address the directory's); DMA starts at the ring's beginning, the
    streaming flag is set, and the state satisfies the invariant the receive path
    needs.  On failure the result is [-ENOSR], the flag is as before, and the
    buffers are still in the driver's list.  A ring whose last table is full is
    excluded: there the driver looks at a table after the last
    ([StreamWitness.table_overrun]). *)
Theorem streaming_starts (w : world vid_ctx) (count : Z)
    (Hzero : zynq_video_zero_copy = true) (Hnum : zynq_video_buf_num <= count)
    (Hr : stream_ready count (w_st w)) (Hl : unlocked w (w_st w)) :
  let s := w_st w in
  wp (zvideo_start_streaming count) (fun rc w' =>
    let s' := w_st w' in
    w_held w' = w_held w /\
    ((rc = 0 /\ vq_ok s' /\ streaming (vc_video s') = true /\
      buf_list (vc_stream s') = place (span s) (buf_list (vc_stream s)) /\
      (forall k b j, buf_list (vc_stream s) !! k = Some b -> 0 <= j < span s / 4096 ->
         ring_page (rx_of s') (Z.of_nat k * (span s / 4096) + j) (vb_addr b + 4096 * j)) /\
      zchan_rx_head (rx_of s') = 0 /\ zchan_rx_off (rx_of s') = 0 /\
      sequence (vc_stream s') = 0 /\ buf_total (vc_stream s') = count)
     \/ (rc = - ENOSR /\ vstate (vc_video s') = vstate (vc_video s) /\
         vb_num <$> buf_list (vc_stream s') = vb_num <$> buf_list (vc_stream s)))) w.
Proof.
  intros s. unfold zvideo_start_streaming, zvideo_init_params, upd_stream, upd_cam, vid_index.
  destruct (Z.ltb_spec count zynq_video_buf_num) as [|_]; [lia |].
  apply wp_bind, wp_modify, wp_bind.
  apply wp_bind, wp_modify, wp_bind, wp_modify, wp_modify. cbn [w_log w_held w_st].
  match goal with |- wp _ _ (World _ _ ?x) => set (s1 := x) end.
  assert (stream_ready count s1) as Hr1 by (destruct Hr; by constructor).
  destruct Hl as [Hlq Hlr]. change (index (vc_video s)) with (index (vc_video s1)) in *.
  apply wp_bind, wp_gets. cbn [w_st]. apply wp_bind, wp_spin_lock; [done |].
  apply wp_bind, wp_spin_lock; [cbn; rewrite not_elem_of_cons; by split |]. cbn [w_log w_held w_st].
  rewrite Hzero. match goal with |- wp _ _ (World ?l ?h _) => set (lg := l); set (hd := h) end.
  assert (forall (w' : world vid_ctx) (Q : Z -> world vid_ctx -> Prop) rc, w_held w' = hd ->
    (forall w'', w_held w'' = w_held w -> w_st w'' = w_st w' -> Q rc w'') ->
    wp (spin_unlock (L_zvideo_q (index (vc_video s1)));; spin_unlock (L_zvideo_r (index (vc_video s1)));; mret rc)
      Q w') as Hun.
  { intros w' Q rc Hh HQ. apply wp_bind. eapply wp_spin_unlock; [exact Hh | |].
    { rewrite not_elem_of_cons. by split. }
    apply wp_bind. eapply wp_spin_unlock; [reflexivity | done |]. by apply wp_ret, HQ. }
  pose proof (sr_image _ _ Hr1) as Him. destruct (span_pages s1) as [Hsp Hdiv]; [lia |].
  set (m := CEILING (size_of s1) ZCHAN_BUF_SIZE) in *.
  pose proof (sr_pages _ _ Hr1) as [Hn Hmod]. rewrite Hdiv in Hn, Hmod.
  assert (0 < m) as Hm.
  { pose proof (sr_count _ _ Hr1) as Hc. clearbody m. destruct Hn as [Hn%Z.lt_0_mul _]. clear - Hn Hc. lia. }
  apply wp_bind. apply (wp_init_rx count m (World lg hd s1)); [exact (sr_count _ _ Hr1) | done | done | done | done | | |].
  - eapply Forall_impl; [exact (sr_bufs _ _ Hr1) |]. intros b [-> _]. exact Hsp.
  - intros w2 (Hh2 & t & sp & k & Hs2). change (negb (-1 =? 0)) with true.
    apply Hun; [exact Hh2 |]. intros w3 Hh3 Hs3. split; [exact Hh3 |]. right.
    rewrite Hs3, Hs2. split; [done |]. split; [done |]. apply place_upto_nums.
  - intros w2 (Hh2 & t & Hs2 & Hset) Hmap. change (negb (0 =? 0)) with false.
    rewrite <- Hdiv in Hset. cbn [w_st] in Hs2. rewrite place_all in Hs2. rewrite <- Hsp in Hs2.
    rewrite Hs2 in Hset, Hmap. pose proof (started_ok t count s1 Hr1 Hset) as Hok.
    apply wp_bind, wp_vid_rx_start. intros w3 Hh3 Hs3.
    unfold restarted in Hs3. rewrite decide_False in Hs3 by (rewrite Hs2; exact (sr_type _ _ Hr1)).
    apply wp_bind, quiet_on_cam; [apply quiet_config |]. intros w4 Hh4 Hs4.
    apply wp_bind, wp_modify. apply Hun; [cbn [w_held]; by rewrite Hh4, Hh3, Hh2 |]. cbn [w_st].
    intros w5 Hh5 Hs5. split; [exact Hh5 |]. left.
    assert (w_st w5 = started t (place (span s1) (buf_list (vc_stream s1))) s1) as Es
      by (rewrite Hs5, Hs4, Hs3, Hs2; done).
    rewrite Es. split; [done |]. split; [exact Hok |]. split; [| split; [done | split; [| by split_and!]]].
    2:{ change (span s) with (span s1). rewrite Hdiv. intros k b j Hb Hj.
      apply (Hmap k b); [by eapply lookup_lt_Some | exact Hb | lia]. }
    unfold streaming, tst. apply negb_true_iff, Z.eqb_neq. cbn. intros E0.
    apply (f_equal (fun z => Z.testbit z 0)) in E0. rewrite Z.land_spec, Z.lor_spec in E0.
    cbn in E0. rewrite orb_true_r in E0. done.
Qed.

(** C31.  A reset ends.  Whatever well-behaved work runs while it sleeps, the
    locks are released; when the channel does not stream, or copies, the faults
    are cleared at once; otherwise the driver sleeps at most five times while
    buffers are out, and then either gives up and leaves the state as it found it,
    or has seen all buffers back and clears the faults and restarts the ring. *)
Theorem reset_ends (w : world vid_ctx) (others : M vid_ctx unit)
    (Hp : polite others) (Hl : unlocked w (w_st w)) (Hv : vstats_ok (w_st w)) :
  let s := w_st w in
  wp (zvideo_reset others) (fun _ w' =>
    let s' := w_st w' in
    w_held w' = w_held w /\
    exists k s1, (k <= 5)%nat /\ nsteps (nap others) k s s1 /\
      let must := streaming (vc_video s) && zynq_video_zero_copy in
      (must = false -> k = 0%nat) /\
      ((k = 5%nat /\ buf_avail (vc_stream s1) <> buf_total (vc_stream s1) /\ s' = s1)
       \/ (must = true -> buf_avail (vc_stream s1) = buf_total (vc_stream s1)) /\ reset_done s1 s')) w.
Proof.
  intros s. set (i := index (vc_video s)). pose proof Hl as [Hlq Hlr]. fold i in Hlq, Hlr.
  unfold zvideo_reset, vid_index, cam. apply wp_bind, wp_gets. fold i.
  apply wp_bind, wp_spin_lock; [done |]. apply wp_bind, wp_spin_lock; [cbn; rewrite not_elem_of_cons; by split |].
  apply wp_bind, wp_gets. cbn [w_log w_held w_st]. fold s.
  set (must := streaming (vc_video s) && zynq_video_zero_copy).
  assert (HP0 : forall v, w_st v = s -> napped others s 0 v) by (intros v E; unfold napped; rewrite E; split; [constructor | done]).
  apply wp_bind. apply wp_mono with (fun (ready : bool) v => exists k, napped others s k v /\ (k <= 5)%nat /\
    (must = false -> k = 0%nat) /\
    if ready then both_held i (w_held w) v /\
      (must = true -> buf_avail (vc_stream (w_st v)) = buf_total (vc_stream (w_st v)))
    else k = 5%nat /\ buf_avail (vc_stream (w_st v)) <> buf_total (vc_stream (w_st v)) /\ w_held v = w_held w).
  - unfold must. destruct (streaming (vc_video s)) eqn:Est; cbn [andb];
      [| apply wp_ret; exists 0%nat; split_and!; [by apply HP0 | lia | done | done | done]].
    apply wp_bind, quiet_on_cam; [apply quiet_disable |]. intros w1 Hh1 Hs1. cbn [w_held w_st] in Hh1, Hs1.
    destruct zynq_video_zero_copy; [| apply wp_ret; exists 0%nat; split_and!; [by apply HP0 | lia | done | done | done]].
    apply (wp_loop (fun retry v => exists k, napped others s k v /\ (k <= 5)%nat /\ retry = Z.of_nat k /\
             both_held i (w_held w) v) (fun retry _ => 6 - Z.to_nat retry)%nat); [| cbn; lia |].
    { exists 0%nat. split_and!; [by apply HP0 | lia | done | done]. }
    intros retry v (k & Hk & Hk5 & -> & Hh). apply (wp_reset_wait others s k (w_held w)); try done.
    + intros v' Hk' E Hh'. exists k. by split_and!.
    + intros v' Hge Hk' E Hh'. exists k. split_and!; try done. lia.
    + intros v' Hlt Hk' Hh'. split; [exists (S k); split_and!; [done | lia | done | done] | lia].
  - intros [|] v (k & Hk & Hk5 & Hk0 & Hr); cbn [negb]; pose proof Hk as (Hn & Hi & Hv1).
    + destruct Hr as [Hh Hall]. apply wp_bind, wp_reset_body; [done |].
      intros v1 Hh1 Hi1 Hd. apply wp_bind. eapply wp_spin_unlock; [rewrite Hh1; exact Hh | rewrite not_elem_of_cons; by split |].
      eapply wp_spin_unlock; [reflexivity | done |]. split; [done |]. exists k, (w_st v).
      split_and!; [done | done | exact Hk0 | by right].
    + destruct Hr as (-> & Hne & Hh). apply wp_ret. split; [done |]. exists 5%nat, (w_st v).
      split_and!; [done | done | exact Hk0 | by left].
Qed.
End stream_theorems.

(** ** Witnesses *)
Module StreamWitness.
Import VideoWitness MetaWitness QueueWitness.
#[local] Existing Instance params_default.
#[local] Existing Instance video_params_default.

(** memory is there, and every mapping is aligned *)
Definition env_mem : Env := fun l c =>
  match c with
  | DmaWord p => good_frame p
  | MmioRead _ => 0x2000
  | DmaMapError _ => 0
  | _ => 0x1000
  end.
Definition env_full : Env := fun l c => match c with KAlloc _ => 0 | _ => env_mem l c end.
Definition wanting (v : vid_ctx) : vid_ctx := v<|vc_video ::= fun c => c<|vstate := 0|>|>.
Definition world_on (s : vid_ctx) : world vid_ctx := World [] [] s.
Definition three : vid_ctx := wanting (ring3 [vb 7; vb 8; vb 9] []).

Definition brief (r : outcome vid_ctx Z) : option (Z * bool * list Z) :=
  match r with
  | Ret rc w => Some (rc, streaming (vc_video (w_st w)), vb_offset <$> buf_list (vc_stream (w_st w)))
  | _ => None
  end.
Example start_runs :
  brief (zvideo_start_streaming (H := env_mem) 3 (world_on three)) = Some (0, true, [0; 4096; 8192]).
Proof. vm_compute. reflexivity. Qed.
Example start_fails :
  brief (zvideo_start_streaming (H := env_full) 3 (world_on three)) = Some (-63, false, [28672; 32768; 36864]).
Proof. vm_compute. reflexivity. Qed.

(** when the buffers fill the last table, the table after it is looked at *)
Definition big (n : Z) : zynq_video_buffer := Vbuf n 0 0x10000 (128 * 4096) 0 0.
Definition four : vid_ctx :=
  (wanting (ring3 [big 0; big 1; big 2; big 3] []))
    <|vc_video ::= fun c => c<|format := PixFormat 0 0 0 0 (128 * 4096)|>|>.
Example table_overrun :
  match zvideo_start_streaming (H := env_mem) 4 (world_on four) with Fault _ => True | _ => False end.
Proof. vm_compute. exact I. Qed.

Lemma three_ready : stream_ready (H := env_mem) 3 three.
Proof.
  constructor; [by vm_compute | by vm_compute | reflexivity | | | reflexivity | reflexivity
    | by vm_compute | by vm_compute | by vm_compute | reflexivity].
  - split; [split |]; by vm_compute.
  - assert (forall n, vb_size (vb n) = size_of three /\
      readable (H := env_mem) (read_em_data (vc_stream three)) (vb n)) as Hb.
    { intros n. split; [reflexivity |]. intros l. exists good_frame. split; [| done]. intros evs p _ Hp. cbn. unfold good_frame.
      by destruct (p mod 4096 =? 0xFF0), (p mod 4096 =? 0xFF4). }
    repeat (constructor; [apply Hb |]). constructor.
Qed.

Lemma streaming_starts_witness :
  wp (zvideo_start_streaming (H := env_mem) 3) (fun rc w' =>
    rc = 0 /\ vb_offset <$> buf_list (vc_stream (w_st w')) = [0; 4096; 8192] \/ rc = - ENOSR) (world_on three).
Proof.
  eapply wp_mono.
  - apply (streaming_starts (H := env_mem) (world_on three) 3).
    + reflexivity.
    + vm_compute. discriminate.
    + apply three_ready.
    + split; apply not_elem_of_nil.
  - intros rc w' (_ & [(-> & _ & _ & Hb & _) | (-> & _)]); [left | by right].
    split; [done |]. rewrite Hb. vm_compute. reflexivity.
Defined.

(** two of five buffers are out; one comes back during each nap *)
Definition one_back : M vid_ctx unit := upd_stream (fun s => s<|buf_avail ::= fun n => n + 1|>).
Definition out (total : Z) : vid_ctx :=
  (ring3 [vb 0; vb 1; vb 2] [])<|vc_stream ::= fun s => s<|buf_total := total|>|>
    <|vc_video ::= fun v => v<|vstate ::= fun x => Z.lor x ZVIDEO_STATE_CHAN_FAULT|>|>.
Lemma one_back_polite : polite one_back.
Proof. intros v _ Hv. unfold one_back, upd_stream. apply wp_modify. by split_and!. Qed.

Definition flags (r : outcome vid_ctx unit) : option Z :=
  match r with Ret _ w => Some (vstate (vc_video (w_st w))) | _ => None end.
Example reset_runs :
  (flags (zvideo_reset (H := env3) one_back (world_on (out 5))),
   flags (zvideo_reset (H := env3) one_back (world_on (out 9)))) = (Some 0x01, Some 0x81).
Proof. vm_compute. reflexivity. Qed.

Lemma reset_ends_witness :
  wp (zvideo_reset (H := env3) one_back) (fun _ w' => w_held w' = []) (world_on (out 5)).
Proof.
  eapply wp_mono.
  - apply (reset_ends (H := env3) (world_on (out 5)) one_back).
    + apply one_back_polite.
    + split; apply not_elem_of_nil.
    + vm_compute. reflexivity.
  - intros [] w' [Hh _]. exact Hh.
Defined.
End StreamWitness.
