(* ===== verification/Gps.v ===== *)
(** * GPS time ([basa_gps.c])

    The FPGA keeps the GPS time in three registers; the driver sets the system
    time from it, from a thread of the master device or on request, sets the
    FPGA's own time once when there is no GPS, and configures the smoothing. *)

From S2P Require Import Kernel Regs Api Device.

(** broken-down time, and the kernel's conversions to and from it *)
Record tm := Tm { tm_sec : Z; tm_min : Z; tm_hour : Z; tm_mday : Z; tm_mon : Z; tm_year : Z }.
Class Calendar := {
  mktime : Z -> Z -> Z -> Z -> Z -> Z -> Z;    (** year month day hour minute second *)
  time64_to_tm : Z -> tm
}.

Definition NSEC_PER_USEC : Z := 1000.
Definition NSEC_PER_MSEC : Z := 1000000.
Definition USEC_PER_MSEC : Z := 1000.
Definition USEC_PER_SEC : Z := 1000000.

(** ** State: one device, and the globals of the file.  The master device is
    none, this one, or another one. *)
Inductive gps_master := MasterNone | MasterThis | MasterOther.
#[global] Instance gps_master_eq_dec : EqDecision gps_master.
Proof. solve_decision. Defined.

Record gps_ctx := GpsCtx {
  gp_zdev : zynq_dev;
  zynq_gps_master_dev : gps_master;
  zynq_gps_valid_once : bool;
  zynq_gps_taskp : bool
}.
#[global] Instance gps_ctx_eta : Eta gps_ctx := fun r =>
  GpsCtx (gp_zdev r) (zynq_gps_master_dev r) (zynq_gps_valid_once r) (zynq_gps_taskp r).

(** the three registers *)
Record gps_val := GpsVal { gv_lo : Z; gv_hi : Z; gv_date : Z }.

(** convert the registers to a time *)
Definition zynq_gps_time_ts `{Calendar} (v : gps_val) : timespec := {|
  tv_sec := mktime (2000 + Z.land (gv_date v) 0xff)
    (Z.shiftr (Z.land (gv_date v) 0xff00) 8) (Z.shiftr (Z.land (gv_date v) 0xff0000) 16)
    (Z.shiftr (Z.land (gv_hi v) 0xff0000) 16) (Z.shiftr (Z.land (gv_hi v) 0xff00) 8)
    (Z.land (gv_hi v) 0xff);
  tv_nsec := Z.shiftl (Z.land (gv_lo v) 0xfe) 2
    + Z.land (Z.shiftr (gv_lo v) 8) 0xfff * NSEC_PER_USEC
    + Z.land (Z.shiftr (gv_lo v) 20) 0xfff * NSEC_PER_MSEC
|}.

(** what the check of the gap to the system time says; it is only logged *)
Inductive gap := Gap_unchecked | Gap_ok | Gap_jump | Gap_high | Gap_low.
Definition beyond (diff thresh : Z) : bool := (thresh <? diff) || (diff <? s32 (- thresh)).

Section gps.
Context `{Env} `{ModParams} `{Calendar}.

Definition upd_gdev (f : zynq_dev -> zynq_dev) : M gps_ctx unit := modify (fun s => s<|gp_zdev ::= f|>).
Definition gdev : M gps_ctx zynq_dev := gets gp_zdev.
Definition has_cap (cap : Z) : M gps_ctx bool := d ← gdev; mret (ZYNQ_CAP d cap).

(** whether the time is usable although it is not valid now *)
Definition check_valid_once : M gps_ctx bool :=
  smooth ← has_cap ZYNQ_HW_CAP_GPS_SMOOTH;
  once ← gets zynq_gps_valid_once;
  when (smooth && negb once) (
    val ← zynq_g_reg_read ZYNQ_G_GPS_LAST_TIME_LO;
    if tst val ZYNQ_GPS_TIME_VALID then modify (fun s => s<|zynq_gps_valid_once := true|>)
    else
      val ← zynq_g_reg_read ZYNQ_G_GPS_STATUS;
      when (tst val ZYNQ_GPS_INIT_SET) (modify (fun s => s<|zynq_gps_valid_once := true|>)));;
  once ← gets zynq_gps_valid_once;
  mret (smooth && once).

Definition zynq_get_gps_time : M gps_ctx (option gps_val) :=
  spin_lock L_zdev;;
  lo ← zynq_g_reg_read ZYNQ_G_NTP_LO;
  if lo =? 0xFFFFFFFF then spin_unlock L_zdev;; mret None
  else
    usable ← (if negb (tst lo ZYNQ_GPS_TIME_VALID) then check_valid_once
              else modify (fun s => s<|zynq_gps_valid_once := true|>);; mret true);
    if negb (usable : bool) then spin_unlock L_zdev;; mret None
    else
      hi ← zynq_g_reg_read ZYNQ_G_NTP_HI;
      date ← zynq_g_reg_read ZYNQ_G_NTP_DATE;
      spin_unlock L_zdev;;
      mret (Some (GpsVal lo hi date)).

(** the sentence in the GPRMC FIFO *)
Fixpoint gprmc_words (n : nat) : M gps_ctx (list Z) :=
  match n with
  | O => mret []
  | S n' =>
      v ← zynq_g_reg_read ZYNQ_G_GPRMC;
      l ← gprmc_words n';
      mret (ntohl v :: l)
  end.
Definition zynq_get_gprmc : M gps_ctx (option (list Z)) :=
  let inval_gprmc := 0x45464143 in
  let dead_gprmc := 0x44414544 in
  spin_lock L_zdev;;
  v ← zynq_g_reg_read ZYNQ_G_GPRMC;
  let v := ntohl v in
  if (v =? 0xFFFFFFFF) || (v =? dead_gprmc) then spin_unlock L_zdev;; mret None
  else if v =? inval_gprmc then spin_unlock L_zdev;; mret None
  else
    l ← gprmc_words (Z.to_nat (ZYNQ_GPS_GPRMC_VAL_SZ / 4 - 1));
    spin_unlock L_zdev;;
    mret (Some (v :: l)).

Definition ktime_get_real_ts : M gps_ctx timespec :=
  sec ← ask KtimeSec; nsec ← ask KtimeNsec; mret (Timespec sec nsec).

(** the clock and the registers are read one after the other, in turn *)
Definition read_both : M gps_ctx (option (timespec * gps_val)) :=
  d ← gdev;
  if tst (zdev_gps_cnt d) 1 then
    ts_sys ← ktime_get_real_ts;
    v ← zynq_get_gps_time;
    mret (v ← v; Some (ts_sys, v))
  else
    v ← zynq_get_gps_time;
    match v with
    | None => mret None
    | Some v => ts_sys ← ktime_get_real_ts; mret (Some (ts_sys, v))
    end.

Definition gap_check (d : zynq_dev) (ts : timespec) (diff : Z) : gap :=
  if negb (zdev_gps_smoothing d =? 0) then Gap_unchecked
  else if (tv_sec (zdev_gps_ts d) =? 0) && (tv_nsec (zdev_gps_ts d) =? 0) then Gap_unchecked
  else
    let delay := s32 (tv_sec ts - tv_sec (zdev_gps_ts d)) in
    if delay <? 0 then Gap_jump
    else if beyond diff (s32 (u32 (zynq_gps_high_factor * delay))) then Gap_high
    else if beyond diff (s32 (u32 (zynq_gps_low_factor * delay))) then Gap_low
    else Gap_ok.

Definition zynq_gps_ts_check : M gps_ctx (option (timespec * gap)) :=
  r ← read_both;
  match r with
  | None => mret None
  | Some (ts_sys, v) =>
      let ts := zynq_gps_time_ts v in
      let diff := s32 ((tv_sec ts_sys - tv_sec ts) * USEC_PER_SEC
                       + Z.quot (tv_nsec ts_sys - tv_nsec ts) NSEC_PER_USEC) in
      d ← gdev;
      when (negb (tv_sec (zdev_gps_ts_first d) =? 0))
        (upd_gdev (fun d => d<|zdev_sys_drift ::= fun x => x + diff|>));;
      d ← gdev;
      mret (Some (ts, gap_check d ts diff))
  end.

Definition zynq_do_gps_sync : M gps_ctx Z :=
  r ← zynq_gps_ts_check;
  match r with
  | None => mret (-1)
  | Some (ts, _) =>
      ret ← ask (KernelCall "do_settimeofday64" [tv_sec ts; tv_nsec ts]);
      if negb (ret =? 0) then mret ret
      else
        d ← gdev;
        when (tv_sec (zdev_gps_ts_first d) =? 0) (upd_gdev (fun d => d<|zdev_gps_ts_first := ts|>));;
        upd_gdev (fun d => d<|zdev_gps_ts := ts|><|zdev_gps_cnt ::= fun n => u32 (n + 1)|>);;
        mret 0
  end.

(** ** The thread *)
Definition delay_ms (d : zynq_dev) : Z :=
  let delay_time :=
    if negb (zdev_gps_smoothing d =? 0) then ZYNQ_GPS_SYNC_TIME_SMOOTH else zynq_gps_sync_time in
  let delay_time := if delay_time =? 0 then ZYNQ_GPS_SYNC_TIME_MAX else delay_time in
  u32 (delay_time * 1000).

Definition smoothing_step : M gps_ctx unit :=
  spin_lock L_zdev;;
  status ← zynq_g_reg_read ZYNQ_G_GPS_STATUS;
  d ← gdev;
  (if tst status ZYNQ_GPS_SMOOTH_IN_PROGRESS then upd_gdev (fun d => d<|zdev_gps_smoothing := 2|>)
   else when (negb (zdev_gps_smoothing d =? 0)) (upd_gdev (fun d => d<|zdev_gps_smoothing ::= fun n => n - 1|>)));;
  spin_unlock L_zdev.

(** one round; [others] is what runs while the thread waits.  The result tells
    whether the thread goes on. *)
Definition sync_round (others : M gps_ctx unit) : M gps_ctx bool :=
  master ← gets zynq_gps_master_dev;
  match master with
  | MasterNone => fail NullDeref
  | MasterOther => mret true          (* works on the other device *)
  | MasterThis =>
      zynq_do_gps_sync;;
      d ← gdev;
      result ← ask (WaitCompletion C_gps_wait (msecs_to_jiffies (delay_ms d)));
      others;;
      smooth ← has_cap ZYNQ_HW_CAP_GPS_SMOOTH;
      when smooth smoothing_step;;
      if 0 <? result then tell (InitCompletion C_gps_wait);; mret true
      else mret (result =? 0)
  end.
Fixpoint zynq_gps_sync_thread (n : nat) (others : M gps_ctx unit) : M gps_ctx unit :=
  match n with
  | O => no_fuel
  | S n' =>
      stop ← ask (KernelCall "kthread_should_stop" []);
      if negb (stop =? 0) then mret tt
      else
        go_on ← sync_round others;
        if (go_on : bool) then zynq_gps_sync_thread n' others else mret tt
  end.

Definition zynq_gps_thread_init : M gps_ctx unit :=
  tell (InitCompletion C_gps_wait);;
  tell (KernelCall "kthread_run" []);;
  modify (fun s => s<|zynq_gps_taskp := true|>);;
  tell (KernelCall "sched_setscheduler" [60]).
Definition zynq_gps_thread_fini : M gps_ctx unit :=
  tell (Complete C_gps_wait);;
  task ← gets zynq_gps_taskp;
  when task (tell (KernelCall "kthread_stop" [])).

(** ** The FPGA's time *)
Definition gps_date_bits (val : Z) (t : tm) : Z :=
  Z.lor (Z.lor (Z.lor (SET_BITS ZYNQ_GPS_TIME_DAY val (tm_mday t))
                      (SET_BITS ZYNQ_GPS_TIME_MON val (tm_mon t + 1)))
               (SET_BITS ZYNQ_GPS_TIME_YEAR val (tm_year t - 100)))
        (SET_BITS ZYNQ_GPS_PPS_LOCK_DELAY val 0x20).
Definition gps_hms_bits (t : tm) : Z :=
  Z.lor (Z.lor (SET_BITS ZYNQ_GPS_TIME_SEC 0 (tm_sec t)) (SET_BITS ZYNQ_GPS_TIME_MIN 0 (tm_min t)))
        (SET_BITS ZYNQ_GPS_TIME_HOUR 0 (tm_hour t)).
Definition gps_frac_bits (nsec : Z) : Z :=
  Z.lor (Z.lor (Z.lor (SET_BITS ZYNQ_GPS_TIME_NSEC 0 (Z.shiftr (Z.rem nsec NSEC_PER_USEC) 3))
                      (SET_BITS ZYNQ_GPS_TIME_USEC 0 (Z.rem (Z.quot nsec NSEC_PER_USEC) USEC_PER_MSEC)))
               (SET_BITS ZYNQ_GPS_TIME_MSEC 0 (Z.quot nsec NSEC_PER_MSEC)))
        ZYNQ_GPS_TIME_VALID.

Definition zynq_gps_init_fpga_time : M gps_ctx Z :=
  can ← has_cap ZYNQ_HW_CAP_FPGA_TIME_INIT;
  if negb (can : bool) then mret (- EPERM)
  else
    zynq_get_gps_time;;
    spin_lock L_zdev;;
    once ← gets zynq_gps_valid_once;
    if (once : bool) then spin_unlock L_zdev;; mret (- EAGAIN)
    else
      ts ← ktime_get_real_ts;
      let t := time64_to_tm (tv_sec ts) in
      val ← zynq_g_reg_read ZYNQ_G_GPS_CONFIG_2;
      zynq_g_reg_write ZYNQ_G_GPS_CONFIG_2 (gps_date_bits val t);;
      zynq_g_reg_write ZYNQ_G_GPS_TIME_HI_INIT (gps_hms_bits t);;
      zynq_g_reg_write ZYNQ_G_GPS_TIME_LO_INIT (gps_frac_bits (tv_nsec ts));;
      spin_unlock L_zdev;;
      mret 0.

(** ** Configuration *)
Definition smooth_step_bits : Z :=
  if zynq_gps_smooth_step <? ZYNQ_GPS_SMOOTH_STEP_MIN then 0xFFFF
  else if ZYNQ_GPS_SMOOTH_STEP_MAX <? zynq_gps_smooth_step then 1
  else USEC_PER_SEC / zynq_gps_smooth_step - 1.

Definition zynq_gps_config : M gps_ctx unit :=
  smooth ← has_cap ZYNQ_HW_CAP_GPS_SMOOTH;
  when smooth (
    spin_lock L_zdev;;
    val ← zynq_g_reg_read ZYNQ_G_GPS_CONFIG;
    let val :=
      if zynq_gps_smooth_max =? 0 then Z.lor val ZYNQ_GPS_DISABLE_SMOOTH
      else
        let val := SET_BITS ZYNQ_GPS_ADJ_STEP val smooth_step_bits in
        let val := SET_BITS ZYNQ_GPS_MAX_TOLERANCE val zynq_gps_smooth_max in
        Z.land val (Z.lnot ZYNQ_GPS_DISABLE_SMOOTH) in
    let val := Z.land val (Z.lnot ZYNQ_GPS_LOOPBACK_EN) in
    zynq_g_reg_write ZYNQ_G_GPS_CONFIG val;;
    val ← zynq_g_reg_read ZYNQ_G_GPS_CONFIG_2;
    let val := if zynq_gps_checksum then Z.lor val ZYNQ_GPS_CHECKSUM_CHECK
               else Z.land val (Z.lnot ZYNQ_GPS_CHECKSUM_CHECK) in
    d ← gdev;
    let val := if 0x200 <? ZDEV_PL_VER d
               then Z.lor val (SET_BITS ZYNQ_GPS_PPS_LOCK_DELAY val 0x20) else val in
    zynq_g_reg_write ZYNQ_G_GPS_CONFIG_2 val;;
    spin_unlock L_zdev).

Definition zynq_gps_status : M gps_ctx Z := zynq_g_reg_read ZYNQ_G_STATUS.

Definition zynq_gps_init : M gps_ctx unit :=
  if zynq_fwupdate_param then mret tt
  else
    spin_lock L_zynq_gps;;
    master ← gets zynq_gps_master_dev;
    if negb (bool_decide (master = MasterNone)) then spin_unlock L_zynq_gps
    else
      modify (fun s => s<|zynq_gps_master_dev := MasterThis|>);;
      spin_unlock L_zynq_gps;;
      zynq_gps_config;;
      zynq_gps_status;;
      zynq_gps_thread_init.

(** whether this device is the master *)
Definition is_master : M gps_ctx bool :=
  spin_lock L_zynq_gps;;
  master ← gets zynq_gps_master_dev;
  spin_unlock L_zynq_gps;;
  mret (bool_decide (master = MasterThis)).

Definition zynq_gps_fini : M gps_ctx unit :=
  spin_lock L_zynq_gps;;
  master ← gets zynq_gps_master_dev;
  if negb (bool_decide (master = MasterThis)) then spin_unlock L_zynq_gps
  else
    modify (fun s => s<|zynq_gps_master_dev := MasterNone|>);;
    spin_unlock L_zynq_gps;;
    zynq_gps_thread_fini.

Definition zynq_gps_pps_changed : M gps_ctx unit :=
  (* notify the waiting thread *)
  tell (Complete C_gpspps);;
  status ← zynq_gps_status;
  let locked := tst status ZYNQ_STATUS_GPS_LOCKED in
  when (negb locked)
    (zoom gp_zdev (fun d s => s<|gp_zdev := d|>) (ZYNQ_STATS_LOGX DEV_STATS_GPS_UNLOCK 1 0));;
  smooth ← has_cap ZYNQ_HW_CAP_GPS_SMOOTH;
  if smooth && locked then
    mine ← is_master;
    if negb (mine : bool) then mret tt
    else
      zynq_gps_config;;
      spin_lock L_zdev;;
      status ← zynq_g_reg_read ZYNQ_G_GPS_STATUS;
      spin_unlock L_zdev;;
      when (tst status ZYNQ_GPS_SMOOTH_IN_PROGRESS) (tell (Complete C_gps_wait))
  else mret tt.

(** ** The device file *)
Definition zynq_gps_ioctl (cmd arg : Z) : M gps_ctx Z :=
  if cmd =? ZYNQ_IOC_GPS_GET then
    v ← zynq_get_gps_time;
    match v with
    | None => mret (- EAGAIN)
    | Some v =>
        ok ← copy_to_user arg ZYNQ_GPS_VAL_SZ [gv_lo v; gv_hi v; gv_date v];
        mret (if (ok : bool) then 0 else - EFAULT)
    end
  else if cmd =? ZYNQ_IOC_GPS_GPRMC_GET then
    l ← zynq_get_gprmc;
    match l with
    | None => mret (- EAGAIN)
    | Some l =>
        ok ← copy_to_user arg ZYNQ_GPS_GPRMC_VAL_SZ l;
        mret (if (ok : bool) then 0 else - EFAULT)
    end
  else if cmd =? ZYNQ_IOC_GPS_SYNC then
    mine ← is_master;
    if negb (mine : bool) then mret (- EPERM)
    else
      rc ← zynq_do_gps_sync;
      mret (if rc =? 0 then 0 else - EAGAIN)
  else if cmd =? ZYNQ_IOC_GPS_FPGA_INIT then
    mine ← is_master;
    if negb (mine : bool) then mret (- EPERM) else zynq_gps_init_fpga_time
  else mret (- EINVAL).

Definition zynq_gps_open : M gps_ctx Z := mret 0.
Definition zynq_gps_release : M gps_ctx Z := mret 0.
End gps.

(** ** What a run did *)

(** the times the driver set, and the values it read from the time registers,
    newest first *)
Definition sets (l : list event) : list timespec :=
  omap (fun e => match ev_call e with
                 | KernelCall name [s; ns] => if String.eqb name "do_settimeofday64" then Some (Timespec s ns) else None
                 | _ => None
                 end) l.
Definition is_time_reg (r : Z) : bool := (r =? ZYNQ_G_NTP_LO) || (r =? ZYNQ_G_NTP_HI) || (r =? ZYNQ_G_NTP_DATE).
Definition time_reads (l : list event) : list Z :=
  omap (fun e => match ev_call e with
                 | MmioRead (BAR0, r) => if is_time_reg r then Some (u32 (ev_ret e)) else None
                 | _ => None
                 end) l.

(** the low register holds a time the driver may use *)
Definition usable (s : gps_ctx) (lo : Z) : bool :=
  negb (lo =? 0xFFFFFFFF)
  && (tst lo ZYNQ_GPS_TIME_VALID || (ZYNQ_CAP (gp_zdev s) ZYNQ_HW_CAP_GPS_SMOOTH && zynq_gps_valid_once s)).

(** [w'] follows [w]; only the flag for a valid time may have been set *)
Record looked (w w' : world gps_ctx) : Prop := Looked {
  lk_held : w_held w' = w_held w;
  lk_st : w_st w' = (w_st w)<|zynq_gps_valid_once := zynq_gps_valid_once (w_st w')|>;
  lk_mono : zynq_gps_valid_once (w_st w) = true -> zynq_gps_valid_once (w_st w') = true;
  lk_sets : sets (w_log w') = sets (w_log w);
  lk_writes : forall a, last_write a (w_log w') = last_write a (w_log w)
}.

Section gps_rules.
Context `{Env} `{ModParams} `{Calendar}.
Context (Hbring : zynq_bringup_param = false).
Implicit Types w : world gps_ctx.

Lemma looked_refl w : looked w w.
Proof. constructor; try done. by destruct w as [? ? []]. Qed.
Lemma looked_trans w1 w2 w3 : looked w1 w2 -> looked w2 w3 -> looked w1 w3.
Proof.
  intros [Hh Hs Hm Hl Hw] [Hh' Hs' Hm' Hl' Hw']. constructor; [congruence | | auto | congruence | congruence].
  rewrite Hs', Hs at 1. done.
Qed.

Lemma looked_at w l h s : sets l = sets (w_log w) -> (forall a, last_write a l = last_write a (w_log w)) -> h = w_held w -> s = w_st w -> looked w (World l h s).
Proof. intros Hl Hw -> ->. constructor; try done. by destruct w as [? ? []]. Qed.
Lemma looked_once w l h s :
  looked w (World l h s) -> looked w (World l h (s<|zynq_gps_valid_once := true|>)).
Proof. intros [Hh Hs _ Hl Hw]. cbn in Hh, Hs, Hl. constructor; [done | by rewrite Hs | done | done | done]. Qed.

Lemma wp_g_read {S} reg (w : world S) (Q : Z -> world S -> Prop) :
  (forall r, Q (u32 r) (emit (Ev (MmioRead (BAR0, reg)) r) w)) -> wp (zynq_g_reg_read reg) Q w.
Proof using Hbring. intros HQ. unfold zynq_g_reg_read. apply wp_io_read; [done |]. intros r _. apply HQ. Qed.

Lemma wp_check_valid_once w (Q : bool -> world gps_ctx -> Prop) :
  (forall b w', looked w w' -> time_reads (w_log w') = time_reads (w_log w) ->
     b = ZYNQ_CAP (gp_zdev (w_st w)) ZYNQ_HW_CAP_GPS_SMOOTH && zynq_gps_valid_once (w_st w') -> Q b w') ->
  wp check_valid_once Q w.
Proof using Hbring.
  intros HQ. unfold check_valid_once, has_cap, gdev. do 2 apply wp_bind. apply wp_gets, wp_ret.
  apply wp_bind, wp_gets, wp_bind.
  apply wp_mono with (fun _ w' => looked w w' /\ time_reads (w_log w') = time_reads (w_log w)).
  - apply wp_when; intros _; [| split; [apply looked_refl | done]].
    apply wp_bind, wp_g_read. intros r. destruct (tst (u32 r) ZYNQ_GPS_TIME_VALID).
    + apply wp_modify. split; [| done]. apply looked_once. by apply looked_at.
    + apply wp_bind, wp_g_read. intros r2. apply wp_when; intros _; [apply wp_modify |]; (split; [| done]).
      * apply looked_once. by apply looked_at.
      * by apply (looked_at w (w_log (emit _ (emit _ w)))).
  - intros [] w' [Hl Ht]. apply wp_bind, wp_gets, wp_ret, HQ; done.
Qed.

Lemma wp_get_gps_time w (Q : option gps_val -> world gps_ctx -> Prop) :
  L_zdev ∉ w_held w ->
  (forall w' lo, looked w w' -> time_reads (w_log w') = lo :: time_reads (w_log w) ->
     usable (w_st w') lo = false -> Q None w') ->
  (forall w' v, looked w w' ->
     time_reads (w_log w') = [gv_date v; gv_hi v; gv_lo v] ++ time_reads (w_log w) ->
     usable (w_st w') (gv_lo v) = true -> Q (Some v) w') ->
  wp zynq_get_gps_time Q w.
Proof using Hbring.
  intros Hl Hnone Hsome. unfold zynq_get_gps_time. apply wp_bind, wp_spin_lock; [done |].
  apply wp_bind, wp_g_read. intros r. set (lo := u32 r).
  assert (forall (w1 : world gps_ctx), w_held w1 = L_zdev :: w_held w -> looked w (World (w_log w1) (w_held w) (w_st w1)) ->
    forall A (a : A) (P : A -> world gps_ctx -> Prop),
      (forall w2, looked w w2 -> w_st w2 = w_st w1 -> time_reads (w_log w2) = time_reads (w_log w1) -> P a w2) ->
      wp (spin_unlock L_zdev;; mret a) P w1) as Hun.
  { intros w1 Hh1 Hl1 A a P HP. apply wp_bind. eapply wp_spin_unlock; [exact Hh1 | done |]. apply wp_ret, HP; [| done | done]. destruct Hl1; by constructor. }
  destruct (Z.eqb_spec lo 0xFFFFFFFF) as [E|E].
  { apply Hun; [done | by apply looked_at |]. intros w2 L2 S2 T2. apply (Hnone _ lo); [done | by rewrite T2 |].
    unfold usable. by rewrite (proj2 (Z.eqb_eq _ _) E). }
  apply wp_bind.
  apply wp_mono with (fun b w1 => w_held w1 = L_zdev :: w_held w /\
    looked w (World (w_log w1) (w_held w) (w_st w1)) /\
    time_reads (w_log w1) = lo :: time_reads (w_log w) /\ b = usable (w_st w1) lo).
  { unfold usable. rewrite (proj2 (Z.eqb_neq _ _) E). cbn [negb andb].
    destruct (tst lo ZYNQ_GPS_TIME_VALID); cbn [negb orb].
    - apply wp_bind, wp_modify, wp_ret. split; [done |]. split; [| done]. by constructor.
    - apply wp_check_valid_once. intros b w1 [Hh1 Hs1 Hm1 Hl1 Hw1] Ht1 ->. split; [exact Hh1 |].
      split; [by constructor |]. split; [by rewrite Ht1 |]. rewrite Hs1. done. }
  intros b w1 (Hh1 & L1 & T1 & ->). destruct (usable (w_st w1) lo) eqn:Eu; cbn [negb].
  - apply wp_bind, wp_g_read. intros r1. apply wp_bind, wp_g_read. intros r2.
    apply Hun; [exact Hh1 | |].
    { destruct L1 as [_ Hs Hm Hset Hw]. constructor; done. }
    intros w2 L2 S2 T2. apply Hsome; [done | | cbn; by rewrite S2]. rewrite T2. cbn. by rewrite <- T1.
  - apply Hun; [done | done |]. intros w2 L2 S2 T2. apply (Hnone _ lo); [done | by rewrite T2, T1 | by rewrite S2].
Qed.
End gps_rules.

(** ** The fields of the time registers *)
Lemma GET_BITS_lor f a b : GET_BITS f (Z.lor a b) = Z.lor (GET_BITS f a) (GET_BITS f b).
Proof. unfold GET_BITS. by rewrite Z.shiftr_lor, Z.land_lor_distr_l. Qed.

Lemma GET_BITS_u32 f v : field_wf f = true -> GET_BITS f (u32 v) = GET_BITS f v.
Proof.
  intros Hf. rewrite !GET_BITS_bf by done. destruct (field_wf_bounds _ Hf) as (Ho & Hw & Hb).
  apply Z.bits_inj'. intros n Hn. rewrite !testbit_bf_get by done.
  destruct (Z.ltb_spec n (field_width f)); [| done]. unfold u32.
  rewrite Z.mod_pow2_bits_low by lia. done.
Qed.

Lemma shiftr_masked v m o : 0 <= o -> Z.shiftr (Z.land v (Z.shiftl m o)) o = Z.land (Z.shiftr v o) m.
Proof. intros Ho. by rewrite Z.shiftr_land, Z.shiftr_shiftl_l, Z.sub_diag, Z.shiftl_0_r by done. Qed.

Lemma year_of v : Z.land v 0xff = GET_BITS ZYNQ_GPS_TIME_YEAR v.
Proof. unfold GET_BITS. cbn [f_off f_mask ZYNQ_GPS_TIME_YEAR]. by rewrite Z.shiftr_0_r. Qed.
Lemma mon_of v : Z.shiftr (Z.land v 0xff00) 8 = GET_BITS ZYNQ_GPS_TIME_MON v.
Proof. exact (shiftr_masked v 0xff 8 ltac:(lia)). Qed.
Lemma day_of v : Z.shiftr (Z.land v 0xff0000) 16 = GET_BITS ZYNQ_GPS_TIME_DAY v.
Proof. exact (shiftr_masked v 0xff 16 ltac:(lia)). Qed.
Lemma nsec_of v : Z.shiftl (Z.land v 0xfe) 2 = GET_BITS ZYNQ_GPS_TIME_NSEC v * 8.
Proof.
  unfold GET_BITS. cbn [f_off f_mask ZYNQ_GPS_TIME_NSEC]. change ZYNQ_GPS_TIME_NSEC_OFFSET with 1.
  change ZYNQ_GPS_TIME_NSEC_MASK with (Z.ones 7). change 0xfe with (Z.shiftl (Z.ones 7) 1).
  rewrite <- (shiftr_masked v (Z.ones 7) 1) by lia. set (x := Z.land v _).
  assert (x mod 2 = 0) as Hx.
  { unfold x. rewrite <- Z.bit0_mod, Z.land_spec, andb_comm. done. }
  rewrite Z.shiftl_mul_pow2, Z.shiftr_div_pow2 by lia. change (2 ^ 1) with 2. change (2 ^ 2) with 4.
  pose proof (Z.div_mod x 2 ltac:(lia)). lia.
Qed.

(** what the date register decodes to when the old fields were empty *)
Definition date_empty (val : Z) : Prop :=
  GET_BITS ZYNQ_GPS_TIME_DAY val = 0 /\ GET_BITS ZYNQ_GPS_TIME_MON val = 0 /\ GET_BITS ZYNQ_GPS_TIME_YEAR val = 0.

Lemma put f w v x : field_wf f = true -> f_mask f = Z.ones w -> 0 <= w -> 0 <= x < 2 ^ w ->
  GET_BITS f (SET_BITS f v x) = x.
Proof. intros Hf Hm Hw Hx. rewrite GET_SET_same, Hm by done. by apply land_ones_small. Qed.

Lemma date_decodes val t :
  date_empty val -> 0 <= tm_mday t < 256 -> 0 <= tm_mon t < 255 -> 100 <= tm_year t < 356 ->
  let d := u32 (gps_date_bits val t) in
  GET_BITS ZYNQ_GPS_TIME_DAY d = tm_mday t /\ GET_BITS ZYNQ_GPS_TIME_MON d = tm_mon t + 1 /\
  GET_BITS ZYNQ_GPS_TIME_YEAR d = tm_year t - 100.
Proof.
  intros (Hd & Hm & Hy) ? ? ?. cbv zeta. unfold gps_date_bits.
  split_and!; rewrite GET_BITS_u32, !GET_BITS_lor by done;
    rewrite (put _ 8) by (done || lia); rewrite !GET_SET_other by done;
    rewrite ?Hd, ?Hm, ?Hy; by rewrite ?Z.lor_0_r, ?Z.lor_0_l.
Qed.

Lemma hms_decodes t :
  0 <= tm_sec t < 256 -> 0 <= tm_min t < 256 -> 0 <= tm_hour t < 256 ->
  let h := u32 (gps_hms_bits t) in
  GET_BITS ZYNQ_GPS_TIME_SEC h = tm_sec t /\ GET_BITS ZYNQ_GPS_TIME_MIN h = tm_min t /\
  GET_BITS ZYNQ_GPS_TIME_HOUR h = tm_hour t.
Proof.
  intros ? ? ?. cbv zeta. unfold gps_hms_bits.
  split_and!; rewrite GET_BITS_u32, !GET_BITS_lor by done;
    rewrite (put _ 8) by (done || lia); rewrite !GET_SET_other by done; by rewrite ?Z.lor_0_r, ?Z.lor_0_l.
Qed.

Lemma frac_decodes nsec :
  0 <= nsec < 10 ^ 9 ->
  let l := u32 (gps_frac_bits nsec) in
  GET_BITS ZYNQ_GPS_TIME_NSEC l = nsec mod 1000 / 8 /\
  GET_BITS ZYNQ_GPS_TIME_USEC l = nsec / 1000 mod 1000 /\
  GET_BITS ZYNQ_GPS_TIME_MSEC l = nsec / 1000000 /\ tst l ZYNQ_GPS_TIME_VALID = true.
Proof.
  intros Hn. cbv zeta. pose proof (Z.mod_pos_bound nsec 1000 ltac:(lia)).
  pose proof (Z.mod_pos_bound (nsec / 1000) 1000 ltac:(lia)).
  assert (0 <= nsec mod 1000 / 8 < 128) as Hns.
  { split; [apply Z.div_pos; lia | apply Z.div_lt_upper_bound; lia]. }
  assert (0 <= nsec / 1000000 < 4096) as Hms.
  { split; [apply Z.div_pos; lia | apply Z.div_lt_upper_bound; lia]. }
  assert (0 <= nsec / 1000) by (apply Z.div_pos; lia).
  assert (gps_frac_bits nsec = Z.lor (Z.lor (Z.lor (SET_BITS ZYNQ_GPS_TIME_NSEC 0 (nsec mod 1000 / 8))
    (SET_BITS ZYNQ_GPS_TIME_USEC 0 (nsec / 1000 mod 1000)))
    (SET_BITS ZYNQ_GPS_TIME_MSEC 0 (nsec / 1000000))) ZYNQ_GPS_TIME_VALID) as ->.
  { unfold gps_frac_bits, NSEC_PER_USEC, USEC_PER_MSEC, NSEC_PER_MSEC.
    rewrite Z.rem_mod_nonneg, !Z.quot_div_nonneg, Z.rem_mod_nonneg by lia. by rewrite Z.shiftr_div_pow2. }
  split_and!.
  1-3: rewrite GET_BITS_u32, !GET_BITS_lor by done;
    first [rewrite (put _ 7) by (done || lia) | rewrite (put _ 12) by (done || lia)];
    rewrite !GET_SET_other by done; by rewrite ?Z.lor_0_r, ?Z.lor_0_l.
  unfold tst. apply negb_true_iff, Z.eqb_neq. intros E0. apply (f_equal (fun z => Z.testbit z 0)) in E0.
  rewrite Z.land_spec in E0. unfold u32 in E0. rewrite Z.mod_pow2_bits_low, Z.lor_spec in E0 by lia.
  change (Z.testbit ZYNQ_GPS_TIME_VALID 0) with true in E0. by rewrite orb_true_r in E0.
Qed.

(** ** Theorems *)
Section gps_theorems.
Context `{Env} `{ModParams} `{Calendar}.

(** the members of the device a synchronisation changes *)
Definition sync_state (s : gps_ctx) : timespec * timespec * Z :=
  (zdev_gps_ts_first (gp_zdev s), zdev_gps_ts (gp_zdev s), zdev_gps_cnt (gp_zdev s)).
Definition synced (ts : timespec) (x : timespec * timespec * Z) : timespec * timespec * Z :=
  let '(first, _, cnt) := x in ((if tv_sec first =? 0 then ts else first), ts, u32 (cnt + 1)).

Lemma wp_read_both (Hbring : zynq_bringup_param = false) (w : world gps_ctx)
    (Q : option (timespec * gps_val) -> world gps_ctx -> Prop) :
  L_zdev ∉ w_held w ->
  (forall w' lo, looked w w' -> time_reads (w_log w') = lo :: time_reads (w_log w) ->
     usable (w_st w') lo = false -> Q None w') ->
  (forall w' sys v, looked w w' ->
     time_reads (w_log w') = [gv_date v; gv_hi v; gv_lo v] ++ time_reads (w_log w) ->
     usable (w_st w') (gv_lo v) = true -> Q (Some (sys, v)) w') ->
  wp read_both Q w.
Proof.
  intros Hl Hnone Hsome. unfold read_both, gdev, ktime_get_real_ts. apply wp_bind, wp_gets.
  destruct (tst _ 1).
  - apply wp_bind. apply wp_bind, wp_ask. intros sec _. apply wp_bind, wp_ask. intros nsec _. apply wp_ret.
    apply wp_bind, (wp_get_gps_time Hbring); [done | |].
    + intros w' lo L T U. apply wp_ret, (Hnone _ lo); [| done | done].
      destruct L as [Hh Hs Hm Hset Hw]. by constructor.
    + intros w' v L T U. apply wp_ret, Hsome; [| done | done].
      destruct L as [Hh Hs Hm Hset Hw]. by constructor.
  - apply wp_bind, (wp_get_gps_time Hbring); [done | |].
    + intros w' lo L T U. by apply wp_ret, (Hnone _ lo).
    + intros w' v L T U. apply wp_bind, wp_bind, wp_ask. intros sec _. apply wp_bind, wp_ask. intros nsec _.
      apply wp_ret, wp_ret, Hsome; [| done | done]. destruct L as [Hh Hs Hm Hset Hw]. by constructor.
Qed.


(** the calendar's conversions are inverse at a time, and in range there *)
Definition calendar_ok (sec : Z) : Prop :=
  let t := time64_to_tm sec in
  mktime (tm_year t + 1900) (tm_mon t + 1) (tm_mday t) (tm_hour t) (tm_min t) (tm_sec t) = sec /\
  0 <= tm_sec t <= 60 /\ 0 <= tm_min t < 60 /\ 0 <= tm_hour t < 24 /\ 1 <= tm_mday t <= 31 /\
  0 <= tm_mon t < 12 /\ 100 <= tm_year t < 356.

Lemma fields_decode sec nsec old :
  calendar_ok sec -> 0 <= nsec < 10 ^ 9 -> date_empty old ->
  let t := time64_to_tm sec in
  zynq_gps_time_ts (GpsVal (u32 (gps_frac_bits nsec)) (u32 (gps_hms_bits t)) (u32 (gps_date_bits old t)))
  = Timespec sec (nsec - nsec mod 1000 mod 8).
Proof.
  intros (Hcal & Hs & Hm & Hh & Hd & Hmo & Hy) Hn Hold. cbv zeta. unfold zynq_gps_time_ts. cbn [gv_lo gv_hi gv_date].
  set (t := time64_to_tm sec) in *.
  destruct (date_decodes old t Hold) as (Ed & Em & Ey); [lia | lia | lia |].
  destruct (hms_decodes t) as (Es & Emi & Eh); [lia | lia | lia |].
  destruct (frac_decodes nsec Hn) as (En & Eu & Ems & _).
  rewrite year_of, mon_of, day_of, Ed, Em, Ey.
  set (h := u32 (gps_hms_bits t)) in *. set (l := u32 (gps_frac_bits nsec)) in *.
  assert (Z.shiftr (Z.land h 0xff0000) 16 = tm_hour t) as -> by exact (eq_trans (shiftr_masked h 0xff 16 ltac:(lia)) Eh).
  assert (Z.shiftr (Z.land h 0xff00) 8 = tm_min t) as -> by exact (eq_trans (shiftr_masked h 0xff 8 ltac:(lia)) Emi).
  assert (Z.land h 0xff = tm_sec t) as -> by (rewrite <- Es; unfold GET_BITS; by rewrite Z.shiftr_0_r).
  rewrite nsec_of, En.
  assert (Z.land (Z.shiftr l 8) 0xfff = nsec / 1000 mod 1000) as -> by exact Eu.
  assert (Z.land (Z.shiftr l 20) 0xfff = nsec / 1000000) as -> by exact Ems.
  f_equal.
  - etransitivity; [| exact Hcal]. f_equal. lia.
  - unfold NSEC_PER_USEC, NSEC_PER_MSEC. change 1000000 with (1000 * 1000). rewrite <- Z.div_div by lia.
    pose proof (Z.div_mod nsec 1000 ltac:(lia)). pose proof (Z.div_mod (nsec / 1000) 1000 ltac:(lia)).
    pose proof (Z.div_mod (nsec mod 1000) 8 ltac:(lia)). lia.
Qed.

(** C33.  The time given to the FPGA reads back.  When the FPGA never had a valid
    time, setting its clock writes registers from which the driver's own
    conversion gets back the second of the system time, and its nanoseconds
    rounded down to a multiple of 8 within the microsecond, marked valid; for
    the years 2000 to 2155, which the year's byte can hold, and provided the date
    register's fields were empty, because the code ors the new date to them.
    When there was a valid time the request is refused and no register is
    written. *)
Theorem fpga_time_roundtrip (w : world gps_ctx) (sec nsec : Z)
    (Hbring : zynq_bringup_param = false) (Hl : L_zdev ∉ w_held w)
    (Hcap : ZYNQ_CAP (gp_zdev (w_st w)) ZYNQ_HW_CAP_FPGA_TIME_INIT = true)
    (Hsec : forall l, env_ret l KtimeSec = sec) (Hnsec : forall l, env_ret l KtimeNsec = nsec)
    (Hn : 0 <= nsec < 10 ^ 9) (Hcal : calendar_ok sec)
    (Hdate : forall l, date_empty (u32 (env_ret l (MmioRead (BAR0, ZYNQ_G_GPS_CONFIG_2))))) :
  wp zynq_gps_init_fpga_time (fun rc w' =>
    w_held w' = w_held w /\
    ((rc = - EAGAIN /\ zynq_gps_valid_once (w_st w') = true /\
      forall a, last_write a (w_log w') = last_write a (w_log w))
     \/ (rc = 0 /\ zynq_gps_valid_once (w_st w') = false /\
         exists lo hi date,
           last_write (BAR0, ZYNQ_G_GPS_TIME_LO_INIT) (w_log w') = Some lo /\
           last_write (BAR0, ZYNQ_G_GPS_TIME_HI_INIT) (w_log w') = Some hi /\
           last_write (BAR0, ZYNQ_G_GPS_CONFIG_2) (w_log w') = Some date /\
           tst lo ZYNQ_GPS_TIME_VALID = true /\
           zynq_gps_time_ts (GpsVal lo hi date) = Timespec sec (nsec - nsec mod 1000 mod 8)))) w.
Proof.
  unfold zynq_gps_init_fpga_time, has_cap, gdev. do 2 apply wp_bind. apply wp_gets, wp_ret. rewrite Hcap.
  cbn [negb]. apply wp_bind. apply wp_mono with (fun _ w1 => looked w w1).
  { apply (wp_get_gps_time Hbring); [done | |]; by intros. }
  intros _ w1 [Hh1 _ _ _ Hw1]. apply wp_bind, wp_spin_lock; [by rewrite Hh1 |].
  apply wp_bind, wp_gets. cbn [w_log w_held w_st].
  destruct (zynq_gps_valid_once (w_st w1)) eqn:Eo.
  { apply wp_bind. eapply wp_spin_unlock; [reflexivity | by rewrite Hh1 |]. apply wp_ret.
    split; [done |]. left. split; [done |]. split; [done |]. exact Hw1. }
  unfold ktime_get_real_ts. apply wp_bind, wp_bind, wp_ask. intros s1 ->. rewrite Hsec.
  apply wp_bind, wp_ask. intros s2 ->. rewrite Hnsec. apply wp_ret. cbn [tv_sec tv_nsec].
  apply wp_bind, wp_io_read; [done |]. intros old ->. set (log := w_log _). specialize (Hdate log).
  set (v := u32 (env_ret log _)) in *.
  unfold zynq_g_reg_write. do 3 (apply wp_bind, wp_io_write; [done |]).
  apply wp_bind. eapply wp_spin_unlock; [reflexivity | by rewrite Hh1 |]. apply wp_ret.
  split; [done |]. right. split; [done |]. split; [exact Eo |].
  exists (u32 (gps_frac_bits nsec)), (u32 (gps_hms_bits (time64_to_tm sec))), (u32 (gps_date_bits v (time64_to_tm sec))).
  split_and!; [done | done | done | by apply frac_decodes |]. by apply fields_decode.
Qed.
End gps_theorems.

(** ** Witnesses *)
Module GpsWitness.
#[local] Existing Instance params_default.

(** the proleptic Gregorian calendar *)
Definition greg_mktime (year mon day hour min sec : Z) : Z :=
  let '(mon, year) := if mon - 2 <=? 0 then (mon - 2 + 12, year - 1) else (mon - 2, year) in
  (((year / 4 - year / 100 + year / 400 + 367 * mon / 12 + day + year * 365 - 719499) * 24 + hour) * 60 + min) * 60 + sec.
Definition greg_tm (t : Z) : tm :=
  let s := t mod 86400 in
  let z := t / 86400 + 719468 in
  let doe := z mod 146097 in
  let yoe := (doe - doe / 1460 + doe / 36524 - doe / 146096) / 365 in
  let doy := doe - (365 * yoe + yoe / 4 - yoe / 100) in
  let mp := (5 * doy + 2) / 153 in
  let m := if mp <? 10 then mp + 3 else mp - 9 in
  let y := yoe + z / 146097 * 400 + (if m <=? 2 then 1 else 0) in
  Tm (s mod 60) (s / 60 mod 60) (s / 3600) (doy - (153 * mp + 2) / 5 + 1) (m - 1) (y - 1900).
#[local] Instance gregorian : Calendar := {| mktime := greg_mktime; time64_to_tm := greg_tm |}.

Definition now : Z := 1577934245.        (* 2020-01-02 03:04:05 *)
Lemma now_ok : calendar_ok now.
Proof. vm_compute. repeat split; discriminate. Qed.

(** the FPGA: time registers, and a date register with the fields [date] *)
Definition fpga (lo date : Z) : Env := fun _ c =>
  match c with
  | MmioRead (BAR0, r) =>
      if r =? ZYNQ_G_NTP_LO then lo
      else if r =? ZYNQ_G_NTP_HI then 0x030405
      else if r =? ZYNQ_G_NTP_DATE then 0x020114
      else if r =? ZYNQ_G_GPS_CONFIG_2 then date else 0
  | KtimeSec => now
  | KtimeNsec => 123456789
  | WaitCompletion _ _ => 1
  | _ => 0
  end.
Definition device : zynq_dev := zdev_sample<|zdev_hw_cap := ZYNQ_HW_CAP_FPGA_TIME_INIT|>.
Definition world_g (d : zynq_dev) : world gps_ctx := World [] [] (GpsCtx d MasterThis false false).

Definition clock (r : outcome gps_ctx Z) : option (Z * list timespec) :=
  match r with Ret rc w => Some (rc, sets (w_log w)) | _ => None end.
Example sync_runs :
  (clock (zynq_do_gps_sync (H := fpga 0x1234561B 0) (world_g device)),
   clock (zynq_do_gps_sync (H := fpga 0x1234561A 0) (world_g device)))
  = (Some (0, [Timespec now (0x1A * 4 + 0x456 * 1000 + 0x123 * 1000000)]), Some (-1, [])).
Proof. vm_compute. reflexivity. Qed.

(** a gap of an hour is above the high mark, and the clock is set all the same *)
Definition synced_before : zynq_dev := device<|zdev_gps_ts := Timespec (now - 10) 0|>.
Example high_gap_syncs :
  gap_check synced_before (Timespec now 0) (s32 (-3600 * 1000000)) = Gap_high /\
  clock (zynq_do_gps_sync (H := fun l c => match c with KtimeSec => now - 3600 | _ => fpga 0x1234561B 0 l c end)
    (world_g synced_before)) = Some (0, [Timespec now (0x1A * 4 + 0x456 * 1000 + 0x123 * 1000000)]).
Proof. vm_compute. split; reflexivity. Qed.

(** a gap of 4294 s and 967296 us is no gap for the check *)
Example gap_wraps : gap_check synced_before (Timespec now 0) (s32 (4294 * 1000000 + 967296)) = Gap_ok.
Proof. vm_compute. reflexivity. Qed.

(** the longest wait, of 100 days in milliseconds, wraps: less than 14 hours *)
Example longest_wait : u32 (ZYNQ_GPS_SYNC_TIME_MAX * 1000) = 50065408 /\ 50065408 < 14 * 3600 * 1000.
Proof. vm_compute. split; reflexivity. Qed.

(** the thread reads the master device after the device has gone *)
Example thread_after_fini :
  match zynq_gps_sync_thread (H := fpga 0 0) 3 zynq_gps_fini (world_g device) with
  | Fault NullDeref => True | _ => False
  end.
Proof. vm_compute. exact I. Qed.

(** with an old date in the register, the new one is mixed with it *)
Definition date_written (old : Z) : option Z :=
  match zynq_gps_init_fpga_time (H := fpga 0 old) (world_g device) with
  | Ret _ w => last_write (BAR0, ZYNQ_G_GPS_CONFIG_2) (w_log w) | _ => None
  end.
Example date_mixed :
  (date_written 0, date_written 0x1F0C13) = (Some 0x20020114, Some 0x201F0D17).
Proof. vm_compute. reflexivity. Qed.


Lemma fpga_time_roundtrip_witness :
  wp (zynq_gps_init_fpga_time (H := fpga 0 0)) (fun rc w' =>
    rc = - EAGAIN \/ (rc = 0 /\ exists v, zynq_gps_time_ts v = Timespec now 123456784)) (world_g device).
Proof.
  eapply wp_mono.
  - apply (fpga_time_roundtrip (H := fpga 0 0) (world_g device) now 123456789);
      [reflexivity | apply not_elem_of_nil | reflexivity | reflexivity | reflexivity | lia | exact now_ok |].
    intros l. vm_compute. repeat split; reflexivity.
  - intros rc w' [_ [(-> & _) | (-> & _ & lo & hi & date & _ & _ & _ & _ & E)]]; [by left | right].
    split; [done |]. exists (GpsVal lo hi date). rewrite E. reflexivity.
Defined.
End GpsWitness.
