(* ===== verification/CamHci.v ===== *)
(** * Host command interface of the cameras ([basa_cam_hci.c])

    A camera is reached over I2C bus 2.  Its deserialiser (chip 0x60 and the
    camera's index) is told the bus address of the image processor (0x48) for
    the time of a session, and the processor's registers are read and written a
    byte at a time, 16- and 32-bit ones most significant byte first.  Commands
    go through a doorbell register and a pool of 256 parameter bytes; the
    camera's flash is read and written through them in chunks. *)

From S2P Require Import Kernel Frames Regs Api Device I2c Video VideoMeta.

(** ** Constants *)
Definition I2C_ID_CAM_DES_PRLL (i : Z) : Z := 0x60 + i.
Definition I2C_ID_CAM_ISP : Z := 0x48.
Definition ZCAM_WAIT_DELAY : Z := 100.
Definition ZCAM_WAIT_RETRY : Z := 50.

Definition REG_MODE_SYNC_TYPE : Z := 0xC891.
Definition REG_MON_MAJOR_VERSION : Z := 0x8000.
Definition REG_MON_MINOR_VERSION : Z := 0x8002.
Definition REG_UNIQUE_ID : Z := 0x802C.
Definition REG_SNSR_CFG_FRAME_LEN_LINES : Z := 0xC814.
Definition REG_SNSR_CFG_LINE_LEN_PCK : Z := 0xC816.
Definition REG_SNSR_CTRL_OPERATION_MODE : Z := 0xC844.
Definition SNSR_CTRL_EMBD_DATA_ENABLE : Z := 0x1000.
Definition REG_SNSR_CFG_PIXCLK : Z := 0xC80C.
Definition REG_COMMAND : Z := 0x0040.
Definition CMD_DOORBELL : Z := 0x8000.
Definition REG_PARAM_POOL_SIZE : Z := 256.
Definition REG_PARAM_POOL_BASE : Z := 0xFC00.
Definition CMD_EBUSY : Z := 0x09.
Definition CMD_SYS_SET_STATE : Z := 0x8100.
Definition CMD_SYS_GET_STATE : Z := 0x8101.
Definition CMD_FLASH_GET_LOCK : Z := 0x8500.
Definition CMD_FLASH_LOCK_STATUS : Z := 0x8501.
Definition CMD_FLASH_RELEASE_LOCK : Z := 0x8502.
Definition CMD_FLASH_READ : Z := 0x8504.
Definition CMD_FLASH_WRITE : Z := 0x8505.
Definition CMD_FLASH_QUERY_DEVICE : Z := 0x8508.
Definition CMD_FLASH_STATUS : Z := 0x8509.
Definition CMD_FLASH_CONFIG_DEVICE : Z := 0x850A.
Definition SYS_STATE_ENTER_CONFIG_CHANGE : Z := 0x28.
Definition SYS_STATE_STREAMING : Z := 0x31.
Definition FLASH_PAGE_SIZE : Z := 32.
Definition FLASH_READ_LIMIT : Z := REG_PARAM_POOL_SIZE.
Definition FLASH_WRITE_LIMIT : Z := REG_PARAM_POOL_SIZE - 5.

Definition CAM_CAP_CODENAME_SHARPVISION : Z := 1.
Definition CAM_CAP_FEATURE_FLASH_ADDR_16 : Z := 0x1.
Definition CAM_CAP_INTERFACE_PARALLEL : Z := 0.
Definition DEFAULT_FRAME_LINES_230 : Z := 1112.
Definition DEFAULT_LINE_PCK_230 : Z := 2876.
Definition DEFAULT_PIXCLK_230 : Z := 64000000.
Definition DEFAULT_FRAME_LINES_231 : Z := 1238.
Definition DEFAULT_LINE_PCK_231 : Z := 2580.
Definition DEFAULT_PIXCLK_231 : Z := 64000000.

(** driver id, read command, address width, magic number, flash size *)
Definition zcam_dev_cfgs : list (list Z) :=
  [[0x02; 0x00; 0x03; 0x18; 0x00; 0x00; 0x80; 0x00];
   [0x02; 0x00; 0x02; 0x10; 0x00; 0x00; 0x80; 0x00]].

(** module parameters of [basa_video.c] that concern the camera *)
Class CamParams := {
  zynq_video_pin_swap : Z;
  zynq_video_flash_16 : Z
}.

(** [zynq_cam_acc_t] *)
Record zynq_cam_acc := CamAcc { ca_addr : Z; ca_data_sz : Z; ca_data : Z }.

(** the bit fields of [minor_version] *)
Definition code_name (c : zynq_cam_caps) : Z := bf_get 13 3 (minor_version c).
Definition feature (c : zynq_cam_caps) : Z := bf_get 6 2 (minor_version c).
Definition set_feature (f : Z) (c : zynq_cam_caps) : zynq_cam_caps :=
  c<|minor_version ::= fun m => bf_set 6 2 m f|>.

(** ** Text of the camera's name: lists of characters *)
Definition chars (s : string) : list Z := map (fun a => Z.of_N (Ascii.N_of_ascii a)) (String.list_ascii_of_string s).

Definition digit (d : Z) : Z := if d <? 10 then 48 + d else 87 + d.
(** the digits of a number, at least [n] of them *)
Fixpoint digits (fuel : nat) (base : Z) (n : nat) (v : Z) (tail : list Z) : list Z :=
  match fuel with
  | O => tail
  | S fuel' =>
      if (v =? 0) && (n =? 0)%nat then tail
      else digits fuel' base (pred n) (v / base) (digit (v mod base) :: tail)
  end.
(** [%d] of a number that is not negative, [%04x] of a 16-bit one *)
Definition fmt_d (v : Z) : list Z := digits 11 10 1 v [].
Definition fmt_04x (v : Z) : list Z := digits 8 16 4 v [].
(** [snprintf] of the text into a buffer of [n] bytes, terminated *)
Definition snprintf (n : Z) (text buf : list Z) : list Z :=
  let out := take (Z.to_nat (n - 1)) text ++ [0] in out ++ drop (length out) buf.
Definition ZYNQ_FPD_CAM_NAME : list Z := [70; 80; 68].

(** byte [k] of a word in memory, replaced *)
Definition set_byte (v k b : Z) : Z := bf_set (8 * k) 8 v b.

Section hci.
Context `{Env} `{ModParams} `{VideoParams} `{CamParams}.

Definition on_vdev {A} (m : M zynq_dev A) : M vid_ctx A :=
  zoom vc_zdev (fun d s => s<|vc_zdev := d|>) m.
Definition upd_caps (f : zynq_cam_caps -> zynq_cam_caps) : M vid_ctx unit :=
  upd_cam (fun v => v<|caps ::= f|>).
Definition cam_read (reg : Z) : M vid_ctx Z := v ← cam; zvideo_reg_read v reg.
Definition cam_write (reg val : Z) : M vid_ctx unit := v ← cam; zvideo_reg_write v reg val.

(** ** I2C sessions *)

Definition i2c_slave_regs : list Z := [0x10; 0x08].

Definition zcam_i2c_acc_init (zvideo : zynq_video) (addr data : Z) : ioc_zynq_i2c_acc :=
  I2cAcc (u8 (I2C_ID_CAM_DES_PRLL (index zvideo))) 0 addr data 0 2.

(** program the slave id of the image processor *)
Definition zcam_i2c_init : M vid_ctx Z :=
  zvideo ← cam;
  r ← for_break 2 0 (fun i =>
    addr ← array_get i2c_slave_regs i;
    ret ← on_vdev (zdev_i2c_write (zcam_i2c_acc_init zvideo addr (Z.shiftl I2C_ID_CAM_ISP 1)));
    mret (if negb (ret =? 0) then Some ret else None));
  mret (default 0 r).

(** clean the previous settings; errors are ignored *)
Definition zcam_i2c_fini : M vid_ctx unit :=
  zvideo ← cam;
  for_ 2 0 (fun i =>
    addr ← array_get i2c_slave_regs i;
    on_vdev (zdev_i2c_write (zcam_i2c_acc_init zvideo addr 0));; mret tt).

Definition isp_acc (addr data : Z) : ioc_zynq_i2c_acc :=
  I2cAcc I2C_ID_CAM_ISP (Z.land (Z.shiftr addr 8) 0xFF) (Z.land addr 0xFF) data 1 2.

(** the error code and the byte at [*data] afterwards *)
Definition zcam_i2c_read8 (addr data : Z) : M vid_ctx (Z * Z) :=
  '(ret, i2c_acc) ← on_vdev (zdev_i2c_read (isp_acc addr 0));
  mret (ret, if ret =? 0 then i2c_data i2c_acc else data).
Definition zcam_i2c_write8 (addr data : Z) : M vid_ctx Z :=
  on_vdev (zdev_i2c_write (isp_acc addr data)).

(** [n] bytes from [addr], the most significant first *)
Definition read_be (n addr data : Z) : M vid_ctx (Z * Z) :=
  loop (S (Z.to_nat n)) (fun '(i, data) =>
    if i <? n then
      '(ret, b) ← zcam_i2c_read8 (u16 (addr + i)) (byte_of data (n - 1 - i));
      let data := set_byte data (n - 1 - i) b in
      mret (if negb (ret =? 0) then inr (ret, data) else inl (i + 1, data))
    else mret (inr (0, data))) (0, data).
Definition zcam_i2c_read16 (addr data : Z) : M vid_ctx (Z * Z) := read_be 2 addr data.
Definition zcam_i2c_read32 (addr data : Z) : M vid_ctx (Z * Z) := read_be 4 addr data.

Definition write_be (n addr data : Z) : M vid_ctx Z :=
  r ← for_break (Z.to_nat n) 0 (fun i =>
    ret ← zcam_i2c_write8 (u16 (addr + i)) (byte_of data (n - 1 - i));
    mret (if negb (ret =? 0) then Some ret else None));
  mret (default 0 r).
Definition zcam_i2c_write16 (addr data : Z) : M vid_ctx Z := write_be 2 addr data.
Definition zcam_i2c_write32 (addr data : Z) : M vid_ctx Z := write_be 4 addr data.

(** the frame of every request: the device lock, the session, and [end:] *)
Definition zcam_session {A} (body : M vid_ctx (Z * A)) (a : A) : M vid_ctx (Z * A) :=
  spin_lock L_zdev;;
  ret ← zcam_i2c_init;
  r ← (if negb (ret =? 0) then mret (ret, a) else body);
  zcam_i2c_fini;;
  spin_unlock L_zdev;;
  mret r.
Definition zcam_session_ (body : M vid_ctx Z) : M vid_ctx Z :=
  fst <$> zcam_session (ret ← body; mret (ret, tt)) tt.

Definition zcam_reg_read (cam_acc : zynq_cam_acc) : M vid_ctx (Z * zynq_cam_acc) :=
  let data := ca_data cam_acc in
  '(ret, data) ← zcam_session
    (if ca_data_sz cam_acc =? 1 then
       '(ret, b) ← zcam_i2c_read8 (ca_addr cam_acc) (byte_of data 0);
       mret (ret, set_byte data 0 b)
     else if ca_data_sz cam_acc =? 2 then zcam_i2c_read16 (ca_addr cam_acc) data
     else if ca_data_sz cam_acc =? 4 then zcam_i2c_read32 (ca_addr cam_acc) data
     else mret (-1, data)) data;
  mret (ret, CamAcc (ca_addr cam_acc) (ca_data_sz cam_acc) data).
Definition zcam_reg_write (cam_acc : zynq_cam_acc) : M vid_ctx Z :=
  let data := ca_data cam_acc in
  zcam_session_
    (if ca_data_sz cam_acc =? 1 then zcam_i2c_write8 (ca_addr cam_acc) (u8 data)
     else if ca_data_sz cam_acc =? 2 then zcam_i2c_write16 (ca_addr cam_acc) (u16 data)
     else if ca_data_sz cam_acc =? 4 then zcam_i2c_write32 (ca_addr cam_acc) data
     else mret (-1)).

(** ** Commands and parameters *)

(** wait for the doorbell bit to be cleared: an I2C error, or the number of
    reads and the last value *)
Definition wait_doorbell : M vid_ctx (Z + Z * Z) :=
  loop (S (Z.to_nat ZCAM_WAIT_RETRY)) (fun '(i, data) =>
    if (i <? ZCAM_WAIT_RETRY) && tst data CMD_DOORBELL then
      '(ret, data) ← zcam_i2c_read16 REG_COMMAND data;
      if negb (ret =? 0) then mret (inr (inl ret))
      else udelay ZCAM_WAIT_DELAY;; mret (inl (i + 1, data))
    else mret (inr (inr (i, data)))) (0, u16 (-1)).

Definition zcam_command (cmd : Z) : M vid_ctx Z :=
  (* check doorbell before issue the command *)
  '(ret, data) ← zcam_i2c_read16 REG_COMMAND 0;
  if negb (ret =? 0) then mret ret
  else if tst data CMD_DOORBELL then mret (- EAGAIN)
  else
    (* issue the command *)
    ret ← zcam_i2c_write16 REG_COMMAND cmd;
    if negb (ret =? 0) then mret ret
    else
      r ← wait_doorbell;
      mret (match r with
            | inl ret => ret
            | inr (i, data) =>
                if (ZCAM_WAIT_RETRY <=? i) && tst data CMD_DOORBELL then - EAGAIN
                else if (cmd =? CMD_FLASH_STATUS) && (data =? CMD_EBUSY) then - EBUSY
                else if negb (data =? 0) then - EINVAL
                else 0
            end).

(** [data] is the caller's buffer and [off] the position the pointer is at *)
Definition zcam_params_read (start : Z) (data : list Z) (off size : Z) : M vid_ctx (Z * list Z) :=
  if REG_PARAM_POOL_SIZE <? start + size then mret (- EINVAL, data)
  else
    loop (S (Z.to_nat size)) (fun '(i, data) =>
      if i <? size then
        old ← array_get data (off + i);
        '(ret, b) ← zcam_i2c_read8 (u16 (REG_PARAM_POOL_BASE + start + i)) old;
        data ← of_option (Index (off + i)) (zinsert (off + i) b data);
        mret (if negb (ret =? 0) then inr (ret, data) else inl (i + 1, data))
      else mret (inr (0, data))) (0, data).
Definition zcam_params_write (start : Z) (data : list Z) (off size : Z) : M vid_ctx Z :=
  if REG_PARAM_POOL_SIZE <? start + size then mret (- EINVAL)
  else
    r ← for_break (Z.to_nat size) 0 (fun i =>
      b ← array_get data (off + i);
      ret ← zcam_i2c_write8 (u16 (REG_PARAM_POOL_BASE + start + i)) b;
      mret (if negb (ret =? 0) then Some ret else None));
    mret (default 0 r).

Definition zcam_sys_set_state (state : Z) : M vid_ctx Z :=
  ret ← zcam_params_write 0 [state] 0 1;
  if negb (ret =? 0) then mret ret else zcam_command CMD_SYS_SET_STATE.
Definition zcam_sys_get_state (state : Z) : M vid_ctx (Z * Z) :=
  ret ← zcam_command CMD_SYS_GET_STATE;
  if negb (ret =? 0) then mret (ret, state)
  else
    '(ret, data) ← zcam_params_read 0 [state] 0 1;
    mret (ret, data !!! 0%nat).

(** the loop both state changes end with *)
Definition wait_state (state : Z) : M vid_ctx (Z * Z) :=
  loop (S (Z.to_nat ZCAM_WAIT_RETRY)) (fun '(i, state) =>
    if i <? ZCAM_WAIT_RETRY then
      '(ret, state) ← zcam_sys_get_state state;
      if ret =? 0 then mret (inr (0, state))
      else if negb (ret =? - EAGAIN) then mret (inr (ret, state))
      else udelay ZCAM_WAIT_DELAY;; mret (inl (i + 1, state))
    else mret (inr (- EAGAIN, state))) (0, state).

Definition zcam_set_suspend : M vid_ctx Z :=
  zcam_session_ (
    ret ← zcam_sys_set_state 0x40;
    if negb (ret =? 0) then mret ret else fst <$> wait_state 0x40).

Definition zcam_change_config : M vid_ctx Z :=
  zcam_session_ (
    ret ← zcam_sys_set_state SYS_STATE_ENTER_CONFIG_CHANGE;
    if negb (ret =? 0) then mret ret
    else
      '(ret, state) ← wait_state SYS_STATE_ENTER_CONFIG_CHANGE;
      mret (if negb (ret =? 0) then ret
            else if negb (state =? SYS_STATE_STREAMING) then - EINVAL else 0)).

(** ** Flash *)

Definition zcam_flash_get_lock : M vid_ctx Z := zcam_session_ (zcam_command CMD_FLASH_GET_LOCK).
Definition zcam_flash_lock_status : M vid_ctx Z := zcam_session_ (zcam_command CMD_FLASH_LOCK_STATUS).
Definition zcam_flash_release_lock : M vid_ctx Z := zcam_session_ (zcam_command CMD_FLASH_RELEASE_LOCK).

Definition zcam_flash_status : M vid_ctx Z :=
  r ← for_break (Z.to_nat ZCAM_WAIT_RETRY) 0 (fun _ =>
    ret ← zcam_command CMD_FLASH_STATUS;
    if negb (ret =? - EBUSY) then mret (Some ret)
    else udelay ZCAM_WAIT_DELAY;; mret None);
  mret (default (- EBUSY) r).

Definition zcam_flash_query_device : M vid_ctx Z :=
  zcam_session_ (
    ret ← zcam_command CMD_FLASH_QUERY_DEVICE;
    if negb (ret =? 0) then mret ret
    else
      (* the response is ignored *)
      zcam_flash_status;;
      zcam_params_read 0 (replicate 8 0) 0 8;;
      mret 0).

Definition zcam_flash_config_device : M vid_ctx Z :=
  zcam_session_ (
    zvideo ← cam;
    ret ← zcam_params_write 0 (dev_cfg zvideo) 0 8;
    if negb (ret =? 0) then mret ret else zcam_command CMD_FLASH_CONFIG_DEVICE).

(** the address and length parameters; [params] is an array of bytes *)
Definition flash_params (address len : Z) : list Z :=
  [byte_of address 3; byte_of address 2; byte_of address 1; byte_of address 0; u8 len].

(** one chunk read to position [off] of [data] *)
Definition flash_read_chunk (address : Z) (data : list Z) (off len : Z) : M vid_ctx (Z * list Z) :=
  ret ← zcam_params_write 0 (flash_params address len) 0 5;
  if negb (ret =? 0) then mret (ret, data)
  else
    ret ← zcam_command CMD_FLASH_READ;
    if negb (ret =? 0) then mret (ret, data)
    else
      ret ← zcam_flash_status;
      if negb (ret =? 0) then mret (ret, data)
      else zcam_params_read 0 data off (u8 len).

Definition zcam_flash_read (address : Z) (data : list Z) (size : Z) : M vid_ctx (Z * list Z) :=
  zcam_session
    (loop (S (Z.to_nat size)) (fun '(address, off, size, data) =>
       if 0 <? size then
         let len := if FLASH_READ_LIMIT <? size then FLASH_READ_LIMIT else size in
         '(ret, data) ← flash_read_chunk address data off len;
         mret (if negb (ret =? 0) then inr (ret, data)
               else inl (u32 (address + len), off + len, size - len, data))
       else mret (inr (0, data))) (address, 0, size, data)) data.

(** the length of the next write: it should not span a page boundary *)
Definition flash_write_len (address size : Z) : Z :=
  let len := if FLASH_WRITE_LIMIT <? size then FLASH_WRITE_LIMIT else size in
  let off := address mod FLASH_PAGE_SIZE in
  if FLASH_PAGE_SIZE <? off + len then FLASH_PAGE_SIZE - off else len.

Definition flash_write_chunk (address : Z) (data : list Z) (off len : Z) : M vid_ctx Z :=
  ret ← zcam_params_write 0 (flash_params address len) 0 5;
  if negb (ret =? 0) then mret ret
  else
    ret ← zcam_params_write 5 data off (u8 len);
    if negb (ret =? 0) then mret ret
    else
      ret ← zcam_command CMD_FLASH_WRITE;
      if negb (ret =? 0) then mret ret else zcam_flash_status.

Definition zcam_flash_write (address : Z) (data : list Z) (size : Z) : M vid_ctx Z :=
  zcam_session_
    (loop (S (Z.to_nat size)) (fun '(address, off, size) =>
       if 0 <? size then
         let len := flash_write_len address size in
         ret ← flash_write_chunk address data off len;
         mret (if negb (ret =? 0) then inr ret
               else inl (u32 (address + len), off + len, size - len))
       else mret (inr 0)) (address, 0, size)).

(** ** Probing *)

(** the camera's minor version is read up to ten times; a camera of the
    SharpVision family without pin swap is refused with 0xFF *)
Definition probe_version : M vid_ctx Z :=
  loop 11 (fun '(i, ret) =>
    if i <? 10 then
      '(ret, data) ← zcam_i2c_read16 REG_MON_MINOR_VERSION 0;
      if ret =? 0 then
        v ← cam;
        if (Z.shiftr data 13 =? CAM_CAP_CODENAME_SHARPVISION) && (pin_swap (caps v) =? 0)
        then mret (inr 0xFF)
        else upd_caps (fun c => c<|minor_version := data|>);; mret (inr 0)
      else udelay ZCAM_WAIT_DELAY;; mret (inl (i + 1, ret))
    else mret (inr ret)) (0, 0).

(** whether the session was opened, and the result *)
Definition probe_once : M vid_ctx (bool * Z) :=
  ret ← zcam_i2c_init;
  if negb (ret =? 0) then mret (false, ret)
  else ret ← probe_version; mret (true, ret).

Definition probe_reset_i2c : M vid_ctx unit :=
  val ← zynq_g_reg_read ZYNQ_G_RESET;
  let val := Z.lor val ZYNQ_I2C_RESET in
  zynq_g_reg_write ZYNQ_G_RESET val;;
  zynq_g_reg_write ZYNQ_G_RESET (Z.land val (Z.lnot ZYNQ_I2C_RESET)).

Definition set_pin_swap (on : Z) (val : Z) : Z :=
  if negb (on =? 0) then Z.lor val ZYNQ_CAM_PIN_SWAP
  else Z.land val (Z.lnot ZYNQ_CAM_PIN_SWAP).
Definition pin_swap_of (val : Z) : Z := if tst val ZYNQ_CAM_PIN_SWAP then 1 else 0.

(** between the two probes, with the lock released twice *)
Definition probe_swap (ret : Z) : M vid_ctx unit :=
  zcam_i2c_fini;;
  probe_reset_i2c;;
  spin_unlock L_zdev;;
  msleep 20;;
  (* set pin-swap *)
  spin_lock L_zdev;;
  upd_caps (fun c => c<|pin_swap ::= fun p => if p =? 0 then 1 else 0|>);;
  val ← cam_read ZYNQ_CAM_CONFIG;
  v ← cam;
  cam_write ZYNQ_CAM_CONFIG (set_pin_swap (pin_swap (caps v)) val);;
  spin_unlock L_zdev;;
  (if ret =? 0xFF then msleep 20 else msleep 500);;
  spin_lock L_zdev.

(** [end:] of the probe *)
Definition probe_end (orig : Z) (reprobe : bool) (ret : Z) : M vid_ctx Z :=
  when (negb (ret =? 0) && reprobe)
    (cam_write ZYNQ_CAM_CONFIG orig;;
     upd_caps (fun c => c<|pin_swap := pin_swap_of orig|>));;
  zcam_i2c_fini;;
  spin_unlock L_zdev;;
  mret ret.

Definition zcam_probe : M vid_ctx Z :=
  spin_lock L_zdev;;
  orig ← cam_read ZYNQ_CAM_CONFIG;
  upd_caps (fun c => c<|pin_swap := pin_swap_of orig|>);;
  '(opened, ret) ← probe_once;
  if opened && negb (ret =? 0) then
    probe_swap ret;;
    '(_, ret) ← probe_once;
    probe_end orig true ret
  else probe_end orig false ret.

(** ** Capabilities *)

Definition port_name (map : option (list Z)) (i : Z) : M vid_ctx (list Z) :=
  m ← of_option NullDeref map;
  p ← array_get m i;
  mret (ZYNQ_FPD_CAM_NAME ++ fmt_d p).

Definition caps_init : M vid_ctx unit :=
  s ← get;
  name ← port_name (zdev_video_port_map (vc_zdev s)) (index (vc_video s));
  upd_caps (fun c =>
    c<|cap_name ::= snprintf ZYNQ_VDEV_NAME_LEN name|>
     <|unique_id := 0|><|major_version := u16 (-1)|><|minor_version := u16 (-1)|>
     <|timestamp_type := Z.land zynq_video_ts_type 3|>
     <|interface_type := CAM_CAP_INTERFACE_PARALLEL|><|trigger_mode := 0|><|embedded_data := 0|>
     <|frame_len_lines := DEFAULT_FRAME_LINES_230|><|line_len_pck := DEFAULT_LINE_PCK_230|>
     <|pixel_clock := DEFAULT_PIXCLK_230|>).

(** force the pin-swap status *)
Definition force_pin_swap : M vid_ctx unit :=
  upd_caps (fun c => c<|pin_swap := if 0 <? zynq_video_pin_swap then 1 else 0|>);;
  spin_lock L_zdev;;
  val ← cam_read ZYNQ_CAM_CONFIG;
  v ← cam;
  let change := negb (Bool.eqb (negb (pin_swap (caps v) =? 0)) (tst val ZYNQ_CAM_PIN_SWAP)) in
  when change (cam_write ZYNQ_CAM_CONFIG (set_pin_swap (pin_swap (caps v)) val));;
  spin_unlock L_zdev;;
  when change (msleep 500).

(** a 16-bit register: [ok] with its value, or [ko] *)
Definition check16 (addr : Z) (ok : Z -> M vid_ctx unit) (ko : M vid_ctx unit) : M vid_ctx unit :=
  '(ret, data) ← zcam_i2c_read16 addr 0;
  if ret =? 0 then ok data else ko.
(** the default of the camera's family *)
Definition by_family (c : zynq_cam_caps) (d231 d230 : Z) : Z :=
  if code_name c =? CAM_CAP_CODENAME_SHARPVISION then d231 else d230.

(** the registers read while the session is open; the result is that of the
    last read *)
Definition read_caps : M vid_ctx Z :=
  check16 REG_UNIQUE_ID (fun d => upd_caps (fun c => c<|unique_id := d|>)) (mret tt);;
  check16 REG_MON_MAJOR_VERSION (fun d =>
    s ← get;
    name ← port_name (zdev_video_port_map (vc_zdev s)) (index (vc_video s));
    upd_caps (fun c => c<|major_version := d|>
      <|cap_name ::= snprintf ZYNQ_VDEV_NAME_LEN (name ++ [45] ++ fmt_04x d)|>)) (mret tt);;
  v ← cam;
  when (minor_version (caps v) =? u16 (-1))
    (check16 REG_MON_MINOR_VERSION (fun d => upd_caps (fun c => c<|minor_version := d|>)) (mret tt));;
  check16 REG_SNSR_CTRL_OPERATION_MODE (fun d =>
    upd_caps (fun c => c<|embedded_data := if tst d SNSR_CTRL_EMBD_DATA_ENABLE then 1 else 0|>))
    (mret tt);;
  '(ret, b) ← zcam_i2c_read8 REG_MODE_SYNC_TYPE 0;
  when (ret =? 0) (upd_caps (fun c => c<|trigger_mode := Z.land b 3|>));;
  check16 REG_SNSR_CFG_FRAME_LEN_LINES (fun d => upd_caps (fun c => c<|frame_len_lines := d|>))
    (upd_caps (fun c => c<|frame_len_lines :=
      by_family c DEFAULT_FRAME_LINES_231 DEFAULT_FRAME_LINES_230|>));;
  check16 REG_SNSR_CFG_LINE_LEN_PCK (fun d => upd_caps (fun c => c<|line_len_pck := d|>))
    (upd_caps (fun c => c<|line_len_pck := by_family c DEFAULT_LINE_PCK_231 DEFAULT_LINE_PCK_230|>));;
  '(ret, data) ← zcam_i2c_read32 REG_SNSR_CFG_PIXCLK 0;
  upd_caps (fun c => c<|pixel_clock :=
    if (ret =? 0) && negb (data =? 0) then data else by_family c DEFAULT_PIXCLK_231 DEFAULT_PIXCLK_230|>);;
  mret ret.

(** the choices that follow from the capabilities *)
Definition choose_config : M vid_ctx unit :=
  when (0 <? zynq_video_flash_16)
    (upd_caps (fun c => set_feature (Z.lor (feature c) CAM_CAP_FEATURE_FLASH_ADDR_16) c));;
  when (zynq_video_flash_16 =? 0)
    (upd_caps (fun c => set_feature (Z.land (feature c) (Z.lnot CAM_CAP_FEATURE_FLASH_ADDR_16)) c));;
  v ← cam;
  cfg ← array_get zcam_dev_cfgs (if tst (feature (caps v)) CAM_CAP_FEATURE_FLASH_ADDR_16 then 1 else 0);
  upd_cam (fun v => v<|dev_cfg := cfg|>);;
  upd_stream (fun s => s<|read_em_data :=
    if code_name (caps v) =? CAM_CAP_CODENAME_SHARPVISION then EM_231 else EM_230|>).

Definition zcam_check_caps : M vid_ctx Z :=
  caps_init;;
  v ← cam;
  early ← (if 0 <=? zynq_video_pin_swap then force_pin_swap;; mret 0
           else if tst (vstate v) ZVIDEO_STATE_STREAMING then mret 0
           (* probe camera to determine the pin-swap status *)
           else zcam_probe);
  if negb (early =? 0) then mret early
  else
    spin_lock L_zdev;;
    ret ← zcam_i2c_init;
    ret ← (if negb (ret =? 0) then mret ret else read_caps);
    zcam_i2c_fini;;
    spin_unlock L_zdev;;
    zcam_init_time_params;;
    choose_config;;
    mret ret.
End hci.

(** ** Specification: what a camera is told

    The writes on bus 2, decoded from the writes to its two registers: chip,
    register (8 or 16 bits) and data. *)
Record bus_write := BusWrite { bw_chip : Z; bw_reg : Z; bw_data : Z }.

Fixpoint bus_writes (hi : Z) (ws : list (addr * Z)) : list bus_write :=
  match ws with
  | [] => []
  | (a, v) :: ws =>
      if decide (a = (BAR0, ZYNQ_G_I2C_CONFIG_2)) then bus_writes v ws
      else if decide (a = (BAR0, ZYNQ_G_I2C_CONTROL_2)) then
        if GET_BITS I2C_RD v =? 0 then
          BusWrite (GET_BITS ZYNQ_I2C_ID v)
            (if GET_BITS I2C_16 v =? 0 then GET_BITS ZYNQ_I2C_ADDR v
             else hi * 256 + GET_BITS ZYNQ_I2C_ADDR v) (GET_BITS ZYNQ_I2C_DATA v)
          :: bus_writes hi ws
        else bus_writes hi ws
      else bus_writes hi ws
  end.

(** the register writes [ws] are the bus writes [ops], whatever high address
    was set before *)
Definition does (ws : list (addr * Z)) (ops : list bus_write) : Prop :=
  forall hi rest, exists hi', bus_writes hi (ws ++ rest) = ops ++ bus_writes hi' rest.
(** from [w] to [w'] exactly the bus writes [ops] are made; the state and the
    locks are the same *)
Definition told {S} (w w' : world S) (ops : list bus_write) : Prop :=
  exists ws, wrote w w' ws /\ does ws ops.
(** the same for a function that stops at an error: a prefix of [ops], all of
    them when it returns 0 *)
Definition tries {S} (w : world S) (rc : Z) (w' : world S) (ops : list bus_write) : Prop :=
  exists k, told w w' (take k ops) /\ (rc = 0 -> (length ops <= k)%nat).

(** bytes to consecutive registers of the image processor *)
Fixpoint isp_writes (reg : Z) (l : list Z) : list bus_write :=
  match l with
  | [] => []
  | b :: l => BusWrite I2C_ID_CAM_ISP reg b :: isp_writes (reg + 1) l
  end.
Definition command_writes (cmd : Z) : list bus_write :=
  isp_writes REG_COMMAND [byte_of cmd 1; byte_of cmd 0].

(** [cs] cuts the [data] for [a] into consecutive pieces inside one page each *)
Inductive page_chunks : Z -> list Z -> list (Z * list Z) -> Prop :=
| chunks_nil a : page_chunks a [] []
| chunks_cons a l rest cs :
    l <> [] -> a / FLASH_PAGE_SIZE = (a + Z.of_nat (length l) - 1) / FLASH_PAGE_SIZE ->
    page_chunks (a + Z.of_nat (length l)) rest cs ->
    page_chunks a (l ++ rest) ((a, l) :: cs).

(** one piece: parameters and data in the pool, the command, then [polls]
    times the question for the status *)
Definition chunk_writes (c : Z * list Z) (polls : nat) : list bus_write :=
  isp_writes REG_PARAM_POOL_BASE (flash_params c.1 (Z.of_nat (length c.2)) ++ c.2)
  ++ command_writes CMD_FLASH_WRITE
  ++ concat (replicate polls (command_writes CMD_FLASH_STATUS)).
Definition program_writes (cs : list (Z * list Z)) (polls : list nat) : list bus_write :=
  concat (zip_with chunk_writes cs polls).

(** the session of camera [i] opened, and closed *)
Definition slave_writes (i data : Z) : list bus_write :=
  map (fun reg => BusWrite (I2C_ID_CAM_DES_PRLL i) reg data) i2c_slave_regs.

(** ** Lemmas *)
Lemma does_nil : does [] [].
Proof. intros hi rest. by exists hi. Qed.

Lemma does_app ws1 ws2 ops1 ops2 : does ws1 ops1 -> does ws2 ops2 -> does (ws1 ++ ws2) (ops1 ++ ops2).
Proof.
  intros H1 H2 hi rest. destruct (H1 hi (ws2 ++ rest)) as (h1 & E1).
  destruct (H2 h1 rest) as (h2 & E2). exists h2. by rewrite <- !app_assoc, E1, E2.
Qed.

(** the register of a request *)
Definition reg_of (a : ioc_zynq_i2c_acc) : Z :=
  if i2c_addr_16 a =? 0 then i2c_addr a else i2c_addr_hi a * 256 + i2c_addr a.

Lemma does_i2c_write a v :
  i2c_bus a = 2 -> i2c_cmd a false v ->
  does (i2c_writes a v) [BusWrite (i2c_id a) (reg_of a) (i2c_data a)].
Proof.
  intros Hbus Hc hi rest. destruct Hc as [_ Hid Had Hrd H16 Hda]. specialize (Hda eq_refl).
  unfold i2c_writes, reg_of. rewrite Hbus.
  change (i2c_config_regs !!! Z.to_nat 2) with ZYNQ_G_I2C_CONFIG_2.
  change (i2c_control_regs !!! Z.to_nat 2) with ZYNQ_G_I2C_CONTROL_2.
  destruct (i2c_addr_16 a =? 0).
  - exists hi. cbn [app bus_writes]. rewrite decide_False by (intros E; discriminate E).
    rewrite decide_True by reflexivity. by rewrite Hrd, H16, Hid, Had, Hda.
  - exists (i2c_addr_hi a). cbn [app bus_writes]. rewrite decide_True by reflexivity.
    rewrite decide_False by (intros E; discriminate E).
    rewrite decide_True by reflexivity. by rewrite Hrd, H16, Hid, Had, Hda.
Qed.

Lemma isp_writes_app reg l1 l2 :
  isp_writes reg (l1 ++ l2) = isp_writes reg l1 ++ isp_writes (reg + Z.of_nat (length l1)) l2.
Proof.
  revert reg. induction l1 as [|b l1 IH]; intros reg; cbn [app isp_writes length]; [by rewrite Z.add_0_r |].
  rewrite IH. do 3 f_equal. lia.
Qed.

Lemma isp_writes_seq (g : Z -> Z) reg off l :
  (forall i, 0 <= i < Z.of_nat (length l) -> l !! Z.to_nat i = Some (g (off + i))) ->
  concat (map (fun i => isp_writes (reg + i) [g i]) (seqZ off (Z.of_nat (length l)))) =
  isp_writes (reg + off) l.
Proof.
  revert off. induction l as [|b l IH]; intros off Hg; [done |].
  cbn [length] in *. rewrite seqZ_cons by lia. cbn [map concat isp_writes app].
  pose proof (Hg 0 ltac:(lia)) as H0. rewrite Z.add_0_r in H0. cbn in H0. injection H0 as ->. f_equal.
  replace (Z.pred (Z.of_nat (S (length l)))) with (Z.of_nat (length l)) by lia.
  replace (reg + off + 1) with (reg + Z.succ off) by lia. apply IH.
  intros i Hi. specialize (Hg (i + 1) ltac:(lia)). rewrite Z2Nat.inj_add in Hg by lia.
  rewrite Nat.add_comm in Hg. change (Z.to_nat 1) with 1%nat in Hg. cbn [Nat.add lookup list_lookup] in Hg.
  etransitivity; [exact Hg |]. do 2 f_equal. lia.
Qed.

Section told.
Context {S : Type}.
Implicit Types w : world S.

Lemma told_refl w : told w w [].
Proof. exists []. split; [apply wrote_refl | apply does_nil]. Qed.
Lemma told_trans w w1 w2 ops1 ops2 : told w w1 ops1 -> told w1 w2 ops2 -> told w w2 (ops1 ++ ops2).
Proof.
  intros (ws1 & W1 & D1) (ws2 & W2 & D2). exists (ws1 ++ ws2).
  split; [by eapply wrote_trans | by apply does_app].
Qed.
Lemma told_calmly w w1 w2 ops : told w w1 ops -> calmly w1 w2 -> told w w2 ops.
Proof. intros (ws & W & D) Hc. exists ws. split; [by eapply wrote_calmly | done]. Qed.
Lemma told_same w w' ops : told w w' ops -> w_st w' = w_st w /\ w_held w' = w_held w.
Proof. intros (ws & (Hs & Hh & _) & _). by split. Qed.

Lemma tries_told w rc w' ops : tries w rc w' ops -> rc = 0 -> told w w' ops.
Proof. intros (k & H & Hk) E. by rewrite take_ge in H by auto. Qed.
Lemma tries_all w rc w' ops : told w w' ops -> tries w rc w' ops.
Proof. intros H. exists (length ops). rewrite take_ge by lia. split; [done | lia]. Qed.
Lemma tries_nil w rc w' : tries w rc w' [] -> told w w' [].
Proof. intros (k & H & _). by rewrite take_nil in H. Qed.
Lemma tries_none w rc ops : rc <> 0 -> tries w rc w ops.
Proof. exists O. split; [apply told_refl | done]. Qed.
Lemma tries_stop w rc w' ops ops' : rc <> 0 -> tries w rc w' ops -> tries w rc w' (ops ++ ops').
Proof.
  intros Hrc (k & H & _). exists (k `min` length ops)%nat. split; [| done].
  rewrite take_app_le by lia. by rewrite <- firstn_firstn, (take_ge ops (length ops)) by lia.
Qed.
Lemma tries_then w w1 rc w2 ops ops' : told w w1 ops -> tries w1 rc w2 ops' -> tries w rc w2 (ops ++ ops').
Proof.
  intros H1 (k & H2 & Hk). exists (length ops + k)%nat. split.
  - rewrite take_app_add'; [by eapply told_trans | done].
  - rewrite length_app. intros E. specialize (Hk E). lia.
Qed.
Lemma tries_same w rc w' ops : tries w rc w' ops -> w_st w' = w_st w /\ w_held w' = w_held w.
Proof. intros (k & H & _). by eapply told_same. Qed.
Lemma tries_calmly w rc w1 w2 ops : tries w rc w1 ops -> calmly w1 w2 -> tries w rc w2 ops.
Proof. intros (k & H & Hk) Hc. exists k. split; [by eapply told_calmly | done]. Qed.
End told.

Lemma does_i2c_read a v : i2c_bus a = 2 -> i2c_cmd a true v -> does (i2c_writes a v) [].
Proof.
  intros Hbus [_ _ _ Hrd _ _] hi rest. unfold i2c_writes. rewrite Hbus.
  change (i2c_config_regs !!! Z.to_nat 2) with ZYNQ_G_I2C_CONFIG_2.
  change (i2c_control_regs !!! Z.to_nat 2) with ZYNQ_G_I2C_CONTROL_2.
  destruct (i2c_addr_16 a =? 0).
  - exists hi. cbn [app bus_writes]. rewrite decide_False by (intros E; discriminate E).
    rewrite decide_True by reflexivity. by rewrite Hrd.
  - exists (i2c_addr_hi a). cbn [app bus_writes]. rewrite decide_True by reflexivity.
    rewrite decide_False by (intros E; discriminate E).
    rewrite decide_True by reflexivity. by rewrite Hrd.
Qed.

Section bus.
Context `{Env} `{ModParams}.
Hypothesis Hbring : zynq_bringup_param = false.
Implicit Types w : world vid_ctx.

(** a call on the device that writes registers only *)
Lemma wrote_on_vdev w (v : world zynq_dev) ws :
  wrote (World (w_log w) (w_held w) (vc_zdev (w_st w))) v ws ->
  wrote w (World (w_log v) (w_held v) ((w_st w)<|vc_zdev := w_st v|>)) ws.
Proof.
  intros (Hs & Hh & Hw). split; [| by split]. wp_simpl. rewrite Hs. wp_simpl. by destruct (w_st w).
Qed.

Lemma i2c_errors d a rd err ws : i2c_outcome d a rd err ws -> err <> - EBUSY.
Proof.
  destruct 1 as [err _ E| |err v _ _ E].
  - destruct E as [->| ->]; discriminate.
  - discriminate.
  - destruct E as [->|[->| ->]]; discriminate.
Qed.

Lemma wp_bus_write a w (Q : Z -> world vid_ctx -> Prop) :
  i2c_wf a -> i2c_bus a = 2 -> L_zdev_i2c ∉ w_held w ->
  (forall rc w', tries w rc w' [BusWrite (i2c_id a) (reg_of a) (i2c_data a)] -> rc <> - EBUSY -> Q rc w') ->
  wp (on_vdev (zdev_i2c_write a)) Q w.
Proof using Hbring.
  intros Hwf Hbus Hlk HQ. apply wp_zoom. eapply wp_mono; [by apply wp_i2c_write |].
  intros rc v (ws & Ho & Hw). apply HQ; [| by eapply i2c_errors]. apply wrote_on_vdev in Hw.
  assert (ws = [] -> rc <> 0 -> tries w rc (World (w_log v) (w_held v) ((w_st w)<|vc_zdev := w_st v|>))
    [BusWrite (i2c_id a) (reg_of a) (i2c_data a)]) as Hnone.
  { intros -> Hrc. exists O. split; [exists []; by split; [| apply does_nil] | done]. }
  destruct Ho as [err Hv E| Hv|err x Hv Hc E].
  - apply Hnone; [done |]. destruct E as [->| ->]; discriminate.
  - by apply Hnone.
  - apply tries_all. exists (i2c_writes a x). split; [done | by apply does_i2c_write].
Qed.

Lemma wp_bus_read a w (Q : Z * ioc_zynq_i2c_acc -> world vid_ctx -> Prop) :
  i2c_wf a -> i2c_bus a = 2 -> L_zdev_i2c ∉ w_held w ->
  (forall rc a' w', told w w' [] -> rc <> - EBUSY -> (rc = 0 -> 0 <= i2c_data a' < 256) -> Q (rc, a') w') ->
  wp (on_vdev (zdev_i2c_read a)) Q w.
Proof using Hbring.
  intros Hwf Hbus Hlk HQ. apply wp_zoom. eapply wp_mono; [by apply wp_i2c_read |].
  intros [rc a'] v (ws & data & Ho & Hw & -> & Hd).
  apply HQ; [| by eapply i2c_errors | by intros ->]. apply wrote_on_vdev in Hw. exists ws. split; [done |].
  destruct Ho as [err Hv E| Hv|err x Hv Hc E]; [apply does_nil | apply does_nil | by apply does_i2c_read].
Qed.

Lemma isp_acc_wf addr data : 0 <= data < 256 -> i2c_wf (isp_acc addr data).
Proof.
  intros Hd. unfold i2c_wf, isp_acc, i2c_bytes. cbn.
  pose proof (bf_get_range 8 8 addr ltac:(lia)) as B1. pose proof (bf_get_range 0 8 addr ltac:(lia)) as B2.
  unfold bf_get in *. rewrite Z.shiftr_0_r in B2.
  change (Z.ones 8) with 0xFF in *. change (2 ^ 8) with 256 in *.
  repeat (apply Forall_cons; split); [done | exact B1 | exact B2 | exact Hd | done | done | apply Forall_nil; exact I].
Qed.

Lemma isp_acc_reg addr data : 0 <= addr < 2 ^ 16 -> reg_of (isp_acc addr data) = addr.
Proof.
  intros Ha. unfold reg_of, isp_acc. cbn.
  change 255 with (Z.ones 8). rewrite !Z.land_ones, Z.shiftr_div_pow2 by lia.
  change (2 ^ 8) with 256. change (2 ^ 16) with (256 * 256) in Ha.
  pose proof (Z.div_mod addr 256 ltac:(lia)). rewrite (Z.mod_small (addr / 256)); [lia |].
  split; [apply Z.div_pos; lia | apply Z.div_lt_upper_bound; lia].
Qed.

Lemma wp_write8 addr data w (Q : Z -> world vid_ctx -> Prop) :
  0 <= addr < 2 ^ 16 -> 0 <= data < 256 -> L_zdev_i2c ∉ w_held w ->
  (forall rc w', tries w rc w' (isp_writes addr [data]) -> rc <> - EBUSY -> Q rc w') ->
  wp (zcam_i2c_write8 addr data) Q w.
Proof using Hbring.
  intros Ha Hd Hlk HQ. apply wp_bus_write; [by apply isp_acc_wf | done | done |].
  rewrite isp_acc_reg by done. intros rc w' Ht. by apply HQ.
Qed.

Lemma wp_read8 addr data w (Q : Z * Z -> world vid_ctx -> Prop) :
  L_zdev_i2c ∉ w_held w ->
  (forall rc b w', told w w' [] -> rc <> - EBUSY -> (rc = 0 -> 0 <= b < 256) -> Q (rc, b) w') ->
  wp (zcam_i2c_read8 addr data) Q w.
Proof using Hbring.
  intros Hlk HQ. unfold zcam_i2c_read8. apply wp_bind, wp_bus_read; [by apply isp_acc_wf | done | done |].
  intros rc a' w' Ht Hrc Hd. apply wp_ret, HQ; [done | done |]. intros ->. by apply Hd.
Qed.

(** a loop of writes, left at the first error *)
Lemma wp_for_tries (f : Z -> list bus_write) n from (body : Z -> M vid_ctx (option Z)) w
    (Q : option Z -> world vid_ctx -> Prop) :
  (forall i v (R : option Z -> world vid_ctx -> Prop),
     from <= i < from + Z.of_nat n -> w_st v = w_st w -> w_held v = w_held w ->
     (forall rc v', tries v rc v' (f i) -> rc <> - EBUSY ->
        R (if negb (rc =? 0) then Some rc else None) v') -> wp (body i) R v) ->
  (forall r w', tries w (default 0 r) w' (concat (map f (seqZ from (Z.of_nat n)))) ->
     default 0 r <> - EBUSY -> Q r w') ->
  wp (for_break n from body) Q w.
Proof.
  revert from w. induction n as [|n IH]; intros from w Hb HQ; cbn [for_break].
  - apply wp_ret, HQ; [| done]. apply tries_all, told_refl.
  - rewrite seqZ_cons in HQ by lia. cbn [map concat] in HQ.
    apply wp_bind, Hb; [lia | done | done |]. intros rc v Ht Hrc.
    destruct (Z.eqb_spec rc 0) as [->|Hne]; cbn [negb].
    + pose proof (tries_told _ _ _ _ Ht eq_refl) as Hv. destruct (told_same _ _ _ Hv) as [Es Eh].
      apply IH.
      * intros i u R Hi Hs Hh. apply Hb; [lia | congruence | congruence].
      * intros r w' Hr Hn. replace (Z.pred (Z.of_nat (Datatypes.S n))) with (Z.of_nat n) in HQ by lia.
        rewrite <- Z.add_1_r in HQ. apply HQ; [by eapply tries_then | done].
    + apply wp_ret, HQ; [| done]. by apply tries_stop.
Qed.

Lemma wp_write16 addr data w (Q : Z -> world vid_ctx -> Prop) :
  0 <= addr < 2 ^ 16 - 1 -> L_zdev_i2c ∉ w_held w ->
  (forall rc w', tries w rc w' (isp_writes addr [byte_of data 1; byte_of data 0]) -> rc <> - EBUSY -> Q rc w') ->
  wp (zcam_i2c_write16 addr data) Q w.
Proof using Hbring.
  intros Ha Hlk HQ. unfold zcam_i2c_write16, write_be. apply wp_bind.
  apply (wp_for_tries (fun i => isp_writes (addr + i) [byte_of data (1 - i)])).
  - intros i v R Hi Hs Hh HR. rewrite (u16_small (addr + i)) by lia.
    apply wp_bind, wp_write8; [lia | apply byte_of_range; lia | congruence |].
    intros rc v' Ht Hrc. apply wp_ret. by apply HR.
  - intros r w' Ht Hr. apply wp_ret, HQ; [| done].
    change (seqZ 0 (Z.of_nat (Z.to_nat 2))) with [0; 1] in Ht. cbn [map concat isp_writes app] in Ht.
    rewrite Z.add_0_r in Ht. exact Ht.
Qed.

Lemma wp_read_be n addr data w (Q : Z * Z -> world vid_ctx -> Prop) :
  0 <= n -> L_zdev_i2c ∉ w_held w ->
  (forall rc d w', told w w' [] -> rc <> - EBUSY -> Q (rc, d) w') ->
  wp (read_be n addr data) Q w.
Proof using Hbring.
  intros Hn Hlk HQ. unfold read_be.
  apply (wp_loop (fun x v => told w v [] /\ 0 <= fst x <= n) (fun x _ => Z.to_nat (n - fst x))).
  - split; [apply told_refl | cbn; lia].
  - cbn. lia.
  - intros [i d] v [Ht Hi]. cbn in Hi. destruct (told_same _ _ _ Ht) as [Es Eh].
    destruct (Z.ltb_spec i n); [| by apply wp_ret, HQ].
    apply wp_bind, wp_read8; [congruence |]. intros rc b v' Ht' Hrc _. apply wp_ret.
    pose proof (told_trans _ _ _ _ _ Ht Ht') as H'. destruct (rc =? 0); cbn [negb]; [| by apply HQ].
    cbn. split; [split; [done | lia] | lia].
Qed.

Lemma wp_wait_doorbell w (Q : Z + Z * Z -> world vid_ctx -> Prop) :
  L_zdev_i2c ∉ w_held w ->
  (forall r w', told w w' [] -> (forall rc, r = inl rc -> rc <> 0 /\ rc <> - EBUSY) -> Q r w') ->
  wp wait_doorbell Q w.
Proof using Hbring.
  intros Hlk HQ. unfold wait_doorbell.
  apply (wp_loop (fun x v => told w v [] /\ 0 <= fst x <= ZCAM_WAIT_RETRY)
    (fun x _ => Z.to_nat (ZCAM_WAIT_RETRY - fst x))).
  - split; [apply told_refl |]. change ZCAM_WAIT_RETRY with 50. cbn. lia.
  - change ZCAM_WAIT_RETRY with 50. cbn. lia.
  - intros [i d] v [Ht Hi]. cbn [fst] in Hi. destruct (told_same _ _ _ Ht) as [Es Eh].
    destruct (Z.ltb_spec i ZCAM_WAIT_RETRY); cbn [andb]; [| by apply wp_ret, HQ].
    destruct (tst d CMD_DOORBELL); [| by apply wp_ret, HQ].
    apply wp_bind, wp_read_be; [done | congruence |]. intros rc b v' Ht' Hrc.
    pose proof (told_trans _ _ _ _ _ Ht Ht') as H'.
    destruct (Z.eqb_spec rc 0) as [|Hne]; cbn [negb].
    + apply wp_bind, wp_tell, wp_ret. split; [| cbn [fst]; lia]. split; [| cbn [fst]; lia].
      eapply told_calmly; [exact H' | by apply calmly_emit].
    + apply wp_ret, HQ; [done |]. by intros ? [= <-].
Qed.

(** what a command tells the camera; only the question for the flash status is
    answered by busy, and then it was asked *)
Lemma wp_command cmd w (Q : Z -> world vid_ctx -> Prop) :
  L_zdev_i2c ∉ w_held w ->
  (forall rc w', tries w rc w' (command_writes cmd) ->
     (rc = - EBUSY -> cmd = CMD_FLASH_STATUS /\ told w w' (command_writes cmd)) -> Q rc w') ->
  wp (zcam_command cmd) Q w.
Proof using Hbring.
  intros Hlk HQ. unfold zcam_command.
  apply wp_bind, wp_read_be; [done | done |]. intros rc d w1 H1 Hrc. destruct (told_same _ _ _ H1) as [_ Eh1].
  assert (forall e, e <> 0 -> e <> - EBUSY -> Q e w1) as Hnone.
  { intros e E1 E2. apply HQ; [| done]. exists O. by split. }
  destruct (Z.eqb_spec rc 0) as [_|Hne]; cbn [negb]; [| by apply wp_ret, Hnone].
  destruct (tst d CMD_DOORBELL); [by apply wp_ret, Hnone |].
  apply wp_bind, wp_write16; [done | congruence |]. intros rc2 w2 H2 Hrc2.
  pose proof (tries_then _ _ _ _ _ _ H1 H2) as H12. destruct (tries_same _ _ _ _ H12) as [_ Eh2].
  destruct (Z.eqb_spec rc2 0) as [->|Hne2]; cbn [negb]; [| by apply wp_ret, HQ].
  apply tries_told in H12; [| done].
  apply wp_bind, wp_wait_doorbell; [congruence |]. intros r w3 H3 Hr. apply wp_ret.
  pose proof (told_trans _ _ _ _ _ H12 H3) as Hall. rewrite app_nil_r in Hall.
  apply HQ; [by apply tries_all |]. intros Eb. split; [| exact Hall].
  destruct r as [e|[i x]]; [destruct (Hr e eq_refl); congruence |].
  destruct (Z.eqb_spec cmd CMD_FLASH_STATUS); [done |]. cbn [andb] in Eb.
  repeat case_match; discriminate.
Qed.

Lemma wp_flash_status w (Q : Z -> world vid_ctx -> Prop) :
  L_zdev_i2c ∉ w_held w ->
  (forall rc w' m, (1 <= m <= 50)%nat ->
     tries w rc w' (concat (replicate m (command_writes CMD_FLASH_STATUS))) -> Q rc w') ->
  wp zcam_flash_status Q w.
Proof using Hbring.
  intros Hlk HQ. unfold zcam_flash_status. apply wp_bind.
  cut (forall n from v, L_zdev_i2c ∉ w_held v ->
    wp (for_break n from (fun _ => ret ← zcam_command CMD_FLASH_STATUS;
         if negb (ret =? - EBUSY) then mret (Some ret) else udelay ZCAM_WAIT_DELAY;; mret None))
      (fun r w' => exists m, (m <= n)%nat /\ (1 <= n -> 1 <= m)%nat /\
         tries v (default (- EBUSY) r) w' (concat (replicate m (command_writes CMD_FLASH_STATUS)))) v).
  { intros Hcut. eapply wp_mono; [by apply Hcut |]. intros r w' (m & Hm & Hm1 & Ht). apply wp_ret.
    change (Z.to_nat ZCAM_WAIT_RETRY) with 50%nat in *. apply (HQ _ _ m); [lia | done]. }
  clear Hlk HQ. induction n as [|n IH]; intros from v Hlk; cbn [for_break].
  - apply wp_ret. exists O. split; [lia |]. split; [lia |]. apply tries_none. discriminate.
  - apply wp_bind, wp_bind, wp_command; [done |]. intros rc v' Ht Hb.
    destruct (tries_same _ _ _ _ Ht) as [_ Eh].
    destruct (Z.eqb_spec rc (- EBUSY)) as [->|Hne]; cbn [negb].
    + destruct (Hb eq_refl) as [_ Hall]. apply wp_bind, wp_tell, wp_ret.
      eapply wp_mono; [apply IH; by rewrite <- Eh in Hlk |].
      intros r w' (m & Hm & _ & Ht'). exists (S m). split; [lia |]. split; [lia |].
      cbn [replicate concat]. eapply tries_then; [| exact Ht'].
      eapply told_calmly; [exact Hall | by apply calmly_emit].
    + apply wp_ret, wp_ret. exists 1%nat. split; [lia |]. split; [lia |].
      cbn [replicate concat]. by rewrite app_nil_r.
Qed.

Lemma wp_params_write start data off size w (Q : Z -> world vid_ctx -> Prop) :
  0 <= start -> 0 <= off -> 0 <= size -> start + size <= REG_PARAM_POOL_SIZE ->
  off + size <= Z.of_nat (length data) -> Forall (fun b => 0 <= b < 256) data -> L_zdev_i2c ∉ w_held w ->
  (forall rc w', tries w rc w' (isp_writes (REG_PARAM_POOL_BASE + start)
     (take (Z.to_nat size) (drop (Z.to_nat off) data))) -> Q rc w') ->
  wp (zcam_params_write start data off size) Q w.
Proof using Hbring.
  change REG_PARAM_POOL_SIZE with 256. change REG_PARAM_POOL_BASE with 0xFC00.
  intros Hst Hoff Hsz Hfit Hlen Hbytes Hlk HQ. unfold zcam_params_write.
  change REG_PARAM_POOL_SIZE with 256. change REG_PARAM_POOL_BASE with 0xFC00.
  rewrite (proj2 (Z.ltb_ge _ _)) by lia. apply wp_bind.
  assert (forall i, 0 <= i < size -> data !! Z.to_nat (off + i) = Some (data !!! Z.to_nat (off + i))) as Hget
    by (intros i Hi; apply list_lookup_lookup_total_lt; lia).
  apply (wp_for_tries (fun i => isp_writes (0xFC00 + start + i) [data !!! Z.to_nat (off + i)])).
  - intros i v R Hi Hs Hh HR. apply wp_bind, wp_array_get. eexists.
    split; [rewrite zlookup_nonneg by lia; apply Hget; lia |].
    rewrite u16_small by lia. apply wp_bind, wp_write8; [lia | | congruence |].
    + by eapply Forall_lookup_1 in Hbytes; [| apply (Hget i); lia].
    + intros rc v' Ht Hrc. apply wp_ret. by apply HR.
  - intros r w' Ht Hr. apply wp_ret, HQ.
    set (l := take _ _). assert (length l = Z.to_nat size) as El
      by (subst l; rewrite length_take, length_drop; lia).
    rewrite <- El, (isp_writes_seq (fun i => data !!! Z.to_nat (off + i))), Z.add_0_r in Ht; [exact Ht |].
    intros i Hi. subst l. rewrite lookup_take, lookup_drop.
    rewrite (decide_True) by lia. rewrite <- Z2Nat.inj_add by lia. apply Hget. lia.
Qed.

(** the length of a chunk *)
Lemma flash_write_len_bounds address size :
  0 < size -> 1 <= flash_write_len address size <= size /\
  address mod 32 + flash_write_len address size <= 32.
Proof.
  intros Hs. unfold flash_write_len. change FLASH_WRITE_LIMIT with 251. change FLASH_PAGE_SIZE with 32.
  pose proof (Z.mod_pos_bound address 32 ltac:(lia)).
  destruct (Z.ltb_spec 251 size); cbv zeta;
    match goal with |- context [32 <? ?x] => destruct (Z.ltb_spec 32 x) end; lia.
Qed.

Lemma same_page a n : 1 <= n -> a mod 32 + n <= 32 -> a / FLASH_PAGE_SIZE = (a + n - 1) / FLASH_PAGE_SIZE.
Proof.
  change FLASH_PAGE_SIZE with 32. intros Hn Hp. pose proof (Z.div_mod a 32 ltac:(lia)).
  pose proof (Z.mod_pos_bound a 32 ltac:(lia)). apply (Z.div_unique _ 32 _ (a mod 32 + n - 1)); lia.
Qed.

(** the data can always be cut *)
Lemma page_chunks_exist a l : exists cs, page_chunks a l cs.
Proof.
  remember (length l) as n eqn:En. revert a l En. induction (lt_wf n) as [n _ IH]. intros a l En.
  destruct l as [|b l']; [exists []; constructor |]. set (l := b :: l') in *.
  pose proof (flash_write_len_bounds a (Z.of_nat (length l)) ltac:(subst l; cbn [length]; lia)) as [Hn Hp].
  set (k := flash_write_len a (Z.of_nat (length l))) in *. clearbody k.
  assert (length (take (Z.to_nat k) l) = Z.to_nat k) as El by (rewrite length_take; lia).
  destruct (IH (length (drop (Z.to_nat k) l)) ltac:(rewrite length_drop; lia)
    (a + k) (drop (Z.to_nat k) l) eq_refl) as (cs & Hcs).
  exists ((a, take (Z.to_nat k) l) :: cs).
  rewrite <- (take_drop (Z.to_nat k) l) at 1. replace (a + k) with (a + Z.of_nat (length (take (Z.to_nat k) l))) in Hcs by lia.
  constructor; [| | exact Hcs].
  - intros E. rewrite E in El. cbn in El. lia.
  - rewrite El. apply same_page; lia.
Qed.

Lemma page_chunks_nil a b cs : page_chunks a [] cs -> page_chunks b [] cs.
Proof.
  remember [] as l0 eqn:E. destruct 1 as [a|a l rest cs Hne Hpg Hrest]; [constructor |].
  apply app_nil in E as [E _]. by destruct Hne.
Qed.

Lemma flash_params_bytes a len : Forall (fun b => 0 <= b < 256) (flash_params a len).
Proof.
  unfold flash_params. repeat (apply Forall_cons; split); try (apply byte_of_range; lia);
    [apply u8_range | constructor].
Qed.

Section write_flash.
Variable data : list Z.
Hypothesis Hbytes : Forall (fun b => 0 <= b < 256) data.

Lemma wp_flash_write_chunk address off len w (Q : Z -> world vid_ctx -> Prop) :
  0 <= off -> 1 <= len <= 32 -> off + len <= Z.of_nat (length data) -> L_zdev_i2c ∉ w_held w ->
  (forall rc w' m, (1 <= m <= 50)%nat ->
     tries w rc w' (chunk_writes (address, take (Z.to_nat len) (drop (Z.to_nat off) data)) m) -> Q rc w') ->
  wp (flash_write_chunk address data off len) Q w.
Proof using Hbring Hbytes.
  intros Hoff Hlen Hfit Hlk HQ. unfold flash_write_chunk.
  set (l := take _ _) in HQ. assert (Z.of_nat (length l) = len) as El
    by (subst l; rewrite length_take, length_drop; lia).
  unfold chunk_writes in HQ. cbn [fst snd] in HQ. rewrite El, isp_writes_app in HQ.
  change (Z.of_nat (length (flash_params address len))) with 5 in HQ. setoid_rewrite <- app_assoc in HQ.
  apply wp_bind, wp_params_write; try done; [apply flash_params_bytes |].
  change (take (Z.to_nat 5) (drop (Z.to_nat 0) ?p)) with p. rewrite Z.add_0_r.
  intros rc1 w1 T1. destruct (tries_same _ _ _ _ T1) as [_ E1].
  destruct (Z.eqb_spec rc1 0) as [->|Hne]; cbn [negb];
    [| by apply wp_ret, (HQ _ _ 1%nat ltac:(lia)), tries_stop].
  apply tries_told in T1; [| done]. rewrite (u8_small len) by lia.
  apply wp_bind, wp_params_write; try lia; [change REG_PARAM_POOL_SIZE with 256; lia | done | congruence |].
  intros rc2 w2 T2. destruct (tries_same _ _ _ _ T2) as [_ E2]. fold l in T2.
  destruct (Z.eqb_spec rc2 0) as [->|Hne]; cbn [negb];
    [| by apply wp_ret, (HQ _ _ 1%nat ltac:(lia)); eapply tries_then, tries_stop].
  apply tries_told in T2; [| done].
  apply wp_bind, wp_command; [congruence |]. intros rc3 w3 T3 _. destruct (tries_same _ _ _ _ T3) as [_ E3].
  destruct (Z.eqb_spec rc3 0) as [->|Hne]; cbn [negb].
  2:{ apply wp_ret, (HQ _ _ 1%nat ltac:(lia)). eapply tries_then; [exact T1 |].
      eapply tries_then; [exact T2 |]. by apply tries_stop. }
  apply tries_told in T3; [| done].
  apply wp_flash_status; [congruence |]. intros rc4 w4 m Hm T4. apply (HQ _ _ m Hm).
  eapply tries_then; [exact T1 |]. eapply tries_then; [exact T2 |]. by eapply tries_then.
Qed.
End write_flash.

(** ** The loop over the chunks, and the session *)
Section write_loop.
Variable data : list Z.
Hypothesis Hbytes : Forall (fun b => 0 <= b < 256) data.

Lemma wp_flash_write_loop fuel address off size w (Q : Z -> world vid_ctx -> Prop) :
  (Z.to_nat size < fuel)%nat -> 0 <= off -> 0 <= size -> off + size = Z.of_nat (length data) ->
  0 <= address -> address + size <= 2 ^ 32 -> L_zdev_i2c ∉ w_held w ->
  (forall rc w' cs polls,
     page_chunks address (drop (Z.to_nat off) data) cs -> length polls = length cs ->
     Forall (fun m => (1 <= m <= 50)%nat) polls -> tries w rc w' (program_writes cs polls) -> Q rc w') ->
  wp (loop fuel (fun '(address, off, size) =>
       if 0 <? size then
         let len := flash_write_len address size in
         ret ← flash_write_chunk address data off len;
         mret (if negb (ret =? 0) then inr ret
               else inl (u32 (address + len), off + len, size - len))
       else mret (inr 0)) (address, off, size)) Q w.
Proof using Hbring Hbytes.
  revert address off size w Q. induction fuel as [|fuel IH]; intros address off size w Q
    Hfuel Hoff Hsz Hlen Ha Hend Hlk HQ; [lia |]. cbn [loop].
  apply wp_bind. destruct (Z.ltb_spec 0 size) as [Hpos|Hz].
  2:{ apply wp_ret, wp_ret. assert (drop (Z.to_nat off) data = []) as E by (apply drop_ge; lia).
      apply (HQ _ _ [] []); [rewrite E; constructor | done | constructor |].
      apply tries_all, told_refl. }
  destruct (flash_write_len_bounds address size Hpos) as [Hn Hp]. cbv zeta.
  set (n := flash_write_len address size) in *. clearbody n.
  pose proof (Z.mod_pos_bound address 32 ltac:(lia)) as Hm.
  assert (drop (Z.to_nat off) data = take (Z.to_nat n) (drop (Z.to_nat off) data)
    ++ drop (Z.to_nat (off + n)) data) as Esplit.
  { rewrite Z2Nat.inj_add, <- drop_drop by lia. by rewrite take_drop. }
  assert (length (take (Z.to_nat n) (drop (Z.to_nat off) data)) = Z.to_nat n) as El
    by (rewrite length_take, length_drop; lia).
  assert (forall cs, page_chunks (address + n) (drop (Z.to_nat (off + n)) data) cs ->
    page_chunks address (drop (Z.to_nat off) data)
      ((address, take (Z.to_nat n) (drop (Z.to_nat off) data)) :: cs)) as Hcons.
  { intros cs Hcs. rewrite Esplit at 1. constructor.
    - intros E. rewrite E in El. cbn in El. lia.
    - rewrite El, Z2Nat.id by lia. apply same_page; lia.
    - by rewrite El, Z2Nat.id by lia. }
  apply wp_bind, wp_flash_write_chunk; try done; try lia.
  intros rc w1 m Hm1 T1. apply wp_ret. destruct (tries_same _ _ _ _ T1) as [_ E1].
  destruct (Z.eqb_spec rc 0) as [->|Hne]; cbn [negb].
  - apply tries_told in T1; [| done]. apply IH; try lia; [apply u32_range | | congruence |].
    + destruct (Z.eq_dec (address + n) (2 ^ 32)) as [E|]; [rewrite E; change (u32 (2 ^ 32)) with 0; lia | rewrite u32_small; lia].
    + intros rc w' cs polls Hcs Hlp Hpl T.
      apply (HQ _ _ ((address, take (Z.to_nat n) (drop (Z.to_nat off) data)) :: cs) (m :: polls)).
      * apply Hcons. destruct (Z.eq_dec (address + n) (2 ^ 32)) as [E|]; [| rewrite u32_small in Hcs by lia; done].
        assert (drop (Z.to_nat (off + n)) data = []) as En by (apply drop_ge; lia).
        rewrite En in *. by eapply page_chunks_nil.
      * cbn. by rewrite Hlp.
      * by constructor.
      * by eapply tries_then.
  - apply wp_ret. destruct (page_chunks_exist (address + n) (drop (Z.to_nat (off + n)) data)) as (cs & Hcs).
    apply (HQ _ _ ((address, take (Z.to_nat n) (drop (Z.to_nat off) data)) :: cs)
      (m :: replicate (length cs) 1%nat)).
    + by apply Hcons.
    + cbn. by rewrite length_replicate.
    + constructor; [done |]. apply Forall_replicate. lia.
    + by apply tries_stop.
Qed.
End write_loop.

Lemma wp_slave_write addr d w (Q : Z -> world vid_ctx -> Prop) :
  0 <= addr < 256 -> 0 <= d < 256 -> 0 <= index (vc_video (w_st w)) < 32 -> L_zdev_i2c ∉ w_held w ->
  (forall rc w', tries w rc w' [BusWrite (I2C_ID_CAM_DES_PRLL (index (vc_video (w_st w)))) addr d] ->
     rc <> - EBUSY -> Q rc w') ->
  wp (on_vdev (zdev_i2c_write (zcam_i2c_acc_init (vc_video (w_st w)) addr d))) Q w.
Proof using Hbring.
  intros Ha Hd Hi Hlk HQ.
  assert (u8 (I2C_ID_CAM_DES_PRLL (index (vc_video (w_st w))))
    = I2C_ID_CAM_DES_PRLL (index (vc_video (w_st w)))) as E
    by (apply u8_small; unfold I2C_ID_CAM_DES_PRLL; lia).
  apply wp_bus_write; [| done | done |].
  - unfold i2c_wf, zcam_i2c_acc_init, i2c_bytes. cbn [i2c_id i2c_addr_hi i2c_addr i2c_data i2c_addr_16 i2c_bus].
    repeat (apply Forall_cons; split); try (done || lia). apply u8_range.
  - intros rc w' T. apply HQ. unfold zcam_i2c_acc_init in T. cbn in T. by rewrite E in T.
Qed.

Lemma wp_i2c_init w (Q : Z -> world vid_ctx -> Prop) :
  0 <= index (vc_video (w_st w)) < 32 -> L_zdev_i2c ∉ w_held w ->
  (forall rc w', tries w rc w' (slave_writes (index (vc_video (w_st w))) (Z.shiftl I2C_ID_CAM_ISP 1)) -> Q rc w') ->
  wp zcam_i2c_init Q w.
Proof using Hbring.
  intros Hi Hlk HQ. unfold zcam_i2c_init. apply wp_bind, wp_gets, wp_bind.
  apply (wp_for_tries (fun i => [BusWrite (I2C_ID_CAM_DES_PRLL (index (vc_video (w_st w))))
    (i2c_slave_regs !!! Z.to_nat i) (Z.shiftl I2C_ID_CAM_ISP 1)])).
  - intros i v R Hr Hs Hh HR. apply wp_bind, wp_array_get.
    exists (i2c_slave_regs !!! Z.to_nat i). assert (i = 0 \/ i = 1) as Hc by lia.
    split; [destruct Hc as [->| ->]; reflexivity |].
    rewrite <- Hs. apply wp_bind, wp_slave_write; [| done | congruence | congruence |].
    + destruct Hc as [->| ->]; by cbn.
    + intros rc v' T Hrc. apply wp_ret, HR; [| done]. by rewrite Hs in T.
  - intros r w' T Hr. by apply wp_ret, HQ.
Qed.

Lemma wp_i2c_fini w (Q : unit -> world vid_ctx -> Prop) :
  0 <= index (vc_video (w_st w)) < 32 -> L_zdev_i2c ∉ w_held w ->
  (forall w' ops, told w w' ops -> ops `sublist_of` slave_writes (index (vc_video (w_st w))) 0 -> Q tt w') ->
  wp zcam_i2c_fini Q w.
Proof using Hbring.
  intros Hi Hlk HQ. unfold zcam_i2c_fini. apply wp_bind, wp_gets. cbn [for_].
  apply wp_bind, wp_bind, wp_array_get. exists 0x10. split; [done |].
  apply wp_bind, wp_slave_write; try done. intros rc1 w1 (k1 & T1 & _) _. apply wp_ret.
  destruct (told_same _ _ _ T1) as [Es Eh].
  apply wp_bind, wp_bind, wp_array_get. exists 0x08. split; [done |].
  rewrite <- Es. apply wp_bind, wp_slave_write; try (done || congruence).
  intros rc2 w2 (k2 & T2 & _) _. apply wp_ret, wp_ret. rewrite Es in T2.
  eapply HQ; [exact (told_trans _ _ _ _ _ T1 T2) |].
  unfold slave_writes, i2c_slave_regs. cbn [map].
  change (?a :: ?b :: []) with ([a] ++ [b]). apply sublist_app; apply sublist_take.
Qed.

(** what a session tells: it is opened, the body runs up to an error if there is
    one, and it is closed, which ignores errors *)
Definition session_told w (rc : Z) w' (ops : list bus_write) : Prop :=
  let i := index (vc_video (w_st w)) in
  exists k closing,
    told w w' (take k (slave_writes i (Z.shiftl I2C_ID_CAM_ISP 1) ++ ops) ++ closing) /\
    (rc = 0 -> (length i2c_slave_regs + length ops <= k)%nat) /\
    closing `sublist_of` slave_writes i 0.

Lemma told_locked l (w v : world vid_ctx) ops :
  told (World (Ev (SpinLock l) 0 :: w_log w) (l :: w_held w) (w_st w)) v ops ->
  told w (World (Ev (SpinUnlock l) 0 :: w_log v) (w_held w) (w_st v)) ops.
Proof. intros (ws & (Hs & Hh & Hw) & D). exists ws. split; [by split | done]. Qed.

Lemma wp_session_ (P : list bus_write -> Prop) body w (Q : Z -> world vid_ctx -> Prop) :
  0 <= index (vc_video (w_st w)) < 32 -> L_zdev ∉ w_held w -> L_zdev_i2c ∉ w_held w -> (exists ops, P ops) ->
  (forall v, w_st v = w_st w -> w_held v = L_zdev :: w_held w ->
     wp body (fun rc v' => exists ops, P ops /\ tries v rc v' ops) v) ->
  (forall rc w' ops, P ops -> session_told w rc w' ops -> Q rc w') ->
  wp (zcam_session_ body) Q w.
Proof using Hbring.
  intros Hi Hl1 Hl2 [ops0 Hops0] Hbody HQ. unfold zcam_session_, zcam_session.
  apply wp_fmap, wp_bind, wp_spin_lock; [done |]. set (u := World _ _ _).
  assert (L_zdev_i2c ∉ w_held u) as Hlu by (subst u; solve_held).
  assert (forall rc v ops, P ops -> tries u rc v (slave_writes (index (vc_video (w_st w)))
      (Z.shiftl I2C_ID_CAM_ISP 1) ++ ops) ->
    wp (zcam_i2c_fini;; spin_unlock L_zdev;; mret (rc, tt)) (fun a v' => Q (fst a) v') v) as Hend.
  { intros rc v ops HP (k & Hk & Hfull). destruct (told_same _ _ _ Hk) as [Es Eh].
    assert (w_st v = w_st w) as Es' by (by rewrite Es).
    apply wp_bind, wp_i2c_fini; [by rewrite Es' | by rewrite Eh |].
    intros v' closing Hc Hsub. destruct (told_same _ _ _ Hc) as [Es2 Eh2].
    apply wp_bind. apply (wp_spin_unlock _ (w_held w)); [by rewrite Eh2, Eh | done |]. apply wp_ret, (HQ _ _ ops HP).
    exists k, closing. rewrite Es' in Hsub. split; [| split; [| exact Hsub]].
    - apply told_locked. by eapply told_trans.
    - intros E. specialize (Hfull E). rewrite length_app in Hfull. exact Hfull. }
  apply wp_bind, wp_i2c_init; [done | done |]. intros rc v Ht. destruct (tries_same _ _ _ _ Ht) as [Es Eh].
  destruct (Z.eqb_spec rc 0) as [->|Hne]; cbn [negb].
  - apply tries_told in Ht; [| done]. apply wp_bind, wp_bind.
    eapply wp_mono; [apply Hbody; [by rewrite Es | by rewrite Eh] |].
    intros rc2 v2 (ops & HP & Ht2). apply wp_ret. apply (Hend _ _ ops HP). by eapply tries_then.
  - apply wp_bind, wp_ret. apply (Hend _ _ ops0 Hops0). by apply tries_stop.
Qed.
End bus.


(** ** Probing ends, on any device

    Code of a session, on a camera whose port has a name: it returns, gives
    back the locks it took and keeps what the session relies on. *)
Definition hci_ok (s : vid_ctx) : Prop :=
  0 <= index (vc_video s) < 32 /\ pixel_clock (caps (vc_video s)) <> 0 /\
  exists m, zdev_video_port_map (vc_zdev s) = Some m /\ index (vc_video s) < Z.of_nat (length m).

Section ends.
Context `{Env} `{ModParams} `{VideoParams} `{CamParams}.
Hypothesis Hbring : zynq_bringup_param = false.
Implicit Types w : world vid_ctx.

Definition ends {A} (m : M vid_ctx A) : Prop := forall w (Q : A -> world vid_ctx -> Prop),
  hci_ok (w_st w) -> L_zdev_i2c ∉ w_held w ->
  (forall a w', w_held w' = w_held w -> hci_ok (w_st w') -> Q a w') -> wp m Q w.

Lemma ends_ret {A} (a : A) : ends (mret a).
Proof. intros w Q Ho Hl HQ. by apply wp_ret, HQ. Qed.
Lemma ends_bind {A B} (m : M vid_ctx A) (f : A -> M vid_ctx B) :
  ends m -> (forall a, ends (f a)) -> ends (m ≫= f).
Proof.
  intros Hm Hf w Q Ho Hl HQ. apply wp_bind, Hm; [done | done |]. intros a w1 Hh Ho1.
  apply Hf; [done | congruence |]. intros b w2 Hh2. rewrite Hh in Hh2. by apply HQ.
Qed.
Lemma ends_when b (m : M vid_ctx unit) : ends m -> ends (when b m).
Proof. intros Hm. destruct b; [exact Hm | apply ends_ret]. Qed.
Lemma ends_gets {A} (f : vid_ctx -> A) : ends (gets f).
Proof. intros w Q Ho Hl HQ. by apply wp_gets, HQ. Qed.
Lemma ends_get : ends get.
Proof. intros w Q Ho Hl HQ. by apply wp_get, HQ. Qed.
Lemma ends_tell c : ends (tell c).
Proof. intros w Q Ho Hl HQ. by apply wp_tell, HQ. Qed.
Lemma ends_modify f : (forall s, hci_ok s -> hci_ok (f s)) -> ends (modify f).
Proof. intros Hf w Q Ho Hl HQ. apply wp_modify, HQ; [done |]. wp_simpl. by apply Hf. Qed.
Lemma ends_upd_caps f :
  (forall c, pixel_clock c <> 0 -> pixel_clock (f c) <> 0) -> ends (upd_caps f).
Proof.
  intros Hf. apply ends_modify. intros s (Hi & Hp & m & Hm & Hl). split; [exact Hi |].
  split; [by apply Hf | by exists m].
Qed.
Lemma told_ends w w' ops : told w w' ops -> hci_ok (w_st w) -> w_held w' = w_held w /\ hci_ok (w_st w').
Proof. intros Ht Ho. destruct (told_same _ _ _ Ht) as [Es Eh]. by rewrite Es. Qed.
Lemma ends_read_be n addr d : 0 <= n -> ends (read_be n addr d).
Proof using Hbring.
  intros Hn w Q Ho Hl HQ. apply wp_read_be; [done | done | done |]. intros rc x w' Ht _.
  destruct (told_ends _ _ _ Ht Ho). by apply HQ.
Qed.
Lemma ends_read8 addr d : ends (zcam_i2c_read8 addr d).
Proof using Hbring.
  intros w Q Ho Hl HQ. apply wp_read8; [done | done |]. intros rc x w' Ht _ _.
  destruct (told_ends _ _ _ Ht Ho). by apply HQ.
Qed.
Lemma ends_init : ends zcam_i2c_init.
Proof using Hbring.
  intros w Q Ho Hl HQ. apply wp_i2c_init; [done | apply Ho | done |]. intros rc w' (k & Ht & _).
  destruct (told_ends _ _ _ Ht Ho). by apply HQ.
Qed.
Lemma ends_fini : ends zcam_i2c_fini.
Proof using Hbring.
  intros w Q Ho Hl HQ. apply wp_i2c_fini; [done | apply Ho | done |]. intros w' ops Ht _.
  destruct (told_ends _ _ _ Ht Ho). by apply HQ.
Qed.
Lemma ends_read a : ends (io_read a).
Proof. intros w Q Ho Hl HQ. apply wp_looks; [apply looks_io_read |]. intros v w' (Es & Eh & _). by apply HQ; rewrite ?Es. Qed.
Lemma ends_write a v : ends (io_write a v).
Proof using Hbring. intros w Q Ho Hl HQ. apply wp_io_write; [exact Hbring |]. by apply HQ. Qed.
Lemma ends_cam_read reg : ends (cam_read reg).
Proof. apply ends_bind; [apply ends_gets | intros v; apply ends_read]. Qed.
Lemma ends_cam_write reg v : ends (cam_write reg v).
Proof using Hbring. apply ends_bind; [apply ends_gets | intros x; apply ends_write]. Qed.
Lemma wp_port_name map i w (Q : list Z -> world vid_ctx -> Prop) :
  0 <= i -> (exists m, map = Some m /\ i < Z.of_nat (length m)) -> (forall name, Q name w) ->
  wp (port_name map i) Q w.
Proof.
  intros Hi (m & -> & Hlen) HQ. unfold port_name. apply wp_bind, wp_ret, wp_bind, wp_array_get.
  destruct (zlookup_Some m i) as (x & Hx); [lia |]. exists x. split; [exact Hx |]. apply wp_ret, HQ.
Qed.
Lemma ends_port_name {A} (f : list Z -> M vid_ctx A) :
  (forall name, ends (f name)) ->
  ends (s ← get; name ← port_name (zdev_video_port_map (vc_zdev s)) (index (vc_video s)); f name).
Proof.
  intros Hf w Q Ho Hl HQ. apply wp_bind, wp_get, wp_bind, wp_port_name; [apply Ho | apply Ho |].
  intros name. by apply Hf.
Qed.
Lemma ends_loop {X A} (measure : X -> nat) fuel (body : X -> M vid_ctx (X + A)) x :
  (measure x < fuel)%nat ->
  (forall y w (Q : X + A -> world vid_ctx -> Prop), hci_ok (w_st w) -> L_zdev_i2c ∉ w_held w ->
     (forall r w', w_held w' = w_held w -> hci_ok (w_st w') ->
        (forall y', r = inl y' -> (measure y' < measure y)%nat) -> Q r w') -> wp (body y) Q w) ->
  ends (loop fuel body x).
Proof.
  intros Hm Hb w Q Ho Hl HQ.
  apply (wp_loop (fun _ v => w_held v = w_held w /\ hci_ok (w_st v)) (fun y _ => measure y)); [by split | done |].
  intros y v [Hh Hv]. apply Hb; [done | congruence |]. intros r w' Hh' Ho' Hr.
  destruct r as [y'|a]; [| apply HQ; [congruence | done]]. split; [split; [congruence | done] | by apply Hr].
Qed.
End ends.

Create HintDb hci.
#[export] Hint Resolve ends_ret ends_when ends_gets ends_get ends_tell ends_read8 ends_init ends_fini
  ends_read ends_write ends_cam_read ends_cam_write : hci.
#[export] Hint Extern 1 (ends (zcam_i2c_read16 _ _)) => apply ends_read_be; [assumption | done] : hci.
#[export] Hint Extern 1 (ends (zcam_i2c_read32 _ _)) => apply ends_read_be; [assumption | done] : hci.
#[export] Hint Extern 1 (ends (upd_caps _)) => apply ends_upd_caps; intros ?; done : hci.
Ltac ends_steps :=
  repeat (cbv beta; match goal with
  | |- ends (mbind _ _) => apply ends_bind; [| intros ?]
  | |- ends (let _ := _ in _) => cbv zeta
  | |- ends (if ?b then _ else _) => destruct b
  | |- ends (match ?x with _ => _ end) => destruct x
  end); try (eauto with hci).

Section check_caps.
Context `{Env} `{ModParams} `{VideoParams} `{CamParams}.
Hypothesis Hbring : zynq_bringup_param = false.
Implicit Types w : world vid_ctx.

Lemma ends_check16 addr ok ko : (forall d, ends (ok d)) -> ends ko -> ends (check16 addr ok ko).
Proof using Hbring. intros Hok Hko. unfold check16. ends_steps. Qed.

Lemma ends_probe_version : ends probe_version.
Proof using Hbring.
  unfold probe_version. apply (ends_loop (fun x => Z.to_nat (10 - fst x))); [cbn; lia |].
  intros [i ret] w Q Ho Hl HQ. destruct (Z.ltb_spec i 10); [| by apply wp_ret, HQ].
  apply wp_bind, (ends_read_be Hbring); [done | done | done |]. intros [rc d] w1 Hh1 Ho1. cbn [fst snd] in *.
  destruct (rc =? 0).
  - apply wp_bind, wp_gets. destruct (_ && _).
    + apply wp_ret, HQ; [done | done |]. intros y' E. discriminate E.
    + apply wp_bind. apply (ends_upd_caps (fun c => c<|minor_version := d|>)); [done | done | congruence |].
      intros [] w2 Hh2 Ho2. apply wp_ret, HQ; [congruence | done |]. intros y' E. discriminate E.
  - apply wp_bind, wp_tell, wp_ret, HQ; [done | done |]. intros y' [= <-]. cbn. lia.
Qed.

Lemma ends_probe_once : ends probe_once.
Proof using Hbring. unfold probe_once. pose proof ends_probe_version. ends_steps. Qed.
Lemma ends_reset_i2c : ends probe_reset_i2c.
Proof using Hbring. unfold probe_reset_i2c, zynq_g_reg_read, zynq_g_reg_write. ends_steps. Qed.

Lemma ends_read_caps : ends read_caps.
Proof using Hbring.
  unfold read_caps.
  assert (forall addr ok ko, (forall d, ends (ok d)) -> ends ko -> ends (check16 addr ok ko)) as Hc
    by (intros; by apply ends_check16).
  repeat (apply ends_bind; [first
    [ apply Hc; [intros; first [apply ends_port_name; intros | idtac]; solve [eauto with hci] | solve [eauto with hci]]
    | solve [eauto with hci]] | intros]).
  ends_steps.
  apply ends_upd_caps. intros c _. cbn. unfold by_family.
  destruct (Z.eqb_spec z2 0); rewrite ?andb_false_r, ?andb_true_r; cbn [negb]; repeat case_match; done.
Qed.

Lemma ends_init_time_params : ends zcam_init_time_params.
Proof.
  intros w Q Ho Hl HQ. unfold zcam_init_time_params, T_ROW, T_FRAME, c_div.
  apply wp_bind, wp_gets. cbv zeta. pose proof Ho as (Hi & Hp & Hm). apply Z.eqb_neq in Hp as Hp'.
  rewrite Hp'. apply wp_bind, wp_ret, wp_bind, wp_fmap, wp_ret, wp_bind, wp_fmap, wp_ret.
  apply wp_bind, wp_fmap, wp_ret, wp_modify, HQ; done.
Qed.

Lemma ends_choose_config : ends choose_config.
Proof.
  unfold choose_config. apply ends_bind; [eauto with hci | intros _].
  apply ends_bind; [eauto with hci | intros _]. apply ends_bind; [eauto with hci | intros v].
  assert (forall i cfg, zlookup zcam_dev_cfgs i = Some cfg -> ends (array_get zcam_dev_cfgs i)) as Hget.
  { intros i cfg E w Q Ho Hl HQ. apply wp_array_get. exists cfg. split; [exact E |]. by apply HQ. }
  apply ends_bind; [destruct (tst _ _); by eapply Hget |]. intros cfg.
  apply ends_bind; [by apply ends_modify |]. intros _. by apply ends_modify.
Qed.

(** *** The device lock taken and given back *)
Definition hci_free w : Prop := (L_zdev ∉ w_held w) /\ (L_zdev_i2c ∉ w_held w).

Lemma wp_lock_zdev w (Q : unit -> world vid_ctx -> Prop) :
  hci_free w -> hci_ok (w_st w) ->
  (forall w', w_held w' = L_zdev :: w_held w -> hci_ok (w_st w') -> Q tt w') -> wp (spin_lock L_zdev) Q w.
Proof. intros [Hf _] Ho HQ. by apply wp_spin_lock, HQ. Qed.

(** code under the lock, and the unlocking *)
Lemma wp_under {A} (m : M vid_ctx A) w0 w (Q : A -> world vid_ctx -> Prop) :
  hci_free w0 -> ends m -> w_held w = L_zdev :: w_held w0 -> hci_ok (w_st w) ->
  (forall a w', w_held w' = L_zdev :: w_held w0 -> hci_ok (w_st w') -> Q a w') -> wp m Q w.
Proof.
  intros [_ Hf] Hm Hh Ho HQ. apply Hm; [done | rewrite Hh; by apply not_elem_of_cons |].
  intros a w' Hh'. apply HQ. congruence.
Qed.
Lemma wp_unlock_zdev w0 w (Q : unit -> world vid_ctx -> Prop) :
  hci_free w0 -> w_held w = L_zdev :: w_held w0 -> hci_ok (w_st w) ->
  (forall w', w_held w' = w_held w0 -> hci_ok (w_st w') -> Q tt w') -> wp (spin_unlock L_zdev) Q w.
Proof. intros [Hf _] Hh Ho HQ. eapply wp_spin_unlock; [exact Hh | done |]. by apply HQ. Qed.

Lemma hci_free_held w w' : hci_free w -> w_held w' = w_held w -> hci_free w'.
Proof. unfold hci_free. by intros Hf ->. Qed.

Lemma wp_probe_swap ret w0 w (Q : unit -> world vid_ctx -> Prop) :
  hci_free w0 -> w_held w = L_zdev :: w_held w0 -> hci_ok (w_st w) ->
  (forall w', w_held w' = L_zdev :: w_held w0 -> hci_ok (w_st w') -> Q tt w') -> wp (probe_swap ret) Q w.
Proof using Hbring.
  intros Hf Hh Ho HQ. unfold probe_swap.
  apply wp_bind, (wp_under _ w0); eauto with hci. intros _ w1 Hh1 Ho1.
  apply wp_bind, (wp_under _ w0); [done | apply ends_reset_i2c | done | done |]. intros _ w2 Hh2 Ho2.
  apply wp_bind, (wp_unlock_zdev w0); [done | done | done |]. intros w3 Hh3 Ho3.
  apply wp_bind, wp_tell. apply wp_bind, wp_lock_zdev; [by eapply hci_free_held | done |].
  wp_simpl. intros w4 Hh4 Ho4. rewrite Hh3 in Hh4.
  apply wp_bind, (wp_under _ w0); eauto with hci. intros _ w5 Hh5 Ho5.
  apply wp_bind, (wp_under _ w0); eauto with hci. intros val w6 Hh6 Ho6.
  apply wp_bind, wp_gets. apply wp_bind, (wp_under _ w0); eauto with hci. intros _ w7 Hh7 Ho7.
  apply wp_bind, (wp_unlock_zdev w0); [done | done | done |]. intros w8 Hh8 Ho8.
  apply wp_bind. assert (forall v, w_held v = w_held w0 -> hci_ok (w_st v) -> wp (spin_lock L_zdev) Q v) as Hlast.
  { intros v Hv Hvo. apply wp_lock_zdev; [by eapply hci_free_held | done |]. intros w9 Hh9 Ho9.
    apply HQ; [congruence | done]. }
  destruct (ret =? 0xFF); apply wp_tell, Hlast; done.
Qed.

Lemma wp_probe_end orig re ret w0 w (Q : Z -> world vid_ctx -> Prop) :
  hci_free w0 -> w_held w = L_zdev :: w_held w0 -> hci_ok (w_st w) ->
  (forall a w', w_held w' = w_held w0 -> hci_ok (w_st w') -> Q a w') -> wp (probe_end orig re ret) Q w.
Proof using Hbring.
  intros Hf Hh Ho HQ. unfold probe_end. apply wp_bind, (wp_under _ w0); [done | | done | done |].
  { apply ends_when, ends_bind; [eauto with hci | intros _]. by apply ends_upd_caps. }
  intros _ w1 Hh1 Ho1. apply wp_bind, (wp_under _ w0); eauto with hci. intros _ w2 Hh2 Ho2.
  apply wp_bind, (wp_unlock_zdev w0); [done | done | done |]. intros w3 Hh3 Ho3. by apply wp_ret, HQ.
Qed.

Lemma wp_zcam_probe w (Q : Z -> world vid_ctx -> Prop) :
  hci_free w -> hci_ok (w_st w) -> (forall a w', w_held w' = w_held w -> hci_ok (w_st w') -> Q a w') ->
  wp zcam_probe Q w.
Proof using Hbring.
  intros Hf Ho HQ. unfold zcam_probe. apply wp_bind, wp_lock_zdev; [done | done |]. intros w1 Hh1 Ho1.
  apply wp_bind, (wp_under _ w); eauto with hci. intros orig w2 Hh2 Ho2.
  apply wp_bind, (wp_under _ w); eauto with hci. intros _ w3 Hh3 Ho3.
  apply wp_bind, (wp_under _ w); [done | apply ends_probe_once | done | done |].
  intros [opened ret] w4 Hh4 Ho4. destruct (opened && negb (ret =? 0)); [| by apply (wp_probe_end _ _ _ w)].
  apply wp_bind, (wp_probe_swap _ w); [done | done | done |]. intros w5 Hh5 Ho5.
  apply wp_bind, (wp_under _ w); [done | apply ends_probe_once | done | done |].
  intros [o2 ret2] w6 Hh6 Ho6. by apply (wp_probe_end _ _ _ w).
Qed.

Lemma wp_force_pin_swap w (Q : unit -> world vid_ctx -> Prop) :
  hci_free w -> hci_ok (w_st w) -> (forall w', w_held w' = w_held w -> hci_ok (w_st w') -> Q tt w') ->
  wp force_pin_swap Q w.
Proof using Hbring.
  intros Hf Ho HQ. unfold force_pin_swap. apply wp_bind.
  apply (ends_upd_caps (fun c => c<|pin_swap := if 0 <? zynq_video_pin_swap then 1 else 0|>));
    [done | done | apply Hf |]. intros [] w1 Hh1 Ho1.
  apply wp_bind, wp_lock_zdev; [by eapply hci_free_held | done |]. rewrite Hh1. intros w2 Hh2 Ho2.
  apply wp_bind, (wp_under _ w); eauto with hci. intros val w3 Hh3 Ho3. apply wp_bind, wp_gets. cbv zeta.
  apply wp_bind, (wp_under _ w); eauto with hci. intros _ w4 Hh4 Ho4.
  apply wp_bind, (wp_unlock_zdev w); [done | done | done |]. intros w5 Hh5 Ho5.
  apply (ends_when _ _ (ends_tell _)); [done | rewrite Hh5; apply Hf |]. intros [] w6 Hh6 Ho6.
  apply HQ; [congruence | done].
Qed.

(** a camera's capabilities are determined on any device: no division by zero,
    no lock kept *)
Lemma wp_check_caps w (Q : Z -> world vid_ctx -> Prop) :
  hci_free w -> 0 <= index (vc_video (w_st w)) < 32 ->
  (exists m, zdev_video_port_map (vc_zdev (w_st w)) = Some m /\
     index (vc_video (w_st w)) < Z.of_nat (length m)) ->
  (forall a w', w_held w' = w_held w -> hci_ok (w_st w') -> Q a w') -> wp zcam_check_caps Q w.
Proof using Hbring.
  intros Hf Hi Hm HQ. unfold zcam_check_caps, caps_init.
  apply wp_bind, wp_bind, wp_get, wp_bind, wp_port_name; [apply Hi | done |]. intros name.
  apply wp_modify. set (w0 := World _ _ _). assert (hci_ok (w_st w0)) as Ho0 by (by split).
  assert (hci_free w0) as Hf0 by done. apply wp_bind, wp_gets, wp_bind.
  assert (forall early v, w_held v = w_held w -> hci_ok (w_st v) ->
    wp (if negb (early =? 0) then mret early
        else spin_lock L_zdev;; ret ← zcam_i2c_init; ret ← (if negb (ret =? 0) then mret ret else read_caps);
             zcam_i2c_fini;; spin_unlock L_zdev;; zcam_init_time_params;; choose_config;; mret ret) Q v) as Hrest.
  { intros early v Hv Ho. destruct (negb _); [by apply wp_ret, HQ |].
    assert (hci_free v) as Hfv by (by eapply hci_free_held).
    apply wp_bind, wp_lock_zdev; [done | done |]. rewrite Hv. intros w1 Hh1 Ho1.
    apply wp_bind, (wp_under _ w); eauto with hci. intros ret w2 Hh2 Ho2.
    apply wp_bind, (wp_under _ w); [done | | done | done |].
    { destruct (negb _); [apply ends_ret | apply ends_read_caps]. }
    intros ret2 w3 Hh3 Ho3. apply wp_bind, (wp_under _ w); eauto with hci. intros _ w4 Hh4 Ho4.
    apply wp_bind, (wp_unlock_zdev w); [done | done | done |]. intros w5 Hh5 Ho5.
    apply wp_bind, ends_init_time_params; [done | rewrite Hh5; apply Hf |]. intros _ w6 Hh6 Ho6.
    apply wp_bind, ends_choose_config; [done | rewrite Hh6, Hh5; apply Hf |]. intros _ w7 Hh7 Ho7.
    apply wp_ret, HQ; [congruence | done]. }
  destruct (0 <=? zynq_video_pin_swap).
  - apply wp_bind, wp_force_pin_swap; [done | done |]. intros v Hv Hov. by apply wp_ret, Hrest.
  - destruct (tst _ _); [by apply wp_ret, Hrest |]. apply wp_zcam_probe; [done | done |].
    intros a v Hv Hov. by apply Hrest.
Qed.
End check_caps.

(** *** What probing leaves alone *)
Definition no_kernel (e : event) : Prop :=
  match ev_call e with KernelCall _ _ => False | _ => True end.
(** all but the capabilities, the times and choices that follow from them *)
Record cam_frame (s s' : vid_ctx) : Prop := {
  frame_zdev : vc_zdev s' = vc_zdev s;
  frame_zchan : vc_zchan s' = vc_zchan s;
  frame_index : index (vc_video s') = index (vc_video s);
  frame_link : link_up (caps (vc_video s')) = link_up (caps (vc_video s));
  frame_vstate : vstate (vc_video s') = vstate (vc_video s);
  frame_reg_base : reg_base (vc_video s') = reg_base (vc_video s);
  frame_stream : vc_stream s' = (vc_stream s)<|read_em_data := read_em_data (vc_stream s')|>
}.
#[global] Instance cam_frame_preorder : PreOrder cam_frame.
Proof.
  split.
  - intros s. split; try done. by destruct (vc_stream s).
  - intros s1 s2 s3 [] []. split; try congruence.
    rewrite frame_stream1, frame_stream0. reflexivity.
Qed.

Section left_alone.
Context `{Env} `{ModParams} `{VideoParams} `{CamParams}.

Lemma only_i2c_write a : only no_kernel (zdev_i2c_write a).
Proof.
  unfold zdev_i2c_write, zdev_i2c_validate, zdev_i2c_check_busy, i2c_set_addr_hi, zynq_g_reg_read,
    zynq_g_reg_write, io_read, io_write. only_steps; by intros ?.
Qed.
Lemma only_i2c_read a : only no_kernel (zdev_i2c_read a).
Proof.
  unfold zdev_i2c_read, zdev_i2c_validate, zdev_i2c_check_busy, i2c_set_addr_hi, zynq_g_reg_read,
    zynq_g_reg_write, io_read, io_write. only_steps; by intros ?.
Qed.
#[local] Hint Resolve only_i2c_read only_i2c_write : core.

Lemma only_init : only no_kernel zcam_i2c_init.
Proof. unfold zcam_i2c_init, cam, on_vdev. only_steps; auto. Qed.
Lemma only_fini : only no_kernel zcam_i2c_fini.
Proof. unfold zcam_i2c_fini, cam, on_vdev. only_steps; auto. Qed.
Lemma only_read8 addr d : only no_kernel (zcam_i2c_read8 addr d).
Proof. unfold zcam_i2c_read8, on_vdev. only_steps; auto. Qed.
Lemma only_read_be n addr d : only no_kernel (read_be n addr d).
Proof. unfold read_be. only_steps; apply only_read8. Qed.
#[local] Hint Resolve only_init only_fini only_read8 only_read_be : core.

Lemma only_probe : only no_kernel zcam_probe.
Proof.
  unfold zcam_probe, probe_end, probe_swap, probe_once, probe_version, probe_reset_i2c, cam_read, cam_write,
    zvideo_reg_read, zvideo_reg_write, upd_caps, upd_cam, cam, zcam_i2c_read16, zynq_g_reg_read,
    zynq_g_reg_write, io_read, io_write, udelay, msleep.
  only_steps; auto; by intros ?.
Qed.
Lemma only_check_caps : only no_kernel zcam_check_caps.
Proof.
  pose proof only_probe. unfold zcam_check_caps, caps_init, force_pin_swap, read_caps, check16, choose_config,
    zcam_init_time_params, T_ROW, T_FRAME, c_div, port_name, cam_read, cam_write, zvideo_reg_read,
    zvideo_reg_write, upd_caps, upd_cam, upd_stream, cam, zcam_i2c_read16, zcam_i2c_read32, io_read, io_write, msleep.
  only_steps; auto; by intros ?.
Qed.

(** the device's state under the I2C calls *)
Lemma frames_i2c_write a : frames eq (zdev_i2c_write a).
Proof.
  unfold zdev_i2c_write, zdev_i2c_validate, zdev_i2c_check_busy, i2c_set_addr_hi, zynq_g_reg_read,
    zynq_g_reg_write, io_read, io_write. frames_steps.
Qed.
Lemma frames_i2c_read a : frames eq (zdev_i2c_read a).
Proof.
  unfold zdev_i2c_read, zdev_i2c_validate, zdev_i2c_check_busy, i2c_set_addr_hi, zynq_g_reg_read,
    zynq_g_reg_write, io_read, io_write. frames_steps.
Qed.
Lemma frames_on_vdev {A} (m : M zynq_dev A) : frames eq m -> frames cam_frame (on_vdev m).
Proof.
  intros Hm. eapply (frames_zoom cam_frame _ _ _ _ Hm). intros s t <-.
  split; try done. cbn. by destruct (vc_stream s).
Qed.
Lemma frames_upd_caps f : (forall c, link_up (f c) = link_up c) -> frames cam_frame (upd_caps f).
Proof.
  intros Hf. apply frames_modify; [typeclasses eauto |]. intros s. split; try done; [apply Hf |]. cbn. by destruct (vc_stream s).
Qed.
#[local] Hint Resolve frames_i2c_write frames_i2c_read frames_on_vdev frames_upd_caps : core.

Lemma frames_init : frames cam_frame zcam_i2c_init.
Proof. unfold zcam_i2c_init, cam. frames_steps; auto. Qed.
Lemma frames_fini : frames cam_frame zcam_i2c_fini.
Proof. unfold zcam_i2c_fini, cam. frames_steps; auto. Qed.
Lemma frames_read8 addr d : frames cam_frame (zcam_i2c_read8 addr d).
Proof. unfold zcam_i2c_read8. frames_steps; auto. Qed.
Lemma frames_read_be n addr d : frames cam_frame (read_be n addr d).
Proof. unfold read_be. frames_steps; apply frames_read8. Qed.
#[local] Hint Resolve frames_init frames_fini frames_read8 frames_read_be : core.

Lemma frames_probe : frames cam_frame zcam_probe.
Proof.
  unfold zcam_probe, probe_end, probe_swap, probe_once, probe_version, probe_reset_i2c, cam_read, cam_write,
    zvideo_reg_read, zvideo_reg_write, cam, zcam_i2c_read16, zynq_g_reg_read,
    zynq_g_reg_write, io_read, io_write, udelay, msleep.
  frames_steps; auto.
Qed.
Lemma frames_check_caps : frames cam_frame zcam_check_caps.
Proof.
  pose proof frames_probe. unfold zcam_check_caps, caps_init, force_pin_swap, read_caps, check16, choose_config,
    zcam_init_time_params, T_ROW, T_FRAME, c_div, port_name, cam_read, cam_write, zvideo_reg_read,
    zvideo_reg_write, cam, zcam_i2c_read16, zcam_i2c_read32, io_read, io_write, msleep.
  frames_steps; auto; (apply frames_modify; [typeclasses eauto |]); intros s; split; try done; cbn; by destruct (vc_stream s).
Qed.
End left_alone.
(** ** Properties *)
Section hci_properties.
Context `{Env} `{ModParams}.

(** C34: writing the flash of a camera.  For every device behaviour the call
    ends with the locks and the driver's state as before, and what the camera
    was told is: the session opened; then, cut into consecutive pieces none of
    which spans a page, for each piece in order its address, length and bytes in
    the parameter pool, the write command, and between one and fifty questions
    for the status; then the session closed.  On an error it is a prefix of
    that before the closing; when the call returns 0 it is all of it. *)
Theorem flash_write_pages (address : Z) (data : list Z) (w : world vid_ctx)
    (Hbring : zynq_bringup_param = false) (Hi : 0 <= index (vc_video (w_st w)) < 32)
    (Hl1 : L_zdev ∉ w_held w) (Hl2 : L_zdev_i2c ∉ w_held w)
    (Hbytes : Forall (fun b => 0 <= b < 256) data)
    (Ha : 0 <= address) (Hend : address + Z.of_nat (length data) <= 2 ^ 32) :
  wp (zcam_flash_write address data (Z.of_nat (length data))) (fun rc w' => exists cs polls,
    page_chunks address data cs /\ length polls = length cs /\
    Forall (fun m => (1 <= m <= 50)%nat) polls /\
    session_told w rc w' (program_writes cs polls)) w.
Proof.
  unfold zcam_flash_write.
  apply (wp_session_ Hbring (fun ops => exists cs polls, page_chunks address data cs /\
    length polls = length cs /\ Forall (fun m => (1 <= m <= 50)%nat) polls /\
    ops = program_writes cs polls)); try done.
  - destruct (page_chunks_exist address data) as (cs & Hcs).
    eexists _, cs, (replicate (length cs) 1%nat). split; [exact Hcs |].
    split; [by rewrite length_replicate |]. split; [| done]. apply Forall_replicate. lia.
  - intros v Es Eh. apply (wp_flash_write_loop Hbring data Hbytes); try lia; [rewrite Eh; solve_held |].
    intros rc w' cs polls Hcs Hlp Hpl T. exists (program_writes cs polls). split; [| exact T].
    by exists cs, polls.
  - intros rc w' ops (cs & polls & Hcs & Hlp & Hpl & ->) Ht. by exists cs, polls.
Qed.
End hci_properties.

(** ** Witnesses *)
Module HciWitness.
#[local] Existing Instance env_zero.
#[local] Existing Instance params_default.
#[local] Instance cam_params : CamParams := {| zynq_video_pin_swap := -1; zynq_video_flash_16 := -1 |}.
Import VideoMeta.MetaWitness.

Definition world_c : world vid_ctx := World [] [] (w_st world_f).

Lemma flash_write_pages_witness :
  wp (zcam_flash_write 0x7FF0 (replicate 40 0x5A) 40) (fun rc w' => exists cs polls,
    page_chunks 0x7FF0 (replicate 40 0x5A) cs /\ length polls = length cs /\
    Forall (fun m => (1 <= m <= 50)%nat) polls /\
    session_told world_c rc w' (program_writes cs polls)) world_c.
Proof.
  apply (flash_write_pages 0x7FF0 (replicate 40 0x5A) world_c); try apply not_elem_of_nil; try done.
  by apply Forall_replicate.
Defined.

(** two pieces: up to the page's end at 0x8000, and the rest; a camera that is
    always ready is asked for the status once after each *)
Definition told_by (r : outcome vid_ctx Z) : option (Z * list bus_write) :=
  match r with Ret rc w => Some (rc, bus_writes 0 (rev (mmio_writes (w_log w)))) | _ => None end.
Example write_runs :
  told_by (zcam_flash_write 0x7FF0 (replicate 40 0x5A) 40 world_c) =
  Some (0, slave_writes 0 0x90
    ++ program_writes [(0x7FF0, replicate 16 0x5A); (0x8000, replicate 24 0x5A)] [1; 1]%nat
    ++ slave_writes 0 0).
Proof. vm_compute. reflexivity. Qed.

(** the camera answers every read with 0.  A read of 255 bytes stores them; of
    256 bytes, a full parameter pool, the length is converted to 0: nothing is
    read and success is returned *)
Definition read_by (size : nat) : option (Z * bool) :=
  match zcam_flash_read 0 (replicate size 0xAA) (Z.of_nat size) world_c with
  | Ret (rc, data) _ => Some (rc, forallb (Z.eqb 0) data)
  | _ => None
  end.
Example short_read : read_by 255 = Some (0, true).
Proof. vm_compute. reflexivity. Qed.
Example full_chunk_not_read : read_by 256 = Some (0, false).
Proof. vm_compute. reflexivity. Qed.
End HciWitness.
