(* ===== verification/VideoDev.v ===== *)
(** * The video device of a camera (the V4L2 part of [basa_video.c])

    The operations of the device node, its private requests, and its life: it is
    registered when the camera's link comes up and removed when it goes down. *)

From S2P Require Import Kernel Frames Regs Api Device Chan I2c Video Trigger VideoMeta VideoQueue VideoStream.
From S2P Require Import CamHci.

(** ** Constants *)
Definition V4L2_CAP_VIDEO_CAPTURE : Z := 0x00000001.
Definition V4L2_CAP_STREAMING : Z := 0x04000000.
Definition V4L2_CAP_DEVICE_CAPS : Z := 0x80000000.
Definition V4L2_INPUT_TYPE_CAMERA : Z := 2.
Definition ZYNQ_CAM_FW_BLOCK_SIZE_MAX : Z := 250.
Definition ZVIDEO_LINK_CHANGE_DELAY : Z := 1000.

(** ** Structures of the requests *)

(** [struct v4l2_capability] *)
Record v4l2_capability := V4l2Cap {
  cap_driver : list Z; cap_card : list Z; cap_bus_info : list Z;
  cap_capabilities : Z; cap_device_caps : Z
}.
#[global] Instance v4l2_capability_eta : Eta v4l2_capability := fun r =>
  V4l2Cap (cap_driver r) (cap_card r) (cap_bus_info r) (cap_capabilities r) (cap_device_caps r).

(** [struct v4l2_input], the members the driver sets *)
Record v4l2_input := V4l2Input { in_index : Z; in_type : Z; in_name : list Z }.

(** the text up to its terminator, and [strlcpy] of it into a buffer of [n] bytes *)
Fixpoint c_text (s : list Z) : list Z :=
  match s with [] => [] | c :: s' => if c =? 0 then [] else c :: c_text s' end.
Definition strlcpy (n : Z) (src dst : list Z) : list Z := snprintf n (c_text src) dst.

(** [zynq_cam_caps_t] in memory: the name, then five words *)
Definition caps_words (c : zynq_cam_caps) : list Z :=
  map (fun i => word_of (cap_name c !!! (4 * i + 3)%nat) (cap_name c !!! (4 * i + 2)%nat)
                  (cap_name c !!! (4 * i + 1)%nat) (cap_name c !!! (4 * i)%nat)) (seq 0 14)
  ++ [unique_id c + Z.shiftl (major_version c) 16;
      minor_version c
        + Z.shiftl (timestamp_type c + 4 * trigger_mode c + 16 * embedded_data c
                    + 32 * interface_type c + 64 * pin_swap c) 16
        + Z.shiftl (link_up c) 24;
      frame_len_lines c + Z.shiftl (line_len_pck c) 16;
      pixel_clock c].

(** [zynq_cam_acc_t] *)
Definition acc_of_words (arg : list Z) : zynq_cam_acc :=
  CamAcc (u16 (arg !!! 0%nat)) (Z.shiftr (arg !!! 0%nat) 16) (arg !!! 1%nat).
(** [zynq_cam_fw_t]: a pointer of the user, a size, an address of the flash *)
Definition fw_data (arg : list Z) : Z := arg !!! 0%nat + Z.shiftl (arg !!! 1%nat) 32.
Definition fw_size (arg : list Z) : Z := arg !!! 2%nat.
Definition fw_address (arg : list Z) : Z := arg !!! 3%nat.

Section vdev.
Context `{Env} `{ModParams} `{VideoParams} `{CamParams}.

(** ** The standard requests *)
Definition vb2_is_busy : M vid_ctx bool :=
  i ← vid_index; (fun r => negb (r =? 0)) <$> ask (KernelCall "vb2_is_busy" [i]).

(** [modname] and [pci] are the names of the module and of the PCI device *)
Definition zvideo_querycap (modname pci : list Z) (cap : v4l2_capability)
  : M vid_ctx (Z * v4l2_capability) :=
  v ← cam;
  let device_caps := Z.lor V4L2_CAP_VIDEO_CAPTURE V4L2_CAP_STREAMING in
  mret (0, cap<|cap_driver ::= strlcpy 16 modname|>
              <|cap_card ::= strlcpy 32 (cap_name (caps v))|>
              <|cap_bus_info ::= snprintf 32 ([80; 67; 73; 58] ++ pci)|>
              <|cap_device_caps := device_caps|>
              <|cap_capabilities := Z.lor device_caps V4L2_CAP_DEVICE_CAPS|>).

Definition zvideo_try_fmt_vid_cap (pix : v4l2_pix_format) : M vid_ctx (Z * v4l2_pix_format) :=
  v ← cam;
  mret (if negb (pixelformat pix =? pixelformat (format v)) then (- EINVAL, pix) else (0, format v)).
Definition zvideo_s_fmt_vid_cap (pix : v4l2_pix_format) : M vid_ctx (Z * v4l2_pix_format) :=
  '(ret, pix) ← zvideo_try_fmt_vid_cap pix;
  if negb (ret =? 0) then mret (ret, pix)
  else busy ← vb2_is_busy; mret (if (busy : bool) then - EBUSY else 0, pix).
Definition zvideo_g_fmt_vid_cap : M vid_ctx (Z * v4l2_pix_format) :=
  v ← cam; mret (0, format v).
(** the pixel format of the given index *)
Definition zvideo_enum_fmt_vid_cap (index_ : Z) : M vid_ctx (Z * option Z) :=
  v ← cam; mret (if negb (index_ =? 0) then (- EINVAL, None) else (0, Some (pixelformat (format v)))).

Definition zvideo_enum_input (i : v4l2_input) : M vid_ctx (Z * v4l2_input) :=
  v ← cam;
  mret (if 0 <? in_index i then (- EINVAL, i)
        else (0, V4l2Input (in_index i) V4L2_INPUT_TYPE_CAMERA (strlcpy 32 (cap_name (caps v)) (in_name i)))).
Definition zvideo_s_input (i : Z) : M vid_ctx Z :=
  if 0 <? i then mret (- EINVAL)
  else
    busy ← vb2_is_busy;
    if (busy : bool) then mret (- EBUSY)
    else upd_cam (fun v => v<|input := i|>);; mret 0.
Definition zvideo_g_input : M vid_ctx (Z * Z) := v ← cam; mret (0, input v).
Definition zvideo_s_ctrl : M vid_ctx Z := mret 0.

(** ** The private requests; [arg] is the kernel's copy of the argument, in
    words, and [stack] the contents of the arrays on the stack *)

Definition cam_flash_init (config_device : Z) : M vid_ctx Z :=
  let config := negb (config_device =? 0) in
  err ← (if config then zcam_set_suspend else mret 0);
  if negb (err =? 0) then mret err
  else
    err ← zcam_flash_get_lock;
    if negb (err =? 0) then mret err
    else
      err ← zcam_flash_lock_status;
      if negb (err =? 0) then mret err
      else if negb config then mret 0
      else
        err ← zcam_flash_query_device;
        if negb (err =? 0) then zcam_flash_release_lock;; mret err
        else
          err ← zcam_flash_config_device;
          if negb (err =? 0) then zcam_flash_release_lock;; mret err else mret 0.

Definition cam_fw_refused (arg : list Z) : bool :=
  (ZYNQ_CAM_FW_BLOCK_SIZE_MAX <? fw_size arg) || (fw_data arg =? 0).
Definition cam_flash_read_ioctl (stack arg : list Z) : M vid_ctx Z :=
  if cam_fw_refused arg then mret (- EINVAL)
  else
    '(err, data) ← zcam_flash_read (fw_address arg) stack (fw_size arg);
    if negb (err =? 0) then mret err
    else
      ok ← copy_to_user (fw_data arg) (fw_size arg) (take (Z.to_nat (fw_size arg)) data);
      mret (if (ok : bool) then 0 else - EFAULT).
Definition cam_flash_write_ioctl (arg : list Z) : M vid_ctx Z :=
  if cam_fw_refused arg then mret (- EINVAL)
  else
    data ← copy_bytes_from_user (fw_data arg) (Z.to_nat (fw_size arg));
    match data with
    | None => mret (- EFAULT)
    | Some data => zcam_flash_write (fw_address arg) data (fw_size arg)
    end.

Definition cam_reset_ioctl : M vid_ctx unit :=
  qlocked (upd_cam (fun v => v<|vstate ::= fun s => Z.lor s ZVIDEO_STATE_CAM_FAULT|>));;
  on_vchan zchan_watchdog_complete.

(** the error code and the argument as it is left *)
Definition zvideo_ioctl_default (cmd : Z) (stack arg : list Z) : M vid_ctx (Z * list Z) :=
  if cmd =? ZYNQ_IOC_CAM_REG_READ then
    '(err, acc) ← zcam_reg_read (acc_of_words arg);
    mret (err, <[1%nat := ca_data acc]> arg)
  else if cmd =? ZYNQ_IOC_CAM_REG_WRITE then
    err ← zcam_reg_write (acc_of_words arg); mret (err, arg)
  else if cmd =? ZYNQ_IOC_CAM_FLASH_INIT then
    err ← cam_flash_init (s32 (arg !!! 0%nat)); mret (err, arg)
  else if cmd =? ZYNQ_IOC_CAM_FLASH_FINI then err ← zcam_flash_release_lock; mret (err, arg)
  else if cmd =? ZYNQ_IOC_CAM_FLASH_READ then err ← cam_flash_read_ioctl stack arg; mret (err, arg)
  else if cmd =? ZYNQ_IOC_CAM_FLASH_WRITE then err ← cam_flash_write_ioctl arg; mret (err, arg)
  else if cmd =? ZYNQ_IOC_CAM_CAPS then
    (if u16 (arg !!! 14%nat) =? 0xFFFF then zcam_check_caps;; mret tt else mret tt);;
    v ← cam;
    mret (0, caps_words (caps v) ++ drop 18 arg)
  else if cmd =? ZYNQ_IOC_CAM_RESET then cam_reset_ioctl;; mret (0, arg)
  else if cmd =? ZYNQ_IOC_TRIGGER_ENABLE_ONE then
    let fps_ := byte_of (arg !!! 0%nat) 1 in
    zvideo_trigger_enable fps_ (byte_of (arg !!! 0%nat) 2);;
    mret (0, <[0%nat := set_byte (arg !!! 0%nat) 1 (zvideo_trigger_fps fps_)]> arg)
  else if cmd =? ZYNQ_IOC_TRIGGER_DISABLE_ONE then zvideo_trigger_disable;; mret (0, arg)
  else if cmd =? ZYNQ_IOC_TRIGGER_DELAY_SET then zvideo_trigger_delay_set (arg !!! 1%nat);; mret (0, arg)
  else if cmd =? ZYNQ_IOC_TRIGGER_DELAY_GET then
    '(delay, exposure) ← zvideo_trigger_delay_get;
    mret (0, <[2%nat := exposure]> (<[1%nat := delay]> arg))
  else mret (- EINVAL, arg).

(** ** Registration *)

(** whether the link changed *)
Definition zvideo_check_link_status : M vid_ctx bool :=
  status ← cam_read ZYNQ_CAM_STATUS;
  v ← cam;
  let prev := link_up (caps v) in
  let up := if tst status ZYNQ_CAM_FPD_UNLOCK then 0 else 1 in
  upd_caps (fun c => c<|link_up := up|>);;
  mret (negb (up =? prev)).

Definition zvideo_get_camera_info : M vid_ctx unit :=
  zcam_check_caps;;
  on_cam (zvideo_set_format zynq_video_format).

Definition zvideo_register_vdev : M vid_ctx Z :=
  i ← vid_index;
  registered ← ask (KernelCall "video_is_registered" [i]);
  if negb (registered =? 0) then mret (-1)
  else
    upd_cam (fun v => v<|vdev_num := 0|>);;
    ret ← ask (KernelCall "video_register_device" [i]);
    if negb (ret =? 0) then mret ret
    else
      num ← ask (KernelCall "video_device_num" [i]);
      upd_cam (fun v => v<|vdev_num := num|>);;
      mret 0.
Definition zvideo_unregister_vdev : M vid_ctx unit :=
  i ← vid_index; tell (KernelCall "video_unregister_device" [i]).

Definition zvideo_link_change : M vid_ctx unit :=
  i ← vid_index;
  spin_lock (L_zvideo_q i);;
  upd_cam (fun v => v<|vstate ::= fun s => Z.land s (Z.lnot ZVIDEO_STATE_LINK_CHANGE)|>);;
  link_changed ← zvideo_check_link_status;
  spin_unlock (L_zvideo_q i);;
  if negb (link_changed : bool) then mret tt
  else
    v ← cam;
    if negb (link_up (caps v) =? 0) then
      zvideo_get_camera_info;;
      zvideo_register_vdev;;
      mret tt
    else zvideo_unregister_vdev.

Definition zvideo_watchdog (others : M vid_ctx unit) : M vid_ctx unit :=
  v ← cam;
  s ← stream;
  due ← (if tst (vstate v) ZVIDEO_STATE_LINK_CHANGE then
           j ← jiffies;
           mret (u64 (ts_link_change s + msecs_to_jiffies ZVIDEO_LINK_CHANGE_DELAY) <=? j)
         else mret false);
  when due zvideo_link_change;;
  v ← cam;
  when (tst (vstate v) (Z.lor ZVIDEO_STATE_CHAN_FAULT ZVIDEO_STATE_CAM_FAULT)) (zvideo_reset others).

(** ** Life of the device *)
Definition vdev_free : M vid_ctx unit :=
  i ← vid_index;
  tell (KernelCall "v4l2_ctrl_handler_free" [i]);;
  tell (KernelCall "v4l2_device_unregister" [i]).

Definition zvideo_init : M vid_ctx Z :=
  i ← vid_index;
  upd_cam (fun v => v<|reg_base := (BAR0, ZYNQ_CAM_REG_OFFSET * i)|>);;
  upd_stream (fun s => s<|buf_list := []|><|pending_list := []|>);;
  ret ← ask (KernelCall "v4l2_device_register" [i]);
  if negb (ret =? 0) then mret (-1)
  else
    tell (KernelCall "v4l2_ctrl_handler_init" [i]);;
    ret ← ask (KernelCall "vb2_queue_init" [i; zynq_video_buf_num]);
    if negb (ret =? 0) then vdev_free;; mret ret
    else
      zvideo_check_link_status;;
      v ← cam;
      if negb (link_up (caps v) =? 0) then
        zvideo_get_camera_info;;
        ret ← zvideo_register_vdev;
        if negb (ret =? 0) then vdev_free;; mret ret else mret 0
      else mret 0.

Definition zvideo_fini : M vid_ctx unit :=
  zvideo_unregister_vdev;;
  vdev_free.

(** the part of a piece of data at [offset] that lies between [start] and
    [end_]: whether there is any, and how far its address and length move *)
Definition zvideo_data_range_check (offset start end_ vaddr len : Z) : bool * Z * Z :=
  if (start <=? u64 (offset + len)) && (offset <? end_) then
    let before := s64 (start - offset) in
    let after := s64 (offset + len - end_) in
    let '(vaddr, len) := if 0 <? before then (u64 (vaddr + before), u64 (len - before)) else (vaddr, len) in
    (true, vaddr, if 0 <? after then u64 (len - after) else len)
  else (false, vaddr, len).
End vdev.

(** ** Specification: registration *)

Definition is_call (name : string) (i : Z) (c : call) : bool :=
  match c with KernelCall n [j] => String.eqb n name && (j =? i) | _ => false end.

(** whether the video device of camera [i] is registered, by the calls so far *)
Fixpoint vdev_registered (i : Z) (log : list event) : bool :=
  match log with
  | [] => false
  | e :: log =>
      if is_call "video_register_device" i (ev_call e) then
        (ev_ret e =? 0) || vdev_registered i log
      else if is_call "video_unregister_device" i (ev_call e) then false
      else vdev_registered i log
  end.
(** the core's answer to [video_is_registered] *)
Definition vdev_core_ok `{Env} (i : Z) : Prop := forall log,
  (env_ret log (KernelCall "video_is_registered" [i]) =? 0) = negb (vdev_registered i log).
(** the core refuses a registration at some time *)
Definition vdev_refused `{Env} (i : Z) : Prop :=
  exists log, env_ret log (KernelCall "video_register_device" [i]) <> 0.

Definition vdev_tracks (s : vid_ctx) (log : list event) : Prop :=
  vdev_registered (index (vc_video s)) log = negb (link_up (caps (vc_video s)) =? 0).

(** what is needed of the camera *)
Record vdev_ready (w : world vid_ctx) : Prop := {
  ready_index : 0 <= index (vc_video (w_st w)) < 32;
  ready_port : exists m, zdev_video_port_map (vc_zdev (w_st w)) = Some m /\
    index (vc_video (w_st w)) < Z.of_nat (length m);
  ready_free : hci_free w;
  ready_q : not (L_zvideo_q (index (vc_video (w_st w))) ∈ w_held w);
  ready_link : link_up (caps (vc_video (w_st w))) = 0 \/ link_up (caps (vc_video (w_st w))) = 1;
  ready_tracks : vdev_tracks (w_st w) (w_log w)
}.

(** the link as the camera's status register has it *)
Definition link_of (status : Z) : Z := if tst status ZYNQ_CAM_FPD_UNLOCK then 0 else 1.
(** the format is the chosen one: with the lines of embedded data, or without
    them and smaller *)
Definition configured `{VideoParams} (v : zynq_video) : Prop :=
  exists fmt, zlookup zvideo_formats zynq_video_format = Some fmt /\
    if embedded_data (caps v) =? 1
    then format v = fmt /\ meta_header_lines v = ZVIDEO_EM_DATA_LINES /\ meta_footer_lines v = ZVIDEO_EM_STATS_LINES
    else meta_header_lines v = 0 /\ meta_footer_lines v = 0 /\
      format v = fmt<|width := ZVIDEO_IMAGE_WIDTH|><|height := ZVIDEO_IMAGE_HEIGHT|>
        <|sizeimage := u32 (bytesperline fmt * ZVIDEO_IMAGE_HEIGHT + ZVIDEO_EXT_META_DATA_BYTES)|>.

(** the link change is dealt with: the flag is down, the locks are given back,
    the link is as the camera reports it, a camera whose link came up is
    configured, and the device is registered exactly when the link is up, unless
    the core refused it *)
Record link_settled `{Env} `{VideoParams} (w w' : world vid_ctx) : Prop := {
  settled_flag : tst (vstate (vc_video (w_st w'))) ZVIDEO_STATE_LINK_CHANGE = false;
  settled_state : vstate (vc_video (w_st w')) =
    Z.land (vstate (vc_video (w_st w))) (Z.lnot ZVIDEO_STATE_LINK_CHANGE);
  settled_link : exists evs, Forall calm evs /\ link_up (caps (vc_video (w_st w'))) =
    link_of (u32 (env_ret (evs ++ w_log w) (MmioRead (addr_add (reg_base (vc_video (w_st w))) ZYNQ_CAM_STATUS))));
  settled_config : link_up (caps (vc_video (w_st w))) = 0 -> link_up (caps (vc_video (w_st w'))) = 1 ->
    configured (vc_video (w_st w'));
  settled_held : w_held w' = w_held w;
  settled_index : index (vc_video (w_st w')) = index (vc_video (w_st w));
  settled_chan : vc_zchan (w_st w') = vc_zchan (w_st w);
  settled_buffers : buf_list (vc_stream (w_st w')) = buf_list (vc_stream (w_st w)) /\
    pending_list (vc_stream (w_st w')) = pending_list (vc_stream (w_st w));
  settled_vdev : vdev_tracks (w_st w') (w_log w') \/
    (link_up (caps (vc_video (w_st w'))) = 1 /\ vdev_refused (index (vc_video (w_st w))) /\
     vdev_registered (index (vc_video (w_st w))) (w_log w') = false)
}.

(** ** Lemmas *)
Lemma vdev_registered_app i evs log :
  Forall no_kernel evs -> vdev_registered i (evs ++ log) = vdev_registered i log.
Proof.
  induction 1 as [|e evs He _ IH]; [done |]. cbn [app vdev_registered].
  destruct e as [[] r]; try exact IH. destruct He.
Qed.

Section link.
Context `{Env} `{ModParams} `{VideoParams} `{CamParams}.
Hypothesis Hbring : zynq_bringup_param = false.
Hypothesis Hfmt : 0 <= zynq_video_format < 2.
Implicit Types w : world vid_ctx.

Lemma frames_set_format n : frames
    (fun v v' => index v' = index v /\ link_up (caps v') = link_up (caps v) /\ vstate v' = vstate v)
    (zvideo_set_format n).
Proof.
  clear Hbring Hfmt.
  unfold zvideo_set_format, zynq_g_reg_read, zynq_g_reg_write, io_read, io_write.
  assert (PreOrder (fun v v' : zynq_video =>
    index v' = index v /\ link_up (caps v') = link_up (caps v) /\ vstate v' = vstate v)).
  { split; [by intros v | intros x y z (? & ? & ?) (? & ? & ?); repeat split; congruence]. }
  frames_steps; (apply frames_modify; [typeclasses eauto |]); intros v; done.
Qed.
Lemma only_set_format n : only no_kernel (zvideo_set_format n).
Proof.
  clear Hbring Hfmt.
  unfold zvideo_set_format, zynq_g_reg_read, zynq_g_reg_write, io_read, io_write.
  only_steps; by intros ?.
Qed.

Lemma wp_set_format (v : world zynq_video) (Q : unit -> world zynq_video -> Prop) :
  L_zdev ∉ w_held v -> (forall v', w_held v' = w_held v -> configured (w_st v') -> Q tt v') ->
  wp (zvideo_set_format zynq_video_format) Q v.
Proof using Hbring Hfmt.
  intros Hl HQ. unfold zvideo_set_format.
  destruct (zlookup_Some zvideo_formats zynq_video_format) as (fmt & Hf); [cbn; lia |].
  apply wp_bind, wp_array_get. exists fmt. split; [exact Hf |].
  apply wp_bind, wp_modify, wp_bind, wp_get. wp_simpl.
  destruct (embedded_data (caps _) =? 1) eqn:E; cbn [negb].
  2:{ apply wp_bind, wp_modify, wp_modify, HQ; [done |]. exists fmt. split; [exact Hf |]. wp_simpl. cbn in E |- *.
    by rewrite E. }
  apply wp_bind, wp_spin_lock; [exact Hl |]. apply wp_bind, wp_looks; [apply looks_io_read |].
  intros val v1 (Hs1 & Hh1 & _). apply wp_bind, wp_io_write; [exact Hbring |].
  eapply wp_spin_unlock; [wp_simpl; exact Hh1 | exact Hl |]. apply HQ; [done |].
  exists fmt. split; [exact Hf |]. wp_simpl. rewrite Hs1. cbn in E |- *. by rewrite E.
Qed.

(** reading the capabilities and setting the format keep what matters here *)
Record vid_kept (s s' : vid_ctx) : Prop := {
  kept_chan : vc_zchan s' = vc_zchan s;
  kept_index : index (vc_video s') = index (vc_video s);
  kept_link : link_up (caps (vc_video s')) = link_up (caps (vc_video s));
  kept_vstate : vstate (vc_video s') = vstate (vc_video s);
  kept_bufs : buf_list (vc_stream s') = buf_list (vc_stream s);
  kept_pending : pending_list (vc_stream s') = pending_list (vc_stream s)
}.
#[local] Instance vid_kept_preorder : PreOrder vid_kept.
Proof. split; [by intros s | intros x y z [] []; split; congruence]. Qed.

Lemma frames_camera_info : frames vid_kept zvideo_get_camera_info.
Proof.
  unfold zvideo_get_camera_info. apply frames_bind; [typeclasses eauto | |].
  - intros w a w' E. destruct (frames_check_caps w a w' E) as [_ Hc Hi Hl Hv _ Hs].
    split; try done; rewrite Hs; done.
  - intros _. eapply (frames_zoom vid_kept _ _ _ _ (frames_set_format _)).
    intros s v (Hi & Hl & Hv). by split.
Qed.
Lemma only_camera_info : only no_kernel zvideo_get_camera_info.
Proof. apply only_bind; [apply only_check_caps | intros _; apply only_zoom, only_set_format]. Qed.

Lemma wp_camera_info w (Q : unit -> world vid_ctx -> Prop) :
  hci_free w -> 0 <= index (vc_video (w_st w)) < 32 ->
  (exists m, zdev_video_port_map (vc_zdev (w_st w)) = Some m /\
     index (vc_video (w_st w)) < Z.of_nat (length m)) ->
  (forall w', w_held w' = w_held w -> vid_kept (w_st w) (w_st w') -> configured (vc_video (w_st w')) ->
     (forall i, vdev_registered i (w_log w') = vdev_registered i (w_log w)) -> Q tt w') ->
  wp zvideo_get_camera_info Q w.
Proof using Hbring Hfmt.
  intros Hf Hi Hm HQ. apply (wp_only no_kernel), (wp_frames vid_kept);
    [exact only_camera_info | exact frames_camera_info |].
  unfold zvideo_get_camera_info. apply wp_bind, wp_check_caps; [done | done | done | done |].
  intros rc w1 Hh1 _. apply wp_zoom, wp_set_format; [rewrite Hh1; apply Hf |].
  intros v Hv Hcfg Hk (evs & El & Fe). apply HQ; [rewrite <- Hh1; exact Hv | exact Hk | exact Hcfg |].
  intros i. rewrite El. by apply vdev_registered_app.
Qed.

Lemma wp_register w i (Q : Z -> world vid_ctx -> Prop) :
  i = index (vc_video (w_st w)) -> vdev_core_ok i -> vdev_registered i (w_log w) = false ->
  (forall rc w', w_held w' = w_held w -> vid_kept (w_st w) (w_st w') ->
     (configured (vc_video (w_st w)) -> configured (vc_video (w_st w'))) ->
     (rc = 0 /\ vdev_registered i (w_log w') = true) \/
     (rc <> 0 /\ vdev_refused i /\ vdev_registered i (w_log w') = false) -> Q rc w') ->
  wp zvideo_register_vdev Q w.
Proof.
  intros -> Hcore Hreg HQ. unfold zvideo_register_vdev, vid_index. apply wp_bind, wp_gets.
  set (i := index _) in *. apply wp_bind, wp_ask. intros r ->. specialize (Hcore (w_log w)).
  rewrite Hreg in Hcore. rewrite Hcore. cbn [negb]. apply wp_bind, wp_modify, wp_bind, wp_ask. wp_simpl.
  set (log := Ev (KernelCall "video_is_registered" [i]) _ :: w_log w). intros rc Erc.
  assert (vdev_registered i log = false) as Hlog by exact Hreg.
  assert (is_call "video_register_device" i (KernelCall "video_register_device" [i]) = true) as Eis
    by (cbn; apply Z.eqb_refl).
  destruct (Z.eqb_spec rc 0) as [->|Hne]; cbn [negb].
  - apply wp_bind, wp_ask. intros num _. apply wp_bind, wp_modify, wp_ret, HQ; [done | done | done |].
    left. split; [done |]. wp_simpl. cbn [vdev_registered is_call ev_call String.eqb]. cbn. by rewrite Z.eqb_refl.
  - apply wp_ret, HQ; [done | done | done |]. right. split; [done |]. split; [exists log; congruence |].
    wp_simpl. cbn [vdev_registered ev_call ev_ret]. rewrite Eis, Hlog. apply Z.eqb_neq in Hne. by rewrite Hne.
Qed.

Lemma only_check_link : only no_kernel zvideo_check_link_status.
Proof.
  clear Hbring Hfmt. unfold zvideo_check_link_status, cam_read, cam, zvideo_reg_read, io_read, upd_caps, upd_cam.
  only_steps; by intros ?.
Qed.

Lemma wp_check_link w (Q : bool -> world vid_ctx -> Prop) :
  (forall up w', up = link_of (u32 (env_ret (w_log w)
       (MmioRead (addr_add (reg_base (vc_video (w_st w))) ZYNQ_CAM_STATUS)))) -> w_held w' = w_held w ->
     w_st w' = (w_st w)<|vc_video ::= fun v => v<|caps ::= fun c => c<|link_up := up|>|>|> ->
     (forall i, vdev_registered i (w_log w') = vdev_registered i (w_log w)) ->
     Q (negb (up =? link_up (caps (vc_video (w_st w))))) w') ->
  wp zvideo_check_link_status Q w.
Proof using Hbring.
  intros HQ. apply (wp_only no_kernel); [exact only_check_link |].
  unfold zvideo_check_link_status, cam_read. apply wp_bind, wp_bind, wp_gets, wp_io_read; [exact Hbring |].
  intros st ->. apply wp_bind, wp_gets. cbv zeta. apply wp_bind, wp_modify, wp_ret.
  intros (evs & El & Fe). apply HQ; [done | done | done |].
  intros i. cbn [w_log] in *. rewrite El. by apply vdev_registered_app.
Qed.

Lemma wp_link_change w (Q : unit -> world vid_ctx -> Prop) :
  vdev_ready w -> vdev_core_ok (index (vc_video (w_st w))) ->
  (forall w', link_settled w w' -> Q tt w') -> wp zvideo_link_change Q w.
Proof using Hbring Hfmt.
  intros [Hi Hport Hf Hq Hlink Htr] Hcore HQ. unfold zvideo_link_change, vid_index. apply wp_bind, wp_gets.
  apply wp_bind, wp_spin_lock; [done |]. apply wp_bind, wp_modify.
  apply wp_bind, wp_check_link. wp_simpl. intros up w1 Hup Eh1 Es1 El1.
  apply wp_bind. eapply wp_spin_unlock; [exact Eh1 | exact Hq |]. wp_simpl.
  set (s := w_st w) in *. set (i := index (vc_video s)) in *.
  set (w2 := World _ _ _).
  assert (up = 0 \/ up = 1) as Hup01 by (rewrite Hup; unfold link_of; destruct (tst _ _); auto).
  assert (forall j, vdev_registered j (w_log w2) = vdev_registered j (w_log w)) as Elog
    by (intros j; subst w2; wp_simpl; exact (El1 j)).
  assert (index (vc_video (w_st w2)) = i /\ link_up (caps (vc_video (w_st w2))) = up /\ w_held w2 = w_held w /\
    vc_zchan (w_st w2) = vc_zchan s /\ vc_zdev (w_st w2) = vc_zdev s /\ vc_stream (w_st w2) = vc_stream s /\
    vstate (vc_video (w_st w2)) = Z.land (vstate (vc_video s)) (Z.lnot ZVIDEO_STATE_LINK_CHANGE))
    as (E1 & E2 & E3 & E4 & E5 & E6 & E7) by (subst w2; wp_simpl; rewrite Es1; repeat split; reflexivity).
  clearbody w2. clear Es1 El1 Eh1 w1.
  assert (forall w3, w_held w3 = w_held w -> vid_kept (w_st w2) (w_st w3) ->
    (link_up (caps (vc_video s)) = 0 -> up = 1 -> configured (vc_video (w_st w3))) ->
    vdev_tracks (w_st w3) (w_log w3) \/ (up = 1 /\ vdev_refused i /\ vdev_registered i (w_log w3) = false) ->
    Q tt w3) as Hdone.
  { intros w3 Hh3 [K1 K2 K3 K4 K5 K6] Hcfg Hv. apply HQ. split.
    - rewrite K4, E7. apply tst_cleared.
    - by rewrite K4, E7.
    - rewrite K3, E2, Hup. exists [Ev (SpinLock (L_zvideo_q i)) 0]. split; [by apply Forall_singleton | reflexivity].
    - rewrite K3, E2. exact Hcfg.
    - exact Hh3.
    - by rewrite K2, E1.
    - by rewrite K1, E4.
    - rewrite K5, K6, E6. by split.
    - rewrite K3, E2. destruct Hv as [Hv|Hv]; [by left | by right]. }
  assert (vdev_tracks s (w_log w2)) as Htr2 by (unfold vdev_tracks; rewrite Elog; exact Htr).
  match goal with |- context [up =? ?x] => change x with (link_up (caps (vc_video s))) end.
  destruct (Z.eqb_spec up (link_up (caps (vc_video s)))) as [Eup|Hne]; cbn [negb].
  { apply wp_ret, Hdone; [done | reflexivity | congruence |]. left. unfold vdev_tracks. by rewrite E1, E2, Eup. }
  apply wp_bind, wp_gets. rewrite E2. clear Hup. destruct Hup01 as [-> | ->]; cbn [Z.eqb negb].
  - unfold zvideo_unregister_vdev, vid_index. apply wp_bind, wp_gets, wp_tell, Hdone; [done | reflexivity | done |].
    left. unfold vdev_tracks. wp_simpl. rewrite E1, E2. cbn. by rewrite Z.eqb_refl.
  - apply wp_bind, wp_camera_info; [by unfold hci_free; rewrite E3 | by rewrite E1 | by rewrite E1, E5 |].
    intros w3 Hh3 K3 Hcfg El3. apply wp_bind, (wp_register w3 i); [destruct K3; congruence | exact Hcore | |].
    + rewrite El3, Elog. unfold vdev_tracks in Htr. fold i in Htr. rewrite Htr.
      destruct Hlink as [->| E]; [done | congruence].
    + intros rc w4 Hh4 K4 Hcfg4 Hrc. apply wp_ret, Hdone; [congruence | by etransitivity | auto |].
      destruct Hrc as [[_ Hr]|(_ & Href & Hr)]; [left | by right].
      destruct K3, K4. unfold vdev_tracks. replace (index (vc_video (w_st w4))) with i by congruence.
      rewrite Hr. by replace (link_up _) with 1 by congruence.
Qed.
End link.

(** ** Properties *)
Section vdev_properties.
Context `{Env} `{ModParams} `{VideoParams} `{CamParams}.

(** C35: a change of the link is acted on.  A round of the watchdog that finds
    the flag before the delay is over leaves it and everything else.  The first
    that comes when the delay is over takes it down, gives back every lock, and
    has the link as the camera's status register reports it; when the link came
    up the camera is configured for the chosen format, with or without the lines
    of embedded data; and the video device is registered exactly when the link is
    up (or the link is up and the device not registered because the V4L2 core
    refused it); the channel and the buffers are untouched.  Either way the round
    then resets the camera when a fault is flagged, and only then. *)
Theorem link_change_followed (others : M vid_ctx unit) (w : world vid_ctx)
    (Hbring : zynq_bringup_param = false) (Hfmt : 0 <= zynq_video_format < 2)
    (Hready : vdev_ready w) (Hcore : vdev_core_ok (index (vc_video (w_st w))))
    (Hflag : tst (vstate (vc_video (w_st w))) ZVIDEO_STATE_LINK_CHANGE = true) :
  let due := u64 (ts_link_change (vc_stream (w_st w)) + msecs_to_jiffies ZVIDEO_LINK_CHANGE_DELAY) in
  let now := u64 (env_ret (w_log w) Jiffies) in
  let faulty := tst (vstate (vc_video (w_st w))) (Z.lor ZVIDEO_STATE_CHAN_FAULT ZVIDEO_STATE_CAM_FAULT) in
  exists w', (if due <=? now then link_settled w w' else calmly w w') /\
    zvideo_watchdog others w = (if faulty then zvideo_reset others w' else Ret tt w').
Proof.
  intros due now faulty.
  assert (forall v, tst (Z.land v (Z.lnot ZVIDEO_STATE_LINK_CHANGE)) (Z.lor ZVIDEO_STATE_CHAN_FAULT ZVIDEO_STATE_CAM_FAULT)
    = tst v (Z.lor ZVIDEO_STATE_CHAN_FAULT ZVIDEO_STATE_CAM_FAULT)) as Hbits
    by (intros v; unfold tst; by rewrite <- Z.land_assoc).
  set (w0 := emit (Ev Jiffies (env_ret (w_log w) Jiffies)) w).
  set (rest := v ← cam; when (tst (vstate v) (Z.lor ZVIDEO_STATE_CHAN_FAULT ZVIDEO_STATE_CAM_FAULT)) (zvideo_reset others)).
  assert (zvideo_watchdog others w = (when (due <=? now) zvideo_link_change;; rest) w0) as Hround.
  { unfold zvideo_watchdog, cam, stream, gets, mbind, M_bind. cbv beta iota. by rewrite Hflag. }
  assert (forall w', tst (vstate (vc_video (w_st w'))) (Z.lor ZVIDEO_STATE_CHAN_FAULT ZVIDEO_STATE_CAM_FAULT) = faulty ->
    rest w' = (if faulty then zvideo_reset others w' else Ret tt w')) as Hrest.
  { intros w' E. unfold rest, cam, gets, mbind, M_bind. rewrite E. by destruct faulty. }
  rewrite Hround. clearbody rest. destruct (due <=? now); cbn [when].
  - assert (wp zvideo_link_change (fun _ w' => link_settled w w') w0) as Hl.
    { apply wp_link_change; [done | done | by destruct Hready | done |]. intros w' [S1 S2 [evs [Hc S3]] S4 S5 S6 S7 S8 S9].
      split; try done. exists (evs ++ [Ev Jiffies (env_ret (w_log w) Jiffies)]). rewrite <- app_assoc. split; [| exact S3].
      apply Forall_app. split; [exact Hc |]. by apply Forall_singleton. }
    apply wp_run in Hl as ([] & w' & Erun & Hl). unfold mbind, M_bind. rewrite Erun.
    exists w'. split; [exact Hl |]. apply Hrest. by rewrite (settled_state _ _ Hl), Hbits.
  - exists w0. split; [by apply calmly_emit |]. apply Hrest. reflexivity.
Qed.
End vdev_properties.

(** ** Witnesses *)
Module VdevWitness.
#[local] Existing Instance params_default.
Import VideoMeta.MetaWitness.
#[local] Instance video_params : VideoParams := {|
  zynq_video_ts_type := CAM_CAP_TIMESTAMP_FPGA; zynq_video_err_tolerant := false;
  zynq_video_err_thresh := 4; zynq_video_format := 0
|}.
#[local] Instance cam_params : CamParams := {| zynq_video_pin_swap := -1; zynq_video_flash_16 := -1 |}.

(** a core that answers as documented and a camera whose registers are all 0:
    the link is up *)
Definition env_core (rc : Z) : Env := fun log c =>
  match c with
  | KernelCall "video_is_registered" [i] => if vdev_registered i log then 1 else 0
  | KernelCall "video_register_device" _ => rc
  | Jiffies => 5000
  | _ => 0
  end.
(** the link was down, and a change is flagged *)
Definition camera_off : zynq_video :=
  cam0<|vstate := ZVIDEO_STATE_LINK_CHANGE|><|caps ::= fun c => c<|link_up := 0|>|>.
Definition world_off : world vid_ctx := World [] [] (VidCtx zdev_sample zchan_sample camera_off stream0).

Lemma env_core_ok rc i : vdev_core_ok (H := env_core rc) i.
Proof. intros log. cbn. by destruct (vdev_registered i log). Qed.
Lemma world_off_ready : vdev_ready world_off.
Proof.
  split; try done.
  - exists [1; 2; 3; 4; 5]. by split.
  - split; apply not_elem_of_nil.
  - apply not_elem_of_nil.
  - by left.
Qed.

Lemma link_change_followed_witness :
  exists w', link_settled (H := env_core 0) world_off w' /\ link_up (caps (vc_video (w_st w'))) = 1 /\
    zvideo_watchdog (H := env_core 0) (mret tt) world_off = Ret tt w'.
Proof.
  destruct (link_change_followed (H := env_core 0) (mret tt) world_off) as (w' & Hs & Hr);
    [reflexivity | done | exact world_off_ready | apply env_core_ok | reflexivity |].
  exists w'. split; [exact Hs |]. split; [| exact Hr].
  destruct (settled_link _ _ Hs) as (evs & _ & ->). reflexivity.
Defined.

(** registered, and not again when the core refuses it: the driver does not try
    another time as long as the link stays up *)
Definition after_watchdog (rc : Z) : option (Z * bool * Z) :=
  match zvideo_watchdog (H := env_core rc) (mret tt) world_off with
  | Ret _ w => Some (link_up (caps (vc_video (w_st w))), vdev_registered 0 (w_log w),
      pixel_clock (caps (vc_video (w_st w))))
  | _ => None
  end.
Example registers : after_watchdog 0 = Some (1, true, DEFAULT_PIXCLK_230).
Proof. vm_compute. reflexivity. Qed.
Example refused : after_watchdog (-23) = Some (1, false, DEFAULT_PIXCLK_230).
Proof. vm_compute. reflexivity. Qed.
End VdevWitness.
