(* ===== verification/Dispatch.v ===== *)
(** * Interrupt dispatch (the tasklets of [basa_main.c]) and the channel
    watchdog ([zchan_watchdog] of [basa_chan.c])

    The whole device: its channels, each with the CAN or the camera its
    [zchan_dev] pointer leads to.  A handler that follows the pointer of a
    channel of another kind faults with [BadCast]. *)

From S2P Require Import Kernel Frames Regs Api Device Chan CanChip CanTx CanRx Video VideoMeta VideoQueue.
From S2P Require Import VideoStream CamHci VideoDev Gps.

(** ** State *)

(** what [zchan_dev] points to *)
Inductive chan_dev :=
| DevNone
| DevCan (c : zynq_can)
| DevVideo (v : zynq_video) (s : zvideo_stream).

Record dev_chan := DevChan { dc_zchan : zynq_chan; dc_dev : chan_dev }.
#[global] Instance dev_chan_eta : Eta dev_chan := fun r => DevChan (dc_zchan r) (dc_dev r).

(** the device with its channels; the device structure is in the GPS part *)
Record dev_ctx := DevCtx { dx_gps : gps_ctx; dx_chans : list dev_chan }.
#[global] Instance dev_ctx_eta : Eta dev_ctx := fun r => DevCtx (dx_gps r) (dx_chans r).

Definition dx_zdev (s : dev_ctx) : zynq_dev := gp_zdev (dx_gps s).
Definition set_zdev (d : zynq_dev) (s : dev_ctx) : dev_ctx := s<|dx_gps ::= fun g => g<|gp_zdev := d|>|>.
Definition set_chan (k : Z) (c : dev_chan) (s : dev_ctx) : dev_ctx :=
  s<|dx_chans ::= <[Z.to_nat k := c]>|>.

Section dispatch.
Context `{Env} `{ModParams} `{Calendar} `{VideoParams} `{CamParams}.

Definition on_gps {A} (m : M gps_ctx A) : M dev_ctx A :=
  zoom dx_gps (fun g s => s<|dx_gps := g|>) m.
Definition on_device {A} (m : M zynq_dev A) : M dev_ctx A := zoom dx_zdev set_zdev m.
Definition chan_at (k : Z) : M dev_ctx dev_chan := s ← get; array_get (dx_chans s) k.

(** code of channel [k], of its CAN, of its camera *)
Definition on_channel {A} (k : Z) (m : M chan_ctx A) : M dev_ctx A :=
  c ← chan_at k;
  zoom (fun s => ChanCtx (dx_zdev s) (dc_zchan c))
       (fun cc s => set_chan k (c<|dc_zchan := ch_zchan cc|>) (set_zdev (ch_zdev cc) s)) m.
Definition on_can {A} (k : Z) (m : M can_ctx A) : M dev_ctx A :=
  c ← chan_at k;
  match dc_dev c with
  | DevCan zcan =>
      zoom (fun s => CanCtx (dx_zdev s) (dc_zchan c) zcan)
           (fun cc s => set_chan k (DevChan (cc_zchan cc) (DevCan (cc_zcan cc))) (set_zdev (cc_zdev cc) s)) m
  | _ => fail BadCast
  end.
Definition on_video {A} (k : Z) (m : M vid_ctx A) : M dev_ctx A :=
  c ← chan_at k;
  match dc_dev c with
  | DevVideo v st =>
      zoom (fun s => VidCtx (dx_zdev s) (dc_zchan c) v st)
           (fun cc s => set_chan k (DevChan (vc_zchan cc) (DevVideo (vc_video cc) (vc_stream cc)))
                          (set_zdev (vc_zdev cc) s)) m
  | _ => fail BadCast
  end.
Definition type_at (k : Z) : M dev_ctx zynq_chan_type :=
  c ← chan_at k; mret (zchan_type (dc_zchan c)).

(** ** All interrupts *)

Definition zdev_clear_err_intr_all : M dev_ctx unit :=
  s ← get;
  for_ (Z.to_nat (zdev_chan_cnt (dx_zdev s))) 0 (fun k =>
    on_channel k (v ← zchan_reg_read ZYNQ_CH_ERR_STATUS; zchan_reg_write ZYNQ_CH_ERR_STATUS v)).

Definition clear_status (reg : Z) : M zynq_dev unit := v ← zynq_g_reg_read reg; zynq_g_reg_write reg v.
Definition zdev_clear_intr_all : M zynq_dev unit :=
  clear_status ZYNQ_G_INTR_STATUS_TX;;
  clear_status ZYNQ_G_INTR_STATUS_RX;;
  clear_status ZYNQ_G_PS_INTR_STATUS.

Definition zdev_disable_intr_all : M zynq_dev unit :=
  zynq_g_reg_write ZYNQ_G_INTR_MASK_TX ZYNQ_INTR_TX_ALL;;
  zynq_g_reg_write ZYNQ_G_INTR_MASK_RX ZYNQ_INTR_RX_ALL;;
  zynq_g_reg_write ZYNQ_G_PS_INTR_MASK ZYNQ_PS_INTR_ALL.

(** the bits of all channels *)
Fixpoint intr_all (bits : Z -> Z) (n : nat) (ch : Z) : Z :=
  match n with O => 0 | S n' => Z.lor (bits ch) (intr_all bits n' (ch + 1)) end.
Definition zdev_enable_intr_all : M zynq_dev unit :=
  d ← get;
  let n := Z.to_nat (zdev_chan_cnt d) in
  let '(tx, rx, ps) :=
    if zynq_fwupdate_param then (0, 0, Z.lnot ZYNQ_PS_INTR_FW)
    else (intr_all ZYNQ_INTR_CH_TX_ALL n 0, intr_all ZYNQ_INTR_CH_RX_ALL n 0, Z.lnot ZYNQ_PS_INTR_GPS_PPS) in
  zynq_g_reg_write ZYNQ_G_INTR_UNMASK_TX tx;;
  zynq_g_reg_write ZYNQ_G_INTR_UNMASK_RX rx;;
  (* no unmask register for PS interrupt *)
  zynq_g_reg_write ZYNQ_G_PS_INTR_MASK ps.

Definition zdev_disable_intr_ch_rx_all (ch : Z) : M zynq_dev unit :=
  zynq_g_reg_write ZYNQ_G_INTR_MASK_RX (ZYNQ_INTR_CH_RX_ALL ch).
Definition zdev_enable_intr_ch_rx_all (ch : Z) : M zynq_dev unit :=
  zynq_g_reg_write ZYNQ_G_INTR_UNMASK_RX (ZYNQ_INTR_CH_RX_ALL ch).
Definition zdev_disable_intr_ch_tx_all (ch : Z) : M zynq_dev unit :=
  zynq_g_reg_write ZYNQ_G_INTR_MASK_TX (ZYNQ_INTR_CH_TX_ALL ch).
Definition zdev_enable_intr_ch_tx_all (ch : Z) : M zynq_dev unit :=
  zynq_g_reg_write ZYNQ_G_INTR_UNMASK_TX (ZYNQ_INTR_CH_TX_ALL ch).
Definition zdev_disable_intr_ch (ch : Z) : M zynq_dev unit :=
  zynq_g_reg_write ZYNQ_G_INTR_MASK_TX (ZYNQ_INTR_CH_TX_ALL ch);;
  zynq_g_reg_write ZYNQ_G_INTR_MASK_RX (ZYNQ_INTR_CH_RX_ALL ch).
Definition zdev_enable_intr_ch (ch : Z) : M zynq_dev unit :=
  zynq_g_reg_write ZYNQ_G_INTR_UNMASK_TX (ZYNQ_INTR_CH_TX_ALL ch);;
  zynq_g_reg_write ZYNQ_G_INTR_UNMASK_RX (ZYNQ_INTR_CH_RX_ALL ch).

(** ** One channel; [fuel] bounds the receive loop of a CAN *)

Definition zynq_chan_err_proc (k : Z) : M dev_ctx unit :=
  ch_err_status ← on_channel k (zchan_reg_read ZYNQ_CH_ERR_STATUS);
  if ch_err_status =? 0 then mret tt
  else
    t ← type_at k;
    (match t with
     | ZYNQ_CHAN_CAN => on_can k (zcan_err_proc ch_err_status)
     | ZYNQ_CHAN_VIDEO => on_video k (zvideo_err_proc ch_err_status)
     | ZYNQ_CHAN_INVAL => mret tt
     end);;
    on_channel k (zchan_err_mask ch_err_status);;
    (* clear the errors *)
    on_channel k (zchan_reg_write ZYNQ_CH_ERR_STATUS ch_err_status).

Definition zynq_chan_rx_proc (fuel : nat) (k : Z) : M dev_ctx unit :=
  t ← type_at k;
  match t with
  | ZYNQ_CHAN_CAN => on_can k (zcan_rx_proc fuel)
  | ZYNQ_CHAN_VIDEO => on_video k zvideo_rx_proc
  | ZYNQ_CHAN_INVAL => mret tt
  end.

(** no tx interrupt for camera and CAN pio mode *)
Definition zynq_chan_tx_proc (k : Z) : M dev_ctx unit :=
  t ← type_at k;
  s ← get;
  match t with
  | ZYNQ_CHAN_VIDEO => mret tt
  | ZYNQ_CHAN_CAN =>
      if zcan_tx_dma (dx_zdev s) =? 0 then mret tt else on_channel k zchan_tx_done
  | ZYNQ_CHAN_INVAL => on_channel k zchan_tx_done
  end.

Definition zynq_chan_proc (fuel : nat) (k status : Z) : M dev_ctx unit :=
  when (tst status ZYNQ_CHAN_PROC_TX) (zynq_chan_tx_proc k);;
  when (tst status ZYNQ_CHAN_PROC_RX) (zynq_chan_rx_proc fuel k);;
  when (tst status ZYNQ_CHAN_PROC_TX_ERR || tst status ZYNQ_CHAN_PROC_RX_ERR) (zynq_chan_err_proc k).

(** count an interrupt and note it in the status *)
Definition note (k : Z) (on : bool) (stat bit status : Z) : M dev_ctx Z :=
  if on then on_channel k (zchan_ZYNQ_STATS stat);; mret (Z.lor status bit) else mret status.

(** the body the two tasklets have in common *)
Definition chan_serve (fuel : nat) (k rd_intr wr_intr : Z) : M dev_ctx unit :=
  status ← note k (tst wr_intr (ZYNQ_INTR_CH_RX k)) CHAN_STATS_RX_INTR ZYNQ_CHAN_PROC_RX 0;
  status ← note k (tst rd_intr (ZYNQ_INTR_CH_TX k)) CHAN_STATS_TX_INTR ZYNQ_CHAN_PROC_TX status;
  status ← note k (tst wr_intr (ZYNQ_INTR_CH_RX_ERR k)) CHAN_STATS_RX_ERR_INTR ZYNQ_CHAN_PROC_RX_ERR status;
  status ← note k (tst rd_intr (ZYNQ_INTR_CH_TX_ERR k)) CHAN_STATS_TX_ERR_INTR ZYNQ_CHAN_PROC_TX_ERR status;
  when (negb (status =? 0)) (zynq_chan_proc fuel k status).

Definition discard_read (reg : Z) : M dev_ctx unit := on_device (zynq_g_reg_read reg;; mret tt).

(** one tasklet per channel *)
Definition zynq_chan_tasklet (fuel : nat) (k : Z) : M dev_ctx unit :=
  rd_intr ← on_device (zynq_g_reg_read ZYNQ_G_INTR_STATUS_TX);
  wr_intr ← on_device (zynq_g_reg_read ZYNQ_G_INTR_STATUS_RX);
  ps_intr ← (if k =? 0 then
               ps_intr ← on_device (zynq_g_reg_read ZYNQ_G_PS_INTR_STATUS);
               when (tst ps_intr ZYNQ_PS_INTR_GPS_PPS_CHG) (on_gps zynq_gps_pps_changed);;
               mret ps_intr
             else mret 0);
  chan_serve fuel k rd_intr wr_intr;;
  when (negb (rd_intr =? 0))
    (on_device (zynq_g_reg_write ZYNQ_G_INTR_STATUS_TX (ZYNQ_INTR_CH_TX_ALL k)));;
  when (negb (wr_intr =? 0))
    (on_device (zynq_g_reg_write ZYNQ_G_INTR_STATUS_RX (ZYNQ_INTR_CH_RX_ALL k)));;
  when (negb (ps_intr =? 0)) (on_device (zynq_g_reg_write ZYNQ_G_PS_INTR_STATUS ps_intr));;
  zynq_trace ZYNQ_TRACE_INTR
    (discard_read ZYNQ_G_INTR_STATUS_TX;; discard_read ZYNQ_G_INTR_STATUS_RX;;
     discard_read ZYNQ_G_PS_INTR_STATUS).

(** one tasklet for the device *)
Definition zynq_tasklet (fuel : nat) : M dev_ctx unit :=
  rd_intr ← on_device (zynq_g_reg_read ZYNQ_G_INTR_STATUS_TX);
  wr_intr ← on_device (zynq_g_reg_read ZYNQ_G_INTR_STATUS_RX);
  ps_intr ← on_device (zynq_g_reg_read ZYNQ_G_PS_INTR_STATUS);
  if (rd_intr =? 0) && (wr_intr =? 0) && (ps_intr =? 0) then
    on_device (ZYNQ_STATS DEV_STATS_INTR_INVALID)
  else
    when (tst ps_intr ZYNQ_PS_INTR_GPS_PPS_CHG) (on_gps zynq_gps_pps_changed);;
    s ← get;
    for_ (Z.to_nat (zdev_chan_cnt (dx_zdev s))) 0 (fun ch => chan_serve fuel ch rd_intr wr_intr);;
    when (negb (rd_intr =? 0)) (on_device (zynq_g_reg_write ZYNQ_G_INTR_STATUS_TX rd_intr));;
    when (negb (wr_intr =? 0)) (on_device (zynq_g_reg_write ZYNQ_G_INTR_STATUS_RX wr_intr));;
    when (negb (ps_intr =? 0)) (on_device (zynq_g_reg_write ZYNQ_G_PS_INTR_STATUS ps_intr)).

(** ** The watchdog of a channel *)

(** what one round of the thread does after it woke up *)
Definition watchdog_round (others : M vid_ctx unit) (k : Z) : M dev_ctx unit :=
  on_channel k zchan_err_unmask;;
  t ← type_at k;
  match t with ZYNQ_CHAN_VIDEO => on_video k (zvideo_watchdog others) | _ => mret tt end.

(** [rounds] bounds the life of the thread *)
Definition zchan_watchdog (others : M vid_ctx unit) (rounds : nat) (k : Z) : M dev_ctx Z :=
  loop rounds (fun _ =>
    stop ← ask (KernelCall "kthread_should_stop" [k]);
    if negb (stop =? 0) then mret (inr 0)
    else
      c ← chan_at k;
      result ← ask (WaitCompletion (C_watchdog k) (msecs_to_jiffies (watchdog_interval (dc_zchan c))));
      if s64 result <? 0 then mret (inr 0)
      else
        watchdog_round others k;;
        when (0 <? s64 result) (tell (InitCompletion (C_watchdog k)));;
        mret (inl tt)) tt.

Definition zchan_watchdog_init (k : Z) : M dev_ctx unit :=
  tell (InitCompletion (C_watchdog k));;
  ok ← ask (KernelCall "kthread_run zchan_watchdog" [k]);
  on_channel k (upd_zchan (fun c => c<|watchdog_interval := 1000|><|watchdog_taskp := negb (ok =? 0)|>)).
Definition zchan_watchdog_fini (k : Z) : M dev_ctx unit :=
  tell (Complete (C_watchdog k));;
  c ← chan_at k;
  when (watchdog_taskp (dc_zchan c))
    (tell (KernelCall "kthread_stop" [k]);;
     on_channel k (upd_zchan (fun c => c<|watchdog_taskp := false|>))).
End dispatch.

(** ** Handlers keep the kind of their channel, and do not follow pointers

    Type and number of the channel a state has. *)
Class HasChan (S : Type) := chan_of : S -> option zynq_chan.
#[global] Instance chan_ctx_chan : HasChan chan_ctx := fun s => Some (ch_zchan s).
#[global] Instance can_ctx_chan : HasChan can_ctx := fun s => Some (cc_zchan s).
#[global] Instance vid_ctx_chan : HasChan vid_ctx := fun s => Some (vc_zchan s).
#[global] Instance zynq_chan_chan : HasChan zynq_chan := fun c => Some c.
#[global] Instance zynq_dev_chan : HasChan zynq_dev := fun _ => None.
#[global] Instance zynq_video_chan : HasChan zynq_video := fun _ => None.
#[global] Instance zvideo_stream_chan : HasChan zvideo_stream := fun _ => None.
#[global] Instance zynq_can_chan : HasChan zynq_can := fun _ => None.

Definition chan_shape (c : zynq_chan) : zynq_chan_type * Z := (zchan_type c, zchan_num c).
Definition shape_kept {S} `{HasChan S} (s s' : S) : Prop :=
  chan_shape <$> chan_of s' = chan_shape <$> chan_of s.
#[global] Instance shape_kept_preorder {S} `{HasChan S} : PreOrder (shape_kept (S := S)).
Proof. split; [done | intros x y z E1 E2; unfold shape_kept in *; congruence]. Qed.

Ltac shape_side :=
  lazymatch goal with
  | |- PreOrder _ => typeclasses eauto
  | |- forall s, shape_kept s _ => intros ?; unfold shape_kept; cbn; reflexivity
  | |- forall s t, shape_kept _ t -> shape_kept s _ =>
      intros ? ? ?; unfold shape_kept in *; cbn in *; congruence
  end.
Create HintDb shape.
Ltac shape_step :=
  lazymatch goal with
  | |- frames _ (modify _) => apply frames_modify; shape_side
  | |- frames _ (zoom _ _ _) => eapply (frames_zoom shape_kept shape_kept); [| shape_side]
  | |- frames _ (mbind _ _) => frames_step
  | |- frames _ (fmap _ _) => frames_step
  | |- frames _ (mret _) => frames_step
  | |- frames _ get => frames_step
  | |- frames _ (gets _) => frames_step
  | |- frames _ (fail _) => frames_step
  | |- frames _ (tell _) => frames_step
  | |- frames _ (ask _) => frames_step
  | |- frames _ (spin_lock _) => frames_step
  | |- frames _ (spin_unlock _) => frames_step
  | |- frames _ (when _ _) => frames_step
  | |- frames _ (of_option _ _) => frames_step
  | |- frames _ (array_get _ _) => frames_step
  | |- frames _ (loop _ _ _) => frames_step
  | |- frames _ (for_ _ _ _) => frames_step
  | |- frames _ (for_break _ _ _) => frames_step
  | |- frames _ (let _ := _ in _) => frames_step
  | |- frames _ (if _ then _ else _) => frames_step
  | |- frames _ (match _ with _ => _ end) => frames_step
  | |- frames _ ?m => first [solve [auto with shape] | let h := head_of m in unfold h]
  end.
Ltac shape_steps := repeat (cbv beta; shape_step).

Section kinds.
Context `{Env} `{ModParams} `{Calendar} `{VideoParams} `{CamParams}.

Lemma frames_each {S} `{HasChan S} {X} (f : X -> M S unit) l :
  (forall x, frames shape_kept (f x)) -> frames shape_kept (each f l).
Proof.
  intros Hf. induction l as [|x l IH]; [apply frames_ret; typeclasses eauto |].
  apply frames_bind; [typeclasses eauto | apply Hf | intros _; exact IH].
Qed.
Lemma never_each {S} f {X} (g : X -> M S unit) l :
  (forall x, never f (g x)) -> never f (each g l).
Proof.
  intros Hg. induction l as [|x l IH]; [apply never_ret |]. apply never_bind; [apply Hg | intros _; exact IH].
Qed.

Lemma shape_tx_done : frames shape_kept zchan_tx_done.
Proof. shape_steps. Qed.
Lemma never_tx_done : never BadCast zchan_tx_done.
Proof. never_steps. Qed.
Lemma shape_err_mask e : frames shape_kept (zchan_err_mask e).
Proof. shape_steps. Qed.
Lemma never_err_mask e : never BadCast (zchan_err_mask e).
Proof. never_steps. Qed.
Lemma shape_chan_read r : frames shape_kept (zchan_reg_read r).
Proof. shape_steps. Qed.
Lemma never_chan_read r : never BadCast (zchan_reg_read r).
Proof. never_steps. Qed.
Lemma shape_chan_write r v : frames shape_kept (zchan_reg_write r v).
Proof. shape_steps. Qed.
Lemma never_chan_write r v : never BadCast (zchan_reg_write r v).
Proof. never_steps. Qed.
Lemma shape_chan_stats i : frames shape_kept (zchan_ZYNQ_STATS i).
Proof. shape_steps. Qed.
Lemma never_chan_stats i : never BadCast (zchan_ZYNQ_STATS i).
Proof. never_steps. Qed.
Lemma shape_can_err e : frames shape_kept (zcan_err_proc e).
Proof. unfold zcan_err_proc. shape_steps. all: try (apply frames_each; intros; shape_steps). Qed.
Lemma never_can_err e : never BadCast (zcan_err_proc e).
Proof. unfold zcan_err_proc. never_steps. all: try (apply never_each; intros; never_steps). Qed.
Lemma shape_dma_words p n : frames shape_kept (dma_words p n).
Proof. revert p. induction n as [|n IH]; intros p; cbn [dma_words]; shape_steps. Qed.
Lemma never_dma_words p n : never BadCast (dma_words p n).
Proof. revert p. induction n as [|n IH]; intros p; cbn [dma_words]; never_steps. Qed.
#[local] Hint Resolve shape_dma_words : shape.
#[local] Hint Resolve never_dma_words : never.

Lemma shape_can_rx fuel : frames shape_kept (zcan_rx_proc fuel).
Proof. shape_steps. Qed.
Lemma never_can_rx fuel : never BadCast (zcan_rx_proc fuel).
Proof. never_steps. Qed.
Lemma shape_vid_err e : frames shape_kept (zvideo_err_proc e).
Proof. shape_steps. Qed.
Lemma never_vid_err e : never BadCast (zvideo_err_proc e).
Proof. never_steps. Qed.
Lemma shape_vid_rx : frames shape_kept zvideo_rx_proc.
Proof. shape_steps. Qed.
Lemma never_vid_rx : never BadCast zvideo_rx_proc.
Proof. never_steps. Qed.
Lemma never_gps_pps : never BadCast zynq_gps_pps_changed.
Proof. never_steps. Qed.
End kinds.

(** ** The kinds of the channels of a device *)
Inductive dev_kind := KNone | KCan | KVideo.
Definition kind_of (d : chan_dev) : dev_kind :=
  match d with DevNone => KNone | DevCan _ => KCan | DevVideo _ _ => KVideo end.
Definition kind_for (t : zynq_chan_type) : dev_kind :=
  match t with ZYNQ_CHAN_INVAL => KNone | ZYNQ_CHAN_CAN => KCan | ZYNQ_CHAN_VIDEO => KVideo end.
(** type, number and kind of device of each channel *)
Definition shapes (s : dev_ctx) : list (zynq_chan_type * Z * dev_kind) :=
  map (fun c => (chan_shape (dc_zchan c), kind_of (dc_dev c))) (dx_chans s).
(** every channel leads to a device of its type and knows its place *)
Definition typed (s : dev_ctx) : Prop :=
  forall i t n k, shapes s !! i = Some (t, n, k) -> n = Z.of_nat i /\ k = kind_for t.

(** on a typed device the code follows no pointer of the wrong type, and leaves
    every channel's type, number and kind of device as they are *)
Definition safe_at {A} (m : M dev_ctx A) (w : world dev_ctx) : Prop :=
  m w <> Fault BadCast /\ forall a w', m w = Ret a w' -> shapes (w_st w') = shapes (w_st w).
Definition safe {A} (m : M dev_ctx A) : Prop := forall w, typed (w_st w) -> safe_at m w.

Lemma typed_shapes s s' : shapes s' = shapes s -> typed s -> typed s'.
Proof. unfold typed. by intros ->. Qed.

Lemma safe_of {A} (m : M dev_ctx A) :
  never BadCast m -> frames (fun s s' => shapes s' = shapes s) m -> safe m.
Proof. intros Hn Hf w _. split; [apply Hn | intros a w' E; by apply (Hf _ _ _ E)]. Qed.
Lemma safe_ret {A} (a : A) : safe (mret a).
Proof. intros w _. split; [discriminate |]. by intros b w' [= <- <-]. Qed.
Lemma safe_at_bind {A B} (m : M dev_ctx A) (f : A -> M dev_ctx B) w :
  typed (w_st w) -> safe_at m w -> (forall a, safe (f a)) -> safe_at (m ≫= f) w.
Proof.
  intros Ht [Hb Hs] Hf. split.
  - intros E. unfold mbind, M_bind in E. destruct (m w) as [a v|g|] eqn:Em; [| congruence | discriminate].
    assert (typed (w_st v)) as Hv by (apply (typed_shapes (w_st w)); [by eapply Hs | done]).
    by apply (proj1 (Hf a v Hv)).
  - intros b w' (a & v & Em & Ef)%bind_inv.
    assert (typed (w_st v)) as Hv by (apply (typed_shapes (w_st w)); [by eapply Hs | done]).
    rewrite (proj2 (Hf a v Hv) _ _ Ef). by eapply Hs.
Qed.
Lemma safe_bind {A B} (m : M dev_ctx A) (f : A -> M dev_ctx B) :
  safe m -> (forall a, safe (f a)) -> safe (m ≫= f).
Proof. intros Hm Hf w Ht. apply safe_at_bind; [done | by apply Hm | done]. Qed.
Lemma safe_when b (m : M dev_ctx unit) : safe m -> safe (when b m).
Proof. intros Hm. destruct b; [exact Hm | apply safe_ret]. Qed.
Lemma safe_for n from (body : Z -> M dev_ctx unit) : (forall i, safe (body i)) -> safe (for_ n from body).
Proof.
  intros Hb. revert from. induction n as [|n IH]; intros from; [apply safe_ret |].
  apply safe_bind; [apply Hb |]. intros _. apply IH.
Qed.
Lemma safe_get : safe get.
Proof. intros w _. split; [discriminate |]. by intros b w' [= <- <-]. Qed.
Lemma safe_chan_at k : safe (chan_at k).
Proof.
  apply safe_bind; [apply safe_get | intros s]. intros w _. unfold array_get, of_option.
  destruct (zlookup _ _); (split; [discriminate |]); [by intros b w' [= <- <-] | discriminate].
Qed.
Lemma safe_ask `{Env} c : safe (ask c).
Proof. intros w _. split; [discriminate |]. intros a w' E. unfold ask in E. by injection E as <- <-. Qed.
Lemma safe_tell c : safe (tell c).
Proof. intros w _. split; [discriminate |]. by intros a w' [= <- <-]. Qed.

Lemma chan_at_inv k w c v : chan_at k w = Ret c v -> v = w /\ zlookup (dx_chans (w_st w)) k = Some c.
Proof.
  intros (s & v' & [= <- <-] & E)%bind_inv. unfold array_get, of_option in E.
  destruct (zlookup _ _) eqn:El; [| discriminate]. by injection E as <- <-.
Qed.
Lemma zlookup_Some_nat {A} (l : list A) k x : zlookup l k = Some x -> l !! Z.to_nat k = Some x /\ 0 <= k.
Proof. unfold zlookup. destruct (Z.ltb_spec k 0); [discriminate | by split]. Qed.

Lemma shapes_set_chan k c c' s :
  zlookup (dx_chans s) k = Some c ->
  chan_shape (dc_zchan c') = chan_shape (dc_zchan c) -> kind_of (dc_dev c') = kind_of (dc_dev c) ->
  shapes (set_chan k c' s) = shapes s.
Proof.
  intros [Hk _]%zlookup_Some_nat Es Ek. unfold shapes, set_chan. cbn. rewrite list_fmap_insert.
  apply list_insert_id. rewrite list_lookup_fmap, Hk. cbn. by rewrite Es, Ek.
Qed.

Lemma safe_on_zoom {S A} `{HasChan S} (k : Z) (c : dev_chan) (g : dev_ctx -> S) (put : S -> dev_chan)
    (d : S -> zynq_dev) (m : M S A) w :
  zlookup (dx_chans (w_st w)) k = Some c -> never BadCast m -> frames shape_kept m ->
  chan_of (g (w_st w)) = Some (dc_zchan c) ->
  (forall t, chan_of t = Some (dc_zchan (put t)) /\ kind_of (dc_dev (put t)) = kind_of (dc_dev c)) ->
  safe_at (zoom g (fun t s => set_chan k (put t) (set_zdev (d t) s)) m) w.
Proof.
  intros Hk Hn Hf Hg Hp. split; [by apply never_zoom |]. intros a w' E. unfold zoom in E.
  destruct (m _) as [b v|f|] eqn:Em; [| discriminate | discriminate]. injection E as <- <-. cbn [w_st].
  specialize (Hf _ _ _ Em). unfold shape_kept in Hf. cbn [w_st] in Hf. rewrite Hg in Hf.
  destruct (Hp (w_st v)) as [Hc Hd]. rewrite Hc in Hf. injection Hf as Hf1 Hf2.
  etransitivity; [apply (shapes_set_chan k c) | reflexivity]; [exact Hk | | exact Hd].
  unfold chan_shape. by rewrite Hf1, Hf2.
Qed.

Lemma safe_on_channel {A} k (m : M chan_ctx A) : never BadCast m -> frames shape_kept m -> safe (on_channel k m).
Proof.
  intros Hn Hf w Ht. unfold safe_at, on_channel, mbind, M_bind.
  destruct (chan_at k w) as [c v|f|] eqn:Ec.
  - apply chan_at_inv in Ec as [-> Hc].
    apply (safe_on_zoom k c _ (fun cc => c<|dc_zchan := ch_zchan cc|>) ch_zdev); try done.
  - split; [| discriminate]. intros E. apply (proj1 (safe_chan_at k w Ht)). congruence.
  - split; discriminate.
Qed.

(** the code run for a channel of the type [t] *)
Lemma safe_by_type {A} k (m : zynq_chan_type -> M dev_ctx A) :
  (forall t w c, typed (w_st w) -> zlookup (dx_chans (w_st w)) k = Some c -> zchan_type (dc_zchan c) = t ->
     kind_of (dc_dev c) = kind_for t ->
     safe_at (m t) w) ->
  safe (t ← type_at k; m t).
Proof.
  intros Hm w Ht. unfold safe_at, type_at, mbind, M_bind. destruct (chan_at k w) as [c v|f|] eqn:Ec.
  - apply chan_at_inv in Ec as [-> Hc]. cbn. eapply Hm; [exact Ht | exact Hc | reflexivity |].
    apply zlookup_Some_nat in Hc as [Hc _].
    destruct (Ht (Z.to_nat k) (zchan_type (dc_zchan c)) (zchan_num (dc_zchan c)) (kind_of (dc_dev c))) as [_ Hk];
      [| exact Hk]. unfold shapes. by rewrite list_lookup_fmap, Hc.
  - split; [| discriminate]. intros E. apply (proj1 (safe_chan_at k w Ht)). congruence.
  - split; discriminate.
Qed.

Lemma run_on_can {A} k (m : M can_ctx A) w c :
  zlookup (dx_chans (w_st w)) k = Some c -> kind_of (dc_dev c) = KCan ->
  never BadCast m -> frames shape_kept m ->
  safe_at (on_can k m) w.
Proof.
  intros Hc Hk Hn Hf. unfold safe_at, on_can, chan_at, array_get, mbind, M_bind, get. cbn. rewrite Hc. cbn.
  destruct (dc_dev c) as [|zcan|v st] eqn:Ed; try discriminate.
  apply (safe_on_zoom k c _ (fun cc => DevChan (cc_zchan cc) (DevCan (cc_zcan cc))) cc_zdev); try done.
  intros t. split; [done | by rewrite Ed].
Qed.
Lemma run_on_video {A} k (m : M vid_ctx A) w c :
  zlookup (dx_chans (w_st w)) k = Some c -> kind_of (dc_dev c) = KVideo ->
  never BadCast m -> frames shape_kept m ->
  safe_at (on_video k m) w.
Proof.
  intros Hc Hk Hn Hf. unfold safe_at, on_video, chan_at, array_get, mbind, M_bind, get. cbn. rewrite Hc. cbn.
  destruct (dc_dev c) as [|zcan|v st] eqn:Ed; try discriminate.
  apply (safe_on_zoom k c _ (fun cc => DevChan (vc_zchan cc) (DevVideo (vc_video cc) (vc_stream cc))) vc_zdev);
    try done.
  intros t. split; [done | by rewrite Ed].
Qed.

Section tasklets_safe.
Context `{Env} `{ModParams} `{Calendar} `{VideoParams} `{CamParams}.

Lemma safe_on_gps {A} (m : M gps_ctx A) : never BadCast m -> safe (on_gps m).
Proof.
  intros Hn w _. split; [by apply never_zoom |]. intros a w' E. unfold on_gps, zoom in E.
  destruct (m _) as [b v|f|]; [| discriminate | discriminate]. by injection E as <- <-.
Qed.
Lemma safe_on_device {A} (m : M zynq_dev A) : never BadCast m -> safe (on_device m).
Proof.
  intros Hn w _. split; [by apply never_zoom |]. intros a w' E. unfold on_device, zoom in E.
  destruct (m _) as [b v|f|]; [| discriminate | discriminate]. by injection E as <- <-.
Qed.

Ltac safe_step :=
  lazymatch goal with
  | |- safe (mbind _ _) => apply safe_bind; [| intros ?]
  | |- safe (mret _) => apply safe_ret
  | |- safe get => apply safe_get
  | |- safe (when _ _) => apply safe_when
  | |- safe (for_ _ _ _) => apply safe_for; intros ?
  | |- safe (ask _) => apply safe_ask
  | |- safe (tell _) => apply safe_tell
  | |- safe (on_gps _) => apply safe_on_gps; first [apply never_gps_pps | never_steps]
  | |- safe (on_device _) => apply safe_on_device; never_steps
  | |- safe (on_channel _ _) => apply safe_on_channel; [never_steps | shape_steps]
  | |- safe (let _ := _ in _) => cbv zeta
  | |- safe (if ?b then _ else _) => destruct b
  end.
Ltac safe_steps := repeat (cbv beta; safe_step).

Lemma safe_err_proc k : safe (zynq_chan_err_proc k).
Proof.
  unfold zynq_chan_err_proc. safe_step; [safe_step |]. safe_step; [safe_step |].
  apply safe_by_type. intros t w c Ht Hc _ Hk. apply safe_at_bind; [done | | intros; safe_steps].
  destruct t.
  - by apply safe_ret.
  - eapply run_on_can; [done | done | apply never_can_err | apply shape_can_err].
  - eapply run_on_video; [done | done | apply never_vid_err | apply shape_vid_err].
Qed.
Lemma safe_rx_proc fuel k : safe (zynq_chan_rx_proc fuel k).
Proof.
  apply safe_by_type. intros t w c Ht Hc _ Hk. destruct t.
  - by apply safe_ret.
  - eapply run_on_can; [done | done | apply never_can_rx | apply shape_can_rx].
  - eapply run_on_video; [done | done | apply never_vid_rx | apply shape_vid_rx].
Qed.
Lemma safe_tx_proc k : safe (zynq_chan_tx_proc k).
Proof.
  apply safe_by_type. intros t w c Ht _ _ _. revert w Ht. change (safe (s ← get;
    match t with
    | ZYNQ_CHAN_VIDEO => mret tt
    | ZYNQ_CHAN_CAN => if zcan_tx_dma (dx_zdev s) =? 0 then mret tt else on_channel k zchan_tx_done
    | ZYNQ_CHAN_INVAL => on_channel k zchan_tx_done
    end)). apply safe_bind; [apply safe_get | intros s]. destruct t; cbv beta iota; safe_steps.
Qed.
Lemma safe_note k on stat bit status : safe (note k on stat bit status).
Proof. unfold note. safe_steps. Qed.
Lemma safe_serve fuel k rd wr : safe (chan_serve fuel k rd wr).
Proof.
  unfold chan_serve. do 4 (apply safe_bind; [apply safe_note | intros ?]). apply safe_when.
  unfold zynq_chan_proc. safe_steps; auto using safe_tx_proc, safe_rx_proc, safe_err_proc.
Qed.

Lemma safe_chan_tasklet fuel k : safe (zynq_chan_tasklet fuel k).
Proof.
  unfold zynq_chan_tasklet, zynq_trace, discard_read. safe_steps; try apply safe_serve.
Qed.
Lemma safe_tasklet fuel : safe (zynq_tasklet fuel).
Proof. unfold zynq_tasklet. safe_steps; try apply safe_serve. Qed.
End tasklets_safe.

(** ** The tasklet serves the channels whose bits are set, and no other *)


(** the four bits of channel [ch] *)
Definition tx_bit (rd ch : Z) : bool := Z.testbit rd ch.
Definition rx_bit (wr ch : Z) : bool := Z.testbit wr ch.
Definition err_bit (rd wr ch : Z) : bool := Z.testbit rd (ch + 16) || Z.testbit wr (ch + 16).
Definition flagged (rd wr ch : Z) : bool := tx_bit rd ch || rx_bit wr ch || err_bit rd wr ch.

Section serve_spec.
Context `{Env} `{ModParams} `{Calendar} `{VideoParams} `{CamParams}.

(** what one channel with a bit set gets: its interrupts counted, then its
    handlers: transmit, receive, errors *)
Definition serve_flagged (fuel : nat) (rd wr ch : Z) : M dev_ctx unit :=
  let count b stat := when b (on_channel ch (zchan_ZYNQ_STATS stat)) in
  count (rx_bit wr ch) CHAN_STATS_RX_INTR;;
  count (tx_bit rd ch) CHAN_STATS_TX_INTR;;
  count (Z.testbit wr (ch + 16)) CHAN_STATS_RX_ERR_INTR;;
  count (Z.testbit rd (ch + 16)) CHAN_STATS_TX_ERR_INTR;;
  when (tx_bit rd ch) (zynq_chan_tx_proc ch);;
  when (rx_bit wr ch) (zynq_chan_rx_proc fuel ch);;
  when (err_bit rd wr ch) (zynq_chan_err_proc ch).

Lemma note_bind {A} k b stat bit status (f : Z -> M dev_ctx A) :
  note k b stat bit status ≫= f ≡
    (when b (on_channel k (zchan_ZYNQ_STATS stat));; f (if b then Z.lor status bit else status)).
Proof. destruct b; [apply bind_assoc | reflexivity]. Qed.

Lemma chan_serve_spec fuel rd wr ch :
  0 <= ch ->
  chan_serve fuel ch rd wr ≡ when (flagged rd wr ch) (serve_flagged fuel rd wr ch).
Proof.
  intros Hch. transitivity (serve_flagged fuel rd wr ch).
  - unfold chan_serve, serve_flagged, ZYNQ_INTR_CH_RX, ZYNQ_INTR_CH_TX, ZYNQ_INTR_CH_RX_ERR,
      ZYNQ_INTR_CH_TX_ERR, err_bit, tx_bit, rx_bit.
    rewrite !tst_bit by lia.
    do 4 (etransitivity; [apply note_bind |]; apply bind_proper; [reflexivity | intros []]).
    unfold zynq_chan_proc.
    destruct (Z.testbit rd ch), (Z.testbit wr ch), (Z.testbit rd (ch + 16)), (Z.testbit wr (ch + 16));
      reflexivity.
  - unfold serve_flagged, flagged, err_bit, tx_bit, rx_bit.
    destruct (Z.testbit rd ch), (Z.testbit wr ch), (Z.testbit rd (ch + 16)), (Z.testbit wr (ch + 16));
      reflexivity.
Qed.

(** the loop over all channels serves the flagged ones *)
Lemma serve_all_spec fuel rd wr n from :
  0 <= from ->
  for_ n from (fun ch => chan_serve fuel ch rd wr) ≡
    each (serve_flagged fuel rd wr) (filter (fun ch => flagged rd wr ch) (seqZ from (Z.of_nat n))).
Proof.
  revert from. induction n as [|n IH]; intros from Hf; [reflexivity |].
  rewrite seqZ_cons by lia. replace (Z.pred (Z.of_nat (S n))) with (Z.of_nat n) by lia.
  cbn [for_].
  transitivity (when (flagged rd wr from) (serve_flagged fuel rd wr from) ≫= fun _ =>
    each (serve_flagged fuel rd wr) (filter (fun ch => flagged rd wr ch) (seqZ (from + 1) (Z.of_nat n)))).
  { apply bind_proper; [by apply chan_serve_spec | intros []; apply IH; lia]. }
  rewrite filter_cons. case_decide as E; [apply Is_true_true in E | apply Is_true_false in E]; by rewrite E.
Qed.
End serve_spec.

Section reference.
Context `{Env} `{ModParams} `{Calendar} `{VideoParams} `{CamParams}.

(** the reference: read the three status registers; with nothing set the
    interrupt was not ours; else the GPS pulse, then the flagged channels in
    order, then acknowledge exactly the bits that were read *)
Definition device_round (fuel : nat) : M dev_ctx unit :=
  rd ← on_device (zynq_g_reg_read ZYNQ_G_INTR_STATUS_TX);
  wr ← on_device (zynq_g_reg_read ZYNQ_G_INTR_STATUS_RX);
  ps ← on_device (zynq_g_reg_read ZYNQ_G_PS_INTR_STATUS);
  let ack reg v := when (negb (v =? 0)) (on_device (zynq_g_reg_write reg v)) in
  if Z.lor rd (Z.lor wr ps) =? 0 then on_device (ZYNQ_STATS DEV_STATS_INTR_INVALID)
  else
    when (Z.testbit ps 4) (on_gps zynq_gps_pps_changed);;
    s ← get;
    let chans := seqZ 0 (zdev_chan_cnt (dx_zdev s)) in
    each (serve_flagged fuel rd wr) (filter (fun ch => flagged rd wr ch) chans);;
    ack ZYNQ_G_INTR_STATUS_TX rd;; ack ZYNQ_G_INTR_STATUS_RX wr;; ack ZYNQ_G_PS_INTR_STATUS ps.

(** C36 (equivalence): the device's tasklet behaves, on every state and every
    history, as the reference that computes the list of flagged channels first:
    each channel with one of its four bits set is served once, in order, its
    interrupts counted and its transmit, receive and error handlers run for the
    bits that are set; no other channel is touched; the bits acknowledged are
    those read, so an interrupt raised while the tasklet runs stays pending. *)
Theorem tasklet_serves_flagged fuel : zynq_tasklet fuel ≡ device_round fuel.
Proof.
  apply bind_proper; [reflexivity | intros rd]. apply bind_proper; [reflexivity | intros wr].
  apply bind_proper; [reflexivity | intros ps]. cbv zeta.
  replace (Z.lor rd (Z.lor wr ps) =? 0) with ((rd =? 0) && (wr =? 0) && (ps =? 0)) by
    (apply eq_true_iff_eq; rewrite !andb_true_iff, !Z.eqb_eq, !Z.lor_eq_0_iff; tauto).
  destruct (_ && _); [reflexivity |].
  unfold ZYNQ_PS_INTR_GPS_PPS_CHG. rewrite tst_bit by lia.
  apply bind_proper; [reflexivity | intros []]. apply bind_proper; [reflexivity | intros s]. cbv zeta.
  apply bind_proper; [| reflexivity].
  replace (seqZ 0 (zdev_chan_cnt (dx_zdev s))) with
    (seqZ 0 (Z.of_nat (Z.to_nat (zdev_chan_cnt (dx_zdev s))))) by (unfold seqZ; by rewrite Nat2Z.id).
  by apply serve_all_spec.
Qed.
End reference.
