(* ===== verification/Watchdog.v ===== *)
(** * The channel watchdog lifts the masks it finds expired

    An error interrupt is masked for a time ([zchan_err_mask]); each round of
    the channel's thread ([zchan_watchdog] in [Dispatch]) looks for masks whose
    time is over. *)

From S2P Require Import Kernel Frames Regs Api Device Chan CanChip CanTx CanRx Video VideoMeta VideoQueue.
From S2P Require Import VideoStream CamHci VideoDev Gps Dispatch.

(** the throttling time of an error masked at [t] is over at [now] *)
Definition expired `{ModParams} (now t : Z) : Prop :=
  t <> 0 /\ u64 (t + msecs_to_jiffies ZCHAN_ERR_THROTTLE) <= now.

(** its time was over at some answer of the kernel's clock; an error whose time
    is 0 is not masked for the driver *)
Definition ever_expired `{Env} `{ModParams} (t : Z) : Prop := exists l, expired (u64 (env_ret l Jiffies)) t.

(** the times [ts'] after a scan of the first [n] errors found those of [e]
    expired, from the times [ts]: every error of [e] had a time that was over,
    all that were expired by [now] are among them, and the others are as they
    were *)
Record scanned `{Env} `{ModParams} (now n : Z) (ts ts' : list Z) (e : Z) : Prop := {
  sc_len : length ts' = length ts;
  sc_found : forall i, 0 <= i -> Z.testbit e i = true ->
    i < n /\ ts' !! Z.to_nat i = Some 0 /\ exists t, ts !! Z.to_nat i = Some t /\ ever_expired t;
  sc_kept : forall i, 0 <= i -> Z.testbit e i = false -> ts' !! Z.to_nat i = ts !! Z.to_nat i;
  sc_all : forall i t, 0 <= i < n -> ts !! Z.to_nat i = Some t -> expired now t -> Z.testbit e i = true
}.

Section scan.
Context `{Env} `{ModParams}.
Implicit Types w : world chan_ctx.

Lemma scanned_start now ts : scanned now 0 ts ts 0.
Proof. split; [done | | done |]; intros i; [by rewrite Z.bits_0 | lia]. Qed.

Lemma scanned_skip now n ts ts' e t :
  0 <= n -> scanned now n ts ts' e -> ts' !! Z.to_nat n = Some t -> (ts !! Z.to_nat n = Some t -> ~ expired now t) ->
  scanned now (n + 1) ts ts' e.
Proof.
  intros Hn [Hl Hf Hk Ha] Ht Hx. split; [done | | done |].
  - intros i Hi Hb. destruct (Hf i Hi Hb) as [? ?]. split; [lia | done].
  - intros i u Hi Hu Hxu. destruct (decide (i = n)) as [->|]; [| apply (Ha i u); [lia | done..]].
    destruct (Z.testbit e n) eqn:E; [done |]. rewrite (Hk n Hn E) in Ht. rewrite Ht in Hu.
    injection Hu as ->. by destruct (Hx Ht).
Qed.

Lemma scanned_hit now n ts ts' e t :
  0 <= n -> scanned now n ts ts' e -> ts' !! Z.to_nat n = Some t -> ever_expired t ->
  scanned now (n + 1) ts (<[Z.to_nat n := 0]> ts') (Z.lor e (Z.shiftl 1 n)).
Proof.
  intros Hn [Hl Hf Hk Ha] Ht Ht0.
  assert (Z.testbit e n = false) as En.
  { destruct (Z.testbit e n) eqn:E; [| done]. destruct (Hf n Hn E) as (? & _). lia. }
  assert (forall i, 0 <= i -> Z.testbit (Z.lor e (Z.shiftl 1 n)) i = Z.testbit e i || bool_decide (i = n)) as Eb.
  { intros i Hi. rewrite Z.lor_spec, Z.shiftl_1_l. f_equal. case_bool_decide as D.
    - subst. by apply Z.pow2_bits_true.
    - apply Z.pow2_bits_false. congruence. }
  split.
  - by rewrite length_insert.
  - intros i Hi. rewrite Eb by done. destruct (decide (i = n)) as [->|D].
    + intros _. rewrite list_lookup_insert_eq by (by eapply lookup_lt_Some).
      split_and!; [lia | done |]. exists t. by rewrite <- (Hk n Hn En).
    + rewrite bool_decide_eq_false_2, orb_false_r by done. intros Hb. destruct (Hf i Hi Hb) as (? & ? & ?).
      rewrite list_lookup_insert_ne by lia. split_and!; [lia | done..].
  - intros i Hi. rewrite Eb by done. intros [Hb D%bool_decide_eq_false]%orb_false_iff.
    rewrite list_lookup_insert_ne by lia. by apply Hk.
  - intros i u Hi Hu Hx. rewrite Eb by lia. destruct (decide (i = n)) as [->|D].
    + by rewrite bool_decide_eq_true_2, orb_true_r.
    + rewrite (Ha i u); [done | lia | done..].
Qed.

Definition set_ts (ts : list Z) (s : chan_ctx) : chan_ctx := s<|ch_zchan ::= fun c => c<|ts_err := ts|>|>.

Lemma wp_err_expired now n ts ts' e s w (Q : bool -> world chan_ctx -> Prop) :
  (forall l, now <= u64 (env_ret l Jiffies)) ->
  0 <= n < Z.of_nat (length ts) -> w_st w = set_ts ts' s -> scanned now n ts ts' e ->
  (forall b w' ts'', w_held w' = w_held w -> mmio_writes (w_log w') = mmio_writes (w_log w) ->
     w_st w' = set_ts ts'' s ->
     scanned now (n + 1) ts ts'' (if (b : bool) then Z.lor e (Z.shiftl 1 n) else e) -> Q b w') ->
  wp (err_expired n) Q w.
Proof.
  intros Hnow Hn Hs Hsc HQ. destruct (lookup_lt_is_Some_2 ts' (Z.to_nat n)) as [t Ht].
  { rewrite (sc_len _ _ _ _ _ Hsc). lia. }
  unfold err_expired. dev_steps. rewrite Hs. cbn.
  apply wp_array_get. exists t. rewrite zlookup_nonneg by lia. split; [done |].
  destruct (Z.eqb_spec t 0) as [->|Ht0].
  - apply wp_ret. eapply (HQ false); [done | done | cbn; rewrite ?Hs; reflexivity |].
    eapply scanned_skip; [lia | done | done |]. by intros _ [? _].
  - dev_steps.
    + eapply (HQ true); [done | done | cbn; rewrite ?Hs; reflexivity |].
      eapply scanned_hit; [lia | done | done |]. exists (w_log w). split; [done |]. subst. lia.
    + eapply (HQ false); [done | done | cbn; rewrite ?Hs; reflexivity |].
      eapply scanned_skip; [lia | done | done |]. intros _ [_ Hx]. pose proof (Hnow (w_log w)). subst. lia.
Qed.

Lemma wp_err_scan now n i ts ts' e s w (Q : Z -> world chan_ctx -> Prop) :
  (forall l, now <= u64 (env_ret l Jiffies)) ->
  0 <= i -> i + Z.of_nat n <= Z.of_nat (length ts) -> w_st w = set_ts ts' s -> scanned now i ts ts' e ->
  (forall e w' ts'', w_held w' = w_held w -> mmio_writes (w_log w') = mmio_writes (w_log w) ->
     w_st w' = set_ts ts'' s -> scanned now (i + Z.of_nat n) ts ts'' e -> Q e w') ->
  wp (err_scan n i e) Q w.
Proof.
  intros Hnow. revert i ts' e w. induction n as [|n IH]; intros i ts' e w Hi Hn Hs Hsc HQ; cbn [err_scan].
  - apply wp_ret. eapply HQ; [done | done | done |]. by rewrite Z.add_0_r.
  - apply wp_bind. apply (wp_err_expired now i ts ts' e s); [done | lia | done | done |].
    intros b w1 ts1 Hh Hm Hs1 Hsc1. eapply (IH (i + 1)); [lia | lia | done | done |].
    intros e2 w2 ts2 Hh2 Hm2 Hs2 Hsc2. eapply HQ; [congruence | congruence | done |].
    by replace (i + Z.of_nat (S n)) with (i + 1 + Z.of_nat n) by lia.
Qed.
End scan.

(** a mask register with the bits of [e] lifted, never below its default *)
Definition lift (v e dflt : Z) : Z := Z.lor (Z.land v (Z.lnot e)) dflt.

(** the round on a channel: the expired errors forgotten, and their bits out of
    the two masks, which are left alone when nothing expired; with both masks at
    their defaults again the thread slows down *)
Record lifted `{Env} `{ModParams} (now : Z) (c c' : zynq_chan) (log log' : list event) (e rx tx : Z) : Prop := {
  lf_scan : scanned now 32 (ts_err c) (ts_err c') e;
  lf_writes : mmio_writes log' =
    (if e =? 0 then []
     else [(addr_add (zchan_reg c) ZYNQ_CH_ERR_MASK_TX, u32 (lift (u32 tx) e ZYNQ_CH_ERR_MASK_TX_DEFAULT));
           (addr_add (zchan_reg c) ZYNQ_CH_ERR_MASK_RX, u32 (lift (u32 rx) e ZYNQ_CH_ERR_MASK_RX_DEFAULT))])
    ++ mmio_writes log;
  lf_reads : e <> 0 ->
    Ev (MmioRead (addr_add (zchan_reg c) ZYNQ_CH_ERR_MASK_RX)) rx ∈ log' /\
    Ev (MmioRead (addr_add (zchan_reg c) ZYNQ_CH_ERR_MASK_TX)) tx ∈ log';
  lf_rest : c' = c<|ts_err := ts_err c'|><|watchdog_interval := watchdog_interval c'|>;
  lf_interval : watchdog_interval c' =
    if negb (e =? 0) && (lift (u32 rx) e ZYNQ_CH_ERR_MASK_RX_DEFAULT =? ZYNQ_CH_ERR_MASK_RX_DEFAULT) &&
       (lift (u32 tx) e ZYNQ_CH_ERR_MASK_TX_DEFAULT =? ZYNQ_CH_ERR_MASK_TX_DEFAULT)
    then 1000 else watchdog_interval c
}.

Section unmask.
#[local] Set Default Proof Using "Type*".
Context `{Env} `{ModParams}.
Context (Hbring : zynq_bringup_param = false) (now : Z) (Hnow : forall l, now <= u64 (env_ret l Jiffies)).

Lemma wp_err_unmask (w : world chan_ctx) (Q : unit -> world chan_ctx -> Prop) :
  length (ts_err (ch_zchan (w_st w))) = 32%nat ->
  L_zchan (zchan_num (ch_zchan (w_st w))) ∉ w_held w ->
  (forall w' e rx tx, w_held w' = w_held w -> ch_zdev (w_st w') = ch_zdev (w_st w) ->
     lifted now (ch_zchan (w_st w)) (ch_zchan (w_st w')) (w_log w) (w_log w') e rx tx -> Q tt w') ->
  wp zchan_err_unmask Q w.
Proof.
  intros Hl Hh HQ. destruct w as [l h s]. cbn in Hl, Hh. unfold zchan_err_unmask, chan_id. dev_steps.
  apply (wp_err_scan now 32 0 (ts_err (ch_zchan s)) (ts_err (ch_zchan s)) 0 s);
    [done | done | by rewrite Hl | by destruct s as [d []] | apply scanned_start |].
  intros e w' ts Hh' Hm Hs Hsc. destruct w' as [l' h' s']. cbn [w_held w_log w_st] in *. subst h' s'.
  destruct s as [d c]. dev_steps.
  1: apply (HQ _ e 0 0); [done | done |].
  2-3: apply (HQ _ e r r0); [done | done |].
  all: split; cbn [w_log w_st ch_zchan set_ts].
  all: try exact Hsc; try (intros; rewrite !elem_of_cons; tauto).
  all: rewrite ?E.
  all: try (change (mmio_writes l' = mmio_writes l) in Hm; rewrite <- Hm; reflexivity).
  all: try (by destruct c). all: try lia.
  all: unfold lift; cbn [negb andb]; try match goal with Hd : (_ && _) = _ |- _ => rewrite Hd end; reflexivity.
Qed.

Lemma lift_bit v e d i : 0 <= i < 32 -> Z.testbit e i = true -> Z.testbit (u32 (lift v e d)) i = Z.testbit d i.
Proof.
  clear Hbring Hnow now. intros Hi He. unfold lift. unfold u32. rewrite Z.mod_pow2_bits_low by lia.
  rewrite Z.lor_spec, Z.land_spec, Z.lnot_spec by lia. by rewrite He, andb_false_r.
Qed.

Lemma keep_bit v e d i : 0 <= i < 32 -> Z.testbit e i = false ->
  Z.testbit (u32 (lift (u32 v) e d)) i = Z.testbit v i || Z.testbit d i.
Proof.
  clear Hbring Hnow now. intros Hi He. unfold lift, u32. rewrite Z.mod_pow2_bits_low by lia.
  rewrite Z.lor_spec, Z.land_spec, Z.lnot_spec by lia. by rewrite He, andb_true_r, Z.mod_pow2_bits_low by lia.
Qed.

(** an error whose time was never over keeps it, and its bit as it was read *)
Lemma kept_bit c c' log log' e rx tx i t :
  lifted now c c' log log' e rx tx ->
  0 <= i < 32 -> ts_err c !! Z.to_nat i = Some t -> ~ ever_expired t ->
  ts_err c' !! Z.to_nat i = Some t /\
  (mmio_writes log' = mmio_writes log \/
   exists mr mt, mmio_writes log' =
      [(addr_add (zchan_reg c) ZYNQ_CH_ERR_MASK_TX, mt); (addr_add (zchan_reg c) ZYNQ_CH_ERR_MASK_RX, mr)]
      ++ mmio_writes log /\
    Z.testbit mr i = Z.testbit rx i || Z.testbit ZYNQ_CH_ERR_MASK_RX_DEFAULT i /\
    Z.testbit mt i = Z.testbit tx i || Z.testbit ZYNQ_CH_ERR_MASK_TX_DEFAULT i).
Proof.
  clear Hbring Hnow. intros [Hsc Hw _ _ _] Hi Ht Hx.
  assert (Z.testbit e i = false) as He.
  { destruct (Z.testbit e i) eqn:E; [| done].
    destruct (sc_found _ _ _ _ _ Hsc i ltac:(lia) E) as (_ & _ & u & Hu & Hxu). congruence. }
  split; [rewrite <- Ht; apply (sc_kept _ _ _ _ _ Hsc); [lia | done] |].
  destruct (Z.eqb_spec e 0); [by left | right]. do 2 eexists. split; [exact Hw |]. split; by apply keep_bit.
Qed.

(** an expired error's bit is lifted *)
Lemma lifted_bit c c' log log' e rx tx i t :
  lifted now c c' log log' e rx tx ->
  0 <= i < 32 -> ts_err c !! Z.to_nat i = Some t -> expired now t ->
  ts_err c' !! Z.to_nat i = Some 0 /\
  exists mr mt, mmio_writes log' =
      [(addr_add (zchan_reg c) ZYNQ_CH_ERR_MASK_TX, mt); (addr_add (zchan_reg c) ZYNQ_CH_ERR_MASK_RX, mr)]
      ++ mmio_writes log /\
    Z.testbit mr i = Z.testbit ZYNQ_CH_ERR_MASK_RX_DEFAULT i /\
    Z.testbit mt i = Z.testbit ZYNQ_CH_ERR_MASK_TX_DEFAULT i.
Proof.
  clear Hbring Hnow. intros [Hsc Hw _ _ _] Hi Ht Hx.
  pose proof (sc_all _ _ _ _ _ Hsc i t Hi Ht Hx) as He.
  destruct (sc_found _ _ _ _ _ Hsc i ltac:(lia) He) as (_ & H0i & _). split; [exact H0i |].
  destruct (Z.eqb_spec e 0) as [->|_]; [by rewrite Z.bits_0 in He |].
  do 2 eexists. split; [exact Hw |]. split; by apply lift_bit.
Qed.
End unmask.

Section round.
Context `{Env} `{ModParams} `{Calendar} `{VideoParams} `{CamParams}.

(** C37 (liveness): a round of a CAN channel's watchdog thread always ends, and
    afterwards every error that was masked for longer than the throttling time
    can interrupt again: its time is forgotten and its bit is back at the
    default in both mask registers.  An error whose time was not over at any
    answer of the kernel's clock keeps its time, and its bits stay as they were
    read (or as the defaults have them).  [lifted] adds that nothing is written
    when nothing expired, and when the thread slows down again.  A time of 0
    means not masked: an error masked while the clock reads 0 stays masked
    ([WatchdogWitness.masked_at_zero_stays]). *)
Theorem watchdog_lifts_masks others k c now (w : world dev_ctx) :
  zynq_bringup_param = false ->
  zlookup (dx_chans (w_st w)) k = Some c ->
  zchan_type (dc_zchan c) = ZYNQ_CHAN_CAN ->
  length (ts_err (dc_zchan c)) = 32%nat ->
  L_zchan (zchan_num (dc_zchan c)) ∉ w_held w ->
  (forall l, now <= u64 (env_ret l Jiffies)) ->
  wp (watchdog_round others k) (fun _ w' => exists c' e rx tx,
    zlookup (dx_chans (w_st w')) k = Some (c<|dc_zchan := c'|>) /\ w_held w' = w_held w /\
    lifted now (dc_zchan c) c' (w_log w) (w_log w') e rx tx /\
    let wrote mr mt := mmio_writes (w_log w') =
      [(addr_add (zchan_reg (dc_zchan c)) ZYNQ_CH_ERR_MASK_TX, mt);
       (addr_add (zchan_reg (dc_zchan c)) ZYNQ_CH_ERR_MASK_RX, mr)] ++ mmio_writes (w_log w) in
    (forall i t, 0 <= i < 32 -> ts_err (dc_zchan c) !! Z.to_nat i = Some t -> expired now t ->
      ts_err c' !! Z.to_nat i = Some 0 /\ exists mr mt, wrote mr mt /\
        Z.testbit mr i = Z.testbit ZYNQ_CH_ERR_MASK_RX_DEFAULT i /\
        Z.testbit mt i = Z.testbit ZYNQ_CH_ERR_MASK_TX_DEFAULT i) /\
    (forall i t, 0 <= i < 32 -> ts_err (dc_zchan c) !! Z.to_nat i = Some t -> ~ ever_expired t ->
      ts_err c' !! Z.to_nat i = Some t /\
      (mmio_writes (w_log w') = mmio_writes (w_log w) \/ exists mr mt, wrote mr mt /\
        Z.testbit mr i = Z.testbit rx i || Z.testbit ZYNQ_CH_ERR_MASK_RX_DEFAULT i /\
        Z.testbit mt i = Z.testbit tx i || Z.testbit ZYNQ_CH_ERR_MASK_TX_DEFAULT i))) w.
Proof.
  intros Hb Hk Ht Hl Hh Hnow. unfold watchdog_round, on_channel, chan_at. dev_steps.
  apply wp_array_get. exists c. split; [done |]. dev_steps.
  apply (wp_err_unmask Hb now Hnow); [done | done |]. intros w1 e rx tx Hh1 _ Hlf. cbn [w_held w_log w_st] in *.
  unfold type_at, chan_at. dev_steps. apply wp_array_get. apply zlookup_Some_nat in Hk as [Hk Hk0].
  set (c' := c<|dc_zchan := ch_zchan (w_st w1)|>).
  assert (zlookup (<[Z.to_nat k := c']> (dx_chans (w_st w))) k = Some c') as Hk'.
  { rewrite zlookup_nonneg by done. apply list_lookup_insert_eq. by eapply lookup_lt_Some. }
  exists c'. split; [exact Hk' |].
  assert (zchan_type (dc_zchan c') = ZYNQ_CHAN_CAN) as Ht' by (subst c'; cbn; by rewrite (lf_rest _ _ _ _ _ _ _ _ Hlf)).
  apply wp_ret. rewrite Ht'. apply wp_ret.
  exists (ch_zchan (w_st w1)), e, rx, tx. split_and!; [exact Hk' | exact Hh1 | exact Hlf | |];
    intros i t Hi Hti Hx; [by eapply lifted_bit | by eapply kept_bit].
Qed.
End round.

(** ** A device with one CAN, on channel 10 *)
Module WatchdogWitness.
#[local] Existing Instance params_default.
#[local] Existing Instance VideoDev.VdevWitness.video_params.
#[local] Existing Instance VideoDev.VdevWitness.cam_params.
#[local] Existing Instance Gps.GpsWitness.gregorian.

(** bits 3 and 9 masked since jiffies 100 and 990, all times 0 *)
Definition can_chan (ts : list Z) : dev_chan := DevChan (zchan_sample<|ts_err := ts|>) (DevCan zcan_sample).
Definition masked_times : list Z := <[9%nat := 990]> (<[3%nat := 100]> (replicate 32 0)).
Definition no_chan (i : nat) : dev_chan :=
  DevChan (zchan_sample<|zchan_type := ZYNQ_CHAN_INVAL|><|zchan_num := Z.of_nat i|>) DevNone.
Definition dev_of (ts : list Z) : dev_ctx :=
  DevCtx (GpsCtx zdev_sample MasterNone false false) (map no_chan (seq 0 10) ++ [can_chan ts]).
Definition world_of (ts : list Z) : world dev_ctx := World [] [] (dev_of ts).

(** the masks read all ones, the time is 1000 *)
Definition env_masked : Env := fun _ c =>
  match c with Jiffies => 1000 | MmioRead _ => 0xFFFFFFFF | _ => 0 end.

Lemma watchdog_lifts_masks_witness :
  wp (watchdog_round (H := env_masked) (mret tt) 10) (fun _ w' => exists c' rx tx,
    zlookup (dx_chans (w_st w')) 10 = Some ((can_chan masked_times)<|dc_zchan := c'|>) /\ w_held w' = [] /\
    ts_err c' !! 3%nat = Some 0 /\ ts_err c' !! 9%nat = Some 990 /\
    exists mr mt, mmio_writes (w_log w') =
        [((BAR0, 0xA00 + ZYNQ_CH_ERR_MASK_TX), mt); ((BAR0, 0xA00 + ZYNQ_CH_ERR_MASK_RX), mr)] /\
      Z.testbit mr 3 = false /\ Z.testbit mr 9 = Z.testbit rx 9 || false /\ Z.testbit mt 9 = Z.testbit tx 9 || false)
    (world_of masked_times).
Proof.
  eapply wp_mono.
  - apply (watchdog_lifts_masks (H := env_masked) (mret tt) 10 (can_chan masked_times) 1000 (world_of masked_times));
      [reflexivity | reflexivity | reflexivity | reflexivity | apply not_elem_of_nil | intros l; vm_compute; discriminate].
  - intros [] w' (c' & e & rx & tx & Hc & Hh & _ & Hup & Hkeep). exists c', rx, tx.
    destruct (Hup 3 100) as (H3 & mr & mt & Hw & Hr3 & _); [done | reflexivity | by split |].
    destruct (Hkeep 9 990) as (H9 & Hw9); [done | reflexivity | by intros (l & _ & Hx); vm_compute in Hx |].
    split_and!; [exact Hc | exact Hh | exact H3 | exact H9 |]. exists mr, mt. split_and!; [exact Hw | exact Hr3 | ..];
      (destruct Hw9 as [Hn | (mr' & mt' & Hw' & Hr9 & Ht9)]; [rewrite Hn in Hw; discriminate |]);
      rewrite Hw in Hw'; injection Hw' as -> ->; [exact Hr9 | exact Ht9].
Defined.

(** bit 3 is lifted, bit 9 is not yet due *)
Definition after_round (ts : list Z) : option (list (addr * Z) * list Z) :=
  match watchdog_round (H := env_masked) (mret tt) 10 (world_of ts) with
  | Ret _ w => Some (mmio_writes (w_log w),
      default [] (c ← dx_chans (w_st w) !! 10%nat; Some (take 10 (ts_err (dc_zchan c)))))
  | _ => None
  end.
Example lifts_one : after_round masked_times =
  Some ([((BAR0, 0xA00 + ZYNQ_CH_ERR_MASK_TX), 0xFFFFFFFF); ((BAR0, 0xA00 + ZYNQ_CH_ERR_MASK_RX), 0xFFFFFFF7)],
    <[9%nat := 990]> (replicate 10 0)).
Proof. vm_compute. reflexivity. Qed.

(** an error masked while the jiffies counter is 0 keeps the time 0, which the
    watchdog takes for an error that is not masked: it stays masked *)
Definition mask_at_zero : option (list (addr * Z) * list Z) :=
  match on_channel 10 (zchan_err_mask (H := env_zero) ZYNQ_CH_ERR_CAN_BUSOFF)
          (world_of (replicate 32 0)) with
  | Ret _ w => Some (mmio_writes (w_log w),
      default [] (c ← dx_chans (w_st w) !! 10%nat; Some (take 2 (ts_err (dc_zchan c)))))
  | _ => None
  end.
Example masked_at_zero_stays :
  mask_at_zero = Some ([((BAR0, 0xA00 + ZYNQ_CH_ERR_MASK_TX), 0xFF0001ED);
                        ((BAR0, 0xA00 + ZYNQ_CH_ERR_MASK_RX), 0xFE0010B1)], [0; 0]) /\
  after_round (replicate 32 0) = Some ([], replicate 10 0).
Proof. split; vm_compute; reflexivity. Qed.

(** an interrupt of channel 11 makes the tasklet of channel 10 acknowledge the
    bits of channel 10 too, which it read as clear: one raised in between is lost *)
Definition env_other : Env := fun _ c =>
  match c with MmioRead (BAR0, 0x100) => Z.shiftl 1 11 | _ => 0 end.
Definition acknowledged : option (list (addr * Z)) :=
  match zynq_chan_tasklet (H := env_other) 10 10 (world_of (replicate 32 0)) with
  | Ret _ w => Some (mmio_writes (w_log w))
  | _ => None
  end.
Example acknowledges_unread : acknowledged = Some [((BAR0, ZYNQ_G_INTR_STATUS_TX), 0x04000400)].
Proof. vm_compute. reflexivity. Qed.
End WatchdogWitness.
