(* ===== verification/Main.v ===== *)
(** * The driver's entry points ([basa_driver.c], [basa_main.c], the life of a
    channel of [basa_chan.c])

    Allocation of the device and its channels, probing with its error ladder,
    removal, the character devices, loading and unloading of the module. *)

From stdpp Require Import strings.
From S2P Require Import Kernel Frames Regs Api Resource Device Chan CanChip CanTx CanRx CanDev Video VideoMeta.
From S2P Require Import VideoQueue VideoStream CamHci VideoDev Gps Irq Dispatch Watchdog.

(** sizes of structures that embed kernel types *)
Class Sizes := {
  sizeof_zynq_dev : Z; sizeof_zynq_chan : Z; sizeof_zynq_can : Z; sizeof_zynq_video : Z
}.

(** offsets in the configuration space *)
Definition PCI_VENDOR_ID : Z := 0.
Definition PCI_DEVICE_ID : Z := 2.

(** ** Zeroed structures *)
Definition zynq_dev_zero : zynq_dev :=
  ZynqDev 0 0 0 0 0 0 0 0 0 0 0 0 0 None 0 0 0 0 (Timespec 0 0) (Timespec 0 0) 0 0 0 0 0 (stats_zero DEV_STATS_NUM).
Definition zynq_chan_zero : zynq_chan :=
  ZynqChan ZYNQ_CHAN_INVAL 0 (BAR0, 0) tx_ring_zero rx_tbl_zero 0 (stats_zero CHAN_STATS_NUM) false 0
    (replicate 32 0).
Definition zynq_can_zero : zynq_can :=
  ZynqCan (BAR2, 0) 0 ZYNQ_STATE_INVAL 0 0 0 [] 0 0 0 0 0 0 0 0 0 0 0 0 0 0 0 (stats_zero CAN_STATS_NUM).
Definition zynq_video_zero : zynq_video :=
  ZynqVideo 0 (CamCaps [] 0 0 0 0 0 0 0 0 0 0 0 0) (BAR0, 0) 0 (PixFormat 0 0 0 0 0) [] 0 0 0 0 0 0 0 0 0 0 0 0 0 0
    (Timeval 0 0).
Definition zvideo_stream_zero : zvideo_stream :=
  Stream 0 0 0 0 0 (Timeval 0 0) 0 EM_NONE [] [] (stats_zero VIDEO_STATS_NUM).

(** ** State: the device being probed, and the driver's variables *)
Record main_ctx := MainCtx {
  mx_dev : dev_ctx;
  mx_irq : irq_ctx;                (** its device is the one of [mx_dev] *)
  mx_ptr : Z;                      (** where the device was allocated *)
  zdev_vid : Z;
  zdev_bar0 : Z;
  zdev_bar2 : Z;
  zdev_code_name : list Z;
  zdev_dev_fw : Z;
  zdev_dev_reg : Z;
  zdev_dev_i2c : Z;
  zdev_dev_trigger : Z;
  zdev_dev_gps : Z;
  (* of the driver *)
  drvdata : Z;
  zynq_instance : Z;
  zynq_can_count : Z;
  zynq_mr_cnt : Z;
  zynq_dev_list : list Z;          (** addresses, the newest first *)
  zynq_g_dev : Z
}.
#[global] Instance main_ctx_eta : Eta main_ctx := fun r =>
  MainCtx (mx_dev r) (mx_irq r) (mx_ptr r) (zdev_vid r) (zdev_bar0 r) (zdev_bar2 r) (zdev_code_name r)
    (zdev_dev_fw r) (zdev_dev_reg r) (zdev_dev_i2c r) (zdev_dev_trigger r) (zdev_dev_gps r) (drvdata r)
    (zynq_instance r) (zynq_can_count r) (zynq_mr_cnt r) (zynq_dev_list r) (zynq_g_dev r).

Definition mx_zdev (s : main_ctx) : zynq_dev := dx_zdev (mx_dev s).
Definition mx_chan_cnt (s : main_ctx) : Z := zdev_chan_cnt (mx_zdev s).

Section main.
Context `{Env} `{ModParams} `{Calendar} `{VideoParams} `{CamParams} `{Sizes}.

Definition on_dev {A} (m : M dev_ctx A) : M main_ctx A := zoom mx_dev (fun d s => s<|mx_dev := d|>) m.
Definition on_mdev {A} (m : M zynq_dev A) : M main_ctx A := on_dev (on_device m).
Definition upd_mdev (f : zynq_dev -> zynq_dev) : M main_ctx unit := on_mdev (modify f).
Definition on_irq {A} (m : M irq_ctx A) : M main_ctx A :=
  zoom (fun s => (mx_irq s)<|ir_zdev := mx_zdev s|>)
       (fun i s => s<|mx_irq := i|><|mx_dev ::= set_zdev (ir_zdev i)|>) m.

(** ** Allocation *)

(** [hweight_long]: the number of bits set *)
Fixpoint bits_set (n : nat) (v : Z) : Z :=
  match n with O => 0 | S n' => Z.b2z (Z.testbit v (Z.of_nat n')) + bits_set n' v end.
Definition hweight_long (v : Z) : Z := bits_set 64 v.

Definition zynq_zdev_init (zdev_did : Z) : M main_ctx bool :=
  if negb (zdev_did =? PCI_DEVICE_ID_MOONROVER) then mret false
  else
    let '(chan_cnt, video_map, can_map) :=
      if zynq_fwupdate_param then (0, 0, 0)
      else (ZYNQ_DMA_CHAN_NUM_MR, ZYNQ_VIDEO_MAP_MR, ZYNQ_CAN_MAP_MR) in
    let video_cnt := hweight_long video_map in
    let can_cnt := hweight_long can_map in
    (* allocate device and channel structure *)
    p ← ask (KAlloc (sizeof_zynq_dev + chan_cnt * sizeof_zynq_chan + can_cnt * sizeof_zynq_can
                     + video_cnt * sizeof_zynq_video));
    if p =? 0 then mret false
    else
      modify (fun s => s<|mx_ptr := p|><|mx_irq := IrqCtx (mx_zdev s) 0 [] 0 0 0 0|>
        <|zdev_vid := 0|><|zdev_bar0 := 0|><|zdev_bar2 := 0|><|zdev_code_name := []|>
        <|zdev_dev_fw := 0|><|zdev_dev_reg := 0|><|zdev_dev_i2c := 0|><|zdev_dev_trigger := 0|>
        <|zdev_dev_gps := 0|>
        <|mx_dev ::= fun d => d<|dx_chans := replicate (Z.to_nat chan_cnt) (DevChan zynq_chan_zero DevNone)|>|>);;
      upd_mdev (fun d => zynq_dev_zero<|zynq_major := zynq_major d|><|zynq_minor := zynq_minor d|>
        <|zdev_chan_cnt := chan_cnt|><|zdev_can_cnt := can_cnt|><|zdev_video_cnt := video_cnt|>
        <|zdev_can_map := can_map|><|zdev_video_map := video_map|>);;
      mret true.

(** channel [i] given its type, and the next CAN [c] or camera [v] of the
    arrays; a CAN or camera past the end of its array is a fault *)
Definition assign_chan (i : Z) (cv : Z * Z) : M dev_ctx (Z * Z) :=
  let '(c, v) := cv in
  s ← get;
  let d := dx_zdev s in
  let chan_map := Z.shiftl 1 i in
  zchan ← chan_at i;
  let zc := (dc_zchan zchan)<|zchan_num := i|> in
  if tst (zdev_can_map d) chan_map then
    zcan ← array_get (replicate (Z.to_nat (zdev_can_cnt d)) zynq_can_zero) c;
    modify (set_chan i (DevChan (zc<|zchan_type := ZYNQ_CHAN_CAN|>) (DevCan (zcan<|zcan_ip_num := c|>))));;
    mret (c + 1, v)
  else if tst (zdev_video_map d) chan_map then
    zvideo ← array_get (replicate (Z.to_nat (zdev_video_cnt d)) zynq_video_zero) v;
    modify (set_chan i (DevChan (zc<|zchan_type := ZYNQ_CHAN_VIDEO|>)
                          (DevVideo (zvideo<|index := v|>) zvideo_stream_zero)));;
    mret (c, v + 1)
  else
    modify (set_chan i (zchan<|dc_zchan := zc|>));;
    mret (c, v).
Fixpoint assign_chans (n : nat) (i : Z) (cv : Z * Z) : M dev_ctx unit :=
  match n with
  | O => mret tt
  | S n' => cv ← assign_chan i cv; assign_chans n' (i + 1) cv
  end.

Definition zdev_alloc (zdev_did : Z) : M main_ctx bool :=
  ok ← zynq_zdev_init zdev_did;
  if negb (ok : bool) then mret false
  else
    s ← get;
    on_dev (assign_chans (Z.to_nat (mx_chan_cnt s)) 0 (0, 0));;
    mret true.

Definition code_name_mr : list Z := [77; 111; 111; 110; 82; 111; 118; 101; 114]. (* MoonRover *)
Definition video_port_map_mr : list Z := [1; 2; 3; 4; 5].

Definition zynq_check_hw_caps : M main_ctx unit :=
  s ← get;
  let d := mx_zdev s in
  let mr := zdev_did d =? PCI_DEVICE_ID_MOONROVER in
  let hw_cap :=
    if mr then
      let hw_cap := Z.lor ZYNQ_HW_CAP_CAN (Z.lor ZYNQ_HW_CAP_GPS (Z.lor ZYNQ_HW_CAP_TRIGGER
        (Z.lor ZYNQ_HW_CAP_FW (Z.lor ZYNQ_HW_CAP_I2C ZYNQ_HW_CAP_VIDEO)))) in
      if 0x106 <=? ZDEV_PL_VER d
      then Z.lor hw_cap (Z.lor ZYNQ_HW_CAP_FPGA_TIME_INIT ZYNQ_HW_CAP_GPS_SMOOTH) else hw_cap
    else 0 in
  let hw_cap := if zynq_fwupdate_param && mr then ZYNQ_HW_CAP_FW else hw_cap in
  upd_mdev (fun d => d<|zcan_rx_dma := if zynq_enable_can_rx_dma then 1 else 0|>
    <|zcan_tx_dma := if zynq_enable_can_tx_dma then 1 else 0|><|zcan_rx_hw_ts := 1|>
    <|zdev_hw_cap := hw_cap|><|zdev_video_port_map := if mr then Some video_port_map_mr else None|>);;
  modify (fun s => s<|zdev_code_name := if mr then code_name_mr else []|>).

(** ** A channel *)

(** the frame size of an attached camera, as the channel sees it *)
Definition sync_format : M vid_ctx unit :=
  modify (fun s => s<|vc_zchan ::= fun c => c<|zvideo_sizeimage := sizeimage (format (vc_video s))|>|>).

Definition zchan_init (k : Z) : M dev_ctx Z :=
  on_channel k (upd_zchan (fun c => c<|zchan_reg := (BAR0, ZYNQ_CHAN_REG_OFFSET * zchan_num c)|>));;
  (* channel specific init *)
  t ← type_at k;
  match t with
  | ZYNQ_CHAN_CAN =>
      rc ← on_channel k zchan_init_dma;
      if negb (rc =? 0) then mret (-1)
      else
        rc ← on_can k zcan_init;
        if negb (rc =? 0) then on_channel k zchan_fini_dma;; mret (-1)
        else zchan_watchdog_init k;; mret 0
  | ZYNQ_CHAN_VIDEO =>
      rc ← on_video k zvideo_init;
      if negb (rc =? 0) then mret (-1)
      else
        on_video k sync_format;;
        rc ← on_channel k zchan_init_dma;
        if negb (rc =? 0) then on_video k zvideo_fini;; mret (-1)
        else zchan_watchdog_init k;; mret 0
  | ZYNQ_CHAN_INVAL => mret 0
  end.

Definition zchan_fini (k : Z) : M dev_ctx unit :=
  t ← type_at k;
  match t with
  | ZYNQ_CHAN_CAN =>
      zchan_watchdog_fini k;; on_can k zcan_fini;; on_channel k zchan_fini_dma
  | ZYNQ_CHAN_VIDEO =>
      zchan_watchdog_fini k;; on_video k zvideo_fini;; on_video k sync_format;; on_channel k zchan_fini_dma
  | ZYNQ_CHAN_INVAL => mret tt
  end.

(** ** Character devices of the device; their names are not modelled *)
Definition create_one (want : bool) (store : Z -> main_ctx -> main_ctx) : M main_ctx bool :=
  if want then
    dev ← on_mdev zynq_create_cdev;
    modify (store dev);;
    mret (negb (dev =? 0))
  else mret true.
Definition destroy_one (dev : Z) : M main_ctx unit := when (negb (dev =? 0)) (zynq_destroy_cdev dev).

Definition zynq_destroy_cdev_all : M main_ctx unit :=
  s ← get;
  destroy_one (zdev_dev_gps s);;
  destroy_one (zdev_dev_trigger s);;
  destroy_one (zdev_dev_fw s);;
  destroy_one (zdev_dev_reg s);;
  destroy_one (zdev_dev_i2c s).

(** each node in its turn, until one fails *)
Fixpoint create_nodes (l : list (bool * (Z -> main_ctx -> main_ctx))) : M main_ctx bool :=
  match l with
  | [] => mret true
  | (want, store) :: l' =>
      ok ← create_one want store;
      if (ok : bool) then create_nodes l' else mret false
  end.
Definition cdev_nodes (d : zynq_dev) : list (bool * (Z -> main_ctx -> main_ctx)) :=
  [(zynq_fwupdate_param && ZYNQ_CAP d ZYNQ_HW_CAP_FW, fun v s => s<|zdev_dev_fw := v|>);
   (true, fun v s => s<|zdev_dev_reg := v|>);
   (ZYNQ_CAP d ZYNQ_HW_CAP_I2C, fun v s => s<|zdev_dev_i2c := v|>);
   (ZYNQ_CAP d ZYNQ_HW_CAP_TRIGGER, fun v s => s<|zdev_dev_trigger := v|>);
   (ZYNQ_CAP d ZYNQ_HW_CAP_GPS, fun v s => s<|zdev_dev_gps := v|>)].
Definition zynq_create_cdev_all : M main_ctx Z :=
  s ← get;
  let d := mx_zdev s in
  let fw := zynq_fwupdate_param && ZYNQ_CAP d ZYNQ_HW_CAP_FW in
  known ← (if fw then
             if zdev_did d =? PCI_DEVICE_ID_MOONROVER then
               spin_lock L_zynq_g;;
               modify (fun s => s<|zynq_mr_cnt ::= fun n => u32 (n + 1)|>);;
               spin_unlock L_zynq_g;;
               mret true
             else mret false
           else mret true);
  ok ← (if (known : bool) then create_nodes (cdev_nodes d) else mret false);
  if (ok : bool) then mret 0 else zynq_destroy_cdev_all;; mret (-1).

(** ** sysfs: the directory of the device *)
Definition zynq_sysfs_init : M main_ctx Z :=
  s ← get; ask (KernelCall "kobject_init_and_add" [mx_ptr s; Z.b2z zynq_fwupdate_param]).
Definition zynq_sysfs_fini : M main_ctx unit :=
  s ← get;
  tell (KernelCall "kobject_put" [mx_ptr s]);;
  tell (KernelCall "kobject_del" [mx_ptr s]).

(** ** Probing *)

(** the steps of the error ladder, each followed by those below it *)
Definition undo_alloc : M main_ctx unit := s ← get; tell (KFree (mx_ptr s)).
Definition undo_pci : M main_ctx unit := tell (KernelCall "pci_disable_device" []);; undo_alloc.
Definition undo_bar0 : M main_ctx unit :=
  s ← get;
  tell (KernelCall "iounmap" [zdev_bar0 s]);;
  modify (fun s => s<|zdev_bar0 := 0|>);;
  undo_pci.
(** [i] channels were initialised *)
Definition undo_chans (i : Z) : M main_ctx unit :=
  for_ (Z.to_nat i) 0 (fun k => on_dev (zchan_fini (i - 1 - k)));;
  s ← get;
  tell (KernelCall "iounmap" [zdev_bar2 s]);;
  modify (fun s => s<|zdev_bar2 := 0|>);;
  undo_bar0.
Definition undo_irq (i : Z) : M main_ctx unit := on_irq zynq_free_irq;; undo_chans i.
Definition undo_sysfs (i : Z) : M main_ctx unit := zynq_sysfs_fini;; undo_irq i.
Definition undo_master (i : Z) : M main_ctx unit :=
  tell (KernelCall "pci_clear_master" []);; zynq_destroy_cdev_all;; undo_sysfs i.

(** the instance numbers are taken *)
Definition probe_number : M main_ctx unit :=
  spin_lock L_zynq_g;;
  s ← get;
  upd_mdev (fun d => d<|zdev_inst := zynq_instance s|><|zdev_can_num_start := zynq_can_count s|>);;
  modify (fun s => s<|zynq_can_count ::= fun n => u32 (n + zdev_can_cnt (mx_zdev s))|>
    <|zynq_instance ::= fun n => s32 (n + 1)|>);;
  spin_unlock L_zynq_g.

(** map a BAR: address, 0 on failure, and length *)
Definition map_bar (bar : Z) : M main_ctx (Z * Z) :=
  bar_start ← ask (KernelCall "pci_resource_start" [bar]);
  bar_len ← ask (KernelCall "pci_resource_len" [bar]);
  p ← ask (KernelCall "ioremap" [bar_start; u32 bar_len]);
  mret (p, u32 bar_len).

(** up to the point where both BARs are mapped; [inl]: probing has failed *)
Definition probe_map (device : Z) : M main_ctx (Z + unit) :=
  ok ← zdev_alloc device;
  if negb (ok : bool) then mret (inl (- ENOMEM))
  else
    probe_number;;
    vid ← ask (KernelCall "pci_read_config_word" [PCI_VENDOR_ID]);
    modify (fun s => s<|zdev_vid := u16 vid|>);;
    did ← ask (KernelCall "pci_read_config_word" [PCI_DEVICE_ID]);
    upd_mdev (fun d => d<|zdev_did := u16 did|>);;
    (* enable I/O and MMIO access *)
    err ← ask (KernelCall "pci_enable_device" []);
    if negb (err =? 0) then undo_alloc;; mret (inl err)
    else
      (* BAR0: global and per channel configuration *)
      '(bar0, len0) ← map_bar 0;
      modify (fun s => s<|zdev_bar0 := bar0|>);;
      upd_mdev (fun d => d<|zdev_bar0_len := len0|>);;
      if bar0 =? 0 then undo_pci;; mret (inl (- EFAULT))
      else
        version ← on_mdev (zynq_g_reg_read ZYNQ_G_VERSION);
        upd_mdev (fun d => d<|zdev_version := version|>);;
        if version =? 0xFFFFFFFF then undo_bar0;; mret (inl (- EFAULT))
        else
          (* BAR2: CAN IP registers *)
          '(bar2, len2) ← map_bar 2;
          modify (fun s => s<|zdev_bar2 := bar2|>);;
          if bar2 =? 0 then undo_bar0;; mret (inl (- EFAULT))
          else
            upd_mdev (fun d => d<|zdev_bar2_len := len2|>);;
            mret (inr tt).

(** the initialised channels: how many, and whether one failed *)
Definition probe_chans : M main_ctx (Z * bool) :=
  s ← get;
  failed ← on_dev (for_break (Z.to_nat (mx_chan_cnt s)) 0 (fun k =>
    rc ← zchan_init k;
    mret (if rc =? 0 then None else Some k)));
  mret (match failed with Some k => (k, true) | None => (mx_chan_cnt s, false) end).

Definition probe_dma : M main_ctx Z :=
  (* [DMA_BIT_MASK(64)], then [DMA_BIT_MASK(32)] *)
  rc ← ask (KernelCall "pci_set_dma_mask" [64]);
  rc ← (if negb (rc =? 0) then ask (KernelCall "pci_set_dma_mask" [32]) else mret 0);
  if negb (rc =? 0) then mret (- EPERM)
  else
    rc ← ask (KernelCall "pci_set_consistent_dma_mask" [64]);
    mret (if negb (rc =? 0) then - EPERM else 0).

(** [err] keeps the 0 of [pci_enable_device] on the ladder's upper steps *)
Definition probe_rest (v4_12 : bool) : M main_ctx Z :=
  zynq_check_hw_caps;;
  (* init each channel *)
  '(i, failed) ← probe_chans;
  if (failed : bool) then undo_chans i;; mret 0
  else
    on_dev zdev_clear_err_intr_all;;
    on_mdev zdev_clear_intr_all;;
    on_mdev zdev_disable_intr_all;;
    (* alloc and register interrupt *)
    rc ← on_irq (zynq_alloc_irq v4_12);
    if negb (rc =? 0) then undo_chans i;; mret 0
    else
      rc ← zynq_sysfs_init;
      if negb (rc =? 0) then undo_irq i;; mret 0
      else
        (* create all the cdevs *)
        rc ← zynq_create_cdev_all;
        if negb (rc =? 0) then undo_sysfs i;; mret 0
        else
          tell (InitCompletion C_gpspps);;
          tell (KernelCall "pci_set_master" []);;
          err ← probe_dma;
          if negb (err =? 0) then undo_master i;; mret err
          else
            s ← get;
            modify (fun s => s<|drvdata := mx_ptr s|>);;
            on_mdev zdev_enable_intr_all;;
            spin_lock L_zynq_g;;
            modify (fun s => s<|zynq_dev_list ::= cons (mx_ptr s)|>);;
            spin_unlock L_zynq_g;;
            on_dev (on_gps zynq_gps_init);;
            mret 0.

Definition zynq_probe (v4_12 : bool) (device : Z) : M main_ctx Z :=
  r ← probe_map device;
  match r with inl rc => mret rc | inr _ => probe_rest v4_12 end.

Definition zynq_remove : M main_ctx unit :=
  s ← get;
  if drvdata s =? 0 then mret tt
  else
    on_dev (on_gps zynq_gps_fini);;
    on_mdev zdev_disable_intr_all;;
    zynq_destroy_cdev_all;;
    tell (KernelCall "pci_clear_master" []);;
    zynq_sysfs_fini;;
    on_irq zynq_free_irq;;
    for_ (Z.to_nat (mx_chan_cnt s)) 0 (fun k => on_dev (zchan_fini k));;
    tell (KernelCall "iounmap" [zdev_bar2 s]);;
    tell (KernelCall "iounmap" [zdev_bar0 s]);;
    tell (KernelCall "pci_disable_device" []);;
    modify (fun s => s<|drvdata := 0|>);;
    tell (KFree (mx_ptr s)).

(** ** The module *)
Definition zynq_module_init : M main_ctx Z :=
  s ← get;
  let d := mx_zdev s in
  error ← ask (if zynq_major d =? 0
               then KernelCall "alloc_chrdev_region" [zynq_minor d; ZYNQ_MINOR_COUNT]
               else KernelCall "register_chrdev_region" [MKDEV (zynq_major d) (zynq_minor d); ZYNQ_MINOR_COUNT]);
  if negb (error =? 0) then mret error
  else
    dev ← (if zynq_major d =? 0 then ask (KernelCall "*dev" []) else mret (MKDEV (zynq_major d) (zynq_minor d)));
    let dev := u32 dev in
    upd_mdev (fun d => d<|zynq_major := Z.shiftr dev 20|><|zynq_minor := Z.land dev 0xFFFFF|>);;
    modify (fun s => s<|zynq_g_dev := dev|>);;
    cls ← ask (KernelCall "class_create" []);
    if cls =? 0 then
      tell (KernelCall "unregister_chrdev_region" [dev; ZYNQ_MINOR_COUNT]);; mret (-1)
    else
      let drop (registered : bool) :=
        when registered (tell (KernelCall "pci_unregister_driver" []));;
        tell (KernelCall "unregister_chrdev_region" [dev; ZYNQ_MINOR_COUNT]);;
        tell (KernelCall "class_destroy" []) in
      error ← ask (KernelCall "pci_register_driver" []);
      if negb (error =? 0) then drop false;; mret error
      else
        zmod ← ask (KernelCall "driver.owner" []);
        if zmod =? 0 then drop true;; mret error
        else
          (* create zdev_all *)
          error ← ask (KernelCall "sysfs_create_file" [zmod]);
          if error =? 0 then mret 0 else drop true;; mret error.

Definition zynq_module_exit : M main_ctx unit :=
  s ← get;
  tell (KernelCall "sysfs_remove_file" []);;
  tell (KernelCall "pci_unregister_driver" []);;
  tell (KernelCall "unregister_chrdev_region" [zynq_g_dev s; ZYNQ_MINOR_COUNT]);;
  tell (KernelCall "class_destroy" []).
End main.

(** ** What allocation establishes *)

(** the CANs, and the cameras, numbered in the order of their channels *)
Definition can_nums (s : dev_ctx) : list Z :=
  omap (fun c => match dc_dev c with DevCan z => Some (zcan_ip_num z) | _ => None end) (dx_chans s).
Definition video_nums (s : dev_ctx) : list Z :=
  omap (fun c => match dc_dev c with DevVideo v _ => Some (index v) | _ => None end) (dx_chans s).
(** the type the maps give a channel *)
Definition type_for (d : zynq_dev) (i : Z) : zynq_chan_type :=
  if Z.testbit (zdev_can_map d) i then ZYNQ_CHAN_CAN
  else if Z.testbit (zdev_video_map d) i then ZYNQ_CHAN_VIDEO else ZYNQ_CHAN_INVAL.
(** every channel leads to a device of its type ([typed]), there is one for
    each bit of the maps, and the counts are those of the arrays *)
Record laid_out (s : dev_ctx) : Prop := {
  lo_typed : typed s;
  lo_count : Z.of_nat (length (dx_chans s)) = zdev_chan_cnt (dx_zdev s);
  lo_types : forall i c, dx_chans s !! i = Some c ->
    zchan_type (dc_zchan c) = type_for (dx_zdev s) (Z.of_nat i);
  lo_cans : can_nums s = seqZ 0 (zdev_can_cnt (dx_zdev s));
  lo_videos : video_nums s = seqZ 0 (zdev_video_cnt (dx_zdev s))
}.

(** the layout the maps describe *)
Definition layout (d : zynq_dev) : list (zynq_chan_type * Z * dev_kind) :=
  (fun i => (type_for d i, i, kind_for (type_for d i))) <$> seqZ 0 (zdev_chan_cnt d).

Lemma layout_laid_out s :
  0 <= zdev_chan_cnt (dx_zdev s) -> shapes s = layout (dx_zdev s) ->
  can_nums s = seqZ 0 (zdev_can_cnt (dx_zdev s)) -> video_nums s = seqZ 0 (zdev_video_cnt (dx_zdev s)) ->
  laid_out s.
Proof.
  intros H0 Hs Hc Hv. split; [| | | done | done].
  - intros i t n k E. rewrite Hs in E. unfold layout in E. rewrite list_lookup_fmap in E.
    destruct (seqZ _ _ !! i) as [j|] eqn:Ej; [| discriminate]. apply lookup_seqZ in Ej as [-> _].
    injection E as <- <- <-. split; [lia | done].
  - apply (f_equal length) in Hs. unfold shapes, layout in Hs. rewrite length_map, length_fmap, length_seqZ in Hs. lia.
  - intros i c Hi. apply (f_equal (fun l => l !! i)) in Hs. unfold shapes, layout in Hs.
    change (map ?f ?l) with (f <$> l) in Hs. rewrite !list_lookup_fmap, Hi in Hs.
    destruct (seqZ _ _ !! i) as [j|] eqn:Ej; [| discriminate]. apply lookup_seqZ in Ej as [-> _].
    injection Hs as Ht _ _. exact Ht.
Qed.

Section alloc.
Context `{Env} `{ModParams} `{Calendar} `{VideoParams} `{CamParams} `{Sizes}.
Implicit Types w : world main_ctx.

Definition blank (n : Z) : list dev_chan := replicate (Z.to_nat n) (DevChan zynq_chan_zero DevNone).

Lemma assign_mr log held g :
  zdev_can_map (gp_zdev g) = ZYNQ_CAN_MAP_MR -> zdev_video_map (gp_zdev g) = ZYNQ_VIDEO_MAP_MR ->
  zdev_can_cnt (gp_zdev g) = 4 -> zdev_video_cnt (gp_zdev g) = 5 ->
  zdev_chan_cnt (gp_zdev g) = 16 ->
  exists w' : world dev_ctx, assign_chans 16 0 (0, 0) (World log held (DevCtx g (blank 16))) = Ret tt w' /\
    w_log w' = log /\ w_held w' = held /\ dx_gps (w_st w') = g /\ laid_out (w_st w').
Proof.
  destruct g as [[] m v t]. cbn. intros -> -> -> -> ->.
  eexists. split; [vm_compute; reflexivity |]. split_and!; [done | done | done |].
  by apply layout_laid_out.
Qed.

(** the channels, cameras and CANs the driver gives a device *)
Definition dev_maps : Z * Z * Z :=
  if zynq_fwupdate_param then (0, 0, 0) else (ZYNQ_DMA_CHAN_NUM_MR, ZYNQ_VIDEO_MAP_MR, ZYNQ_CAN_MAP_MR).

Lemma wp_assign_chans cnt (v : world dev_ctx) (Q : unit -> world dev_ctx -> Prop) :
  let d := dx_zdev (w_st v) in
  cnt = zdev_chan_cnt d ->
  dev_maps = (zdev_chan_cnt d, zdev_video_map d, zdev_can_map d) ->
  zdev_can_cnt d = hweight_long (zdev_can_map d) -> zdev_video_cnt d = hweight_long (zdev_video_map d) ->
  dx_chans (w_st v) = blank (zdev_chan_cnt d) ->
  (forall v', w_log v' = w_log v -> w_held v' = w_held v -> laid_out (w_st v') -> Q tt v') ->
  wp (assign_chans (Z.to_nat cnt) 0 (0, 0)) Q v.
Proof.
  destruct v as [l h [g cs]]. unfold dx_zdev, dev_maps. cbn [w_st dx_gps dx_chans].
  intros -> Hm Hc Hv -> HQ. apply wp_run.
  destruct zynq_fwupdate_param; injection Hm as En Ev Ec; rewrite <- Ec in Hc; rewrite <- Ev in Hv; rewrite <- En.
  - exists tt. eexists. split; [reflexivity |]. apply HQ; [done | done |].
    apply layout_laid_out; unfold dx_zdev, layout; cbn [w_st dx_gps dx_chans]; rewrite ?Hc, ?Hv, <- ?En; done.
  - destruct (assign_mr l h g) as (w' & E & El & Eh & _ & Hl); [by symmetry | by symmetry | exact Hc | exact Hv | by symmetry |].
    exists tt, w'. split; [exact E | by apply HQ].
Qed.

(** after an allocation: nothing, or one block of memory with a device laid out *)
Lemma wp_zdev_alloc did w (Q : bool -> world main_ctx -> Prop) :
  (forall w', delta w w' [] [] -> w_held w' = w_held w -> Q false w') ->
  (forall w', mx_ptr (w_st w') <> 0 -> delta w w' [RMem (mx_ptr (w_st w'))] [] -> w_held w' = w_held w ->
     laid_out (mx_dev (w_st w')) -> Q true w') ->
  wp (zdev_alloc did) Q w.
Proof.
  intros Hno Hok. unfold zdev_alloc, zynq_zdev_init. apply wp_bind.
  destruct (negb _); [by apply wp_ret, wp_ret, Hno; [apply delta_refl |] |].
  fold dev_maps. destruct dev_maps as [[n v] c] eqn:Em. cbv zeta. apply wp_bind, wp_ask. intros p _.
  destruct (Z.eqb_spec p 0) as [->|Hp].
  { apply wp_ret, wp_ret, Hno; [by eexists [_] | done]. }
  unfold upd_mdev, on_mdev, on_dev, on_device, mx_chan_cnt, mx_zdev. wp_steps; [discriminate |].
  apply wp_assign_chans; [reflexivity | exact Em | done | done | done |]. intros v' El Eh Hl.
  wp_steps. apply Hok; [done | | exact Eh | exact Hl].
  eexists [_]. cbn [w_log]. split; [rewrite El; reflexivity |]. cbn. by rewrite (proj2 (Z.eqb_neq _ _) Hp).
Qed.

(** the error ladder takes and gives in the order of a stack *)
Lemma delta_take {S} (w0 : world S) e l h (s : S) r q m :
  delta w0 (World l h s) q m -> acquired e = Some r -> released e = None -> delta w0 (World (e :: l) h s) (r :: q) m.
Proof.
  intros (evs & Hl & Hp) Ha Hr. exists (e :: evs). cbn in *. rewrite Hl. split; [done |].
  unfold acq, rel in *. cbn. rewrite Ha, Hr. cbn. rewrite Hp. by rewrite Permutation_middle.
Qed.
Lemma delta_give {S} (w0 : world S) e l h (s : S) r q m :
  delta w0 (World l h s) (r :: q) m -> acquired e = None -> released e = Some r -> delta w0 (World (e :: l) h s) q m.
Proof.
  intros (evs & Hl & Hp) Ha Hr. exists (e :: evs). cbn in *. rewrite Hl. split; [done |].
  unfold acq, rel in *. cbn. rewrite Ha, Hr. cbn. rewrite Hp. by rewrite Permutation_middle.
Qed.
Lemma delta_pass {S} (w0 : world S) e l h (s : S) q m :
  delta w0 (World l h s) q m -> acquired e = None -> released e = None -> delta w0 (World (e :: l) h s) q m.
Proof. intros Hd Ha Hr. apply (delta_plain _ (World l h s)); [done | by split]. Qed.
Ltac known := cbn; repeat match goal with E : (_ =? _) = _ |- _ => rewrite E end; reflexivity.
Ltac account := repeat first
  [ eapply delta_pass; [| known | known] | eapply delta_give; [| known | known] | eapply delta_take; [| known | known] ].

(** the layout depends on the channels, the maps and the counts *)
Lemma laid_out_same s s' :
  dx_chans s' = dx_chans s ->
  (zdev_chan_cnt (dx_zdev s'), zdev_can_cnt (dx_zdev s'), zdev_video_cnt (dx_zdev s'),
   zdev_can_map (dx_zdev s'), zdev_video_map (dx_zdev s')) =
  (zdev_chan_cnt (dx_zdev s), zdev_can_cnt (dx_zdev s), zdev_video_cnt (dx_zdev s),
   zdev_can_map (dx_zdev s), zdev_video_map (dx_zdev s)) ->
  laid_out s -> laid_out s'.
Proof.
  intros Ec [= E1 E2 E3 E4 E5] [Ht Hc Hty Hcan Hv].
  split; unfold typed, shapes, can_nums, video_nums, type_for in *; rewrite ?Ec, ?E1, ?E2, ?E3, ?E4, ?E5; done.
Qed.

(** steps that keep the pointers and the layout *)
Definition dev_dims (d : zynq_dev) : Z * Z * Z * Z * Z :=
  (zdev_chan_cnt d, zdev_can_cnt d, zdev_video_cnt d, zdev_can_map d, zdev_video_map d).
Record kept (s s' : main_ctx) : Prop := {
  kp_ptr : mx_ptr s' = mx_ptr s;
  kp_bar0 : zdev_bar0 s' = zdev_bar0 s;
  kp_bar2 : zdev_bar2 s' = zdev_bar2 s;
  kp_laid : laid_out (mx_dev s) -> laid_out (mx_dev s')
}.

Lemma wp_upd_mdev f w (Q : unit -> world main_ctx -> Prop) :
  (forall d, dev_dims (f d) = dev_dims d) ->
  (forall s', kept (w_st w) s' -> Q tt (World (w_log w) (w_held w) s')) -> wp (upd_mdev f) Q w.
Proof.
  intros Hf HQ. unfold upd_mdev, on_mdev, on_dev, on_device. wp_steps. apply HQ.
  split; [done | done | done |]. apply laid_out_same; [done |]. apply Hf.
Qed.
Lemma wp_mdev_read r w (Q : Z -> world main_ctx -> Prop) :
  (forall v l s', kept (w_st w) s' -> (forall q m (w0 : world main_ctx), delta w0 w q m ->
     delta w0 (World l (w_held w) s') q m) -> Q v (World l (w_held w) s')) ->
  wp (on_mdev (zynq_g_reg_read r)) Q w.
Proof.
  intros HQ. destruct w as [l h s]. cbn [w_st w_held w_log] in *.
  assert (kept s (s<|mx_dev := set_zdev (dx_zdev (mx_dev s)) (mx_dev s)|>)) as Hk.
  { split; [done | done | done |]. by apply laid_out_same. }
  unfold on_mdev, on_dev, on_device, zynq_g_reg_read, io_read. wp_steps; apply HQ; try exact Hk.
  - intros q m w0 Hd. by apply (delta_world _ _ _ _ _ _ _ Hd).
  - intros q m w0 Hd. unfold emit. cbn [w_log w_held w_st]. apply delta_pass; [| done | done].
    by apply (delta_world _ _ _ _ _ _ _ Hd).
Qed.
Lemma wp_probe_number w (Q : unit -> world main_ctx -> Prop) :
  L_zynq_g ∉ w_held w ->
  (forall s', kept (w_st w) s' ->
     Q tt (World (Ev (SpinUnlock L_zynq_g) 0 :: Ev (SpinLock L_zynq_g) 0 :: w_log w) (w_held w) s')) ->
  wp probe_number Q w.
Proof.
  intros Hl HQ. destruct w as [l h s]. cbn [w_st w_held w_log] in *. unfold probe_number. wp_steps.
  apply wp_upd_mdev; [done |]. intros s' Hk. wp_steps. apply HQ. by destruct Hk.
Qed.

Ltac unkeep :=
  repeat match goal with
  | K : kept _ _ |- _ =>
      let Ep := fresh "Ep" in let Eb := fresh "Eb" in let Ec := fresh "Ec" in let El := fresh "El" in
      destruct K as [Ep Eb Ec El]; cbn in Ep, Eb, Ec; cbn [emit w_st] in El
  end;
  unfold emit; cbn [w_log w_held w_st];
  repeat match goal with
  | |- context [mx_ptr ?t] => let v := eval cbn in (mx_ptr t) in progress change (mx_ptr t) with v
  | |- context [zdev_bar0 ?t] => let v := eval cbn in (zdev_bar0 t) in progress change (zdev_bar0 t) with v
  end;
  repeat match goal with
  | E : mx_ptr ?s = _ |- context [mx_ptr ?s] => rewrite E
  | E : zdev_bar0 ?s = _ |- context [zdev_bar0 ?s] => rewrite E
  | E : zdev_bar2 ?s = _ |- context [zdev_bar2 ?s] => rewrite E
  | E : negb _ = true |- _ => apply negb_true_iff in E
  | E : negb _ = false |- _ => apply negb_false_iff in E
  end.
Ltac kept_step := first
  [ apply wp_upd_mdev; [done |]; let s := fresh "s" in let K := fresh "K" in intros s K
  | dev_step ].

Lemma wp_probe_map did w (Q : Z + unit -> world main_ctx -> Prop) :
  L_zynq_g ∉ w_held w ->
  (forall rc w', rc <> 0 -> delta w w' [] [] -> w_held w' = w_held w -> Q (inl rc) w') ->
  (forall w' (s := w_st w'), mx_ptr s <> 0 -> zdev_bar0 s <> 0 ->
     delta w w' [RIo (zdev_bar2 s); RIo (zdev_bar0 s); RPci; RMem (mx_ptr s)] [] -> w_held w' = w_held w ->
     laid_out (mx_dev s) -> Q (inr tt) w') ->
  wp (probe_map did) Q w.
Proof.
  intros Hl Hko Hok. unfold probe_map. apply wp_bind, wp_zdev_alloc.
  { intros w' Hd Hh. by apply wp_ret, Hko. }
  intros w1 Hp Hd Hh Hlo. cbn [negb]. destruct w1 as [l1 h1 s1]. cbn [w_st w_held w_log] in *. subst h1.
  apply wp_bind, wp_probe_number; [done |]. cbn [w_st w_held w_log]. intros s2 K2.
  unfold map_bar, undo_bar0, undo_pci, undo_alloc.
  pose proof (proj2 (Z.eqb_neq _ _) Hp) as Ez.
  repeat (cbv beta; kept_step).
  - apply Hko; [first [lia | done] | | done]. unkeep. account. by apply (delta_world _ _ _ _ _ _ _ Hd).
  - apply Hko; [first [lia | done] | | done]. unkeep. account. by apply (delta_world _ _ _ _ _ _ _ Hd).
  - apply wp_mdev_read. cbn [w_held]. intros v l s3 K3 Hd3.
    assert (delta w (World l (w_held w) s3) [RIo r4; RPci; RMem (mx_ptr s1)] []) as Hd4.
    { apply Hd3. unkeep. account. by apply (delta_world _ _ _ _ _ _ _ Hd). }
    clear Hd3. repeat (cbv beta; kept_step).
    + apply Hko; [done | | done]. unkeep. account. by apply (delta_world _ _ _ _ _ _ _ Hd4).
    + apply Hko; [done | | done]. unkeep. account. by apply (delta_world _ _ _ _ _ _ _ Hd4).
    + unkeep. apply Hok; cbn [w_st]; unkeep; [done | lia | | done |].
      * account. by apply (delta_world _ _ _ _ _ _ _ Hd4).
      * repeat match goal with El : _ -> laid_out _ |- _ => apply El; clear El end. exact Hlo.
Qed.

(** C38 (type): whatever device the bus reports, the allocation ends; when it
    succeeds every channel leads to a device of the type the maps give it, knows
    its place, and the CANs and cameras are numbered in order up to the counts
    ([laid_out]).  As long as a state has these channels, neither tasklet takes a
    pointer for another type, and both leave the channels' types, numbers and
    devices as they are, so that the next run starts typed again. *)
Theorem channels_typed did w :
  wp (zdev_alloc did) (fun ok w' => ok = true ->
    laid_out (mx_dev (w_st w')) /\
    forall (v : world dev_ctx) fuel k, shapes (w_st v) = shapes (mx_dev (w_st w')) ->
      (zynq_tasklet fuel v <> Fault BadCast /\
       forall a v', zynq_tasklet fuel v = Ret a v' -> shapes (w_st v') = shapes (mx_dev (w_st w'))) /\
      (zynq_chan_tasklet fuel k v <> Fault BadCast /\
       forall a v', zynq_chan_tasklet fuel k v = Ret a v' -> shapes (w_st v') = shapes (mx_dev (w_st w')))) w.
Proof.
  apply wp_zdev_alloc; [done |]. intros w' _ _ _ Hl _. split; [exact Hl |]. intros v fuel k Hv.
  assert (typed (w_st v)) as Ht by (apply (typed_shapes (mx_dev (w_st w'))); [exact Hv | apply Hl]).
  rewrite <- Hv. split; [by apply safe_tasklet | by apply safe_chan_tasklet].
Qed.

(** C39 (error): probing up to the mapped registers.  For every answer of the
    bus and the kernel this part ends with the locks as before: either with an
    error other than 0, which is what probing returns, and then the memory, the
    PCI device and the mappings taken on the way have all been given back; or
    with exactly the device's memory, the enabled device and the two mappings
    held, and the channels laid out, and probing goes on. *)
Theorem probe_outcome v4_12 did w (Hfree : L_zynq_g ∉ w_held w) :
  wp (probe_map did) (fun r w' => w_held w' = w_held w /\
    match r with
    | inl rc => rc <> 0 /\ delta w w' [] [] /\ zynq_probe v4_12 did w = Ret rc w'
    | inr _ =>
        let s := w_st w' in
        delta w w' [RIo (zdev_bar2 s); RIo (zdev_bar0 s); RPci; RMem (mx_ptr s)] [] /\
        mx_ptr s <> 0 /\ zdev_bar0 s <> 0 /\ laid_out (mx_dev s) /\
        zynq_probe v4_12 did w = probe_rest v4_12 w'
    end) w.
Proof.
  destruct (proj1 (wp_run _ _ _) (wp_probe_map did w
    (fun r w' => w_held w' = w_held w /\
      match r with
      | inl rc => rc <> 0 /\ delta w w' [] []
      | inr _ => let s := w_st w' in
          delta w w' [RIo (zdev_bar2 s); RIo (zdev_bar0 s); RPci; RMem (mx_ptr s)] [] /\
          mx_ptr s <> 0 /\ zdev_bar0 s <> 0 /\ laid_out (mx_dev s)
      end) Hfree ltac:(by intros) ltac:(by intros))) as (r & w' & E & Hh & Hr).
  apply wp_run. exists r, w'. split; [exact E |]. split; [exact Hh |].
  unfold zynq_probe, mbind, M_bind. rewrite E. destruct r as [rc|[]]; [by destruct Hr | by destruct Hr as (? & ? & ? & ?)].
Qed.
End alloc.

(** ** A device in a fresh driver *)
Module MainWitness.
#[local] Existing Instance VideoDev.VdevWitness.video_params.
#[local] Existing Instance VideoDev.VdevWitness.cam_params.
#[local] Existing Instance Gps.GpsWitness.gregorian.
#[local] Instance sizes : Sizes :=
  {| sizeof_zynq_dev := 2048; sizeof_zynq_chan := 1024; sizeof_zynq_can := 1024; sizeof_zynq_video := 8192 |}.

Definition driver0 : main_ctx :=
  MainCtx (DevCtx (GpsCtx (zynq_dev_zero<|zynq_major := 240|>) MasterNone false false) [])
    (IrqCtx zynq_dev_zero 0 [] 0 0 0 0) 0 0 0 0 [] 0 0 0 0 0 0 0 0 0 [] 0.
Definition world_m : world main_ctx := World [] [] driver0.

(** memory, mappings and interrupts are granted, [bad] answers -12 *)
Definition env_bus (bad : string) : Env := fun _ c =>
  match c with
  | KAlloc _ => 0x1000
  | KernelCall f _ =>
      if String.eqb f bad then -12
      else if String.eqb f "ioremap" then 0x2000
      else if String.eqb f "device_create" then 1
      else if String.eqb f "pci_read_config_word" then PCI_DEVICE_ID_MOONROVER
      else 0
  | _ => 0
  end.

Section normal.
#[local] Existing Instance params_default.

Lemma probe_outcome_witness :
  let E := env_bus "pci_enable_device" in
  wp (probe_map (H := E) PCI_DEVICE_ID_MOONROVER) (fun r w' => w_held w' = [] /\
    match r with
    | inl rc => rc <> 0 /\ delta world_m w' [] [] /\
        zynq_probe (H := E) false PCI_DEVICE_ID_MOONROVER world_m = Ret rc w'
    | inr _ =>
        let s := w_st w' in
        delta world_m w' [RIo (zdev_bar2 s); RIo (zdev_bar0 s); RPci; RMem (mx_ptr s)] [] /\
        mx_ptr s <> 0 /\ zdev_bar0 s <> 0 /\ laid_out (mx_dev s) /\
        zynq_probe (H := E) false PCI_DEVICE_ID_MOONROVER world_m = probe_rest (H := E) false w'
    end) world_m.
Proof.
  apply (probe_outcome (H := env_bus "pci_enable_device") false PCI_DEVICE_ID_MOONROVER world_m).
  apply not_elem_of_nil.
Defined.

(** the channels of an allocated device, and probing refused by the bus *)
Example channels_mr :
  match zdev_alloc (H := env_bus "") PCI_DEVICE_ID_MOONROVER world_m with
  | Ret true w => Some (map (fun x => x.1.1) (shapes (mx_dev (w_st w))), can_nums (mx_dev (w_st w)),
      video_nums (mx_dev (w_st w)))
  | _ => None
  end = Some (replicate 5 ZYNQ_CHAN_VIDEO ++ replicate 5 ZYNQ_CHAN_INVAL ++ replicate 4 ZYNQ_CHAN_CAN
              ++ replicate 2 ZYNQ_CHAN_INVAL, [0; 1; 2; 3], [0; 1; 2; 3; 4]).
Proof. vm_compute. reflexivity. Qed.
Definition result_of (r : outcome main_ctx Z) : option (Z * Z * list Z) :=
  match r with Ret rc w => Some (rc, drvdata (w_st w), zynq_dev_list (w_st w)) | _ => None end.
Example enable_fails :
  result_of (zynq_probe (H := env_bus "pci_enable_device") false PCI_DEVICE_ID_MOONROVER world_m)
  = Some (-12, 0, []).
Proof. vm_compute. reflexivity. Qed.
End normal.

(** with the firmware update parameter the device has no channels *)
Section update.
#[local] Instance params_fw : ModParams := {|
  zynq_trace_param := 0; zynq_bringup_param := false; zynq_dbg_reg_dump_param := false;
  zynq_fwupdate_param := true; zynq_stats_log_interval := 1; HZ := 250; msecs_to_jiffies := fun m => m;
  zynq_can_rx_buf_num := 2048; zynq_can_ip_btr := ZCAN_IP_BTR_DEFAULT;
  zynq_disable_can_hw_ts := false; zynq_enable_can_rx_dma := true; zynq_enable_can_tx_dma := false;
  zynq_gps_sync_time := 10; zynq_gps_smooth_step := 0; zynq_gps_smooth_max := 0; zynq_gps_checksum := false;
  zynq_gps_high_factor := 0; zynq_gps_low_factor := 0; zynq_video_zero_copy := true; zynq_video_buf_num := 2
|}.

(** a failure after the registers are mapped: the device is freed, and probing
    returns 0, a success *)
Definition freed (r : outcome main_ctx Z) : bool :=
  match r with Ret _ w => match w_log w with Ev (KFree p) _ :: _ => p =? 0x1000 | _ => false end | _ => false end.
Example late_failure_returns_0 :
  let r := zynq_probe (H := env_bus "kobject_init_and_add") false PCI_DEVICE_ID_MOONROVER world_m in
  result_of r = Some (0, 0, []) /\ freed r = true.
Proof. vm_compute. split; reflexivity. Qed.

(** after removal the freed device is still in the driver's list, and its minor
    numbers are not used again *)
Definition probe_remove : M main_ctx Z :=
  zynq_probe (H := env_bus "") false PCI_DEVICE_ID_MOONROVER;; zynq_remove;;
  s ← get; mret (zynq_minor (mx_zdev s)).
Example removed_stays_listed : result_of (probe_remove world_m) = Some (2, 0, [0x1000]) .
Proof. vm_compute. reflexivity. Qed.
End update.
End MainWitness.
