(* ===== verification/RegDev.v ===== *)
(** * The register device ([basa_reg.c])

    Raw register access, the I2C commands, waiting for a change of the GPS
    status, and the table of all statistics. *)

From stdpp Require Import strings.
From S2P Require Import Kernel Frames Regs Api Device CanMsg Chan CanChip CanTx CanRx Video VideoMeta VideoQueue.
From S2P Require Import VideoStream CamHci VideoDev Gps I2c Dispatch.

(** [ioc_zynq_reg_acc_t]: three words *)
Record ioc_zynq_reg_acc := RegAcc { reg_bar : Z; reg_offset : Z; reg_data : Z }.
Definition reg_of_words (l : list Z) : ioc_zynq_reg_acc :=
  RegAcc (l !!! 0%nat) (l !!! 1%nat) (l !!! 2%nat).
Definition reg_words (a : ioc_zynq_reg_acc) : list Z := [reg_bar a; reg_offset a; reg_data a].
Definition sizeof_reg_acc : Z := 12.

(** an entry of [ioc_zynq_stats_t]: counters are 64-bit words *)
Record stats_ch := StatsCh { sc_type : Z; sc_devnum : Z; sc_stats : list Z }.
Definition sizeof_stats : Z := (ZYNQ_CHAN_MAX + 1) * (8 + 8 * ZYNQ_STATS_MAX).
Definition chan_type_val (t : zynq_chan_type) : Z :=
  match t with ZYNQ_CHAN_INVAL => 0 | ZYNQ_CHAN_CAN => 1 | ZYNQ_CHAN_VIDEO => 2 end.
Definition stats_ch_words (c : stats_ch) : list Z :=
  sc_type c :: sc_devnum c :: (sc_stats c ≫= fun v => [u32 v; u32 (Z.shiftr v 32)]).

(** what the table holds before the channels are filled in *)
Definition stats_ch_init : stats_ch := StatsCh (chan_type_val ZYNQ_CHAN_INVAL) 0
  (replicate (Z.to_nat ZYNQ_STATS_MAX) (u64 (-1))).
(** counters overwrite the first entries, as far as there is room *)
Definition put_stats (cnts old : list Z) : list Z :=
  let n := Z.to_nat ZYNQ_STATS_MAX in take n (cnts ++ drop (length cnts) old).
Definition counters (num : Z) (l : list zynq_stats) : list Z := cnt <$> take (Z.to_nat num) l.

Section regdev.
Context `{Env} `{ModParams} `{Calendar} `{VideoParams} `{CamParams}.

Definition reg_ioctl_read (arg : Z) : M dev_ctx Z :=
  data ← copy_from_user arg 3;
  match data with
  | None => mret (- EFAULT)
  | Some l =>
      let reg_acc := reg_of_words l in
      let answer v :=
        ok ← copy_to_user arg sizeof_reg_acc (reg_words (RegAcc (reg_bar reg_acc) (reg_offset reg_acc) v));
        mret (if (ok : bool) then 0 else - EFAULT) in
      if reg_bar reg_acc =? 0 then v ← zynq_g_reg_read (reg_offset reg_acc); answer v
      else if reg_bar reg_acc =? 2 then v ← zynq_bar2_reg_read (reg_offset reg_acc); answer v
      else mret (- EINVAL)
  end.
Definition reg_ioctl_write (arg : Z) : M dev_ctx Z :=
  data ← copy_from_user arg 3;
  match data with
  | None => mret (- EFAULT)
  | Some l =>
      let reg_acc := reg_of_words l in
      if reg_bar reg_acc =? 0 then zynq_g_reg_write (reg_offset reg_acc) (reg_data reg_acc);; mret 0
      else if reg_bar reg_acc =? 2 then zynq_bar2_reg_write (reg_offset reg_acc) (reg_data reg_acc);; mret 0
      else mret (- EINVAL)
  end.

(** the entry of one channel; a camera that is not linked has none *)
Definition stats_of_chan (k : Z) (c : dev_chan) (old : stats_ch) : M dev_ctx stats_ch :=
  s ← get;
  let zc := dc_zchan c in
  let head := counters CHAN_STATS_NUM (zchan_stats zc) in
  match zchan_type zc, dc_dev c with
  | ZYNQ_CHAN_CAN, DevCan zcan =>
      mret (StatsCh (chan_type_val ZYNQ_CHAN_CAN) (u32 (zdev_can_num_start (dx_zdev s) + zcan_ip_num zcan))
              (put_stats (head ++ counters CAN_STATS_NUM (zcan_stats zcan)) (sc_stats old)))
  | ZYNQ_CHAN_VIDEO, DevVideo zvideo st =>
      if link_up (caps zvideo) =? 0 then mret old
      else
        (* the number the video core gave the device *)
        num ← ask (KernelCall "vdev.num" [k]);
        mret (StatsCh (chan_type_val ZYNQ_CHAN_VIDEO) (u32 num)
                (put_stats (head ++ counters VIDEO_STATS_NUM (video_stats st)) (sc_stats old)))
  | ZYNQ_CHAN_INVAL, _ => mret old
  | _, _ => fail BadCast
  end.
Fixpoint stats_of_chans (n : nat) (k : Z) (chs : list stats_ch) : M dev_ctx (list stats_ch) :=
  match n with
  | O => mret chs
  | S n' =>
      c ← chan_at k;
      old ← array_get chs k;
      x ← stats_of_chan k c old;
      stats_of_chans n' (k + 1) (<[Z.to_nat k := x]> chs)
  end.
(** the global counters are in the additional entry *)
Definition stats_table : M dev_ctx (list stats_ch) :=
  s ← get;
  let all := replicate (Z.to_nat (ZYNQ_CHAN_MAX + 1)) stats_ch_init in
  let dev := StatsCh (sc_type stats_ch_init) 0
    (put_stats (counters DEV_STATS_NUM (zdev_stats (dx_zdev s))) (sc_stats stats_ch_init)) in
  stats_of_chans (Z.to_nat (zdev_chan_cnt (dx_zdev s))) 0 (<[Z.to_nat ZYNQ_CHAN_MAX := dev]> all).

Definition reg_ioctl_stats (arg : Z) : M dev_ctx Z :=
  ps ← ask (KAlloc sizeof_stats);
  if ps =? 0 then mret (- EFAULT)
  else
    left ← ask (CopyFromUser arg sizeof_stats);
    if negb (left =? 0) then tell (KFree ps);; mret (- EFAULT)
    else
      chs ← stats_table;
      ok ← copy_to_user arg sizeof_stats (chs ≫= stats_ch_words);
      tell (KFree ps);;
      mret (if (ok : bool) then 0 else - EFAULT).

Definition zynq_reg_ioctl (cmd arg : Z) : M dev_ctx Z :=
  if cmd =? ZYNQ_IOC_REG_READ then reg_ioctl_read arg
  else if cmd =? ZYNQ_IOC_REG_WRITE then reg_ioctl_write arg
  else if cmd =? ZYNQ_IOC_REG_I2C_READ then on_device (i2c_ioctl_read arg)
  else if cmd =? ZYNQ_IOC_REG_I2C_WRITE then on_device (i2c_ioctl_write arg)
  else if cmd =? ZYNQ_IOC_REG_GPSPPS_EVENT_WAIT then
    (* wait for the event notification *)
    err ← ask (KernelCall "wait_for_completion_interruptible" []);
    tell (InitCompletion C_gpspps);;
    mret (s32 err)
  else if cmd =? ZYNQ_IOC_STATS_GET then reg_ioctl_stats arg
  else mret (- EINVAL).

Definition zynq_reg_open : M dev_ctx Z := mret 0.
Definition zynq_reg_release : M dev_ctx Z := mret 0.
End regdev.

(** ** Lemmas *)
Section regdev_lemmas.
Context `{Env} `{ModParams} `{Calendar} `{VideoParams} `{CamParams}.
Implicit Types w : world dev_ctx.

(** an entry with all its counters *)
Definition full (c : stats_ch) : Prop := Z.of_nat (length (sc_stats c)) = ZYNQ_STATS_MAX.

Lemma put_stats_full cnts old : Z.of_nat (length old) = ZYNQ_STATS_MAX ->
  Z.of_nat (length (put_stats cnts old)) = ZYNQ_STATS_MAX.
Proof.
  unfold put_stats. intros Ho. rewrite length_take, length_app, length_drop. unfold ZYNQ_STATS_MAX in *. lia.
Qed.
(** the counters given are the first of the entry *)
Lemma put_stats_lookup cnts old i x : (i < Z.to_nat ZYNQ_STATS_MAX)%nat -> cnts !! i = Some x ->
  put_stats cnts old !! i = Some x.
Proof.
  intros Hi Hx. unfold put_stats. rewrite lookup_take_lt by done. by apply lookup_app_l_Some.
Qed.

(** the entry a channel of the device gets: its type, and its counters and those
    of its CAN or camera from the first place on *)
Definition entry_of (c : dev_chan) (e : stats_ch) : Prop :=
  full e /\
  match dc_dev c with
  | DevNone => sc_type e = 0
  | DevCan zcan => sc_type e = 1 /\ forall i x,
      (counters CHAN_STATS_NUM (zchan_stats (dc_zchan c)) ++ counters CAN_STATS_NUM (zcan_stats zcan)) !! i = Some x ->
      sc_stats e !! i = Some x
  | DevVideo v st => if link_up (caps v) =? 0 then sc_type e = 0 else sc_type e = 2 /\ forall i x,
      (counters CHAN_STATS_NUM (zchan_stats (dc_zchan c)) ++ counters VIDEO_STATS_NUM (video_stats st)) !! i = Some x ->
      sc_stats e !! i = Some x
  end.
Lemma counters_room n k (l1 l2 : list zynq_stats) i x : 0 <= n -> 0 <= k -> n + k <= ZYNQ_STATS_MAX ->
  (counters n l1 ++ counters k l2) !! i = Some x -> (i < Z.to_nat ZYNQ_STATS_MAX)%nat.
Proof.
  intros Hn Hk Hr E. apply lookup_lt_Some in E. unfold counters in E.
  rewrite length_app, !length_fmap, !length_take in E. lia.
Qed.

Lemma wp_stats_of_chan k c old w (Q : stats_ch -> world dev_ctx -> Prop) :
  kind_of (dc_dev c) = kind_for (zchan_type (dc_zchan c)) -> full old -> sc_type old = 0 ->
  (forall e w', entry_of c e -> calmly w w' -> Q e w') -> wp (stats_of_chan k c old) Q w.
Proof.
  intros Hk Hf Ht HQ. unfold stats_of_chan. apply wp_bind, wp_get. unfold entry_of in HQ.
  destruct (zchan_type (dc_zchan c)), (dc_dev c) as [|zcan|v st]; try discriminate Hk.
  - apply wp_ret, HQ; [by split | apply calmly_refl].
  - apply wp_ret, HQ; [| apply calmly_refl]. split; [by apply put_stats_full |]. split; [done |]. intros i x Hx.
    apply put_stats_lookup; [| exact Hx]. eapply counters_room; [..| exact Hx]; vm_compute; discriminate.
  - destruct (link_up (caps v) =? 0); [apply wp_ret, HQ; [by split | apply calmly_refl] |]. apply wp_bind, wp_ask. intros r _.
    apply wp_ret, HQ; [| by apply calmly_emit]. split; [by apply put_stats_full |]. split; [done |]. intros i x Hx.
    apply put_stats_lookup; [| exact Hx]. eapply counters_room; [..| exact Hx]; vm_compute; discriminate.
Qed.

Lemma wp_stats_of_chans n k chs w (Q : list stats_ch -> world dev_ctx -> Prop) :
  typed (w_st w) -> 0 <= k -> k + Z.of_nat n = Z.of_nat (length (dx_chans (w_st w))) ->
  Z.of_nat (length (dx_chans (w_st w))) <= ZYNQ_CHAN_MAX -> Z.of_nat (length chs) = ZYNQ_CHAN_MAX + 1 ->
  (forall i e, k <= Z.of_nat i < ZYNQ_CHAN_MAX -> chs !! i = Some e -> full e /\ sc_type e = 0) ->
  (forall t w', calmly w w' -> length t = length chs ->
     (forall i e, t !! i = Some e -> (Z.of_nat i < k \/ k + Z.of_nat n <= Z.of_nat i) -> chs !! i = Some e) ->
     (forall i c e, k <= Z.of_nat i -> dx_chans (w_st w) !! i = Some c -> t !! i = Some e -> entry_of c e) ->
     Q t w') ->
  wp (stats_of_chans n k chs) Q w.
Proof.
  revert k chs w. induction n as [|n IH]; intros k chs w Ht Hk Hn Hmax Hlen Hinit HQ; cbn [stats_of_chans].
  { apply wp_ret, HQ; [apply calmly_refl | done | done |]. intros i c e Hi Hc. apply lookup_lt_Some in Hc. lia. }
  unfold chan_at. apply wp_bind, wp_bind, wp_get.
  destruct (zlookup_Some (dx_chans (w_st w)) k) as [c Hc]; [lia |].
  apply wp_array_get. exists c. split; [exact Hc |]. apply wp_bind.
  destruct (zlookup_Some chs k) as [old Ho]; [lia |]. apply wp_array_get. exists old. split; [exact Ho |].
  rewrite zlookup_nonneg in Hc by done. rewrite zlookup_nonneg in Ho by done.
  destruct (Hinit (Z.to_nat k) old) as [Hf Hty]; [lia | done |]. apply wp_bind, wp_stats_of_chan; [| done | done |].
  { destruct (Ht (Z.to_nat k) (zchan_type (dc_zchan c)) (zchan_num (dc_zchan c)) (kind_of (dc_dev c))) as [_ ?]; [| done].
    unfold shapes. change (map ?f ?l) with (f <$> l). by rewrite list_lookup_fmap, Hc. }
  intros x w1 Hx C1. pose proof C1 as [Es _]. apply IH; rewrite ?Es, ?length_insert; [done | lia | lia | done | done | |].
  { intros i e Hi. rewrite list_lookup_insert_ne by lia. apply Hinit. lia. }
  intros t w2 C2 Hl Hout Hin. apply HQ; [by eapply calmly_trans | done | |].
  - intros i e He Hi. specialize (Hout i e He ltac:(lia)). by rewrite list_lookup_insert_ne in Hout by lia.
  - intros i c' e Hi Hc' He. destruct (decide (Z.of_nat i = k)) as [E|E]; [| by apply (Hin i c' e); [lia | ..]].
    assert (i = Z.to_nat k) as -> by lia. rewrite Hc in Hc'. injection Hc' as <-.
    specialize (Hout _ _ He ltac:(lia)). rewrite list_lookup_insert_eq in Hout by lia. by injection Hout as <-.
Qed.

(** on a device whose channels are typed, at most 16, the table can always be
    made: it has 17 full entries, one for each channel with that channel's
    counters, and the device's own in the last *)
Lemma stats_table_complete w :
  typed (w_st w) -> zdev_chan_cnt (dx_zdev (w_st w)) = Z.of_nat (length (dx_chans (w_st w))) ->
  zdev_chan_cnt (dx_zdev (w_st w)) <= ZYNQ_CHAN_MAX ->
  wp stats_table (fun t w' => calmly w w' /\ Z.of_nat (length t) = ZYNQ_CHAN_MAX + 1 /\
    (forall i c e, dx_chans (w_st w) !! i = Some c -> t !! i = Some e -> entry_of c e) /\
    (forall e i x, t !! Z.to_nat ZYNQ_CHAN_MAX = Some e ->
       counters DEV_STATS_NUM (zdev_stats (dx_zdev (w_st w))) !! i = Some x -> sc_stats e !! i = Some x)) w.
Proof.
  intros Ht Hc Hm. unfold stats_table. apply wp_bind, wp_get. set (dev := StatsCh _ _ _).
  apply wp_stats_of_chans; [done | lia | lia | lia | by rewrite length_insert, length_replicate | |].
  { intros i e Hi. rewrite list_lookup_insert_ne by (unfold ZYNQ_CHAN_MAX in *; lia).
    intros [-> _]%lookup_replicate. by split. }
  intros t w' Hw Hl Hout Hin. split; [done |]. split; [by rewrite Hl, length_insert, length_replicate |].
  split; [intros i c e Hci Hte; by apply (Hin i c e); [lia | ..] |].
  intros e i x He Hx. apply Hout in He; [| unfold ZYNQ_CHAN_MAX in *; lia].
  rewrite list_lookup_insert_eq in He by (rewrite length_replicate; unfold ZYNQ_CHAN_MAX; lia). injection He as <-.
  apply put_stats_lookup; [| exact Hx]. apply lookup_lt_Some in Hx. unfold counters in Hx.
  rewrite length_fmap, length_take in Hx. unfold DEV_STATS_NUM, DEV_STATS_INTR, ZYNQ_STATS_MAX in *. lia.
Qed.
End regdev_lemmas.

(** the offset is taken as it comes, whatever the length of the mapping *)
Module RegWitness.
Definition env_words : Env := fun _ c =>
  match c with UserWord _ i => [0; 0x7FFFFFFD; 5] !!! i | _ => 0 end.
#[local] Existing Instance params_default.
Definition dev0 : dev_ctx :=
  DevCtx (GpsCtx (zdev_sample<|zdev_bar0_len := 0x10000|>) MasterNone false false) [].
Example write_past_mapping :
  match reg_ioctl_write (H := env_words) 0x5000 (World [] [] dev0) with
  | Ret rc w => (rc, mmio_writes (w_log w)) = (0, [((BAR0, 0x7FFFFFFD), 5)])
  | _ => False
  end.
Proof. vm_compute. reflexivity. Qed.
End RegWitness.
