(* ===== verification/TrigLib.v ===== *)
(** * The trigger user library ([lib/adv_trigger/adv_trigger_ctl.c])

    The library finds out what camera a path names, opens the trigger devices
    and sends requests to them.  A call keeps its data in one structure on its
    stack; what outlives it are the file descriptors, which are state here: the
    use of a descriptor that is not open is a fault.  The kernel answers open,
    ioctl and the directory reads through [Env]; what the driver does with the
    requests is in [Trigger] and [VideoDev].  The log is not modelled. *)

From stdpp Require Import list strings.
From S2P Require Import Frames Api Device Video Trigger CanDev CamHci VideoDev.

(** ** Data *)
Definition CAMERA_TYPE_ALL : Z := 0.
Definition CAMERA_TYPE_FPD : Z := 1.
Definition PATH_LEN : Z := 128.
Definition FLAG_GPS_VALID : Z := Z.shiftl 1 0.
Definition FLAG_PPS_VALID : Z := Z.shiftl 1 1.

(** texts *)
Definition DRIVER_NAME_BASA : list Z := chars "basa".
Definition TRIGGER_DEV_PATH : list Z := chars "/dev/zynq_trigger".
Definition SYSFS_VIDEO : list Z := chars "video".
Definition SYSFS_VIDEO_PATH : list Z := chars "/sys/class/video4linux".
Definition SYSFS_VIDEO_DEV_DRV : list Z := chars "device/driver".

(** [type] has the unsigned type of its enumeration *)
Record adv_trigger := AdvTrigger {
  at_video_path : option (list Z);
  at_type : Z;
  at_vnum : Z;
  at_index : Z;
  at_zdev_index : Z;
  at_fpd_num : Z;
  at_vfd : Z;
  at_zfd : list Z
}.
#[global] Instance adv_trigger_eta : Eta adv_trigger := fun r =>
  AdvTrigger (at_video_path r) (at_type r) (at_vnum r) (at_index r) (at_zdev_index r)
    (at_fpd_num r) (at_vfd r) (at_zfd r).

(** the structure of the running call, and the descriptors of the process *)
Record trl_ctx := TrlCtx { tl_at : adv_trigger; tl_fds : list Z }.
#[global] Instance trl_ctx_eta : Eta trl_ctx := fun r => TrlCtx (tl_at r) (tl_fds r).

(** the status of one trigger device; the triggers as they are in memory *)
Record dev_status := DevStatus { st_flags : Z; st_zdev_name : list Z; st_fpd_triggers : list Z }.
#[global] Instance dev_status_eta : Eta dev_status := fun r =>
  DevStatus (st_flags r) (st_zdev_name r) (st_fpd_triggers r).

(** ** Texts *)

(** [strrchr(s, '/')] and what follows it, or the whole text *)
Fixpoint until_slash (s : list Z) : list Z :=
  match s with [] => [] | c :: s' => if c =? 47 then [] else c :: until_slash s' end.
Definition file_name (s : list Z) : list Z := rev (until_slash (rev s)).

(** [sscanf(s, "video%d", &n) == 1] *)
Fixpoint strip (p s : list Z) : option (list Z) :=
  match p, s with
  | [], _ => Some s
  | c :: p', d :: s' => if c =? d then strip p' s' else None
  | _ :: _, [] => None
  end.
Definition isdigit (c : Z) : bool := (48 <=? c) && (c <=? 57).
Definition isspace (c : Z) : bool := (c =? 32) || ((9 <=? c) && (c <=? 13)).
Fixpoint skip_spaces (s : list Z) : list Z :=
  match s with [] => [] | c :: s' => if isspace c then skip_spaces s' else s end.
Fixpoint read_digits (acc : Z) (s : list Z) : Z :=
  match s with [] => acc | c :: s' => if isdigit c then read_digits (10 * acc + (c - 48)) s' else acc end.
(** the value saturates as a [long] before it is stored as an [int] *)
Definition scan_unsigned (neg : bool) (s : list Z) : option Z :=
  match s with
  | c :: _ =>
      if isdigit c then
        let v := read_digits 0 s in
        Some (s32 (Z.max (- 2 ^ 63) (Z.min (2 ^ 63 - 1) (if neg then - v else v))))
      else None
  | [] => None
  end.
Definition scan_d (s : list Z) : option Z :=
  match skip_spaces s with
  | c :: s' =>
      if c =? 45 then scan_unsigned true s' else if c =? 43 then scan_unsigned false s'
      else scan_unsigned false (c :: s')
  | [] => None
  end.
Definition scan_video_num (s : list Z) : option Z := s' ← strip SYSFS_VIDEO s; scan_d s'.

Definition S_ISLNK (mode : Z) : bool := Z.land mode 0xF000 =? 0xA000.

(** the structures passed to the requests *)
Definition trigger_arg (fps internal : Z) : list Z :=
  trigger_bytes (trigger_zero<|trig_fps := fps|><|trig_internal := internal|>).
Definition no_triggers : list Z :=
  concat (replicate (Z.to_nat ZYNQ_FPD_TRIG_NUM) (trigger_bytes (trigger_zero<|trig_vnum := -1|>))).
Definition dev_status_zero : dev_status :=
  DevStatus 0 (replicate (Z.to_nat ZYNQ_DEV_NAME_LEN) 0) no_triggers.

Definition adv_trigger_device_type (driver : list Z) : Z :=
  if decide (driver = DRIVER_NAME_BASA) then CAMERA_TYPE_FPD else -1.

(** the open descriptors without one of them *)
Fixpoint take_out (fd : Z) (l : list Z) : option (list Z) :=
  match l with
  | [] => None
  | x :: l' => if x =? fd then Some l' else cons x <$> take_out fd l'
  end.
Definition VIDIOC_QUERYCAP : Z := _IOR 86 0 104.

Section trl.
Context `{Env}.

(** ** The calls of the system *)
Definition file_open (path : list Z) : M trl_ctx Z :=
  fd ← ask (KernelCall "open" path);
  if s32 fd <? 0 then mret (-1)
  else modify (fun s => s<|tl_fds ::= cons (s32 fd)|>);; mret (s32 fd).
Definition file_close (fd : Z) : M trl_ctx unit :=
  s ← get;
  fds ← of_option Dangling (take_out fd (tl_fds s));
  tell (KernelCall "close" [fd]);;
  modify (fun s => s<|tl_fds := fds|>).
Definition file_ioctl (fd cmd : Z) (data : list Z) : M trl_ctx Z :=
  s ← get;
  if decide (fd ∈ tl_fds s) then s32 <$> ask (KernelCall "ioctl" (fd :: cmd :: data))
  else fail Dangling.

(** [n] bytes, or words, that the kernel has stored *)
Fixpoint filled (what : string) (i : Z) (n : nat) : M trl_ctx (list Z) :=
  match n with
  | O => mret []
  | S n' => x ← ask (KernelCall what [i]); l ← filled what (i + 1) n'; mret (u8 x :: l)
  end.
Definition filled_word (what : string) : M trl_ctx Z := u32 <$> ask (KernelCall what []).

(** [lstat] leaves the mode as it was when it fails *)
Definition file_mode (path : list Z) : M trl_ctx Z :=
  rc ← ask (KernelCall "lstat" path);
  if rc =? 0 then filled_word "st_mode" else uninit "st.st_mode".
(** [readlink] into a buffer of zeros, its last byte kept *)
Definition file_link (path : list Z) : M trl_ctx (option (list Z)) :=
  ret ← ask (KernelCall "readlink" path);
  if s32 ret <? 0 then mret None
  else
    l ← filled "link" 0 (Z.to_nat (Z.min (s32 ret) (PATH_LEN - 1)));
    mret (Some (c_text l)).

Definition upd_at (f : adv_trigger -> adv_trigger) : M trl_ctx unit := modify (fun s => s<|tl_at ::= f|>).
Definition get_at : M trl_ctx adv_trigger := gets tl_at.

(** ** Finding cameras *)
Definition adv_trigger_scan_video (video_name : list Z) : M trl_ctx Z :=
  let path := SYSFS_VIDEO_PATH ++ [47] ++ video_name ++ [47] ++ SYSFS_VIDEO_DEV_DRV in
  driver ← file_link (take (Z.to_nat (PATH_LEN - 1)) path);
  match driver with
  | None => mret (-1)
  | Some driver =>
      let type := adv_trigger_device_type (file_name driver) in
      (if type =? CAMERA_TYPE_FPD then upd_at (fun a => a<|at_fpd_num ::= fun n => s32 (n + 1)|>) else mret tt);;
      mret 0
  end.

(** one round of the loop over the directory *)
Definition scan_entry (ret : Z) : M trl_ctx (Z + Z) :=
  ent ← ask (KernelCall "readdir" []);
  if ent =? 0 then mret (inr ret)
  else
    name ← c_text <$> filled "d_name" 0 256;
    mode ← file_mode name;
    if S_ISLNK mode then
      ret ← adv_trigger_scan_video name;
      mret (if negb (ret =? 0) then inr ret else inl ret)
    else mret (inl ret).
Definition adv_trigger_scan_sysfs (fuel : nat) : M trl_ctx Z :=
  dp ← ask (KernelCall "opendir" SYSFS_VIDEO_PATH);
  if dp =? 0 then mret (-1)
  else
    cwd ← ask (KernelCall "getcwd" []);
    rc ← ask (KernelCall "chdir" SYSFS_VIDEO_PATH);
    if negb (rc =? 0) then tell (KernelCall "closedir" [dp]);; mret (-1)
    else
      ret ← loop fuel scan_entry 0;
      (if negb (cwd =? 0) then tell (KernelCall "chdir" [cwd]);; tell (KFree cwd) else mret tt);;
      tell (KernelCall "closedir" [dp]);;
      mret ret.

(** ** The structure of a call *)
Definition adv_trigger_params_init : M trl_ctx unit :=
  upd_at (fun _ => AdvTrigger None 0 0 0 0 0 0 (replicate (Z.to_nat ZYNQ_TRIGGER_DEV_NUM) (-1))).
Definition adv_trigger_fini : M trl_ctx unit :=
  for_ (Z.to_nat ZYNQ_TRIGGER_DEV_NUM) 0 (fun i =>
    a ← get_at;
    fd ← array_get (at_zfd a) i;
    if fd <? 0 then mret tt else file_close fd);;
  a ← get_at;
  if 0 <=? at_vfd a then file_close (at_vfd a) else mret tt.

(** the number of the camera, from the name of its device *)
Definition vdev_number (video_path : list Z) : M trl_ctx Z :=
  mode ← file_mode video_path;
  target ← (if S_ISLNK mode then file_link video_path else mret (Some video_path));
  match target with
  | None => mret (-1)
  | Some path =>
      match scan_video_num (file_name path) with
      | None => mret (-1)
      | Some n => upd_at (fun a => a<|at_vnum := n|>);; mret 0
      end
  end.
Definition adv_trigger_vdev_init (video_path : option (list Z)) : M trl_ctx Z :=
  upd_at (fun a => a<|at_video_path := video_path|><|at_type := CAMERA_TYPE_ALL|>
    <|at_vnum := -1|><|at_vfd := -1|>);;
  match video_path with
  | None => mret 0
  | Some video_path =>
      fd ← file_open video_path;
      if fd <? 0 then mret (-1)
      else
        rc ← file_ioctl fd VIDIOC_QUERYCAP [];
        if negb (rc =? 0) then file_close fd;; mret (-1)
        else
          driver ← c_text <$> filled "caps.driver" 0 16;
          upd_at (fun a => a<|at_type := u32 (adv_trigger_device_type driver)|>);;
          a ← get_at;
          if at_type a <? 0 then file_close fd;; mret (-1)
          else
            upd_at (fun a => a<|at_vfd := fd|>);;
            vdev_number video_path
  end.

(** the devices from [n - 1] down to 0; the last descriptor opened *)
Fixpoint zdev_open (n : nat) (zfd : Z) : M trl_ctx Z :=
  match n with
  | O => mret zfd
  | S i =>
      fd ← file_open (TRIGGER_DEV_PATH ++ fmt_d (Z.of_nat i));
      if 0 <=? fd then upd_at (fun a => a<|at_zfd ::= <[i := fd]>|>);; zdev_open i fd
      else zdev_open i zfd
  end.
Definition adv_trigger_zdev_init : M trl_ctx Z := zdev_open (Z.to_nat ZYNQ_TRIGGER_DEV_NUM) (-1).

Definition adv_trigger_init (fuel : nat) (video_path : option (list Z)) : M trl_ctx Z :=
  adv_trigger_params_init;;
  rc ← adv_trigger_vdev_init video_path;
  if negb (rc =? 0) then mret (-1)
  else
    a ← get_at;
    if at_type a =? CAMERA_TYPE_FPD then mret 0
    else
      zfd ← adv_trigger_zdev_init;
      if zfd <? 0 then adv_trigger_fini;; mret (-1)
      else
        rc ← adv_trigger_scan_sysfs fuel;
        if negb (rc =? 0) then adv_trigger_fini;; mret (-1) else mret 0.

(** ** Enabling and disabling *)
Definition adv_trigger_enable_fpd (fps internal : Z) : M trl_ctx Z :=
  a ← get_at;
  rc ← file_ioctl (at_vfd a) ZYNQ_IOC_TRIGGER_ENABLE_ONE (trigger_arg fps internal);
  mret (if negb (rc =? 0) then -1 else 0).
Definition adv_trigger_disable_fpd : M trl_ctx Z :=
  a ← get_at;
  rc ← file_ioctl (at_vfd a) ZYNQ_IOC_TRIGGER_DISABLE_ONE [];
  mret (if negb (rc =? 0) then -1 else 0).

(** the loop over the open devices, up to the first that refuses *)
Fixpoint send_each (zfd : list Z) (cmd : Z) (data : list Z) (ret : Z) : M trl_ctx Z :=
  match zfd with
  | [] => mret ret
  | fd :: zfd =>
      if fd <? 0 then send_each zfd cmd data ret
      else
        ret ← file_ioctl fd cmd data;
        if negb (ret =? 0) then mret ret else send_each zfd cmd data ret
  end.
Definition adv_trigger_enable_all (fps internal : Z) : M trl_ctx Z :=
  a ← get_at;
  ret ← send_each (at_zfd a) ZYNQ_IOC_TRIGGER_ENABLE (trigger_arg fps internal) (-1);
  mret (if negb (ret =? 0) then -1 else 0).
Definition adv_trigger_disable_all : M trl_ctx Z :=
  a ← get_at;
  ret ← send_each (at_zfd a) ZYNQ_IOC_TRIGGER_DISABLE [] (-1);
  mret (if negb (ret =? 0) then -1 else 0).

(** between set-up and release, by the type of the camera *)
Definition with_trigger (fuel : nat) (video_path : option (list Z)) (fpd all : M trl_ctx Z) : M trl_ctx Z :=
  ret ← adv_trigger_init fuel video_path;
  if negb (ret =? 0) then mret ret
  else
    a ← get_at;
    ret ← (if at_type a =? CAMERA_TYPE_FPD then fpd else all);
    adv_trigger_fini;;
    mret ret.
Definition adv_trigger_enable (fuel : nat) (video_path : option (list Z)) (fps internal : Z) : M trl_ctx Z :=
  with_trigger fuel video_path (adv_trigger_enable_fpd fps internal) (adv_trigger_enable_all fps internal).
Definition adv_trigger_disable (fuel : nat) (video_path : option (list Z)) : M trl_ctx Z :=
  with_trigger fuel video_path adv_trigger_disable_fpd adv_trigger_disable_all.

(** ** Status *)

(** a status bit of the device, as a flag *)
Definition status_flag (fd cmd flag : Z) (st : dev_status) : M trl_ctx (Z * dev_status) :=
  ret ← file_ioctl fd cmd [];
  if negb (ret =? 0) then mret (ret, st)
  else
    result ← filled_word "result";
    mret (ret, if negb (result =? 0) then st<|st_flags ::= fun f => Z.lor f flag|> else st).
Definition dev_status_of (fpd_num fd : Z) (st : dev_status) : M trl_ctx (Z * dev_status) :=
  ret ← file_ioctl fd ZYNQ_IOC_TRIGGER_DEV_NAME [];
  name ← filled "zdev_name" 0 (Z.to_nat ZYNQ_DEV_NAME_LEN);
  let st := st<|st_zdev_name := name|> in
  if negb (ret =? 0) then mret (ret, st)
  else
    '(ret, st) ← status_flag fd ZYNQ_IOC_TRIGGER_STATUS_GPS FLAG_GPS_VALID st;
    if negb (ret =? 0) then mret (ret, st)
    else
      '(ret, st) ← status_flag fd ZYNQ_IOC_TRIGGER_STATUS_PPS FLAG_PPS_VALID st;
      if negb (ret =? 0) then mret (ret, st)
      else if 0 <? fpd_num then
        ret ← file_ioctl fd ZYNQ_IOC_TRIGGER_STATUS [];
        triggers ← filled "fpd_triggers" 0 (Z.to_nat (sizeof_trigger * ZYNQ_FPD_TRIG_NUM));
        mret (ret, st<|st_fpd_triggers := triggers|>)
      else mret (ret, st).
Fixpoint status_each (fpd_num : Z) (zfd : list Z) (s : list dev_status) (ret : Z)
  : M trl_ctx (Z * list dev_status) :=
  match zfd, s with
  | fd :: zfd, st :: s =>
      if fd <? 0 then
        '(ret, s) ← status_each fpd_num zfd s ret;
        mret (ret, st<|st_zdev_name ::= <[0%nat := 0]>|> :: s)
      else
        '(ret, st) ← dev_status_of fpd_num fd st;
        if negb (ret =? 0) then mret (ret, st :: s)
        else
          '(ret, s) ← status_each fpd_num zfd s ret;
          mret (ret, st :: s)
  | _, _ => mret (ret, s)
  end.
(** the result, and the structure of the caller *)
Definition adv_trigger_get_status (fuel : nat) : M trl_ctx (Z * list dev_status) :=
  let s := replicate (Z.to_nat ZYNQ_TRIGGER_DEV_NUM) dev_status_zero in
  ret ← adv_trigger_init fuel None;
  if negb (ret =? 0) then mret (ret, s)
  else
    a ← get_at;
    '(ret, s) ← status_each (at_fpd_num a) (at_zfd a) s ret;
    adv_trigger_fini;;
    mret (ret, s).

(** ** Delay: the result, and what is stored through the two pointers *)
Definition delay_set (vfd vnum action trigger_delay : Z) : M trl_ctx (Z * Z) :=
  if action =? 1 then
    exposure ← uninit "delay_arg.exposure_time";
    status ← file_ioctl vfd ZYNQ_IOC_TRIGGER_DELAY_SET [u32 vnum; trigger_delay; exposure];
    mret (if status =? 0 then 0 else -1, trigger_delay)
  else
    delay ← uninit "delay_arg.trigger_delay";
    mret (0, delay).
Definition adv_trigger_delay_fpd (action trigger_delay : Z) : M trl_ctx (Z * option (Z * Z)) :=
  a ← get_at;
  '(ret, delay) ← delay_set (at_vfd a) (at_vnum a) action trigger_delay;
  status ← file_ioctl (at_vfd a) ZYNQ_IOC_TRIGGER_DELAY_GET [u32 (at_vnum a); delay];
  if status =? 0 then
    delay ← filled_word "delay_arg.trigger_delay";
    exp_time ← filled_word "delay_arg.exposure_time";
    mret (ret, Some (delay, exp_time))
  else mret (-1, None).
Definition adv_trigger_delay_ctl (video_path : option (list Z)) (action trigger_delay : Z)
  : M trl_ctx (Z * option (Z * Z)) :=
  adv_trigger_params_init;;
  rc ← adv_trigger_vdev_init video_path;
  if negb (rc =? 0) then mret (-1, None)
  else
    a ← get_at;
    r ← (if at_type a =? CAMERA_TYPE_FPD then adv_trigger_delay_fpd action trigger_delay else mret (-1, None));
    adv_trigger_fini;;
    mret r.
End trl.

(** ** Specification *)

(** the requests that switch triggers, with their answers, newest first *)
Definition trigger_cmds : list Z :=
  [ZYNQ_IOC_TRIGGER_ENABLE; ZYNQ_IOC_TRIGGER_DISABLE; ZYNQ_IOC_TRIGGER_ENABLE_ONE; ZYNQ_IOC_TRIGGER_DISABLE_ONE].
Record request := Request { rq_fd : Z; rq_cmd : Z; rq_data : list Z; rq_ret : Z }.
Definition request_of (e : event) : option request :=
  match ev_call e with
  | KernelCall n (fd :: cmd :: data) =>
      if String.eqb n "ioctl" && bool_decide (cmd ∈ trigger_cmds) then Some (Request fd cmd data (s32 (ev_ret e)))
      else None
  | _ => None
  end.
Definition requests (log : list event) : list request := omap request_of log.

(** entries read from the directory opened last; a directory has at most [n] *)
Definition is_named (name : string) (e : event) : bool :=
  match ev_call e with KernelCall n _ => String.eqb n name | _ => false end.
Fixpoint entries_read (log : list event) : nat :=
  match log with
  | [] => 0%nat
  | e :: log =>
      if is_named "readdir" e then S (entries_read log)
      else if is_named "opendir" e then 0%nat else entries_read log
  end.
Definition dir_ends `{Env} (n : nat) : Prop :=
  forall log, (n <= entries_read log)%nat -> env_ret log (KernelCall "readdir" []) = 0.

Definition usable (fd : Z) : Prop := 0 <= fd.
#[global] Instance usable_dec fd : Decision (usable fd).
Proof. unfold usable. apply _. Defined.
(** the descriptors a structure holds *)
Definition held_video (a : adv_trigger) : list Z := filter usable [at_vfd a].
Definition held_trig (a : adv_trigger) : list Z := filter usable (at_zfd a).

(** the calls of the library *)
Inductive trl_op :=
| TEnable (path : option (list Z)) (fps internal : Z)
| TDisable (path : option (list Z))
| TStatus
| TDelay (path : option (list Z)) (action delay : Z).
Definition run_trl `{Env} (fuel : nat) (op : trl_op) : M trl_ctx Z :=
  match op with
  | TEnable path fps internal => adv_trigger_enable fuel path fps internal
  | TDisable path => adv_trigger_disable fuel path
  | TStatus => fst <$> adv_trigger_get_status fuel
  | TDelay path action delay => fst <$> adv_trigger_delay_ctl path action delay
  end.
Definition op_path (op : trl_op) : option (list Z) :=
  match op with TEnable p _ _ | TDisable p | TDelay p _ _ => p | TStatus => None end.
(** the request of an operation to one camera, and to a trigger device *)
Definition op_requests (op : trl_op) : option (Z * Z * list Z) :=
  match op with
  | TEnable _ fps internal =>
      Some (ZYNQ_IOC_TRIGGER_ENABLE_ONE, ZYNQ_IOC_TRIGGER_ENABLE, trigger_arg fps internal)
  | TDisable _ => Some (ZYNQ_IOC_TRIGGER_DISABLE_ONE, ZYNQ_IOC_TRIGGER_DISABLE, [])
  | _ => None
  end.

(** the request goes to the targets in order: to all of them with success, or up
    to the first that refuses *)
Definition sent_to (targets : list Z) (cmd : Z) (data : list Z) (rc : Z) (reqs : list request) : Prop :=
  rc = 0 /\ targets <> [] /\ reqs = map (fun fd => Request fd cmd data 0) targets \/
  rc = -1 /\ exists before fd after r, targets = before ++ fd :: after /\ r <> 0 /\
    reqs = map (fun fd => Request fd cmd data 0) before ++ [Request fd cmd data r].

(** an answer by which the kernel refuses what the library needs: the camera, a
    request, a link, the directory *)
Definition refusal (path : option (list Z)) (e : event) : bool :=
  match ev_call e with
  | KernelCall n args =>
      (String.eqb n "open" && bool_decide (Some args = path) && (s32 (ev_ret e) <? 0)) ||
      (String.eqb n "ioctl" && negb (s32 (ev_ret e) =? 0)) ||
      (String.eqb n "readlink" && (s32 (ev_ret e) <? 0)) ||
      (String.eqb n "opendir" && (ev_ret e =? 0)) ||
      (String.eqb n "chdir" && negb (ev_ret e =? 0))
  | _ => false
  end.
Definition grows (w w' : world trl_ctx) : Prop := exists evs, w_log w' = evs ++ w_log w.
Definition refused (path : option (list Z)) (w w' : world trl_ctx) : Prop :=
  exists evs, w_log w' = evs ++ w_log w /\ Exists (fun e => refusal path e = true) evs.
(** the causes for which nothing is sent: a refusal, a camera without number, or
    no trigger device *)
Definition unprepared (path : option (list Z)) (w w' : world trl_ctx) : Prop :=
  let a := tl_at (w_st w') in
  refused path w w' \/ path <> None /\ at_vnum a = -1 \/ at_type a <> CAMERA_TYPE_FPD /\ held_trig a = [].

(** what an operation sends, given the structure it used *)
Definition op_sent (op : trl_op) (w w' : world trl_ctx) (rc : Z) (reqs : list request) : Prop :=
  let a := tl_at (w_st w') in
  match op_requests op with
  | None => reqs = []
  | Some (one, all, data) =>
      rc = -1 /\ reqs = [] /\ unprepared (op_path op) w w' \/
      (if at_type a =? CAMERA_TYPE_FPD then sent_to [at_vfd a] one data rc reqs
       else sent_to (held_trig a) all data rc reqs)
  end.
(** the descriptors at the end: those of the beginning, or one lost, that of a
    camera whose number could not be found *)
Definition settled (path : option (list Z)) (w w' : world trl_ctx) : Prop :=
  tl_fds (w_st w') ≡ₚ tl_fds (w_st w) \/
  path <> None /\ at_vnum (tl_at (w_st w')) = -1 /\
    tl_fds (w_st w') ≡ₚ at_vfd (tl_at (w_st w')) :: tl_fds (w_st w).

(** ** Lemmas *)

Lemma take_out_perm fd l k : l ≡ₚ fd :: k -> exists k', take_out fd l = Some k' /\ k' ≡ₚ k.
Proof.
  revert k. induction l as [|x l IH]; intros k Hl; [by apply Permutation_nil_cons in Hl |].
  cbn. destruct (Z.eqb_spec x fd) as [->|Hx].
  - exists l. split; [done |]. by apply Permutation_cons_inv in Hl.
  - assert (fd ∈ l) as Hin.
    { assert (fd ∈ x :: l) as Hf by (rewrite Hl; left). by apply elem_of_cons in Hf as [?|]. }
    apply elem_of_Permutation in Hin as [l' Hl']. destruct (IH l' Hl') as (k' & E & Hk').
    exists (x :: k'). rewrite E. split; [done |]. rewrite Hl', Permutation_swap in Hl.
    apply Permutation_cons_inv in Hl. by rewrite Hk'.
Qed.

(** a descriptor put where there was none *)
Lemma usable_insert (l : list Z) i fd :
  l !! i = Some (-1) -> usable fd -> filter usable (<[i:=fd]> l) ≡ₚ fd :: filter usable l.
Proof.
  intros Hi Hfd. pose proof (lookup_lt_Some _ _ _ Hi) as Hlt.
  rewrite insert_take_drop by done. rewrite <- (take_drop_middle l i (-1) Hi) at 3.
  rewrite !filter_app, filter_cons_True, (filter_cons_False _ (-1)) by (done || (unfold usable; lia)).
  solve_Permutation.
Qed.

(** events that neither send a request nor read a directory *)
Definition dull (e : event) : Prop :=
  request_of e = None /\ is_named "readdir" e = false /\ is_named "opendir" e = false.
Lemma dull_log evs log : Forall dull evs ->
  requests (evs ++ log) = requests log /\ entries_read (evs ++ log) = entries_read log.
Proof.
  unfold requests. induction 1 as [|e evs (Hr & Hd & Ho) _ [IHr IHe]]; [done |]. cbn.
  by rewrite Hr, Hd, Ho, IHr, IHe.
Qed.

(** [w'] follows [w] by such events and has the state [s] *)
Definition moved (w : world trl_ctx) (s : trl_ctx) (w' : world trl_ctx) : Prop :=
  w_st w' = s /\ exists evs, w_log w' = evs ++ w_log w /\ Forall dull evs.
Lemma moved_refl w : moved w (w_st w) w.
Proof. split; [done |]. by exists []. Qed.
Lemma moved_trans w s v s' v' : moved w s v -> moved v s' v' -> moved w s' v'.
Proof.
  intros (_ & e1 & L1 & F1) (Hs & e2 & L2 & F2). split; [done |]. exists (e2 ++ e1).
  rewrite L2, L1, app_assoc. split; [done |]. by apply Forall_app.
Qed.
Lemma moved_emit w s v e : dull e -> moved w s v -> moved w s (emit e v).
Proof.
  intros He (Hs & evs & L & F). split; [done |]. exists (e :: evs). split; [by cbn; rewrite L | by constructor].
Qed.
Lemma moved_state w s v s' : moved w s v -> moved w s' (World (w_log v) (w_held v) s').
Proof. intros (_ & evs & L & F). split; [done |]. by exists evs. Qed.
Lemma moved_log w s v : moved w s v ->
  requests (w_log v) = requests (w_log w) /\ entries_read (w_log v) = entries_read (w_log w).
Proof. intros (_ & evs & -> & F). by apply dull_log. Qed.

Lemma moved_grows w s v : moved w s v -> grows w v.
Proof. intros (_ & evs & L & _). by exists evs. Qed.
Lemma grows_refl w : grows w w.
Proof. by exists []. Qed.
Lemma grows_trans w v v' : grows w v -> grows v v' -> grows w v'.
Proof. intros (e1 & L1) (e2 & L2). exists (e2 ++ e1). by rewrite L2, L1, app_assoc. Qed.
(** a refusal on the way is a refusal *)
Lemma refused_later p w v v' : refused p w v -> grows v v' -> refused p w v'.
Proof.
  intros (e1 & L1 & R) (e2 & L2). exists (e2 ++ e1). rewrite L2, L1, app_assoc. split; [done |].
  apply Exists_app. by right.
Qed.
Lemma refused_sooner p w v v' : grows w v -> refused p v v' -> refused p w v'.
Proof.
  intros (e1 & L1) (e2 & L2 & R). exists (e2 ++ e1). rewrite L2, L1, app_assoc. split; [done |].
  apply Exists_app. by left.
Qed.
Lemma refused_now p w e : refusal p e = true -> refused p w (emit e w).
Proof. intros He. exists [e]. split; [done |]. by constructor. Qed.

Section trl_lemmas.
Context `{Env}.
Implicit Types w v : world trl_ctx.

(** code that leaves the state alone and makes dull calls only *)
Definition peeks {A} (m : M trl_ctx A) : Prop :=
  forall w (Q : A -> world trl_ctx -> Prop), (forall a w', moved w (w_st w) w' -> Q a w') -> wp m Q w.
Definition dull_call (c : call) : Prop := forall r, dull (Ev c r).

Lemma peeks_ret {A} (a : A) : peeks (mret a).
Proof. intros w Q HQ. apply wp_ret, HQ, moved_refl. Qed.
Lemma peeks_bind {A B} (m : M trl_ctx A) (f : A -> M trl_ctx B) :
  peeks m -> (forall a, peeks (f a)) -> peeks (m ≫= f).
Proof.
  intros Hm Hf w Q HQ. apply wp_bind, Hm. intros a v Hv. apply Hf. intros b v' Hv'. apply HQ.
  eapply moved_trans; [exact Hv |]. by rewrite (proj1 Hv) in Hv'.
Qed.
Lemma peeks_fmap {A B} (m : M trl_ctx A) (f : A -> B) : peeks m -> peeks (f <$> m).
Proof. intros Hm. apply peeks_bind; [done | intros a; apply peeks_ret]. Qed.
Lemma peeks_ask c : dull_call c -> peeks (ask c).
Proof. intros Hc w Q HQ. apply wp_ask. intros r _. apply HQ, moved_emit, moved_refl. apply Hc. Qed.
Lemma peeks_tell c : dull_call c -> peeks (tell c).
Proof. intros Hc w Q HQ. apply wp_tell. apply HQ, moved_emit, moved_refl. apply Hc. Qed.
Lemma dull_named name args :
  String.eqb name "ioctl" = false -> String.eqb name "readdir" = false -> String.eqb name "opendir" = false ->
  dull_call (KernelCall name args).
Proof.
  intros E1 E2 E3 r. unfold dull, request_of, is_named. cbn. rewrite E1, E2, E3.
  by destruct args as [|? []].
Qed.
Create HintDb trl.
#[local] Hint Extern 1 (dull_call (KernelCall _ _)) => by apply dull_named : trl.
#[local] Hint Extern 1 (dull_call (KFree _)) => intros ?; by split_and! : trl.
#[local] Hint Resolve peeks_ret peeks_bind peeks_fmap peeks_ask peeks_tell : trl.

Lemma peeks_filled what i n :
  String.eqb what "ioctl" = false -> String.eqb what "readdir" = false -> String.eqb what "opendir" = false ->
  peeks (filled what i n).
Proof.
  intros E1 E2 E3. revert i. induction n as [|n IH]; intros i; cbn [filled]; [apply peeks_ret |].
  apply peeks_bind; [by apply peeks_ask, dull_named |]. intros x. apply peeks_bind; [apply IH |].
  intros l. apply peeks_ret.
Qed.
#[local] Hint Extern 1 (peeks (filled _ _ _)) => by apply peeks_filled : trl.
Lemma peeks_word what :
  String.eqb what "ioctl" = false -> String.eqb what "readdir" = false -> String.eqb what "opendir" = false ->
  peeks (filled_word what).
Proof. intros. by apply peeks_fmap, peeks_ask, dull_named. Qed.
#[local] Hint Extern 1 (peeks (filled_word _)) => by apply peeks_word : trl.
Lemma peeks_uninit name :
  String.eqb name "ioctl" = false -> String.eqb name "readdir" = false -> String.eqb name "opendir" = false ->
  peeks (uninit name).
Proof. intros. apply peeks_bind; [by apply peeks_ask, dull_named | auto with trl]. Qed.
#[local] Hint Extern 1 (peeks (uninit _)) => by apply peeks_uninit : trl.
Lemma peeks_mode path : peeks (file_mode path).
Proof. apply peeks_bind; [auto with trl |]. intros rc. destruct (rc =? 0); auto with trl. Qed.
Lemma peeks_link path : peeks (file_link path).
Proof.
  apply peeks_bind; [auto with trl |]. intros ret. destruct (s32 ret <? 0); [auto with trl |].
  apply peeks_bind; auto with trl.
Qed.
#[local] Hint Resolve peeks_mode peeks_link : trl.

Lemma wp_peeks {A} (m : M trl_ctx A) w (Q : A -> world trl_ctx -> Prop) :
  peeks m -> (forall a w', moved w (w_st w) w' -> Q a w') -> wp m Q w.
Proof. intros Hm. apply Hm. Qed.

(** a link that cannot be read is a refusal *)
Lemma wp_link path w (Q : option (list Z) -> world trl_ctx -> Prop) :
  (forall w', moved w (w_st w) w' -> (forall p, refused p w w') -> Q None w') ->
  (forall l w', moved w (w_st w) w' -> Q (Some l) w') -> wp (file_link path) Q w.
Proof.
  intros Hno Hyes. unfold file_link. apply wp_bind, wp_ask. intros r _.
  pose proof (moved_emit w _ w _ (dull_named "readlink" path eq_refl eq_refl eq_refl r) (moved_refl w)) as Hv.
  destruct (Z.ltb_spec (s32 r) 0) as [Hneg|].
  - apply wp_ret, Hno; [exact Hv |]. intros p. apply refused_now. unfold refusal. cbn.
    by rewrite (proj2 (Z.ltb_lt _ _) Hneg).
  - apply wp_bind, wp_peeks; [auto with trl |]. intros l v Hl. apply wp_ret, Hyes.
    by apply (moved_trans _ _ _ _ _ Hv).
Qed.

(** *** Descriptors *)
Definition with_fds (fds : list Z) (s : trl_ctx) : trl_ctx := TrlCtx (tl_at s) fds.
Definition with_at (a : adv_trigger) (s : trl_ctx) : trl_ctx := TrlCtx a (tl_fds s).

Lemma wp_file_open path w (Q : Z -> world trl_ctx -> Prop) :
  (forall w', moved w (w_st w) w' -> refused (Some path) w w' -> Q (-1) w') ->
  (forall fd w', usable fd -> moved w (with_fds (fd :: tl_fds (w_st w)) (w_st w)) w' -> Q fd w') ->
  wp (file_open path) Q w.
Proof.
  intros Hno Hyes. unfold file_open. apply wp_bind, wp_ask. intros r _.
  pose proof (moved_emit w _ w _ (dull_named "open" path eq_refl eq_refl eq_refl r) (moved_refl w)) as Hv.
  destruct (Z.ltb_spec (s32 r) 0) as [Hneg|].
  { apply wp_ret, Hno; [exact Hv |]. apply refused_now. unfold refusal. cbn.
    rewrite bool_decide_eq_true_2 by done. by rewrite (proj2 (Z.ltb_lt _ _) Hneg). }
  apply wp_bind, wp_modify, wp_ret, Hyes; [done |]. pose proof (proj1 Hv) as Es. rewrite Es.
  destruct (w_st w). by eapply moved_state.
Qed.
Lemma wp_file_close fd fds w (Q : unit -> world trl_ctx -> Prop) :
  tl_fds (w_st w) ≡ₚ fd :: fds ->
  (forall fds' w', fds' ≡ₚ fds -> moved w (with_fds fds' (w_st w)) w' -> Q tt w') ->
  wp (file_close fd) Q w.
Proof.
  intros Hin HQ. unfold file_close. destruct (take_out_perm _ _ _ Hin) as (fds' & E & Hp).
  apply wp_bind, wp_get. rewrite E. apply wp_bind, wp_ret, wp_bind, wp_tell, wp_modify.
  apply (HQ fds'); [done |]. set (e := Ev _ 0).
  pose proof (dull_named "close" [fd] eq_refl eq_refl eq_refl 0 : dull e) as He. pose proof (moved_emit w _ w e He (moved_refl w)) as Hm.
  destruct w as [l h [a f]]. exact (moved_state _ _ _ _ Hm).
Qed.

(** a request: recorded when it switches triggers *)
Lemma wp_file_ioctl fd cmd data w (Q : Z -> world trl_ctx -> Prop) :
  fd ∈ tl_fds (w_st w) ->
  (forall r w', w_st w' = w_st w ->
     requests (w_log w') = (if decide (cmd ∈ trigger_cmds) then [Request fd cmd data r] else []) ++ requests (w_log w) ->
     Q r w') ->
  wp (file_ioctl fd cmd data) Q w.
Proof.
  intros Hin HQ. unfold file_ioctl. apply wp_bind, wp_get. rewrite decide_True by done.
  apply wp_fmap, wp_ask. intros r _. apply HQ; [done |].
  unfold requests. cbn [emit w_log omap list_omap]. unfold request_of at 1. cbn.
  case_bool_decide as E; [rewrite decide_True by exact E | rewrite decide_False by exact E]; done.
Qed.
Lemma wp_quiet_ioctl fd cmd data w (Q : Z -> world trl_ctx -> Prop) :
  fd ∈ tl_fds (w_st w) -> cmd ∉ trigger_cmds ->
  (forall r w', moved w (w_st w) w' -> (forall p, r <> 0 -> refused p w w') -> Q r w') ->
  wp (file_ioctl fd cmd data) Q w.
Proof.
  intros Hin Hc HQ. unfold file_ioctl. apply wp_bind, wp_get. rewrite decide_True by done.
  apply wp_fmap, wp_ask. intros r _. apply HQ.
  - apply moved_emit, moved_refl. split; [| done]. unfold request_of. cbn. by rewrite bool_decide_eq_false_2.
  - intros p Hr. apply refused_now. unfold refusal. cbn. by rewrite (proj2 (Z.eqb_neq _ _) Hr).
Qed.

(** *** Release: every descriptor of the structure is closed *)
Lemma wp_fini rest w (Q : unit -> world trl_ctx -> Prop) :
  length (at_zfd (tl_at (w_st w))) = 4%nat ->
  tl_fds (w_st w) ≡ₚ held_trig (tl_at (w_st w)) ++ held_video (tl_at (w_st w)) ++ rest ->
  (forall fds w', fds ≡ₚ rest -> moved w (with_fds fds (w_st w)) w' -> Q tt w') ->
  wp adv_trigger_fini Q w.
Proof.
  intros Hlen Hfds HQ. unfold adv_trigger_fini. set (a := tl_at (w_st w)) in *.
  apply wp_bind, (wp_for (fun i v => exists fds : list Z,
    fds ≡ₚ filter usable (drop (Z.to_nat i) (at_zfd a)) ++ held_video a ++ rest /\
    moved w (with_fds fds (w_st w)) v)).
  - exists (tl_fds (w_st w)). split; [exact Hfds |].
    replace (with_fds _ _) with (w_st w) by by destruct (w_st w). apply moved_refl.
  - intros i v Hi (fds & Hp & Hv). change (Z.of_nat (Z.to_nat ZYNQ_TRIGGER_DEV_NUM)) with 4 in Hi.
    pose proof (proj1 Hv) as Es. unfold get_at. apply wp_bind, wp_gets. rewrite Es.
    destruct (lookup_lt_is_Some_2 (at_zfd a) (Z.to_nat i) ltac:(lia)) as [fd Hfd].
    apply wp_bind, wp_array_get. exists fd. rewrite zlookup_nonneg by lia. split; [exact Hfd |].
    rewrite (drop_S _ _ _ Hfd) in Hp. replace (Z.to_nat (i + 1)) with (S (Z.to_nat i)) by lia.
    destruct (Z.ltb_spec fd 0) as [Hn|Hn].
    + apply wp_ret. exists fds. rewrite filter_cons_False in Hp by (unfold usable; lia). by split.
    + rewrite filter_cons_True in Hp by done. eapply wp_file_close; [rewrite Es; exact Hp |].
      intros fds' v' Hp' Hv'. exists fds'. split; [done |]. rewrite Es in Hv'.
      eapply moved_trans; [exact Hv | exact Hv'].
  - intros v (fds & Hp & Hv). pose proof (proj1 Hv) as Es. unfold get_at. apply wp_bind, wp_gets. rewrite Es.
    change (0 + Z.of_nat (Z.to_nat ZYNQ_TRIGGER_DEV_NUM)) with 4 in Hp.
    rewrite (drop_ge (at_zfd a)) in Hp by (rewrite Hlen; done). cbn in Hp. fold a in Hp |- *.
    cbn [tl_at with_fds]. fold a. destruct (Z.leb_spec 0 (at_vfd a)) as [Hn|Hn].
    + rewrite decide_True in Hp by exact Hn. eapply wp_file_close; [rewrite Es; exact Hp |].
      intros fds' v' Hp' Hv'. apply (HQ fds'); [done |]. rewrite Es in Hv'. by eapply moved_trans.
    + rewrite decide_False in Hp by (unfold usable; lia). apply wp_ret. by apply (HQ fds).
Qed.

(** *** Opening the trigger devices *)
Lemma wp_zdev_open n zfd rest w (Q : Z -> world trl_ctx -> Prop) :
  let l := at_zfd (tl_at (w_st w)) in
  (n <= length l)%nat -> (forall i, (i < n)%nat -> l !! i = Some (-1)) ->
  tl_fds (w_st w) ≡ₚ filter usable l ++ rest -> (usable zfd <-> filter usable l <> []) ->
  (forall r l' fds w', length l' = length l -> fds ≡ₚ filter usable l' ++ rest ->
     (usable r <-> filter usable l' <> []) ->
     moved w (TrlCtx ((tl_at (w_st w))<|at_zfd := l'|>) fds) w' -> Q r w') ->
  wp (zdev_open n zfd) Q w.
Proof.
  revert zfd w. induction n as [|i IH]; intros zfd w l Hn Hl Hfds Hz HQ; cbn [zdev_open].
  - apply wp_ret. apply (HQ zfd l (tl_fds (w_st w))); [done | done | done |].
    replace (TrlCtx _ _) with (w_st w); [apply moved_refl |]. unfold l. by destruct (w_st w) as [[] ?].
  - apply wp_bind, wp_file_open.
    + intros v Hv _. subst l. apply IH; rewrite ?(proj1 Hv); [lia | intros; apply Hl; lia | done | done |].
      intros r l' fds w' H1 H2 H3 H4. eapply HQ; [exact H1 | exact H2 | exact H3 |]. by eapply moved_trans.
    + intros fd v Hfd Hv. rewrite (proj2 (Z.leb_le 0 fd)) by exact Hfd.
      unfold upd_at. apply wp_bind, wp_modify. pose proof (proj1 Hv) as Es.
      pose proof (usable_insert l i fd (Hl i ltac:(lia)) Hfd) as Hins.
      apply IH; cbn [w_st]; rewrite Es; cbn [tl_at tl_fds with_fds].
      * change (i <= length (<[i:=fd]> l))%nat. rewrite length_insert. lia.
      * intros j Hj. change (<[i:=fd]> l !! j = Some (-1)). rewrite list_lookup_insert_ne by lia. apply Hl. lia.
      * change (fd :: tl_fds (w_st w) ≡ₚ filter usable (<[i:=fd]> l) ++ rest). by rewrite Hins, Hfds.
      * change (usable fd <-> filter usable (<[i:=fd]> l) <> []). split; [| done]. intros _ E.
        rewrite E in Hins. by apply Permutation_nil_cons in Hins.
      * intros r l' fds w' H1 H2 H3 H4. eapply HQ; [| exact H2 | exact H3 |].
        { rewrite H1. apply length_insert. }
        eapply moved_trans; [| exact H4]. by eapply moved_state.
Qed.

(** one step after another *)
#[local] Ltac follow H1 H2 :=
  rewrite ?(proj1 H1) in H2; apply (moved_trans _ _ _ _ _ H1) in H2; clear H1; rename H2 into H1;
  unfold with_at, with_fds in H1; cbn [tl_at tl_fds] in H1.
Lemma wp_upd_at f w (Q : unit -> world trl_ctx -> Prop) :
  (forall w', moved w (with_at (f (tl_at (w_st w))) (w_st w)) w' -> Q tt w') -> wp (upd_at f) Q w.
Proof.
  intros HQ. apply wp_modify, HQ. pose proof (moved_refl w) as Hm. destruct w as [l h [a fds]].
  exact (moved_state _ _ _ _ Hm).
Qed.

(** *** Looking for cameras *)
Definition with_fpd (k : Z) (s : trl_ctx) : trl_ctx := with_at ((tl_at s)<|at_fpd_num := k|>) s.
Lemma with_fpd_id s : with_fpd (at_fpd_num (tl_at s)) s = s.
Proof. by destruct s as [[] ?]. Qed.

Lemma wp_scan_video name w (Q : Z -> world trl_ctx -> Prop) :
  (forall r k w', moved w (with_fpd k (w_st w)) w' -> (r = 0 \/ forall p, refused p w w') -> Q r w') ->
  wp (adv_trigger_scan_video name) Q w.
Proof.
  intros HQ. unfold adv_trigger_scan_video. apply wp_bind, wp_link.
  - intros v Hv Hr. apply wp_ret, (HQ _ (at_fpd_num (tl_at (w_st w)))); [by rewrite with_fpd_id | by right].
  - intros driver v Hv. apply wp_bind. unfold upd_at. destruct (_ =? _).
    + apply wp_modify, wp_ret, (HQ _ (s32 (at_fpd_num (tl_at (w_st w)) + 1))); [| by left].
      rewrite (proj1 Hv). destruct (w_st w). by eapply moved_state.
    + apply wp_ret, wp_ret, (HQ _ (at_fpd_num (tl_at (w_st w)))); [by rewrite with_fpd_id | by left].
Qed.

(** the states a scan leads to *)
Definition scanned (w w' : world trl_ctx) : Prop :=
  (exists k, w_st w' = with_fpd k (w_st w)) /\ requests (w_log w') = requests (w_log w) /\ grows w w'.
Lemma scanned_refl w : scanned w w.
Proof. split_and!; [exists (at_fpd_num (tl_at (w_st w))); by rewrite with_fpd_id | done | apply grows_refl]. Qed.
Lemma scanned_trans w v v' : scanned w v -> scanned v v' -> scanned w v'.
Proof.
  intros ((k & S1) & L1 & G1) ((k' & S2) & L2 & G2). split_and!; [| congruence | by eapply grows_trans].
  exists k'. by rewrite S2, S1.
Qed.
Lemma scanned_moved w k v : moved w (with_fpd k (w_st w)) v -> scanned w v.
Proof.
  intros Hm. split_and!; [exists k; apply Hm | apply (moved_log _ _ _ Hm) | by eapply moved_grows].
Qed.
Lemma scanned_still w v : moved w (w_st w) v -> scanned w v.
Proof. intros Hm. apply (scanned_moved _ (at_fpd_num (tl_at (w_st w)))). by rewrite with_fpd_id. Qed.

(** a round that goes on has read an entry, one of at most [n] *)
Lemma wp_scan_entry n w (Q : Z + Z -> world trl_ctx -> Prop) :
  dir_ends n ->
  (forall r w', scanned w w' ->
     match r with
     | inl x => x = 0 /\ (entries_read (w_log w) < n)%nat /\ entries_read (w_log w') = S (entries_read (w_log w))
     | inr x => x = 0 \/ forall p, refused p w w'
     end -> Q r w') ->
  wp (scan_entry 0) Q w.
Proof.
  intros Hdir HQ. unfold scan_entry. apply wp_bind, wp_ask. intros ent E.
  set (w1 := emit _ w). assert (scanned w w1) as H1.
  { split_and!; [exists (at_fpd_num (tl_at (w_st w))); by rewrite with_fpd_id | done | by eexists [_]]. }
  assert (entries_read (w_log w1) = S (entries_read (w_log w))) as E1 by done. clearbody w1.
  destruct (Z.eqb_spec ent 0) as [->|He]; [apply wp_ret, HQ; [exact H1 | by left] |].
  assert (entries_read (w_log w) < n)%nat as Hlt.
  { destruct (decide (entries_read (w_log w) < n)%nat) as [Hlt|Hge]; [exact Hlt |].
    rewrite Hdir in E by lia. contradiction. }
  apply wp_bind, wp_peeks; [auto with trl |]. intros name v1 H2.
  apply wp_bind, wp_peeks; [auto with trl |]. intros mode v2 H3. follow H2 H3.
  rewrite <- (proj2 (moved_log _ _ _ H2)) in E1. apply scanned_still in H2.
  pose proof (scanned_trans _ _ _ H1 H2) as H12. destruct (S_ISLNK mode); [| by apply wp_ret, HQ].
  apply wp_bind, wp_scan_video. intros r k v3 H3 Hr. apply wp_ret.
  rewrite <- (proj2 (moved_log _ _ _ H3)) in E1. apply scanned_moved in H3.
  apply HQ; [by eapply scanned_trans |]. destruct (Z.eqb_spec r 0) as [->|Hne]; [done |].
  destruct Hr as [Hr|Hr]; [done |]. right. intros p. eapply refused_sooner; [apply H12 | apply Hr].
Qed.

Lemma wp_scan n w (Q : Z -> world trl_ctx -> Prop) :
  dir_ends n ->
  (forall r w', scanned w w' -> (r = 0 \/ forall p, refused p w w') -> Q r w') ->
  wp (adv_trigger_scan_sysfs (S n)) Q w.
Proof.
  intros Hdir HQ. unfold adv_trigger_scan_sysfs. apply wp_bind, wp_ask. intros dp _.
  set (e := Ev _ dp). assert (scanned w (emit e w)) as H1.
  { split_and!; [exists (at_fpd_num (tl_at (w_st w))); by rewrite with_fpd_id | done | by eexists [_]]. }
  destruct (Z.eqb_spec dp 0) as [->|_].
  { apply wp_ret, HQ; [exact H1 |]. right. intros p. by apply refused_now. }
  generalize dependent (emit e w). intros w1 H1.
  apply wp_bind, wp_peeks; [auto with trl |]. intros cwd v1 H2. apply scanned_still in H2.
  pose proof (scanned_trans _ _ _ H1 H2) as H3. clear H1 H2 w1.
  apply wp_bind, wp_ask. intros rc _. set (e2 := Ev _ rc).
  assert (moved v1 (w_st v1) (emit e2 v1)) as H4
    by (apply moved_emit; [by apply dull_named | apply moved_refl]).
  apply scanned_still in H4. pose proof (scanned_trans _ _ _ H3 H4) as H5.
  destruct (Z.eqb_spec rc 0) as [_|Hrc]; cbn [negb].
  2: { assert (forall p, refused p w (emit e2 v1)) as Hr.
       { intros p. eapply refused_sooner; [apply H3 |]. apply refused_now. unfold refusal. cbn.
         by rewrite (proj2 (Z.eqb_neq _ _) Hrc). }
       apply wp_bind, wp_peeks; [auto with trl |]. intros _ v3 H6. apply wp_ret.
       pose proof (moved_grows _ _ _ H6). apply scanned_still in H6.
       apply HQ; [by eapply scanned_trans |]. right. intros p. by eapply refused_later. }
  generalize dependent (emit e2 v1). intros v2 _ H5.
  apply wp_bind, (wp_loop (fun y v => y = 0 /\ scanned w v) (fun _ v => n - entries_read (w_log v))%nat).
  - by split.
  - lia.
  - intros y v [-> Hv]. apply (wp_scan_entry n); [done |]. intros r v' Hv' Hr.
    pose proof (scanned_trans _ _ _ Hv Hv') as Hw. destruct r as [x|r].
    + destruct Hr as (-> & Hlt & Hs). split; [by split |]. rewrite Hs. lia.
    + assert (r = 0 \/ forall p, refused p w v') as Hr'.
      { destruct Hr as [->|Hr]; [by left | right]. intros p. eapply refused_sooner; [apply Hv | apply Hr]. }
      clear Hv Hr. apply wp_bind, wp_peeks; [destruct (negb _); auto with trl |]. intros _ v2' H6.
      apply wp_bind, wp_peeks; [auto with trl |]. intros _ v3 H7. follow H6 H7. apply wp_ret.
      pose proof (moved_grows _ _ _ H6). apply scanned_still in H6.
      apply HQ; [by eapply scanned_trans |]. destruct Hr' as [?|Hr']; [by left | right].
      intros p. by eapply refused_later.
Qed.

(** *** Opening the camera: refused, refused with the descriptor lost, or opened *)
Lemma wp_number path w (Q : Z -> world trl_ctx -> Prop) :
  (forall w', moved w (w_st w) w' -> Q (-1) w') ->
  (forall k w', moved w (with_at ((tl_at (w_st w))<|at_vnum := k|>) (w_st w)) w' -> Q 0 w') ->
  wp (vdev_number path) Q w.
Proof.
  intros Hno Hyes. unfold vdev_number. apply wp_bind, wp_peeks; [auto with trl |]. intros mode v1 H1.
  apply wp_bind, wp_peeks; [destruct (S_ISLNK mode); auto with trl |]. intros target v2 H2.
  rewrite (proj1 H1) in H2. pose proof (moved_trans _ _ _ _ _ H1 H2) as H12. clear H1 H2 v1.
  destruct target as [p|]; [| by apply wp_ret, Hno]. destruct (scan_video_num _) as [k|]; [| by apply wp_ret, Hno].
  apply wp_bind, wp_modify, wp_ret, (Hyes k). rewrite (proj1 H12). destruct (w_st w). by eapply moved_state.
Qed.

Lemma wp_vdev_init path w (Q : Z -> world trl_ctx -> Prop) :
  (forall a fds w', fds ≡ₚ tl_fds (w_st w) -> moved w (TrlCtx a fds) w' -> refused path w w' -> Q (-1) w') ->
  (forall a w', path <> None -> usable (at_vfd a) -> at_vnum a = -1 ->
     moved w (TrlCtx a (at_vfd a :: tl_fds (w_st w))) w' -> Q (-1) w') ->
  (forall a w', at_zfd a = at_zfd (tl_at (w_st w)) -> (at_type a = CAMERA_TYPE_FPD -> usable (at_vfd a)) ->
     moved w (TrlCtx a (held_video a ++ tl_fds (w_st w))) w' -> Q 0 w') ->
  wp (adv_trigger_vdev_init path) Q w.
Proof.
  intros Hno Hlost Hyes. unfold adv_trigger_vdev_init. apply wp_bind, wp_upd_at. intros v1 H1.
  set (a1 := _ <|at_vfd := -1|>) in H1. destruct path as [path|].
  2: { apply wp_ret, (Hyes a1); [done | done | exact H1]. }
  apply wp_bind, wp_file_open.
  { intros v H2 Hr. pose proof (refused_sooner _ _ _ _ (moved_grows _ _ _ H1) Hr). follow H1 H2.
    apply wp_ret. by apply (Hno a1 (tl_fds (w_st w))). }
  intros fd v Hfd H2. follow H1 H2. rewrite (proj2 (Z.ltb_ge fd 0)) by exact Hfd.
  apply wp_bind, wp_quiet_ioctl; [rewrite (proj1 H1); left | by apply (bool_decide_unpack _); vm_compute |].
  intros rc v2 H2 Hr. pose proof (moved_grows _ _ _ H1) as G1. follow H1 H2.
  destruct (Z.eqb_spec rc 0) as [_|Hrc]; cbn [negb].
  2: { apply wp_bind, (wp_file_close fd (tl_fds (w_st w))); [by rewrite (proj1 H1) |].
       intros fds' v3 Hp H2. pose proof (moved_grows _ _ _ H2) as G2. follow H1 H2. apply wp_ret.
       apply (Hno a1 fds'); [done | done |]. eapply refused_later; [| exact G2].
       by eapply refused_sooner, Hr. }
  apply wp_bind, wp_peeks; [auto with trl |]. intros driver v3 H2. follow H1 H2.
  apply wp_bind, wp_upd_at. intros v4 H2. follow H1 H2. unfold get_at. apply wp_bind, wp_gets.
  rewrite (proj1 H1). cbn [tl_at].
  (* the type is an unsigned number: the test for an unknown driver never succeeds *)
  rewrite (proj2 (Z.ltb_ge _ 0)) by (cbn; apply u32_range).
  apply wp_bind, wp_upd_at. intros v5 H2. follow H1 H2.
  set (a2 := _ <|at_vfd := fd|>) in H1. apply wp_number.
  - intros v6 H2. follow H1 H2. by apply (Hlost a2).
  - intros k v6 H2. follow H1 H2. apply (Hyes (a2<|at_vnum := k|>)); [done | done |].
    unfold held_video. change (at_vfd (a2<|at_vnum := k|>)) with fd. by rewrite filter_cons_True.
Qed.

(** *** A call between set-up and release *)
Definition prepared (w w' : world trl_ctx) : Prop :=
  let a := tl_at (w_st w') in
  length (at_zfd a) = 4%nat /\ tl_fds (w_st w') ≡ₚ held_trig a ++ held_video a ++ tl_fds (w_st w) /\
  (if at_type a =? CAMERA_TYPE_FPD then usable (at_vfd a) else held_trig a <> []).

Lemma wp_params_init w (Q : unit -> world trl_ctx -> Prop) :
  (forall a w', at_zfd a = replicate 4 (-1) -> moved w (TrlCtx a (tl_fds (w_st w))) w' -> Q tt w') ->
  wp adv_trigger_params_init Q w.
Proof. intros HQ. apply wp_upd_at. intros w' Hw. by eapply HQ; [| exact Hw]. Qed.

(** the release of what was prepared leaves the descriptors of before *)
Lemma wp_trl_release w v (Q : unit -> world trl_ctx -> Prop) :
  prepared w v ->
  (forall fds w', fds ≡ₚ tl_fds (w_st w) -> w_st w' = TrlCtx (tl_at (w_st v)) fds ->
     requests (w_log w') = requests (w_log v) -> grows v w' -> Q tt w') ->
  wp adv_trigger_fini Q v.
Proof.
  intros (Hlen & Hfds & _) HQ. eapply wp_fini; [exact Hlen | exact Hfds |]. intros fds w' Hp Hm.
  apply (HQ fds); [exact Hp | apply Hm | apply (moved_log _ _ _ Hm) | by eapply moved_grows].
Qed.

Lemma wp_init n path w (Q : Z -> world trl_ctx -> Prop) :
  dir_ends n ->
  (forall w', requests (w_log w') = requests (w_log w) -> settled path w w' -> unprepared path w w' -> Q (-1) w') ->
  (forall w', requests (w_log w') = requests (w_log w) -> prepared w w' -> Q 0 w') ->
  wp (adv_trigger_init (S n) path) Q w.
Proof.
  intros Hdir Hno Hyes. unfold adv_trigger_init. apply wp_bind, wp_params_init. intros a0 v0 Hz0 H0.
  apply wp_bind, wp_vdev_init.
  - intros a fds v Hp H1 Hr. apply (refused_sooner _ _ _ _ (moved_grows _ _ _ H0)) in Hr.
    rewrite (proj1 H0) in Hp. cbn in Hp. follow H0 H1.
    apply wp_ret, Hno; [apply (moved_log _ _ _ H0) | left; by rewrite (proj1 H0) | by left].
  - intros a v Hpath _ Hnum H1. follow H0 H1. apply wp_ret, Hno; [apply (moved_log _ _ _ H0) | |].
    + right. by rewrite (proj1 H0).
    + right. left. by rewrite (proj1 H0).
  - intros a v Hz Hfpd H1. rewrite (proj1 H0) in Hz. cbn [tl_at] in Hz. rewrite Hz0 in Hz. follow H0 H1.
    pose proof (moved_log _ _ _ H0) as [L0 _]. pose proof (proj1 H0) as S0.
    unfold get_at. apply wp_bind, wp_gets. rewrite S0. cbn [tl_at].
    destruct (at_type a =? CAMERA_TYPE_FPD) eqn:Et.
    { apply wp_ret, Hyes; [exact L0 |]. unfold prepared, held_trig. rewrite S0. cbn [tl_at tl_fds].
      rewrite Et, Hz. apply Z.eqb_eq in Et. split_and!; [done | done | by apply Hfpd]. }
    apply wp_bind, (wp_zdev_open _ _ (held_video a ++ tl_fds (w_st w))); rewrite ?S0; cbn [tl_at tl_fds]; rewrite ?Hz.
    { done. }
    { intros i Hi. by apply lookup_replicate_2. }
    { done. }
    { split; [unfold usable; lia | done]. }
    intros r l' fds v1 Hl Hp Hr H1.
    assert (length l' = 4%nat) as Hl4 by (rewrite Hl, ?S0; cbn [tl_at]; by rewrite ?Hz). follow H0 H1.
    clear L0 S0. pose proof (moved_log _ _ _ H0) as [L0 _]. pose proof (proj1 H0) as S0.
    pose proof (moved_grows _ _ _ H0) as G0. clear H0.
    assert (forall k v2, w_st v2 = with_fpd k (w_st v1) -> usable r -> prepared w v2) as Hprep.
    { intros k v2 S2 Hu. unfold prepared. rewrite S2, S0. split_and!; [exact Hl4 | exact Hp |].
      assert (at_type (tl_at (with_fpd k (TrlCtx (a<|at_zfd := l'|>) fds))) = at_type a) as -> by done.
      rewrite Et. by apply Hr. }
    destruct (Z.ltb_spec r 0) as [Hneg|Hpos].
    { apply wp_bind. eapply (wp_fini (tl_fds (w_st w))); rewrite ?S0; [exact Hl4 | exact Hp |].
      intros fds' v2 Hp' H2.
      apply wp_ret, Hno; [by rewrite (proj1 (moved_log _ _ _ H2)) | left; by rewrite (proj1 H2) |].
      right. right. rewrite (proj1 H2). split; [by apply Z.eqb_neq |].
      change (held_trig _) with (filter usable l'). destruct (filter usable l'); [done |].
      exfalso. assert (usable r) as Hu by by apply Hr. unfold usable in Hu. lia. }
    apply wp_bind, wp_scan; [done |]. intros rc v2 ((k & S2) & L2 & G2) Hrc.
    specialize (Hprep k v2 S2 Hpos). destruct (Z.eqb_spec rc 0) as [_|Hne]; cbn [negb].
    + apply wp_ret, Hyes; [congruence | exact Hprep].
    + destruct Hrc as [?|Hrc]; [done |]. apply wp_bind, (wp_trl_release w); [exact Hprep |].
      intros fds' v3 Hp' S3 L3 G3. apply wp_ret, Hno; [congruence | left; by rewrite S3 |].
      left. eapply refused_later; [| exact G3]. by eapply refused_sooner, Hrc.
Qed.

(** *** Requests in order *)
Lemma wp_send_each zfd cmd data ret w (Q : Z -> world trl_ctx -> Prop) :
  cmd ∈ trigger_cmds -> (forall fd, fd ∈ filter usable zfd -> fd ∈ tl_fds (w_st w)) ->
  (forall r reqs w', w_st w' = w_st w -> requests (w_log w') = rev reqs ++ requests (w_log w) ->
     let sent := map (fun fd => Request fd cmd data 0) in
     (reqs = sent (filter usable zfd) /\ (filter usable zfd = [] -> r = ret) /\ (filter usable zfd <> [] -> r = 0) \/
      r <> 0 /\ exists before fd after, filter usable zfd = before ++ fd :: after /\
        reqs = sent before ++ [Request fd cmd data r]) -> Q r w') ->
  wp (send_each zfd cmd data ret) Q w.
Proof.
  intros Hc. revert ret w Q. induction zfd as [|fd zfd IH]; intros ret w Q Hin HQ; cbn [send_each].
  { apply wp_ret, (HQ ret []); [done | done |]. by left. }
  destruct (Z.ltb_spec fd 0) as [Hneg|Hpos].
  { rewrite filter_cons_False in Hin, HQ by (unfold usable; lia). by apply IH. }
  rewrite filter_cons_True in Hin, HQ by exact Hpos.
  apply wp_bind, wp_file_ioctl; [apply Hin; left |]. intros r v Sv Lv. rewrite decide_True in Lv by done.
  destruct (Z.eqb_spec r 0) as [->|Hr]; cbn [negb].
  - apply IH; [intros x Hx; rewrite Sv; apply Hin; by right |]. intros r' reqs w' S' L' sent Hs.
    apply (HQ r' (Request fd cmd data 0 :: reqs)); [congruence | by rewrite L', Lv; cbn; rewrite <- app_assoc |].
    destruct Hs as [(-> & H1 & H2)|(Hr' & before & x & after & E & ->)].
    + left. split; [done |]. split; [done |]. intros _. by destruct (filter usable zfd); [apply H1 | apply H2].
    + right. split; [done |]. exists (fd :: before), x, after. by rewrite E.
  - apply wp_ret, (HQ r [Request fd cmd data r]); [done | done |]. right. split; [done |].
    by exists [], fd, (filter usable zfd).
Qed.

(** *** Status and delay: with the descriptors [l] open, nothing is switched *)
Definition peeks_on {A} (l : list Z) (m : M trl_ctx A) : Prop :=
  forall w (Q : A -> world trl_ctx -> Prop), (forall fd, fd ∈ l -> fd ∈ tl_fds (w_st w)) ->
    (forall a w', moved w (w_st w) w' -> Q a w') -> wp m Q w.
Lemma peeks_on_peeks {A} l (m : M trl_ctx A) : peeks m -> peeks_on l m.
Proof. intros Hm w Q _ HQ. by apply Hm. Qed.
Lemma peeks_on_bind {A B} l (m : M trl_ctx A) (f : A -> M trl_ctx B) :
  peeks_on l m -> (forall a, peeks_on l (f a)) -> peeks_on l (m ≫= f).
Proof.
  intros Hm Hf w Q Hl HQ. apply wp_bind, Hm; [done |]. intros a v Hv.
  apply Hf; [by rewrite (proj1 Hv) |]. intros b v' Hv'. follow Hv Hv'. by apply HQ.
Qed.
Lemma peeks_on_ioctl l fd cmd data : fd ∈ l -> cmd ∉ trigger_cmds -> peeks_on l (file_ioctl fd cmd data).
Proof. intros Hfd Hc w Q Hl HQ. apply wp_quiet_ioctl; [by apply Hl | done |]. intros r v Hv _. by apply HQ. Qed.
#[local] Hint Extern 1 (_ ∉ trigger_cmds) => by apply (bool_decide_unpack _); vm_compute : trl.
#[local] Hint Resolve peeks_on_peeks peeks_on_ioctl : trl.
#[local] Ltac peeks_on_steps :=
  repeat match goal with
  | |- peeks_on _ (_ ≫= _) => apply peeks_on_bind; [auto with trl | intros ?]
  | |- peeks_on _ (if ?b then _ else _) => destruct b
  | |- peeks_on _ (let '(_, _) := ?x in _) => destruct x
  | |- peeks_on _ _ => solve [auto with trl]
  end.

Lemma peeks_status_flag l fd cmd flag st : fd ∈ l -> cmd ∉ trigger_cmds -> peeks_on l (status_flag fd cmd flag st).
Proof. intros Hfd Hc. unfold status_flag. peeks_on_steps. Qed.
#[local] Hint Resolve peeks_status_flag : trl.
Lemma peeks_dev_status l num fd st : fd ∈ l -> peeks_on l (dev_status_of num fd st).
Proof. intros Hfd. unfold dev_status_of. cbv zeta. peeks_on_steps. Qed.
#[local] Hint Resolve peeks_dev_status : trl.
Lemma peeks_status_each num zfd l s ret :
  (forall fd, fd ∈ filter usable zfd -> fd ∈ l) -> peeks_on l (status_each num zfd s ret).
Proof.
  revert s ret. induction zfd as [|fd zfd IH]; intros s ret Hin; cbn [status_each]; [auto with trl |].
  destruct s as [|st s]; [auto with trl |]. destruct (Z.ltb_spec fd 0) as [Hneg|Hpos].
  - rewrite filter_cons_False in Hin by (unfold usable; lia).
    apply peeks_on_bind; [by apply IH |]. intros [r s']. auto with trl.
  - rewrite filter_cons_True in Hin by exact Hpos.
    assert (fd ∈ l) as Hfd by (apply Hin; left). apply peeks_on_bind; [auto with trl |]. intros [r st'].
    destruct (negb (r =? 0)); [auto with trl |].
    apply peeks_on_bind; [apply IH; intros x Hx; apply Hin; by right |]. intros [r' s']. auto with trl.
Qed.
Lemma peeks_delay_set l vfd vnum action delay : vfd ∈ l -> peeks_on l (delay_set vfd vnum action delay).
Proof. intros Hfd. unfold delay_set. peeks_on_steps. Qed.
#[local] Hint Resolve peeks_delay_set : trl.

Lemma peeks_delay_fpd w action delay (Q : Z * option (Z * Z) -> world trl_ctx -> Prop) :
  at_vfd (tl_at (w_st w)) ∈ tl_fds (w_st w) -> (forall r w', moved w (w_st w) w' -> Q r w') ->
  wp (adv_trigger_delay_fpd action delay) Q w.
Proof.
  intros Hfd HQ. unfold adv_trigger_delay_fpd, get_at. apply wp_bind, wp_gets.
  set (vfd := at_vfd _) in *. set (vnum := at_vnum _).
  assert (vfd ∈ [vfd]) as Hv by left.
  refine ((_ : peeks_on [vfd] _) w Q _ HQ); [| by intros x ->%list_elem_of_singleton].
  peeks_on_steps.
Qed.

(** *** The two uses of a prepared structure *)

(** what a part sends, the state kept *)
Definition sends (targets : list Z) (cmd : Z) (data : list Z) (m : M trl_ctx Z) (v : world trl_ctx) : Prop :=
  wp m (fun rc v' => w_st v' = w_st v /\ exists reqs,
    requests (w_log v') = rev reqs ++ requests (w_log v) /\ sent_to targets cmd data rc reqs) v.

Lemma one_sends cmd data w :
  cmd ∈ trigger_cmds -> at_vfd (tl_at (w_st w)) ∈ tl_fds (w_st w) ->
  sends [at_vfd (tl_at (w_st w))] cmd data
    (a ← get_at; rc ← file_ioctl (at_vfd a) cmd data; mret (if negb (rc =? 0) then -1 else 0)) w.
Proof.
  intros Hc Hfd. unfold sends, get_at. apply wp_bind, wp_gets. apply wp_bind, wp_file_ioctl; [exact Hfd |].
  intros r v Sv Lv. rewrite decide_True in Lv by done. apply wp_ret. split; [exact Sv |].
  eexists [_]. split; [exact Lv |]. destruct (Z.eqb_spec r 0) as [->|Hr]; cbn [negb].
  - by left.
  - right. split; [done |]. by exists [], (at_vfd (tl_at (w_st w))), [], r.
Qed.

Lemma all_sends cmd data w :
  let targets := held_trig (tl_at (w_st w)) in
  cmd ∈ trigger_cmds -> targets <> [] -> (forall fd, fd ∈ targets -> fd ∈ tl_fds (w_st w)) ->
  sends targets cmd data
    (a ← get_at; ret ← send_each (at_zfd a) cmd data (-1); mret (if negb (ret =? 0) then -1 else 0)) w.
Proof.
  intros targets Hc Hne Hin. unfold sends, get_at. apply wp_bind, wp_gets.
  apply wp_bind, wp_send_each; [done | exact Hin |]. intros r reqs v Sv Lv sent Hs. apply wp_ret.
  split; [exact Sv |]. exists reqs. split; [exact Lv |].
  destruct Hs as [(-> & _ & H0)|(Hr & before & fd & after & E & ->)].
  - rewrite (H0 Hne). by left.
  - rewrite (proj2 (Z.eqb_neq r 0) Hr). right. split; [done |]. by exists before, fd, after, r.
Qed.

Lemma wp_with_trigger n path one all data fpd_part all_part w :
  dir_ends n ->
  (forall v, at_vfd (tl_at (w_st v)) ∈ tl_fds (w_st v) -> sends [at_vfd (tl_at (w_st v))] one data fpd_part v) ->
  (forall v, held_trig (tl_at (w_st v)) <> [] ->
     (forall fd, fd ∈ held_trig (tl_at (w_st v)) -> fd ∈ tl_fds (w_st v)) ->
     sends (held_trig (tl_at (w_st v))) all data all_part v) ->
  wp (with_trigger (S n) path fpd_part all_part) (fun rc w' => settled path w w' /\
    exists reqs, requests (w_log w') = rev reqs ++ requests (w_log w) /\
    let a := tl_at (w_st w') in
    (rc = -1 /\ reqs = [] /\ unprepared path w w' \/
     (if at_type a =? CAMERA_TYPE_FPD then sent_to [at_vfd a] one data rc reqs
      else sent_to (held_trig a) all data rc reqs))) w.
Proof.
  intros Hdir Hfpd Hall. unfold with_trigger. apply wp_bind, (wp_init n); [done | |].
  - intros v Lv Hs Hu. apply wp_ret. split; [exact Hs |]. exists []. split; [exact Lv |]. by left.
  - intros v Lv Hp. pose proof Hp as (_ & Hfds & Ht). unfold get_at. apply wp_bind, wp_gets.
    set (a := tl_at (w_st v)) in *. apply wp_bind.
    assert (wp (if at_type a =? CAMERA_TYPE_FPD then fpd_part else all_part) (fun rc v' => w_st v' = w_st v /\
      exists reqs, requests (w_log v') = rev reqs ++ requests (w_log v) /\
      if at_type a =? CAMERA_TYPE_FPD then sent_to [at_vfd a] one data rc reqs
      else sent_to (held_trig a) all data rc reqs) v) as Hpart.
    { destruct (at_type a =? CAMERA_TYPE_FPD).
      - apply Hfpd. fold a. rewrite Hfds. unfold held_video. rewrite filter_cons_True by exact Ht.
        apply elem_of_app. right. left.
      - apply Hall; [exact Ht |]. fold a. intros fd Hfd. rewrite Hfds. apply elem_of_app. by left. }
    eapply wp_mono; [exact Hpart |]. intros rc v1 (S1 & reqs & L1 & Hs).
    apply wp_bind, (wp_trl_release w); [unfold prepared; rewrite S1; exact Hp |].
    intros fds v2 Hfds2 S2 L2 _. apply wp_ret. split; [left; by rewrite S2 |].
    exists reqs. split; [by rewrite L2, L1, Lv |]. rewrite S2, S1. right. exact Hs.
Qed.

Lemma wp_delay_ctl path action delay w :
  wp (adv_trigger_delay_ctl path action delay) (fun _ w' =>
    settled path w w' /\ requests (w_log w') = requests (w_log w)) w.
Proof.
  unfold adv_trigger_delay_ctl. apply wp_bind, wp_params_init. intros a0 v0 Hz0 H0.
  apply wp_bind, wp_vdev_init.
  - intros a fds v Hp H1 _. rewrite (proj1 H0) in Hp. cbn in Hp. follow H0 H1. apply wp_ret.
    split; [left; by rewrite (proj1 H0) | apply (moved_log _ _ _ H0)].
  - intros a v Hpath _ Hnum H1. follow H0 H1. apply wp_ret.
    split; [right; by rewrite (proj1 H0) | apply (moved_log _ _ _ H0)].
  - intros a v Hz Hfpd H1. rewrite (proj1 H0) in Hz. cbn [tl_at] in Hz. rewrite Hz0 in Hz. follow H0 H1.
    assert (forall r : Z * option (Z * Z), forall v', moved w (TrlCtx a (held_video a ++ tl_fds (w_st w))) v' ->
      wp (adv_trigger_fini;; mret r) (fun _ w' =>
        settled path w w' /\ requests (w_log w') = requests (w_log w)) v') as Hend.
    { intros r v' H1. apply wp_bind, (wp_fini (tl_fds (w_st w))); rewrite ?(proj1 H1); cbn [tl_at tl_fds];
        [by rewrite Hz | unfold held_trig; by rewrite Hz |].
      intros fds v2 Hp H2. follow H1 H2. apply wp_ret.
      split; [left; by rewrite (proj1 H1) | apply (moved_log _ _ _ H1)]. }
    unfold get_at. apply wp_bind, wp_gets, wp_bind. rewrite (proj1 H0). cbn [tl_at].
    destruct (Z.eqb_spec (at_type a) CAMERA_TYPE_FPD) as [Et|Et]; [| by apply wp_ret, Hend].
    apply peeks_delay_fpd.
    + rewrite (proj1 H0). cbn [tl_at tl_fds]. unfold held_video. rewrite filter_cons_True by (by apply Hfpd). left.
    + intros r v1 H1. follow H0 H1. by apply Hend.
Qed.
End trl_lemmas.

(** ** Property *)

(** C18: a call of the library ends, whatever the kernel answers, when the
    directory of cameras is finite.  It uses no descriptor that is not open, and
    leaves open exactly those that were, except when the number of the camera
    cannot be found: then the descriptor of the camera stays open.  Enabling and
    disabling send their request, with the rate and source asked for, to the
    camera, or to every trigger device that could be opened, in order, each once
    and up to the first that refuses; the result is 0 when all accept and -1 when
    one refuses.  They send nothing, and answer -1, only when the kernel refused
    the camera, its capabilities, a link or the directory, when the camera has no
    number, or when there is no trigger device.  The other calls switch no
    trigger. *)
Theorem trigger_library_outcome `{Env} (n : nat) (op : trl_op) (w : world trl_ctx) (Hdir : dir_ends n) :
  wp (run_trl (S n) op) (fun rc w' =>
    settled (op_path op) w w' /\
    exists reqs, requests (w_log w') = rev reqs ++ requests (w_log w) /\
      op_sent op w w' rc reqs) w.
Proof.
  assert (ZYNQ_IOC_TRIGGER_ENABLE_ONE ∈ trigger_cmds /\ ZYNQ_IOC_TRIGGER_ENABLE ∈ trigger_cmds /\
    ZYNQ_IOC_TRIGGER_DISABLE_ONE ∈ trigger_cmds /\ ZYNQ_IOC_TRIGGER_DISABLE ∈ trigger_cmds) as (C1 & C2 & C3 & C4)
    by (split_and!; apply (bool_decide_unpack _); vm_compute; exact I).
  destruct op as [path fps internal|path| |path action delay]; cbn [run_trl op_path]; unfold op_sent; cbn [op_requests].
  - apply (wp_with_trigger n); [done | intros v Hv; by apply one_sends | intros v Hne Hv; by apply all_sends].
  - apply (wp_with_trigger n); [done | intros v Hv; by apply one_sends | intros v Hne Hv; by apply all_sends].
  - apply wp_fmap. unfold adv_trigger_get_status. apply wp_bind, (wp_init n); [done | |].
    + intros v Lv Hs _. apply wp_ret. split; [exact Hs | by exists []].
    + intros v Lv Hp. pose proof Hp as (_ & Hfds & _). unfold get_at. apply wp_bind, wp_gets, wp_bind.
      refine (peeks_status_each _ _ (held_trig (tl_at (w_st v))) _ _ _ v _ _ _); [done | |].
      { intros fd Hfd. rewrite Hfds. apply elem_of_app. by left. }
      intros [r s] v1 H1. apply wp_bind, (wp_trl_release w); [unfold prepared; rewrite (proj1 H1); exact Hp |].
      intros fds v2 Hp2 S2 L2 _. apply wp_ret. split; [left; by rewrite S2 |]. exists [].
      split; [| done]. by rewrite L2, (proj1 (moved_log _ _ _ H1)).
  - apply wp_fmap. eapply wp_mono; [apply wp_delay_ctl |]. intros r v [Hs Lv]. split; [exact Hs |].
    by exists [].
Qed.

(** ** Witness and examples *)
Module TrigLibWitness.
(** trigger devices 0 and 2 exist, cameras are served by the driver [drv], and
    the directory of cameras is empty *)
Definition kernel (drv : list Z) : Env := fun log c =>
  match c with
  | KernelCall n args =>
      if String.eqb n "open" then
        if decide (args = TRIGGER_DEV_PATH ++ [48]) then 10
        else if decide (args = TRIGGER_DEV_PATH ++ [50]) then 12
        else if decide (take 10 args = chars "/dev/video") then 5 else -1
      else if String.eqb n "caps.driver" then default 0 (drv !! Z.to_nat (default 0 (head args)))
      else if String.eqb n "opendir" then 4096
      else 0
  | _ => 0
  end.
Definition at0 : adv_trigger := AdvTrigger None 0 0 0 0 0 0 [].
Definition world0 : world trl_ctx := World [] [] (TrlCtx at0 []).
Lemma no_entries drv : dir_ends (H := kernel drv) 0.
Proof. intros log _. reflexivity. Qed.

Lemma trigger_library_outcome_witness :
  wp (run_trl (H := kernel DRIVER_NAME_BASA) 1 (TEnable None 10 1)) (fun rc w' =>
    settled None world0 w' /\
    exists reqs, requests (w_log w') = rev reqs ++ [] /\
      op_sent (TEnable None 10 1) world0 w' rc reqs) world0.
Proof.
  exact (trigger_library_outcome (H := kernel DRIVER_NAME_BASA) 0 (TEnable None 10 1) world0
    (no_entries DRIVER_NAME_BASA)).
Defined.

(** what a call returns, the descriptors it leaves and the targets of its requests *)
Definition outcome_of (drv : list Z) (op : trl_op) : option (Z * list Z * list Z) :=
  match run_trl (H := kernel drv) 1 op world0 with
  | Ret rc w' => Some (rc, tl_fds (w_st w'), map rq_fd (requests (w_log w')))
  | _ => None
  end.
Example all_triggers : outcome_of DRIVER_NAME_BASA (TEnable None 10 1) = Some (0, [], [12; 10]).
Proof. vm_compute. reflexivity. Qed.
Example one_camera : outcome_of DRIVER_NAME_BASA (TEnable (Some (chars "/dev/video3")) 10 1) = Some (0, [], [5]).
Proof. vm_compute. reflexivity. Qed.
(** the camera of another driver is not refused: its type, -1, is stored as an
    unsigned number, and all triggers are switched *)
Example other_driver :
  outcome_of (chars "uvcvideo") (TDisable (Some (chars "/dev/video3"))) = Some (0, [], [12; 10]).
Proof. vm_compute. reflexivity. Qed.
(** a device whose name has no number loses its descriptor *)
Example lost_descriptor :
  outcome_of DRIVER_NAME_BASA (TEnable (Some (chars "/dev/videofront")) 10 1) = Some (-1, [5], []).
Proof. vm_compute. reflexivity. Qed.
Example video_number : scan_video_num (chars "video12") = Some 12 /\ scan_video_num (chars "v4l") = None.
Proof. split; reflexivity. Qed.
End TrigLibWitness.
