(* ===== verification/Sysfs.v ===== *)
(** * The attributes of a device ([basa_sysfs.c]) and the CAN tests they start
    ([zcan_test], [zcan_pio_test] of [basa_can.c])

    Each attribute has a function that shows a text and one that takes a text.
    What an attribute works on (a CAN, a channel, a camera, a register) is chosen
    by writing other attributes, which set variables of the driver; the variables
    are shared by all devices.  A text read is a list of characters; the kernel's
    [sscanf] is a call of the environment: how many numbers it found, and which.
    Log output is not modelled. *)

From stdpp Require Import strings.
From S2P Require Import Kernel Frames Regs Api Device CanMsg Chan CanChip CanTx CanRx CanDev Video VideoMeta VideoQueue.
From S2P Require Import VideoStream CamHci VideoDev Gps I2c Dispatch.

(** ** State: a device, and the variables of the driver *)
Record sysfs_vars := SysfsVars {
  zynq_sysfs_can_ip : Z;
  zynq_sysfs_chan : Z;
  zynq_sysfs_g_reg_offset : Z;
  zynq_sysfs_i2c_id : Z;
  zynq_sysfs_i2c_addr : Z;
  zynq_sysfs_i2c_addr_hi : Z;
  zynq_sysfs_i2c_bus : Z;
  zynq_sysfs_chan_reg_offset : Z;
  zynq_sysfs_can_ip_reg_offset : Z;
  zynq_sysfs_tx_desc : Z;
  zynq_sysfs_cam : Z;
  zynq_sysfs_cam_reg : Z
}.
#[global] Instance sysfs_vars_eta : Eta sysfs_vars := fun r =>
  SysfsVars (zynq_sysfs_can_ip r) (zynq_sysfs_chan r) (zynq_sysfs_g_reg_offset r) (zynq_sysfs_i2c_id r)
    (zynq_sysfs_i2c_addr r) (zynq_sysfs_i2c_addr_hi r) (zynq_sysfs_i2c_bus r) (zynq_sysfs_chan_reg_offset r)
    (zynq_sysfs_can_ip_reg_offset r) (zynq_sysfs_tx_desc r) (zynq_sysfs_cam r) (zynq_sysfs_cam_reg r).
Definition sysfs_vars_zero : sysfs_vars := SysfsVars 0 0 0 0 0 0 0 0 0 0 0 0.
Record sysfs_ctx := SysfsCtx { sx_dev : dev_ctx; sx_vars : sysfs_vars }.
#[global] Instance sysfs_ctx_eta : Eta sysfs_ctx := fun r => SysfsCtx (sx_dev r) (sx_vars r).

(** ** Text *)
Definition nl : list Z := [10].
Definition fmt_u (v : Z) : list Z := digits 20 10 1 v [].
Definition fmt_i (v : Z) : list Z := if v <? 0 then 45 :: fmt_u (- v) else fmt_u v.
Definition fmt_x (v : Z) : list Z := digits 16 16 1 v [].
Definition fmt_02x (v : Z) : list Z := digits 16 16 2 v [].
(** right-justified in [n] places, and [%*c] of a space *)
Definition pad (n : nat) (s : list Z) : list Z := replicate (n - length s) 32 ++ s.
Definition spaces (n : Z) : list Z := replicate (Z.to_nat (Z.max 1 n)) 32.

Definition has_space (buf : list Z) : bool := existsb (Z.eqb 32) (c_text buf).
Fixpoint count_spaces (s : list Z) : nat :=
  match s with [] => 0%nat | c :: s' => if c =? 32 then S (count_spaces s') else count_spaces s' end.

(** ** Labels of the counters *)
Definition zdev_stats_label : list (list Z) :=
  map chars ["Interrupt"; "Invalid interrupt"; "GPS not locked"].
Definition zchan_stats_label : list (list Z) :=
  map chars ["Rx interrupt"; "Tx interrupt"; "Rx error interrupt"; "Tx error interrupt"; "Rx drop"; "Rx count";
    "Tx count"].
Definition zcan_stats_label : list (list Z) :=
  map chars ["PIO Rx"; "PIO Tx"; "PIO Tx Hi"; "User Rx wait"; "User Rx wait intr"; "User Rx timeout";
    "User Rx partial"; "Bus off"; "Status error"; "Rx IP fifo overflow"; "Rx user fifo overflow"; "Tx timeout";
    "Tx LP fifo full"; "Rx user fifo full"; "Tx HP fifo full"; "CRC error"; "Frame error"; "Stuff error";
    "Bit error"; "Ack error"].
Definition zvideo_stats_label : list (list Z) :=
  map chars ["Frames received"; "Reset count"; "Trigger pulse error"; "Link change"; "DMA Rx buffer full";
    "DMA Rx FIFO full"; "Trigger count mismatch"; "Metadata count mismatch"; "Frame gap error";
    "Frame format error"; "Frame too short"; "Frame too long"; "Frame corrupted"; "Frame drop total";
    "Frame drop 1"; "Frame drop 2"; "Frame drop 3+"; "No video buffer"].
Definition INDENT : Z := 2.
Definition ALIGNMENT : Z := 24.

(** ** CAN tests *)
Section can_tests.
Context `{Env} `{ModParams}.

(** one message, tried ten times *)
Definition test_send (msg : list Z) : M can_ctx bool :=
  r ← for_break 10 1 (fun k =>
    rc ← on_chan (zchan_tx_one_msg msg sizeof_zcan_msg);
    if rc =? 0 then mret (Some true)
    else if k <? 10 then msleep 1;; mret None else mret (Some false));
  mret (default false r).
(** the messages from [i] on, until one cannot be sent *)
Fixpoint test_send_all (n : nat) (i : Z) : M can_ctx unit :=
  match n with
  | O => mret tt
  | S n' =>
      ok ← test_send [0x05000000; 0x80000000; u32 i; u32 i];
      if (ok : bool) then test_send_all n' (i + 1) else mret tt
  end.
Definition zcan_test (loopback msgcnt : Z) : M can_ctx unit :=
  zcan_pio_reset;;
  zcan_pio_start;;
  when (negb (loopback =? 0)) zcan_pio_loopback_set;;
  test_send_all (Z.to_nat msgcnt) 1;;
  mdelay ZCAN_PIO_STOP_DELAY.

(** whether all messages were sent *)
Fixpoint pio_test_send (n : nat) (i : Z) (hi_pri : bool) : M can_ctx bool :=
  match n with
  | O => mret true
  | S n' =>
      let cmsg := BcanMsg (bf_set 21 11 0 0x554) 0x80000000 0x55555555 (u32 i) 0 0 in
      rc ← (if hi_pri then zcan_pio_tx_hi_one cmsg true false else zcan_pio_tx_one cmsg true false);
      if negb (rc =? BCAN_OK) then mret false else pio_test_send n' (i + 1) hi_pri
  end.
Definition zcan_pio_test (loopback : Z) (hi_pri : bool) (msgcnt : Z) : M can_ctx unit :=
  if msgcnt =? 0 then mret tt
  else
    when (negb (loopback =? 0)) zcan_pio_loopback_set;;
    zcan_pio_start;;
    ktime_get;;
    ok ← pio_test_send (Z.to_nat msgcnt) 1 hi_pri;
    when ok (ktime_get;; mret tt);;
    mdelay ZCAN_PIO_STOP_DELAY;;
    when (negb (loopback =? 0)) zcan_pio_loopback_unset.
End can_tests.

Section sysfs.
Context `{Env} `{ModParams} `{Calendar} `{VideoParams} `{CamParams}.

Definition on_sdev {A} (m : M dev_ctx A) : M sysfs_ctx A := zoom sx_dev (fun d s => s<|sx_dev := d|>) m.
Definition sdev : M sysfs_ctx zynq_dev := gets (fun s => dx_zdev (sx_dev s)).
Definition vars : M sysfs_ctx sysfs_vars := gets sx_vars.
Definition upd_vars (f : sysfs_vars -> sysfs_vars) : M sysfs_ctx unit := modify (fun s => s<|sx_vars ::= f|>).

(** [sscanf]: the number of conversions, and what the [i]-th stores; a variable
    that no conversion reaches keeps its value *)
Definition sscanf (buf : list Z) : M sysfs_ctx Z := ask (KernelCall "sscanf" buf).
Definition scanned (conv : Z -> Z) (n i : Z) (old : M sysfs_ctx Z) : M sysfs_ctx Z :=
  if i <? n then conv <$> ask (KernelCall "sscanf.arg" [i]) else old.
(** one unsigned number *)
Definition scan_u (conv : Z -> Z) (buf : list Z) (name : string) : M sysfs_ctx Z :=
  n ← sscanf buf; scanned conv n 0 (conv <$> uninit name).

(** the CAN of an IP number, as the index of its channel *)
Definition is_can (ip : Z) (c : dev_chan) : bool :=
  match dc_dev c with DevCan z => zcan_ip_num z =? ip | _ => false end.
Definition is_cam (i : Z) (c : dev_chan) : bool :=
  match dc_dev c with DevVideo v _ => index v =? i | _ => false end.
Definition find_chan (P : dev_chan -> bool) (l : list dev_chan) : option Z :=
  Z.of_nat ∘ fst <$> list_find (fun c => P c) l.
Definition can_ip_to_zcan (can_ip_num : Z) : M sysfs_ctx (option Z) :=
  s ← get;
  mret (if zdev_can_cnt (dx_zdev (sx_dev s)) <=? can_ip_num then None
        else find_chan (is_can can_ip_num) (dx_chans (sx_dev s))).
(** the channel of the camera selected *)
Definition cam_chan (i : Z) : M sysfs_ctx Z :=
  s ← get; of_option (Index i) (find_chan (is_cam i) (dx_chans (sx_dev s))).
(** the current channel *)
Definition zchan_cur : M sysfs_ctx dev_chan := v ← vars; on_sdev (chan_at (zynq_sysfs_chan v)).

(** raw register access, which bring-up mode does not suppress *)
Definition reg32_rd (a : addr) : M sysfs_ctx Z := u32 <$> ask (MmioRead a).
Definition reg32_wr (a : addr) (val : Z) : M sysfs_ctx unit := tell (MmioWrite a (u32 val)).

(** ** Numbers of CANs and channels *)
Definition zynq_sysfs_num_can_ip_show : M sysfs_ctx (list Z) :=
  d ← sdev; mret (fmt_u (zdev_can_cnt d) ++ nl).
Definition zynq_sysfs_num_chan_show : M sysfs_ctx (list Z) :=
  d ← sdev; mret (fmt_u (zdev_chan_cnt d) ++ nl).

(** ** Selections *)
Definition zynq_sysfs_can_ip_read : M sysfs_ctx (list Z) :=
  v ← vars; mret (chars "CAN IP number is " ++ fmt_u (zynq_sysfs_can_ip v) ++ nl).
Definition zynq_sysfs_can_ip_set (buf : list Z) (sz : Z) : M sysfs_ctx Z :=
  can_ip ← scan_u u32 buf "can_ip";
  d ← sdev;
  ok ← (if zdev_can_cnt d <=? can_ip then mret false
        else z ← can_ip_to_zcan can_ip; mret (bool_decide (is_Some z)));
  (if (ok : bool) then upd_vars (fun v => v<|zynq_sysfs_can_ip := can_ip|>) else mret tt);;
  mret sz.

Definition zynq_sysfs_chan_read : M sysfs_ctx (list Z) :=
  v ← vars; mret (chars "channel number is " ++ fmt_u (zynq_sysfs_chan v) ++ nl).
Definition zynq_sysfs_chan_set (buf : list Z) (sz : Z) : M sysfs_ctx Z :=
  chan ← scan_u u32 buf "chan";
  d ← sdev;
  (if zdev_chan_cnt d <=? chan then mret tt else upd_vars (fun v => v<|zynq_sysfs_chan := chan|>));;
  mret sz.

Definition zynq_sysfs_i2c_bus_read : M sysfs_ctx (list Z) :=
  v ← vars; mret (chars "I2C bus number is " ++ fmt_u (zynq_sysfs_i2c_bus v) ++ nl).
Definition zynq_sysfs_i2c_bus_set (buf : list Z) (sz : Z) : M sysfs_ctx Z :=
  i2c_bus ← scan_u u8 buf "i2c_bus";
  (if ZYNQ_I2C_BUS_NUM <=? i2c_bus then mret tt else upd_vars (fun v => v<|zynq_sysfs_i2c_bus := i2c_bus|>));;
  mret sz.

Definition zynq_sysfs_cam_read : M sysfs_ctx (list Z) :=
  v ← vars; mret (chars "camera number is " ++ fmt_u (zynq_sysfs_cam v) ++ nl).
Definition zynq_sysfs_cam_set (buf : list Z) (sz : Z) : M sysfs_ctx Z :=
  cam ← scan_u u32 buf "cam";
  d ← sdev;
  (if zdev_video_cnt d <=? cam then mret tt else upd_vars (fun v => v<|zynq_sysfs_cam := cam|>));;
  mret sz.

(** ** Registers

    The text is an offset and a value, or an offset alone; [refused] tells which
    offsets are not accepted, [write] does the write and [select] keeps the
    offset for reading. *)
Definition reg_set (refused : Z -> bool) (write : Z -> Z -> M sysfs_ctx unit) (select : Z -> M sysfs_ctx unit)
    (buf : list Z) (sz : Z) : M sysfs_ctx Z :=
  n ← sscanf buf;
  offset ← scanned u32 n 0 (uninit "offset");
  (if has_space buf then
     val ← scanned u32 n 1 (uninit "val");
     if refused offset then mret tt else write offset val;; select offset
   else if refused offset then mret tt else select offset);;
  mret sz.

Definition zynq_sysfs_g_reg_read : M sysfs_ctx (list Z) :=
  v ← vars;
  let off := zynq_sysfs_g_reg_offset v in
  val ← reg32_rd (BAR0, off);
  mret (chars "device register offset 0x" ++ fmt_x off ++ chars " = 0x" ++ fmt_x val ++ nl).
Definition zynq_sysfs_g_reg_set (buf : list Z) (sz : Z) : M sysfs_ctx Z :=
  d ← sdev;
  reg_set (fun offset => u32 (zdev_bar0_len d - 4) <? offset)
    (fun offset val => reg32_wr (BAR0, offset) val)
    (fun offset => upd_vars (fun v => v<|zynq_sysfs_g_reg_offset := offset|>)) buf sz.

Definition zynq_sysfs_chan_reg_read : M sysfs_ctx (list Z) :=
  zchan ← zchan_cur;
  v ← vars;
  let off := zynq_sysfs_chan_reg_offset v in
  val ← reg32_rd (addr_add (zchan_reg (dc_zchan zchan)) off);
  mret (chars "channel " ++ fmt_u (zynq_sysfs_chan v) ++ chars " register offset 0x" ++ fmt_x off
        ++ chars " = 0x" ++ fmt_x val ++ nl).
Definition zynq_sysfs_chan_reg_set (buf : list Z) (sz : Z) : M sysfs_ctx Z :=
  reg_set (fun offset => ZYNQ_CHAN_REG_MAX <? offset)
    (fun offset val => zchan ← zchan_cur; reg32_wr (addr_add (zchan_reg (dc_zchan zchan)) offset) val)
    (fun offset => upd_vars (fun v => v<|zynq_sysfs_chan_reg_offset := offset|>)) buf sz.

(** the register of the current CAN, or of BAR2 when there is no such CAN or
    register *)
Definition can_ip_reg_addr (off : Z) : M sysfs_ctx (bool * addr) :=
  v ← vars;
  z ← can_ip_to_zcan (zynq_sysfs_can_ip v);
  match z with
  | Some k =>
      if off <=? ZCAN_IP_OFFSET - 4 then
        base ← on_sdev (on_can k (gets (fun s => zcan_ip_reg (cc_zcan s))));
        mret (true, addr_add base off)
      else mret (false, (BAR2, off))
  | None => mret (false, (BAR2, off))
  end.
Definition zynq_sysfs_can_ip_reg_read : M sysfs_ctx (list Z) :=
  v ← vars;
  let off := zynq_sysfs_can_ip_reg_offset v in
  '(can, a) ← can_ip_reg_addr off;
  val ← reg32_rd a;
  mret ((if (can : bool) then chars "CAN IP " ++ fmt_u (zynq_sysfs_can_ip v) else chars "Bar2")
        ++ chars " register offset 0x" ++ fmt_x off ++ chars " = 0x" ++ fmt_x val ++ nl).
Definition zynq_sysfs_can_ip_reg_set (buf : list Z) (sz : Z) : M sysfs_ctx Z :=
  d ← sdev;
  reg_set (fun offset => u32 (zdev_bar2_len d - 4) <? offset)
    (fun offset val => '(_, a) ← can_ip_reg_addr offset; reg32_wr a val)
    (fun offset => upd_vars (fun v => v<|zynq_sysfs_can_ip_reg_offset := offset|>)) buf sz.

(** ** I2C *)
Definition i2c_acc_of (v : sysfs_vars) (i2c_data i2c_addr_16 : Z) : ioc_zynq_i2c_acc :=
  I2cAcc (zynq_sysfs_i2c_id v) (zynq_sysfs_i2c_addr_hi v) (zynq_sysfs_i2c_addr v) i2c_data i2c_addr_16
    (zynq_sysfs_i2c_bus v).
Definition zynq_sysfs_i2c_read (i2c_addr_16 : Z) : M sysfs_ctx (list Z) :=
  v ← vars;
  '(err, i2c_acc) ← on_sdev (on_device (zdev_i2c_read (i2c_acc_of v 0 i2c_addr_16)));
  v ← vars;
  let i2c_addr :=
    if negb (i2c_addr_16 =? 0) then Z.lor (Z.shiftl (zynq_sysfs_i2c_addr_hi v) 8) (zynq_sysfs_i2c_addr v)
    else zynq_sysfs_i2c_addr v in
  mret (if negb (err =? 0) then
          chars "I2C read failed: id = 0x" ++ fmt_x (i2c_id i2c_acc) ++ chars ", addr = 0x" ++ fmt_x i2c_addr ++ nl
        else
          chars "I2C read OK: id = 0x" ++ fmt_x (i2c_id i2c_acc) ++ chars ", addr = 0x" ++ fmt_x i2c_addr
          ++ chars ", data = 0x" ++ fmt_x (i2c_data i2c_acc) ++ nl).
Definition zynq_sysfs_i2c_reg_read : M sysfs_ctx (list Z) := zynq_sysfs_i2c_read 0.
Definition zynq_sysfs_i2c_reg16_read : M sysfs_ctx (list Z) := zynq_sysfs_i2c_read 1.

Definition zynq_sysfs_i2c_write (buf : list Z) (i2c_addr_16 : Z) : M sysfs_ctx Z :=
  let addr_max := if negb (i2c_addr_16 =? 0) then 0xffff else 0xff in
  if negb (has_space buf) then mret (-1)
  else
    n ← sscanf buf;
    i2c_id ← scanned u32 n 0 (uninit "i2c_id");
    i2c_addr ← scanned u32 n 1 (uninit "i2c_addr");
    let select := upd_vars (fun v => v<|zynq_sysfs_i2c_id := u8 i2c_id|><|zynq_sysfs_i2c_addr := u8 i2c_addr|>
      <|zynq_sysfs_i2c_addr_hi := if negb (i2c_addr_16 =? 0) then u8 (Z.shiftr i2c_addr 8) else 0|>) in
    if (count_spaces (c_text buf) =? 1)%nat then
      (* only two arguments *)
      if ZYNQ_I2C_ID_MAX <? i2c_id then mret (-1)
      else if addr_max <? i2c_addr then mret (-1)
      else select;; mret 0
    else
      (* more than two arguments *)
      i2c_data ← scanned u32 n 2 (uninit "i2c_data");
      if ZYNQ_I2C_ID_MAX <? i2c_id then mret (-1)
      else if addr_max <? i2c_addr then mret (-1)
      else if 0xff <? i2c_data then mret (-1)
      else
        select;;
        v ← vars;
        on_sdev (on_device (zdev_i2c_write (i2c_acc_of v (u8 i2c_data) i2c_addr_16))).
Definition zynq_sysfs_i2c_reg_write (buf : list Z) (sz : Z) : M sysfs_ctx Z :=
  zynq_sysfs_i2c_write buf 0;; mret sz.
Definition zynq_sysfs_i2c_reg16_write (buf : list Z) (sz : Z) : M sysfs_ctx Z :=
  zynq_sysfs_i2c_write buf 1;; mret sz.

(** ** CAN tests *)

(** the current CAN; there may be none, and the pointer is then NULL *)
Definition zcan_cur : M sysfs_ctx (option Z) := v ← vars; can_ip_to_zcan (zynq_sysfs_can_ip v).
(** the numbers of the text, or 1 *)
Definition test_args (buf : list Z) : M sysfs_ctx (Z * Z) :=
  n ← sscanf buf;
  if has_space buf then
    loopback ← scanned s32 n 0 (mret 1);
    msgcnt ← scanned s32 n 1 (mret 1);
    mret (loopback, msgcnt)
  else
    msgcnt ← scanned s32 n 0 (mret 1);
    mret (1, msgcnt).
(** a test of the current CAN, when it sends by DMA or not, as [dma] says;
    refusing prints the CAN's number *)
Definition run_test (dma : bool) (idle : Z -> bool) (test : Z -> Z -> M can_ctx unit) (buf : list Z) (sz : Z) : M sysfs_ctx Z :=
  z ← zcan_cur;
  d ← sdev;
  if negb (Bool.eqb (negb (zcan_tx_dma d =? 0)) dma) then
    of_option NullDeref z;; mret sz
  else
    '(loopback, msgcnt) ← test_args buf;
    if idle msgcnt then mret sz
    else
      k ← of_option NullDeref z;
      on_sdev (on_can k (test loopback msgcnt));;
      mret sz.
(** a test of no messages does not look at the CAN, except to trace *)
Definition pio_idle (msgcnt : Z) : bool := (msgcnt =? 0) && negb (tst zynq_trace_param ZYNQ_TRACE_CAN_PIO).
Definition zynq_sysfs_can_ip_test : list Z -> Z -> M sysfs_ctx Z :=
  run_test false pio_idle (fun loopback msgcnt => zcan_pio_test loopback false msgcnt).
Definition zynq_sysfs_can_ip_hi_test : list Z -> Z -> M sysfs_ctx Z :=
  run_test false pio_idle (fun loopback msgcnt => zcan_pio_test loopback true msgcnt).
Definition zynq_sysfs_can_test : list Z -> Z -> M sysfs_ctx Z := run_test true (fun _ => false) zcan_test.

(** ** Transmit and receive rings *)

(** no ring to show: a camera, or a CAN that sends by registers *)
Definition tx_not_dma (d : zynq_dev) (zchan : dev_chan) : bool :=
  match zchan_type (dc_zchan zchan) with
  | ZYNQ_CHAN_VIDEO => true
  | ZYNQ_CHAN_CAN => zcan_tx_dma d =? 0
  | ZYNQ_CHAN_INVAL => false
  end.
Definition zynq_sysfs_tx_desc_read : M sysfs_ctx (list Z) :=
  v ← vars; mret (chars "tx descriptor number is " ++ fmt_u (zynq_sysfs_tx_desc v) ++ nl).
Definition zynq_sysfs_tx_desc_set (buf : list Z) (sz : Z) : M sysfs_ctx Z :=
  zchan ← zchan_cur;
  d ← sdev;
  if tx_not_dma d zchan then mret sz
  else
    tx_desc ← scan_u u32 buf "tx_desc";
    (if zchan_tx_num (zchan_tx_ring_of (dc_zchan zchan)) <=? tx_desc then mret tt
     else upd_vars (fun v => v<|zynq_sysfs_tx_desc := tx_desc|>));;
    mret sz.

(** the 64-bit words of a buffer *)
Fixpoint tx_buf_text (bufp : Z) (n : nat) (i : Z) : M sysfs_ctx (list Z) :=
  match n with
  | O => mret []
  | S n' =>
      x ← ask (KernelCall "load64" [bufp + 8 * i]);
      text ← tx_buf_text bufp n' (i + 1);
      mret (chars "tx_buf[" ++ fmt_u i ++ chars "]: 0x" ++ fmt_x (u64 x) ++ nl ++ text)
  end.
Definition fmt_p (p : Z) : list Z := digits 16 16 16 p [].
Definition zynq_sysfs_chan_tx_info_show : M sysfs_ctx (list Z) :=
  zchan ← zchan_cur;
  d ← sdev;
  v ← vars;
  if tx_not_dma d zchan then
    mret (chars "info not available: ch " ++ fmt_i (zchan_num (dc_zchan zchan)) ++ chars " Tx is not in DMA mode" ++ nl)
  else
    let tx := zchan_tx_ring_of (dc_zchan zchan) in
    let i := zynq_sysfs_tx_desc v in
    tx_descp ← array_get (zchan_tx_descp tx) i;
    reserved ← ask (KernelCall "load32" [zchan_tx_descp_va tx + sizeof_tx_desc * i]);
    bufp ← array_get (zchan_tx_bufs tx) i;
    text ← tx_buf_text (zchan_bufp bufp) (Z.to_nat (tx_len tx_descp / 8)) 0;
    mret (chars "------ channel " ++ fmt_u (zynq_sysfs_chan v) ++ chars " Tx info ------" ++ nl
      ++ chars "tx_descp=0x" ++ fmt_p (zchan_tx_descp_va tx) ++ chars ", tx_dma=0x" ++ fmt_x (zchan_tx_dma tx)
      ++ chars ", bufsz=0x" ++ fmt_x (zchan_tx_bufsz tx) ++ nl
      ++ chars "tx_desc[" ++ fmt_u i ++ chars "]: 0x"
      ++ fmt_x (Z.lor (u32 reserved) (Z.shiftl (tx_len tx_descp) 32)) ++ chars ", 0x" ++ fmt_x (tx_addr tx_descp) ++ nl
      ++ text
      ++ chars "tx_head=" ++ fmt_u (zchan_tx_head tx) ++ chars ", tx_tail=" ++ fmt_u (zchan_tx_tail tx)
      ++ chars ", tx_num=" ++ fmt_u (zchan_tx_num tx) ++ nl).

(** the lines of the page tables *)
Fixpoint rx_pt_text (rx : zchan_rx_tbl) (n : nat) (i : Z) : M sysfs_ctx (list Z) :=
  match n with
  | O => mret []
  | S n' =>
      pdt ← array_get (zchan_rx_pdt rx) i;
      ptp ← array_get (zchan_rx_ptp rx) i;
      entry ← array_get (zchan_rx_pt_entry ptp) 0;
      buf ← array_get (zchan_rx_pt_bufs ptp) 0;
      text ← rx_pt_text rx n' (i + 1);
      mret (chars "rx_pdt[" ++ fmt_u i ++ chars "]=0x" ++ fmt_x pdt ++ chars ": rx_pt=0x" ++ fmt_p (zchan_rx_pt_va ptp)
        ++ chars "(0x" ++ fmt_x entry ++ chars "), rx_pt_dma=0x" ++ fmt_x (zchan_rx_pt_dma ptp)
        ++ chars ", rx_buf_dma=0x" ++ fmt_x (zchan_buf_dma buf) ++ nl ++ text)
  end.
Definition zynq_sysfs_chan_rx_info_dump (zchan : zynq_chan) : M sysfs_ctx (list Z) :=
  v ← vars;
  let rx := zchan_rx_tbl_of zchan in
  text ← rx_pt_text rx (Z.to_nat (zchan_rx_pdt_num rx)) 0;
  mret (chars "------ channel " ++ fmt_u (zynq_sysfs_chan v) ++ chars " Rx info ------" ++ nl
    ++ chars "rx_pdt=0x" ++ fmt_p (zchan_rx_pdt_va rx) ++ chars ", rx_pdt_dma=0x" ++ fmt_x (zchan_rx_pdt_dma rx)
    ++ chars ", rx_pdt_num=" ++ fmt_u (zchan_rx_pdt_num rx) ++ nl ++ text
    ++ chars "rx_head=0x" ++ fmt_x (zchan_rx_head rx) ++ chars ", rx_tail=0x" ++ fmt_x (zchan_rx_tail rx)
    ++ chars ", rx_size=0x" ++ fmt_x (zchan_rx_size rx) ++ nl).
Definition zynq_sysfs_chan_rx_info_show : M sysfs_ctx (list Z) :=
  zchan ← zchan_cur;
  d ← sdev;
  let zc := dc_zchan zchan in
  match zchan_type zc, dc_dev zchan with
  | ZYNQ_CHAN_CAN, _ =>
      if zcan_rx_dma d =? 0 then
        mret (chars "info not available: ch " ++ fmt_i (zchan_num zc) ++ chars " Rx is not in DMA mode" ++ nl)
      else zynq_sysfs_chan_rx_info_dump zc
  | ZYNQ_CHAN_VIDEO, DevVideo zvideo _ =>
      if zynq_video_zero_copy then
        spin_lock (L_zvideo_q (index zvideo));;
        text ← zynq_sysfs_chan_rx_info_dump zc;
        spin_unlock (L_zvideo_q (index zvideo));;
        mret text
      else zynq_sysfs_chan_rx_info_dump zc
  | ZYNQ_CHAN_VIDEO, _ => fail BadCast
  | ZYNQ_CHAN_INVAL, _ =>
      mret (chars "info not available: ch " ++ fmt_i (zchan_num zc) ++ chars " channel type is not supported" ++ nl)
  end.

Definition zynq_sysfs_chan_pio_info_show : M sysfs_ctx (list Z) :=
  z ← zcan_cur;
  k ← of_option NullDeref z;
  v ← vars;
  c ← on_sdev (on_can k zcan);
  (if tst zynq_trace_param ZYNQ_TRACE_CAN || zynq_dbg_reg_dump_param
   then on_sdev (on_can k zcan_pio_dbg_reg_dump_ch) else mret tt);;
  mret (chars "------ channel PIO " ++ fmt_u (zynq_sysfs_can_ip v) ++ chars " info ------" ++ nl
    ++ chars "pio_rx_tail=" ++ fmt_i (zcan_buf_rx_tail c) ++ chars ", pio_rx_head=" ++ fmt_i (zcan_buf_rx_head c)
    ++ chars ", pio_rx_num=" ++ fmt_i (zcan_buf_rx_num c) ++ chars ", usr_buf_num=" ++ fmt_i (zcan_usr_buf_num c)
    ++ chars ", pio_usr_rx_num=" ++ fmt_i (zcan_usr_rx_num c) ++ chars ", pio_baudrate=" ++ fmt_u (zcan_pio_baudrate c)
    ++ chars ", zcan_usr_rx_seq=" ++ fmt_i (zcan_usr_rx_seq c) ++ nl).

(** ** Camera registers of 1 or 2 bytes *)
Definition on_cur_cam {A} (m : M vid_ctx A) : M sysfs_ctx A :=
  v ← vars; k ← cam_chan (zynq_sysfs_cam v); on_sdev (on_video k m).
Definition cam_reg_read (data_sz : Z) (fmt : Z -> list Z) : M sysfs_ctx (list Z) :=
  v ← vars;
  '(err, cam_acc) ← on_cur_cam (zcam_reg_read (CamAcc (zynq_sysfs_cam_reg v) data_sz 0));
  let what := fmt_u (zynq_sysfs_cam v) ++ chars " register 0x" ++ fmt_04x (zynq_sysfs_cam_reg v) in
  mret (if negb (err =? 0) then chars "failed to read camera " ++ what ++ nl
        else chars "camera " ++ what ++ chars " = 0x" ++ fmt (ca_data cam_acc) ++ nl).
Definition zynq_sysfs_cam_reg8_read : M sysfs_ctx (list Z) := cam_reg_read 1 (fun d => fmt_02x (u8 d)).
Definition zynq_sysfs_cam_reg16_read : M sysfs_ctx (list Z) := cam_reg_read 2 (fun d => fmt_04x (u16 d)).

(** the value is stored in the first bytes of [data], the others stay as they
    are *)
Definition cam_reg_set (data_sz : Z) (buf : list Z) (sz : Z) : M sysfs_ctx Z :=
  n ← sscanf buf;
  addr ← scanned u16 n 0 (u16 <$> uninit "cam_acc.addr");
  if has_space buf then
    data ← uninit "cam_acc.data";
    data ← (if 1 <? n then val ← ask (KernelCall "sscanf.arg" [1]); mret (bf_set 0 (8 * data_sz) data val)
            else mret data);
    err ← on_cur_cam (zcam_reg_write (CamAcc addr data_sz data));
    (if negb (err =? 0) then mret tt else upd_vars (fun v => v<|zynq_sysfs_cam_reg := addr|>));;
    mret sz
  else
    upd_vars (fun v => v<|zynq_sysfs_cam_reg := addr|>);;
    mret sz.
Definition zynq_sysfs_cam_reg8_set : list Z -> Z -> M sysfs_ctx Z := cam_reg_set 1.
Definition zynq_sysfs_cam_reg16_set : list Z -> Z -> M sysfs_ctx Z := cam_reg_set 2.

Definition zynq_sysfs_cam_change_config (buf : list Z) (sz : Z) : M sysfs_ctx Z :=
  data ← scan_u s32 buf "data";
  when (negb (data =? 0)) (on_cur_cam zcam_change_config;; mret tt);;
  mret sz.

(** ** Statistics *)
Definition label_text (label : list Z) : list Z :=
  spaces INDENT ++ label ++ spaces (Z.max 0 (ALIGNMENT - Z.of_nat (length label))).
Definition count_text (c : Z) : list Z := 32 :: pad 7 (fmt_u c).
Definition zynq_sysfs_list_stats (labels : list (list Z)) (stats : list zynq_stats) (num : Z) : list Z :=
  concat (take (Z.to_nat num) (zip_with (fun l s => label_text l ++ count_text (cnt s) ++ nl) labels stats)).

Definition zynq_sysfs_chan_stats_show : M sysfs_ctx (list Z) :=
  zchan ← zchan_cur;
  d ← sdev;
  let zc := dc_zchan zchan in
  let of_chan := zynq_sysfs_list_stats zchan_stats_label (zchan_stats zc) CHAN_STATS_NUM in
  match zchan_type zc, dc_dev zchan with
  | ZYNQ_CHAN_CAN, DevCan zcan =>
      mret (chars "Channel " ++ fmt_i (zchan_num zc) ++ chars ", can_ip " ++ fmt_i (zcan_ip_num zcan)
        ++ chars ", /dev/zynq_can" ++ fmt_u (u32 (zdev_can_num_start d + zcan_ip_num zcan)) ++ chars ":" ++ nl
        ++ of_chan ++ zynq_sysfs_list_stats zcan_stats_label (zcan_stats zcan) CAN_STATS_NUM)
  | ZYNQ_CHAN_VIDEO, DevVideo zvideo st =>
      mret (chars "Channel " ++ fmt_i (zchan_num zc) ++ chars ", vid " ++ fmt_i (index zvideo)
        ++ chars ", /dev/video" ++ fmt_i (vdev_num zvideo) ++ chars ":" ++ nl
        ++ of_chan ++ zynq_sysfs_list_stats zvideo_stats_label (video_stats st) VIDEO_STATS_NUM)
  | ZYNQ_CHAN_INVAL, _ => mret []
  | _, _ => fail BadCast
  end.

(** the drift per second, rounded *)
Definition sys_time_drift (d : zynq_dev) : Z :=
  let period := tv_sec (zdev_gps_ts d) - tv_sec (zdev_gps_ts_first d) in
  if 0 <? period then
    let total := Z.abs (zdev_sys_drift d) in
    let drift := total / period in
    let drift := if (drift + 1) * period - total <? total - drift * period then drift + 1 else drift in
    if zdev_sys_drift d <? 0 then - drift else drift
  else 0.

(** the CANs and the cameras of the device, in order *)
Definition cans_of (s : dev_ctx) : list (zynq_chan * zynq_can) :=
  omap (fun c => match dc_dev c with DevCan z => Some (dc_zchan c, z) | _ => None end) (dx_chans s).
Definition cams_of (s : dev_ctx) : list (zynq_chan * zynq_video * zvideo_stream) :=
  omap (fun c => match dc_dev c with DevVideo v st => Some (dc_zchan c, v, st) | _ => None end) (dx_chans s).

(** the rows of counters, one for each label *)
Definition can_rows {A} (labels : list (list Z)) (l : list A) (stats : A -> list zynq_stats) : list Z :=
  concat (imap (fun i label =>
    nl ++ label_text label ++ concat (map (fun a => count_text (cnt (default (ZStats 0 0) (stats a !! i)))) l)) labels).
(** the same for the cameras that are registered, asked each time *)
Fixpoint cam_cells {A} (l : list (zynq_chan * zynq_video * A)) (cell : zynq_chan * zynq_video * A -> list Z)
  : M sysfs_ctx (list Z) :=
  match l with
  | [] => mret []
  | c :: l' =>
      registered ← ask (KernelCall "video_is_registered" [index (snd (fst c))]);
      text ← cam_cells l' cell;
      mret ((if registered =? 0 then [] else cell c) ++ text)
  end.
Fixpoint cam_rows {A} (i : nat) (labels : list (list Z)) (l : list (zynq_chan * zynq_video * A))
    (stats : zynq_chan * zynq_video * A -> list zynq_stats) : M sysfs_ctx (list Z) :=
  match labels with
  | [] => mret []
  | label :: labels' =>
      cells ← cam_cells l (fun c => count_text (cnt (default (ZStats 0 0) (stats c !! i))));
      text ← cam_rows (S i) labels' l stats;
      mret (nl ++ label_text label ++ cells ++ text)
  end.

Definition zynq_sysfs_stats_show : M sysfs_ctx (list Z) :=
  s ← get;
  d ← sdev;
  let cans := take (Z.to_nat (zdev_can_cnt d)) (cans_of (sx_dev s)) in
  let cams := take (Z.to_nat (zdev_video_cnt d)) (cams_of (sx_dev s)) in
  (* the labels are taken from the first CAN *)
  array_get (cans_of (sx_dev s)) 0;;
  let text :=
    chars "General:" ++ nl ++ zynq_sysfs_list_stats zdev_stats_label (zdev_stats d) DEV_STATS_NUM
    ++ (if tst zynq_trace_param ZYNQ_TRACE_GPS then
          spaces INDENT ++ chars "SYS time drift" ++ spaces (ALIGNMENT - 14) ++ 32 :: pad 7 (fmt_i (sys_time_drift d)) ++ nl
        else [])
    ++ nl ++ chars "CAN Channels:" ++ spaces (ALIGNMENT + INDENT - 13)
    ++ concat (map (fun c => chars "    can" ++ fmt_u (u32 (zdev_can_num_start d + zcan_ip_num (snd c)))) cans)
    ++ can_rows zchan_stats_label cans (fun c => zchan_stats (fst c))
    ++ can_rows zcan_stats_label cans (fun c => zcan_stats (snd c)) ++ nl in
  vcnt ← cam_cells cams (fun _ => [0]);
  match vcnt with
  | [] => mret text
  | _ =>
      names ← cam_cells cams (fun c =>
        let num := vdev_num (snd (fst c)) in
        spaces (if num <? 10 then 2 else 1) ++ chars "video" ++ fmt_i num);
      rows1 ← cam_rows 0 zchan_stats_label cams (fun c => zchan_stats (fst (fst c)));
      rows2 ← cam_rows 0 zvideo_stats_label cams (fun c => video_stats (snd c));
      mret (text ++ nl ++ chars "Video Channels:" ++ spaces (ALIGNMENT + INDENT - 15) ++ names ++ rows1 ++ rows2 ++ nl)
  end.

(** ** The attributes, and what is called for them *)
Inductive zynq_sysfs_attr :=
| num_can_ip | num_chan | can_ip | chan | g_reg_value | i2c_bus_no | i2c_reg_value | i2c_reg16_value
| chan_reg_value | can_ip_reg_value | can_ip_test | can_ip_hi_test | can_test | tx_desc | chan_tx_info
| chan_rx_info | chan_pio_info | cam_no | cam_reg8 | cam_reg16 | chan_stats | stats | cam_change_config.
Definition attr_show (a : zynq_sysfs_attr) : option (M sysfs_ctx (list Z)) :=
  match a with
  | num_can_ip => Some zynq_sysfs_num_can_ip_show
  | num_chan => Some zynq_sysfs_num_chan_show
  | can_ip => Some zynq_sysfs_can_ip_read
  | chan => Some zynq_sysfs_chan_read
  | g_reg_value => Some zynq_sysfs_g_reg_read
  | i2c_bus_no => Some zynq_sysfs_i2c_bus_read
  | i2c_reg_value => Some zynq_sysfs_i2c_reg_read
  | i2c_reg16_value => Some zynq_sysfs_i2c_reg16_read
  | chan_reg_value => Some zynq_sysfs_chan_reg_read
  | can_ip_reg_value => Some zynq_sysfs_can_ip_reg_read
  | tx_desc => Some zynq_sysfs_tx_desc_read
  | chan_tx_info => Some zynq_sysfs_chan_tx_info_show
  | chan_rx_info => Some zynq_sysfs_chan_rx_info_show
  | chan_pio_info => Some zynq_sysfs_chan_pio_info_show
  | cam_no => Some zynq_sysfs_cam_read
  | cam_reg8 => Some zynq_sysfs_cam_reg8_read
  | cam_reg16 => Some zynq_sysfs_cam_reg16_read
  | chan_stats => Some zynq_sysfs_chan_stats_show
  | stats => Some zynq_sysfs_stats_show
  | can_ip_test | can_ip_hi_test | can_test | cam_change_config => None
  end.
Definition attr_store (a : zynq_sysfs_attr) : option (list Z -> Z -> M sysfs_ctx Z) :=
  match a with
  | can_ip => Some zynq_sysfs_can_ip_set
  | chan => Some zynq_sysfs_chan_set
  | g_reg_value => Some zynq_sysfs_g_reg_set
  | i2c_bus_no => Some zynq_sysfs_i2c_bus_set
  | i2c_reg_value => Some zynq_sysfs_i2c_reg_write
  | i2c_reg16_value => Some zynq_sysfs_i2c_reg16_write
  | chan_reg_value => Some zynq_sysfs_chan_reg_set
  | can_ip_reg_value => Some zynq_sysfs_can_ip_reg_set
  | can_ip_test => Some zynq_sysfs_can_ip_test
  | can_ip_hi_test => Some zynq_sysfs_can_ip_hi_test
  | can_test => Some zynq_sysfs_can_test
  | tx_desc => Some zynq_sysfs_tx_desc_set
  | cam_no => Some zynq_sysfs_cam_set
  | cam_reg8 => Some zynq_sysfs_cam_reg8_set
  | cam_reg16 => Some zynq_sysfs_cam_reg16_set
  | cam_change_config => Some zynq_sysfs_cam_change_config
  | num_can_ip | num_chan | chan_tx_info | chan_rx_info | chan_pio_info | chan_stats | stats => None
  end.
Definition zynq_show_sysfs (a : zynq_sysfs_attr) : M sysfs_ctx (list Z) := default (mret []) (attr_show a).
Definition zynq_store_sysfs (a : zynq_sysfs_attr) (buf : list Z) (sz : Z) : M sysfs_ctx Z :=
  match attr_store a with Some f => f buf sz | None => mret 0 end.

Definition zynq_sysfs_attrs : list zynq_sysfs_attr :=
  [num_can_ip; num_chan; can_ip; chan; g_reg_value; i2c_bus_no; i2c_reg_value; i2c_reg16_value; chan_reg_value;
   can_ip_reg_value; can_ip_test; can_ip_hi_test; can_test; tx_desc; chan_tx_info; chan_rx_info; chan_pio_info;
   cam_no; cam_reg8; cam_reg16; chan_stats; stats; cam_change_config].
Definition zynq_sysfs_fw_attrs : list zynq_sysfs_attr := [g_reg_value; can_ip_reg_value].
(** the attributes a device has *)
Definition device_attrs : list zynq_sysfs_attr :=
  if zynq_fwupdate_param then zynq_sysfs_fw_attrs else zynq_sysfs_attrs.
End sysfs.

(** ** All devices ([zynq_zdev_all_show] of [basa_main.c])

    The attribute of the module; the devices are those of the driver's list, in
    its order. *)
Record zdev_entry := ZdevEntry { ze_name : list Z; ze_code_name : list Z; ze_vid : Z; ze_dev : dev_ctx }.
#[global] Instance zdev_entry_eta : Eta zdev_entry := fun r =>
  ZdevEntry (ze_name r) (ze_code_name r) (ze_vid r) (ze_dev r).
Definition fmt_08x (v : Z) : list Z := digits 16 16 8 v [].
Definition has_cap (d : zynq_dev) (cap : Z) : bool := tst (zdev_hw_cap d) cap.
Definition node_text (d : zynq_dev) (cap : Z) (name : string) : list Z :=
  if has_cap d cap then chars "    " ++ chars name ++ fmt_i (zdev_inst d) ++ nl else [].
(** the cameras with their link up *)
Definition video_text (d : zynq_dev) (i : nat) (v : zynq_video) : option (list Z) :=
  if link_up (caps v) =? 0 then Some []
  else
    let line := chars "    Video device: video" ++ fmt_i (vdev_num v) ++ chars " (vid" ++ fmt_u (Z.of_nat i) ++ chars ")" in
    match zdev_video_port_map d with
    | Some ports => port ← ports !! i; Some (line ++ chars " (port" ++ fmt_i port ++ chars ")" ++ nl)
    | None => Some (line ++ nl)
    end.
(** the text for a device with the version just read; [None] when its table of
    ports is too short *)
Definition zdev_text (e : zdev_entry) : option (list Z) :=
  let d := dx_zdev (ze_dev e) in
  let vids := map (fun c => snd (fst c)) (take (Z.to_nat (zdev_video_cnt d)) (cams_of (ze_dev e))) in
  videos ← (if has_cap d ZYNQ_HW_CAP_VIDEO then mapM (fun x => x) (imap (video_text d) vids) else Some []);
  Some (nl ++ ze_name e ++ chars ": " ++ ze_code_name e ++ chars " card, F/W version=0x"
    ++ fmt_08x (Z.land (zdev_version d) 0x7FFFFFFF) ++ chars ", driver version=3.0.0.5" ++ nl
    ++ chars "    vendorID=0x" ++ fmt_x (ze_vid e) ++ chars ", deviceID=0x" ++ fmt_x (zdev_did d)
    ++ chars ", instance=" ++ fmt_i (zdev_inst d) ++ nl
    ++ chars "    REG device: zynq_reg" ++ fmt_i (zdev_inst d) ++ nl
    ++ node_text d ZYNQ_HW_CAP_I2C "I2C device: zynq_i2c"
    ++ (if has_cap d ZYNQ_HW_CAP_CAN then
          chars "    CAN devices: zynq_can[" ++ fmt_u (zdev_can_num_start d) ++ chars " - "
          ++ fmt_u (u32 (zdev_can_num_start d + zdev_can_cnt d - 1)) ++ chars "]" ++ nl
        else [])
    ++ node_text d ZYNQ_HW_CAP_GPS "GPS device: zynq_gps"
    ++ node_text d ZYNQ_HW_CAP_FW "FW device: zynq_fw"
    ++ node_text d ZYNQ_HW_CAP_TRIGGER "Trigger device: zynq_trigger"
    ++ concat videos).
Definition set_version (v : Z) (e : zdev_entry) : zdev_entry :=
  e<|ze_dev := set_zdev ((dx_zdev (ze_dev e))<|zdev_version := v|>) (ze_dev e)|>.

Section all_devices.
Context `{Env} `{ModParams}.

(** the devices from the [i]-th on; the version is read anew and kept *)
Fixpoint zdev_all_text (n i : nat) : M (list zdev_entry) (list Z) :=
  match n with
  | O => mret []
  | S n' =>
      version ← zynq_g_reg_read ZYNQ_G_VERSION;
      modify (alter (set_version version) i);;
      l ← get;
      e ← of_option (Index (Z.of_nat i)) (l !! i);
      text ← of_option (Index (zdev_video_cnt (dx_zdev (ze_dev e)))) (zdev_text e);
      rest ← zdev_all_text n' (S i);
      mret (text ++ rest)
  end.
Definition zynq_zdev_all_show : M (list zdev_entry) (list Z) :=
  spin_lock L_zynq_g;;
  l ← get;
  match l with
  | [] => spin_unlock L_zynq_g;; mret (nl ++ chars "No FPGA device is found!" ++ nl)
  | _ =>
      text ← zdev_all_text (length l) 0;
      spin_unlock L_zynq_g;;
      mret text
  end.
End all_devices.

(** ** Specification *)

(** the attributes that select, and those of single registers *)
Definition direct_attrs : list zynq_sysfs_attr :=
  [num_can_ip; num_chan; can_ip; chan; g_reg_value; i2c_bus_no; chan_reg_value; can_ip_reg_value; tx_desc; cam_no].

(** a 32-bit access at [a] stays within the mappings *)
Definition inside (d : zynq_dev) (a : addr) : Prop :=
  match a with
  | (BAR0, off) => 0 <= off /\ off + 4 <= zdev_bar0_len d
  | (BAR2, off) => 0 <= off /\ off + 4 <= zdev_bar2_len d
  end.
Definition mapped_access (d : zynq_dev) (e : event) : Prop :=
  match ev_call e with MmioRead a | MmioWrite a _ => inside d a | _ => True end.

(** a device as probing leaves it, on a card whose mappings have room for the registers of
    its channels and CANs: that the driver does not look at *)
Record well_mapped (s : dev_ctx) : Prop := {
  lo_chans : zdev_chan_cnt (dx_zdev s) = Z.of_nat (length (dx_chans s));
  lo_some : 0 < zdev_chan_cnt (dx_zdev s);
  lo_bar0 : ZYNQ_CHAN_REG_OFFSET * (zdev_chan_cnt (dx_zdev s) - 1) + ZYNQ_CHAN_REG_MAX + 4
              <= zdev_bar0_len (dx_zdev s) < 2 ^ 32;
  lo_bar2 : 4 <= zdev_bar2_len (dx_zdev s) < 2 ^ 32;
  lo_bar2_cans : ZCAN_IP_OFFSET * zdev_can_cnt (dx_zdev s) <= zdev_bar2_len (dx_zdev s);
  lo_chan : forall i c, dx_chans s !! i = Some c ->
    zchan_reg (dc_zchan c) = (BAR0, ZYNQ_CHAN_REG_OFFSET * Z.of_nat i);
  lo_can : forall i c z, dx_chans s !! i = Some c -> dc_dev c = DevCan z ->
    zcan_ip_reg z = (BAR2, ZCAN_IP_OFFSET * zcan_ip_num z) /\ 0 <= zcan_ip_num z < zdev_can_cnt (dx_zdev s)
}.

(** a request to the attributes of a device: to read one or to write one *)
Inductive sysfs_req :=
| ShowAttr (a : zynq_sysfs_attr)
| StoreAttr (a : zynq_sysfs_attr) (buf : list Z) (sz : Z).
Definition sysfs_attr_of (r : sysfs_req) : zynq_sysfs_attr :=
  match r with ShowAttr a | StoreAttr a _ _ => a end.
Definition sysfs_request `{Env} `{ModParams} `{Calendar} `{VideoParams} `{CamParams} (r : sysfs_req) : M sysfs_ctx unit :=
  match r with
  | ShowAttr a => zynq_show_sysfs a;; mret tt
  | StoreAttr a buf sz => zynq_store_sysfs a buf sz;; mret tt
  end.
Definition sysfs_run `{Env} `{ModParams} `{Calendar} `{VideoParams} `{CamParams} : list sysfs_req -> M sysfs_ctx unit :=
  fold_right (fun r rest => sysfs_request r;; rest) (mret tt).

(** the variables select what there is *)
Record in_range (s : sysfs_ctx) : Prop := {
  ir_can_ip : zynq_sysfs_can_ip (sx_vars s) = 0 \/
    0 <= zynq_sysfs_can_ip (sx_vars s) < zdev_can_cnt (dx_zdev (sx_dev s));
  ir_chan : 0 <= zynq_sysfs_chan (sx_vars s) < zdev_chan_cnt (dx_zdev (sx_dev s));
  ir_g_reg : 0 <= zynq_sysfs_g_reg_offset (sx_vars s) <= zdev_bar0_len (dx_zdev (sx_dev s)) - 4;
  ir_i2c_bus : 0 <= zynq_sysfs_i2c_bus (sx_vars s) < ZYNQ_I2C_BUS_NUM;
  ir_chan_reg : 0 <= zynq_sysfs_chan_reg_offset (sx_vars s) <= ZYNQ_CHAN_REG_MAX;
  ir_can_reg : 0 <= zynq_sysfs_can_ip_reg_offset (sx_vars s) <= zdev_bar2_len (dx_zdev (sx_dev s)) - 4;
  ir_cam : zynq_sysfs_cam (sx_vars s) = 0 \/
    0 <= zynq_sysfs_cam (sx_vars s) < zdev_video_cnt (dx_zdev (sx_dev s));
  (* a descriptor of the ring of a channel that sends by DMA *)
  ir_tx_desc : zynq_sysfs_tx_desc (sx_vars s) = 0 \/
    exists i c, dx_chans (sx_dev s) !! i = Some c /\ tx_not_dma (dx_zdev (sx_dev s)) c = false /\
      0 <= zynq_sysfs_tx_desc (sx_vars s) < zchan_tx_num (zchan_tx_ring_of (dc_zchan c))
}.

(** the device is as before, the variables are in range, and the accesses made
    are within the mappings *)
Definition confined (w w' : world sysfs_ctx) : Prop :=
  sx_dev (w_st w') = sx_dev (w_st w) /\ in_range (w_st w') /\
  exists evs, w_log w' = evs ++ w_log w /\ Forall (mapped_access (dx_zdev (sx_dev (w_st w)))) evs.

(** ** Lemmas *)

(** the drift shown is the nearest to the one per second *)
Lemma sys_time_drift_nearest d :
  let period := tv_sec (zdev_gps_ts d) - tv_sec (zdev_gps_ts_first d) in
  0 < period -> 2 * Z.abs (sys_time_drift d * period - zdev_sys_drift d) <= period.
Proof.
  intros period Hp. unfold sys_time_drift. fold period. rewrite (proj2 (Z.ltb_lt 0 period)) by done.
  set (q := Z.abs (zdev_sys_drift d) / period).
  pose proof (Z.mul_div_le (Z.abs (zdev_sys_drift d)) period Hp) as Hlo. fold q in Hlo.
  pose proof (Z.mul_succ_div_gt (Z.abs (zdev_sys_drift d)) period Hp) as Hhi. fold q in Hhi.
  set (r := if _ <? _ then q + 1 else q).
  assert (2 * Z.abs (r * period - Z.abs (zdev_sys_drift d)) <= period) as Hr.
  { unfold r. destruct (Z.ltb_spec ((q + 1) * period - Z.abs (zdev_sys_drift d)) (Z.abs (zdev_sys_drift d) - q * period)); lia. }
  destruct (Z.ltb_spec (zdev_sys_drift d) 0); lia.
Qed.

Lemma find_chan_Some P l k : find_chan P l = Some k ->
  exists i c, k = Z.of_nat i /\ l !! i = Some c /\ P c = true.
Proof.
  unfold find_chan. intros ([i c] & (Hl & HP & _)%list_find_Some & ->)%fmap_Some.
  exists i, c. split; [done |]. split; [done |]. by apply Is_true_true.
Qed.

Section sysfs_lemmas.
Context `{Env} `{ModParams} `{Calendar} `{VideoParams} `{CamParams}.
Implicit Types w v : world sysfs_ctx.

Lemma confined_refl w : in_range (w_st w) -> confined w w.
Proof. intros Hr. split; [done |]. split; [done |]. by exists []. Qed.
Lemma confined_trans w v v' : confined w v -> confined v v' -> confined w v'.
Proof.
  intros (S1 & _ & e1 & L1 & F1) (S2 & R2 & e2 & L2 & F2). rewrite S1 in F2. split; [congruence |].
  split; [exact R2 |]. exists (e2 ++ e1). rewrite L2, L1, app_assoc. split; [done |]. by apply Forall_app.
Qed.
Lemma confined_emit w e : in_range (w_st w) -> mapped_access (dx_zdev (sx_dev (w_st w))) e -> confined w (emit e w).
Proof.
  intros Hr He. split; [done |]. split; [exact Hr |]. exists [e]. split; [done |]. by apply Forall_singleton.
Qed.

(** code that keeps to its bounds, whatever it finds *)
Definition keeps_to {A} (m : M sysfs_ctx A) : Prop :=
  forall w, well_mapped (sx_dev (w_st w)) -> in_range (w_st w) -> wp m (fun _ w' => confined w w') w.

Lemma wp_then {A} (m : M sysfs_ctx A) w (Q : A -> world sysfs_ctx -> Prop) :
  keeps_to m -> well_mapped (sx_dev (w_st w)) -> in_range (w_st w) ->
  (forall a v, confined w v -> well_mapped (sx_dev (w_st v)) -> in_range (w_st v) -> Q a v) -> wp m Q w.
Proof.
  intros Hm Hl Hr HQ. eapply wp_mono; [by apply Hm |]. intros a v Hv. pose proof Hv as (Es & Hrv & _).
  apply HQ; [exact Hv | by rewrite Es | exact Hrv].
Qed.
Lemma keeps_to_ret {A} (a : A) : keeps_to (mret a).
Proof. intros w _ Hr. by apply wp_ret, confined_refl. Qed.
Lemma keeps_to_bind {A B} (m : M sysfs_ctx A) (f : A -> M sysfs_ctx B) :
  keeps_to m -> (forall a, keeps_to (f a)) -> keeps_to (m ≫= f).
Proof.
  intros Hm Hf w Hl Hr. apply wp_bind, wp_then; [done | done | done |]. intros a v Hv Hl' Hr'.
  apply wp_then; [done | done | done |]. intros b v' Hv' _ _. by eapply confined_trans.
Qed.
Lemma keeps_fmap {A B} (m : M sysfs_ctx A) (f : A -> B) : keeps_to m -> keeps_to (f <$> m).
Proof. intros Hm. apply keeps_to_bind; [done | intros a; apply keeps_to_ret]. Qed.
Lemma keeps_gets {A} (f : sysfs_ctx -> A) : keeps_to (gets f).
Proof. intros w _ Hr. by apply wp_gets, confined_refl. Qed.
Lemma keeps_get : keeps_to get.
Proof. intros w _ Hr. by apply wp_get, confined_refl. Qed.
Lemma keeps_call name args : keeps_to (ask (KernelCall name args)).
Proof. intros w _ Hr. apply wp_ask. intros r _. by apply confined_emit. Qed.

(** a change of the variables that keeps them in range *)
Lemma keeps_upd f :
  (forall s, in_range s -> in_range (s<|sx_vars ::= f|>)) -> keeps_to (upd_vars f).
Proof.
  intros Hf w _ Hr. apply wp_modify. split; [by destruct (w_st w) |]. split; [by apply Hf |]. by exists [].
Qed.
#[local] Hint Resolve keeps_to_ret keeps_fmap keeps_gets keeps_get keeps_call : basa.
#[local] Ltac keeps_steps :=
  repeat match goal with
  | |- keeps_to (_ ≫= _) => apply keeps_to_bind; [auto with basa | intros ?]
  | |- keeps_to (if ?b then _ else _) => destruct b
  | |- keeps_to _ => solve [auto with basa]
  end.

Lemma keeps_uninit name : keeps_to (uninit name).
Proof. unfold uninit. keeps_steps. Qed.
Lemma keeps_scanned conv n i old : keeps_to old -> keeps_to (scanned conv n i old).
Proof. intros Ho. unfold scanned. keeps_steps. Qed.
#[local] Hint Resolve keeps_uninit keeps_scanned : basa.
Lemma keeps_sscanf buf : keeps_to (sscanf buf).
Proof. unfold sscanf. auto with basa. Qed.
#[local] Hint Resolve keeps_sscanf : basa.
Lemma keeps_can_ip_to_zcan n : keeps_to (can_ip_to_zcan n).
Proof. unfold can_ip_to_zcan. keeps_steps. Qed.
#[local] Hint Resolve keeps_can_ip_to_zcan : basa.

(** a number scanned has the range of its conversion *)
Lemma wp_scan_u conv buf name lo hi w (Q : Z -> world sysfs_ctx -> Prop) :
  (forall x, lo <= conv x < hi) -> well_mapped (sx_dev (w_st w)) -> in_range (w_st w) ->
  (forall x v, lo <= x < hi -> confined w v -> well_mapped (sx_dev (w_st v)) -> in_range (w_st v) -> Q x v) ->
  wp (scan_u conv buf name) Q w.
Proof.
  intros Hc Hl Hr HQ. unfold scan_u. apply wp_bind, wp_then; [apply keeps_sscanf | done | done |].
  intros n v Hv Hl' Hr'. unfold scanned. destruct (0 <? n); apply wp_fmap.
  - apply wp_then; [apply keeps_call | done | done |]. intros a v' Hv' Hl2 Hr2.
    apply HQ; [apply Hc | by eapply confined_trans | done | done].
  - apply wp_then; [apply keeps_uninit | done | done |]. intros a v' Hv' Hl2 Hr2.
    apply HQ; [apply Hc | by eapply confined_trans | done | done].
Qed.
Lemma wp_scanned conv n i name lo hi w (Q : Z -> world sysfs_ctx -> Prop) :
  (forall x, lo <= conv x < hi) -> (forall x, lo <= u32 x < hi) -> well_mapped (sx_dev (w_st w)) -> in_range (w_st w) ->
  (forall x v, lo <= x < hi -> confined w v -> well_mapped (sx_dev (w_st v)) -> in_range (w_st v) -> Q x v) ->
  wp (scanned conv n i (uninit name)) Q w.
Proof.
  intros Hc Hu Hl Hr HQ. unfold scanned. destruct (i <? n).
  - apply wp_fmap, wp_then; [apply keeps_call | done | done |]. intros a v' Hv' Hl2 Hr2. by apply HQ.
  - unfold uninit. apply wp_bind, wp_then; [apply keeps_call | done | done |]. intros a v' Hv' Hl2 Hr2.
    by apply wp_ret, HQ.
Qed.

Lemma wp_from {A} (m : M sysfs_ctx A) w v :
  confined w v -> wp m (fun _ v' => confined v v') v -> wp m (fun _ v' => confined w v') v.
Proof. intros Hv Hm. eapply wp_mono; [exact Hm |]. intros a v' Hv'. by eapply confined_trans. Qed.
Lemma wp_upd f w : in_range ((w_st w)<|sx_vars ::= f|>) -> wp (upd_vars f) (fun _ w' => confined w w') w.
Proof.
  intros Hr. apply wp_modify. split; [by destruct (w_st w) |]. split; [exact Hr |]. by exists [].
Qed.
(** a selection: stored when it is accepted *)
Lemma wp_select (b : bool) f (sz : Z) w :
  in_range (w_st w) -> (b = false -> in_range ((w_st w)<|sx_vars ::= f|>)) ->
  wp ((if b then mret tt else upd_vars f);; mret sz) (fun _ w' => confined w w') w.
Proof.
  intros Hr Hf. apply wp_bind. destruct b.
  - by apply wp_ret, wp_ret, confined_refl.
  - eapply wp_mono; [by apply wp_upd, Hf |]. intros [] v Hv. by apply wp_ret.
Qed.

(** the ranges after one variable is set *)
#[local] Ltac range_after Hr := destruct Hr; split; cbn; first [done | lia | by right].

Lemma keeps_can_ip_set buf sz : keeps_to (zynq_sysfs_can_ip_set buf sz).
Proof.
  intros w Hl Hr. apply wp_bind, (wp_scan_u _ _ _ 0 (2 ^ 32)); [apply u32_range | done | done |].
  intros x v Hx Hv Hl' Hr'. apply (wp_from _ w v Hv).
  unfold sdev, can_ip_to_zcan. apply wp_bind, wp_gets, wp_bind. destruct (Z.leb_spec (zdev_can_cnt (dx_zdev (sx_dev (w_st v)))) x).
  - apply wp_ret, wp_bind, wp_ret, wp_ret. by apply confined_refl.
  - apply wp_bind, wp_bind, wp_get, wp_ret, wp_ret, wp_bind. destruct (bool_decide _).
    + eapply wp_mono; [apply wp_upd; range_after Hr' |]. intros [] v' Hv'. by apply wp_ret.
    + by apply wp_ret, wp_ret, confined_refl.
Qed.
Lemma keeps_chan_set buf sz : keeps_to (zynq_sysfs_chan_set buf sz).
Proof.
  intros w Hl Hr. apply wp_bind, (wp_scan_u _ _ _ 0 (2 ^ 32)); [apply u32_range | done | done |].
  intros x v Hx Hv Hl' Hr'. apply (wp_from _ w v Hv). unfold sdev. apply wp_bind, wp_gets.
  apply wp_select; [done |]. intros Hlt%Z.leb_gt. range_after Hr'.
Qed.
Lemma keeps_i2c_bus_set buf sz : keeps_to (zynq_sysfs_i2c_bus_set buf sz).
Proof.
  intros w Hl Hr. apply wp_bind, (wp_scan_u _ _ _ 0 (2 ^ 8)); [apply u8_range | done | done |].
  intros x v Hx Hv Hl' Hr'. apply (wp_from _ w v Hv).
  apply wp_select; [done |]. intros Hlt%Z.leb_gt. range_after Hr'.
Qed.
Lemma keeps_cam_set buf sz : keeps_to (zynq_sysfs_cam_set buf sz).
Proof.
  intros w Hl Hr. apply wp_bind, (wp_scan_u _ _ _ 0 (2 ^ 32)); [apply u32_range | done | done |].
  intros x v Hx Hv Hl' Hr'. apply (wp_from _ w v Hv). unfold sdev. apply wp_bind, wp_gets.
  apply wp_select; [done |]. intros Hlt%Z.leb_gt. range_after Hr'.
Qed.

(** the current channel exists *)
Lemma wp_zchan_cur w (Q : dev_chan -> world sysfs_ctx -> Prop) :
  well_mapped (sx_dev (w_st w)) -> in_range (w_st w) ->
  (forall c, dx_chans (sx_dev (w_st w)) !! Z.to_nat (zynq_sysfs_chan (sx_vars (w_st w))) = Some c -> Q c w) ->
  wp zchan_cur Q w.
Proof.
  intros Hl Hr HQ. unfold zchan_cur, vars. apply wp_bind, wp_gets. unfold on_sdev, chan_at.
  apply wp_zoom, wp_bind, wp_get. cbn [w_st]. pose proof (ir_chan _ Hr). pose proof (lo_chans _ Hl).
  destruct (zlookup_Some (dx_chans (sx_dev (w_st w))) (zynq_sysfs_chan (sx_vars (w_st w)))) as [c Hc]; [lia |].
  apply wp_array_get. exists c. split; [exact Hc |]. cbn [w_log w_held w_st].
  rewrite zlookup_nonneg in Hc by lia. specialize (HQ c Hc). by destruct w as [l h [d x]].
Qed.
Lemma keeps_tx_desc_set buf sz : keeps_to (zynq_sysfs_tx_desc_set buf sz).
Proof.
  intros w Hl Hr. unfold zynq_sysfs_tx_desc_set. apply wp_bind, wp_zchan_cur; [done | done |]. intros c Hc.
  unfold sdev. apply wp_bind, wp_gets. destruct (tx_not_dma _ _) eqn:Hdma; [by apply wp_ret, confined_refl |].
  apply wp_bind, (wp_scan_u _ _ _ 0 (2 ^ 32)); [apply u32_range | done | done |].
  intros x v Hx Hv Hl' Hr'. apply (wp_from _ w v Hv). apply wp_select; [done |]. intros Hlt%Z.leb_gt.
  destruct Hr'; split; cbn; try done. right. eexists _, c. pose proof Hv as (-> & _). split; [exact Hc |].
  split; [exact Hdma | lia].
Qed.

(** *** Registers *)
Lemma wp_reg_set refused write select buf sz w :
  well_mapped (sx_dev (w_st w)) -> in_range (w_st w) ->
  (forall off val v, 0 <= off -> refused off = false -> confined w v -> well_mapped (sx_dev (w_st v)) -> in_range (w_st v) ->
     wp (write off val) (fun _ v' => confined v v') v /\ wp (select off) (fun _ v' => confined v v') v) ->
  wp (reg_set refused write select buf sz) (fun _ w' => confined w w') w.
Proof.
  intros Hl Hr Hok. unfold reg_set. apply wp_bind, wp_then; [apply keeps_sscanf | done | done |].
  intros n v1 C1 Hl1 Hr1.
  apply wp_bind, (wp_scanned _ _ _ _ 0 (2 ^ 32)); [apply u32_range | apply u32_range | done | done |].
  intros off v2 Hoff C2 Hl2 Hr2. pose proof (confined_trans _ _ _ C1 C2) as C12. clear C1 C2.
  assert (forall v, confined w v -> wp (mret sz : M sysfs_ctx Z) (fun _ w' => confined w w') v) as Hend
    by (intros v Hv; by apply wp_ret).
  apply wp_bind. destruct (has_space buf).
  - apply wp_bind, (wp_scanned _ _ _ _ 0 (2 ^ 32)); [apply u32_range | apply u32_range | done | done |].
    intros val v3 _ C3 Hl3 Hr3. pose proof (confined_trans _ _ _ C12 C3) as C13.
    destruct (refused off) eqn:Er; [by apply wp_ret, Hend |].
    destruct (Hok off val v3) as [Hw _]; [lia | done | done | done | done |].
    apply wp_bind. eapply wp_mono; [exact Hw |]. intros [] v4 C4. pose proof C4 as (E4 & Hr4 & _).
    pose proof (confined_trans _ _ _ C13 C4) as C14.
    destruct (Hok off val v4) as [_ Hs]; [lia | done | done | by rewrite E4 | done |].
    eapply wp_mono; [exact Hs |]. intros [] v5 C5. apply Hend. by eapply confined_trans.
  - destruct (refused off) eqn:Er; [by apply wp_ret, Hend |].
    destruct (Hok off 0 v2) as [_ Hs]; [lia | done | done | done | done |].
    eapply wp_mono; [exact Hs |]. intros [] v5 C5. apply Hend. by eapply confined_trans.
Qed.
Lemma keeps_reg32_wr a val w :
  in_range (w_st w) -> inside (dx_zdev (sx_dev (w_st w))) a -> wp (reg32_wr a val) (fun _ w' => confined w w') w.
Proof. intros Hr Ha. apply wp_tell. by apply confined_emit. Qed.
Lemma keeps_reg32_rd a w (Q : Z -> world sysfs_ctx -> Prop) :
  in_range (w_st w) -> inside (dx_zdev (sx_dev (w_st w))) a -> (forall x w', confined w w' -> Q x w') ->
  wp (reg32_rd a) Q w.
Proof. intros Hr Ha HQ. apply wp_fmap, wp_ask. intros r _. by apply HQ, confined_emit. Qed.

Lemma keeps_g_reg_set buf sz : keeps_to (zynq_sysfs_g_reg_set buf sz).
Proof.
  intros w Hl Hr. unfold zynq_sysfs_g_reg_set, sdev. apply wp_bind, wp_gets. set (d := dx_zdev _).
  pose proof (lo_bar0 _ Hl) as Hb0. pose proof (lo_some _ Hl) as Hs0. fold d in Hb0, Hs0. unfold ZYNQ_CHAN_REG_OFFSET, ZYNQ_CHAN_REG_MAX in Hb0.
  apply wp_reg_set; [done | done |]. intros off val v Hoff Hok Hv Hl' Hr'. apply Z.ltb_ge in Hok.
  rewrite u32_small in Hok by lia. pose proof Hv as (Es & _ & _).
  split.
  - apply keeps_reg32_wr; [done |]. rewrite Es. fold d. cbn. lia.
  - apply wp_upd. pose proof Hr' as Hr2. assert (off <= zdev_bar0_len (dx_zdev (sx_dev (w_st v))) - 4) by (rewrite Es; fold d; lia).
    range_after Hr2.
Qed.

Lemma chan_reg_inside s c off :
  well_mapped (sx_dev s) -> in_range s -> dx_chans (sx_dev s) !! Z.to_nat (zynq_sysfs_chan (sx_vars s)) = Some c ->
  0 <= off <= ZYNQ_CHAN_REG_MAX -> inside (dx_zdev (sx_dev s)) (addr_add (zchan_reg (dc_zchan c)) off).
Proof.
  intros Hl Hr Hc Ho. rewrite (lo_chan _ Hl _ _ Hc). pose proof (ir_chan _ Hr). pose proof (lo_bar0 _ Hl) as Hb.
  unfold ZYNQ_CHAN_REG_OFFSET, ZYNQ_CHAN_REG_MAX in *. cbn. lia.
Qed.
Lemma keeps_chan_reg_set buf sz : keeps_to (zynq_sysfs_chan_reg_set buf sz).
Proof.
  intros w Hl Hr. apply wp_reg_set; [done | done |]. intros off val v Hoff Hok%Z.ltb_ge Hv Hl' Hr'. split.
  - apply wp_bind, wp_zchan_cur; [done | done |]. intros c Hc. apply keeps_reg32_wr; [done |].
    by apply chan_reg_inside.
  - apply wp_upd. pose proof Hr' as Hr2. range_after Hr2.
Qed.
Lemma keeps_chan_reg_read : keeps_to zynq_sysfs_chan_reg_read.
Proof.
  intros w Hl Hr. apply wp_bind, wp_zchan_cur; [done | done |]. intros c Hc. unfold vars. apply wp_bind, wp_gets, wp_bind.
  apply keeps_reg32_rd; [done | by apply chan_reg_inside; [| | | apply (ir_chan_reg _ Hr)] |].
  intros x w' Hw. by apply wp_ret.
Qed.
Lemma keeps_g_reg_read : keeps_to zynq_sysfs_g_reg_read.
Proof.
  intros w Hl Hr. unfold zynq_sysfs_g_reg_read, vars. apply wp_bind, wp_gets, wp_bind.
  apply keeps_reg32_rd; [done | cbn; pose proof (ir_g_reg _ Hr); lia |]. intros x w' Hw. by apply wp_ret.
Qed.

(** looking at a CAN leaves the device as it is *)
Lemma wp_can_field {A} k c z (f : can_ctx -> A) w (Q : A -> world sysfs_ctx -> Prop) :
  dx_chans (sx_dev (w_st w)) !! k = Some c -> dc_dev c = DevCan z ->
  Q (f (CanCtx (dx_zdev (sx_dev (w_st w))) (dc_zchan c) z)) w -> wp (on_sdev (on_can (Z.of_nat k) (gets f))) Q w.
Proof.
  intros Hc Hz HQ. unfold on_sdev, on_can, chan_at. apply wp_zoom, wp_bind, wp_bind, wp_get, wp_array_get.
  exists c. split; [rewrite zlookup_nonneg by lia; by rewrite Nat2Z.id |]. rewrite Hz. apply wp_zoom, wp_gets.
  cbn [w_log w_held w_st cc_zchan cc_zcan cc_zdev]. unfold set_chan, set_zdev, dx_zdev. rewrite Nat2Z.id.
  destruct w as [l h [[g chans] x]], c as [zc dev]. cbn in *. subst dev.
  destruct g. unfold fset. cbn. by rewrite list_insert_id.
Qed.
Lemma wp_can_ip_reg_addr off w (Q : bool * addr -> world sysfs_ctx -> Prop) :
  well_mapped (sx_dev (w_st w)) -> 0 <= off <= zdev_bar2_len (dx_zdev (sx_dev (w_st w))) - 4 ->
  (forall b a, inside (dx_zdev (sx_dev (w_st w))) a -> Q (b, a) w) -> wp (can_ip_reg_addr off) Q w.
Proof.
  intros Hl Ho HQ. unfold can_ip_reg_addr, vars, can_ip_to_zcan. apply wp_bind, wp_gets, wp_bind, wp_bind, wp_get, wp_ret.
  assert (wp (mret (false, (BAR2, off)) : M sysfs_ctx _) Q w) as Hbar by (apply wp_ret, HQ; cbn; lia).
  destruct (zdev_can_cnt _ <=? _); [exact Hbar |]. destruct (find_chan _ _) as [k |] eqn:Ek; [| exact Hbar].
  destruct (Z.leb_spec off (ZCAN_IP_OFFSET - 4)) as [Hoff |]; [| exact Hbar].
  destruct (find_chan_Some _ _ _ Ek) as (i & c & -> & Hi & Hz). unfold is_can in Hz.
  destruct (dc_dev c) as [| z |] eqn:Hd; try done.
  apply wp_bind, (wp_can_field i c z); [done | done |]. apply wp_ret, HQ.
  destruct (lo_can _ Hl i c z Hi Hd) as [Ea Hn]. cbn [cc_zcan]. rewrite Ea. pose proof (lo_bar2_cans _ Hl).
  unfold ZCAN_IP_OFFSET in *. cbn. lia.
Qed.
Lemma keeps_can_ip_reg_set buf sz : keeps_to (zynq_sysfs_can_ip_reg_set buf sz).
Proof.
  intros w Hl Hr. unfold zynq_sysfs_can_ip_reg_set, sdev. apply wp_bind, wp_gets.
  apply wp_reg_set; [done | done |]. intros off val v Hoff Hok%Z.ltb_ge Hv Hl' Hr'. pose proof Hv as (Es & _ & _).
  pose proof (lo_bar2 _ Hl). rewrite u32_small in Hok by lia. rewrite <- Es in Hok. split.
  - apply wp_bind, wp_can_ip_reg_addr; [done | done |]. intros b a Ha. by apply keeps_reg32_wr.
  - apply wp_upd. pose proof Hr' as Hr2. range_after Hr2.
Qed.
Lemma keeps_can_ip_reg_read : keeps_to zynq_sysfs_can_ip_reg_read.
Proof.
  intros w Hl Hr. unfold zynq_sysfs_can_ip_reg_read, vars. apply wp_bind, wp_gets, wp_bind.
  apply wp_can_ip_reg_addr; [done | apply (ir_can_reg _ Hr) |]. intros b a Ha. apply wp_bind.
  apply keeps_reg32_rd; [done | done |]. intros x w' Hw. by apply wp_ret.
Qed.

Lemma in_range_zero s :
  well_mapped (sx_dev s) -> sx_vars s = sysfs_vars_zero -> in_range s.
Proof.
  intros Hl Ev. pose proof (lo_some _ Hl). pose proof (lo_bar0 _ Hl) as Hb. pose proof (lo_bar2 _ Hl).
  unfold ZYNQ_CHAN_REG_OFFSET, ZYNQ_CHAN_REG_MAX in Hb.
  split; rewrite Ev; cbn; unfold ZYNQ_I2C_BUS_NUM, ZYNQ_CHAN_REG_MAX; first [by left | lia].
Qed.

Lemma keeps_vars_show {A} (f : sysfs_vars -> A) : keeps_to (v ← vars; mret (f v)).
Proof. unfold vars. keeps_steps. Qed.
Lemma keeps_dev_show {A} (f : zynq_dev -> A) : keeps_to (d ← sdev; mret (f d)).
Proof. unfold sdev. keeps_steps. Qed.

#[local] Hint Resolve keeps_vars_show keeps_dev_show keeps_can_ip_set keeps_chan_set keeps_g_reg_set
  keeps_i2c_bus_set keeps_chan_reg_set keeps_can_ip_reg_set keeps_tx_desc_set keeps_cam_set keeps_g_reg_read
  keeps_chan_reg_read keeps_can_ip_reg_read : basa.

Lemma keeps_request r : sysfs_attr_of r ∈ direct_attrs -> keeps_to (sysfs_request r).
Proof.
  intros Ha%list_elem_of_In. unfold direct_attrs in Ha.
  repeat (destruct Ha as [Ha | Ha]; [
    destruct r as [a | a buf sz]; cbn in Ha; subst a; unfold sysfs_request, zynq_show_sysfs, zynq_store_sysfs; cbn;
    apply keeps_to_bind; auto with basa |]).
  by destruct Ha.
Qed.
End sysfs_lemmas.

(** *** All devices *)

(** every camera shown has a port, where the device has a table of ports *)
Definition ports_cover (e : zdev_entry) : Prop :=
  forall ports, zdev_video_port_map (dx_zdev (ze_dev e)) = Some ports ->
    (Z.to_nat (zdev_video_cnt (dx_zdev (ze_dev e))) <= length ports)%nat.

Lemma zdev_text_Some v e : ports_cover e -> is_Some (zdev_text (set_version v e)).
Proof.
  intros Hp. unfold zdev_text. destruct e as [nm cn vid [[z m b1 b2] chans]]. unfold ports_cover in Hp. cbn in Hp.
  set (vids := map _ _). assert (length vids <= Z.to_nat (zdev_video_cnt z))%nat as Hn
    by (unfold vids; rewrite length_map, length_take; cbn; lia).
  enough (is_Some (if has_cap z ZYNQ_HW_CAP_VIDEO then
      mapM (fun x => x) (imap (video_text (z<|zdev_version := v|>)) vids) else Some [])) as [t Ht].
  { cbn in Ht |- *. unfold has_cap in Ht |- *. cbn in Ht |- *. rewrite Ht. eexists. reflexivity. }
  destruct (has_cap _ _); [| eexists; reflexivity].
  apply mapM_is_Some, Forall_forall. intros t [i Hi]%list_elem_of_lookup. rewrite list_lookup_imap in Hi.
  apply fmap_Some in Hi as (c & Hc%lookup_lt_Some & ->). unfold video_text.
  destruct (_ =? 0); [eexists; reflexivity |]. cbn.
  destruct (zdev_video_port_map z) as [ports |]; [| eexists; reflexivity].
  destruct (lookup_lt_is_Some_2 ports i) as [p Hpi]; [specialize (Hp ports eq_refl); lia |].
  rewrite Hpi. eexists. reflexivity.
Qed.

(** the state while the devices from the [i]-th on are still to be shown *)
Lemma wp_zdev_all_text `{Env} `{ModParams} n i pre l w (Q : list Z -> world (list zdev_entry) -> Prop) :
  w_st w = pre ++ l -> length pre = i -> length l = n -> Forall ports_cover l ->
  (forall vs texts lg, length vs = n -> Forall2 (fun e t => zdev_text e = Some t) (zip_with set_version vs l) texts ->
     Q (concat texts) (World lg (w_held w) (pre ++ zip_with set_version vs l))) ->
  wp (zdev_all_text n i) Q w.
Proof.
  revert i pre l w Q. induction n as [| n IH]; intros i pre l w Q Es Hi Hn Hp HQ.
  - destruct l; [| done]. apply wp_ret. specialize (HQ [] [] (w_log w) eq_refl ltac:(constructor)).
    destruct w. cbn in *. by subst.
  - destruct l as [| e l]; [done |]. inversion Hp as [| ? ? He Hl]; subst. cbn. apply wp_bind, wp_io_read_any.
    intros v lg _. apply wp_bind, wp_modify. cbn [w_st w_log w_held]. rewrite Es.
    assert (alter (set_version v) (length pre) (pre ++ e :: l) = pre ++ set_version v e :: l) as ->
      by (by rewrite alter_app_r_alt, Nat.sub_diag by done).
    apply wp_bind, wp_get. cbn [w_st]. rewrite list_lookup_middle by done. apply wp_bind, wp_ret.
    destruct (zdev_text_Some v e He) as [t Ht]. rewrite Ht. apply wp_bind, wp_ret, wp_bind.
    apply (IH _ (pre ++ [set_version v e]) l); [cbn; by rewrite <- app_assoc | rewrite length_app; cbn; lia | | done |].
    { by injection Hn. }
    intros vs texts lg' Hvs Ht'. apply wp_ret. specialize (HQ (v :: vs) (t :: texts) lg').
    cbn in HQ. rewrite <- app_assoc. apply HQ; [by rewrite Hvs | by constructor].
Qed.

(** ** Theorems *)

(** C23: one card, whose mappings have room for the registers of its channels and CANs
    ([well_mapped]; the driver does not check that), and the variables selecting what it
    has, as they do before the first write.  Whatever is then written to the attributes
    that select a CAN, channel, camera, I2C bus or descriptor and to those of single
    registers, and whatever the text is, each request returns; the device is left as it
    is, the selections stay within what the device has, a descriptor within the ring of
    one of its channels that sends by DMA, and every register access lies within the
    mappings of the card.  The variables are shared by all cards: what is selected
    through another one need not exist here, see [selected_elsewhere]. *)
Theorem sysfs_confined `{Env} `{ModParams} `{Calendar} `{VideoParams} `{CamParams} (rs : list sysfs_req) w :
  well_mapped (sx_dev (w_st w)) -> in_range (w_st w) ->
  Forall (fun r => sysfs_attr_of r ∈ direct_attrs) rs ->
  exists w', sysfs_run rs w = Ret tt w' /\ confined w w'.
Proof.
  intros Hl Hr Hrs.
  enough (wp (sysfs_run rs) (fun _ w' => confined w w') w) as Hwp.
  { apply wp_run in Hwp as ([] & w' & Ew & Hw). by exists w'. }
  revert w Hl Hr. induction Hrs as [| r rs Ha _ IH]; intros w Hl Hr; cbn.
  - by apply wp_ret, confined_refl.
  - apply wp_bind, wp_then; [by apply keeps_request | done | done |]. intros _ v Hv Hl' Hr'.
    apply (wp_from _ w v Hv). by apply IH.
Qed.

(** Showing the devices of the driver always ends, with the lock released: the
    text is that of each device in order as it is left, and only the versions
    kept of the devices change; without a device the text says so. *)
Theorem zdev_all_shown `{Env} `{ModParams} (w : world (list zdev_entry)) :
  L_zynq_g ∉ w_held w -> Forall ports_cover (w_st w) ->
  exists text w', zynq_zdev_all_show w = Ret text w' /\ w_held w' = w_held w /\
    exists vs texts, length vs = length (w_st w) /\ w_st w' = zip_with set_version vs (w_st w) /\
      Forall2 (fun e t => zdev_text e = Some t) (w_st w') texts /\
      text = match w_st w with [] => nl ++ chars "No FPGA device is found!" ++ nl | _ => concat texts end.
Proof.
  intros Hh Hp. apply wp_run. unfold zynq_zdev_all_show. apply wp_bind, wp_spin_lock; [done |].
  apply wp_bind, wp_get. cbn [w_st]. destruct (w_st w) as [| e l] eqn:Es.
  - apply wp_bind, (wp_spin_unlock _ (w_held w)); [done | done |]. apply wp_ret. split; [done |].
    exists [], []. cbn. by split_and!.
  - apply wp_bind, (wp_zdev_all_text (length (e :: l)) 0 [] (e :: l)); [by cbn | done | done | exact Hp |].
    intros vs texts lg Hvs Ht. apply wp_bind, (wp_spin_unlock _ (w_held w)); [done | done |]. apply wp_ret.
    split; [done |]. by exists vs, texts.
Qed.

(** ** A device with four CANs, on the channels 10 to 13 *)
Module SysfsWitness.
#[local] Existing Instance params_default.
#[local] Existing Instance VideoDev.VdevWitness.video_params.
#[local] Existing Instance VideoDev.VdevWitness.cam_params.
#[local] Existing Instance Gps.GpsWitness.gregorian.

Definition chan_at_reg (i : nat) : zynq_chan := zchan_sample<|zchan_reg := (BAR0, ZYNQ_CHAN_REG_OFFSET * Z.of_nat i)|>.
Definition sample_chan (i : nat) : dev_chan :=
  if (10 <=? i)%nat && (i <? 14)%nat then
    DevChan (chan_at_reg i)
      (DevCan (zcan_sample<|zcan_ip_num := Z.of_nat i - 10|><|zcan_ip_reg := (BAR2, ZCAN_IP_OFFSET * (Z.of_nat i - 10))|>))
  else DevChan ((chan_at_reg i)<|zchan_type := ZYNQ_CHAN_INVAL|>) DevNone.
(** the first [n] channels of it *)
Definition dev_with (n : nat) : dev_ctx :=
  DevCtx (GpsCtx (zdev_sample<|zdev_chan_cnt := Z.of_nat n|><|zdev_can_cnt := Z.of_nat ((n - 10) `min` 4)|>)
    MasterNone false false) (map sample_chan (seq 0 n)).
Definition world_with (n : nat) (v : sysfs_vars) : world sysfs_ctx := World [] [] (SysfsCtx (dev_with n) v).

Lemma dev_with_mapped n : (0 < n <= 16)%nat -> well_mapped (dev_with n).
Proof.
  intros Hn. unfold dev_with. split; cbn -[Nat.min ZYNQ_CHAN_REG_OFFSET ZYNQ_CHAN_REG_MAX Z.mul].
  - by rewrite length_map, length_seq.
  - lia.
  - unfold ZYNQ_CHAN_REG_OFFSET, ZYNQ_CHAN_REG_MAX. lia.
  - lia.
  - unfold ZCAN_IP_OFFSET. lia.
  - intros i c (j & -> & Hj)%list_lookup_fmap_Some. apply lookup_seq in Hj as [-> Hi].
    unfold sample_chan. by destruct (_ && _).
  - intros i c z (j & -> & Hj)%list_lookup_fmap_Some. apply lookup_seq in Hj as [-> Hi].
    unfold sample_chan. destruct ((10 <=? 0 + i)%nat && _) eqn:E; [| done].
    apply andb_true_iff in E as [E1%Nat.leb_le E2%Nat.ltb_lt]. intros [= <-]. cbn -[Nat.min Z.mul]. split; [done | lia].
Qed.

(** the numbers of the text are those of [args], and a register reads its offset *)
Definition env_text (args : list Z) (uninit : Z) : Env := fun _ c =>
  match c with
  | KernelCall f a =>
      if String.eqb f "sscanf" then Z.of_nat (length args)
      else if String.eqb f "sscanf.arg" then default 0 (args !! Z.to_nat (default 0 (head a)))
      else uninit
  | MmioRead a => a.2
  | _ => 0
  end.
Definition text_with_space : list Z := [48; 32; 49; 10].
Definition no_space : list Z := [48; 10].

Lemma sysfs_confined_witness :
  exists w', sysfs_run (H := env_text [0x10; 5] 0)
      [StoreAttr chan no_space 2; StoreAttr chan_reg_value text_with_space 4; ShowAttr chan_reg_value]
      (world_with 16 sysfs_vars_zero) = Ret tt w' /\ confined (world_with 16 sysfs_vars_zero) w'.
Proof.
  assert (well_mapped (dev_with 16)) as Hm by (apply dev_with_mapped; lia).
  apply (sysfs_confined (H := env_text [0x10; 5] 0)
    [StoreAttr chan no_space 2; StoreAttr chan_reg_value text_with_space 4; ShowAttr chan_reg_value]
    (world_with 16 sysfs_vars_zero)); [exact Hm | by apply in_range_zero | repeat constructor].
Defined.

(** what a request answers, or how it fails *)
Definition shown `{Env} (a : zynq_sysfs_attr) (w : world sysfs_ctx) : list Z + option fault :=
  match zynq_show_sysfs a w with Ret text _ => inl text | Fault f => inr (Some f) | OutOfFuel => inr None end.
Definition stored `{Env} (a : zynq_sysfs_attr) (buf : list Z) (w : world sysfs_ctx)
  : (sysfs_vars * list (addr * Z)) + option fault :=
  match zynq_store_sysfs a buf 1 w with
  | Ret _ w' => inl (sx_vars (w_st w'), mmio_writes (w_log w'))
  | Fault f => inr (Some f)
  | OutOfFuel => inr None
  end.

(** offset 0x1010 of channel 11 is written, kept and shown *)
Definition vars11 : sysfs_vars := sysfs_vars_zero<|zynq_sysfs_chan := 11|>.
Example write_chan_reg :
  stored (H := env_text [0x1010; 5] 0) chan_reg_value text_with_space (world_with 16 vars11)
  = inl (vars11<|zynq_sysfs_chan_reg_offset := 0x1010|>, [((BAR0, 0x1B10), 5)]).
Proof. vm_compute. reflexivity. Qed.
Example read_chan_reg :
  shown (H := env_text [] 0) chan_reg_value (world_with 16 (vars11<|zynq_sysfs_chan_reg_offset := 0x1010|>))
  = inl (chars "channel 11 register offset 0x1010 = 0x1b10" ++ nl).
Proof. vm_compute. reflexivity. Qed.

(** a text that is no number selects what the stack holds *)
Example no_number :
  stored (H := env_text [] 9) chan no_space (world_with 16 vars11) = inl (vars11<|zynq_sysfs_chan := 9|>, []).
Proof. vm_compute. reflexivity. Qed.

(** a selection made for a device of 16 channels is used for one of 11: channel
    11 is behind the end of the table; and CAN 3 is a NULL pointer *)
Example selected_elsewhere : shown (H := env_text [] 0) chan_reg_value (world_with 11 vars11) = inr (Some (Index 11)).
Proof. vm_compute. reflexivity. Qed.
Example test_elsewhere :
  stored (H := env_text [1; 1] 0) can_ip_test text_with_space
    (world_with 11 (sysfs_vars_zero<|zynq_sysfs_can_ip := 3|>)) = inr (Some NullDeref).
Proof. vm_compute. reflexivity. Qed.

(** a channel of no type has no ring, and the ring is shown *)
Example no_ring : shown (H := env_text [] 0) chan_tx_info (world_with 16 sysfs_vars_zero) = inr (Some (Index 0)).
Proof. vm_compute. reflexivity. Qed.

(** the registers of a channel are at 0x1000 to 0x10FF from its base: offset
    0x1E10 of channel 0 is offset 0x1010 of channel 14, and is accepted *)
Example offset_far :
  stored (H := env_text [0x1E10; 5] 0) chan_reg_value text_with_space (world_with 16 sysfs_vars_zero)
  = inl (sysfs_vars_zero<|zynq_sysfs_chan_reg_offset := 0x1E10|>, [((BAR0, 0x1E10), 5)]).
Proof. vm_compute. reflexivity. Qed.

(** on a card with a short mapping the accepted offset is behind its end *)
Example short_mapping :
  let dev := dev_with 16 in
  let short := set_zdev ((dx_zdev dev)<|zdev_bar0_len := 0x1000|>) dev in
  zdev_bar0_len (dx_zdev short) = 0x1000 /\
  stored (H := env_text [0x1010; 5] 0) chan_reg_value text_with_space
    (World [] [] (SysfsCtx short vars11))
  = inl (vars11<|zynq_sysfs_chan_reg_offset := 0x1010|>, [((BAR0, 0x1B10), 5)]).
Proof. vm_compute. split; reflexivity. Qed.

(** the attribute of the module, for this device *)
Example one_device :
  match zynq_zdev_all_show (H := env_text [] 0) (World [] [] [ZdevEntry (chars "basa0") (chars "MOONROVER") 0x10EE (dev_with 14)]) with
  | Ret text w => Some (text, w_held w)
  | _ => None
  end = Some (nl ++ chars "basa0: MOONROVER card, F/W version=0x00000000, driver version=3.0.0.5" ++ nl
    ++ chars "    vendorID=0x10ee, deviceID=0x" ++ fmt_x PCI_DEVICE_ID_MOONROVER ++ chars ", instance=0" ++ nl
    ++ chars "    REG device: zynq_reg0" ++ nl ++ chars "    I2C device: zynq_i2c0" ++ nl
    ++ chars "    CAN devices: zynq_can[0 - 3]" ++ nl ++ chars "    GPS device: zynq_gps0" ++ nl
    ++ chars "    FW device: zynq_fw0" ++ nl ++ chars "    Trigger device: zynq_trigger0" ++ nl, []).
Proof. vm_compute. reflexivity. Qed.
End SysfsWitness.
