(* ===== verification/EsdApi.v ===== *)
(** * Constants and codes of the esd driver

    src/esd/src/canio.h, the interface to user programs, constant by constant:
    ioctl commands, identifiers, modes, features, states, error codes; the commands of
    the nucleus (nucleus.h, cm.h), the states of a handle (esdcan.h), the limits of the
    board (boardrc.h) and the error codes of osif.h.  The length code of a frame, and
    the translation of the ioctl commands of 32-bit programs. *)
From S2P Require Import Prelude Api.

(** size of a pointer: the driver is built for 64 bits *)
Definition sz_pointer : Z := 8.

(** canio.h: ioctl commands *)
Definition IOCTL_CAN_SET_QUEUESIZE : Z := 9.
Definition IOCTL_BASE : Z := 0x43.
Definition IOCTL_ESDCAN_CREATE : Z := _IOW IOCTL_BASE 0 sz_pointer.
Definition IOCTL_ESDCAN_ID_RANGE_ADD : Z := _IOW IOCTL_BASE 1 sz_pointer.
Definition IOCTL_ESDCAN_ID_RANGE_DEL : Z := _IOW IOCTL_BASE 2 sz_pointer.
Definition IOCTL_ESDCAN_SET_BAUD : Z := _IOW IOCTL_BASE 3 sz_pointer.
Definition IOCTL_ESDCAN_SET_MODE : Z := _IOW IOCTL_BASE 4 sz_pointer.
Definition IOCTL_ESDCAN_SET_TIMEOUT : Z := _IOW IOCTL_BASE 5 sz_pointer.
Definition IOCTL_ESDCAN_SEND : Z := _IOW IOCTL_BASE 6 sz_pointer.
Definition IOCTL_ESDCAN_TAKE : Z := _IOR IOCTL_BASE 7 sz_pointer.
Definition IOCTL_ESDCAN_DEBUG : Z := _IOWR IOCTL_BASE 9 sz_pointer.
Definition IOCTL_ESDCAN_GET_BAUD : Z := _IOR IOCTL_BASE 10 sz_pointer.
Definition IOCTL_ESDCAN_DESTROY : Z := _IO IOCTL_BASE 11.
Definition IOCTL_ESDCAN_DESTROY_DEPRECATED : Z := _IOW IOCTL_BASE 11 sz_long.
Definition IOCTL_ESDCAN_TX_ABORT : Z := _IOW IOCTL_BASE 12 sz_pointer.
Definition IOCTL_ESDCAN_RX_ABORT : Z := _IOW IOCTL_BASE 13 sz_pointer.
Definition IOCTL_ESDCAN_TX_OBJ_CREATE : Z := _IOW IOCTL_BASE 16 sz_pointer.
Definition IOCTL_ESDCAN_TX_OBJ_UPDATE : Z := _IOW IOCTL_BASE 17 sz_pointer.
Definition IOCTL_ESDCAN_TX_OBJ_AUTOANSWER_OFF : Z := _IOW IOCTL_BASE 18 sz_pointer.
Definition IOCTL_ESDCAN_TX_OBJ_DESTROY : Z := _IOW IOCTL_BASE 19 sz_pointer.
Definition IOCTL_ESDCAN_RX_OBJ : Z := _IOW IOCTL_BASE 20 sz_pointer.
Definition IOCTL_ESDCAN_READ : Z := _IOWR IOCTL_BASE 21 sz_pointer.
Definition IOCTL_ESDCAN_WRITE : Z := _IOWR IOCTL_BASE 22 sz_pointer.
Definition IOCTL_ESDCAN_UPDATE : Z := _IOW IOCTL_BASE 23 sz_pointer.
Definition IOCTL_ESDCAN_FLUSH_RX_FIFO : Z := _IO IOCTL_BASE 24.
Definition IOCTL_ESDCAN_FLUSH_RX_FIFO_DEPRECATED : Z := _IOW IOCTL_BASE 24 sz_long.
Definition IOCTL_ESDCAN_GET_RX_MESSAGES : Z := _IOR IOCTL_BASE 25 sz_pointer.
Definition IOCTL_ESDCAN_GET_RX_TIMEOUT : Z := _IOR IOCTL_BASE 26 sz_pointer.
Definition IOCTL_ESDCAN_GET_TX_TIMEOUT : Z := _IOR IOCTL_BASE 27 sz_pointer.
Definition IOCTL_ESDCAN_GET_TIMESTAMP_FREQ : Z := _IOR IOCTL_BASE 28 sz_pointer.
Definition IOCTL_ESDCAN_GET_TIMESTAMP : Z := _IOR IOCTL_BASE 29 sz_pointer.
Definition IOCTL_ESDCAN_GET_TICKS_FREQ : Z := _IOR IOCTL_BASE 30 sz_pointer.
Definition IOCTL_ESDCAN_GET_TICKS : Z := _IOR IOCTL_BASE 31 sz_pointer.
Definition IOCTL_ESDCAN_SEND_T : Z := _IOW IOCTL_BASE 32 sz_pointer.
Definition IOCTL_ESDCAN_WRITE_T : Z := _IOW IOCTL_BASE 33 sz_pointer.
Definition IOCTL_ESDCAN_TAKE_T : Z := _IOWR IOCTL_BASE 34 sz_pointer.
Definition IOCTL_ESDCAN_READ_T : Z := _IOWR IOCTL_BASE 35 sz_pointer.
Definition IOCTL_ESDCAN_PURGE_TX_FIFO : Z := _IO IOCTL_BASE 36.
Definition IOCTL_ESDCAN_PURGE_TX_FIFO_DEPRECATED : Z := _IOW IOCTL_BASE 36 sz_long.
Definition IOCTL_ESDCAN_TX_OBJ_AUTOANSWER_ON : Z := _IOW IOCTL_BASE 37 sz_pointer.
Definition IOCTL_ESDCAN_SET_RX_TIMEOUT : Z := _IOW IOCTL_BASE 38 sz_pointer.
Definition IOCTL_ESDCAN_SET_TX_TIMEOUT : Z := _IOW IOCTL_BASE 39 sz_pointer.
Definition IOCTL_ESDCAN_GET_FEATURES : Z := _IOR IOCTL_BASE 40 sz_pointer.
Definition IOCTL_ESDCAN_TX_OBJ_SCHEDULE : Z := _IOW IOCTL_BASE 41 sz_pointer.
Definition IOCTL_ESDCAN_TX_OBJ_SCHEDULE_START : Z := _IO IOCTL_BASE 42.
Definition IOCTL_ESDCAN_TX_OBJ_SCHEDULE_STOP : Z := _IO IOCTL_BASE 43.
Definition IOCTL_ESDCAN_SET_20B_HND_FILTER : Z := _IOW IOCTL_BASE 44 sz_pointer.
Definition IOCTL_ESDCAN_GET_SERIAL : Z := _IOR IOCTL_BASE 45 sz_pointer.
Definition IOCTL_ESDCAN_SET_ALT_RTR_ID : Z := _IO IOCTL_BASE 46.
Definition IOCTL_ESDCAN_SET_BUSLOAD_INTERVAL : Z := _IOW IOCTL_BASE 47 sz_pointer.
Definition IOCTL_ESDCAN_GET_BUSLOAD_INTERVAL : Z := _IOR IOCTL_BASE 48 sz_pointer.
Definition IOCTL_ESDCAN_GET_BITRATE_DETAILS : Z := _IOR IOCTL_BASE 49 sz_pointer.
Definition IOCTL_ESDCAN_GET_BUS_STATISTIC : Z := _IOR IOCTL_BASE 50 sz_pointer.
Definition IOCTL_ESDCAN_RESET_BUS_STATISTIC : Z := _IO IOCTL_BASE 51.
Definition IOCTL_ESDCAN_GET_ERROR_COUNTER : Z := _IOR IOCTL_BASE 52 sz_pointer.
Definition IOCTL_ESDCAN_SER_REG_READ : Z := _IOWR IOCTL_BASE 53 sz_pointer.
Definition IOCTL_ESDCAN_SER_REG_WRITE : Z := _IOWR IOCTL_BASE 54 sz_pointer.
Definition IOCTL_ESDCAN_RESET_CAN_ERROR_CNT : Z := _IO IOCTL_BASE 55.
Definition IOCTL_ESDCAN_ID_REGION_ADD : Z := _IOWR IOCTL_BASE 56 sz_pointer.
Definition IOCTL_ESDCAN_ID_REGION_DEL : Z := _IOWR IOCTL_BASE 57 sz_pointer.
Definition IOCTL_ESDCAN_SET_TX_TS_WIN : Z := _IOW IOCTL_BASE 58 sz_pointer.
Definition IOCTL_ESDCAN_GET_TX_TS_WIN : Z := _IOR IOCTL_BASE 59 sz_pointer.
Definition IOCTL_ESDCAN_SET_TX_TS_TIMEOUT : Z := _IOW IOCTL_BASE 60 sz_pointer.
Definition IOCTL_ESDCAN_GET_TX_TS_TIMEOUT : Z := _IOR IOCTL_BASE 61 sz_pointer.
Definition IOCTL_ESDCAN_SET_HND_FILTER : Z := _IOW IOCTL_BASE 62 sz_pointer.
Definition IOCTL_ESDCAN_SEND_X : Z := _IOWR IOCTL_BASE 72 sz_pointer.
Definition IOCTL_ESDCAN_WRITE_X : Z := _IOWR IOCTL_BASE 73 sz_pointer.
Definition IOCTL_ESDCAN_TAKE_X : Z := _IOWR IOCTL_BASE 74 sz_pointer.
Definition IOCTL_ESDCAN_READ_X : Z := _IOWR IOCTL_BASE 75 sz_pointer.
Definition IOCTL_ESDCAN_SET_BAUD_X : Z := _IOW IOCTL_BASE 76 sz_pointer.
Definition IOCTL_ESDCAN_GET_BAUD_X : Z := _IOWR IOCTL_BASE 77 sz_pointer.
Definition IOCTL_ESDCAN_EEI_CREATE : Z := _IOR IOCTL_BASE 81 sz_pointer.
Definition IOCTL_ESDCAN_EEI_DESTROY : Z := _IOW IOCTL_BASE 82 sz_pointer.
Definition IOCTL_ESDCAN_EEI_STATUS : Z := _IOWR IOCTL_BASE 83 sz_pointer.
Definition IOCTL_ESDCAN_EEI_CONFIGURE : Z := _IOW IOCTL_BASE 84 sz_pointer.
Definition IOCTL_ESDCAN_EEI_START : Z := _IOW IOCTL_BASE 85 sz_pointer.
Definition IOCTL_ESDCAN_EEI_STOP : Z := _IOW IOCTL_BASE 86 sz_pointer.
Definition IOCTL_ESDCAN_EEI_TRIGGER_NOW : Z := _IOW IOCTL_BASE 87 sz_pointer.
Definition IOCTL_ESDCAN_TX_OBJ_UPDATE_T : Z := _IOW IOCTL_BASE 101 sz_pointer.
Definition IOCTL_ESDCAN_TX_OBJ_AUTOANSWER_OFF_T : Z := _IOW IOCTL_BASE 102 sz_pointer.
Definition IOCTL_ESDCAN_TX_OBJ_AUTOANSWER_ON_T : Z := _IOW IOCTL_BASE 103 sz_pointer.
Definition IOCTL_ESDCAN_TX_OBJ_DESTROY_T : Z := _IOW IOCTL_BASE 104 sz_pointer.
Definition IOCTL_ESDCAN_TX_OBJ_CREATE_X : Z := _IOW IOCTL_BASE 105 sz_pointer.
Definition IOCTL_ESDCAN_TX_OBJ_UPDATE_X : Z := _IOW IOCTL_BASE 106 sz_pointer.
Definition IOCTL_ESDCAN_TX_OBJ_AUTOANSWER_OFF_X : Z := _IOW IOCTL_BASE 107 sz_pointer.
Definition IOCTL_ESDCAN_TX_OBJ_AUTOANSWER_ON_X : Z := _IOW IOCTL_BASE 108 sz_pointer.
Definition IOCTL_ESDCAN_TX_OBJ_DESTROY_X : Z := _IOW IOCTL_BASE 109 sz_pointer.
Definition IOCTL_ESDCAN_GET_INFO : Z := _IOR IOCTL_BASE 110 sz_pointer.

(** canio.h: limits and identifiers *)
Definition CANIO_IDS_REGION_20A : Z := 0.
Definition CANIO_IDS_REGION_20B : Z := 1.
Definition CANIO_IDS_REGION_EV : Z := 2.
Definition CANIO_20B_BASE : Z := 0x20000000.
Definition CANIO_IDS : Z := 0x800.
Definition CANIO_ID_BASE : Z := 0x00000000.
Definition CANIO_ID_LAST : Z := CANIO_ID_BASE + CANIO_IDS - 1.
Definition CANIO_IDS_20B : Z := 0x20000000.
Definition CANIO_ID_20B_BASE : Z := 0x20000000.
Definition CANIO_ID_20B_LAST : Z := CANIO_ID_20B_BASE + CANIO_IDS_20B - 1.
Definition CANIO_ID_INVALID : Z := 0xFFFFFFFF.
Definition CANIO_EVS : Z := 0x100.
Definition CANIO_EV_BASE : Z := 0x40000000.
Definition CANIO_EV_CAN_ERROR : Z := CANIO_EV_BASE.
Definition CANIO_EV_BAUD_CHANGE : Z := CANIO_EV_BASE + 0x01.
Definition CANIO_EV_CAN_ERROR_EXT : Z := CANIO_EV_BASE + 0x02.
Definition CANIO_EV_BUSLOAD : Z := CANIO_EV_BASE + 0x03.
Definition CANIO_EV_CAN_DEFERRED_TX : Z := CANIO_EV_BASE + 0x30.
Definition CANIO_EV_ECHO_FIRST : Z := CANIO_EV_BASE + 0x40.
Definition CANIO_EV_ECHO_LAST : Z := CANIO_EV_BASE + 0x5F.
Definition CANIO_EV_DNET_EVPOLL : Z := CANIO_EV_BASE + 0x7C.
Definition CANIO_EV_DNET_EVEXPL : Z := CANIO_EV_BASE + 0x7D.
Definition CANIO_EV_DNET_EV : Z := CANIO_EV_BASE + 0x7E.
Definition CANIO_EV_DNET_CALL : Z := CANIO_EV_BASE + 0x7F.
Definition CANIO_EV_USER : Z := CANIO_EV_BASE + 0x80.
Definition CANIO_EV_TEMP : Z := CANIO_EV_USER + 0x01.
Definition CANIO_EV_WATCHDOG : Z := CANIO_EV_USER + 0x05.
Definition CANIO_EV_STOP_RELAIS : Z := CANIO_EV_USER + 0x08.
Definition CANIO_EV_TEMP_SENSOR : Z := CANIO_EV_USER + 0x0A.
Definition CANIO_EV_ARINC_TIMER : Z := CANIO_EV_USER + 0x20.
Definition CANIO_EV_ARINC_TIME_SET : Z := CANIO_EV_USER + 0x21.
Definition CANIO_EV_ARINC_INTERVAL_SET : Z := CANIO_EV_USER + 0x22.
Definition CANIO_EV_ARINC_INTERVAL_GET : Z := CANIO_EV_USER + 0x23.
Definition CANIO_EV_ARINC_START_SET : Z := CANIO_EV_USER + 0x24.
Definition CANIO_EV_ARINC_START_GET : Z := CANIO_EV_USER + 0x25.
Definition CANIO_EV_ARINC_START : Z := CANIO_EV_USER + 0x26.
Definition CANIO_EV_ARINC_STOP : Z := CANIO_EV_USER + 0x27.
Definition CANIO_EV_IRIGB_STATUS : Z := CANIO_EV_USER + 0x28.
Definition CANIO_EV_IRIGB_CONFIG : Z := CANIO_EV_USER + 0x29.
Definition CANIO_EV_IRIGB_SCRATCH : Z := CANIO_EV_USER + 0x2A.
Definition CANIO_EV_IRIGB_FRAME_LOW : Z := CANIO_EV_USER + 0x2B.
Definition CANIO_EV_IRIGB_FRAME_HIGH : Z := CANIO_EV_USER + 0x2C.
Definition CANIO_EV_IRIGB_FWINFO_1 : Z := CANIO_EV_USER + 0x2D.
Definition CANIO_EV_IRIGB_FWINFO_2 : Z := CANIO_EV_USER + 0x2E.
Definition CANIO_EV_IRIGB_FWINFO_3 : Z := CANIO_EV_USER + 0x2F.
Definition CANIO_EV_IRIGB_INFO_1 : Z := CANIO_EV_USER + 0x30.
Definition CANIO_EV_IRIGB_INFO_2 : Z := CANIO_EV_USER + 0x31.
Definition CANIO_EV_IRIGB_1PPS : Z := CANIO_EV_USER + 0x32.
Definition CANIO_EV_WATCHDOG_RESET : Z := CANIO_EV_USER + 0x45.
Definition CANIO_EV_TEMP_RANGE : Z := CANIO_EV_USER + 0x46.
Definition CANIO_EV_PXI_CLOCK_SOURCE : Z := CANIO_EV_USER + 0x50.
Definition CANIO_EV_PXI_STARTRIGGER_CONF : Z := CANIO_EV_USER + 0x51.
Definition CANIO_EV_LAST : Z := CANIO_EV_BASE + 0xFF.
Definition CANIO_DN_BASE : Z := 0x41000000.
Definition CANIO_DN_LAST : Z := 0x41FFFFFF.
Definition CANIO_RTR : Z := 0x10.
Definition CANIO_ERR_PASSIVE : Z := 0x10.
Definition CANIO_NO_DATA : Z := 0x20.
Definition CANIO_INTERACTION : Z := 0x20.
Definition CANIO_MARK_TX_ERROR : Z := 0x40.
Definition CANIO_FD : Z := 0x80.
Definition CANIO_AUTO_ANSWER_VALID : Z := 0x20.
Definition CANIO_MAX_TX_QUEUESIZE : Z := 0x4000.
Definition CANIO_MAX_RX_QUEUESIZE : Z := 0x4000.
Definition CANIO_MAX_TX_TIMEOUT : Z := 0xFFFF.
Definition CANIO_MAX_RX_TIMEOUT : Z := 0xFFFF.

(** canio.h: mode flags *)
Definition CANIO_MODE_AUTO_ANSWER : Z := 0x00000002.
Definition CANIO_MODE_NO_RTR : Z := 0x00000010.
Definition CANIO_MODE_NO_DATA : Z := 0x00000020.
Definition CANIO_MODE_SET_RTR_RCV : Z := 0x00000040.
Definition CANIO_MODE_RTR_RCV : Z := 0x00000060.
Definition CANIO_MODE_NO_INTERACTION : Z := 0x00000100.
Definition CANIO_MODE_MARK_INTERACTION : Z := 0x00000200.
Definition CANIO_MODE_LOCAL_ECHO : Z := 0x00000400.
Definition CANIO_MODE_LOM : Z := 0x00010000.
Definition CANIO_MODE_DEFERRED_TX : Z := 0x00020000.
Definition CANIO_MODE_FD : Z := 0x00040000.
Definition CANIO_MODE_OBJECT : Z := 0x10000000.
Definition CANIO_MODE_OVERLAPPED : Z := 0x20000000.
Definition CANIO_MODE_EVENTS : Z := 0x40000000.

(** canio.h: features *)
Definition FEATURE_FULL_CAN : Z := 1.
Definition FEATURE_CAN_20B : Z := 2.
Definition FEATURE_DEVICE_NET : Z := 4.
Definition FEATURE_CYCLIC_TX : Z := 8.
Definition FEATURE_TIMESTAMPED_TX : Z := 8.
Definition FEATURE_RX_OBJECT_MODE : Z := 16.
Definition FEATURE_TS : Z := 32.
Definition FEATURE_LOM : Z := 64.
Definition FEATURE_SMART_DISCONNECT : Z := 128.
Definition FEATURE_LOCAL_ECHO : Z := 256.
Definition FEATURE_SMART_ID_FILTER : Z := 512.
Definition FEATURE_SCHEDULING : Z := 1024.
Definition FEATURE_DIAGNOSTIC : Z := 2048.
Definition FEATURE_ERROR_INJECTION : Z := 4096.
Definition FEATURE_IRIGB : Z := 8192.
Definition FEATURE_PXI : Z := 16384.
Definition FEATURE_CAN_FD : Z := 32768.
Definition FEATURE_SELF_TEST : Z := 65536.
Definition FEATURE_MASK_DOCUMENTED : Z :=
  foldr Z.lor 0 [FEATURE_FULL_CAN; FEATURE_CAN_20B; FEATURE_DEVICE_NET; FEATURE_TIMESTAMPED_TX;
    FEATURE_RX_OBJECT_MODE; FEATURE_TS; FEATURE_SMART_DISCONNECT; FEATURE_LOM; FEATURE_LOCAL_ECHO;
    FEATURE_SMART_ID_FILTER; FEATURE_SCHEDULING; FEATURE_DIAGNOSTIC; FEATURE_ERROR_INJECTION;
    FEATURE_IRIGB; FEATURE_PXI].

(** canio.h: status of a node *)
Definition CANIO_STATUS_WRONG_FIRMWARE : Z := 0x00000001.
Definition CANIO_STATUS_WRONG_HARDWARE : Z := 0x00000002.
Definition CANIO_STATUS_OK : Z := 0x00000000.
Definition CANIO_STATUS_WARN : Z := 0x40000000.
Definition CANIO_STATUS_ERRPASSIVE : Z := 0x80000000.
Definition CANIO_STATUS_BUSOFF : Z := 0xC0000000.
Definition CANIO_STATUS_MASK_BUSSTATE : Z := 0xC0000000.

(** canio.h: debug commands *)
Definition CAN_DEBUG_DM : Z := 0.
Definition CAN_DEBUG_SM : Z := 1.
Definition CAN_DEBUG_IP : Z := 2.
Definition CAN_DEBUG_OP : Z := 3.
Definition CAN_DEBUG_VER : Z := 4.
Definition CAN_DEBUG_REGISTER : Z := 10.
Definition CAN_DEBUG_FLASH_ENTER : Z := 128.
Definition CAN_DEBUG_FLASH_ERASE : Z := 129.
Definition CAN_DEBUG_FLASH_PROG : Z := 130.
Definition CAN_DEBUG_FLASH_EXIT : Z := 131.
Definition CAN_DEBUG_FLASH_PROG_EX : Z := 132.
Definition CAN_DEBUG_SET_TRANS : Z := 140.
Definition CAN_DEBUG_LEDS : Z := 150.
Definition CAN_DEBUG_BUSMASTER_INFO : Z := 151.
Definition CAN_DEBUG_USB_TEST : Z := 152.
Definition CAN_DEBUG_USB_IO_TEST : Z := 153.

(** canio.h: error codes *)
Definition CANIO_ERRNO_BASE : Z := 0x00000100.
Definition CANIO_SUCCESS : Z := 0.
Definition CANIO_RX_TIMEOUT : Z := CANIO_ERRNO_BASE + 1.
Definition CANIO_TX_TIMEOUT : Z := CANIO_ERRNO_BASE + 2.
Definition CANIO_TX_ERROR : Z := CANIO_ERRNO_BASE + 4.
Definition CANIO_CONTR_OFF_BUS : Z := CANIO_ERRNO_BASE + 5.
Definition CANIO_CONTR_BUSY : Z := CANIO_ERRNO_BASE + 6.
Definition CANIO_CONTR_WARN : Z := CANIO_ERRNO_BASE + 7.
Definition CANIO_OLDDATA : Z := CANIO_ERRNO_BASE + 8.
Definition CANIO_NO_ID_ENABLED : Z := CANIO_ERRNO_BASE + 9.
Definition CANIO_ID_ALREADY_ENABLED : Z := CANIO_ERRNO_BASE + 10.
Definition CANIO_ID_NOT_ENABLED : Z := CANIO_ERRNO_BASE + 11.
Definition CANIO_INVALID_FIRMWARE : Z := CANIO_ERRNO_BASE + 13.
Definition CANIO_MESSAGE_LOST : Z := CANIO_ERRNO_BASE + 14.
Definition CANIO_INVALID_HARDWARE : Z := CANIO_ERRNO_BASE + 15.
Definition CANIO_PENDING_WRITE : Z := CANIO_ERRNO_BASE + 16.
Definition CANIO_PENDING_READ : Z := CANIO_ERRNO_BASE + 17.
Definition CANIO_INVALID_DRIVER : Z := CANIO_ERRNO_BASE + 18.
Definition CANIO_INVALID_PARAMETER : Z := 22.
Definition CANIO_INVALID_HANDLE : Z := 77.
Definition CANIO_NET_NOT_FOUND : Z := 19.
Definition CANIO_INSUFFICIENT_RESOURCES : Z := 12.
Definition CANIO_OPERATION_ABORTED : Z := 4.
Definition CANIO_WRONG_DEVICE_STATE : Z := CANIO_ERRNO_BASE + 19.
Definition CANIO_HANDLE_FORCED_CLOSE : Z := CANIO_ERRNO_BASE + 20.
Definition CANIO_NOT_IMPLEMENTED : Z := 38.
Definition CANIO_NOT_SUPPORTED : Z := CANIO_ERRNO_BASE + 21.
Definition CANIO_CONTR_ERR_PASSIVE : Z := CANIO_ERRNO_BASE + 22.
Definition CANIO_ERROR_NO_BAUDRATE : Z := CANIO_ERRNO_BASE + 23.
Definition CANIO_ERROR_LOM : Z := CANIO_ERRNO_BASE + 24.
Definition CANIO_EIO : Z := 5.
Definition CANIO_EFAULT : Z := 14.
Definition CANIO_EBUSY : Z := 16.
Definition CANIO_EAGAIN : Z := 11.
Definition CANIO_ENOENT : Z := 2.
Definition CANIO_ERESTART : Z := 85.
Definition CANIO_ERROR : Z := 1.

(** nucleus.h *)
Definition NUC_TX_OBJ_CREATE : Z := 0.
Definition NUC_TX_OBJ_AUTOANSWER_ON : Z := 1.
Definition NUC_TX_OBJ_AUTOANSWER_OFF : Z := 2.
Definition NUC_TX_OBJ_UPDATE : Z := 3.
Definition NUC_TX_OBJ_DESTROY : Z := 4.
Definition NUC_TX_OBJ_SCHEDULE : Z := 5.
Definition NUC_TX_OBJ_SCHEDULE_START : Z := 6.
Definition NUC_TX_OBJ_SCHEDULE_STOP : Z := 7.

(** cm.h: commands of the filter and of nuc_ioctl *)
Definition FILTER_ON : Z := 0x00000000.
Definition FILTER_OFF : Z := 0x80000000.
Definition FILTER_DATA : Z := 0x00000001.
Definition FILTER_RTR : Z := 0x00000002.
Definition FILTER_OBJ : Z := 0x00000004.
Definition FILTER_OBJ_RTR : Z := 0x00000008.
Definition FILTER_DATA_FD : Z := 0x00000010.
Definition ESDCAN_CTL_TIMESTAMP_GET : Z := 1.
Definition ESDCAN_CTL_TIMEST_FREQ_GET : Z := 2.
Definition ESDCAN_CTL_BAUDRATE_GET : Z := 3.
Definition ESDCAN_CTL_BAUDRATE_SET : Z := 4.
Definition ESDCAN_CTL_ID_FILTER : Z := 5.
Definition ESDCAN_CTL_BAUDRATE_AUTO : Z := 6.
Definition ESDCAN_CTL_BAUDRATE_BTR : Z := 7.
Definition ESDCAN_CTL_BUSLOAD_INTERVAL_GET : Z := 8.
Definition ESDCAN_CTL_BUSLOAD_INTERVAL_SET : Z := 9.
Definition ESDCAN_CTL_DEBUG : Z := 10.
Definition ESDCAN_CTL_BUS_STATISTIC_GET : Z := 11.
Definition ESDCAN_CTL_BUS_STATISTIC_RESET : Z := 12.
Definition ESDCAN_CTL_ERROR_COUNTER_GET : Z := 13.
Definition ESDCAN_CTL_BITRATE_DETAILS_GET : Z := 14.
Definition ESDCAN_CTL_SER_REG_READ : Z := 15.
Definition ESDCAN_CTL_SER_REG_WRITE : Z := 16.
Definition ESDCAN_CTL_RESET_CAN_ERROR_CNT : Z := 17.
Definition ESDCAN_CTL_EEI_CREATE : Z := 18.
Definition ESDCAN_CTL_EEI_DESTROY : Z := 19.
Definition ESDCAN_CTL_EEI_STATUS : Z := 20.
Definition ESDCAN_CTL_EEI_CONFIGURE : Z := 21.
Definition ESDCAN_CTL_EEI_START : Z := 22.
Definition ESDCAN_CTL_EEI_STOP : Z := 23.
Definition ESDCAN_CTL_EEI_TRIGGER_NOW : Z := 24.
Definition ESDCAN_CTL_TX_TS_WIN_SET : Z := 25.
Definition ESDCAN_CTL_TX_TS_WIN_GET : Z := 26.
Definition ESDCAN_CTL_TX_TS_TIMEOUT_SET : Z := 27.
Definition ESDCAN_CTL_TX_TS_TIMEOUT_GET : Z := 28.
Definition ESDCAN_CTL_BAUDRATE_X_GET : Z := 29.
Definition ESDCAN_CTL_BAUDRATE_X_SET : Z := 30.
Definition ESDCAN_CTL_CAN_INFO : Z := 31.

(** esdcan.h: states of a handle *)
Definition TX_STATE_PENDING_WRITE : Z := 0x01.
Definition TX_STATE_PENDING_SEND : Z := 0x02.
Definition TX_STATE_ABORT : Z := 0x10.
Definition TX_STATE_SIGNAL_INTERRUPT : Z := 0x20.
Definition TX_STATE_CLOSING : Z := 0x40.
Definition RX_STATE_PENDING_READ : Z := 0x01.
Definition RX_STATE_PENDING_TAKE : Z := 0x02.
Definition RX_STATE_ABORT : Z := 0x10.
Definition RX_STATE_SIGNAL_INTERRUPT : Z := 0x20.
Definition RX_STATE_CLOSING : Z := 0x40.
Definition CLOSE_STATE_CLOSE_DONE : Z := 0x00000001.
Definition CLOSE_STATE_HANDLE_CLOSED : Z := 0x80000000.

(** boardrc.h *)
Definition MAX_CARDS : Z := 8.
Definition NODES_PER_CARD : Z := 4.
Definition CARD_FEATURES : Z :=
  foldr Z.lor 0 [FEATURE_CAN_20B; FEATURE_LOM; FEATURE_TS; FEATURE_SMART_DISCONNECT;
    FEATURE_DIAGNOSTIC].


(** osif.h: error codes *)
Definition OSIF_SUCCESS : Z := CANIO_SUCCESS.
Definition OSIF_ERROR : Z := CANIO_ERROR.
Definition OSIF_INVALID_PARAMETER : Z := CANIO_INVALID_PARAMETER.
Definition OSIF_INVALID_HANDLE : Z := CANIO_INVALID_HANDLE.
Definition OSIF_NET_NOT_FOUND : Z := CANIO_NET_NOT_FOUND.
Definition OSIF_INSUFFICIENT_RESOURCES : Z := CANIO_INSUFFICIENT_RESOURCES.
Definition OSIF_EAGAIN : Z := CANIO_EAGAIN.
Definition OSIF_EBUSY : Z := CANIO_EBUSY.
Definition OSIF_RX_TIMEOUT : Z := CANIO_RX_TIMEOUT.
Definition OSIF_TX_TIMEOUT : Z := CANIO_TX_TIMEOUT.
Definition OSIF_TX_ERROR : Z := CANIO_TX_ERROR.
Definition OSIF_CONTR_OFF_BUS : Z := CANIO_CONTR_OFF_BUS.
Definition OSIF_CONTR_BUSY : Z := CANIO_CONTR_BUSY.
Definition OSIF_CONTR_WARN : Z := CANIO_CONTR_WARN.
Definition OSIF_OLDDATA : Z := CANIO_OLDDATA.
Definition OSIF_NO_ID_ENABLED : Z := CANIO_NO_ID_ENABLED.
Definition OSIF_ID_ALREADY_ENABLED : Z := CANIO_ID_ALREADY_ENABLED.
Definition OSIF_ID_NOT_ENABLED : Z := CANIO_ID_NOT_ENABLED.
Definition OSIF_INVALID_FIRMWARE : Z := CANIO_INVALID_FIRMWARE.
Definition OSIF_MESSAGE_LOST : Z := CANIO_MESSAGE_LOST.
Definition OSIF_INVALID_HARDWARE : Z := CANIO_INVALID_HARDWARE.
Definition OSIF_PENDING_WRITE : Z := CANIO_PENDING_WRITE.
Definition OSIF_PENDING_READ : Z := CANIO_PENDING_READ.
Definition OSIF_INVALID_DRIVER : Z := CANIO_INVALID_DRIVER.
Definition OSIF_WRONG_DEVICE_STATE : Z := CANIO_WRONG_DEVICE_STATE.
Definition OSIF_OPERATION_ABORTED : Z := CANIO_OPERATION_ABORTED.
Definition OSIF_HANDLE_FORCED_CLOSE : Z := CANIO_HANDLE_FORCED_CLOSE.
Definition OSIF_NOT_IMPLEMENTED : Z := CANIO_NOT_IMPLEMENTED.
Definition OSIF_NOT_SUPPORTED : Z := CANIO_NOT_SUPPORTED.
Definition OSIF_CONTR_ERR_PASSIVE : Z := CANIO_CONTR_ERR_PASSIVE.
Definition OSIF_EFAULT : Z := CANIO_EFAULT.
Definition OSIF_EIO : Z := CANIO_EIO.
Definition OSIF_ERROR_NO_BAUDRATE : Z := CANIO_ERROR_NO_BAUDRATE.
Definition OSIF_ERROR_LOM : Z := CANIO_ERROR_LOM.
Definition OSIF_ERESTART : Z := CANIO_ERESTART.

(** cm.h: a version in 16 bits *)
Definition MAKE_VERSION (l r b : Z) : Z :=
  u16 (Z.lor (Z.lor (Z.shiftl l 12) (Z.shiftl r 8)) b).

(** ** The length field of a frame (canio.h) *)

Definition CANIO_DLC (len : Z) : Z := Z.land len 0x0F.
Definition CANIO_DLC_AND_TYPE (len : Z) : Z := Z.land len (Z.lor 0x0F CANIO_RTR).
Definition CANIO_IS_RTR (len : Z) : bool :=
  Z.land len (Z.lor CANIO_FD CANIO_RTR) =? CANIO_RTR.
Definition CANIO_IS_FD (len : Z) : bool := tst len CANIO_FD.
Definition CANIO_IS_FD_ERR_PASSIVE (len : Z) : bool :=
  Z.land len (Z.lor CANIO_FD CANIO_ERR_PASSIVE) =? Z.lor CANIO_FD CANIO_ERR_PASSIVE.

Definition __rotl8 (value shift : Z) : Z :=
  u8 (Z.lor (Z.shiftl value shift) (Z.shiftr value (8 - shift))).
Definition ucLenCan : list Z :=
  [0; 0; 1; 1; 2; 2; 3; 3; 4; 4; 5; 5; 6; 6; 7; 7;
   8; 8; 8; 12; 8; 16; 8; 20; 8; 24; 8; 32; 8; 48; 8; 64;
   0; 0; 0; 1; 0; 2; 0; 3; 0; 4; 0; 5; 0; 6; 0; 7;
   0; 8; 0; 12; 0; 16; 0; 20; 0; 24; 0; 32; 0; 48; 0; 64].
(** [None]: an access behind the table *)
Definition __canLenToDataSize (len : Z) : option Z :=
  zlookup ucLenCan (Z.land (__rotl8 len 1) 0x3F).

(** ** ioctl commands of 32-bit programs *)

(** Linux asm/ioctl.h *)
Definition IOCSIZE_MASK : Z := 0x3FFF0000.
Definition IOCSIZE_SHIFT : Z := 16.
Definition GEN_IOCTL32 (arg : Z) : Z :=
  Z.lor (Z.land arg (Z.lnot IOCSIZE_MASK)) (Z.shiftl 0x4 IOCSIZE_SHIFT).
(** the patch of the command in esdcan_compat_ioctl *)
Definition compat_cmd (cmd : Z) : Z :=
  if negb (IOCTL_CAN_SET_QUEUESIZE =? cmd) then
    if Z.land cmd IOCSIZE_MASK =? 0x00040000
    then Z.lor (Z.land cmd (Z.lnot 0x00040000)) 0x00080000 else cmd
  else cmd.

(** the commands that take an argument, and those without *)
Definition commands_with_argument : list Z :=
  [IOCTL_ESDCAN_CREATE; IOCTL_ESDCAN_ID_RANGE_ADD; IOCTL_ESDCAN_ID_RANGE_DEL;
   IOCTL_ESDCAN_SET_BAUD; IOCTL_ESDCAN_SET_MODE; IOCTL_ESDCAN_SET_TIMEOUT; IOCTL_ESDCAN_SEND;
   IOCTL_ESDCAN_TAKE; IOCTL_ESDCAN_DEBUG; IOCTL_ESDCAN_GET_BAUD; IOCTL_ESDCAN_DESTROY_DEPRECATED;
   IOCTL_ESDCAN_TX_ABORT; IOCTL_ESDCAN_RX_ABORT; IOCTL_ESDCAN_TX_OBJ_CREATE;
   IOCTL_ESDCAN_TX_OBJ_UPDATE; IOCTL_ESDCAN_TX_OBJ_AUTOANSWER_OFF; IOCTL_ESDCAN_TX_OBJ_DESTROY;
   IOCTL_ESDCAN_RX_OBJ; IOCTL_ESDCAN_READ; IOCTL_ESDCAN_WRITE; IOCTL_ESDCAN_UPDATE;
   IOCTL_ESDCAN_FLUSH_RX_FIFO_DEPRECATED; IOCTL_ESDCAN_GET_RX_MESSAGES;
   IOCTL_ESDCAN_GET_RX_TIMEOUT; IOCTL_ESDCAN_GET_TX_TIMEOUT; IOCTL_ESDCAN_GET_TIMESTAMP_FREQ;
   IOCTL_ESDCAN_GET_TIMESTAMP; IOCTL_ESDCAN_GET_TICKS_FREQ; IOCTL_ESDCAN_GET_TICKS;
   IOCTL_ESDCAN_SEND_T; IOCTL_ESDCAN_WRITE_T; IOCTL_ESDCAN_TAKE_T; IOCTL_ESDCAN_READ_T;
   IOCTL_ESDCAN_PURGE_TX_FIFO_DEPRECATED; IOCTL_ESDCAN_TX_OBJ_AUTOANSWER_ON;
   IOCTL_ESDCAN_SET_RX_TIMEOUT; IOCTL_ESDCAN_SET_TX_TIMEOUT; IOCTL_ESDCAN_GET_FEATURES;
   IOCTL_ESDCAN_TX_OBJ_SCHEDULE; IOCTL_ESDCAN_SET_20B_HND_FILTER; IOCTL_ESDCAN_GET_SERIAL;
   IOCTL_ESDCAN_SET_BUSLOAD_INTERVAL; IOCTL_ESDCAN_GET_BUSLOAD_INTERVAL;
   IOCTL_ESDCAN_GET_BITRATE_DETAILS; IOCTL_ESDCAN_GET_BUS_STATISTIC;
   IOCTL_ESDCAN_GET_ERROR_COUNTER; IOCTL_ESDCAN_SER_REG_READ; IOCTL_ESDCAN_SER_REG_WRITE;
   IOCTL_ESDCAN_ID_REGION_ADD; IOCTL_ESDCAN_ID_REGION_DEL; IOCTL_ESDCAN_SET_TX_TS_WIN;
   IOCTL_ESDCAN_GET_TX_TS_WIN; IOCTL_ESDCAN_SET_TX_TS_TIMEOUT; IOCTL_ESDCAN_GET_TX_TS_TIMEOUT;
   IOCTL_ESDCAN_SET_HND_FILTER; IOCTL_ESDCAN_SEND_X; IOCTL_ESDCAN_WRITE_X; IOCTL_ESDCAN_TAKE_X;
   IOCTL_ESDCAN_READ_X; IOCTL_ESDCAN_SET_BAUD_X; IOCTL_ESDCAN_GET_BAUD_X; IOCTL_ESDCAN_EEI_CREATE;
   IOCTL_ESDCAN_EEI_DESTROY; IOCTL_ESDCAN_EEI_STATUS; IOCTL_ESDCAN_EEI_CONFIGURE;
   IOCTL_ESDCAN_EEI_START; IOCTL_ESDCAN_EEI_STOP; IOCTL_ESDCAN_EEI_TRIGGER_NOW;
   IOCTL_ESDCAN_TX_OBJ_UPDATE_T; IOCTL_ESDCAN_TX_OBJ_AUTOANSWER_OFF_T;
   IOCTL_ESDCAN_TX_OBJ_AUTOANSWER_ON_T; IOCTL_ESDCAN_TX_OBJ_DESTROY_T;
   IOCTL_ESDCAN_TX_OBJ_CREATE_X; IOCTL_ESDCAN_TX_OBJ_UPDATE_X;
   IOCTL_ESDCAN_TX_OBJ_AUTOANSWER_OFF_X; IOCTL_ESDCAN_TX_OBJ_AUTOANSWER_ON_X;
   IOCTL_ESDCAN_TX_OBJ_DESTROY_X; IOCTL_ESDCAN_GET_INFO].
Definition commands_without_argument : list Z :=
  [IOCTL_ESDCAN_DESTROY; IOCTL_ESDCAN_FLUSH_RX_FIFO; IOCTL_ESDCAN_PURGE_TX_FIFO;
   IOCTL_ESDCAN_TX_OBJ_SCHEDULE_START; IOCTL_ESDCAN_TX_OBJ_SCHEDULE_STOP;
   IOCTL_ESDCAN_SET_ALT_RTR_ID; IOCTL_ESDCAN_RESET_BUS_STATISTIC; IOCTL_ESDCAN_RESET_CAN_ERROR_CNT].

Lemma forall_upto (P : Z -> bool) (n : nat) :
  forallb P (seqZ 0 (Z.of_nat n)) = true -> forall i, 0 <= i < Z.of_nat n -> P i = true.
Proof.
  intros HP i Hi. rewrite forallb_forall in HP. apply HP, list_elem_of_In, elem_of_seqZ. lia.
Qed.

(** The table of data sizes is read inside its bounds for every length byte, and
    is the documented size: a remote request that is not FD has no
    data, a classic frame at most eight bytes, an FD frame the length of its code. *)
Definition fd_size (dlc : Z) : Z :=
  if dlc <=? 8 then dlc else default 0 (zlookup [12; 16; 20; 24; 32; 48; 64] (dlc - 9)).
Definition datasize (len : Z) : Z :=
  if CANIO_IS_FD len then fd_size (CANIO_DLC len)
  else if CANIO_IS_RTR len then 0 else Z.min 8 (CANIO_DLC len).
Theorem len_to_datasize len : 0 <= len < 256 -> __canLenToDataSize len = Some (datasize len).
Proof.
  pose (P len := bool_decide (__canLenToDataSize len = Some (datasize len))).
  assert (forallb P (seqZ 0 (Z.of_nat 256)) = true) as HP by (vm_compute; reflexivity).
  intros Hl. pose proof (forall_upto P 256 HP len Hl) as H. by apply bool_decide_eq_true in H.
Qed.

(** No two commands have the same number, so that the switch of the driver tells
    them apart. *)
Theorem commands_distinct : NoDup (commands_with_argument ++ commands_without_argument).
Proof. apply (bool_decide_unpack _). by vm_compute. Qed.

(** A command of a 32-bit program reaches the switch as the command of a 64-bit
    program: the compatibility entry undoes the change of the pointer's size, and leaves
    commands without an argument alone. *)
Theorem compat_cmd_inverse c :
  (c ∈ commands_with_argument -> compat_cmd (GEN_IOCTL32 c) = c) /\
  (c ∈ commands_without_argument -> compat_cmd c = c).
Proof.
  assert (Forall (fun c => compat_cmd (GEN_IOCTL32 c) = c) commands_with_argument) as H1
    by (apply (bool_decide_unpack _); by vm_compute).
  assert (Forall (fun c => compat_cmd c = c) commands_without_argument) as H2
    by (apply (bool_decide_unpack _); by vm_compute).
  rewrite Forall_forall in H1, H2. auto.
Qed.
