(* ===== verification/Dpc.v ===== *)
(** * Deferred procedure calls of the esd driver (src/esd/src/osif.c)

    The esd driver defers work from interrupts to one kernel thread: a DPC that
    is triggered is linked at the end of a chain, and the thread takes the head
    of the chain, calls its function and looks again.  The chain is built of the
    DPCs themselves, by pointers in a shared heap, and a spin lock protects it.
    The model is a transition system over that heap: what happens between taking
    and releasing the lock is one function, executed at once; everything else
    the thread, the callers and the module do to shared data is a step of its
    own, so that all interleavings of them are runs.  The variant modelled is the
    one of kernels from 2.6.20 ([OSIF_USE_PREEMPT_RT_IMPLEMENTATION]). *)
From stdpp Require Import gmap relations.
From S2P Require Import Prelude EsdApi.

#[local] Set Warnings "-clear-no-such-hyp".

(** ** The chain of DPCs *)
Module Chain.

(** addresses; NULL is 0 *)
Abbreviation ptr := Z (only parsing).
Definition NULL : ptr := 0.

Record OSIF_DPC := Mk_OSIF_DPC {
  next : ptr; linked : Z; running : Z; destroy : Z; func : Z; arg : Z
}.
#[export] Instance OSIF_DPC_eta : Eta OSIF_DPC := fun r =>
  Mk_OSIF_DPC (next r) (linked r) (running r) (destroy r) (func r) (arg r).

(** what the spin lock protects: the head of the chain, and the DPCs *)
Record root := Mk_root { first : ptr; dpcs : gmap ptr OSIF_DPC }.
#[export] Instance root_eta : Eta root := fun r => Mk_root (first r) (dpcs r).


(** a store to a DPC; [None] when there is no DPC at that address *)
Definition store (p : ptr) (f : OSIF_DPC -> OSIF_DPC) (r : root) : option root :=
  d ← dpcs r !! p; Some (r <| dpcs ::= <[p := f d]> |>).

(** osif_dpc_create, when it gets memory: all fields 0 but two *)
Definition osif_dpc_create (f a : Z) : OSIF_DPC := Mk_OSIF_DPC NULL 0 0 0 f a.

(** the loop of osif_dpc_trigger that finds the last DPC *)
Fixpoint last_dpc (fuel : nat) (m : gmap ptr OSIF_DPC) (dpc2 : ptr) : option ptr :=
  d ← m !! dpc2;
  if next d =? NULL then Some dpc2
  else match fuel with
       | O => None
       | S n => last_dpc n m (next d)
       end.

(** osif_dpc_trigger between lock and unlock: the result, and whether the
    thread has to be woken.  [None]: an access outside the DPCs. *)
Definition osif_dpc_trigger (dpc : ptr) (r : root) : option (root * Z * bool) :=
  d ← dpcs r !! dpc;
  if negb (destroy d =? 0) then Some (r, CANIO_ENOENT, false)
  else if linked d =? 0 then
    r1 ← (if first r =? NULL then Some (r <| first := dpc |>)
          else dpc2 ← last_dpc (size (dpcs r)) (dpcs r) (first r);
               store dpc2 (fun d2 => d2 <| next := dpc |>) r);
    r2 ← store dpc (fun d => d <| next := NULL |> <| linked := 1 |>) r1;
    Some (r2, OSIF_SUCCESS, true)
  else Some (r, OSIF_SUCCESS, false).

(** the loop of osif_dpc_destroy that finds the DPC before it *)
Fixpoint unlink_after (fuel : nat) (dpc dpc2 : ptr) (r : root) : option root :=
  if dpc2 =? NULL then Some r
  else
    d2 ← dpcs r !! dpc2;
    if dpc =? next d2 then
      d ← dpcs r !! dpc;
      r1 ← store dpc2 (fun d2 => d2 <| next := next d |>) r;
      store dpc (fun d => d <| next := NULL |>) r1
    else match fuel with
         | O => None
         | S n => unlink_after n dpc (next d2) r
         end.

(** osif_dpc_destroy from its first lock to its wait for the function *)
Definition osif_dpc_destroy (dpc : ptr) (r : root) : option root :=
  r0 ← store dpc (fun d => d <| destroy := 1 |>) r;
  if dpc =? first r0 then
    d ← dpcs r0 !! dpc;
    store dpc (fun d => d <| next := NULL |>) (r0 <| first := next d |>)
  else unlink_after (size (dpcs r0)) dpc (first r0) r0.

(** osif_dpc_thread: take the head of the chain *)
Definition link_out (r : root) : option (ptr * root) :=
  let dpc := first r in
  d ← dpcs r !! dpc;
  r1 ← store dpc (fun d => d <| linked := 0 |> <| running := 1 |>)
         (r <| first := next d |>);
  Some (dpc, r1).

(** osif_dpc_thread, after the call *)
Definition not_running (dpc : ptr) (r : root) : option root :=
  store dpc (fun d => d <| running := 0 |>) r.

(** *** The chain as a list *)

(** [q] are the DPCs met from [p] on, up to [e] *)
Fixpoint segment (m : gmap ptr OSIF_DPC) (p : ptr) (q : list ptr) (e : ptr) : Prop :=
  match q with
  | [] => p = e
  | x :: q' => p = x /\ x <> NULL /\ exists d, m !! x = Some d /\ segment m (next d) q' e
  end.

(** the chain of [r] is [q]: a DPC of the chain is marked linked and not being
    destroyed, one off the chain that can still be triggered is not marked *)
Record queued (r : root) (q : list ptr) : Prop := {
  q_chain : segment (dpcs r) (first r) q NULL;
  q_nodup : NoDup q;
  q_null : dpcs r !! NULL = None;
  q_in : forall p d, dpcs r !! p = Some d -> p ∈ q -> linked d = 1 /\ destroy d = 0;
  q_out : forall p d, dpcs r !! p = Some d -> p ∉ q -> destroy d = 0 -> linked d = 0
}.

Lemma segment_in m p q e x : segment m p q e -> x ∈ q -> exists d, m !! x = Some d.
Proof.
  revert p. induction q as [|y q IH]; intros p Hc Hx; [by apply not_elem_of_nil in Hx |].
  destruct Hc as (-> & Hy & d & Hd & Hc).
  apply elem_of_cons in Hx as [-> | Hx]; [by exists d | eauto].
Qed.

Lemma segment_app m p q1 q2 e :
  segment m p (q1 ++ q2) e <-> exists t, segment m p q1 t /\ segment m t q2 e.
Proof.
  revert p. induction q1 as [|x q1 IH]; intros p; simpl.
  - split; [by exists p | by intros (t & -> & ?)].
  - split.
    + intros (-> & Hx & d & Hd & (t & Ht & Hc)%IH). exists t. split; [| done].
      split; [done |]. split; [done |]. by exists d.
    + intros (t & (-> & Hx & d & Hd & Ht) & Hc). split; [done |]. split; [done |].
      exists d. split; [done |]. apply IH. by exists t.
Qed.

(** stores off the chain, and stores that keep [next], keep a segment *)
Lemma segment_ext m m' p q e :
  (forall x, x ∈ q -> next <$> m' !! x = next <$> m !! x) ->
  segment m p q e -> segment m' p q e.
Proof.
  revert p. induction q as [|y q IH]; intros p Hm; [done |].
  intros (-> & Hy & d & Hd & Hc). split; [done |]. split; [done |].
  specialize (Hm y ltac:(left)) as Hmy. rewrite Hd in Hmy.
  destruct (m' !! y) as [d'|] eqn:E; [| done]. simplify_eq/=.
  exists d'. split; [done |]. rewrite Hmy. apply IH; [| done].
  intros x Hx. apply Hm. by right.
Qed.

Lemma segment_insert m p q e x d :
  x ∉ q -> segment m p q e -> segment (<[x := d]> m) p q e.
Proof.
  intros Hx. apply segment_ext. intros y Hy. rewrite lookup_insert_ne; [done |].
  by intros ->.
Qed.

Lemma segment_insert_next m p q e x d d' :
  m !! x = Some d -> next d' = next d -> segment m p q e -> segment (<[x := d']> m) p q e.
Proof.
  intros Hx Hn. apply segment_ext. intros y Hy.
  destruct (decide (x = y)) as [->|]; [| by rewrite lookup_insert_ne].
  rewrite lookup_insert_eq, Hx. simpl. by rewrite Hn.
Qed.

(** a chain without repetition is no longer than the DPCs are many *)
Lemma segment_size m p q e : segment m p q e -> NoDup q -> (length q <= size m)%nat.
Proof.
  intros Hc Hq. rewrite <- size_dom, <- (size_list_to_set (C := gset ptr) q Hq).
  apply subseteq_size. intros x Hx%elem_of_list_to_set. apply elem_of_dom.
  destruct (segment_in _ _ _ _ _ Hc Hx) as [d Hd]. by rewrite Hd.
Qed.

(** only the empty segment starts at NULL *)
Lemma segment_null m q : segment m NULL q NULL -> q = [].
Proof. destruct q; [done |]. by intros (<- & [] & _). Qed.

(** *** The loops on the list *)

Lemma last_dpc_spec n m p q x :
  segment m p (q ++ [x]) NULL -> (length q <= n)%nat -> last_dpc n m p = Some x.
Proof.
  revert n p. induction q as [|y q IH]; intros n p; simpl.
  - intros (-> & Hx & d & Hd & Hn) _. destruct n; simpl; rewrite Hd; simpl; by rewrite Hn.
  - intros (-> & Hy & d & Hd & Hc) Hl. destruct n as [|n]; simpl in *; [lia |].
    rewrite Hd. simpl. destruct (Z.eqb_spec (next d) NULL) as [E|]; [| by apply IH; [|lia]].
    rewrite E in Hc. apply segment_null in Hc. by destruct q.
Qed.

(** a DPC that is not on the chain stays where it is *)
Lemma unlink_after_none n dpc p q r :
  segment (dpcs r) p q NULL -> dpc <> NULL -> dpc ∉ tail q -> (length q <= n)%nat ->
  unlink_after n dpc p r = Some r.
Proof.
  revert n p. induction q as [|x q IH]; intros n p; simpl.
  - intros -> _ _ _. by destruct n.
  - intros (-> & Hx & d & Hd & Hc) Hn Hq Hl. destruct n as [|n]; simpl in *; [lia |].
    destruct (Z.eqb_spec x NULL); [done |]. rewrite Hd. simpl.
    destruct (Z.eqb_spec dpc (next d)) as [E|].
    + destruct q as [|y q]; simpl in Hc; [congruence |].
      destruct Hc as (E' & _). destruct Hq. rewrite E, E'. left.
    + apply IH; [done | done | | lia]. intros Hin. apply Hq. destruct q; [done | by right].
Qed.

(** one that is on it, after [x], is taken out *)
Lemma unlink_after_spec n p q1 x dpc q2 dx d r :
  segment (dpcs r) p (q1 ++ x :: dpc :: q2) NULL -> NoDup (q1 ++ x :: dpc :: q2) ->
  dpcs r !! x = Some dx -> dpcs r !! dpc = Some d -> (length q1 <= n)%nat ->
  unlink_after n dpc p r =
    Some (r <| dpcs := <[dpc := d <| next := NULL |>]>
                       (<[x := dx <| next := next d |>]> (dpcs r)) |>).
Proof.
  intros Hc Hd Hx Hdpc. revert n p Hc. induction q1 as [|y q1 IH]; intros n p; simpl.
  - intros (-> & Hxn & dx' & Hx' & (Hn & _)) _. rewrite Hx in Hx'. injection Hx' as <-.
    assert (x <> dpc) as Hne. { apply NoDup_cons in Hd as [Hd _]. set_solver. }
    destruct n; simpl; destruct (Z.eqb_spec x NULL); try done; rewrite Hx; simpl;
      rewrite Hn, Z.eqb_refl; simpl; unfold store; rewrite Hdpc; simpl; rewrite Hx; simpl;
      rewrite lookup_insert_ne, Hdpc by done; done.
  - intros (-> & Hyn & dy & Hy & Hc) Hl. destruct n as [|n]; simpl in *; [lia |].
    destruct (Z.eqb_spec y NULL); [done |]. rewrite Hy. simpl.
    apply NoDup_cons in Hd as [Hd1 Hd2].
    destruct (Z.eqb_spec dpc (next dy)) as [E|]; [| apply IH; [done | done | lia]].
    exfalso. destruct q1 as [|z q1]; simpl in Hc; destruct Hc as (E' & _);
      rewrite E' in E; rewrite E in Hd2; apply NoDup_cons in Hd2 as [Hd2 _]; set_solver.
Qed.

(** *** What the operations leave alone *)

(** everything of a DPC but its link *)
Definition flags (d : OSIF_DPC) : Z * Z * Z * Z := (running d, destroy d, func d, arg d).
Definition info (r : root) (p : ptr) : option (Z * Z * Z * Z) := flags <$> dpcs r !! p.

Lemma info_Some r p d : dpcs r !! p = Some d -> info r p = Some (flags d).
Proof. intros H. unfold info. by rewrite H. Qed.

Lemma info_store p d r x :
  info (r <| dpcs ::= <[p := d]> |>) x = if decide (p = x) then Some (flags d) else info r x.
Proof.
  unfold info. simpl. case_decide as Hx; [by subst; rewrite lookup_insert_eq |].
  by rewrite lookup_insert_ne.
Qed.

(** *** The operations are those of a queue without repetition *)

Lemma trigger_destroyed r p d :
  dpcs r !! p = Some d -> destroy d <> 0 ->
  osif_dpc_trigger p r = Some (r, CANIO_ENOENT, false).
Proof.
  intros Hp Hd. unfold osif_dpc_trigger. rewrite Hp. simpl.
  by destruct (Z.eqb_spec (destroy d) 0).
Qed.

Lemma trigger_again r q p :
  queued r q -> p ∈ q -> osif_dpc_trigger p r = Some (r, OSIF_SUCCESS, false).
Proof.
  intros Hq Hp. destruct (segment_in _ _ _ _ _ (q_chain _ _ Hq) Hp) as [d Hd].
  destruct (q_in _ _ Hq p d Hd Hp) as [Hl Hx]. unfold osif_dpc_trigger.
  rewrite Hd. simpl. by rewrite Hx, Hl.
Qed.

Lemma trigger_new r q p d :
  queued r q -> dpcs r !! p = Some d -> destroy d = 0 -> p ∉ q ->
  exists r', osif_dpc_trigger p r = Some (r', OSIF_SUCCESS, true) /\
    queued r' (q ++ [p]) /\ forall x, info r' x = info r x.
Proof.
  intros Hq Hp Hd Hpq. pose proof (q_out _ _ Hq p d Hp Hpq Hd) as Hl.
  assert (p <> NULL) as Hpn. { intros ->. by rewrite (q_null _ _ Hq) in Hp. }
  set (d' := d <| next := NULL |> <| linked := 1 |>).
  unfold osif_dpc_trigger. rewrite Hp. simpl. rewrite Hd, Hl. simpl.
  destruct q as [|x q0 _] using rev_ind.
  - rewrite (q_chain _ _ Hq). simpl. unfold store. simpl. rewrite Hp. simpl.
    eexists. split; [done |]. split.
    + constructor; simpl.
      * split; [done |]. split; [done |]. exists d'. by rewrite lookup_insert_eq.
      * apply NoDup_singleton.
      * rewrite lookup_insert_ne by done. apply (q_null _ _ Hq).
      * intros y dy Hy ->%list_elem_of_singleton. rewrite lookup_insert_eq in Hy. by simplify_eq.
      * intros y dy Hy Hn. rewrite lookup_insert_ne in Hy by set_solver.
        apply (q_out _ _ Hq y dy Hy). apply not_elem_of_nil.
    + intros y. etrans; [exact (info_store p d' (r <| first := p |>) y) |]. case_decide; [| done].
      subst. by rewrite (info_Some _ _ _ Hp).
  - pose proof (q_chain _ _ Hq) as Hc. pose proof (q_nodup _ _ Hq) as Hn.
    pose proof (segment_size _ _ _ _ Hc Hn) as Hsz. rewrite length_app in Hsz. simpl in Hsz.
    rewrite (last_dpc_spec _ _ _ _ _ Hc) by lia.
    destruct (segment_in _ _ _ _ x Hc ltac:(set_solver)) as [dx Hx].
    apply segment_app in Hc as (t & Hc & (-> & Hxn & dx' & Hx' & Hxe)).
    rewrite Hx in Hx'. injection Hx' as <-.
    apply NoDup_app in Hn as (Hn & Hnx & _).
    assert (x <> p) as Hxp by set_solver.
    destruct (Z.eqb_spec (first r) NULL) as [E|_].
    { rewrite E in Hc. destruct q0; [by destruct Hxn | by destruct Hc as (<- & [] & _)]. }
    simpl. unfold store. rewrite Hx. simpl. rewrite lookup_insert_ne, Hp by done. simpl.
    eexists. split; [done |]. split.
    + constructor; simpl.
      * apply segment_app. exists p. split.
        -- apply segment_app. exists x. split.
           ++ apply segment_insert; [set_solver |]. apply segment_insert; [set_solver | done].
           ++ split; [done |]. split; [done |]. exists (dx <| next := p |>).
              by rewrite lookup_insert_ne, lookup_insert_eq.
        -- split; [done |]. split; [done |]. exists d'. by rewrite lookup_insert_eq.
      * apply NoDup_app. split; [apply (q_nodup _ _ Hq) |]. split; [set_solver |].
        apply NoDup_singleton.
      * rewrite !lookup_insert_ne; [apply (q_null _ _ Hq) | done | done].
      * intros y dy Hy Hin. destruct (decide (p = y)) as [<-|Hpy].
        { rewrite lookup_insert_eq in Hy. by simplify_eq. }
        rewrite lookup_insert_ne in Hy by done.
        destruct (decide (x = y)) as [<-|Hxy].
        { rewrite lookup_insert_eq in Hy. simplify_eq/=. apply (q_in _ _ Hq x dx Hx). set_solver. }
        rewrite lookup_insert_ne in Hy by done. apply (q_in _ _ Hq y dy Hy). set_solver.
      * intros y dy Hy Hin. rewrite lookup_insert_ne in Hy by set_solver.
        rewrite lookup_insert_ne in Hy by set_solver. apply (q_out _ _ Hq y dy Hy). set_solver.
    + intros y. etrans; [exact (info_store p d' (r <| dpcs ::= <[x := dx <| next := p |>]> |>) y) |].
      rewrite info_store. repeat case_decide; subst; try done;
        [by rewrite (info_Some _ _ _ Hp) | by rewrite (info_Some _ _ _ Hx)].
Qed.

(** taking a DPC out of a list *)
Abbreviation without p q := (filter (fun x => x <> p) q).

Lemma without_none (p : ptr) (q : list ptr) : p ∉ q -> without p q = q.
Proof.
  induction q as [|x q IH]; intros Hp; [done |].
  apply not_elem_of_cons in Hp as [Hx Hp]. rewrite filter_cons_True by done.
  by rewrite IH.
Qed.

Lemma without_mid (p : ptr) (q1 q2 : list ptr) : NoDup (q1 ++ p :: q2) -> without p (q1 ++ p :: q2) = q1 ++ q2.
Proof.
  intros (Hn1 & Hn12 & (Hp & Hn2)%NoDup_cons)%NoDup_app.
  rewrite filter_app, filter_cons_False by (by intros []).
  rewrite !without_none; [done | done |]. intros Hin. apply (Hn12 p Hin). left.
Qed.

(** the marks of a DPC that decide about its place in the chain *)
Definition marks (r : root) (p : ptr) : option (Z * Z) :=
  (fun d => (linked d, destroy d)) <$> dpcs r !! p.

(** a DPC marked as being destroyed leaves the queue *)
Lemma queued_without r r' q p d' :
  queued r q -> segment (dpcs r') (first r') (without p q) NULL ->
  dpcs r' !! p = Some d' -> destroy d' <> 0 ->
  (forall x, x <> p -> marks r' x = marks r x) ->
  p <> NULL -> queued r' (without p q).
Proof.
  intros Hq Hc Hp Hd Hm Hpn.
  assert (forall x d, x <> p -> dpcs r' !! x = Some d ->
            exists e, dpcs r !! x = Some e /\ linked d = linked e /\ destroy d = destroy e) as Hx.
  { intros x d Hx Hlk. specialize (Hm x Hx). unfold marks in Hm. rewrite Hlk in Hm.
    destruct (dpcs r !! x) as [e|] eqn:E; simplify_eq/=. by exists e. }
  constructor; [done | apply NoDup_filter, (q_nodup _ _ Hq) | | |].
  - destruct (dpcs r' !! NULL) as [d|] eqn:E; [| done].
    destruct (Hx NULL d ltac:(done) E) as (e & He & _). by rewrite (q_null _ _ Hq) in He.
  - intros x d Hlk [Hxp Hin]%list_elem_of_filter.
    destruct (Hx x d Hxp Hlk) as (e & He & -> & ->). by apply (q_in _ _ Hq x e).
  - intros x d Hlk Hn Hd0. destruct (decide (x = p)) as [->|Hxp].
    { rewrite Hp in Hlk. by simplify_eq. }
    destruct (Hx x d Hxp Hlk) as (e & He & Hl & Hd'). rewrite Hl. rewrite Hd' in Hd0.
    apply (q_out _ _ Hq x e He); [| done]. intros Hin. apply Hn, list_elem_of_filter. done.
Qed.

Lemma marks_insert r p d x :
  x <> p -> marks (r <| dpcs ::= <[p := d]> |>) x = marks r x.
Proof. intros Hx. unfold marks. simpl. by rewrite lookup_insert_ne. Qed.

Lemma destroy_spec r q p d :
  queued r q -> dpcs r !! p = Some d ->
  exists r', osif_dpc_destroy p r = Some r' /\ queued r' (without p q) /\
    forall x, info r' x = if decide (p = x) then Some (running d, 1, func d, arg d) else info r x.
Proof.
  intros Hq Hp. pose proof (q_chain _ _ Hq) as Hc. pose proof (q_nodup _ _ Hq) as Hn.
  assert (p <> NULL) as Hpn. { intros ->. by rewrite (q_null _ _ Hq) in Hp. }
  set (d1 := d <| destroy := 1 |>). set (r0 := r <| dpcs ::= <[p := d1]> |>).
  assert (dpcs r0 !! p = Some d1) as Hp0 by apply lookup_insert_eq.
  assert (segment (dpcs r0) (first r0) q NULL) as Hc0
    by (apply (segment_insert_next _ _ _ _ _ d); done).
  pose proof (segment_size _ _ _ _ Hc0 Hn) as Hsz.
  assert (store p (fun d => d <| destroy := 1 |>) r = Some r0) as Hs0
    by (unfold store; by rewrite Hp).
  assert (forall x, x <> p -> marks r0 x = marks r x) as Hm0
    by (intros; by apply marks_insert).
  assert (forall x, info r0 x = if decide (p = x) then Some (flags d1) else info r x) as Hi0
    by (intros; apply info_store).
  clearbody r0. unfold osif_dpc_destroy. rewrite Hs0. simpl. clear Hs0.
  assert (forall r' d',
    segment (dpcs r') (first r') (without p q) NULL -> dpcs r' !! p = Some d' ->
    flags d' = flags d1 ->
    (forall x, x <> p -> marks r' x = marks r0 x) ->
    (forall x, x <> p -> info r' x = info r0 x) ->
    queued r' (without p q) /\
    forall x, info r' x = if decide (p = x) then Some (flags d1) else info r x) as Hdone.
  { intros r' d' Hseg Hp' Hf Hm Hi. split.
    - eapply (queued_without r r' q p d'); [done | done | done | | | done].
      + injection Hf as _ Hf _ _. by rewrite Hf.
      + intros x Hx. rewrite Hm by done. by apply Hm0.
    - intros x. case_decide as Hx; [subst; by rewrite (info_Some _ _ _ Hp'), Hf |].
      rewrite Hi, Hi0 by done. by rewrite decide_False. }
  destruct (decide (p ∈ q)) as [Hin|Hin].
  - apply list_elem_of_split in Hin as (q1 & q2 & ->). rewrite without_mid in * by done.
    destruct q1 as [|x q1 _] using rev_ind.
    + destruct Hc0 as (-> & _ & d1' & Hp0' & Hc2). rewrite Hp0 in Hp0'. injection Hp0' as <-.
      rewrite Z.eqb_refl, Hp0. simpl. unfold store. simpl. rewrite Hp0. simpl.
      eexists. split; [done |]. eapply Hdone; [| apply lookup_insert_eq | done | |].
      * apply segment_insert; [by apply NoDup_cons in Hn as [? _] | done].
      * intros y Hy. exact (marks_insert (r0 <| first := next d1 |>) p _ y Hy).
      * intros y Hy. etrans; [exact (info_store p _ (r0 <| first := next d1 |>) y) |].
        by rewrite decide_False.
    + rewrite <- !app_assoc in *. simpl in Hc0, Hn, Hsz. simpl app in Hdone |- *.
      assert (x <> p) as Hxp.
      { intros ->. apply NoDup_app in Hn as (_ & _ & [Hn _]%NoDup_cons). apply Hn. left. }
      destruct (segment_in _ _ _ _ x Hc0) as [dx Hx]; [apply elem_of_app; right; left |].
      destruct (Z.eqb_spec p (first r0)) as [E|_].
      { exfalso. destruct q1 as [|y q1]; destruct Hc0 as (E' & _); simpl in Hn;
          apply NoDup_cons in Hn as [Hn _]; apply Hn; rewrite <- E', <- E; set_solver. }
      rewrite (unlink_after_spec _ _ _ _ _ _ dx d1 r0 Hc0 Hn Hx Hp0)
        by (rewrite length_app in Hsz; simpl in Hsz; lia).
      eexists. split; [done |].
      apply segment_app in Hc0 as (t & Ht & -> & Hxn & dx' & Hx' & (_ & _ & d1' & Hp' & Hc2)).
      rewrite Hp0 in Hp'. injection Hp' as <-.
      apply NoDup_app in Hn as (_ & Hnq & (Hnx & Hn2)%NoDup_cons).
      apply NoDup_cons in Hn2 as [Hnp _].
      eapply Hdone; [| apply lookup_insert_eq | done | |].
      * simpl. apply segment_app. exists x. split.
        -- apply segment_insert; [set_solver |]. apply segment_insert; [set_solver | done].
        -- split; [done |]. split; [done |]. exists (dx <| next := next d1 |>).
           rewrite lookup_insert_ne, lookup_insert_eq by done. split; [done |].
           apply segment_insert; [done |]. apply segment_insert; [set_solver | done].
      * intros y Hy. unfold marks. simpl. rewrite lookup_insert_ne by done.
        destruct (decide (x = y)) as [<-|]; [by rewrite lookup_insert_eq, Hx |].
        by rewrite lookup_insert_ne.
      * intros y Hy. unfold info. simpl. rewrite lookup_insert_ne by done.
        destruct (decide (x = y)) as [<-|]; [by rewrite lookup_insert_eq, Hx |].
        by rewrite lookup_insert_ne.
  - rewrite without_none in * by done.
    destruct (Z.eqb_spec p (first r0)) as [E|_].
    { exfalso. destruct q as [|y q]; simpl in Hc0; [congruence |].
      destruct Hc0 as (E' & _). apply Hin. rewrite E, E'. left. }
    rewrite (unlink_after_none _ _ _ q); [| done | done | | done].
    + exists r0. split; [done |]. by eapply Hdone.
    + intros Hin'. apply Hin. destruct q; [done | by right].
Qed.

Lemma link_out_spec r p q :
  queued r (p :: q) ->
  exists r', link_out r = Some (p, r') /\ queued r' q /\
    forall x, info r' x =
      if decide (p = x) then (fun '(_, b, f, a) => (1, b, f, a)) <$> info r x else info r x.
Proof.
  intros Hq. pose proof (q_nodup _ _ Hq) as [Hpq Hn]%NoDup_cons.
  destruct (q_chain _ _ Hq) as (E & Hpn & d & Hp & Hc).
  destruct (q_in _ _ Hq p d Hp ltac:(left)) as [Hl Hd].
  unfold link_out. rewrite E, Hp. simpl. unfold store. simpl. rewrite Hp. simpl.
  eexists. split; [done |]. split.
  - constructor; simpl.
    + by apply segment_insert.
    + done.
    + rewrite lookup_insert_ne by done. apply (q_null _ _ Hq).
    + intros x dx Hx Hin. rewrite lookup_insert_ne in Hx by (by intros ->).
      apply (q_in _ _ Hq x dx Hx). by right.
    + intros x dx Hx Hin Hdx. destruct (decide (p = x)) as [<-|Hne].
      { rewrite lookup_insert_eq in Hx. by simplify_eq. }
      rewrite lookup_insert_ne in Hx by done. apply (q_out _ _ Hq x dx Hx); [| done].
      intros [-> | ?]%elem_of_cons; done.
  - intros x. etrans; [exact (info_store p _ (r <| first := next d |>) x) |].
    case_decide; [| done]. subst. by rewrite (info_Some _ _ _ Hp).
Qed.

Lemma not_running_spec r q p d :
  queued r q -> dpcs r !! p = Some d ->
  exists r', not_running p r = Some r' /\ queued r' q /\
    forall x, info r' x =
      if decide (p = x) then (fun '(_, b, f, a) => (0, b, f, a)) <$> info r x else info r x.
Proof.
  intros Hq Hp. unfold not_running, store. rewrite Hp. simpl. eexists. split; [done |]. split.
  - constructor; simpl.
    + apply (segment_insert_next _ _ _ _ _ d); [done | done | apply (q_chain _ _ Hq)].
    + apply (q_nodup _ _ Hq).
    + rewrite lookup_insert_ne; [apply (q_null _ _ Hq) |]. intros ->.
      by rewrite (q_null _ _ Hq) in Hp.
    + intros x dx Hx Hin. destruct (decide (p = x)) as [<-|Hne].
      { rewrite lookup_insert_eq in Hx. simplify_eq/=. by apply (q_in _ _ Hq p d). }
      rewrite lookup_insert_ne in Hx by done. by apply (q_in _ _ Hq x dx).
    + intros x dx Hx Hin Hdx. destruct (decide (p = x)) as [<-|Hne].
      { rewrite lookup_insert_eq in Hx. simplify_eq/=. by apply (q_out _ _ Hq p d). }
      rewrite lookup_insert_ne in Hx by done. by apply (q_out _ _ Hq x dx).
  - intros x. rewrite info_store. case_decide; [| done]. subst.
    by rewrite (info_Some _ _ _ Hp).
Qed.

(** a DPC that is created, and one that is given back *)
Lemma create_spec r q p f a :
  queued r q -> dpcs r !! p = None -> p <> NULL ->
  queued (r <| dpcs ::= <[p := osif_dpc_create f a]> |>) q.
Proof.
  intros Hq Hp Hpn.
  assert (p ∉ q) as Hpq.
  { intros Hin. destruct (segment_in _ _ _ _ _ (q_chain _ _ Hq) Hin) as [d Hd]. congruence. }
  constructor; simpl.
  - apply segment_insert, q_chain; done.
  - apply (q_nodup _ _ Hq).
  - rewrite lookup_insert_ne by done. apply (q_null _ _ Hq).
  - intros x dx Hx Hin. rewrite lookup_insert_ne in Hx by (by intros ->).
    by apply (q_in _ _ Hq x dx).
  - intros x dx Hx Hin Hdx. destruct (decide (p = x)) as [<-|Hne].
    { rewrite lookup_insert_eq in Hx. by simplify_eq. }
    rewrite lookup_insert_ne in Hx by done. by apply (q_out _ _ Hq x dx).
Qed.

Lemma free_spec r q p : queued r q -> p ∉ q -> queued (r <| dpcs ::= delete p |>) q.
Proof.
  intros Hq Hp. constructor; simpl.
  - eapply segment_ext; [| apply (q_chain _ _ Hq)]. intros x Hx.
    by rewrite lookup_delete_ne by (by intros ->).
  - apply (q_nodup _ _ Hq).
  - apply lookup_delete_None. right. apply (q_null _ _ Hq).
  - intros x dx [_ Hx]%lookup_delete_Some. by apply (q_in _ _ Hq).
  - intros x dx [_ Hx]%lookup_delete_Some. by apply (q_out _ _ Hq).
Qed.

End Chain.

(** ** The thread, the callers and the module *)
Module System.
Import Chain.

(** where the kernel thread is: the statement of osif_dpc_thread it executes
    next *)
Inductive tpc :=
| T_none                 (** there is no thread *)
| T_start                (** thread_running = 1 *)
| T_while                (** while (!destroy) *)
| T_trig                 (** atomic_add_unless *)
| T_lock                 (** spin_lock_irq *)
| T_next                 (** while (NULL != first), lock held *)
| T_call (p : ptr)       (** the call of its function *)
| T_return (p : ptr)     (** spin_lock_irq after it *)
| T_idle                 (** set_current_state(TASK_INTERRUPTIBLE), lock held *)
| T_test                 (** atomic_read, lock held *)
| T_unlock (sleep : bool) (** spin_unlock_irq, lock held *)
| T_schedule             (** schedule() *)
| T_asleep               (** in schedule(), off the run queue *)
| T_awake                (** __set_current_state(TASK_RUNNING) *)
| T_exit                 (** thread_running = 0 *)
| T_complete.            (** complete_and_exit *)

Inductive task_state := TASK_RUNNING | TASK_INTERRUPTIBLE.

(** where a caller is, after the first critical section of its call *)
Inductive cpc :=
| C_inc                  (** osif_dpc_trigger: atomic_inc *)
| C_wake                 (** osif_dpc_trigger: wake_up_process *)
| C_wait (p : ptr)       (** osif_dpc_destroy: while (running), taking the lock *)
| C_free (p : ptr).      (** osif_dpc_destroy: OSIF_FREE *)

(** where osif_attach or osif_detach is *)
Inductive rpc :=
| R_down                 (** not attached *)
| R_starting             (** osif_dpc_root_create waits for the thread *)
| R_failed               (** it has given up waiting *)
| R_up                   (** attached *)
| R_wake                 (** osif_dpc_root_destroy: wake_up_process *)
| R_notify               (** waits for thread_running == 0, at most 100 ticks *)
| R_join.                (** wait_for_completion *)

#[export] Instance tpc_eq_dec : EqDecision tpc.
Proof. solve_decision. Defined.
#[export] Instance cpc_eq_dec : EqDecision cpc.
Proof. solve_decision. Defined.

(** dpc_root with what surrounds it *)
Record state := Mk_state {
  chain : root;                (** first, and the DPCs *)
  spinlock : bool;             (** held *)
  thread_running : Z;
  root_destroy : Z;            (** dpc_root.destroy *)
  trig : Z;
  tsk : task_state;            (** state of the thread's task *)
  dpcThreadCompletion : bool;  (** completed, not waited for yet *)
  thread : tpc;
  callers : list cpc;          (** the calls in progress *)
  module : rpc
}.
#[export] Instance state_eta : Eta state := fun r =>
  Mk_state (chain r) (spinlock r) (thread_running r) (root_destroy r) (trig r) (tsk r)
    (dpcThreadCompletion r) (thread r) (callers r) (module r).

Definition initial : state :=
  Mk_state (Mk_root NULL ∅) false 0 0 0 TASK_RUNNING false T_none [] R_down.

(** what an observer of the DPCs sees *)
Inductive label :=
| Created (p : ptr) (f a : Z)
| Triggered (p : ptr) (result : Z)
| Called (p : ptr) (f a : Z)
| Returned (p : ptr)
| Taken (p : ptr)
| Destroying (p : ptr)
| Freed (p : ptr)
| NullHandle (result : Z)
| Attach (result : Z)
| Detached
| Silent.

(** a step: done, not possible now, or an access outside the DPCs *)
Inductive result (A : Type) := Done (a : A) | Blocked | Bad.
Arguments Done {_} _.
Arguments Blocked {_}.
Arguments Bad {_}.

Definition of_opt {A} (o : option A) : result A :=
  match o with Some a => Done a | None => Bad end.

(** wake_up_process *)
Definition wake_up_process (s : state) : state :=
  s <| tsk := TASK_RUNNING |>
    <| thread := match thread s with T_asleep => T_awake | t => t end |>.

(** osif_dpc_thread *)
Definition thread_step (s : state) : result (label * state) :=
  match thread s with
  | T_none | T_asleep => Blocked
  | T_start => Done (Silent, s <| thread_running := 1 |> <| tsk := TASK_RUNNING |>
                              <| thread := T_while |>)
  | T_while =>
      Done (Silent, s <| thread := if root_destroy s =? 0 then T_trig else T_exit |>)
  | T_trig =>
      Done (Silent, s <| trig := if trig s =? 0 then 0 else s32 (trig s - 1) |>
                      <| thread := T_lock |>)
  | T_lock =>
      if spinlock s then Blocked
      else Done (Silent, s <| spinlock := true |> <| thread := T_next |>)
  | T_next =>
      if first (chain s) =? NULL then Done (Silent, s <| thread := T_idle |>)
      else match link_out (chain s) with
           | Some (dpc, r) =>
               Done (Taken dpc, s <| chain := r |> <| spinlock := false |>
                                  <| thread := T_call dpc |>)
           | None => Bad
           end
  | T_call dpc =>
      match dpcs (chain s) !! dpc with
      | Some d => Done (Called dpc (func d) (arg d), s <| thread := T_return dpc |>)
      | None => Bad
      end
  | T_return dpc =>
      if spinlock s then Blocked
      else match not_running dpc (chain s) with
           | Some r => Done (Returned dpc, s <| chain := r |> <| spinlock := true |>
                                             <| thread := T_next |>)
           | None => Bad
           end
  | T_idle => Done (Silent, s <| tsk := TASK_INTERRUPTIBLE |> <| thread := T_test |>)
  | T_test => Done (Silent, s <| thread := T_unlock (trig s =? 0) |>)
  | T_unlock sleep =>
      Done (Silent, s <| spinlock := false |>
                      <| thread := if sleep then T_schedule else T_awake |>)
  | T_schedule =>
      Done (Silent, s <| thread := match tsk s with
                                   | TASK_RUNNING => T_awake
                                   | TASK_INTERRUPTIBLE => T_asleep
                                   end |>)
  | T_awake => Done (Silent, s <| tsk := TASK_RUNNING |> <| thread := T_while |>)
  | T_exit => Done (Silent, s <| thread_running := 0 |> <| thread := T_complete |>)
  | T_complete =>
      Done (Silent, s <| dpcThreadCompletion := true |> <| thread := T_none |>)
  end.

(** the rest of a call; the caller goes on as [Some c'] or has returned *)
Definition caller_step (c : cpc) (s : state) : result (label * option cpc * state) :=
  match c with
  | C_inc => Done (Silent, Some C_wake, s <| trig := s32 (trig s + 1) |>)
  | C_wake => Done (Silent, None, wake_up_process s)
  | C_wait p =>
      if spinlock s then Blocked
      else match dpcs (chain s) !! p with
           | Some d =>
               if running d =? 0 then Done (Silent, Some (C_free p), s)
               else Done (Silent, Some (C_wait p), s)  (* OSIF_SLEEP(300) *)
           | None => Bad
           end
  | C_free p =>
      match dpcs (chain s) !! p with
      | Some _ => Done (Freed p, None, s <| chain ::= fun r => r <| dpcs ::= delete p |> |>)
      | None => Bad
      end
  end.

(** One step of the system.  osif_dpc_create that gets no memory changes
    nothing; an address it gets is not NULL and not one of a DPC.  Callers keep
    to what the code relies on: a DPC is triggered until its memory is given back,
    and destroyed once. *)
Inductive step : state -> label -> state -> Prop :=
| step_thread s l s' :
    thread_step s = Done (l, s') -> step s l s'
| step_caller s l1 c l2 l o s' :
    callers s = l1 ++ c :: l2 -> caller_step c s = Done (l, o, s') ->
    step s l (s' <| callers := l1 ++ option_list o ++ l2 |>)
| step_create s p f a :
    dpcs (chain s) !! p = None -> p <> NULL ->
    step s (Created p f a)
      (s <| chain ::= fun r => r <| dpcs ::= <[p := osif_dpc_create f a]> |> |>)
| step_trigger s p d r x w :
    spinlock s = false -> dpcs (chain s) !! p = Some d ->
    osif_dpc_trigger p (chain s) = Some (r, x, w) ->
    step s (Triggered p x)
      (s <| chain := r |> <| callers ::= fun l => if w then C_inc :: l else l |>)
| step_destroy s p d r :
    spinlock s = false -> dpcs (chain s) !! p = Some d -> destroy d = 0 ->
    osif_dpc_destroy p (chain s) = Some r ->
    step s (Destroying p) (s <| chain := r |> <| callers ::= cons (C_wait p) |>)
(* both, when the handle is NULL *)
| step_null s :
    step s (NullHandle CANIO_EFAULT) s
(* osif_dpc_root_create *)
| step_create_fails s :
    module s = R_down ->
    step s (Attach CANIO_EIO) (s <| thread_running := 0 |> <| spinlock := false |>)
| step_kthread_run s :
    module s = R_down ->
    step s Silent (s <| thread_running := 0 |> <| spinlock := false |>
                     <| thread := T_start |> <| tsk := TASK_RUNNING |> <| module := R_starting |>)
| step_started s :
    module s = R_starting -> thread_running s = 1 ->
    step s (Attach OSIF_SUCCESS) (s <| module := R_up |>)
| step_not_started s :
    module s = R_starting ->
    step s (Attach OSIF_INSUFFICIENT_RESOURCES) (s <| module := R_failed |>)
(* osif_dpc_root_destroy; it waits for the notification or for the time limit *)
| step_root_destroy s :
    module s = R_up -> step s Silent (s <| root_destroy := 1 |> <| module := R_wake |>)
| step_root_wake s :
    module s = R_wake -> step s Silent (wake_up_process s <| module := R_notify |>)
| step_root_notified s :
    module s = R_notify -> step s Silent (s <| module := R_join |>)
| step_root_joined s :
    module s = R_join -> dpcThreadCompletion s = true ->
    step s Detached (s <| dpcThreadCompletion := false |> <| root_destroy := 0 |>
                       <| module := R_down |>).

(** a run, with what can be seen of it *)
Inductive run : state -> list label -> state -> Prop :=
| run_nil s : run s [] s
| run_step s1 l s2 t s3 : step s1 l s2 -> run s2 t s3 -> run s1 (l :: t) s3.

Lemma run_app s1 t1 s2 t2 s3 : run s1 t1 s2 -> run s2 t2 s3 -> run s1 (t1 ++ t2) s3.
Proof. induction 1; simpl; [done |]. intros. econstructor; eauto. Qed.

(** *** What the system promises: a queue without repetition *)

(** the DPCs waiting, in order; those that exist, with whether they are being
    destroyed and what they call; the one whose function runs *)
Record spec := Mk_spec {
  waiting : list ptr; live : gmap ptr (bool * Z * Z); current : option ptr
}.
#[export] Instance spec_eta : Eta spec := fun r => Mk_spec (waiting r) (live r) (current r).

Inductive spec_step : spec -> label -> spec -> Prop :=
| spec_created a p f x :
    live a !! p = None ->
    spec_step a (Created p f x) (a <| live ::= <[p := (false, f, x)]> |>)
| spec_triggered a p f x :
    live a !! p = Some (false, f, x) -> p ∉ waiting a ->
    spec_step a (Triggered p OSIF_SUCCESS) (a <| waiting ::= fun q => q ++ [p] |>)
| spec_again a p :
    p ∈ waiting a -> spec_step a (Triggered p OSIF_SUCCESS) a
| spec_refused a p f x :
    live a !! p = Some (true, f, x) -> spec_step a (Triggered p CANIO_ENOENT) a
| spec_taken a p q :
    waiting a = p :: q -> current a = None ->
    spec_step a (Taken p) (a <| waiting := q |> <| current := Some p |>)
| spec_called a p b f x :
    current a = Some p -> live a !! p = Some (b, f, x) -> spec_step a (Called p f x) a
| spec_returned a p :
    current a = Some p -> spec_step a (Returned p) (a <| current := None |>)
| spec_destroying a p f x :
    live a !! p = Some (false, f, x) ->
    spec_step a (Destroying p)
      (a <| live ::= <[p := (true, f, x)]> |> <| waiting ::= fun q => without p q |>)
| spec_freed a p f x :
    live a !! p = Some (true, f, x) -> p ∉ waiting a -> current a <> Some p ->
    spec_step a (Freed p) (a <| live ::= delete p |>)
| spec_other a l :
    match l with Silent | NullHandle _ | Attach _ | Detached => True | _ => False end -> spec_step a l a.

Inductive spec_run : spec -> list label -> spec -> Prop :=
| spec_nil a : spec_run a [] a
| spec_cons a1 l a2 t a3 : spec_step a1 l a2 -> spec_run a2 t a3 -> spec_run a1 (l :: t) a3.

(** *** The invariant *)

(** the DPC the thread works on *)
Definition cur (t : tpc) : option ptr :=
  match t with T_call p | T_return p => Some p | _ => None end.

(** where the thread holds the lock, and where it has found the chain empty *)
Definition holds (t : tpc) : bool :=
  match t with T_next | T_idle | T_test | T_unlock _ => true | _ => false end.
Definition idle (t : tpc) : bool :=
  match t with T_idle | T_test | T_unlock _ => true | _ => false end.

Definition dying_of (c : cpc) : option ptr :=
  match c with C_wait p | C_free p => Some p | _ => None end.

(** the thread does not run, or will not after schedule() *)
Definition sleeping (s : state) : Prop :=
  thread s = T_asleep \/ thread s = T_schedule /\ tsk s = TASK_INTERRUPTIBLE.
(** some caller is about to wake it *)
Definition waking (l : list cpc) : Prop := C_inc ∈ l \/ C_wake ∈ l.

Record Inv (s : state) (q : list ptr) : Prop := {
  inv_queued : queued (chain s) q;
  inv_running : forall p n b f a, info (chain s) p = Some (n, b, f, a) ->
    n = if decide (cur (thread s) = Some p) then 1 else 0;
  inv_cur : forall p, cur (thread s) = Some p -> is_Some (info (chain s) p);
  inv_lock : spinlock s = holds (thread s);
  inv_idle : idle (thread s) = true -> q = [];
  inv_dying : forall p, p ∈ omap dying_of (callers s) ->
    exists n f a, info (chain s) p = Some (n, 1, f, a);
  inv_freeing : forall p, C_free p ∈ callers s -> cur (thread s) <> Some p;
  inv_once : NoDup (omap dying_of (callers s));
  inv_wake : sleeping s -> q <> [] -> waking (callers s);
  inv_down : module s = R_down -> thread s = T_none /\ dpcThreadCompletion s = false;
  inv_completion : dpcThreadCompletion s = true -> thread s = T_none
}.

(** the queue of a state whose chain is [q] *)
Definition view (i : Z * Z * Z * Z) : bool * Z * Z :=
  let '(_, b, f, a) := i in (negb (b =? 0), f, a).
Definition abs (s : state) (q : list ptr) : spec :=
  Mk_spec q ((fun d => view (flags d)) <$> dpcs (chain s)) (cur (thread s)).

Lemma live_abs s q p : live (abs s q) !! p = view <$> info (chain s) p.
Proof. simpl. rewrite lookup_fmap. unfold info. by destruct (dpcs (chain s) !! p). Qed.

(** to step to a state is to step to what it shows *)
Lemma spec_step_to a l s q m c :
  spec_step a l (Mk_spec q m c) -> (forall p, m !! p = view <$> info (chain s) p) ->
  cur (thread s) = c -> spec_step a l (abs s q).
Proof.
  intros Hs Hm <-. assert (abs s q = Mk_spec q m (cur (thread s))) as ->; [| done].
  unfold abs. f_equal. apply map_eq. intros p. rewrite Hm, <- (live_abs s q). done.
Qed.

(** *** The invariant is kept *)

(** steps that only move the thread *)
Lemma inv_move s q s' :
  Inv s q -> chain s' = chain s -> callers s' = callers s ->
  cur (thread s') = cur (thread s) -> spinlock s' = holds (thread s') ->
  (idle (thread s') = true -> q = []) ->
  (sleeping s' -> q <> [] -> waking (callers s)) ->
  (module s' = R_down -> thread s' = T_none /\ dpcThreadCompletion s' = false) ->
  (dpcThreadCompletion s' = true -> thread s' = T_none) ->
  Inv s' q /\ abs s' q = abs s q.
Proof.
  intros Hi Hc Hl Ht Hs He Hw Hd Hm. split; [| unfold abs; by rewrite Hc, Ht].
  constructor; rewrite ?Hc, ?Hl, ?Ht; try done; by apply Hi.
Qed.

Lemma inv_live s q p n b f a :
  Inv s q -> info (chain s) p = Some (n, b, f, a) -> p ∈ q -> b = 0.
Proof.
  intros Hi Hp Hq. unfold info in Hp. destruct (dpcs (chain s) !! p) as [d|] eqn:E; [| done].
  destruct (q_in _ _ (inv_queued _ _ Hi) p d E Hq) as [_ Hd]. rewrite <- Hd. by injection Hp.
Qed.

Lemma inv_not_first s q : Inv s q -> first (chain s) <> NULL -> exists p q', q = p :: q'.
Proof.
  intros Hi Hf. pose proof (q_chain _ _ (inv_queued _ _ Hi)) as Hc.
  destruct q as [|p q]; [done |]. eauto.
Qed.

Lemma inv_first s q : Inv s q -> first (chain s) = NULL -> q = [].
Proof.
  intros Hi Hf. pose proof (q_chain _ _ (inv_queued _ _ Hi)) as Hc. rewrite Hf in Hc.
  exact (segment_null _ _ Hc).
Qed.

Lemma info_dpcs r p i : info r p = Some i -> exists d, dpcs r !! p = Some d /\ flags d = i.
Proof. unfold info. destruct (dpcs r !! p) as [d|]; [| done]. intros. simplify_eq/=. eauto. Qed.

(** The thread's own steps.  It goes on when it does not wait for the lock or
    sleep; in particular it never leaves the DPCs. *)
Definition thread_fine (s : state) (q : list ptr) : Prop :=
  match thread_step s with
  | Done (l, s') => exists q', Inv s' q' /\ spec_step (abs s q) l (abs s' q')
  | Blocked => thread s = T_none \/ thread s = T_asleep \/ spinlock s = true
  | Bad => False
  end.

(** the silent ones *)
Lemma thread_silent s q s' :
  thread_step s = Done (Silent, s') -> Inv s' q /\ abs s' q = abs s q -> thread_fine s q.
Proof.
  intros E [Hi Ha]. unfold thread_fine. rewrite E. exists q. split; [done |].
  rewrite Ha. by apply spec_other.
Qed.

Ltac silent s Ht :=
  eapply thread_silent; [unfold thread_step; rewrite Ht; reflexivity |];
  apply inv_move; simpl; try done.

Lemma inv_down_false s q t :
  Inv s q -> thread s = t -> t <> T_none -> module s <> R_down.
Proof. intros Hi Ht Hn Hd. destruct (inv_down _ _ Hi Hd) as [E _]. congruence. Qed.

Lemma inv_completion_false s q t :
  Inv s q -> thread s = t -> t <> T_none -> dpcThreadCompletion s = true -> False.
Proof. intros Hi Ht Hn Hd. pose proof (inv_completion _ _ Hi Hd). congruence. Qed.

Lemma thread_take s q : Inv s q -> thread s = T_next -> thread_fine s q.
Proof.
  intros Hi Ht. pose proof (inv_lock _ _ Hi) as Hs. rewrite Ht in Hs.
  pose proof (inv_down_false _ _ _ Hi Ht ltac:(done)) as Hd.
  pose proof (inv_completion_false _ _ _ Hi Ht ltac:(done)) as Hm.
  destruct (decide (first (chain s) = NULL)) as [E|E].
  - eapply thread_silent; [unfold thread_step; rewrite Ht, E; reflexivity |].
    apply inv_move; simpl; try done; [by rewrite Ht | | by intros [?|[? _]]].
    intros _. by apply (inv_first s).
  - destruct (inv_not_first _ _ Hi E) as (p & q' & ->).
    destruct (link_out_spec _ _ _ (inv_queued _ _ Hi)) as (r' & El & Hq' & Hinfo).
    unfold thread_fine, thread_step. rewrite Ht. destruct (Z.eqb_spec (first (chain s)) NULL) as [|_]; [done |].
    rewrite El. exists q'. split.
    + constructor; simpl; try done.
      * intros x n b f a Hx. rewrite Hinfo in Hx. case_decide as Hpx.
        -- subst. destruct (info (chain s) x) as [[[[n' b'] f'] a']|] eqn:Ex; [| done].
           simplify_eq/=. by rewrite decide_True.
        -- rewrite (inv_running _ _ Hi _ _ _ _ _ Hx), Ht. simpl.
           rewrite !decide_False by congruence. done.
      * intros x [= <-]. rewrite Hinfo, decide_True by done.
        pose proof (q_chain _ _ (inv_queued _ _ Hi)) as Hc.
        destruct (segment_in _ _ _ _ p Hc ltac:(left)) as [d Hdp].
        by rewrite (info_Some _ _ _ Hdp).
      * intros x Hx. destruct (inv_dying _ _ Hi x Hx) as (n & f & a & Hxi).
        rewrite Hinfo, Hxi. case_decide; simpl; eauto.
      * intros x Hx [= <-]. destruct (inv_dying _ _ Hi p) as (n & f & a & Hxi).
        { apply list_elem_of_omap. by exists (C_free p). }
        assert (1 = 0); [| done]. apply (inv_live _ _ _ _ _ _ _ Hi Hxi). left.
      * apply (inv_once _ _ Hi).
      * by intros [?|[? _]].
    + eapply spec_step_to; [| | done].
      * apply (spec_taken (abs s (p :: q')) p q'); [done |]. simpl. by rewrite Ht.
      * intros x. etrans; [exact (live_abs s _ x) |]. simpl. rewrite Hinfo. case_decide; [| done].
        by destruct (info (chain s) x) as [[[[? ?] ?] ?]|].
Qed.

Lemma thread_return s q p : Inv s q -> thread s = T_return p -> thread_fine s q.
Proof.
  intros Hi Ht. pose proof (inv_lock _ _ Hi) as Hs. rewrite Ht in Hs. simpl in Hs.
  pose proof (inv_down_false _ _ _ Hi Ht ltac:(done)) as Hd.
  pose proof (inv_completion_false _ _ _ Hi Ht ltac:(done)) as Hm.
  destruct (inv_cur _ _ Hi p) as [i Hp]; [by rewrite Ht |].
  destruct (info_dpcs _ _ _ Hp) as (d & Hdp & _).
  destruct (not_running_spec _ _ _ _ (inv_queued _ _ Hi) Hdp) as (r' & El & Hq' & Hinfo).
  unfold thread_fine, thread_step. rewrite Ht, Hs, El. exists q. split.
  - constructor; simpl; try done.
    + intros x n b f a Hx. rewrite Hinfo in Hx. case_decide as Hpx.
      * subst. rewrite Hp in Hx. destruct i as [[[? ?] ?] ?]. by simplify_eq/=.
      * rewrite (inv_running _ _ Hi _ _ _ _ _ Hx), Ht. simpl.
        by rewrite decide_False by congruence.
    + intros x Hx. destruct (inv_dying _ _ Hi x Hx) as (n & f & a & Hxi).
      rewrite Hinfo, Hxi. case_decide; simpl; eauto.
    + apply (inv_once _ _ Hi).
    + by intros [?|[? _]].
  - eapply spec_step_to; [| | done].
    + apply (spec_returned (abs s q) p). simpl. by rewrite Ht.
    + intros x. etrans; [exact (live_abs s q x) |]. simpl. rewrite Hinfo. case_decide; [| done].
      by destruct (info (chain s) x) as [[[[? ?] ?] ?]|].
Qed.

Lemma thread_call s q p : Inv s q -> thread s = T_call p -> thread_fine s q.
Proof.
  intros Hi Ht. pose proof (inv_lock _ _ Hi) as Hs. rewrite Ht in Hs. simpl in Hs.
  pose proof (inv_down_false _ _ _ Hi Ht ltac:(done)) as Hd.
  pose proof (inv_completion_false _ _ _ Hi Ht ltac:(done)) as Hm.
  destruct (inv_cur _ _ Hi p) as [i Hp]; [by rewrite Ht |].
  destruct (info_dpcs _ _ _ Hp) as (d & Hdp & <-).
  unfold thread_fine, thread_step. rewrite Ht, Hdp. exists q.
  destruct (inv_move s q (s <| thread := T_return p |>) Hi) as [Hi' Ha];
    simpl; try done; [by rewrite Ht | by intros [?|[? _]] |].
  split; [done |]. rewrite Ha.
  apply (spec_called _ p (negb (destroy d =? 0))); [simpl; by rewrite Ht |].
  rewrite live_abs, Hp. done.
Qed.

Lemma thread_step_fine s q : Inv s q -> thread_fine s q.
Proof.
  intros Hi. destruct (thread s) eqn:Ht.
  all: try (pose proof (inv_down_false _ _ _ Hi Ht ltac:(done)) as Hd;
            pose proof (inv_completion_false _ _ _ Hi Ht ltac:(done)) as Hm).
  all: pose proof (inv_lock _ _ Hi) as Hs; rewrite Ht in Hs; simpl in Hs.
  - unfold thread_fine, thread_step. rewrite Ht. by left.
  - silent s Ht; [by rewrite Ht | by intros [?|[? _]]].
  - silent s Ht; destruct (root_destroy s =? 0); try done; try (by rewrite Ht);
      try (by intros [?|[? _]]).
  - silent s Ht; [by rewrite Ht | by intros [?|[? _]]].
  - eapply thread_silent; [unfold thread_step; rewrite Ht, Hs; reflexivity |].
    apply inv_move; simpl; try done; [by rewrite Ht | by intros [?|[? _]]].
  - by apply thread_take.
  - by apply (thread_call s q p).
  - by apply (thread_return s q p).
  - silent s Ht; [by rewrite Ht | | by intros [?|[? _]]].
    intros _. apply (inv_idle _ _ Hi). by rewrite Ht.
  - silent s Ht; [by rewrite Ht | | by intros [?|[? _]]].
    intros _. apply (inv_idle _ _ Hi). by rewrite Ht.
  - assert (q = []) as -> by (apply (inv_idle _ _ Hi); by rewrite Ht).
    silent s Ht; destruct sleep; try done; by rewrite Ht.
  - silent s Ht; destruct (tsk s) eqn:E; try done; try (by rewrite Ht).
    + by intros [?|[? _]].
    + intros _. apply (inv_wake _ _ Hi). by right.
  - unfold thread_fine, thread_step. rewrite Ht. by right; left.
  - silent s Ht; [by rewrite Ht | by intros [?|[? _]]].
  - silent s Ht; [by rewrite Ht | by intros [?|[? _]]].
  - eapply thread_silent; [unfold thread_step; rewrite Ht; reflexivity |].
    apply inv_move; simpl; try done; [by rewrite Ht | by intros [?|[? _]]].
Qed.

(** The rest of a call. *)
Definition caller_fine (s : state) (q : list ptr) (l1 : list cpc) (c : cpc) (l2 : list cpc) : Prop :=
  match caller_step c s with
  | Done (l, o, s') =>
      Inv (s' <| callers := l1 ++ option_list o ++ l2 |>) q /\
      spec_step (abs s q) l (abs (s' <| callers := l1 ++ option_list o ++ l2 |>) q)
  | Blocked => spinlock s = true
  | Bad => False
  end.

Lemma dying_mid l1 c l2 :
  omap dying_of (l1 ++ c :: l2) =
  omap dying_of l1 ++ option_list (dying_of c) ++ omap dying_of l2.
Proof. rewrite omap_app. f_equal. simpl. by destruct (dying_of c). Qed.

Lemma waking_mid l1 c l2 :
  waking (l1 ++ c :: l2) <-> c = C_inc \/ c = C_wake \/ waking (l1 ++ l2).
Proof. unfold waking. rewrite !elem_of_app, !elem_of_cons. naive_solver. Qed.

(** a caller that goes on, destroying the same DPC *)
Lemma inv_goes_on s q l1 c l2 c' s' :
  Inv s q -> callers s = l1 ++ c :: l2 -> dying_of c' = dying_of c ->
  s' = s \/ s' = s <| trig := trig s' |> ->
  (waking (callers s) -> waking (l1 ++ c' :: l2)) ->
  (forall p, c' = C_free p -> cur (thread s) <> Some p) ->
  Inv (s' <| callers := l1 ++ c' :: l2 |>) q /\
  spec_step (abs s q) Silent (abs (s' <| callers := l1 ++ c' :: l2 |>) q).
Proof.
  intros Hi Hc Hd Hs Hw Hf.
  assert (omap dying_of (l1 ++ c' :: l2) = omap dying_of (callers s)) as E
    by (by rewrite Hc, !dying_mid, Hd).
  assert (abs (s' <| callers := l1 ++ c' :: l2 |>) q = abs s q) as ->
    by (destruct Hs as [->| ->]; done).
  split; [| by apply spec_other].
  destruct Hs as [->| ->]; constructor; simpl; rewrite ?E; try (by apply Hi);
    try (intros p [Hp|[Hp|Hp]%elem_of_cons]%elem_of_app; [| by apply Hf |];
         apply (inv_freeing _ _ Hi); rewrite Hc; set_solver);
    intros Hsl Hq; apply Hw; by apply (inv_wake _ _ Hi).
Qed.

Lemma caller_free s q l1 p l2 :
  Inv s q -> callers s = l1 ++ C_free p :: l2 -> caller_fine s q l1 (C_free p) l2.
Proof.
  intros Hi Hc. pose proof (inv_once _ _ Hi) as Hn.
  pose proof (inv_dying _ _ Hi) as Hdy. rewrite Hc, dying_mid in Hn, Hdy. simpl in Hn, Hdy.
  destruct (Hdy p) as (n & f & a & Hp); [set_solver |].
  assert (cur (thread s) <> Some p) as Hcur.
  { apply (inv_freeing _ _ Hi). rewrite Hc. set_solver. }
  assert (p ∉ q) as Hpq by (intros Hin; by pose proof (inv_live _ _ _ _ _ _ _ Hi Hp Hin)).
  destruct (info_dpcs _ _ _ Hp) as (d & Hd & _).
  unfold caller_fine, caller_step. rewrite Hd. simpl.
  assert (forall x, info ((chain s) <| dpcs ::= delete p |>) x =
            if decide (p = x) then None else info (chain s) x) as Hinfo.
  { intros x. unfold info. simpl. case_decide as Hx; [subst; by rewrite lookup_delete_eq |].
    by rewrite lookup_delete_ne. }
  split.
  - constructor; simpl; try (by apply Hi).
    + by apply free_spec; [apply Hi |].
    + intros x n' b f' a'. rewrite Hinfo. case_decide; [done |]. apply (inv_running _ _ Hi).
    + intros x Hx. rewrite Hinfo, decide_False by congruence. by apply (inv_cur _ _ Hi).
    + intros x Hx. rewrite omap_app in Hx. rewrite Hinfo, decide_False; [apply Hdy; set_solver |].
      intros ->. apply NoDup_app in Hn as (_ & Hn1 & [Hn2 _]%NoDup_cons). set_solver.
    + intros x Hx. apply (inv_freeing _ _ Hi). rewrite Hc. set_solver.
    + rewrite omap_app. apply NoDup_app in Hn as (Hn1 & Hn2 & [_ Hn3]%NoDup_cons).
      apply NoDup_app. set_solver.
    + intros Hs Hq. pose proof (inv_wake _ _ Hi Hs Hq) as Hw. rewrite Hc in Hw.
      by apply waking_mid in Hw as [|[|]].
  - eapply spec_step_to; [| | done].
    + apply (spec_freed (abs s q) p f a); [| done | done]. by rewrite live_abs, Hp.
    + intros x. simpl. rewrite Hinfo. case_decide as Hx.
      * subst. by rewrite lookup_delete_eq.
      * rewrite lookup_delete_ne by done. exact (live_abs s q x).
Qed.

Lemma wake_up_thread s :
  let t := thread (wake_up_process s) in
  cur t = cur (thread s) /\ holds t = holds (thread s) /\ idle t = idle (thread s) /\
  t <> T_asleep /\ (thread s = T_none -> t = T_none).
Proof. simpl. destruct (thread s); done. Qed.

Lemma inv_wake_up s q l :
  Inv s q -> omap dying_of l = omap dying_of (callers s) ->
  (forall p, C_free p ∈ l -> C_free p ∈ callers s) ->
  Inv (wake_up_process s <| callers := l |>) q /\
  abs (wake_up_process s <| callers := l |>) q = abs s q.
Proof.
  intros Hi Hl Hf. destruct (wake_up_thread s) as (E1 & E2 & E3 & E4 & E5).
  split; [| unfold abs; simpl; simpl in E1; by rewrite E1].
  unfold wake_up_process in *. simpl in *.
  constructor; simpl; rewrite ?E1, ?E2, ?E3, ?Hl; try (by apply Hi).
  - intros p Hp. by apply (inv_freeing _ _ Hi), Hf.
  - by intros [|[_ [=]]].
  - intros E%(inv_down _ _ Hi). destruct E as [E ?]. split; [by apply E5 | done].
  - intros E%(inv_completion _ _ Hi). by apply E5.
Qed.

Lemma caller_step_fine s q l1 c l2 :
  Inv s q -> callers s = l1 ++ c :: l2 -> caller_fine s q l1 c l2.
Proof.
  intros Hi Hc. destruct c as [| |p|p].
  - apply (inv_goes_on s q l1 C_inc l2 C_wake (s <| trig := s32 (trig s + 1) |>));
      [done | done | done | by right | | done].
    intros _. apply waking_mid. by right; left.
  - unfold caller_fine, caller_step.
    destruct (inv_wake_up s q (l1 ++ l2) Hi) as [Hi' Ha].
    + by rewrite Hc, dying_mid, omap_app.
    + intros p Hp. rewrite Hc. set_solver.
    + split; [exact Hi' |].
      change (spec_step (abs s q) Silent (abs (wake_up_process s <| callers := l1 ++ l2 |>) q)).
      rewrite Ha. by apply spec_other.
  - unfold caller_fine, caller_step. destruct (spinlock s) eqn:Hs; [done |].
    destruct (inv_dying _ _ Hi p) as (n & f & a & Hp).
    { rewrite Hc, dying_mid. set_solver. }
    destruct (info_dpcs _ _ _ Hp) as (d & Hd & Hf). rewrite Hd.
    destruct (Z.eqb_spec (running d) 0) as [Hr|_].
    + apply (inv_goes_on s q l1 (C_wait p) l2 (C_free p)); [done | done | done | by left | |].
      * rewrite Hc, !waking_mid. naive_solver.
      * intros ? [= <-] E. pose proof (inv_running _ _ Hi p _ _ _ _ Hp) as Hn.
        rewrite decide_True in Hn by done. injection Hf as Hf _ _ _. congruence.
    + apply (inv_goes_on s q l1 (C_wait p) l2 (C_wait p)); [done | done | done | by left | | done].
      by rewrite Hc.
  - by apply caller_free.
Qed.

(** A DPC is created. *)
Lemma create_fine s q p f a :
  Inv s q -> dpcs (chain s) !! p = None -> p <> NULL ->
  let s' := s <| chain ::= fun r => r <| dpcs ::= <[p := osif_dpc_create f a]> |> |> in
  Inv s' q /\ spec_step (abs s q) (Created p f a) (abs s' q).
Proof.
  intros Hi Hp Hn. simpl.
  assert (info (chain s) p = None) as Hpi by (unfold info; by rewrite Hp).
  assert (cur (thread s) <> Some p) as Hcur.
  { intros E. destruct (inv_cur _ _ Hi _ E) as [? Hx]. congruence. }
  split.
  - constructor; simpl; try (by apply Hi).
    + by apply create_spec; [apply Hi | |].
    + intros x n b f' a'. rewrite info_store. case_decide as Hx; [| apply (inv_running _ _ Hi)].
      subst. intros [= <- <- <- <-]. by rewrite decide_False.
    + intros x Hx. rewrite info_store. case_decide; [done |]. by apply (inv_cur _ _ Hi).
    + intros x Hx. destruct (inv_dying _ _ Hi x Hx) as (n & f' & a' & Hxi).
      rewrite info_store, decide_False by congruence. eauto.
  - eapply spec_step_to; [apply (spec_created (abs s q) p f a) | | done].
    + by rewrite live_abs, Hpi.
    + intros x. simpl. rewrite info_store. case_decide as Hx.
      * subst. by rewrite lookup_insert_eq.
      * rewrite lookup_insert_ne by done. exact (live_abs s q x).
Qed.

(** A DPC is triggered: it waits once. *)
Lemma trigger_fine s q p d :
  Inv s q -> spinlock s = false -> dpcs (chain s) !! p = Some d ->
  exists r x w q', osif_dpc_trigger p (chain s) = Some (r, x, w) /\
    let s' := s <| chain := r |> <| callers ::= fun l => if w then C_inc :: l else l |> in
    Inv s' q' /\ spec_step (abs s q) (Triggered p x) (abs s' q').
Proof.
  intros Hi Hs Hp. pose proof (inv_queued _ _ Hi) as Hq.
  assert (s <| chain := chain s |> <| callers ::= fun l => l |> = s) as Heta by (by destruct s).
  destruct (decide (destroy d = 0)) as [Hd|Hd].
  - destruct (decide (p ∈ q)) as [Hin|Hin].
    + exists (chain s), OSIF_SUCCESS, false, q. split; [by apply (trigger_again _ q) |].
      simpl. rewrite Heta. split; [done |]. by apply spec_again.
    + destruct (trigger_new _ _ _ _ Hq Hp Hd Hin) as (r & E & Hq' & Hinfo).
      exists r, OSIF_SUCCESS, true, (q ++ [p]). split; [done |]. simpl. split.
      * constructor; simpl; try (by apply Hi); [done | | | | | |].
        -- intros x n b f a. rewrite Hinfo. apply (inv_running _ _ Hi).
        -- intros x. rewrite Hinfo. apply (inv_cur _ _ Hi).
        -- intros Hidle. pose proof (inv_lock _ _ Hi) as Hl. rewrite Hs in Hl.
           by destruct (thread s).
        -- intros x. rewrite Hinfo. apply (inv_dying _ _ Hi).
        -- intros x [?|Hx]%elem_of_cons; [done | by apply (inv_freeing _ _ Hi)].
        -- intros _ _. left. left.
      * eapply spec_step_to; [apply (spec_triggered (abs s q) p (func d) (arg d)) | | done].
        -- rewrite live_abs, (info_Some _ _ _ Hp). simpl. by rewrite Hd.
        -- done.
        -- intros x. simpl. rewrite Hinfo. exact (live_abs s q x).
  - exists (chain s), CANIO_ENOENT, false, q. split; [by apply (trigger_destroyed _ _ d) |].
    simpl. rewrite Heta. split; [done |]. apply (spec_refused _ _ (func d) (arg d)).
    rewrite live_abs, (info_Some _ _ _ Hp). simpl. by destruct (Z.eqb_spec (destroy d) 0).
Qed.

(** A DPC begins to be destroyed: it waits no longer. *)
Lemma destroy_fine s q p d :
  Inv s q -> spinlock s = false -> dpcs (chain s) !! p = Some d -> destroy d = 0 ->
  exists r q', osif_dpc_destroy p (chain s) = Some r /\
    let s' := s <| chain := r |> <| callers ::= cons (C_wait p) |> in
    Inv s' q' /\ spec_step (abs s q) (Destroying p) (abs s' q').
Proof.
  intros Hi Hs Hp Hd. pose proof (inv_queued _ _ Hi) as Hq.
  destruct (destroy_spec _ _ _ _ Hq Hp) as (r & E & Hq' & Hinfo).
  exists r, (without p q). split; [done |]. simpl. split.
  - constructor; simpl; try (by apply Hi); [done | | | | | | |].
    + intros x n b f a. rewrite Hinfo. case_decide as Hx; [| apply (inv_running _ _ Hi)].
      subst. intros [= <- <- <- <-].
      apply (inv_running _ _ Hi x _ _ _ _ (info_Some _ _ _ Hp)).
    + intros x Hx. rewrite Hinfo. case_decide; [done |]. by apply (inv_cur _ _ Hi).
    + intros Hidle. by rewrite (inv_idle _ _ Hi Hidle).
    + intros x [->|Hx]%elem_of_cons.
      * rewrite Hinfo, decide_True by done. eauto.
      * destruct (inv_dying _ _ Hi x Hx) as (n & f & a & Hxi). rewrite Hinfo. case_decide; eauto.
    + intros x [?|Hx]%elem_of_cons; [done | by apply (inv_freeing _ _ Hi)].
    + apply NoDup_cons. split; [| apply (inv_once _ _ Hi)]. intros Hin.
      destruct (inv_dying _ _ Hi _ Hin) as (n & f & a & Hx).
      rewrite (info_Some _ _ _ Hp) in Hx. injection Hx as _ Hx _ _. congruence.
    + intros Hsl Hne. assert (q <> []) as Hqn by (by intros ->).
      destruct (inv_wake _ _ Hi Hsl Hqn); [left | right]; by right.
  - eapply spec_step_to; [apply (spec_destroying (abs s q) p (func d) (arg d)) | | done].
    + rewrite live_abs, (info_Some _ _ _ Hp). simpl. by rewrite Hd.
    + intros x. simpl. rewrite Hinfo. case_decide as Hx.
      * subst. by rewrite lookup_insert_eq.
      * rewrite lookup_insert_ne by done. exact (live_abs s q x).
Qed.

(** Every step keeps the invariant and is a step of the queue. *)
Lemma step_fine s q l s' :
  Inv s q -> step s l s' -> exists q', Inv s' q' /\ spec_step (abs s q) l (abs s' q').
Proof.
  intros Hi Hstep. pose proof (inv_lock _ _ Hi) as Hl.
  destruct Hstep as [s l s' E|s l1 c l2 l o s' Hc E|s p f a Hp Hn|s p d r x w Hs Hp E
    |s p d r Hs Hp Hd E|s|s Hm|s Hm|s Hm Ht|s Hm|s Hm|s Hm|s Hm|s Hm Hcomp].
  - pose proof (thread_step_fine s q Hi) as H. unfold thread_fine in H. by rewrite E in H.
  - exists q. pose proof (caller_step_fine s q _ _ _ Hi Hc) as H. unfold caller_fine in H.
    by rewrite E in H.
  - exists q. by apply create_fine.
  - destruct (trigger_fine s q p d Hi Hs Hp) as (r' & x' & w' & q' & E' & H).
    rewrite E in E'. injection E' as <- <- <-. by exists q'.
  - destruct (destroy_fine s q p d Hi Hs Hp Hd) as (r' & q' & E' & H).
    rewrite E in E'. injection E' as <-. by exists q'.
  - exists q. split; [done |]. by apply spec_other.
  - exists q. destruct (inv_down _ _ Hi Hm) as [Ht _]. rewrite Ht in Hl. simpl in Hl.
    split; [| by apply spec_other].
    constructor; simpl; try (by apply Hi). by rewrite Ht.
  - exists q. destruct (inv_down _ _ Hi Hm) as [Ht Hcomp].
    split; [| unfold abs; rewrite Ht; by apply spec_other].
    pose proof (inv_running _ _ Hi) as Hr. pose proof (inv_freeing _ _ Hi) as Hf.
    rewrite Ht in Hr. constructor; simpl; try (by apply Hi); try done.
    + by intros [?|[? _]].
    + by rewrite Hcomp.
  - exists q. split; [| by apply spec_other]. constructor; simpl; by apply Hi || done.
  - exists q. split; [| by apply spec_other]. constructor; simpl; by apply Hi || done.
  - exists q. split; [| by apply spec_other]. constructor; simpl; by apply Hi || done.
  - destruct (inv_wake_up s q (callers s) Hi) as [Hi' Ha]; [done | done |].
    exists q. split; [constructor; simpl; by apply Hi' || done |].
    change (abs (wake_up_process s <| module := R_notify |>) q)
      with (abs (wake_up_process s <| callers := callers s |>) q).
    rewrite Ha. by apply spec_other.
  - exists q. split; [| by apply spec_other]. constructor; simpl; by apply Hi || done.
  - exists q. split; [| by apply spec_other].
    constructor; simpl; try (by apply Hi); try done.
    intros _. split; [by apply (inv_completion _ _ Hi) | done].
Qed.

Lemma inv_initial : Inv initial [].
Proof.
  constructor; simpl; try done.
  - constructor; simpl; try done; constructor.
  - intros p Hp. by apply not_elem_of_nil in Hp.
  - constructor.
Qed.

Lemma run_fine s q t s' :
  Inv s q -> run s t s' -> exists q', Inv s' q' /\ spec_run (abs s q) t (abs s' q').
Proof.
  intros Hi Hr. revert q Hi. induction Hr as [s|s1 l s2 t s3 Hs Hr IH]; intros q Hi.
  - exists q. split; [done | constructor].
  - destruct (step_fine _ _ _ _ Hi Hs) as (q2 & Hi2 & Ha).
    destruct (IH q2 Hi2) as (q3 & Hi3 & Ht). exists q3. split; [done |].
    by econstructor.
Qed.

(** *** Progress: nobody's DPC is forgotten *)

(** what the thread called, in the order of the trace *)
Definition taken_of (l : label) : option ptr :=
  match l with Taken p => Some p | _ => None end.
(** steps of calls in progress and of the thread; no new call *)
Definition internal (l : label) : Prop :=
  match l with
  | Silent | Taken _ | Called _ _ _ | Returned _ | Freed _ => True
  | _ => False
  end.

(** the thread runs its loop *)
Definition working (t : tpc) : bool :=
  match t with T_none | T_start | T_exit | T_complete => false | _ => true end.

(** a run of internal steps from [s] that takes the DPCs [q] in this order and
    leaves the chain empty *)
Definition serves (s : state) (q : list ptr) : Prop :=
  exists t s', run s t s' /\ Forall internal t /\ omap taken_of t = q /\
    first (chain s') = NULL.
Definition served (s : state) : Prop :=
  forall q, Inv s q -> root_destroy s = 0 -> serves s q.

Lemma thread_step_kind s l s' :
  thread_step s = Done (l, s') -> internal l /\ root_destroy s' = root_destroy s.
Proof.
  unfold thread_step. intros E.
  repeat (case_match; simplify_eq/=; try done).
Qed.

(** an internal step takes the head of the queue or nothing *)
Lemma internal_queue a l a' :
  spec_step a l a' -> internal l -> waiting a = option_list (taken_of l) ++ waiting a'.
Proof. destruct 1; simpl; try done. by destruct l. Qed.

Lemma serves_step s l s' q :
  step s l s' -> internal l -> root_destroy s' = root_destroy s ->
  Inv s q -> root_destroy s = 0 ->
  (forall q', q = option_list (taken_of l) ++ q' -> Inv s' q' -> root_destroy s' = 0 ->
    serves s' q') ->
  serves s q.
Proof.
  intros Hs Hl Hr Hi Hd Hs'. destruct (step_fine _ _ _ _ Hi Hs) as (q' & Hi' & Ha).
  pose proof (internal_queue _ _ _ Ha Hl) as E. simpl in E.
  destruct (Hs' q' E Hi' ltac:(congruence)) as (t & s2 & Ht & Hf & Hq & He).
  exists (l :: t), s2. split; [by econstructor |]. split; [by constructor |]. split; [| done].
  rewrite E, <- Hq. simpl. by destruct (taken_of l).
Qed.

Lemma serves_thread s l s' q :
  thread_step s = Done (l, s') -> Inv s q -> root_destroy s = 0 ->
  (forall q', q = option_list (taken_of l) ++ q' -> Inv s' q' -> root_destroy s' = 0 ->
    serves s' q') ->
  serves s q.
Proof.
  intros E. destruct (thread_step_kind _ _ _ E). apply (serves_step s l s'); [| done | done].
  by apply step_thread.
Qed.

Lemma served_silent s s' : thread_step s = Done (Silent, s') -> served s' -> served s.
Proof.
  intros E Hs q Hi Hd. apply (serves_thread _ _ _ _ E Hi Hd). intros q' ->. apply Hs.
Qed.

Lemma serves_empty s : Inv s [] -> serves s [].
Proof.
  intros Hi. exists [], s. split; [constructor |]. split; [constructor |]. split; [done |].
  apply (q_chain _ _ (inv_queued _ _ Hi)).
Qed.

(** the inner loop, one turn for each DPC of the chain *)
Lemma serves_return s p q :
  thread s = T_return p -> Inv s q -> root_destroy s = 0 ->
  (forall s', thread s' = T_next -> Inv s' q -> root_destroy s' = 0 -> serves s' q) ->
  serves s q.
Proof.
  intros Ht Hi Hd Hn. pose proof (inv_lock _ _ Hi) as Hl. rewrite Ht in Hl. simpl in Hl.
  pose proof (thread_step_fine s q Hi) as H. unfold thread_fine in H.
  destruct (thread_step s) as [[l s'] | |] eqn:E; [| naive_solver congruence | done].
  apply (serves_thread _ _ _ _ E Hi Hd).
  unfold thread_step in E. rewrite Ht, Hl in E. case_match; simplify_eq/=.
  intros q' -> Hi' Hd'. by apply Hn.
Qed.

Lemma serves_call s p q :
  thread s = T_call p -> Inv s q -> root_destroy s = 0 ->
  (forall s', thread s' = T_next -> Inv s' q -> root_destroy s' = 0 -> serves s' q) ->
  serves s q.
Proof.
  intros Ht Hi Hd Hn. pose proof (thread_step_fine s q Hi) as H. unfold thread_fine in H.
  pose proof (inv_lock _ _ Hi) as Hl. rewrite Ht in Hl. simpl in Hl.
  destruct (thread_step s) as [[l s'] | |] eqn:E; [| naive_solver congruence | done].
  apply (serves_thread _ _ _ _ E Hi Hd).
  unfold thread_step in E. rewrite Ht in E. case_match; simplify_eq/=.
  intros q' -> Hi' Hd'. by apply (serves_return _ p).
Qed.

Lemma served_next s : thread s = T_next -> served s.
Proof.
  intros Ht q. revert s Ht. induction q as [|p q IH]; intros s Ht Hi Hd.
  - by apply serves_empty.
  - pose proof (thread_step_fine _ _ Hi) as H. unfold thread_fine in H.
    destruct (q_chain _ _ (inv_queued _ _ Hi)) as (Ef & Hp & _).
    destruct (thread_step s) as [[l s'] | |] eqn:E; [| | done].
    + apply (serves_thread _ _ _ _ E Hi Hd).
      unfold thread_step, link_out in E. rewrite Ht, Ef in E.
      destruct (Z.eqb_spec p NULL); [done |].
      destruct (dpcs (chain s) !! p); simpl in E; [| done].
      destruct (store p _ _) as [r|]; simpl in E; [| done].
      injection E as <- <-. intros q' [= <-] Hi' Hd'.
      apply (serves_call _ p); [done | done | done |]. intros s'. by apply IH.
    + unfold thread_step in E. rewrite Ht in E. by repeat case_match.
Qed.

(** what the thread does before it looks at the chain *)
Lemma served_lock s : thread s = T_lock -> served s.
Proof.
  intros Ht q Hi. pose proof (inv_lock _ _ Hi) as Hl. rewrite Ht in Hl. revert q Hi.
  eapply served_silent; [unfold thread_step; by rewrite Ht, Hl | by apply served_next].
Qed.

Lemma served_while s : thread s = T_while -> served s.
Proof.
  intros Ht q Hi Hd. revert q Hi Hd.
  assert (root_destroy s = 0 -> served s) as H; [| intros q Hi Hd; by apply H].
  intros Hd. eapply served_silent; [unfold thread_step; rewrite Ht, Hd; done |].
  eapply served_silent; [done |]. by apply served_lock.
Qed.

Lemma served_awake s : thread s = T_awake -> served s.
Proof.
  intros Ht. eapply served_silent; [unfold thread_step; by rewrite Ht |]. by apply served_while.
Qed.

(** a sleeping thread with work to do is woken by a call in progress *)
Lemma serves_woken s q :
  Inv s q -> root_destroy s = 0 -> sleeping s -> C_wake ∈ callers s -> serves s q.
Proof.
  intros Hi Hd Hs Hc. apply list_elem_of_split in Hc as (l1 & l2 & Hc).
  eapply serves_step; [eapply step_caller; [done | done] | done | done | done | done |].
  intros q' -> Hi' Hd'. destruct Hs as [Ht|[Ht _]].
  - apply served_awake; [simpl; by rewrite Ht | done | done].
  - revert Hi' Hd'. eapply served_silent; [unfold thread_step; simpl; by rewrite Ht |].
    by apply served_awake.
Qed.

Lemma serves_sleeping s q : Inv s q -> root_destroy s = 0 -> sleeping s -> serves s q.
Proof.
  intros Hi Hd Hs. destruct (decide (q = [])) as [->|Hq]; [by apply serves_empty |].
  destruct (inv_wake _ _ Hi Hs Hq) as [Hc|Hc]; [| by apply serves_woken].
  apply list_elem_of_split in Hc as (l1 & l2 & Hc).
  eapply serves_step; [eapply step_caller; [done | done] | done | done | done | done |].
  intros q' -> Hi' Hd'. apply serves_woken; [done | done | done |]. simpl. set_solver.
Qed.

Lemma working_served s q :
  Inv s q -> working (thread s) = true -> root_destroy s = 0 -> serves s q.
Proof.
  intros Hi Hw Hd. destruct (thread s) eqn:Ht; try done.
  - by apply served_while.
  - revert Hi Hd. eapply served_silent; [unfold thread_step; by rewrite Ht |]. by apply served_lock.
  - by apply served_lock.
  - by apply served_next.
  - apply (serves_call _ p); [done | done | done |]. intros s' Ht'. by apply served_next.
  - apply (serves_return _ p); [done | done | done |]. intros s' Ht'. by apply served_next.
  - assert (q = []) as -> by (apply (inv_idle _ _ Hi); by rewrite Ht). by apply serves_empty.
  - assert (q = []) as -> by (apply (inv_idle _ _ Hi); by rewrite Ht). by apply serves_empty.
  - assert (q = []) as -> by (apply (inv_idle _ _ Hi); by rewrite Ht). by apply serves_empty.
  - destruct (tsk s) eqn:E.
    + revert Hi Hd. eapply served_silent; [unfold thread_step; by rewrite Ht, E |].
      by apply served_awake.
    + apply serves_sleeping; [done | done |]. by right.
  - apply serves_sleeping; [done | done |]. by left.
  - by apply served_awake.
Qed.

(** *** Detaching can wait for ever *)

(** the thread sleeps, the module waits for it to end, and no call in progress
    will wake the thread *)
Record hung (s : state) : Prop := {
  hung_asleep : thread s = T_asleep;
  hung_module : module s = R_notify \/ module s = R_join;
  hung_completion : dpcThreadCompletion s = false;
  hung_callers : ~ waking (callers s)
}.

Definition is_trigger (l : label) : bool :=
  match l with Triggered _ _ => true | _ => false end.

Lemma hung_step s l s' :
  hung s -> step s l s' -> is_trigger l = false -> hung s' /\ l <> Detached.
Proof.
  intros [Ht Hm Hd Hc] Hstep. destruct Hstep as [s l s' E|s l1 c l2 l o s' El E|s p f a Hp Hn
    |s p d r x w Hs Hp E|s p d r Hs Hp Hde E|s|s Hx|s Hx|s Hx Hy|s Hx|s Hx|s Hx|s Hx|s Hx Hy];
    simpl; intros Hl; try (destruct Hm; congruence); try done.
  - unfold thread_step in E. by rewrite Ht in E.
  - rewrite El, waking_mid in Hc.
    destruct c as [| |p|p]; [naive_solver | naive_solver | |]; simpl in E.
    + repeat case_match; simplify_eq/=; (split; [| done]); constructor; simpl; try done;
        rewrite waking_mid; naive_solver.
    + case_match; simplify_eq/=. split; [| done]. constructor; simpl; try done.
      change (option_list None ++ l2) with l2. naive_solver.
  - split; [| done]. constructor; simpl; try done. unfold waking in *.
    rewrite !elem_of_cons. naive_solver.
  - split; [| done]. constructor; simpl; try done. by right.
Qed.

Lemma hung_run s t s' :
  hung s -> run s t s' -> Forall (fun l => is_trigger l = false) t -> hung s' /\ Detached ∉ t.
Proof.
  intros Hh Hr. induction Hr as [|s1 l s2 t s3 Hs Hr IH]; intros Ht.
  - split; [done |]. apply not_elem_of_nil.
  - apply Forall_cons in Ht as [Hl Ht]. destruct (hung_step _ _ _ Hh Hs Hl) as [H2 Hn].
    destruct (IH H2 Ht) as [H3 Hn']. split; [done |]. apply not_elem_of_cons. done.
Qed.

(** the flag is set and the thread woken while the thread is between reading
    the flag and falling asleep *)
Lemma hung_reachable : exists t s, run initial t s /\ hung s.
Proof.
  do 2 eexists. split.
  - eapply run_step; [by apply step_kthread_run |].
    eapply run_step; [apply step_thread; vm_compute; reflexivity |].        (* T_start *)
    eapply run_step; [by apply step_started |].
    eapply run_step; [apply step_thread; vm_compute; reflexivity |].        (* T_while: the flag is 0 *)
    eapply run_step; [by apply step_root_destroy |].  (* the flag is set *)
    eapply run_step; [by apply step_root_wake |].     (* the thread is not asleep *)
    do 7 (eapply run_step; [apply step_thread; vm_compute; reflexivity |]).
    apply run_nil.
  - constructor; simpl; [done | by left | done |]. by intros [H|H]; apply not_elem_of_nil in H.
Qed.

(** ** What the DPCs do *)

Definition no_spec : spec := Mk_spec [] ∅ None.

(** C13: the system of osif.c, in every interleaving of its thread, its callers and
    attaching, is a queue without repetition: triggering appends a DPC unless it
    waits already, and is refused while it is being destroyed; the thread takes
    the DPCs in this order and calls the function each was created with;
    destroying takes a DPC off the queue, and its memory is given back only when
    its function does not run.  No step reaches a DPC that does not exist. *)
Theorem dpc_is_a_queue t s :
  run initial t s ->
  exists q, queued (chain s) q /\ spec_run no_spec t (abs s q) /\
    thread_step s <> Bad /\
    (forall l1 c l2, callers s = l1 ++ c :: l2 -> caller_step c s <> Bad) /\
    (forall p d, spinlock s = false -> dpcs (chain s) !! p = Some d ->
       is_Some (osif_dpc_trigger p (chain s)) /\ is_Some (osif_dpc_destroy p (chain s))).
Proof.
  intros Hr. destruct (run_fine _ _ _ _ inv_initial Hr) as (q & Hi & Ha).
  exists q. split; [apply Hi |]. split; [done |]. split; [| split].
  - pose proof (thread_step_fine s q Hi) as H. unfold thread_fine in H.
    by destruct (thread_step s).
  - intros l1 c l2 Hc. pose proof (caller_step_fine s q l1 c l2 Hi Hc) as H.
    unfold caller_fine in H. by destruct (caller_step c s) as [[[? ?] ?]| |].
  - intros p d Hs Hp. destruct (trigger_fine s q p d Hi Hs Hp) as (r & x & w & q' & E & _).
    destruct (destroy_spec _ _ _ _ (inv_queued _ _ Hi) Hp) as (r' & E' & _).
    rewrite E, E'. done.
Qed.

(** C14: a DPC that waits is never forgotten: whenever the thread runs its loop and
    nobody detaches, be it asleep or just about to fall asleep, the calls in
    progress and the thread alone take exactly the DPCs that wait, in order. *)
Theorem dpc_waiting_is_served t s :
  run initial t s -> working (thread s) = true -> root_destroy s = 0 ->
  exists q, queued (chain s) q /\ serves s q.
Proof.
  intros Hr Hw Hd. destruct (run_fine _ _ _ _ inv_initial Hr) as (q & Hi & _).
  exists q. split; [apply Hi |]. by apply working_served.
Qed.

(** osif_dpc_root_destroy sets its flag and wakes the thread; a thread that has
    read the flag before and falls asleep after never sees it.  Then, unless
    somebody triggers a DPC, the module is never detached. *)
Theorem dpc_detach_can_hang :
  exists t s, run initial t s /\ hung s /\
    forall t' s', run s t' s' -> Forall (fun l => is_trigger l = false) t' ->
      hung s' /\ Detached ∉ t'.
Proof.
  destruct hung_reachable as (t & s & Hr & Hh). exists t, s. split; [done |].
  split; [done |]. intros t' s' Hr'. by apply (hung_run s).
Qed.

End System.

(** ** Witnesses *)
Module Witness.
Import Chain System.

(** attached, a DPC created and triggered, the thread asleep: the caller that
    linked it is about to wake the thread *)
Definition trace : list label :=
  [Silent; Silent; Attach 0] ++ replicate 8 Silent ++ [Created 64 7 9; Triggered 64 0].

Lemma trace_runs : exists s, run initial trace s /\
  thread s = T_asleep /\ root_destroy s = 0 /\ callers s = [C_inc] /\ first (chain s) = 64.
Proof.
  eexists. split; [| split_and!].
  - eapply run_step; [by apply step_kthread_run |].
    eapply run_step; [apply step_thread; vm_compute; reflexivity |].
    eapply run_step; [by apply step_started |].
    do 8 (eapply run_step; [apply step_thread; vm_compute; reflexivity |]).
    eapply run_step; [apply (step_create _ 64 7 9); done |].
    eapply run_step; [eapply (step_trigger _ 64); [done | done | vm_compute; reflexivity] |].
    apply run_nil.
  - done.
  - done.
  - done.
  - done.
Defined.

Lemma dpc_is_a_queue_witness :
  exists s q, first (chain s) = 64 /\ queued (chain s) q /\ spec_run no_spec trace (abs s q).
Proof.
  destruct trace_runs as (s & Hr & _ & _ & _ & Hf).
  destruct (dpc_is_a_queue _ _ Hr) as (q & Hq & Ha & _). by exists s, q.
Defined.

Lemma dpc_waiting_is_served_witness :
  exists s q, thread s = T_asleep /\ head q = Some 64 /\ serves s q.
Proof.
  destruct trace_runs as (s & Hr & Ht & Hd & _ & Hf).
  destruct (dpc_waiting_is_served _ _ Hr) as (q & Hq & Hs); [by rewrite Ht | done |].
  exists s, q. split; [done |]. split; [| done].
  pose proof (q_chain _ _ Hq) as Hc. rewrite Hf in Hc.
  destruct q as [|p q]; [done |]. by destruct Hc as (<- & _).
Defined.

End Witness.
