(* ===== verification/OsifText.v ===== *)
(** * Formatted text of the esd driver (src/esd/src/osif.c)

    [number], [skip_atoi] and [osif_vsnprintf], which the driver provides for
    kernels without vsnprintf.  The functions write one character at a time, each
    only when it is inside the buffer, and count all of them; a conversion %n
    stores the count where its argument points.  What is written to is an
    interface, [Sink]: the memory with the buffer of the code is one instance, the
    whole text with the counts asked for another, and the code, stated once for
    every sink, runs over both; that is how the theorems speak of the whole text. *)
From Stdlib Require Import Ascii.
From stdpp Require Import gmap strings.
From S2P Require Import Prelude.

(** ** What is written to *)

(** [put c t]: write [c] at the current position and go on; [put_count p size t]:
    store the number of characters put so far in the [size] bytes at [p] *)
Class Sink (T : Type) := { put : Z -> T -> T; put_count : Z -> Z -> T -> T }.

(** a buffer in memory: its address, its last byte, the current position *)
Record buffer := Buffer { b_buf : Z; b_end : Z; b_str : Z; b_mem : gmap Z Z }.
#[export] Instance buffer_eta : Eta buffer := fun r =>
  Buffer (b_buf r) (b_end r) (b_str r) (b_mem r).

(** if (str <= end) *str = c; ++str; *)
Definition buffer_put (c : Z) (b : buffer) : buffer :=
  let b := if b_str b <=? b_end b then b <| b_mem ::= <[b_str b := u8 c]> |> else b in
  b <| b_str := u64 (b_str b + 1) |>.
(** the bytes of an integer, the lowest first *)
Definition store_int (p size v : Z) (m : gmap Z Z) : gmap Z Z :=
  foldl (fun m i => <[p + i := byte_of v i]> m) m (seqZ 0 size).
(** *ip = (str - buf); *)
Definition buffer_count (p size : Z) (b : buffer) : buffer :=
  b <| b_mem ::= store_int p size (b_str b - b_buf b) |>.
#[export] Instance buffer_sink : Sink buffer := { put := buffer_put; put_count := buffer_count }.

(** all characters, in order, and the counts with where they are stored *)
Record text := Text { chars : list Z; counts : list (Z * Z * Z) }.
#[export] Instance text_sink : Sink text := {
  put c t := Text (chars t ++ [u8 c]) (counts t);
  put_count p size t := Text (chars t) (counts t ++ [(p, size, Z.of_nat (length (chars t)))])
}.
(** the characters alone *)
#[export] Instance chars_sink : Sink (list Z) := { put c t := t ++ [u8 c]; put_count _ _ t := t }.

(** ** Characters *)

Definition code (c : Ascii.ascii) : Z := Z.of_N (Ascii.N_of_ascii c).
Arguments code c%_char.
Definition codes (s : string) : list Z := code <$> String.list_ascii_of_string s.
Definition isdigit (c : Z) : bool := (code "0" <=? c) && (c <=? code "9").

(** ** Errors: an argument that is not of the type asked for, an index outside
    [tmp] or the digits, a base out of range, no more fuel *)
Inductive stuck := WrongArg | BeyondArray | WrongBase | NoFuel.
Definition run (A : Type) : Type := stuck + A.
#[export] Instance run_ret : MRet run := fun A a => inr a.
#[export] Instance run_bind : MBind run := fun A B f m =>
  match m with inl e => inl e | inr a => f a end.

(** ** Numbers *)

Definition ZEROPAD : Z := 1.
Definition SIGN : Z := 2.
Definition PLUS : Z := 4.
Definition SPACE : Z := 8.
Definition LEFT : Z := 16.
Definition SPECIAL : Z := 32.
Definition LARGE : Z := 64.

Definition small_digits : list Z := codes "0123456789abcdefghijklmnopqrstuvwxyz".
Definition large_digits : list Z := codes "0123456789ABCDEFGHIJKLMNOPQRSTUVWXYZ".

(** skip_atoi: the value, and the rest of the text *)
Fixpoint skip_atoi (s : list Z) (i : Z) : Z * list Z :=
  match s with
  | c :: s' => if isdigit c then skip_atoi s' (s32 (s32 (i * 10 + c) - code "0")) else (i, s)
  | [] => (i, s)
  end.

(** while (num != 0) tmp[i++] = digits[do_div(num, base)]; where do_div divides
    the 64 bits as unsigned; [tmp] has 66 places *)
Fixpoint digit_loop (fuel : nat) (digits : list Z) (base num : Z) (tmp : list Z) : run (list Z) :=
  if num =? 0 then mret tmp
  else
    match fuel with
    | O => inl NoFuel
    | S n =>
        match zlookup digits (num mod base) with
        | Some d =>
            if Z.of_nat (length tmp) <? 66
            then digit_loop n digits base (num / base) (tmp ++ [d])
            else inl BeyondArray
        | None => inl BeyondArray
        end
    end.

Section code.
Context {T : Type} `{Sink T}.

(** n times [put c] *)
Definition pad (c : Z) (n : Z) (t : T) : T := Nat.iter (Z.to_nat n) (put c) t.
(** the counter after while (n-- > 0) *)
Definition after_pad (n : Z) : Z := if 0 <? n then -1 else s32 (n - 1).
(** for each character of a text *)
Definition puts (l : list Z) (t : T) : T := foldl (fun t c => put c t) t l.

Definition number (buf : T) (num base size precision type : Z) : run T :=
  let digits := if tst type LARGE then large_digits else small_digits in
  let type := if tst type LEFT then Z.land type (Z.lnot ZEROPAD) else type in
  if (base <? 2) || (36 <? base) then inl WrongBase
  else
  let c := if tst type ZEROPAD then code "0" else code " " in
  let '(sign, num, size) :=
    if tst type SIGN then
      if num <? 0 then (code "-", s64 (- num), s32 (size - 1))
      else if tst type PLUS then (code "+", num, s32 (size - 1))
      else if tst type SPACE then (code " ", num, s32 (size - 1))
      else (0, num, size)
    else (0, num, size) in
  let size :=
    if tst type SPECIAL then
      if base =? 16 then s32 (size - 2) else if base =? 8 then s32 (size - 1) else size
    else size in
  tmp ← (if num =? 0 then mret [code "0"] else digit_loop 66 digits base (u64 num) []);
  let i := Z.of_nat (length tmp) in
  let precision := if precision <? i then i else precision in
  let size := s32 (size - precision) in
  let '(buf, size) :=
    if tst type (ZEROPAD + LEFT) then (buf, size)
    else (pad (code " ") size buf, after_pad size) in
  let buf := if sign =? 0 then buf else put sign buf in
  buf ← (if tst type SPECIAL then
           if base =? 8 then mret (put (code "0") buf)
           else if base =? 16 then
             match zlookup digits 33 with
             | Some x => mret (put x (put (code "0") buf))
             | None => inl BeyondArray
             end
           else mret buf
         else mret buf);
  let '(buf, size) :=
    if tst type LEFT then (buf, size) else (pad c size buf, after_pad size) in
  let buf := pad (code "0") (precision - i) buf in
  let buf := puts (rev tmp) buf in
  mret (pad (code " ") size buf).
End code.

(** ** Formats *)

(** an argument: an integer (or a character), a text or NULL, a pointer *)
Inductive arg := AInt (z : Z) | AStr (s : option (list Z)) | APtr (p : Z).

(** va_arg of an integer type, of [const CHAR8 *], of a pointer *)
Definition va_int (conv : Z -> Z) (args : list arg) : run (Z * list arg) :=
  match args with AInt z :: r => mret (conv z, r) | _ => inl WrongArg end.
Definition va_str (args : list arg) : run (option (list Z) * list arg) :=
  match args with AStr s :: r => mret (s, r) | _ => inl WrongArg end.
Definition va_ptr (args : list arg) : run (Z * list arg) :=
  match args with APtr p :: r => mret (p, r) | _ => inl WrongArg end.

(** conversion to [INT16] *)
Definition s16 (z : Z) : Z := (z + 2 ^ 15) mod 2 ^ 16 - 2 ^ 15.

(** the loop "repeat" *)
Fixpoint get_flags (fmt : list Z) (flags : Z) : list Z * Z :=
  match fmt with
  | c :: fmt' =>
      if c =? code "-" then get_flags fmt' (Z.lor flags LEFT)
      else if c =? code "+" then get_flags fmt' (Z.lor flags PLUS)
      else if c =? code " " then get_flags fmt' (Z.lor flags SPACE)
      else if c =? code "#" then get_flags fmt' (Z.lor flags SPECIAL)
      else if c =? code "0" then get_flags fmt' (Z.lor flags ZEROPAD)
      else (fmt, flags)
  | [] => (fmt, flags)
  end.

(** "get field width": the rest of the format, the width, the flags *)
Definition get_width (fmt : list Z) (flags : Z) (args : list arg) : run (list Z * Z * Z * list arg) :=
  match fmt with
  | c :: fmt' =>
      if isdigit c then
        let '(field_width, rest) := skip_atoi fmt 0 in mret (rest, field_width, flags, args)
      else if c =? code "*" then
        '(field_width, args) ← va_int s32 args;
        if field_width <? 0 then mret (fmt', s32 (- field_width), Z.lor flags LEFT, args)
        else mret (fmt', field_width, flags, args)
      else mret (fmt, -1, flags, args)
  | [] => mret (fmt, -1, flags, args)
  end.

(** "get the precision" *)
Definition get_precision (fmt : list Z) (args : list arg) : run (list Z * Z * list arg) :=
  match fmt with
  | dot :: fmt =>
      if dot =? code "." then
        '(rest, precision, args) ←
          (match fmt with
           | c :: fmt' =>
               if isdigit c then
                 let '(precision, rest) := skip_atoi fmt 0 in mret (rest, precision, args)
               else if c =? code "*" then
                 '(precision, args) ← va_int s32 args; mret (fmt', precision, args)
               else mret (fmt, -1, args)
           | [] => mret (fmt, -1, args)
           end);
        mret (rest, if precision <? 0 then 0 else precision, args)
      else mret (dot :: fmt, -1, args)
  | [] => mret (fmt, -1, args)
  end.

(** "get the conversion qualifier" *)
Definition get_qualifier (fmt : list Z) : list Z * Z :=
  match fmt with
  | q :: fmt' =>
      if (q =? code "h") || (q =? code "l") || (q =? code "L") || (q =? code "Z") then
        match fmt' with
        | c :: fmt'' =>
            if (q =? code "l") && (c =? code "l") then (fmt'', code "L") else (fmt', q)
        | [] => (fmt', q)
        end
      else (fmt, -1)
  | [] => (fmt, -1)
  end.

(** the integer argument of a conversion *)
Definition get_num (qualifier flags : Z) (args : list arg) : run (Z * list arg) :=
  let signed := tst flags SIGN in
  if qualifier =? code "L" then va_int u64 args
  else if qualifier =? code "Z" then va_int u64 args
  else if qualifier =? code "h" then
    va_int (fun z => if signed then u64 (s16 (u16 z)) else u16 z) args
  else va_int (fun z => if signed then u64 (s32 (u32 z)) else u32 z) args.

Section format.
Context {T : Type} `{Sink T}.

(** 'c': the character, padded to the field width *)
Definition put_char (c field_width flags : Z) (str : T) : T :=
  let '(str, field_width) :=
    if tst flags LEFT then (str, field_width)
    else (pad (code " ") (field_width - 1) str, Z.min 0 (field_width - 1)) in
  let str := put c str in
  pad (code " ") (field_width - 1) str.

Definition strnlen (s : list Z) (maxlen : Z) : Z := Z.min (Z.of_nat (length s)) maxlen.

(** 's': the text up to the precision, padded *)
Definition put_text (s : option (list Z)) (field_width precision flags : Z) (str : T) : T :=
  let s := match s with Some s => s | None => codes "<NULL>" end in
  let len := strnlen s (u64 precision) in
  let '(str, field_width) :=
    if tst flags LEFT then (str, field_width)
    else (pad (code " ") (field_width - len) str, Z.min field_width len - 1) in
  let str := puts (take (Z.to_nat len) s) str in
  pad (code " ") (field_width - len) str.

(** one conversion, after its '%': the rest of the format *)
Definition conversion (fmt : list Z) (str : T) (args : list arg) : run (list Z * T * list arg) :=
  let '(fmt, flags) := get_flags fmt 0 in
  '(fmt, field_width, flags, args) ← get_width fmt flags args;
  '(fmt, precision, args) ← get_precision fmt args;
  let '(fmt, qualifier) := get_qualifier fmt in
  let integer rest base flags :=
    '(num, args) ← get_num qualifier flags args;
    str ← number str (s64 num) base field_width precision flags;
    mret (rest, str, args) in
  match fmt with
  | [] => mret ([], put (code "%") str, args)
  | k :: rest =>
      if k =? code "c" then
        '(c, args) ← va_int s32 args;
        mret (rest, put_char c field_width flags str, args)
      else if k =? code "s" then
        '(s, args) ← va_str args;
        mret (rest, put_text s field_width precision flags str, args)
      else if k =? code "p" then
        '(p, args) ← va_ptr args;
        let '(field_width, flags) :=
          if field_width =? -1 then (16, Z.lor flags ZEROPAD) else (field_width, flags) in
        str ← number str (s32 p) 16 field_width precision flags;
        mret (rest, str, args)
      else if k =? code "n" then
        '(p, args) ← va_ptr args;
        mret (rest, put_count p (if qualifier =? code "Z" then 8 else 4) str, args)
      else if k =? code "%" then mret (rest, put (code "%") str, args)
      else if k =? code "o" then integer rest 8 flags
      else if k =? code "X" then integer rest 16 (Z.lor flags LARGE)
      else if k =? code "x" then integer rest 16 flags
      else if (k =? code "d") || (k =? code "i") then integer rest 10 (Z.lor flags SIGN)
      else if k =? code "u" then integer rest 10 flags
      else mret (rest, put k (put (code "%") str), args)
  end.

(** for (; *fmt; ++fmt) *)
Fixpoint format (fuel : nat) (fmt : list Z) (str : T) (args : list arg) : run T :=
  match fmt with
  | [] => mret str
  | c :: fmt' =>
      match fuel with
      | O => inl NoFuel
      | S n =>
          if negb (c =? code "%") then format n fmt' (put c str) args
          else
            '(rest, str, args) ← conversion fmt' str args;
            format n rest str args
      end
  end.
End format.

(** osif_vsnprintf: memory and the result.  The format and the texts among the
    arguments are values, not memory the call could change.  A format has no
    zero; a conversion takes at least one character of it. *)
Definition osif_vsnprintf (mem : gmap Z Z) (buf size : Z) (fmt : list Z) (args : list arg)
  : run (gmap Z Z * Z) :=
  let end_ := u64 (buf + size - 1) in
  let '(end_, size) :=
    if end_ <? u64 (buf - 1) then (2 ^ 64 - 1, u64 (2 ^ 64 - 1 - buf + 1)) else (end_, size) in
  b ← format (length fmt) fmt (Buffer buf end_ buf mem) args;
  let str := b_str b in
  let mem := b_mem b in
  let mem :=
    if str <=? end_ then <[str := 0]> mem
    else if 0 <? size then <[end_ := 0]> mem
    else mem in
  mret (mem, s32 (str - buf)).

(** ** The same code over two sinks *)

(** two runs that end alike *)
Definition alike {A B} (P : A -> B -> Prop) (r1 : run A) (r2 : run B) : Prop :=
  match r1, r2 with
  | inl e1, inl e2 => e1 = e2
  | inr a, inr b => P a b
  | _, _ => False
  end.

Lemma alike_bind {A B A' B'} (P : A -> B -> Prop) (P' : A' -> B' -> Prop) m1 m2 f1 f2 :
  alike P m1 m2 -> (forall a b, P a b -> alike P' (f1 a) (f2 b)) ->
  alike P' (m1 ≫= f1) (m2 ≫= f2).
Proof. destruct m1, m2; simpl; try done. eauto. Qed.

Lemma alike_same {A A' B'} (P' : A' -> B' -> Prop) (m : run A) f1 f2 :
  (forall a, alike P' (f1 a) (f2 a)) -> alike P' (m ≫= f1) (m ≫= f2).
Proof. destruct m; simpl; [done | eauto]. Qed.

Section simulation.
Context {T1 T2 : Type} `{S1 : Sink T1} `{S2 : Sink T2}.
(** two positions that correspond *)
Context (R : T1 -> T2 -> Prop).
Context (R_put : forall c t1 t2, R t1 t2 -> R (put c t1) (put c t2)).

Lemma pad_alike c n t1 t2 : R t1 t2 -> R (pad c n t1) (pad c n t2).
Proof using R_put.
  intros Ht. unfold pad. induction (Z.to_nat n) as [|k IH]; simpl; [done |]. by apply R_put.
Qed.

Lemma puts_alike l t1 t2 : R t1 t2 -> R (puts l t1) (puts l t2).
Proof using R_put.
  revert t1 t2. induction l as [|c l IH]; intros t1 t2 Ht; [done |]. by apply IH, R_put.
Qed.

Lemma number_alike t1 t2 num base size precision type :
  R t1 t2 -> alike R (number t1 num base size precision type)
                     (number t2 num base size precision type).
Proof using R_put.
  intros Ht. unfold number. destruct ((base <? 2) || (36 <? base)); [done |].
  set (ty := if tst type LEFT then _ else type).
  set (digits := if tst type LARGE then _ else _).
  destruct (if tst ty SIGN then _ else _) as [[sign num'] size'].
  apply alike_same. intros tmp.
  set (prec := if precision <? Z.of_nat (length tmp) then _ else _).
  set (size2 := s32 _). clearbody size2 prec.
  assert (forall t1 t2, R t1 t2 -> R (if sign =? 0 then t1 else put sign t1)
                                      (if sign =? 0 then t2 else put sign t2)) as Hsign.
  { intros u1 u2 Hu. case_match; [done | by apply R_put]. }
  destruct (tst ty (ZEROPAD + LEFT));
    (eapply (alike_bind R); [repeat (case_match; simpl; try done); eauto using pad_alike |]);
    intros u1 u2 Hu; destruct (tst ty LEFT); simpl; eauto using pad_alike, puts_alike.
Qed.

Lemma put_char_alike t1 t2 c w fl :
  R t1 t2 -> R (put_char c w fl t1) (put_char c w fl t2).
Proof using R_put.
  intros Ht. unfold put_char. destruct (tst fl LEFT); simpl; eauto using pad_alike.
Qed.

Lemma put_text_alike t1 t2 s w p fl :
  R t1 t2 -> R (put_text s w p fl t1) (put_text s w p fl t2).
Proof using R_put.
  intros Ht. unfold put_text. destruct (tst fl LEFT); simpl; eauto using pad_alike, puts_alike.
Qed.
End simulation.

(** *** Formats over two sinks *)
Section format_simulation.
Context {T1 T2 : Type} `{S1 : Sink T1} `{S2 : Sink T2}.
Context (R : T1 -> T2 -> Prop).
Context (R_put : forall c t1 t2, R t1 t2 -> R (put c t1) (put c t2)).
Context (R_count : forall p size t1 t2, 0 <= size -> R t1 t2 -> R (put_count p size t1) (put_count p size t2)).

Definition same_rest (r1 : list Z * T1 * list arg) (r2 : list Z * T2 * list arg) : Prop :=
  r1.1.1 = r2.1.1 /\ R r1.1.2 r2.1.2 /\ r1.2 = r2.2.

Lemma number_same t1 t2 rest args num base size precision type :
  R t1 t2 ->
  alike same_rest
    (str ← number t1 num base size precision type; mret (rest, str, args))
    (str ← number t2 num base size precision type; mret (rest, str, args)).
Proof using R_put.
  intros Ht. eapply alike_bind; [by apply (number_alike R R_put) |]. by intros u1 u2 Hu.
Qed.

Lemma conversion_same fmt t1 t2 args :
  R t1 t2 -> alike same_rest (conversion fmt t1 args) (conversion fmt t2 args).
Proof using R_put R_count.
  intros Ht. unfold conversion. destruct (get_flags fmt 0) as [fmt1 flags].
  apply alike_same. intros [[[fmt2 width] flags'] args1].
  apply alike_same. intros [[fmt3 precision] args2].
  destruct (get_qualifier fmt3) as [[|k rest] qualifier].
  { split; [done |]. split; [| done]. by apply R_put. }
  destruct (k =? code "c").
  { apply alike_same. intros [c args3]. split; [done |]. split; [by apply (put_char_alike R) | done]. }
  destruct (k =? code "s").
  { apply alike_same. intros [x args3]. split; [done |]. split; [by apply (put_text_alike R) | done]. }
  destruct (k =? code "p").
  { apply alike_same. intros [p args3].
    destruct (if width =? -1 then _ else _) as [w fl]. by apply number_same. }
  destruct (k =? code "n").
  { apply alike_same. intros [p args3]. split; [done |]. split; [apply R_count; [by destruct (_ =? _) | done] | done]. }
  destruct (k =? code "%").
  { split; [done |]. split; [by apply R_put | done]. }
  repeat (match goal with |- context [if ?b then _ else _] => destruct b end;
          [apply alike_same; intros [num args3]; by apply number_same |]).
  split; [done |]. split; [by apply R_put, R_put | done].
Qed.

Lemma format_same fuel fmt t1 t2 args :
  R t1 t2 -> alike R (format fuel fmt t1 args) (format fuel fmt t2 args).
Proof using R_put R_count.
  revert fmt t1 t2 args. induction fuel as [|n IH]; intros [|c fmt] t1 t2 args Ht; try done.
  simpl. destruct (negb (c =? code "%")); [by apply IH, R_put |].
  eapply alike_bind; [by apply conversion_same |].
  intros [[r1 t1'] a1] [[r2 t2'] a2] (E1 & Ht' & E2). simpl in *. subst. by apply IH.
Qed.
End format_simulation.

(** ** Digits *)

(** the number with the digits [ds], least significant first *)
Fixpoint value (base : Z) (ds : list Z) : Z :=
  match ds with [] => 0 | d :: ds => d + base * value base ds end.

Definition digit_code (digits : list Z) (d : Z) : Z := default 0 (zlookup digits d).

Lemma digit_loop_ok k n digits base num tmp :
  2 <= base <= 36 -> length digits = 36%nat -> 0 <= num < base ^ Z.of_nat k ->
  (k <= n)%nat -> (length tmp + k <= 66)%nat ->
  exists ds, digit_loop n digits base num tmp = inr (tmp ++ map (digit_code digits) ds) /\
    value base ds = num /\ Forall (fun d => 0 <= d < base) ds /\ last ds <> Some 0 /\
    (length ds <= k)%nat.
Proof.
  intros Hb Hl. revert n num tmp. induction k as [|k IH]; intros n num tmp Hn Hk Ht.
  { assert (num = 0) as -> by (simpl in Hn; lia). exists []. rewrite app_nil_r.
    split; [by destruct n |]. split_and!; [done | constructor | done | simpl; lia]. }
  destruct (Z.eqb_spec num 0) as [->|Hn0].
  { exists []. rewrite app_nil_r. split; [by destruct n |]. split_and!; [done | constructor | done | simpl; lia]. }
  destruct n as [|n]; [lia |].
  pose proof (Z.mod_pos_bound num base ltac:(lia)) as Hm.
  destruct (zlookup_Some digits (num mod base)) as [d Hd]; [lia |].
  assert (0 <= num / base < base ^ Z.of_nat k) as Hq.
  { split; [apply Z.div_pos; lia |]. apply Z.div_lt_upper_bound; [lia |].
    rewrite Nat2Z.inj_succ, Z.pow_succ_r in Hn; lia. }
  destruct (IH n (num / base) (tmp ++ [d]) Hq ltac:(lia)) as (ds & E & Hv & Hf & Hlast & Hlen).
  { rewrite length_app. simpl. lia. }
  exists (num mod base :: ds). split; [| split_and!].
  - simpl. destruct (Z.eqb_spec num 0); [done |]. rewrite Hd.
    destruct (Z.ltb_spec (Z.of_nat (length tmp)) 66); [| lia]. rewrite E, <- app_assoc.
    unfold digit_code. by rewrite Hd.
  - simpl. rewrite Hv. pose proof (Z.div_mod num base). lia.
  - by constructor.
  - destruct ds as [|d' ds]; [| by simpl in *]. simpl. simpl in Hv. intros [= E0].
    assert (num = 0); [| done]. pose proof (Z.div_mod num base). lia.
  - simpl. lia.
Qed.

(** every conversion of [number] finds its digits *)
Lemma number_digits digits base num :
  2 <= base <= 36 -> length digits = 36%nat ->
  exists ds,
    (if num =? 0 then mret [code "0"] else digit_loop 66 digits base (u64 num) [])
      = inr (if num =? 0 then [code "0"] else map (digit_code digits) ds) /\
    (num <> 0 -> value base ds = u64 num /\ Forall (fun d => 0 <= d < base) ds /\
                 last ds <> Some 0 /\ (length ds <= 64)%nat).
Proof.
  intros Hb Hl. pose proof (Z.mod_pos_bound num (2 ^ 64) ltac:(lia)) as Hu.
  destruct (digit_loop_ok 64 66 digits base (u64 num) []) as (ds & E & H & Hf & Hlast & Hlen);
    [done | done | | lia | simpl; lia |].
  { split; [apply Hu |]. apply Z.lt_le_trans with (2 ^ 64); [apply Hu |].
    apply Z.pow_le_mono_l. lia. }
  exists ds. destruct (num =? 0); [done |]. by rewrite E.
Qed.

Lemma digits_length type :
  length (if tst type LARGE then large_digits else small_digits) = 36%nat.
Proof. by destruct (tst type LARGE). Qed.

(** *** [number] ends, on every input *)
Lemma number_ends {T} `{Sink T} (t : T) num base size precision type :
  2 <= base <= 36 -> exists t', number t num base size precision type = inr t'.
Proof.
  intros Hb. unfold number.
  destruct ((base <? 2) || (36 <? base)) eqn:E; [lia |].
  set (ty := if tst type LEFT then _ else type).
  destruct (if tst ty SIGN then _ else _) as [[sign num'] size'].
  destruct (number_digits (if tst type LARGE then large_digits else small_digits) base num' Hb)
    as (ds & -> & _); [apply digits_length |].
  destruct (zlookup_Some (if tst type LARGE then large_digits else small_digits) 33) as [x Hx];
    [rewrite digits_length; lia |].
  rewrite Hx. simpl. repeat (case_match; simpl; try done); eauto.
Qed.

(** a run that ends, or asks for an argument that is not there *)
Definition ends {A} (r : run A) : Prop :=
  match r with inr _ | inl WrongArg => True | _ => False end.

Lemma run_ends_bind {A B} (m : run A) (f : A -> run B) :
  ends m -> (forall a, m = inr a -> ends (f a)) -> ends (m ≫= f).
Proof. destruct m as [[]|]; simpl; eauto. Qed.

Lemma va_int_ends conv args : ends (va_int conv args).
Proof. by destruct args as [|[] ?]. Qed.
Lemma va_ptr_ends args : ends (va_ptr args).
Proof. by destruct args as [|[] ?]. Qed.
Lemma va_str_ends args : ends (va_str args).
Proof. by destruct args as [|[] ?]. Qed.

Lemma get_num_ends q fl args : ends (get_num q fl args).
Proof. unfold get_num. repeat case_match; apply va_int_ends. Qed.

(** *** [osif_vsnprintf] ends: each conversion takes characters of the format *)

Lemma get_flags_length fmt fl : (length (get_flags fmt fl).1 <= length fmt)%nat.
Proof.
  revert fl. induction fmt as [|c fmt IH]; intros fl; simpl; [done |].
  repeat (case_match; [etrans; [apply IH | lia] |]). done.
Qed.

Lemma skip_atoi_length s i : (length (skip_atoi s i).2 <= length s)%nat.
Proof.
  revert i. induction s as [|c s IH]; intros i; simpl; [done |].
  case_match; [etrans; [apply IH | lia] | done].
Qed.

(** what is left of the format *)
Definition shorter {A} (rest : A -> list Z) (n : nat) (r : run A) : Prop :=
  ends r /\ forall a, r = inr a -> (length (rest a) <= n)%nat.

Lemma shorter_bind {A B} (rest' : B -> list Z) n (m : run A) (f : A -> run B) :
  ends m -> (forall a, m = inr a -> shorter rest' n (f a)) -> shorter rest' n (m ≫= f).
Proof.
  intros Hm Hf. split; [apply run_ends_bind; [done |]; intros a Ha; by apply Hf |].
  intros b. destruct m as [|a]; [done |]. by apply Hf.
Qed.

Lemma get_width_shorter fmt fl args :
  shorter (fun a => a.1.1.1) (length fmt) (get_width fmt fl args).
Proof.
  unfold get_width. destruct fmt as [|c fmt]; [split; [done |]; by intros a [= <-] |].
  destruct (isdigit c).
  - pose proof (skip_atoi_length (c :: fmt) 0) as Hs.
    destruct (skip_atoi (c :: fmt) 0). split; [done |]. by intros a [= <-].
  - destruct (c =? code "*"); [| split; [done |]; by intros a [= <-]].
    apply shorter_bind; [apply va_int_ends |]. intros [w r] _.
    destruct (w <? 0); (split; [done |]); intros a [= <-]; simpl; lia.
Qed.

Lemma get_precision_shorter fmt args :
  shorter (fun a => a.1.1) (length fmt) (get_precision fmt args).
Proof.
  unfold get_precision. destruct fmt as [|dot fmt]; [split; [done |]; by intros a [= <-] |].
  destruct (dot =? code "."); [| split; [done |]; by intros a [= <-]].
  destruct fmt as [|c fmt]; [split; [done |]; intros a [= <-]; simpl; lia |].
  destruct (isdigit c).
  - pose proof (skip_atoi_length (c :: fmt) 0) as Hs.
    destruct (skip_atoi (c :: fmt) 0). split; [done |]. intros a [= <-]. simpl in *. lia.
  - destruct (c =? code "*"); [| split; [done |]; intros a [= <-]; simpl; lia].
    destruct (va_int s32 args) as [e|[p r]] eqn:E; simpl.
    + split; [| done]. pose proof (va_int_ends s32 args) as He. by rewrite E in He.
    + split; [done |]. intros a [= <-]. simpl. lia.
Qed.

Lemma get_qualifier_length fmt : (length (get_qualifier fmt).1 <= length fmt)%nat.
Proof.
  unfold get_qualifier. destruct fmt as [|q [|c fmt]]; simpl; repeat case_match; simpl; lia.
Qed.

Section totality.
Context {T : Type} `{Sink T}.

Lemma number_shorter (t : T) rest args num base size precision type n :
  2 <= base <= 36 -> (length rest <= n)%nat ->
  shorter (fun a : list Z * T * list arg => a.1.1) n
    (str ← number t num base size precision type; mret (rest, str, args)).
Proof.
  intros Hb Hn. destruct (number_ends t num base size precision type Hb) as [t' ->].
  simpl. split; [done |]. by intros a [= <-].
Qed.

Lemma conversion_shorter fmt (t : T) args :
  shorter (fun a => a.1.1) (length fmt) (conversion fmt t args).
Proof.
  unfold conversion. pose proof (get_flags_length fmt 0) as Hfl.
  destruct (get_flags fmt 0) as [fmt1 flags]. simpl in Hfl.
  destruct (get_width_shorter fmt1 flags args) as [He Hw].
  apply shorter_bind; [done |]. intros [[[fmt2 width] flags'] args1] Ew.
  specialize (Hw _ Ew). simpl in Hw.
  destruct (get_precision_shorter fmt2 args1) as [He' Hp].
  apply shorter_bind; [done |]. intros [[fmt3 precision] args2] Ep.
  specialize (Hp _ Ep). simpl in Hp.
  pose proof (get_qualifier_length fmt3) as Hq.
  destruct (get_qualifier fmt3) as [[|k rest] qualifier]; simpl in Hq.
  { split; [done |]. intros a [= <-]. simpl. lia. }
  assert (length rest <= length fmt)%nat as Hr by lia.
  assert (forall t' args', shorter (fun a : list Z * T * list arg => a.1.1) (length fmt)
    (mret (rest, t', args'))) as Hret by (intros; split; [done |]; by intros a [= <-]).
  repeat match goal with
  | |- context [if ?b then _ else _] => destruct b
  end; try apply Hret;
  try (apply shorter_bind; [apply va_int_ends || apply va_str_ends || apply va_ptr_ends || apply get_num_ends |];
       intros [x args3] _; cbn beta iota; repeat case_match; first [apply Hret | apply number_shorter; [lia | done]]).
Qed.

Lemma format_ends n fmt (t : T) args : (length fmt <= n)%nat -> ends (format n fmt t args).
Proof.
  revert fmt t args. induction n as [|n IH]; intros [|c fmt] t args Hn; simpl in *; try done; [lia |].
  destruct (negb (c =? code "%")); [apply IH; lia |].
  destruct (conversion_shorter fmt t args) as [He Hs].
  apply run_ends_bind; [done |]. intros [[rest t'] args'] E. specialize (Hs _ E). simpl in Hs.
  apply IH. lia.
Qed.
End totality.

(** ** The buffer *)

(** the range tests of a goal, as comparisons *)
Ltac case_range :=
  repeat match goal with
  | |- context [if ?b then _ else _] => let E := fresh "E" in destruct b eqn:E
  | E : (_ && _) = true |- _ => apply andb_true_iff in E as [??]
  | E : (_ && _) = false |- _ => apply andb_false_iff in E as [?|?]
  | E : (_ <=? _) = true |- _ => apply Z.leb_le in E
  | E : (_ <=? _) = false |- _ => apply Z.leb_gt in E
  | E : (_ <? _) = true |- _ => apply Z.ltb_lt in E
  | E : (_ <? _) = false |- _ => apply Z.ltb_ge in E
  | E : (_ =? _) = true |- _ => apply Z.eqb_eq in E
  | E : (_ =? _) = false |- _ => apply Z.eqb_neq in E
  end.

(** the byte the counts leave at an address: that of the last one stored over it *)
Definition count_at (l : list (Z * Z * Z)) (x : Z) : option Z :=
  foldl (fun r '(p, size, v) => if (p <=? x) && (x <? p + size) then Some (byte_of v (x - p)) else r) None l.
(** the counts stored after the [k]th character *)
Definition counts_after (k : Z) (l : list (Z * Z * Z)) : list (Z * Z * Z) :=
  filter (fun c => is_true (k <? c.2)) l.

Lemma store_int_lookup p size v m x :
  0 <= size ->
  store_int p size v m !! x = if (p <=? x) && (x <? p + size) then Some (byte_of v (x - p)) else m !! x.
Proof.
  unfold store_int. intros Hs. rewrite <- (Z2Nat.id size Hs). clear Hs.
  induction (Z.to_nat size) as [|n IH]; [simpl; case_range; done || lia |].
  rewrite seqZ_S, foldl_app. cbn [foldl].
  destruct (Z.eqb_spec x (p + (0 + Z.of_nat n))) as [->|Hx].
  - rewrite lookup_insert_eq. case_range; try lia. do 2 f_equal. lia.
  - rewrite lookup_insert_ne, IH by done. case_range; done || lia.
Qed.

Lemma count_at_snoc l p size v x :
  count_at (l ++ [(p, size, v)]) x =
    if (p <=? x) && (x <? p + size) then Some (byte_of v (x - p)) else count_at l x.
Proof. unfold count_at. by rewrite foldl_app. Qed.

Lemma counts_after_snoc k l p size v :
  counts_after k (l ++ [(p, size, v)]) = counts_after k l ++ (if k <? v then [(p, size, v)] else []).
Proof.
  unfold counts_after. rewrite filter_app, filter_cons, filter_nil. cbn [snd].
  destruct (k <? v); [by rewrite decide_True by done | by rewrite decide_False by (by intros H; discriminate H)].
Qed.

(** a buffer stands for the text put into it, as long as the text does not run
    over the end of the address space *)
Section buffer.
Context (buf e : Z) (m : gmap Z Z) (Hbuf : 0 <= buf).

(** the memory a text leaves: its characters up to [e], and the counts where no later
    character is *)
Definition byte_after (t : text) (x : Z) : option Z :=
  if (buf <=? x) && (x <? buf + Z.of_nat (length (chars t))) && (x <=? e)
  then match count_at (counts_after (x - buf) (counts t)) x with
       | Some c => Some c
       | None => chars t !! Z.to_nat (x - buf)
       end
  else match count_at (counts t) x with Some c => Some c | None => m !! x end.

Definition in_space (t : text) : Prop := buf + Z.of_nat (length (chars t)) < 2 ^ 64.
Definition holds (t : text) (b : buffer) : Prop :=
  b_buf b = buf /\ b_end b = e /\
  Forall (fun c => c.2 <= Z.of_nat (length (chars t)) /\ 0 <= c.1.2) (counts t) /\
  (in_space t -> b_str b = buf + Z.of_nat (length (chars t)) /\ forall x, b_mem b !! x = byte_after t x).

Lemma counts_after_end k l :
  Forall (fun c => c.2 <= k /\ 0 <= c.1.2) l -> counts_after k l = [].
Proof.
  induction 1 as [|c l [Hc _] _ IH]; [done |]. unfold counts_after in *. rewrite filter_cons.
  rewrite decide_False; [done |]. intros E. apply Z.ltb_lt in E. lia.
Qed.

Lemma holds_put c t b : holds t b -> holds (put c t) (put c b).
Proof using Hbuf.
  intros (Hb & He & Hc & Hs).
  assert (Hkeep : b_buf (put c b) = buf /\ b_end (put c b) = e)
    by (simpl; unfold buffer_put; by destruct (_ <=? _)).
  split; [apply Hkeep |]. split; [apply Hkeep |]. split.
  { simpl. eapply Forall_impl; [exact Hc |]. intros x. rewrite length_app. simpl. lia. }
  unfold in_space. simpl. rewrite length_app. cbn [length]. intros Hf.
  destruct Hs as [Hstr Hmem]; [unfold in_space; lia |].
  unfold buffer_put. rewrite Hstr, He.
  set (k := Z.of_nat (length (chars t))) in *.
  assert (Hstep : forall x, x <> buf + k \/ e < buf + k ->
    byte_after (Text (chars t ++ [u8 c]) (counts t)) x = byte_after t x).
  { intros x Hx. unfold byte_after. simpl. rewrite length_app. cbn [length]. fold k.
    destruct (Z_lt_ge_dec x (buf + k)); [| case_range; done || lia].
    assert (x <? buf + Z.of_nat (length (chars t) + 1) = true) as -> by (apply Z.ltb_lt; lia).
    rewrite (proj2 (Z.ltb_lt x (buf + k))) by done.
    destruct ((buf <=? x) && true && (x <=? e)) eqn:E; [| done]. apply andb_true_iff in E as [[E _]%andb_true_iff _].
    apply Z.leb_le in E. by rewrite lookup_app_l by lia. }
  destruct (Z.leb_spec (buf + k) e) as [Hle|Hgt]; simpl; rewrite Hstr, u64_small by lia;
    (split; [lia |]); intros x.
  - destruct (Z.eqb_spec x (buf + k)) as [->|Hx].
    + rewrite lookup_insert_eq. unfold byte_after. simpl. rewrite length_app. cbn [length]. fold k.
      replace (buf + k - buf) with k by lia.
      rewrite counts_after_end by exact Hc. case_range; try lia. cbn [count_at foldl].
      unfold k. by rewrite Nat2Z.id, list_lookup_middle.
    + rewrite lookup_insert_ne, Hmem by done. symmetry. apply Hstep. by left.
  - rewrite Hmem. symmetry. apply Hstep. by right.
Qed.

Lemma holds_count p size t b : 0 <= size -> holds t b -> holds (put_count p size t) (put_count p size b).
Proof using Type.
  intros Hsz (Hb & He & Hc & Hs). split; [done |]. split; [done |]. split.
  { simpl. apply Forall_app. split; [done |]. constructor; [simpl; lia | constructor]. }
  intros Hf. destruct (Hs Hf) as [Hstr Hmem]. split; [done |]. intros x. simpl.
  rewrite store_int_lookup by done. rewrite Hmem, Hb, Hstr. unfold byte_after. simpl.
  set (k := Z.of_nat (length (chars t))). replace (buf + k - buf) with k by lia.
  rewrite count_at_snoc, counts_after_snoc.
  destruct ((buf <=? x) && (x <? buf + k) && (x <=? e)) eqn:E.
  - assert (x - buf <? k = true) as -> by (apply Z.ltb_lt; case_range; lia).
    rewrite count_at_snoc. by destruct ((p <=? x) && (x <? p + size)).
  - by destruct ((p <=? x) && (x <? p + size)).
Qed.
End buffer.

(** the whole text of a format, with the counts it stores *)
Definition vsn_text (fmt : list Z) (args : list arg) : run text :=
  format (length fmt) fmt (Text [] []) args.

(** a run over the buffer is the run over the text *)
Lemma buffer_run mem buf e fmt args :
  0 <= buf ->
  alike (holds buf e mem) (vsn_text fmt args) (format (length fmt) fmt (Buffer buf e buf mem) args).
Proof.
  intros Hbuf. apply format_same.
  - intros c t b. by apply holds_put.
  - intros p size t b. by apply holds_count.
  - split_and!; [done | done | constructor |]. intros _. split; [simpl; lia |].
    intros x. unfold byte_after. simpl. case_range; try done; lia.
Qed.

(** the last byte the code takes for the buffer: a size that runs over the end of the
    address space is cut there *)
Lemma buffer_end buf size :
  0 < buf < 2 ^ 64 -> 0 <= size < 2 ^ 64 ->
  let room := Z.min size (2 ^ 64 - buf) in
  (let end_ := u64 (buf + size - 1) in
   if end_ <? u64 (buf - 1) then (2 ^ 64 - 1, u64 (2 ^ 64 - 1 - buf + 1)) else (end_, size))
  = (buf + room - 1, room).
Proof.
  intros Hbuf Hsize. cbv zeta. rewrite (u64_small (buf - 1)) by lia.
  destruct (Z_lt_ge_dec (buf + size - 1) (2 ^ 64)).
  - rewrite u64_small by lia. rewrite Z.min_l by lia. case_range; [lia | done].
  - assert (u64 (buf + size - 1) = buf + size - 1 - 2 ^ 64) as ->.
    { unfold u64. symmetry. apply (Z.mod_unique _ _ 1); lia. }
    rewrite Z.min_r by lia. case_range; [| lia]. f_equal; [lia |]. rewrite u64_small by lia. lia.
Qed.

(** C15: osif_vsnprintf ends on every format, with the arguments it asks for or not;
    [size] is first cut at the end of the address space.  Provided the whole text
    would not run over that end, every byte of memory is then this: behind the
    text, or behind its first [size - 1] characters when it is longer, a zero; on
    these characters the character, unless a %n met later stores over it; anywhere
    else the byte of the last %n that stores over it, and what it was before when
    none does.  The result is the length of the whole text, as a signed 32-bit
    integer. *)
Theorem vsnprintf_bounded mem buf size fmt args :
  0 < buf < 2 ^ 64 -> 0 <= size < 2 ^ 64 ->
  match vsn_text fmt args with
  | inr t =>
      let len := Z.of_nat (length (chars t)) in
      let n := Z.min len (Z.min size (2 ^ 64 - buf) - 1) in
      buf + len < 2 ^ 64 ->
      exists mem', osif_vsnprintf mem buf size fmt args = inr (mem', s32 len) /\
        forall x, mem' !! x =
          if (x =? buf + n) && (0 <? size) then Some 0
          else if (buf <=? x) && (x <? buf + n) then
            match count_at (counts_after (x - buf) (counts t)) x with
            | Some c => Some c
            | None => chars t !! Z.to_nat (x - buf)
            end
          else
            match count_at (counts t) x with Some c => Some c | None => mem !! x end
  | inl e => e = WrongArg /\ osif_vsnprintf mem buf size fmt args = inl WrongArg
  end.
Proof.
  intros Hbuf Hsize. unfold osif_vsnprintf. rewrite buffer_end by done.
  set (room := Z.min size (2 ^ 64 - buf)). assert (0 <= room <= 2 ^ 64 - buf) as Hroom by lia.
  pose proof (buffer_run mem buf (buf + room - 1) fmt args ltac:(lia)) as Ha.
  pose proof (format_ends (length fmt) fmt (Text [] []) args ltac:(done)) as He.
  fold (vsn_text fmt args) in He.
  destruct (vsn_text fmt args) as [err|t], (format _ _ (Buffer _ _ _ _) _) as [err'|b];
    simpl in Ha; try done.
  { subst err'. by destruct err. }
  destruct Ha as (_ & _ & _ & Hs). cbv zeta. intros Hf. destruct (Hs Hf) as [Hstr Hmem]. simpl. rewrite Hstr.
  set (len := Z.of_nat (length (chars t))) in *.
  replace (buf + len - buf) with len by lia.
  eexists. split; [done |]. intros x.
  destruct (Z.leb_spec (buf + len) (buf + room - 1)) as [Hle|Hle].
  - rewrite Z.min_l by lia. assert (0 <? size = true) as -> by (apply Z.ltb_lt; lia). rewrite andb_true_r.
    destruct (Z.eqb_spec x (buf + len)) as [->|Hx]; [by rewrite lookup_insert_eq |].
    rewrite lookup_insert_ne, Hmem by done. unfold byte_after. fold len. case_range; done || lia.
  - rewrite Z.min_r by lia. replace (0 <? size) with (0 <? room) by (case_range; lia || done).
    destruct (Z.ltb_spec 0 room) as [Hs0|Hs0].
    + rewrite andb_true_r. destruct (Z.eqb_spec x (buf + (room - 1))) as [->|Hx].
      * replace (buf + (room - 1)) with (buf + room - 1) by lia. by rewrite lookup_insert_eq.
      * rewrite lookup_insert_ne, Hmem by lia. unfold byte_after. fold len. case_range; done || lia.
    + rewrite andb_false_r, Hmem. unfold byte_after. fold len. case_range; done || lia.
Qed.

(** ** What a number looks like *)

Definition sign_text (type num : Z) : list Z :=
  if tst type SIGN then
    if num <? 0 then [code "-"]
    else if tst type PLUS then [code "+"] else if tst type SPACE then [code " "] else []
  else [].
Definition prefix_text (type base : Z) : list Z :=
  if tst type SPECIAL then
    if base =? 8 then [code "0"]
    else if base =? 16 then [code "0"; if tst type LARGE then code "X" else code "x"] else []
  else [].
(** the digits of a number in a base, the most significant one first *)
Definition is_numeral (large : bool) (base num : Z) (l : list Z) : Prop :=
  exists ds, l = rev (map (digit_code (if large then large_digits else small_digits)) ds) /\
    value base ds = num /\ Forall (fun d => 0 <= d < base) ds /\
    (num <> 0 -> last ds <> Some 0) /\ (num = 0 -> ds = [0]).

Definition byte_text (l : list Z) : Prop := Forall (fun c => 0 <= c < 256) l.

Lemma code_byte c : 0 <= code c < 256.
Proof. unfold code. pose proof (Ascii.N_ascii_bounded c). lia. Qed.

Lemma sign_bytes type num : byte_text (sign_text type num).
Proof. unfold sign_text, byte_text. repeat case_match; repeat constructor; apply code_byte. Qed.
Lemma prefix_bytes type base : byte_text (prefix_text type base).
Proof. unfold prefix_text, byte_text. repeat case_match; repeat constructor; apply code_byte. Qed.

Lemma puts_text (l t : list Z) : byte_text l -> puts l t = t ++ l.
Proof.
  intros Hl. revert t. induction Hl as [|c l Hc Hl IH]; intros t; simpl; [by rewrite app_nil_r |].
  rewrite IH, u8_small by done. by rewrite <- app_assoc.
Qed.

Lemma pad_text c n (t : list Z) :
  0 <= c < 256 -> pad c n t = t ++ replicate (Z.to_nat n) c.
Proof.
  intros Hc. unfold pad. induction (Z.to_nat n) as [|k IH]; [simpl; by rewrite app_nil_r |].
  change (Nat.iter (S k) (put c) t) with (put c (Nat.iter k (put c) t)).
  rewrite IH. simpl. rewrite u8_small by done.
  rewrite <- app_assoc. f_equal. symmetry. apply replicate_cons_app.
Qed.

(** a run of one character is empty when its length is not positive *)
Lemma pad_none {T} `{Sink T} c n (t : T) : n <= 0 -> pad c n t = t.
Proof. intros Hn. unfold pad. by replace (Z.to_nat n) with O by lia. Qed.

Lemma after_pad_neg n : - 2 ^ 31 < n -> after_pad n <= 0 /\ Z.min (-1) (n - 1) <= after_pad n.
Proof.
  intros Hn. unfold after_pad. destruct (Z.ltb_spec 0 n); [lia |].
  rewrite s32_small by lia. lia.
Qed.

(** clearing ZEROPAD leaves the other flags *)
Lemma tst_unpadded type m :
  Z.land (Z.lnot ZEROPAD) m = m -> tst (Z.land type (Z.lnot ZEROPAD)) m = tst type m.
Proof. intros Hm. unfold tst. by rewrite <- Z.land_assoc, Hm. Qed.

Lemma tst_or type a b : tst type (Z.lor a b) = tst type a || tst type b.
Proof.
  unfold tst. rewrite Z.land_lor_distr_r.
  destruct (Z.eqb_spec (Z.land type a) 0) as [->|Ha]; simpl; [done |].
  apply negb_true_iff, Z.eqb_neq. intros E. apply Z.lor_eq_0_iff in E. by destruct E.
Qed.

Lemma digit_code_byte large d : 0 <= digit_code (if large : bool then large_digits else small_digits) d < 256.
Proof.
  unfold digit_code. destruct (zlookup _ d) as [c|] eqn:E; [| simpl; lia]. simpl.
  assert (Forall (fun c => 0 <= c < 256) (if large then large_digits else small_digits)) as Hf.
  { destruct large; vm_compute; repeat constructor; discriminate. }
  unfold zlookup in E. destruct (d <? 0); [done |].
  exact (Forall_lookup_1 _ _ _ _ Hf E).
Qed.

(** the sign, and what is left of the number and the width *)
Lemma sign_part type ty num size :
  (forall m, Z.land (Z.lnot ZEROPAD) m = m -> tst ty m = tst type m) ->
  - 2 ^ 63 <= num < 2 ^ 63 -> - 2 ^ 30 <= size < 2 ^ 30 ->
  exists num',
    (if tst ty SIGN then
       if num <? 0 then (code "-", s64 (- num), s32 (size - 1))
       else if tst ty PLUS then (code "+", num, s32 (size - 1))
       else if tst ty SPACE then (code " ", num, s32 (size - 1))
       else (0, num, size)
     else (0, num, size))
    = (hd 0 (sign_text type num), num', size - Z.of_nat (length (sign_text type num))) /\
    let magnitude := if tst type SIGN && (num <? 0) then - num else u64 num in
    u64 num' = magnitude /\ (num' = 0 <-> magnitude = 0).
Proof.
  intros Hty Hnum Hsize. rewrite !Hty by done. unfold sign_text.
  assert (num = 0 <-> u64 num = 0) as Hz.
  { unfold u64. split; [intros ->; done |]. intros Hz.
    destruct (Z.lt_ge_cases num 0); [| by rewrite Z.mod_small in Hz by lia].
    rewrite <- (Z.mod_unique num (2 ^ 64) (-1) (num + 2 ^ 64)) in Hz; lia. }
  assert (num < 0 -> u64 (s64 (- num)) = - num /\ s64 (- num) <> 0) as Hneg.
  { intros Hlt. unfold u64, s64. destruct (decide (num = - 2 ^ 63)) as [->|]; [done |].
    rewrite (Z.mod_small (- num + 2 ^ 63)) by lia. rewrite Z.mod_small by lia. lia. }
  destruct (tst type SIGN); [| exists num; simpl; split; [f_equal; lia | done]].
  destruct (Z.ltb_spec num 0) as [Hlt|Hge]; simpl.
  { exists (s64 (- num)). rewrite s32_small by lia. split; [done |].
    destruct (Hneg Hlt) as [-> ?]. split; [done |]. split; [done | lia]. }
  destruct (tst type PLUS); [exists num; rewrite s32_small by lia; done |].
  destruct (tst type SPACE); [exists num; rewrite s32_small by lia; done |].
  exists num. split; [f_equal; simpl; lia | done].
Qed.

(** the prefix *)
Lemma prefix_size type ty base size :
  tst ty SPECIAL = tst type SPECIAL -> - 2 ^ 31 + 2 <= size < 2 ^ 31 ->
  (if tst ty SPECIAL then
     if base =? 16 then s32 (size - 2) else if base =? 8 then s32 (size - 1) else size
   else size) = size - Z.of_nat (length (prefix_text type base)).
Proof.
  intros -> Hs. unfold prefix_text. destruct (tst type SPECIAL); [| simpl; lia].
  destruct (Z.eqb_spec base 16) as [->|]; simpl; [rewrite s32_small by lia; lia |].
  destruct (Z.eqb_spec base 8) as [->|]; simpl; [rewrite s32_small by lia; lia | lia].
Qed.

Lemma prefix_part {T} `{Sink T} type ty base (buf : T) :
  tst ty SPECIAL = tst type SPECIAL ->
  (if tst ty SPECIAL then
     if base =? 8 then mret (put (code "0") buf)
     else if base =? 16 then
       match zlookup (if tst type LARGE then large_digits else small_digits) 33 with
       | Some x => mret (put x (put (code "0") buf))
       | None => inl BeyondArray
       end
     else mret buf
   else mret buf) = (inr (puts (prefix_text type base) buf) : run T).
Proof.
  intros ->. unfold prefix_text. destruct (tst type SPECIAL); [| done].
  destruct (base =? 8); [done |]. destruct (base =? 16); [| done]. by destruct (tst type LARGE).
Qed.

Lemma sign_put {T} `{Sink T} type num (buf : T) :
  (if hd 0 (sign_text type num) =? 0 then buf else put (hd 0 (sign_text type num)) buf)
  = puts (sign_text type num) buf.
Proof. unfold sign_text. repeat (case_match; try done). Qed.

(** [number] writes, for any base and flags: spaces, the sign, the prefix, zeros up
    to the width, zeros up to the precision, the digits of the number and spaces;
    the spaces or zeros that fill the width are [w], what it leaves. *)
Theorem number_layout (t : list Z) num base size precision type :
  2 <= base <= 36 -> - 2 ^ 63 <= num < 2 ^ 63 ->
  - 2 ^ 30 <= size < 2 ^ 30 -> precision < 2 ^ 29 ->
  let sign := sign_text type num in
  let prefix := prefix_text type base in
  exists ds,
    is_numeral (tst type LARGE) base
      (if tst type SIGN && (num <? 0) then - num else u64 num) ds /\
    let zeros := Z.max 0 (precision - Z.of_nat (length ds)) in
    let w := size - Z.of_nat (length (sign ++ prefix ++ ds)) - zeros in
    let fill c := replicate (Z.to_nat w) c in
    number t num base size precision type =
      inr (t ++ (if tst type LEFT || tst type ZEROPAD then [] else fill (code " ")) ++
           sign ++ prefix ++
           (if negb (tst type LEFT) && tst type ZEROPAD then fill (code "0") else []) ++
           replicate (Z.to_nat zeros) (code "0") ++ ds ++
           (if tst type LEFT then fill (code " ") else [])).
Proof.
  intros Hb Hnum Hsize Hprec sign prefix. unfold number.
  destruct ((base <? 2) || (36 <? base)) eqn:E; [lia |]. clear E.
  set (digits := if tst type LARGE then large_digits else small_digits).
  set (ty := if tst type LEFT then _ else type).
  assert (forall m, Z.land (Z.lnot ZEROPAD) m = m -> tst ty m = tst type m) as Hty.
  { intros m Hm. subst ty. destruct (tst type LEFT); [by apply tst_unpadded | done]. }
  assert (tst ty ZEROPAD = negb (tst type LEFT) && tst type ZEROPAD) as Hzero.
  { subst ty. destruct (tst type LEFT) eqn:E; [| done]. unfold tst.
    by rewrite <- Z.land_assoc, Z.land_0_r. }
  assert (tst ty (ZEROPAD + LEFT) = tst type LEFT || tst type ZEROPAD) as Hboth.
  { change (ZEROPAD + LEFT) with (Z.lor ZEROPAD LEFT). rewrite tst_or, Hzero, Hty by done.
    by destruct (tst type LEFT), (tst type ZEROPAD). }
  destruct (sign_part type ty num size Hty Hnum Hsize) as (num' & -> & Hmag & Hnum0).
  fold sign in Hmag |- *. cbv beta iota.
  assert (length sign <= 1)%nat as Hsl by (unfold sign, sign_text; repeat case_match; simpl; lia).
  assert (length prefix <= 2)%nat as Hpl by (unfold prefix, prefix_text; repeat case_match; simpl; lia).
  rewrite (prefix_size type ty) by (rewrite ?Hty; try done; lia). fold prefix.
  destruct (number_digits digits base num' Hb) as (ds & -> & Hds); [apply digits_length |].
  set (tmp := if num' =? 0 then _ else _).
  assert (length tmp <= 64)%nat as Htl.
  { subst tmp. destruct (Z.eqb_spec num' 0); [simpl; lia |]. rewrite length_map. by apply Hds. }
  assert (byte_text (rev tmp)) as Hbyte.
  { apply Forall_rev. subst tmp. destruct (num' =? 0); [by repeat constructor |].
    apply Forall_fmap, Forall_true. intros d. apply digit_code_byte. }
  exists (rev tmp). split.
  { exists (if num' =? 0 then [0] else ds). rewrite <- Hmag. subst tmp.
    destruct (Z.eqb_spec num' 0) as [E|E].
    - split; [by destruct (tst type LARGE) |]. rewrite E. simpl.
      split_and!; [change (u64 0) with 0; lia | repeat constructor; lia | done | done].
    - destruct (Hds E) as (Hv & Hf & Hlast & _). split; [done |].
      split_and!; [done | done | done |]. intros E0. destruct E. apply Hnum0. by rewrite <- Hmag. }
  clearbody tmp. clear Hds Hmag Hnum0. cbn [mbind run_bind mret run_ret]. cbv zeta.
  rewrite !length_app, !length_rev.
  set (i := Z.of_nat (length tmp)). set (zeros := Z.max 0 (precision - i)).
  replace (if precision <? i then i else precision) with (i + zeros)
    by (unfold zeros; destruct (Z.ltb_spec precision i); lia).
  set (w := size - Z.of_nat (length sign + (length prefix + length tmp)) - zeros).
  assert (size - Z.of_nat (length sign) - Z.of_nat (length prefix) - (i + zeros) = w) as ->
    by (unfold w, i; lia).
  rewrite s32_small by (unfold w, zeros, i; lia).
  replace (i + zeros - i) with zeros by lia.
  destruct (after_pad_neg w) as [Hw Hw']; [unfold w, zeros, i; lia |].
  destruct (after_pad_neg (after_pad w)) as [Hw2 _]; [unfold w, zeros, i in *; lia |].
  pose proof (sign_bytes type num : byte_text sign) as Hsb.
  pose proof (prefix_bytes type base : byte_text prefix) as Hpb.
  rewrite Hboth, Hzero, (Hty LEFT) by done.
  destruct (tst type LEFT) eqn:EL, (tst type ZEROPAD) eqn:EZ; cbn [negb andb orb];
    unfold sign; rewrite sign_put; unfold digits;
    rewrite (prefix_part type ty base) by (by rewrite Hty); fold sign prefix;
    cbn [mbind run_bind mret run_ret]; f_equal;
    rewrite ?(pad_none (code " ") (after_pad w)), ?(pad_none (code "0") (after_pad w)),
      ?(pad_none (code " ") (after_pad (after_pad w))) by done;
    rewrite ?puts_text, ?pad_text, ?puts_text, ?pad_text, <- ?app_assoc, ?app_nil_r, ?app_nil_l
      by (done || apply code_byte); try done.
Qed.

(** %p converts the pointer to 32 bits: two pointers that differ in the upper half
    only look the same. *)
Lemma pointer_low_half p q :
  p mod 2 ^ 32 = q mod 2 ^ 32 ->
  vsn_text (codes "%p") [APtr p] = vsn_text (codes "%p") [APtr q].
Proof.
  intros E. assert (s32 p = s32 q) as Es.
  { unfold s32. by rewrite <- (Z.add_mod_idemp_l p), <- (Z.add_mod_idemp_l q), E by lia. }
  assert (forall p, vsn_text (codes "%p") [APtr p] =
    ('(rest, t, args) ← conversion (codes "p") (Text [] []) [APtr p]; format 1 rest t args))
    as H by reflexivity.
  assert (forall p, conversion (codes "p") (Text [] []) [APtr p] =
    (str ← number (Text [] []) (s32 p) 16 16 (-1) ZEROPAD; mret ([], str, []))) as H' by reflexivity.
  by rewrite !H, !H', Es.
Qed.

(** ** Witnesses *)
Module Witness.

Definition fmt : list Z := codes "%-4s%n%+d".
Definition args : list arg := [AStr (Some (codes "ab")); APtr 0x2000; AInt 12345].

(** a text of ten characters in a buffer of eight, with a count stored on the way *)
Lemma vsnprintf_bounded_witness :
  exists mem', osif_vsnprintf ∅ 4096 8 fmt args = inr (mem', 10) /\
    mem' !! 4100 = Some (code "+") /\ mem' !! 4103 = Some 0 /\ mem' !! 4104 = None /\
    mem' !! 0x2000 = Some 4 /\ mem' !! 0x2003 = Some 0 /\ mem' !! 0x2004 = None.
Proof.
  pose proof (vsnprintf_bounded ∅ 4096 8 fmt args ltac:(lia) ltac:(lia)) as H.
  assert (vsn_text fmt args = inr (Text (codes "ab  +12345") [(0x2000, 4, 4)])) as E by (vm_compute; reflexivity).
  rewrite E in H. destruct H as (mem' & Hrun & Hmem); [vm_compute; reflexivity |].
  exists mem'. split; [exact Hrun |]. rewrite !Hmem. split_and!; vm_compute; reflexivity.
Defined.

(** a count stored over the text: the characters put later win *)
Example count_over_text :
  exists mem', osif_vsnprintf ∅ 4096 16 (codes "abcdef%ngh") [APtr 4100] = inr (mem', 8) /\
    mem' !! 4099 = Some (code "d") /\ mem' !! 4100 = Some 6 /\ mem' !! 4101 = Some 0 /\
    mem' !! 4102 = Some (code "g") /\ mem' !! 4104 = Some 0.
Proof. eexists. split_and!; vm_compute; reflexivity. Qed.

Lemma number_layout_witness :
  exists ds l, is_numeral false 16 255 ds /\ number [] 255 16 8 4 SPECIAL = inr (l ++ ds) /\
    l ++ ds = codes "  0x00ff".
Proof.
  destruct (number_layout [] 255 16 8 4 SPECIAL) as (ds & Hds & Hn); [lia | lia | lia | lia |].
  assert (number [] 255 16 8 4 SPECIAL = inr (codes "  0x00ff")) as E by (vm_compute; reflexivity).
  simpl orb in Hn. cbv zeta in Hn. cbn [app] in Hn. rewrite app_nil_r, !app_assoc in Hn.
  exists ds. eexists. split; [exact Hds |]. split; [exact Hn |].
  rewrite E in Hn. by injection Hn.
Defined.

End Witness.
