(* ===== verification/Osif.v ===== *)
(** * Operating system interface of the esd driver (src/esd/src/osif.c)

    Division of 64-bit numbers, memory with a mark of its allocator, memory for
    bus masters, times in ticks, serial numbers, and the choice of what is
    printed.  The kernel's allocators, clocks and timers answer through [Env];
    the chain of deferred calls is in [Dpc], formatted text in [OsifText]. *)
From stdpp Require Import gmap.
From S2P Require Import Prelude Kernel EsdApi.

(** ** Division *)
Module Div64.

(** while ((INT64)b > 0 && b < rem): the last [b] and [d] *)
Fixpoint scale_up (fuel : nat) (b d rem : Z) : option (Z * Z) :=
  if (0 <? s64 b) && (b <? rem) then
    match fuel with
    | O => None
    | S n => scale_up n (u64 (Z.shiftl b 1)) (u64 (Z.shiftl d 1)) rem
    end
  else Some (b, d).

(** do ... while (d): the quotient and the remainder *)
Fixpoint subtract_down (fuel : nat) (b d rem res : Z) : option (Z * Z) :=
  match fuel with
  | O => None
  | S n =>
      let '(rem, res) := if b <=? rem then (u64 (rem - b), u64 (res + d)) else (rem, res) in
      let b := Z.shiftr b 1 in
      let d := Z.shiftr d 1 in
      if d =? 0 then Some (res, rem) else subtract_down n b d rem res
  end.

Inductive quotient := Quotient (n rem : Z) | DivideByZero | NoFuel.

(** _osif_div64_32_: the new value of *n, and the result *)
Definition osif_div64_32 (n base : Z) : quotient :=
  let rem := n in
  let b := base in
  let high := u32 (Z.shiftr rem 32) in
  match
    (if base <=? high then
       if base =? 0 then None
       else let high := high / base in
            Some (u64 (Z.shiftl high 32), u64 (rem - u64 (Z.shiftl (u32 (high * base)) 32)))
     else Some (0, rem))
  with
  | None => DivideByZero
  | Some (res, rem) =>
      match scale_up 64 b 1 rem with
      | None => NoFuel
      | Some (b, d) =>
          match subtract_down 65 b d rem res with
          | None => NoFuel
          | Some (res, rem) => Quotient res (u32 rem)
          end
      end
  end.

(** OSIF_DIV64_64 (osif.h), and the loop of OSIF_DIV64_SFT_FIXUP that finds a
    shift for the tick frequency *)
Definition osif_div64_64 (sft n div : Z) : quotient :=
  match osif_div64_32 n (u32 (Z.shiftr div sft)) with
  | Quotient n rem => Quotient (Z.shiftr n sft) rem
  | q => q
  end.
Fixpoint min_sft_loop (fuel : nat) (tick min_sft : Z) : option Z :=
  if u32 (Z.shiftr tick 32) =? 0 then Some min_sft
  else match fuel with
       | O => None
       | S n => min_sft_loop n (Z.shiftr tick 1) (min_sft + 1)
       end.
Definition sft_fixup (freq sft : Z) : option Z :=
  min_sft ← min_sft_loop 32 freq 0;
  Some (if sft <? min_sft then min_sft else sft).

(** *** Both loops *)

Lemma scale_up_spec k j base rem :
  0 < base < 2 ^ 32 -> 0 <= rem < base * 2 ^ 32 -> (j + k = 64)%nat ->
  base * 2 ^ Z.of_nat j < 2 ^ 64 ->
  exists i, (i < 64)%nat /\
    scale_up k (base * 2 ^ Z.of_nat j) (2 ^ Z.of_nat j) rem =
      Some (base * 2 ^ Z.of_nat i, 2 ^ Z.of_nat i) /\
    rem < 2 * (base * 2 ^ Z.of_nat i).
Proof.
  intros Hb Hr. revert j. induction k as [|k IH]; intros j Hj Ho.
  { replace j with 64%nat in Ho by lia. lia. }
  assert (0 < 2 ^ Z.of_nat j) by lia. set (b := base * 2 ^ Z.of_nat j) in *.
  assert (0 < b) by nia. cbn [scale_up].
  destruct (Z.lt_ge_cases b (2 ^ 63)) as [Hs|Hs].
  - assert (s64 b = b) as -> by (unfold s64; rewrite Z.mod_small; lia).
    destruct (Z.ltb_spec 0 b); [| lia]. destruct (Z.ltb_spec b rem) as [Hlt|Hge]; cbn [andb].
    + assert (Z.of_nat j < 32) as Hj32.
      { apply (Z.pow_lt_mono_r_iff 2); [lia | lia |]. nia. }
      assert (2 ^ Z.of_nat (S j) = 2 * 2 ^ Z.of_nat j) as E
        by (rewrite Nat2Z.inj_succ, Z.pow_succ_r; lia).
      assert (2 ^ Z.of_nat j < 2 ^ 32) by (apply Z.pow_lt_mono_r; lia).
      rewrite !Z.shiftl_mul_pow2, !u64_small by lia.
      replace (b * 2 ^ 1) with (base * 2 ^ Z.of_nat (S j)) by (rewrite E; unfold b; lia).
      replace (2 ^ Z.of_nat j * 2 ^ 1) with (2 ^ Z.of_nat (S j)) by lia.
      apply IH; [lia |]. rewrite E. unfold b in Hs. lia.
    + exists j. split; [| split; [done | fold b; lia]].
      destruct (decide (j = 64%nat)) as [->|]; [unfold b in *; lia | lia].
  - assert (s64 b < 0) as Hneg.
    { unfold s64. replace ((b + 2 ^ 63) mod 2 ^ 64) with (b - 2 ^ 63); [lia |].
      apply Z.mod_unique with 1; lia. }
    destruct (Z.ltb_spec 0 (s64 b)); [lia |]. cbn [andb].
    exists j. split; [lia |]. split; [done |]. fold b. lia.
Qed.

Lemma quotient_unique n base q r :
  q * base + r = n -> 0 <= r < base -> q = n / base /\ r = n mod base.
Proof.
  intros E Hr. split; [apply Z.div_unique with r | apply Z.mod_unique with q]; lia.
Qed.

(** one turn of the loop: what [b] covers goes to the quotient *)
Lemma subtract_down_spec i base n rem res :
  0 < base < 2 ^ 32 -> 0 <= rem < 2 * (base * 2 ^ Z.of_nat i) -> 0 <= res ->
  res * base + rem = n -> n < 2 ^ 64 -> forall fuel, (i < fuel)%nat ->
  subtract_down fuel (base * 2 ^ Z.of_nat i) (2 ^ Z.of_nat i) rem res =
    Some (n / base, n mod base).
Proof.
  intros Hb. revert rem res. induction i as [|i IH]; intros rem res Hr Hs Hn Hmax fuel Hf;
    (destruct fuel as [|fuel]; [lia |]); cbn [subtract_down].
  - change (2 ^ Z.of_nat 0) with 1 in *. rewrite Z.mul_1_r in *. rewrite !Z.shiftr_div_pow2 by lia.
    change (1 / 2 ^ 1 =? 0) with true.
    destruct (Z.leb_spec base rem).
    + rewrite !u64_small by nia.
      by destruct (quotient_unique n base (res + 1) (rem - base)) as [<- <-]; [lia | lia |].
    + by destruct (quotient_unique n base res rem) as [<- <-]; [lia | lia |].
  - assert (2 ^ Z.of_nat (S i) = 2 * 2 ^ Z.of_nat i) as E
      by (rewrite Nat2Z.inj_succ, Z.pow_succ_r; lia).
    assert (0 < 2 ^ Z.of_nat i) by lia.
    rewrite E in *. rewrite !Z.shiftr_div_pow2 by lia. change (2 ^ 1) with 2.
    replace (base * (2 * 2 ^ Z.of_nat i) / 2) with (base * 2 ^ Z.of_nat i)
      by (symmetry; replace (base * (2 * 2 ^ Z.of_nat i)) with (base * 2 ^ Z.of_nat i * 2) by lia;
          apply Z.div_mul; lia).
    replace (2 * 2 ^ Z.of_nat i / 2) with (2 ^ Z.of_nat i)
      by (symmetry; rewrite Z.mul_comm; apply Z.div_mul; lia).
    destruct (Z.eqb_spec (2 ^ Z.of_nat i) 0); [lia |].
    destruct (Z.leb_spec (base * (2 * 2 ^ Z.of_nat i)) rem).
    + rewrite !u64_small by nia. apply IH; lia || nia.
    + apply IH; lia.
Qed.

(** For a divisor other than 0, _osif_div64_32_ is division: it ends, leaves the
    quotient in [*n] and returns the remainder; for 0 it divides by zero. *)
Theorem div64_is_division n base :
  0 <= n < 2 ^ 64 -> 0 <= base < 2 ^ 32 ->
  osif_div64_32 n base =
    if base =? 0 then DivideByZero else Quotient (n / base) (n mod base).
Proof.
  intros Hn Hb. unfold osif_div64_32. rewrite Z.shiftr_div_pow2 by lia.
  assert (0 <= n / 2 ^ 32 < 2 ^ 32) as Hh
    by (split; [apply Z.div_pos; lia | apply Z.div_lt_upper_bound; lia]).
  rewrite (u32_small (n / 2 ^ 32)) by done. set (high := n / 2 ^ 32) in *.
  destruct (Z.eqb_spec base 0) as [->|Hb0].
  { destruct (Z.leb_spec 0 high); [done | lia]. }
  pose proof (Z.div_mod n (2 ^ 32) ltac:(lia)) as Hdm. fold high in Hdm.
  pose proof (Z.mod_pos_bound n (2 ^ 32) ltac:(lia)) as Hlow.
  assert (exists res rem,
    (if base <=? high then
       Some (u64 (Z.shiftl (high / base) 32), u64 (n - u64 (Z.shiftl (u32 (high / base * base)) 32)))
     else Some (0, n)) = Some (res, rem) /\
    res * base + rem = n /\ 0 <= rem < base * 2 ^ 32 /\ 0 <= res) as (res & rem & -> & E & Hrem & Hres).
  { destruct (Z.leb_spec base high) as [Hle|Hlt]; [| exists 0, n; split; [done |]; nia].
    pose proof (Z.div_mod high base Hb0) as Hq. pose proof (Z.mod_pos_bound high base ltac:(lia)) as Hm.
    set (q := high / base) in *. assert (0 < q) by nia. assert (q * base <= high) by nia.
    assert (q <= high) by nia.
    rewrite (u32_small (q * base)) by nia. rewrite !Z.shiftl_mul_pow2 by lia.
    rewrite (u64_small (q * base * 2 ^ 32)), (u64_small (q * 2 ^ 32)) by nia.
    rewrite u64_small by nia. do 2 eexists. split; [done |]. split; [lia |]. split; [nia | nia]. }
  destruct (scale_up_spec 64 0 base rem) as (i & Hi & Eu & Hlt); [lia | lia | done | lia |].
  change (2 ^ Z.of_nat 0) with 1 in Eu. rewrite Z.mul_1_r in Eu. rewrite Eu.
  rewrite (subtract_down_spec i base n rem res) by (lia || nia).
  rewrite u32_small; [done |]. pose proof (Z.mod_pos_bound n base). lia.
Qed.

Lemma min_sft_loop_spec k tick s :
  0 <= tick < 2 ^ 32 * 2 ^ Z.of_nat k -> (k <= 32)%nat ->
  exists j, 0 <= j <= Z.of_nat k /\ min_sft_loop k tick s = Some (s + j) /\
    Z.shiftr tick j < 2 ^ 32.
Proof.
  revert tick s. induction k as [|k IH]; intros tick s Ht Hk.
  - change (2 ^ Z.of_nat 0) with 1 in Ht. cbn [min_sft_loop].
    rewrite Z.shiftr_div_pow2, Z.div_small by lia.
    exists 0. rewrite Z.add_0_r, Z.shiftr_0_r. split; [lia |]. split; [done | lia].
  - rewrite Nat2Z.inj_succ, Z.pow_succ_r in Ht by lia. cbn [min_sft_loop].
    assert (2 ^ Z.of_nat k <= 2 ^ 31) by (apply Z.pow_le_mono_r; lia).
    rewrite (Z.shiftr_div_pow2 tick 32) by lia. rewrite u32_small
      by (split; [apply Z.div_pos; lia | apply Z.div_lt_upper_bound; nia]).
    destruct (Z.eqb_spec (tick / 2 ^ 32) 0) as [Hz|Hz].
    + exists 0. rewrite Z.add_0_r, Z.shiftr_0_r. split; [lia |]. split; [done |].
      apply Z.div_small_iff in Hz; lia.
    + destruct (IH (Z.shiftr tick 1) (s + 1)) as (j & Hj & E & Hlt); [| lia |].
      { rewrite Z.shiftr_div_pow2 by lia. change (2 ^ 1) with 2.
        split; [apply Z.div_pos; lia | apply Z.div_lt_upper_bound; lia]. }
      exists (1 + j). split; [lia |]. rewrite E. split; [f_equal; lia |].
      rewrite Z.shiftr_shiftr in Hlt by lia. done.
Qed.

(** The shift of OSIF_DIV64_SFT_FIXUP makes the tick frequency fit 32 bits, and
    OSIF_DIV64_64 by the frequency is then never too small, and exact when the
    shift loses no bit of the frequency. *)
Lemma div64_64_fixed freq sft n :
  0 < freq < 2 ^ 64 -> 0 <= sft -> 0 <= n < 2 ^ 64 ->
  exists s, sft_fixup freq sft = Some s /\ sft <= s /\ Z.shiftr freq s < 2 ^ 32 /\
    (0 < Z.shiftr freq s -> exists q r, osif_div64_64 s n freq = Quotient q r /\
      n / freq <= q /\ (freq mod 2 ^ s = 0 -> q = n / freq)).
Proof.
  intros Hf Hs Hn.
  destruct (min_sft_loop_spec 32 freq 0) as (j & Hj & E & Hlt); [lia | lia |].
  unfold sft_fixup. rewrite E. simpl. rewrite Z.add_0_l.
  exists (if sft <? j then j else sft). split; [done |].
  set (s := if sft <? j then j else sft).
  assert (sft <= s /\ j <= s) as [Hs1 Hs2] by (unfold s; destruct (Z.ltb_spec sft j); lia).
  split; [done |].
  assert (0 < 2 ^ s) as Hps by (apply Z.pow_pos_nonneg; lia).
  assert (Z.shiftr freq s < 2 ^ 32) as Hfs.
  { apply Z.le_lt_trans with (Z.shiftr freq j); [| done]. rewrite !Z.shiftr_div_pow2 by lia.
    apply Z.div_le_compat_l; [lia |]. split; [apply Z.pow_pos_nonneg; lia |].
    apply Z.pow_le_mono_r; lia. }
  split; [done |]. intros Hpos. unfold osif_div64_64.
  rewrite u32_small by lia. rewrite div64_is_division by lia.
  destruct (Z.eqb_spec (Z.shiftr freq s) 0); [lia |]. do 2 eexists. split; [done |].
  rewrite !Z.shiftr_div_pow2 in * by lia. rewrite Z.div_div by lia.
  pose proof (Z.div_mod freq (2 ^ s) ltac:(lia)) as Hdm.
  pose proof (Z.mod_pos_bound freq (2 ^ s) Hps) as Hm.
  split.
  - apply Z.div_le_compat_l; [lia |]. split; nia.
  - intros Hz. f_equal. nia.
Qed.
End Div64.

(** ** Memory *)
Module Memory.

Definition OSIF_MEM_IS_NOTUSED : Z := 0x00000000.
Definition OSIF_MEM_IS_KMEM : Z := 0x11111111.
Definition OSIF_MEM_IS_VMEM : Z := 0x22222222.

(** the allocated blocks, by address, with the mark at their start *)
Record heap := Heap { marks : gmap Z Z }.
#[export] Instance heap_eta : Eta heap := fun r => Heap (marks r).

Section memory.
Context `{Env}.

(** a store to, a load from the start of a block *)
Definition set_mark (ptr m : Z) : M heap unit := modify (fun h => h <| marks ::= <[ptr := m]> |>).
Definition get_mark (ptr : Z) : M heap Z :=
  h ← get; of_option Dangling (marks h !! ptr).
(** kfree, vfree *)
Definition release (name : string) (ptr : Z) : M heap unit :=
  tell (KernelCall name [ptr]);; modify (fun h => h <| marks ::= delete ptr |>).

(** osif_malloc: the result, and *p *)
Definition osif_malloc (size : Z) : M heap (Z * Z) :=
  ptr ← ask (KernelCall "kmalloc" [u64 (size + 4)]);
  if ptr =? 0 then
    ptr ← ask (KernelCall "vmalloc" [u64 (size + 4)]);
    if ptr =? 0 then mret (OSIF_INSUFFICIENT_RESOURCES, 0)
    else set_mark ptr OSIF_MEM_IS_VMEM;; mret (OSIF_SUCCESS, ptr + 4)
  else set_mark ptr OSIF_MEM_IS_KMEM;; mret (OSIF_SUCCESS, ptr + 4).

Definition osif_free (ptr : Z) : M heap Z :=
  let pFree := ptr - 4 in
  if negb (ptr =? 0) then
    mark ← get_mark pFree;
    if mark =? OSIF_MEM_IS_KMEM then
      set_mark pFree OSIF_MEM_IS_NOTUSED;; release "kfree" pFree;; mret OSIF_SUCCESS
    else
      mark ← get_mark pFree;
      if mark =? OSIF_MEM_IS_VMEM then
        set_mark pFree OSIF_MEM_IS_NOTUSED;; release "vfree" pFree;; mret OSIF_SUCCESS
      else mret OSIF_SUCCESS
  else mret OSIF_SUCCESS.

(** struct __OSIF_PCI_PADDR *)
Record OSIF_PCI_PADDR := Mk_OSIF_PCI_PADDR { addr32 : Z; sys_dma_addr : Z }.

(** osif_pci_malloc: the result, *paddr with what it points to, *vaddr *)
Definition osif_pci_malloc (size : Z) : M heap (Z * Z * OSIF_PCI_PADDR * Z) :=
  let none := Mk_OSIF_PCI_PADDR 0 0 in
  paddr ← ask (KernelCall "vmalloc" [16]);
  if paddr =? 0 then mret (OSIF_INSUFFICIENT_RESOURCES, 0, none, 0)
  else
    err ← ask (KernelCall "pci_set_consistent_dma_mask" [2 ^ 32 - 1]);
    if negb (err =? 0) then mret (OSIF_INSUFFICIENT_RESOURCES, paddr, none, 0)
    else
      vaddr ← ask (DmaAlloc size);
      dma ← ask (DmaHandle vaddr);
      if vaddr =? 0 then
        tell (KernelCall "vfree" [paddr]);;
        mret (OSIF_INSUFFICIENT_RESOURCES, paddr, none, 0)
      else mret (OSIF_SUCCESS, paddr, Mk_OSIF_PCI_PADDR (u32 dma) (u64 dma), vaddr).

Definition osif_pci_free (vaddr paddr : Z) (p : OSIF_PCI_PADDR) (size : Z) : M heap Z :=
  tell (DmaFree vaddr (sys_dma_addr p) size);;
  tell (KernelCall "vfree" [paddr]);;
  mret OSIF_SUCCESS.

Definition osif_pci_get_phy_addr (p : OSIF_PCI_PADDR) : Z := addr32 p.

(** *** Timers: [struct _OSIF_LINUX_TIMER] is in the heap, with its DPC *)

(** OSIF_DPC_CREATE: the result, and the handle it leaves, NULL without memory *)
Definition osif_dpc_create : M heap (Z * Z) := osif_malloc 32.

(** osif_timer_create: the result, pTimerExt and the handle of its DPC *)
Definition osif_timer_create : M heap (Z * Z * Z) :=
  '(result, pLxTimer) ← osif_malloc 96;
  if negb (result =? OSIF_SUCCESS) then mret (result, 0, 0)
  else
    tell (KernelCall "init_timer" [pLxTimer]);;
    '(_, dpc) ← osif_dpc_create;
    mret (OSIF_SUCCESS, pLxTimer, dpc).

(** osif_timer_destroy, where [dpc_destroy] is osif_dpc_destroy *)
Definition osif_timer_destroy (dpc_destroy : Z -> M heap Z) (pTimerExt dpc : Z) : M heap Z :=
  if pTimerExt =? 0 then mret CANIO_ERROR
  else
    tell (KernelCall "del_timer" [pTimerExt]);;
    dpc_destroy dpc;;
    osif_free pTimerExt;;
    mret OSIF_SUCCESS.

(** *** What they do *)

Lemma wp_get_mark ptr m Q (w : world heap) :
  marks (w_st w) !! ptr = Some m -> Q m w -> wp (get_mark ptr) Q w.
Proof. intros E HQ. unfold get_mark. wp_step. wp_step. unfold of_option. rewrite E. by wp_step. Qed.

(** the blocks and calls of a free *)
Lemma wp_osif_free ptr m (w : world heap) :
  ptr <> 0 -> marks (w_st w) !! (ptr - 4) = Some m ->
  wp (osif_free ptr) (fun r w' => r = OSIF_SUCCESS /\ w_held w' = w_held w /\
    if m =? OSIF_MEM_IS_KMEM then
      w_st w' = Heap (delete (ptr - 4) (marks (w_st w))) /\
      emits w [Ev (KernelCall "kfree" [ptr - 4]) 0] w'
    else if m =? OSIF_MEM_IS_VMEM then
      w_st w' = Heap (delete (ptr - 4) (marks (w_st w))) /\
      emits w [Ev (KernelCall "vfree" [ptr - 4]) 0] w'
    else w' = w) w.
Proof.
  intros Hp Hm. unfold osif_free. cbv zeta. destruct (Z.eqb_spec ptr 0) as [|_]; [done |].
  cbn [negb]. wp_step. apply (wp_get_mark _ m); [done |].
  destruct (m =? OSIF_MEM_IS_KMEM) eqn:Ek.
  - unfold set_mark, release. wp_steps. split; [done |]. split; [done |]. split; [| done].
    apply (f_equal Heap), delete_insert_eq.
  - wp_step. apply (wp_get_mark _ m); [done |].
    destruct (m =? OSIF_MEM_IS_VMEM) eqn:Ev'.
    + unfold set_mark, release. wp_steps. split; [done |]. split; [done |]. split; [| done].
      apply (f_equal Heap), delete_insert_eq.
    + by wp_steps.
Qed.

(** the allocator that gave a block, and how it takes it back *)
Definition got_from (size p : Z) (evs : list event) (free : string) : Prop :=
  free = "kfree"%string /\ p <> 4 /\
    evs = [Ev (KernelCall "kmalloc" [u64 (size + 4)]) (p - 4)] \/
  free = "vfree"%string /\ p <> 4 /\
    evs = [Ev (KernelCall "kmalloc" [u64 (size + 4)]) 0;
           Ev (KernelCall "vmalloc" [u64 (size + 4)]) (p - 4)].

(** Memory from osif_malloc goes back, once, to the allocator it came from, and
    nothing else of the heap changes; without memory nothing is held. *)
Theorem malloc_free size (w : world heap) :
  wp (osif_malloc size) (fun '(result, p) w1 =>
    if result =? OSIF_SUCCESS then
      exists evs free, emits w evs w1 /\ got_from size p evs free /\
        (p <> 0 ->
         wp (osif_free p) (fun r w2 => r = OSIF_SUCCESS /\
           emits w1 [Ev (KernelCall free [p - 4]) 0] w2 /\
           marks (w_st w2) = delete (p - 4) (marks (w_st w))) w1)
    else result = OSIF_INSUFFICIENT_RESOURCES /\ p = 0 /\ w_st w1 = w_st w) w.
Proof.
  unfold osif_malloc, set_mark. wp_step. apply wp_ask. intros q _.
  destruct (Z.eqb_spec q 0) as [->|Hq].
  - wp_step. apply wp_ask. intros q _. destruct (Z.eqb_spec q 0) as [->|Hq]; wp_steps; [done |].
    exists [Ev (KernelCall "kmalloc" [u64 (size + 4)]) 0; Ev (KernelCall "vmalloc" [u64 (size + 4)]) q],
      "vfree"%string.
    split; [done |].
    split; [right; split_and!; [done | lia | by rewrite Z.add_simpl_r] |].
    intros Hp. eapply wp_mono; [apply (wp_osif_free _ OSIF_MEM_IS_VMEM); [done |] |].
    + replace (q + 4 - 4) with q by lia. apply lookup_insert_eq.
    + intros r1 w2 (-> & _ & Hst & He). split; [done |]. split; [done |]. rewrite Hst.
      replace (q + 4 - 4) with q by lia. apply delete_insert_eq.
  - wp_steps.
    exists [Ev (KernelCall "kmalloc" [u64 (size + 4)]) q], "kfree"%string.
    split; [done |].
    split; [left; split_and!; [done | lia | by rewrite Z.add_simpl_r] |].
    intros Hp. eapply wp_mono; [apply (wp_osif_free _ OSIF_MEM_IS_KMEM); [done |] |].
    + replace (q + 4 - 4) with q by lia. apply lookup_insert_eq.
    + intros r1 w2 (-> & _ & Hst & He). split; [done |]. split; [done |]. rewrite Hst.
      replace (q + 4 - 4) with q by lia. apply delete_insert_eq.
Qed.

(** the blocks of vmalloc that a history, oldest first, has and has not freed *)
Fixpoint vmalloced (l : list event) (held : list Z) : list Z :=
  match l with
  | Ev (KernelCall name args) r :: l' =>
      if String.eqb name "vmalloc" then vmalloced l' (if r =? 0 then held else r :: held)
      else if String.eqb name "vfree" then vmalloced l' (filter (fun p => [p] <> args) held)
      else vmalloced l' held
  | _ :: l' => vmalloced l' held
  | [] => held
  end.

(** osif_pci_malloc that succeeds holds the block for the bus address and the
    buffer.  When the buffer cannot be allocated the block is given back; when the
    kernel refuses the address mask, it is not. *)
Theorem pci_malloc_outcome size (w : world heap) :
  wp (osif_pci_malloc size) (fun '(result, paddr, p, vaddr) w' =>
    exists evs, emits w evs w' /\ w_st w' = w_st w /\
      if result =? OSIF_SUCCESS then
        vmalloced evs [] = [paddr] /\ vaddr <> 0 /\ osif_pci_get_phy_addr p = u32 (sys_dma_addr p)
      else result = OSIF_INSUFFICIENT_RESOURCES /\
        vmalloced evs [] =
          (if existsb (fun e => match e with
                                | Ev (KernelCall "pci_set_consistent_dma_mask" _) r => negb (r =? 0)
                                | _ => false
                                end) evs
           then [paddr] else [])) w.
Proof.
  unfold osif_pci_malloc. cbv zeta.
  wp_step. apply wp_ask. intros paddr _. destruct (Z.eqb_spec paddr 0) as [->|Hp]; wp_step.
  { eexists [_]. split; [done |]. done. }
  apply wp_ask. intros err _. destruct (Z.eqb_spec err 0) as [->|He]; cbn [negb].
  - wp_step. apply wp_ask. intros vaddr _. wp_step. apply wp_ask. intros dma _.
    destruct (Z.eqb_spec vaddr 0) as [->|Hv]; wp_steps.
    + eexists [_; _; _; _; _]. split; [done |]. split; [done |]. split; [done |]. simpl.
      destruct (Z.eqb_spec paddr 0); [done |]. by rewrite filter_cons_False by (intros []; done).
    + eexists [_; _; _; _]. split; [done |]. split; [done |]. simpl.
      destruct (Z.eqb_spec paddr 0); [done |]. split; [done |]. split; [done |].
      unfold u32, u64. symmetry. apply Z.mod_mod_divide. by exists (2 ^ 32).
  - wp_steps. eexists [_; _]. split; [done |]. split; [done |]. split; [done |]. simpl.
    destruct (Z.eqb_spec paddr 0); [done |]. by destruct (Z.eqb_spec err 0).
Qed.

End memory.

(** osif_timer_create reports success although its DPC got no memory: the timer
    then triggers a NULL handle and its function never runs. *)
Definition one_block : Env := fun log c =>
  match c, log with KernelCall _ _, [] => 4096 | _, _ => 0 end.
Lemma timer_without_dpc :
  exists w', osif_timer_create (H := one_block) (World [] [] (Heap ∅))
    = Ret (OSIF_SUCCESS, 4100, 0) w'.
Proof. eexists. vm_compute. reflexivity. Qed.
End Memory.

(** ** Times *)
Module Times.
Section times.
Context `{Env} `{ModParams} {S : Type}.

(** osif_sleep: the ticks it waits; the result does not say whether a signal cut
    the wait short *)
Definition sleep_ticks (ms : Z) : Z := u32 (Z.quot (s32 (s32 (ms * HZ) + 999)) 1000).
Definition osif_sleep (ms : Z) : M S Z :=
  _ ← ask (KernelCall "wait_event_interruptible_timeout" [sleep_ticks ms]); mret 0.
Definition osif_usleep (us : Z) : M S Z := tell (Udelay us);; mret 0.

(** osif_timer_set: the delay in ticks *)
Definition timer_ticks (ms : Z) : Z :=
  if HZ =? 1000 then ms else u32 (u32 (ms * HZ) + 500) / 1000.
Definition osif_timer_set (timer ms : Z) : M S Z :=
  (if negb (ms =? 0) then
     now ← jiffies; tell (KernelCall "mod_timer" [timer; u64 (now + timer_ticks ms)])
   else tell (KernelCall "del_timer" [timer]));;
  mret 0.
(** osif_timer_get: the time in milliseconds, to *ms *)
Definition osif_timer_get : M S Z := now ← jiffies; mret (u32 (u64 (now * 1000) / HZ)).
(** osif_ticks *)
Definition osif_ticks : M S Z :=
  tv_sec ← ask (KernelCall "do_gettimeofday tv_sec" []);
  tv_usec ← ask (KernelCall "do_gettimeofday tv_usec" []);
  mret (u64 (u64 tv_sec * 1000000 + u64 tv_usec)).

(** Where the product fits the integer, a sleep is not shorter than asked for and
    less than a tick longer, and a timer is as near as ticks allow: half a tick. *)
Theorem sleep_rounds_up ms :
  0 < HZ -> 0 <= ms -> ms * HZ + 999 < 2 ^ 31 ->
  ms * HZ <= 1000 * sleep_ticks ms < ms * HZ + 1000.
Proof.
  intros HHZ Hms Hb. unfold sleep_ticks. assert (0 <= ms * HZ) by nia.
  rewrite (s32_small (ms * HZ)), s32_small, Z.quot_div_nonneg by lia.
  pose proof (Z.div_mod (ms * HZ + 999) 1000 ltac:(lia)).
  pose proof (Z.mod_pos_bound (ms * HZ + 999) 1000 ltac:(lia)).
  rewrite u32_small; lia.
Qed.

Theorem timer_rounds ms :
  0 < HZ -> 0 <= ms -> ms * HZ + 500 < 2 ^ 32 ->
  - 500 <= 1000 * timer_ticks ms - ms * HZ <= 500.
Proof.
  intros HHZ Hms Hb. unfold timer_ticks. destruct (Z.eqb_spec HZ 1000) as [->|_]; [lia |].
  assert (0 <= ms * HZ) by nia. rewrite (u32_small (ms * HZ)), u32_small by lia.
  pose proof (Z.div_mod (ms * HZ + 500) 1000 ltac:(lia)).
  pose proof (Z.mod_pos_bound (ms * HZ + 500) 1000 ltac:(lia)).
  lia.
Qed.

(** Beyond that the product wraps: with 250 ticks a second, a timer of some five
    hours expires at once. *)
Lemma timer_wraps : HZ = 250 -> timer_ticks 17179870 = 0.
Proof. intros HHZ. unfold timer_ticks. by rewrite HHZ. Qed.
End times.
End Times.

(** ** Serial numbers and debug output *)
Module Misc.
Section misc.
(** the kernel's simple_strtoul(s, NULL, 10) *)
Context (simple_strtoul : list Z -> Z).

(** osif_make_ntcan_serial: *pulSerial.  [s] is the text with its terminating zero;
    [None]: a read behind it. *)
Definition letter (c : Z) : bool := (65 <=? c) && (c <=? 80).
Definition osif_make_ntcan_serial (s : list Z) : option Z :=
  c0 ← s !! 0%nat;
  if letter c0 then
    c1 ← s !! 1%nat;
    if letter c1 then
      let lTemp := Z.lor (s32 (Z.shiftl (c0 - 65) 28)) (s32 (Z.shiftl (c1 - 65) 24)) in
      Some (Z.lor (u32 (simple_strtoul (drop 2 s))) (u32 lTemp))
    else Some 0
  else Some 0.

Lemma u32_s32 z : u32 (s32 z) = u32 z.
Proof.
  unfold u32, s32. rewrite Zminus_mod_idemp_l. f_equal. lia.
Qed.

Lemma u32_lor a b : u32 (Z.lor a b) = Z.lor (u32 a) (u32 b).
Proof. unfold u32. rewrite <- !Z.land_ones by lia. apply Z.land_lor_distr_l. Qed.

(** A serial number is two letters and a number: it keeps both letters and the
    number apart as long as the number has no more than 24 bits. *)
Theorem serial_fields (a b : Z) (rest : list Z) :
  0 <= a < 16 -> 0 <= b < 16 -> 0 <= simple_strtoul rest < 2 ^ 24 ->
  osif_make_ntcan_serial (65 + a :: 65 + b :: rest) =
    Some (a * 2 ^ 28 + b * 2 ^ 24 + simple_strtoul rest).
Proof.
  intros Ha Hb Hn. unfold osif_make_ntcan_serial. cbn [lookup list_lookup mbind option_bind drop].
  assert (letter (65 + a) = true /\ letter (65 + b) = true) as [-> ->] by (unfold letter; lia).
  replace (65 + a - 65) with a by lia. replace (65 + b - 65) with b by lia. cbv zeta.
  change (drop 0 rest) with rest.
  rewrite u32_lor, !u32_s32, (u32_small (simple_strtoul rest)) by lia.
  rewrite !u32_small by (rewrite Z.shiftl_mul_pow2; lia).
  replace (Z.lor (Z.shiftl a 28) (Z.shiftl b 24)) with (Z.shiftl (a * 16 + b) 24).
  - rewrite Z.lor_comm, lor_shiftl_add by lia. f_equal. lia.
  - replace 28 with (4 + 24) at 1 by lia. rewrite <- Z.shiftl_shiftl, <- Z.shiftl_lor by lia.
    f_equal. symmetry. apply (lor_shiftl_add b a 4); lia.
Qed.

(** osif_dprint of a driver built without ESDDBG: whether a message is printed *)
Definition osif_dprint_prints (verbose output_mask : Z) : bool :=
  let verbose_flags := Z.land verbose 0x000000FF in
  Z.land verbose_flags output_mask =? output_mask.

(** All bits of the mask have to be set, not one of them. *)
Lemma dprint_needs_all : osif_dprint_prints 0x01 0x03 = false /\ osif_dprint_prints 0x03 0x03 = true.
Proof. done. Qed.
End misc.
End Misc.

(** ** Witnesses *)
Module Witness.

Lemma div64_is_division_witness :
  Div64.osif_div64_32 (2 ^ 63 + 12345) 4000000007 =
    Div64.Quotient ((2 ^ 63 + 12345) / 4000000007) ((2 ^ 63 + 12345) mod 4000000007).
Proof. apply (Div64.div64_is_division (2 ^ 63 + 12345) 4000000007); lia. Defined.

End Witness.
