(* ===== verification/EsdCan.v ===== *)
(** * Handles of the esd driver (src/esd/src/esdcan_common.c, esdcan.h)

    An open file has a handle, the structure CAN_OCB; a CAN net a node.  The calls of
    user programs run under the mutex of the node and give frames to the nucleus, which
    answers by callbacks: within the calls of the driver, and while a call waits with the
    mutex given back.  The nucleus is shipped as a binary: its calls are answered by the
    environment, which also says which callbacks run meanwhile.  The calls that wait are
    stated in the pieces between the points where the mutex is free, so that [EsdHandle]
    can interleave the pieces of several processes; here they are put together with
    [others], what the rest of the system does while a process waits. *)
From Stdlib Require Import Ascii.
From stdpp Require Import gmap.
From S2P Require Import Prelude Kernel EsdApi OsifText Osif.

(** errno of Linux *)
Definition EINTR : Z := 4.
Definition ERESTARTSYS : Z := 512.

(** sizes of the structures of canio.h *)
Definition sizeof_CAN_MSG : Z := 16.
Definition sizeof_CAN_MSG_T : Z := 24.
Definition sizeof_CAN_MSG_X : Z := 80.

(** ** State (esdcan.h) *)

(** the receive and the transmit part of a handle; [rx_frames] is the memory at
    [rx_cmbuf], an array of CAN_MSG_T, and [rx_cmbuf_in] an index of it *)
Record RX := Mk_RX {
  rx_tout : Z; rx_result : Z; rx_state : Z; rx_cm_count : Z; rx_cm_size : Z;
  rx_cmbuf : Z; rx_frames : list (list Z); rx_cmbuf_in : Z; rx_user_buf : Z
}.
#[export] Instance RX_eta : Eta RX := fun r =>
  Mk_RX (rx_tout r) (rx_result r) (rx_state r) (rx_cm_count r) (rx_cm_size r)
    (rx_cmbuf r) (rx_frames r) (rx_cmbuf_in r) (rx_user_buf r).

Record TX := Mk_TX {
  tx_tout : Z; tx_result : Z; tx_state : Z; tx_cm_count : Z; tx_cm_size : Z; tx_user_buf : Z
}.
#[export] Instance TX_eta : Eta TX := fun r =>
  Mk_TX (tx_tout r) (tx_result r) (tx_state r) (tx_cm_count r) (tx_cm_size r) (tx_user_buf r).

Record CAN_OCB := Mk_OCB {
  rx : RX; tx : TX;
  minor : Z; mode : Z; filter_cmd : Z; filter20b_acr : Z; filter20b_amr : Z; close_state : Z
}.
#[export] Instance CAN_OCB_eta : Eta CAN_OCB := fun r =>
  Mk_OCB (rx r) (tx r) (minor r) (mode r) (filter_cmd r) (filter20b_acr r) (filter20b_amr r)
    (close_state r).

Record VERSION96 := Mk_VERSION96 { level : Z; revision : Z; build : Z }.

(** what the calls read of a card; the name is that of its CARD_IDENT *)
Record CAN_CARD := Mk_CAN_CARD {
  num_nodes : Z; version_firmware : VERSION96; version_firmware2 : VERSION96;
  version_hardware : VERSION96; card_name : list Z; serial : Z; board_status : Z
}.

Record CAN_NODE := Mk_CAN_NODE {
  features : Z; node_mode : Z; status : Z; crd : CAN_CARD; ctrl_type : Z
}.
#[export] Instance CAN_NODE_eta : Eta CAN_NODE := fun r =>
  Mk_CAN_NODE (features r) (node_mode r) (status r) (crd r) (ctrl_type r).

(** memory, the nodes of all cards by minor number, and an open file: its private_data,
    and the handle with its address from its allocation on *)
Record esd := Mk_esd {
  memory : Memory.heap; nodes : list (option CAN_NODE);
  private_data : Z; ocb : option (Z * CAN_OCB)
}.
#[export] Instance esd_eta : Eta esd := fun r =>
  Mk_esd (memory r) (nodes r) (private_data r) (ocb r).

Section esdcan.
Context `{Env}.

(** ** Access *)

Definition the_ocb : M esd CAN_OCB :=
  e ← get; of_option Dangling (snd <$> ocb e).
Definition upd_ocb (f : CAN_OCB -> CAN_OCB) : M esd unit :=
  o ← the_ocb; modify (fun e => e <| ocb ::= fmap (fun x => (x.1, f o)) |>).
Definition upd_rx (f : RX -> RX) : M esd unit := upd_ocb (fun o => o <| rx ::= f |>).
Definition upd_tx (f : TX -> TX) : M esd unit := upd_ocb (fun o => o <| tx ::= f |>).
(** ocb->node *)
Definition the_node : M esd CAN_NODE :=
  o ← the_ocb; e ← get; of_option Dangling (mjoin (zlookup (nodes e) (minor o))).
Definition upd_node (f : CAN_NODE -> CAN_NODE) : M esd unit :=
  o ← the_ocb; n ← the_node;
  modify (fun e => e <| nodes ::= <[Z.to_nat (minor o) := Some (f n)]> |>).
Definition on_heap {A} (m : M Memory.heap A) : M esd A :=
  zoom memory (fun h e => e <| memory := h |>) m.

Definition node_lock : M esd unit := o ← the_ocb; spin_lock (L_esd_node (minor o)).
Definition node_unlock : M esd unit := o ← the_ocb; spin_unlock (L_esd_node (minor o)).

(** the wait queues of a handle and its node.  wake_up_interruptible is [wake_up] too: it
    is called on wqRx and wqTx only while no abort is in progress, when whoever sleeps there
    sleeps interruptibly, and on wqRxNotify, where poll sleeps *)
Definition wqRx : Z := 0.
Definition wqTx : Z := 1.
Definition wqCloseDelay : Z := 2.
Definition wqRxNotify : Z := 3.
Definition wake_up (q : Z) : M esd unit := tell (KernelCall "wake_up" [q]).

(** user memory in bytes *)
Definition put_bytes (dst : Z) (data : list Z) : M esd bool :=
  copy_to_user dst (Z.of_nat (length data)) data.
Definition word_bytes (v : Z) : list Z := [byte_of v 0; byte_of v 1; byte_of v 2; byte_of v 3].
Definition bytes_word (l : list Z) (off : nat) : Z :=
  foldr (fun b acc => Z.lor b (Z.shiftl acc 8)) 0 (take 4 (drop off l)).
Definition get_user (src : Z) : M esd (option Z) :=
  l ← copy_from_user src 1; mret (l ≫= head).
Definition put_user (v dst : Z) : M esd bool := put_bytes dst (word_bytes v).

(** [src] copied to the start of [dst], as memcpy does *)
Definition overwrite (src dst : list Z) : list Z := src ++ drop (length src) dst.
(** ... to offset [off] *)
Definition overwrite_at (off : nat) (src dst : list Z) : list Z :=
  take off dst ++ overwrite src (drop off dst).
(** [n] bytes of memory at [off]; [None]: beyond its end *)
Definition memory_at (m : list Z) (off n : Z) : option (list Z) :=
  if (0 <=? off) && (off + n <=? Z.of_nat (length m))
  then Some (take (Z.to_nat n) (drop (Z.to_nat off) m)) else None.

(** ** Callbacks of the nucleus *)

Definition esdcan_close_done : M esd Z :=
  upd_ocb (fun o => o <| close_state ::= fun s => Z.lor s CLOSE_STATE_CLOSE_DONE |>);;
  wake_up wqCloseDelay;;
  mret OSIF_SUCCESS.

Definition esdcan_tx_done (result cm_count : Z) : M esd Z :=
  upd_tx (fun t => t <| tx_result := result |>);;
  o ← the_ocb;
  let state := tx_state (tx o) in
  (if tst state TX_STATE_PENDING_SEND then
     upd_tx (fun t => t <| tx_cm_count := 0 |> <| tx_state := 0 |>)
   else if tst state TX_STATE_SIGNAL_INTERRUPT then
     upd_tx (fun t => t <| tx_cm_count := s32 cm_count |>
                        <| tx_state ::= fun s => Z.land s (Z.lnot TX_STATE_SIGNAL_INTERRUPT) |>);;
     wake_up wqTx
   else if tst state TX_STATE_PENDING_WRITE then
     upd_tx (fun t => t <| tx_cm_count := s32 cm_count |>);;
     when (cm_count =? 0)
       (upd_tx (fun t => t <| tx_state ::= fun s => Z.lor s TX_STATE_ABORT |>));;
     wake_up wqTx
   else mret tt);;
  mret OSIF_SUCCESS.

(** the next frame of the user, to [cm] of the nucleus: id to data, timestamp *)
Definition esdcan_tx_get (cm : list Z) : M esd (Z * list Z) :=
  o ← the_ocb;
  let size := tx_cm_size (tx o) in
  let buf := tx_user_buf (tx o) in
  if size =? sizeof_CAN_MSG_X then
    tmp ← copy_bytes_from_user buf (Z.to_nat sizeof_CAN_MSG_X);
    match tmp with
    | None => mret (OSIF_EFAULT, cm)
    | Some tmp =>
        let cm := overwrite_at 16 (drop 72 tmp) (overwrite (take 16 tmp) cm) in
        upd_tx (fun t => t <| tx_user_buf := buf + size |>);;
        mret (OSIF_SUCCESS, cm)
    end
  else
    data ← copy_bytes_from_user buf (Z.to_nat size);
    match data with
    | None => mret (OSIF_EFAULT, cm)
    | Some data =>
        let cm := overwrite data cm in
        let cm := if size =? sizeof_CAN_MSG then overwrite_at 16 (replicate 8 0) cm else cm in
        upd_tx (fun t => t <| tx_user_buf := buf + size |>);;
        mret (OSIF_SUCCESS, cm)
    end.

(** esdcan_tx_obj_get and esdcan_tx_obj_sched_get: [n] bytes of the user *)
Definition tx_obj_get (n : Z) (cm : list Z) : M esd (Z * list Z) :=
  o ← the_ocb;
  let buf := tx_user_buf (tx o) in
  data ← copy_bytes_from_user buf (Z.to_nat n);
  match data with
  | None => mret (OSIF_EFAULT, cm)
  | Some data =>
      upd_tx (fun t => t <| tx_user_buf := buf + n |>);;
      mret (OSIF_SUCCESS, overwrite data cm)
  end.
Definition sizeof_CMSCHED : Z := 32.
Definition esdcan_tx_obj_get (cm : list Z) : M esd (Z * list Z) := tx_obj_get sizeof_CAN_MSG cm.
Definition esdcan_tx_obj_sched_get (sched : list Z) : M esd (Z * list Z) :=
  tx_obj_get sizeof_CMSCHED sched.

Definition esdcan_rx_done (result cm_count : Z) : M esd Z :=
  upd_rx (fun r => r <| rx_result := result |> <| rx_cm_count := s32 cm_count |>);;
  o ← the_ocb;
  let state := rx_state (rx o) in
  (if tst state RX_STATE_PENDING_TAKE then
     upd_rx (fun r => r <| rx_state := 0 |>)
   else if tst state RX_STATE_SIGNAL_INTERRUPT then
     upd_rx (fun r => r <| rx_state ::= fun s => Z.land s (Z.lnot RX_STATE_SIGNAL_INTERRUPT) |>);;
     wake_up wqRx
   else if tst state RX_STATE_PENDING_READ then
     when (rx_cm_count (rx o) =? 0)
       (upd_rx (fun r => r <| rx_state ::= fun s => Z.lor s RX_STATE_ABORT |>));;
     wake_up wqRx
   else mret tt);;
  mret OSIF_SUCCESS.

(** OSIF_MEMCPY(ocb->rx.cmbuf_in++, cm, sizeof( *ocb->rx.cmbuf_in)) *)
Definition store_frame (cm : list Z) : M esd unit :=
  o ← the_ocb;
  let i := rx_cmbuf_in (rx o) in
  frames ← of_option (Index i) (zinsert i (take (Z.to_nat sizeof_CAN_MSG_T) cm) (rx_frames (rx o)));
  upd_rx (fun r => r <| rx_frames := frames |> <| rx_cmbuf_in := i + 1 |>).

Definition esdcan_rx_put (cm : list Z) : M esd Z := store_frame cm;; mret OSIF_SUCCESS.

(** the result, and *next_id where the nucleus asks for it *)
Definition esdcan_rx_obj_put (cm : list Z) (next_id : bool) : M esd (Z * option Z) :=
  store_frame cm;;
  upd_rx (fun r => r <| rx_user_buf := rx_user_buf r + rx_cm_size r |>);;
  if next_id then
    o ← the_ocb;
    id ← get_user (rx_user_buf (rx o));
    match id with
    | None => mret (OSIF_EFAULT, None)
    | Some id => mret (OSIF_SUCCESS, Some id)
    end
  else mret (OSIF_SUCCESS, None).

Definition esdcan_rx_notify : M esd Z := wake_up wqRxNotify;; mret OSIF_SUCCESS.

(** esdcan_callbacks; esdcan_ioctl_done concerns a variable of its caller, see
    [my_nuc_ioctl] *)
Inductive callback :=
| close_done
| tx_done (result cm_count : Z)
| tx_get (cm : list Z)
| tx_obj_get_cb (cm : list Z)
| tx_obj_sched_get (sched : list Z)
| rx_done (result cm_count : Z)
| rx_put (cm : list Z)
| rx_obj_put (cm : list Z) (next_id : bool)
| rx_notify.

(** what a callback hands to the nucleus *)
Definition give (m : M esd (Z * list Z)) : M esd unit :=
  '(r, cm) ← m; tell (KernelCall "nucleus takes" (r :: cm)).
Definition run_callback (c : callback) : M esd unit :=
  match c with
  | close_done => esdcan_close_done;; mret tt
  | tx_done result cm_count => esdcan_tx_done result cm_count;; mret tt
  | tx_get cm => give (esdcan_tx_get cm)
  | tx_obj_get_cb cm => give (esdcan_tx_obj_get cm)
  | tx_obj_sched_get sched => give (esdcan_tx_obj_sched_get sched)
  | rx_done result cm_count => esdcan_rx_done result cm_count;; mret tt
  | rx_put cm => esdcan_rx_put cm;; mret tt
  | rx_obj_put cm next_id =>
      give ('(r, id) ← esdcan_rx_obj_put cm next_id; mret (r, option_list id))
  | rx_notify => esdcan_rx_notify;; mret tt
  end.

(** a callback of the nucleus's choice *)
Fixpoint ask_bytes (n : nat) : M esd (list Z) :=
  match n with
  | O => mret []
  | Datatypes.S n' => x ← ask (KernelCall "byte of the nucleus" []);
                      l ← ask_bytes n'; mret (u8 x :: l)
  end.
Definition next_callback : M esd callback :=
  kind ← ask (KernelCall "callback" []);
  result ← ask (KernelCall "result of callback" []);
  cm_count ← ask (KernelCall "cm_count of callback" []);
  cm ← ask_bytes 24;
  mret (if kind =? 0 then close_done
        else if kind =? 1 then tx_done (s32 result) (u32 cm_count)
        else if kind =? 2 then tx_get cm
        else if kind =? 3 then tx_obj_get_cb cm
        else if kind =? 4 then tx_obj_sched_get cm
        else if kind =? 5 then rx_done (s32 result) (u32 cm_count)
        else if kind =? 6 then rx_put cm
        else if kind =? 7 then rx_obj_put cm (negb (result =? 0))
        else rx_notify).
Definition callbacks : M esd unit :=
  n ← ask (KernelCall "callbacks" []);
  for_ (Z.to_nat n) 0 (fun _ => c ← next_callback; run_callback c).

(** a call of the nucleus, and one with a count that is passed by reference *)
Definition nuc (name : string) (args : list Z) : M esd Z :=
  r ← ask (KernelCall name args); callbacks;; mret (s32 r).
Definition nuc_count (name : string) (args : list Z) : M esd (Z * Z) :=
  r ← ask (KernelCall name args); callbacks;;
  count ← ask (KernelCall "count" []);
  mret (s32 r, u32 count).

(** ** Calls that wait *)

(** CAN_ACTION_CHECK: the error that blocks access to a card *)
Definition action_check : M esd (option Z) :=
  n ← the_node;
  mret (if tst (status n) (Z.lor CANIO_STATUS_WRONG_HARDWARE CANIO_STATUS_WRONG_FIRMWARE) then
          Some (if tst (status n) CANIO_STATUS_WRONG_HARDWARE then OSIF_INVALID_HARDWARE
                else OSIF_INVALID_FIRMWARE)
        else None).

(** *** esdcan_read_common *)

(** up to the wait: [Some r] when it returns before *)
Definition read_begin (buf cm_count objSize : Z) : M esd (option Z) :=
  blocked ← action_check;
  match blocked with
  | Some result => mret (Some (- result))
  | None =>
      o ← the_ocb;
      if negb (rx_state (rx o) =? 0) then mret (Some (- OSIF_PENDING_READ))
      else
        upd_rx (fun r => r <| rx_state := RX_STATE_PENDING_READ |> <| rx_result := 0 |>
                           <| rx_user_buf := buf |> <| rx_cm_size := objSize |>
                           <| rx_cmbuf_in := 0 |> <| rx_cm_count := 0 |>);;
        o ← the_ocb;
        '(ret, _) ← nuc_count "nuc_rx" [rx_tout (rx o); cm_count];
        if negb (ret =? OSIF_SUCCESS) then
          upd_rx (fun r => r <| rx_state := 0 |>);; mret (Some (- ret))
        else mret None
  end.

(** what it waits for *)
Definition read_ready (o : CAN_OCB) : bool :=
  (0 <? rx_cm_count (rx o)) || tst (rx_state (rx o)) RX_STATE_ABORT
  || tst (rx_state (rx o)) RX_STATE_CLOSING.

(** interrupted by a signal: whether it has to wait for the end of the abort *)
Definition read_interrupted : M esd bool :=
  node_lock;;
  o ← the_ocb;
  if (rx_cm_count (rx o) =? 0) && negb (tst (rx_state (rx o)) RX_STATE_ABORT)
     && negb (tst (rx_state (rx o)) RX_STATE_CLOSING) then
    upd_rx (fun r => r <| rx_state ::= fun s => Z.lor s RX_STATE_SIGNAL_INTERRUPT |>);;
    nuc "nuc_rx_abort" [OSIF_OPERATION_ABORTED];;
    node_unlock;;
    mret true
  else node_unlock;; mret false.
Definition read_aborted (o : CAN_OCB) : bool :=
  negb (tst (rx_state (rx o)) RX_STATE_SIGNAL_INTERRUPT).

(** the frames to the user, [n] of them from [i] on; false on a fault *)
Fixpoint frames_to_user (bytes : Z -> CAN_OCB -> option (list Z)) (dest i : Z) (n : nat)
  : M esd bool :=
  match n with
  | O => mret true
  | Datatypes.S n' =>
      o ← the_ocb;
      data ← of_option (Index i) (bytes i o);
      ok ← copy_to_user dest (rx_cm_size (rx o)) data;
      if negb ok then mret false
      else frames_to_user bytes (dest + rx_cm_size (rx o)) (i + 1) n'
  end.

(** CAN_MSG_T in the format of the user *)
Definition frame_x (src : list Z) : list Z :=
  take 16 src ++ replicate 56 0 ++ take 8 (drop 16 src).
Definition read_bytes (i : Z) (o : CAN_OCB) : option (list Z) :=
  let mem := concat (rx_frames (rx o)) in
  if rx_cm_size (rx o) =? sizeof_CAN_MSG_X then
    frame_x <$> memory_at mem (sizeof_CAN_MSG_T * i) sizeof_CAN_MSG_T
  else memory_at mem (sizeof_CAN_MSG_T * i) (rx_cm_size (rx o)).

(** from its last lock on, which it keeps *)
Definition read_end (buf : Z) (flagInterruptedBySignal : bool) : M esd Z :=
  node_lock;;
  o ← the_ocb;
  let ret := rx_cm_count (rx o) in
  let flagOcbClosing := tst (rx_state (rx o)) RX_STATE_CLOSING in
  upd_rx (fun r => r <| rx_cm_count := 0 |> <| rx_state := 0 |>);;
  if ret =? 0 then
    if flagOcbClosing then wake_up wqCloseDelay;; mret (- EINTR)
    else if flagInterruptedBySignal then mret (- ERESTARTSYS)
    else mret (- rx_result (rx o))
  else
    when flagOcbClosing (wake_up wqCloseDelay);;
    ok ← frames_to_user read_bytes buf 0 (Z.to_nat ret);
    mret (if (ok : bool) then ret else - OSIF_EFAULT).

(** *** esdcan_write_common *)

(** up to the wait: what it returns before, or old_job_tx_pending *)
Definition write_begin (buf cm_count objSize : Z) : M esd (Z + Z) :=
  if cm_count =? 0 then mret (inl (- OSIF_INVALID_PARAMETER))
  else
    blocked ← action_check;
    match blocked with
    | Some result => mret (inl (- result))
    | None =>
        o ← the_ocb;
        before ←
          (if tst (tx_state (tx o)) (Z.lor TX_STATE_PENDING_WRITE TX_STATE_ABORT)
           then mret (inl (- OSIF_PENDING_WRITE))
           else if tst (tx_state (tx o)) TX_STATE_PENDING_SEND then
             '(r, dtx) ← nuc_count "nuc_deferred_tx_messages" [];
             if negb (r =? OSIF_SUCCESS) then mret (inl (- ERESTARTSYS))
             else if negb (dtx =? 0) then mret (inl (- OSIF_PENDING_WRITE))
             else
               '(r, old) ← nuc_count "nuc_tx_messages" [];
               if negb (r =? OSIF_SUCCESS) then mret (inl (- ERESTARTSYS))
               else mret (inr (s32 old))
           else mret (inr 0) : M esd (Z + Z));
        match before with
        | inl r => mret (inl r)
        | inr old_job_tx_pending =>
            upd_tx (fun t => t <| tx_user_buf := buf |> <| tx_cm_size := objSize |>);;
            o ← the_ocb;
            let old_state := tx_state (tx o) in
            upd_tx (fun t => t <| tx_state := TX_STATE_PENDING_WRITE |>);;
            '(result, cm_count) ← nuc_count "nuc_tx" [tx_tout (tx o); cm_count];
            if negb (result =? OSIF_SUCCESS) && (cm_count =? 0) then
              upd_tx (fun t => t <| tx_state := old_state |>);; mret (inl (- result))
            else mret (inr old_job_tx_pending)
        end
    end.

Definition write_ready (old_job_tx_pending : Z) (o : CAN_OCB) : bool :=
  (0 <? s32 (tx_cm_count (tx o) - old_job_tx_pending))
  || tst (tx_state (tx o)) TX_STATE_ABORT || tst (tx_state (tx o)) TX_STATE_CLOSING.

Definition write_interrupted (old_job_tx_pending : Z) : M esd bool :=
  node_lock;;
  o ← the_ocb;
  if (s32 (tx_cm_count (tx o) - old_job_tx_pending) =? 0)
     && negb (tst (tx_state (tx o)) TX_STATE_ABORT)
     && negb (tst (tx_state (tx o)) TX_STATE_CLOSING) then
    upd_tx (fun t => t <| tx_state ::= fun s => Z.lor s TX_STATE_SIGNAL_INTERRUPT |>);;
    nuc "nuc_tx_abort" [OSIF_OPERATION_ABORTED; 0];;
    node_unlock;;
    mret true
  else node_unlock;; mret false.
Definition write_aborted (o : CAN_OCB) : bool :=
  negb (tst (tx_state (tx o)) TX_STATE_SIGNAL_INTERRUPT).

Definition write_end (old_job_tx_pending : Z) (flagInterruptedBySignal : bool) : M esd Z :=
  node_lock;;
  o ← the_ocb;
  let tx_len := s32 (tx_cm_count (tx o) - old_job_tx_pending) in
  let flagOcbClosing := tst (tx_state (tx o)) TX_STATE_CLOSING in
  upd_tx (fun t => t <| tx_cm_count := 0 |> <| tx_state := 0 |>);;
  if tx_len <=? 0 then
    if flagOcbClosing then wake_up wqCloseDelay;; mret (- EINTR)
    else if flagInterruptedBySignal then mret (- ERESTARTSYS)
    else mret (- tx_result (tx o))
  else when flagOcbClosing (wake_up wqCloseDelay);; mret tx_len.

(** *** ocb_destroy *)

(** up to the wait: the result of nuc_close *)
Definition destroy_begin : M esd Z :=
  upd_ocb (fun o => o <| close_state ::= fun s => Z.lor s CLOSE_STATE_HANDLE_CLOSED |>);;
  upd_rx (fun r => if rx_state r =? 0 then r
                   else r <| rx_state ::= fun s => Z.lor s RX_STATE_CLOSING |>);;
  upd_tx (fun t => if tx_state t =? 0 then t
                   else t <| tx_state ::= fun s => Z.lor s TX_STATE_CLOSING |>);;
  result ← nuc "nuc_close" [];
  node_unlock;;
  mret result.
Definition destroy_ready (o : CAN_OCB) : bool :=
  tst (close_state o) CLOSE_STATE_CLOSE_DONE
  && negb (tst (tx_state (tx o)) TX_STATE_CLOSING)
  && negb (tst (rx_state (rx o)) RX_STATE_CLOSING).

(** ** The calls as a whole *)
Section calls.
(** what the other processes and the nucleus do while the mutex is free *)
Context (others : M esd unit) (fuel : nat).

(** wait_event, and wait_event_interruptible, which says whether a signal came *)
Fixpoint wait_for (fuel : nat) (interruptible : bool) (cond : CAN_OCB -> bool) : M esd bool :=
  o ← the_ocb;
  if cond o then mret false
  else
    signal ← (if interruptible then ask (KernelCall "signal_pending" []) else mret 0);
    if negb (signal =? 0) then mret true
    else match fuel with
         | O => no_fuel
         | Datatypes.S n => others;; wait_for n interruptible cond
         end.
Definition wait_event (cond : CAN_OCB -> bool) : M esd unit :=
  wait_for fuel false cond;; mret tt.

(** with the mutex held, which they keep *)
Definition esdcan_read_common (buf cm_count objSize : Z) : M esd Z :=
  r ← read_begin buf cm_count objSize;
  match r with
  | Some r => mret r
  | None =>
      node_unlock;;
      signal ← wait_for fuel true read_ready;
      flag ← (if (signal : bool) then read_interrupted else mret false);
      when flag (wait_event read_aborted);;
      read_end buf flag
  end.

Definition esdcan_write_common (buf cm_count objSize : Z) : M esd Z :=
  r ← write_begin buf cm_count objSize;
  match r with
  | inl r => mret r
  | inr old_job_tx_pending =>
      node_unlock;;
      signal ← wait_for fuel true (write_ready old_job_tx_pending);
      flag ← (if (signal : bool) then write_interrupted old_job_tx_pending else mret false);
      when flag (wait_event write_aborted);;
      write_end old_job_tx_pending flag
  end.

Definition ocb_destroy : M esd Z :=
  result ← destroy_begin;
  wait_event destroy_ready;;
  node_lock;;
  mret result.

(** ** Commands (esdcan_ioctl_internal): the result, and what ioArg->size becomes *)

Definition id_filter (cmd id_start count : Z) : M esd (Z * Z) :=
  o ← the_ocb;
  if tst id_start CANIO_ID_20B_BASE then
    '(result, _) ← nuc_count "nuc_id_filter" [cmd; CANIO_ID_20B_BASE; CANIO_IDS_20B];
    if result =? OSIF_SUCCESS then
      nuc "nuc_id_filter_mask" [id_start; filter20b_amr o; CANIO_IDS_REGION_20B];;
      upd_ocb (fun o => o <| filter20b_acr := id_start |>);;
      mret (result, count)
    else mret (result, 0)
  else
    loop fuel (fun '(count_to_do, count_done) =>
      '(result, done) ← nuc_count "nuc_id_filter" [cmd; u32 (id_start + count_done); count_to_do];
      let count_done := u32 (count_done + done) in
      let count_to_do := u32 (count - count_done) in
      when (result =? OSIF_EAGAIN) (node_unlock;; others;; node_lock);;
      mret (if (result =? OSIF_EAGAIN) && (count_done <? count)
            then inl (count_to_do, count_done) else inr (result, count_done)))
    (count, 0).

(** the output, [out] bytes of it, and its length *)
Definition my_nuc_ioctl (cmd : Z) (buf_in : list Z) (out : nat) : M esd (Z * list Z * Z) :=
  status ← nuc "nuc_ioctl" (cmd :: Z.of_nat (length buf_in) :: buf_in);
  status ← (if status =? OSIF_EBUSY then
              node_unlock;; others;; node_lock;;
              s ← ask (KernelCall "status of ioctl_done" []); mret (s32 s)
            else mret status);
  data ← ask_bytes out;
  len ← ask (KernelCall "len_out" []);
  mret (status, data, u32 len).

Definition when_allowed (m : M esd Z) : M esd Z :=
  blocked ← action_check;
  match blocked with Some result => mret result | None => m end.

Definition ioctl_send (buffer size objSize : Z) : M esd (Z * Z) :=
  blocked ← action_check;
  match blocked with
  | Some result => mret (result, size)
  | None =>
      o ← the_ocb;
      if tst (tx_state (tx o)) TX_STATE_PENDING_WRITE then mret (OSIF_PENDING_WRITE, size)
      else
        upd_tx (fun t => t <| tx_user_buf := buffer |> <| tx_cm_size := objSize |>);;
        let old_state := tx_state (tx o) in
        upd_tx (fun t => t <| tx_state := TX_STATE_PENDING_SEND |>);;
        '(result, cm_count) ← nuc_count "nuc_tx" [0; size];
        if negb (result =? OSIF_SUCCESS) && (cm_count =? 0) then
          upd_tx (fun t => t <| tx_state := old_state |>);; mret (result, size)
        else mret (OSIF_SUCCESS, cm_count)
  end.

Definition take_bytes (i : Z) (o : CAN_OCB) : option (list Z) :=
  memory_at (concat (rx_frames (rx o))) (sizeof_CAN_MSG_T * i) (rx_cm_size (rx o)).
(** the frames there are now: the result of the nucleus *)
Definition take_frames (buffer cm_count : Z) : M esd Z :=
  o ← the_ocb;
  if tst (mode o) CANIO_MODE_OBJECT then
    id ← get_user buffer;
    match id with
    | None => mret OSIF_EFAULT
    | Some id =>
        '(result, cm_count) ← nuc_count "nuc_rx_obj" [cm_count; id];
        when (result =? OSIF_SUCCESS) (upd_rx (fun r => r <| rx_cm_count := s32 cm_count |>));;
        mret result
    end
  else
    '(result, _) ← nuc_count "nuc_rx" [0; cm_count];
    mret result.
Definition ioctl_take (buffer size objSize : Z) : M esd (Z * Z) :=
  let leave result := upd_rx (fun r => r <| rx_state := 0 |>);; mret (result, 0) in
  blocked ← action_check;
  match blocked with
  | Some result => mret (result, size)
  | None =>
      o ← the_ocb;
      if negb (rx_state (rx o) =? 0) then mret (OSIF_PENDING_READ, size)
      else
        upd_rx (fun r => r <| rx_state := RX_STATE_PENDING_TAKE |> <| rx_user_buf := buffer |>
                           <| rx_cm_size := objSize |> <| rx_cmbuf_in := 0 |> <| rx_cm_count := 0 |>);;
        result ← take_frames buffer (Z.land size (CANIO_MAX_RX_QUEUESIZE - 1));
        if negb (result =? OSIF_SUCCESS) then leave result
        else
          o ← the_ocb;
          when (rx_cm_count (rx o) =? 0) (nuc "nuc_rx_abort" [OSIF_SUCCESS];; mret tt);;
          o ← the_ocb;
          if rx_cm_count (rx o) =? 0 then leave (rx_result (rx o))
          else
            ok ← frames_to_user take_bytes buffer 0 (Z.to_nat (rx_cm_count (rx o)));
            o ← the_ocb;
            upd_rx (fun r => r <| rx_state := 0 |> <| rx_cm_count := 0 |>);;
            mret (if (ok : bool) then OSIF_SUCCESS else OSIF_EFAULT, u32 (rx_cm_count (rx o)))
  end.

(** IOCTL_ESDCAN_READ_00 and IOCTL_ESDCAN_WRITE_00 *)
Definition count_or_error (size : Z) (m : M esd Z) : M esd (Z * Z) :=
  result ← m;
  mret (if result <? 0 then (- result, size) else (OSIF_SUCCESS, result)).

Definition ioctl_tx_obj (cmd buffer : Z) : M esd Z :=
  when_allowed (
    upd_tx (fun t => t <| tx_user_buf := buffer |> <| tx_cm_size := sizeof_CAN_MSG |>);;
    '(result, _) ← nuc_count "nuc_tx_obj" [cmd; 1];
    mret result).

(** two words of the user: CAN_ID_RANGE_ARG, CAN_ID_REGION_ARG, CAN_TIMEOUT_ARG *)
Definition two_words (buffer : Z) (m : Z -> Z -> M esd Z) : M esd Z :=
  l ← copy_from_user buffer 2;
  match l with
  | Some [a; b] => m a b
  | _ => mret OSIF_EFAULT
  end.
Definition ioctl_id_range (onoff buffer : Z) : M esd Z :=
  when_allowed (two_words buffer (fun id_start id_stop =>
    o ← the_ocb;
    let count := u32 (id_stop - id_start + 1) in
    '(result, count) ← id_filter (Z.lor onoff (filter_cmd o)) id_start count;
    if (onoff =? FILTER_ON) && negb (result =? OSIF_SUCCESS) then
      id_filter (Z.lor FILTER_OFF (filter_cmd o)) id_start count;; mret result
    else mret result)).
Definition ioctl_id_region (onoff buffer : Z) : M esd Z :=
  when_allowed (two_words buffer (fun id1st cnt =>
    o ← the_ocb;
    '(result, cnt) ← nuc_count "nuc_id_filter" [Z.lor onoff (filter_cmd o); id1st; cnt];
    let result := if negb (cnt =? 0) then OSIF_SUCCESS else result in
    ok ← put_bytes buffer (word_bytes id1st ++ word_bytes cnt);
    mret (if (ok : bool) then result else OSIF_EFAULT))).

Definition ioctl_set_timeout (buffer : Z) : M esd Z :=
  two_words buffer (fun txtout rxtout =>
    if (CANIO_MAX_RX_TIMEOUT <? rxtout) || (CANIO_MAX_TX_TIMEOUT <? txtout)
    then mret OSIF_INVALID_PARAMETER
    else
      upd_rx (fun r => r <| rx_tout := rxtout |>);;
      upd_tx (fun t => t <| tx_tout := txtout |>);;
      mret OSIF_SUCCESS).

(** a value to the user *)
Definition ioctl_put (buffer : Z) (value : M esd (Z * Z)) : M esd Z :=
  when_allowed (
    '(result, v) ← value;
    ok ← put_user v buffer;
    mret (if (ok : bool) then result else OSIF_EFAULT)).

(** commands that are a call of my_nuc_ioctl: with [n] bytes from the user when [input],
    and [n] bytes back when [output] *)
Definition nuc_ioctl_user (cmd buffer : Z) (n : nat) (input output : bool) : M esd Z :=
  when_allowed (
    arg ← (if input then copy_bytes_from_user buffer n else mret (Some []));
    match arg with
    | None => mret OSIF_EFAULT
    | Some arg =>
        '(result, data, len) ← my_nuc_ioctl cmd arg (if output then n else O);
        if negb (result =? OSIF_SUCCESS) || negb output then mret result
        else
          ok ← put_bytes buffer data;
          mret (if (ok : bool) then result else OSIF_EFAULT)
    end).
(** IOCTL_CMD, IOCTL_32_R, IOCTL_32_W *)
Definition ioctl_cmd (cmd : Z) : M esd Z := nuc_ioctl_user cmd 0 0 false false.
Definition ioctl_32_r (cmd buffer : Z) : M esd Z :=
  when_allowed (
    '(result, value, buflen) ← my_nuc_ioctl cmd [] 4;
    if negb (result =? OSIF_SUCCESS) || negb (buflen =? 4) then mret result
    else
      ok ← put_bytes buffer value;
      mret (if (ok : bool) then result else OSIF_EFAULT)).
Definition ioctl_32_w (cmd buffer : Z) : M esd Z := nuc_ioctl_user cmd buffer 4 true false.
(** IOCTL_ESDCAN_SER_REG_COMMON: as many bytes back as the nucleus says *)
Definition ioctl_ser_reg (cmd buffer : Z) : M esd Z :=
  when_allowed (
    arg ← copy_bytes_from_user buffer 8;
    match arg with
    | None => mret OSIF_EFAULT
    | Some arg =>
        '(result, data, buflen) ← my_nuc_ioctl cmd arg 8;
        if negb (result =? OSIF_SUCCESS) then mret result
        else
          data ← of_option (Index buflen) (memory_at data 0 buflen);
          ok ← put_bytes buffer data;
          mret (if (ok : bool) then result else OSIF_EFAULT)
    end).

(** snprintf of a text into [n] bytes that hold [old] *)
Definition snprintf (n : nat) (text old : list Z) : list Z :=
  overwrite (take (n - 1) text ++ [0]) old.
Definition version16 (v : VERSION96) : Z := MAKE_VERSION (level v) (revision v) (build v).
Definition half_bytes (v : Z) : list Z := [byte_of v 0; byte_of v 1].
(** the version of the driver, from its Makefile *)
Definition driver_version : Z := MAKE_VERSION 3 10 4.

(** CAN_DEBUG_ARG: password, cmd, and 32 bytes; those of CAN_DEBUG_VER *)
Definition debug_ver (n : CAN_NODE) (old : list Z) : list Z :=
  half_bytes driver_version ++ half_bytes (version16 (version_firmware (crd n)))
  ++ half_bytes (version16 (version_hardware (crd n))) ++ half_bytes (board_status (crd n))
  ++ snprintf 14 (card_name (crd n)) (take 14 (drop 16 old))
  ++ half_bytes (u16 (Z.land (features n) FEATURE_MASK_DOCUMENTED))
  ++ [u8 (ctrl_type n)] ++ replicate 5 0.
Definition ioctl_debug (buffer : Z) : M esd Z :=
  arg ← copy_bytes_from_user buffer 40;
  match arg with
  | None => mret OSIF_EFAULT
  | Some arg =>
      '(result, arg) ←
        (if bytes_word arg 4 =? CAN_DEBUG_VER then
           n ← the_node; mret (OSIF_SUCCESS, overwrite_at 8 (debug_ver n arg) arg)
         else
           '(result, data, _) ← my_nuc_ioctl ESDCAN_CTL_DEBUG arg 40; mret (result, data));
      ok ← put_bytes buffer arg;
      mret (if (ok : bool) then result else OSIF_EFAULT)
  end.

(** the serial number as text: two letters and six digits *)
Definition serial_text (serial : Z) : list Z :=
  if negb (serial =? 0) then
    match vsn_text (codes "%c%c%06ld")
            [AInt (code "A"%char + Z.land (Z.shiftr serial 28) 0x0F);
             AInt (code "A"%char + Z.land (Z.shiftr serial 24) 0x0F);
             AInt (Z.land serial 0x00FFFFFF)] with
    | inr t => chars t
    | inl _ => []
    end
  else codes "N/A".
(** CAN_INFO, 256 bytes: what the driver adds to the answer of the nucleus *)
Definition add_info (n : CAN_NODE) (info : list Z) : list Z :=
  let c := crd n in
  let info := overwrite_at 30 [u8 (num_nodes c)] info in
  let info := overwrite_at 32 (half_bytes (board_status c)) info in
  let info := overwrite_at 4 (half_bytes driver_version) info in
  let info := overwrite_at 2 (half_bytes (version16 (version_firmware c))) info in
  let info := overwrite_at 34 (half_bytes (version16 (version_firmware2 c))) info in
  let info := overwrite_at 0 (half_bytes (version16 (version_hardware c))) info in
  let info := overwrite_at 12 (word_bytes (serial c)) info in
  let serial_string := take 16 (drop 68 info) in
  let info :=
    if default 0 (head serial_string) =? 0
    then overwrite_at 68 (snprintf 16 (serial_text (serial c)) serial_string) info else info in
  overwrite_at 36 (snprintf 32 (card_name c) (take 32 (drop 36 info))) info.
Definition ioctl_get_info (buffer : Z) : M esd Z :=
  arg ← copy_bytes_from_user buffer 256;
  match arg with
  | None => mret OSIF_EFAULT
  | Some info =>
      '(result, info, _) ← my_nuc_ioctl ESDCAN_CTL_CAN_INFO info 256;
      n ← the_node;
      ok ← put_bytes buffer (add_info n info);
      mret (if (ok : bool) then result else OSIF_EFAULT)
  end.

Definition ioctl_20b_filter (buffer : Z) : M esd Z :=
  when_allowed (
    amr ← get_user buffer;
    match amr with
    | None => mret OSIF_EFAULT
    | Some amr =>
        o ← the_ocb;
        result ← nuc "nuc_id_filter_mask" [filter20b_acr o; amr; CANIO_IDS_REGION_20B];
        when (result =? OSIF_SUCCESS) (upd_ocb (fun o => o <| filter20b_amr := amr |>));;
        mret result
    end).
Definition ioctl_hnd_filter (buffer : Z) : M esd Z :=
  when_allowed (
    l ← copy_from_user buffer 3;
    match l with
    | Some [acr; amr; idArea] => nuc "nuc_id_filter_mask" [acr; amr; idArea]
    | _ => mret OSIF_EFAULT
    end).
Definition ioctl_set_tout (set : Z -> M esd unit) (buffer : Z) : M esd Z :=
  when_allowed (
    tout ← get_user buffer;
    match tout with
    | None => mret OSIF_EFAULT
    | Some tout => set tout;; mret OSIF_SUCCESS
    end).

(** the value a command stores for the user, and its result *)
Definition nuc_rx_messages : M esd (Z * Z) := nuc_count "nuc_rx_messages" [].
Definition ocb_value (f : CAN_OCB -> Z) : M esd (Z * Z) :=
  o ← the_ocb; mret (OSIF_SUCCESS, f o).
Definition node_value (f : CAN_NODE -> Z) : M esd (Z * Z) :=
  n ← the_node; mret (OSIF_SUCCESS, f n).

(** the switch: the result, and what ioArg->size becomes *)
Definition esdcan_command (cmd buffer size : Z) : M esd (Z * Z) :=
  let keep m : M esd (Z * Z) := result ← m; mret (result, size) in
  let one_of := existsb (Z.eqb cmd) in
  if one_of [IOCTL_ESDCAN_DESTROY; IOCTL_ESDCAN_DESTROY_DEPRECATED] then keep ocb_destroy
  else if one_of [IOCTL_ESDCAN_SEND_T] then ioctl_send buffer size sizeof_CAN_MSG_T
  else if one_of [IOCTL_ESDCAN_SEND_X] then ioctl_send buffer size sizeof_CAN_MSG_X
  else if one_of [IOCTL_ESDCAN_SEND] then ioctl_send buffer size sizeof_CAN_MSG
  else if one_of [IOCTL_ESDCAN_TAKE_T] then ioctl_take buffer size sizeof_CAN_MSG_T
  else if one_of [IOCTL_ESDCAN_TAKE_X] then ioctl_take buffer size sizeof_CAN_MSG_X
  else if one_of [IOCTL_ESDCAN_TAKE] then ioctl_take buffer size sizeof_CAN_MSG
  else if one_of [IOCTL_ESDCAN_WRITE_T] then
    count_or_error size (esdcan_write_common buffer size sizeof_CAN_MSG_T)
  else if one_of [IOCTL_ESDCAN_WRITE_X] then
    count_or_error size (esdcan_write_common buffer size sizeof_CAN_MSG_X)
  else if one_of [IOCTL_ESDCAN_WRITE] then
    count_or_error size (esdcan_write_common buffer size sizeof_CAN_MSG)
  else if one_of [IOCTL_ESDCAN_READ_T] then
    count_or_error size (esdcan_read_common buffer size sizeof_CAN_MSG_T)
  else if one_of [IOCTL_ESDCAN_READ_X] then
    count_or_error size (esdcan_read_common buffer size sizeof_CAN_MSG_X)
  else if one_of [IOCTL_ESDCAN_READ] then
    count_or_error size (esdcan_read_common buffer size sizeof_CAN_MSG)
  else if one_of [IOCTL_ESDCAN_PURGE_TX_FIFO; IOCTL_ESDCAN_PURGE_TX_FIFO_DEPRECATED;
              IOCTL_ESDCAN_TX_ABORT] then keep (nuc "nuc_tx_abort" [OSIF_OPERATION_ABORTED; 0])
  else if one_of [IOCTL_ESDCAN_FLUSH_RX_FIFO; IOCTL_ESDCAN_FLUSH_RX_FIFO_DEPRECATED] then
    keep (nuc "nuc_rx_purge" [])
  else if one_of [IOCTL_ESDCAN_RX_ABORT] then keep (nuc "nuc_rx_abort" [OSIF_OPERATION_ABORTED])
  else if one_of [IOCTL_ESDCAN_RX_OBJ] then mret (OSIF_NOT_IMPLEMENTED, size)
  else if one_of [IOCTL_ESDCAN_TX_OBJ_CREATE] then keep (ioctl_tx_obj NUC_TX_OBJ_CREATE buffer)
  else if one_of [IOCTL_ESDCAN_TX_OBJ_UPDATE] then keep (ioctl_tx_obj NUC_TX_OBJ_UPDATE buffer)
  else if one_of [IOCTL_ESDCAN_TX_OBJ_AUTOANSWER_ON] then
    keep (ioctl_tx_obj NUC_TX_OBJ_AUTOANSWER_ON buffer)
  else if one_of [IOCTL_ESDCAN_TX_OBJ_AUTOANSWER_OFF] then
    keep (ioctl_tx_obj NUC_TX_OBJ_AUTOANSWER_OFF buffer)
  else if one_of [IOCTL_ESDCAN_TX_OBJ_DESTROY] then keep (ioctl_tx_obj NUC_TX_OBJ_DESTROY buffer)
  else if one_of [IOCTL_ESDCAN_TX_OBJ_SCHEDULE] then keep (ioctl_tx_obj NUC_TX_OBJ_SCHEDULE buffer)
  else if one_of [IOCTL_ESDCAN_TX_OBJ_SCHEDULE_START] then
    keep (ioctl_tx_obj NUC_TX_OBJ_SCHEDULE_START buffer)
  else if one_of [IOCTL_ESDCAN_TX_OBJ_SCHEDULE_STOP] then
    keep (ioctl_tx_obj NUC_TX_OBJ_SCHEDULE_STOP buffer)
  else if one_of [IOCTL_ESDCAN_ID_RANGE_ADD] then keep (ioctl_id_range FILTER_ON buffer)
  else if one_of [IOCTL_ESDCAN_ID_RANGE_DEL] then keep (ioctl_id_range FILTER_OFF buffer)
  else if one_of [IOCTL_ESDCAN_ID_REGION_ADD] then keep (ioctl_id_region FILTER_ON buffer)
  else if one_of [IOCTL_ESDCAN_ID_REGION_DEL] then keep (ioctl_id_region FILTER_OFF buffer)
  else if one_of [IOCTL_ESDCAN_SET_BAUD] then keep (ioctl_32_w ESDCAN_CTL_BAUDRATE_SET buffer)
  else if one_of [IOCTL_ESDCAN_GET_BAUD] then keep (ioctl_32_r ESDCAN_CTL_BAUDRATE_GET buffer)
  else if one_of [IOCTL_ESDCAN_SET_TIMEOUT] then keep (ioctl_set_timeout buffer)
  else if one_of [IOCTL_ESDCAN_GET_RX_MESSAGES] then keep (ioctl_put buffer nuc_rx_messages)
  else if one_of [IOCTL_ESDCAN_GET_RX_TIMEOUT] then
    keep (ioctl_put buffer (ocb_value (fun o => rx_tout (rx o))))
  else if one_of [IOCTL_ESDCAN_GET_TX_TIMEOUT] then
    keep (ioctl_put buffer (ocb_value (fun o => tx_tout (tx o))))
  else if one_of [IOCTL_ESDCAN_GET_TIMESTAMP_FREQ] then
    keep (nuc_ioctl_user ESDCAN_CTL_TIMEST_FREQ_GET buffer 8 false true)
  else if one_of [IOCTL_ESDCAN_GET_TIMESTAMP] then
    keep (nuc_ioctl_user ESDCAN_CTL_TIMESTAMP_GET buffer 8 false true)
  else if one_of [IOCTL_ESDCAN_DEBUG] then keep (ioctl_debug buffer)
  else if one_of [IOCTL_ESDCAN_GET_INFO] then keep (ioctl_get_info buffer)
  else if one_of [IOCTL_ESDCAN_SET_20B_HND_FILTER] then keep (ioctl_20b_filter buffer)
  else if one_of [IOCTL_ESDCAN_SET_HND_FILTER] then keep (ioctl_hnd_filter buffer)
  else if one_of [IOCTL_ESDCAN_SET_TX_TIMEOUT] then
    keep (ioctl_set_tout (fun tout => upd_tx (fun t => t <| tx_tout := tout |>)) buffer)
  else if one_of [IOCTL_ESDCAN_SET_RX_TIMEOUT] then
    keep (ioctl_set_tout (fun tout => upd_rx (fun r => r <| rx_tout := tout |>)) buffer)
  else if one_of [IOCTL_ESDCAN_GET_SERIAL] then
    keep (ioctl_put buffer (node_value (fun n => serial (crd n))))
  else if one_of [IOCTL_ESDCAN_GET_FEATURES] then keep (ioctl_put buffer (node_value features))
  else if one_of [IOCTL_ESDCAN_UPDATE; IOCTL_ESDCAN_SET_MODE; IOCTL_ESDCAN_GET_TICKS_FREQ;
              IOCTL_ESDCAN_GET_TICKS; IOCTL_ESDCAN_SET_ALT_RTR_ID] then
    mret (OSIF_NOT_IMPLEMENTED, size)
  else if one_of [IOCTL_ESDCAN_SET_BUSLOAD_INTERVAL] then
    keep (ioctl_32_w ESDCAN_CTL_BUSLOAD_INTERVAL_SET buffer)
  else if one_of [IOCTL_ESDCAN_GET_BUSLOAD_INTERVAL] then
    keep (ioctl_32_r ESDCAN_CTL_BUSLOAD_INTERVAL_GET buffer)
  else if one_of [IOCTL_ESDCAN_GET_BUS_STATISTIC] then
    keep (nuc_ioctl_user ESDCAN_CTL_BUS_STATISTIC_GET buffer 80 false true)
  else if one_of [IOCTL_ESDCAN_RESET_BUS_STATISTIC] then
    keep (ioctl_cmd ESDCAN_CTL_BUS_STATISTIC_RESET)
  else if one_of [IOCTL_ESDCAN_GET_ERROR_COUNTER] then
    keep (ioctl_32_r ESDCAN_CTL_ERROR_COUNTER_GET buffer)
  else if one_of [IOCTL_ESDCAN_GET_BITRATE_DETAILS] then
    keep (nuc_ioctl_user ESDCAN_CTL_BITRATE_DETAILS_GET buffer 40 false true)
  else if one_of [IOCTL_ESDCAN_SER_REG_READ] then keep (ioctl_ser_reg ESDCAN_CTL_SER_REG_READ buffer)
  else if one_of [IOCTL_ESDCAN_SER_REG_WRITE] then
    keep (ioctl_ser_reg ESDCAN_CTL_SER_REG_WRITE buffer)
  else if one_of [IOCTL_ESDCAN_RESET_CAN_ERROR_CNT] then
    keep (ioctl_cmd ESDCAN_CTL_RESET_CAN_ERROR_CNT)
  else if one_of [IOCTL_ESDCAN_EEI_CREATE] then
    keep (nuc_ioctl_user ESDCAN_CTL_EEI_CREATE buffer 4 false true)
  else if one_of [IOCTL_ESDCAN_EEI_DESTROY] then keep (ioctl_32_w ESDCAN_CTL_EEI_DESTROY buffer)
  else if one_of [IOCTL_ESDCAN_EEI_STATUS] then
    keep (nuc_ioctl_user ESDCAN_CTL_EEI_STATUS buffer 128 true true)
  else if one_of [IOCTL_ESDCAN_EEI_CONFIGURE] then
    keep (nuc_ioctl_user ESDCAN_CTL_EEI_CONFIGURE buffer 232 true false)
  else if one_of [IOCTL_ESDCAN_EEI_START] then keep (ioctl_32_w ESDCAN_CTL_EEI_START buffer)
  else if one_of [IOCTL_ESDCAN_EEI_STOP] then keep (ioctl_32_w ESDCAN_CTL_EEI_STOP buffer)
  else if one_of [IOCTL_ESDCAN_EEI_TRIGGER_NOW] then
    keep (ioctl_32_w ESDCAN_CTL_EEI_TRIGGER_NOW buffer)
  else if one_of [IOCTL_ESDCAN_SET_TX_TS_WIN] then keep (ioctl_32_w ESDCAN_CTL_TX_TS_WIN_SET buffer)
  else if one_of [IOCTL_ESDCAN_GET_TX_TS_WIN] then keep (ioctl_32_r ESDCAN_CTL_TX_TS_WIN_GET buffer)
  else if one_of [IOCTL_ESDCAN_SET_TX_TS_TIMEOUT] then
    keep (ioctl_32_w ESDCAN_CTL_TX_TS_TIMEOUT_SET buffer)
  else if one_of [IOCTL_ESDCAN_GET_TX_TS_TIMEOUT] then
    keep (ioctl_32_r ESDCAN_CTL_TX_TS_TIMEOUT_GET buffer)
  else mret (OSIF_NOT_SUPPORTED, size).

(** ** Files *)

(** nodes[net_no], where there is one *)
Definition node_at (net_no : Z) : M esd (option CAN_NODE) :=
  e ← get;
  if MAX_CARDS * NODES_PER_CARD <=? net_no then mret None
  else of_option (Index net_no) (zlookup (nodes e) net_no).

(** the handle after memset *)
Definition blank_ocb (net_no : Z) : CAN_OCB :=
  Mk_OCB (Mk_RX 0 0 0 0 0 0 [] 0 0) (Mk_TX 0 0 0 0 0 0) net_no 0 0 0 0 0.
(** sizeof(CAN_OCB), which depends on the wait queues of the kernel *)
Context (sizeof_CAN_OCB : Z).

Definition ocb_create (net_no : Z) : M esd Z :=
  node ← node_at net_no;
  match node with
  | None => mret OSIF_NET_NOT_FOUND
  | Some _ =>
      '(result, vptr) ← on_heap (Memory.osif_malloc sizeof_CAN_OCB);
      when (result =? OSIF_SUCCESS)
        (modify (fun e => e <| ocb := Some (vptr, blank_ocb net_no) |>));;
      mret result
  end.

(** OSIF_FREE(ocb) *)
Definition free_ocb : M esd unit :=
  e ← get; p ← of_option Dangling (fst <$> ocb e);
  on_heap (Memory.osif_free p);;
  modify (fun e => e <| ocb := None |>).

(** the sizes of queues, at least 1 *)
Definition queue_size (n : Z) : Z := if (n =? 0) || (n =? 0xFFFFFFFF) then 1 else n.
(** the command for filters of a handle opened with [mode] on a node with [feat] *)
Definition filter_command (mode feat : Z) : Z :=
  let cmd :=
    if negb (tst mode CANIO_MODE_OBJECT) then
      Z.lor (if tst mode CANIO_MODE_NO_RTR then 0 else FILTER_RTR)
            (if tst mode CANIO_MODE_NO_DATA then 0 else FILTER_DATA)
    else 0 in
  let cmd := if tst feat FEATURE_FULL_CAN then Z.land cmd (Z.lnot FILTER_RTR) else cmd in
  if tst feat FEATURE_FULL_CAN && tst mode CANIO_MODE_NO_DATA
     && negb (tst mode CANIO_MODE_AUTO_ANSWER)
  then Z.lor cmd FILTER_RTR else cmd.

(** [n] frames of memory as the allocation leaves it *)
Fixpoint ask_frames (n : nat) : M esd (list (list Z)) :=
  match n with
  | O => mret []
  | Datatypes.S n' =>
      x ← ask_bytes (Z.to_nat sizeof_CAN_MSG_T); l ← ask_frames n'; mret (x :: l)
  end.

Definition ocb_create2 (net_no init_mode init_tx init_rx : Z) : M esd Z :=
  node ← node_at net_no;
  match node with
  | None => mret OSIF_NET_NOT_FOUND
  | Some _ =>
      let queue_size_tx := queue_size init_tx in
      let queue_size_rx := queue_size init_rx in
      if (CANIO_MAX_TX_QUEUESIZE <? queue_size_tx) || (CANIO_MAX_RX_QUEUESIZE <? queue_size_rx)
      then mret OSIF_INVALID_PARAMETER
      else
        upd_ocb (fun o => o <| mode := init_mode |>);;
        n ← the_node;
        let lom := tst init_mode FEATURE_LOM in
        if lom && negb (tst (features n) FEATURE_LOM) then
          free_ocb;; mret OSIF_INVALID_PARAMETER
        else
          when lom (upd_node (fun n => n <| node_mode ::= fun m => Z.lor m FEATURE_LOM |>));;
          upd_ocb (fun o => o <| filter_cmd := filter_command init_mode (features n) |>
                              <| filter20b_amr := 0xFFFFFFFF |>);;
          '(result, cmbuf) ← on_heap (Memory.osif_malloc (u32 (sizeof_CAN_MSG_T * queue_size_rx)));
          upd_rx (fun r => r <| rx_cmbuf := cmbuf |>);;
          if negb (result =? OSIF_SUCCESS) then free_ocb;; mret result
          else
            frames ← ask_frames (Z.to_nat queue_size_rx);
            upd_rx (fun r => r <| rx_frames := frames |>);;
            node_lock;;
            result ← nuc "nuc_open" [init_mode; queue_size_tx; queue_size_rx];
            node_unlock;;
            if negb (result =? OSIF_SUCCESS) then
              on_heap (Memory.osif_free cmbuf);; free_ocb;; mret result
            else mret result
  end.

(** esdcan_ioctl_internal on the minor number of its inode, with what ioArg points to *)
Definition esdcan_ioctl_internal (net_no cmd buffer size : Z) : M esd (Z * Z) :=
  e ← get;
  if private_data e =? 0 then
    if cmd =? IOCTL_ESDCAN_CREATE then
      can_init ← copy_from_user buffer 3;
      match can_init with
      | Some [init_mode; init_tx; init_rx] =>
          result ← ocb_create net_no;
          if negb (result =? OSIF_SUCCESS) then mret (result, size)
          else
            result ← ocb_create2 net_no init_mode init_tx init_rx;
            if negb (result =? OSIF_SUCCESS) then mret (result, size)
            else
              modify (fun e => e <| private_data := from_option fst 0 (ocb e) |>);;
              nuc "nuc_check_links" [];;
              mret (OSIF_SUCCESS, size)
      | _ => mret (OSIF_EFAULT, size)
      end
    else mret (OSIF_INVALID_DRIVER, size)
  else
    node_lock;;
    o ← the_ocb;
    if tst (close_state o) CLOSE_STATE_HANDLE_CLOSED then
      node_unlock;; mret (OSIF_INVALID_HANDLE, 0)
    else
      r ← esdcan_command cmd buffer size;
      nuc "nuc_check_links" [];;
      node_unlock;;
      mret r.

(** IOCTL_ARG, 16 bytes with its padding: the pointer and the size; without an argument,
    what the stack held *)
Definition esdcan_ioctl (net_no cmd arg : Z) : M esd Z :=
  e ← get;
  ioArg ← (if negb (arg =? 0) then copy_from_user arg 4
           else lo ← ask (KernelCall "stack" []); hi ← ask (KernelCall "stack" []);
                size ← ask (KernelCall "stack" []); pad ← ask (KernelCall "stack" []);
                mret (Some [u32 lo; u32 hi; u32 size; u32 pad]));
  match ioArg with
  | Some [lo; hi; size; pad] =>
      '(result, size) ← esdcan_ioctl_internal net_no cmd (lo + Z.shiftl hi 32) size;
      if negb (cmd =? IOCTL_ESDCAN_CREATE) && negb (private_data e =? 0)
         && (result =? OSIF_SUCCESS) && negb (arg =? 0) then
        ok ← put_bytes arg (word_bytes lo ++ word_bytes hi ++ word_bytes size ++ word_bytes pad);
        mret (- (if (ok : bool) then result else OSIF_EFAULT))
      else mret (- result)
  | _ => mret (- OSIF_EFAULT)
  end.

Definition esdcan_compat_ioctl (net_no cmd arg : Z) : M esd Z :=
  e ← get;
  let cmd := compat_cmd cmd in
  ioArg ← (if negb (arg =? 0) then copy_from_user arg 2
           else buffer ← ask (KernelCall "stack" []); size ← ask (KernelCall "stack" []);
                mret (Some [u64 buffer; u32 size]));
  match ioArg with
  | Some [buffer; size] =>
      '(result, size) ← esdcan_ioctl_internal net_no cmd buffer size;
      if negb (cmd =? IOCTL_ESDCAN_CREATE) && negb (private_data e =? 0)
         && (result =? OSIF_SUCCESS) && negb (arg =? 0) then
        ok ← put_bytes arg (word_bytes buffer ++ word_bytes size);
        mret (- (if (ok : bool) then result else OSIF_EFAULT))
      else mret (- result)
  | _ => mret (- OSIF_EFAULT)
  end.

(** POLLIN | POLLRDNORM *)
Definition POLLIN : Z := 0x0001.
Definition POLLRDNORM : Z := 0x0040.
Definition esdcan_poll : M esd Z :=
  e ← get;
  if private_data e =? 0 then fail NullDeref
  else
    node_lock;;
    o ← the_ocb;
    if tst (close_state o) CLOSE_STATE_HANDLE_CLOSED then
      node_unlock;; mret OSIF_INVALID_HANDLE
    else
      tell (KernelCall "poll_wait" [wqRxNotify]);;
      '(_, num) ← nuc_rx_messages;
      node_unlock;;
      mret (if negb (num =? 0) then Z.lor POLLIN POLLRDNORM else 0).

Definition esdcan_open : M esd Z :=
  modify (fun e => e <| private_data := 0 |>);; mret (- OSIF_SUCCESS).

Definition esdcan_release : M esd Z :=
  e ← get;
  if private_data e =? 0 then mret (- OSIF_SUCCESS)
  else
    node_lock;;
    modify (fun e => e <| private_data := 0 |>);;
    o ← the_ocb;
    result ← (if negb (tst (close_state o) CLOSE_STATE_HANDLE_CLOSED) then ocb_destroy
              else mret OSIF_SUCCESS);
    on_heap (Memory.osif_free (rx_cmbuf (rx o)));;
    free_ocb;;
    spin_unlock (L_esd_node (minor o));;
    mret (- result).
End calls.

End esdcan.

(** ** The memory of frames *)

Definition frames_ok (o : CAN_OCB) : Prop :=
  Forall (fun f => length f = Z.to_nat sizeof_CAN_MSG_T) (rx_frames (rx o)).
Lemma concat_length (k : nat) (l : list (list Z)) :
  Forall (fun f => length f = k) l -> length (concat l) = (length l * k)%nat.
Proof. induction 1 as [|f l Hf _ IH]; simpl; [done |]. rewrite length_app. lia. Qed.
Lemma memory_at_in m off n :
  0 <= off -> off + n <= Z.of_nat (length m) ->
  memory_at m off n = Some (take (Z.to_nat n) (drop (Z.to_nat off) m)).
Proof.
  intros. unfold memory_at. destruct (Z.leb_spec 0 off), (Z.leb_spec (off + n) (Z.of_nat (length m)));
    (done || lia).
Qed.
Lemma concat_frame (k : nat) (l : list (list Z)) i f :
  Forall (fun f => length f = k) l -> l !! i = Some f ->
  drop (k * i) (concat l) = f ++ concat (drop (Datatypes.S i) l).
Proof.
  intros Hl. revert i. induction Hl as [|g l Hg _ IH]; intros [|i] Hi; try done; simpl in *.
  - injection Hi as ->. by rewrite Nat.mul_0_r.
  - rewrite drop_app_ge by lia. rewrite <- IH by done. f_equal. lia.
Qed.
(** the sizes the code reads and writes with *)
Definition cm_format (size : Z) : Prop := size ∈ [sizeof_CAN_MSG; sizeof_CAN_MSG_T; sizeof_CAN_MSG_X].
(** the bytes of a frame that is there *)
Lemma memory_frame o i f n :
  frames_ok o -> 0 <= i -> rx_frames (rx o) !! Z.to_nat i = Some f -> 0 <= n <= sizeof_CAN_MSG_T ->
  memory_at (concat (rx_frames (rx o))) (sizeof_CAN_MSG_T * i) n = Some (take (Z.to_nat n) f).
Proof.
  intros Hf Hi Hl Hn. pose proof (concat_length _ _ Hf) as Hlen. pose proof (lookup_lt_Some _ _ _ Hl) as Hlt.
  assert (length f = Z.to_nat sizeof_CAN_MSG_T) as Hlf by (by apply (Forall_lookup_1 _ _ _ _ Hf Hl)).
  unfold sizeof_CAN_MSG_T in *. rewrite memory_at_in by lia.
  replace (Z.to_nat (24 * i)) with (24 * Z.to_nat i)%nat by lia.
  rewrite (concat_frame 24 _ _ f Hf Hl), take_app_le by lia. done.
Qed.
(** the frame in the format the user reads with, byte by byte.  CAN_MSG is the head of
    16 bytes (id, length, eight bytes of data) alone; in CAN_MSG_T the timestamp
    follows it, in CAN_MSG_X the other 56 bytes of a long frame do, then the timestamp *)
Definition user_byte (size : Z) (cm : list Z) (j : nat) : Z :=
  if size =? sizeof_CAN_MSG_X then
    if (j <? 16)%nat then cm !!! j else if (j <? 72)%nat then 0 else cm !!! (j - 56)%nat
  else cm !!! j.
Definition user_frame (size : Z) (cm : list Z) : list Z :=
  map (user_byte size cm) (seq 0 (Z.to_nat size)).
Lemma user_frame_bytes size cm :
  length cm = Z.to_nat sizeof_CAN_MSG_T -> cm_format size ->
  user_frame size cm = if size =? sizeof_CAN_MSG_X then frame_x cm else take (Z.to_nat size) cm.
Proof.
  intros Hl Hs. do 24 (destruct cm as [|? cm]; [discriminate Hl |]). destruct cm; [| discriminate Hl].
  unfold cm_format in Hs. repeat (apply elem_of_cons in Hs as [->|Hs]; [reflexivity |]). by apply elem_of_nil in Hs.
Qed.
Lemma read_bytes_frame i o cm :
  frames_ok o -> cm_format (rx_cm_size (rx o)) -> 0 <= i -> rx_frames (rx o) !! Z.to_nat i = Some cm ->
  read_bytes i o = Some (user_frame (rx_cm_size (rx o)) cm).
Proof.
  intros Hf Hs Hi Hc. rewrite user_frame_bytes; [| by apply (Forall_lookup_1 _ _ _ _ Hf Hc) | done].
  unfold read_bytes, cm_format in *.
  repeat (apply elem_of_cons in Hs as [->|Hs]); simpl; [..|by apply elem_of_nil in Hs].
  - by apply memory_frame.
  - by apply memory_frame.
  - rewrite (memory_frame _ _ _ _ Hf Hi Hc) by done. simpl. rewrite take_ge; [done |].
    by rewrite (Forall_lookup_1 _ _ _ _ Hf Hc).
Qed.

(** ** What a read gives the user *)
Section deliver.
Context `{Env}.

(** callbacks of the nucleus, one after the other *)
Fixpoint run_callbacks (cs : list callback) : M esd unit :=
  match cs with
  | [] => mret tt
  | c :: cs => run_callback c;; run_callbacks cs
  end.
(** the nucleus delivers [cms] in turns: when [i] frames are there it puts the next
    [step i + 1], and with the last one it reports the end of the job *)
Definition nucleus_turn (cms : list (list Z)) (step : nat -> nat) (result : Z) (i : nat) : list callback :=
  let j := Nat.min (length cms) (i + S (step i)) in
  map rx_put (take (j - i) (drop i cms)) ++
  (if (j =? length cms)%nat then [rx_done result (Z.of_nat (length cms))] else []).
Definition nucleus (cms : list (list Z)) (step : nat -> nat) (result : Z) : M esd unit :=
  o ← the_ocb; run_callbacks (nucleus_turn cms step result (Z.to_nat (rx_cmbuf_in (rx o)))).

(** what has been copied to the user, newest first *)
Definition copies (log : list event) : list (Z * list Z) :=
  omap (fun e => match ev_call e with CopyToUser dst _ data => Some (dst, data) | _ => None end) log.

Definition at_handle (w : world esd) (o : CAN_OCB) : Prop := snd <$> ocb (w_st w) = Some o.

Lemma wp_the_ocb w o (Q : CAN_OCB -> world esd -> Prop) : at_handle w o -> Q o w -> wp the_ocb Q w.
Proof. unfold at_handle, the_ocb. intros Ho HQ. apply wp_bind, wp_get. rewrite Ho. by apply wp_ret. Qed.
Lemma wp_upd_ocb f w o (Q : unit -> world esd -> Prop) :
  at_handle w o ->
  (forall w', at_handle w' (f o) -> w_log w' = w_log w -> w_held w' = w_held w -> Q tt w') ->
  wp (upd_ocb f) Q w.
Proof.
  intros Ho HQ. unfold upd_ocb. apply wp_bind. eapply wp_the_ocb; [done |]. apply wp_modify, HQ; try done.
  unfold at_handle in *. simpl. by destruct (ocb (w_st w)).
Qed.
Lemma wp_upd_rx f w o (Q : unit -> world esd -> Prop) :
  at_handle w o ->
  (forall w', at_handle w' (o <| rx ::= f |>) -> w_log w' = w_log w -> w_held w' = w_held w -> Q tt w') ->
  wp (upd_rx f) Q w.
Proof. apply wp_upd_ocb. Qed.

Lemma wp_puts cms rest w o (Q : unit -> world esd -> Prop) :
  at_handle w o -> 0 <= rx_cmbuf_in (rx o) ->
  Forall (fun cm => length cm = Z.to_nat sizeof_CAN_MSG_T) cms ->
  rx_cmbuf_in (rx o) + Z.of_nat (length cms) <= Z.of_nat (length (rx_frames (rx o))) ->
  (forall w' o', at_handle w' o' -> w_log w' = w_log w -> w_held w' = w_held w ->
     o' = o <| rx ::= fun r => r <| rx_frames := list_inserts (Z.to_nat (rx_cmbuf_in r)) cms (rx_frames r) |>
                                 <| rx_cmbuf_in ::= Z.add (Z.of_nat (length cms)) |> |> ->
     wp (run_callbacks rest) Q w') ->
  wp (run_callbacks (map rx_put cms ++ rest)) Q w.
Proof.
  revert w o. induction cms as [|cm cms IH]; intros w o Ho H0 Hw Hn HQ; cbn [map app].
  { apply (HQ w o); try done. by destruct o as [[] ? ? ? ? ? ? ?]. }
  apply Forall_cons in Hw as [Hcm Hw]. simpl in Hn.
  cbn [run_callbacks run_callback]. unfold esdcan_rx_put, store_frame.
  apply wp_bind, wp_bind, wp_bind, wp_bind. eapply wp_the_ocb; [done |].
  rewrite zinsert_Some by lia. apply wp_bind, wp_ret.
  eapply wp_upd_rx; [done |]. intros w' Ho' Hl Hh. apply wp_ret, wp_ret.
  eapply IH; [exact Ho' | simpl; lia | done | simpl; rewrite length_insert; lia |].
  intros w2 o2 Ho2 Hl2 Hh2 E. apply (HQ w2 o2); [done | congruence | congruence |].
  rewrite E. clear -H0 Hcm. destruct o as [[] ? ? ? ? ? ? ?]. unfold fset; simpl in *. f_equal. f_equal; [| lia].
  rewrite take_ge by (by rewrite Hcm). rewrite list_insert_inserts_lt by lia. f_equal. lia.
Qed.

(** [frames] in the buffer of the user *)
Fixpoint given (dest size : Z) (frames : list (list Z)) : list (Z * list Z) :=
  match frames with
  | [] => []
  | f :: frames => (dest, user_frame size f) :: given (dest + size) size frames
  end.
Definition no_faults : Prop := forall log dst len data, env_ret log (CopyToUser dst len data) = 0.

Lemma wp_copied dst len data w (Q : bool -> world esd -> Prop) :
  no_faults ->
  (forall w', w_st w' = w_st w -> w_held w' = w_held w -> copies (w_log w') = (dst, data) :: copies (w_log w) ->
     Q true w') ->
  wp (copy_to_user dst len data) Q w.
Proof.
  intros Hn HQ. apply wp_bind, wp_ask. intros r Hr. apply wp_ret. rewrite Hn in Hr. subst r. by apply HQ.
Qed.

Lemma wp_frames_to_user n dest i w o (Q : bool -> world esd -> Prop) :
  no_faults -> at_handle w o -> frames_ok o -> cm_format (rx_cm_size (rx o)) -> 0 <= i ->
  i + Z.of_nat n <= Z.of_nat (length (rx_frames (rx o))) ->
  (forall w', at_handle w' o -> w_held w' = w_held w ->
     copies (w_log w') =
       rev (given dest (rx_cm_size (rx o)) (take n (drop (Z.to_nat i) (rx_frames (rx o))))) ++ copies (w_log w) ->
     Q true w') ->
  wp (frames_to_user read_bytes dest i n) Q w.
Proof.
  intros Hn Ho Hf Hs. revert dest i w Ho Q. induction n as [|n IH]; intros dest i w Ho Q Hi Hle HQ;
    cbn [frames_to_user]; [by apply wp_ret, HQ |].
  destruct (lookup_lt_is_Some_2 (rx_frames (rx o)) (Z.to_nat i)) as [f Hlf]; [lia |].
  apply wp_bind. eapply wp_the_ocb; [done |]. rewrite (read_bytes_frame i o f) by done.
  apply wp_bind, wp_ret, wp_bind, wp_copied; [done |]. intros w1 Hst Hh Hc. cbn [negb].
  apply IH; [unfold at_handle in *; congruence | lia | lia |].
  intros w2 Ho2 Hh2 Hc2. apply HQ; [done | congruence |]. rewrite Hc2, Hc.
  rewrite (drop_S _ f _ Hlf). replace (Z.to_nat (i + 1)) with (Datatypes.S (Z.to_nat i)) by lia. simpl.
  by rewrite <- app_assoc.
Qed.

Lemma wp_node_lock w o (Q : unit -> world esd -> Prop) :
  at_handle w o -> L_esd_node (minor o) ∉ w_held w ->
  (forall w', at_handle w' o -> w_held w' = L_esd_node (minor o) :: w_held w ->
     copies (w_log w') = copies (w_log w) -> Q tt w') -> wp node_lock Q w.
Proof.
  intros Ho Hh HQ. apply wp_bind. eapply wp_the_ocb; [done |]. apply wp_spin_lock; [done |]. by apply HQ.
Qed.

(** the end of a read with [n] frames, all of them there *)
Lemma wp_rx_done_read r n w o (Q : Z -> world esd -> Prop) :
  at_handle w o ->
  tst (rx_state (rx o)) RX_STATE_PENDING_READ = true ->
  tst (rx_state (rx o)) RX_STATE_PENDING_TAKE = false ->
  tst (rx_state (rx o)) RX_STATE_SIGNAL_INTERRUPT = false -> 0 < n < 2 ^ 31 ->
  (forall w', at_handle w' (o <| rx ::= fun x => x <| rx_result := r |> <| rx_cm_count := n |> |>) ->
     w_held w' = w_held w -> copies (w_log w') = copies (w_log w) -> Q OSIF_SUCCESS w') ->
  wp (esdcan_rx_done r n) Q w.
Proof.
  intros Ho Hpr Hpt Hsi Hn HQ. unfold esdcan_rx_done. apply wp_bind. eapply wp_upd_rx; [done |].
  intros w1 Ho1 Hl1 Hh1. rewrite s32_small in Ho1 by lia. apply wp_bind. eapply wp_the_ocb; [done |].
  cbn [rx rx_state fset CAN_OCB_eta RX_eta]. apply wp_bind. simpl. rewrite Hpt, Hsi, Hpr.
  destruct (Z.eqb_spec n 0); [lia |]. apply wp_bind, wp_ret, wp_tell, wp_ret.
  apply HQ; [done | done |]. simpl. by rewrite Hl1.
Qed.
Lemma wp_read_end buf flag w o cms (Q : Z -> world esd -> Prop) :
  no_faults -> at_handle w o -> L_esd_node (minor o) ∉ w_held w -> frames_ok o ->
  cm_format (rx_cm_size (rx o)) -> rx_cm_count (rx o) = Z.of_nat (length cms) -> (0 < length cms)%nat ->
  take (length cms) (rx_frames (rx o)) = cms ->
  (forall w' o', at_handle w' o' -> w_held w' = L_esd_node (minor o) :: w_held w ->
     rx_state (rx o') = 0 -> rx_cm_count (rx o') = 0 ->
     copies (w_log w') = rev (given buf (rx_cm_size (rx o)) cms) ++ copies (w_log w) ->
     Q (Z.of_nat (length cms)) w') ->
  wp (read_end buf flag) Q w.
Proof.
  intros Hn Ho Hh Hf Hs Hc Hpos Hcms HQ. unfold read_end. apply wp_bind. eapply wp_node_lock; [done | done |].
  intros w1 Ho1 Hh1 Hc1. apply wp_bind. eapply wp_the_ocb; [done |]. apply wp_bind.
  eapply wp_upd_rx; [done |]. intros w2 Ho2 Hl2 Hh2. rewrite Hc. destruct (Z.eqb_spec (Z.of_nat (length cms)) 0); [lia |].
  apply wp_bind. set (o2 := o <| rx ::= _ |>) in Ho2.
  assert (forall w3, at_handle w3 o2 -> w_held w3 = L_esd_node (minor o) :: w_held w ->
    copies (w_log w3) = copies (w_log w) ->
    wp (ok ← frames_to_user read_bytes buf 0 (Z.to_nat (Z.of_nat (length cms)));
        mret (if (ok : bool) then Z.of_nat (length cms) else - OSIF_EFAULT)) Q w3) as Hgo.
  { intros w3 Ho3 Hh3 Hc3. rewrite Nat2Z.id. apply wp_bind. eapply wp_frames_to_user; [done | done | done | done | done | |].
    - rewrite <- Hcms at 1. rewrite length_take. simpl. lia.
    - intros w4 Ho4 Hh4 Hc4. apply wp_ret. apply (HQ w4 o2); [done | congruence | done | done |].
      rewrite Hc4, Hc3. simpl. rewrite Z2Nat.inj_0. simpl. rewrite drop_0. by rewrite Hcms. }
  apply wp_when; intros _; [apply wp_tell |]; apply Hgo; try done; simpl; congruence.
Qed.

(** *** While the process waits *)
Section waiting.
Context (cms : list (list Z)) (step : nat -> nat) (result size : Z) (w0 : world esd) (o0 : CAN_OCB).

(** the first [k] frames are in the memory of the handle, whose read is in progress; with
    the last one its end is reported *)
Definition reading_after (k : nat) (w : world esd) (o : CAN_OCB) : Prop :=
  at_handle w o /\ w_held w = w_held w0 /\ copies (w_log w) = copies (w_log w0) /\ minor o = minor o0 /\
  rx_cmbuf_in (rx o) = Z.of_nat k /\ rx_cm_size (rx o) = size /\
  (if decide (k = length cms) then rx_cm_count (rx o) = Z.of_nat k else rx_cm_count (rx o) = 0) /\
  rx_state (rx o) = RX_STATE_PENDING_READ /\
  rx_frames (rx o) = take k cms ++ drop k (rx_frames (rx o0)).

Hypothesis Hcms : Forall (fun cm => length cm = Z.to_nat sizeof_CAN_MSG_T) cms.
Hypothesis Hlen : (0 < length cms <= length (rx_frames (rx o0)))%nat.
Hypothesis Hmax : Z.of_nat (length cms) < 2 ^ 31.

(** one turn of the nucleus *)
Lemma wp_nucleus k w o (Q : unit -> world esd -> Prop) :
  (k < length cms)%nat -> reading_after k w o ->
  (forall w' o', reading_after (Nat.min (length cms) (k + S (step k))) w' o' -> Q tt w') ->
  wp (nucleus cms step result) Q w.
Proof using Hcms Hlen Hmax.
  intros Hk (Ho & Hh & Hc & Hm & Hin & Hsz & Hcnt & Hst & Hfr) HQ.
  rewrite decide_False in Hcnt by lia.
  unfold nucleus. apply wp_bind. eapply wp_the_ocb; [exact Ho |]. rewrite Hin, Nat2Z.id. unfold nucleus_turn.
  set (j := Nat.min (length cms) (k + S (step k))) in *. assert (k < j <= length cms)%nat as Hj by (unfold j; lia).
  set (new := take (j - k) (drop k cms)).
  assert (length new = (j - k)%nat) as Hnew by (unfold new; rewrite length_take, length_drop; lia).
  apply (wp_puts new _ w o); [exact Ho | lia | by apply Forall_take, Forall_drop | |].
  { rewrite Hfr, length_app, length_take, length_drop, Hnew. lia. }
  intros w1 o1 Ho1 Hl1 Hh1 E1.
  assert (Hnext : rx_frames (rx o1) = take j cms ++ drop j (rx_frames (rx o0)) /\
    rx_cmbuf_in (rx o1) = Z.of_nat j /\ rx_cm_size (rx o1) = size /\ rx_state (rx o1) = RX_STATE_PENDING_READ /\
    rx_cm_count (rx o1) = 0 /\ minor o1 = minor o0).
  { rewrite E1. simpl. split_and!; try done; [| lia]. rewrite Hin, Nat2Z.id, Hfr.
    assert (length (take k cms) = k) as Hlk by (rewrite length_take; lia).
    rewrite <- (Nat.add_0_r k) at 1. rewrite <- Hlk at 1. rewrite list_inserts_app_r.
    rewrite <- (take_drop (j - k) (drop k (rx_frames (rx o0)))), list_inserts_0_r
      by (rewrite Hnew, length_take, length_drop; lia).
    rewrite drop_drop, app_assoc. replace (k + (j - k))%nat with j by lia. f_equal.
    unfold new. rewrite take_take_drop. f_equal. lia. }
  destruct Hnext as (F1 & F2 & F3 & F4 & F5 & F6).
  destruct (Nat.eqb_spec j (length cms)) as [Ej|Ej].
  - cbn [run_callbacks run_callback]. apply wp_bind, wp_bind.
    eapply (wp_rx_done_read result); [exact Ho1 | by rewrite F4.. | lia |].
    intros w2 Ho2 Hh2 Hc2. apply wp_ret, wp_ret. eapply HQ. split; [exact Ho2 |]. simpl.
    rewrite decide_True by done. split_and!; try done; congruence.
  - cbn [run_callbacks]. apply wp_ret. eapply HQ. split; [exact Ho1 |].
    rewrite decide_False by done. split_and!; try done; try congruence.
Qed.

Lemma wp_wait_frames fuel k w o (Q : bool -> world esd -> Prop) :
  (forall log, env_ret log (KernelCall "signal_pending" []) = 0) ->
  (length cms - k <= fuel)%nat -> (k <= length cms)%nat -> reading_after k w o ->
  (forall w' o', reading_after (length cms) w' o' -> Q false w') ->
  wp (wait_for (nucleus cms step result) fuel true read_ready) Q w.
Proof using Hcms Hlen Hmax.
  intros Hsig. revert k w o. induction fuel as [|fuel IH]; intros k w o Hf Hk Hw HQ; cbn [wait_for];
    pose proof Hw as (Ho & Hh & Hc & Hm & Hin & Hsz & Hcnt & Hst & Hfr);
    apply wp_bind; (eapply wp_the_ocb; [exact Ho |]);
    unfold read_ready; rewrite Hst; change (tst RX_STATE_PENDING_READ RX_STATE_ABORT) with false;
    change (tst RX_STATE_PENDING_READ RX_STATE_CLOSING) with false; rewrite !orb_false_r.
  - assert (k = length cms) as -> by lia. rewrite decide_True in Hcnt by done. rewrite Hcnt.
    rewrite (proj2 (Z.ltb_lt _ _)) by lia. apply wp_ret. by eapply HQ.
  - destruct (decide (k = length cms)) as [->|Hne].
    { rewrite Hcnt. rewrite (proj2 (Z.ltb_lt _ _)) by lia. apply wp_ret. by eapply HQ. }
    rewrite Hcnt. change (0 <? 0) with false. cbv iota. apply wp_bind, wp_ask. intros r Hr.
    rewrite Hsig in Hr. subst r. change (negb (0 =? 0)) with false. cbv iota.
    assert (Hw' : reading_after k (emit (Ev (KernelCall "signal_pending" []) 0) w) o).
    { split_and!; try done. by rewrite decide_False by done. }
    apply wp_bind. eapply (wp_nucleus k _ o); [lia | exact Hw' |]. intros w2 o2 H2.
    eapply (IH _ w2 o2); [| | exact H2 | exact HQ]; lia.
Qed.
End waiting.

(** C20: a read of the handle, the whole call.  The process calls with the lock of
    the node, which is accessible, and no read in progress; the nucleus takes the
    job, makes no callback at once and no signal comes.  While the process waits the
    nucleus puts the frames [cms], in turns of any sizes, and reports the end of
    the job with the last one.  Then the call returns their number with the lock
    held; the buffer of the process holds each frame at its place, in the order in
    which they were put, byte by byte in the format the process reads with, and
    nothing else was copied; the read is over. *)
Theorem frames_reach_user cms step result fuel buf cm_count size w o node held :
  no_faults -> at_handle w o ->
  (forall log, env_ret log (KernelCall "signal_pending" []) = 0) ->
  (forall log args, env_ret log (KernelCall "nuc_rx" args) = OSIF_SUCCESS) ->
  (forall log, env_ret log (KernelCall "callbacks" []) = 0) ->
  mjoin (zlookup (nodes (w_st w)) (minor o)) = Some node ->
  tst (status node) (Z.lor CANIO_STATUS_WRONG_HARDWARE CANIO_STATUS_WRONG_FIRMWARE) = false ->
  w_held w = L_esd_node (minor o) :: held -> L_esd_node (minor o) ∉ held ->
  rx_state (rx o) = 0 -> frames_ok o -> cm_format size ->
  Forall (fun cm => length cm = Z.to_nat sizeof_CAN_MSG_T) cms ->
  (0 < length cms <= length (rx_frames (rx o)))%nat -> Z.of_nat (length cms) < 2 ^ 31 ->
  (length cms <= fuel)%nat ->
  wp (esdcan_read_common (nucleus cms step result) fuel buf cm_count size) (fun ret w' =>
    ret = Z.of_nat (length cms) /\ w_held w' = w_held w /\
    copies (w_log w') = rev (given buf size cms) ++ copies (w_log w) /\
    exists o', at_handle w' o' /\ rx_state (rx o') = 0 /\ rx_cm_count (rx o') = 0) w.
Proof.
  intros Hn Ho Hsig Hnuc Hcb Hnode Hact Hheld Hfresh Hst Hf Hs Hcms Hlen Hmax Hfuel.
  unfold esdcan_read_common, read_begin, action_check, the_node.
  apply wp_bind, wp_bind, wp_bind, wp_bind. eapply wp_the_ocb; [exact Ho |].
  apply wp_bind, wp_get. rewrite Hnode. apply wp_ret. rewrite Hact. apply wp_ret.
  apply wp_bind. eapply wp_the_ocb; [exact Ho |]. rewrite Hst. change (negb (0 =? 0)) with false. cbv iota.
  apply wp_bind. eapply wp_upd_rx; [exact Ho |]. intros w1 Ho1 Hl1 Hh1. set (o1 := o <| rx ::= _ |>) in Ho1.
  apply wp_bind. eapply wp_the_ocb; [exact Ho1 |].
  unfold nuc_count, callbacks. apply wp_bind, wp_bind, wp_ask. intros r Hr. rewrite Hnuc in Hr. subst r.
  apply wp_bind, wp_bind, wp_ask. intros c Hc. rewrite Hcb in Hc. subst c. apply wp_ret.
  apply wp_bind, wp_ask. intros count _. apply wp_ret.
  change (negb (s32 OSIF_SUCCESS =? OSIF_SUCCESS)) with false. cbv iota. apply wp_ret.
  unfold node_unlock. apply wp_bind, wp_bind. eapply wp_the_ocb; [exact Ho1 |].
  eapply wp_spin_unlock; [simpl; rewrite Hh1; exact Hheld | exact Hfresh |].
  set (w2 := World _ held _).
  assert (Hw2 : reading_after cms size w2 o1 0 w2 o1).
  { split_and!; try done. rewrite decide_False by lia. done. }
  apply wp_bind. eapply (wp_wait_frames cms step result size w2 o1 Hcms Hlen Hmax fuel 0); [exact Hsig | lia | lia | exact Hw2 |].
  intros w3 o3 (Ho3 & Hh3 & Hc3 & Hm3 & _ & Hsz3 & Hcnt3 & Hst3 & Hfr3). rewrite decide_True in Hcnt3 by done.
  apply wp_bind, wp_ret. apply wp_bind, wp_when; intros E; [discriminate E |].
  eapply (wp_read_end buf false w3 o3 cms); [done | exact Ho3 | | | by rewrite Hsz3 | exact Hcnt3 | lia | |].
  - rewrite Hh3, Hm3. exact Hfresh.
  - unfold frames_ok. rewrite Hfr3, take_ge by done. apply Forall_app_2; [done | by apply Forall_drop].
  - rewrite Hfr3, (take_ge cms) by done. by rewrite take_app_length.
  - intros w4 o4 Ho4 Hh4 Hs4 Hz4 Hc4. split; [done |]. split; [rewrite Hh4, Hh3, Hm3, Hheld; done |].
    split; [| by exists o4]. rewrite Hc4, Hc3, Hsz3. unfold w2. simpl. by rewrite Hl1.
Qed.
End deliver.

(** ** Witnesses *)
Module Witness.

Definition quiet : Env := fun _ _ => 0.
Definition reader : CAN_OCB :=
  Mk_OCB (Mk_RX 0 0 0 0 0 4096 [replicate 24 0; replicate 24 0] 0 0)
    (Mk_TX 0 0 0 0 0 0) 0 0 0 0 0 0.
Definition node0 : CAN_NODE :=
  let v := Mk_VERSION96 0 0 0 in Mk_CAN_NODE 0 0 0 (Mk_CAN_CARD 1 v v v [] 0 0) 0.
Definition w0 : world esd :=
  World [] [L_esd_node 0] (Mk_esd (Memory.Heap ∅) [Some node0] 1024 (Some (1024, reader))).
Definition frame (b : Z) : list Z := replicate 24 b.

Lemma frames_reach_user_witness :
  wp (esdcan_read_common (H := quiet) (nucleus (H := quiet) [frame 1; frame 2] (fun _ => 0%nat) 0) 5 8192 10 sizeof_CAN_MSG)
    (fun ret w' => ret = 2 /\ w_held w' = [L_esd_node 0] /\
       copies (w_log w') = [(8208, replicate 16 2); (8192, replicate 16 1)]) w0.
Proof.
  eapply wp_mono.
  - eapply (frames_reach_user (H := quiet) [frame 1; frame 2] (fun _ => 0%nat) 0 5 8192 10 sizeof_CAN_MSG w0 reader node0 []);
      [done | done | done | done | done | done | done | done | apply not_elem_of_nil | done
      | by repeat constructor | by left | by repeat constructor | simpl; lia | simpl; lia | simpl; lia].
  - intros ret w' (Hret & Hh & Hc & _). split; [exact Hret |]. split; [exact Hh |]. rewrite Hc. reflexivity.
Defined.

(** the frames of one turn each, evaluated, in the long format *)
Example read_runs :
  match esdcan_read_common (H := quiet) (nucleus (H := quiet) [frame 1; frame 2] (fun _ => 0%nat) 0) 5 8192 10 sizeof_CAN_MSG_X w0 with
  | Ret ret w => ret = 2 /\ copies (w_log w) =
      [(8272, replicate 16 2 ++ replicate 56 0 ++ replicate 8 2);
       (8192, replicate 16 1 ++ replicate 56 0 ++ replicate 8 1)]
  | _ => False
  end.
Proof. vm_compute. split; reflexivity. Qed.

End Witness.
