(* ===== verification/EsdHandle.v ===== *)
(** * Processes on one handle of the esd driver (src/esd/src/esdcan_common.c)

    Several processes can have calls in the driver on the same open file: one reads,
    one writes, one closes, and all of them wait with the mutex of the node given back.
    The state of the handle keeps them apart.  Here the pieces of [EsdCan], each run
    with the mutex, are the steps of a transition system over the handle and the
    processes that wait in the driver; callbacks of the nucleus and the calls that do
    not wait are steps of their own.  A process that waits sleeps until a wake_up on
    its queue, and looks then whether its condition holds.  Commands that neither wait
    nor change the states of the handle leave it as it is but for the callbacks that
    arrive meanwhile: they are the steps of those callbacks. *)
From stdpp Require Import list relations.
From S2P Require Import Prelude Kernel EsdApi OsifText Osif EsdCan.

#[local] Set Warnings "-clear-no-such-hyp".

(** ** Effects on the handle *)

Ltac bits :=
  repeat (rewrite ?tst_lor, ?tst_0, ?tst_cleared, ?orb_true_r, ?orb_false_r;
          try rewrite tst_untouched by reflexivity).

(** the queues waken by a piece of history, newest first *)
Definition wakes (evs : list event) : list Z :=
  evs ≫= fun e => match ev_call e with
                  | KernelCall f [q] => if String.eqb f "wake_up" then [q] else []
                  | _ => []
                  end.

(** [eff m o Q]: on the handle [o], when [m] returns [a], the queues [ws] have been
    waken and the handle is [o'] with [Q a ws o'] *)
Definition handle (w : world esd) : option CAN_OCB := snd <$> ocb (w_st w).
Definition eff {A} (m : M esd A) (o : CAN_OCB) (Q : A -> list Z -> CAN_OCB -> Prop) : Prop :=
  forall w a w', handle w = Some o -> m w = Ret a w' ->
  exists o' evs, handle w' = Some o' /\ w_log w' = evs ++ w_log w /\ Q a (wakes evs) o'.

Section effects.
Context `{Env}.

Lemma eff_mono {A} (m : M esd A) o (Q R : A -> list Z -> CAN_OCB -> Prop) :
  eff m o Q -> (forall a ws o', Q a ws o' -> R a ws o') -> eff m o R.
Proof.
  intros Hm Hi w a w' Ho Hr. destruct (Hm w a w' Ho Hr) as (o' & evs & ? & ? & ?).
  exists o', evs. auto.
Qed.

Lemma wakes_app l1 l2 : wakes (l1 ++ l2) = wakes l1 ++ wakes l2.
Proof. apply bind_app. Qed.

Lemma eff_ret {A} (a : A) o (Q : A -> list Z -> CAN_OCB -> Prop) : Q a [] o -> eff (mret a) o Q.
Proof. intros HQ w b w' Ho [= <- <-]. exists o, []. done. Qed.

Lemma eff_bind {A B} (m : M esd A) (f : A -> M esd B) o (Q : B -> list Z -> CAN_OCB -> Prop) :
  eff m o (fun a ws o' => eff (f a) o' (fun b ws' => Q b (ws' ++ ws))) -> eff (m ≫= f) o Q.
Proof.
  intros Hm w b w' Ho. unfold mbind, M_bind. destruct (m w) as [a w1| |] eqn:E; try done.
  intros Hr. destruct (Hm w a w1 Ho E) as (o1 & evs & Ho1 & Hl & Hf).
  destruct (Hf w1 b w' Ho1 Hr) as (o2 & evs' & Ho2 & Hl' & HQ).
  exists o2, (evs' ++ evs). rewrite wakes_app, Hl', Hl, app_assoc. done.
Qed.

Lemma eff_when (b : bool) (m : M esd unit) o Q :
  (b = true -> eff m o Q) -> (b = false -> Q tt [] o) -> eff (when b m) o Q.
Proof. destruct b; intros H1 H2; [by apply H1 | by apply eff_ret, H2]. Qed.

(** calls that leave the handle alone *)
Definition quiet (c : call) : Prop := forall r, wakes [Ev c r] = [].
Lemma eff_ask c o Q : quiet c -> (forall r, Q r [] o) -> eff (ask c) o Q.
Proof.
  intros Hc HQ w a w' Ho [= <- <-]. exists o, [Ev c (env_ret (w_log w) c)].
  rewrite Hc. done.
Qed.
Lemma eff_tell c o Q : quiet c -> Q tt [] o -> eff (tell c) o Q.
Proof. intros Hc HQ w a w' Ho [= <- <-]. exists o, [Ev c 0]. rewrite Hc. done. Qed.
Lemma eff_wake_up q o Q : Q tt [q] o -> eff (wake_up q) o Q.
Proof. intros HQ w a w' Ho [= <- <-]. by exists o, [Ev (KernelCall "wake_up" [q]) 0]. Qed.
Lemma eff_fail {A} f o (Q : A -> _ -> _ -> Prop) : eff (fail f) o Q.
Proof. by intros w a w' _ [=]. Qed.
Lemma eff_of_option {A} f (x : option A) o Q :
  (forall a, x = Some a -> Q a [] o) -> eff (of_option f x) o Q.
Proof. destruct x; intros HQ; [by apply eff_ret, HQ | apply eff_fail]. Qed.
Lemma eff_modify f o Q :
  (forall e, snd <$> ocb e = Some o -> snd <$> ocb (f e) = Some o) -> Q tt [] o ->
  eff (modify f) o Q.
Proof. intros Hf HQ w a w' Ho [= <- <-]. exists o, []. split; [by apply Hf | done]. Qed.

Lemma eff_the_ocb o Q : Q o [] o -> eff the_ocb o Q.
Proof.
  intros HQ w a w' Ho. unfold handle in Ho. unfold the_ocb, get, mbind, M_bind.
  rewrite Ho. intros [= <- <-]. by exists o, [].
Qed.
Lemma eff_upd_ocb f o Q : Q tt [] (f o) -> eff (upd_ocb f) o Q.
Proof.
  intros HQ w a w' Ho. unfold handle in Ho. unfold upd_ocb, the_ocb, get, mbind, M_bind.
  rewrite Ho. intros [= <- <-]. exists (f o), []. split; [|done].
  unfold handle. simpl. by destruct (ocb (w_st w)).
Qed.
Lemma eff_upd_rx f o Q : Q tt [] (o <| rx ::= f |>) -> eff (upd_rx f) o Q.
Proof. apply eff_upd_ocb. Qed.
Lemma eff_upd_tx f o Q : Q tt [] (o <| tx ::= f |>) -> eff (upd_tx f) o Q.
Proof. apply eff_upd_ocb. Qed.
Lemma eff_get o Q : (forall e, Q e [] o) -> eff get o Q.
Proof. intros HQ w a w' Ho [= <- <-]. by exists o, []. Qed.
Lemma eff_node_lock o Q : Q tt [] o -> eff node_lock o Q.
Proof.
  intros HQ. apply eff_bind, eff_the_ocb. intros w a w' Ho. unfold spin_lock.
  destruct (decide _); [done |]. intros [= <- <-]. by eexists o, [_].
Qed.
Lemma eff_node_unlock o Q : Q tt [] o -> eff node_unlock o Q.
Proof.
  intros HQ. apply eff_bind, eff_the_ocb. intros w a w' Ho. unfold spin_unlock.
  destruct (decide _); [|done]. intros [= <- <-]. by eexists o, [_].
Qed.
Lemma eff_the_node o Q : (forall n, Q n [] o) -> eff the_node o Q.
Proof.
  intros HQ. apply eff_bind, eff_the_ocb, eff_bind, eff_get. intros e.
  by apply eff_of_option.
Qed.
Lemma eff_copy_to_user dst len data o Q : (forall b, Q b [] o) -> eff (copy_to_user dst len data) o Q.
Proof. intros HQ. apply eff_bind, eff_ask; [done |]. intros r. by apply eff_ret. Qed.
Lemma eff_user_words src i n o Q : (forall l, Q l [] o) -> eff (user_words src i n) o Q.
Proof.
  revert i Q. induction n as [|n IH]; intros i Q HQ; simpl; [by apply eff_ret |].
  apply eff_bind, eff_ask; [done |]. intros r. apply eff_bind, IH. intros l. by apply eff_ret.
Qed.
Lemma eff_copy_from_user src n o Q : (forall l, Q l [] o) -> eff (copy_from_user src n) o Q.
Proof.
  intros HQ. apply eff_bind, eff_ask; [done |]. intros r.
  destruct (r =? 0); [| by apply eff_ret]. apply eff_bind, eff_user_words. intros l.
  by apply eff_ret.
Qed.
Lemma eff_copy_bytes src n o Q : (forall l, Q l [] o) -> eff (copy_bytes_from_user src n) o Q.
Proof.
  intros HQ. apply eff_bind, eff_ask; [done |]. intros r.
  destruct (r =? 0); [| by apply eff_ret]. apply eff_bind, eff_user_words. intros l.
  by apply eff_ret.
Qed.
Lemma eff_get_user src o Q : (forall l, Q l [] o) -> eff (get_user src) o Q.
Proof. intros HQ. apply eff_bind, eff_copy_from_user. intros l. by apply eff_ret. Qed.
Lemma eff_for n from (body : Z -> M esd unit) (R : CAN_OCB -> list Z -> CAN_OCB -> Prop) o :
  (forall o, R o [] o) ->
  (forall o1 o2 o3 ws ws', R o1 ws o2 -> R o2 ws' o3 -> R o1 (ws' ++ ws) o3) ->
  (forall i o, eff (body i) o (fun _ ws o' => R o ws o')) ->
  eff (for_ n from body) o (fun _ ws o' => R o ws o').
Proof.
  intros Hr Ht Hb. revert from o. induction n as [|n IH]; intros from o; simpl; [by apply eff_ret |].
  apply eff_bind. eapply eff_mono; [apply Hb |]. intros [] ws o1 H1. simpl.
  eapply eff_mono; [apply IH |]. intros [] ws' o2 H2. by eapply Ht.
Qed.
End effects.

(** ** What callbacks do to a handle *)

(** a read, a write in progress *)
Definition rx_busy (o : CAN_OCB) : Prop :=
  tst (rx_state (rx o)) RX_STATE_PENDING_READ = true /\
  tst (rx_state (rx o)) RX_STATE_PENDING_TAKE = false.
Definition tx_busy (o : CAN_OCB) : Prop :=
  tst (tx_state (tx o)) TX_STATE_PENDING_WRITE = true /\
  tst (tx_state (tx o)) TX_STATE_PENDING_SEND = false.
(** no write: nothing, or frames sent without waiting for them *)
Definition tx_idle (o : CAN_OCB) : Prop :=
  tst (tx_state (tx o)) TX_STATE_PENDING_WRITE = false /\
  (tx_state (tx o) = 0 \/ tst (tx_state (tx o)) TX_STATE_PENDING_SEND = true).
Definition rx_closing (o : CAN_OCB) : bool := tst (rx_state (rx o)) RX_STATE_CLOSING.
Definition tx_closing (o : CAN_OCB) : bool := tst (tx_state (tx o)) TX_STATE_CLOSING.
Definition closed (o : CAN_OCB) : bool := tst (close_state o) CLOSE_STATE_HANDLE_CLOSED.
(** what a piece of code can leave as it is: that the handle is closed, and its memory;
    the state of reads; the state of writes *)
Record common (o o' : CAN_OCB) : Prop := Mk_common {
  cm_closed : closed o' = closed o;
  cm_done : tst (close_state o) CLOSE_STATE_CLOSE_DONE = true ->
            tst (close_state o') CLOSE_STATE_CLOSE_DONE = true;
  cm_frames : frames_ok o -> frames_ok o'
}.
Record rx_kept (o o' : CAN_OCB) : Prop := Mk_rx_kept {
  rk_idle : rx_state (rx o) = 0 -> rx_state (rx o') = 0;
  rk_busy : rx_busy o -> rx_busy o' /\ rx_closing o' = rx_closing o /\
                         rx_cm_size (rx o') = rx_cm_size (rx o)
}.
Record tx_kept (o o' : CAN_OCB) : Prop := Mk_tx_kept {
  tk_idle : tx_idle o -> tx_idle o';
  tk_none : tx_state (tx o) = 0 -> tx_state (tx o') = 0;
  tk_busy : tx_busy o -> tx_busy o' /\ tx_closing o' = tx_closing o
}.
(** callbacks leave all three *)
Record cb (o o' : CAN_OCB) : Prop := Mk_cb {
  cb_common : common o o'; cb_rx : rx_kept o o'; cb_tx : tx_kept o o'
}.

#[export] Instance common_preorder : PreOrder common.
Proof. split; [by split |]. intros o1 o2 o3 [] []. split; [congruence | auto | auto]. Qed.
#[export] Instance rx_kept_preorder : PreOrder rx_kept.
Proof.
  split; [by split |]. intros o1 o2 o3 [i1 b1] [i2 b2]. split; [auto |].
  intros (Hb & <- & <-)%b1. auto.
Qed.
#[export] Instance tx_kept_preorder : PreOrder tx_kept.
Proof.
  split; [by split |]. intros o1 o2 o3 [i1 n1 b1] [i2 n2 b2]. split; [auto | auto |].
  intros (Hb & <-)%b1. auto.
Qed.
#[export] Instance cb_preorder : PreOrder cb.
Proof. split; [done |]. intros o1 o2 o3 [] []. split; by etrans. Qed.

(** a callback hands over whole frames *)
Definition whole (c : callback) : Prop :=
  match c with
  | rx_put cm | rx_obj_put cm _ => (Z.to_nat sizeof_CAN_MSG_T <= length cm)%nat
  | _ => True
  end.

(** a call other than wake_up *)
Ltac quietly := intros ?; unfold wakes; simpl; repeat case_match; done.
(** one step of the code *)
Ltac eff1 :=
  lazymatch goal with
  | |- eff (mret _) _ _ => apply eff_ret
  | |- eff (_ ≫= _) _ _ => apply eff_bind
  | |- eff the_ocb _ _ => apply eff_the_ocb
  | |- eff (upd_rx _) _ _ => apply eff_upd_rx
  | |- eff (upd_tx _) _ _ => apply eff_upd_tx
  | |- eff (upd_ocb _) _ _ => apply eff_upd_ocb
  | |- eff (wake_up _) _ _ => apply eff_wake_up
  | |- eff node_lock _ _ => apply eff_node_lock
  | |- eff node_unlock _ _ => apply eff_node_unlock
  | |- eff (copy_to_user _ _ _) _ _ => apply eff_copy_to_user; intros ?
  | |- eff (copy_bytes_from_user _ _) _ _ => apply eff_copy_bytes; intros ?
  | |- eff (copy_from_user _ _) _ _ => apply eff_copy_from_user; intros ?
  | |- eff (get_user _) _ _ => apply eff_get_user; intros ?
  | |- eff (ask _) _ _ => apply eff_ask; [quietly | intros ?]
  | |- eff (tell _) _ _ => apply eff_tell; [quietly |]
  | |- eff (of_option _ _) _ _ => apply eff_of_option; intros ? ?
  | |- eff (when _ _) _ _ => apply eff_when; intros ?
  | |- eff (if ?b then _ else _) _ _ => destruct b eqn:?
  | |- eff (match ?x with Some _ => _ | None => _ end) _ _ => destruct x eqn:?
  end.
Ltac effs := cbv zeta; repeat (eff1; cbv beta zeta; rewrite ?app_nil_l, ?app_nil_r).

(** the two handles differ in fields that are computed *)
Ltac solve_cb :=
  first [split; split | split]; unfold closed, rx_busy, tx_busy, tx_idle, rx_closing, tx_closing, frames_ok; simpl;
  bits; simpl in *; try done; try (intros; congruence); try tauto;
  try (intros E; rewrite E in *; done); try (intros [? ?]; congruence);
  try (intros [? ?]; split_and?; congruence);
  try (intros [? [E|?]]; [rewrite E in * |]; simpl in *; (congruence || done || auto)).

Section callbacks.
Context `{Env}.

Lemma close_done_cb o : eff esdcan_close_done o (fun _ _ => cb o).
Proof. unfold esdcan_close_done. effs. solve_cb. Qed.
Lemma store_frame_cb cm o :
  (Z.to_nat sizeof_CAN_MSG_T <= length cm)%nat -> eff (store_frame cm) o (fun _ _ => cb o).
Proof.
  intros Hcm. unfold store_frame. effs. solve_cb.
  intros Ho. match goal with E : zinsert _ _ _ = Some _ |- _ => revert E end.
  unfold zinsert. case_match; [|done]. intros [= <-].
  apply Forall_insert; [done |]. rewrite length_take. lia.
Qed.
Lemma rx_done_cb result n o : eff (esdcan_rx_done result n) o (fun _ _ => cb o).
Proof. unfold esdcan_rx_done. effs; solve_cb. Qed.
Lemma tx_done_cb result n o : eff (esdcan_tx_done result n) o (fun _ _ => cb o).
Proof. unfold esdcan_tx_done. effs; solve_cb. Qed.
Lemma tx_get_cb_ cm o : eff (esdcan_tx_get cm) o (fun _ _ => cb o).
Proof. unfold esdcan_tx_get. effs; solve_cb. Qed.
Lemma tx_obj_get_cb_ n cm o : eff (tx_obj_get n cm) o (fun _ _ => cb o).
Proof. unfold tx_obj_get. effs; solve_cb. Qed.
Lemma rx_obj_put_cb cm next o :
  (Z.to_nat sizeof_CAN_MSG_T <= length cm)%nat -> eff (esdcan_rx_obj_put cm next) o (fun _ _ => cb o).
Proof.
  intros Hcm. unfold esdcan_rx_obj_put. eff1. eapply eff_mono; [by apply store_frame_cb |].
  intros [] ws o' Ho. cbv beta. effs; etrans; try exact Ho; solve_cb.
Qed.
Lemma give_cb m o : eff m o (fun _ _ => cb o) -> eff (give m) o (fun _ _ => cb o).
Proof.
  intros Hm. unfold give. eff1. eapply eff_mono; [exact Hm |]. intros [r cm] ws o' Ho. cbv beta iota. effs. done.
Qed.

Lemma run_callback_cb c o : whole c -> eff (run_callback c) o (fun _ _ => cb o).
Proof.
  assert (forall (m : M esd Z), eff m o (fun _ _ => cb o) -> eff (m;; mret tt) o (fun _ _ => cb o)) as Hd.
  { intros m Hm. eff1. eapply eff_mono; [exact Hm |]. intros r ws o' Ho. cbv beta. effs. done. }
  destruct c; simpl; intros Hc.
  - apply Hd, close_done_cb.
  - apply Hd, tx_done_cb.
  - apply give_cb, tx_get_cb_.
  - apply give_cb, tx_obj_get_cb_.
  - apply give_cb, tx_obj_get_cb_.
  - apply Hd, rx_done_cb.
  - apply Hd. unfold esdcan_rx_put. eff1. eapply eff_mono; [by apply store_frame_cb |].
    intros [] ws o' Ho. cbv beta. effs. done.
  - apply give_cb. eff1. eapply eff_mono; [by apply rx_obj_put_cb |].
    intros [r id] ws o' Ho. cbv beta iota. effs. done.
  - apply Hd. unfold esdcan_rx_notify. effs. done.
Qed.

Lemma ask_bytes_eff n o (Q : list Z -> list Z -> CAN_OCB -> Prop) :
  (forall l, length l = n -> Q l [] o) -> eff (ask_bytes n) o Q.
Proof.
  revert Q. induction n as [|n IH]; intros Q HQ; simpl; [apply eff_ret; by apply HQ |].
  eff1. eff1. eff1. apply IH. intros l Hl. effs. apply HQ. simpl. by rewrite Hl.
Qed.
Lemma callbacks_cb o : eff callbacks o (fun _ _ => cb o).
Proof.
  unfold callbacks. eff1. eff1. apply (eff_for _ _ _ (fun o _ o' => cb o o')).
  - done.
  - intros o1 o2 o3 _ _ H1 H2. by etrans.
  - intros _ o1. unfold next_callback. eff1. do 6 eff1. eff1. apply ask_bytes_eff. intros l Hl.
    eff1. apply run_callback_cb. repeat case_match; simpl; (done || (rewrite Hl; done)).
Qed.
Lemma nuc_eff name args o (Q : Z -> list Z -> CAN_OCB -> Prop) :
  String.eqb name "wake_up" = false ->
  (forall r ws o', cb o o' -> Q r ws o') -> eff (nuc name args) o Q.
Proof.
  intros Hn HQ. unfold nuc. eff1. apply eff_ask.
  { intros r. unfold wakes. simpl. rewrite Hn. by destruct args as [|? []]. }
  intros r. eff1. eapply eff_mono; [apply callbacks_cb |]. intros [] ws o' Ho. effs. by apply HQ.
Qed.
Lemma nuc_count_eff name args o (Q : Z * Z -> list Z -> CAN_OCB -> Prop) :
  String.eqb name "wake_up" = false ->
  (forall r n ws o', cb o o' -> Q (r, n) ws o') -> eff (nuc_count name args) o Q.
Proof.
  intros Hn HQ. unfold nuc_count. eff1. apply eff_ask.
  { intros r. unfold wakes. simpl. rewrite Hn. by destruct args as [|? []]. }
  intros r. eff1. eapply eff_mono; [apply callbacks_cb |]. intros [] ws o' Ho. effs. by apply HQ.
Qed.
End callbacks.

(** *** The pieces of calls *)

Lemma eff_action_check `{Env} o (Q : option Z -> list Z -> CAN_OCB -> Prop) :
  (forall r, Q r [] o) -> eff action_check o Q.
Proof. intros HQ. apply eff_bind, eff_the_node. intros n. by apply eff_ret. Qed.

(** goals on the handle after some updates and callbacks *)
Ltac eff_nuc1 :=
  lazymatch goal with
  | |- eff action_check _ _ => apply eff_action_check; intros ?
  | |- eff (nuc _ _) _ _ => apply nuc_eff; [done | intros ? ? ? ?]
  | |- eff (nuc_count _ _) _ _ => apply nuc_count_eff; [done | intros ? ? ? ? ?]
  | |- eff (let '(_, _) := (_, _) in _) _ _ => cbv beta iota
  end.
Ltac effn := cbv zeta; repeat ((eff1 || eff_nuc1); cbv beta iota zeta; rewrite ?app_nil_l, ?app_nil_r).
Ltac computed :=
  split; unfold closed, rx_busy, tx_busy, tx_idle, rx_closing, tx_closing, frames_ok; simpl;
  bits; simpl in *; try done; try (intros; congruence); try tauto;
  try (intros [? [E|?]]; [rewrite E in * |]; simpl in *; (congruence || done || auto)).
Ltac chain :=
  match goal with
  | Hc : cb ?x ?o' |- common _ ?o' => transitivity x; [| exact (cb_common _ _ Hc)]; clear Hc; chain
  | Hc : cb ?x ?o' |- rx_kept _ ?o' => transitivity x; [| exact (cb_rx _ _ Hc)]; clear Hc; chain
  | Hc : cb ?x ?o' |- tx_kept _ ?o' => transitivity x; [| exact (cb_tx _ _ Hc)]; clear Hc; chain
  | Hc : cb ?x ?o' |- rx_busy ?o' => apply (rk_busy _ _ (cb_rx _ _ Hc)); clear Hc; chain
  | Hc : cb ?x ?o' |- rx_state (rx ?o') = 0 => apply (rk_idle _ _ (cb_rx _ _ Hc)); clear Hc; chain
  | Hc : cb ?x ?o' |- tx_state (tx ?o') = 0 => apply (tk_none _ _ (cb_tx _ _ Hc)); clear Hc; chain
  | Hc : cb ?x ?o' |- rx_cm_size (rx ?o') = _ =>
      etransitivity; [apply (rk_busy _ _ (cb_rx _ _ Hc)) |]; clear Hc; chain
  | Hc : cb ?x ?o' |- tx_busy ?o' => apply (tk_busy _ _ (cb_tx _ _ Hc)); clear Hc; chain
  | |- common ?o ?o => reflexivity
  | |- rx_kept ?o ?o => reflexivity
  | |- tx_kept ?o ?o => reflexivity
  | |- common _ (fset _ _ ?x) => transitivity x; [chain | computed]
  | |- rx_kept _ (fset tx _ ?x) => transitivity x; [chain | computed]
  | |- tx_kept _ (fset rx _ ?x) => transitivity x; [chain | computed]
  | |- cb _ _ => split; chain
  | _ => idtac
  end.

Section pieces.
Context `{Env}.

Lemma read_begin_eff buf n size o :
  eff (read_begin buf n size) o (fun r _ o' =>
    match r with
    | Some _ => cb o o'
    | None => rx_state (rx o) = 0 /\ common o o' /\ tx_kept o o' /\ rx_busy o' /\
              rx_cm_size (rx o') = size
    end).
Proof.
  unfold read_begin. effn; try reflexivity.
  - assert (rx_state (rx o) = 0) by lia. chain. split; [done |]. intros [Hb _]. by apply tst_nonzero in Hb.
  - split_and!; [lia | chain | chain | chain; done |]. chain; done.
Qed.

Lemma read_interrupted_cb o : rx_busy o -> eff read_interrupted o (fun _ _ => cb o).
Proof.
  intros Hb%proj1%tst_nonzero. unfold read_interrupted. effn; try reflexivity; chain; by computed.
Qed.
Lemma frames_to_user_eff bytes dest i n o (Q : bool -> list Z -> CAN_OCB -> Prop) :
  (forall b, Q b [] o) -> eff (frames_to_user bytes dest i n) o Q.
Proof.
  revert dest i Q. induction n as [|n IH]; intros dest i Q HQ; simpl; [by apply eff_ret |].
  effn; [done |]. by apply IH.
Qed.
Lemma read_end_eff buf flag o :
  eff (read_end buf flag) o (fun _ ws o' =>
    common o o' /\ tx_kept o o' /\ rx_state (rx o') = 0 /\
    (rx_closing o = true -> wqCloseDelay ∈ ws)).
Proof.
  unfold read_end. effn; try apply frames_to_user_eff; intros; effn;
    (split_and!; [chain | chain | done |]); unfold rx_closing; intros;
    first [by rewrite ?elem_of_app, list_elem_of_singleton; auto | congruence].
Qed.

(** a state that is put back *)
Lemma tx_kept_same o o1 o2 : tx_state (tx o2) = tx_state (tx o1) -> tx_kept o o1 -> tx_kept o o2.
Proof.
  intros E []. split; unfold tx_idle, tx_busy, tx_closing in *; rewrite E; auto.
Qed.

Lemma write_begin_eff buf n size o :
  eff (write_begin buf n size) o (fun r _ o' =>
    match r with
    | inl _ => cb o o'
    | inr _ => tst (tx_state (tx o)) TX_STATE_PENDING_WRITE = false /\ common o o' /\ rx_kept o o' /\ tx_busy o'
    end).
Proof.
  assert (tst (tx_state (tx o)) (Z.lor TX_STATE_PENDING_WRITE TX_STATE_ABORT) = false ->
    tst (tx_state (tx o)) TX_STATE_PENDING_WRITE = false) as Hidle by (rewrite tst_or; by intros [??]%orb_false_iff).
  unfold write_begin. effn; try reflexivity; try (chain; done);
    try (split_and!; [auto | chain | chain | chain]; by computed).
  split; [chain | chain |].
  lazymatch goal with _ : cb o ?o1, _ : cb ?o1 ?o2 |- _ =>
    apply (tx_kept_same _ o2); [done | by transitivity o1; apply cb_tx] end.
Qed.

Lemma write_interrupted_cb old o : tx_busy o -> eff (write_interrupted old) o (fun _ _ => cb o).
Proof.
  intros [Hb _]. pose proof (tst_nonzero _ _ Hb). unfold write_interrupted.
  effn; try reflexivity; chain; computed.
Qed.
Lemma write_end_eff old flag o :
  eff (write_end old flag) o (fun _ ws o' =>
    common o o' /\ rx_kept o o' /\ tx_state (tx o') = 0 /\
    (tx_closing o = true -> wqCloseDelay ∈ ws)).
Proof.
  unfold write_end. effn; (split_and!; [chain | chain | done |]); unfold tx_closing; intros;
    first [by rewrite ?elem_of_app, list_elem_of_singleton; auto | congruence].
Qed.

Lemma destroy_begin_eff o :
  eff destroy_begin o (fun _ _ o' =>
    closed o' = true /\ (frames_ok o -> frames_ok o') /\
    (rx_state (rx o) = 0 -> rx_state (rx o') = 0) /\
    (rx_busy o -> rx_busy o' /\ rx_closing o' = true /\ rx_cm_size (rx o') = rx_cm_size (rx o)) /\
    (tx_idle o -> tx_idle o') /\ (tx_busy o -> tx_busy o' /\ tx_closing o' = true)).
Proof.
  unfold destroy_begin. effn.
  match goal with Hc : cb ?x _ |- _ => destruct Hc as [[Hcl Hd Hf] [Hri Hrb] [Hti Htn Htb]]; set (y := x) in * end.
  assert (rx y = if rx_state (rx o) =? 0 then rx o
                 else (rx o) <| rx_state ::= fun s => Z.lor s RX_STATE_CLOSING |>) as Er by done.
  assert (tx y = if tx_state (tx o) =? 0 then tx o
                 else (tx o) <| tx_state ::= fun s => Z.lor s TX_STATE_CLOSING |>) as Et by done.
  assert (closed y = true) as Ec by (unfold closed, y; simpl; by bits).
  clearbody y. unfold rx_busy, tx_busy, tx_idle, rx_closing, tx_closing, frames_ok in *.
  rewrite Er, Et in *. split_and!; [congruence | | | | |].
  - intros Hok. apply Hf. destruct (_ =? 0); exact Hok.
  - intros E. apply Hri. by rewrite E.
  - intros [Hb Ht]. pose proof (tst_nonzero _ _ Hb). destruct (Z.eqb_spec (rx_state (rx o)) 0); [done |].
    destruct Hrb as (? & -> & ->); simpl; bits; done.
  - intros [Hi Hz]. apply Hti. destruct (Z.eqb_spec (tx_state (tx o)) 0) as [E|E]; simpl; [auto |].
    bits. split; [done | right]. by destruct Hz.
  - intros [Hb Ht]. pose proof (tst_nonzero _ _ Hb). destruct (Z.eqb_spec (tx_state (tx o)) 0); [done |].
    destruct Htb as (? & ->); simpl; bits; done.
Qed.

Lemma take_frames_cb buf n o : eff (take_frames buf n) o (fun _ _ => cb o).
Proof.
  unfold take_frames. effn; try reflexivity; chain;
    match goal with |- rx_kept _ (fset _ _ ?x) => transitivity x; [chain | computed] end.
Qed.
(** the state of reads while there is none *)
Lemma rx_kept_idle o o' : rx_state (rx o) = 0 -> rx_state (rx o') = 0 -> rx_kept o o'.
Proof. split; [done |]. intros [Hb _]. by apply tst_nonzero in Hb. Qed.
Lemma ioctl_take_cb buf n size o : eff (ioctl_take buf n size) o (fun _ _ => cb o).
Proof.
  unfold ioctl_take. effn; try reflexivity.
  assert (rx_state (rx o) = 0) as E by (by apply negb_false_iff, Z.eqb_eq in Heqb).
  eapply eff_mono; [apply take_frames_cb |]. intros result ws o' Ho. cbv beta in *.
  effn; try (split; [chain | by apply rx_kept_idle | chain]).
  all: apply frames_to_user_eff; intros ok; effn;
    split; [chain | by apply rx_kept_idle | chain].
Qed.
Lemma ioctl_send_eff buf n size o :
  eff (ioctl_send buf n size) o (fun _ _ o' =>
    common o o' /\ rx_kept o o' /\ (tx_idle o -> tx_idle o') /\
    (tx_busy o -> tx_busy o' /\ tx_closing o' = tx_closing o)).
Proof.
  unfold ioctl_send. effn; try done.
  - split_and!; [chain | chain | done | intros [? _]; congruence].
  - split_and!; [chain | chain | | intros [? _]; congruence].
    intros _. match goal with Hc : cb _ _ |- _ => apply (tk_idle _ _ (cb_tx _ _ Hc)) end.
    split; [done | by right].
Qed.
End pieces.

(** ** Processes in the driver *)
Module Procs.

(** where the call of a process is *)
Inductive place :=
| reading (buf : Z)                     (** waits for frames *)
| read_signalled (buf : Z)              (** got a signal, wants the mutex *)
| read_aborting (buf : Z)               (** waits for the end of the abort *)
| read_leaving (buf : Z) (flag : bool)  (** has waited, wants the mutex *)
| writing (old : Z)
| write_signalled (old : Z)
| write_aborting (old : Z)
| write_leaving (old : Z) (flag : bool)
| closing (result : Z)
| close_leaving (result : Z)
| close_returned (result : Z)
| returned (result : Z).

Inductive command :=
| Read (buf cm_count objSize : Z)
| Write (buf cm_count objSize : Z)
| Close
| Take (buf size objSize : Z)
| Send (buf size objSize : Z).

Definition well_formed (c : command) : Prop :=
  match c with
  | Read _ _ objSize | Write _ _ objSize => cm_format objSize
  | _ => True
  end.

Section pieces.
Context `{Env}.

(** what esdcan_ioctl_internal does around a command on an open file *)
Definition guarded (m : M esd place) : M esd place :=
  node_lock;;
  o ← the_ocb;
  if closed o then node_unlock;; mret (returned (- OSIF_INVALID_HANDLE)) else m.
Definition leave {A} (a : A) : M esd A := nuc "nuc_check_links" [];; node_unlock;; mret a.

Definition enter (c : command) : M esd place :=
  guarded (
    match c with
    | Read buf cm_count objSize =>
        r ← read_begin buf cm_count objSize;
        match r with
        | Some r => leave (returned r)
        | None => node_unlock;; mret (reading buf)
        end
    | Write buf cm_count objSize =>
        r ← write_begin buf cm_count objSize;
        match r with
        | inl r => leave (returned r)
        | inr old => node_unlock;; mret (writing old)
        end
    | Close => result ← destroy_begin; mret (closing result)
    | Take buf size objSize => '(r, _) ← ioctl_take buf size objSize; leave (returned (- r))
    | Send buf size objSize => '(r, _) ← ioctl_send buf size objSize; leave (returned (- r))
    end).

(** the rest of a call that has the mutex again *)
Definition proceed (p : place) : option (M esd place) :=
  match p with
  | read_signalled buf =>
      Some (b ← read_interrupted; mret (if b : bool then read_aborting buf else read_leaving buf false))
  | read_leaving buf flag => Some (r ← read_end buf flag; leave (returned r))
  | write_signalled old =>
      Some (b ← write_interrupted old;
            mret (if b : bool then write_aborting old else write_leaving old false))
  | write_leaving old flag => Some (r ← write_end old flag; leave (returned r))
  | close_leaving result => Some (node_lock;; leave (close_returned result))
  | _ => None
  end.
End pieces.

(** the waits: the queue, the condition, and where the call goes on *)
Definition waits (p : place) : option (Z * (CAN_OCB -> bool) * place) :=
  match p with
  | reading buf => Some (wqRx, read_ready, read_leaving buf false)
  | read_aborting buf => Some (wqRx, read_aborted, read_leaving buf true)
  | writing old => Some (wqTx, write_ready old, write_leaving old false)
  | write_aborting old => Some (wqTx, write_aborted, write_leaving old true)
  | closing result => Some (wqCloseDelay, destroy_ready, close_leaving result)
  | _ => None
  end.
(** where a signal takes a call that waits *)
Definition signalled (p : place) : option place :=
  match p with
  | reading buf => Some (read_signalled buf)
  | writing old => Some (write_signalled old)
  | _ => None
  end.

Record proc := Mk_proc { place_of : place; asleep : bool }.
Definition woken (ws : list Z) (p : proc) : proc :=
  match waits (place_of p) with
  | Some (q, _, _) => if bool_decide (q ∈ ws) then Mk_proc (place_of p) false else p
  | None => p
  end.

Record config := Mk_config { now : world esd; procs : list proc }.

(** a piece of code that runs, in some environment, and the queues it wakes *)
Definition ran {A} (m : forall E : Env, M esd A) (w : world esd) (a : A) (ws : list Z)
    (w' : world esd) : Prop :=
  exists (E : Env) evs, m E w = Ret a w' /\ w_log w' = evs ++ w_log w /\ ws = wakes evs.

Inductive step : config -> config -> Prop :=
| step_enter c w ps p ws w' :
    well_formed c ->
    ran (fun E => enter c) w p ws w' ->
    step (Mk_config w ps) (Mk_config w' ((woken ws <$> ps) ++ [Mk_proc p false]))
| step_proceed i p m w ps p' ws w' :
    ps !! i = Some (Mk_proc p false) ->
    (forall E, proceed p = Some (m E)) ->
    ran m w p' ws w' ->
    step (Mk_config w ps) (Mk_config w' (<[i := Mk_proc p' false]> (woken ws <$> ps)))
| step_callback c w ps ws w' :
    whole c ->
    ran (fun E => run_callback c) w tt ws w' ->
    step (Mk_config w ps) (Mk_config w' (woken ws <$> ps))
| step_sleep i p q cond next w ps o :
    ps !! i = Some (Mk_proc p false) -> waits p = Some (q, cond, next) ->
    handle w = Some o -> cond o = false ->
    step (Mk_config w ps) (Mk_config w (<[i := Mk_proc p true]> ps))
| step_waited i p q cond next w ps o :
    ps !! i = Some (Mk_proc p false) -> waits p = Some (q, cond, next) ->
    handle w = Some o -> cond o = true ->
    step (Mk_config w ps) (Mk_config w (<[i := Mk_proc next false]> ps))
| step_signal i p b p' w ps :
    ps !! i = Some (Mk_proc p b) -> signalled p = Some p' ->
    step (Mk_config w ps) (Mk_config w (<[i := Mk_proc p false]> ps))
| step_signalled i p q cond next p' w ps o :
    ps !! i = Some (Mk_proc p false) -> signalled p = Some p' ->
    waits p = Some (q, cond, next) -> handle w = Some o -> cond o = false ->
    step (Mk_config w ps) (Mk_config w (<[i := Mk_proc p' false]> ps)).

(** a handle just opened *)
Inductive opened : config -> Prop :=
| Opened w o : handle w = Some o -> frames_ok o -> rx_state (rx o) = 0 -> tx_state (tx o) = 0 ->
               closed o = false -> opened (Mk_config w []).
Definition reachable (c : config) : Prop := exists c0, opened c0 /\ rtc step c0 c.

(** ** Who is in the driver *)
Inductive role := Reader | Writer | Closer | Nobody.
#[export] Instance role_eq_dec : EqDecision role.
Proof. solve_decision. Defined.
Definition role_of (p : place) : role :=
  match p with
  | reading _ | read_signalled _ | read_aborting _ | read_leaving _ _ => Reader
  | writing _ | write_signalled _ | write_aborting _ | write_leaving _ _ => Writer
  | closing _ | close_leaving _ | close_returned _ => Closer
  | returned _ => Nobody
  end.
(** the close has waited *)
Definition finished (p : place) : bool :=
  match p with close_leaving _ | close_returned _ => true | _ => false end.

Definition ind (r : role) (p : place) : nat := if decide (role_of p = r) then 1 else 0.
Definition number (r : role) (ps : list place) : nat := sum_list_with (ind r) ps.

(** what the handle says about the processes: [nr] readers, [nw] writers, [nc] closers;
    [fin]: the close has waited *)
Record inv (o : CAN_OCB) (nr nw nc : nat) (fin : bool) : Prop := Mk_inv {
  i_frames : frames_ok o;
  i_no_reader : nr = 0%nat -> rx_state (rx o) = 0;
  i_reader : nr <> 0%nat ->
    nr = 1%nat /\ rx_busy o /\ cm_format (rx_cm_size (rx o)) /\ (closed o = true -> rx_closing o = true);
  i_no_writer : nw = 0%nat -> tx_idle o;
  i_writer : nw <> 0%nat -> nw = 1%nat /\ tx_busy o /\ (closed o = true -> tx_closing o = true);
  i_closer : nc = if closed o then 1%nat else 0%nat;
  i_fin : fin = true -> nr = 0%nat /\ nw = 0%nat /\ closed o = true
}.

(** a piece that keeps all of it *)
Lemma inv_kept o o' nr nw nc fin :
  inv o nr nw nc fin -> common o o' -> rx_kept o o' -> (tx_idle o -> tx_idle o') ->
  (tx_busy o -> tx_busy o' /\ tx_closing o' = tx_closing o) -> inv o' nr nw nc fin.
Proof.
  intros [If Ir0 Ir1 Iw0 Iw1 Ic Ifin] [Hc Hd Hf] [Hri Hrb] Hti Htb.
  split; rewrite ?Hc; auto.
  - intros Hn. destruct (Ir1 Hn) as (? & Hb & ? & ?). destruct (Hrb Hb) as (? & -> & ->). auto.
  - intros Hn. destruct (Iw1 Hn) as (? & Hb & ?). destruct (Htb Hb) as (? & ->). auto.
Qed.
Lemma inv_cb o o' nr nw nc fin : inv o nr nw nc fin -> cb o o' -> inv o' nr nw nc fin.
Proof. intros Hi [Hc Hr [? ? ?]]. by eapply inv_kept. Qed.

(** a call that begins: no other process has one of its kind *)
Lemma inv_reader o o' nr nw nc fin :
  inv o nr nw nc fin -> closed o = false -> common o o' -> tx_kept o o' ->
  rx_state (rx o) = 0 -> rx_busy o' -> cm_format (rx_cm_size (rx o')) -> inv o' (nr + 1) nw nc fin.
Proof.
  intros [If Ir0 Ir1 Iw0 Iw1 Ic Ifin] Hop [Hc Hd Hf] [Hti _ Htb] H0 Hb Hs.
  assert (nr = 0%nat) as ->.
  { destruct (decide (nr = 0%nat)) as [|Hn]; [done |]. destruct (Ir1 Hn) as (_ & [Hb' _] & _).
    by apply tst_nonzero in Hb'. }
  rewrite Hop in *. split; rewrite ?Hc, ?Hop; auto; try done.
  - intros Hn. destruct (Iw1 Hn) as (? & Hb' & ?). destruct (Htb Hb') as (? & ->). auto.
  - intros E. destruct (Ifin E) as (_ & _ & ?). done.
Qed.
Lemma inv_writer o o' nr nw nc fin :
  inv o nr nw nc fin -> closed o = false -> common o o' -> rx_kept o o' ->
  tst (tx_state (tx o)) TX_STATE_PENDING_WRITE = false -> tx_busy o' -> inv o' nr (nw + 1) nc fin.
Proof.
  intros [If Ir0 Ir1 Iw0 Iw1 Ic Ifin] Hop [Hc Hd Hf] [Hri Hrb] H0 Hb.
  assert (nw = 0%nat) as ->.
  { destruct (decide (nw = 0%nat)) as [|Hn]; [done |]. destruct (Iw1 Hn) as (_ & [Hb' _] & _).
    congruence. }
  rewrite Hop in *. split; rewrite ?Hc, ?Hop; auto; try done.
  - intros Hn. destruct (Ir1 Hn) as (? & Hb' & ? & ?). destruct (Hrb Hb') as (? & -> & ->). auto.
  - intros E. destruct (Ifin E) as (_ & _ & ?). done.
Qed.

Section steps.
Context `{Env}.

Lemma leave_cb {A} (a : A) o (Q : A -> list Z -> CAN_OCB -> Prop) :
  (forall ws o', cb o o' -> Q a ws o') -> eff (leave a) o Q.
Proof. intros HQ. unfold leave. effn. auto. Qed.

Lemma enter_inv c o nr nw nc fin :
  well_formed c -> inv o nr nw nc fin ->
  eff (enter c) o (fun p _ o' =>
    inv o' (nr + ind Reader p) (nw + ind Writer p) (nc + ind Closer p) fin /\
    finished p = false /\
    (closed o = true -> p = returned (- OSIF_INVALID_HANDLE) /\ o' = o)).
Proof.
  intros Hwf Hi. unfold enter, guarded. effn.
  { split_and!; [| done | done]. unfold ind; simpl. by rewrite !Nat.add_0_r. }
  rename Heqb into Hop. eapply eff_mono with (Q := fun p _ o' =>
    inv o' (nr + ind Reader p) (nw + ind Writer p) (nc + ind Closer p) fin /\ finished p = false).
  2: { intros p ws o' [? ?]. split_and!; [done | done | congruence]. }
  assert (forall o1 r, inv o1 nr nw nc fin -> eff (leave (returned r)) o1 (fun p _ o' =>
    inv o' (nr + ind Reader p) (nw + ind Writer p) (nc + ind Closer p) fin /\ finished p = false))
    as Hleave.
  { intros o1 r H1. apply leave_cb. intros ws o' Ho. unfold ind; simpl. rewrite !Nat.add_0_r.
    split; [by eapply inv_cb | done]. }
  destruct c as [buf n size|buf n size| |buf size objSize|buf size objSize]; eff1.
  - eapply eff_mono; [apply read_begin_eff |]. intros [r|] ws o1 Ho; cbv beta iota in Ho |- *.
    + apply Hleave. by eapply inv_cb.
    + destruct Ho as (H0 & Hc & Ht & Hb & <-). effn. split; [| done]. unfold ind; simpl.
      rewrite !Nat.add_0_r. by eapply inv_reader.
  - eapply eff_mono; [apply write_begin_eff |]. intros [r|old] ws o1 Ho; cbv beta iota in Ho |- *.
    + apply Hleave. by eapply inv_cb.
    + destruct Ho as (H0 & Hc & Hr & Hb). effn. split; [| done]. unfold ind; simpl.
      rewrite !Nat.add_0_r. by eapply inv_writer.
  - eapply eff_mono; [apply destroy_begin_eff |]. intros r ws o1 Ho; cbv beta iota in Ho |- *.
    destruct Ho as (Hc & Hf & Hr0 & Hr1 & Ht0 & Ht1). effn. split; [| done]. unfold ind; simpl.
    rewrite !Nat.add_0_r. destruct Hi as [If Ir0 Ir1 Iw0 Iw1 Ic Ifin]. rewrite Hop in *.
    split; auto.
    + intros Hn. destruct (Ir1 Hn) as (? & Hb & ? & _). destruct (Hr1 Hb) as (? & ? & ->). auto.
    + intros Hn. destruct (Iw1 Hn) as (? & Hb & _). destruct (Ht1 Hb) as (? & ?). auto.
    + rewrite Hc. lia.
    + intros E. by destruct (Ifin E) as (_ & _ & ?).
  - eapply eff_mono; [apply ioctl_take_cb |]. intros [r sz] ws o1 Ho; cbv beta iota in Ho |- *.
    apply Hleave. by eapply inv_cb.
  - eapply eff_mono; [apply ioctl_send_eff |]. intros [r sz] ws o1 Ho; cbv beta iota in Ho |- *.
    destruct Ho as (? & ? & ? & ?). apply Hleave. by eapply inv_kept.
Qed.

Lemma proceed_inv p m o nr nw nc fin :
  proceed p = Some m ->
  inv o (nr + ind Reader p) (nw + ind Writer p) (nc + ind Closer p) fin ->
  (finished p = true -> fin = true) ->
  eff m o (fun p' _ o' =>
    inv o' (nr + ind Reader p') (nw + ind Writer p') (nc + ind Closer p') fin /\
    (finished p' = true -> fin = true)).
Proof.
  intros Hm Hi Hfin. destruct p; try done; injection Hm as <-; unfold ind in Hi; simpl in Hi;
    rewrite ?Nat.add_0_r in Hi; eff1.
  - eapply eff_mono; [apply read_interrupted_cb; by apply (i_reader _ _ _ _ _ Hi); lia |].
    intros b ws o' Ho. cbv beta in *. effn.
    split; [| by destruct b]. destruct b; unfold ind; simpl; rewrite ?Nat.add_0_r; by eapply inv_cb.
  - eapply eff_mono; [apply read_end_eff |]. intros r ws o' (Hc & Ht & H0 & _).
    apply leave_cb. intros ws' o'' Ho. split; [| done]. unfold ind; simpl. rewrite ?Nat.add_0_r.
    eapply inv_cb; [| exact Ho]. destruct Hi as [If Ir0 Ir1 Iw0 Iw1 Ic Ifin], Hc as [Hcl Hd Hf], Ht as [Hti _ Htb].
    destruct (Ir1 ltac:(lia)) as (E & _). split; rewrite ?Hcl; auto; try (intros; lia).
    + intros Hn. destruct (Iw1 Hn) as (? & Hb' & ?). destruct (Htb Hb') as (? & ->). auto.
    + intros F. destruct (Ifin F) as (? & ? & ?). split_and!; [lia | done | done].
  - eapply eff_mono; [apply write_interrupted_cb; by apply (i_writer _ _ _ _ _ Hi); lia |].
    intros b ws o' Ho. cbv beta in *. effn.
    split; [| by destruct b]. destruct b; unfold ind; simpl; rewrite ?Nat.add_0_r; by eapply inv_cb.
  - eapply eff_mono; [apply write_end_eff |]. intros r ws o' (Hc & Hr & H0 & _).
    apply leave_cb. intros ws' o'' Ho. split; [| done]. unfold ind; simpl. rewrite ?Nat.add_0_r.
    eapply inv_cb; [| exact Ho]. destruct Hi as [If Ir0 Ir1 Iw0 Iw1 Ic Ifin], Hc as [Hcl Hd Hf], Hr as [Hri Hrb].
    destruct (Iw1 ltac:(lia)) as (E & _). split; rewrite ?Hcl; auto; try (intros; lia).
    + intros Hn. destruct (Ir1 Hn) as (? & Hb' & ? & ?). destruct (Hrb Hb') as (? & -> & ->). auto.
    + intros _. split; rewrite H0; auto.
    + intros F. destruct (Ifin F) as (? & ? & ?). split_and!; [done | lia | done].
  - effn. apply leave_cb. intros ws o' Ho. split; [| auto]. unfold ind; simpl. rewrite ?Nat.add_0_r.
    by eapply inv_cb.
Qed.
End steps.

(** *** The system *)

Definition places (c : config) : list place := place_of <$> procs c.

Lemma sum_insert {A} (f : A -> nat) ps i p :
  ps !! i = Some p ->
  exists n, sum_list_with f ps = (n + f p)%nat /\ forall p', sum_list_with f (<[i := p']> ps) = (n + f p')%nat.
Proof.
  revert i. induction ps as [|q ps IH]; intros [|i] Hi; try done; simpl in *.
  - injection Hi as ->. exists (sum_list_with f ps). split; intros; lia.
  - destruct (IH i Hi) as (n & E & E'). exists (f q + n)%nat. split; intros; rewrite ?E'; lia.
Qed.
Lemma number_insert r ps i p :
  ps !! i = Some p ->
  exists n, number r ps = (n + ind r p)%nat /\ forall p', number r (<[i := p']> ps) = (n + ind r p')%nat.
Proof. apply sum_insert. Qed.
Lemma number_app r ps qs : number r (ps ++ qs) = (number r ps + number r qs)%nat.
Proof. apply sum_list_with_app. Qed.
Lemma number_one r p : number r [p] = ind r p.
Proof. apply Nat.add_0_r. Qed.
Lemma place_of_woken ws p : place_of (woken ws p) = place_of p.
Proof. unfold woken. by repeat case_match. Qed.
Lemma places_woken ws (ps : list proc) : place_of <$> (woken ws <$> ps) = place_of <$> ps.
Proof. rewrite <- list_fmap_compose. apply list_fmap_ext. intros _ p _. apply place_of_woken. Qed.

Definition Inv (c : config) : Prop :=
  exists o fin, handle (now c) = Some o /\
    inv o (number Reader (places c)) (number Writer (places c)) (number Closer (places c)) fin /\
    forall p, p ∈ places c -> finished p = true -> fin = true.

(** the same, for a place [i] that changes *)
Lemma Inv_place c i p :
  Inv c -> places c !! i = Some p ->
  exists o nr nw nc fin, handle (now c) = Some o /\
    inv o (nr + ind Reader p) (nw + ind Writer p) (nc + ind Closer p) fin /\
    (finished p = true -> fin = true) /\
    forall w o' fin' ps' p', handle w = Some o' -> place_of <$> ps' = <[i := p']> (places c) ->
      inv o' (nr + ind Reader p') (nw + ind Writer p') (nc + ind Closer p') fin' ->
      (fin = true -> fin' = true) -> (finished p' = true -> fin' = true) ->
      Inv (Mk_config w ps').
Proof.
  intros (o & fin & Ho & Hi & Hf) Hp.
  destruct (number_insert Reader _ _ _ Hp) as (nr & Er & Er').
  destruct (number_insert Writer _ _ _ Hp) as (nw & Ew & Ew').
  destruct (number_insert Closer _ _ _ Hp) as (nc & Ec & Ec').
  exists o, nr, nw, nc, fin. rewrite <- Er, <- Ew, <- Ec. split_and!; [done | done | |].
  { apply Hf. by eapply list_elem_of_lookup_2. }
  intros w o' fin' ps' p' Hw Hps Hi' Hff Hfp. exists o', fin'. unfold places. simpl.
  rewrite Hps, Er', Ew', Ec'. split_and!; [done | done |].
  intros q [k Hk]%list_elem_of_lookup Hq. apply list_lookup_insert_Some in Hk as [(-> & -> & _)|(_ & Hk)]; [auto |].
  apply Hff, (Hf q); [by eapply list_elem_of_lookup_2 | done].
Qed.

(** a run of a piece, by its effect *)
Lemma ran_eff {A} (m : forall E : Env, M esd A) w a ws w' o Q :
  ran m w a ws w' -> handle w = Some o -> (forall E, eff (m E) o Q) ->
  exists o', handle w' = Some o' /\ Q a ws o'.
Proof.
  intros (E & evs & Hr & Hl & ->) Ho Hm. destruct (Hm E w a w' Ho Hr) as (o' & evs' & Ho' & Hl' & HQ).
  exists o'. rewrite Hl in Hl'. apply app_inv_tail in Hl' as ->. done.
Qed.

(** what the waits leave as it is: the process keeps its role *)
Lemma waits_role p q cond next :
  waits p = Some (q, cond, next) -> forall r, ind r next = ind r p.
Proof. destruct p; try done; intros [= <- <- <-] r; done. Qed.
Lemma signalled_role p p' : signalled p = Some p' -> (forall r, ind r p' = ind r p) /\ finished p' = false.
Proof. destruct p; try done; intros [= <-]; done. Qed.

(** the condition of a close holds when nobody reads or writes *)
Lemma close_waited o nr nw nc fin result :
  inv o (nr + ind Reader (closing result)) (nw + ind Writer (closing result))
    (nc + ind Closer (closing result)) fin ->
  destroy_ready o = true -> inv o (nr + 0) (nw + 0) (nc + 1) true.
Proof.
  intros [If Ir0 Ir1 Iw0 Iw1 Ic Ifin]. unfold ind in *. simpl in *.
  unfold destroy_ready. intros [[_ Ht%negb_true_iff]%andb_true_iff Hr%negb_true_iff]%andb_true_iff.
  assert (closed o = true) as Hcl by (destruct (closed o); [done | lia]).
  split; auto. intros _. split_and!; [| | done].
  - destruct (decide (nr + 0 = 0)%nat) as [|Hn]; [done |]. destruct (Ir1 Hn) as (_ & _ & _ & E).
    unfold rx_closing in E. rewrite Hr in E. by specialize (E Hcl).
  - destruct (decide (nw + 0 = 0)%nat) as [|Hn]; [done |]. destruct (Iw1 Hn) as (_ & _ & E).
    unfold tx_closing in E. rewrite Ht in E. by specialize (E Hcl).
Qed.

Lemma place_at (ps : list proc) i p b : ps !! i = Some (Mk_proc p b) -> (place_of <$> ps) !! i = Some p.
Proof. intros E. by rewrite list_lookup_fmap, E. Qed.
Lemma place_same (ps : list proc) i p b b' :
  ps !! i = Some (Mk_proc p b) -> place_of <$> <[i := Mk_proc p b']> ps = place_of <$> ps.
Proof.
  intros E. rewrite list_fmap_insert. apply list_insert_id. by eapply place_at.
Qed.


(** a process of which only sleep changes *)
Lemma Inv_same w ps w' ps' o :
  Inv (Mk_config w ps) -> handle w = Some o -> place_of <$> ps' = place_of <$> ps ->
  (exists o', handle w' = Some o' /\ cb o o') -> Inv (Mk_config w' ps').
Proof.
  intros (o0 & fin & Ho0 & Hi & Hf) Ho Hps (o' & Ho' & Hcb). simpl in Ho0. rewrite Ho in Ho0.
  injection Ho0 as <-. exists o', fin. unfold places in *. simpl in *. rewrite Hps.
  split_and!; [done | by eapply inv_cb | done].
Qed.

Lemma Inv_step c c' : Inv c -> step c c' -> Inv c'.
Proof.
  intros HI Hs. destruct Hs as [cmd w ps p ws w' Hwf Hr|i p m w ps p' ws w' Hi Hm Hr|cb0 w ps ws w' Hw Hr
    |i p q cond next w ps o Hi Hq Ho Hc|i p q cond next w ps o Hi Hq Ho Hc|i p b p' w ps Hi Hs
    |i p q cond next p' w ps o Hi Hs Hq Ho Hc].
  - destruct HI as (o & fin & Ho & Hi & Hf). simpl in *.
    destruct (ran_eff _ _ _ _ _ _ _ Hr Ho (fun E => enter_inv _ _ _ _ _ _ Hwf Hi))
      as (o' & Ho' & Hi' & Hp & _).
    exists o', fin. split; [done |]. unfold places in *. simpl in *.
    rewrite fmap_app, places_woken, !number_app. cbn [fmap list_fmap place_of].
    rewrite !number_one. split; [done |].
    intros r [Hin|Hin]%elem_of_app; [eauto |]. apply list_elem_of_singleton in Hin as ->. congruence.
  - destruct (Inv_place _ _ _ HI (place_at _ _ _ _ Hi)) as (o & nr & nw & nc & fin & Ho & Hi0 & Hf & Hk).
    simpl in *. destruct (ran_eff _ _ _ _ _ _ _ Hr Ho (fun E => proceed_inv _ _ _ _ _ _ _ (Hm E) Hi0 Hf))
      as (o' & Ho' & Hi' & Hf').
    eapply Hk; [exact Ho' | | exact Hi' | auto | auto].
    by rewrite list_fmap_insert, places_woken.
  - destruct HI as (o & fin & Ho & Hi & Hf). simpl in *.
    destruct (ran_eff _ _ _ _ _ _ _ Hr Ho (fun E => run_callback_cb _ _ Hw)) as (o' & Ho' & Hcb).
    eapply (Inv_same w ps); [by exists o, fin | done | apply places_woken | eauto].
  - eapply (Inv_same w ps); [done | done | by eapply place_same | by exists o].
  - destruct (Inv_place _ _ _ HI (place_at _ _ _ _ Hi)) as (o1 & nr & nw & nc & fin & Ho1 & Hi0 & Hf & Hk).
    simpl in *. rewrite Ho in Ho1. injection Ho1 as <-. pose proof (waits_role _ _ _ _ Hq) as Hrole.
    apply (Hk w o (fin || finished next) _ next);
      [done | by rewrite list_fmap_insert | | by intros -> | intros ->; apply orb_true_r].
    rewrite !Hrole. destruct p; try done; injection Hq as <- <- <-; simpl; rewrite ?orb_false_r; try done.
    rewrite orb_true_r. by eapply close_waited.
  - destruct HI as (o & fin & Ho & HI). eapply (Inv_same w ps); [by exists o, fin | done | by eapply place_same | by exists o].
  - destruct (Inv_place _ _ _ HI (place_at _ _ _ _ Hi)) as (o1 & nr & nw & nc & fin & Ho1 & Hi0 & Hf & Hk).
    destruct (signalled_role _ _ Hs) as [Hrole Hnf].
    apply (Hk w o1 fin _ p'); [done | by rewrite list_fmap_insert | | done | congruence].
    by rewrite !Hrole.
Qed.

Lemma Inv_reachable c : reachable c -> Inv c.
Proof.
  intros (c0 & Hop & Hs). assert (Inv c0) as H0.
  { destruct Hop as [w o Ho Hf Hr Ht Hc]. exists o, false. split; [done |]. unfold places, number. simpl.
    split; [| by intros p ?%elem_of_nil]. split; try done. - by intros _; split; rewrite Ht; auto.
    - by rewrite Hc. }
  clear Hop. induction Hs as [|c1 c2 c3 H12 _ IH]; [done |]. apply IH. by eapply Inv_step.
Qed.

(** *** The pieces and the call: a read is its pieces, put together *)
Definition answer (size : Z) (p : place) : Z * Z :=
  match p with
  | returned r => if r <? 0 then (- r, size) else (OSIF_SUCCESS, r)
  | _ => (OSIF_SUCCESS, size)
  end.
Definition finish `{Env} (p : place) : M esd place :=
  match proceed p with Some m => m | None => mret p end.
Definition whole_read `{Env} (others : M esd unit) (fuel : nat) (buffer size : Z) : M esd (Z * Z) :=
  p ← enter (Read buffer size sizeof_CAN_MSG);
  match p with
  | reading buf =>
      signal ← wait_for others fuel true read_ready;
      p ← (if (signal : bool) then finish (read_signalled buf) else mret (read_leaving buf false));
      p ← match p with
          | read_aborting buf => wait_event others fuel read_aborted;; mret (read_leaving buf true)
          | p => mret p
          end;
      p ← finish p; mret (answer size p)
  | p => mret (answer size p)
  end.

Lemma read_is_its_pieces `{Env} others fuel sz net buffer size w o :
  private_data (w_st w) <> 0 -> handle w = Some o -> closed o = false ->
  esdcan_ioctl_internal others fuel sz net IOCTL_ESDCAN_READ buffer size w =
  whole_read others fuel buffer size w.
Proof.
  intros Hp Ho Hc. unfold esdcan_ioctl_internal, whole_read, enter, guarded.
  change (esdcan_command others fuel IOCTL_ESDCAN_READ buffer size)
    with (count_or_error size (esdcan_read_common others fuel buffer size sizeof_CAN_MSG)).
  unfold count_or_error, esdcan_read_common, get, when, finish, proceed, leave.
  unfold mbind, M_bind, mret, M_ret.
  destruct (Z.eqb_spec (private_data (w_st w)) 0); [done |].
  destruct (node_lock w) as [[] w1| |] eqn:El; try done.
  destruct (the_ocb w1) as [o1 w2| |] eqn:Eo; try done.
  assert (o1 = o) as ->.
  { destruct (eff_node_lock o (fun _ _ o' => o' = o) eq_refl w tt w1 Ho El) as (o' & _ & Ho' & _ & ->).
    destruct (eff_the_ocb o (fun a _ _ => a = o) eq_refl w1 o1 w2 Ho' Eo) as (_ & _ & _ & _ & ->). done. }
  fold (closed o). rewrite Hc.
  destruct (read_begin buffer size sizeof_CAN_MSG w2) as [[r|] w3| |]; try done; cbv iota beta.
  { destruct (nuc _ _ w3) as [? w4| |]; try done. destruct (node_unlock w4) as [? w5| |]; done. }
  destruct (node_unlock w3) as [? w4| |]; try done.
  destruct (wait_for _ _ _ _ w4) as [[|] w5| |]; try done; cbv iota beta.
  - destruct (read_interrupted w5) as [[|] w6| |]; try done; cbv iota beta.
    + destruct (wait_event _ _ _ w6) as [? w7| |]; try done; cbv iota beta.
      destruct (read_end _ _ w7) as [r w8| |]; try done; cbv iota beta.
      destruct (nuc _ _ w8) as [? w9| |]; try done. by destruct (node_unlock w9).
    + destruct (read_end _ _ w6) as [r w8| |]; try done; cbv iota beta.
      destruct (nuc _ _ w8) as [? w9| |]; try done. by destruct (node_unlock w9).
  - destruct (read_end _ _ w5) as [r w8| |]; try done; cbv iota beta.
    destruct (nuc _ _ w8) as [? w9| |]; try done. by destruct (node_unlock w9).
Qed.

(** C16: however the processes of a handle, the signals and the callbacks of the nucleus
    interleave, at most one process reads, one writes and one closes; a handle that is
    closed belongs to exactly one close; and when that has waited, nobody reads or
    writes any more, no read is pending, and every call from then on is refused and
    changes nothing. *)
Theorem handle_is_exclusive c :
  reachable c ->
  exists o, handle (now c) = Some o /\
    (number Reader (places c) <= 1)%nat /\ (number Writer (places c) <= 1)%nat /\
    number Closer (places c) = (if closed o then 1 else 0)%nat /\
    (number Reader (places c) = 1%nat <-> rx_state (rx o) <> 0) /\
    forall p, p ∈ places c -> finished p = true ->
      number Reader (places c) = 0%nat /\ number Writer (places c) = 0%nat /\
      forall (E : Env) cmd, well_formed cmd -> eff (enter cmd) o (fun p _ o' =>
        p = returned (- OSIF_INVALID_HANDLE) /\ o' = o).
Proof.
  intros (o & fin & Ho & Hi & Hf)%Inv_reachable. exists o. split; [done |].
  pose proof Hi as [If Ir0 Ir1 Iw0 Iw1 Ic Ifin]. split_and!.
  - destruct (decide (number Reader (places c) = 0%nat)) as [|Hn]; [lia | destruct (Ir1 Hn); lia].
  - destruct (decide (number Writer (places c) = 0%nat)) as [|Hn]; [lia | destruct (Iw1 Hn); lia].
  - done.
  - split.
    + intros E. destruct (Ir1 ltac:(lia)) as (_ & [Hb _] & _). by apply tst_nonzero in Hb.
    + intros E. destruct (decide (number Reader (places c) = 0%nat)) as [Hn|Hn]; [by specialize (Ir0 Hn) |].
      by destruct (Ir1 Hn).
  - intros p Hp Hfp. destruct (Ifin (Hf _ Hp Hfp)) as (? & ? & ?). split_and!; [done | done |].
    intros E cmd Hwf. eapply eff_mono; [by eapply enter_inv |]. intros q ws o' (_ & _ & Hq). auto.
Qed.

(** ** A close returns *)

(** a nucleus that has reported everything calls back no more *)
Definition silent (E : Env) : Prop := forall log, env_ret log (KernelCall "callbacks" []) = 0.

(** what the processes themselves do: no signals, and no callbacks *)
Inductive move : config -> config -> Prop :=
| move_proceed i p (E : Env) m w ps p' w' evs :
    ps !! i = Some (Mk_proc p false) -> silent E -> proceed p = Some m ->
    m w = Ret p' w' -> w_log w' = evs ++ w_log w ->
    move (Mk_config w ps) (Mk_config w' (<[i := Mk_proc p' false]> (woken (wakes evs) <$> ps)))
| move_sleep i p q cond next w ps o :
    ps !! i = Some (Mk_proc p false) -> waits p = Some (q, cond, next) ->
    handle w = Some o -> cond o = false ->
    move (Mk_config w ps) (Mk_config w (<[i := Mk_proc p true]> ps))
| move_waited i p q cond next w ps o :
    ps !! i = Some (Mk_proc p false) -> waits p = Some (q, cond, next) ->
    handle w = Some o -> cond o = true ->
    move (Mk_config w ps) (Mk_config w (<[i := Mk_proc next false]> ps)).

(** [tot m o h Q]: on the handle [o], with the locks [h] held, [m] returns; [Q] as in
    [eff], and the locks held then *)
Definition tot {A} (m : M esd A) (o : CAN_OCB) (h : list lock)
    (Q : A -> list Z -> CAN_OCB -> list lock -> Prop) : Prop :=
  forall w, handle w = Some o -> w_held w = h ->
  exists a w' o' evs, m w = Ret a w' /\ handle w' = Some o' /\ w_log w' = evs ++ w_log w /\
    Q a (wakes evs) o' (w_held w').

Section total.
Context `{Env}.

Lemma tot_mono {A} (m : M esd A) o h (Q R : A -> _ -> _ -> _ -> Prop) :
  tot m o h Q -> (forall a ws o' h', Q a ws o' h' -> R a ws o' h') -> tot m o h R.
Proof.
  intros Hm Hi w Ho Hh. destruct (Hm w Ho Hh) as (a & w' & o' & evs & ? & ? & ? & ?).
  exists a, w', o', evs. auto.
Qed.
Lemma tot_ret {A} (a : A) o h (Q : A -> _ -> _ -> _ -> Prop) : Q a [] o h -> tot (mret a) o h Q.
Proof. intros HQ w Ho <-. by exists a, w, o, []. Qed.
Lemma tot_bind {A B} (m : M esd A) (f : A -> M esd B) o h (Q : B -> _ -> _ -> _ -> Prop) :
  tot m o h (fun a ws o' h' => tot (f a) o' h' (fun b ws' => Q b (ws' ++ ws))) -> tot (m ≫= f) o h Q.
Proof.
  intros Hm w Ho Hh. destruct (Hm w Ho Hh) as (a & w1 & o1 & evs & E & Ho1 & Hl & Hf).
  destruct (Hf w1 Ho1 eq_refl) as (b & w2 & o2 & evs' & E' & Ho2 & Hl' & HQ).
  exists b, w2, o2, (evs' ++ evs). unfold mbind, M_bind. rewrite E, wakes_app, Hl', Hl, app_assoc. done.
Qed.
Lemma tot_when (b : bool) (m : M esd unit) o h Q :
  (b = true -> tot m o h Q) -> (b = false -> Q tt [] o h) -> tot (when b m) o h Q.
Proof. destruct b; intros H1 H2; [by apply H1 | by apply tot_ret, H2]. Qed.
Lemma tot_ask c o h Q : quiet c -> (forall r, (exists log, r = env_ret log c) -> Q r [] o h) -> tot (ask c) o h Q.
Proof.
  intros Hc HQ w Ho <-. exists (env_ret (w_log w) c), (emit (Ev c (env_ret (w_log w) c)) w), o, [Ev c (env_ret (w_log w) c)].
  split_and!; [done | done | done |]. rewrite Hc. eauto.
Qed.
Lemma tot_wake_up q o h Q : Q tt [q] o h -> tot (wake_up q) o h Q.
Proof. intros HQ w Ho <-. by eexists tt, _, o, [_]. Qed.
Lemma tot_the_ocb o h Q : Q o [] o h -> tot the_ocb o h Q.
Proof.
  intros HQ w Ho <-. exists o, w, o, []. unfold the_ocb, get, mbind, M_bind.
  unfold handle in Ho. by rewrite Ho.
Qed.
Lemma tot_upd_ocb f o h Q : Q tt [] (f o) h -> tot (upd_ocb f) o h Q.
Proof.
  intros HQ w Ho <-. unfold handle in Ho. unfold upd_ocb, the_ocb, get, mbind, M_bind. rewrite Ho.
  eexists tt, _, (f o), []. split_and!; [done | | done | done].
  unfold handle. simpl. by destruct (ocb (w_st w)).
Qed.
Lemma tot_upd_rx f o h Q : Q tt [] (o <| rx ::= f |>) h -> tot (upd_rx f) o h Q.
Proof. apply tot_upd_ocb. Qed.
Lemma tot_upd_tx f o h Q : Q tt [] (o <| tx ::= f |>) h -> tot (upd_tx f) o h Q.
Proof. apply tot_upd_ocb. Qed.
Lemma tot_node_lock o Q : Q tt [] o [L_esd_node (minor o)] -> tot node_lock o [] Q.
Proof.
  intros HQ. apply tot_bind, tot_the_ocb. intros w Ho Hh. unfold spin_lock. rewrite Hh.
  destruct (decide _) as [Hin|_]; [by apply elem_of_nil in Hin |].
  eexists tt, _, o, [_]. split_and!; [done | done | done |]. done.
Qed.
Lemma tot_node_unlock o Q : Q tt [] o [] -> tot node_unlock o [L_esd_node (minor o)] Q.
Proof.
  intros HQ. apply tot_bind, tot_the_ocb. intros w Ho Hh. unfold spin_unlock. rewrite Hh.
  destruct (decide _) as [_|Hin]; [| by destruct Hin; left].
  eexists tt, _, o, [_]. split_and!; [done | done | done |]. cbn [w_held].
  by rewrite remove_head by apply not_elem_of_nil.
Qed.
Lemma tot_copy_to_user dst len data o h Q : (forall b, Q b [] o h) -> tot (copy_to_user dst len data) o h Q.
Proof. intros HQ. apply tot_bind, tot_ask; [done |]. intros r _. by apply tot_ret. Qed.
Lemma tot_nuc name args o h Q :
  silent H -> String.eqb name "wake_up" = false -> (forall r, Q r [] o h) -> tot (nuc name args) o h Q.
Proof.
  intros Hs Hn HQ. unfold nuc. apply tot_bind, tot_ask.
  { intros r. unfold wakes. simpl. rewrite Hn. by destruct args as [|? []]. }
  intros r _. unfold callbacks. apply tot_bind, tot_bind, tot_ask; [done |]. intros n (log & ->).
  rewrite Hs. apply tot_ret, tot_ret, HQ.
Qed.

Lemma tot_leave {A} (a : A) o net Q :
  silent H -> net = minor o -> Q a [] o [] -> tot (leave a) o [L_esd_node net] Q.
Proof.
  intros Hs -> HQ. apply tot_bind, tot_nuc; [done | done |]. intros _.
  apply tot_bind, tot_node_unlock, tot_ret. done.
Qed.

(** frames that are there can be given to the user *)
Lemma tot_frames dest i n o h Q :
  frames_ok o -> cm_format (rx_cm_size (rx o)) -> 0 <= i ->
  i + Z.of_nat n <= Z.of_nat (length (rx_frames (rx o))) ->
  (forall b, Q b [] o h) -> tot (frames_to_user read_bytes dest i n) o h Q.
Proof.
  intros Hf Hs. revert dest i Q. induction n as [|n IH]; intros dest i Q Hi Hn HQ; cbn [frames_to_user].
  { by apply tot_ret. }
  destruct (lookup_lt_is_Some_2 (rx_frames (rx o)) (Z.to_nat i)) as [f Hlf]; [lia |].
  pose proof (read_bytes_frame i o f Hf Hs Hi Hlf) as Hd.
  apply tot_bind, tot_the_ocb, tot_bind. rewrite Hd. apply tot_ret.
  apply tot_bind, tot_copy_to_user. intros [|]; simpl; [| by apply tot_ret].
  apply IH; [lia | lia | done].
Qed.

Ltac tot1 :=
  lazymatch goal with
  | |- tot (mret _) _ _ _ => apply tot_ret
  | |- tot (_ ≫= _) _ _ _ => apply tot_bind
  | |- tot the_ocb _ _ _ => apply tot_the_ocb
  | |- tot (upd_rx _) _ _ _ => apply tot_upd_rx
  | |- tot (upd_tx _) _ _ _ => apply tot_upd_tx
  | |- tot (wake_up _) _ _ _ => apply tot_wake_up
  | |- tot node_lock _ _ _ => apply tot_node_lock
  | |- tot node_unlock _ _ _ => apply tot_node_unlock
  | |- tot (when _ _) _ _ _ => apply tot_when; intros ?
  | |- tot (if ?b then _ else _) _ _ _ => destruct b eqn:?
  end.
Ltac tots := cbv zeta; repeat (tot1; cbv beta zeta; rewrite ?app_nil_l, ?app_nil_r).

(** what a process that moves does to a handle under closing *)
Definition moved (p : place) (o : CAN_OCB) (p' : place) (ws : list Z) (o' : CAN_OCB) : Prop :=
  match p with
  | read_signalled buf => p' = read_leaving buf false /\ ws = [] /\ o' = o
  | write_signalled old => p' = write_leaving old false /\ ws = [] /\ o' = o
  | read_leaving _ _ =>
      (exists r, p' = returned r) /\ wqCloseDelay ∈ ws /\
      o' = o <| rx ::= fun r => r <| rx_cm_count := 0 |> <| rx_state := 0 |> |>
  | write_leaving _ _ =>
      (exists r, p' = returned r) /\ wqCloseDelay ∈ ws /\
      o' = o <| tx ::= fun t => t <| tx_cm_count := 0 |> <| tx_state := 0 |> |>
  | close_leaving r => p' = close_returned r /\ ws = [] /\ o' = o
  | _ => False
  end.

Lemma proceed_tot p m o :
  silent H -> proceed p = Some m -> frames_ok o ->
  (ind Reader p <> 0%nat -> 0 <= rx_cm_count (rx o) <= Z.of_nat (length (rx_frames (rx o)))) ->
  (ind Reader p <> 0%nat -> rx_closing o = true /\ cm_format (rx_cm_size (rx o))) ->
  (ind Writer p <> 0%nat -> tx_closing o = true) ->
  tot m o [] (fun p' ws o' h => h = [] /\ moved p o p' ws o').
Proof.
  intros Hs Hm Hf Hn Hr Hw. destruct p; try done; injection Hm as <-; unfold ind in *; simpl in *.
  - destruct (Hr ltac:(done)) as [Hc _]. unfold rx_closing in Hc. unfold read_interrupted. tots.
    + rewrite Hc in Heqb. by rewrite andb_false_r in Heqb.
    + done.
  - destruct (Hr ltac:(done)) as [Hc Hsz]. specialize (Hn ltac:(done)).
    unfold rx_closing in Hc. unfold read_end. tots.
    all: rewrite ?Hc in *; try congruence.
    + apply tot_leave; [done | done |]. split; [done |]. simpl. split_and!; [eauto | by left | done].
    + eapply (tot_frames _ 0 (Z.to_nat (rx_cm_count (rx o)))); [done | done | lia | simpl; lia |].
      intros b. tots. apply tot_leave; [done | done |]. split; [done |]. simpl.
      split_and!; [eauto | by left | done].
  - pose proof (Hw ltac:(done)) as Hc. unfold tx_closing in Hc. unfold write_interrupted. tots.
    + rewrite Hc in Heqb. by rewrite andb_false_r in Heqb.
    + done.
  - pose proof (Hw ltac:(done)) as Hc. unfold tx_closing in Hc. unfold write_end. tots.
    all: rewrite ?Hc in *; try congruence.
    all: apply tot_leave; [done | done |]; split; [done |]; simpl;
      split_and!; [eauto | by left | done].
  - tots. apply tot_leave; done.
Qed.
End total.


(** a process has returned; how far one is from that *)
Definition over (p : place) : bool :=
  match p with returned _ | close_returned _ => true | _ => false end.
Definition weight (p : proc) : nat :=
  match place_of p with
  | reading _ | read_signalled _ | read_aborting _
  | writing _ | write_signalled _ | write_aborting _ => 3
  | read_leaving _ _ | write_leaving _ _ => 2
  | closing _ => if asleep p then 2 else 3
  | close_leaving _ => 1
  | _ => 0
  end.
Definition distance (c : config) : nat := sum_list_with weight (procs c).

(** nothing keeps a process but the others *)
Definition ready (o : CAN_OCB) (p : proc) : Prop :=
  match place_of p, waits (place_of p) with
  | closing _, _ => asleep p = true -> destroy_ready o = false
  | _, Some (_, cond, _) => asleep p = false /\ cond o = true
  | _, None => asleep p = false
  end.
Definition Closing (c : config) : Prop :=
  exists o fin, handle (now c) = Some o /\ w_held (now c) = [] /\
    inv o (number Reader (places c)) (number Writer (places c)) (number Closer (places c)) fin /\
    (forall p, p ∈ places c -> finished p = true -> fin = true) /\
    closed o = true /\ tst (close_state o) CLOSE_STATE_CLOSE_DONE = true /\
    (number Writer (places c) = 0%nat -> tx_state (tx o) = 0) /\
    (number Reader (places c) <> 0%nat ->
     0 <= rx_cm_count (rx o) <= Z.of_nat (length (rx_frames (rx o)))) /\
    forall p, p ∈ procs c -> ready o p.

Lemma ready_woken o ws p : ready o p -> ready o (woken ws p).
Proof.
  destruct p as [p b]. unfold ready, woken. simpl.
  destruct (waits p) as [[[q cond] next]|] eqn:E; [| by simpl; rewrite E].
  case_bool_decide; simpl; rewrite E; destruct p; try done; simpl; tauto.
Qed.
Lemma number_none r ps p : number r ps = 0%nat -> p ∈ ps -> role_of p <> r.
Proof.
  intros Hn Hp E. apply list_elem_of_lookup in Hp as [i Hi].
  destruct (number_insert r ps i p Hi) as (n & En & _). unfold ind in En.
  rewrite decide_True in En by done. lia.
Qed.

Lemma weight_woken ws p : (weight (woken ws p) <= weight p + ind Closer (place_of p))%nat.
Proof. destruct p as [p b]. unfold woken, weight, ind. destruct p; simpl; repeat case_bool_decide; simpl; try lia. destruct b; simpl; lia. Qed.
Lemma distance_woken ws (ps : list proc) :
  (sum_list_with weight (woken ws <$> ps) <=
   sum_list_with weight ps + number Closer (place_of <$> ps))%nat.
Proof.
  unfold number. induction ps as [|p ps IH]; csimpl; [done |].
  pose proof (weight_woken ws p). lia.
Qed.
Lemma woken_nil (ps : list proc) : woken [] <$> ps = ps.
Proof.
  rewrite <- (list_fmap_id ps) at 2. apply list_fmap_ext. intros _ p _. unfold woken.
  destruct (waits _) as [[[? ?] ?]|]; [| done]. by rewrite bool_decide_false by apply not_elem_of_nil.
Qed.

(** at most one process of each kind *)
Lemma number_two ps i k p q :
  ps !! i = Some p -> ps !! k = Some q -> i <> k -> role_of q = role_of p -> role_of p <> Nobody ->
  (2 <= number (role_of p) ps)%nat.
Proof.
  intros Hi Hk Hne E Hp. destruct (number_insert (role_of p) _ _ _ Hi) as (n & -> & Hn).
  assert (<[i := returned 0]> ps !! k = Some q) as Hk' by (by rewrite list_lookup_insert_ne).
  destruct (number_insert (role_of p) _ _ _ Hk') as (n' & En & _). rewrite Hn in En. revert En.
  unfold ind. rewrite E, !(decide_True (P := role_of p = role_of p)) by done.
  destruct (decide (role_of (returned 0) = role_of p)) as [E0|]; [by rewrite <- E0 in Hp | lia].
Qed.
Lemma inv_one o ps fin :
  inv o (number Reader ps) (number Writer ps) (number Closer ps) fin ->
  forall r, r <> Nobody -> (number r ps <= 1)%nat.
Proof.
  intros [_ _ Hr _ Hw Hc _] r Hne. destruct r; try done.
  - destruct (decide (number Reader ps = 0%nat)) as [|Hn]; [lia | by destruct (Hr Hn) as [-> _]].
  - destruct (decide (number Writer ps = 0%nat)) as [|Hn]; [lia | by destruct (Hw Hn) as [-> _]].
  - rewrite Hc. destruct (closed o); lia.
Qed.

Ltac moved_cases p H :=
  destruct p; simpl in H; try done; destruct_and? H;
  repeat match goal with E : exists _, _ |- _ => destruct E end; subst.

(** the others are as ready as before *)
Lemma ready_moved p o p' ws o' q :
  moved p o p' ws o' -> ready o q -> role_of (place_of q) <> role_of p \/ o' = o -> ready o' (woken ws q).
Proof.
  intros Hm Hq [Hr| ->]; [| by apply ready_woken].
  destruct q as [q b]. unfold ready, woken in *. simpl in *.
  moved_cases p Hm; try by apply ready_woken.
  all: destruct q; simpl in *; try done; repeat case_bool_decide; simpl in *; try done; tauto.
Qed.
Lemma moved_distance p o p' ws o' :
  moved p o p' ws o' ->
  (ws = [] /\ weight (Mk_proc p false) = weight (Mk_proc p' false) + 1 \/
   weight (Mk_proc p false) = weight (Mk_proc p' false) + 2)%nat.
Proof. intros Hm. moved_cases p Hm; simpl; auto. Qed.

(** one move of a process *)
Lemma lookup_in (ps : list proc) i p b : ps !! i = Some (Mk_proc p b) -> p ∈ place_of <$> ps.
Proof. intros E. eapply list_elem_of_lookup_2. by eapply place_at. Qed.

Lemma Closing_proceed i p (E : Env) m w ps p' w' evs :
  Closing (Mk_config w ps) -> ps !! i = Some (Mk_proc p false) -> silent E -> proceed p = Some m ->
  m w = Ret p' w' -> w_log w' = evs ++ w_log w ->
  let c' := Mk_config w' (<[i := Mk_proc p' false]> (woken (wakes evs) <$> ps)) in
  Closing c' /\ (distance c' < distance (Mk_config w ps))%nat.
Proof.
  intros (o & fin & Ho & Hh & Hi & Hf & Hc & Hd & Hw & Hn & Hr) Hp Hs Hm Hrun Hlog c'.
  assert (HI : Inv (Mk_config w ps)) by (by exists o, fin).
  pose proof (place_at _ _ _ _ Hp) as Hpl.
  destruct (Inv_place _ _ _ HI Hpl) as (o0 & nr & nw & nc & fin0 & Ho0 & Hi0 & Hf0 & Hk).
  simpl in Ho, Hh, Ho0, Hi, Hf, Hw.
  destruct (number_insert Reader _ _ _ Hpl) as (n0 & En0 & En0').
  destruct (number_insert Writer _ _ _ Hpl) as (n & En & En').
  unfold places in Hn, Hw. simpl in Hn, Hw. rewrite En0 in Hn. rewrite En in Hw. rewrite Ho in Ho0. injection Ho0 as <-.
  destruct (proceed_inv _ _ _ _ _ _ _ Hm Hi0 Hf0 w p' w' Ho Hrun) as (o1 & evs1 & Ho1 & Hl1 & Hi1 & Hf1).
  assert (exists r w1 o2 evs2, m w = Ret r w1 /\ handle w1 = Some o2 /\ w_log w1 = evs2 ++ w_log w /\
    w_held w1 = [] /\ moved p o r (wakes evs2) o2) as (r & w1 & o2 & evs2 & Er & Ho2 & Hl2 & Hh2 & Hmv).
  { destruct (proceed_tot p m o Hs Hm (i_frames _ _ _ _ _ Hi)
      ltac:(intros; apply Hn; lia)) with (w := w)
      as (r & w1 & o2 & evs2 & ? & ? & ? & ? & ?); try done; [..| by exists r, w1, o2, evs2].
    - intros Hne. destruct (i_reader _ _ _ _ _ Hi0) as (_ & _ & ? & ?); [lia | auto].
    - intros Hne. destruct (i_writer _ _ _ _ _ Hi0) as (_ & _ & ?); [lia | auto]. }
  rewrite Hrun in Er. injection Er as <- <-. rewrite Ho1 in Ho2. injection Ho2 as <-.
  rewrite Hl1 in Hl2. apply app_inv_tail in Hl2 as <-. rewrite Hl1 in Hlog. apply app_inv_tail in Hlog as <-.
  assert (places c' = <[i := p']> (place_of <$> ps)) as Hpl'
    by (unfold places, c'; simpl; by rewrite list_fmap_insert, places_woken).
  destruct (Hk w' o1 fin0 (procs c') p' Ho1 Hpl' Hi1 ltac:(done) Hf1) as (o2 & fin2 & Ho2 & Hi2 & Hf2).
  simpl in Ho2. rewrite Ho1 in Ho2. injection Ho2 as <-.
  split.
  - exists o1, fin2. split_and!; [done | done | exact Hi2 | exact Hf2 | | | | |].
    + by moved_cases p Hmv.
    + by moved_cases p Hmv.
    + rewrite Hpl', En'. moved_cases p Hmv; simpl in *; auto.
    + rewrite Hpl', En0'. moved_cases p Hmv; simpl in *; auto; lia.
    + intros q [k Hq]%list_elem_of_lookup. simpl in Hq.
      apply list_lookup_insert_Some in Hq as [(_ & <- & _)|(Hne & Hq)].
      { by moved_cases p Hmv. }
      rewrite list_lookup_fmap in Hq. destruct (ps !! k) as [q0|] eqn:Hk0; [| done]. injection Hq as <-.
      eapply ready_moved; [exact Hmv | by apply Hr; eapply list_elem_of_lookup_2 |].
      left. intros Erole. assert (role_of p <> Nobody) as Hnn by (by destruct p).
      pose proof (number_two _ _ _ _ _ Hpl ltac:(by rewrite list_lookup_fmap, Hk0) Hne Erole Hnn).
      pose proof (inv_one _ _ _ Hi (role_of p) Hnn). unfold places in *. simpl in *.
      lia.
  - destruct (sum_insert weight (woken (wakes evs1) <$> ps) i (Mk_proc p false)) as (m1 & Em & Em').
    { rewrite list_lookup_fmap, Hp. simpl. unfold woken. simpl.
      destruct (waits p) as [[[? ?] ?]|]; [| done]. by case_bool_decide. }
    unfold distance, c'. simpl. rewrite Em'.
    pose proof (distance_woken (wakes evs1) ps) as Hdw.
    pose proof (i_closer _ _ _ _ _ Hi) as Hcl. rewrite Hc in Hcl. unfold places in Hcl. simpl in Hcl.
    destruct (moved_distance _ _ _ _ _ Hmv) as [[Ew E1]|E1]; [rewrite Ew, woken_nil in *; lia | lia].
Qed.

Lemma Closing_move c c' : Closing c -> move c c' -> Closing c' /\ (distance c' < distance c)%nat.
Proof.
  intros HK Hmv. destruct Hmv as [i p E m w ps p' w' evs Hp Hs Hm Hrun Hlog|i p q cond next w ps o Hp Hq Ho Hcond
    |i p q cond next w ps o Hp Hq Ho Hcond]; [by eapply Closing_proceed | |].
  - pose proof HK as (o1 & fin & Ho1 & Hh & Hi & Hf & Hc & Hd & Hw & Hn & Hr). simpl in *.
    rewrite Ho in Ho1. injection Ho1 as <-.
    pose proof (Hr _ (list_elem_of_lookup_2 _ _ _ Hp)) as Hrp. unfold ready in Hrp. simpl in Hrp. rewrite Hq in Hrp.
    assert (exists r, p = closing r) as [r ->]
      by (destruct p; try done; [by destruct Hrp; congruence.. | eauto]).
    injection Hq as <- <- <-.
    assert (places (Mk_config w (<[i:=Mk_proc (closing r) true]> ps)) = places (Mk_config w ps)) as Epl
      by (by eapply place_same).
    split.
    + exists o, fin. rewrite Epl. split_and!; try done.
      intros q [k Hk]%list_elem_of_lookup. apply list_lookup_insert_Some in Hk as [(_ & <- & _)|(_ & Hk)].
      * by intros _. * by apply Hr; eapply list_elem_of_lookup_2.
    + destruct (sum_insert weight _ _ _ Hp) as (n & En & En'). unfold distance. simpl. rewrite En, En'.
      unfold weight. simpl. lia.
  - pose proof HK as (o1 & fin & Ho1 & Hh & Hi & Hf & Hc & Hd & Hw & Hn & Hr). simpl in *.
    rewrite Ho in Ho1. injection Ho1 as <-.
    assert (Inv (Mk_config w (<[i := Mk_proc next false]> ps))) as (o2 & fin2 & Ho2 & Hi2 & Hf2).
    { eapply Inv_step; [| by eapply step_waited]. by exists o, fin. }
    simpl in Ho2. rewrite Ho in Ho2. injection Ho2 as <-.
    split.
    + exists o, fin2. split_and!; try done.
      * intros Hz. apply Hw. destruct (number_insert Writer _ _ _ (place_at _ _ _ _ Hp)) as (n & En & En').
        unfold places in *. simpl in *. rewrite list_fmap_insert, En' in Hz. rewrite En.
        by rewrite <- (waits_role _ _ _ _ Hq).
      * intros Hz. apply Hn. destruct (number_insert Reader _ _ _ (place_at _ _ _ _ Hp)) as (n & En & En').
        unfold places in *. simpl in *. rewrite list_fmap_insert, En' in Hz. rewrite En.
        by rewrite <- (waits_role _ _ _ _ Hq).
      * intros q' [k Hk]%list_elem_of_lookup. apply list_lookup_insert_Some in Hk as [(_ & <- & _)|(_ & Hk)].
        -- destruct p; try done; by injection Hq as <- <- <-.
        -- by apply Hr; eapply list_elem_of_lookup_2.
    + destruct (sum_insert weight _ _ _ Hp) as (n & En & En'). unfold distance. simpl. rewrite En, En'.
      destruct p; try done; injection Hq as <- <- <-; unfold weight; simpl; lia.
Qed.

Lemma number_some r ps : number r ps <> 0%nat -> exists i p, ps !! i = Some p /\ role_of p = r.
Proof.
  unfold number. induction ps as [|p ps IH]; [done |]. simpl. intros Hne.
  destruct (decide (role_of p = r)) as [E|E]; [by exists 0%nat, p |].
  unfold ind in Hne at 1. rewrite decide_False in Hne by done.
  destruct (IH Hne) as (i & q & ? & ?). by exists (Datatypes.S i), q.
Qed.
Definition quiet_env : Env := fun _ _ => 0.
Lemma quiet_env_silent : silent quiet_env.
Proof. done. Qed.
Lemma proceed_exists `{Env} p : waits p = None -> over p = false -> exists m, proceed p = Some m.
Proof. destruct p; try done; eauto. Qed.

(** while someone has not returned, someone can move *)
Lemma Closing_goes_on c p : Closing c -> p ∈ places c -> over p = false -> exists c', move c c'.
Proof.
  destruct c as [w ps]. intros (o & fin & Ho & Hh & Hi & Hf & Hc & Hd & Hw & Hn & Hr) Hp Hov. simpl in *.
  assert (forall i q b, ps !! i = Some (Mk_proc q b) -> over q = false ->
    (forall r, q = closing r -> number Reader (place_of <$> ps) = 0%nat /\ number Writer (place_of <$> ps) = 0%nat) ->
    exists c', move (Mk_config w ps) c') as Hgo.
  { intros i q b Hq Hoq Hcl. pose proof (Hr _ (list_elem_of_lookup_2 _ _ _ Hq)) as Hrq.
    unfold ready in Hrq. simpl in Hrq.
    destruct (waits q) as [[[qu cond] next]|] eqn:Ew.
    - assert (b = false /\ cond o = true) as [-> Hcond].
      { destruct q; try done. injection Ew as <- <- <-. destruct (Hcl _ eq_refl) as [H0 H1].
        assert (destroy_ready o = true) as Hd'.
        { unfold destroy_ready. rewrite Hd, (Hw H1), (i_no_reader _ _ _ _ _ Hi H0). done. }
        split; [| done]. destruct b; [| done]. rewrite Hrq in Hd' by done. done. }
      eexists. by eapply move_waited.
    - assert (b = false) as -> by (by destruct q).
      destruct (proceed_exists (H := quiet_env) q) as [m Hm]; [done | done |].
      destruct (number_insert Reader _ _ _ (place_at _ _ _ _ Hq)) as (nr & Enr & _).
      destruct (number_insert Writer _ _ _ (place_at _ _ _ _ Hq)) as (nw & Enw & _).
      unfold places in Hi. simpl in Hi. rewrite Enr, Enw in Hi.
      unfold places in Hn. simpl in Hn. rewrite Enr in Hn.
      destruct (proceed_tot (H := quiet_env) q m o quiet_env_silent Hm (i_frames _ _ _ _ _ Hi)
        ltac:(intros; apply Hn; lia))
        with (w := w) as (p' & w' & o' & evs & Hrun & _ & Hl & _); try done.
      + intros Hne. destruct (i_reader _ _ _ _ _ Hi) as (_ & _ & ? & ?); [lia | auto].
      + intros Hne. destruct (i_writer _ _ _ _ _ Hi) as (_ & _ & ?); [lia | auto].
      + eexists. by eapply (move_proceed i q quiet_env). }
  assert (forall r, r = Reader \/ r = Writer -> number r (place_of <$> ps) <> 0%nat ->
    exists c', move (Mk_config w ps) c') as Hone.
  { intros r Hr0 Hne. destruct (number_some r _ Hne) as (i & q & Hq & Hrole).
    rewrite list_lookup_fmap in Hq. destruct (ps !! i) as [[q' b]|] eqn:Hi0; [| done]. injection Hq as ->.
    eapply Hgo; [exact Hi0 | |]; destruct q; subst r; naive_solver. }
  destruct (decide (number Reader (place_of <$> ps) = 0%nat)) as [HR|HR]; [| by apply (Hone Reader); auto].
  destruct (decide (number Writer (place_of <$> ps) = 0%nat)) as [HW|HW]; [| by apply (Hone Writer); auto].
  apply list_elem_of_lookup in Hp as [i Hp]. unfold places in Hp. simpl in Hp.
  rewrite list_lookup_fmap in Hp. destruct (ps !! i) as [[q' b]|] eqn:Hi0; [| done]. injection Hp as ->.
  by eapply Hgo.
Qed.

(** *** What the nucleus reports *)

(** a process sleeps only where it waits *)
Definition Sleeps (c : config) : Prop :=
  forall p, p ∈ procs c -> asleep p = true -> waits (place_of p) <> None.
Lemma woken_sleeps ws p : asleep (woken ws p) = true -> asleep p = true.
Proof. unfold woken. destruct (waits _) as [[[? ?] ?]|]; [case_bool_decide |]; done. Qed.
Lemma Sleeps_woken ws (ps : list proc) p :
  (forall p, p ∈ ps -> asleep p = true -> waits (place_of p) <> None) ->
  p ∈ woken ws <$> ps -> asleep p = true -> waits (place_of p) <> None.
Proof.
  intros Hs (q & -> & Hq)%list_elem_of_fmap Ha. rewrite place_of_woken. eauto using woken_sleeps.
Qed.
Lemma Sleeps_step c c' : Sleeps c -> step c c' -> Sleeps c'.
Proof.
  intros Hs Hst. destruct Hst; intros q0 Hq Ha; simpl in *.
  - apply elem_of_app in Hq as [Hq| ->%list_elem_of_singleton]; [| done]. by eapply Sleeps_woken.
  - apply list_elem_of_lookup in Hq as [k Hk].
    apply list_lookup_insert_Some in Hk as [(_ & <- & _)|(_ & Hk)]; [done |].
    eapply Sleeps_woken; [exact Hs | by eapply list_elem_of_lookup_2 | done].
  - by eapply Sleeps_woken.
  - apply list_elem_of_lookup in Hq as [k Hk].
    apply list_lookup_insert_Some in Hk as [(_ & <- & _)|(_ & Hk)]; [simpl; congruence |].
    apply Hs; [by eapply list_elem_of_lookup_2 | done].
  - apply list_elem_of_lookup in Hq as [k Hk].
    apply list_lookup_insert_Some in Hk as [(_ & <- & _)|(_ & Hk)]; [done |].
    apply Hs; [by eapply list_elem_of_lookup_2 | done].
  - apply list_elem_of_lookup in Hq as [k Hk].
    apply list_lookup_insert_Some in Hk as [(_ & <- & _)|(_ & Hk)]; [done |].
    apply Hs; [by eapply list_elem_of_lookup_2 | done].
  - apply list_elem_of_lookup in Hq as [k Hk].
    apply list_lookup_insert_Some in Hk as [(_ & <- & _)|(_ & Hk)]; [done |].
    apply Hs; [by eapply list_elem_of_lookup_2 | done].
Qed.
Lemma Sleeps_reachable c : reachable c -> Sleeps c.
Proof.
  intros (c0 & Hop & Hs). assert (Sleeps c0) as H0.
  { destruct Hop as [w o]. by intros p ?%elem_of_nil. }
  clear Hop. induction Hs as [|c1 c2 c3 H12 _ IH]; [done |]. by eapply IH, Sleeps_step.
Qed.

(** a callback that arrives *)
Definition arrives (cb0 : callback) (c c' : config) : Prop :=
  exists ws, ran (fun E => run_callback cb0) (now c) tt ws (now c') /\ procs c' = woken ws <$> procs c.

(** the nucleus ends the read, if there is one, with [n] frames that it has put *)
Definition read_ended (c c' : config) : Prop :=
  exists o, handle (now c) = Some o /\
    (number Reader (places c) = 0%nat /\ c' = c \/
     exists r n, 0 <= n <= Z.of_nat (length (rx_frames (rx o))) /\ n < 2 ^ 31 /\ arrives (rx_done r n) c c').
(** ... the write and the frames sent without waiting *)
Definition writes_ended (c c' : config) : Prop :=
  exists o, handle (now c) = Some o /\
    (tx_state (tx o) = 0 /\ c' = c \/ exists r n, arrives (tx_done r n) c c').
(** the nucleus has ended what it did for a handle: the read and the writes, in either
    order, then the handle itself *)
Inductive reported : config -> config -> Prop :=
| Reported c0 c1 c2 c3 :
    read_ended c0 c1 /\ writes_ended c1 c2 \/ writes_ended c0 c1 /\ read_ended c1 c2 ->
    arrives close_done c2 c3 ->
    reported c0 c3.

Section reports.
Context `{Env}.
Lemma rx_done_eff r n o :
  eff (run_callback (rx_done r n)) o (fun _ ws o' =>
    tx o' = tx o /\ close_state o' = close_state o /\
    rx_frames (rx o') = rx_frames (rx o) /\ rx_cm_count (rx o') = s32 n /\
    (rx_busy o -> wqRx ∈ ws /\ tst (rx_state (rx o')) RX_STATE_SIGNAL_INTERRUPT = false)).
Proof.
  simpl. unfold esdcan_rx_done. eff1. effs; split_and!; try done; intros [Hb Ht]; simpl in *;
    try congruence; (split; [set_solver | by bits]).
Qed.
Lemma tx_done_eff r n o :
  eff (run_callback (tx_done r n)) o (fun _ ws o' =>
    rx o' = rx o /\ close_state o' = close_state o /\ (tx_idle o -> tx_state (tx o') = 0) /\
    (tx_busy o -> wqTx ∈ ws /\ tst (tx_state (tx o')) TX_STATE_SIGNAL_INTERRUPT = false)).
Proof.
  simpl. unfold esdcan_tx_done. eff1. effs; split_and!; try done; simpl in *.
  all: first
    [ intros [Hb Hs]; simpl in *; first [congruence | split; [set_solver | by bits]]
    | intros [Hb [E|Hs]]; simpl in *; [rewrite E in *; done | congruence]].
Qed.
Lemma close_done_eff o :
  eff (run_callback close_done) o (fun _ ws o' =>
    rx o' = rx o /\ tx o' = tx o /\ closed o' = closed o /\ wqCloseDelay ∈ ws /\
    tst (close_state o') CLOSE_STATE_CLOSE_DONE = true).
Proof.
  simpl. unfold esdcan_close_done. effs; split_and!; try done; unfold closed; simpl; bits;
    [done | set_solver | done].
Qed.
End reports.

(** the processes of a kind that are awake *)
Definition awake (r : role) (c : config) : Prop :=
  forall p, p ∈ procs c -> role_of (place_of p) = r -> asleep p = false.
Definition queue_of (r : role) : option Z :=
  match r with Reader => Some wqRx | Writer => Some wqTx | Closer => Some wqCloseDelay | Nobody => None end.

Lemma woken_awake ws r c c' :
  Sleeps c -> procs c' = woken ws <$> procs c ->
  awake r c \/ (exists q, queue_of r = Some q /\ q ∈ ws) -> awake r c'.
Proof.
  intros Hs Hps Hor p Hp Hrole. rewrite Hps in Hp. apply list_elem_of_fmap in Hp as (q & -> & Hq).
  rewrite place_of_woken in Hrole. destruct Hor as [Ha|(k & Hk & Hin)].
  - specialize (Ha q Hq Hrole). unfold woken. destruct (waits _) as [[[? ?] ?]|]; [case_bool_decide |]; done.
  - destruct (asleep q) eqn:E.
    + specialize (Hs q Hq E). unfold woken. destruct q as [p b]. simpl in *.
      destruct p; try done; simpl in *; subst r; injection Hk as <-; by rewrite bool_decide_true.
    + destruct (asleep (woken ws q)) eqn:E'; [| done]. apply woken_sleeps in E'. congruence.
Qed.

Lemma nobody r c p : number r (places c) = 0%nat -> p ∈ procs c -> role_of (place_of p) <> r.
Proof. intros Hz Hp. eapply number_none; [exact Hz |]. by apply list_elem_of_fmap_2. Qed.
Lemma nobody_awake r c : number r (places c) = 0%nat -> awake r c.
Proof. intros Hz p Hp Hr. by apply (nobody r c p) in Hz. Qed.

(** what a callback leaves as it is *)
Lemma arrives_keeps cb0 c c' o fin :
  arrives cb0 c c' -> whole cb0 -> handle (now c) = Some o ->
  inv o (number Reader (places c)) (number Writer (places c)) (number Closer (places c)) fin -> Sleeps c ->
  exists o' ws, handle (now c') = Some o' /\
    inv o' (number Reader (places c)) (number Writer (places c)) (number Closer (places c)) fin /\
    closed o' = closed o /\ Sleeps c' /\ places c' = places c /\ procs c' = woken ws <$> procs c /\
    forall Q : unit -> list Z -> CAN_OCB -> Prop, (forall E : Env, eff (run_callback cb0) o Q) -> Q tt ws o'.
Proof.
  intros (ws & Hr & Hps) Hwh Ho Hi Hs.
  destruct (ran_eff _ _ _ _ _ _ _ Hr Ho (fun E => run_callback_cb _ _ Hwh)) as (o' & Ho' & Hcb).
  exists o', ws. split_and!; [done | by eapply inv_cb | apply Hcb | | | done |].
  - intros p Hp Ha. rewrite Hps in Hp. by eapply Sleeps_woken.
  - unfold places. by rewrite Hps, places_woken.
  - intros Q HQ. destruct (ran_eff _ _ _ _ _ _ _ Hr Ho HQ) as (o2 & Ho2 & H2). congruence.
Qed.

(** a close is under way: what holds until it has waited; [ps] are the places *)
Record under_way (ps : list place) (fin : bool) (c : config) (o : CAN_OCB) : Prop := Mk_under_way {
  uw_handle : handle (now c) = Some o;
  uw_inv : inv o (number Reader ps) (number Writer ps) (number Closer ps) fin;
  uw_closed : closed o = true;
  uw_sleeps : Sleeps c;
  uw_places : places c = ps
}.

Lemma arrives_under_way cb0 c c' ps fin o :
  arrives cb0 c c' -> whole cb0 -> under_way ps fin c o ->
  exists o' ws, under_way ps fin c' o' /\ procs c' = woken ws <$> procs c /\
    forall Q : unit -> list Z -> CAN_OCB -> Prop, (forall E : Env, eff (run_callback cb0) o Q) -> Q tt ws o'.
Proof.
  intros Ha Hw [Ho Hi Hc Hs <-].
  destruct (arrives_keeps _ _ _ _ _ Ha Hw Ho Hi Hs) as (o' & ws & ? & ? & E & ? & ? & ? & HQ).
  exists o', ws. split_and!; [| done | done]. split; [done | done | congruence | done | done].
Qed.

Lemma rx_reported ps fin c c' o :
  under_way ps fin c o -> read_ended c c' ->
  exists o', under_way ps fin c' o' /\ awake Reader c' /\ (awake Writer c -> awake Writer c') /\ tx o' = tx o /\
    (number Reader ps <> 0%nat -> tst (rx_state (rx o')) RX_STATE_SIGNAL_INTERRUPT = false /\
       0 <= rx_cm_count (rx o') <= Z.of_nat (length (rx_frames (rx o')))).
Proof.
  intros Hu (ox & Hox & Hend). pose proof (uw_handle _ _ _ _ Hu) as E. rewrite Hox in E. injection E as ->.
  pose proof (uw_places _ _ _ _ Hu) as Eps. rewrite Eps in Hend.
  destruct Hend as [[Hz ->]|(r & n & Hn & Hn31 & Ha)].
  - exists o. split_and!; try done. apply nobody_awake. by rewrite Eps.
  - destruct (arrives_under_way _ _ _ _ _ _ Ha I Hu) as (o' & ws & Hu' & Hps & HQ).
    destruct (HQ _ (fun E => rx_done_eff r n o)) as (Htx & _ & Hfr & Hcnt & Hb).
    exists o'. split_and!; [done | | | exact Htx |].
    + destruct (decide (number Reader ps = 0%nat)) as [Hz|Hz].
      * apply nobody_awake. by rewrite (uw_places _ _ _ _ Hu').
      * destruct (i_reader _ _ _ _ _ (uw_inv _ _ _ _ Hu) Hz) as (_ & Hbusy & _).
        apply (woken_awake ws _ _ _ (uw_sleeps _ _ _ _ Hu) Hps). right. exists wqRx. split; [done | by apply Hb].
    + intros Haw. apply (woken_awake ws _ _ _ (uw_sleeps _ _ _ _ Hu) Hps). by left.
    + intros Hz. destruct (i_reader _ _ _ _ _ (uw_inv _ _ _ _ Hu) Hz) as (_ & Hbusy & _).
      split; [by apply Hb |]. rewrite Hcnt, Hfr. rewrite s32_small by lia. lia.
Qed.

Lemma tx_reported ps fin c c' o :
  under_way ps fin c o -> writes_ended c c' ->
  exists o', under_way ps fin c' o' /\ (awake Reader c -> awake Reader c') /\ awake Writer c' /\
    rx o' = rx o /\ (number Writer ps = 0%nat -> tx_state (tx o') = 0) /\
    (number Writer ps <> 0%nat -> tst (tx_state (tx o')) TX_STATE_SIGNAL_INTERRUPT = false).
Proof.
  intros Hu (ox & Hox & Hend). pose proof (uw_handle _ _ _ _ Hu) as E. rewrite Hox in E. injection E as ->.
  destruct Hend as [[Hz ->]|(r & n & Ha)].
  - assert (number Writer ps = 0%nat) as Hw0.
    { destruct (decide (number Writer ps = 0%nat)) as [|Hw]; [done |].
      destruct (i_writer _ _ _ _ _ (uw_inv _ _ _ _ Hu) Hw) as (_ & [Hb _] & _). by apply tst_nonzero in Hb. }
    exists o. split_and!; try done. apply nobody_awake. by rewrite (uw_places _ _ _ _ Hu).
  - destruct (arrives_under_way _ _ _ _ _ _ Ha I Hu) as (o' & ws & Hu' & Hps & HQ).
    destruct (HQ _ (fun E => tx_done_eff r n o)) as (Er & _ & Hidle & Hbusy).
    exists o'. split_and!; [done | | | done | |].
    + intros Hr. apply (woken_awake ws _ _ _ (uw_sleeps _ _ _ _ Hu) Hps). by left.
    + destruct (decide (number Writer ps = 0%nat)) as [Hz|Hz].
      * apply nobody_awake. by rewrite (uw_places _ _ _ _ Hu').
      * destruct (i_writer _ _ _ _ _ (uw_inv _ _ _ _ Hu) Hz) as (_ & Hb & _).
        apply (woken_awake ws _ _ _ (uw_sleeps _ _ _ _ Hu) Hps). right. exists wqTx. split; [done | by apply Hbusy].
    + intros Hz. apply Hidle. by apply (i_no_writer _ _ _ _ _ (uw_inv _ _ _ _ Hu)).
    + intros Hz. destruct (i_writer _ _ _ _ _ (uw_inv _ _ _ _ Hu) Hz) as (_ & Hb & _). by apply Hbusy.
Qed.

(** processes that are awake, with everything reported, are ready *)
Lemma awake_ready ps fin c o p :
  under_way ps fin c o -> awake Reader c -> awake Writer c -> awake Closer c ->
  (number Reader ps <> 0%nat -> tst (rx_state (rx o)) RX_STATE_SIGNAL_INTERRUPT = false) ->
  (number Writer ps <> 0%nat -> tst (tx_state (tx o)) TX_STATE_SIGNAL_INTERRUPT = false) ->
  p ∈ procs c -> ready o p.
Proof.
  intros [Ho Hi Hc Hs <-] Har Haw Hac Hr Hw Hp.
  assert (forall r, number r (places c) = 0%nat -> role_of (place_of p) <> r) as Hno by eauto using nobody.
  assert (role_of (place_of p) = Nobody -> asleep p = false) as Hn.
  { intros Hn. destruct (asleep p) eqn:E; [| done]. pose proof (Hs p Hp E). by destruct (place_of p). }
  pose proof (Har p Hp) as Har'. pose proof (Haw p Hp) as Haw'. pose proof (Hac p Hp) as Hac'.
  assert (role_of (place_of p) = Reader -> rx_closing o = true /\
    tst (rx_state (rx o)) RX_STATE_SIGNAL_INTERRUPT = false) as HR.
  { intros E. assert (number Reader (places c) <> 0%nat) as Hz by (intros Hz; by apply (Hno Reader)).
    split; [by apply (i_reader _ _ _ _ _ Hi Hz) | auto]. }
  assert (role_of (place_of p) = Writer -> tx_closing o = true /\
    tst (tx_state (tx o)) TX_STATE_SIGNAL_INTERRUPT = false) as HW.
  { intros E. assert (number Writer (places c) <> 0%nat) as Hz by (intros Hz; by apply (Hno Writer)).
    split; [by apply (i_writer _ _ _ _ _ Hi Hz) | auto]. }
  unfold rx_closing, tx_closing in *. unfold ready.
  destruct p as [[] b]; simpl in *; auto; try (split; [by auto |]).
  - unfold read_ready. destruct (HR eq_refl) as [-> _]. by rewrite orb_true_r.
  - unfold read_aborted. by destruct (HR eq_refl) as [_ ->].
  - unfold write_ready. destruct (HW eq_refl) as [-> _]. by rewrite orb_true_r.
  - unfold write_aborted. by destruct (HW eq_refl) as [_ ->].
  - intros ->. by specialize (Hac' eq_refl).
Qed.

(** read and writes ended, in either order *)
Lemma both_ended ps fin c0 c1 c2 o :
  under_way ps fin c0 o ->
  read_ended c0 c1 /\ writes_ended c1 c2 \/ writes_ended c0 c1 /\ read_ended c1 c2 ->
  exists o2, under_way ps fin c2 o2 /\ awake Reader c2 /\ awake Writer c2 /\
    (number Reader ps <> 0%nat -> tst (rx_state (rx o2)) RX_STATE_SIGNAL_INTERRUPT = false /\
       0 <= rx_cm_count (rx o2) <= Z.of_nat (length (rx_frames (rx o2)))) /\
    (number Writer ps = 0%nat -> tx_state (tx o2) = 0) /\
    (number Writer ps <> 0%nat -> tst (tx_state (tx o2)) TX_STATE_SIGNAL_INTERRUPT = false).
Proof.
  intros Hu [[Hr Hw]|[Hw Hr]].
  - destruct (rx_reported _ _ _ _ _ Hu Hr) as (o1 & Hu1 & Hr1 & _ & _ & Hrx).
    destruct (tx_reported _ _ _ _ _ Hu1 Hw) as (o2 & Hu2 & Hr2 & Hw2 & Erx & Htx0 & Htxs).
    exists o2. rewrite Erx. split_and!; try done. by apply Hr2.
  - destruct (tx_reported _ _ _ _ _ Hu Hw) as (o1 & Hu1 & _ & Hw1 & _ & Htx0 & Htxs).
    destruct (rx_reported _ _ _ _ _ Hu1 Hr) as (o2 & Hu2 & Hr2 & Hw2 & Etx & Hrx).
    exists o2. rewrite Etx. split_and!; try done. by apply Hw2.
Qed.

Lemma reported_Closing c0 c3 o :
  reachable c0 -> handle (now c0) = Some o -> closed o = true -> reported c0 c3 ->
  w_held (now c3) = [] -> Closing c3.
Proof.
  intros Hre Ho Hcl Hrep Hheld. pose proof (Inv_reachable _ Hre) as (o0 & fin & Ho0 & Hi & Hf).
  rewrite Ho in Ho0. injection Ho0 as <-.
  assert (under_way (places c0) fin c0 o) as Hu by (split; try done; by apply Sleeps_reachable).
  destruct Hrep as [c0 c1 c2 c3 Hend Hc].
  destruct (both_ended _ _ _ _ _ _ Hu Hend) as (o2 & Hu2 & Hr2 & Hw2 & Hrx & Htx0 & Htxs).
  destruct (arrives_under_way _ _ _ _ _ _ Hc I Hu2) as (o3 & ws & Hu3 & Hps & HQ).
  destruct (HQ _ (fun E => close_done_eff o2)) as (Er3 & Et3 & _ & Hws & Hd3).
  pose proof (woken_awake ws) as Hwk. specialize (fun r Hor => Hwk r _ _ (uw_sleeps _ _ _ _ Hu2) Hps Hor).
  pose proof Hu3 as [Ho3 Hi3 Hc3 Hs3 Hp3]. exists o3, fin. rewrite Hp3.
  split_and!; [done | done | done | done | done | done | by rewrite Et3 | by rewrite Er3; apply Hrx |].
  intros p Hp. apply (awake_ready _ _ _ _ _ Hu3); try done.
  - apply Hwk. by left.
  - apply Hwk. by left.
  - apply Hwk. right. by exists wqCloseDelay.
  - rewrite Er3. apply Hrx.
  - by rewrite Et3.
Qed.

(** C22: a close ends.  A handle is closed and the nucleus then makes its last callbacks,
    [reported]: it ends the read and the writes, in either order, the frames sent
    without waiting among them, and after these reports the handle itself.  From there
    every process in the driver returns: whatever the order in which the processes run,
    there are at most three moves for each, and as long as one is in the driver, one can
    move.  That the handle is reported last matters, see [send_end_wakes_nobody]. *)
Theorem close_ends c0 c o n c' :
  reachable c0 -> handle (now c0) = Some o -> closed o = true ->
  reported c0 c -> w_held (now c) = [] -> nsteps move n c c' ->
  (n <= 3 * length (procs c))%nat /\
  forall p, p ∈ places c' -> over p = false -> exists c'', move c' c''.
Proof.
  intros Hre Ho Hcl Hrep Hheld Hn. pose proof (reported_Closing _ _ _ Hre Ho Hcl Hrep Hheld) as HK.
  clear - HK Hn. assert (Closing c' /\ (n + distance c' <= distance c)%nat) as [HK' Hd].
  { induction Hn as [c|n c1 c2 c3 H12 _ IH]; [done |]. destruct (Closing_move _ _ HK H12) as [HK2 Hlt].
    destruct (IH HK2) as [? ?]. split; [done | lia]. }
  split; [| intros p; by apply Closing_goes_on].
  assert (distance c <= 3 * length (procs c))%nat; [| lia].
  unfold distance. induction (procs c) as [|p ps IH]; simpl; [done |].
  assert (weight p <= 3)%nat by (unfold weight; repeat case_match; lia). lia.
Qed.

(** A close hangs when the handle is reported before the frames sent without waiting:
    the end of those clears the state the close waits for, and wakes nobody. *)
Lemma send_end_wakes_nobody `{Env} r n o :
  tst (tx_state (tx o)) TX_STATE_PENDING_SEND = true ->
  eff (run_callback (tx_done r n)) o (fun _ ws o' => ws = [] /\ tx_closing o' = false).
Proof. intros Hs. simpl. unfold esdcan_tx_done. effs; simpl in *; congruence || done. Qed.

(** A write that the nucleus ends with no more frames than were pending before it goes
    on to wait, and nothing will wake it. *)
Lemma write_end_unnoticed `{Env} r n old o :
  tx_state (tx o) = TX_STATE_PENDING_WRITE -> 0 < n <= old -> old < 2 ^ 31 ->
  eff (run_callback (tx_done r n)) o (fun _ _ o' => write_ready old o' = false).
Proof.
  intros Hs Hn Hold. simpl. unfold esdcan_tx_done. effs; simpl in *; rewrite ?Hs in *; try done; [lia |].
  unfold write_ready. simpl. rewrite Hs, (s32_small n) by lia. rewrite s32_small by lia.
  destruct (Z.ltb_spec 0 (n - old)); [lia | done].
Qed.

End Procs.

(** ** Opening a handle *)
Section opening.
Context `{Env}.

(** [sp m o Q]: on the handle [o], when [m] returns [a] and leaves the handle [o'], or
    none, [Q a o'] *)
Definition sp {A} (m : M esd A) (o : CAN_OCB) (Q : A -> option CAN_OCB -> Prop) : Prop :=
  forall w a w', handle w = Some o -> m w = Ret a w' -> Q a (handle w').

Lemma sp_bind {A B} (m : M esd A) (f : A -> M esd B) o Q :
  eff m o (fun a _ o' => sp (f a) o' Q) -> sp (m ≫= f) o Q.
Proof.
  intros Hm w b w' Ho. unfold mbind, M_bind. destruct (m w) as [a w1| |] eqn:E; try done.
  intros Hr. destruct (Hm w a w1 Ho E) as (o1 & evs & Ho1 & _ & Hf). by apply (Hf w1 b w').
Qed.
Lemma sp_ret {A} (a : A) o Q : Q a (Some o) -> sp (mret a) o Q.
Proof. intros HQ w b w' Ho [= <- <-]. by rewrite Ho. Qed.

Lemma eff_get_st o (Q : esd -> _ -> _ -> Prop) : (forall e, snd <$> ocb e = Some o -> Q e [] o) -> eff get o Q.
Proof. intros HQ w a w' Ho [= <- <-]. exists o, []. auto. Qed.

(** memory is apart from the handle *)
Lemma eff_on_heap {A} (m : M Memory.heap A) o Q :
  (forall w a w', m w = Ret a w' -> exists evs, w_log w' = evs ++ w_log w /\ wakes evs = []) ->
  (forall a, Q a [] o) -> eff (on_heap m) o Q.
Proof.
  intros Hm HQ w a w' Ho. unfold on_heap, zoom. destruct (m _) as [b w1| |] eqn:E; try done.
  intros [= <- <-]. destruct (Hm _ _ _ E) as (evs & Hl & Hw). exists o, evs.
  split; [done |]. split; [done |]. by rewrite Hw.
Qed.
Lemma malloc_quiet size (w : world Memory.heap) a w' :
  Memory.osif_malloc size w = Ret a w' -> exists evs, w_log w' = evs ++ w_log w /\ wakes evs = [].
Proof.
  unfold Memory.osif_malloc, Memory.set_mark, ask, tell, modify, mbind, M_bind, mret, M_ret.
  repeat case_match; intros E; simplify_eq; simpl.
  all: try by (eexists [_]; split; [reflexivity | done]).
  all: by (eexists [_; _]; split; [reflexivity | done]).
Qed.
Lemma eff_malloc size o (Q : Z * Z -> _ -> _ -> Prop) :
  (forall r p, Q (r, p) [] o) -> eff (on_heap (Memory.osif_malloc size)) o Q.
Proof. intros HQ. apply eff_on_heap; [apply malloc_quiet |]. intros []. apply HQ. Qed.

(** a piece that can only return [r] *)
Definition fixed {A} (m : M esd A) (r : A) : Prop := forall w a w', m w = Ret a w' -> a = r.
Lemma fixed_ret {A} (r : A) : fixed (mret r) r.
Proof. by intros w a w' [= <- <-]. Qed.
Lemma fixed_bind {A B} (m : M esd A) (f : A -> M esd B) r : (forall x, fixed (f x) r) -> fixed (m ≫= f) r.
Proof.
  intros Hf w b w'. unfold mbind, M_bind. destruct (m w) as [a w1| |]; try done. apply Hf.
Qed.
Lemma sp_fixed {A} (m : M esd A) r o Q : fixed m r -> (forall h, Q r h) -> sp m o Q.
Proof. intros Hm HQ w a w' _ E. apply Hm in E as ->. apply HQ. Qed.

Lemma eff_node_at net o (Q : option CAN_NODE -> _ -> _ -> Prop) :
  (forall n, Q n [] o) -> eff (node_at net) o Q.
Proof.
  intros HQ. unfold node_at. apply eff_bind, eff_get. intros e. destruct (_ <=? _); [by apply eff_ret |].
  by apply eff_of_option.
Qed.
Lemma eff_upd_node f o Q : Q tt [] o -> eff (upd_node f) o Q.
Proof.
  intros HQ. unfold upd_node. eff1. eff1. eff1. apply eff_the_node. intros n. by apply eff_modify.
Qed.
Lemma eff_ask_frames n o (Q : list (list Z) -> _ -> _ -> Prop) :
  (forall l, length l = n -> Forall (fun f => length f = Z.to_nat sizeof_CAN_MSG_T) l -> Q l [] o) ->
  eff (ask_frames n) o Q.
Proof.
  revert Q. induction n as [|n IH]; intros Q HQ; cbn [ask_frames]; [apply eff_ret; by apply HQ |].
  apply eff_bind, ask_bytes_eff. intros x Hx. apply eff_bind, IH. intros l Hl Hf. apply eff_ret.
  apply HQ; [simpl; by rewrite Hl | by constructor].
Qed.

Lemma create2_sp net init_mode init_tx init_rx o :
  rx_state (rx o) = 0 -> tx_state (tx o) = 0 -> closed o = false ->
  sp (ocb_create2 net init_mode init_tx init_rx) o (fun result h =>
    result = OSIF_SUCCESS -> exists o', h = Some o' /\ frames_ok o' /\
      rx_state (rx o') = 0 /\ tx_state (tx o') = 0 /\ closed o' = false).
Proof.
  intros Hr Ht Hc. unfold ocb_create2. apply sp_bind, eff_node_at. intros [n|]; [| by apply sp_ret].
  cbv zeta. destruct (_ || _); [by apply sp_ret |].
  apply sp_bind, eff_upd_ocb, sp_bind, eff_the_node. intros n'.
  destruct (_ && _).
  { eapply sp_fixed; [apply fixed_bind; intros _; apply fixed_ret | by intros h [=]]. }
  apply sp_bind.
  assert (forall o1 (Q : unit -> _ -> _ -> Prop), Q tt [] o1 -> eff (when (tst init_mode FEATURE_LOM)
    (upd_node (fun n => n <| node_mode ::= fun m => Z.lor m FEATURE_LOM |>))) o1 Q) as Hlom.
  { intros o1 Q HQ. apply eff_when; [| done]. intros _. by apply eff_upd_node. }
  apply Hlom, sp_bind, eff_upd_ocb, sp_bind, eff_malloc. intros r p.
  apply sp_bind, eff_upd_rx. destruct (negb (r =? OSIF_SUCCESS)) eqn:Er.
  { apply negb_true_iff, Z.eqb_neq in Er.
    eapply sp_fixed; [apply fixed_bind; intros _; apply fixed_ret | by intros h ?]. }
  apply sp_bind, eff_ask_frames. intros frames _ Hf. apply sp_bind, eff_upd_rx, sp_bind, eff_node_lock.
  apply sp_bind, nuc_eff; [done |]. intros r' ws o1 Ho1. apply sp_bind, eff_node_unlock.
  destruct (negb (r' =? OSIF_SUCCESS)) eqn:Er'.
  { apply negb_true_iff, Z.eqb_neq in Er'.
    eapply sp_fixed; [apply fixed_bind; intros _; apply fixed_bind; intros _; apply fixed_ret | by intros h ?]. }
  apply sp_ret. intros _. exists o1. split; [done |]. destruct Ho1 as [[Hcl _ Hfr] [Hri _] [_ Htn _]].
  split_and!; [by apply Hfr | by apply Hri | by apply Htn | by rewrite Hcl].
Qed.

Lemma create_blank sz net w w1 :
  ocb_create sz net w = Ret OSIF_SUCCESS w1 -> handle w1 = Some (blank_ocb net).
Proof.
  unfold ocb_create. intros (node & w2 & _ & Hr)%bind_inv. destruct node as [n|]; [| by injection Hr].
  apply bind_inv in Hr as ([r p] & w3 & _ & Hr). apply bind_inv in Hr as ([] & w4 & Hw & Hr).
  injection Hr as -> <-. simpl in Hw. by injection Hw as <-.
Qed.

(** When IOCTL_ESDCAN_CREATE succeeds, the file has a handle that nobody uses yet: the
    state from which the processes of a handle start. *)
Theorem create_opens others fuel sz net buffer size w size' w' :
  private_data (w_st w) = 0 ->
  esdcan_ioctl_internal others fuel sz net IOCTL_ESDCAN_CREATE buffer size w =
    Ret (OSIF_SUCCESS, size') w' ->
  Procs.opened (Procs.Mk_config w' []) /\ size' = size.
Proof.
  intros Hp. unfold esdcan_ioctl_internal. intros (e & w1 & He & Hr)%bind_inv. injection He as <- <-.
  rewrite Hp in Hr. cbn [Z.eqb] in Hr. rewrite Z.eqb_refl in Hr.
  apply bind_inv in Hr as (l & w1 & _ & Hr).
  destruct l as [[|a [|b [|c [|]]]]|]; try by injection Hr.
  apply bind_inv in Hr as (r & w2 & Hc & Hr). destruct (Z.eqb_spec r OSIF_SUCCESS) as [->|]; [| by injection Hr].
  pose proof (create_blank _ _ _ _ Hc) as Hb. apply bind_inv in Hr as (r2 & w3 & Hc2 & Hr).
  destruct (Z.eqb_spec r2 OSIF_SUCCESS) as [->|]; [| by injection Hr].
  destruct (create2_sp net a b c (blank_ocb net) eq_refl eq_refl eq_refl w2 _ w3 Hb Hc2 eq_refl)
    as (o' & Ho' & Hf & Hrx & Htx & Hcl). cbn [negb] in Hr.
  apply bind_inv in Hr as ([] & w4 & Hm & Hr). injection Hm as <-.
  apply bind_inv in Hr as (r3 & w5 & Hn & Hr). injection Hr as <- <-. split; [| done].
  lazymatch type of Hn with nuc _ _ ?v = _ => assert (handle v = Some o') as Ho5 by exact Ho' end.
  destruct (nuc_eff "nuc_check_links" [] o' (fun _ _ => cb o') eq_refl (fun _ _ _ H => H) _ _ _ Ho5 Hn)
    as (o2 & _ & Ho2 & _ & [[Ec _ Hf2] [Hri _] [_ Htn _]]).
  apply (Procs.Opened _ o2); [done | auto | auto | auto | by rewrite Ec].
Qed.

(** A queue that is too long is refused, with the handle that ocb_create has allocated
    left as it is: the caller returns without it, and nothing frees it. *)
Lemma create_leaks_handle net init_mode init_tx init_rx w n :
  zlookup (nodes (w_st w)) net = Some (Some n) -> net < MAX_CARDS * NODES_PER_CARD ->
  CANIO_MAX_RX_QUEUESIZE < init_rx < 0xFFFFFFFF ->
  ocb_create2 net init_mode init_tx init_rx w = Ret OSIF_INVALID_PARAMETER w.
Proof.
  intros Hn Hnet Hq. assert (queue_size init_rx = init_rx) as Eq.
  { unfold queue_size. case_match eqn:E; [| done].
    apply orb_true_iff in E as [E|E]; apply Z.eqb_eq in E; unfold CANIO_MAX_RX_QUEUESIZE in Hq; lia. }
  assert (node_at net w = Ret (Some n) w) as En.
  { unfold node_at, get, mbind, M_bind. destruct (Z.leb_spec (MAX_CARDS * NODES_PER_CARD) net); [lia |].
    by rewrite Hn. }
  unfold ocb_create2, mbind, M_bind at 1. rewrite En. cbv zeta. rewrite Eq.
  destruct (Z.ltb_spec CANIO_MAX_RX_QUEUESIZE init_rx); [| lia]. by rewrite orb_true_r.
Qed.
End opening.

(** ** Witnesses *)
Module Witness.
Import Procs.

Definition card : CAN_CARD := Mk_CAN_CARD 1 (Mk_VERSION96 1 2 3) (Mk_VERSION96 0 0 0) (Mk_VERSION96 1 0 0) [] 0 0.
Definition node : CAN_NODE := Mk_CAN_NODE 0 0 0 card 0.
Definition handle0 : CAN_OCB :=
  Mk_OCB (Mk_RX 0 0 0 0 0 4096 [replicate 24 0; replicate 24 0] 0 0) (Mk_TX 0 0 0 0 0 0) 0 0 0 0 0 0.
Definition w0 : world esd := World [] [] (Mk_esd (Memory.Heap ∅) [Some node] 1024 (Some (1024, handle0))).
Definition c0 : config := Mk_config w0 [].

(** what a piece returns and leaves *)
Definition after {A} (d : A) (m : M esd A) (w : world esd) : A * world esd :=
  match m w with Ret a w' => (a, w') | _ => (d, w) end.
Definition run_enter (c : command) (cf : config) : config :=
  let '(p, w') := after (returned 0) (enter (H := quiet_env) c) (now cf) in
  let evs := take (length (w_log w') - length (w_log (now cf))) (w_log w') in
  Mk_config w' ((woken (wakes evs) <$> procs cf) ++ [Mk_proc p false]).
Definition run_callback_ (c : callback) (cf : config) : config :=
  let '(_, w') := after tt (run_callback (H := quiet_env) c) (now cf) in
  let evs := take (length (w_log w') - length (w_log (now cf))) (w_log w') in
  Mk_config w' (woken (wakes evs) <$> procs cf).

(** one process reads, a second is refused, a third closes; the nucleus reports *)
Definition c1 : config := run_enter (Read 8192 2 16) c0.
Definition c2 : config := run_enter (Read 8192 2 16) c1.
Definition c3 : config := run_enter Close c2.
Definition c4 : config := run_callback_ (rx_done 0 0) c3.
Definition c5 : config := run_callback_ close_done c4.

Example the_places :
  places c5 = [reading 8192; returned (- OSIF_PENDING_READ); closing 0].
Proof. vm_compute. reflexivity. Qed.

Lemma run_enter_step c cf :
  well_formed c ->
  (let '(p, w') := after (returned 0) (enter (H := quiet_env) c) (now cf) in
   enter (H := quiet_env) c (now cf) = Ret p w' /\
   w_log w' = take (length (w_log w') - length (w_log (now cf))) (w_log w') ++ w_log (now cf)) ->
  step cf (run_enter c cf).
Proof.
  intros Hwf. unfold run_enter. destruct cf as [w ps]. destruct (after _ _ _) as [p w']. intros [Hr Hl].
  apply (step_enter c); [done |]. by exists quiet_env, (take (length (w_log w') - length (w_log w)) (w_log w')).
Qed.
Lemma run_callback_arrives c cf :
  (let '(a, w') := after tt (run_callback (H := quiet_env) c) (now cf) in
   run_callback (H := quiet_env) c (now cf) = Ret a w' /\
   w_log w' = take (length (w_log w') - length (w_log (now cf))) (w_log w') ++ w_log (now cf)) ->
  arrives c cf (run_callback_ c cf).
Proof.
  unfold run_callback_. destruct cf as [w ps]. destruct (after _ _ _) as [[] w']. intros [Hr Hl].
  exists (wakes (take (length (w_log w') - length (w_log w)) (w_log w'))). split; [| done].
  by exists quiet_env, (take (length (w_log w') - length (w_log w)) (w_log w')).
Qed.
Ltac evaluated := vm_compute; split; reflexivity.

Lemma reads_with_16 a b : well_formed (Read a b 16).
Proof. apply list_elem_of_here. Qed.
Lemma step_c1 : step c0 c1.
Proof. apply (run_enter_step (Read 8192 2 16)); [apply reads_with_16 | evaluated]. Qed.
Lemma step_c2 : step c1 c2.
Proof. apply (run_enter_step (Read 8192 2 16)); [apply reads_with_16 | evaluated]. Qed.
Lemma step_c3 : step c2 c3.
Proof. apply (run_enter_step Close); [done | evaluated]. Qed.
Lemma c3_reachable : reachable c3.
Proof.
  exists c0. split.
  - apply (Opened w0 handle0); try done. by repeat constructor.
  - exact (rtc_l _ _ _ _ step_c1 (rtc_l _ _ _ _ step_c2 (rtc_once _ _ step_c3))).
Qed.

Lemma handle_is_exclusive_witness :
  number Reader (places c3) = 1%nat /\
  exists o, handle (now c3) = Some o /\ number Closer (places c3) = (if closed o then 1 else 0)%nat.
Proof.
  destruct (handle_is_exclusive c3 c3_reachable) as (o & Ho & _ & _ & Hc & _).
  split; [vm_compute; reflexivity |]. exists o. split; [exact Ho | exact Hc].
Defined.

Definition o3 : CAN_OCB := default handle0 (handle (now c3)).
Definition o4 : CAN_OCB := default handle0 (handle (now c4)).
Definition c6 : config := Mk_config (now c5) (<[0%nat := Mk_proc (read_leaving 8192 false) false]> (procs c5)).

Lemma c5_reported : reported c3 c5.
Proof.
  apply (Reported c3 c4 c4 c5); [left; split |].
  - exists o3. split; [vm_compute; reflexivity |].
    right. exists 0, 0. split; [vm_compute; done |]. split; [lia |]. apply run_callback_arrives. evaluated.
  - exists o4. split; [vm_compute; reflexivity |]. left. split; [vm_compute; reflexivity | done].
  - apply run_callback_arrives. evaluated.
Qed.
Lemma move_waited_ cf i p q cond next o :
  procs cf !! i = Some (Mk_proc p false) -> waits p = Some (q, cond, next) ->
  handle (now cf) = Some o -> cond o = true ->
  move cf (Mk_config (now cf) (<[i := Mk_proc next false]> (procs cf))).
Proof. destruct cf as [w ps]. apply move_waited. Qed.
Lemma c6_moves : move c5 c6.
Proof.
  apply (move_waited_ c5 0 (reading 8192) wqRx read_ready (read_leaving 8192 false)
    (default handle0 (handle (now c5)))); vm_compute; reflexivity.
Qed.

Lemma close_ends_witness : exists c', move c6 c'.
Proof.
  assert (closed o3 = true) as Hc by (vm_compute; reflexivity).
  assert (w_held (now c5) = []) as Hh by (vm_compute; reflexivity).
  assert (handle (now c3) = Some o3) as Ho by (vm_compute; reflexivity).
  destruct (close_ends c3 c5 o3 1 c6 c3_reachable Ho Hc c5_reported Hh
    (nsteps_once _ _ c6_moves)) as [_ Hg].
  apply (Hg (closing 0)); [| reflexivity]. vm_compute. right. right. left.
Defined.

End Witness.
